(* ===== verification/_CoqProject ===== *)
-Q . S2P
Prelude.v
GoStrings.v
GoMap.v
GoNet.v
GoCidr.v
RustNet.v
Constants.v
Bitmap.v
IpamIndex.v
IpamAllocator.v
IpamPool.v
IpamManager.v
LbIpam.v
Identity.v
SlotAllocator.v
Maglev.v
ServiceWatcher.v
PolicyTable.v
EbpfMaps.v
EbpfHelpers.v
Dataplane.v
PolicyCompiler.v
PolicySpec.v
PolicyEnforcement.v
EbpfTc.v
EbpfSock.v
GoUtf8.v
GoTabwriter.v
GoText.v
Intent.v
FrrClient.v
Reconciler.v
ReconcilerSync.v
ReconcilerProps.v
RoutingEvents.v
RoutingManager.v
RoutingRpcs.v
GoSha256.v
DnsCache.v
ExtendedPolicy.v
RoutingPolicy.v
DpClient.v
EgressManager.v
AgentServer.v
AgentProps.v
CpVip.v
Overlay.v
AgentConfig.v
HostFirewall.v
EgressGateway.v
NativeRouting.v
NodeMode.v
Webhook.v
RemoteSync.v
DpReads.v
DpHost.v
DpFlows.v
DpLoader.v
AgentFlows.v
EbpfServices.v
OperatorIpam.v
ConfigFile.v
CniPlugin.v
OperatorCluster.v
NodeServices.v
PodNetwork.v
NodeLinks.v
AgentHost.v
Novanetctl.v
AgentMain.v
