(* ===== verification/Prelude.v ===== *)
(** NovaNet: verification of a Kubernetes network plugin.

    * The program

    NovaNet gives pods addresses and identities, connects nodes by tunnels or by BGP,
    balances services and enforces network policies.  Its parts are
    - the agent (cmd/novanet-agent, internal/...), a Go process on every node that keeps
      addresses, identities, services, policies, tunnels and routes, and writes what the
      kernel needs to know through gRPC calls to
    - the dataplane daemon (dataplane/novanet-dataplane, Rust), which keeps the eBPF maps
      that are read by
    - the eBPF programs (dataplane/novanet-ebpf, Rust) on the traffic-control, socket and
      cgroup hooks;
    - the CNI plugin (cmd/novanet-cni), which the container runtime calls and which calls
      the agent;
    - the routing daemon FRR, driven through vtysh by internal/routing;
    - the command-line tool (cmd/novanetctl), which asks the agent and prints the answers;
    - the operator (cmd/novanet-operator, internal/operator, internal/webhook), which
      installs the agents of a cluster, manages address pools and checks resources.

    The models are translations of the sources into functions: Go maps are [gmap]s, Go
    errors are values of [result], run-time panics are the outcome [Panic], loops that are
    not structural carry fuel and end in [Diverge] without it, and machine integers are
    [Z] with explicit wrap-around.  A method that holds its mutex throughout is one step.
    Log lines and metrics are dropped.

    * The files

    Foundations.  [Prelude]: outcomes, machine integers, tactics, hints.  [GoStrings],
    [GoUtf8], [GoText]: strings, splitting, decimal and hexadecimal printing, UTF-8.
    [GoMap]: iteration over Go maps in an arbitrary order, the class [MapIter].  [GoNet],
    [GoCidr]: net.IP, net.IPNet and their text forms with round trips.  [RustNet]: the
    Rust address parser.  [GoSha256]: SHA-256, which the agent uses for pod hardware
    addresses.  [GoTabwriter]: text/tabwriter, with what a table reads back as.
    [Constants]: internal/constants.

    Addresses.  [Bitmap], [IpamIndex], [IpamAllocator]: the bitmap and the node allocator
    with its state directory (internal/ipam/bitmap.go, allocator.go).  [IpamPool],
    [IpamManager]: pools, the manager and its gRPC server.  [LbIpam]: internal/lbipam.
    [OperatorIpam]: the IPPool and IPAllocation controllers.

    Identities and policies.  [Identity]: internal/identity.  [PolicyCompiler],
    [ExtendedPolicy], [DnsCache]: internal/policy.  [PolicySpec]: what a NetworkPolicy says
    in Kubernetes' terms, port ranges included, independently of the compiler.
    [PolicyTable]: the policy map of the daemon and its lookup in the kernel.
    [PolicyEnforcement]: from a NetworkPolicy to the verdict of the kernel.  [HostFirewall], [EgressManager], [EgressGateway]: host
    policies and egress rules.  [Webhook]: admission (internal/webhook).

    Services.  [SlotAllocator], [Maglev], [ServiceWatcher]: internal/service.  [CpVip]:
    the control-plane address (internal/agent/cpvip).

    Kernel side.  [EbpfMaps]: keys and values of the maps; at an insertion into an LRU map
    the kernel may evict any entries or refuse it, by a list of answers that is part of the
    state.  [EbpfHelpers], [EbpfTc],
    [EbpfSock]: the programs.  [Dataplane], [DpReads], [DpHost]: the handlers of the daemon,
    the last file those of the host firewall and of XDP, over tries whose size, removals
    and walks the class [TrieRoom] answers for.  [DpFlows]: flow events, from the bytes in the ring buffer to the
    messages of a subscriber.  [DpLoader]: which programs and maps the daemon needs, takes
    and attaches, with the aya library as the class [Aya], on the repository's object.
    [DpClient]: the agent's client, with the class [DpNet] of networks that deliver, lose,
    or answer too late.  [EbpfServices]: the API over it (internal/ebpfservices).

    Routing.  [Intent]: the intent store.  [FrrClient]: vtysh commands, with FRR as the
    class [Vtysh] of oracles over the history of runs.  [Reconciler], [ReconcilerSync],
    [ReconcilerProps], [RoutingEvents]: the reconciler.  [RoutingManager]: the manager with
    its event channels.  [RoutingRpcs]: the listing calls.  [RoutingPolicy]: the policy
    engine and the routing configuration.  [NativeRouting], [NodeMode], [Overlay]: native routing, node registry and modes,
    tunnels and the node watcher.

    Agent, plugin, operator.  [AgentServer], [AgentProps]: AddPod, DelPod and the other
    calls of internal/agent/server.go.  [RemoteSync]: endpoints of other nodes.
    [AgentFlows]: the connection to the daemon, flow metrics, the flow stream and status.
    [AgentConfig], [ConfigFile]: the configuration.  [CniPlugin]: cmd/novanet-cni.
    [PodNetwork]: the veth pair of a pod (internal/cni), over the class [Kernel] of kernels
    that may refuse any call.  [AgentHost]: AddPod and DelPod run with it.  [NodeLinks]:
    WireGuard, the tunnel interface and masquerading, a module each.  [OperatorCluster]:
    the NovaNetCluster controller, with the class [ApiNet] of API servers whose calls may
    fail.  [NodeServices]: bandwidth limits, XDP attachment, layer-2 announcements, peer
    authentication and informer dispatch, a module each.  [AgentMain]: the start of the
    agent process over these models, and its shutdown.  [Novanetctl]: the commands of
    cmd/novanetctl, each from the answer of the agent to the text it prints.

    * The theorems

    - Addresses are granted once: the node allocator refines a machine over the set of held
      addresses, survives restarts, and pods on a node never share an address, whatever
      order CNI calls come in and whatever fails; failed calls roll back, and every pod the
      agent knows is wired to the host.
    - Policies: compiled rules admit nothing the policy does not admit, and all it admits
      where it has no port ranges; the kernel table answers accordingly after a
      synchronisation; what each program does with the answer is stated exactly, where no
      answer is asked included.  Extended policies, with bounded ranges, and egress rules
      likewise.
    - Services: slots of the backend array are never shared, the requests of the watcher
      refer to the slots of the service, flows keep their backend while the kernel keeps
      their connection entry, Maglev shares are even.
    - Nodes agree: identities, remote endpoints up to leftovers of changed addresses,
      tunnels of nodes with fixed addresses, and BGP sessions of two nodes fit together.
    - Routing converges: a reconciliation brings FRR to the intents and is then stable where
      owners do not contest keys, an advertised prefix is applied once BGP is set up, no
      parameter can smuggle in configuration.
    - The operator's passes apply the resource whatever calls fail, recover when the API
      server does, and produce well-formed objects; with which settings the agents start is
      stated exactly, variables of their container included.  Addresses of its pools are
      held by objects unless a user's edit took them away.
    - What is shown is what is there: the daemon's messages name the packets the programs
      reported, subscribers see the flows in order, printed tables read back as the rules
      and peers of the agent's answers.
    - The daemon and the agent start exactly when they have what they need; the agent's
      shutdown ends exactly when no client holds a stream open.
    - The agent's own sockets serve root only, in unary and streaming calls; rate limits,
      caches and tables stay in their bounds, evictions counted.
    - Some theorems state behaviour that is surely not meant, each as the exact effect on a
      run: they are the evidence for the findings listed with the development.

    * Bounds and fuel

    Fuel is given where the source loops: 102 steps for a port range, which the code limits
    to 100 ports; the size of the table for the Maglev search; the number of identities for
    probing; the number of cells of the longest line for the columns of a table.  Each has a
    theorem that the fuel is enough, or that no fuel is.  Histories of agent calls have at
    most 2^64 steps, because identities are 64-bit numbers and probing has to find a free
    one.  Reference counts, Go ints that are only counted up and down by one, are unbounded
    numbers.

    * Not modelled

    The remaining netlink calls, file and socket system calls and the Kubernetes
    client appear as arguments that give their outcome.  Label selectors of apimachinery,
    vtysh, the JSON decoder and the gRPC library are parameters with the laws that are
    used.  Generated code, Prometheus metrics, flags and the command tree of cobra, the
    start of the operator, the IPv6 tables of the daemon, which no program reads, and the
    test doubles are left out, as are the checksums of the kernel helpers, which no modelled
    decision depends on.
    AddPod and DelPod take their locks several times; they are modelled as running one
    after another. *)

From Stdlib Require Import ZArith Lia Ascii String.
From stdpp Require Import base tactics list gmap strings fin_maps.

Open Scope Z_scope.

(** * Outcomes of Go code *)

(** A Go function returns, panics at run time, or does not return.  The models
    of loops that are not structurally recursive carry fuel, and [Diverge] is
    the outcome of a run that has used it up. *)
Inductive outcome (A : Type) : Type :=
| Val (a : A)
| Panic
| Diverge.
Arguments Val {A} a.
Arguments Panic {A}.
Arguments Diverge {A}.

#[export] Instance outcome_ret : MRet outcome := fun _ a => Val a.
#[export] Instance outcome_bind : MBind outcome := fun _ _ f m =>
  match m with Val a => f a | Panic => Panic | Diverge => Diverge end.

(** The (value, error) pair a fallible Go function returns. *)
Inductive result (E A : Type) : Type :=
| Ok (a : A)
| Err (e : E).
Arguments Ok {E A} a.
Arguments Err {E A} e.

(** [is_ok r] is the test [err == nil]. *)
Definition is_ok {E A} (r : result E A) : bool :=
  match r with Ok _ => true | Err _ => false end.

(** * Development tactics *)

(** Turn boolean comparisons of hypotheses and goal into propositions. *)
Create Rewrite HintDb go_bool.
#[export] Hint Rewrite Z.eqb_eq Z.eqb_neq Z.ltb_lt Z.ltb_ge Z.leb_le Z.leb_gt
  andb_true_iff andb_false_iff orb_true_iff orb_false_iff
  negb_true_iff negb_false_iff String.eqb_eq String.eqb_neq : go_bool.

Ltac to_prop := autorewrite with go_bool in *.

(** Split the conditionals and matches of a monadic Go body that occur in a
    hypothesis, closing the impossible branches. *)
Ltac go_inv H :=
  repeat (first
    [ discriminate H
    | progress simpl in H
    | match type of H with
      | context [match ?x with _ => _ end] => destruct x eqn:?
      | context [if ?b then _ else _] => destruct b eqn:?
      end ]); simplify_eq.

(** The same on the goal. *)
Ltac go_case :=
  match goal with
  | |- context [if ?b then _ else _] => destruct b eqn:?
  | |- context [match ?x with _ => _ end] => destruct x eqn:?
  end.

(** * Machine integers *)

(** Wrap-around of unsigned arithmetic at each width of the code. *)
Definition wrap8 (x : Z) : Z := x mod 2 ^ 8.
Definition wrap16 (x : Z) : Z := x mod 2 ^ 16.
Definition wrap32 (x : Z) : Z := x mod 2 ^ 32.
Definition wrap64 (x : Z) : Z := x mod 2 ^ 64.

(** Conversion to a signed 64-bit [int]. *)
Definition to_int64 (x : Z) : Z :=
  let y := x mod 2 ^ 64 in if y <? 2 ^ 63 then y else y - 2 ^ 64.

Definition MaxUint16 : Z := 65535.
Definition MaxUint64 : Z := 18446744073709551615.

(** [x << n] on uint64: a shift count of 64 or more gives 0. *)
Definition shl64 (x n : Z) : Z := if n <? 64 then wrap64 (Z.shiftl x n) else 0.

(** [^x] on uint64. *)
Definition not64 (x : Z) : Z := MaxUint64 - x.

(** [x &^ y] (and-not). *)
Definition andnot (x y : Z) : Z := Z.ldiff x y.

Definition is_u64 (x : Z) : Prop := 0 <= x < 2 ^ 64.
Definition is_byte (x : Z) : Prop := 0 <= x < 256.

Lemma wrap32_small x : 0 <= x < 2 ^ 32 -> wrap32 x = x.
Proof. intros. unfold wrap32. by apply Z.mod_small. Qed.

Lemma wrap64_small x : 0 <= x < 2 ^ 64 -> wrap64 x = x.
Proof. intros. unfold wrap64. by apply Z.mod_small. Qed.

Lemma wrap64_range x : is_u64 (wrap64 x).
Proof. unfold is_u64, wrap64. apply Z.mod_pos_bound. lia. Qed.

Lemma to_int64_small x : 0 <= x < 2 ^ 63 -> to_int64 x = x.
Proof.
  intros. unfold to_int64. rewrite Z.mod_small by lia.
  destruct (x <? 2 ^ 63) eqn:E; to_prop; lia.
Qed.

Lemma shl64_1 n : 0 <= n < 64 -> shl64 1 n = 2 ^ n.
Proof.
  intros. unfold shl64, wrap64.
  destruct (n <? 64) eqn:E; to_prop; [|lia].
  rewrite Z.shiftl_1_l, Z.mod_small; [done|].
  split; [lia|]. apply Z.pow_lt_mono_r; lia.
Qed.

Lemma testbit_u64_high x n : is_u64 x -> 64 <= n -> Z.testbit x n = false.
Proof.
  intros [? ?] ?. destruct (decide (x = 0)) as [->|]; [apply Z.bits_0|].
  apply Z.bits_above_log2; [done|].
  apply Z.log2_lt_pow2; [lia|]. eapply Z.lt_le_trans; [done|].
  apply Z.pow_le_mono_r; lia.
Qed.

Lemma testbit_max64 n : 0 <= n < 64 -> Z.testbit MaxUint64 n = true.
Proof.
  intros. change MaxUint64 with (Z.ones 64).
  apply Z.ones_spec_low. lia.
Qed.

Lemma u64_bits_bound x : 0 <= x -> (forall n, 64 <= n -> Z.testbit x n = false) -> is_u64 x.
Proof.
  intros Hx Hb. split; [done|].
  replace x with (x mod 2 ^ 64); [apply Z.mod_pos_bound; lia|].
  apply Z.bits_inj'; intros n Hn.
  destruct (decide (n < 64)).
  - by rewrite Z.mod_pow2_bits_low by lia.
  - rewrite Z.mod_pow2_bits_high by lia. rewrite Hb; [done|lia].
Qed.

(** A word whose low 64 bits are all set is the all-ones word. *)
Lemma u64_all_ones x :
  is_u64 x -> (forall n, 0 <= n < 64 -> Z.testbit x n = true) -> x = MaxUint64.
Proof.
  intros Hx Hb. apply Z.bits_inj'; intros n Hn.
  destruct (decide (n < 64)).
  - rewrite Hb, testbit_max64 by lia. done.
  - rewrite testbit_u64_high by (done || lia).
    rewrite testbit_u64_high; [done| |lia]. unfold is_u64, MaxUint64. lia.
Qed.

Lemma not64_spec x n :
  is_u64 x -> 0 <= n < 64 -> Z.testbit (not64 x) n = negb (Z.testbit x n).
Proof.
  intros [? ?] ?. unfold not64.
  replace (MaxUint64 - x) with ((Z.lnot x) mod 2 ^ 64).
  - rewrite Z.mod_pow2_bits_low by lia. apply Z.lnot_spec. lia.
  - unfold Z.lnot, MaxUint64. symmetry. apply Z.mod_unique_pos with (q := -1); lia.
Qed.

Lemma not64_range x : is_u64 x -> is_u64 (not64 x).
Proof. unfold is_u64, not64, MaxUint64. lia. Qed.

(** ** Bytes of a number *)

(** The [n] bytes of a number in memory, least significant first, and the number. *)
Fixpoint le_bytes (n : nat) (x : Z) : list Z :=
  match n with O => [] | S n => wrap8 x :: le_bytes n (Z.shiftr x 8) end.
Definition of_le (l : list Z) : Z := foldr (fun b acc => b + 256 * acc) 0 l.

Lemma length_le_bytes n x : length (le_bytes n x) = n.
Proof. revert x. induction n as [|n IH]; intros x; cbn; [done|by rewrite IH]. Qed.

Lemma of_le_bytes n x : 0 <= x < 2 ^ (8 * Z.of_nat n) -> of_le (le_bytes n x) = x.
Proof.
  revert x. induction n as [|n IH]; intros x Hx; cbn [le_bytes of_le foldr].
  { change (2 ^ _) with 1 in Hx. lia. }
  fold (of_le (le_bytes n (Z.shiftr x 8))). rewrite Z.shiftr_div_pow2 by lia. change (2 ^ 8) with 256.
  replace (8 * Z.of_nat (S n)) with (8 + 8 * Z.of_nat n) in Hx by lia. rewrite Z.pow_add_r in Hx by lia. change (2 ^ 8) with 256 in Hx.
  rewrite IH; [unfold wrap8; change (2 ^ 8) with 256; Z.div_mod_to_equations; lia|].
  split; [apply Z.div_pos; lia|apply Z.div_lt_upper_bound; lia].
Qed.

(** * Slices *)

(** [l[i]] and [l[i] = x], which panic out of range. *)
Definition go_index {A} (l : list A) (i : Z) : outcome A :=
  if i <? 0 then Panic
  else match l !! Z.to_nat i with Some x => Val x | None => Panic end.

Definition go_update {A} (l : list A) (i : Z) (x : A) : outcome (list A) :=
  if (0 <=? i) && (i <? Z.of_nat (length l)) then Val (<[Z.to_nat i := x]> l)
  else Panic.

(** [make([]T, n)] for a zero value [z] of [size] bytes: the runtime refuses a
    negative length and a slice of more than 2^48 bytes. *)
Definition go_make {A} (z : A) (size n : Z) : outcome (list A) :=
  if (n <? 0) || (2 ^ 48 <? n * size) then Panic else Val (replicate (Z.to_nat n) z).

Lemma go_index_val {A} (l : list A) i x :
  0 <= i -> l !! Z.to_nat i = Some x -> go_index l i = Val x.
Proof. intros ? H. unfold go_index. destruct (i <? 0) eqn:E; to_prop; [lia|]. by rewrite H. Qed.

Lemma go_index_total {A} (l : list A) i :
  0 <= i < Z.of_nat (length l) ->
  exists x, l !! Z.to_nat i = Some x /\ go_index l i = Val x.
Proof.
  intros ?. destruct (lookup_lt_is_Some_2 l (Z.to_nat i)) as [x Hx]; [lia|].
  exists x. split; [done|]. apply go_index_val; [lia|done].
Qed.

Lemma go_update_val {A} (l : list A) i x :
  0 <= i < Z.of_nat (length l) -> go_update l i x = Val (<[Z.to_nat i := x]> l).
Proof.
  intros. unfold go_update.
  destruct ((0 <=? i) && (i <? Z.of_nat (length l))) eqn:E; to_prop; [done|lia].
Qed.

(** [len(l)] as a Go [int]. *)
Definition go_len {A} (l : list A) : Z := Z.of_nat (length l).
