(* ===== verification/GoStrings.v ===== *)
(** Go strings: the operations of the [strings], [strconv] and [fmt] packages
    the code uses, on byte strings, with the printing lemmas the components
    share (positional notation, splitting what was joined, injectivity of
    decimal printing). *)

From Stdlib Require Import ZArith Lia Ascii String.
From stdpp Require Import base tactics list gmap strings fin_maps.
From S2P Require Import Prelude.

(** * Bytes *)

(** The byte with value [n]. *)
Definition chr (n : Z) : ascii := ascii_of_N (Z.to_N n).
Definition ord (c : ascii) : Z := Z.of_N (N_of_ascii c).

Lemma ord_range c : 0 <= ord c < 256.
Proof. unfold ord. pose proof (N_ascii_bounded c). lia. Qed.

Lemma ord_chr n : 0 <= n < 256 -> ord (chr n) = n.
Proof. intros. unfold ord, chr. rewrite N_ascii_embedding; lia. Qed.

Lemma chr_ord c : chr (ord c) = c.
Proof. unfold ord, chr. rewrite N2Z.id. apply ascii_N_embedding. Qed.

Lemma ord_inj c d : ord c = ord d -> c = d.
Proof. intros H. by rewrite <- (chr_ord c), H, chr_ord. Qed.

(** * Characters of a string *)

Fixpoint str_all (p : ascii -> bool) (s : string) : bool :=
  match s with
  | EmptyString => true
  | String c r => p c && str_all p r
  end.

Definition str_has (c : ascii) (s : string) : bool := negb (str_all (fun d => negb (Ascii.eqb c d)) s).

Lemma str_app_cons c s t : String c s +:+ t = String c (s +:+ t).
Proof. done. Qed.

Lemma str_app_nil_l s : "" +:+ s = s.
Proof. done. Qed.

Lemma str_all_app p s t : str_all p (s +:+ t) = str_all p s && str_all p t.
Proof. induction s as [|c s IH]; simpl; [done|]. by rewrite IH, andb_assoc. Qed.

Lemma str_all_impl p q s :
  (forall c, p c = true -> q c = true) -> str_all p s = true -> str_all q s = true.
Proof. intros Hpq. induction s as [|c s IH]; simpl; [done|]. rewrite !andb_true_iff. intros []; auto. Qed.

(** * Splitting and joining *)

Fixpoint join (sep : string) (l : list string) : string :=
  match l with
  | [] => ""
  | [x] => x
  | x :: r => x +:+ sep +:+ join sep r
  end.

(** [strings.Split(s, c)] for a one-byte separator. *)
Fixpoint split_on (c : ascii) (s : string) : list string :=
  match s with
  | EmptyString => [""]
  | String d r =>
      if Ascii.eqb d c then "" :: split_on c r
      else match split_on c r with
           | h :: t => String d h :: t
           | [] => [String d ""]
           end
  end.

(** [strings.Cut(s, c)]: the text before and after the first [c]. *)
Fixpoint cut (c : ascii) (s : string) : option (string * string) :=
  match s with
  | EmptyString => None
  | String d r =>
      if Ascii.eqb d c then Some ("", r)
      else match cut c r with
           | Some (a, b) => Some (String d a, b)
           | None => None
           end
  end.

Definition lacks (c : ascii) (s : string) : Prop := str_all (fun d => negb (Ascii.eqb d c)) s = true.

Lemma lacks_app c s t : lacks c (s +:+ t) <-> lacks c s /\ lacks c t.
Proof. unfold lacks. by rewrite str_all_app, andb_true_iff. Qed.

Lemma split_on_nonempty c s : split_on c s <> [].
Proof. induction s; simpl; [done|]. repeat go_case; done. Qed.

Lemma split_on_lacks c s : lacks c s -> split_on c s = [s].
Proof.
  unfold lacks. induction s as [|d s IH]; simpl; [done|].
  rewrite andb_true_iff, negb_true_iff. intros [-> H]. by rewrite IH.
Qed.

Lemma split_on_app c s t :
  lacks c s -> split_on c (s +:+ String c t) = s :: split_on c t.
Proof.
  unfold lacks. induction s as [|d s IH]; simpl.
  - intros _. by rewrite Ascii.eqb_refl.
  - rewrite andb_true_iff, negb_true_iff. intros [-> H]. by rewrite IH.
Qed.

Lemma split_on_join c l :
  l <> [] -> Forall (lacks c) l -> split_on c (join (String c "") l) = l.
Proof.
  intros Hne. induction l as [|x l IH]; [done|]. intros [Hx Hl]%Forall_cons.
  destruct l as [|y l].
  - simpl. by apply split_on_lacks.
  - change (split_on c (x +:+ String c (join (String c "") (y :: l))) = x :: y :: l).
    rewrite split_on_app by done. f_equal. by apply IH.
Qed.

Lemma cut_app c s t : lacks c s -> cut c (s +:+ String c t) = Some (s, t).
Proof.
  unfold lacks. induction s as [|d s IH]; simpl.
  - by rewrite Ascii.eqb_refl.
  - rewrite andb_true_iff, negb_true_iff. intros [-> H]. by rewrite IH.
Qed.

Lemma str_length_app s t : String.length (s +:+ t) = (String.length s + String.length t)%nat.
Proof. induction s as [|c s IH]; [done|]. simpl. by f_equal. Qed.

(** Two texts before the first separator agree when the whole texts do. *)
Lemma sep_app_inj c s1 s2 t1 t2 :
  lacks c s1 -> lacks c s2 ->
  s1 +:+ String c t1 = s2 +:+ String c t2 -> s1 = s2 /\ t1 = t2.
Proof.
  intros H1 H2 H. apply (f_equal (cut c)) in H.
  rewrite !cut_app in H by done. by simplify_eq.
Qed.

Lemma str_app_nil_r s : s +:+ "" = s.
Proof. induction s as [|c s IH]; [done|]. by rewrite str_app_cons, IH. Qed.

Lemma str_app_assoc s t u : (s +:+ t) +:+ u = s +:+ t +:+ u.
Proof. induction s as [|c s IH]; [done|]. by rewrite !str_app_cons, IH. Qed.

Lemma str_app_inj_l s t u : s +:+ t = s +:+ u -> t = u.
Proof. induction s as [|c s IH]; [done|]. rewrite !str_app_cons. intros; simplify_eq. auto. Qed.

(** * Case folding *)

Definition lower_char (c : ascii) : ascii :=
  let n := ord c in if (65 <=? n) && (n <=? 90) then chr (n + 32) else c.

(** [strings.ToLower] on ASCII text. *)
Fixpoint to_lower (s : string) : string :=
  match s with
  | EmptyString => EmptyString
  | String c r => String (lower_char c) (to_lower r)
  end.

(** * Positional notation *)

(** Digits of [n] in base [b], most significant first. *)
Fixpoint to_digits (fuel : nat) (b n : Z) : list Z :=
  match fuel with
  | O => []
  | S f => if n <? b then [n] else to_digits f b (n / b) ++ [n mod b]
  end.

Definition digits (b n : Z) : list Z := to_digits (S (Z.to_nat (Z.log2 n))) b n.

Definition of_digits (b : Z) (l : list Z) : Z := foldl (fun a d => a * b + d) 0 l.

Lemma of_digits_snoc b l d : of_digits b (l ++ [d]) = of_digits b l * b + d.
Proof. unfold of_digits. by rewrite foldl_app. Qed.

Lemma of_digits_cons b d l :
  of_digits b (d :: l) = d * b ^ Z.of_nat (length l) + of_digits b l.
Proof.
  induction l as [|e l IH] using rev_ind; [change (0 * b + d = d * 1 + 0); lia|].
  change (d :: l ++ [e]) with ((d :: l) ++ [e]). rewrite !of_digits_snoc, IH, length_app.
  replace (Z.of_nat (length l + length [e])) with (Z.succ (Z.of_nat (length l))) by (simpl; lia).
  rewrite Z.pow_succ_r by lia. lia.
Qed.

Lemma of_digits_range b l :
  2 <= b -> Forall (fun d => 0 <= d < b) l -> 0 <= of_digits b l < b ^ Z.of_nat (length l).
Proof.
  intros Hb. induction 1 as [|d l Hd Hl IH]; [change (0 <= 0 < 1); lia|].
  rewrite of_digits_cons. cbn [length].
  rewrite Nat2Z.inj_succ, Z.pow_succ_r by lia. nia.
Qed.

Lemma of_digits_app b l k :
  of_digits b (l ++ k) = of_digits b l * b ^ Z.of_nat (length k) + of_digits b k.
Proof.
  induction l as [|d l IH]; [change (of_digits b k = 0 * b ^ Z.of_nat (length k) + of_digits b k); lia|].
  cbn [app]. rewrite !of_digits_cons, IH, length_app.
  replace (Z.of_nat (length l + length k)) with (Z.of_nat (length l) + Z.of_nat (length k)) by lia.
  rewrite Z.pow_add_r by lia. lia.
Qed.

Lemma of_digits_zeros b n : of_digits b (replicate n 0) = 0.
Proof. induction n as [|n IH]; [done|]. cbn [replicate]. rewrite of_digits_cons. lia. Qed.

Lemma of_digits_inj b l k :
  2 <= b -> Forall (fun d => 0 <= d < b) l -> Forall (fun d => 0 <= d < b) k ->
  length l = length k -> of_digits b l = of_digits b k -> l = k.
Proof.
  intros Hb Hl. revert k. induction Hl as [|d l Hd Hl IH]; intros k Hk Hlen H.
  - by destruct k.
  - destruct k as [|e k]; [done|]. apply Forall_cons in Hk as [He Hk].
    simpl in Hlen. rewrite !of_digits_cons in H.
    assert (length l = length k) as Hlk by lia. rewrite Hlk in H.
    pose proof (of_digits_range b l Hb Hl) as Rl. pose proof (of_digits_range b k Hb Hk) as Rk.
    rewrite Hlk in Rl. assert (d = e) by nia. subst e. f_equal. apply IH; [done|done|nia].
Qed.

Lemma to_digits_correct b f n :
  2 <= b -> 0 <= n < b ^ Z.of_nat f -> of_digits b (to_digits f b n) = n.
Proof.
  intros Hb. revert n. induction f as [|f IH]; intros n Hn.
  - change (b ^ Z.of_nat 0) with 1 in Hn. cbn. lia.
  - cbn [to_digits]. destruct (n <? b) eqn:E; to_prop; [cbn; lia|].
    rewrite of_digits_snoc, IH.
    + pose proof (Z.div_mod n b). lia.
    + split; [apply Z.div_pos; lia|]. apply Z.div_lt_upper_bound; [lia|].
      rewrite <- Z.pow_succ_r by lia. replace (Z.succ (Z.of_nat f)) with (Z.of_nat (S f)) by lia. lia.
Qed.

Lemma digits_fuel b n : 2 <= b -> 0 <= n -> n < b ^ Z.of_nat (S (Z.to_nat (Z.log2 n))).
Proof.
  intros Hb Hn. rewrite Nat2Z.inj_succ, Z2Nat.id by apply Z.log2_nonneg.
  destruct (decide (n = 0)) as [->|].
  - change (0 < b ^ 1). lia.
  - eapply Z.lt_le_trans; [apply Z.log2_spec; lia|].
    apply Z.pow_le_mono_l. lia.
Qed.

Lemma digits_correct b n : 2 <= b -> 0 <= n -> of_digits b (digits b n) = n.
Proof. intros. apply to_digits_correct; [done|]. split; [done|]. by apply digits_fuel. Qed.

Lemma to_digits_range b f n :
  2 <= b -> 0 <= n -> Forall (fun d => 0 <= d < b) (to_digits f b n).
Proof.
  intros Hb. revert n. induction f as [|f IH]; intros n Hn; simpl; [done|].
  destruct (n <? b) eqn:E; to_prop; [by repeat constructor|].
  apply Forall_app. split; [apply IH, Z.div_pos; lia|].
  repeat constructor; apply Z.mod_pos_bound; lia.
Qed.

Lemma digits_range b n : 2 <= b -> 0 <= n -> Forall (fun d => 0 <= d < b) (digits b n).
Proof. intros. by apply to_digits_range. Qed.

Lemma digits_nonempty b n : digits b n <> [].
Proof. unfold digits. cbn. destruct (n <? b); [done|]. by intros []%app_eq_nil. Qed.

(** * Printing and reading numbers *)

Definition digit_char (d : Z) : ascii := if d <? 10 then chr (48 + d) else chr (87 + d).

Fixpoint digits_str (l : list Z) : string :=
  match l with
  | [] => ""
  | d :: r => String (digit_char d) (digits_str r)
  end.

(** [%d] and [strconv.Itoa]. *)
Definition fmt_d (n : Z) : string :=
  if n <? 0 then "-" +:+ digits_str (digits 10 (- n)) else digits_str (digits 10 n).

(** Lower-case hexadecimal without leading zeros. *)
Definition fmt_x (n : Z) : string := digits_str (digits 16 n).

Definition dec_val (c : ascii) : option Z :=
  let n := ord c in if (48 <=? n) && (n <=? 57) then Some (n - 48) else None.

Definition hex_val (c : ascii) : option Z :=
  let n := ord c in
  if (48 <=? n) && (n <=? 57) then Some (n - 48)
  else if (97 <=? n) && (n <=? 102) then Some (n - 87)
  else if (65 <=? n) && (n <=? 70) then Some (n - 55)
  else None.

(** Read a string as a sequence of digits; [None] on another character. *)
Fixpoint read_digits (val : ascii -> option Z) (s : string) : option (list Z) :=
  match s with
  | EmptyString => Some []
  | String c r =>
      match val c, read_digits val r with
      | Some d, Some l => Some (d :: l)
      | _, _ => None
      end
  end.

Lemma ord_digit_char d : 0 <= d < 16 -> ord (digit_char d) = if d <? 10 then 48 + d else 87 + d.
Proof. intros. unfold digit_char. destruct (d <? 10) eqn:E; to_prop; apply ord_chr; lia. Qed.

Lemma dec_val_digit d : 0 <= d < 10 -> dec_val (digit_char d) = Some d.
Proof.
  intros. unfold dec_val. rewrite ord_digit_char by lia.
  destruct (d <? 10) eqn:E; to_prop; [|lia].
  destruct ((48 <=? 48 + d) && (48 + d <=? 57)) eqn:E2; to_prop; [f_equal; lia|lia].
Qed.

Lemma hex_val_digit d : 0 <= d < 16 -> hex_val (digit_char d) = Some d.
Proof.
  intros. unfold hex_val. rewrite ord_digit_char by lia.
  destruct (d <? 10) eqn:E; to_prop.
  - destruct ((48 <=? 48 + d) && (48 + d <=? 57)) eqn:E2; to_prop; [f_equal; lia|lia].
  - destruct ((48 <=? 87 + d) && (87 + d <=? 57)) eqn:E2; to_prop; [lia|].
    destruct ((97 <=? 87 + d) && (87 + d <=? 102)) eqn:E3; to_prop; [f_equal; lia|lia].
Qed.

Lemma read_digits_str val b l :
  (forall d, 0 <= d < b -> val (digit_char d) = Some d) ->
  Forall (fun d => 0 <= d < b) l -> read_digits val (digits_str l) = Some l.
Proof.
  intros Hv Hl. induction Hl as [|d l Hd Hl IH]; simpl; [done|].
  by rewrite Hv, IH.
Qed.

Lemma read_dec n : 0 <= n -> read_digits dec_val (fmt_d n) = Some (digits 10 n).
Proof.
  intros. unfold fmt_d. destruct (n <? 0) eqn:E; to_prop; [lia|].
  apply read_digits_str with (b := 10); [apply dec_val_digit|by apply digits_range].
Qed.

Lemma read_hex n : 0 <= n -> read_digits hex_val (fmt_x n) = Some (digits 16 n).
Proof.
  intros. apply read_digits_str with (b := 16); [apply hex_val_digit|by apply digits_range].
Qed.

Lemma fmt_d_inj n m : 0 <= n -> 0 <= m -> fmt_d n = fmt_d m -> n = m.
Proof.
  intros Hn Hm H. apply (f_equal (read_digits dec_val)) in H.
  rewrite !read_dec in H by done. simplify_eq.
  rewrite <- (digits_correct 10 n), <- (digits_correct 10 m) by lia. congruence.
Qed.

(** A digit string holds no byte outside the digits. *)
Lemma digits_str_lacks c l :
  Forall (fun d => 0 <= d < 16) l -> hex_val c = None -> lacks c (digits_str l).
Proof.
  intros Hl Hc. unfold lacks. induction Hl as [|d l Hd Hl IH]; simpl; [done|].
  rewrite IH, andb_true_r, negb_true_iff. apply Ascii.eqb_neq. intros <-.
  by rewrite hex_val_digit in Hc.
Qed.

Lemma fmt_x_lacks c n : 0 <= n -> hex_val c = None -> lacks c (fmt_x n).
Proof. intros. apply digits_str_lacks; [|done]. by apply digits_range. Qed.

Lemma fmt_d_lacks c n : 0 <= n -> hex_val c = None -> lacks c (fmt_d n).
Proof.
  intros. unfold fmt_d. destruct (n <? 0) eqn:E; to_prop; [lia|].
  apply digits_str_lacks; [|done].
  eapply Forall_impl; [by apply (digits_range 10); lia|]. simpl; lia.
Qed.

Lemma digits_str_length l : String.length (digits_str l) = length l.
Proof. induction l; simpl; congruence. Qed.

Lemma fmt_x_nonempty n : fmt_x n <> "".
Proof. unfold fmt_x. pose proof (digits_nonempty 16 n). by destruct (digits 16 n). Qed.

Lemma fmt_d_nonempty n : fmt_d n <> "".
Proof.
  unfold fmt_d. destruct (n <? 0); [done|].
  pose proof (digits_nonempty 10 n). by destruct (digits 10 n).
Qed.

(** The number of digits is bounded by the size of the number. *)
Lemma to_digits_length b f n k :
  2 <= b -> 0 <= n < b ^ Z.of_nat k -> (0 < k)%nat -> (length (to_digits f b n) <= k)%nat.
Proof.
  intros Hb. revert n k. induction f as [|f IH]; intros n k Hn Hk; simpl; [lia|].
  destruct (n <? b) eqn:E; to_prop; [simpl; lia|].
  destruct k as [|[|k]]; [lia| |].
  - change (b ^ Z.of_nat 1) with (b ^ 1) in Hn. lia.
  - rewrite length_app. simpl. enough (length (to_digits f b (n / b)) <= S k)%nat by lia.
    apply IH; [|lia]. split; [apply Z.div_pos; lia|].
    apply Z.div_lt_upper_bound; [lia|]. rewrite <- Z.pow_succ_r by lia.
    replace (Z.succ (Z.of_nat (S k))) with (Z.of_nat (S (S k))) by lia. lia.
Qed.

(** No leading zero: a number above the base starts with a non-zero digit. *)
Lemma to_digits_head b f n :
  2 <= b -> 0 < n < b ^ Z.of_nat f -> exists d l, to_digits f b n = d :: l /\ 0 < d.
Proof.
  intros Hb. revert n. induction f as [|f IH]; intros n Hn.
  - change (b ^ Z.of_nat 0) with 1 in Hn. lia.
  - cbn [to_digits]. destruct (n <? b) eqn:E; to_prop; [exists n, []; split; [done|lia]|].
    destruct (IH (n / b)) as (d & l & -> & Hd); [|by exists d, (l ++ [n mod b])].
    split; [apply Z.div_str_pos; lia|]. apply Z.div_lt_upper_bound; [lia|].
    rewrite <- Z.pow_succ_r by lia.
    replace (Z.succ (Z.of_nat f)) with (Z.of_nat (S f)) by lia. lia.
Qed.

Lemma digits_head b n : 2 <= b -> 0 < n -> exists d l, digits b n = d :: l /\ 0 < d.
Proof. intros. apply to_digits_head; [done|]. split; [done|]. apply digits_fuel; lia. Qed.

(** * Hashing *)

(** [fnv.New64a] followed by one [Write] of the bytes of [s] and [Sum64]. *)
Fixpoint fnv64a_from (h : Z) (s : string) : Z :=
  match s with
  | EmptyString => h
  | String c r => fnv64a_from (wrap64 (Z.lxor h (ord c) * 1099511628211)) r
  end.

Definition fnv64a (s : string) : Z := fnv64a_from 14695981039346656037 s.

Lemma fnv64a_range s : is_u64 (fnv64a s).
Proof.
  unfold fnv64a. assert (is_u64 14695981039346656037) as H by (unfold is_u64; lia). revert H.
  generalize 14695981039346656037. induction s as [|c s IH]; intros h Hh; [done|].
  cbn [fnv64a_from]. apply IH, wrap64_range.
Qed.
