(* ===== verification/GoMap.v ===== *)
(** Iterating over Go maps.  [range] over a map visits every entry once, in an
    order the language leaves open: [MapIter] is that order, and code that
    ranges over a map is modelled for every instance of it. *)

From Stdlib Require Import ZArith Lia Ascii String.
From stdpp Require Import base tactics list gmap strings fin_maps.
From S2P Require Import Prelude.

Class MapIter := {
  iter : forall {K : Type} `{Countable K} {A : Type}, gmap K A -> list (K * A);
  iter_perm : forall {K : Type} `{Countable K} {A : Type} (m : gmap K A), iter m ≡ₚ map_to_list m }.

(** The order of stdpp's own enumeration, and its reverse. *)
Definition iter_forward : MapIter :=
  {| iter := fun K _ _ A m => map_to_list m; iter_perm := fun K _ _ A m => reflexivity _ |}.

Lemma reverse_map_to_list {K} `{Countable K} {A} (m : gmap K A) : reverse (map_to_list m) ≡ₚ map_to_list m.
Proof. apply reverse_Permutation. Qed.

Definition iter_backward : MapIter :=
  {| iter := fun K _ _ A m => reverse (map_to_list m); iter_perm := @reverse_map_to_list |}.

Section Iter.
Context {MI : MapIter} {K : Type} `{HK : Countable K} {A : Type}.
Implicit Types m : gmap K A.

Definition iter_values m : list A := (iter m).*2.

Lemma elem_of_iter m k x : (k, x) ∈ iter m <-> m !! k = Some x.
Proof. rewrite iter_perm. apply elem_of_map_to_list. Qed.

Lemma NoDup_iter_keys m : NoDup (iter m).*1.
Proof. rewrite iter_perm. apply NoDup_fst_map_to_list. Qed.

Lemma iter_empty : iter (∅ : gmap K A) = [].
Proof. apply Permutation_nil_r. by rewrite iter_perm, map_to_list_empty. Qed.

Lemma elem_of_iter_values m x : x ∈ iter_values m <-> exists k, m !! k = Some x.
Proof.
  unfold iter_values. rewrite list_elem_of_fmap. split.
  - intros ([k y] & -> & H%elem_of_iter). by exists k.
  - intros [k H]. exists (k, x). by rewrite elem_of_iter.
Qed.

(** The map built by storing the elements of a list under their keys: the last
    element with a key is the one that stays. *)
Definition build (key : A -> K) (l : list A) : gmap K A :=
  foldl (fun m x => <[key x := x]> m) ∅ l.

Lemma build_snoc key l x : build key (l ++ [x]) = <[key x := x]> (build key l).
Proof. unfold build. by rewrite foldl_app. Qed.

Lemma build_Some key l k x : build key l !! k = Some x -> x ∈ l /\ k = key x.
Proof.
  revert x. induction l as [|y l IH] using rev_ind; intros x; [done|].
  rewrite build_snoc, elem_of_app. destruct (decide (k = key y)) as [->|Hk].
  - rewrite lookup_insert_eq. intros [= <-]. split; [right; by left|done].
  - rewrite lookup_insert_ne by done. intros [? ?]%IH. by split; [left|].
Qed.

Lemma build_dom key l k : is_Some (build key l !! k) <-> k ∈ key <$> l.
Proof.
  induction l as [|y l IH] using rev_ind.
  - split; [by intros [? ?]|]. intros H. by apply elem_of_nil in H.
  - rewrite build_snoc, fmap_app, elem_of_app, <- IH.
    destruct (decide (k = key y)) as [->|Hk].
    + rewrite lookup_insert_eq. split; [|by eauto]. right. by left.
    + rewrite lookup_insert_ne by done. split; [by left|].
      intros [H|H]; [done|]. by apply list_elem_of_singleton in H.
Qed.

(** Storing the elements of a list whose keys differ into a map. *)
Lemma foldl_insert_Some (key : A -> K) l m k x :
  NoDup (key <$> l) ->
  foldl (fun m x => <[key x := x]> m) m l !! k = Some x <->
  (x ∈ l /\ k = key x) \/ ((k ∉ (key <$> l)) /\ m !! k = Some x).
Proof.
  induction l as [|y l IH] using rev_ind; intros Hnd.
  - simpl. split; [intros H; right; split; [apply not_elem_of_nil|done]|].
    intros [[H _]|[_ H]]; [by apply elem_of_nil in H|done].
  - rewrite fmap_app in *. apply NoDup_app in Hnd as (Hl & Hy & _).
    rewrite foldl_app; simpl. rewrite lookup_insert_Some, (IH Hl), !elem_of_app, !list_elem_of_singleton.
    destruct (decide (k = key y)) as [->|Hk].
    + split.
      * intros [[_ ->]|[H _]]; [by left; split; [right|]|done].
      * intros [[[Hx| ->] E]|[H _]]; [|by left|destruct H; by right].
        exfalso. apply (Hy (key x)); [apply list_elem_of_fmap; by exists x|]. rewrite <- E. by left.
    + split; [intros [[? _]|[_ H]]; [congruence|]|intros H; right; split; [congruence|]];
        destruct H as [[Hx E]|[Hn E]].
      * left. split; [by left|done].
      * right. split; [|done]. by intros [?|?].
      * destruct Hx as [Hx| ->]; [by left|done].
      * right. split; [|done]. intros ?. apply Hn. by left.
Qed.
End Iter.
