(* ===== verification/GoNet.v ===== *)
(** Go's [net] package, as far as the program uses it: [net.IP] values as byte
    slices, [To4]/[To16], [IP.String], [ParseIP], [ParseCIDR], [IPMask.Size] and
    [IPNet.Contains].  The lemmas give the two facts the components rely on:
    printing then parsing an address gives the address back, and [Contains] of a
    parsed CIDR is membership in an interval of addresses. *)

From Stdlib Require Import ZArith Lia Ascii String.
From stdpp Require Import base tactics list gmap strings fin_maps.
From S2P Require Import Prelude GoStrings.

(** * Addresses *)

(** [net.IP]: a byte slice; the nil slice is the empty list. *)
Abbreviation IP := (list Z).

Definition IPv4len : Z := 4.
Definition IPv6len : Z := 16.

Definition v4InV6Prefix : IP := replicate 10 0 ++ [255; 255].

Definition To4 (ip : IP) : option IP :=
  if go_len ip =? 4 then Some ip
  else if (go_len ip =? 16) && bool_decide (take 12 ip = v4InV6Prefix) then Some (drop 12 ip)
  else None.

Definition To16 (ip : IP) : option IP :=
  if go_len ip =? 4 then Some (v4InV6Prefix ++ ip)
  else if go_len ip =? 16 then Some ip
  else None.

(** A 4-byte or 16-byte address. *)
Definition wf_ip (ip : IP) : Prop :=
  (length ip = 4%nat \/ length ip = 16%nat) /\ Forall is_byte ip.

(** The integer value of a byte slice, [new(big.Int).SetBytes(b)]. *)
Definition ip_val (ip : IP) : Z := of_digits 256 ip.

(** The bytes method of big.Int: the minimal big-endian bytes of the absolute value. *)
Definition big_bytes (z : Z) : list Z := if z =? 0 then [] else digits 256 (Z.abs z).

(** * Printing *)

Definition fmt_ipv4 (ip : IP) : string := join "." (fmt_d <$> ip).

(** The eight 16-bit groups of a 16-byte address. *)
Fixpoint groups (ip : IP) : list Z :=
  match ip with
  | a :: b :: r => (a * 256 + b) :: groups r
  | _ => []
  end.

Fixpoint ungroups (gs : list Z) : IP :=
  match gs with
  | [] => []
  | g :: r => g / 256 :: g mod 256 :: ungroups r
  end.

Fixpoint zero_run (gs : list Z) : nat :=
  match gs with
  | g :: r => if g =? 0 then S (zero_run r) else 0
  | [] => 0
  end.

(** The first longest run of at least two zero groups, as (start, length). *)
Fixpoint best_run (gs : list Z) (i : nat) (best : nat * nat) : nat * nat :=
  match gs with
  | [] => best
  | _ :: r =>
      let l := zero_run gs in
      best_run r (S i) (if (2 <=? l)%nat && (best.2 <? l)%nat then (i, l) else best)
  end.

Definition fmt_groups (gs : list Z) : string := join ":" (fmt_x <$> gs).

Definition fmt_ipv6 (ip : IP) : string :=
  let gs := groups ip in
  let '(s, l) := best_run gs 0 (0%nat, 0%nat) in
  if (l =? 0)%nat then fmt_groups gs
  else fmt_groups (take s gs) +:+ "::" +:+ fmt_groups (drop (s + l) gs).

(** [IP.String]. *)
Definition ip_string (ip : IP) : string :=
  if go_len ip =? 0 then "<nil>"
  else match To4 ip with
       | Some p4 => fmt_ipv4 p4
       | None =>
           if go_len ip =? 16 then fmt_ipv6 ip
           else "?" +:+ join "" ((fun b => digits_str [b / 16; b mod 16]) <$> ip)
       end.

(** * Parsing *)

(** A decimal octet: no empty field, no leading zero, at most 255. *)
Definition parse_octet (s : string) : option Z :=
  match read_digits dec_val s with
  | Some (d :: l) =>
      if (d =? 0) && negb (go_len l =? 0) then None
      else let v := of_digits 10 (d :: l) in if v <=? 255 then Some v else None
  | _ => None
  end.

Definition parse_ipv4 (s : string) : option IP :=
  match split_on "." s with
  | [a; b; c; d] => mapM parse_octet [a; b; c; d]
  | _ => None
  end.

(** A hexadecimal group of one to four digits. *)
Definition parse_group (s : string) : option Z :=
  match read_digits hex_val s with
  | Some l => if (0 <? go_len l) && (go_len l <=? 4) then Some (of_digits 16 l) else None
  | None => None
  end.

(** The groups of a field list; the last field may be a dotted IPv4 address. *)
Fixpoint parse_fields (l : list string) : option (list Z) :=
  match l with
  | [] => Some []
  | [x] =>
      if str_has "." x then
        match parse_ipv4 x with
        | Some [a; b; c; d] => Some [a * 256 + b; c * 256 + d]
        | _ => None
        end
      else match parse_group x with Some g => Some [g] | None => None end
  | x :: r =>
      match parse_group x, parse_fields r with
      | Some g, Some gs => Some (g :: gs)
      | _, _ => None
      end
  end.

(** The text before and after the first ["::"]. *)
Fixpoint cut_ellipsis (s : string) : option (string * string) :=
  match s with
  | EmptyString => None
  | String c r =>
      match (if Ascii.eqb c ":" then r else "") with
      | String d r' =>
          if Ascii.eqb d ":" then Some ("", r')
          else match cut_ellipsis r with
               | Some (a, b) => Some (String c a, b)
               | None => None
               end
      | EmptyString =>
          match cut_ellipsis r with
          | Some (a, b) => Some (String c a, b)
          | None => None
          end
      end
  end.

Definition parse_side (parse : list string -> option (list Z)) (s : string) : option (list Z) :=
  if String.eqb s "" then Some [] else parse (split_on ":" s).

Definition parse_groups (s : string) : option (list Z) :=
  match cut_ellipsis s with
  | Some (l, r) =>
      match parse_side (mapM parse_group) l, parse_side parse_fields r with
      | Some gl, Some gr =>
          if (length gl + length gr <=? 7)%nat
          then Some (gl ++ replicate (8 - (length gl + length gr)) 0 ++ gr)
          else None
      | _, _ => None
      end
  | None =>
      match parse_fields (split_on ":" s) with
      | Some gs => if (length gs =? 8)%nat then Some gs else None
      | None => None
      end
  end.

Definition parse_ipv6 (s : string) : option IP := ungroups <$> parse_groups s.

(** The first byte of [s] that decides the address family. *)
Fixpoint first_mark (s : string) : option ascii :=
  match s with
  | EmptyString => None
  | String c r =>
      if Ascii.eqb c "." || Ascii.eqb c ":" || Ascii.eqb c "%" then Some c else first_mark r
  end.

(** [netip.ParseAddr] restricted to addresses without a zone: the family and the
    bytes. *)
Definition parse_addr (s : string) : option (bool * IP) :=
  match first_mark s with
  | Some c =>
      if Ascii.eqb c "." then match parse_ipv4 s with Some b => Some (true, b) | None => None end
      else if Ascii.eqb c ":" then
        if str_has "%" s then None
        else match parse_ipv6 s with Some b => Some (false, b) | None => None end
      else None
  | None => None
  end.

(** [net.ParseIP]: the 16-byte form, or nil. *)
Definition ParseIP (s : string) : option IP :=
  match parse_addr s with
  | Some (true, b) => Some (v4InV6Prefix ++ b)
  | Some (false, b) => Some b
  | None => None
  end.

(** * Networks *)

(** [net.IPNet]. *)
Record IPNet := mkIPNet { net_ip : IP; net_mask : list Z }.

#[export] Instance IPNet_eq_dec : EqDecision IPNet.
Proof. solve_decision. Defined.

(** The loop of [net.CIDRMask]. *)
Fixpoint mask_bytes (l : nat) (n : Z) : list Z :=
  match l with
  | O => []
  | S l => if 8 <=? n then 255 :: mask_bytes l (n - 8)
           else (255 - Z.shiftr 255 n) :: mask_bytes l 0
  end.

Definition CIDRMask (ones bits : Z) : list Z := mask_bytes (Z.to_nat (bits / 8)) ones.

(** [IP.Mask] for an address and a mask of the same length. *)
Definition mask_ip (ip mask : list Z) : IP := zip_with Z.land ip mask.

(** [net.ParseCIDR]: the address and its network. *)
Definition ParseCIDR (s : string) : option (IP * IPNet) :=
  match cut "/" s with
  | Some (addr, m) =>
      match parse_addr addr, read_digits dec_val m with
      | Some (is4, b), Some (d :: l) =>
          let n := of_digits 10 (d :: l) in
          let bits := if is4 then 32 else 128 in
          if n <=? bits then
            Some (if is4 then v4InV6Prefix ++ b else b,
                  mkIPNet (mask_ip b (CIDRMask n bits)) (CIDRMask n bits))
          else None
      | _, _ => None
      end
  | None => None
  end.

(** [simpleMaskLength]: the number of leading ones, -1 for a mask with holes.
    [shift_ones] is its loop over the bits of a byte: the number of leading ones
    and what is left of the byte. *)
Fixpoint shift_ones (fuel : nat) (v : Z) : Z * Z :=
  match fuel with
  | O => (0, v)
  | S f =>
      if Z.testbit v 7 then let '(n, v') := shift_ones f (wrap8 (Z.shiftl v 1)) in (1 + n, v')
      else (0, v)
  end.

Fixpoint mask_length (m : list Z) : Z :=
  match m with
  | [] => 0
  | v :: r =>
      if v =? 255 then
        let k := mask_length r in if k =? -1 then -1 else 8 + k
      else
        let '(n, v') := shift_ones 8 v in
        if (v' =? 0) && forallb (fun b => b =? 0) r then n else -1
  end.

(** [IPMask.Size]. *)
Definition mask_size (m : list Z) : Z * Z :=
  let ones := mask_length m in
  if ones =? -1 then (0, 0) else (ones, 8 * go_len m).

(** [networkNumberAndMask] and [IPNet.Contains]. *)
Definition net_number (n : IPNet) : option (IP * list Z) :=
  let ip := match To4 (net_ip n) with
            | Some p4 => Some p4
            | None => if go_len (net_ip n) =? 16 then Some (net_ip n) else None
            end in
  match ip with
  | None => None
  | Some ip =>
      let m := net_mask n in
      if go_len m =? 4 then if go_len ip =? 4 then Some (ip, m) else None
      else if go_len m =? 16 then Some (ip, if go_len ip =? 4 then drop 12 m else m)
      else None
  end.

Definition Contains (n : IPNet) (ip : IP) : bool :=
  match net_number n with
  | None => go_len (default ip (To4 ip)) =? 0
  | Some (nn, m) =>
      let x := default ip (To4 ip) in
      (go_len x =? go_len nn) && bool_decide (zip_with Z.land nn m = zip_with Z.land x m)
  end.

(** * Printing then parsing *)

Lemma parse_octet_fmt n : is_byte n -> parse_octet (fmt_d n) = Some n.
Proof.
  intros [H1 H2]. unfold parse_octet. rewrite read_dec by done.
  destruct (decide (n = 0)) as [->|]; [done|].
  destruct (digits_head 10 n) as (d & l & E & Hd); [lia..|]. rewrite E.
  destruct (d =? 0) eqn:Ed; to_prop; [lia|]. simpl.
  rewrite <- E, digits_correct by lia.
  destruct (n <=? 255) eqn:En; to_prop; [done|lia].
Qed.

Lemma parse_octets_fmt ip : Forall is_byte ip -> mapM parse_octet (fmt_d <$> ip) = Some ip.
Proof.
  induction 1 as [|n ip Hn Hip IH]; [done|].
  cbn [fmap list_fmap mapM]. rewrite parse_octet_fmt by done. cbn. by rewrite IH.
Qed.

Lemma fmt_d_fields_lack c ip :
  hex_val c = None -> Forall is_byte ip -> Forall (lacks c) (fmt_d <$> ip).
Proof.
  intros Hc Hip. apply Forall_fmap. eapply Forall_impl; [done|].
  intros n [? ?]. by apply fmt_d_lacks.
Qed.

Lemma parse_ipv4_fmt ip :
  length ip = 4%nat -> Forall is_byte ip -> parse_ipv4 (fmt_ipv4 ip) = Some ip.
Proof.
  intros Hl Hb. unfold parse_ipv4, fmt_ipv4.
  rewrite (split_on_join "." (fmt_d <$> ip));
    [| by destruct ip | by apply fmt_d_fields_lack].
  pose proof (parse_octets_fmt ip Hb) as H.
  destruct ip as [|? [|? [|? [|? [|]]]]]; try discriminate. exact H.
Qed.

Definition is_group (g : Z) : Prop := 0 <= g < 65536.

Lemma parse_group_fmt g : is_group g -> parse_group (fmt_x g) = Some g.
Proof.
  intros [H1 H2]. unfold parse_group. rewrite read_hex by done.
  rewrite digits_correct by lia.
  pose proof (digits_nonempty 16 g) as Hne.
  assert (length (digits 16 g) <= 4)%nat as Hl
    by (apply to_digits_length; [lia|simpl; lia|lia]).
  unfold go_len. destruct (digits 16 g) as [|d l] eqn:E; [done|].
  destruct ((0 <? _) && _) eqn:E2; to_prop; [done|]. simpl in *. lia.
Qed.

Lemma fmt_x_no_dot g : is_group g -> str_has "." (fmt_x g) = false.
Proof.
  intros [? ?]. unfold str_has. apply negb_false_iff.
  eapply str_all_impl; [|apply (fmt_x_lacks "."); done]. cbn.
  intros c. by rewrite Ascii.eqb_sym.
Qed.

Lemma parse_fields_fmt gs : Forall is_group gs -> parse_fields (fmt_x <$> gs) = Some gs.
Proof.
  induction 1 as [|g gs Hg Hgs IH]; [done|].
  destruct gs as [|g' gs].
  - cbn [fmap list_fmap parse_fields]. by rewrite fmt_x_no_dot, parse_group_fmt.
  - change (match parse_group (fmt_x g), parse_fields (fmt_x <$> (g' :: gs)) with
            | Some g, Some gs => Some (g :: gs) | _, _ => None end = Some (g :: g' :: gs)).
    by rewrite parse_group_fmt, IH.
Qed.

Lemma mapM_group_fmt gs : Forall is_group gs -> mapM parse_group (fmt_x <$> gs) = Some gs.
Proof.
  induction 1 as [|g gs Hg Hgs IH]; [done|].
  cbn [fmap list_fmap mapM]. rewrite parse_group_fmt by done. cbn. by rewrite IH.
Qed.

Lemma fmt_x_fields_lack c gs :
  hex_val c = None -> Forall is_group gs -> Forall (lacks c) (fmt_x <$> gs).
Proof.
  intros Hc Hgs. apply Forall_fmap. eapply Forall_impl; [done|].
  intros n [? ?]. by apply fmt_x_lacks.
Qed.

Lemma fmt_groups_cons g g' gs :
  fmt_groups (g :: g' :: gs) = fmt_x g +:+ String ":" (fmt_groups (g' :: gs)).
Proof. done. Qed.

Lemma fmt_groups_nonempty g gs : fmt_groups (g :: gs) <> "".
Proof.
  pose proof (fmt_x_nonempty g). destruct gs; [done|]. rewrite fmt_groups_cons.
  by destruct (fmt_x g).
Qed.

Lemma parse_side_fmt parse gs :
  Forall is_group gs -> parse [] = Some [] -> parse (fmt_x <$> gs) = Some gs ->
  parse_side parse (fmt_groups gs) = Some gs.
Proof.
  intros Hgs H0 H. unfold parse_side.
  destruct gs as [|g gs]; [done|].
  destruct (String.eqb_spec (fmt_groups (g :: gs)) ""); [by apply fmt_groups_nonempty in e|].
  unfold fmt_groups. rewrite (split_on_join ":"); [done|done|].
  by apply fmt_x_fields_lack.
Qed.

(** ** The ellipsis *)

Lemma cut_ellipsis_skip c r :
  Ascii.eqb c ":" = false ->
  cut_ellipsis (String c r) = prod_map (String c) id <$> cut_ellipsis r.
Proof. intros Hc. cbn. rewrite Hc. by destruct (cut_ellipsis r) as [[]|]. Qed.

Lemma cut_ellipsis_field x r :
  lacks ":" x -> cut_ellipsis (x +:+ r) = prod_map (String.append x) id <$> cut_ellipsis r.
Proof.
  unfold lacks. induction x as [|c x IH]; cbn [str_all].
  - intros _. rewrite str_app_nil_l. by destruct (cut_ellipsis r) as [[]|].
  - rewrite andb_true_iff, negb_true_iff. intros [Hc Hx].
    rewrite str_app_cons, cut_ellipsis_skip, IH by done.
    by destruct (cut_ellipsis r) as [[]|].
Qed.

Lemma cut_ellipsis_colon d r :
  Ascii.eqb d ":" = false ->
  cut_ellipsis (String ":" (String d r)) = prod_map (String ":") id <$> cut_ellipsis (String d r).
Proof.
  intros Hd. change (cut_ellipsis (String ":" (String d r))) with
    (if Ascii.eqb d ":" then Some ("", r) else
     match cut_ellipsis (String d r) with Some (a, b) => Some (String ":" a, b) | None => None end).
  rewrite Hd. by destruct (cut_ellipsis (String d r)) as [[]|].
Qed.

Lemma fmt_groups_head g gs t :
  is_group g -> exists d r, fmt_groups (g :: gs) +:+ t = String d r /\ Ascii.eqb d ":" = false.
Proof.
  intros [Hg _]. pose proof (fmt_x_lacks ":" g Hg eq_refl) as Hl.
  pose proof (fmt_x_nonempty g) as Hne. unfold lacks in Hl.
  assert (exists u, fmt_groups (g :: gs) = fmt_x g +:+ u) as [u ->].
  { destruct gs; [exists ""; by rewrite str_app_nil_r|]. rewrite fmt_groups_cons. by eexists. }
  destruct (fmt_x g) as [|d r]; [done|]. cbn in Hl.
  rewrite andb_true_iff, negb_true_iff in Hl. destruct Hl as [Hd _].
  exists d. eexists. by rewrite !str_app_cons.
Qed.

Lemma cut_ellipsis_groups gs t :
  Forall is_group gs ->
  cut_ellipsis (fmt_groups gs +:+ "::" +:+ t) = Some (fmt_groups gs, t).
Proof.
  induction 1 as [|g gs Hg Hgs IH]; [done|]. destruct gs as [|g' gs].
  - change (fmt_groups [g]) with (fmt_x g). destruct Hg.
    rewrite cut_ellipsis_field by by apply fmt_x_lacks.
    change (Some (fmt_x g +:+ "", t) = Some (fmt_x g, t)). by rewrite str_app_nil_r.
  - rewrite fmt_groups_cons, str_app_assoc, str_app_cons. destruct Hg.
    rewrite cut_ellipsis_field by by apply fmt_x_lacks.
    destruct (fmt_groups_head g' gs ("::" +:+ t)) as (d & r & E & Hd); [by inversion Hgs|].
    rewrite E in *. rewrite cut_ellipsis_colon, IH by done. done.
Qed.

Lemma cut_ellipsis_none gs : Forall is_group gs -> cut_ellipsis (fmt_groups gs) = None.
Proof.
  induction 1 as [|g gs Hg Hgs IH]; [done|]. destruct gs as [|g' gs].
  - change (fmt_groups [g]) with (fmt_x g). destruct Hg.
    rewrite <- (str_app_nil_r (fmt_x g)), cut_ellipsis_field by by apply fmt_x_lacks. done.
  - rewrite fmt_groups_cons. destruct Hg.
    rewrite cut_ellipsis_field by by apply fmt_x_lacks.
    destruct (fmt_groups_head g' gs "") as (d & r & E & Hd); [by inversion Hgs|].
    rewrite str_app_nil_r in E. rewrite E in *. by rewrite cut_ellipsis_colon, IH.
Qed.

(** ** The compressed run *)

Lemma zero_run_spec gs : (zero_run gs <= length gs)%nat /\ take (zero_run gs) gs = replicate (zero_run gs) 0.
Proof.
  induction gs as [|g gs [IH1 IH2]]; simpl; [done|].
  destruct (g =? 0) eqn:E; to_prop; [|split; [lia|done]].
  simpl. rewrite IH2, E. split; [lia|done].
Qed.

(** [(s, l)] is a run of zero groups of [gs]: empty, or at least two groups. *)
Definition is_run (gs : list Z) (r : nat * nat) : Prop :=
  r.2 = 0%nat \/
  (2 <= r.2 /\ r.1 + r.2 <= length gs)%nat /\ take r.2 (drop r.1 gs) = replicate r.2 0.

Lemma best_run_is_run all gs i best :
  is_run all best -> drop i all = gs -> (i <= length all)%nat -> is_run all (best_run gs i best).
Proof.
  revert i best. induction gs as [|g gs IH]; intros i best Hb Hd Hi; [done|].
  cbn [best_run]. apply IH.
  - destruct (_ && _) eqn:E; [|done]. right. cbn [fst snd].
    destruct (zero_run_spec (g :: gs)) as [H1 H2].
    apply andb_true_iff in E as [E _]. apply Nat.leb_le in E.
    rewrite Hd. split; [|done]. split; [done|].
    assert (length (drop i all) = length (g :: gs)) as Hl by by rewrite Hd.
    rewrite length_drop in Hl. lia.
  - rewrite <- Nat.add_1_r, <- drop_drop, Hd. done.
  - assert (length (drop i all) = length (g :: gs)) as Hl by by rewrite Hd.
    rewrite length_drop in Hl. simpl in Hl. lia.
Qed.

Lemma is_run_split gs s l :
  is_run gs (s, l) -> l <> 0%nat ->
  gs = take s gs ++ replicate l 0 ++ drop (s + l) gs /\ (2 <= l)%nat /\ (s + l <= length gs)%nat.
Proof.
  intros [?|[[H1 H2] H3]] Hl; [done|]. simpl in *. split_and!; [|done..].
  rewrite <- H3, <- (drop_drop gs l s), take_drop. symmetry. apply take_drop.
Qed.

Lemma parse_groups_fmt ip gs :
  groups ip = gs -> length gs = 8%nat -> Forall is_group gs ->
  parse_groups (fmt_ipv6 ip) = Some gs.
Proof.
  intros Hg Hl Hgs. unfold fmt_ipv6. rewrite Hg.
  assert (is_run gs (best_run gs 0 (0%nat, 0%nat))) as Hr
    by (apply best_run_is_run; [by left|done|lia]).
  destruct (best_run gs 0 (0%nat, 0%nat)) as [s l].
  unfold parse_groups. destruct (Nat.eqb_spec l 0).
  - rewrite cut_ellipsis_none by done. unfold fmt_groups.
    rewrite (split_on_join ":"), parse_fields_fmt, Hl; [done|done| |by apply fmt_x_fields_lack].
    by destruct gs.
  - apply is_run_split in Hr as (E & H2 & H8); [|done].
    rewrite cut_ellipsis_groups by by apply Forall_take.
    rewrite !parse_side_fmt;
      [|by apply Forall_drop|done|by apply parse_fields_fmt, Forall_drop
       |by apply Forall_take|done|by apply mapM_group_fmt, Forall_take].
    rewrite length_take, length_drop.
    destruct (Nat.leb_spec (s `min` length gs + (length gs - (s + l))) 7); [|lia].
    f_equal. etransitivity; [|symmetry; exact E]. do 3 f_equal. lia.
Qed.

Lemma ungroups_groups n ip :
  length ip = (2 * n)%nat -> Forall is_byte ip ->
  ungroups (groups ip) = ip /\ length (groups ip) = n /\ Forall is_group (groups ip).
Proof.
  revert ip. induction n as [|n IH]; intros ip Hl Hb.
  - by destruct ip.
  - destruct ip as [|a [|b ip]]; simpl in Hl; [lia|lia|].
    apply Forall_cons in Hb as [[Ha1 Ha2] Hb]. apply Forall_cons in Hb as [[Hb1 Hb2] Hb].
    destruct (IH ip) as (E1 & E2 & E3); [lia|done|].
    cbn [groups ungroups]. rewrite E1. split_and!.
    + f_equal; [|f_equal].
      * symmetry. apply Z.div_unique_pos with (r := b); lia.
      * symmetry. apply Z.mod_unique_pos with (q := a); lia.
    + simpl. lia.
    + constructor; [unfold is_group; lia|done].
Qed.

(** ** The family of a printed address *)

Definition is_mark (c : ascii) : bool := Ascii.eqb c "." || Ascii.eqb c ":" || Ascii.eqb c "%".

Lemma first_mark_app s c t :
  str_all (fun d => negb (is_mark d)) s = true -> is_mark c = true ->
  first_mark (s +:+ String c t) = Some c.
Proof.
  intros Hs Hc. induction s as [|d s IH]; cbn [str_all] in Hs.
  - rewrite str_app_nil_l. cbn. unfold is_mark in Hc. by rewrite Hc.
  - apply andb_true_iff in Hs as [Hd Hs]. rewrite str_app_cons. cbn.
    unfold is_mark in Hd. apply negb_true_iff in Hd. rewrite Hd. by apply IH.
Qed.

Lemma digits_str_no_mark l :
  Forall (fun d => 0 <= d < 16) l -> str_all (fun d => negb (is_mark d)) (digits_str l) = true.
Proof.
  intros Hl. pose proof (digits_str_lacks "." l Hl eq_refl) as H1.
  pose proof (digits_str_lacks ":" l Hl eq_refl) as H2.
  pose proof (digits_str_lacks "%" l Hl eq_refl) as H3. unfold lacks in *.
  induction (digits_str l) as [|c s IH]; [done|]. cbn [str_all] in *.
  rewrite !andb_true_iff in *. destruct H1, H2, H3. split; [|by apply IH].
  unfold is_mark. by rewrite !negb_orb, !andb_true_iff.
Qed.

Lemma fmt_d_no_mark n : 0 <= n -> str_all (fun d => negb (is_mark d)) (fmt_d n) = true.
Proof.
  intros. unfold fmt_d. destruct (n <? 0) eqn:E; to_prop; [lia|]. apply digits_str_no_mark.
  eapply Forall_impl; [by apply (digits_range 10); lia|]. simpl; lia.
Qed.

Lemma fmt_x_no_mark n : 0 <= n -> str_all (fun d => negb (is_mark d)) (fmt_x n) = true.
Proof. intros. apply digits_str_no_mark. by apply digits_range. Qed.

Lemma first_mark_ipv4 ip :
  length ip = 4%nat -> Forall is_byte ip -> first_mark (fmt_ipv4 ip) = Some "."%char.
Proof.
  intros Hl Hb. destruct ip as [|a [|b r]]; try discriminate.
  apply Forall_cons in Hb as [[Ha _] _].
  change (fmt_ipv4 (a :: b :: r)) with (fmt_d a +:+ String "." (join "." (fmt_d <$> (b :: r)))).
  apply first_mark_app; [by apply fmt_d_no_mark|done].
Qed.

Lemma first_mark_groups gs t :
  Forall is_group gs -> first_mark (fmt_groups gs +:+ String ":" t) = Some ":"%char.
Proof.
  intros Hgs. destruct gs as [|g [|g' gs]]; [done| |];
    apply Forall_cons in Hgs as [[Hg _] _].
  - apply first_mark_app; [by apply fmt_x_no_mark|done].
  - rewrite fmt_groups_cons, str_app_assoc, str_app_cons.
    apply first_mark_app; [by apply fmt_x_no_mark|done].
Qed.

Lemma first_mark_ipv6 ip :
  length (groups ip) = 8%nat -> Forall is_group (groups ip) ->
  first_mark (fmt_ipv6 ip) = Some ":"%char.
Proof.
  intros Hl Hgs. unfold fmt_ipv6.
  destruct (best_run _ _ _) as [s l]. destruct (l =? 0)%nat.
  - destruct (groups ip) as [|g [|g' gs]]; try discriminate.
    apply Forall_cons in Hgs as [[Hg _] _]. rewrite fmt_groups_cons.
    apply first_mark_app; [by apply fmt_x_no_mark|done].
  - by apply first_mark_groups, Forall_take.
Qed.

Lemma lacks_join c sep l :
  lacks c sep -> Forall (lacks c) l -> lacks c (join sep l).
Proof.
  intros Hs Hl. induction Hl as [|x l Hx Hl IH]; [done|].
  destruct l; [done|]. change (lacks c (x +:+ sep +:+ join sep (s :: l))).
  by rewrite !lacks_app.
Qed.

Lemma fmt_ipv6_no_zone ip :
  Forall is_group (groups ip) -> str_has "%" (fmt_ipv6 ip) = false.
Proof.
  intros Hgs.
  assert (forall gs, Forall is_group gs -> lacks "%" (fmt_groups gs)) as Hf.
  { intros gs H. apply lacks_join; [done|]. by apply fmt_x_fields_lack. }
  assert (lacks "%" (fmt_ipv6 ip)) as H.
  { unfold fmt_ipv6. destruct (best_run _ _ _) as [s l]. destruct (l =? 0)%nat; [by apply Hf|].
    rewrite !lacks_app. split_and!; [by apply Hf, Forall_take|done|by apply Hf, Forall_drop]. }
  unfold str_has. apply negb_false_iff. eapply str_all_impl; [|exact H].
  intros c. cbn. by rewrite Ascii.eqb_sym.
Qed.

(** ** The round trip *)

Lemma len4_tests (ip : IP) :
  length ip = 4%nat -> (go_len ip =? 4) = true /\ (go_len ip =? 16) = false.
Proof. unfold go_len. by intros ->. Qed.

Lemma len16_tests (ip : IP) :
  length ip = 16%nat -> (go_len ip =? 4) = false /\ (go_len ip =? 16) = true.
Proof. unfold go_len. by intros ->. Qed.

Lemma To4_len4 ip : length ip = 4%nat -> To4 ip = Some ip.
Proof. intros [H _]%len4_tests. unfold To4. by rewrite H. Qed.

Lemma To4_len16 ip :
  length ip = 16%nat ->
  To4 ip = if bool_decide (take 12 ip = v4InV6Prefix) then Some (drop 12 ip) else None.
Proof. intros [H1 H2]%len16_tests. unfold To4. by rewrite H1, H2. Qed.

Lemma To16_len4 ip : length ip = 4%nat -> To16 ip = Some (v4InV6Prefix ++ ip).
Proof. intros [H _]%len4_tests. unfold To16. by rewrite H. Qed.

Lemma To16_len16 ip : length ip = 16%nat -> To16 ip = Some ip.
Proof. intros [H1 H2]%len16_tests. unfold To16. by rewrite H1, H2. Qed.

Lemma To4_spec ip p4 :
  wf_ip ip -> To4 ip = Some p4 ->
  length p4 = 4%nat /\ Forall is_byte p4 /\ To16 ip = Some (v4InV6Prefix ++ p4).
Proof.
  intros [[Hl|Hl] Hb] H.
  - rewrite To4_len4 in H by done. simplify_eq. by rewrite To16_len4.
  - rewrite To4_len16 in H by done. rewrite To16_len16 by done.
    case_bool_decide as E; simplify_eq.
    split_and!; [rewrite length_drop; lia|by apply Forall_drop|].
    by rewrite <- E, take_drop.
Qed.

Lemma To4_None_spec ip : wf_ip ip -> To4 ip = None -> length ip = 16%nat /\ To16 ip = Some ip.
Proof.
  intros [[Hl|Hl] Hb] H; [by rewrite To4_len4 in H|]. by rewrite To16_len16.
Qed.

(** Printing an address and parsing it back gives its 16-byte form. *)
Lemma ParseIP_ip_string ip : wf_ip ip -> ParseIP (ip_string ip) = To16 ip.
Proof.
  intros Hw. pose proof Hw as [Hl Hb]. unfold ip_string.
  assert ((go_len ip =? 0) = false) as -> by (unfold go_len; destruct Hl as [-> | ->]; done).
  unfold ParseIP, parse_addr. destruct (To4 ip) as [p4|] eqn:E4.
  - destruct (To4_spec ip p4 Hw E4) as (H4 & Hb4 & ->).
    by rewrite first_mark_ipv4, parse_ipv4_fmt.
  - destruct (To4_None_spec ip Hw E4) as (H16 & ->).
    destruct (len16_tests ip H16) as [_ ->].
    destruct (ungroups_groups 8 ip) as (Hu & Hg8 & Hgs); [done|done|].
    rewrite first_mark_ipv6, fmt_ipv6_no_zone by done. cbn -[parse_ipv6].
    unfold parse_ipv6. rewrite (parse_groups_fmt ip (groups ip)) by done. cbn. by rewrite Hu.
Qed.

(** Hence printing identifies two addresses exactly when their 16-byte forms
    agree. *)
Lemma ip_string_inj a b : wf_ip a -> wf_ip b -> ip_string a = ip_string b -> To16 a = To16 b.
Proof. intros Ha Hb H. by rewrite <- (ParseIP_ip_string a), <- (ParseIP_ip_string b), H. Qed.
