(* ===== verification/GoCidr.v ===== *)
(** Networks of Go's [net] package: the mask of a parsed CIDR clears the host
    bits of an address, and [Contains] is membership in the interval of
    addresses between the network address and the network address plus
    [2 ^ hostBits], whatever the byte length of the two addresses. *)

From Stdlib Require Import ZArith Lia Ascii String.
From stdpp Require Import base tactics list gmap strings fin_maps.
From S2P Require Import Prelude GoStrings GoNet.

(** * Masks *)

Lemma mask_bytes_length l n : length (mask_bytes l n) = l.
Proof. revert n. induction l as [|l IH]; intros n; cbn; [done|]. destruct (8 <=? n); cbn; by rewrite IH. Qed.

Lemma mask_bytes_0 l : mask_bytes l 0 = replicate l 0.
Proof. induction l as [|l IH]; [done|]. cbn [mask_bytes replicate]. by rewrite IH. Qed.

Lemma mask_bytes_drop l k n :
  8 * Z.of_nat k <= n -> drop k (mask_bytes (k + l) n) = mask_bytes l (n - 8 * Z.of_nat k).
Proof.
  revert n. induction k as [|k IH]; intros n Hn; [by replace (n - 8 * Z.of_nat 0) with n by lia|].
  cbn [Nat.add mask_bytes]. destruct (8 <=? n) eqn:E; to_prop; [|lia].
  cbn [drop]. rewrite IH by lia. f_equal. lia.
Qed.

(** [simpleMaskLength] counts the ones [CIDRMask] has written. *)
Lemma mask_byte_facts :
  forallb (fun n => let v := 255 - Z.shiftr 255 n in
                    negb (v =? 255) && bool_decide (shift_ones 8 v = (n, 0))) (seqZ 0 8) = true.
Proof. vm_compute. reflexivity. Qed.

Lemma forallb_zeros l : forallb (fun b => b =? 0) (replicate l 0) = true.
Proof. by induction l. Qed.

Lemma mask_length_mask_bytes l n :
  0 <= n <= 8 * Z.of_nat l -> mask_length (mask_bytes l n) = n.
Proof.
  revert n. induction l as [|l IH]; intros n Hn; [cbn; lia|].
  cbn [mask_bytes]. destruct (8 <=? n) eqn:E; to_prop.
  - cbn [mask_length]. change (255 =? 255) with true. cbv beta iota zeta.
    rewrite IH by lia. destruct (n - 8 =? -1) eqn:E'; to_prop; lia.
  - pose proof mask_byte_facts as F. rewrite forallb_forall in F.
    specialize (F n). rewrite <- list_elem_of_In, elem_of_seqZ in F.
    specialize (F ltac:(lia)). cbv zeta in F. apply andb_true_iff in F as [F1 F2].
    apply negb_true_iff in F1. apply bool_decide_eq_true in F2.
    cbn [mask_length]. rewrite F1, F2, mask_bytes_0, forallb_zeros. done.
Qed.

(** ** Masking clears the host bits *)

Lemma byte_mask_facts :
  forallb (fun n => forallb (fun a =>
    Z.land a (255 - Z.shiftr 255 n) =? a / 2 ^ (8 - n) * 2 ^ (8 - n)) (seqZ 0 256)) (seqZ 0 9) = true.
Proof. vm_compute. reflexivity. Qed.

Lemma byte_mask a n :
  is_byte a -> 0 <= n <= 8 ->
  Z.land a (255 - Z.shiftr 255 n) = a / 2 ^ (8 - n) * 2 ^ (8 - n).
Proof.
  intros Ha Hn. pose proof byte_mask_facts as F. rewrite forallb_forall in F.
  specialize (F n). rewrite <- list_elem_of_In, elem_of_seqZ in F. specialize (F ltac:(lia)).
  rewrite forallb_forall in F. specialize (F a).
  rewrite <- list_elem_of_In, elem_of_seqZ in F. unfold is_byte in Ha.
  specialize (F ltac:(lia)). by to_prop.
Qed.

Lemma pow256 l : 256 ^ Z.of_nat l = 2 ^ (8 * Z.of_nat l).
Proof. change 256 with (2 ^ 8). rewrite <- Z.pow_mul_r by lia. done. Qed.

Lemma ip_val_range a : Forall is_byte a -> 0 <= ip_val a < 2 ^ (8 * Z.of_nat (length a)).
Proof. intros H. rewrite <- pow256. by apply of_digits_range. Qed.

Lemma mask_zero a l : length a = l -> zip_with Z.land a (replicate l 0) = replicate l 0.
Proof.
  revert l. induction a as [|x a IH]; intros [|l] H; simplify_eq/=; [done|].
  by rewrite Z.land_0_r, IH.
Qed.

Lemma div_mul_add a u v h k :
  0 <= h <= k -> u = 2 ^ k -> (a * u + v) / 2 ^ h * 2 ^ h = a * u + v / 2 ^ h * 2 ^ h.
Proof.
  intros Hh ->. replace (2 ^ k) with (2 ^ (k - h) * 2 ^ h) by (rewrite <- Z.pow_add_r; f_equal; lia).
  rewrite Z.mul_assoc, Z.div_add_l by lia. lia.
Qed.

(** Masking with [n] ones keeps the value down to a multiple of [2 ^ hostBits]. *)
Lemma mask_value a l n :
  Forall is_byte a -> length a = l -> 0 <= n <= 8 * Z.of_nat l ->
  ip_val (mask_ip a (mask_bytes l n)) =
    ip_val a / 2 ^ (8 * Z.of_nat l - n) * 2 ^ (8 * Z.of_nat l - n).
Proof.
  unfold mask_ip. intros Ha. revert l n. induction Ha as [|x a Hx Ha IH]; intros l n Hl Hn.
  { subst l. cbn [length] in Hn |- *. by replace n with 0 by lia. }
  destruct l as [|l]; [done|]. injection Hl as Hl. unfold ip_val in *.
  cbn [mask_bytes zip_with]. destruct (8 <=? n) eqn:E; to_prop; cbn [zip_with];
    rewrite !of_digits_cons, length_zip_with, mask_bytes_length, Hl, Nat.min_id.
  - replace (8 * Z.of_nat (S l) - n) with (8 * Z.of_nat l - (n - 8)) by lia.
    rewrite IH by lia. change (Z.land x 255) with (Z.land x (255 - Z.shiftr 255 8)).
    rewrite byte_mask by (done || lia). change (2 ^ (8 - 8)) with 1. rewrite Z.div_1_r, Z.mul_1_r.
    by rewrite (div_mul_add x _ _ _ (8 * Z.of_nat l)) by (lia || apply pow256).
  - rewrite byte_mask by (done || lia). rewrite mask_bytes_0, mask_zero, of_digits_zeros by done.
    rewrite Z.add_0_r, pow256.
    replace (8 * Z.of_nat (S l) - n) with (8 * Z.of_nat l + (8 - n)) by lia.
    rewrite Z.pow_add_r, <- Z.div_div, Z.div_add_l by lia.
    rewrite Z.div_small with (a := of_digits 256 a), Z.add_0_r; [lia|].
    rewrite <- Hl. by apply ip_val_range.
Qed.

Lemma mask_bytes_byte a l n :
  Forall is_byte a -> length a = l -> 0 <= n <= 8 * Z.of_nat l ->
  Forall is_byte (mask_ip a (mask_bytes l n)).
Proof.
  unfold mask_ip. intros Ha. revert l n.
  induction Ha as [|x a Hx Ha IH]; intros l n Hl Hn; [done|].
  destruct l as [|l]; [done|]. injection Hl as Hl. cbn [mask_bytes].
  assert (forall k, 0 <= k <= 8 -> is_byte (x / 2 ^ (8 - k) * 2 ^ (8 - k))) as Hm.
  { intros k Hk. assert (0 < 2 ^ (8 - k)) by lia. unfold is_byte in *.
    pose proof (Z.mul_div_le x (2 ^ (8 - k))). pose proof (Z.div_pos x (2 ^ (8 - k))). nia. }
  destruct (8 <=? n) eqn:E; to_prop; cbn [zip_with]; constructor.
  - change 255 with (255 - Z.shiftr 255 8). rewrite byte_mask by (done || lia). apply Hm. lia.
  - apply IH; lia.
  - rewrite byte_mask by (done || lia). apply Hm. lia.
  - apply IH; lia.
Qed.

Lemma ip_val_inj a b :
  Forall is_byte a -> Forall is_byte b -> length a = length b -> ip_val a = ip_val b -> a = b.
Proof. by apply of_digits_inj. Qed.

(** Two addresses agree under the mask iff they agree above the host bits. *)
Lemma mask_eq_iff a b l n :
  Forall is_byte a -> Forall is_byte b -> length a = l -> length b = l ->
  0 <= n <= 8 * Z.of_nat l ->
  zip_with Z.land a (mask_bytes l n) = zip_with Z.land b (mask_bytes l n) <->
  ip_val a / 2 ^ (8 * Z.of_nat l - n) = ip_val b / 2 ^ (8 * Z.of_nat l - n).
Proof.
  intros Ha Hb La Lb Hn. pose proof (mask_value a l n Ha La Hn) as Va.
  pose proof (mask_value b l n Hb Lb Hn) as Vb. unfold mask_ip in *. split.
  - intros E. rewrite E, Vb in Va. apply Z.mul_cancel_r in Va; lia.
  - intros E. apply ip_val_inj.
    + by apply mask_bytes_byte.
    + by apply mask_bytes_byte.
    + by rewrite !length_zip_with, La, Lb.
    + by rewrite Va, Vb, E.
Qed.

(** * What the parsers return *)

Lemma read_digits_range (val : ascii -> option Z) b s l :
  (forall c d, val c = Some d -> 0 <= d < b) ->
  read_digits val s = Some l -> Forall (fun d => 0 <= d < b) l.
Proof.
  intros Hv. revert l. induction s as [|c s IH]; intros l H; cbn in H; [by simplify_eq|].
  destruct (val c) eqn:Ec; [|done]. destruct (read_digits val s); [|done].
  simplify_eq. constructor; eauto.
Qed.

Lemma dec_val_range c d : dec_val c = Some d -> 0 <= d < 10.
Proof. unfold dec_val. intros H. go_inv H; to_prop; lia. Qed.

Lemma hex_val_range c d : hex_val c = Some d -> 0 <= d < 16.
Proof. unfold hex_val, dec_val. intros H. go_inv H; to_prop; lia. Qed.

Lemma parse_octet_byte s v : parse_octet s = Some v -> is_byte v.
Proof.
  unfold parse_octet. destruct (read_digits dec_val s) as [[|d l]|] eqn:E; [done| |done].
  apply (read_digits_range _ 10) in E; [|apply dec_val_range].
  apply of_digits_range in E; [|lia].
  destruct (_ && _); [done|]. destruct (_ <=? 255) eqn:E'; [|done]. to_prop.
  intros [= <-]. unfold is_byte. lia.
Qed.

Lemma mapM_Forall {A B} (f : A -> option B) (P : B -> Prop) l k :
  (forall x y, f x = Some y -> P y) -> mapM f l = Some k -> Forall P k.
Proof.
  intros Hf. rewrite mapM_Some. induction 1; constructor; eauto.
Qed.

Lemma parse_ipv4_wf s b : parse_ipv4 s = Some b -> length b = 4%nat /\ Forall is_byte b.
Proof.
  unfold parse_ipv4. intros H. destruct (split_on "." s) as [|? [|? [|? [|? [|]]]]]; try done.
  split; [by apply mapM_Some, Forall2_length in H|]. eapply mapM_Forall; [|exact H]. apply parse_octet_byte.
Qed.

Lemma parse_group_range s g : parse_group s = Some g -> is_group g.
Proof.
  unfold parse_group. destruct (read_digits hex_val s) as [l|] eqn:E; [|done].
  apply (read_digits_range _ 16) in E; [|apply hex_val_range].
  apply of_digits_range in E; [|lia].
  destruct (_ && _) eqn:E'; [|done]. to_prop. intros [= <-]. destruct E' as [_ E'].
  unfold is_group. unfold go_len in E'.
  assert (16 ^ Z.of_nat (length l) <= 16 ^ 4) by (apply Z.pow_le_mono_r; lia). lia.
Qed.

Lemma parse_fields_range l gs : parse_fields l = Some gs -> Forall is_group gs.
Proof.
  revert gs. induction l as [|x l IH]; intros gs H; [by simplify_eq/=|].
  cbn [parse_fields] in H. destruct l as [|y l].
  - destruct (str_has "." x).
    + destruct (parse_ipv4 x) as [[|a [|b [|c [|d [|]]]]]|] eqn:E; try done.
      apply parse_ipv4_wf in E as [_ E]. rewrite !Forall_cons in E. unfold is_byte in E.
      simplify_eq. repeat constructor; lia.
    + destruct (parse_group x) eqn:E; [|done]. simplify_eq.
      repeat constructor; by apply parse_group_range in E as [].
  - destruct (parse_group x) eqn:E; [|done].
    destruct (parse_fields (y :: l)) eqn:E'; [|done]. simplify_eq.
    constructor; [by eapply parse_group_range|]. by apply IH.
Qed.

Lemma parse_side_range f s gs :
  (forall l gs, f l = Some gs -> Forall is_group gs) ->
  parse_side f s = Some gs -> Forall is_group gs.
Proof. intros Hf. unfold parse_side. destruct (String.eqb s ""); [by intros [= <-]|]. apply Hf. Qed.

Lemma parse_groups_range s gs :
  parse_groups s = Some gs -> length gs = 8%nat /\ Forall is_group gs.
Proof.
  unfold parse_groups. destruct (cut_ellipsis s) as [[l r]|].
  - destruct (parse_side (mapM _) l) as [gl|] eqn:El; [|done].
    destruct (parse_side parse_fields r) as [gr|] eqn:Er; [|done].
    destruct (_ <=? 7)%nat eqn:E; [|done]. apply Nat.leb_le in E. intros [= <-].
    apply parse_side_range in El; [|intros ?? H; eapply mapM_Forall; [|exact H]; apply parse_group_range].
    apply parse_side_range in Er; [|apply parse_fields_range].
    split; [rewrite !length_app, length_replicate; lia|].
    rewrite !Forall_app. split_and!; [done| |done]. apply Forall_replicate. done.
  - destruct (parse_fields _) as [gs'|] eqn:E; [|done]. apply parse_fields_range in E.
    destruct (_ =? 8)%nat eqn:E'; [|done]. apply Nat.eqb_eq in E'. by intros [= <-].
Qed.

Lemma ungroups_wf gs :
  Forall is_group gs -> length (ungroups gs) = (2 * length gs)%nat /\ Forall is_byte (ungroups gs).
Proof.
  induction 1 as [|g gs Hg Hgs [IH1 IH2]]; [done|]. unfold is_group in Hg. cbn. split; [lia|].
  repeat constructor; try done; (apply Z.div_pos || apply Z.div_lt_upper_bound || apply Z.mod_pos_bound); lia.
Qed.

Lemma parse_addr_wf s is4 b :
  parse_addr s = Some (is4, b) -> length b = (if is4 then 4 else 16)%nat /\ Forall is_byte b.
Proof.
  unfold parse_addr. intros H. destruct (first_mark s) as [c|]; [|done].
  destruct (Ascii.eqb c "."); [|destruct (Ascii.eqb c ":"); [|done]].
  - destruct (parse_ipv4 s) eqn:E; [|done]. simplify_eq. by apply parse_ipv4_wf in E.
  - destruct (str_has "%" s); [done|]. unfold parse_ipv6 in H.
    destruct (parse_groups s) eqn:E; [|done]. cbn in H. simplify_eq.
    apply parse_groups_range in E as [E1 E2]. apply ungroups_wf in E2 as [E2 E3]. by rewrite E2, E1.
Qed.

Lemma v4InV6Prefix_bytes : Forall is_byte v4InV6Prefix.
Proof. unfold v4InV6Prefix. repeat constructor; unfold is_byte; lia. Qed.

Lemma ParseIP_wf s ip : ParseIP s = Some ip -> length ip = 16%nat /\ Forall is_byte ip.
Proof.
  unfold ParseIP. destruct (parse_addr s) as [[[] b]|] eqn:E; intros H; simplify_eq;
    apply parse_addr_wf in E as [E1 E2]; [|done].
  rewrite length_app, E1, Forall_app. auto using v4InV6Prefix_bytes.
Qed.

(** * Parsed networks *)

(** What [ParseCIDR] guarantees of the network it returns. *)
Record cidr_ok (n : IPNet) (ones bits : Z) : Prop := {
  cidr_bits : bits = 8 * Z.of_nat (length (net_ip n));
  cidr_len : length (net_ip n) = 4%nat \/ length (net_ip n) = 16%nat;
  cidr_bytes : Forall is_byte (net_ip n);
  cidr_ones : 0 <= ones <= bits;
  cidr_mask : net_mask n = mask_bytes (length (net_ip n)) ones;
  cidr_aligned : exists q, ip_val (net_ip n) = q * 2 ^ (bits - ones);
}.

Lemma cidr_mask_size n ones bits : cidr_ok n ones bits -> mask_size (net_mask n) = (ones, bits).
Proof.
  intros [Hb Hl Hby Ho Hm Ha]. unfold mask_size, go_len.
  rewrite Hm, mask_bytes_length, mask_length_mask_bytes by lia.
  destruct (ones =? -1) eqn:E; to_prop; [lia|]. by rewrite Hb.
Qed.

Lemma CIDRMask_32 n : CIDRMask n 32 = mask_bytes 4 n.
Proof. done. Qed.

Lemma CIDRMask_128 n : CIDRMask n 128 = mask_bytes 16 n.
Proof. done. Qed.

Lemma masked_cidr_ok b l n :
  Forall is_byte b -> length b = l -> l = 4%nat \/ l = 16%nat -> 0 <= n <= 8 * Z.of_nat l ->
  cidr_ok (mkIPNet (mask_ip b (mask_bytes l n)) (mask_bytes l n)) n (8 * Z.of_nat l).
Proof.
  intros Hb Hl Hl' Hn.
  assert (length (mask_ip b (mask_bytes l n)) = l) as Hlen.
  { unfold mask_ip. rewrite length_zip_with, mask_bytes_length. lia. }
  split; cbn [net_ip net_mask]; rewrite ?Hlen; try done.
  - by apply mask_bytes_byte.
  - rewrite mask_value by done. by eexists.
Qed.

Lemma ParseCIDR_ok s ip n :
  ParseCIDR s = Some (ip, n) ->
  wf_ip ip /\ exists ones bits, cidr_ok n ones bits /\ mask_size (net_mask n) = (ones, bits).
Proof.
  unfold ParseCIDR. intros H. destruct (cut "/" s) as [[addr m]|]; [|done].
  destruct (parse_addr addr) as [[is4 b]|] eqn:E; [|done].
  destruct (read_digits dec_val m) as [[|d l]|] eqn:Ed; try done.
  apply parse_addr_wf in E as [E1 E2].
  apply (read_digits_range _ 10) in Ed; [|apply dec_val_range]. apply of_digits_range in Ed; [|lia].
  cbv zeta in H. destruct (of_digits 10 (d :: l) <=? _) eqn:E'; [|done]. to_prop. simplify_eq.
  split.
  { destruct is4; [|by split; [right|]]. split; [right; by rewrite length_app, E1|].
    rewrite Forall_app. auto using v4InV6Prefix_bytes. }
  exists (of_digits 10 (d :: l)), (if is4 then 32 else 128).
  match goal with |- ?P /\ _ => enough P as HP by (split; [exact HP|by apply cidr_mask_size]) end.
  destruct is4; [rewrite CIDRMask_32|rewrite CIDRMask_128].
  - apply (masked_cidr_ok b 4); auto; lia.
  - apply (masked_cidr_ok b 16); auto; lia.
Qed.

(** ** Addresses as integers *)

(** The 128-bit value of an address of either length. *)
Definition addr16 (ip : IP) : Z := ip_val (default [] (To16 ip)).

(** The first IPv4-mapped address. *)
Definition v4_base : Z := 65535 * 2 ^ 32.

Lemma addr16_4 ip : length ip = 4%nat -> addr16 ip = v4_base + ip_val ip.
Proof.
  intros H. unfold addr16. rewrite To16_len4 by done.
  change (of_digits 256 (v4InV6Prefix ++ ip) = v4_base + of_digits 256 ip).
  rewrite of_digits_app, H. reflexivity.
Qed.

Lemma addr16_16 ip : length ip = 16%nat -> addr16 ip = ip_val ip.
Proof. intros H. unfold addr16. by rewrite To16_len16. Qed.

Lemma addr16_To4 ip p4 : wf_ip ip -> To4 ip = Some p4 -> addr16 ip = v4_base + ip_val p4.
Proof.
  intros Hw E. destruct (To4_spec ip p4 Hw E) as (Hl & Hb & H16).
  rewrite <- addr16_4 by done. unfold addr16. rewrite H16, To16_len4 by done. done.
Qed.

(** An address has an IPv4 form iff its value lies in the IPv4-mapped block. *)
Lemma To4_None_block ip : wf_ip ip -> To4 ip = None -> addr16 ip / 2 ^ 32 <> 65535.
Proof.
  intros Hw E. destruct (To4_None_spec ip Hw E) as [Hl _]. destruct Hw as [_ Hb].
  rewrite addr16_16 by done. intros Hv. rewrite To4_len16 in E by done.
  rewrite bool_decide_true in E; [done|].
  rewrite <- (take_drop 12 ip), Forall_app in Hb. destruct Hb as [Hb1 Hb2].
  assert (length (take 12 ip) = 12%nat) as Hl1 by (rewrite length_take; lia).
  assert (length (drop 12 ip) = 4%nat) as Hl2 by (rewrite length_drop; lia).
  apply ip_val_inj; [done|apply v4InV6Prefix_bytes|by rewrite Hl1|].
  rewrite <- (take_drop 12 ip) in Hv. unfold ip_val in Hv. rewrite of_digits_app, Hl2 in Hv.
  change (256 ^ Z.of_nat 4) with (2 ^ 32) in Hv.
  apply ip_val_range in Hb2. rewrite Hl2 in Hb2. change (8 * Z.of_nat 4) with 32 in Hb2.
  unfold ip_val in Hb2. rewrite Z.div_add_l, (Z.div_small (of_digits 256 (drop 12 ip))) in Hv by lia.
  unfold ip_val. change (of_digits 256 v4InV6Prefix) with 65535. lia.
Qed.

Lemma To4_Some_block ip p4 : wf_ip ip -> To4 ip = Some p4 -> addr16 ip / 2 ^ 32 = 65535.
Proof.
  intros Hw E. rewrite (addr16_To4 ip p4) by done. destruct (To4_spec ip p4 Hw E) as (Hl & Hb & _).
  apply ip_val_range in Hb. rewrite Hl in Hb. change (8 * Z.of_nat 4) with 32 in Hb.
  unfold v4_base. rewrite Z.div_add_l, Z.div_small by lia. done.
Qed.

Lemma addr16_inj a b : wf_ip a -> wf_ip b -> length a = length b -> addr16 a = addr16 b -> a = b.
Proof.
  intros [Ha Ha'] [Hb Hb'] Hl. destruct Ha as [Ha|Ha].
  - rewrite !addr16_4 by congruence. intros. apply ip_val_inj; auto. lia.
  - rewrite !addr16_16 by congruence. by apply ip_val_inj.
Qed.

(** ** Containment *)

Lemma cidr_wf n ones bits : cidr_ok n ones bits -> wf_ip (net_ip n).
Proof. intros [Hb Hl Hby Ho Hm Ha]. by split. Qed.

Lemma net_number_4 n ones bits p4 :
  cidr_ok n ones bits -> bits - ones <= 32 -> To4 (net_ip n) = Some p4 ->
  net_number n = Some (p4, mask_bytes 4 (32 - (bits - ones))).
Proof.
  intros Hc Hh E. pose proof (cidr_wf _ _ _ Hc) as Hw. destruct Hc as [Hb Hl Hby Ho Hm Ha].
  destruct (To4_spec _ _ Hw E) as (Hl4 & _ & _). apply len4_tests in Hl4 as [T4 _].
  unfold net_number. rewrite E, T4, Hm. unfold go_len. rewrite mask_bytes_length.
  destruct Hl as [Hl|Hl]; rewrite Hl in *.
  - change (Z.of_nat 4 =? 4) with true. cbv iota. do 3 f_equal. lia.
  - change (Z.of_nat 16 =? 4) with false. change (Z.of_nat 16 =? 16) with true. cbv iota.
    rewrite (mask_bytes_drop 4 12) by lia. do 3 f_equal. lia.
Qed.

Lemma net_number_16 n ones bits :
  cidr_ok n ones bits -> To4 (net_ip n) = None ->
  net_number n = Some (net_ip n, mask_bytes 16 ones) /\ bits = 128.
Proof.
  intros Hc E. pose proof (cidr_wf _ _ _ Hc) as Hw. destruct Hc as [Hb Hl Hby Ho Hm Ha].
  destruct (To4_None_spec _ Hw E) as (Hl16 & _). destruct (len16_tests _ Hl16) as [T4 T16].
  unfold net_number. rewrite E, T16, T4, Hm. unfold go_len. rewrite mask_bytes_length, Hl16.
  split; [done|lia].
Qed.

Lemma div_block a b h : 0 <= h <= 32 -> a / 2 ^ h = b / 2 ^ h -> a / 2 ^ 32 = b / 2 ^ 32.
Proof.
  intros Hh H. replace (2 ^ 32) with (2 ^ h * 2 ^ (32 - h)) by (rewrite <- Z.pow_add_r; f_equal; lia).
  rewrite <- !Z.div_div by lia. by rewrite H.
Qed.

Lemma v4_base_div v h : 0 <= h <= 32 -> (v4_base + v) / 2 ^ h = 65535 * 2 ^ (32 - h) + v / 2 ^ h.
Proof.
  intros Hh. unfold v4_base.
  replace (2 ^ 32) with (2 ^ (32 - h) * 2 ^ h) by (rewrite <- Z.pow_add_r; f_equal; lia).
  rewrite Z.mul_assoc, Z.div_add_l by lia. done.
Qed.

(** A network of at most 32 host bits contains the addresses that agree with its
    own above the host bits. *)
Lemma Contains_div n ones bits ip :
  cidr_ok n ones bits -> bits - ones <= 32 -> wf_ip ip ->
  Contains n ip = true <-> addr16 (net_ip n) / 2 ^ (bits - ones) = addr16 ip / 2 ^ (bits - ones).
Proof.
  intros Hc Hh Hw. pose proof (cidr_wf _ _ _ Hc) as Hwn. pose proof (cidr_ones _ _ _ Hc) as Ho.
  unfold Contains.
  destruct (To4 (net_ip n)) as [nn|] eqn:En; destruct (To4 ip) as [x|] eqn:Ex; cbn [default].
  - rewrite (net_number_4 _ _ _ nn Hc Hh En).
    destruct (To4_spec _ _ Hwn En) as (Ln & Bn & _). destruct (To4_spec _ _ Hw Ex) as (Lx & Bx & _).
    rewrite (addr16_To4 _ _ Hwn En), (addr16_To4 _ _ Hw Ex), !v4_base_div by lia.
    unfold go_len, default, id. rewrite Ln, Lx, andb_true_l, bool_decide_eq_true, mask_eq_iff by (done || lia).
    replace (8 * Z.of_nat 4 - _) with (bits - ones) by lia. lia.
  - rewrite (net_number_4 _ _ _ nn Hc Hh En). destruct (To4_spec _ _ Hwn En) as (Ln & _ & _).
    destruct (To4_None_spec _ Hw Ex) as [Lx _]. unfold go_len, default, id. rewrite Ln, Lx. cbn [andb Z.eqb].
    split; [done|]. intros H%div_block; [|lia]. rewrite (To4_Some_block _ _ Hwn En) in H.
    by destruct (To4_None_block _ Hw Ex).
  - destruct (net_number_16 _ _ _ Hc En) as [-> _]. destruct (To4_None_spec _ Hwn En) as [Ln _].
    destruct (To4_spec _ _ Hw Ex) as (Lx & _ & _). unfold go_len, default, id. rewrite Ln, Lx.
    split; [done|]. intros H%div_block; [|lia]. rewrite (To4_Some_block _ _ Hw Ex) in H.
    by destruct (To4_None_block _ Hwn En).
  - destruct (net_number_16 _ _ _ Hc En) as [-> ->]. destruct (To4_None_spec _ Hwn En) as [Ln _].
    destruct (To4_None_spec _ Hw Ex) as [Lx _]. destruct Hw as [_ Bx]. destruct Hwn as [_ Bn].
    rewrite !addr16_16 by done. unfold go_len, default, id.
    rewrite Ln, Lx, andb_true_l, bool_decide_eq_true, mask_eq_iff by (done || lia). done.
Qed.

Lemma cidr_addr_aligned n ones bits :
  cidr_ok n ones bits -> exists q, addr16 (net_ip n) = q * 2 ^ (bits - ones).
Proof.
  intros [Hb Hl Hby Ho Hm [q Ha]]. destruct Hl as [Hl|Hl].
  - assert (bits - ones <= 32) by lia.
    rewrite addr16_4, Ha by done. exists (65535 * 2 ^ (32 - (bits - ones)) + q). unfold v4_base.
    replace (2 ^ 32) with (2 ^ (32 - (bits - ones)) * 2 ^ (bits - ones))
      by (rewrite <- Z.pow_add_r; f_equal; lia). lia.
  - rewrite addr16_16 by done. by exists q.
Qed.

(** [Contains] is membership in the network's interval of addresses. *)
Lemma Contains_interval n ones bits ip :
  cidr_ok n ones bits -> bits - ones <= 32 -> wf_ip ip ->
  Contains n ip = true <->
  addr16 (net_ip n) <= addr16 ip < addr16 (net_ip n) + 2 ^ (bits - ones).
Proof.
  intros Hc Hh Hw. rewrite (Contains_div _ _ _ _ Hc Hh Hw).
  destruct (cidr_addr_aligned _ _ _ Hc) as [q ->]. pose proof (cidr_ones _ _ _ Hc) as Ho.
  assert (0 < 2 ^ (bits - ones)) by lia. rewrite Z.div_mul by lia. split.
  - intros ->. pose proof (Z.mul_div_le (addr16 ip) (2 ^ (bits - ones))).
    pose proof (Z.mul_succ_div_gt (addr16 ip) (2 ^ (bits - ones))). lia.
  - intros Hi. apply Z.div_unique with (r := addr16 ip - q * 2 ^ (bits - ones)); lia.
Qed.

(** ** Networks within networks *)

(** The address as [Contains] compares it. *)
Definition unmap (ip : IP) : IP := default ip (To4 ip).

(** A network whose own address is not an IPv4 address in 16 bytes. *)
Definition unmapped (n : IPNet) : Prop := length (net_ip n) = 4%nat \/ To4 (net_ip n) = None.

Lemma unmap_bytes ip : wf_ip ip -> Forall is_byte (unmap ip).
Proof.
  intros Hw. unfold unmap. destruct (To4 ip) as [x|] eqn:E; [by apply (To4_spec _ _ Hw E)|]. by destruct Hw.
Qed.

Lemma unmap_v4 b : length b = 4%nat -> unmap (v4InV6Prefix ++ b) = b.
Proof.
  intros Hl. unfold unmap. rewrite To4_len16 by (rewrite length_app, Hl; done).
  rewrite bool_decide_true by (by rewrite take_app_length'). by rewrite drop_app_length'.
Qed.

Lemma Contains_unmap n ones bits ip :
  cidr_ok n ones bits -> unmapped n -> wf_ip ip ->
  Contains n ip = true <->
  length (unmap ip) = length (net_ip n) /\
  ip_val (net_ip n) / 2 ^ (bits - ones) = ip_val (unmap ip) / 2 ^ (bits - ones).
Proof.
  intros Hc Hu Hw. assert (net_number n = Some (net_ip n, mask_bytes (length (net_ip n)) ones)) as En.
  { pose proof Hc as [Hb Hl Hby Ho Hm Ha]. destruct Hu as [Hu|Hu].
    - rewrite (net_number_4 n ones bits (net_ip n) Hc) by (lia || by apply To4_len4). rewrite Hu. do 3 f_equal. lia.
    - destruct (net_number_16 _ _ _ Hc Hu) as [-> ->]. do 3 f_equal. lia. }
  unfold Contains. rewrite En. fold (unmap ip). destruct Hc as [Hb Hl Hby Ho Hm Ha].
  rewrite andb_true_iff, Z.eqb_eq, bool_decide_eq_true. unfold go_len. rewrite Nat2Z.inj_iff.
  split; intros [Hlen H]; (split; [done|]).
  - apply mask_eq_iff in H; [by rewrite Hb|done|by apply unmap_bytes|done|done|lia].
  - apply mask_eq_iff; [done|by apply unmap_bytes|done|done|lia|by rewrite Hb in H].
Qed.

(** The 16-byte address of a mapped network has at least 96 ones above it. *)
Lemma mapped_ones n ones bits :
  cidr_ok n ones bits -> length (net_ip n) = 16%nat -> To4 (net_ip n) <> None -> 96 <= ones.
Proof.
  intros Hc Hl Hm. pose proof (cidr_wf _ _ _ Hc) as Hw. destruct (To4 (net_ip n)) as [p|] eqn:E; [|done].
  pose proof (To4_Some_block _ _ Hw E) as Hb. rewrite addr16_16 in Hb by done.
  destruct Hc as [Hbits _ _ Ho _ [q Ha]]. rewrite Hl in Hbits. rewrite Ha in Hb.
  destruct (decide (96 <= ones)) as [|Hlt]; [done|exfalso].
  replace (bits - ones) with (32 + (1 + (95 - ones))) in Hb by lia. rewrite !Z.pow_add_r in Hb by lia.
  replace (q * (2 ^ 32 * (2 ^ 1 * 2 ^ (95 - ones)))) with ((2 * (q * 2 ^ (95 - ones))) * 2 ^ 32) in Hb by ring.
  rewrite Z.div_mul in Hb by lia. lia.
Qed.

(** The address of a parsed CIDR lies in its network, and is mapped when the
    network is. *)
Lemma ParseCIDR_within s ip n ones bits :
  ParseCIDR s = Some (ip, n) -> cidr_ok n ones bits ->
  (length (net_mask n) = 4%nat \/ To4 ip = None) ->
  unmapped n /\ length (unmap ip) = length (net_ip n) /\
  ip_val (net_ip n) / 2 ^ (bits - ones) = ip_val (unmap ip) / 2 ^ (bits - ones).
Proof.
  unfold ParseCIDR. intros H Hc Hp. destruct (cut "/" s) as [[addr m]|]; [|done].
  destruct (parse_addr addr) as [[is4 b]|] eqn:E; [|done].
  destruct (read_digits dec_val m) as [[|d l]|] eqn:Ed; try done.
  apply parse_addr_wf in E as [Hl Hby]. cbv zeta in H. destruct (_ <=? _); [|done]. injection H as <- <-.
  pose proof Hc as [Hb _ _ Ho Hm _]. cbn [net_ip net_mask] in *. set (m0 := of_digits 10 (d :: l)) in *.
  assert (forall k, length (mask_bytes k m0) = k) as Hmk by (intros; apply mask_bytes_length).
  assert (forall k, length b = k -> length (mask_ip b (mask_bytes k m0)) = k) as Hmi
    by (intros k Hk; unfold mask_ip; rewrite length_zip_with, Hmk; lia).
  destruct is4; cbv iota in *; [rewrite CIDRMask_32 in *|rewrite CIDRMask_128 in *]; rewrite Hmi in * by done.
  - split; [left; cbn [net_ip]; by apply Hmi|].
    pose proof (unmap_v4 b Hl) as Hu. cbv [v4InV6Prefix replicate app] in Hu. rewrite Hu.
    split; [done|]. rewrite Hm, mask_value by (done || lia). rewrite Hb, Z.div_mul; [done|]. apply Z.pow_nonzero; lia.
  - rewrite Hmk in Hp. destruct Hp as [|Hp]; [done|]. unfold unmap. rewrite Hp. cbn [default].
    assert (ip_val (mask_ip b (mask_bytes 16 m0)) / 2 ^ (bits - ones) = ip_val b / 2 ^ (bits - ones)) as Hv.
    { rewrite Hm, mask_value by (done || lia). rewrite Hb, Z.div_mul; [done|]. apply Z.pow_nonzero; lia. }
    split; [|done]. right. cbn [net_ip]. destruct (To4 (mask_ip b (mask_bytes 16 m0))) as [p|] eqn:Em; [exfalso|done].
    pose proof (mapped_ones _ _ _ Hc ltac:(cbn [net_ip]; by apply Hmi) ltac:(cbn [net_ip]; by rewrite Em)) as H96.
    pose proof (cidr_wf _ _ _ Hc) as Hw. cbn [net_ip] in Hw. pose proof (To4_Some_block _ _ Hw Em) as Hblk.
    rewrite addr16_16 in Hblk by (by apply Hmi). apply (div_block _ _ (bits - ones)) in Hv; [|lia].
    rewrite Hblk in Hv. assert (wf_ip b) as Hwb by (split; [by right|done]).
    pose proof (To4_None_block b Hwb Hp) as Hn. rewrite addr16_16 in Hn by done. by symmetry in Hv.
Qed.

(** A network whose address lies in a wider one is contained in it. *)
Lemma network_within n ones bits a aones abits s ip x :
  ParseCIDR s = Some (ip, n) -> cidr_ok n ones bits -> cidr_ok a aones abits ->
  (length (net_mask n) = 4%nat \/ To4 ip = None) ->
  Contains a ip = true -> aones <= ones -> wf_ip x -> Contains n x = true -> Contains a x = true.
Proof.
  intros Hs Hn Ha Hp Hai Hle Hx Hnx. destruct (ParseCIDR_ok _ _ _ Hs) as [Hwi _].
  destruct (ParseCIDR_within _ _ _ _ _ Hs Hn Hp) as (Hun & Hlen & Hval).
  apply (Contains_unmap _ _ _ _ Hn Hun Hx) in Hnx as [Hlx Hvx].
  assert (unmapped a) as Hua.
  { unfold unmapped. destruct (cidr_len _ _ _ Ha) as [|Hla]; [by left|right].
    destruct (To4 (net_ip a)) as [p|] eqn:Ea; [exfalso|done].
    pose proof (mapped_ones _ _ _ Ha Hla ltac:(by rewrite Ea)) as H96.
    pose proof (cidr_bits _ _ _ Hn) as Hb. pose proof (cidr_ones _ _ _ Hn) as Ho.
    destruct (cidr_len _ _ _ Hn) as [Hl4|Hl16]; [rewrite Hl4 in Hb; lia|].
    pose proof (cidr_bits _ _ _ Ha) as Hab. apply (Contains_div _ _ _ _ Ha) in Hai; [|lia|done].
    apply div_block in Hai; [|pose proof (cidr_ones _ _ _ Ha); lia].
    rewrite (To4_Some_block _ _ (cidr_wf _ _ _ Ha) Ea) in Hai. unfold unmap in Hlen.
    destruct (To4 ip) as [q|] eqn:Eq; [cbn in Hlen; destruct (To4_spec _ _ Hwi Eq); lia|].
    by destruct (To4_None_block _ Hwi Eq). }
  apply (Contains_unmap _ _ _ _ Ha Hua Hwi) in Hai as [Hla Hva]. apply (Contains_unmap _ _ _ _ Ha Hua Hx).
  split; [congruence|]. rewrite Hva. pose proof (cidr_bits _ _ _ Ha) as Hb1. pose proof (cidr_bits _ _ _ Hn) as Hb2.
  pose proof (cidr_ones _ _ _ Hn). replace (abits - aones) with ((bits - ones) + (ones - aones)) by lia.
  rewrite Z.pow_add_r, <- !Z.div_div by (lia || (apply Z.pow_nonzero; lia)). congruence.
Qed.
