(* ===== verification/RustNet.v ===== *)
(** The IP address parser of Rust's standard library (core::net::parser), which the
    dataplane daemon applies to every address it is sent, and its agreement with
    the way the Go agent prints IPv4 addresses. *)

From Stdlib Require Import ZArith Lia Ascii String.
From stdpp Require Import base tactics list gmap strings.
From S2P Require Import Prelude GoStrings GoNet.

(** * The parser *)

(** [IpAddr]: an IPv4 address as [u32::from] gives it, or the octets of an IPv6
    address. *)
Inductive IpAddr := V4 (a : Z) | V6 (octets : list Z).

(** The digits of [read_number]: value, number of digits and rest of the input; no
    result if the value overflows its type ([lim]) or there are too many digits. *)
Fixpoint read_number_loop (val : ascii -> option Z) (radix lim : Z) (max cnt : nat) (acc : Z) (s : string)
    : option (Z * nat * string) :=
  match s with
  | EmptyString => Some (acc, cnt, s)
  | String c r =>
      match val c with
      | None => Some (acc, cnt, s)
      | Some d =>
          if lim <? acc * radix + d then None
          else if (max <? S cnt)%nat then None
          else read_number_loop val radix lim max (S cnt) (acc * radix + d) r
      end
  end.

Definition read_number (val : ascii -> option Z) (radix lim : Z) (max : nat) (allow_zero_prefix : bool) (s : string)
    : option (Z * string) :=
  match read_number_loop val radix lim max 0 0 s with
  | None => None
  | Some (v, cnt, r) =>
      let has_leading_zero := match s with String c _ => Ascii.eqb c "0" | EmptyString => false end in
      if (cnt =? 0)%nat then None
      else if negb allow_zero_prefix && has_leading_zero && (1 <? cnt)%nat then None
      else Some (v, r)
  end.

(** [read_separator]: every element but the first follows a separator. *)
Definition read_separator {A} (sep : ascii) (i : nat) (inner : string -> option (A * string)) (s : string)
    : option (A * string) :=
  match i with
  | O => inner s
  | S _ => match s with
           | String c r => if Ascii.eqb c sep then inner r else None
           | EmptyString => None
           end
  end.

Definition read_octet : string -> option (Z * string) := read_number dec_val 10 255 3 false.
Definition read_group : string -> option (Z * string) := read_number hex_val 16 65535 4 true.

Fixpoint read_octets (n i : nat) (s : string) : option (list Z * string) :=
  match n with
  | O => Some ([], s)
  | S n' =>
      match read_separator "." i read_octet s with
      | None => None
      | Some (v, r) => match read_octets n' (S i) r with
                       | None => None
                       | Some (l, r') => Some (v :: l, r')
                       end
      end
  end.

Definition read_ipv4_addr (s : string) : option (list Z * string) := read_octets 4 0 s.

(** [read_groups] with [n] of the groups left: the groups, whether the last two are
    an embedded IPv4 address, and the rest of the input. *)
Fixpoint read_groups (n i : nat) (s : string) : list Z * bool * string :=
  match n with
  | O => ([], false, s)
  | S n' =>
      match (if (1 <=? n')%nat then read_separator ":" i read_ipv4_addr s else None) with
      | Some ([a; b; c; d], r) => ([a * 256 + b; c * 256 + d], true, r)
      | _ =>
          match read_separator ":" i read_group s with
          | None => ([], false, s)
          | Some (g, r) => let '(l, v4, r') := read_groups n' (S i) r in (g :: l, v4, r')
          end
      end
  end.

Definition read_ipv6_addr (s : string) : option (list Z * string) :=
  let '(head, head_ipv4, r) := read_groups 8 0 s in
  if (length head =? 8)%nat then Some (ungroups head, r)
  else if head_ipv4 then None
  else
    match r with
    | String c1 (String c2 r') =>
        if Ascii.eqb c1 ":" && Ascii.eqb c2 ":" then
          let '(tail, _, r'') := read_groups (8 - (length head + 1)) 0 r' in
          Some (ungroups (head ++ replicate (8 - length head - length tail) 0 ++ tail), r'')
        else None
    | _ => None
    end.

(** [str::parse::<IpAddr>]: the whole input must be read. *)
Definition parse_ip (s : string) : option IpAddr :=
  match read_ipv4_addr s with
  | Some (o, r) => if String.eqb r "" then Some (V4 (ip_val o)) else None
  | None =>
      match read_ipv6_addr s with
      | Some (o, r) => if String.eqb r "" then Some (V6 o) else None
      | None => None
      end
  end.

(** * Printed addresses *)

(** The input does not go on with a digit. *)
Definition stops (val : ascii -> option Z) (s : string) : Prop :=
  match s with EmptyString => True | String c _ => val c = None end.

Lemma of_digits_from_le b (l : list Z) acc :
  1 <= b -> 0 <= acc -> Forall (fun d => 0 <= d < b) l -> acc <= foldl (fun a d => a * b + d) acc l.
Proof.
  intros Hb. revert acc. induction l as [|d l IH]; intros acc Ha Hl; [cbn; lia|].
  apply Forall_cons in Hl as [Hd Hl]. cbn. etransitivity; [|apply IH; [nia|done]]. nia.
Qed.

Lemma read_number_loop_digits lim max (l : list Z) cnt acc rest :
  Forall (fun d => 0 <= d < 10) l -> stops dec_val rest -> 0 <= acc ->
  foldl (fun a d => a * 10 + d) acc l <= lim -> (cnt + length l <= max)%nat ->
  read_number_loop dec_val 10 lim max cnt acc (digits_str l +:+ rest)
  = Some (foldl (fun a d => a * 10 + d) acc l, (cnt + length l)%nat, rest).
Proof.
  revert cnt acc. induction l as [|d l IH]; intros cnt acc Hl Hs Ha Hlim Hmax.
  - cbn [digits_str foldl length]. rewrite Nat.add_0_r. change ("" +:+ rest) with rest.
    destruct rest as [|c r]; [done|]. cbn. by rewrite Hs.
  - apply Forall_cons in Hl as [Hd Hl]. cbn [digits_str]. rewrite str_app_cons. cbn [read_number_loop].
    rewrite dec_val_digit by done. cbn [foldl length] in *.
    pose proof (of_digits_from_le 10 l (acc * 10 + d) ltac:(lia) ltac:(lia) Hl).
    rewrite (proj2 (Z.ltb_ge _ _)), (proj2 (Nat.ltb_ge _ _)) by lia.
    rewrite IH by (done || lia). f_equal. f_equal. f_equal. lia.
Qed.

Lemma read_octet_fmt n rest : is_byte n -> stops dec_val rest -> read_octet (fmt_d n +:+ rest) = Some (n, rest).
Proof.
  intros [H0 H1] Hs. unfold read_octet, read_number, fmt_d. rewrite (proj2 (Z.ltb_ge _ _)) by lia.
  pose proof (digits_correct 10 n ltac:(lia) ltac:(lia)) as Hc. unfold of_digits in Hc.
  pose proof (digits_range 10 n ltac:(lia) ltac:(lia)) as Hr.
  assert (length (digits 10 n) <= 3)%nat as Hl by (apply to_digits_length; [lia| |lia]; change (10 ^ Z.of_nat 3) with 1000; lia).
  rewrite read_number_loop_digits by (done || lia). cbn [Nat.add].
  pose proof (digits_nonempty 10 n) as Hne. destruct (digits 10 n) as [|d l] eqn:E; [done|]. rewrite Hc.
  cbn [length Nat.eqb negb andb]. destruct (1 <? S (length l))%nat eqn:El; [|by rewrite andb_false_r].
  destruct (Ascii.eqb_spec (digit_char d) "0") as [Hz|Hz];
    cbn [digits_str]; rewrite str_app_cons; [|rewrite (proj2 (Ascii.eqb_neq _ _)) by done; done].
  exfalso. apply Forall_cons in Hr as [Hd _]. assert (d = 0) as ->.
  { apply (f_equal dec_val) in Hz. rewrite dec_val_digit in Hz by done. by injection Hz. }
  destruct (decide (n = 0)) as [->|]; [vm_compute in E; injection E as <-; by apply Nat.ltb_lt in El; cbn in El; lia|].
  destruct (digits_head 10 n) as (d' & l' & E' & Hd'); [lia..|]. rewrite E in E'. injection E' as <- _. lia.
Qed.

Lemma read_octets_fmt (ip : list Z) i :
  Forall is_byte ip -> ip <> [] ->
  read_octets (length ip) i ((if (i =? 0)%nat then "" else ".") +:+ join "." (fmt_d <$> ip)) = Some (ip, "").
Proof.
  intros Hb. revert i. induction Hb as [|n ip Hn Hip IH]; intros i Hne; [done|]. cbn [length read_octets].
  assert (forall r, read_separator "." i read_octet ((if (i =? 0)%nat then "" else ".") +:+ r) = read_octet r) as Hsep
    by (intros r; by destruct i).
  rewrite Hsep. destruct ip as [|m ip].
  - cbn [fmap list_fmap join length read_octets]. rewrite <- (str_app_nil_r (fmt_d n)). by rewrite read_octet_fmt.
  - change (join "." (fmt_d <$> n :: m :: ip)) with (fmt_d n +:+ "." +:+ join "." (fmt_d <$> m :: ip)).
    rewrite read_octet_fmt by done. specialize (IH (S i) ltac:(done)). cbn [Nat.eqb] in IH. by rewrite IH.
Qed.

(** An IPv4 address that the Go agent prints is the address the daemon reads. *)
Lemma parse_ip_fmt (p4 : list Z) : length p4 = 4%nat -> Forall is_byte p4 -> parse_ip (fmt_ipv4 p4) = Some (V4 (ip_val p4)).
Proof.
  intros Hl Hb. unfold parse_ip, read_ipv4_addr, fmt_ipv4.
  pose proof (read_octets_fmt p4 0 Hb ltac:(by intros ->)) as H. rewrite Hl in H. cbn [Nat.eqb] in H.
  rewrite str_app_nil_l in H. by rewrite H.
Qed.

Lemma parse_ip_empty : parse_ip "" = None.
Proof. reflexivity. Qed.
