(* ===== verification/Constants.v ===== *)
(** The shared constants of internal/constants: policy actions, IP protocol
    numbers, service scopes and load-balancing algorithms. *)

From Stdlib Require Import ZArith String.
From stdpp Require Import base strings.
From S2P Require Import Prelude.

Definition ActionDeny : Z := 0.
Definition ActionAllow : Z := 1.
Definition ActionSNAT : Z := 2.

Definition ProtocolAny : Z := 0.
Definition ProtocolTCP : Z := 6.
Definition ProtocolUDP : Z := 17.
Definition ProtocolSCTP : Z := 132.

(** The Kubernetes protocol names are "TCP", "UDP" and "SCTP". *)
Definition ProtocolToNumber (proto : string) : Z :=
  if String.eqb proto "TCP" then ProtocolTCP
  else if String.eqb proto "UDP" then ProtocolUDP
  else if String.eqb proto "SCTP" then ProtocolSCTP
  else ProtocolTCP.

Definition ScopeClusterIP : Z := 0.
Definition ScopeNodePort : Z := 1.
Definition ScopeExternalIP : Z := 2.
Definition ScopeLoadBalancer : Z := 3.

Definition AlgRandom : Z := 0.
Definition AlgRoundRobin : Z := 1.
Definition AlgMaglev : Z := 2.
