(* ===== verification/Bitmap.v ===== *)
(** The two free lists of addresses: [Bitmap] of internal/ipam/bitmap.go and
    [lbBitmap] of internal/lbipam/allocator.go.  Both are bitsets over 64-bit
    words; they search for a free bit in different ways.  The class [FreeList]
    states what the allocators rely on, in terms of the set of marked indices,
    and both bitsets are instances of it. *)

From Stdlib Require Import ZArith Lia Ascii String.
From stdpp Require Import base tactics list gmap strings fin_maps.
From S2P Require Import Prelude.

(** * Definitions *)

(** [Bitmap] of package ipam. *)
Record Bitmap := mkBitmap { bm_words : list Z; bm_size : Z }.

Definition NewBitmap (size : Z) : outcome Bitmap :=
  let words := Z.quot (to_int64 (size + 63)) 64 in
  ws ← go_make 0 8 words;
  Val (mkBitmap ws size).

Definition Set_ (b : Bitmap) (idx : Z) : outcome Bitmap :=
  let word := Z.quot idx 64 in
  let bit := Z.rem idx 64 in
  w ← go_index (bm_words b) word;
  ws ← go_update (bm_words b) word (Z.lor w (shl64 1 (wrap64 bit)));
  Val (mkBitmap ws (bm_size b)).

Definition Clear (b : Bitmap) (idx : Z) : outcome Bitmap :=
  let word := Z.quot idx 64 in
  let bit := Z.rem idx 64 in
  w ← go_index (bm_words b) word;
  ws ← go_update (bm_words b) word (andnot w (shl64 1 (wrap64 bit)));
  Val (mkBitmap ws (bm_size b)).

Definition Get (b : Bitmap) (idx : Z) : outcome bool :=
  let word := Z.quot idx 64 in
  let bit := Z.rem idx 64 in
  w ← go_index (bm_words b) word;
  Val (negb (Z.land w (shl64 1 (wrap64 bit)) =? 0)).

(** The inner loop of [FindFree], [fuel] iterations before its end: [Some] is a
    return, [None] the normal end of the loop. *)
Fixpoint find_bit (fuel : nat) (word i bit size : Z) : option Z :=
  match fuel with
  | O => None
  | S f =>
      let idx := i * 64 + bit in
      if size <=? idx then Some (-1)
      else if Z.land word (shl64 1 bit) =? 0 then Some idx
      else find_bit f word i (bit + 1) size
  end.

Fixpoint find_word (ws : list Z) (i size : Z) : Z :=
  match ws with
  | [] => -1
  | word :: r =>
      if word =? MaxUint64 then find_word r (i + 1) size
      else match find_bit 64 word i 0 size with
           | Some idx => idx
           | None => find_word r (i + 1) size
           end
  end.

Definition FindFree (b : Bitmap) : Z := find_word (bm_words b) 0 (bm_size b).

Definition Size (b : Bitmap) : Z := bm_size b.

(** [lbBitmap] of package lbipam. *)
Record lbBitmap := mkLbBitmap { lb_words : list Z; lb_size : Z }.

Definition newLBBitmap (size : Z) : outcome lbBitmap :=
  let nwords := Z.quot (to_int64 (size + 63)) 64 in
  ws ← go_make 0 8 nwords;
  Val (mkLbBitmap ws size).

Definition set (b : lbBitmap) (idx : Z) : outcome lbBitmap :=
  let shift := wrap64 (Z.rem idx 64) in
  w ← go_index (lb_words b) (Z.quot idx 64);
  ws ← go_update (lb_words b) (Z.quot idx 64) (Z.lor w (shl64 1 shift));
  Val (mkLbBitmap ws (lb_size b)).

Definition clear (b : lbBitmap) (idx : Z) : outcome lbBitmap :=
  let shift := wrap64 (Z.rem idx 64) in
  w ← go_index (lb_words b) (Z.quot idx 64);
  ws ← go_update (lb_words b) (Z.quot idx 64) (andnot w (shl64 1 shift));
  Val (mkLbBitmap ws (lb_size b)).

(** [bits.TrailingZeros64]. *)
Fixpoint trailing_zeros (p : positive) : Z :=
  match p with
  | xO q => 1 + trailing_zeros q
  | _ => 0
  end.

Definition TrailingZeros64 (x : Z) : Z :=
  match x with Zpos p => trailing_zeros p | _ => 64 end.

Fixpoint find_free_word (ws : list Z) (i size : Z) : Z :=
  match ws with
  | [] => -1
  | w :: r =>
      let inv := not64 w in
      if inv =? 0 then find_free_word r (i + 1) size
      else
        let bit := TrailingZeros64 inv in
        let idx := i * 64 + bit in
        if size <=? idx then -1 else idx
  end.

Definition findFree (b : lbBitmap) : Z := find_free_word (lb_words b) 0 (lb_size b).

(** * The free-list interface *)

(** A bounded set of marked indices with a search for an unmarked one. *)
Class FreeList (B : Type) := {
  fl_wf : B -> Prop;
  fl_size : B -> Z;
  fl_view : B -> gset Z;
  fl_mark : B -> Z -> outcome B;
  fl_unmark : B -> Z -> outcome B;
  fl_find : B -> Z;
}.

Class FreeListLaws (B : Type) `{FreeList B} : Prop := {
  fl_view_range b i : i ∈ fl_view b -> 0 <= i < fl_size b;
  fl_mark_spec b i : fl_wf b -> 0 <= i < fl_size b ->
    exists b', fl_mark b i = Val b' /\ fl_wf b' /\ fl_size b' = fl_size b /\
               fl_view b' = {[i]} ∪ fl_view b;
  fl_unmark_spec b i : fl_wf b -> 0 <= i < fl_size b ->
    exists b', fl_unmark b i = Val b' /\ fl_wf b' /\ fl_size b' = fl_size b /\
               fl_view b' = (fl_view b ∖ {[i]});
  fl_find_spec b : fl_wf b ->
    (fl_find b = -1 /\ (forall j, 0 <= j < fl_size b -> j ∈ fl_view b)) \/
    (0 <= fl_find b < fl_size b /\ (fl_find b ∉ fl_view b) /\
     forall j, 0 <= j < fl_find b -> j ∈ fl_view b);
}.

(** * Bits of a word list *)

Definition bit_at (ws : list Z) (i : Z) : bool :=
  match ws !! Z.to_nat (i / 64) with Some w => Z.testbit w (i mod 64) | None => false end.

(** The marked indices below [sz]. *)
Definition marked (ws : list Z) (sz : Z) : gset Z :=
  list_to_set (filter (fun i => bit_at ws i = true) (seqZ 0 sz)).

Definition words_wf (ws : list Z) (sz : Z) : Prop :=
  0 <= sz /\ go_len ws = (sz + 63) / 64 /\ Forall is_u64 ws.

Lemma elem_of_marked ws sz i : i ∈ marked ws sz <-> 0 <= i < sz /\ bit_at ws i = true.
Proof. unfold marked. rewrite elem_of_list_to_set, list_elem_of_filter, elem_of_seqZ. intuition lia. Qed.

Lemma shift_index i : 0 <= i -> shl64 1 (wrap64 (Z.rem i 64)) = 2 ^ (i mod 64).
Proof.
  intros H. rewrite Z.rem_mod_nonneg by lia. pose proof (Z.mod_pos_bound i 64).
  unfold wrap64. rewrite Z.mod_small by lia. apply shl64_1. lia.
Qed.

Lemma word_index ws sz i :
  words_wf ws sz -> 0 <= i < sz ->
  exists w, ws !! Z.to_nat (i / 64) = Some w /\ go_index ws (Z.quot i 64) = Val w /\ is_u64 w /\
            forall x, go_update ws (Z.quot i 64) x = Val (<[Z.to_nat (i / 64) := x]> ws).
Proof.
  intros (Hs & Hl & Hw) Hi. rewrite Z.quot_div_nonneg by lia.
  assert (0 <= i / 64 < go_len ws) as Hr.
  { rewrite Hl. split; [by apply Z.div_pos; lia|].
    assert (i + 64 <= sz + 63) as H%(Z.div_le_mono _ _ 64) by lia; [|lia].
    rewrite <- (Z.mul_1_l 64) in H at 1. rewrite Z.div_add in H by lia. lia. }
  destruct (go_index_total ws (i / 64) Hr) as (w & Hw1 & Hw2).
  exists w. split_and!; [done|done|by eapply Forall_lookup_1|].
  intros x. by apply go_update_val.
Qed.

Lemma div_mod_eq i k : i / 64 = k / 64 -> i mod 64 = k mod 64 -> i = k.
Proof. intros H1 H2. rewrite (Z.div_mod i 64), (Z.div_mod k 64) by lia. congruence. Qed.

Lemma bit_at_update ws k w x i :
  ws !! Z.to_nat (k / 64) = Some w -> 0 <= k -> 0 <= i ->
  bit_at (<[Z.to_nat (k / 64) := x]> ws) i =
    if decide (i / 64 = k / 64) then Z.testbit x (i mod 64) else bit_at ws i.
Proof.
  intros Hw Hk Hi. unfold bit_at. destruct (decide (i / 64 = k / 64)) as [->|Hne].
  - rewrite list_lookup_insert_eq; [done|]. by eapply lookup_lt_Some.
  - rewrite list_lookup_insert_ne; [done|].
    pose proof (Z.div_pos i 64). pose proof (Z.div_pos k 64). lia.
Qed.

(** Or-ing a bit into its word marks its index. *)
Lemma marked_or ws sz k w :
  ws !! Z.to_nat (k / 64) = Some w -> 0 <= k < sz ->
  marked (<[Z.to_nat (k / 64) := Z.lor w (2 ^ (k mod 64))]> ws) sz = {[k]} ∪ marked ws sz.
Proof.
  intros Hw Hk. apply set_eq. intros i. rewrite elem_of_union, elem_of_singleton, !elem_of_marked.
  destruct (decide (0 <= i < sz)); [|assert (i <> k) by lia; tauto].
  rewrite (bit_at_update ws k w) by (done || lia).
  destruct (decide (i / 64 = k / 64)) as [Hd|Hd].
  - rewrite Z.lor_spec, orb_true_iff, Z.pow2_bits_eqb, Z.eqb_eq by (apply Z.mod_pos_bound; lia).
    assert (bit_at ws i = Z.testbit w (i mod 64)) as -> by (unfold bit_at; by rewrite Hd, Hw).
    assert (i = k <-> k mod 64 = i mod 64) as ->; [|tauto].
    split; [by intros ->|]. intros. by apply div_mod_eq.
  - assert (i <> k) by (by intros ->). tauto.
Qed.

(** And-not clears it. *)
Lemma marked_andnot ws sz k w :
  ws !! Z.to_nat (k / 64) = Some w -> 0 <= k < sz ->
  marked (<[Z.to_nat (k / 64) := andnot w (2 ^ (k mod 64))]> ws) sz = marked ws sz ∖ {[k]}.
Proof.
  intros Hw Hk. apply set_eq. intros i. rewrite elem_of_difference, elem_of_singleton, !elem_of_marked.
  destruct (decide (0 <= i < sz)); [|assert (i <> k) by lia; tauto].
  rewrite (bit_at_update ws k w) by (done || lia).
  destruct (decide (i / 64 = k / 64)) as [Hd|Hd].
  - unfold andnot. rewrite Z.ldiff_spec, andb_true_iff, negb_true_iff.
    rewrite Z.pow2_bits_eqb, Z.eqb_neq by (apply Z.mod_pos_bound; lia).
    assert (bit_at ws i = Z.testbit w (i mod 64)) as -> by (unfold bit_at; by rewrite Hd, Hw).
    assert (i = k <-> k mod 64 = i mod 64) as ->; [|tauto].
    split; [by intros ->|]. intros. by apply div_mod_eq.
  - assert (i <> k) by (by intros ->). tauto.
Qed.

Lemma lor_u64 w k : is_u64 w -> 0 <= k < 64 -> is_u64 (Z.lor w (2 ^ k)).
Proof.
  intros Hw Hk. apply u64_bits_bound; [apply Z.lor_nonneg; unfold is_u64 in Hw; lia|].
  intros n Hn. rewrite Z.lor_spec, testbit_u64_high, Z.pow2_bits_false by (done || lia). done.
Qed.

Lemma andnot_u64 w x : is_u64 w -> is_u64 (andnot w x).
Proof.
  intros Hw. apply u64_bits_bound; [apply Z.ldiff_nonneg; unfold is_u64 in Hw; lia|].
  intros n Hn. unfold andnot. by rewrite Z.ldiff_spec, testbit_u64_high.
Qed.

Lemma words_wf_insert ws sz i x : words_wf ws sz -> is_u64 x -> words_wf (<[i := x]> ws) sz.
Proof.
  intros (H1 & H2 & H3) Hx. split_and!; [done| |by apply Forall_insert].
  unfold go_len. by rewrite length_insert.
Qed.

(** [marked] of a fresh word list is empty. *)
Lemma marked_fresh n sz : marked (replicate n 0) sz = ∅.
Proof.
  apply set_eq. intros i. rewrite elem_of_marked. unfold bit_at. split; [|set_solver].
  intros [_ H]. destruct (_ !! _) eqn:E; [|done]. apply lookup_replicate in E as [-> _].
  by rewrite Z.bits_0 in H.
Qed.

(** * Searching *)

(** [r] is the first index of [lo, hi) that fails [P], or -1 if there is none. *)
Definition first_free (P : Z -> bool) (lo hi r : Z) : Prop :=
  (r = -1 /\ (forall j, lo <= j < hi -> P j = true)) \/
  (lo <= r < hi /\ P r = false /\ (forall j, lo <= j < r -> P j = true)).

Lemma first_free_unique P hi r r' :
  first_free P 0 hi r -> first_free P 0 hi r' -> r = r'.
Proof.
  intros [[-> H]|(H1 & H2 & H3)] [[-> H']|(H1' & H2' & H3')]; [done| | |].
  - by rewrite H in H2'.
  - by rewrite H' in H2.
  - destruct (Z.lt_trichotomy r r') as [Hlt|[?|Hlt]]; [|done|].
    + by rewrite H3' in H2 by lia.
    + by rewrite H3 in H2' by lia.
Qed.

(** A search that found nothing in a prefix goes on after it. *)
Lemma first_free_skip P lo mid hi r :
  lo <= mid -> (forall j, lo <= j < mid -> P j = true) -> first_free P mid hi r -> first_free P lo hi r.
Proof.
  intros Hm HP [[-> H]|(H1 & H2 & H3)]; [left|right]; split_and!; try done; try lia.
  - intros j Hj. destruct (decide (j < mid)); [apply HP; lia|apply H; lia].
  - intros j Hj. destruct (decide (j < mid)); [apply HP; lia|apply H3; lia].
Qed.

Lemma first_free_ext P Q lo hi r :
  (forall j, lo <= j < hi -> P j = Q j) -> first_free P lo hi r -> first_free Q lo hi r.
Proof.
  intros E [[-> H]|(H1 & H2 & H3)]; [left|right]; split_and!; try done; try lia.
  - intros j Hj. rewrite <- E by lia. auto.
  - rewrite <- E by lia. done.
  - intros j Hj. rewrite <- E by lia. auto.
Qed.

Lemma land_bit w k : 0 <= k < 64 -> (Z.land w (shl64 1 k) =? 0) = negb (Z.testbit w k).
Proof.
  intros Hk. rewrite shl64_1 by lia. destruct (Z.testbit w k) eqn:E.
  - apply Z.eqb_neq. intros H. assert (Z.testbit (Z.land w (2 ^ k)) k = true) as H'.
    { by rewrite Z.land_spec, E, Z.pow2_bits_true by lia. }
    by rewrite H, Z.bits_0 in H'.
  - apply Z.eqb_eq, Z.bits_inj'. intros n Hn. rewrite Z.land_spec, Z.bits_0, Z.pow2_bits_eqb by lia.
    destruct (k =? n) eqn:En; [|by rewrite andb_false_r]. apply Z.eqb_eq in En. subst. by rewrite E.
Qed.

(** The inner loop of [FindFree] at bit [bit]. *)
Lemma find_bit_spec f w i bit sz :
  0 <= i -> 0 <= bit -> bit + Z.of_nat f = 64 ->
  match find_bit f w i bit sz with
  | Some r => first_free (fun j => Z.testbit w (j - i * 64)) (i * 64 + bit) (sz `min` (i * 64 + 64)) r
              /\ (r = -1 -> sz <= i * 64 + 64)
  | None => forall j, bit <= j < 64 -> Z.testbit w j = true
  end.
Proof.
  intros Hi. revert bit. induction f as [|f IH]; intros bit Hb Hf; cbn [find_bit]; [intros; lia|].
  destruct (sz <=? i * 64 + bit) eqn:E1; to_prop.
  { split; [left; split; [done|lia]|lia]. }
  rewrite land_bit by lia. destruct (Z.testbit w bit) eqn:E2; cbn [negb].
  - specialize (IH (bit + 1) ltac:(lia) ltac:(lia)). destruct (find_bit f w i (bit + 1) sz).
    + destruct IH as [IH IH']. split; [|done]. rewrite Z.add_assoc in IH.
      eapply first_free_skip; [|intros j Hj|exact IH]; [lia|]. by replace (j - i * 64) with bit by lia.
    + intros j Hj. destruct (decide (j = bit)) as [->|]; [done|]. apply IH. lia.
  - split; [|lia]. right. split_and!; try lia. by replace (i * 64 + bit - i * 64) with bit by lia.
Qed.

(** One word of the outer loop, followed by the search of the others: the shape
    the two searches share. *)
Lemma first_free_word w ws i sz r r0 :
  0 <= i ->
  (forall j, 0 <= j < 64 -> Z.testbit w j = true) ->
  first_free (fun j => bit_at ws (j - (i + 1) * 64)) ((i + 1) * 64) (sz `min` ((i + 1 + go_len ws) * 64)) r ->
  r0 = r ->
  first_free (fun j => bit_at (w :: ws) (j - i * 64)) (i * 64) (sz `min` ((i + go_len (w :: ws)) * 64)) r0.
Proof.
  intros Hi Hw H ->. apply (first_free_skip _ _ ((i + 1) * 64)); [lia| |].
  - intros j Hj. unfold bit_at. rewrite Z.div_small, Z.mod_small by lia. apply Hw. lia.
  - replace (i + go_len (w :: ws)) with (i + 1 + go_len ws) by (unfold go_len; cbn; lia).
    eapply first_free_ext; [|exact H]. intros j Hj. cbv beta. unfold bit_at.
    replace (j - i * 64) with ((j - (i + 1) * 64) + 1 * 64) by lia.
    rewrite Z.div_add, Z.mod_add by lia.
    assert (0 <= (j - (i + 1) * 64) / 64) by (apply Z.div_pos; lia).
    by replace (Z.to_nat ((j - (i + 1) * 64) / 64 + 1)) with (S (Z.to_nat ((j - (i + 1) * 64) / 64))) by lia.
Qed.

Lemma first_free_here w ws i sz r :
  0 <= i ->
  first_free (fun j => Z.testbit w (j - i * 64)) (i * 64) (sz `min` (i * 64 + 64)) r ->
  (r = -1 -> sz <= i * 64 + 64) ->
  first_free (fun j => bit_at (w :: ws) (j - i * 64)) (i * 64) (sz `min` ((i + go_len (w :: ws)) * 64)) r.
Proof.
  intros Hi H Hr.
  assert (forall j, i * 64 <= j < i * 64 + 64 -> bit_at (w :: ws) (j - i * 64) = Z.testbit w (j - i * 64)) as Hb.
  { intros j Hj. unfold bit_at. by rewrite Z.div_small, Z.mod_small by lia. }
  destruct H as [[-> H]|(H1 & H2 & H3)]; [left|right].
  - split; [done|]. intros j Hj. rewrite Hb by lia. apply H. lia.
  - split_and!; [unfold go_len; cbn; lia|unfold go_len; cbn; lia|rewrite Hb by lia; done|].
    intros j Hj. rewrite Hb by lia. apply H3. lia.
Qed.

Lemma find_word_spec ws i sz :
  0 <= i -> Forall is_u64 ws ->
  first_free (fun j => bit_at ws (j - i * 64)) (i * 64) (sz `min` ((i + go_len ws) * 64)) (find_word ws i sz).
Proof.
  intros Hi Hw. revert i Hi. induction Hw as [|w ws Hw Hws IH]; intros i Hi.
  { left. split; [done|]. unfold go_len. cbn. lia. }
  cbn [find_word]. destruct (w =? MaxUint64) eqn:E; to_prop.
  { subst w. eapply first_free_word; [done|apply testbit_max64|apply IH; lia|done]. }
  pose proof (find_bit_spec 64 w i 0 sz ltac:(lia) ltac:(lia) ltac:(lia)) as H.
  destruct (find_bit 64 w i 0 sz) as [r|].
  - destruct H as [H Hr]. rewrite Z.add_0_r in H. by apply first_free_here.
  - by destruct E; apply u64_all_ones.
Qed.

Lemma trailing_zeros_spec p :
  0 <= trailing_zeros p /\ Z.testbit (Zpos p) (trailing_zeros p) = true /\
  (forall j, 0 <= j < trailing_zeros p -> Z.testbit (Zpos p) j = false).
Proof.
  induction p as [p IH|p (IH1 & IH2 & IH3)|]; cbn [trailing_zeros]; [split_and!; [done|done|lia]| |].
  - change (Zpos p~0) with (2 * Zpos p). split_and!; [lia| |].
    + rewrite Z.add_1_l, Z.testbit_even_succ by lia. done.
    + intros j Hj. destruct (decide (j = 0)) as [->|]; [apply Z.testbit_even_0|].
      replace j with (Z.succ (j - 1)) by lia. rewrite Z.testbit_even_succ by lia. apply IH3. lia.
  - split_and!; [done|done|lia].
Qed.

Lemma not64_zero w : is_u64 w -> not64 w = 0 -> w = MaxUint64.
Proof. unfold not64. lia. Qed.

(** The trailing zeros of the complement are the leading run of marked bits. *)
Lemma tz_not64 w :
  is_u64 w -> not64 w <> 0 ->
  0 <= TrailingZeros64 (not64 w) < 64 /\ Z.testbit w (TrailingZeros64 (not64 w)) = false /\
  (forall j, 0 <= j < TrailingZeros64 (not64 w) -> Z.testbit w j = true).
Proof.
  intros Hw Hne. pose proof (not64_range w Hw) as Hr. unfold TrailingZeros64.
  destruct (not64 w) as [|p|p] eqn:E; [done| |unfold is_u64 in Hr; lia].
  destruct (trailing_zeros_spec p) as (H1 & H2 & H3).
  assert (trailing_zeros p < 64) as Hlt.
  { apply Z.nle_gt. intros Hge. by rewrite testbit_u64_high in H2. }
  rewrite <- E in H2, H3. rewrite not64_spec in H2 by (done || lia). apply negb_true_iff in H2.
  split_and!; try done. intros j Hj. specialize (H3 j Hj). rewrite not64_spec in H3 by (done || lia).
  by apply negb_false_iff in H3.
Qed.

Lemma find_free_word_spec ws i sz :
  0 <= i -> Forall is_u64 ws ->
  first_free (fun j => bit_at ws (j - i * 64)) (i * 64) (sz `min` ((i + go_len ws) * 64)) (find_free_word ws i sz).
Proof.
  intros Hi Hw. revert i Hi. induction Hw as [|w ws Hw Hws IH]; intros i Hi.
  { left. split; [done|]. unfold go_len. cbn. lia. }
  cbn [find_free_word]. destruct (not64 w =? 0) eqn:E; to_prop.
  { apply not64_zero in E as ->; [|done].
    eapply first_free_word; [done|apply testbit_max64|apply IH; lia|done]. }
  destruct (tz_not64 w Hw E) as (H1 & H2 & H3).
  assert (forall j, i * 64 <= j < i * 64 + TrailingZeros64 (not64 w) -> Z.testbit w (j - i * 64) = true) as Hlow.
  { intros j Hj. apply H3. lia. }
  apply first_free_here; [done| |]; destruct (sz <=? i * 64 + _) eqn:E'; to_prop; try lia.
  - left. split; [done|]. intros j Hj. apply Hlow. lia.
  - right. split_and!; [lia|lia| |done]. by rewrite Z.add_simpl_l.
Qed.

(** * The operations on the marked set *)

Lemma words_cover sz ws : words_wf ws sz -> sz `min` (go_len ws * 64) = sz.
Proof.
  intros (H1 & -> & _). pose proof (Z.mul_succ_div_gt (sz + 63) 64). lia.
Qed.

Lemma search_marked ws sz r :
  words_wf ws sz ->
  first_free (fun j => bit_at ws (j - 0 * 64)) (0 * 64) (sz `min` ((0 + go_len ws) * 64)) r ->
  (r = -1 /\ (forall j, 0 <= j < sz -> j ∈ marked ws sz)) \/
  (0 <= r < sz /\ (r ∉ marked ws sz) /\ (forall j, 0 <= j < r -> j ∈ marked ws sz)).
Proof.
  intros Hw. rewrite Z.add_0_l, words_cover by done. change (0 * 64) with 0.
  intros [[-> H]|(H1 & H2 & H3)]; [left|right]; split_and!; try done; try lia.
  - intros j Hj. apply elem_of_marked. specialize (H j Hj). by rewrite Z.sub_0_r in H.
  - intros [_ Hb]%elem_of_marked. by rewrite Z.sub_0_r, Hb in H2.
  - intros j Hj. apply elem_of_marked. specialize (H3 j Hj). rewrite Z.sub_0_r in H3. split; [lia|done].
Qed.

#[export] Instance Bitmap_free_list : FreeList Bitmap := {
  fl_wf b := words_wf (bm_words b) (bm_size b);
  fl_size := bm_size;
  fl_view b := marked (bm_words b) (bm_size b);
  fl_mark := Set_;
  fl_unmark := Clear;
  fl_find := FindFree;
}.

#[export] Instance lbBitmap_free_list : FreeList lbBitmap := {
  fl_wf b := words_wf (lb_words b) (lb_size b);
  fl_size := lb_size;
  fl_view b := marked (lb_words b) (lb_size b);
  fl_mark := set;
  fl_unmark := clear;
  fl_find := findFree;
}.

Lemma mod64_range i : 0 <= i mod 64 < 64.
Proof. apply Z.mod_pos_bound. lia. Qed.

Lemma lor_mod_u64 w k : is_u64 w -> is_u64 (Z.lor w (2 ^ (k mod 64))).
Proof. intros. apply lor_u64; [done|]. apply mod64_range. Qed.

(** Marking and unmarking: index the word, rewrite it, and read the effect off
    the marked set. *)
Ltac mark_spec op word_u64 marked_eq :=
  let b := fresh "b" in let i := fresh "i" in let Hw := fresh "Hw" in let Hi := fresh "Hi" in
  intros b i Hw Hi;
  let w := fresh "w" in
  let H1 := fresh in let H2 := fresh in let H3 := fresh in let H4 := fresh in
  destruct (word_index _ _ _ Hw Hi) as (w & H1 & H2 & H3 & H4);
  unfold op; rewrite H2, shift_index by lia; cbn [mbind outcome_bind]; rewrite H4;
  eexists; split_and!; [done| |done|by apply marked_eq];
  apply words_wf_insert; [done|]; by apply word_u64.

#[export] Instance Bitmap_laws : FreeListLaws Bitmap.
Proof.
  split; cbn [fl_wf fl_size fl_view fl_mark fl_unmark fl_find Bitmap_free_list].
  - intros b i H. by apply elem_of_marked in H as [? _].
  - mark_spec Set_ lor_mod_u64 marked_or.
  - mark_spec Clear andnot_u64 marked_andnot.
  - intros b Hw. apply search_marked; [done|]. apply find_word_spec; [lia|]. apply Hw.
Qed.

#[export] Instance lbBitmap_laws : FreeListLaws lbBitmap.
Proof.
  split; cbn [fl_wf fl_size fl_view fl_mark fl_unmark fl_find lbBitmap_free_list].
  - intros b i H. by apply elem_of_marked in H as [? _].
  - mark_spec set lor_mod_u64 marked_or.
  - mark_spec clear andnot_u64 marked_andnot.
  - intros b Hw. apply search_marked; [done|]. apply find_free_word_spec; [lia|]. apply Hw.
Qed.

Lemma new_words_wf sz ws :
  0 <= sz < 2 ^ 63 - 63 -> go_make 0 8 (Z.quot (to_int64 (sz + 63)) 64) = Val ws ->
  words_wf ws sz /\ marked ws sz = ∅.
Proof.
  intros Hs. rewrite to_int64_small, Z.quot_div_nonneg by lia. unfold go_make.
  destruct (_ || _) eqn:E; [done|]. intros [= <-]. split; [|apply marked_fresh].
  assert (0 <= (sz + 63) / 64) by (apply Z.div_pos; lia).
  split_and!; [lia| |by apply Forall_replicate].
  unfold go_len. rewrite length_replicate. lia.
Qed.

Lemma new_words sz :
  0 <= sz <= 2 ^ 50 ->
  exists ws, go_make 0 8 (Z.quot (to_int64 (sz + 63)) 64) = Val ws /\ words_wf ws sz /\ marked ws sz = ∅.
Proof.
  intros Hs. destruct (go_make 0 8 _) as [ws| |] eqn:E.
  - exists ws. split; [done|]. apply new_words_wf; [lia|done].
  - exfalso. revert E. rewrite to_int64_small, Z.quot_div_nonneg by lia. unfold go_make.
    assert (0 <= (sz + 63) / 64) by (apply Z.div_pos; lia).
    assert ((sz + 63) / 64 < 2 ^ 45) by (apply Z.div_lt_upper_bound; lia).
    destruct (_ || _) eqn:E; to_prop; [lia|done].
  - exfalso. revert E. unfold go_make. by destruct (_ || _).
Qed.

Lemma newLBBitmap_val sz b :
  0 <= sz < 2 ^ 63 - 63 -> newLBBitmap sz = Val b -> fl_wf b /\ fl_size b = sz /\ fl_view b = ∅.
Proof.
  unfold newLBBitmap. intros Hs H. destruct (go_make 0 8 _) as [ws| |] eqn:E; [|done..].
  injection H as <-. by destruct (new_words_wf sz ws Hs E).
Qed.

(** A fresh bitmap has nothing marked; [make] does not panic up to 2^50 bits. *)
Lemma NewBitmap_fresh sz :
  0 <= sz <= 2 ^ 50 ->
  exists b, NewBitmap sz = Val b /\ fl_wf b /\ fl_size b = sz /\ fl_view b = ∅.
Proof.
  intros Hs. destruct (new_words sz Hs) as (ws & Hws & H1 & H2).
  exists (mkBitmap ws sz). unfold NewBitmap. by rewrite Hws.
Qed.

Lemma newLBBitmap_fresh sz :
  0 <= sz <= 2 ^ 50 ->
  exists b, newLBBitmap sz = Val b /\ fl_wf b /\ fl_size b = sz /\ fl_view b = ∅.
Proof.
  intros Hs. destruct (new_words sz Hs) as (ws & Hws & H1 & H2).
  exists (mkLbBitmap ws sz). unfold newLBBitmap. by rewrite Hws.
Qed.

Lemma Get_view (b : Bitmap) i :
  fl_wf b -> 0 <= i < fl_size b -> Get b i = Val (bool_decide (i ∈ fl_view b)).
Proof.
  intros Hw Hi. destruct (word_index _ _ _ Hw Hi) as (w & H1 & H2 & H3 & H4).
  unfold Get. rewrite H2. cbn [mbind outcome_bind]. f_equal.
  rewrite Z.rem_mod_nonneg by lia. pose proof (mod64_range i). unfold wrap64.
  rewrite Z.mod_small, land_bit, negb_involutive by lia.
  apply eq_bool_prop_intro. rewrite bool_decide_spec. cbn [fl_view Bitmap_free_list].
  rewrite elem_of_marked. unfold bit_at. rewrite H1, Is_true_true. cbn in Hi. tauto.
Qed.

(** * Counting the marked indices *)

Section Count.
Context {B : Type} `{FreeListLaws B}.

Definition fl_count (b : B) : Z := Z.of_nat (size (fl_view b)).

Lemma fl_count_mark (b b' : B) i :
  fl_view b' = {[i]} ∪ fl_view b -> i ∉ fl_view b -> fl_count b' = fl_count b + 1.
Proof.
  intros Hv Hi. unfold fl_count. rewrite Hv, size_union, size_singleton; [lia|].
  by apply disjoint_singleton_l.
Qed.

Lemma fl_count_unmark (b b' : B) i :
  fl_view b' = fl_view b ∖ {[i]} -> i ∈ fl_view b -> fl_count b' = fl_count b - 1.
Proof.
  intros Hv Hi. unfold fl_count.
  assert ({[i]} ⊆ fl_view b) as Hs by (by apply singleton_subseteq_l).
  rewrite Hv, size_difference, size_singleton by done.
  apply subseteq_size in Hs. rewrite size_singleton in Hs. lia.
Qed.

Definition all_indices (n : Z) : gset Z := list_to_set (seqZ 0 n).

Lemma elem_of_all_indices n i : i ∈ all_indices n <-> 0 <= i < n.
Proof. unfold all_indices. rewrite elem_of_list_to_set, elem_of_seqZ. lia. Qed.

Lemma size_all_indices n : size (all_indices n) = Z.to_nat n.
Proof. unfold all_indices. rewrite size_list_to_set by apply NoDup_seqZ. apply length_seqZ. Qed.

Lemma fl_view_all (b : B) : fl_view b ⊆ all_indices (fl_size b).
Proof. intros i Hi%fl_view_range. by apply elem_of_all_indices. Qed.

Lemma fl_count_bound (b : B) : 0 <= fl_size b -> 0 <= fl_count b <= fl_size b.
Proof.
  intros Hs. unfold fl_count. pose proof (subseteq_size _ _ (fl_view_all b)) as H'.
  rewrite size_all_indices in H'. lia.
Qed.

(** The search fails exactly when every index is marked. *)
Lemma fl_find_full (b : B) :
  fl_wf b -> 0 <= fl_size b -> fl_find b < 0 <-> fl_count b = fl_size b.
Proof.
  intros Hw Hs. unfold fl_count. destruct (fl_find_spec b Hw) as [[-> Ha]|(Hr & Hn & _)].
  - split; [intros _|done]. assert (fl_view b = all_indices (fl_size b)) as ->.
    { apply set_eq. intros i. split; [apply fl_view_all|]. intros Hi%elem_of_all_indices. by apply Ha. }
    rewrite size_all_indices. lia.
  - split; [lia|]. intros Hc. destruct Hn.
    rewrite (set_subseteq_size_eq _ _ (fl_view_all b)); [|rewrite size_all_indices; lia].
    by apply elem_of_all_indices.
Qed.
End Count.

(** * Properties *)

(** [FindFree] returns the lowest clear index below the size, or -1 when all
    of them are set. *)
Theorem FindFree_first_clear (b : Bitmap) :
  fl_wf b ->
  (FindFree b = -1 /\ (forall j, 0 <= j < bm_size b -> Get b j = Val true)) \/
  (0 <= FindFree b < bm_size b /\ Get b (FindFree b) = Val false /\
   (forall j, 0 <= j < FindFree b -> Get b j = Val true)).
Proof.
  intros Hw.
  destruct (fl_find_spec b Hw) as [[H1 H2]|(H1 & H2 & H3)]; [left|right]; split_and!; try done; try apply H1.
  - intros j Hj. rewrite Get_view, bool_decide_true by auto. done.
  - rewrite Get_view, bool_decide_false by auto. done.
  - intros j Hj. rewrite Get_view, bool_decide_true; auto. change (bm_size b) with (fl_size b) in *. cbn in *. lia.
Qed.

Lemma FindFree_first_clear_witness :
  FindFree (mkBitmap [MaxUint64; 5] 70) = 65 /\ Get (mkBitmap [MaxUint64; 5] 70) 65 = Val false.
Proof.
  assert (fl_wf (mkBitmap [MaxUint64; 5] 70)) as Hw.
  { split; [done|]. split; [reflexivity|]. repeat constructor; done. }
  destruct (FindFree_first_clear _ Hw) as [[H _]|(_ & H & _)]; [vm_compute in H; discriminate H|].
  split; [reflexivity|exact H].
Defined.

(** The search of the load-balancer bitmap, which skips to the first clear bit
    of a word with [TrailingZeros64], returns what the bit-by-bit search of the
    ipam bitmap returns. *)
Theorem findFree_FindFree (ws : list Z) (sz : Z) :
  Forall is_u64 ws -> findFree (mkLbBitmap ws sz) = FindFree (mkBitmap ws sz).
Proof.
  intros Hw. unfold findFree, FindFree. cbn [lb_words lb_size bm_words bm_size].
  apply (first_free_unique (fun j => bit_at ws (j - 0 * 64)) (sz `min` ((0 + go_len ws) * 64))).
  - by apply find_free_word_spec.
  - by apply find_word_spec.
Qed.

Lemma findFree_FindFree_witness :
  findFree (mkLbBitmap [MaxUint64; 5] 70) = 65.
Proof.
  rewrite (findFree_FindFree [MaxUint64; 5] 70); [reflexivity|].
  repeat constructor; unfold is_u64, MaxUint64; lia.
Defined.
