(* ===== verification/IpamIndex.v ===== *)
(** Addresses and bitmap indices of package ipam (internal/ipam/pool.go):
    the sentinel errors, [normalizeIP], [indexToIP] and [ipToIndex], shared by the node allocator and
    the pools.  For a network of at most 20 host bits the two conversions are
    inverse to each other and index exactly the addresses the network contains. *)

From Stdlib Require Import ZArith Lia Ascii String.
From stdpp Require Import base tactics list gmap strings fin_maps.
From S2P Require Import Prelude GoStrings GoNet GoCidr.

(** * Definitions *)

(** The sentinel errors of the package, and the errors of [net.ParseCIDR] and of
    the file system, which the code wraps. *)
Inductive ipam_error :=
| ErrCIDRTooSmall | ErrNoFreeAddresses | ErrIPOutsideCIDR | ErrIPOutOfRange
| ErrIPAlreadyAlloc | ErrIPNotAllocated | ErrReleaseNetwork | ErrReleaseGateway
| ErrReleaseBroadcast | ErrCIDRTooLarge | ErrInvalidIPAddress
| ErrPoolAlreadyRegistered | ErrPoolNotFound
| ErrParseCIDR | ErrStateDir | ErrPersist.

Definition maxCIDRSize : Z := Z.shiftl 1 20.

Definition normalizeIP (ip : IP) : IP :=
  match To4 ip with
  | Some ip4 => ip4
  | None => default [] (To16 ip)
  end.

Definition indexToIP (baseIP : IP) (idx ipLen : Z) : outcome IP :=
  let base := ip_val baseIP in
  let result := base + idx in
  let b := big_bytes result in
  ip ← go_make 0 1 ipLen;
  if ipLen - go_len b <? 0 then Panic
  else Val (take (Z.to_nat (ipLen - go_len b)) ip ++ b).

Definition ipToIndex (baseIP ip : IP) (ipLen : Z) : Z :=
  let '(baseBytes, ipBytes) :=
    if ipLen =? 4 then (To4 baseIP, To4 ip) else (To16 baseIP, To16 ip) in
  match baseBytes, ipBytes with
  | Some bb, Some ib => to_int64 (ip_val ib - ip_val bb)
  | _, _ => -1
  end.

(** * Normalisation *)

Lemma normalizeIP_wf ip : wf_ip ip -> wf_ip (normalizeIP ip) /\ addr16 (normalizeIP ip) = addr16 ip.
Proof.
  intros Hw. unfold normalizeIP. destruct (To4 ip) as [p4|] eqn:E.
  - destruct (To4_spec _ _ Hw E) as (Hl & Hb & H16). split; [by split; [left|]|].
    by rewrite (addr16_To4 ip p4), addr16_4.
  - destruct (To4_None_spec _ Hw E) as (Hl & ->). done.
Qed.

Lemma To4_normalizeIP ip : wf_ip ip -> To4 (normalizeIP ip) = To4 ip.
Proof.
  intros Hw. unfold normalizeIP. destruct (To4 ip) as [p4|] eqn:E.
  - destruct (To4_spec _ _ Hw E) as (Hl & _ & _). by apply To4_len4.
  - by destruct (To4_None_spec _ Hw E) as (Hl & ->).
Qed.

(** A slice that is not an address normalises to nil. *)
Lemma normalizeIP_bad ip : length ip <> 4%nat -> length ip <> 16%nat -> normalizeIP ip = [].
Proof.
  intros H4 H16. unfold normalizeIP, To4, To16, go_len.
  destruct (_ =? 4) eqn:E1; to_prop; [lia|]. destruct (_ =? 16) eqn:E2; to_prop; [lia|]. done.
Qed.

(** Two addresses print alike exactly when they have the same value. *)
Lemma ip_string_addr16 a b : wf_ip a -> wf_ip b -> ip_string a = ip_string b <-> addr16 a = addr16 b.
Proof.
  intros Ha Hb. split.
  { intros H%ip_string_inj; [|done..]. unfold addr16. by rewrite H. }
  intros H. unfold ip_string.
  assert (forall ip, wf_ip ip -> (go_len ip =? 0) = false) as Hz.
  { intros ip [[Hl|Hl] _]; unfold go_len; by rewrite Hl. }
  rewrite !Hz by done.
  destruct (To4 a) as [pa|] eqn:Ea, (To4 b) as [pb|] eqn:Eb.
  - rewrite (addr16_To4 _ _ Ha Ea), (addr16_To4 _ _ Hb Eb) in H.
    destruct (To4_spec _ _ Ha Ea) as (La & Ba & _), (To4_spec _ _ Hb Eb) as (Lb & Bb & _).
    f_equal. apply ip_val_inj; [done|done|congruence|lia].
  - pose proof (To4_Some_block _ _ Ha Ea) as Hk. rewrite H in Hk. by destruct (To4_None_block _ Hb Eb).
  - pose proof (To4_Some_block _ _ Hb Eb) as Hk. rewrite <- H in Hk. by destruct (To4_None_block _ Ha Ea).
  - destruct (To4_None_spec _ Ha Ea) as (La & _), (To4_None_spec _ Hb Eb) as (Lb & _).
    assert (a = b) as -> by (apply addr16_inj; [done|done|congruence|done]). done.
Qed.

Lemma ip_string_normalizeIP ip : wf_ip ip -> ip_string (normalizeIP ip) = ip_string ip.
Proof. intros Hw. destruct (normalizeIP_wf ip Hw) as [H1 H2]. by apply ip_string_addr16. Qed.

(** * Indices of a network *)

Lemma big_bytes_spec v l :
  0 <= v < 256 ^ Z.of_nat l ->
  (length (big_bytes v) <= l)%nat /\ Forall is_byte (big_bytes v) /\ ip_val (big_bytes v) = v.
Proof.
  intros Hv. unfold big_bytes. destruct (v =? 0) eqn:E; to_prop; [subst; split_and!; [cbn; lia|done|done]|].
  rewrite Z.abs_eq by lia. split_and!.
  - destruct l as [|l]; [change (256 ^ Z.of_nat 0) with 1 in Hv; lia|].
    apply to_digits_length; lia.
  - apply digits_range; lia.
  - apply digits_correct; lia.
Qed.

Section Net.
Context (n : IPNet) (ones bits : Z).
Hypothesis Hc : cidr_ok n ones bits.
Hypothesis Hh : bits - ones <= 32.

(** The base address of the network and its length in bytes. *)
Local Abbreviation base := (net_ip n).
Local Abbreviation len := (go_len (net_ip n)).

Lemma net_room i : 0 <= i < 2 ^ (bits - ones) -> 0 <= ip_val base + i < 256 ^ len.
Proof.
  intros Hi. destruct Hc as [Hb Hl Hby Ho Hm [q Hq]]. unfold go_len. rewrite pow256, <- Hb.
  pose proof (ip_val_range _ Hby) as Hr. rewrite <- Hb, Hq in Hr. rewrite Hq. split; [lia|].
  assert (2 ^ bits = 2 ^ ones * 2 ^ (bits - ones)) as E by (rewrite <- Z.pow_add_r by lia; f_equal; lia).
  rewrite E in Hr |- *. assert (q + 1 <= 2 ^ ones) by nia. nia.
Qed.

Lemma addr16_offset ip i :
  length ip = length base -> ip_val ip = ip_val base + i -> addr16 ip = addr16 base + i.
Proof.
  intros Hl Hv. destruct (cidr_len _ _ _ Hc) as [H|H].
  - rewrite !addr16_4 by congruence. lia.
  - rewrite !addr16_16 by congruence. lia.
Qed.

(** [indexToIP] at an index of the network gives the address at that offset. *)
Lemma indexToIP_spec i :
  0 <= i < 2 ^ (bits - ones) ->
  exists ip, indexToIP base i len = Val ip /\ wf_ip ip /\ length ip = length base /\
             addr16 ip = addr16 base + i.
Proof.
  intros Hi. pose proof (net_room i Hi) as Hr.
  destruct (big_bytes_spec _ (length base) Hr) as (Hl & Hb & Hv).
  pose proof (cidr_len _ _ _ Hc) as Hlen. unfold indexToIP, go_make.
  assert ((len <? 0) || (2 ^ 48 <? len * 1) = false) as ->.
  { apply orb_false_iff; rewrite Z.ltb_ge, Z.ltb_ge. unfold go_len. lia. }
  cbn [mbind outcome_bind]. unfold go_len in *.
  destruct (_ - _ <? 0) eqn:E; to_prop; [lia|].
  rewrite take_replicate. set (k := (_ `min` _)%nat).
  assert (length (replicate k 0 ++ big_bytes (ip_val base + i)) = length base) as Hlk.
  { rewrite length_app, length_replicate. lia. }
  assert (ip_val (replicate k 0 ++ big_bytes (ip_val base + i)) = ip_val base + i) as Hvk.
  { unfold ip_val at 1. rewrite of_digits_app, of_digits_zeros, Z.mul_0_l. apply Hv. }
  eexists. split_and!; [done| |done|by apply addr16_offset].
  split; [by rewrite Hlk|]. rewrite Forall_app. split; [|done]. by apply Forall_replicate.
Qed.

(** [ipToIndex] of an address the network contains is its offset. *)
Lemma ipToIndex_spec ip :
  wf_ip ip -> Contains n ip = true ->
  ipToIndex base ip len = addr16 ip - addr16 base /\ 0 <= addr16 ip - addr16 base < 2 ^ (bits - ones).
Proof.
  intros Hw HC. pose proof (cidr_wf _ _ _ Hc) as Hwn.
  pose proof HC as Hi. rewrite (Contains_interval _ _ _ _ Hc Hh Hw) in Hi. split; [|lia].
  rewrite (Contains_div _ _ _ _ Hc Hh Hw) in HC.
  assert (2 ^ (bits - ones) <= 2 ^ 32) by (apply Z.pow_le_mono_r; lia).
  pose proof (cidr_ones _ _ _ Hc) as Ho. unfold ipToIndex.
  destruct (cidr_len _ _ _ Hc) as [Hl|Hl].
  - destruct (len4_tests _ Hl) as [-> _]. rewrite To4_len4 by done.
    destruct (To4 ip) as [p4|] eqn:E.
    + rewrite (addr16_To4 _ _ Hw E), (addr16_4 base) in * by done.
      rewrite to_int64_small by lia. lia.
    + apply div_block in HC; [|lia]. rewrite (To4_Some_block base base) in HC by (done || by apply To4_len4).
      by destruct (To4_None_block _ Hw E).
  - destruct (len16_tests _ Hl) as [-> _]. rewrite To16_len16, (addr16_16 base) in * by done.
    unfold addr16 in *. destruct Hw as [[Hli|Hli] _];
      [rewrite To16_len4 in * by done|rewrite To16_len16 in * by done]; cbn [default id] in *;
      rewrite to_int64_small; cbn in *; lia.
Qed.

(** Every byte slice: the network contains its normal form iff it is an address
    of the interval, and then its index is its offset. *)
Lemma Contains_normalizeIP ip :
  Forall is_byte ip ->
  Contains n (normalizeIP ip) = true <->
  wf_ip ip /\ addr16 base <= addr16 ip < addr16 base + 2 ^ (bits - ones).
Proof.
  intros Hb. destruct (decide (length ip = 4%nat \/ length ip = 16%nat)) as [Hl|Hl].
  - assert (wf_ip ip) as Hw by done. destruct (normalizeIP_wf ip Hw) as [Hw' Ha].
    rewrite (Contains_interval _ _ _ _ Hc Hh Hw'), Ha. tauto.
  - rewrite normalizeIP_bad by tauto. split; [|by intros [[? _] _]].
    unfold Contains. destruct (To4 base) as [p|] eqn:E.
    + rewrite (net_number_4 _ _ _ p Hc Hh E).
      destruct (To4_spec _ _ (cidr_wf _ _ _ Hc) E) as (Hlp & _ & _). unfold go_len. by rewrite Hlp.
    + destruct (net_number_16 _ _ _ Hc E) as [-> _].
      destruct (To4_None_spec _ (cidr_wf _ _ _ Hc) E) as (Hlp & _). unfold go_len. by rewrite Hlp.
Qed.

Lemma ipToIndex_normalizeIP ip :
  wf_ip ip -> addr16 base <= addr16 ip < addr16 base + 2 ^ (bits - ones) ->
  ipToIndex base (normalizeIP ip) len = addr16 ip - addr16 base.
Proof.
  intros Hw Hr. destruct (normalizeIP_wf ip Hw) as [Hw' Ha]. rewrite <- Ha.
  apply ipToIndex_spec; [done|]. apply (Contains_interval _ _ _ _ Hc Hh Hw'). by rewrite Ha.
Qed.

(** The round trip: index, address, index. *)
Lemma ipToIndex_indexToIP i ip :
  0 <= i < 2 ^ (bits - ones) -> indexToIP base i len = Val ip -> ipToIndex base ip len = i.
Proof.
  intros Hi E. destruct (indexToIP_spec i Hi) as (ip' & E' & Hw & Hl & Ha).
  rewrite E in E'. injection E' as <-.
  destruct (ipToIndex_spec ip Hw) as [-> _]; [|lia].
  apply (Contains_interval _ _ _ _ Hc Hh Hw). lia.
Qed.
End Net.
