(* ===== verification/IpamAllocator.v ===== *)
(** The per-node pod address allocator, [Allocator] of
    internal/ipam/allocator.go: one CIDR, a bitmap of the allocated indices, and
    one file per allocated address in a state directory, from which the bitmap
    is rebuilt after a restart.  The allocator refines an abstract machine over
    the set of held addresses ([spec_step]), its invariant holds in every
    reachable state, and a restart never forgets an address that is in use. *)

From Stdlib Require Import ZArith Lia Ascii String.
From stdpp Require Import base tactics list gmap strings fin_maps.
From S2P Require Import Prelude GoStrings GoNet GoCidr Bitmap IpamIndex.

(** * Definitions *)

(** [Allocator], without its mutex and logger. *)
Record Allocator := mkAllocator {
  network : IPNet;
  baseIP : IP;
  a_size : Z;
  bitmap : Bitmap;
  used : Z;
  prefixLen : Z;
  ipLen : Z;
  isIPv4 : bool;
  stateDir : string;
}.

(** The state directory: the names of its files.  The outcome of a write, which
    may have created the file before it failed, and of a removal are inputs. *)
Definition files := gset string.

Inductive write_outcome := WriteOk | WriteFailed (created : bool).

Definition with_bitmap (a : Allocator) (bm : Bitmap) (u : Z) : Allocator :=
  mkAllocator (network a) (baseIP a) (a_size a) bm u (prefixLen a) (ipLen a) (isIPv4 a) (stateDir a).

Definition allocatorIPToIndex (a : Allocator) (ip : IP) : Z := ipToIndex (baseIP a) ip (ipLen a).

Definition allocatorIndexToIP (a : Allocator) (idx : Z) : outcome IP :=
  indexToIP (baseIP a) idx (ipLen a).

Definition saveIP (fs : files) (ip : IP) (w : write_outcome) : files * bool :=
  match w with
  | WriteOk => ({[ip_string ip]} ∪ fs, true)
  | WriteFailed created => (if created then {[ip_string ip]} ∪ fs else fs, false)
  end.

Definition removeIP (fs : files) (ip : IP) (removed : bool) : files :=
  if removed then fs ∖ {[ip_string ip]} else fs.

(** One entry of the loop of [loadState]: a name and whether it is a directory. *)
Definition load_entry (a : Allocator) (e : string * bool) : outcome Allocator :=
  let '(name, is_dir) := e in
  if is_dir then Val a
  else match ParseIP name with
       | None => Val a
       | Some ip =>
           let ipNorm := normalizeIP ip in
           if negb (Contains (network a) ipNorm) then Val a
           else
             let idx := allocatorIPToIndex a ipNorm in
             if (idx <? 0) || (a_size a <=? idx) then Val a
             else
               b ← Get (bitmap a) idx;
               if negb b : bool then
                 bm ← Set_ (bitmap a) idx;
                 Val (with_bitmap a bm (used a + 1))
               else Val a
       end.

Fixpoint load_entries (a : Allocator) (es : list (string * bool)) : outcome Allocator :=
  match es with
  | [] => Val a
  | e :: r => a' ← load_entry a e; load_entries a' r
  end.

(** [loadState]; [None] is a failed [os.ReadDir]. *)
Definition loadState (a : Allocator) (readdir : option (list (string * bool)))
    : outcome (result ipam_error Allocator) :=
  match readdir with
  | None => Val (Err ErrStateDir)
  | Some es => a' ← load_entries a es; Val (Ok a')
  end.

(** The allocator before [loadState]: parsing, size limits and reservations. *)
Definition new_reserved (podCIDR sdir : string) : outcome (result ipam_error Allocator) :=
  match ParseCIDR podCIDR with
  | None => Val (Err ErrParseCIDR)
  | Some (_, net) =>
      let '(ones, bits) := mask_size (net_mask net) in
      let hostBits := bits - ones in
      if 20 <? hostBits then Val (Err ErrCIDRTooLarge)
      else if hostBits <? 0 then Panic
      else
        let sz := Z.shiftl 1 hostBits in
        let v4 := bits =? 32 in
        if v4 && (sz <? 4) then Val (Err ErrCIDRTooSmall)
        else if negb v4 && (sz <? 2) then Val (Err ErrCIDRTooSmall)
        else
          let '(base, iplen) :=
            if negb v4 then (default [] (To16 (net_ip net)), 16)
            else (default [] (To4 (net_ip net)), 4) in
          bm ← NewBitmap sz;
          let a bm u := mkAllocator net base sz bm u ones iplen v4 sdir in
          if v4 then
            bm ← Set_ bm 0;
            bm ← Set_ bm 1;
            if 2 <? sz then
              bm ← Set_ bm (sz - 1);
              Val (Ok (a bm 3))
            else Val (Ok (a bm 2))
          else
            bm ← Set_ bm 0;
            Val (Ok (a bm 1))
  end.

Definition NewAllocatorWithStateDir (podCIDR sdir : string) (mkdir : bool)
    (readdir : option (list (string * bool))) : outcome (result ipam_error Allocator) :=
  r ← new_reserved podCIDR sdir;
  match r with
  | Err e => Val (Err e)
  | Ok a =>
      if negb (String.eqb sdir "") then
        if negb mkdir then Val (Err ErrStateDir) else loadState a readdir
      else Val (Ok a)
  end.

Definition NewAllocator (podCIDR : string) : outcome (result ipam_error Allocator) :=
  NewAllocatorWithStateDir podCIDR "" true (Some []).

(** The end of the two allocation paths: persist the address, or roll back. *)
Definition persist (a : Allocator) (fs : files) (idx : Z) (ip : IP) (w : write_outcome)
    : outcome (Allocator * files * result ipam_error IP) :=
  if negb (String.eqb (stateDir a) "") then
    let '(fs', ok) := saveIP fs ip w in
    if ok : bool then Val (a, fs', Ok ip)
    else
      bm ← Clear (bitmap a) idx;
      Val (with_bitmap a bm (used a - 1), fs', Err ErrPersist)
  else Val (a, fs, Ok ip).

Definition Allocate (a : Allocator) (fs : files) (w : write_outcome)
    : outcome (Allocator * files * result ipam_error IP) :=
  let idx := FindFree (bitmap a) in
  if idx <? 0 then Val (a, fs, Err ErrNoFreeAddresses)
  else
    bm ← Set_ (bitmap a) idx;
    let a := with_bitmap a bm (used a + 1) in
    ip ← allocatorIndexToIP a idx;
    persist a fs idx ip w.

Definition AllocateSpecific (a : Allocator) (fs : files) (ip : IP) (w : write_outcome)
    : outcome (Allocator * files * result ipam_error unit) :=
  let ipNorm := normalizeIP ip in
  if negb (Contains (network a) ipNorm) then Val (a, fs, Err ErrIPOutsideCIDR)
  else
    let idx := allocatorIPToIndex a ipNorm in
    if (idx <? 0) || (a_size a <=? idx) then Val (a, fs, Err ErrIPOutOfRange)
    else
      b ← Get (bitmap a) idx;
      if b : bool then Val (a, fs, Err ErrIPAlreadyAlloc)
      else
        bm ← Set_ (bitmap a) idx;
        let a := with_bitmap a bm (used a + 1) in
        '(a, fs, r) ← persist a fs idx ipNorm w;
        Val (a, fs, match r with Ok _ => Ok tt | Err e => Err e end).

Definition Release (a : Allocator) (fs : files) (ip : IP) (removed : bool)
    : outcome (Allocator * files * result ipam_error unit) :=
  let ipNorm := normalizeIP ip in
  if negb (Contains (network a) ipNorm) then Val (a, fs, Err ErrIPOutsideCIDR)
  else
    let idx := allocatorIPToIndex a ipNorm in
    if (idx <? 0) || (a_size a <=? idx) then Val (a, fs, Err ErrIPOutOfRange)
    else if idx =? 0 then Val (a, fs, Err ErrReleaseNetwork)
    else if isIPv4 a && (idx =? 1) then Val (a, fs, Err ErrReleaseGateway)
    else if isIPv4 a && (idx =? a_size a - 1) then Val (a, fs, Err ErrReleaseBroadcast)
    else
      b ← Get (bitmap a) idx;
      if negb b : bool then Val (a, fs, Err ErrIPNotAllocated)
      else
        bm ← Clear (bitmap a) idx;
        let a := with_bitmap a bm (used a - 1) in
        if negb (String.eqb (stateDir a) "") then Val (a, removeIP fs ipNorm removed, Ok tt)
        else Val (a, fs, Ok tt).

Definition Used (a : Allocator) : Z := used a.
Definition Available (a : Allocator) : Z := a_size a - used a.
Definition Gateway (a : Allocator) : outcome IP := allocatorIndexToIP a 1.
Definition PrefixLength (a : Allocator) : Z := prefixLen a.

(** * The abstract machine *)

(** The calls a client makes, with the file system's answers. *)
Inductive op :=
| OAllocate (w : write_outcome)
| OSpecific (ip : IP) (w : write_outcome)
| ORelease (ip : IP) (removed : bool).

Definition response := result ipam_error (option IP).

Definition with_response {A} (f : A -> option IP) (x : Allocator * files * result ipam_error A)
    : Allocator * files * response :=
  let '(a, fs, r) := x in (a, fs, match r with Ok v => Ok (f v) | Err e => Err e end).

Definition step (a : Allocator) (fs : files) (o : op) : outcome (Allocator * files * response) :=
  match o with
  | OAllocate w => x ← Allocate a fs w; Val (with_response Some x)
  | OSpecific ip w => x ← AllocateSpecific a fs ip w; Val (with_response (fun _ => None) x)
  | ORelease ip r => x ← Release a fs ip r; Val (with_response (fun _ => None) x)
  end.

(** An allocator of [cnt] addresses from [lo] on, seen from outside: the set [H]
    of addresses held, and the allowed answers to each call. *)
Section Spec.
Context (lo cnt : Z) (v4 : bool).

Definition in_net (ip : IP) : Prop := wf_ip ip /\ lo <= addr16 ip < lo + cnt.

Inductive spec_step (H : gset Z) : op -> response -> gset Z -> Prop :=
| S_alloc w ip :
    in_net ip -> addr16 ip ∉ H -> (forall x, lo <= x < addr16 ip -> x ∈ H) ->
    spec_step H (OAllocate w) (Ok (Some ip)) ({[addr16 ip]} ∪ H)
| S_alloc_full w :
    (forall x, lo <= x < lo + cnt -> x ∈ H) ->
    spec_step H (OAllocate w) (Err ErrNoFreeAddresses) H
| S_alloc_io c x :
    lo <= x < lo + cnt -> x ∉ H -> spec_step H (OAllocate (WriteFailed c)) (Err ErrPersist) H
| S_specific ip w :
    in_net ip -> addr16 ip ∉ H -> spec_step H (OSpecific ip w) (Ok None) ({[addr16 ip]} ∪ H)
| S_specific_outside ip w :
    ~ in_net ip -> spec_step H (OSpecific ip w) (Err ErrIPOutsideCIDR) H
| S_specific_held ip w :
    in_net ip -> addr16 ip ∈ H -> spec_step H (OSpecific ip w) (Err ErrIPAlreadyAlloc) H
| S_specific_io ip c :
    in_net ip -> addr16 ip ∉ H ->
    spec_step H (OSpecific ip (WriteFailed c)) (Err ErrPersist) H
| S_release ip r :
    in_net ip -> addr16 ip ∈ H -> addr16 ip <> lo ->
    (v4 = true -> addr16 ip <> lo + 1 /\ addr16 ip <> lo + cnt - 1) ->
    spec_step H (ORelease ip r) (Ok None) (H ∖ {[addr16 ip]})
| S_release_outside ip r :
    ~ in_net ip -> spec_step H (ORelease ip r) (Err ErrIPOutsideCIDR) H
| S_release_network ip r :
    in_net ip -> addr16 ip = lo -> spec_step H (ORelease ip r) (Err ErrReleaseNetwork) H
| S_release_gateway ip r :
    in_net ip -> v4 = true -> addr16 ip = lo + 1 ->
    spec_step H (ORelease ip r) (Err ErrReleaseGateway) H
| S_release_broadcast ip r :
    in_net ip -> v4 = true -> addr16 ip = lo + cnt - 1 ->
    spec_step H (ORelease ip r) (Err ErrReleaseBroadcast) H
| S_release_free ip r :
    in_net ip -> addr16 ip ∉ H -> spec_step H (ORelease ip r) (Err ErrIPNotAllocated) H.
End Spec.

(** * The invariant *)

(** The reserved indices: the network address, and for IPv4 the gateway and the
    broadcast address. *)
Definition reserved (a : Allocator) (i : Z) : Prop :=
  i = 0 \/ isIPv4 a = true /\ (i = 1 \/ i = a_size a - 1).

Record inv (a : Allocator) : Prop := {
  inv_cidr : cidr_ok (network a) (prefixLen a) (8 * ipLen a);
  inv_host : 8 * ipLen a - prefixLen a <= 20;
  inv_base : baseIP a = net_ip (network a);
  inv_len : ipLen a = go_len (net_ip (network a));
  inv_v4 : isIPv4 a = (ipLen a =? 4);
  inv_size : a_size a = 2 ^ (8 * ipLen a - prefixLen a);
  inv_min : 2 <= a_size a /\ (isIPv4 a = true -> 4 <= a_size a);
  inv_wf : fl_wf (bitmap a);
  inv_bits : fl_size (bitmap a) = a_size a;
  inv_used : used a = fl_count (bitmap a);
  inv_reserved i : reserved a i -> i ∈ fl_view (bitmap a);
}.

(** The first address, and the addresses held. *)
Definition lo_addr (a : Allocator) : Z := addr16 (baseIP a).
Definition held (a : Allocator) : gset Z := set_map (fun i => lo_addr a + i) (fl_view (bitmap a)).

Lemma elem_of_held a x : x ∈ held a <-> x - lo_addr a ∈ fl_view (bitmap a).
Proof.
  unfold held. rewrite elem_of_map. split.
  - intros (i & -> & Hi). by replace (lo_addr a + i - lo_addr a) with i by lia.
  - intros H. exists (x - lo_addr a). split; [lia|done].
Qed.

Lemma size_held a : size (held a) = size (fl_view (bitmap a)).
Proof.
  unfold held, set_map. rewrite size_list_to_set, length_fmap; [done|].
  apply NoDup_fmap_2; [intros x y; lia|apply NoDup_elements].
Qed.

Lemma inv_with_bitmap a bm u :
  inv a -> fl_wf bm -> fl_size bm = a_size a -> u = fl_count bm ->
  (forall i, reserved a i -> i ∈ fl_view bm) -> inv (with_bitmap a bm u).
Proof. intros [] ? ? ? ?. by split. Qed.

(** Marking a free index takes its address. *)
Lemma mark_inv a i :
  inv a -> 0 <= i < a_size a -> i ∉ fl_view (bitmap a) ->
  exists bm, Set_ (bitmap a) i = Val bm /\ inv (with_bitmap a bm (used a + 1)) /\
             fl_view bm = {[i]} ∪ fl_view (bitmap a).
Proof.
  intros Hi Hr Hn. pose proof (fl_mark_spec (bitmap a) i (inv_wf _ Hi)) as Hm.
  rewrite (inv_bits _ Hi) in Hm. destruct (Hm Hr) as (bm & E & Hw & Hs & Hv).
  exists bm. split_and!; [done| |done]. apply inv_with_bitmap; try done.
  - by rewrite (inv_used _ Hi), (fl_count_mark _ _ _ Hv Hn).
  - intros j Hj%inv_reserved; [|done]. rewrite Hv. by apply elem_of_union_r.
Qed.

(** Clearing an index that is not reserved gives it back. *)
Lemma unmark_inv a i :
  inv a -> 0 <= i < a_size a -> i ∈ fl_view (bitmap a) -> ~ reserved a i ->
  exists bm, Clear (bitmap a) i = Val bm /\ inv (with_bitmap a bm (used a - 1)) /\
             fl_view bm = fl_view (bitmap a) ∖ {[i]}.
Proof.
  intros Hi Hr Hn Hres. pose proof (fl_unmark_spec (bitmap a) i (inv_wf _ Hi)) as Hm.
  rewrite (inv_bits _ Hi) in Hm. destruct (Hm Hr) as (bm & E & Hw & Hs & Hv).
  exists bm. split_and!; [done| |done]. apply inv_with_bitmap; try done.
  - by rewrite (inv_used _ Hi), (fl_count_unmark _ _ _ Hv Hn).
  - intros j Hj. rewrite Hv, elem_of_difference, elem_of_singleton. split; [by apply inv_reserved|].
    by intros ->.
Qed.

Lemma contains_in_net a ip :
  inv a -> Forall is_byte ip ->
  Contains (network a) (normalizeIP ip) = true <-> in_net (lo_addr a) (a_size a) ip.
Proof.
  intros Hi Hb. assert (8 * ipLen a - prefixLen a <= 32) as Hh by (pose proof (inv_host _ Hi); lia).
  rewrite (Contains_normalizeIP _ _ _ (inv_cidr _ Hi) Hh ip Hb). unfold in_net, lo_addr.
  by rewrite (inv_base _ Hi), (inv_size _ Hi).
Qed.

Lemma index_in_net a ip :
  inv a -> in_net (lo_addr a) (a_size a) ip ->
  allocatorIPToIndex a (normalizeIP ip) = addr16 ip - lo_addr a.
Proof.
  intros Hi [Hw Hr]. assert (8 * ipLen a - prefixLen a <= 32) as Hh by (pose proof (inv_host _ Hi); lia).
  unfold allocatorIPToIndex, lo_addr in *. rewrite (inv_base _ Hi), (inv_size _ Hi), (inv_len _ Hi) in *.
  by apply (ipToIndex_normalizeIP _ _ _ (inv_cidr _ Hi)); rewrite ?(inv_len _ Hi).
Qed.

(** * Simulation *)

Lemma held_mark a bm u i :
  fl_view bm = {[i]} ∪ fl_view (bitmap a) ->
  held (with_bitmap a bm u) = {[lo_addr a + i]} ∪ held a.
Proof.
  intros Hv. apply set_eq. intros x.
  rewrite elem_of_union, elem_of_singleton, !elem_of_held.
  change (lo_addr (with_bitmap a bm u)) with (lo_addr a). cbn [with_bitmap bitmap].
  rewrite Hv, elem_of_union, elem_of_singleton.
  assert (x - lo_addr a = i <-> x = lo_addr a + i) as -> by lia. done.
Qed.

Lemma held_unmark a bm u i :
  fl_view bm = fl_view (bitmap a) ∖ {[i]} ->
  held (with_bitmap a bm u) = held a ∖ {[lo_addr a + i]}.
Proof.
  intros Hv. apply set_eq. intros x.
  rewrite elem_of_difference, elem_of_singleton, !elem_of_held.
  change (lo_addr (with_bitmap a bm u)) with (lo_addr a). cbn [with_bitmap bitmap].
  rewrite Hv, elem_of_difference, elem_of_singleton.
  assert (x - lo_addr a = i <-> x = lo_addr a + i) as -> by lia. done.
Qed.

(** What a call leaves in the state directory: the file of an address it took is
    there, and a file it removed is that of an address that is not held. *)
Definition files_step (a : Allocator) (fs : files) (a' : Allocator) (fs' : files) : Prop :=
  (stateDir a <> "" -> forall ip, wf_ip ip -> addr16 ip ∈ held a' -> addr16 ip ∉ held a -> ip_string ip ∈ fs') /\
  (forall s, s ∈ fs -> s ∉ fs' -> exists ip, wf_ip ip /\ s = ip_string ip /\ addr16 ip ∉ held a').

(** Only the bitmap and the counter change. *)
Definition frame (a a' : Allocator) : Prop := a' = with_bitmap a (bitmap a') (used a').

Definition good_step (a : Allocator) (fs : files) (o : op) (a' : Allocator) (fs' : files) (r : response) : Prop :=
  inv a' /\ frame a a' /\ spec_step (lo_addr a) (a_size a) (isIPv4 a) (held a) o r (held a') /\
  files_step a fs a' fs'.

Lemma frame_refl a : frame a a.
Proof. by destruct a. Qed.

Lemma files_step_refl a fs : files_step a fs a fs.
Proof. split; [intros _ ip _ H1 H2; by destruct H2|intros s H1 H2; by destruct H2]. Qed.

(** An answer that changes nothing. *)
Lemma good_step_same a fs o r :
  inv a -> spec_step (lo_addr a) (a_size a) (isIPv4 a) (held a) o r (held a) ->
  good_step a fs o a fs r.
Proof. intros. split; [done|]. split; [apply frame_refl|]. split; [done|apply files_step_refl]. Qed.

(** Taking a free address: the persisting tail either keeps it or rolls back. *)
Lemma persist_spec a fs i ip bm w :
  inv a -> 0 <= i < a_size a -> i ∉ fl_view (bitmap a) -> wf_ip ip -> addr16 ip = lo_addr a + i ->
  Set_ (bitmap a) i = Val bm -> inv (with_bitmap a bm (used a + 1)) ->
  fl_view bm = {[i]} ∪ fl_view (bitmap a) ->
  exists a' fs' r,
    persist (with_bitmap a bm (used a + 1)) fs i ip w = Val (a', fs', r) /\ inv a' /\ frame a a' /\
    files_step a fs a' fs' /\
    ((r = Ok ip /\ held a' = {[addr16 ip]} ∪ held a) \/
     (exists c, w = WriteFailed c /\ r = Err ErrPersist /\ held a' = held a)).
Proof.
  intros Hi Hr Hn Hw Ha E Hi1 Hv. unfold persist. cbn [with_bitmap stateDir].
  pose proof (held_mark a bm (used a + 1) i Hv) as Hh. rewrite <- Ha in Hh.
  set (a1 := with_bitmap a bm (used a + 1)) in *.
  destruct (String.eqb (stateDir a) "") eqn:Es; cbn [negb].
  { exists a1, fs, (Ok ip). split_and!; [done|done|done| |left; done].
    split; [by apply String.eqb_eq in Es|intros s H1 H2; by destruct H2]. }
  destruct w as [|c]; cbn [saveIP].
  { exists a1, ({[ip_string ip]} ∪ fs), (Ok ip). split_and!; [done|done|done| |left; done].
    split; [|set_solver]. intros _ ip' Hw' Hin Hnin. rewrite Hh in Hin.
    assert (addr16 ip' = addr16 ip) as Hx by set_solver. apply ip_string_addr16 in Hx; [|done..].
    rewrite Hx. set_solver. }
  destruct (unmark_inv a1 i Hi1) as (bm' & Ec & Hi' & Hv'); [done|change (i ∈ fl_view bm); rewrite Hv; set_solver| |].
  { intros Hres. apply Hn. by apply inv_reserved. }
  rewrite Ec. cbn [mbind outcome_bind].
  assert (held (with_bitmap a1 bm' (used a1 - 1)) = held a) as Hh'.
  { rewrite (held_unmark a1 bm' _ i Hv'), Hh. change (lo_addr a1) with (lo_addr a). rewrite <- Ha.
    assert (addr16 ip ∉ held a) by (rewrite elem_of_held, Ha; by replace (lo_addr a + i - lo_addr a) with i by lia).
    set_solver. }
  eexists _, _, _. split_and!; [done|done|done| |right; by exists c].
  split; [intros _ ip' _; rewrite Hh'; intros H1 H2; by destruct H2|].
  intros s H1 H2. destruct H2. destruct c; set_solver.
Qed.

(** The free index [FindFree] returns, as an address. *)
Lemma free_addr a i :
  inv a -> 0 <= i < a_size a ->
  exists ip, indexToIP (baseIP a) i (ipLen a) = Val ip /\ in_net (lo_addr a) (a_size a) ip /\
             addr16 ip = lo_addr a + i.
Proof.
  intros Hi Hr. rewrite (inv_size _ Hi) in Hr.
  assert (8 * ipLen a - prefixLen a <= 32) as Hh by (pose proof (inv_host _ Hi); lia).
  destruct (indexToIP_spec _ _ _ (inv_cidr _ Hi) Hh i Hr) as (ip & E & Hw & Hl & Ha).
  exists ip. rewrite (inv_base _ Hi), (inv_len _ Hi). unfold lo_addr. rewrite (inv_base _ Hi).
  split_and!; [done| |done]. split; [done|]. rewrite (inv_size _ Hi). lia.
Qed.

Lemma Allocate_sim a fs w :
  inv a -> exists a' fs' r, step a fs (OAllocate w) = Val (a', fs', r) /\ good_step a fs (OAllocate w) a' fs' r.
Proof.
  intros Hi. unfold step, Allocate. pose proof (fl_find_spec (bitmap a) (inv_wf _ Hi)) as Hf.
  change (fl_find (bitmap a)) with (FindFree (bitmap a)) in Hf. rewrite (inv_bits _ Hi) in Hf.
  destruct Hf as [[E Hall]|(Hr & Hn & Hlow)].
  { rewrite E. eexists _, _, _. split; [done|]. apply good_step_same; [done|]. constructor.
    intros x Hx. apply elem_of_held, Hall. lia. }
  destruct (_ <? 0) eqn:E; to_prop; [lia|]. set (i := FindFree (bitmap a)) in *.
  destruct (mark_inv a i Hi Hr Hn) as (bm & Es & Hi1 & Hv). rewrite Es. cbn [mbind outcome_bind].
  destruct (free_addr a i Hi Hr) as (ip & Ei & Hnet & Ha).
  unfold allocatorIndexToIP. cbn [with_bitmap baseIP ipLen]. rewrite Ei. cbn [mbind outcome_bind].
  destruct (persist_spec a fs i ip bm w) as (a' & fs' & r & Ep & Hi' & Hfr & Hfs & Hres); try done; [apply Hnet|].
  rewrite Ep. cbn [mbind outcome_bind].
  assert (addr16 ip ∉ held a) as Hfree.
  { rewrite elem_of_held, Ha. by replace (lo_addr a + i - lo_addr a) with i by lia. }
  destruct Hres as [[-> Hh]|(c & -> & -> & Hh)]; eexists _, _, _; (split; [done|]);
    (split; [done|]); (split; [done|]); (split; [|done]); rewrite Hh.
  - constructor; [done|done|]. intros x Hx. apply elem_of_held, Hlow. lia.
  - by apply (S_alloc_io _ _ _ _ c (addr16 ip)); [apply Hnet|].
Qed.

(** The common head of the two calls that name an address: it is outside the
    network, or its index is its offset and the range test passes. *)
Lemma named_index a ip :
  inv a -> Forall is_byte ip ->
  (Contains (network a) (normalizeIP ip) = false /\ ~ in_net (lo_addr a) (a_size a) ip) \/
  (exists i, Contains (network a) (normalizeIP ip) = true /\ in_net (lo_addr a) (a_size a) ip /\
     allocatorIPToIndex a (normalizeIP ip) = i /\ ((i <? 0) || (a_size a <=? i)) = false /\
     0 <= i < a_size a /\ addr16 ip = lo_addr a + i /\
     Get (bitmap a) i = Val (bool_decide (addr16 ip ∈ held a))).
Proof.
  intros Hi Hb. destruct (Contains (network a) (normalizeIP ip)) eqn:E.
  - right. pose proof E as Hn. rewrite (contains_in_net a ip Hi Hb) in Hn.
    exists (addr16 ip - lo_addr a). pose proof Hn as [_ Hr]. rewrite index_in_net by done.
    split_and!; try done; try lia.
    rewrite Get_view; [|apply (inv_wf _ Hi)|rewrite (inv_bits _ Hi); lia].
    f_equal. apply bool_decide_ext. by rewrite elem_of_held.
  - left. split; [done|]. rewrite <- (contains_in_net a ip Hi Hb), E. done.
Qed.

Lemma AllocateSpecific_sim a fs ip w :
  inv a -> Forall is_byte ip ->
  exists a' fs' r, step a fs (OSpecific ip w) = Val (a', fs', r) /\ good_step a fs (OSpecific ip w) a' fs' r.
Proof.
  intros Hi Hb. unfold step, AllocateSpecific.
  destruct (named_index a ip Hi Hb) as [[-> Hn]|(i & -> & Hn & -> & -> & Hr & Ha & ->)];
    cbn [negb mbind outcome_bind].
  { eexists _, _, _. split; [done|]. apply good_step_same; [done|]. by constructor. }
  case_bool_decide as Hin.
  { eexists _, _, _. split; [done|]. apply good_step_same; [done|]. by constructor. }
  assert (i ∉ fl_view (bitmap a)) as Hfree.
  { intros Hv. apply Hin, elem_of_held. rewrite Ha. by replace (lo_addr a + i - lo_addr a) with i by lia. }
  destruct (mark_inv a i Hi Hr Hfree) as (bm & Es & Hi1 & Hv). rewrite Es. cbn [mbind outcome_bind].
  destruct Hn as [Hw Hrange]. destruct (normalizeIP_wf ip Hw) as [Hw' Ha'].
  destruct (persist_spec a fs i (normalizeIP ip) bm w) as (a' & fs' & r & Ep & Hi' & Hfr & Hfs & Hres);
    try done; [congruence|].
  rewrite Ep. cbn [mbind outcome_bind]. rewrite Ha' in Hres.
  destruct Hres as [[-> Hh]|(c & -> & -> & Hh)]; eexists _, _, _; (split; [done|]);
    (split; [done|]); (split; [done|]); (split; [|done]); rewrite Hh; by constructor.
Qed.

Lemma removeIP_only fs ip rm s : s ∈ fs -> s ∉ removeIP fs ip rm -> s = ip_string ip.
Proof.
  intros Hs Hn. destruct rm; [|by destruct Hn]. apply dec_stable. intros Hne.
  apply Hn, elem_of_difference. by rewrite elem_of_singleton.
Qed.

Lemma Release_sim a fs ip rm :
  inv a -> Forall is_byte ip ->
  exists a' fs' r, step a fs (ORelease ip rm) = Val (a', fs', r) /\ good_step a fs (ORelease ip rm) a' fs' r.
Proof.
  intros Hi Hb. unfold step, Release.
  destruct (named_index a ip Hi Hb) as [[-> Hn]|(i & -> & Hn & -> & -> & Hr & Ha & ->)];
    cbn [negb mbind outcome_bind].
  { eexists _, _, _. split; [done|]. apply good_step_same; [done|]. by constructor. }
  destruct (i =? 0) eqn:E0; to_prop.
  { eexists _, _, _. split; [done|]. apply good_step_same; [done|]. constructor; [done|lia]. }
  destruct (isIPv4 a && (i =? 1)) eqn:E1; to_prop.
  { eexists _, _, _. split; [done|]. apply good_step_same; [done|].
    apply S_release_gateway; [done|apply E1|lia]. }
  destruct (isIPv4 a && (i =? a_size a - 1)) eqn:E2; to_prop.
  { eexists _, _, _. split; [done|]. apply good_step_same; [done|].
    apply S_release_broadcast; [done|apply E2|lia]. }
  case_bool_decide as Hin; cbn [negb].
  2:{ eexists _, _, _. split; [done|]. apply good_step_same; [done|]. by constructor. }
  destruct (unmark_inv a i Hi Hr) as (bm & Ec & Hi' & Hv).
  { apply elem_of_held in Hin. rewrite Ha in Hin. by replace (lo_addr a + i - lo_addr a) with i in Hin by lia. }
  { unfold reserved. intros [?|[Hv4 ?]]; [done|]. rewrite Hv4 in E1, E2. intuition congruence. }
  rewrite Ec. cbn [mbind outcome_bind]. pose proof (held_unmark a bm (used a - 1) i Hv) as Hh.
  rewrite <- Ha in Hh. set (a1 := with_bitmap a bm (used a - 1)) in *.
  assert (forall fs', (forall s, s ∈ fs -> s ∉ fs' -> s = ip_string ip) ->
    good_step a fs (ORelease ip rm) a1 fs' (Ok None)) as Hgood.
  { intros fs' Hfs'. split; [done|]. split; [done|]. split.
    - rewrite Hh. constructor; try done; [lia|]. intros Hv4. rewrite Hv4 in E1, E2. split; [destruct E1|destruct E2]; [done|lia|done|lia].
    - split; [intros _ ip' _; rewrite Hh; intros [H1 _]%elem_of_difference H2; by destruct H2|].
      intros s Hs1 Hs2. exists ip. split; [apply Hn|]. split; [by apply Hfs'|].
      rewrite Hh. by intros [_ []%not_elem_of_singleton]%elem_of_difference. }
  destruct (negb _); eexists _, _, _; (split; [done|]); apply Hgood;
    intros s Hs1 Hs2; [|by destruct Hs2].
  rewrite <- (ip_string_normalizeIP ip) by apply Hn. by apply (removeIP_only fs _ rm).
Qed.

(** Every call on a well-formed allocator returns and simulates the abstract
    machine. *)
Definition op_ok (o : op) : Prop :=
  match o with OAllocate _ => True | OSpecific ip _ | ORelease ip _ => Forall is_byte ip end.

Lemma step_sim a fs o :
  inv a -> op_ok o -> exists a' fs' r, step a fs o = Val (a', fs', r) /\ good_step a fs o a' fs' r.
Proof.
  destruct o; cbn [op_ok]; intros; [by apply Allocate_sim|by apply AllocateSpecific_sim|by apply Release_sim].
Qed.

(** * Construction *)

(** The indices reserved at construction. *)
Definition reserved_set (a : Allocator) : gset Z :=
  if isIPv4 a then {[0; 1; a_size a - 1]} else {[0]}.

Lemma elem_of_reserved_set a i : i ∈ reserved_set a <-> reserved a i.
Proof. unfold reserved_set, reserved. destruct (isIPv4 a); set_solver. Qed.

(** One reservation on a fresh bitmap. *)
Lemma reserve (b : Bitmap) i sz :
  fl_wf b -> fl_size b = sz -> 0 <= i < sz -> i ∉ fl_view b ->
  exists b', Set_ b i = Val b' /\ fl_wf b' /\ fl_size b' = sz /\
             fl_view b' = {[i]} ∪ fl_view b /\ fl_count b' = fl_count b + 1.
Proof.
  intros Hw <- Hi Hn. destruct (fl_mark_spec b i Hw Hi) as (b' & E & H1 & H2 & H3).
  exists b'. split_and!; try done. by apply (fl_count_mark b b' i).
Qed.

Lemma fl_count_empty (b : Bitmap) : fl_view b = ∅ -> fl_count b = 0.
Proof. intros H. unfold fl_count. by rewrite H, size_empty. Qed.

Lemma reserve_v4 sz :
  4 <= sz <= 2 ^ 50 ->
  exists b0 b1 b2 b3, NewBitmap sz = Val b0 /\ Set_ b0 0 = Val b1 /\ Set_ b1 1 = Val b2 /\
    Set_ b2 (sz - 1) = Val b3 /\ fl_wf b3 /\ fl_size b3 = sz /\
    fl_view b3 = {[0; 1; sz - 1]} /\ fl_count b3 = 3.
Proof.
  intros Hs. destruct (NewBitmap_fresh sz ltac:(lia)) as (b0 & E0 & W0 & S0 & V0).
  pose proof (fl_count_empty b0 V0) as C0.
  destruct (reserve b0 0 sz W0 S0) as (b1 & E1 & W1 & S1 & V1 & C1); [lia|set_solver|].
  destruct (reserve b1 1 sz W1 S1) as (b2 & E2 & W2 & S2 & V2 & C2); [lia|set_solver|].
  destruct (reserve b2 (sz - 1) sz W2 S2) as (b3 & E3 & W3 & S3 & V3 & C3); [lia| |].
  { rewrite V2, V1, V0, !elem_of_union, !elem_of_singleton, elem_of_empty. lia. }
  exists b0, b1, b2, b3. split_and!; try done; [|lia]. rewrite V3, V2, V1, V0. clear. set_solver.
Qed.

Lemma reserve_v6 sz :
  2 <= sz <= 2 ^ 50 ->
  exists b0 b1, NewBitmap sz = Val b0 /\ Set_ b0 0 = Val b1 /\ fl_wf b1 /\ fl_size b1 = sz /\
    fl_view b1 = {[0]} /\ fl_count b1 = 1.
Proof.
  intros Hs. destruct (NewBitmap_fresh sz ltac:(lia)) as (b0 & E0 & W0 & S0 & V0).
  pose proof (fl_count_empty b0 V0) as C0.
  destruct (reserve b0 0 sz W0 S0) as (b1 & E1 & W1 & S1 & V1 & C1); [lia|set_solver|].
  exists b0, b1. split_and!; try done; [|lia]. rewrite V1, V0. clear. set_solver.
Qed.

(** The outcome of the construction as a function of the parsed network. *)
Definition fresh_for (a : Allocator) (net : IPNet) (ones bits : Z) (sdir : string) : Prop :=
  network a = net /\ prefixLen a = ones /\ 8 * ipLen a = bits /\ stateDir a = sdir /\
  fl_view (bitmap a) = reserved_set a.

Lemma fresh_allocator net ones bits sdir bm u iplen v4 :
  cidr_ok net ones bits -> bits - ones <= 20 -> (if v4 : bool then 2 else 1) <= bits - ones ->
  8 * iplen = bits -> v4 = (bits =? 32) ->
  fl_wf bm -> fl_size bm = 2 ^ (bits - ones) -> u = fl_count bm ->
  let a := mkAllocator net (net_ip net) (2 ^ (bits - ones)) bm u ones iplen v4 sdir in
  fl_view bm = reserved_set a -> inv a /\ fresh_for a net ones bits sdir.
Proof.
  intros Hc H20 Hmin Hl Hv4 Hw Hs Hu a Hv. subst bits. split; [|by split_and!]. subst a.
  assert (forall k, 0 <= k <= 8 * iplen - ones -> 2 ^ k <= 2 ^ (8 * iplen - ones)) as Hle
    by (intros; apply Z.pow_le_mono_r; lia).
  split; cbn [network prefixLen ipLen baseIP isIPv4 a_size bitmap used]; try done.
  - pose proof (cidr_bits _ _ _ Hc). unfold go_len. lia.
  - rewrite Hv4. lia.
  - specialize (Hle 1) as H1. specialize (Hle 2) as H2. change (2 ^ 1) with 2 in H1.
    change (2 ^ 2) with 4 in H2. destruct v4; split; intros; lia || done.
  - intros i Hi. rewrite Hv. by apply elem_of_reserved_set.
Qed.

(** The arithmetic of the size tests. *)
Lemma pow_small h k : 0 <= h -> 0 <= k -> (2 ^ h <? 2 ^ k) = (h <? k).
Proof.
  intros Hh Hk. destruct (h <? k) eqn:E; to_prop.
  - apply Z.pow_lt_mono_r; lia.
  - apply Z.pow_le_mono_r; lia.
Qed.

Lemma new_reserved_ok podCIDR sdir ip net ones bits :
  ParseCIDR podCIDR = Some (ip, net) -> mask_size (net_mask net) = (ones, bits) ->
  (20 < bits - ones /\ new_reserved podCIDR sdir = Val (Err ErrCIDRTooLarge)) \/
  (bits - ones < (if bits =? 32 then 2 else 1) /\ new_reserved podCIDR sdir = Val (Err ErrCIDRTooSmall)) \/
  ((if bits =? 32 then 2 else 1) <= bits - ones <= 20 /\
   exists a, new_reserved podCIDR sdir = Val (Ok a) /\ inv a /\ fresh_for a net ones bits sdir).
Proof.
  intros Hp Hm. destruct (ParseCIDR_ok _ _ _ Hp) as (_ & ones' & bits' & Hc & Hm').
  rewrite Hm in Hm'. injection Hm' as <- <-. pose proof (cidr_ones _ _ _ Hc) as Ho.
  pose proof (cidr_bits _ _ _ Hc) as Hb. unfold new_reserved. rewrite Hp, Hm.
  destruct (20 <? bits - ones) eqn:E1; to_prop; [by left|right].
  destruct (bits - ones <? 0) eqn:E2; to_prop; [lia|]. rewrite Z.shiftl_1_l.
  pose proof (pow_small (bits - ones) 2) as P2. change (2 ^ 2) with 4 in P2.
  pose proof (pow_small (bits - ones) 1) as P1. change (2 ^ 1) with 2 in P1.
  rewrite P2, P1 by lia. clear P1 P2.
  assert (2 ^ (bits - ones) <= 2 ^ 20) as H20 by (apply Z.pow_le_mono_r; lia).
  destruct (bits =? 32) eqn:E32; cbn [andb negb].
  - destruct (bits - ones <? 2) eqn:Es; to_prop; [by left|right]. split; [lia|].
    assert (2 ^ 2 <= 2 ^ (bits - ones)) as H2 by (apply Z.pow_le_mono_r; lia).
    destruct (reserve_v4 (2 ^ (bits - ones)) ltac:(lia)) as (b0 & b1 & b2 & b3 & -> & H1' & H2' & H3' & W & S & V & C).
    cbn [mbind outcome_bind]. rewrite H1'. cbn [mbind outcome_bind]. rewrite H2'. cbn [mbind outcome_bind].
    destruct (2 <? _) eqn:E2'; to_prop; [|lia]. rewrite H3'. cbn [mbind outcome_bind].
    rewrite To4_len4 by (to_prop; lia). eexists. split; [done|]. apply fresh_allocator; first [done|lia].
  - destruct (bits - ones <? 1) eqn:Es; to_prop; [by left|right]. split; [lia|].
    assert (2 ^ 1 <= 2 ^ (bits - ones)) as H2 by (apply Z.pow_le_mono_r; lia).
    destruct (reserve_v6 (2 ^ (bits - ones)) ltac:(lia)) as (b0 & b1 & -> & H1' & W & S & V & C).
    cbn [mbind outcome_bind]. rewrite H1'. cbn [mbind outcome_bind].
    assert (length (net_ip net) = 16%nat) as Hl by (destruct (cidr_len _ _ _ Hc); lia).
    rewrite To16_len16 by done. eexists. split; [done|].
    apply fresh_allocator; first [done|lia].
Qed.

(** * Loading the state directory *)

Lemma frame_trans a b c : frame a b -> frame b c -> frame a c.
Proof. unfold frame. intros -> ->. done. Qed.

Lemma frame_net a a' :
  frame a a' -> lo_addr a' = lo_addr a /\ a_size a' = a_size a /\ isIPv4 a' = isIPv4 a /\ stateDir a' = stateDir a.
Proof. by intros ->. Qed.

(** The file names that stand for address [x] of the network. *)
Definition names_addr (a : Allocator) (s : string) (x : Z) : Prop :=
  exists ip, ParseIP s = Some ip /\ in_net (lo_addr a) (a_size a) ip /\ addr16 ip = x.

Lemma load_entry_spec a s d :
  inv a -> exists a', load_entry a (s, d) = Val a' /\ inv a' /\ frame a a' /\
    (forall x, x ∈ held a' <-> x ∈ held a \/ d = false /\ names_addr a s x).
Proof.
  intros Hi. unfold load_entry.
  assert (forall a', a' = a -> (d = false -> forall x, names_addr a s x -> x ∈ held a) ->
    inv a' /\ frame a a' /\ (forall x, x ∈ held a' <-> x ∈ held a \/ d = false /\ names_addr a s x)) as Hsame.
  { intros a' -> H. split; [done|]. split; [apply frame_refl|]. intros x. split; [by left|].
    intros [?|[Hd Hn]]; [done|]. by apply H. }
  destruct d; [eexists; split; [done|]; by apply Hsame|].
  destruct (ParseIP s) as [ip|] eqn:E.
  2:{ eexists; split; [done|]. apply Hsame; [done|]. intros _ x (ip & E' & _). congruence. }
  pose proof (ParseIP_wf s ip E) as [_ Hb].
  destruct (named_index a ip Hi Hb) as [[-> Hn]|(i & -> & Hn & -> & -> & Hr & Ha & ->)];
    cbn [negb mbind outcome_bind].
  { eexists; split; [done|]. apply Hsame; [done|]. intros _ x (ip' & E' & Hn' & _).
    rewrite E in E'. injection E' as <-. done. }
  case_bool_decide as Hin; cbn [negb].
  { eexists; split; [done|]. apply Hsame; [done|]. intros _ x (ip' & E' & Hn' & <-).
    rewrite E in E'. injection E' as <-. done. }
  assert (i ∉ fl_view (bitmap a)) as Hfree.
  { intros Hv. apply Hin, elem_of_held. rewrite Ha. by replace (lo_addr a + i - lo_addr a) with i by lia. }
  destruct (mark_inv a i Hi Hr Hfree) as (bm & -> & Hi1 & Hv). cbn [mbind outcome_bind].
  eexists. split; [done|]. split; [done|]. split; [done|]. intros x.
  rewrite (held_mark a bm _ i Hv), elem_of_union, elem_of_singleton, <- Ha. unfold names_addr. split.
  - intros [->|?]; [|by left]. right. split; [done|]. by exists ip.
  - intros [?|(_ & ip' & E' & _ & <-)]; [by right|left]. rewrite E in E'. by injection E' as <-.
Qed.

Lemma names_addr_frame a a' s x : frame a a' -> names_addr a' s x <-> names_addr a s x.
Proof. intros (H1 & H2 & _)%frame_net. unfold names_addr. by rewrite H1, H2. Qed.

(** After loading, the held addresses are those held before and those a file of
    the directory names. *)
Lemma load_entries_spec a es :
  inv a -> exists a', load_entries a es = Val a' /\ inv a' /\ frame a a' /\
    (forall x, x ∈ held a' <-> x ∈ held a \/ exists s, (s, false) ∈ es /\ names_addr a s x).
Proof.
  revert a. induction es as [|[s d] es IH]; intros a Hi; cbn [load_entries].
  { exists a. split; [done|]. split; [done|]. split; [apply frame_refl|]. intros x.
    split; [by left|]. intros [?|(s & H & _)]; [done|by apply elem_of_nil in H]. }
  destruct (load_entry_spec a s d Hi) as (a1 & -> & Hi1 & Hf1 & Hh1). cbn [mbind outcome_bind].
  destruct (IH a1 Hi1) as (a2 & -> & Hi2 & Hf2 & Hh2). exists a2.
  split; [done|]. split; [done|]. split; [by eapply frame_trans|]. intros x. rewrite Hh2, Hh1.
  setoid_rewrite elem_of_cons. setoid_rewrite (names_addr_frame a a1 _ _ Hf1). split.
  - intros [[?|[-> ?]]|(s' & ? & ?)]; [by left|right; exists s; auto|right; exists s'; auto].
  - intros [?|(s' & [[= -> <-]|?] & ?)]; [by left; left|left; right; done|right; exists s'; auto].
Qed.

(** * Runs *)

Fixpoint run (a : Allocator) (fs : files) (os : list op) : outcome (Allocator * files * list response) :=
  match os with
  | [] => Val (a, fs, [])
  | o :: r =>
      '(a1, fs1, x) ← step a fs o;
      '(a2, fs2, xs) ← run a1 fs1 r;
      Val (a2, fs2, x :: xs)
  end.

Inductive spec_run (lo cnt : Z) (v4 : bool) : gset Z -> list op -> list response -> gset Z -> Prop :=
| R_nil H : spec_run lo cnt v4 H [] [] H
| R_cons H o r H1 os rs H2 :
    spec_step lo cnt v4 H o r H1 -> spec_run lo cnt v4 H1 os rs H2 ->
    spec_run lo cnt v4 H (o :: os) (r :: rs) H2.

(** The files name every held address that is not reserved. *)
Definition durable (a : Allocator) (fs : files) : Prop :=
  forall x, x ∈ held a -> ~ reserved a (x - lo_addr a) -> exists s, s ∈ fs /\ names_addr a s x.

Lemma held_address a x :
  inv a -> x ∈ held a -> exists ip, in_net (lo_addr a) (a_size a) ip /\ addr16 ip = x.
Proof.
  intros Hi Hx%elem_of_held. apply fl_view_range in Hx. rewrite (inv_bits _ Hi) in Hx.
  destruct (free_addr a _ Hi Hx) as (ip & _ & Hn & Ha). exists ip. split; [done|lia].
Qed.

Lemma names_addr_string a ip :
  in_net (lo_addr a) (a_size a) ip -> names_addr a (ip_string ip) (addr16 ip).
Proof.
  intros [Hw Hr]. pose proof (ParseIP_ip_string ip Hw) as E.
  assert (exists ip', To16 ip = Some ip') as [ip' E'].
  { destruct Hw as [[Hl|Hl] _]; [rewrite To16_len4 by done|rewrite To16_len16 by done]; by eexists. }
  rewrite E' in E. exists ip'. pose proof (ParseIP_wf _ _ E) as [Hl Hb].
  assert (addr16 ip' = addr16 ip) as Ha by (unfold addr16 at 2; by rewrite E', (addr16_16 ip' Hl)).
  split; [done|]. split; [|done]. split; [by split; [right|]|]. by rewrite Ha.
Qed.

Lemma reserved_frame a a' i : frame a a' -> reserved a' i <-> reserved a i.
Proof. intros (_ & H1 & H2 & _)%frame_net. unfold reserved. by rewrite H1, H2. Qed.

Lemma durable_step a fs a' fs' :
  inv a' -> frame a a' -> files_step a fs a' fs' -> stateDir a <> "" -> durable a fs -> durable a' fs'.
Proof.
  intros Hi' Hf [Hnew Hold] Hs Hd x Hx Hnr. pose proof (frame_net _ _ Hf) as (Hlo & Hsz & _ & _).
  setoid_rewrite (names_addr_frame a a' _ _ Hf). rewrite (reserved_frame a a' _ Hf), Hlo in Hnr.
  destruct (held_address a' x Hi' Hx) as (ip & Hn & Ha). rewrite Hlo, Hsz in Hn.
  destruct (decide (x ∈ held a)) as [Hx0|Hx0].
  - destruct (Hd x Hx0 Hnr) as (s & Hs1 & Hs2). exists s. split; [|done].
    destruct (decide (s ∈ fs')) as [|Hs3]; [done|exfalso].
    destruct (Hold s Hs1 Hs3) as (ip2 & Hw2 & -> & Hnot). destruct Hs2 as (ip3 & E & _ & Ha3).
    rewrite ParseIP_ip_string in E by done. destruct (ParseIP_wf (ip_string ip2) ip3) as [Hl3 _];
      [by rewrite ParseIP_ip_string|].
    apply Hnot. unfold addr16. rewrite E. cbn [default id]. rewrite addr16_16 in Ha3 by done.
    unfold id. by rewrite Ha3.
  - exists (ip_string ip). subst x. split; [|by apply names_addr_string]. apply Hnew; [done| |done|done]. apply Hn.
Qed.

(** The whole run: it returns, keeps the invariant, simulates the abstract
    machine, and keeps the directory up to date. *)
Lemma run_sim a fs os :
  inv a -> Forall op_ok os ->
  exists a' fs' rs, run a fs os = Val (a', fs', rs) /\ inv a' /\ frame a a' /\
    spec_run (lo_addr a) (a_size a) (isIPv4 a) (held a) os rs (held a') /\
    (stateDir a <> "" -> durable a fs -> durable a' fs').
Proof.
  revert a fs. induction os as [|o os IH]; intros a fs Hi Hos; cbn [run].
  { exists a, fs, []. split_and!; auto using frame_refl. constructor. }
  apply Forall_cons in Hos as [Ho Hos].
  destruct (step_sim a fs o Hi Ho) as (a1 & fs1 & r & -> & Hi1 & Hf1 & Hs1 & Hfs1). cbn [mbind outcome_bind].
  destruct (IH a1 fs1 Hi1 Hos) as (a2 & fs2 & rs & -> & Hi2 & Hf2 & Hs2 & Hd2). cbn [mbind outcome_bind].
  exists a2, fs2, (r :: rs). pose proof (frame_net _ _ Hf1) as (Hlo & Hsz & Hv4 & Hsd).
  split; [done|]. split; [done|]. split; [by eapply frame_trans|]. split.
  - rewrite Hlo, Hsz, Hv4 in Hs2. by econstructor.
  - intros Hne Hd. apply Hd2; [by rewrite Hsd|]. by eapply durable_step.
Qed.

(** What a successful construction gives. *)
Lemma new_inv podCIDR sdir mkdir rd a :
  NewAllocatorWithStateDir podCIDR sdir mkdir rd = Val (Ok a) ->
  exists ip net ones bits,
    ParseCIDR podCIDR = Some (ip, net) /\ mask_size (net_mask net) = (ones, bits) /\
    (if bits =? 32 then 2 else 1) <= bits - ones <= 20 /\
    inv a /\ network a = net /\ a_size a = 2 ^ (bits - ones) /\ stateDir a = sdir /\
    (forall x, x ∈ held a <-> reserved a (x - lo_addr a) \/
       sdir <> "" /\ exists es s, rd = Some es /\ (s, false) ∈ es /\ names_addr a s x).
Proof.
  unfold NewAllocatorWithStateDir. intros H. destruct (ParseCIDR podCIDR) as [[ip net]|] eqn:Ep.
  2:{ unfold new_reserved in H. by rewrite Ep in H. }
  destruct (mask_size (net_mask net)) as [ones bits] eqn:Em. exists ip, net, ones, bits.
  destruct (new_reserved_ok podCIDR sdir ip net ones bits Ep Em)
    as [[_ E]|[[_ E]|(Hh & a0 & E & Hi & Hnet & Hpl & Hlen & Hsd & Hv)]]; rewrite E in H; [done|done|].
  cbn [mbind outcome_bind] in H. split; [done|]. split; [done|]. split; [done|].
  assert (forall x, x ∈ held a0 <-> reserved a0 (x - lo_addr a0)) as Hh0.
  { intros x. by rewrite elem_of_held, Hv, elem_of_reserved_set. }
  assert (a_size a0 = 2 ^ (bits - ones)) as Hsz by (by rewrite (inv_size _ Hi), Hlen, Hpl).
  destruct (String.eqb sdir "") eqn:Es; cbn [negb] in H.
  { injection H as <-. apply String.eqb_eq in Es. split_and!; try done. intros x. rewrite Hh0. naive_solver. }
  apply String.eqb_neq in Es. destruct mkdir; [|done]. cbn [negb] in H. unfold loadState in H.
  destruct rd as [es|]; [|done]. destruct (load_entries_spec a0 es Hi) as (a' & E' & Hi' & Hf & Hh').
  rewrite E' in H. injection H as <-. pose proof (frame_net _ _ Hf) as (Hlo & Hsz' & Hv4 & Hsd').
  split; [done|]. split; [rewrite Hf; done|]. split; [congruence|]. split; [congruence|].
  intros x. rewrite Hh', Hh0, (reserved_frame a0 a' _ Hf), Hlo. setoid_rewrite (names_addr_frame a0 a' _ _ Hf).
  naive_solver.
Qed.

Lemma new_returns podCIDR sdir ip net ones bits es :
  ParseCIDR podCIDR = Some (ip, net) -> mask_size (net_mask net) = (ones, bits) ->
  (if bits =? 32 then 2 else 1) <= bits - ones <= 20 ->
  exists a, NewAllocatorWithStateDir podCIDR sdir true (Some es) = Val (Ok a).
Proof.
  intros Hp Hm Hh. unfold NewAllocatorWithStateDir.
  destruct (new_reserved_ok podCIDR sdir ip net ones bits Hp Hm) as [[? _]|[[? _]|(_ & a & -> & Hi & _)]]; [lia..|].
  cbn [mbind outcome_bind negb]. destruct (String.eqb sdir ""); cbn [negb]; [by eexists|].
  cbn [loadState]. destruct (load_entries_spec a es Hi) as (a' & -> & _). by eexists.
Qed.

(** * Who holds an address *)

(** A call that hands address [x] to its caller, and one that gives it back. *)
Definition grants (o : op) (r : response) (x : Z) : Prop :=
  match o, r with
  | OAllocate _, Ok (Some ip) => addr16 ip = x
  | OSpecific ip _, Ok _ => addr16 ip = x
  | _, _ => False
  end.

Definition frees (o : op) (r : response) (x : Z) : Prop :=
  match o, r with ORelease ip _, Ok _ => addr16 ip = x | _, _ => False end.

Lemma spec_step_grants lo cnt v4 H o r H' x :
  spec_step lo cnt v4 H o r H' -> grants o r x -> lo <= x < lo + cnt /\ (x ∉ H) /\ (x ∈ H').
Proof.
  intros Hs Hg. inversion Hs; subst; cbn in Hg; try done; subst x; unfold in_net in *; set_solver.
Qed.

Lemma spec_step_keeps lo cnt v4 H o r H' x :
  spec_step lo cnt v4 H o r H' -> x ∈ H -> ~ frees o r x -> x ∈ H'.
Proof.
  intros Hs Hx Hf. inversion Hs; subst; cbn in Hf; try done; set_solver.
Qed.

(** A held address is not granted again before it is freed. *)
Lemma spec_run_regrant lo cnt v4 H os rs H' x :
  spec_run lo cnt v4 H os rs H' -> x ∈ H ->
  forall j o r, os !! j = Some o -> rs !! j = Some r -> grants o r x ->
  exists k o' r', (k < j)%nat /\ os !! k = Some o' /\ rs !! k = Some r' /\ frees o' r' x.
Proof.
  induction 1 as [H|H o r H1 os rs H2 Hs Hr IH]; intros Hx j o' r' Ho Hr' Hg; [done|].
  assert (frees o r x \/ ~ frees o r x) as [Hf|Hf].
  { unfold frees. destruct o, r; auto. match goal with |- context [?a = ?b] => destruct (decide (a = b)) end; auto. }
  - destruct j as [|j]; [|exists 0%nat, o, r; split_and!; auto; lia].
    simplify_eq/=. apply (spec_step_grants _ _ _ _ _ _ _ x) in Hs as (_ & Hn & _); done.
  - destruct j as [|j]; simplify_eq/=.
    + apply (spec_step_grants _ _ _ _ _ _ _ x) in Hs as (_ & Hn & _); done.
    + destruct (IH (spec_step_keeps _ _ _ _ _ _ _ _ Hs Hx Hf) j o' r' Ho Hr' Hg) as (k & ok & rk & Hk & ?).
      exists (S k), ok, rk. split_and!; [lia|naive_solver..].
Qed.

Lemma spec_run_two_grants lo cnt v4 H os rs H' x :
  spec_run lo cnt v4 H os rs H' ->
  forall i j o1 r1 o2 r2, (i < j)%nat ->
  os !! i = Some o1 -> rs !! i = Some r1 -> grants o1 r1 x ->
  os !! j = Some o2 -> rs !! j = Some r2 -> grants o2 r2 x ->
  exists k o' r', (i < k < j)%nat /\ os !! k = Some o' /\ rs !! k = Some r' /\ frees o' r' x.
Proof.
  induction 1 as [H|H o r H1 os rs H2 Hs Hr IH]; intros i j o1 r1 o2 r2 Hij Ho1 Hr1 Hg1 Ho2 Hr2 Hg2; [done|].
  destruct j as [|j]; [lia|]. destruct i as [|i]; simplify_eq/=.
  - pose proof (spec_step_grants _ _ _ _ _ _ _ _ Hs Hg1) as (_ & _ & Hx).
    destruct (spec_run_regrant _ _ _ _ _ _ _ _ Hr Hx j o2 r2) as (k & ok & rk & Hk & ?); [done..|].
    exists (S k), ok, rk. split; [lia|naive_solver].
  - destruct (IH i j o1 r1 o2 r2) as (k & ok & rk & Hk & ?); [lia|done..|].
    exists (S k), ok, rk. split; [lia|naive_solver].
Qed.

(** * Properties *)

(** The calls the witnesses run: allocate, release what was allocated, and
    allocate again. *)
Definition sample_ops : list op :=
  [OAllocate WriteOk; ORelease [10; 0; 0; 2] true; OAllocate WriteOk].

Lemma sample_ops_ok : Forall op_ok sample_ops.
Proof. repeat constructor; done. Qed.

(** C4: Every sequence of calls on an allocator that was constructed returns, keeps
    the invariant, and answers as the abstract machine over the set of held
    addresses: the lowest free address is granted, a named address is granted
    iff it is free, reserved addresses are never released, and a failed write
    leaves the held set as it was. *)
Theorem allocator_refines podCIDR sdir mkdir rd a0 fs os :
  NewAllocatorWithStateDir podCIDR sdir mkdir rd = Val (Ok a0) -> Forall op_ok os ->
  exists a fs' rs, run a0 fs os = Val (a, fs', rs) /\ inv a /\
    spec_run (lo_addr a0) (a_size a0) (isIPv4 a0) (held a0) os rs (held a).
Proof.
  intros Hn Hos. destruct (new_inv _ _ _ _ _ Hn) as (_ & _ & _ & _ & _ & _ & _ & Hi & _).
  destruct (run_sim a0 fs os Hi Hos) as (a & fs' & rs & H1 & H2 & _ & H3 & _). by exists a, fs', rs.
Qed.

Lemma allocator_refines_witness :
  exists a0 a fs' rs,
    NewAllocatorWithStateDir "10.0.0.0/29" "/s" true (Some []) = Val (Ok a0) /\
    run a0 ∅ sample_ops = Val (a, fs', rs) /\
    spec_run (lo_addr a0) (a_size a0) (isIPv4 a0) (held a0) sample_ops rs (held a).
Proof.
  eexists _. edestruct (allocator_refines "10.0.0.0/29" "/s" true (Some [])) as (a & fs' & rs & H1 & _ & H2);
    [vm_compute; reflexivity|apply sample_ops_ok|].
  exists a, fs', rs. split; [vm_compute; reflexivity|]. split; [exact H1|exact H2].
Defined.

(** An address that two calls of a run grant was released between the two. *)
Theorem no_double_allocation podCIDR sdir mkdir rd a0 fs os a fs' rs x i j o1 r1 o2 r2 :
  NewAllocatorWithStateDir podCIDR sdir mkdir rd = Val (Ok a0) -> Forall op_ok os ->
  run a0 fs os = Val (a, fs', rs) -> (i < j)%nat ->
  os !! i = Some o1 -> rs !! i = Some r1 -> grants o1 r1 x ->
  os !! j = Some o2 -> rs !! j = Some r2 -> grants o2 r2 x ->
  exists k o' r', (i < k < j)%nat /\ os !! k = Some o' /\ rs !! k = Some r' /\ frees o' r' x.
Proof.
  intros Hn Hos Hrun. destruct (new_inv _ _ _ _ _ Hn) as (_ & _ & _ & _ & _ & _ & _ & Hi & _).
  destruct (run_sim a0 fs os Hi Hos) as (a' & fs1 & rs' & H1 & _ & _ & H3 & _).
  rewrite Hrun in H1. injection H1 as <- <- <-. by eapply spec_run_two_grants.
Qed.

Lemma no_double_allocation_witness :
  exists k o' r', (0 < k < 2)%nat /\ sample_ops !! k = Some o' /\
    [Ok (Some [10; 0; 0; 2]); Ok None; Ok (Some [10; 0; 0; 2])] !! k = Some r' /\
    frees o' r' (addr16 [10; 0; 0; 2]).
Proof.
  eapply (no_double_allocation "10.0.0.0/29" "/s" true (Some []) _ ∅ sample_ops);
    [vm_compute; reflexivity|apply sample_ops_ok|vm_compute; reflexivity|lia|reflexivity..].
Defined.

(** C7: A restart of the agent forgets nothing: an allocator rebuilt from the files
    that a run has left in the state directory holds every address the run held. *)
Theorem restart_keeps_addresses podCIDR sdir es a0 fs os a fs' rs es' :
  sdir <> "" ->
  NewAllocatorWithStateDir podCIDR sdir true (Some es) = Val (Ok a0) ->
  (forall s, (s, false) ∈ es -> s ∈ fs) -> Forall op_ok os ->
  run a0 fs os = Val (a, fs', rs) ->
  (forall s, s ∈ fs' -> (s, false) ∈ es') ->
  exists a1, NewAllocatorWithStateDir podCIDR sdir true (Some es') = Val (Ok a1) /\ held a ⊆ held a1.
Proof.
  intros Hsd Hn Hes Hos Hrun Hes'.
  destruct (new_inv _ _ _ _ _ Hn) as (ip & net & ones & bits & Hp & Hm & Hh & Hi & Hnet & Hsz & Hs & Hheld).
  assert (durable a0 fs) as Hd.
  { intros x [?|(_ & es0 & s & [= <-] & Hs1 & Hs2)]%Hheld ?; [done|]. exists s. auto. }
  destruct (run_sim a0 fs os Hi Hos) as (a' & fs1 & rs' & H1 & Hi' & Hf & _ & Hd').
  rewrite Hrun in H1. injection H1 as <- <- <-. rewrite Hs in Hd'. specialize (Hd' Hsd Hd).
  destruct (new_returns podCIDR sdir ip net ones bits es' Hp Hm Hh) as [a1 E1].
  exists a1. split; [done|].
  destruct (new_inv _ _ _ _ _ E1) as (ip1 & net1 & ones1 & bits1 & Hp1 & Hm1 & _ & Hi1 & Hnet1 & Hsz1 & _ & Hheld1).
  rewrite Hp in Hp1. injection Hp1 as <- <-. rewrite Hm in Hm1. injection Hm1 as <- <-.
  pose proof (frame_net _ _ Hf) as (Hlo & Hsz2 & Hv4 & _).
  assert (lo_addr a1 = lo_addr a) as Hlo1 by (rewrite Hlo; unfold lo_addr; rewrite (inv_base _ Hi1), (inv_base _ Hi); congruence).
  assert (isIPv4 a1 = isIPv4 a) as Hv by (rewrite Hv4, (inv_v4 _ Hi1), (inv_v4 _ Hi), (inv_len _ Hi1), (inv_len _ Hi); congruence).
  intros x Hx. apply Hheld1. rewrite Hlo1.
  destruct (decide (x - lo_addr a ∈ reserved_set a)) as [Hr|Hr]; rewrite elem_of_reserved_set in Hr.
  - left. unfold reserved in *. rewrite Hv, Hsz1, <- Hsz, <- Hsz2. done.
  - right. split; [done|]. destruct (Hd' x Hx Hr) as (s & Hs1 & Hs2). exists es', s. split; [done|].
    split; [by apply Hes'|]. unfold names_addr in *. rewrite Hlo1, Hsz1, <- Hsz, <- Hsz2. done.
Qed.

Lemma restart_keeps_addresses_witness :
  exists a1, NewAllocatorWithStateDir "10.0.0.0/29" "/s" true (Some [("10.0.0.5", false); ("10.0.0.2", false)])
    = Val (Ok a1) /\
    held (mkAllocator (mkIPNet [10; 0; 0; 0] [255; 255; 255; 248]) [10; 0; 0; 0] 8 (mkBitmap [167] 8)
            5 29 4 true "/s") ⊆ held a1.
Proof.
  eapply (restart_keeps_addresses "10.0.0.0/29" "/s" [("10.0.0.5", false)] _ {["10.0.0.5"]} sample_ops
            _ {["10.0.0.5"; "10.0.0.2"]});
    [done|vm_compute; reflexivity| |apply sample_ops_ok|vm_compute; reflexivity|]; intros s Hs.
  - apply list_elem_of_singleton in Hs. injection Hs as ->. by apply elem_of_singleton.
  - rewrite elem_of_union, !elem_of_singleton in Hs. destruct Hs as [-> | ->]; [left|right; left].
Defined.

(** What the constructor answers, for every CIDR string, state directory and
    file-system answer: the size limits are the documented ones (at most 20 host
    bits; at least a /30 for IPv4, a /127 for IPv6), no call panics, and a new
    allocator holds the reserved addresses and those the directory names. *)
Theorem constructor_outcomes podCIDR sdir mkdir rd :
  match ParseCIDR podCIDR with
  | None => NewAllocatorWithStateDir podCIDR sdir mkdir rd = Val (Err ErrParseCIDR)
  | Some (_, net) =>
      let '(ones, bits) := mask_size (net_mask net) in
      if 20 <? bits - ones then NewAllocatorWithStateDir podCIDR sdir mkdir rd = Val (Err ErrCIDRTooLarge)
      else if bits - ones <? (if bits =? 32 then 2 else 1)
      then NewAllocatorWithStateDir podCIDR sdir mkdir rd = Val (Err ErrCIDRTooSmall)
      else if negb (String.eqb sdir "") && negb (mkdir && bool_decide (is_Some rd))
      then NewAllocatorWithStateDir podCIDR sdir mkdir rd = Val (Err ErrStateDir)
      else exists a, NewAllocatorWithStateDir podCIDR sdir mkdir rd = Val (Ok a) /\ inv a /\
        network a = net /\ a_size a = 2 ^ (bits - ones) /\
        (forall x, x ∈ held a <-> reserved a (x - lo_addr a) \/
           sdir <> "" /\ exists es s, rd = Some es /\ (s, false) ∈ es /\ names_addr a s x)
  end.
Proof.
  destruct (ParseCIDR podCIDR) as [[ip net]|] eqn:Ep.
  2:{ unfold NewAllocatorWithStateDir, new_reserved. by rewrite Ep. }
  destruct (mask_size (net_mask net)) as [ones bits] eqn:Em.
  assert (bits - ones < (if bits =? 32 then 2 else 1) -> bits - ones <= 20) by (destruct (bits =? 32); lia).
  destruct (new_reserved_ok podCIDR sdir ip net ones bits Ep Em) as [[Hl E]|[[Hs E]|(Hh & a & E & Hi & _)]].
  - destruct (20 <? _) eqn:?; to_prop; [|lia]. unfold NewAllocatorWithStateDir. by rewrite E.
  - destruct (20 <? _) eqn:?; to_prop; [lia|]. destruct (_ <? (if bits =? 32 then 2 else 1)) eqn:?; to_prop; [|lia].
    unfold NewAllocatorWithStateDir. by rewrite E.
  - destruct (20 <? _) eqn:?; to_prop; [lia|]. destruct (_ <? (if bits =? 32 then 2 else 1)) eqn:?; to_prop; [lia|].
    destruct (NewAllocatorWithStateDir podCIDR sdir mkdir rd) as [[a'|e]| |] eqn:En.
    { destruct (new_inv _ _ _ _ _ En) as (ip' & net' & ones' & bits' & Hp' & Hm' & _ & Hi' & Hn' & Hsz' & _ & Hh').
      rewrite Ep in Hp'. injection Hp' as <- <-. rewrite Em in Hm'. injection Hm' as <- <-.
      assert (negb (String.eqb sdir "") && negb (mkdir && bool_decide (is_Some rd)) = false) as ->; [|by exists a'].
      unfold NewAllocatorWithStateDir in En. rewrite E in En. cbn in En.
      destruct (String.eqb sdir ""), mkdir, rd; cbn in *; done. }
    all: unfold NewAllocatorWithStateDir in En; rewrite E in En; cbn in En;
      destruct (String.eqb sdir ""), mkdir, rd as [es|]; cbn in *; try done; try congruence.
    all: destruct (load_entries_spec a es Hi) as (a' & E' & _); rewrite E' in En; done.
Qed.

(** The counters are exact in every reachable state: [Used] is the number of
    held addresses, [Available] the number of free ones, and [Allocate] reports
    exhaustion exactly when [Available] is 0. *)
Theorem counters_exact podCIDR sdir mkdir rd a0 fs os a fs' rs w :
  NewAllocatorWithStateDir podCIDR sdir mkdir rd = Val (Ok a0) -> Forall op_ok os ->
  run a0 fs os = Val (a, fs', rs) ->
  Used a = Z.of_nat (size (held a)) /\ Available a = a_size a - Z.of_nat (size (held a)) /\
  (Available a = 0 <-> Allocate a fs' w = Val (a, fs', Err ErrNoFreeAddresses)).
Proof.
  intros Hn Hos Hrun. destruct (new_inv _ _ _ _ _ Hn) as (_ & _ & _ & _ & _ & _ & _ & Hi0 & _).
  destruct (run_sim a0 fs os Hi0 Hos) as (a' & fs1 & rs' & H1 & Hi & _).
  rewrite Hrun in H1. injection H1 as <- <- <-. unfold Used, Available.
  assert (used a = Z.of_nat (size (held a))) as Hu.
  { by rewrite (inv_used _ Hi), size_held. }
  split_and!; [done|lia|]. rewrite (inv_used _ Hi), <- (inv_bits _ Hi).
  assert (0 <= fl_size (bitmap a)) as Hsz by (rewrite (inv_bits _ Hi); pose proof (inv_min _ Hi); lia).
  pose proof (fl_find_full (bitmap a) (inv_wf _ Hi) Hsz) as Hfull.
  destruct (Allocate_sim a fs' w Hi) as (a2 & fs2 & r & E & _ & _ & Hstep & _).
  unfold step in E. unfold Allocate in *. change (fl_find (bitmap a)) with (FindFree (bitmap a)) in Hfull.
  destruct (FindFree (bitmap a) <? 0) eqn:Ef; to_prop; [split; [done|lia]|].
  split; [lia|]. intros E'. rewrite E' in E. injection E as <- <- <-. cbn in Hstep.
  inversion Hstep as [|? Hall| | | | | | | | | | |]; subst.
  destruct (fl_find_spec (bitmap a) (inv_wf _ Hi)) as [[Hneg _]|(Hr & Hnot & _)]; [cbn in Hneg; lia|].
  destruct Hnot. specialize (Hall (lo_addr a + fl_find (bitmap a))). rewrite elem_of_held in Hall.
  replace (lo_addr a + fl_find (bitmap a) - lo_addr a) with (fl_find (bitmap a)) in Hall by lia.
  apply Hall. rewrite <- (inv_bits _ Hi). lia.
Qed.

Lemma counters_exact_witness :
  exists a0 a fs' rs,
    NewAllocatorWithStateDir "10.0.0.0/29" "/s" true (Some []) = Val (Ok a0) /\
    run a0 ∅ sample_ops = Val (a, fs', rs) /\ Used a = 4 /\ Z.of_nat (size (held a)) = 4.
Proof.
  eexists _, _, _, _. split; [vm_compute; reflexivity|]. split; [vm_compute; reflexivity|].
  assert (forall a fs rs, run (mkAllocator (mkIPNet [10; 0; 0; 0] [255; 255; 255; 248]) [10; 0; 0; 0] 8
      (mkBitmap [131] 8) 3 29 4 true "/s") ∅ sample_ops = Val (a, fs, rs) -> Used a = Z.of_nat (size (held a))) as H.
  { intros a fs rs H. eapply (counters_exact "10.0.0.0/29" "/s" true (Some []) _ ∅ sample_ops a fs rs WriteOk);
      [reflexivity|apply sample_ops_ok|exact H]. }
  split; [reflexivity|]. rewrite <- H with (fs := {["10.0.0.2"]}) (rs := [Ok (Some [10; 0; 0; 2]); Ok None; Ok (Some [10; 0; 0; 2])]);
    vm_compute; reflexivity.
Defined.
