(* ===== verification/IpamPool.v ===== *)
(** The address pools of package ipam (internal/ipam/pool.go), their manager
    (internal/ipam/manager.go) and the gRPC service in front of it
    (internal/ipam/grpc_server.go).  A pool hands out addresses of several CIDR
    ranges and of a list of single addresses, and records who holds what.  For a
    pool whose ranges and single addresses do not overlap, the bitmaps, the
    flags of the single addresses and the allocation records describe the same
    set of addresses in every reachable state. *)

From Stdlib Require Import ZArith Lia Ascii String.
From stdpp Require Import base tactics list gmap strings fin_maps.
From S2P Require Import Prelude GoStrings GoNet GoCidr Bitmap IpamIndex.

(** * Pools *)

Record AllocationInfo := mkInfo { info_ip : IP; Owner : string; Resource : string; Timestamp : Z }.

Record PoolConfig := mkConfig {
  cfg_name : string; cfg_type : string; CIDRs : list string; Addresses : list string;
  AutoAssign : bool; cfg_owner : string;
}.

Record cidrRange := mkRange {
  network : IPNet; baseIP : IP; r_size : Z; bitmap : Bitmap; prefixLen : Z; ipLen : Z;
}.

Record Pool := mkPool {
  p_name : string; poolType : string; autoAssign : bool; owner : string;
  ranges : list cidrRange;
  discreteAddrs : gmap string bool;
  allocations : gmap string AllocationInfo;
}.

Record PoolStatus := mkStatus {
  st_name : string; st_type : string; Allocated : Z; Total : Z; st_available : Z;
  Allocations : list AllocationInfo;
}.

Definition parseCIDRRange (cidr : string) : outcome (result ipam_error cidrRange) :=
  match ParseCIDR cidr with
  | None => Val (Err ErrParseCIDR)
  | Some (_, net) =>
      let '(ones, bits) := mask_size (net_mask net) in
      let hostBits := bits - ones in
      if 20 <? hostBits then Val (Err ErrCIDRTooLarge)
      else if hostBits <? 0 then Panic
      else
        let sz := Z.shiftl 1 hostBits in
        let '(base, iplen) :=
          if bits =? 128 then (default [] (To16 (net_ip net)), 16)
          else (default [] (To4 (net_ip net)), 4) in
        bm ← NewBitmap sz;
        Val (Ok (mkRange net base sz bm ones iplen))
  end.

(** The loop over the CIDRs of [NewPool]. *)
Fixpoint parse_ranges (cidrs : list string) : outcome (result ipam_error (list cidrRange)) :=
  match cidrs with
  | [] => Val (Ok [])
  | c :: r =>
      x ← parseCIDRRange c;
      match x with
      | Err e => Val (Err e)
      | Ok cr =>
          y ← parse_ranges r;
          Val (match y with Err e => Err e | Ok crs => Ok (cr :: crs) end)
      end
  end.

(** The loop over the addresses of [NewPool]. *)
Fixpoint parse_addrs (addrs : list string) (m : gmap string bool) : result ipam_error (gmap string bool) :=
  match addrs with
  | [] => Ok m
  | s :: r =>
      match ParseIP s with
      | None => Err ErrInvalidIPAddress
      | Some ip => parse_addrs r (<[ip_string ip := false]> m)
      end
  end.

Definition NewPool (cfg : PoolConfig) : outcome (result ipam_error Pool) :=
  x ← parse_ranges (CIDRs cfg);
  Val (match x with
       | Err e => Err e
       | Ok rs =>
           match parse_addrs (Addresses cfg) ∅ with
           | Err e => Err e
           | Ok m => Ok (mkPool (cfg_name cfg) (cfg_type cfg) (AutoAssign cfg) (cfg_owner cfg) rs m ∅)
           end
       end).

Definition with_bitmap (cr : cidrRange) (bm : Bitmap) : cidrRange :=
  mkRange (network cr) (baseIP cr) (r_size cr) bm (prefixLen cr) (ipLen cr).

Definition with_state (p : Pool) (rs : list cidrRange) (d : gmap string bool) (m : gmap string AllocationInfo) : Pool :=
  mkPool (p_name p) (poolType p) (autoAssign p) (owner p) rs d m.

(** The first loop of [Allocate]: the first range with a free index. *)
Fixpoint take_free (rs : list cidrRange) : outcome (option (list cidrRange * IP)) :=
  match rs with
  | [] => Val None
  | cr :: r =>
      let idx := FindFree (bitmap cr) in
      if idx <? 0 then
        x ← take_free r;
        Val (match x with Some (r', ip) => Some (cr :: r', ip) | None => None end)
      else
        bm ← Set_ (bitmap cr) idx;
        ip ← indexToIP (baseIP cr) idx (ipLen cr);
        Val (Some (with_bitmap cr bm :: r, ip))
  end.

(** [Allocate]; [order] is the order in which the map of single addresses is
    iterated. *)
Definition Allocate (p : Pool) (order : list (string * bool)) (own res : string) (now : Z)
    : outcome (Pool * result ipam_error IP) :=
  x ← take_free (ranges p);
  match x with
  | Some (rs, ip) =>
      Val (with_state p rs (discreteAddrs p)
             (<[ip_string ip := mkInfo ip own res now]> (allocations p)), Ok ip)
  | None =>
      match list_find (fun e => e.2 = false) order with
      | Some (_, (addr, _)) =>
          let ip := default [] (ParseIP addr) in
          Val (with_state p (ranges p) (<[addr := true]> (discreteAddrs p))
                 (<[addr := mkInfo ip own res now]> (allocations p)), Ok ip)
      | None => Val (p, Err ErrNoFreeAddresses)
      end
  end.

(** The loop over the ranges of [AllocateSpecific]. *)
Fixpoint claim (rs : list cidrRange) (ipNorm : IP) : outcome (result ipam_error (list cidrRange)) :=
  match rs with
  | [] => Val (Err ErrIPOutsideCIDR)
  | cr :: r =>
      if negb (Contains (network cr) ipNorm) then
        x ← claim r ipNorm;
        Val (match x with Ok r' => Ok (cr :: r') | Err e => Err e end)
      else
        let idx := ipToIndex (baseIP cr) ipNorm (ipLen cr) in
        if (idx <? 0) || (r_size cr <=? idx) then Val (Err ErrIPOutOfRange)
        else
          b ← Get (bitmap cr) idx;
          if b : bool then Val (Err ErrIPAlreadyAlloc)
          else
            bm ← Set_ (bitmap cr) idx;
            Val (Ok (with_bitmap cr bm :: r))
  end.

Definition AllocateSpecific (p : Pool) (ip : IP) (own res : string) (now : Z)
    : outcome (Pool * result ipam_error unit) :=
  let ipNorm := normalizeIP ip in
  let ipStr := ip_string ipNorm in
  let m := <[ipStr := mkInfo ipNorm own res now]> (allocations p) in
  match discreteAddrs p !! ipStr with
  | Some allocated =>
      if allocated : bool then Val (p, Err ErrIPAlreadyAlloc)
      else Val (with_state p (ranges p) (<[ipStr := true]> (discreteAddrs p)) m, Ok tt)
  | None =>
      x ← claim (ranges p) ipNorm;
      Val (match x with
           | Ok rs => (with_state p rs (discreteAddrs p) m, Ok tt)
           | Err e => (p, Err e)
           end)
  end.

(** The loop over the ranges of [Release]; [None] when no range has the index. *)
Fixpoint give_back (rs : list cidrRange) (ipNorm : IP) : outcome (option (list cidrRange)) :=
  match rs with
  | [] => Val None
  | cr :: r =>
      let idx := ipToIndex (baseIP cr) ipNorm (ipLen cr) in
      if Contains (network cr) ipNorm && ((0 <=? idx) && (idx <? r_size cr)) then
        bm ← Clear (bitmap cr) idx;
        Val (Some (with_bitmap cr bm :: r))
      else
        x ← give_back r ipNorm;
        Val (match x with Some r' => Some (cr :: r') | None => None end)
  end.

Definition Release (p : Pool) (ip : IP) : outcome (Pool * result ipam_error unit) :=
  let ipNorm := normalizeIP ip in
  let ipStr := ip_string ipNorm in
  match allocations p !! ipStr with
  | None => Val (p, Err ErrIPNotAllocated)
  | Some _ =>
      let m := delete ipStr (allocations p) in
      match discreteAddrs p !! ipStr with
      | Some _ => Val (with_state p (ranges p) (<[ipStr := false]> (discreteAddrs p)) m, Ok tt)
      | None =>
          x ← give_back (ranges p) ipNorm;
          Val (with_state p (default (ranges p) x) (discreteAddrs p) m, Ok tt)
      end
  end.

Fixpoint range_available (rs : list cidrRange) (ipNorm : IP) : outcome bool :=
  match rs with
  | [] => Val false
  | cr :: r =>
      let idx := ipToIndex (baseIP cr) ipNorm (ipLen cr) in
      if Contains (network cr) ipNorm && ((0 <=? idx) && (idx <? r_size cr)) then
        b ← Get (bitmap cr) idx; Val (negb b)
      else range_available r ipNorm
  end.

Definition IsAvailable (p : Pool) (ip : IP) : outcome bool :=
  let ipNorm := normalizeIP ip in
  match discreteAddrs p !! ip_string ipNorm with
  | Some allocated => Val (negb allocated)
  | None => range_available (ranges p) ipNorm
  end.

Definition pool_contains (p : Pool) (ip : IP) : bool :=
  let ipNorm := normalizeIP ip in
  bool_decide (is_Some (discreteAddrs p !! ip_string ipNorm)) ||
  existsb (fun cr => Contains (network cr) ipNorm) (ranges p).

(** [Status]; [order] is the iteration order of the allocation records. *)
Definition Status (p : Pool) (order : list (string * AllocationInfo)) : PoolStatus :=
  let total := Z.of_nat (size (discreteAddrs p)) + foldr (fun cr t => r_size cr + t) 0 (ranges p) in
  let allocated := Z.of_nat (size (allocations p)) in
  mkStatus (p_name p) (poolType p) allocated total (total - allocated) order.*2.

(** * Ranges *)

Record range_inv (cr : cidrRange) : Prop := {
  ri_cidr : cidr_ok (network cr) (prefixLen cr) (8 * ipLen cr);
  ri_host : 8 * ipLen cr - prefixLen cr <= 20;
  ri_base : baseIP cr = net_ip (network cr);
  ri_len : ipLen cr = go_len (net_ip (network cr));
  ri_size : r_size cr = 2 ^ (8 * ipLen cr - prefixLen cr);
  ri_wf : fl_wf (bitmap cr);
  ri_bits : fl_size (bitmap cr) = r_size cr;
}.

Definition in_range (cr : cidrRange) (x : Z) : Prop :=
  addr16 (baseIP cr) <= x < addr16 (baseIP cr) + r_size cr.
Definition marked_in (cr : cidrRange) (x : Z) : Prop := x - addr16 (baseIP cr) ∈ fl_view (bitmap cr).
#[export] Instance marked_in_dec cr x : Decision (marked_in cr x).
Proof. unfold marked_in. apply _. Defined.
Definition range_full (cr : cidrRange) : Prop := forall x, in_range cr x -> marked_in cr x.

Lemma marked_in_range cr x : range_inv cr -> marked_in cr x -> in_range cr x.
Proof.
  intros Hr H. unfold marked_in in H. apply fl_view_range in H. rewrite (ri_bits _ Hr) in H.
  unfold in_range. lia.
Qed.

Lemma ri_host32 cr : range_inv cr -> 8 * ipLen cr - prefixLen cr <= 32.
Proof. intros H. pose proof (ri_host _ H). lia. Qed.

Lemma range_contains cr ip :
  range_inv cr -> Forall is_byte ip ->
  Contains (network cr) (normalizeIP ip) = true <-> wf_ip ip /\ in_range cr (addr16 ip).
Proof.
  intros Hr Hb. rewrite (Contains_normalizeIP _ _ _ (ri_cidr _ Hr) (ri_host32 _ Hr) ip Hb).
  unfold in_range. by rewrite (ri_base _ Hr), (ri_size _ Hr).
Qed.

Lemma range_index cr ip :
  range_inv cr -> wf_ip ip -> in_range cr (addr16 ip) ->
  ipToIndex (baseIP cr) (normalizeIP ip) (ipLen cr) = addr16 ip - addr16 (baseIP cr).
Proof.
  intros Hr Hw Hi. unfold in_range in Hi. rewrite (ri_size _ Hr), (ri_base _ Hr) in *. rewrite (ri_len _ Hr) at 1.
  by apply (ipToIndex_normalizeIP _ _ _ (ri_cidr _ Hr) (ri_host32 _ Hr)).
Qed.

(** A range after its bitmap changed: [f] is the change of the marked addresses. *)
Definition range_step (cr cr' : cidrRange) (marks : Z -> Prop) : Prop :=
  range_inv cr' /\ baseIP cr' = baseIP cr /\ r_size cr' = r_size cr /\ network cr' = network cr /\
  (forall x, marked_in cr' x <-> marks x).

Lemma range_inv_with_bitmap cr bm :
  range_inv cr -> fl_wf bm -> fl_size bm = r_size cr -> range_inv (with_bitmap cr bm).
Proof. intros [] ? ?. by split. Qed.

Lemma range_mark cr x :
  range_inv cr -> in_range cr x ->
  exists bm, Set_ (bitmap cr) (x - addr16 (baseIP cr)) = Val bm /\
    range_step cr (with_bitmap cr bm) (fun y => y = x \/ marked_in cr y).
Proof.
  intros Hr Hx. pose proof (fl_mark_spec (bitmap cr) (x - addr16 (baseIP cr)) (ri_wf _ Hr)) as Hm.
  rewrite (ri_bits _ Hr) in Hm. unfold in_range in Hx. destruct (Hm ltac:(lia)) as (bm & E & Hw & Hs & Hv).
  exists bm. split; [done|]. split; [by apply range_inv_with_bitmap|]. split; [done|]. split; [done|]. split; [done|].
  intros y. unfold marked_in. cbn [with_bitmap bitmap baseIP]. rewrite Hv, elem_of_union, elem_of_singleton.
  assert (y - addr16 (baseIP cr) = x - addr16 (baseIP cr) <-> y = x) as -> by lia. done.
Qed.

Lemma range_unmark cr x :
  range_inv cr -> in_range cr x ->
  exists bm, Clear (bitmap cr) (x - addr16 (baseIP cr)) = Val bm /\
    range_step cr (with_bitmap cr bm) (fun y => y <> x /\ marked_in cr y).
Proof.
  intros Hr Hx. pose proof (fl_unmark_spec (bitmap cr) (x - addr16 (baseIP cr)) (ri_wf _ Hr)) as Hm.
  rewrite (ri_bits _ Hr) in Hm. unfold in_range in Hx. destruct (Hm ltac:(lia)) as (bm & E & Hw & Hs & Hv).
  exists bm. split; [done|]. split; [by apply range_inv_with_bitmap|]. split; [done|]. split; [done|]. split; [done|].
  intros y. unfold marked_in. cbn [with_bitmap bitmap baseIP]. rewrite Hv, elem_of_difference, elem_of_singleton.
  assert (y - addr16 (baseIP cr) = x - addr16 (baseIP cr) <-> y = x) as -> by lia. tauto.
Qed.

Lemma range_get cr x :
  range_inv cr -> in_range cr x -> Get (bitmap cr) (x - addr16 (baseIP cr)) = Val (bool_decide (x - addr16 (baseIP cr) ∈ fl_view (bitmap cr))).
Proof.
  intros Hr Hx. apply Get_view; [apply (ri_wf _ Hr)|]. rewrite (ri_bits _ Hr). unfold in_range in Hx. lia.
Qed.

(** ** The loops over the ranges *)

Definition marked_any (rs : list cidrRange) (x : Z) : Prop := Exists (fun cr => marked_in cr x) rs.

(** One range of the list changed. *)
Definition one_range (rs rs' : list cidrRange) (x : Z) (passed : cidrRange -> Prop) (marks : cidrRange -> Z -> Prop) : Prop :=
  exists pre cr cr' post, rs = pre ++ cr :: post /\ rs' = pre ++ cr' :: post /\ Forall passed pre /\
    in_range cr x /\ range_step cr cr' (marks cr).

Lemma one_range_cons (passed : cidrRange -> Prop) marks cr rs rs' x :
  passed cr -> one_range rs rs' x passed marks -> one_range (cr :: rs) (cr :: rs') x passed marks.
Proof.
  intros Hp (pre & c & c' & post & -> & -> & Hpre & H). exists (cr :: pre), c, c', post.
  split; [done|]. split; [done|]. split; [by constructor|done].
Qed.

Lemma take_free_spec rs :
  Forall range_inv rs ->
  (Forall range_full rs /\ take_free rs = Val None) \/
  (exists rs' ip, take_free rs = Val (Some (rs', ip)) /\ wf_ip ip /\
     one_range rs rs' (addr16 ip) range_full (fun cr y => y = addr16 ip \/ marked_in cr y) /\
     (exists cr, cr ∈ rs /\ in_range cr (addr16 ip) /\ ~ marked_in cr (addr16 ip))).
Proof.
  induction 1 as [|cr r Hr _ IH]; [by left|]. cbn [take_free].
  pose proof (fl_find_spec (bitmap cr) (ri_wf _ Hr)) as Hf.
  change (fl_find (bitmap cr)) with (FindFree (bitmap cr)) in Hf. rewrite (ri_bits _ Hr) in Hf.
  destruct Hf as [[E Hall]|(Hrange & Hn & _)].
  - assert (range_full cr) as Hfull by (intros x Hx; apply Hall; unfold in_range in Hx; lia).
    rewrite E. cbn [Z.ltb Z.compare].
    destruct IH as [[Hfr ->]|(rs' & ip & -> & Hw & Hone & (c & Hc & Hcr))]; cbn [mbind outcome_bind].
    + left. split; [by constructor|done].
    + right. exists (cr :: rs'), ip. split; [done|]. split; [done|]. split; [by apply one_range_cons|].
      exists c. split; [by right|done].
  - right. destruct (_ <? 0) eqn:E; to_prop; [lia|]. set (i := FindFree (bitmap cr)) in *.
    assert (in_range cr (addr16 (baseIP cr) + i)) as Hx by (unfold in_range; lia).
    destruct (range_mark cr _ Hr Hx) as (bm & Es & Hstep). rewrite Z.add_simpl_l in Es. rewrite Es.
    cbn [mbind outcome_bind]. pose proof (ri_host32 _ Hr) as Hh.
    rewrite (ri_size _ Hr) in Hrange.
    destruct (indexToIP_spec _ _ _ (ri_cidr _ Hr) Hh i Hrange) as (ip & Ei & Hw & _ & Ha).
    rewrite <- (ri_len _ Hr), <- (ri_base _ Hr) in Ei. rewrite Ei. cbn [mbind outcome_bind].
    rewrite <- (ri_base _ Hr) in Ha. rewrite <- Ha in Hx, Hstep.
    eexists _, ip. split; [done|]. split; [done|]. split.
    + exists [], cr, (with_bitmap cr bm), r. done.
    + exists cr. split; [by left|]. split; [done|]. unfold marked_in. by rewrite Ha, Z.add_simpl_l.
Qed.

(** The range that decides a named address: the first that contains it. *)
Lemma claim_spec rs ip :
  Forall range_inv rs -> Forall is_byte ip ->
  (claim rs (normalizeIP ip) = Val (Err ErrIPOutsideCIDR) /\ Forall (fun cr => ~ (wf_ip ip /\ in_range cr (addr16 ip))) rs) \/
  (wf_ip ip /\ exists pre cr post, rs = pre ++ cr :: post /\ in_range cr (addr16 ip) /\
     Forall (fun c => ~ in_range c (addr16 ip)) pre /\
     ((marked_in cr (addr16 ip) /\ claim rs (normalizeIP ip) = Val (Err ErrIPAlreadyAlloc)) \/
      (~ marked_in cr (addr16 ip) /\ exists cr', claim rs (normalizeIP ip) = Val (Ok (pre ++ cr' :: post)) /\
         range_step cr cr' (fun y => y = addr16 ip \/ marked_in cr y)))).
Proof.
  intros Hrs Hb. induction Hrs as [|cr r Hr _ IH]; [by left|]. cbn [claim].
  destruct (Contains (network cr) (normalizeIP ip)) eqn:E; cbn [negb].
  - rewrite (range_contains cr ip Hr Hb) in E. destruct E as [Hw Hin]. right. split; [done|].
    exists [], cr, r. split; [done|]. split; [done|]. split; [done|].
    rewrite (range_index cr ip Hr Hw Hin). pose proof Hin as Hin'. unfold in_range in Hin'.
    destruct (_ || _) eqn:E2; to_prop; [lia|]. rewrite (range_get cr _ Hr Hin). cbn [mbind outcome_bind].
    case_bool_decide as Hm; [by left|right]. split; [done|].
    destruct (range_mark cr _ Hr Hin) as (bm & -> & Hstep). cbn [mbind outcome_bind]. by eexists.
  - assert (~ (wf_ip ip /\ in_range cr (addr16 ip))) as Hn by (rewrite <- (range_contains cr ip Hr Hb), E; done).
    destruct IH as [[-> Hno]|(Hw & pre & c & post & -> & Hin & Hpre & H)]; cbn [mbind outcome_bind].
    + left. split; [done|]. by constructor.
    + right. split; [done|]. exists (cr :: pre), c, post. split; [done|]. split; [done|].
      split; [constructor; [tauto|done]|]. destruct H as [[Hm ->]|[Hm (cr' & -> & Hs)]]; [by left|right].
      split; [done|]. by exists cr'.
Qed.

Lemma give_back_spec rs ip :
  Forall range_inv rs -> wf_ip ip ->
  (give_back rs (normalizeIP ip) = Val None /\ Forall (fun cr => ~ in_range cr (addr16 ip)) rs) \/
  (exists rs', give_back rs (normalizeIP ip) = Val (Some rs') /\
     one_range rs rs' (addr16 ip) (fun c => ~ in_range c (addr16 ip)) (fun cr y => y <> addr16 ip /\ marked_in cr y)).
Proof.
  intros Hrs Hw. induction Hrs as [|cr r Hr _ IH]; [by left|]. cbn [give_back].
  destruct (Contains (network cr) (normalizeIP ip)) eqn:E; cbn [andb].
  - rewrite (range_contains cr ip Hr (proj2 Hw)) in E. destruct E as [_ Hin].
    rewrite (range_index cr ip Hr Hw Hin). pose proof Hin as Hin'. unfold in_range in Hin'.
    destruct (_ && _) eqn:E2; to_prop; [|lia].
    destruct (range_unmark cr _ Hr Hin) as (bm & -> & Hstep). cbn [mbind outcome_bind]. right.
    eexists. split; [done|]. by exists [], cr, (with_bitmap cr bm), r.
  - assert (~ in_range cr (addr16 ip)) as Hn.
    { intros Hin. pose proof (range_contains cr ip Hr (proj2 Hw)) as Hiff. rewrite E in Hiff.
      by assert (false = true) by (by apply Hiff). }
    destruct IH as [[-> Hno]|(rs' & -> & Hone)]; cbn [mbind outcome_bind].
    + left. split; [done|]. by constructor.
    + right. eexists. split; [done|]. by apply one_range_cons.
Qed.

(** * The pool invariant *)

(** No address is offered twice: the ranges are disjoint and no single address
    lies in a range. *)
Definition no_overlap (p : Pool) : Prop :=
  (forall i j cr cr' x, i <> j -> ranges p !! i = Some cr -> ranges p !! j = Some cr' ->
     in_range cr x -> in_range cr' x -> False) /\
  (forall ip, wf_ip ip -> is_Some (discreteAddrs p !! ip_string ip) ->
     Forall (fun cr => ~ in_range cr (addr16 ip)) (ranges p)).

(** The address is handed out, as the bitmaps and flags say it. *)
Definition taken (p : Pool) (ip : IP) : Prop :=
  discreteAddrs p !! ip_string ip = Some true \/ marked_any (ranges p) (addr16 ip).

Record pool_inv (p : Pool) : Prop := {
  pi_ranges : Forall range_inv (ranges p);
  pi_disc s : is_Some (discreteAddrs p !! s) -> exists ip, wf_ip ip /\ s = ip_string ip;
  pi_layout : no_overlap p;
  pi_taken ip : wf_ip ip -> is_Some (allocations p !! ip_string ip) <-> taken p ip;
  pi_info s i : allocations p !! s = Some i -> wf_ip (info_ip i) /\ ip_string (info_ip i) = s;
}.

(** The addresses of the pool: of a range or single. *)
Definition offers (p : Pool) (ip : IP) : Prop :=
  is_Some (discreteAddrs p !! ip_string ip) \/ Exists (fun cr => in_range cr (addr16 ip)) (ranges p).

(** The ranges keep their place when one bitmap changes. *)
Lemma one_range_layout rs rs' x passed marks :
  one_range rs rs' x passed marks ->
  forall i cr', rs' !! i = Some cr' -> exists cr, rs !! i = Some cr /\ (forall y, in_range cr' y <-> in_range cr y).
Proof.
  intros (pre & c & c' & post & -> & -> & _ & _ & (_ & Hb & Hs & _)) i cr' Hi.
  destruct (decide (i = length pre)) as [->|Hne].
  - rewrite list_lookup_middle in Hi by done. injection Hi as <-. exists c.
    split; [by apply list_lookup_middle|]. intros y. unfold in_range. by rewrite Hb, Hs.
  - exists cr'. split; [|done]. rewrite lookup_app in *. destruct (pre !! i) eqn:E; [done|].
    apply lookup_ge_None in E. destruct (i - length pre)%nat eqn:Ei; [lia|done].
Qed.

Lemma no_overlap_one p rs' d' x passed marks m :
  no_overlap p -> one_range (ranges p) rs' x passed marks ->
  (forall s, is_Some (d' !! s) <-> is_Some (discreteAddrs p !! s)) ->
  no_overlap (with_state p rs' d' m).
Proof.
  intros [H1 H2] Hone Hd. split; cbn [with_state ranges discreteAddrs].
  - intros i j cr cr' y Hne Hi Hj Hy Hy'.
    destruct (one_range_layout _ _ _ _ _ Hone i cr Hi) as (c & Hc & Hin).
    destruct (one_range_layout _ _ _ _ _ Hone j cr' Hj) as (c' & Hc' & Hin').
    eapply (H1 i j c c' y); [done..|by apply Hin|by apply Hin'].
  - intros ip Hw Hs. rewrite Hd in Hs. specialize (H2 ip Hw Hs). rewrite Forall_lookup in *.
    intros i cr Hi Hy. destruct (one_range_layout _ _ _ _ _ Hone i cr Hi) as (c & Hc & Hin).
    apply (H2 i c Hc). by apply Hin.
Qed.

Lemma one_range_invs rs rs' x passed marks :
  Forall range_inv rs -> one_range rs rs' x passed marks -> Forall range_inv rs'.
Proof.
  intros H (pre & c & c' & post & -> & -> & _ & _ & (Hc' & _)).
  apply Forall_app in H as [H1 H2]. apply Forall_cons in H2 as [_ H2].
  apply Forall_app. split; [done|]. by constructor.
Qed.

(** Marking and clearing in one range, seen over the whole list. *)
Lemma marked_any_mark rs rs' x passed :
  one_range rs rs' x passed (fun cr y => y = x \/ marked_in cr y) ->
  forall y, marked_any rs' y <-> y = x \/ marked_any rs y.
Proof.
  intros (pre & c & c' & post & -> & -> & _ & _ & (_ & _ & _ & _ & Hm)) y. unfold marked_any.
  rewrite !Exists_app, !Exists_cons, Hm. tauto.
Qed.

Lemma marked_any_unmark rs rs' x passed :
  Forall range_inv rs ->
  (forall i j cr cr', i <> j -> rs !! i = Some cr -> rs !! j = Some cr' -> in_range cr x -> in_range cr' x -> False) ->
  one_range rs rs' x passed (fun cr y => y <> x /\ marked_in cr y) ->
  forall y, marked_any rs' y <-> y <> x /\ marked_any rs y.
Proof.
  intros Hinv Hd (pre & c & c' & post & -> & -> & _ & Hin & (_ & _ & _ & _ & Hm)) y.
  assert (forall k q, (pre ++ c :: post) !! k = Some q -> k <> length pre -> ~ marked_in q x) as Hother.
  { intros k q Hk Hne Hq. apply (Hd k (length pre) q c Hne Hk); [by apply list_lookup_middle| |done].
    apply marked_in_range; [|done]. rewrite Forall_lookup in Hinv. by eapply Hinv. }
  assert (~ Exists (fun cr => marked_in cr x) pre /\ ~ Exists (fun cr => marked_in cr x) post) as [Hpre Hpost].
  { split; intros (q & Hq & Hx)%Exists_exists; apply list_elem_of_lookup_1 in Hq as (k & Hk).
    - apply (Hother k q); [by apply lookup_app_l_Some| |done]. apply lookup_lt_Some in Hk. lia.
    - apply (Hother (length pre + S k)%nat q); [|lia|done].
      rewrite lookup_app_r by lia. by replace (length pre + S k - length pre)%nat with (S k) by lia. }
  unfold marked_any. rewrite !Exists_app, !Exists_cons, Hm.
  destruct (decide (y = x)) as [->|]; tauto.
Qed.

(** * The operations keep the invariant *)

Lemma string_addr a b : wf_ip a -> wf_ip b -> ip_string a = ip_string b <-> addr16 a = addr16 b.
Proof. apply ip_string_addr16. Qed.

(** Rebuilding the invariant after an address was handed out or given back. *)
Lemma pool_inv_grant p rs d ip i :
  pool_inv p -> Forall range_inv rs -> (forall s, is_Some (d !! s) <-> is_Some (discreteAddrs p !! s)) ->
  wf_ip ip -> wf_ip (info_ip i) /\ ip_string (info_ip i) = ip_string ip ->
  let p' := with_state p rs d (<[ip_string ip := i]> (allocations p)) in
  no_overlap p' -> (forall ip', wf_ip ip' -> taken p' ip' <-> addr16 ip' = addr16 ip \/ taken p ip') -> pool_inv p'.
Proof.
  intros Hp Hrs Hd Hw Hi p' Hno Ht. split; cbn [p' with_state ranges discreteAddrs allocations]; try done.
  - intros s Hs. apply (pi_disc _ Hp). by apply Hd.
  - intros ip' Hw'. rewrite (Ht ip' Hw'), <- (pi_taken _ Hp ip' Hw'), <- string_addr, lookup_insert_is_Some by done.
    destruct (decide (ip_string ip' = ip_string ip)); intuition congruence.
  - intros s j [[<- <-]|[_ Hj]]%lookup_insert_Some; [done|]. by apply (pi_info _ Hp).
Qed.

Lemma pool_inv_drop p rs d ip :
  pool_inv p -> Forall range_inv rs -> (forall s, is_Some (d !! s) <-> is_Some (discreteAddrs p !! s)) ->
  wf_ip ip ->
  let p' := with_state p rs d (delete (ip_string ip) (allocations p)) in
  no_overlap p' -> (forall ip', wf_ip ip' -> taken p' ip' <-> addr16 ip' <> addr16 ip /\ taken p ip') -> pool_inv p'.
Proof.
  intros Hp Hrs Hd Hw p' Hno Ht. split; cbn [p' with_state ranges discreteAddrs allocations]; try done.
  - intros s Hs. apply (pi_disc _ Hp). by apply Hd.
  - intros ip' Hw'. rewrite (Ht ip' Hw'), <- (pi_taken _ Hp ip' Hw'), lookup_delete_is_Some.
    rewrite <- string_addr by done. intuition congruence.
  - intros s j [_ Hj]%lookup_delete_Some. by apply (pi_info _ Hp).
Qed.

Lemma no_overlap_disc p d m :
  no_overlap p -> (forall s, is_Some (d !! s) <-> is_Some (discreteAddrs p !! s)) ->
  no_overlap (with_state p (ranges p) d m).
Proof.
  intros [H1 H2] Hd. split; [done|]. intros ip Hw Hs. apply H2; [done|]. by apply Hd.
Qed.

Lemma insert_same_dom (d : gmap string bool) k b s :
  is_Some (d !! k) -> is_Some (<[k := b]> d !! s) <-> is_Some (d !! s).
Proof. intros Hk. rewrite lookup_insert_is_Some'. split; [intros [->|?]; done|by right]. Qed.

(** An address of the pool is marked in a range only if it is no single address. *)
Lemma range_not_discrete p cr ip :
  pool_inv p -> wf_ip ip -> cr ∈ ranges p -> in_range cr (addr16 ip) -> discreteAddrs p !! ip_string ip = None.
Proof.
  intros Hp Hw Hcr Hin. apply eq_None_not_Some. intros Hs.
  pose proof (proj2 (pi_layout _ Hp) ip Hw Hs) as H. rewrite Forall_forall in H. by apply (H cr Hcr).
Qed.

Lemma discrete_not_marked p ip :
  pool_inv p -> wf_ip ip -> is_Some (discreteAddrs p !! ip_string ip) -> ~ marked_any (ranges p) (addr16 ip).
Proof.
  intros Hp Hw Hs (cr & Hcr & Hm)%Exists_exists.
  pose proof (proj2 (pi_layout _ Hp) ip Hw Hs) as H. rewrite Forall_forall in H. apply (H cr Hcr).
  apply marked_in_range; [|done]. pose proof (pi_ranges _ Hp) as Hr. rewrite Forall_forall in Hr. by apply Hr.
Qed.

(** At most one range has the address. *)
Lemma marked_only p cr ip :
  pool_inv p -> cr ∈ ranges p -> in_range cr (addr16 ip) -> ~ marked_in cr (addr16 ip) ->
  ~ marked_any (ranges p) (addr16 ip).
Proof.
  intros Hp Hcr Hin Hn (c & Hc & Hm)%Exists_exists.
  apply list_elem_of_lookup_1 in Hcr as (i & Hi), Hc as (j & Hj).
  destruct (decide (i = j)) as [->|Hne]; [congruence|].
  apply (proj1 (pi_layout _ Hp) i j cr c (addr16 ip) Hne Hi Hj Hin).
  apply marked_in_range; [|done]. pose proof (pi_ranges _ Hp) as Hr. rewrite Forall_lookup in Hr. by eapply Hr.
Qed.

Lemma ParseIP_canonical ip :
  wf_ip ip -> exists ip', ParseIP (ip_string ip) = Some ip' /\ wf_ip ip' /\ addr16 ip' = addr16 ip /\ ip_string ip' = ip_string ip.
Proof.
  intros Hw. rewrite (ParseIP_ip_string ip Hw).
  assert (exists b, To16 ip = Some b) as [b E].
  { destruct Hw as [[Hl|Hl] _]; [rewrite To16_len4 by done|rewrite To16_len16 by done]; by eexists. }
  exists b. assert (ParseIP (ip_string ip) = Some b) as Hp by (by rewrite ParseIP_ip_string).
  destruct (ParseIP_wf _ _ Hp) as [Hl Hb]. assert (wf_ip b) as Hwb by (by split; [right|]).
  assert (addr16 b = addr16 ip) as Ha by (unfold addr16 at 2; by rewrite E, (addr16_16 b Hl)).
  split_and!; try done. by apply string_addr.
Qed.

(** What handing out an address means for the pool. *)
Definition granted (p p' : Pool) (ip : IP) (i : AllocationInfo) : Prop :=
  pool_inv p' /\ wf_ip ip /\ offers p ip /\ ~ taken p ip /\
  allocations p' = <[ip_string ip := i]> (allocations p) /\
  (forall ip', wf_ip ip' -> offers p' ip' <-> offers p ip').

Lemma offers_one p rs' d' m x passed marks :
  one_range (ranges p) rs' x passed marks ->
  (forall s, is_Some (d' !! s) <-> is_Some (discreteAddrs p !! s)) ->
  forall ip, offers (with_state p rs' d' m) ip <-> offers p ip.
Proof.
  intros (pre & c & c' & post & E & -> & _ & _ & (_ & Hb & Hs & _)) Hd ip. unfold offers.
  cbn [with_state ranges discreteAddrs]. rewrite Hd, E, !Exists_app, !Exists_cons. unfold in_range. by rewrite Hb, Hs.
Qed.

Lemma grant_range p rs' ip i passed :
  pool_inv p -> wf_ip ip ->
  one_range (ranges p) rs' (addr16 ip) passed (fun cr y => y = addr16 ip \/ marked_in cr y) ->
  (exists cr, cr ∈ ranges p /\ in_range cr (addr16 ip) /\ ~ marked_in cr (addr16 ip)) ->
  wf_ip (info_ip i) /\ ip_string (info_ip i) = ip_string ip ->
  granted p (with_state p rs' (discreteAddrs p) (<[ip_string ip := i]> (allocations p))) ip i.
Proof.
  intros Hp Hw Hone (cr & Hcr & Hin & Hn) Hi. split_and!; try done.
  - apply pool_inv_grant; try done.
    + eapply one_range_invs; [apply (pi_ranges _ Hp)|done].
    + by eapply no_overlap_one; [apply (pi_layout _ Hp)| |].
    + intros ip' Hw'. unfold taken. cbn [with_state ranges discreteAddrs].
      rewrite (marked_any_mark _ _ _ _ Hone). tauto.
  - right. apply Exists_exists. by exists cr.
  - intros [Hd|Hm]; [|by eapply marked_only].
    by rewrite (range_not_discrete p cr ip Hp Hw Hcr Hin) in Hd.
  - intros ip' _. by apply (offers_one p rs' _ _ _ _ _ Hone).
Qed.

Lemma grant_discrete p ip i :
  pool_inv p -> wf_ip ip -> discreteAddrs p !! ip_string ip = Some false ->
  wf_ip (info_ip i) /\ ip_string (info_ip i) = ip_string ip ->
  granted p (with_state p (ranges p) (<[ip_string ip := true]> (discreteAddrs p))
               (<[ip_string ip := i]> (allocations p))) ip i.
Proof.
  intros Hp Hw Hd Hi. assert (is_Some (discreteAddrs p !! ip_string ip)) as Hs by (by rewrite Hd).
  pose proof (discrete_not_marked p ip Hp Hw Hs) as Hnm. split_and!; try done.
  - apply pool_inv_grant; try done; [apply (pi_ranges _ Hp)|by intros; apply insert_same_dom| |].
    + apply no_overlap_disc; [apply (pi_layout _ Hp)|]. by intros; apply insert_same_dom.
    + intros ip' Hw'. unfold taken. cbn [with_state ranges discreteAddrs]. rewrite <- string_addr by done.
      rewrite lookup_insert_Some. destruct (decide (ip_string ip' = ip_string ip)) as [E|]; [|naive_solver].
      rewrite E. naive_solver.
  - by left.
  - intros [?|?]; [congruence|done].
  - intros ip' _. unfold offers. cbn [with_state ranges discreteAddrs]. by rewrite insert_same_dom.
Qed.

Lemma Allocate_sound p order own res now :
  pool_inv p -> order ≡ₚ map_to_list (discreteAddrs p) ->
  (Allocate p order own res now = Val (p, Err ErrNoFreeAddresses) /\
     forall ip, wf_ip ip -> offers p ip -> taken p ip) \/
  (exists p' ip, Allocate p order own res now = Val (p', Ok ip) /\ granted p p' ip (mkInfo ip own res now)).
Proof.
  intros Hp Ho. unfold Allocate.
  destruct (take_free_spec (ranges p) (pi_ranges _ Hp)) as [[Hfull ->]|(rs' & ip & -> & Hw & Hone & Hfree)];
    cbn [mbind outcome_bind].
  2:{ right. eexists _, ip. split; [done|]. by eapply grant_range. }
  destruct (list_find (fun e : string * bool => e.2 = false) order) as [[k [addr b]]|] eqn:E.
  - right. apply list_find_Some in E as (Hk & Hb & _). cbn in Hb. subst b.
    assert ((addr, false) ∈ map_to_list (discreteAddrs p)) as Hd by (rewrite <- Ho; by eapply list_elem_of_lookup_2).
    apply elem_of_map_to_list in Hd. destruct (pi_disc _ Hp addr) as (ip & Hw & ->); [by rewrite Hd|].
    destruct (ParseIP_canonical ip Hw) as (ip' & -> & Hw' & Ha & Hs). cbn [default].
    eexists _, ip'. split; [done|]. rewrite <- Hs in *. by apply grant_discrete.
  - left. split; [done|]. apply list_find_None in E. intros ip Hw [Hs|Hr].
    + left. destruct Hs as [b Hb]. rewrite Hb. destruct b; [done|exfalso].
      rewrite Forall_forall in E. apply (E (ip_string ip, false)); [|done].
      rewrite Ho. by apply elem_of_map_to_list.
    + right. apply Exists_exists in Hr as (cr & Hcr & Hin). apply Exists_exists. exists cr. split; [done|].
      rewrite Forall_forall in Hfull. by apply (Hfull cr Hcr).
Qed.

Lemma AllocateSpecific_sound p ip own res now :
  pool_inv p -> Forall is_byte ip ->
  (exists p', AllocateSpecific p ip own res now = Val (p', Ok tt) /\
     granted p p' ip (mkInfo (normalizeIP ip) own res now)) \/
  (AllocateSpecific p ip own res now = Val (p, Err ErrIPAlreadyAlloc) /\ wf_ip ip /\ taken p ip) \/
  (AllocateSpecific p ip own res now = Val (p, Err ErrIPOutsideCIDR) /\ ~ (wf_ip ip /\ offers p ip)).
Proof.
  intros Hp Hb. unfold AllocateSpecific. destruct (decide (length ip = 4%nat \/ length ip = 16%nat)) as [Hl|Hl].
  - assert (wf_ip ip) as Hw by done. destruct (normalizeIP_wf ip Hw) as [Hwn Han].
    rewrite (ip_string_normalizeIP ip Hw). destruct (discreteAddrs p !! ip_string ip) as [[]|] eqn:Ed.
    + right. left. split; [done|]. split; [done|]. by left.
    + left. eexists. split; [done|]. apply grant_discrete; [done..|]. split; [done|]. by apply ip_string_normalizeIP.
    + destruct (claim_spec (ranges p) ip (pi_ranges _ Hp) Hb)
        as [[-> Hno]|(_ & pre & cr & post & E & Hin & Hpre & [[Hm ->]|[Hm (cr' & -> & Hs)]])]; cbn [mbind outcome_bind].
      * right. right. split; [done|]. intros [_ [Hs|Hr]]; [rewrite Ed in Hs; by destruct Hs|].
        apply Exists_exists in Hr as (c & Hc & Hin). rewrite Forall_forall in Hno. by apply (Hno c Hc).
      * right. left. split; [done|]. split; [done|]. right. rewrite E. apply Exists_exists. exists cr.
        split; [|done]. apply elem_of_app. right. by left.
      * left. eexists. split; [done|]. assert (cr ∈ ranges p) as Hcr by (rewrite E; apply elem_of_app; right; by left).
        apply (grant_range p _ ip _ (fun c => ~ in_range c (addr16 ip))); [done|done| |by exists cr|].
        -- by exists pre, cr, cr', post.
        -- split; [done|]. by apply ip_string_normalizeIP.
  - right. right. rewrite normalizeIP_bad by tauto.
    assert (discreteAddrs p !! ip_string [] = None) as ->.
    { apply eq_None_not_Some. intros Hs. destruct (pi_disc _ Hp _ Hs) as (ip' & Hw' & E).
      destruct (ParseIP_canonical ip' Hw') as (b & Hb' & _). rewrite <- E in Hb'. done. }
    destruct (claim_spec (ranges p) ip (pi_ranges _ Hp) Hb) as [[E Hno]|([Hl' _] & _)]; [|done].
    rewrite normalizeIP_bad in E by tauto. rewrite E. cbn [mbind outcome_bind]. split; [done|].
    by intros [[Hl' _] _].
Qed.

(** What taking an address back means for the pool. *)
Definition dropped (p p' : Pool) (ip : IP) : Prop :=
  pool_inv p' /\ allocations p' = delete (ip_string ip) (allocations p) /\
  (forall ip', wf_ip ip' -> offers p' ip' <-> offers p ip').

Lemma drop_discrete p ip :
  pool_inv p -> wf_ip ip -> is_Some (discreteAddrs p !! ip_string ip) ->
  dropped p (with_state p (ranges p) (<[ip_string ip := false]> (discreteAddrs p))
               (delete (ip_string ip) (allocations p))) ip.
Proof.
  intros Hp Hw Hs. pose proof (discrete_not_marked p ip Hp Hw Hs) as Hnm. split; [|split; [done|]].
  - apply pool_inv_drop; try done; [apply (pi_ranges _ Hp)|by intros; apply insert_same_dom| |].
    + apply no_overlap_disc; [apply (pi_layout _ Hp)|]. by intros; apply insert_same_dom.
    + intros ip' Hw'. unfold taken. cbn [with_state ranges discreteAddrs]. rewrite lookup_insert_Some.
      destruct (decide (addr16 ip' = addr16 ip)) as [E|Hne].
      * rewrite E. apply string_addr in E; [|done..]. rewrite E. naive_solver.
      * assert (ip_string ip' <> ip_string ip) by (intros E; apply Hne; by apply string_addr). naive_solver.
  - intros ip' _. unfold offers. cbn [with_state ranges discreteAddrs]. by rewrite insert_same_dom.
Qed.

Lemma drop_range p rs' ip passed :
  pool_inv p -> wf_ip ip -> discreteAddrs p !! ip_string ip = None ->
  one_range (ranges p) rs' (addr16 ip) passed (fun cr y => y <> addr16 ip /\ marked_in cr y) ->
  dropped p (with_state p rs' (discreteAddrs p) (delete (ip_string ip) (allocations p))) ip.
Proof.
  intros Hp Hw Hd Hone. split; [|split; [done|]].
  - apply pool_inv_drop; try done; [eapply one_range_invs; [apply (pi_ranges _ Hp)|done]| |].
    + by eapply no_overlap_one; [apply (pi_layout _ Hp)| |].
    + intros ip' Hw'. unfold taken. cbn [with_state ranges discreteAddrs].
      rewrite (marked_any_unmark _ _ _ _ (pi_ranges _ Hp)
                 (fun i j c c' Hne H1 H2 => proj1 (pi_layout _ Hp) i j c c' _ Hne H1 H2) Hone).
      split; [|tauto]. intros [Ht|?]; [|tauto]. split; [|by left]. intros E.
      apply string_addr in E; [|done..]. rewrite E in Ht. congruence.
  - intros ip' _. by apply (offers_one p rs' _ _ _ _ _ Hone).
Qed.

Lemma Release_sound p ip :
  pool_inv p -> wf_ip ip ->
  (Release p ip = Val (p, Err ErrIPNotAllocated) /\ allocations p !! ip_string ip = None) \/
  (exists p', Release p ip = Val (p', Ok tt) /\ is_Some (allocations p !! ip_string ip) /\ dropped p p' ip).
Proof.
  intros Hp Hw. unfold Release. rewrite (ip_string_normalizeIP ip Hw).
  destruct (allocations p !! ip_string ip) as [i|] eqn:Ea; [right|by left].
  assert (taken p ip) as Ht by (apply (pi_taken _ Hp ip Hw); by rewrite Ea).
  destruct (discreteAddrs p !! ip_string ip) as [b|] eqn:Ed.
  { eexists. split; [done|]. split; [done|]. apply drop_discrete; [done..|by rewrite Ed]. }
  destruct Ht as [Ht|Hm]; [congruence|].
  destruct (give_back_spec (ranges p) ip (pi_ranges _ Hp) Hw) as [[_ Hno]|(rs' & -> & Hone)].
  - exfalso. apply Exists_exists in Hm as (cr & Hcr & Hm). rewrite Forall_forall in Hno. apply (Hno cr Hcr).
    apply marked_in_range; [|done]. pose proof (pi_ranges _ Hp) as Hr. rewrite Forall_forall in Hr. by apply Hr.
  - cbn [mbind outcome_bind default]. eexists. split; [done|]. split; [done|]. by eapply drop_range.
Qed.

Lemma range_available_spec rs ip :
  Forall range_inv rs -> wf_ip ip ->
  (range_available rs (normalizeIP ip) = Val false /\ Forall (fun cr => ~ in_range cr (addr16 ip)) rs) \/
  (exists pre cr post, rs = pre ++ cr :: post /\ in_range cr (addr16 ip) /\
     range_available rs (normalizeIP ip) = Val (bool_decide (~ marked_in cr (addr16 ip)))).
Proof.
  intros Hrs Hw. induction Hrs as [|cr r Hr _ IH]; [by left|]. cbn [range_available].
  destruct (Contains (network cr) (normalizeIP ip)) eqn:E; cbn [andb].
  - rewrite (range_contains cr ip Hr (proj2 Hw)) in E. destruct E as [_ Hin].
    rewrite (range_index cr ip Hr Hw Hin). pose proof Hin as Hin'. unfold in_range in Hin'.
    destruct (_ && _) eqn:E2; to_prop; [|lia]. rewrite (range_get cr _ Hr Hin). cbn [mbind outcome_bind].
    right. exists [], cr, r. split; [done|]. split; [done|]. by rewrite bool_decide_not.
  - assert (~ in_range cr (addr16 ip)) as Hn.
    { intros Hin. pose proof (range_contains cr ip Hr (proj2 Hw)) as Hiff. rewrite E in Hiff.
      by assert (false = true) by (by apply Hiff). }
    destruct IH as [[-> Hno]|(pre & c & post & -> & H)]; [left; split; [done|by constructor]|].
    right. exists (cr :: pre), c, post. done.
Qed.

(** * Construction *)

Lemma parseCIDRRange_spec c :
  exists r, parseCIDRRange c = Val r /\
    (forall cr, r = Ok cr -> range_inv cr /\ forall x, ~ marked_in cr x).
Proof.
  unfold parseCIDRRange. destruct (ParseCIDR c) as [[ip net]|] eqn:Ep; [|by eexists].
  destruct (ParseCIDR_ok _ _ _ Ep) as (_ & ones & bits & Hc & ->). pose proof (cidr_ones _ _ _ Hc) as Ho.
  destruct (20 <? bits - ones) eqn:E20; to_prop; [by eexists|].
  destruct (bits - ones <? 0) eqn:E0; to_prop; [lia|]. rewrite Z.shiftl_1_l.
  assert (2 ^ (bits - ones) <= 2 ^ 20) by (apply Z.pow_le_mono_r; lia).
  destruct (NewBitmap_fresh (2 ^ (bits - ones)) ltac:(lia)) as (bm & Eb & Hw & Hs & Hv).
  pose proof (cidr_bits _ _ _ Hc) as Hb.
  assert ((if bits =? 128 then (default [] (To16 (net_ip net)), 16) else (default [] (To4 (net_ip net)), 4)) =
    (net_ip net, go_len (net_ip net))) as ->.
  { unfold go_len. destruct (cidr_len _ _ _ Hc) as [Hl|Hl]; rewrite Hl in *.
    - destruct (bits =? 128) eqn:E; to_prop; [lia|]. by rewrite To4_len4.
    - destruct (bits =? 128) eqn:E; to_prop; [|lia]. by rewrite To16_len16. }
  rewrite Eb. cbn [mbind outcome_bind]. eexists. split; [done|]. intros cr [= <-].
  assert (8 * go_len (net_ip net) = bits) as Hbits by (unfold go_len; lia). split.
  - split; cbn [network baseIP r_size bitmap prefixLen ipLen]; rewrite ?Hbits; done.
  - intros x. unfold marked_in. cbn [bitmap]. rewrite Hv. set_solver.
Qed.

Lemma parse_ranges_spec cs :
  exists r, parse_ranges cs = Val r /\
    (forall rs, r = Ok rs -> Forall range_inv rs /\ forall x, ~ marked_any rs x).
Proof.
  induction cs as [|c cs IH]; cbn [parse_ranges].
  { eexists. split; [done|]. intros rs [= <-]. split; [done|]. intros x. by intros ?%Exists_nil. }
  destruct (parseCIDRRange_spec c) as (r & -> & Hr). cbn [mbind outcome_bind]. destruct r as [cr|e]; [|by eexists].
  destruct IH as (y & -> & Hy). cbn [mbind outcome_bind]. eexists. split; [done|].
  destruct y as [rs|e]; [|done]. intros rs' [= <-]. destruct (Hr cr eq_refl) as [H1 H2]. destruct (Hy rs eq_refl) as [H3 H4].
  split; [by constructor|]. intros x [?|?]%Exists_cons; [by eapply H2|by eapply H4].
Qed.

Lemma parse_addrs_spec l m m' :
  parse_addrs l m = Ok m' ->
  (forall s b, m !! s = Some b -> b = false /\ exists ip, wf_ip ip /\ s = ip_string ip) ->
  forall s b, m' !! s = Some b -> b = false /\ exists ip, wf_ip ip /\ s = ip_string ip.
Proof.
  revert m. induction l as [|a l IH]; intros m; cbn [parse_addrs]; [by intros [= <-]|].
  destruct (ParseIP a) as [ip|] eqn:E; [|done]. intros H Hm. apply (IH _ H).
  intros s b [[<- <-]|[_ Hs]]%lookup_insert_Some; [|by apply Hm]. split; [done|]. exists ip. split; [|done].
  destruct (ParseIP_wf _ _ E) as [Hl Hb]. by split; [right|].
Qed.

(** [NewPool] never panics, and a pool without overlaps starts in the invariant
    with no allocation. *)
Lemma NewPool_spec cfg :
  exists r, NewPool cfg = Val r /\
    (forall p, r = Ok p -> allocations p = ∅ /\ (no_overlap p -> pool_inv p)).
Proof.
  unfold NewPool. destruct (parse_ranges_spec (CIDRs cfg)) as (x & -> & Hx). cbn [mbind outcome_bind].
  eexists. split; [done|]. destruct x as [rs|e]; [|done].
  destruct (parse_addrs (Addresses cfg) ∅) as [m|e] eqn:E; [|done]. intros p [= <-]. split; [done|]. intros Hno.
  destruct (Hx rs eq_refl) as [H1 H2]. pose proof (parse_addrs_spec _ _ _ E) as H3.
  assert (forall s b, m !! s = Some b -> b = false /\ exists ip, wf_ip ip /\ s = ip_string ip) as H4.
  { apply H3. intros s b. by rewrite lookup_empty. }
  split; cbn [ranges discreteAddrs allocations]; try done.
  - intros s [b Hb]. by apply (H4 s b).
  - intros ip Hw. rewrite lookup_empty. split; [by intros []|]. intros [Hd|Hm]; cbn in *.
    + by apply H4 in Hd as [? _].
    + by apply H2 in Hm.
Qed.

Lemma IsAvailable_spec p ip :
  pool_inv p -> wf_ip ip ->
  exists b, IsAvailable p ip = Val b /\ (b = true <-> offers p ip /\ allocations p !! ip_string ip = None).
Proof.
  intros Hp Hw. unfold IsAvailable. rewrite (ip_string_normalizeIP ip Hw).
  setoid_rewrite eq_None_not_Some. setoid_rewrite (pi_taken _ Hp ip Hw). unfold offers, taken.
  destruct (discreteAddrs p !! ip_string ip) as [b|] eqn:Ed.
  { exists (negb b). split; [done|]. assert (is_Some (discreteAddrs p !! ip_string ip)) as Hs by (by rewrite Ed).
    pose proof (discrete_not_marked p ip Hp Hw Hs). destruct b; naive_solver. }
  destruct (range_available_spec (ranges p) ip (pi_ranges _ Hp) Hw) as [[-> Hno]|(pre & cr & post & E & Hin & ->)];
    eexists; (split; [done|]).
  - split; [done|]. intros [[[]|Hr] _]; [done|]. apply Exists_exists in Hr as (c & Hc & Hci).
    rewrite Forall_forall in Hno. by destruct (Hno c Hc).
  - assert (cr ∈ ranges p) as Hcr by (rewrite E; apply elem_of_app; right; by left).
    rewrite bool_decide_eq_true. split.
    + intros Hn. split; [right; apply Exists_exists; by exists cr|].
      intros [?|Hm]; [done|]. by eapply marked_only.
    + intros [_ Hn] Hm. apply Hn. right. apply Exists_exists. by exists cr.
Qed.

Lemma pool_contains_spec p ip :
  pool_inv p -> wf_ip ip -> pool_contains p ip = true <-> offers p ip.
Proof.
  intros Hp Hw. unfold pool_contains, offers. rewrite (ip_string_normalizeIP ip Hw), orb_true_iff, bool_decide_eq_true.
  pose proof (pi_ranges _ Hp) as Hr. rewrite Forall_forall in Hr.
  assert (existsb (fun cr => Contains (network cr) (normalizeIP ip)) (ranges p) = true <->
    Exists (fun cr => in_range cr (addr16 ip)) (ranges p)) as ->; [|done].
  rewrite existsb_exists. split.
  - intros (cr & Hcr & H). apply list_elem_of_In in Hcr. apply Exists_exists. exists cr. split; [done|].
    by apply (range_contains cr ip (Hr cr Hcr) (proj2 Hw)) in H as [_ H].
  - intros (cr & Hcr & H)%Exists_exists. exists cr. rewrite <- list_elem_of_In. split; [done|].
    apply (range_contains cr ip (Hr cr Hcr) (proj2 Hw)). by split.
Qed.
