(* ===== verification/IpamManager.v ===== *)
(** The pool manager (internal/ipam/manager.go) and the gRPC service in front of
    it (internal/ipam/grpc_server.go).  Go iterates maps in an unspecified order:
    an operation that does takes the order as an argument, and the theorems hold
    for every order.  They say what each request answers in terms of the
    allocation records of the pools. *)

From Stdlib Require Import ZArith Lia Ascii String.
From stdpp Require Import base tactics list gmap strings fin_maps.
From S2P Require Import Prelude GoStrings GoNet GoCidr Bitmap IpamIndex IpamPool.

(** * The manager *)

Abbreviation Manager := (gmap string Pool).

Definition NewManager : Manager := ∅.

Definition RegisterPool (m : Manager) (cfg : PoolConfig) : outcome (Manager * result ipam_error unit) :=
  match m !! cfg_name cfg with
  | Some _ => Val (m, Err ErrPoolAlreadyRegistered)
  | None =>
      r ← NewPool cfg;
      Val (match r with Err e => (m, Err e) | Ok p => (<[cfg_name cfg := p]> m, Ok tt) end)
  end.

Definition UpdatePool (m : Manager) (cfg : PoolConfig) : outcome (Manager * result ipam_error unit) :=
  r ← NewPool cfg;
  Val (match r with Err e => (m, Err e) | Ok p => (<[cfg_name cfg := p]> m, Ok tt) end).

Definition UnregisterPool (m : Manager) (name : string) : Manager := delete name m.

Definition getPool (m : Manager) (name : string) : result ipam_error Pool :=
  match m !! name with Some p => Ok p | None => Err ErrPoolNotFound end.

(** The iteration order of the single addresses of each pool. *)
Definition orders := string -> list (string * bool).

Definition mgr_Allocate (m : Manager) (od : orders) (poolName own res : string) (now : Z)
    : outcome (Manager * result ipam_error IP) :=
  match getPool m poolName with
  | Err e => Val (m, Err e)
  | Ok p =>
      '(p', r) ← Allocate p (od poolName) own res now;
      Val (<[poolName := p']> m, r)
  end.

(** The loop of [AllocateByType] over the pools in iteration order. *)
Fixpoint allocate_by_type (m : Manager) (od : orders) (order : list (string * Pool)) (ty own res : string) (now : Z)
    : outcome (Manager * result ipam_error (IP * string)) :=
  match order with
  | [] => Val (m, Err ErrNoFreeAddresses)
  | (key, p) :: r =>
      if negb (String.eqb (poolType p) ty) || negb (autoAssign p) then allocate_by_type m od r ty own res now
      else
        '(p', x) ← Allocate p (od key) own res now;
        match x with
        | Err _ => allocate_by_type (<[key := p']> m) od r ty own res now
        | Ok ip => Val (<[key := p']> m, Ok (ip, p_name p))
        end
  end.

Definition AllocateByType (m : Manager) (od : orders) (order : list (string * Pool)) (ty own res : string) (now : Z) :=
  allocate_by_type m od order ty own res now.

Definition mgr_AllocateSpecific (m : Manager) (poolName : string) (ip : IP) (own res : string) (now : Z)
    : outcome (Manager * result ipam_error unit) :=
  match getPool m poolName with
  | Err e => Val (m, Err e)
  | Ok p =>
      '(p', r) ← AllocateSpecific p ip own res now;
      Val (<[poolName := p']> m, r)
  end.

Definition mgr_Release (m : Manager) (poolName : string) (ip : IP) : outcome (Manager * result ipam_error unit) :=
  match getPool m poolName with
  | Err e => Val (m, Err e)
  | Ok p =>
      '(p', r) ← Release p ip;
      Val (<[poolName := p']> m, r)
  end.

Definition mgr_Validate (m : Manager) (poolName : string) (ip : IP) : outcome (result ipam_error bool) :=
  match getPool m poolName with
  | Err e => Val (Err e)
  | Ok p => b ← IsAvailable p ip; Val (Ok b)
  end.

(** The iteration order of the records of each pool. *)
Definition rec_orders := string -> list (string * AllocationInfo).

Definition mgr_GetPool (m : Manager) (ro : rec_orders) (name : string) : result ipam_error PoolStatus :=
  match getPool m name with Err e => Err e | Ok p => Ok (Status p (ro name)) end.

Definition type_match (filterType : option string) (p : Pool) : bool :=
  match filterType with Some t => String.eqb (poolType p) t | None => true end.

Definition ListPools (ro : rec_orders) (order : list (string * Pool)) (filterType : option string) : list PoolStatus :=
  (fun e => Status e.2 (ro e.1)) <$> filter (fun e => Is_true (type_match filterType e.2)) order.

Definition ListAllocations (ro : rec_orders) (order : list (string * Pool)) (filterPool filterOwner : string)
    (filterType : option string) : list AllocationInfo :=
  e ← filter (fun e => Is_true ((String.eqb filterPool "" || String.eqb (p_name e.2) filterPool) &&
                                 type_match filterType e.2)) order;
  filter (fun a => Is_true (String.eqb filterOwner "" || String.eqb (Owner a) filterOwner))
         (Allocations (Status e.2 (ro e.1))).

Definition FindPoolForIP (order : list (string * Pool)) (ip : IP) : option string :=
  match list_find (fun e => Is_true (pool_contains e.2 ip)) order with
  | Some (_, (name, _)) => Some name
  | None => None
  end.

(** * The gRPC service *)

Inductive code := InvalidArgument | ResourceExhausted | AlreadyExists | NotFound.

Definition grpc_Allocate (m : Manager) (od : orders) (order : list (string * Pool))
    (poolName ty own res : string) (now : Z) : outcome (Manager * result code (string * string)) :=
  if negb (String.eqb poolName "") then
    '(m', r) ← mgr_Allocate m od poolName own res now;
    Val (m', match r with Err _ => Err ResourceExhausted | Ok ip => Ok (ip_string ip, poolName) end)
  else if negb (String.eqb ty "") then
    '(m', r) ← AllocateByType m od order ty own res now;
    Val (m', match r with Err _ => Err ResourceExhausted | Ok (ip, name) => Ok (ip_string ip, name) end)
  else Val (m, Err InvalidArgument).

Definition grpc_AllocateSpecific (m : Manager) (poolName ipStr own res : string) (now : Z)
    : outcome (Manager * result code unit) :=
  if String.eqb poolName "" then Val (m, Err InvalidArgument)
  else match ParseIP ipStr with
       | None => Val (m, Err InvalidArgument)
       | Some ip =>
           '(m', r) ← mgr_AllocateSpecific m poolName ip own res now;
           Val (m', match r with Err _ => Err AlreadyExists | Ok _ => Ok tt end)
       end.

Definition grpc_Release (m : Manager) (poolName ipStr : string) : outcome (Manager * result code unit) :=
  if String.eqb poolName "" then Val (m, Err InvalidArgument)
  else match ParseIP ipStr with
       | None => Val (m, Err InvalidArgument)
       | Some ip =>
           '(m', r) ← mgr_Release m poolName ip;
           Val (m', match r with Err _ => Err NotFound | Ok _ => Ok tt end)
       end.

(** The answer is (valid, available). *)
Definition grpc_Validate (m : Manager) (poolName ipStr : string) : outcome (result code (bool * bool)) :=
  if String.eqb poolName "" then Val (Err InvalidArgument)
  else match ParseIP ipStr with
       | None => Val (Ok (false, false))
       | Some ip =>
           r ← mgr_Validate m poolName ip;
           Val (match r with Err _ => Err NotFound | Ok b => Ok (true, b) end)
       end.

Definition to_int32 (x : Z) : Z := let y := x mod 2 ^ 32 in if y <? 2 ^ 31 then y else y - 2 ^ 32.

(** [IPAllocationInfo]: the timestamp is in seconds, [now] in nanoseconds. *)
Definition alloc_info (a : AllocationInfo) : string * string * string * Z :=
  (ip_string (info_ip a), Owner a, Resource a, Timestamp a / 1000000000).

(** [PoolInfo]: name, type, allocated, total, available. *)
Definition pool_info (s : PoolStatus) : string * string * Z * Z * Z :=
  (st_name s, st_type s, to_int32 (Allocated s), to_int32 (Total s), to_int32 (st_available s)).

Definition grpc_GetPool (m : Manager) (ro : rec_orders) (name : string)
    : result code (string * string * Z * Z * Z * list (string * string * string * Z)) :=
  match mgr_GetPool m ro name with
  | Err _ => Err NotFound
  | Ok s => Ok (pool_info s, alloc_info <$> Allocations s)
  end.

Definition opt_filter (s : string) : option string := if String.eqb s "" then None else Some s.

Definition grpc_ListIPPools (ro : rec_orders) (order : list (string * Pool)) (ty : string)
    : list (string * string * Z * Z * Z) :=
  pool_info <$> ListPools ro order (opt_filter ty).

Definition grpc_ListIPAllocations (ro : rec_orders) (order : list (string * Pool)) (pool own ty : string)
    : list (string * string * string * Z) :=
  alloc_info <$> ListAllocations ro order pool own (opt_filter ty).

(** * Reachable managers *)

Definition mgr_inv (m : Manager) : Prop := map_Forall (fun name p => pool_inv p /\ p_name p = name) m.

(** A configuration whose ranges and single addresses do not overlap. *)
Definition cfg_ok (cfg : PoolConfig) : Prop := forall p, NewPool cfg = Val (Ok p) -> no_overlap p.

(** Iteration orders of the maps of [m]. *)
Definition od_ok (m : Manager) (od : orders) : Prop :=
  forall n p, m !! n = Some p -> od n ≡ₚ map_to_list (discreteAddrs p).

Inductive reachable : Manager -> Prop :=
| reach_new : reachable NewManager
| reach_register m cfg m' r : reachable m -> cfg_ok cfg -> RegisterPool m cfg = Val (m', r) -> reachable m'
| reach_update m cfg m' r : reachable m -> cfg_ok cfg -> UpdatePool m cfg = Val (m', r) -> reachable m'
| reach_unregister m name : reachable m -> reachable (UnregisterPool m name)
| reach_allocate m od order name ty own res now m' r :
    reachable m -> od_ok m od -> order ≡ₚ map_to_list m ->
    grpc_Allocate m od order name ty own res now = Val (m', r) -> reachable m'
| reach_specific m name s own res now m' r :
    reachable m -> grpc_AllocateSpecific m name s own res now = Val (m', r) -> reachable m'
| reach_release m name s m' r : reachable m -> grpc_Release m name s = Val (m', r) -> reachable m'.

Lemma new_pool_entry cfg p : cfg_ok cfg -> NewPool cfg = Val (Ok p) -> pool_inv p /\ p_name p = cfg_name cfg.
Proof.
  intros Hc E. destruct (NewPool_spec cfg) as (r & Er & Hr). rewrite E in Er. injection Er as <-.
  destruct (Hr p eq_refl) as [_ Hp]. split; [by apply Hp, Hc|].
  unfold NewPool in E. destruct (parse_ranges _) as [[rs|e]| |]; cbn in E; try done.
  destruct (parse_addrs _ _); cbn in E; [|done]. by injection E as <-.
Qed.

Lemma UpdatePool_inv m cfg m' r : mgr_inv m -> cfg_ok cfg -> UpdatePool m cfg = Val (m', r) -> mgr_inv m'.
Proof.
  intros Hm Hc. unfold UpdatePool. destruct (NewPool cfg) as [[p|e]| |] eqn:E; cbn; intros H; simplify_eq; [|done].
  apply map_Forall_insert_2; [|done]. by apply new_pool_entry.
Qed.

Lemma RegisterPool_inv m cfg m' r : mgr_inv m -> cfg_ok cfg -> RegisterPool m cfg = Val (m', r) -> mgr_inv m'.
Proof.
  intros Hm Hc. unfold RegisterPool. destruct (m !! cfg_name cfg); [by intros [= <- <-]|].
  by apply UpdatePool_inv.
Qed.

Lemma mgr_inv_insert m name p p' :
  mgr_inv m -> m !! name = Some p -> pool_inv p' -> p_name p' = p_name p -> mgr_inv (<[name := p']> m).
Proof.
  intros Hm Hp Hp' Hn. apply map_Forall_insert_2; [|done]. split; [done|]. rewrite Hn. by apply Hm.
Qed.

(** The names of the pools never change. *)
Lemma Allocate_name p od own res now p' r : Allocate p od own res now = Val (p', r) -> p_name p' = p_name p /\ poolType p' = poolType p.
Proof.
  unfold Allocate. destruct (take_free (ranges p)) as [[[rs ip]|]| |]; cbn; try done; [by intros [= <- <-]|].
  destruct (list_find _ _) as [[? [? ?]]|]; by intros [= <- <-].
Qed.

Lemma AllocateSpecific_name p ip own res now p' r : AllocateSpecific p ip own res now = Val (p', r) -> p_name p' = p_name p.
Proof.
  unfold AllocateSpecific. destruct (discreteAddrs p !! _) as [[]|]; [by intros [= <- <-]..|].
  destruct (claim _ _) as [[]| |]; cbn; by intros [= <- <-] || done.
Qed.

Lemma Release_name p ip p' r : Release p ip = Val (p', r) -> p_name p' = p_name p.
Proof.
  unfold Release. destruct (allocations p !! _); [|by intros [= <- <-]].
  destruct (discreteAddrs p !! _); [by intros [= <- <-]|].
  destruct (give_back _ _); cbn; by intros [= <- <-] || done.
Qed.

(** The outcome of an allocation from a named pool. *)
Definition pool_granted (m m' : Manager) (name : string) (ip : IP) (own res : string) (now : Z) : Prop :=
  exists p p', m !! name = Some p /\ m' = <[name := p']> m /\ p_name p' = p_name p /\
    granted p p' ip (mkInfo ip own res now).

Definition exhausted (p : Pool) : Prop :=
  forall ip, wf_ip ip -> offers p ip -> is_Some (allocations p !! ip_string ip).

Lemma pool_allocate m od name p own res now :
  mgr_inv m -> od_ok m od -> m !! name = Some p ->
  (Allocate p (od name) own res now = Val (p, Err ErrNoFreeAddresses) /\ exhausted p) \/
  (exists p' ip, Allocate p (od name) own res now = Val (p', Ok ip) /\
     pool_granted m (<[name := p']> m) name ip own res now).
Proof.
  intros Hm Hod Hp. destruct (Hm name p Hp) as [Hi _].
  destruct (Allocate_sound p (od name) own res now Hi (Hod name p Hp)) as [[E H]|(p' & ip & E & H)]; [left|right].
  - split; [done|]. intros ip Hw Ho. apply (pi_taken _ Hi ip Hw). by apply H.
  - exists p', ip. split; [done|]. exists p, p'. split; [done|]. split; [done|]. split; [|done].
    by destruct (Allocate_name _ _ _ _ _ _ _ E).
Qed.

Lemma mgr_Allocate_spec m od name own res now :
  mgr_inv m -> od_ok m od ->
  (exists e, mgr_Allocate m od name own res now = Val (m, Err e) /\
     (e = ErrPoolNotFound /\ m !! name = None \/ e = ErrNoFreeAddresses /\ exists p, m !! name = Some p /\ exhausted p)) \/
  (exists m' ip, mgr_Allocate m od name own res now = Val (m', Ok ip) /\ pool_granted m m' name ip own res now).
Proof.
  intros Hm Hod. unfold mgr_Allocate, getPool. destruct (m !! name) as [p|] eqn:Ep.
  2:{ left. exists ErrPoolNotFound. auto. }
  destruct (pool_allocate m od name p own res now Hm Hod Ep) as [[-> H]|(p' & ip & -> & H)]; cbn [mbind outcome_bind].
  - left. exists ErrNoFreeAddresses. split; [|right; eauto]. by rewrite insert_id.
  - right. by eexists _, ip.
Qed.

Definition candidate (ty : string) (p : Pool) : Prop := poolType p = ty /\ autoAssign p = true.

(** The search by type: the first candidate with a free address, or every
    candidate is exhausted. *)
Lemma allocate_by_type_spec m od order ty own res now :
  mgr_inv m -> od_ok m od -> (forall k p, (k, p) ∈ order -> m !! k = Some p) ->
  (allocate_by_type m od order ty own res now = Val (m, Err ErrNoFreeAddresses) /\
     forall k p, (k, p) ∈ order -> candidate ty p -> exhausted p) \/
  (exists m' ip name p, allocate_by_type m od order ty own res now = Val (m', Ok (ip, name)) /\
     m !! name = Some p /\ candidate ty p /\ pool_granted m m' name ip own res now).
Proof.
  intros Hm Hod. induction order as [|[k p] r IH]; intros Hin; cbn [allocate_by_type].
  { left. split; [done|]. by intros k p ?%elem_of_nil. }
  assert (m !! k = Some p) as Hp by (apply Hin; by left).
  assert (forall k' p', (k', p') ∈ r -> m !! k' = Some p') as Hin' by (intros; apply Hin; by right).
  specialize (IH Hin'). destruct (negb _ || negb _) eqn:E.
  - destruct IH as [[-> H]|IH]; [left|by right]. split; [done|].
    intros k' p' [[= -> ->]|?]%elem_of_cons Hc; [|by eapply H].
    destruct Hc as [<- Hc]. by rewrite String.eqb_refl, Hc in E.
  - apply orb_false_iff in E as [E1%negb_false_iff%String.eqb_eq E2%negb_false_iff].
    destruct (pool_allocate m od k p own res now Hm Hod Hp) as [[-> Hex]|(p' & ip & -> & H)]; cbn [mbind outcome_bind].
    + rewrite insert_id by done. destruct IH as [[-> H]|IH]; [left|by right]. split; [done|].
      intros k' p2 [[= -> ->]|?]%elem_of_cons Hc; [done|by eapply H].
    + right. destruct (Hm k p Hp) as [_ Hn]. rewrite Hn. by eexists _, ip, k, p.
Qed.

Lemma pool_granted_inv m m' name ip own res now : mgr_inv m -> pool_granted m m' name ip own res now -> mgr_inv m'.
Proof.
  intros Hm (p & p' & Hp & -> & Hn & (Hi & _)). by eapply mgr_inv_insert.
Qed.

Lemma grpc_Allocate_spec m od order name ty own res now :
  mgr_inv m -> od_ok m od -> order ≡ₚ map_to_list m ->
  (exists c, grpc_Allocate m od order name ty own res now = Val (m, Err c)) \/
  (exists m' ip name', grpc_Allocate m od order name ty own res now = Val (m', Ok (ip_string ip, name')) /\
     pool_granted m m' name' ip own res now).
Proof.
  intros Hm Hod Ho. unfold grpc_Allocate. destruct (negb (String.eqb name "")).
  { destruct (mgr_Allocate_spec m od name own res now Hm Hod) as [(e & -> & _)|(m' & ip & -> & H)]; cbn [mbind outcome_bind].
    - left. by eexists.
    - right. by eexists _, ip, name. }
  destruct (negb (String.eqb ty "")); [|left; by eexists]. unfold AllocateByType.
  destruct (allocate_by_type_spec m od order ty own res now Hm Hod) as [[-> _]|(m' & ip & n & p & -> & _ & _ & H)].
  { intros k p Hk. rewrite Ho in Hk. by apply elem_of_map_to_list in Hk. }
  - left. by eexists.
  - right. by eexists _, ip, n.
Qed.

Lemma parsed_wf s ip : ParseIP s = Some ip -> wf_ip ip.
Proof. intros [Hl Hb]%ParseIP_wf. by split; [right|]. Qed.

Lemma grpc_AllocateSpecific_inv m name s own res now m' r :
  mgr_inv m -> grpc_AllocateSpecific m name s own res now = Val (m', r) -> mgr_inv m'.
Proof.
  intros Hm. unfold grpc_AllocateSpecific, mgr_AllocateSpecific, getPool.
  destruct (String.eqb name ""); [by intros [= <- <-]|].
  destruct (ParseIP s) as [ip|] eqn:Es; [|by intros [= <- <-]]. apply parsed_wf in Es.
  destruct (m !! name) as [p|] eqn:Ep; [|by intros [= <- <-]]. destruct (Hm name p Ep) as [Hi _].
  destruct (AllocateSpecific p ip own res now) as [[p' x]| |] eqn:E; cbn; [|done..]. intros [= <- _].
  eapply mgr_inv_insert; [done..| |by eapply AllocateSpecific_name].
  destruct (AllocateSpecific_sound p ip own res now Hi (proj2 Es)) as [(p2 & E2 & H)|[[E2 _]|[E2 _]]];
    rewrite E in E2; injection E2 as -> ->; [apply H|done..].
Qed.

Lemma grpc_Release_inv m name s m' r : mgr_inv m -> grpc_Release m name s = Val (m', r) -> mgr_inv m'.
Proof.
  intros Hm. unfold grpc_Release, mgr_Release, getPool. destruct (String.eqb name ""); [by intros [= <- <-]|].
  destruct (ParseIP s) as [ip|] eqn:Es; [|by intros [= <- <-]]. apply parsed_wf in Es.
  destruct (m !! name) as [p|] eqn:Ep; [|by intros [= <- <-]]. destruct (Hm name p Ep) as [Hi _].
  destruct (Release p ip) as [[p' x]| |] eqn:E; cbn; [|done..]. intros [= <- _].
  eapply mgr_inv_insert; [done..| |by eapply Release_name].
  destruct (Release_sound p ip Hi Es) as [[E2 _]|(p2 & E2 & _ & H)];
    rewrite E in E2; injection E2 as -> ->; [done|apply H].
Qed.

Lemma reachable_inv m : reachable m -> mgr_inv m.
Proof.
  induction 1.
  - apply map_Forall_empty.
  - by eapply RegisterPool_inv.
  - by eapply UpdatePool_inv.
  - by apply map_Forall_delete.
  - destruct (grpc_Allocate_spec m od order name ty own res now) as [(c & E)|(m2 & ip & n & E & Hg)]; [done..| |];
      match goal with H : _ = Val (m', r) |- _ => rewrite E in H; injection H as <- _ end; [done|].
    by eapply pool_granted_inv.
  - by eapply grpc_AllocateSpecific_inv.
  - by eapply grpc_Release_inv.
Qed.

(** * Properties *)

(** The manager of the witnesses: one pool of four addresses. *)
Definition sample_cfg : PoolConfig := mkConfig "lb" "LoadBalancerVIP" ["10.0.0.0/30"] [] true "ops".

Definition sample_pool (w : Z) (allocs : gmap string AllocationInfo) : Pool :=
  mkPool "lb" "LoadBalancerVIP" true "ops"
    [mkRange (mkIPNet [10; 0; 0; 0] [255; 255; 255; 252]) [10; 0; 0; 0] 4 (mkBitmap [w] 4) 30 4] ∅ allocs.

Definition sample : Manager := {["lb" := sample_pool 0 ∅]}.

Lemma sample_no_overlap w allocs : no_overlap (sample_pool w allocs).
Proof.
  split.
  - intros [|i] [|j] cr cr' x Hne H1 H2 _ _; cbn in *; by rewrite ?lookup_nil in *.
  - intros ip _ Hs. cbn in Hs. rewrite lookup_empty in Hs. by destruct Hs.
Qed.

Lemma sample_reachable : reachable sample.
Proof.
  apply (reach_register NewManager sample_cfg sample (Ok tt)); [constructor| |vm_compute; reflexivity].
  intros p E. vm_compute in E. injection E as <-. apply (sample_no_overlap 0 ∅).
Qed.

Definition answered {A B} (x : outcome (Manager * result B A)) : bool :=
  match x with Val (_, r) => is_ok r | _ => false end.

Lemma sample_od : od_ok sample (fun _ => []).
Proof.
  intros n p Hp. unfold sample in Hp. apply lookup_singleton_Some in Hp as [<- <-]. cbn. by rewrite map_to_list_empty.
Qed.

(** An allocation request never panics.  For a named pool it answers
    ResourceExhausted when the pool is unknown or every address it offers has a
    record, and otherwise returns an offered address that had no record and
    records the new owner; nothing else changes. *)
Theorem grpc_allocate_outcomes m od order name ty own res now :
  reachable m -> od_ok m od -> name <> "" ->
  (grpc_Allocate m od order name ty own res now = Val (m, Err ResourceExhausted) /\
     (m !! name = None \/ exists p, m !! name = Some p /\ exhausted p)) \/
  (exists p p' ip, m !! name = Some p /\
     grpc_Allocate m od order name ty own res now = Val (<[name := p']> m, Ok (ip_string ip, name)) /\
     wf_ip ip /\ offers p ip /\ allocations p !! ip_string ip = None /\
     allocations p' = <[ip_string ip := mkInfo ip own res now]> (allocations p)).
Proof.
  intros Hr Hod Hne. pose proof (reachable_inv m Hr) as Hm. unfold grpc_Allocate.
  destruct (String.eqb_spec name ""); [done|]. cbn [negb].
  destruct (mgr_Allocate_spec m od name own res now Hm Hod) as [(e & -> & He)|(m' & ip & -> & p & p' & Hp & -> & _ & Hg)];
    cbn [mbind outcome_bind]; [left|right].
  - split; [done|]. destruct He as [[_ ?]|[_ ?]]; auto.
  - destruct Hg as (_ & Hw & Ho & Hn & Ha & _). exists p, p', ip. split; [done|]. split; [done|]. split; [done|].
    split; [done|]. split; [|done]. apply eq_None_not_Some. by rewrite (pi_taken _ (proj1 (Hm name p Hp)) ip Hw).
Qed.

Lemma grpc_allocate_outcomes_witness :
  exists p' ip, grpc_Allocate sample (fun _ => []) [] "lb" "" "svc" "r" 7 =
    Val (<["lb" := p']> sample, Ok (ip_string ip, "lb")) /\ wf_ip ip.
Proof.
  destruct (grpc_allocate_outcomes sample (fun _ => []) [] "lb" "" "svc" "r" 7 sample_reachable sample_od)
    as [[E _]|(p & p' & ip & _ & E & Hw & _)]; [done| |].
  - apply (f_equal answered) in E. vm_compute in E. discriminate E.
  - exists p', ip. split; [exact E|exact Hw].
Defined.

(** An allocation by type takes its address from a pool of that type that assigns
    automatically, and fails only when every such pool is exhausted, whatever
    the order in which the pools are visited. *)
Theorem grpc_allocate_by_type m od order ty own res now :
  reachable m -> od_ok m od -> order ≡ₚ map_to_list m -> ty <> "" ->
  (grpc_Allocate m od order "" ty own res now = Val (m, Err ResourceExhausted) /\
     forall name p, m !! name = Some p -> poolType p = ty -> autoAssign p = true -> exhausted p) \/
  (exists m' ip name p, grpc_Allocate m od order "" ty own res now = Val (m', Ok (ip_string ip, name)) /\
     m !! name = Some p /\ poolType p = ty /\ autoAssign p = true /\
     pool_granted m m' name ip own res now).
Proof.
  intros Hr Hod Ho Hne. pose proof (reachable_inv m Hr) as Hm. unfold grpc_Allocate, AllocateByType.
  destruct (String.eqb_spec ty ""); [done|]. cbn [negb String.eqb].
  assert (forall k p, (k, p) ∈ order <-> m !! k = Some p) as Hin.
  { intros k p. by rewrite Ho, elem_of_map_to_list. }
  destruct (allocate_by_type_spec m od order ty own res now Hm Hod) as [[-> H]|(m' & ip & k & p & -> & Hp & [Hty Ha] & H)];
    [by intros; apply Hin| |]; cbn [mbind outcome_bind]; [left|right].
  - split; [done|]. intros k p Hp Hty Ha. apply (H k p); [by apply Hin|done].
  - by exists m', ip, k, p.
Qed.

Lemma grpc_allocate_by_type_witness :
  exists m' ip name, grpc_Allocate sample (fun _ => []) [("lb", sample_pool 0 ∅)] "" "LoadBalancerVIP" "svc" "r" 7 =
    Val (m', Ok (ip_string ip, name)) /\ pool_granted sample m' name ip "svc" "r" 7.
Proof.
  destruct (grpc_allocate_by_type sample (fun _ => []) [("lb", sample_pool 0 ∅)] "LoadBalancerVIP" "svc" "r" 7
              sample_reachable sample_od) as [[E _]|(m' & ip & name & p & E & _ & _ & _ & H)].
  - unfold sample. by rewrite map_to_list_singleton.
  - done.
  - apply (f_equal answered) in E. vm_compute in E. discriminate E.
  - exists m', ip, name. split; [exact E|exact H].
Defined.

(** The life of an address at the gRPC interface: after an allocation the pool
    reports the returned address as valid and not available, a release of it
    succeeds, and afterwards it is available again. *)
Theorem grpc_allocate_release_roundtrip m od order name ty own res now m' s pool :
  reachable m -> od_ok m od -> order ≡ₚ map_to_list m ->
  grpc_Allocate m od order name ty own res now = Val (m', Ok (s, pool)) -> pool <> "" ->
  grpc_Validate m' pool s = Val (Ok (true, false)) /\
  exists m'', grpc_Release m' pool s = Val (m'', Ok tt) /\ grpc_Validate m'' pool s = Val (Ok (true, true)).
Proof.
  intros Hr Hod Ho E Hne. pose proof (reachable_inv m Hr) as Hm.
  destruct (grpc_Allocate_spec m od order name ty own res now Hm Hod Ho) as [(c & E')|(m2 & ip & n & E' & Hg)];
    rewrite E in E'; [done|]. injection E' as <- -> ->. rename n into pool.
  pose proof (pool_granted_inv _ _ _ _ _ _ _ Hm Hg) as Hm'.
  destruct Hg as (p & p' & Hp & -> & _ & (Hi' & Hw & Hof & _ & Ha & Hof')).
  destruct (ParseIP_canonical ip Hw) as (ip' & Hs & Hw' & _ & Hs').
  unfold grpc_Validate, grpc_Release, mgr_Validate, mgr_Release, getPool.
  destruct (String.eqb_spec pool ""); [done|]. rewrite Hs, lookup_insert_eq.
  assert (offers p' ip') as Hoff.
  { apply Hof' in Hof; [|done]. unfold offers in *. rewrite Hs'. by apply string_addr in Hs' as ->. }
  split.
  - destruct (IsAvailable_spec p' ip' Hi' Hw') as (b & -> & Hb). cbn [mbind outcome_bind].
    destruct b; [|done]. destruct (proj1 Hb eq_refl) as [_ Hn]. by rewrite Hs', Ha, lookup_insert_eq in Hn.
  - destruct (Release_sound p' ip' Hi' Hw') as [[_ Hn]|(p2 & -> & _ & (Hi2 & Ha2 & Hof2))].
    { by rewrite Hs', Ha, lookup_insert_eq in Hn. }
    cbn [mbind outcome_bind]. eexists. split; [done|]. rewrite lookup_insert_eq.
    destruct (IsAvailable_spec p2 ip' Hi2 Hw') as (b & -> & Hb). cbn [mbind outcome_bind].
    assert (b = true) as ->; [|done]. apply Hb. split; [by apply Hof2|]. by rewrite Ha2, lookup_delete_eq.
Qed.

Lemma grpc_allocate_release_roundtrip_witness :
  exists m', grpc_Allocate sample (fun _ => []) [("lb", sample_pool 0 ∅)] "lb" "" "svc" "r" 7 =
      Val (m', Ok ("10.0.0.0", "lb")) /\
    grpc_Validate m' "lb" "10.0.0.0" = Val (Ok (true, false)).
Proof.
  eexists. split; [vm_compute; reflexivity|].
  apply (grpc_allocate_release_roundtrip sample (fun _ => []) [("lb", sample_pool 0 ∅)] "lb" "" "svc" "r" 7);
    [exact sample_reachable|exact sample_od| |vm_compute; reflexivity|done].
  unfold sample. by rewrite map_to_list_singleton.
Defined.

(** [UpdatePool] replaces the pool and forgets its allocations: after an update
    with an unchanged configuration the address already in use is handed out
    again, and the first owner's release request is refused once the second
    owner has released it. *)
Theorem update_pool_forgets_allocations :
  exists m1 m2 m3 m4,
    grpc_Allocate sample (fun _ => []) [] "lb" "" "svc-a" "r" 1 = Val (m1, Ok ("10.0.0.0", "lb")) /\
    UpdatePool m1 sample_cfg = Val (m2, Ok tt) /\
    grpc_Allocate m2 (fun _ => []) [] "lb" "" "svc-b" "r" 2 = Val (m3, Ok ("10.0.0.0", "lb")) /\
    grpc_Release m3 "lb" "10.0.0.0" = Val (m4, Ok tt) /\
    grpc_Release m4 "lb" "10.0.0.0" = Val (m4, Err NotFound).
Proof.
  eexists _, _, _, _. split; [vm_compute; reflexivity|]. split; [vm_compute; reflexivity|].
  split; [vm_compute; reflexivity|]. split; [vm_compute; reflexivity|]. vm_compute; reflexivity.
Qed.

(** A pool is not checked for overlap: when a single address also lies in a CIDR
    of the pool it is handed out twice, and releasing it once leaves the bit of
    the range set, so the address is never offered by the range again. *)
Theorem overlapping_address_allocated_twice :
  let cfg := mkConfig "lb" "Custom" ["10.0.0.0/31"] ["10.0.0.0"] true "ops" in
  let od := fun _ : string => [("10.0.0.0", false)] in
  exists m0 m1 m2 m3 m4,
    RegisterPool NewManager cfg = Val (m0, Ok tt) /\
    grpc_Allocate m0 od [] "lb" "" "svc-a" "r" 1 = Val (m1, Ok ("10.0.0.0", "lb")) /\
    grpc_AllocateSpecific m1 "lb" "10.0.0.0" "svc-b" "r" 2 = Val (m2, Ok tt) /\
    grpc_Release m2 "lb" "10.0.0.0" = Val (m3, Ok tt) /\
    grpc_Allocate m3 od [] "lb" "" "svc-c" "r" 3 = Val (m4, Ok ("10.0.0.1", "lb")).
Proof.
  eexists _, _, _, _, _. split; [vm_compute; reflexivity|]. split; [vm_compute; reflexivity|].
  split; [vm_compute; reflexivity|]. split; [vm_compute; reflexivity|]. vm_compute; reflexivity.
Qed.
