(* ===== verification/LbIpam.v ===== *)
(** The load-balancer address allocator, internal/lbipam/allocator.go: named
    pools, each a CIDR with a bitmap of the allocated offsets and a map from the
    printed address to the service that owns it.  In every reachable state the
    bitmap and the owner map of each pool describe the same addresses, an
    allocation returns an address nobody owns in its pool, and a release is the
    inverse of an allocation. *)

From Stdlib Require Import ZArith Lia Ascii String.
From stdpp Require Import base tactics list gmap strings fin_maps.
From S2P Require Import Prelude GoStrings GoNet GoCidr Bitmap IpamIndex.

(** * Definitions *)

Inductive lbipam_error :=
| ErrNoPoolSpace | ErrPoolNotFound | ErrPoolExists | ErrInvalidCIDR | ErrPoolExhausted.

Record Pool := mkPool {
  Name : string;
  CIDR : IPNet;
  used : gmap string string;
  bm : lbBitmap;
  pool_size : Z;
  baseIP : IP;
}.

(** [Allocator]: its pools in order of registration. *)
Definition Allocator := list Pool.

Definition NewAllocator : Allocator := [].

Definition cloneIP (ip : IP) : IP := ip.

Definition poolSize (cidr : IPNet) : Z :=
  let '(ones, bits) := mask_size (net_mask cidr) in
  let hostBits := bits - ones in
  if (hostBits <? 0) || (63 <? hostBits) then 0 else shl64 1 hostBits.

(** [binary.BigEndian.Uint64] of 8 bytes and [PutUint64]. *)
Definition be64 (b : list Z) : Z := ip_val b.
Definition put_be64 (v : Z) : list Z :=
  (fun k => Z.shiftr v (8 * k) mod 256) <$> [7; 6; 5; 4; 3; 2; 1; 0].

Definition addToIP (base : IP) (offset : Z) : IP :=
  match To16 (cloneIP base) with
  | None => []
  | Some ip =>
      let val := wrap64 (be64 (drop 8 ip) + offset) in
      let result := take 8 ip ++ put_be64 val in
      match To4 base with
      | Some _ => default [] (To4 result)
      | None => result
      end
  end.

Definition ipToOffset (base ip : IP) : Z :=
  match To16 base, To16 ip with
  | Some b, Some i =>
      let baseVal := be64 (drop 8 b) in
      let ipVal := be64 (drop 8 i) in
      if ipVal <? baseVal then -1 else to_int64 (ipVal - baseVal)
  | _, _ => -1
  end.

Definition AddPool (a : Allocator) (name cidr : string) : outcome (Allocator * result lbipam_error unit) :=
  if existsb (fun p => String.eqb (Name p) name) a then Val (a, Err ErrPoolExists)
  else match ParseCIDR cidr with
       | None => Val (a, Err ErrInvalidCIDR)
       | Some (_, ipNet) =>
           let sizeInt := to_int64 (poolSize ipNet) in
           b ← newLBBitmap sizeInt;
           Val (a ++ [mkPool name ipNet ∅ b sizeInt (cloneIP (net_ip ipNet))], Ok tt)
       end.

(** Removes the first pool of that name. *)
Fixpoint RemovePool (a : Allocator) (name : string) : Allocator :=
  match a with
  | [] => []
  | p :: r => if String.eqb (Name p) name then r else p :: RemovePool r name
  end.

Definition allocateFromPoolLocked (p : Pool) (serviceKey : string) : outcome (Pool * result lbipam_error IP) :=
  let idx := findFree (bm p) in
  if idx <? 0 then Val (p, Err ErrPoolExhausted)
  else
    let candidate := addToIP (baseIP p) (wrap64 idx) in
    let key := ip_string candidate in
    b ← set (bm p) idx;
    Val (mkPool (Name p) (CIDR p) (<[key := serviceKey]> (used p)) b (pool_size p) (baseIP p), Ok candidate).

Fixpoint Allocate (a : Allocator) (serviceKey : string) : outcome (Allocator * result lbipam_error IP) :=
  match a with
  | [] => Val ([], Err ErrNoPoolSpace)
  | p :: r =>
      '(p', res) ← allocateFromPoolLocked p serviceKey;
      match res with
      | Ok ip => Val (p' :: r, Ok ip)
      | Err ErrPoolExhausted =>
          '(r', res') ← Allocate r serviceKey;
          Val (p' :: r', res')
      | Err e => Val (p' :: r, Err e)
      end
  end.

Fixpoint AllocateFromPool (a : Allocator) (poolName serviceKey : string)
    : outcome (Allocator * result lbipam_error IP) :=
  match a with
  | [] => Val ([], Err ErrPoolNotFound)
  | p :: r =>
      if String.eqb (Name p) poolName then
        '(p', res) ← allocateFromPoolLocked p serviceKey;
        Val (p' :: r, res)
      else
        '(r', res) ← AllocateFromPool r poolName serviceKey;
        Val (p :: r', res)
  end.

Fixpoint Release (a : Allocator) (ip : IP) : outcome (Allocator * bool) :=
  match a with
  | [] => Val ([], false)
  | p :: r =>
      let key := ip_string ip in
      match used p !! key with
      | Some _ =>
          let offset := ipToOffset (baseIP p) ip in
          b ← (if (0 <=? offset) && (offset <? pool_size p) then clear (bm p) offset else Val (bm p));
          Val (mkPool (Name p) (CIDR p) (delete key (used p)) b (pool_size p) (baseIP p) :: r, true)
      | None =>
          '(r', ok) ← Release r ip;
          Val (p :: r', ok)
      end
  end.

Fixpoint GetServiceForIP (a : Allocator) (ip : IP) : option string :=
  match a with
  | [] => None
  | p :: r => match used p !! ip_string ip with Some svc => Some svc | None => GetServiceForIP r ip end
  end.

(** Later pools overwrite earlier ones. *)
Definition ListAllocations (a : Allocator) : gmap string string :=
  foldl (fun m p => used p ∪ m) ∅ a.

(** * Address arithmetic *)

Lemma put_be64_spec v : is_u64 v -> length (put_be64 v) = 8%nat /\ Forall is_byte (put_be64 v) /\ be64 (put_be64 v) = v.
Proof.
  intros Hv. split; [done|]. split.
  - unfold put_be64. apply Forall_fmap, Forall_true. intros k. cbn. apply Z.mod_pos_bound. lia.
  - unfold put_be64, be64, ip_val. cbn [fmap list_fmap].
    rewrite !Z.shiftr_div_pow2 by lia. unfold of_digits. cbn [foldl].
    unfold is_u64 in Hv. cbn [Z.mul Pos.mul Z.pow Z.pow_pos Pos.iter].
    replace (2 ^ 0) with 1 by done. Z.to_euclidean_division_equations. lia.
Qed.

(** The low half of an address. *)
Lemma To16_some ip : wf_ip ip -> exists b, To16 ip = Some b /\ length b = 16%nat /\ Forall is_byte b /\ ip_val b = addr16 ip.
Proof.
  intros Hw. unfold addr16. destruct Hw as [[Hl|Hl] Hb].
  - rewrite To16_len4 by done. eexists. split; [done|]. split; [by rewrite length_app, Hl|].
    split; [|done]. apply Forall_app. auto using v4InV6Prefix_bytes.
  - rewrite To16_len16 by done. by exists ip.
Qed.

Lemma halves b :
  length b = 16%nat -> Forall is_byte b ->
  is_u64 (be64 (drop 8 b)) /\ ip_val b = ip_val (take 8 b) * 2 ^ 64 + be64 (drop 8 b).
Proof.
  intros Hl Hb. assert (length (drop 8 b) = 8%nat) as Hd by (rewrite length_drop; lia). split.
  - pose proof (ip_val_range (drop 8 b)) as H. rewrite Hd in H. apply H. by apply Forall_drop.
  - rewrite <- (take_drop 8 b) at 1. unfold be64, ip_val. rewrite of_digits_app, Hd. done.
Qed.

Section Net.
Context (n : IPNet) (ones bits : Z).
Hypothesis Hc : cidr_ok n ones bits.
Hypothesis Hh : bits - ones <= 63.

(** Within the network the addition does not carry out of the low half. *)
Lemma low_half_room b i :
  To16 (net_ip n) = Some b -> 0 <= i < 2 ^ (bits - ones) -> is_u64 (be64 (drop 8 b) + i).
Proof.
  intros E Hi. destruct (To16_some _ (cidr_wf _ _ _ Hc)) as (b' & E' & Hl & Hb & Hv).
  rewrite E in E'. injection E' as <-. destruct (halves b Hl Hb) as [Hlo Hsplit].
  destruct (cidr_addr_aligned _ _ _ Hc) as [q Hq]. rewrite Hsplit, Hq in Hv.
  pose proof (cidr_ones _ _ _ Hc) as Ho.
  assert (2 ^ 64 = 2 ^ (64 - (bits - ones)) * 2 ^ (bits - ones)) as E64
    by (rewrite <- Z.pow_add_r by lia; f_equal; lia).
  set (H := 2 ^ (bits - ones)) in *. set (K := 2 ^ (64 - (bits - ones))) in *.
  assert (be64 (drop 8 b) = (q - ip_val (take 8 b) * K) * H) as Hm
    by (rewrite Z.mul_sub_distr_r, <- Z.mul_assoc, <- E64; lia).
  unfold is_u64 in *. rewrite Hm in *. rewrite E64 in *. assert (q - ip_val (take 8 b) * K + 1 <= K) by nia. nia.
Qed.

(** A v4-mapped network has at most 32 host bits. *)
Lemma mapped_host_bits p4 : To4 (net_ip n) = Some p4 -> bits - ones <= 32.
Proof.
  intros E. destruct (Z.le_gt_cases (bits - ones) 32) as [|Hgt]; [done|exfalso].
  pose proof (To4_Some_block _ _ (cidr_wf _ _ _ Hc) E) as Hb.
  destruct (cidr_addr_aligned _ _ _ Hc) as [q Hq]. rewrite Hq in Hb.
  assert (2 ^ (bits - ones) = (2 * 2 ^ (bits - ones - 33)) * 2 ^ 32) as E'.
  { rewrite <- Z.mul_assoc, (Z.mul_comm _ (2 ^ 32)), Z.mul_assoc. change (2 * 2 ^ 32) with (2 ^ 33).
    rewrite <- Z.pow_add_r by lia. f_equal. lia. }
  rewrite E', Z.mul_assoc, Z.div_mul in Hb by lia. lia.
Qed.

Lemma addToIP_spec i :
  0 <= i < 2 ^ (bits - ones) ->
  wf_ip (addToIP (net_ip n) i) /\ addr16 (addToIP (net_ip n) i) = addr16 (net_ip n) + i.
Proof.
  intros Hi. unfold addToIP, cloneIP. pose proof (cidr_wf _ _ _ Hc) as Hw.
  destruct (To16_some _ Hw) as (b & E & Hl & Hb & Hv). rewrite E.
  pose proof (low_half_room b i E Hi) as Hr. destruct (halves b Hl Hb) as [Hlo Hsplit].
  unfold wrap64. rewrite Z.mod_small by done.
  destruct (put_be64_spec _ Hr) as (Pl & Pb & Pv). set (r := take 8 b ++ _).
  assert (length r = 16%nat) as Hlr by (unfold r; rewrite length_app, length_take, Pl; lia).
  assert (Forall is_byte r) as Hbr by (unfold r; rewrite Forall_app; split; [by apply Forall_take|done]).
  assert (wf_ip r) as Hwr by (by split; [right|]).
  assert (addr16 r = addr16 (net_ip n) + i) as Har.
  { rewrite addr16_16 by done. destruct (halves r Hlr Hbr) as [_ ->]. unfold r.
    rewrite take_app_length', drop_app_length' by (rewrite length_take; lia). rewrite Pv, <- Hv, Hsplit. lia. }
  destruct (To4 (net_ip n)) as [p4|] eqn:E4; [|done].
  pose proof (mapped_host_bits p4 E4) as H32. destruct (To4 r) as [r4|] eqn:Er; cbn [default].
  - destruct (To4_spec r r4 Hwr Er) as (H1 & H2 & _). split; [by split; [left|]|].
    rewrite <- Har, (addr16_To4 r r4), addr16_4; done.
  - exfalso. apply (To4_None_block r Hwr Er). rewrite Har.
    rewrite <- (To4_Some_block _ _ Hw E4). apply (div_block _ _ (bits - ones)).
    { pose proof (cidr_ones _ _ _ Hc). lia. }
    destruct (cidr_addr_aligned _ _ _ Hc) as [q ->]. rewrite Z.div_add_l, Z.div_mul, Z.div_small by lia. lia.
Qed.

(** [ipToOffset] undoes it. *)
Lemma ipToOffset_spec ip i :
  wf_ip ip -> 0 <= i < 2 ^ (bits - ones) -> addr16 ip = addr16 (net_ip n) + i ->
  ipToOffset (net_ip n) ip = i.
Proof.
  intros Hw Hi Ha. unfold ipToOffset. destruct (To16_some _ (cidr_wf _ _ _ Hc)) as (b & E & Hl & Hb & Hv).
  destruct (To16_some _ Hw) as (c & Ec & Hlc & Hbc & Hvc). rewrite E, Ec.
  pose proof (low_half_room b i E Hi) as Hr. destruct (halves b Hl Hb) as [Hlo Hs].
  destruct (halves c Hlc Hbc) as [Hloc Hsc].
  assert (be64 (drop 8 c) = be64 (drop 8 b) + i) as ->.
  { unfold is_u64 in *. assert (ip_val (take 8 c) = ip_val (take 8 b)) by nia. lia. }
  destruct (_ <? _) eqn:El; to_prop; [lia|]. rewrite Z.add_simpl_l. apply to_int64_small.
  assert (2 ^ (bits - ones) <= 2 ^ 63) by (apply Z.pow_le_mono_r; lia). lia.
Qed.
End Net.

(** * The pool invariant *)

(** The printed address at offset [i]. *)
Definition key (p : Pool) (i : Z) : string := ip_string (addToIP (baseIP p) i).

Record pool_inv (p : Pool) : Prop := {
  pi_net : exists ones bits, cidr_ok (CIDR p) ones bits /\
    (bits - ones <= 63 /\ pool_size p = 2 ^ (bits - ones) \/ 63 < bits - ones /\ pool_size p = 0);
  pi_base : baseIP p = net_ip (CIDR p);
  pi_wf : fl_wf (bm p);
  pi_size : fl_size (bm p) = pool_size p;
  pi_keys : dom (used p) = set_map (key p) (fl_view (bm p));
}.

(** The addresses of the pool: its [i]-th address for an index in range. *)
Lemma pool_addr p i :
  pool_inv p -> 0 <= i < pool_size p ->
  wf_ip (addToIP (baseIP p) i) /\ addr16 (addToIP (baseIP p) i) = addr16 (baseIP p) + i /\
  (forall ip, wf_ip ip -> addr16 ip = addr16 (baseIP p) + i -> ipToOffset (baseIP p) ip = i).
Proof.
  intros [(ones & bits & Hc & Hsz) Hb _ _ _] Hi. rewrite Hb.
  destruct Hsz as [[Hh Hsz]|[_ Hsz]]; [|lia]. rewrite Hsz in Hi.
  destruct (addToIP_spec _ _ _ Hc Hh i Hi) as [H1 H2]. split; [done|]. split; [done|].
  intros ip Hw Ha. by apply (ipToOffset_spec _ _ _ Hc Hh).
Qed.

Lemma key_addr p i ip :
  pool_inv p -> 0 <= i < pool_size p -> wf_ip ip ->
  ip_string ip = key p i <-> addr16 ip = addr16 (baseIP p) + i.
Proof.
  intros Hp Hi Hw. destruct (pool_addr p i Hp Hi) as (H1 & H2 & _). unfold key.
  by rewrite ip_string_addr16, H2.
Qed.

Lemma key_inj p i j : pool_inv p -> 0 <= i < pool_size p -> 0 <= j < pool_size p -> key p i = key p j -> i = j.
Proof.
  intros Hp Hi Hj H. destruct (pool_addr p i Hp Hi) as (H1 & H2 & _).
  apply (key_addr p j _ Hp Hj H1) in H. lia.
Qed.

Lemma view_range p i : pool_inv p -> i ∈ fl_view (bm p) -> 0 <= i < pool_size p.
Proof. intros Hp H%fl_view_range. by rewrite (pi_size _ Hp) in H. Qed.

(** An address is owned in the pool iff its offset is marked. *)
Lemma owned_marked p ip :
  pool_inv p -> wf_ip ip ->
  is_Some (used p !! ip_string ip) <-> addr16 ip - addr16 (baseIP p) ∈ fl_view (bm p).
Proof.
  intros Hp Hw. rewrite <- elem_of_dom, (pi_keys _ Hp), elem_of_map. split.
  - intros (i & E & Hi). pose proof (view_range p i Hp Hi) as Hr. apply (key_addr p i ip Hp Hr Hw) in E.
    by replace (addr16 ip - addr16 (baseIP p)) with i by lia.
  - intros Hi. eexists. split; [|exact Hi]. apply key_addr; [done|by apply view_range|done|lia].
Qed.

Lemma set_map_key_remove p i :
  pool_inv p -> i ∈ fl_view (bm p) ->
  set_map (key p) (fl_view (bm p)) ∖ {[key p i]} =@{gset string} set_map (key p) (fl_view (bm p) ∖ {[i]}).
Proof.
  intros Hp Hi. apply set_eq. intros k. rewrite elem_of_difference, elem_of_singleton, !elem_of_map.
  setoid_rewrite elem_of_difference. setoid_rewrite elem_of_singleton. split.
  - intros [(j & -> & Hj) Hne]. exists j. split; [done|]. split; [done|]. by intros ->.
  - intros (j & -> & Hj & Hne). split; [by exists j|]. intros E. apply Hne.
    by eapply key_inj; [| | |exact E]; [done|by apply view_range..].
Qed.

(** * The operations on a pool *)

Definition same_net (p p' : Pool) : Prop :=
  Name p' = Name p /\ CIDR p' = CIDR p /\ baseIP p' = baseIP p /\ pool_size p' = pool_size p.

Definition full (p : Pool) : Prop := forall i, 0 <= i < pool_size p -> i ∈ fl_view (bm p).

(** The answer of one pool: exhausted exactly when full, otherwise its lowest
    free address, which the service then owns. *)
Lemma allocate_pool p svc :
  pool_inv p ->
  (full p /\ allocateFromPoolLocked p svc = Val (p, Err ErrPoolExhausted)) \/
  (exists p' ip, allocateFromPoolLocked p svc = Val (p', Ok ip) /\ pool_inv p' /\ same_net p p' /\
     wf_ip ip /\ addr16 (baseIP p) <= addr16 ip < addr16 (baseIP p) + pool_size p /\
     used p !! ip_string ip = None /\ used p' = <[ip_string ip := svc]> (used p) /\
     (forall i, 0 <= i < addr16 ip - addr16 (baseIP p) -> i ∈ fl_view (bm p))).
Proof.
  intros Hp. unfold allocateFromPoolLocked. pose proof (fl_find_spec (bm p) (pi_wf _ Hp)) as Hf.
  change (fl_find (bm p)) with (findFree (bm p)) in Hf. rewrite (pi_size _ Hp) in Hf.
  destruct Hf as [[E Hall]|(Hr & Hn & Hlow)]; [left; by rewrite E|right].
  destruct (_ <? 0) eqn:E; to_prop; [lia|]. set (i := findFree (bm p)) in *.
  assert (pool_size p <= 2 ^ 63) as H63.
  { destruct (pi_net _ Hp) as (ones & bits & Hc & [[Hh ->]|[_ ->]]); [|lia].
    apply Z.pow_le_mono_r; lia. }
  assert (wrap64 i = i) as -> by (apply Z.mod_small; lia).
  destruct (pool_addr p i Hp Hr) as (Hw & Ha & _).
  pose proof (fl_mark_spec (bm p) i (pi_wf _ Hp)) as Hm. rewrite (pi_size _ Hp) in Hm.
  destruct (Hm Hr) as (b' & Es & Hw' & Hs' & Hv'). change (fl_mark (bm p) i) with (set (bm p) i) in Es.
  rewrite Es. cbn [mbind outcome_bind]. eexists _, _. split; [done|].
  assert (used p !! ip_string (addToIP (baseIP p) i) = None) as Hfree.
  { apply eq_None_not_Some. rewrite (owned_marked p _ Hp Hw), Ha, Z.add_simpl_l. done. }
  split.
  { split; cbn [CIDR pool_size baseIP bm used]; [apply (pi_net _ Hp)|apply (pi_base _ Hp)|done| |].
    - exact Hs'.
    - rewrite dom_insert_L, (pi_keys _ Hp), Hv', set_map_union_L, set_map_singleton_L. done. }
  split; [done|]. split; [done|]. split; [lia|]. split; [done|]. split; [done|].
  intros j Hj. apply Hlow. lia.
Qed.

(** Releasing an owned address clears its offset and its owner. *)
Definition release_pool (p : Pool) (ip : IP) : outcome Pool :=
  let offset := ipToOffset (baseIP p) ip in
  b ← (if (0 <=? offset) && (offset <? pool_size p) then clear (bm p) offset else Val (bm p));
  Val (mkPool (Name p) (CIDR p) (delete (ip_string ip) (used p)) b (pool_size p) (baseIP p)).

Lemma release_pool_spec p ip :
  pool_inv p -> wf_ip ip -> is_Some (used p !! ip_string ip) ->
  exists p', release_pool p ip = Val p' /\ pool_inv p' /\ same_net p p' /\
    used p' = delete (ip_string ip) (used p).
Proof.
  intros Hp Hw Ho. pose proof Ho as Hi. rewrite (owned_marked p ip Hp Hw) in Hi.
  set (i := addr16 ip - addr16 (baseIP p)) in *. pose proof (view_range p i Hp Hi) as Hr.
  destruct (pool_addr p i Hp Hr) as (_ & _ & Hoff). unfold release_pool.
  rewrite (Hoff ip Hw) by lia. destruct (_ && _) eqn:E; to_prop; [|lia].
  pose proof (fl_unmark_spec (bm p) i (pi_wf _ Hp)) as Hm. rewrite (pi_size _ Hp) in Hm.
  destruct (Hm Hr) as (b' & Es & Hw' & Hs' & Hv'). change (fl_unmark (bm p) i) with (clear (bm p) i) in Es.
  rewrite Es. cbn [mbind outcome_bind]. eexists. split; [done|].
  split; [|done]. split; cbn [CIDR pool_size baseIP bm used]; [apply (pi_net _ Hp)|apply (pi_base _ Hp)|done| |].
  - exact Hs'.
  - assert (ip_string ip = key p i) as -> by (apply key_addr; [done..|lia]).
    rewrite dom_delete_L, (pi_keys _ Hp), Hv', set_map_key_remove by done. done.
Qed.

Lemma Release_cons p r ip :
  Release (p :: r) ip =
    match used p !! ip_string ip with
    | Some _ => p' ← release_pool p ip; Val (p' :: r, true)
    | None => '(r', ok) ← Release r ip; Val (p :: r', ok)
    end.
Proof. cbn [Release]. destruct (used p !! _); [|done]. unfold release_pool. destruct (_ && _); [destruct (clear _ _)|]; done. Qed.

(** * Reachable allocators *)

Inductive reachable : Allocator -> Prop :=
| reach_new : reachable NewAllocator
| reach_add a name cidr a' r : reachable a -> AddPool a name cidr = Val (a', r) -> reachable a'
| reach_remove a name : reachable a -> reachable (RemovePool a name)
| reach_allocate a svc a' r : reachable a -> Allocate a svc = Val (a', r) -> reachable a'
| reach_allocate_from a name svc a' r :
    reachable a -> AllocateFromPool a name svc = Val (a', r) -> reachable a'
| reach_release a ip a' ok : reachable a -> wf_ip ip -> Release a ip = Val (a', ok) -> reachable a'.

Definition alloc_inv (a : Allocator) : Prop := Forall pool_inv a /\ NoDup (Name <$> a).

(** What a successful allocation does to the pools: one pool changes, the ones
    the search passed over are full, and the address is the lowest free one. *)
Definition allocated_in (a a' : Allocator) (svc : string) (ip : IP) (passed : Pool -> Prop) : Prop :=
  exists pre p p' post, a = pre ++ p :: post /\ a' = pre ++ p' :: post /\ Forall passed pre /\
    pool_inv p' /\ same_net p p' /\ wf_ip ip /\
    addr16 (baseIP p) <= addr16 ip < addr16 (baseIP p) + pool_size p /\
    used p !! ip_string ip = None /\ used p' = <[ip_string ip := svc]> (used p) /\
    (forall i, 0 <= i < addr16 ip - addr16 (baseIP p) -> i ∈ fl_view (bm p)).

Lemma allocated_in_cons (passed : Pool -> Prop) p a a' svc ip :
  passed p -> allocated_in a a' svc ip passed -> allocated_in (p :: a) (p :: a') svc ip passed.
Proof.
  intros Hp (pre & q & q' & post & -> & -> & Hpre & H). exists (p :: pre), q, q', post.
  split; [done|]. split; [done|]. split; [by constructor|done].
Qed.

Lemma Allocate_pools a svc :
  Forall pool_inv a ->
  (Forall full a /\ Allocate a svc = Val (a, Err ErrNoPoolSpace)) \/
  (exists a' ip, Allocate a svc = Val (a', Ok ip) /\ allocated_in a a' svc ip full).
Proof.
  induction 1 as [|p r Hp Hr IH]; [by left|]. cbn [Allocate].
  destruct (allocate_pool p svc Hp) as [[Hf ->]|(p' & ip & -> & H)]; cbn [mbind outcome_bind].
  - destruct IH as [[Hfr ->]|(a' & ip & -> & Ha)]; cbn [mbind outcome_bind].
    + left. split; [by constructor|done].
    + right. exists (p :: a'), ip. split; [done|]. by apply allocated_in_cons.
  - right. exists (p' :: r), ip. split; [done|]. by exists [], p, p', r.
Qed.

Lemma AllocateFromPool_pools a name svc :
  Forall pool_inv a ->
  (exists a' ip, AllocateFromPool a name svc = Val (a', Ok ip) /\
     allocated_in a a' svc ip (fun p => Name p <> name)) \/
  (exists e, AllocateFromPool a name svc = Val (a, Err e) /\
     (e = ErrPoolNotFound /\ Forall (fun p => Name p <> name) a \/
      e = ErrPoolExhausted /\ Exists (fun p => Name p = name /\ full p) a)).
Proof.
  induction 1 as [|p r Hp Hr IH]; [right; exists ErrPoolNotFound; auto|]. cbn [AllocateFromPool].
  destruct (String.eqb_spec (Name p) name) as [Hn|Hn].
  - destruct (allocate_pool p svc Hp) as [[Hf ->]|(p' & ip & -> & H)]; cbn [mbind outcome_bind].
    + right. exists ErrPoolExhausted. split; [done|]. right. split; [done|]. by left.
    + left. exists (p' :: r), ip. split; [done|]. by exists [], p, p', r.
  - destruct IH as [(a' & ip & -> & Ha)|(e & -> & He)]; cbn [mbind outcome_bind].
    + left. exists (p :: a'), ip. split; [done|]. by apply allocated_in_cons.
    + right. exists e. split; [done|]. destruct He as [[-> H]|[-> H]]; [left|right]; auto.
Qed.

Lemma Release_pools a ip :
  Forall pool_inv a -> wf_ip ip ->
  (Release a ip = Val (a, false) /\ Forall (fun p => used p !! ip_string ip = None) a) \/
  (exists pre p p' post, a = pre ++ p :: post /\ Release a ip = Val (pre ++ p' :: post, true) /\
     Forall (fun q => used q !! ip_string ip = None) pre /\ is_Some (used p !! ip_string ip) /\
     pool_inv p' /\ same_net p p' /\ used p' = delete (ip_string ip) (used p)).
Proof.
  intros Ha Hw. induction Ha as [|p r Hp Hr IH]; [by left|]. rewrite Release_cons.
  destruct (used p !! ip_string ip) as [svc|] eqn:E.
  - destruct (release_pool_spec p ip Hp Hw) as (p' & -> & H); [by rewrite E|]. cbn [mbind outcome_bind].
    right. exists [], p, p', r. split; [done|]. split; [done|]. split; [done|]. split; [by rewrite E|done].
  - destruct IH as [[-> Hn]|(pre & q & q' & post & -> & -> & Hpre & H)]; cbn [mbind outcome_bind].
    + left. split; [done|]. by constructor.
    + right. exists (p :: pre), q, q', post. split; [done|]. split; [done|]. split; [by constructor|done].
Qed.

Lemma alloc_inv_replace pre p p' post :
  alloc_inv (pre ++ p :: post) -> pool_inv p' -> same_net p p' -> alloc_inv (pre ++ p' :: post).
Proof.
  intros [H1 H2] Hp' (Hn & _). apply Forall_app in H1 as [Ha Hb]. apply Forall_cons in Hb as [_ Hb].
  split; [apply Forall_app; split; [done|by constructor]|].
  rewrite fmap_app, fmap_cons in *. by rewrite Hn.
Qed.

Lemma allocated_in_inv a a' svc ip passed : alloc_inv a -> allocated_in a a' svc ip passed -> alloc_inv a'.
Proof.
  intros Ha (pre & p & p' & post & -> & -> & _ & Hp' & Hs & _). by eapply alloc_inv_replace.
Qed.

Lemma poolSize_value n ones bits :
  cidr_ok n ones bits -> poolSize n = if bits - ones <=? 63 then 2 ^ (bits - ones) else 0.
Proof.
  intros Hc. pose proof (cidr_ones _ _ _ Hc) as Ho. unfold poolSize. rewrite (cidr_mask_size _ _ _ Hc).
  destruct (bits - ones <=? 63) eqn:E; to_prop.
  - destruct (_ || _) eqn:E'; to_prop; [lia|]. apply shl64_1. lia.
  - destruct (_ || _) eqn:E'; to_prop; [done|lia].
Qed.

Lemma newLBBitmap_neg sz : - 2 ^ 63 <= sz < - 126 -> newLBBitmap sz = Panic.
Proof.
  intros Hs. unfold newLBBitmap.
  assert (to_int64 (sz + 63) = sz + 63) as ->.
  { unfold to_int64. rewrite <- (Z.mod_add _ 1), Z.mod_small by lia.
    destruct (_ <? _) eqn:E; to_prop; lia. }
  assert (Z.quot (sz + 63) 64 < 0).
  { replace (sz + 63) with (- (- (sz + 63))) by lia. rewrite Z.quot_opp_l, Z.quot_div_nonneg by lia.
    assert (1 <= - (sz + 63) / 64) by (apply Z.div_le_lower_bound; lia). lia. }
  unfold go_make. destruct (_ || _) eqn:E; to_prop; [done|lia].
Qed.

Lemma new_pool_inv name n ones bits b :
  cidr_ok n ones bits -> newLBBitmap (to_int64 (poolSize n)) = Val b ->
  pool_inv (mkPool name n ∅ b (to_int64 (poolSize n)) (cloneIP (net_ip n))).
Proof.
  intros Hc Hb. pose proof (cidr_ones _ _ _ Hc) as Ho. rewrite (poolSize_value _ _ _ Hc) in *.
  assert (bits - ones <= 63 -> bits - ones <= 62) as H62.
  { intros H. destruct (decide (bits - ones = 63)) as [E|]; [|lia]. exfalso.
    rewrite E in Hb. change (to_int64 (if 63 <=? 63 then 2 ^ 63 else 0)) with (- 2 ^ 63) in Hb.
    rewrite newLBBitmap_neg in Hb by lia. done. }
  assert (0 <= to_int64 (if bits - ones <=? 63 then 2 ^ (bits - ones) else 0) < 2 ^ 63 - 63) as Hr.
  { destruct (bits - ones <=? 63) eqn:E; to_prop; [|done].
    assert (2 ^ (bits - ones) <= 2 ^ 62) by (apply Z.pow_le_mono_r; lia).
    rewrite to_int64_small by lia. lia. }
  destruct (newLBBitmap_val _ b Hr Hb) as (H1 & H2 & H3).
  split; cbn [CIDR pool_size baseIP bm used]; try done.
  - exists ones, bits. split; [done|]. destruct (bits - ones <=? 63) eqn:E; to_prop; [left|right; by split].
    split; [done|]. apply to_int64_small.
    assert (2 ^ (bits - ones) <= 2 ^ 62) by (apply Z.pow_le_mono_r; lia). lia.
  - by rewrite H3, dom_empty_L, set_map_empty.
Qed.

Lemma existsb_name a name : existsb (fun p => String.eqb (Name p) name) a = false -> name ∉ Name <$> a.
Proof.
  intros H Hin. apply list_elem_of_fmap in Hin as (p & -> & Hp). apply not_true_iff_false in H. apply H.
  apply existsb_exists. exists p. split; [by apply list_elem_of_In|]. apply String.eqb_refl.
Qed.

Lemma RemovePool_subseteq a name p : p ∈ RemovePool a name -> p ∈ a.
Proof.
  induction a as [|q r IH]; cbn [RemovePool]; [done|]. destruct (String.eqb _ _); [by right|].
  intros [->|?]%elem_of_cons; [left|right; auto].
Qed.

Lemma RemovePool_inv a name : alloc_inv a -> alloc_inv (RemovePool a name).
Proof.
  intros [H1 H2]. split.
  - rewrite Forall_forall in *. intros p Hp. apply H1. by eapply RemovePool_subseteq.
  - clear H1. induction a as [|q r IH]; cbn [RemovePool]; [done|]. rewrite fmap_cons in H2.
    apply NoDup_cons in H2 as [Hn H2]. destruct (String.eqb _ _); [done|]. rewrite fmap_cons.
    apply NoDup_cons. split; [|by apply IH]. intros (p & E & Hp)%list_elem_of_fmap. apply Hn.
    apply list_elem_of_fmap. exists p. split; [done|]. by eapply RemovePool_subseteq.
Qed.

Lemma AddPool_inv a name cidr a' r : alloc_inv a -> AddPool a name cidr = Val (a', r) -> alloc_inv a'.
Proof.
  intros Ha. unfold AddPool. destruct (existsb _ a) eqn:Ee; [by intros [= <- <-]|].
  destruct (ParseCIDR cidr) as [[ip n]|] eqn:Ep; [|by intros [= <- <-]].
  destruct (ParseCIDR_ok _ _ _ Ep) as (_ & ones & bits & Hc & _).
  destruct (newLBBitmap _) as [b| |] eqn:Eb; [|done..]. cbn [mbind outcome_bind]. intros [= <- <-].
  destruct Ha as [H1 H2]. split.
  - apply Forall_app. split; [done|]. apply Forall_singleton. by eapply new_pool_inv.
  - rewrite fmap_app. apply NoDup_app. split; [done|]. split; [|apply NoDup_singleton].
    intros x Hx Hx'. apply list_elem_of_singleton in Hx' as ->. by apply existsb_name in Ee.
Qed.

Lemma lb_reachable_inv a : reachable a -> alloc_inv a.
Proof.
  induction 1 as [|a name cidr a' r _ IH E|a name _ IH|a svc a' r _ IH E|a name svc a' r _ IH E|a ip a' ok _ IH Hw E].
  - split; [done|]. by apply NoDup_nil.
  - by eapply AddPool_inv.
  - by apply RemovePool_inv.
  - destruct (Allocate_pools a svc (proj1 IH)) as [[_ E']|(a2 & ip & E' & H)]; rewrite E in E'; injection E' as -> ->.
    + done.
    + by eapply allocated_in_inv.
  - destruct (AllocateFromPool_pools a name svc (proj1 IH)) as [(a2 & ip & E' & H)|(e & E' & _)];
      rewrite E in E'; injection E' as -> ->.
    + by eapply allocated_in_inv.
    + done.
  - destruct (Release_pools a ip (proj1 IH) Hw) as [[E' _]|(pre & p & p' & post & -> & E' & _ & _ & Hp' & Hs & _)];
      rewrite E in E'; injection E' as -> ->; [done|]. by eapply alloc_inv_replace.
Qed.

(** The first element of a list that fails a test is unique. *)
Lemma first_match_unique {A} (P : A -> Prop) l1 l2 x y k1 k2 :
  l2 ++ y :: k2 = l1 ++ x :: k1 -> Forall P l1 -> Forall P l2 -> ~ P x -> ~ P y ->
  l1 = l2 /\ x = y /\ k1 = k2.
Proof.
  intros E H1. revert l2 E. induction H1 as [|a l1 Ha H1 IH]; intros [|b l2] E H2 Hx Hy; cbn in E; simplify_eq.
  - done.
  - by apply Forall_cons in H2 as [? _].
  - done.
  - apply Forall_cons in H2 as [_ H2]. destruct (IH l2) as (-> & -> & ->); done.
Qed.

(** * Owners *)

Definition in_pool (p : Pool) (x : Z) : Prop := addr16 (baseIP p) <= x < addr16 (baseIP p) + pool_size p.

(** No two pools of the allocator share an address. *)
Definition disjoint_pools (a : Allocator) : Prop :=
  forall i j p q x, i <> j -> a !! i = Some p -> a !! j = Some q -> in_pool p x -> in_pool q x -> False.

Lemma owned_in_pool p ip : pool_inv p -> wf_ip ip -> is_Some (used p !! ip_string ip) -> in_pool p (addr16 ip).
Proof.
  intros Hp Hw H. rewrite (owned_marked p ip Hp Hw) in H. apply (view_range p _ Hp) in H.
  unfold in_pool. lia.
Qed.

Lemma disjoint_others pre p post ip :
  Forall pool_inv (pre ++ p :: post) -> disjoint_pools (pre ++ p :: post) -> wf_ip ip -> in_pool p (addr16 ip) ->
  Forall (fun q => used q !! ip_string ip = None) pre /\ Forall (fun q => used q !! ip_string ip = None) post.
Proof.
  intros Hi Hd Hw Hp. rewrite Forall_forall in Hi.
  assert (forall k q, (pre ++ p :: post) !! k = Some q -> k <> length pre -> used q !! ip_string ip = None) as Hq.
  { intros k q Hk Hne. apply eq_None_not_Some. intros Ho.
    eapply (Hd (length pre) k p q (addr16 ip)); [done|by apply list_lookup_middle|done|done|].
    apply owned_in_pool; [|done|done]. apply Hi. by eapply list_elem_of_lookup_2. }
  split; apply Forall_forall; intros q (k & Hk)%list_elem_of_lookup_1.
  - apply (Hq k); [by apply lookup_app_l_Some|]. apply lookup_lt_Some in Hk. lia.
  - apply (Hq (length pre + S k)%nat); [|lia].
    rewrite lookup_app_r by lia. by replace (length pre + S k - length pre)%nat with (S k) by lia.
Qed.

Lemma GetServiceForIP_middle pre p post ip :
  Forall (fun q => used q !! ip_string ip = None) pre ->
  GetServiceForIP (pre ++ p :: post) ip =
    match used p !! ip_string ip with Some svc => Some svc | None => GetServiceForIP post ip end.
Proof. induction 1 as [|q r Hq _ IH]; [done|]. cbn [GetServiceForIP app]. by rewrite Hq. Qed.

Lemma GetServiceForIP_none a ip :
  Forall (fun q => used q !! ip_string ip = None) a -> GetServiceForIP a ip = None.
Proof. induction 1 as [|q r Hq _ IH]; [done|]. cbn [GetServiceForIP]. by rewrite Hq. Qed.

(** Changing the owner of one address in one pool does not show at another. *)
Lemma GetServiceForIP_other pre p p' post ip :
  used p' !! ip_string ip = used p !! ip_string ip ->
  GetServiceForIP (pre ++ p' :: post) ip = GetServiceForIP (pre ++ p :: post) ip.
Proof. intros H. induction pre as [|q r IH]; cbn [GetServiceForIP app]; [by rewrite H|by rewrite IH]. Qed.

Lemma disjoint_replace pre p p' post :
  disjoint_pools (pre ++ p :: post) -> same_net p p' -> disjoint_pools (pre ++ p' :: post).
Proof.
  intros Hd (_ & _ & Hb & Hs) i j q1 q2 x Hne H1 H2 Hx1 Hx2.
  assert (forall k q, (pre ++ p' :: post) !! k = Some q -> in_pool q x ->
    exists q', (pre ++ p :: post) !! k = Some q' /\ in_pool q' x) as Hl.
  { intros k q Hk Hx. destruct (decide (k = length pre)) as [->|Hk'].
    - rewrite list_lookup_middle in Hk by done. injection Hk as <-. exists p.
      split; [by apply list_lookup_middle|]. unfold in_pool in *. by rewrite Hb, Hs in Hx.
    - exists q. split; [|done]. rewrite lookup_app in *. destruct (pre !! k) eqn:E; [done|].
      apply lookup_ge_None in E. destruct (k - length pre)%nat eqn:Ek; [lia|done]. }
  destruct (Hl i q1 H1 Hx1) as (q1' & H1' & Hx1'), (Hl j q2 H2 Hx2) as (q2' & H2' & Hx2').
  by eapply (Hd i j).
Qed.

(** * Properties *)

(** The allocator of the witnesses: one IPv4 pool of two addresses. *)
Definition sample : Allocator :=
  [mkPool "lan" (mkIPNet [192; 168; 1; 4] [255; 255; 255; 254]) ∅ (mkLbBitmap [0] 2) 2 [192; 168; 1; 4]].

Lemma lb_sample_reachable : reachable sample.
Proof.
  apply (reach_add NewAllocator "lan" "192.168.1.4/31" sample (Ok tt)); [constructor|vm_compute; reflexivity].
Qed.

Lemma sample_disjoint : disjoint_pools sample.
Proof. intros [|i] [|j] p q x Hne H1 H2 _ _; cbn in *; by rewrite ?lookup_nil in *. Qed.

Definition sample_after : Allocator :=
  [mkPool "lan" (mkIPNet [192; 168; 1; 4] [255; 255; 255; 254]) {["192.168.1.4" := "web/front"]}
     (mkLbBitmap [1] 2) 2 [192; 168; 1; 4]].

(** A load-balancer allocation always returns: it takes the lowest free address
    of the first pool that has one, passing over full pools only, and it fails
    exactly when every address of every pool is owned. *)
Theorem lb_allocate_first_free a svc :
  reachable a ->
  (Forall full a /\ Allocate a svc = Val (a, Err ErrNoPoolSpace)) \/
  (exists a' ip, Allocate a svc = Val (a', Ok ip) /\ allocated_in a a' svc ip full).
Proof. intros [H _]%lb_reachable_inv. by apply Allocate_pools. Qed.

Lemma lb_allocate_first_free_witness :
  reachable sample /\ exists a' ip, Allocate sample "web/front" = Val (a', Ok ip).
Proof.
  split; [exact lb_sample_reachable|].
  destruct (lb_allocate_first_free sample "web/front" lb_sample_reachable) as [[_ E]|(a' & ip & E & _)].
  - vm_compute in E. discriminate E.
  - exists a', ip. exact E.
Defined.

(** With pools that do not overlap, the allocated address had no owner, the
    service owns it afterwards, and no other address changes its owner. *)
Theorem lb_allocate_owner a svc a' ip :
  reachable a -> disjoint_pools a -> Allocate a svc = Val (a', Ok ip) ->
  GetServiceForIP a ip = None /\
  forall ip', wf_ip ip' ->
    GetServiceForIP a' ip' = if decide (addr16 ip' = addr16 ip) then Some svc else GetServiceForIP a ip'.
Proof.
  intros Hr Hd E. destruct (lb_reachable_inv _ Hr) as [Hi _].
  destruct (Allocate_pools a svc Hi) as [[_ E']|(a2 & ip2 & E' & Ha)]; rewrite E in E'; [done|].
  injection E' as <- <-. destruct Ha as (pre & p & p' & post & -> & -> & _ & _ & Hs & Hw & Hrange & Hfree & Hu & _).
  destruct (disjoint_others pre p post ip Hi Hd Hw Hrange) as [Hpre Hpost]. split.
  - rewrite GetServiceForIP_middle, Hfree by done. by apply GetServiceForIP_none.
  - intros ip' Hw'. destruct (decide _) as [Heq|Hne].
    + apply ip_string_addr16 in Heq; [|done..]. rewrite GetServiceForIP_middle by (by rewrite Heq).
      by rewrite Heq, Hu, lookup_insert_eq.
    + apply GetServiceForIP_other. rewrite Hu, lookup_insert_ne; [done|].
      intros Heq. apply Hne. by apply ip_string_addr16.
Qed.

Lemma lb_allocate_owner_witness :
  GetServiceForIP sample [192; 168; 1; 4] = None /\
  GetServiceForIP sample_after [192; 168; 1; 4] = Some "web/front".
Proof.
  destruct (lb_allocate_owner sample "web/front" sample_after [192; 168; 1; 4] lb_sample_reachable sample_disjoint)
    as [H1 H2]; [vm_compute; reflexivity|].
  split; [exact H1|]. rewrite H2; [|by split; [left|repeat constructor]]. by rewrite decide_True.
Defined.

(** Releasing an address just allocated reports success and restores every
    owner. *)
Theorem lb_release_inverts_allocate a svc a' ip :
  reachable a -> disjoint_pools a -> Allocate a svc = Val (a', Ok ip) ->
  exists a'', Release a' ip = Val (a'', true) /\
    forall ip', wf_ip ip' -> GetServiceForIP a'' ip' = GetServiceForIP a ip'.
Proof.
  intros Hr Hd E. destruct (lb_reachable_inv _ Hr) as [Hi Hnd].
  destruct (Allocate_pools a svc Hi) as [[_ E']|(a2 & ip2 & E' & Ha)]; rewrite E in E'; [done|].
  injection E' as <- <-. destruct Ha as (pre & p & p' & post & -> & -> & _ & Hp' & Hs & Hw & Hrange & Hfree & Hu & _).
  destruct (disjoint_others pre p post ip Hi Hd Hw Hrange) as [Hpre Hpost].
  destruct (alloc_inv_replace pre p p' post (conj Hi Hnd) Hp' Hs) as [Hi' _].
  destruct (Release_pools _ ip Hi' Hw) as [[_ Hn]|(pre2 & q & q' & post2 & Eq & -> & Hpre2 & Ho & _ & _ & Hu')].
  { apply Forall_app in Hn as [_ Hn]. apply Forall_cons in Hn as [Hn _]. by rewrite Hu, lookup_insert_eq in Hn. }
  eexists. split; [done|].
  destruct (first_match_unique (fun q => used q !! ip_string ip = None) pre2 pre q p' post2 post)
    as (-> & -> & ->); [done..| |by rewrite Hu, lookup_insert_eq|].
  { intros E0. rewrite E0 in Ho. by destruct Ho. }
  intros ip' Hw'. apply GetServiceForIP_other. rewrite Hu', Hu.
  destruct (decide (ip_string ip' = ip_string ip)) as [->|Hne].
  - by rewrite lookup_delete_eq, Hfree.
  - by rewrite lookup_delete_ne, lookup_insert_ne by done.
Qed.

Lemma lb_release_inverts_allocate_witness :
  exists a'', Release sample_after [192; 168; 1; 4] = Val (a'', true) /\
    GetServiceForIP a'' [192; 168; 1; 4] = None.
Proof.
  destruct (lb_release_inverts_allocate sample "web/front" sample_after [192; 168; 1; 4] lb_sample_reachable
              sample_disjoint) as (a'' & E & H); [vm_compute; reflexivity|].
  exists a''. split; [exact E|]. rewrite H; [reflexivity|]. by split; [left|repeat constructor].
Defined.

Lemma go_make_large n : 2 ^ 48 < n * 8 -> go_make 0 8 n = Panic.
Proof. intros H. unfold go_make. destruct (_ || _) eqn:E; to_prop; [done|lia]. Qed.

(** The sizes [AddPool] supports.  A pool of at most 50 host bits has all of
    its addresses free; one of 52 to 63 host bits makes the bitmap allocation
    panic (the size of a 63-bit pool even turns negative when it is converted to
    [int]); one of 64 host bits or more, such as an IPv6 /64, is accepted but has
    no address to allocate. *)
Theorem AddPool_sizes a name cidr ip n ones bits :
  existsb (fun p => String.eqb (Name p) name) a = false ->
  ParseCIDR cidr = Some (ip, n) -> mask_size (net_mask n) = (ones, bits) ->
  (bits - ones <= 50 -> exists p, AddPool a name cidr = Val (a ++ [p], Ok tt) /\ pool_inv p /\
     pool_size p = 2 ^ (bits - ones) /\ fl_view (bm p) = ∅) /\
  (52 <= bits - ones <= 63 -> AddPool a name cidr = Panic) /\
  (64 <= bits - ones -> exists p, AddPool a name cidr = Val (a ++ [p], Ok tt) /\
     forall svc, allocateFromPoolLocked p svc = Val (p, Err ErrPoolExhausted)).
Proof.
  intros He Hp Hm. destruct (ParseCIDR_ok _ _ _ Hp) as (_ & ones' & bits' & Hc & Hm').
  rewrite Hm in Hm'. injection Hm' as <- <-. pose proof (cidr_ones _ _ _ Hc) as Ho.
  unfold AddPool. rewrite He, Hp. pose proof (poolSize_value _ _ _ Hc) as Hs. split_and!; intros Hh.
  - assert (2 ^ (bits - ones) <= 2 ^ 50) by (apply Z.pow_le_mono_r; lia).
    destruct (bits - ones <=? 63) eqn:E; to_prop; [|lia].
    assert (to_int64 (poolSize n) = 2 ^ (bits - ones)) as Ht by (rewrite Hs; apply to_int64_small; lia).
    destruct (newLBBitmap_fresh (2 ^ (bits - ones)) ltac:(lia)) as (b & Eb & _ & _ & Hv).
    rewrite <- Ht in Eb. rewrite Eb. cbn [mbind outcome_bind]. eexists. split; [done|].
    split; [by eapply new_pool_inv|]. done.
  - destruct (bits - ones <=? 63) eqn:E; to_prop; [|lia]. rewrite Hs.
    destruct (decide (bits - ones = 63)) as [->|].
    + change (to_int64 (2 ^ 63)) with (- 2 ^ 63). by rewrite newLBBitmap_neg by lia.
    + assert (2 ^ 52 <= 2 ^ (bits - ones) <= 2 ^ 62) by (split; apply Z.pow_le_mono_r; lia).
      rewrite to_int64_small by lia. unfold newLBBitmap.
      rewrite to_int64_small, Z.quot_div_nonneg, go_make_large by
        (lia || (assert (2 ^ 46 <= (2 ^ (bits - ones) + 63) / 64) by (apply Z.div_le_lower_bound; lia); lia)).
      done.
  - destruct (bits - ones <=? 63) eqn:E; to_prop; [lia|]. rewrite Hs. by eexists.
Qed.

Lemma AddPool_sizes_witness :
  AddPool [] "v6" "2001:db8::/65" = Panic /\
  exists p, AddPool [] "v6" "2001:db8::/64" = Val ([p], Ok tt) /\
    forall svc, allocateFromPoolLocked p svc = Val (p, Err ErrPoolExhausted).
Proof.
  split.
  - destruct (AddPool_sizes [] "v6" "2001:db8::/65" _ _ 65 128 eq_refl eq_refl eq_refl) as (_ & H & _).
    apply H. lia.
  - destruct (AddPool_sizes [] "v6" "2001:db8::/64" _ _ 64 128 eq_refl eq_refl eq_refl) as (_ & _ & H).
    apply H. lia.
Defined.

(** Pools are not checked for overlap: with two pools that share an address, both
    hand it out, and the second service's ownership is not visible. *)
Theorem lb_overlap_double_allocation :
  exists a1 a2 a3 a4 r1 r2,
    AddPool NewAllocator "a" "10.0.0.0/30" = Val (a1, Ok tt) /\
    AddPool a1 "b" "10.0.0.0/31" = Val (a2, Ok tt) /\
    AllocateFromPool a2 "a" "ns/one" = Val (a3, Ok r1) /\
    AllocateFromPool a3 "b" "ns/two" = Val (a4, Ok r2) /\
    r1 = r2 /\ GetServiceForIP a4 r2 = Some "ns/one".
Proof.
  eexists _, _, _, _, _, _.
  split; [vm_compute; reflexivity|]. split; [vm_compute; reflexivity|]. split; [vm_compute; reflexivity|].
  split; [vm_compute; reflexivity|]. split; reflexivity.
Qed.
