(* ===== verification/Identity.v ===== *)
(** The identity allocator, internal/identity/allocator.go: label sets are mapped
    to 64-bit identities by an FNV-1a hash with linear probing, and counted.  In
    every reachable state the two lookup tables are inverse to each other and
    each identity is counted as often as it was handed out and not removed; the
    probing loop ends.  The identities that reach the dataplane are truncated to
    32 bits, for which uniqueness does not hold. *)

From Stdlib Require Import ZArith Lia Ascii String.
From stdpp Require Import base tactics list gmap strings fin_maps sorting.
From S2P Require Import Prelude GoStrings.

(** * Definitions *)

Abbreviation labels := (gmap string string).

(** [canonicalLabels] for the keys in the order [range] yields them. *)
Definition canonical_from (lbls : labels) (keys : list string) : string :=
  join "," ((fun k => k +:+ "=" +:+ default "" (lbls !! k)) <$> merge_sort String.le keys).

Definition canonicalLabels (lbls : labels) : string := canonical_from lbls (map_to_list lbls).*1.

Definition hashCanonical (canonical : string) : Z := fnv64a canonical.

Definition HashLabels (lbls : labels) : Z := hashCanonical (canonicalLabels lbls).

(** [Allocator], without its mutex and logger. *)
Record Allocator := mkAllocator {
  idToLabels : gmap Z labels;
  refCount : gmap Z Z;
  labelsToID : gmap string Z;
}.

Definition NewAllocator : Allocator := mkAllocator ∅ ∅ ∅.

(** The probing loop of [AllocateIdentity]. *)
Fixpoint probe (fuel : nat) (m : gmap Z labels) (canonical : string) (id : Z) : outcome Z :=
  match fuel with
  | O => Diverge
  | S f =>
      match m !! id with
      | None => Val id
      | Some stored =>
          if negb (String.eqb (canonicalLabels stored) canonical) then probe f m canonical (wrap64 (id + 1))
          else Val id
      end
  end.

(** [m[id]++] on a map of counters. *)
Definition incr (m : gmap Z Z) (id : Z) : gmap Z Z := <[id := default 0 (m !! id) + 1]> m.

Definition AllocateIdentity (fuel : nat) (a : Allocator) (lbls : labels) : outcome (Allocator * Z) :=
  let canonical := canonicalLabels lbls in
  match labelsToID a !! canonical with
  | Some existingID => Val (mkAllocator (idToLabels a) (incr (refCount a) existingID) (labelsToID a), existingID)
  | None =>
      id ← probe fuel (idToLabels a) canonical (hashCanonical canonical);
      let '(i2l, l2i) :=
        match idToLabels a !! id with
        | None => (<[id := lbls]> (idToLabels a), <[canonical := id]> (labelsToID a))
        | Some _ => (idToLabels a, labelsToID a)
        end in
      Val (mkAllocator i2l (incr (refCount a) id) l2i, id)
  end.

Definition GetLabels (a : Allocator) (id : Z) : option labels := idToLabels a !! id.

Definition GetIdentity (a : Allocator) (lbls : labels) : option Z := labelsToID a !! canonicalLabels lbls.

Definition RemoveIdentity (a : Allocator) (id : Z) : Allocator :=
  match refCount a !! id with
  | Some count =>
      if count <=? 1 then
        let l2i := match idToLabels a !! id with
                   | Some lbls => delete (canonicalLabels lbls) (labelsToID a)
                   | None => labelsToID a
                   end in
        mkAllocator (delete id (idToLabels a)) (delete id (refCount a)) l2i
      else mkAllocator (idToLabels a) (<[id := count - 1]> (refCount a)) (labelsToID a)
  | None => a
  end.

(** [Entry] and [ListAll]; [order] is the iteration order of [idToLabels]. *)
Record Entry := mkEntry { ID : Z; Labels : labels; RefCount : Z }.

Definition ListAll (a : Allocator) (order : list (Z * labels)) : list Entry :=
  (fun e => mkEntry e.1 e.2 (default 0 (refCount a !! e.1))) <$> order.

(** [FindMatchingIdentities]; the selector's [Matches] is a parameter. *)
Definition FindMatchingIdentities (matches : labels -> bool) (order : list (Z * labels)) : list Z :=
  (filter (fun e => Is_true (matches e.2)) order).*1.

Definition Count (a : Allocator) : Z := Z.of_nat (size (idToLabels a)).

(** The identity as the dataplane receives it: [uint32(identityID)]. *)
Definition wire_identity (id : Z) : Z := wrap32 id.

(** * Canonical strings *)

(** The result does not depend on the order in which the keys are collected. *)
Lemma canonical_order lbls keys :
  keys ≡ₚ (map_to_list lbls).*1 -> canonical_from lbls keys = canonicalLabels lbls.
Proof.
  intros H. unfold canonicalLabels, canonical_from. do 2 f_equal.
  apply (Sorted_unique String.le); [apply Sorted_merge_sort; apply _..|].
  by rewrite !merge_sort_Permutation.
Qed.

(** Label sets as Kubernetes admits them: no comma and no equals sign. *)
Definition plain (s : string) : Prop := lacks "," s /\ lacks "=" s.
Definition valid_labels (lbls : labels) : Prop := map_Forall (fun k v => plain k /\ plain v) lbls.

Lemma lacks_one c d : c <> d -> lacks c (String d "").
Proof. intros H. unfold lacks. cbn. rewrite andb_true_r, negb_true_iff. by apply Ascii.eqb_neq. Qed.

Lemma part_lacks_comma k v : plain k -> plain v -> lacks "," (k +:+ "=" +:+ v).
Proof. intros [H1 _] [H2 _]. rewrite !lacks_app. split_and!; [done| |done]. by apply lacks_one. Qed.

Lemma part_inj k v k' v' :
  plain k -> plain k' -> k +:+ "=" +:+ v = k' +:+ "=" +:+ v' -> k = k' /\ v = v'.
Proof. intros [_ H] [_ H']. by apply sep_app_inj. Qed.

Lemma sorted_keys (lbls : labels) k : k ∈ merge_sort String.le (map_to_list lbls).*1 <-> is_Some (lbls !! k).
Proof.
  rewrite merge_sort_Permutation, list_elem_of_fmap. split.
  - intros ([k' v] & -> & H%elem_of_map_to_list). by exists v.
  - intros [v H]. exists (k, v). split; [done|]. by apply elem_of_map_to_list.
Qed.

Lemma valid_part (lbls : labels) k :
  valid_labels lbls -> is_Some (lbls !! k) -> plain k /\ plain (default "" (lbls !! k)).
Proof. intros Hv [v H]. rewrite H. by apply Hv. Qed.

Lemma parts_lack_comma (lbls : labels) (keys : list string) :
  valid_labels lbls -> (forall k, k ∈ keys -> is_Some (lbls !! k)) ->
  Forall (lacks ",") ((fun k => k +:+ "=" +:+ default "" (lbls !! k)) <$> keys).
Proof.
  intros Hv Hk. apply Forall_fmap, Forall_forall. intros k Hin%Hk. cbn.
  destruct (valid_part _ _ Hv Hin). by apply part_lacks_comma.
Qed.

Lemma parts_inj (m1 m2 : labels) (l1 l2 : list string) :
  valid_labels m1 -> valid_labels m2 ->
  (forall k, k ∈ l1 -> is_Some (m1 !! k)) -> (forall k, k ∈ l2 -> is_Some (m2 !! k)) ->
  (fun k => k +:+ "=" +:+ default "" (m1 !! k)) <$> l1 = (fun k => k +:+ "=" +:+ default "" (m2 !! k)) <$> l2 ->
  l1 = l2 /\ forall k, k ∈ l1 -> m1 !! k = m2 !! k.
Proof.
  intros V1 V2. revert l2. induction l1 as [|k1 l1 IH]; intros [|k2 l2] H1 H2 E; try done.
  { split; [done|]. by intros k ?%elem_of_nil. }
  cbn [fmap list_fmap] in E. injection E as Ek El.
  assert (is_Some (m1 !! k1)) as S1 by (apply H1; left).
  assert (is_Some (m2 !! k2)) as S2 by (apply H2; left).
  destruct (valid_part _ _ V1 S1) as [P1 _], (valid_part _ _ V2 S2) as [P2 _].
  apply part_inj in Ek as [<- Ev]; [|done..].
  destruct (IH l2) as [<- IHm]; [intros; apply H1; by right|intros; apply H2; by right|done|].
  split; [done|]. intros k [->|Hk]%elem_of_cons; [|by apply IHm].
  destruct S1 as [v1 S1], S2 as [v2 S2]. rewrite S1, S2 in Ev |- *. cbn in Ev. by subst.
Qed.

Lemma canonical_parts lbls :
  valid_labels lbls -> lbls <> ∅ ->
  split_on "," (canonicalLabels lbls)
  = (fun k => k +:+ "=" +:+ default "" (lbls !! k)) <$> merge_sort String.le (map_to_list lbls).*1.
Proof.
  intros Hv Hne. apply split_on_join.
  - intros H%fmap_nil_inv. destruct (map_choose _ Hne) as (k & v & Hk).
    assert (k ∈ merge_sort String.le (map_to_list lbls).*1) as Hin by (apply sorted_keys; eauto).
    rewrite H in Hin. by apply elem_of_nil in Hin.
  - apply parts_lack_comma; [done|]. intros k. apply sorted_keys.
Qed.

Lemma lacks_empty_parts lbls : valid_labels lbls -> canonicalLabels lbls = "" -> lbls = ∅.
Proof.
  intros Hv He. destruct (decide (lbls = ∅)) as [|Hne]; [done|]. exfalso.
  pose proof (canonical_parts _ Hv Hne) as H. rewrite He in H.
  destruct (merge_sort String.le (map_to_list lbls).*1) as [|k l]; cbn in H; [done|].
  injection H as H _. by destruct k.
Qed.

Lemma canonical_inj l1 l2 :
  valid_labels l1 -> valid_labels l2 -> canonicalLabels l1 = canonicalLabels l2 -> l1 = l2.
Proof.
  intros V1 V2 E. destruct (decide (l1 = ∅)) as [->|N1].
  { symmetry. by apply lacks_empty_parts. }
  destruct (decide (l2 = ∅)) as [->|N2]; [by apply lacks_empty_parts|].
  pose proof (canonical_parts _ V1 N1) as P1. rewrite E, (canonical_parts _ V2 N2) in P1.
  apply parts_inj in P1 as [Hk Hm]; [|done..|by intros k; apply sorted_keys|by intros k; apply sorted_keys].
  apply map_eq. intros k. destruct (l2 !! k) as [v|] eqn:E2.
  - rewrite <- E2. symmetry. apply Hm, sorted_keys. eauto.
  - destruct (l1 !! k) as [v|] eqn:E1; [|done].
    assert (k ∈ merge_sort String.le (map_to_list l1).*1) as Hin by (apply sorted_keys; eauto).
    rewrite <- Hk in Hin. apply sorted_keys in Hin as [? Hin]. congruence.
Qed.

Lemma valid_empty : valid_labels ∅.
Proof. apply map_Forall_empty. Qed.

(** * Probing *)

(** Walking from [h] through full slots of other label sets for as many steps as
    there are slots would need more slots than there are. *)
Definition probed (h : Z) (n : nat) : list Z := (fun i => wrap64 (h + Z.of_nat i)) <$> seq 0 n.

Lemma probed_NoDup h n : Z.of_nat n <= 2 ^ 64 -> NoDup (probed h n).
Proof.
  intros Hn. apply NoDup_fmap_2_strong; [|apply NoDup_seq].
  intros i j Hi%elem_of_seq Hj%elem_of_seq. unfold wrap64. intros E.
  assert ((Z.of_nat i - Z.of_nat j) mod 2 ^ 64 = 0) as Hd.
  { replace (Z.of_nat i - Z.of_nat j) with ((h + Z.of_nat i) - (h + Z.of_nat j)) by lia.
    rewrite Zminus_mod, E, Z.sub_diag. apply Z.mod_0_l. lia. }
  apply Z.mod_divide in Hd as [q Hq]; [|lia].
  assert (q = 0) by nia. lia.
Qed.

(** Slot [id] holds other labels than [canonical]. *)
Definition taken_by_other (m : gmap Z labels) (canonical : string) (id : Z) : Prop :=
  exists stored, m !! id = Some stored /\ canonicalLabels stored <> canonical.

Lemma probe_steps fuel m canonical h :
  (exists n, (n < fuel)%nat
     /\ probe fuel m canonical (wrap64 h) = Val (wrap64 (h + Z.of_nat n))
     /\ (forall i, (i < n)%nat -> taken_by_other m canonical (wrap64 (h + Z.of_nat i)))
     /\ ~ taken_by_other m canonical (wrap64 (h + Z.of_nat n)))
  \/ (forall i, (i < fuel)%nat -> taken_by_other m canonical (wrap64 (h + Z.of_nat i))).
Proof.
  revert h. induction fuel as [|f IH]; intros h; [right; lia|].
  assert (taken_by_other m canonical (wrap64 h) \/
          ~ taken_by_other m canonical (wrap64 h) /\ probe (S f) m canonical (wrap64 h) = Val (wrap64 h))
    as [T|[N E]].
  { cbn [probe]. unfold taken_by_other. destruct (m !! wrap64 h) as [stored|] eqn:El.
    - destruct (String.eqb_spec (canonicalLabels stored) canonical) as [Ec|Ec]; [right|left; eauto].
      split; [|done]. by intros (? & [= <-] & ?).
    - right. split; [|done]. by intros (? & ? & ?). }
  2: { left. exists 0%nat. rewrite Z.add_0_r. split_and!; [lia|done|lia|done]. }
  assert (probe (S f) m canonical (wrap64 h) = probe f m canonical (wrap64 (h + 1))) as Es.
  { destruct T as (stored & El & Ec). cbn [probe]. rewrite El.
    apply String.eqb_neq in Ec. rewrite Ec. cbn [negb]. f_equal.
    unfold wrap64. by rewrite Zplus_mod_idemp_l. }
  assert (forall i, wrap64 (h + Z.of_nat (S i)) = wrap64 (h + 1 + Z.of_nat i)) as Sh by (intros; f_equal; lia).
  destruct (IH (h + 1)) as [(n & Hn & E & Hb & Ht)|Hall].
  - left. exists (S n). rewrite Sh. split_and!; [lia|by rewrite Es| |done].
    intros [|i] Hi; [by rewrite Z.add_0_r|]. rewrite Sh. apply Hb. lia.
  - right. intros [|i] Hi; [by rewrite Z.add_0_r|]. rewrite Sh. apply Hall. lia.
Qed.

Lemma probe_stops fuel m canonical : forall h id,
  probe fuel m canonical h = Val id -> ~ taken_by_other m canonical id.
Proof.
  induction fuel as [|f IH]; intros h id E; cbn [probe] in E; [done|].
  destruct (m !! h) as [stored|] eqn:El; [|injection E as <-; intros (? & ? & ?); congruence].
  destruct (String.eqb_spec (canonicalLabels stored) canonical) as [Ec|Ec]; [|by apply IH in E].
  injection E as <-. intros (s & Hs & Hne). congruence.
Qed.

Lemma probed_occupied m canonical h n :
  (forall i, (i < n)%nat -> taken_by_other m canonical (wrap64 (h + Z.of_nat i))) ->
  Z.of_nat n <= 2 ^ 64 -> (n <= size m)%nat.
Proof.
  intros Hocc Hn. rewrite <- size_dom. replace n with (length (probed h n)).
  2: { unfold probed. by rewrite length_fmap, length_seq. }
  rewrite <- (size_list_to_set (C := gset Z)) by (by apply probed_NoDup). apply subseteq_size.
  intros x Hx%elem_of_list_to_set. unfold probed in Hx.
  apply list_elem_of_fmap in Hx as (i & -> & Hi%elem_of_seq).
  destruct (Hocc i) as (s & El & _); [lia|]. by apply elem_of_dom_2 in El.
Qed.

(** The probing loop ends after at most [size m + 1] slots, at a slot that is
    free or already holds the labels. *)
Lemma probe_total m canonical h :
  Z.of_nat (size m) < 2 ^ 64 -> is_u64 h ->
  exists n, (n <= size m)%nat
    /\ probe (S (size m)) m canonical h = Val (wrap64 (h + Z.of_nat n))
    /\ (forall i, (i < n)%nat -> taken_by_other m canonical (wrap64 (h + Z.of_nat i)))
    /\ ~ taken_by_other m canonical (wrap64 (h + Z.of_nat n)).
Proof.
  intros Hs Hh. assert (wrap64 h = h) as Ew by (by apply Z.mod_small).
  destruct (probe_steps (S (size m)) m canonical h) as [(n & Hn & E & Hb)|Hall]; [|exfalso].
  - exists n. rewrite Ew in E. split; [lia|]. by split.
  - pose proof (probed_occupied m canonical h (S (size m)) Hall ltac:(lia)). lia.
Qed.

(** * Invariant and abstract specification *)

(** The two tables are inverse to each other, every stored identity is counted,
    and every count is positive. *)
Record inv (a : Allocator) : Prop := {
  inv_fwd : forall id l, idToLabels a !! id = Some l -> labelsToID a !! canonicalLabels l = Some id;
  inv_bwd : forall c id, labelsToID a !! c = Some id ->
    exists l, idToLabels a !! id = Some l /\ canonicalLabels l = c;
  inv_cnt : forall id, is_Some (idToLabels a !! id) <-> is_Some (refCount a !! id);
  inv_pos : forall id n, refCount a !! id = Some n -> 1 <= n;
}.

(** What the allocator promises: a table of identities in use, each with its
    labels and the number of its users.  [canonicalLabels] decides which label
    sets are the same. *)
Abbreviation usage := (gmap Z (labels * Z)).

Definition view (a : Allocator) : usage :=
  merge (fun l n => match l, n with Some l, Some n => Some (l, n) | _, _ => None end)
    (idToLabels a) (refCount a).

Lemma view_lookup a id : view a !! id = match idToLabels a !! id, refCount a !! id with
                                        | Some l, Some n => Some (l, n) | _, _ => None end.
Proof. unfold view. rewrite lookup_merge. by destruct (idToLabels a !! id), (refCount a !! id). Qed.

Inductive spec_alloc (u : usage) (lbls : labels) : Z -> usage -> Prop :=
| spec_share id l n :
    u !! id = Some (l, n) -> canonicalLabels l = canonicalLabels lbls ->
    spec_alloc u lbls id (<[id := (l, n + 1)]> u)
| spec_new id :
    u !! id = None -> (forall i l n, u !! i = Some (l, n) -> canonicalLabels l <> canonicalLabels lbls) ->
    is_u64 id -> spec_alloc u lbls id (<[id := (lbls, 1)]> u).

Definition spec_remove (u : usage) (id : Z) : usage :=
  match u !! id with
  | Some (l, n) => if n <=? 1 then delete id u else <[id := (l, n - 1)]> u
  | None => u
  end.

Lemma identity_inv_new : inv NewAllocator.
Proof. by split; intros *; cbn; rewrite ?lookup_empty; try done. Qed.

Lemma inv_known a id : inv a -> view a !! id = None <-> idToLabels a !! id = None.
Proof.
  intros Hi. rewrite view_lookup. pose proof (inv_cnt _ Hi id) as H.
  destruct (idToLabels a !! id), (refCount a !! id); try done.
  destruct H as [H _]. destruct H; done.
Qed.

Lemma inv_labels_None a lbls :
  inv a -> labelsToID a !! canonicalLabels lbls = None ->
  forall id l, idToLabels a !! id = Some l -> canonicalLabels l <> canonicalLabels lbls.
Proof. intros Hi Hn id l Hl E. apply inv_fwd in Hl; [|done]. congruence. Qed.

(** Counting one more user of a known identity. *)
Lemma share_spec a id l n :
  inv a -> idToLabels a !! id = Some l -> refCount a !! id = Some n ->
  let a' := mkAllocator (idToLabels a) (incr (refCount a) id) (labelsToID a) in
  inv a' /\ view a' = <[id := (l, n + 1)]> (view a).
Proof.
  intros Hi Hl Hn a'. unfold a', incr. rewrite Hn. cbn [default]. split.
  - split; cbn; [apply Hi|apply Hi| |].
    + intros i. rewrite lookup_insert_is_Some', <- (inv_cnt _ Hi i). split; [by right|].
      intros [<-|]; [eauto|done].
    + intros i m [[<- <-]|[? H]]%lookup_insert_Some; [|by apply (inv_pos _ Hi) in H].
      apply (inv_pos _ Hi) in Hn. cbn. lia.
  - apply map_eq. intros i. rewrite view_lookup. cbn.
    destruct (decide (i = id)) as [->|]; [by rewrite !lookup_insert_eq, Hl|].
    by rewrite !lookup_insert_ne, view_lookup by done.
Qed.

(** Taking a free identity for labels that have none. *)
Lemma fresh_spec a id lbls :
  inv a -> idToLabels a !! id = None -> labelsToID a !! canonicalLabels lbls = None ->
  let a' := mkAllocator (<[id := lbls]> (idToLabels a)) (incr (refCount a) id)
                        (<[canonicalLabels lbls := id]> (labelsToID a)) in
  inv a' /\ view a' = <[id := (lbls, 1)]> (view a).
Proof.
  intros Hi Hid Hc a'. assert (refCount a !! id = None) as Hn.
  { destruct (refCount a !! id) eqn:E; [|done]. destruct (proj2 (inv_cnt _ Hi id)); eauto. congruence. }
  unfold a', incr. rewrite Hn. cbn [default]. split.
  - split; cbn.
    + intros i l [[<- <-]|[? H]]%lookup_insert_Some; [by rewrite lookup_insert_eq|].
      apply (inv_fwd _ Hi) in H as H'. rewrite lookup_insert_ne; [done|]. congruence.
    + intros c i [[<- <-]|[? H]]%lookup_insert_Some; [exists lbls; by rewrite lookup_insert_eq|].
      destruct (inv_bwd _ Hi _ _ H) as (l & Hl & <-). exists l. rewrite lookup_insert_ne; [done|]. congruence.
    + intros i. rewrite !lookup_insert_is_Some'. by rewrite (inv_cnt _ Hi i).
    + intros i m [[_ <-]|[? H]]%lookup_insert_Some; [by cbn|by apply (inv_pos _ Hi) in H].
  - apply map_eq. intros i. rewrite view_lookup. cbn.
    destruct (decide (i = id)) as [->|]; [by rewrite !lookup_insert_eq|].
    by rewrite !lookup_insert_ne, view_lookup by done.
Qed.

Lemma known_count a c id :
  inv a -> labelsToID a !! c = Some id ->
  exists l n, idToLabels a !! id = Some l /\ refCount a !! id = Some n /\ canonicalLabels l = c.
Proof.
  intros Hi H. destruct (inv_bwd _ Hi _ _ H) as (l & Hl & E).
  destruct (proj1 (inv_cnt _ Hi id)) as [n Hn]; eauto.
Qed.

(** [AllocateIdentity] returns, and steps as the specification does; on the slow
    path the identity is the first slot from the hash on that is not taken. *)
Lemma AllocateIdentity_sim a lbls :
  inv a -> Z.of_nat (size (idToLabels a)) < 2 ^ 64 ->
  exists a' id, AllocateIdentity (S (size (idToLabels a))) a lbls = Val (a', id)
    /\ inv a' /\ spec_alloc (view a) lbls id (view a')
    /\ labelsToID a' !! canonicalLabels lbls = Some id
    /\ (labelsToID a !! canonicalLabels lbls = None -> idToLabels a !! HashLabels lbls = None ->
        id = HashLabels lbls).
Proof.
  intros Hi Hsz. unfold AllocateIdentity.
  destruct (labelsToID a !! canonicalLabels lbls) as [id|] eqn:Ec.
  - destruct (known_count _ _ _ Hi Ec) as (l & n & Hl & Hn & El).
    destruct (share_spec _ _ _ _ Hi Hl Hn) as [Hi' Hv]. do 2 eexists.
    split_and!; [done|done| |done|done]. rewrite Hv. apply spec_share; [|done].
    by rewrite view_lookup, Hl, Hn.
  - destruct (probe_total (idToLabels a) (canonicalLabels lbls) (HashLabels lbls) Hsz) as (n & Hle & E & Hb & Ht).
    { apply fnv64a_range. }
    unfold HashLabels in *. set (id := wrap64 _) in E, Ht. setoid_rewrite E. cbn [mbind outcome_bind].
    assert (idToLabels a !! id = None) as Hid.
    { destruct (idToLabels a !! id) as [l|] eqn:El; [|done]. destruct Ht. exists l. split; [done|].
      exact (inv_labels_None _ _ Hi Ec _ _ El). }
    rewrite Hid. destruct (fresh_spec _ _ _ Hi Hid Ec) as [Hi' Hv]. do 2 eexists.
    split_and!; [done|done| |cbn; by rewrite lookup_insert_eq|].
    + rewrite Hv. apply spec_new; [by apply inv_known| |apply wrap64_range].
      intros i l m. rewrite view_lookup. destruct (idToLabels a !! i) as [l'|] eqn:El; [|done].
      destruct (refCount a !! i); [|done]. intros [= <- <-]. exact (inv_labels_None _ _ Hi Ec _ _ El).
    + intros _ Hfree. destruct n as [|n].
      * unfold id. rewrite Z.add_0_r. apply Z.mod_small, fnv64a_range.
      * destruct (Hb 0%nat) as (s & Hs & _); [lia|]. rewrite Z.add_0_r in Hs.
        unfold wrap64 in Hs. rewrite Z.mod_small in Hs by apply fnv64a_range. congruence.
Qed.

Lemma RemoveIdentity_sim a id : inv a -> inv (RemoveIdentity a id) /\ view (RemoveIdentity a id) = spec_remove (view a) id.
Proof.
  intros Hi. unfold RemoveIdentity, spec_remove. rewrite view_lookup.
  destruct (refCount a !! id) as [n|] eqn:En; [|by destruct (idToLabels a !! id)].
  destruct (proj2 (inv_cnt _ Hi id)) as [l Hl]; [eauto|]. rewrite Hl.
  destruct (n <=? 1) eqn:E1; (split; [split|]); cbn [idToLabels refCount labelsToID].
  - intros i l' [Hne H]%lookup_delete_Some. apply (inv_fwd _ Hi) in H as H'.
    apply lookup_delete_Some. split; [|done]. intros Ec. apply (inv_fwd _ Hi) in Hl. congruence.
  - intros c i [Hne H]%lookup_delete_Some. destruct (inv_bwd _ Hi _ _ H) as (l' & Hl' & <-).
    exists l'. rewrite lookup_delete_ne; [done|]. congruence.
  - intros i. rewrite !lookup_delete_is_Some. by rewrite (inv_cnt _ Hi i).
  - intros i m [_ H]%lookup_delete_Some. by apply (inv_pos _ Hi) in H.
  - apply map_eq. intros i. rewrite view_lookup. cbn [idToLabels refCount]. destruct (decide (i = id)) as [->|].
    + by rewrite !lookup_delete_eq.
    + by rewrite !lookup_delete_ne, view_lookup by done.
  - apply Hi.
  - apply Hi.
  - intros i. rewrite lookup_insert_is_Some', <- (inv_cnt _ Hi i). split; [by right|].
    intros [<-|]; eauto.
  - intros i m [[_ <-]|[_ H]]%lookup_insert_Some; [|by apply (inv_pos _ Hi) in H]. to_prop. lia.
  - apply map_eq. intros i. rewrite view_lookup. cbn [idToLabels refCount]. destruct (decide (i = id)) as [->|].
    + by rewrite !lookup_insert_eq, Hl.
    + by rewrite !lookup_insert_ne, view_lookup by done.
Qed.

(** * Histories *)

Inductive op := OpAllocate (lbls : labels) | OpRemove (id : Z).

(** A sequence of calls and the identities its allocations return.  The loop of
    each call may probe one slot more than there are entries. *)
Fixpoint run (a : Allocator) (ops : list op) : outcome (Allocator * list Z) :=
  match ops with
  | [] => Val (a, [])
  | OpAllocate lbls :: r =>
      '(a', id) ← AllocateIdentity (S (size (idToLabels a))) a lbls;
      '(b, ids) ← run a' r;
      Val (b, id :: ids)
  | OpRemove id :: r => run (RemoveIdentity a id) r
  end.

Inductive spec_run : usage -> list op -> list Z -> usage -> Prop :=
| spec_done u : spec_run u [] [] u
| spec_allocate u lbls id u' r ids u'' :
    spec_alloc u lbls id u' -> spec_run u' r ids u'' ->
    spec_run u (OpAllocate lbls :: r) (id :: ids) u''
| spec_removed u id r ids u'' :
    spec_run (spec_remove u id) r ids u'' -> spec_run u (OpRemove id :: r) ids u''.

Lemma spec_alloc_size u lbls id u' : spec_alloc u lbls id u' -> (size u' <= S (size u))%nat.
Proof. intros [? ? ? H _|? H _ _]; [rewrite map_size_insert_Some by eauto|rewrite map_size_insert_None by done]; lia. Qed.

Lemma spec_remove_size u id : (size (spec_remove u id) <= size u)%nat.
Proof.
  unfold spec_remove. destruct (u !! id) as [[l n]|] eqn:E; [|done]. case_match.
  - rewrite map_size_delete_Some by eauto. lia.
  - rewrite map_size_insert_Some by eauto. lia.
Qed.

Lemma view_size a : inv a -> size (view a) = size (idToLabels a).
Proof.
  intros Hi. rewrite <- !size_dom. f_equal. apply set_eq. intros i. rewrite !elem_of_dom.
  rewrite <- !not_eq_None_Some. by rewrite inv_known.
Qed.

Lemma identity_run_sim ops : forall a,
  inv a -> Z.of_nat (size (idToLabels a)) + Z.of_nat (length ops) <= 2 ^ 64 ->
  exists b ids, run a ops = Val (b, ids) /\ inv b /\ spec_run (view a) ops ids (view b).
Proof.
  induction ops as [|[lbls|id] ops IH]; intros a Hi Hs; cbn [run length] in *.
  - exists a, []. split_and!; [done|done|constructor].
  - destruct (AllocateIdentity_sim a lbls) as (a' & id & -> & Hi' & Hsp & _); [done|lia|].
    cbn [mbind outcome_bind].
    destruct (IH a') as (b & ids & -> & Hb & Hr); [done| |].
    { apply spec_alloc_size in Hsp. rewrite !view_size in Hsp by done. lia. }
    exists b, (id :: ids). split_and!; [done|done|]. by econstructor.
  - destruct (RemoveIdentity_sim a id Hi) as [Hi' Hv].
    destruct (IH (RemoveIdentity a id)) as (b & ids & E & Hb & Hr); [done| |].
    { pose proof (spec_remove_size (view a) id) as Hz. rewrite <- Hv, !view_size in Hz by done. lia. }
    exists b, ids. split_and!; [done|done|]. constructor. by rewrite <- Hv.
Qed.

Lemma run_inv ops : forall a b ids, inv a -> run a ops = Val (b, ids) -> Z.of_nat (size (idToLabels a)) + Z.of_nat (length ops) <= 2 ^ 64 -> inv b.
Proof. intros a b ids Hi E Hs. destruct (identity_run_sim ops a Hi Hs) as (b' & ids' & E' & Hb & _). congruence. Qed.

(** * Theorems *)

(** C29: Every history of allocations and removals on a new allocator returns,
    and behaves as the table of identities in use does: labels that are in use
    get the identity they have and one more user, other labels get an identity
    that is not in use, and a removal takes away one user and frees the identity
    with the last one. *)
Theorem identity_refines ops :
  Z.of_nat (length ops) <= 2 ^ 64 ->
  exists a ids, run NewAllocator ops = Val (a, ids) /\ spec_run ∅ ops ids (view a).
Proof.
  intros H. destruct (identity_run_sim ops NewAllocator identity_inv_new) as (b & ids & E & _ & Hr); [cbn; by rewrite map_size_empty|].
  exists b, ids. split; [done|]. replace (∅ : usage) with (view NewAllocator); [done|].
  apply map_eq. intros i. by rewrite view_lookup, lookup_empty.
Qed.

Lemma identity_refines_witness :
  let ops := [OpAllocate {[ "app" := "web" ]}; OpAllocate {[ "app" := "db" ]}; OpRemove (HashLabels {[ "app" := "web" ]})] in
  exists a ids, run NewAllocator ops = Val (a, ids) /\ spec_run ∅ ops ids (view a).
Proof. apply (identity_refines [_; _; _]). cbn. lia. Defined.

(** At every point of every history, label sets without commas and equals
    signs (which is all that Kubernetes admits) that have the same identity are
    equal, and the identity is stored with these labels. *)
Theorem identities_separate ops a ids l1 l2 id :
  Z.of_nat (length ops) <= 2 ^ 64 -> run NewAllocator ops = Val (a, ids) ->
  valid_labels l1 -> valid_labels l2 ->
  GetIdentity a l1 = Some id ->
  (GetIdentity a l2 = Some id <-> l1 = l2)
  /\ exists l, GetLabels a id = Some l /\ (valid_labels l -> l = l1).
Proof.
  intros Hlen E V1 V2 G1. assert (inv a) as Hi.
  { eapply run_inv; [apply identity_inv_new|done|]. cbn. by rewrite map_size_empty. }
  unfold GetIdentity, GetLabels in *. destruct (inv_bwd _ Hi _ _ G1) as (l & Hl & El). split; [split|].
  - intros G2. destruct (inv_bwd _ Hi _ _ G2) as (l' & Hl' & El').
    apply canonical_inj; [done..|]. congruence.
  - by intros <-.
  - exists l. split; [done|]. intros Hv. by apply canonical_inj.
Qed.

Lemma identities_separate_witness :
  let l1 := {[ "app" := "web" ]} : labels in let l2 := {[ "app" := "db" ]} : labels in
  exists a ids id, run NewAllocator [OpAllocate l1; OpAllocate l2] = Val (a, ids)
    /\ GetIdentity a l1 = Some id /\ (GetIdentity a l2 = Some id <-> l1 = l2).
Proof.
  intros l1 l2.
  destruct (identity_run_sim [OpAllocate l1; OpAllocate l2] NewAllocator identity_inv_new) as (a & ids & E & _); [cbn; rewrite map_size_empty; cbn; lia|].
  exists a, ids, (HashLabels l1). assert (GetIdentity a l1 = Some (HashLabels l1)) as G.
  { apply (f_equal (fun r => match r with Val (a, _) => labelsToID a !! canonicalLabels l1 | _ => None end)) in E.
    symmetry. etransitivity; [|exact E]. vm_compute. reflexivity. }
  split; [done|]. split; [exact G|].
  apply (identities_separate [OpAllocate l1; OpAllocate l2] a ids l1 l2); [cbn; lia|done| | |exact G];
    apply map_Forall_singleton; repeat split.
Defined.

(** Taking an identity and giving it back leaves the allocator as it was. *)
Theorem allocate_remove_roundtrip fuel a lbls a' id :
  inv a -> AllocateIdentity fuel a lbls = Val (a', id) -> RemoveIdentity a' id = a.
Proof.
  intros Hi E. unfold AllocateIdentity in E.
  destruct (labelsToID a !! canonicalLabels lbls) as [i|] eqn:Ec.
  - injection E as <- <-. destruct (known_count _ _ _ Hi Ec) as (l & n & Hl & Hn & _).
    unfold RemoveIdentity, incr. cbn. rewrite lookup_insert_eq, Hn. cbn.
    apply (inv_pos _ Hi) in Hn as Hp. destruct (n + 1 <=? 1) eqn:E1; to_prop; [lia|].
    rewrite insert_insert_eq, insert_id; [by destruct a|]. rewrite Hn. f_equal. lia.
  - destruct (probe _ _ _ _) as [i| |] eqn:Ep; [|done..]. cbn in E.
    destruct (idToLabels a !! i) as [l|] eqn:Ei; injection E as <- <-.
    { exfalso. apply probe_stops in Ep. apply Ep. exists l. split; [done|].
      exact (inv_labels_None _ _ Hi Ec _ _ Ei). }
    assert (refCount a !! i = None) as Hn.
    { destruct (refCount a !! i) eqn:En; [|done]. destruct (proj2 (inv_cnt _ Hi i)); eauto. congruence. }
    unfold RemoveIdentity, incr. cbn. rewrite Hn, !lookup_insert_eq. cbn.
    rewrite !delete_insert_id by done. by destruct a.
Qed.

Lemma allocate_remove_roundtrip_witness :
  exists a' id, AllocateIdentity 1 NewAllocator {[ "app" := "web" ]} = Val (a', id) /\ RemoveIdentity a' id = NewAllocator.
Proof.
  destruct (AllocateIdentity_sim NewAllocator {[ "app" := "web" ]} identity_inv_new) as (a' & id & E & _);
    [cbn; by rewrite map_size_empty|].
  exists a', id. split; [exact E|]. eapply (allocate_remove_roundtrip 1); [apply identity_inv_new|exact E].
Defined.

(** The identities that the dataplane receives do not separate label sets.
    They are the low 32 bits of the allocator's identities, so the sets
    app=p1270199 and app=p2042036, which have two identities, are one identity to
    the policies in the kernel; and app=p2239628959 becomes 0, which is the
    wildcard of the policy table. *)
Theorem wire_identities_collide :
  let a := {[ "app" := "p1270199" ]} : labels in
  let b := {[ "app" := "p2042036" ]} : labels in
  let z := {[ "app" := "p2239628959" ]} : labels in
  exists st, run NewAllocator [OpAllocate a; OpAllocate b; OpAllocate z] = Val (st, [HashLabels a; HashLabels b; HashLabels z])
    /\ HashLabels a <> HashLabels b
    /\ wire_identity (HashLabels a) = wire_identity (HashLabels b)
    /\ wire_identity (HashLabels z) = 0.
Proof. eexists. split; [vm_compute; reflexivity|]. split; [vm_compute; discriminate|]. by vm_compute. Qed.
