(* ===== verification/SlotAllocator.v ===== *)
(** The slot allocator of the flat backend array, internal/service/allocator.go:
    a list of free ranges, first fit, with merging of adjacent ranges.  The list
    is always sorted and maximally merged, so an allocation fails only if no run
    of free slots is long enough, and it gets the lowest one otherwise. *)

From Stdlib Require Import ZArith Lia.
From stdpp Require Import base tactics list sorting.
From S2P Require Import Prelude.

(** * Definitions *)

(** [ErrNoFreeSlots] *)
Inductive slot_error := ErrNoFreeSlots.

Record slotRange := mkRange { offset : Z; count : Z }.

Record SlotAllocator := mkSlots { maxSlots : Z; free : list slotRange }.

Definition NewSlotAllocator (max : Z) : SlotAllocator := mkSlots max [mkRange 0 max].

(** The loop of [Alloc]: the offset taken and the ranges left. *)
Fixpoint alloc_from (l : list slotRange) (cnt : Z) : option (Z * list slotRange) :=
  match l with
  | [] => None
  | r :: rest =>
      if cnt <=? count r then
        if count r =? cnt then Some (offset r, rest)
        else Some (offset r, mkRange (wrap32 (offset r + cnt)) (wrap32 (count r - cnt)) :: rest)
      else '(off, rest') ← alloc_from rest cnt; Some (off, r :: rest')
  end.

Definition Alloc (a : SlotAllocator) (cnt : Z) : SlotAllocator * result slot_error Z :=
  match alloc_from (free a) cnt with
  | Some (off, l) => (mkSlots (maxSlots a) l, Ok off)
  | None => (a, Err ErrNoFreeSlots)
  end.

(** The loop of [merge]; the slice [merged] is kept with its last element first. *)
Definition merge_step (merged : list slotRange) (r : slotRange) : list slotRange :=
  match merged with
  | m :: ms =>
      if wrap32 (offset m + count m) =? offset r then mkRange (offset m) (wrap32 (count m + count r)) :: ms
      else r :: merged
  | [] => [r]
  end.

Definition merge (l : list slotRange) : list slotRange := rev (foldl merge_step [] l).

(** The order of [sort.Slice]. *)
Definition by_offset (r s : slotRange) : Prop := offset r <= offset s.

#[export] Instance by_offset_dec : RelDecision by_offset := fun r s => decide (offset r <= offset s).
#[export] Instance by_offset_total : Total by_offset.
Proof. intros r s. unfold by_offset. lia. Qed.
#[export] Instance by_offset_trans : Transitive by_offset.
Proof. intros r s t. unfold by_offset. lia. Qed.

Definition Free (a : SlotAllocator) (off cnt : Z) : SlotAllocator :=
  mkSlots (maxSlots a) (merge (merge_sort by_offset (free a ++ [mkRange off cnt]))).

(** * Free lists *)

Definition in_range (s : Z) (r : slotRange) : Prop := offset r <= s < offset r + count r.

Definition covers (l : list slotRange) (s : Z) : Prop := exists r, r ∈ l /\ in_range s r.

(** Ranges in increasing order inside [lo, hi), with at least [g] slots between
    them: 0 for disjoint ranges, 1 for maximally merged ones. *)
Fixpoint chain (g lo hi : Z) (l : list slotRange) : Prop :=
  match l with
  | [] => True
  | r :: rest => lo <= offset r /\ 1 <= count r /\ offset r + count r <= hi
                 /\ chain g (offset r + count r + g) hi rest
  end.

Definition inv (a : SlotAllocator) : Prop :=
  0 <= maxSlots a < 2 ^ 32 /\ chain 1 0 (maxSlots a) (free a).

(** [cnt] slots from [off] on are free. *)
Definition fits (l : list slotRange) (off cnt : Z) : Prop :=
  forall s, off <= s < off + cnt -> covers l s.

Lemma covers_nil s : ~ covers [] s.
Proof. by intros (r & ?%elem_of_nil & _). Qed.

Lemma covers_cons r l s : covers (r :: l) s <-> in_range s r \/ covers l s.
Proof.
  split.
  - intros (r' & [->|H]%elem_of_cons & Hi); [by left|right; by exists r'].
  - intros [H|(r' & Hr & Hi)]; [exists r; split; [left|done]|exists r'; split; [by right|done]].
Qed.

Lemma covers_perm l l' s : l ≡ₚ l' -> covers l s <-> covers l' s.
Proof. intros H. unfold covers. by setoid_rewrite H. Qed.

Lemma covers_app l l' s : covers (l ++ l') s <-> covers l s \/ covers l' s.
Proof.
  induction l as [|r l IH]; cbn [app]; [|rewrite !covers_cons, IH; tauto].
  split; [by right|]. by intros [?%covers_nil|].
Qed.

Lemma chain_weaken g g' lo lo' hi l : chain g lo hi l -> g' <= g -> lo' <= lo -> chain g' lo' hi l.
Proof.
  revert lo lo'. induction l as [|r l IH]; cbn [chain]; [done|].
  intros lo lo' (? & ? & ? & H) Hg Hlo. split_and!; [lia..|]. eapply IH; [done|lia..].
Qed.

Lemma chain_bounds g lo hi l s : 0 <= g -> chain g lo hi l -> covers l s -> lo <= s < hi.
Proof.
  intros Hg. revert lo. induction l as [|r l IH]; intros lo; [by intros _ ?%covers_nil|].
  cbn [chain]. intros (? & ? & ? & H). rewrite covers_cons. unfold in_range.
  intros [?|Hc]; [lia|]. apply (IH _ H) in Hc. lia.
Qed.

Lemma chain_rest r l hi s :
  chain 1 (offset r + count r + 1) hi l -> covers l s -> offset r + count r < s.
Proof. intros H Hc. pose proof (chain_bounds 1 _ _ _ _ ltac:(lia) H Hc). lia. Qed.

(** A block fits into a merged list where it fits into one of its ranges. *)
Lemma fits_cons r l hi off cnt :
  1 <= cnt -> chain 1 (offset r + count r + 1) hi l ->
  fits (r :: l) off cnt <-> (offset r <= off /\ off + cnt <= offset r + count r) \/ fits l off cnt.
Proof.
  intros Hc Hch. split.
  - intros H. destruct (decide (off < offset r + count r)) as [Hlt|Hge].
    + left. assert (in_range off r) as Hin.
      { destruct (proj1 (covers_cons _ _ _) (H off ltac:(lia))) as [|Hl]; [done|].
        apply (chain_rest _ _ _ _ Hch) in Hl. lia. }
      unfold in_range in Hin. split; [lia|].
      destruct (decide (off + cnt <= offset r + count r)) as [|Hgt]; [done|exfalso].
      destruct (proj1 (covers_cons _ _ _) (H (offset r + count r) ltac:(lia))) as [Hr|Hl]; [unfold in_range in Hr; lia|].
      apply (chain_rest _ _ _ _ Hch) in Hl. lia.
    + right. intros s Hs. destruct (proj1 (covers_cons _ _ _) (H s Hs)) as [Hr|]; [unfold in_range in Hr; lia|done].
  - intros [[H1 H2]|H] s Hs; apply covers_cons; [left; unfold in_range; lia|right; by apply H].
Qed.

(** A merged list is determined by its slots. *)
Lemma chain_unique l1 : forall l2 lo1 lo2 h1 h2,
  chain 1 lo1 h1 l1 -> chain 1 lo2 h2 l2 -> (forall s, covers l1 s <-> covers l2 s) -> l1 = l2.
Proof.
  induction l1 as [|r1 l1 IH]; intros [|r2 l2] lo1 lo2 h1 h2 H1 H2 Hc; cbn [chain] in *; [done| | |].
  { exfalso. destruct H2 as (? & ? & _). apply (covers_nil (offset r2)), Hc, covers_cons. left. unfold in_range. lia. }
  { exfalso. destruct H1 as (? & ? & _). apply (covers_nil (offset r1)), Hc, covers_cons. left. unfold in_range. lia. }
  destruct H1 as (? & Hc1 & ? & H1), H2 as (? & Hc2 & ? & H2).
  assert (forall s, in_range s r1 \/ covers l1 s <-> in_range s r2 \/ covers l2 s) as Hcov.
  { intros s. rewrite <- !covers_cons. apply Hc. }
  clear Hc. unfold in_range in Hcov.
  assert (forall s, covers l1 s -> offset r1 + count r1 < s) as B1 by (intros s; by apply chain_rest with h1).
  assert (forall s, covers l2 s -> offset r2 + count r2 < s) as B2 by (intros s; by apply chain_rest with h2).
  assert (offset r1 = offset r2) as Eo.
  { destruct (proj1 (Hcov (offset r1)) ltac:(left; lia)) as [|D1%B2]; destruct (proj2 (Hcov (offset r2)) ltac:(left; lia)) as [|D2%B1]; lia. }
  assert (count r1 = count r2) as En.
  { destruct (decide (count r1 < count r2)) as [|].
    - destruct (proj2 (Hcov (offset r1 + count r1)) ltac:(left; lia)) as [|D%B1]; lia.
    - destruct (decide (count r2 < count r1)) as [|]; [|lia].
      destruct (proj1 (Hcov (offset r2 + count r2)) ltac:(left; lia)) as [|D%B2]; lia. }
  f_equal; [destruct r1, r2; cbn in *; by subst|].
  eapply IH; [done..|]. intros s. split; intros Hs.
  - destruct (proj1 (Hcov s) (or_intror Hs)) as [|]; [apply B1 in Hs; lia|done].
  - destruct (proj2 (Hcov s) (or_intror Hs)) as [|]; [apply B2 in Hs; lia|done].
Qed.

(** * Allocation *)

Lemma alloc_from_None l cnt : forall lo hi,
  1 <= cnt -> chain 1 lo hi l -> alloc_from l cnt = None -> forall off, ~ fits l off cnt.
Proof.
  induction l as [|r l IH]; intros lo hi Hc Hch E off Hf; cbn [alloc_from chain] in *.
  { apply (covers_nil off), Hf. lia. }
  destruct Hch as (? & ? & ? & Hch). destruct (cnt <=? count r) eqn:El; [by destruct (count r =? cnt)|]. to_prop.
  destruct (alloc_from l cnt) as [[o l']|] eqn:Ea; [done|].
  apply (fits_cons r l hi off cnt Hc Hch) in Hf as [|Hf]; [lia|]. by eapply IH.
Qed.

(** The block taken is the lowest one that fits, and exactly its slots go. *)
Lemma alloc_from_Some l cnt : forall lo hi off l',
  1 <= cnt -> 0 <= lo -> hi < 2 ^ 32 -> chain 1 lo hi l -> alloc_from l cnt = Some (off, l') ->
  chain 1 lo hi l' /\ fits l off cnt
  /\ (forall off', fits l off' cnt -> off <= off')
  /\ (forall s, covers l' s <-> covers l s /\ ~ (off <= s < off + cnt)).
Proof.
  induction l as [|r l IH]; intros lo hi off l' Hc Hlo Hhi Hch E; cbn [alloc_from chain] in *; [done|].
  destruct Hch as (? & ? & ? & Hch). pose proof (fun s => chain_rest r l hi s Hch) as Hr.
  assert (forall off', fits l off' cnt -> offset r + count r < off') as Hm.
  { intros off' Hf. apply Hr, Hf. lia. }
  destruct (cnt <=? count r) eqn:El; to_prop.
  - assert (fits (r :: l) (offset r) cnt) as Hfit by (apply (fits_cons r l hi); [done..|left; lia]).
    assert (forall off', fits (r :: l) off' cnt -> offset r <= off') as Hmin.
    { intros off' [|Hf%Hm]%(fits_cons r l hi); lia || done. }
    destruct (count r =? cnt) eqn:En; to_prop; injection E as <- <-.
    + split_and!; [by eapply chain_weaken; [done|lia..]|done|done|].
      intros s. rewrite covers_cons. unfold in_range. split; [|intros [[|] ?]; [lia|done]].
      intros Hs. split; [by right|]. apply Hr in Hs. lia.
    + unfold wrap32. rewrite !Z.mod_small by lia. cbn [chain offset count].
      replace (offset r + cnt + (count r - cnt) + 1) with (offset r + count r + 1) by lia.
      split_and!; [lia..|done|done|done|].
      intros s. rewrite !covers_cons. unfold in_range. cbn. split; [|intros [[|] ?]; [left; lia|by right]].
      intros [Hs|Hs]; [split; [left|]; lia|]. split; [by right|]. apply Hr in Hs. lia.
  - destruct (alloc_from l cnt) as [[o l1]|] eqn:Ea; cbn in E; [injection E as <- <-|done].
    destruct (IH (offset r + count r + 1) hi o l1) as (C1 & F1 & M1 & S1); [lia..|done|done|].
    split_and!; [done..| | |].
    + apply (fits_cons r l hi); [done..|by right].
    + intros off' [|Hf]%(fits_cons r l hi); [lia|by apply M1|done..].
    + intros s. rewrite !covers_cons, S1. unfold in_range. pose proof (Hm _ F1). split; [|tauto].
      intros [Hs|[Hs Hn]]; [split; [by left|lia]|by split; [right|]].
Qed.

(** * Merging *)

(** [merge] as a recursion on the list, with the range being extended. *)
Fixpoint merge_from (cur : slotRange) (l : list slotRange) : list slotRange :=
  match l with
  | [] => [cur]
  | r :: rest =>
      if wrap32 (offset cur + count cur) =? offset r
      then merge_from (mkRange (offset cur) (wrap32 (count cur + count r))) rest
      else cur :: merge_from r rest
  end.

Lemma merge_from_spec l : forall cur ms, rev (foldl merge_step (cur :: ms) l) = rev ms ++ merge_from cur l.
Proof.
  induction l as [|r l IH]; intros cur ms; [done|].
  cbn [foldl merge_step merge_from]. destruct (_ =? _); rewrite IH; [done|].
  cbn [rev]. by rewrite <- app_assoc.
Qed.

(** Merging disjoint sorted ranges keeps the slots and leaves gaps between ranges. *)
Lemma merge_from_chain l : forall cur lo hi,
  0 <= lo -> hi < 2 ^ 32 -> chain 0 lo hi (cur :: l) ->
  chain 1 lo hi (merge_from cur l) /\ (forall s, covers (merge_from cur l) s <-> covers (cur :: l) s).
Proof.
  induction l as [|r l IH]; intros cur lo hi Hlo Hhi Hch; [by cbn [chain] in *|].
  destruct Hch as (? & ? & ? & ? & ? & ? & Hch). cbn [merge_from]. unfold wrap32.
  rewrite !Z.mod_small by lia. destruct (_ =? _) eqn:E; to_prop.
  - destruct (IH (mkRange (offset cur) (count cur + count r)) lo hi) as [C S]; [lia..| |].
    { cbn [chain offset count]. split_and!; [lia..|]. by eapply chain_weaken; [done|lia..]. }
    split; [done|]. intros s. rewrite S, !covers_cons. unfold in_range. cbn.
    split; [intros [?|?]|intros [?|[?|?]]]; try (by right; right); try (left; lia); [|by right].
    destruct (decide (s < offset cur + count cur)); [left|right; left]; lia.
  - destruct (IH r (offset cur + count cur + 1) hi) as [C S]; [lia..| |].
    { cbn [chain]. split_and!; [lia..|done]. }
    split; [cbn [chain]; split_and!; [lia..|done]|].
    intros s. rewrite !(covers_cons cur). by rewrite S.
Qed.

Lemma merge_chain l lo hi :
  0 <= lo -> hi < 2 ^ 32 -> chain 0 lo hi l ->
  chain 1 lo hi (merge l) /\ (forall s, covers (merge l) s <-> covers l s).
Proof.
  intros Hlo Hhi Hch. unfold merge. destruct l as [|r l]; [done|].
  cbn [foldl]. cbn [merge_step]. rewrite merge_from_spec. by apply merge_from_chain.
Qed.

(** * Sorting *)

(** How often a slot is covered; at most once by disjoint ranges. *)
Definition cover_count (s : Z) (l : list slotRange) : nat :=
  length (filter (fun r => offset r <= s < offset r + count r) l).

Lemma cover_count_perm s l l' : l ≡ₚ l' -> cover_count s l = cover_count s l'.
Proof. intros H. unfold cover_count. by rewrite H. Qed.

Lemma cover_count_cons s r l :
  cover_count s (r :: l) = ((if decide (offset r <= s < offset r + count r)%Z then 1 else 0) + cover_count s l)%nat.
Proof. unfold cover_count. rewrite filter_cons. by case_decide. Qed.

Lemma cover_count_covers s l : covers l s <-> (1 <= cover_count s l)%nat.
Proof.
  induction l as [|r l IH]; [split; [by intros ?%covers_nil|cbn; lia]|].
  rewrite covers_cons, cover_count_cons, IH. unfold in_range. case_decide; split; intros; try tauto; lia.
Qed.

Lemma chain_cover_count g lo hi l s : 0 <= g -> chain g lo hi l -> (cover_count s l <= 1)%nat.
Proof.
  intros Hg. revert lo. induction l as [|r l IH]; intros lo; [by cbn; lia|].
  cbn [chain]. intros (? & ? & ? & H). rewrite cover_count_cons. specialize (IH _ H).
  case_decide as Hin; [|lia]. assert (~ (1 <= cover_count s l)%nat); [|lia].
  rewrite <- cover_count_covers. intros Hc. apply (chain_bounds g _ _ _ _ Hg H) in Hc. lia.
Qed.

Lemma sorted_chain l : forall lo hi,
  StronglySorted by_offset l -> (forall r, r ∈ l -> lo <= offset r /\ 1 <= count r /\ offset r + count r <= hi) ->
  (forall s, (cover_count s l <= 1)%nat) -> chain 0 lo hi l.
Proof.
  induction l as [|r l IH]; intros lo hi Hs Hb Hc; [done|]. cbn [chain].
  apply StronglySorted_inv in Hs as [Hs Hle].
  destruct (Hb r) as (? & ? & ?); [left|]. split_and!; [done..|]. apply IH; [done| |].
  - intros r' Hr'. destruct (Hb r') as (? & ? & ?); [by right|]. split_and!; [|done..].
    rewrite Forall_forall in Hle. pose proof (Hle _ Hr') as Hoff. unfold by_offset in Hoff.
    destruct (decide (offset r + count r <= offset r')) as [|Hlt]; [lia|exfalso].
    specialize (Hc (offset r')). rewrite cover_count_cons, decide_True in Hc by lia.
    assert (covers l (offset r')) as Hcov by (exists r'; split; [done|unfold in_range; lia]).
    apply cover_count_covers in Hcov. lia.
  - intros s. specialize (Hc s). rewrite cover_count_cons in Hc. case_decide; lia.
Qed.

Lemma chain_elem g lo hi l r : 0 <= g -> chain g lo hi l -> r ∈ l -> lo <= offset r /\ 1 <= count r /\ offset r + count r <= hi.
Proof.
  intros Hg. revert lo. induction l as [|r' l IH]; intros lo; [by intros _ ?%elem_of_nil|].
  cbn [chain]. intros (? & ? & ? & H) [->|Hin]%elem_of_cons; [done|].
  destruct (IH _ H Hin). lia.
Qed.

(** * The operations *)

Lemma inv_new max : 1 <= max < 2 ^ 32 -> inv (NewSlotAllocator max).
Proof. intros H. split; [cbn; lia|]. cbn. lia. Qed.

Lemma Alloc_Ok a cnt a' off :
  inv a -> 1 <= cnt -> Alloc a cnt = (a', Ok off) ->
  inv a' /\ maxSlots a' = maxSlots a /\ 0 <= off /\ off + cnt <= maxSlots a
  /\ fits (free a) off cnt /\ (forall off', fits (free a) off' cnt -> off <= off')
  /\ (forall s, covers (free a') s <-> covers (free a) s /\ ~ (off <= s < off + cnt)).
Proof.
  intros [Hm Hch] Hc. unfold Alloc. destruct (alloc_from (free a) cnt) as [[o l]|] eqn:E; [|done].
  intros [= <- <-]. destruct (alloc_from_Some _ _ 0 (maxSlots a) _ _ Hc ltac:(lia) ltac:(lia) Hch E) as (C & F & M & S).
  pose proof (chain_bounds 1 _ _ _ _ ltac:(lia) Hch (F o ltac:(lia))).
  pose proof (chain_bounds 1 _ _ _ _ ltac:(lia) Hch (F (o + cnt - 1) ltac:(lia))).
  split_and!; [by split|done|lia..|done|done|done].
Qed.

Lemma Alloc_Err a cnt a' e :
  inv a -> 1 <= cnt -> Alloc a cnt = (a', Err e) -> a' = a /\ forall off, ~ fits (free a) off cnt.
Proof.
  intros [Hm Hch] Hc. unfold Alloc. destruct (alloc_from (free a) cnt) as [[o l]|] eqn:E; [done|].
  intros Ea. split; [by injection Ea|]. intros off. by eapply alloc_from_None.
Qed.

Lemma Free_spec a off cnt :
  inv a -> 0 <= off -> 1 <= cnt -> off + cnt <= maxSlots a ->
  (forall s, off <= s < off + cnt -> ~ covers (free a) s) ->
  inv (Free a off cnt)
  /\ (forall s, covers (free (Free a off cnt)) s <-> covers (free a) s \/ off <= s < off + cnt).
Proof.
  intros [Hm Hch] Ho Hc Hmax Hfree. unfold Free. set (l := merge_sort by_offset _).
  assert (l ≡ₚ free a ++ [mkRange off cnt]) as Hp by (unfold l; apply merge_sort_Permutation).
  destruct (merge_chain l 0 (maxSlots a)) as [C S]; [lia..| |].
  - apply sorted_chain.
    + apply StronglySorted_merge_sort; apply _.
    + intros r. rewrite Hp, elem_of_app, list_elem_of_singleton. intros [Hr| ->]; [|cbn; lia].
      by apply (chain_elem 1 _ _ _ _ ltac:(lia) Hch).
    + intros s. rewrite (cover_count_perm s l (mkRange off cnt :: free a)).
      2: { by rewrite Hp, Permutation_app_comm. }
      rewrite cover_count_cons. cbn. pose proof (chain_cover_count 1 _ _ _ s ltac:(lia) Hch).
      case_decide as Hs; [|lia]. apply Hfree in Hs. rewrite cover_count_covers in Hs. lia.
  - split; [by split|]. intros s. cbn [free]. rewrite S, (covers_perm _ _ _ Hp), covers_app, covers_cons.
    unfold in_range. cbn. split; [intros [|[|?%covers_nil]]|intros [|]]; tauto.
Qed.

Lemma free_undoes_alloc a cnt a' off :
  inv a -> 1 <= cnt -> Alloc a cnt = (a', Ok off) -> Free a' off cnt = a.
Proof.
  intros Hi Hc E.
  destruct (Alloc_Ok _ _ _ _ Hi Hc E) as (Hi' & Em & ? & ? & F & _ & S).
  destruct (Free_spec a' off cnt) as [Hi'' S']; [done|done|done|lia|intros s Hs; rewrite S; tauto|].
  assert (free (Free a' off cnt) = free a) as Ef.
  { eapply chain_unique; [apply Hi''|apply Hi|]. intros s. rewrite S', S.
    destruct (decide (off <= s < off + cnt)) as [Hs|]; [|tauto]. pose proof (F s Hs). tauto. }
  destruct a as [m l]. cbn in Ef, Em. rewrite <- Ef, <- Em. done.
Qed.

(** * Histories *)

(** The blocks that have been allocated and not freed. *)
Inductive reach (max : Z) : SlotAllocator -> list slotRange -> Prop :=
| reach_new : reach max (NewSlotAllocator max) []
| reach_alloc a bs cnt a' off :
    reach max a bs -> 1 <= cnt -> Alloc a cnt = (a', Ok off) -> reach max a' (mkRange off cnt :: bs)
| reach_free a bs b bs' :
    reach max a bs -> bs ≡ₚ b :: bs' -> reach max (Free a (offset b) (count b)) bs'.

Lemma cover_count_app s l l' : cover_count s (l ++ l') = (cover_count s l + cover_count s l')%nat.
Proof. unfold cover_count. by rewrite filter_app, length_app. Qed.

(** The free ranges and the blocks partition the slots. *)
Definition partitioned (a : SlotAllocator) (bs : list slotRange) : Prop :=
  Forall (fun b => 0 <= offset b /\ 1 <= count b /\ offset b + count b <= maxSlots a) bs /\
  forall s, cover_count s (free a ++ bs) = if decide (0 <= s < maxSlots a) then 1%nat else 0%nat.

Lemma chain_count_eq g lo hi l s : 0 <= g -> chain g lo hi l ->
  (covers l s -> cover_count s l = 1%nat) /\ (~ covers l s -> cover_count s l = 0%nat).
Proof.
  intros Hg Hch. pose proof (chain_cover_count g lo hi l s Hg Hch). rewrite cover_count_covers. lia.
Qed.

Lemma alloc_partitioned a bs cnt a' off :
  inv a -> partitioned a bs -> 1 <= cnt -> Alloc a cnt = (a', Ok off) ->
  inv a' /\ partitioned a' (mkRange off cnt :: bs).
Proof.
  intros Hi [Hb Hp] Hc E. destruct (Alloc_Ok _ _ _ _ Hi Hc E) as (Hi' & Em & ? & ? & F & _ & S).
  split; [done|]. split.
  { constructor; [cbn; lia|]. by rewrite Em. }
  intros s. rewrite Em, <- (Hp s), !cover_count_app, cover_count_cons. cbn.
  destruct (chain_count_eq 1 _ _ _ s ltac:(lia) (proj2 Hi)) as [A1 A0].
  destruct (chain_count_eq 1 _ _ _ s ltac:(lia) (proj2 Hi')) as [B1 B0].
  specialize (S s). case_decide as Hs.
  - rewrite (A1 (F s Hs)), B0; [lia|]. rewrite S. tauto.
  - destruct (decide (1 <= cover_count s (free a))%nat) as [Hd|Hd]; rewrite <- cover_count_covers in Hd.
    + rewrite (A1 Hd), B1; [lia|]. rewrite S. done.
    + rewrite (A0 Hd), B0; [lia|]. rewrite S. tauto.
Qed.

Lemma free_partitioned a bs b bs' :
  inv a -> partitioned a bs -> bs ≡ₚ b :: bs' ->
  inv (Free a (offset b) (count b)) /\ partitioned (Free a (offset b) (count b)) bs'.
Proof.
  intros Hi [Hb Hp] Hperm. rewrite Hperm in Hb. apply Forall_cons in Hb as [(H0 & H1 & H2) Hb].
  assert (forall s, cover_count s bs = cover_count s (b :: bs')) as Ep by (intros; by apply cover_count_perm).
  assert (forall s, offset b <= s < offset b + count b -> ~ covers (free a) s) as Hf.
  { intros s Hs Hc. apply cover_count_covers in Hc. specialize (Hp s).
    rewrite cover_count_app, Ep, cover_count_cons, !decide_True in Hp by lia. lia. }
  destruct (Free_spec _ _ _ Hi H0 H1 H2 Hf) as [Hi' S]. split; [done|]. split; [done|].
  intros s. cbn [Free maxSlots]. rewrite <- (Hp s), !cover_count_app, Ep, cover_count_cons.
  destruct (chain_count_eq 1 _ _ _ s ltac:(lia) (proj2 Hi)) as [A1 A0].
  destruct (chain_count_eq 1 _ _ _ s ltac:(lia) (proj2 Hi')) as [B1 B0]. specialize (S s).
  case_decide as Hs.
  - rewrite (A0 (Hf s Hs)), B1; [lia|]. rewrite S. by right.
  - destruct (decide (1 <= cover_count s (free a))%nat) as [Hd|Hd]; rewrite <- cover_count_covers in Hd.
    + rewrite (A1 Hd), B1; [lia|]. rewrite S. by left.
    + rewrite (A0 Hd), B0; [lia|]. rewrite S. tauto.
Qed.

Lemma new_partitioned max : 1 <= max < 2 ^ 32 -> partitioned (NewSlotAllocator max) [].
Proof.
  intros H. split; [constructor|]. intros s. cbn [NewSlotAllocator free app maxSlots].
  rewrite cover_count_cons. cbn. repeat case_decide; lia.
Qed.

Lemma reach_inv max a bs : 1 <= max < 2 ^ 32 -> reach max a bs -> inv a /\ partitioned a bs /\ maxSlots a = max.
Proof.
  intros Hm. induction 1 as [|a bs cnt a' off _ (Hi & Hp & <-) Hc E|a bs b bs' _ (Hi & Hp & <-) Hb].
  - split; [by apply inv_new|]. by split; [apply new_partitioned|].
  - destruct (alloc_partitioned _ _ _ _ _ Hi Hp Hc E). split_and!; [done..|].
    by destruct (Alloc_Ok _ _ _ _ Hi Hc E) as (_ & ? & _).
  - destruct (free_partitioned _ _ _ _ Hi Hp Hb). by split_and!.
Qed.

(** * Theorems *)

(** After any sequence of allocations and of releases of allocated blocks,
    the free ranges and the blocks in use partition the slots of the array: every
    slot is in exactly one of them, and none is lost or handed out twice. *)
Theorem slots_partition max a bs s :
  1 <= max < 2 ^ 32 -> reach max a bs ->
  cover_count s (free a ++ bs) = if decide (0 <= s < max) then 1%nat else 0%nat.
Proof. intros Hm Hr. destruct (reach_inv _ _ _ Hm Hr) as (_ & [_ H] & <-). apply H. Qed.

Lemma slots_partition_witness :
  let a1 := (Alloc (NewSlotAllocator 10) 4).1 in
  let a2 := (Alloc a1 3).1 in
  cover_count 5 (free (Free a2 0 4) ++ [mkRange 4 3]) = 1%nat.
Proof.
  intros a1 a2. apply (slots_partition 10 _ _ 5); [lia|].
  apply (reach_free 10 a2 [mkRange 4 3; mkRange 0 4] (mkRange 0 4)); [|apply Permutation_swap].
  apply (reach_alloc 10 a1 _ 3); [|lia|reflexivity].
  apply (reach_alloc 10 (NewSlotAllocator 10) _ 4); [constructor|lia|reflexivity].
Defined.

(** An allocation of at least one slot returns the lowest offset at which the
    block fits into free slots, and fails exactly if there is no such offset: free
    neighbours are always merged, so no free run is missed. *)
Theorem alloc_first_fit max a bs cnt :
  1 <= max < 2 ^ 32 -> reach max a bs -> 1 <= cnt ->
  match Alloc a cnt with
  | (a', Ok off) => fits (free a) off cnt /\ (forall off', fits (free a) off' cnt -> off <= off')
                    /\ (forall s, covers (free a') s <-> covers (free a) s /\ ~ (off <= s < off + cnt))
  | (a', Err _) => a' = a /\ forall off, ~ fits (free a) off cnt
  end.
Proof.
  intros Hm Hr Hc. destruct (reach_inv _ _ _ Hm Hr) as (Hi & _ & _).
  destruct (Alloc a cnt) as [a' [off|e]] eqn:E.
  - destruct (Alloc_Ok _ _ _ _ Hi Hc E) as (_ & _ & _ & _ & F & M & S). by split_and!.
  - by apply (Alloc_Err _ cnt _ e).
Qed.

Lemma alloc_first_fit_witness :
  let a1 := (Alloc (NewSlotAllocator 10) 4).1 in
  (Alloc a1 7).1 = a1 /\ forall off, ~ fits (free a1) off 7.
Proof.
  intros a1. apply (alloc_first_fit 10 a1 [mkRange 0 4] 7); [lia| |lia].
  apply (reach_alloc 10 (NewSlotAllocator 10) _ 4); [constructor|lia|reflexivity].
Defined.

(** Releasing a block that was just allocated restores the free list. *)
Theorem alloc_free_roundtrip max a bs cnt a' off :
  1 <= max < 2 ^ 32 -> reach max a bs -> 1 <= cnt -> Alloc a cnt = (a', Ok off) -> Free a' off cnt = a.
Proof.
  intros Hm Hr Hc E. destruct (reach_inv _ _ _ Hm Hr) as (Hi & _ & _). by apply (free_undoes_alloc _ _ _ _ Hi).
Qed.

Lemma alloc_free_roundtrip_witness : Free (Alloc (NewSlotAllocator 10) 4).1 0 4 = NewSlotAllocator 10.
Proof. apply (alloc_free_roundtrip 10 _ [] 4); [lia|constructor|lia|reflexivity]. Defined.
