(* ===== verification/Maglev.v ===== *)
(** The Maglev table generator, internal/service/maglev.go: every backend walks
    the table in its own permutation and takes the first empty entry in turn.
    For a prime table size the generator returns, and the entries of any two
    backends differ by at most one. *)

From Stdlib Require Import ZArith Lia Zdivisibility String.
From stdpp Require Import base tactics list strings.
From S2P Require Import Prelude GoStrings.

(** * Definitions *)

(** [^uint32(0)], the mark of an empty entry. *)
Definition empty_entry : Z := 4294967295.

(** The probing loop: the first empty entry of the walk from [pos] on. *)
Fixpoint find_slot (fuel : nat) (table : list Z) (pos skip ts : Z) : outcome Z :=
  match fuel with
  | O => Diverge
  | S f =>
      match table !! Z.to_nat pos with
      | None => Panic
      | Some v => if negb (v =? empty_entry) then find_slot f table (wrap32 (pos + skip) mod ts) skip ts
                  else Val pos
      end
  end.

(** The variables of the filling loops. *)
Record fill_state := mkFill { table : list Z; next : list Z; filled : Z }.

(** One pass of [for i := range n] over the backends in [idx]. *)
Fixpoint fill_round (fuel : nat) (skips : list Z) (ts : Z) (idx : list nat) (st : fill_state) : outcome fill_state :=
  match idx with
  | [] => Val st
  | i :: rest =>
      match next st !! i, skips !! i with
      | Some start, Some skip =>
          pos ← find_slot fuel (table st) start skip ts;
          let st' := mkFill (<[Z.to_nat pos := wrap32 (Z.of_nat i)]> (table st))
                            (<[i := wrap32 (pos + skip) mod ts]> (next st)) (filled st + 1) in
          if ts <=? filled st' then Val st' else fill_round fuel skips ts rest st'
      | _, _ => Panic
      end
  end.

(** [for filled < tableSize] *)
Fixpoint fill (rounds fuel : nat) (skips : list Z) (ts : Z) (idx : list nat) (st : fill_state) : outcome fill_state :=
  match rounds with
  | O => Diverge
  | S r =>
      if filled st <? ts then
        st' ← fill_round fuel skips ts idx st;
        fill r fuel skips ts idx st'
      else Val st
  end.

Definition GenerateMaglevTable (fuel : nat) (backends : list string) (tableSize : Z) : outcome (list Z) :=
  let n := length backends in
  if (n =? 0)%nat then
    if tableSize <? 0 then Panic else Val (replicate (Z.to_nat tableSize) 0)
  else if (tableSize <=? 0) || (4294967295 <? tableSize) then Val []
  else
    if tableSize - 1 =? 0 then Panic (* integer divide by zero *)
    else
      let hashes := fnv64a <$> backends in
      let offsets := (fun h => h mod tableSize) <$> hashes in
      let skips := (fun h => wrap32 (wrap32 (Z.shiftr h 32 mod (tableSize - 1)) + 1)) <$> hashes in
      let empty := replicate (Z.to_nat tableSize) empty_entry in
      st ← fill fuel fuel skips tableSize (seq 0 n) (mkFill empty offsets 0);
      Val (table st).

(** * The walk of a backend *)

Section Walk.
Context (ts : Z) (Hprime : Z.prime ts) (Hts : ts <= 2 ^ 31).

Lemma ts_ge2 : 2 <= ts.
Proof. by apply Z.prime_ge_2. Qed.

Lemma step_wrap pos skip : 0 <= pos < ts -> 1 <= skip < ts -> wrap32 (pos + skip) = pos + skip.
Proof. intros. unfold wrap32. apply Z.mod_small. lia. Qed.

(** Every position is reached: [skip] has an inverse modulo [ts]. *)
Lemma walk_reaches pos skip e :
  1 <= skip < ts -> 0 <= e < ts -> exists k : nat, Z.of_nat k < ts /\ (pos + Z.of_nat k * skip) mod ts = e.
Proof.
  intros Hs He. pose proof ts_ge2.
  destruct (Z.Bezout_coprime _ _ (Z.coprime_prime_small ts skip Hprime Hs)) as (v & u & Huv).
  pose proof (Z.mod_pos_bound ((e - pos) * u) ts ltac:(lia)).
  exists (Z.to_nat (((e - pos) * u) mod ts)). rewrite Z2Nat.id by lia. split; [lia|].
  rewrite <- Zplus_mod_idemp_r, Zmult_mod_idemp_l, Zplus_mod_idemp_r.
  replace (pos + (e - pos) * u * skip) with (e + (- (e - pos) * v) * ts).
  2: { replace ((e - pos) * u * skip) with ((e - pos) * (u * skip)) by ring.
       replace (u * skip) with (1 - v * ts) by lia. ring. }
  rewrite Z.mod_add by lia. by apply Z.mod_small.
Qed.

Lemma find_slot_reaches tbl skip e :
  Z.of_nat (length tbl) = ts -> 1 <= skip < ts -> tbl !! Z.to_nat e = Some empty_entry ->
  forall k fuel pos, 0 <= pos < ts -> (pos + Z.of_nat k * skip) mod ts = e -> (k < fuel)%nat ->
  exists p, find_slot fuel tbl pos skip ts = Val p /\ 0 <= p < ts /\ tbl !! Z.to_nat p = Some empty_entry.
Proof.
  intros Hl Hs He k. induction k as [|k IH]; intros [|fuel] pos Hp Hk Hf; try lia; cbn [find_slot].
  - replace (pos + Z.of_nat 0 * skip) with pos in Hk by lia. rewrite Z.mod_small in Hk by lia. subst e.
    rewrite He. exists pos. by rewrite Z.eqb_refl.
  - destruct (lookup_lt_is_Some_2 tbl (Z.to_nat pos)) as [v Hv]; [lia|]. rewrite Hv.
    destruct (v =? empty_entry) eqn:E; cbn [negb]; to_prop; [exists pos; by subst|].
    rewrite step_wrap by done. apply IH; [apply Z.mod_pos_bound; lia| |lia].
    rewrite Zplus_mod_idemp_l, <- Hk. f_equal. lia.
Qed.

Lemma find_slot_total tbl pos skip e fuel :
  Z.of_nat (length tbl) = ts -> 0 <= pos < ts -> 1 <= skip < ts -> e ∈ tbl -> e = empty_entry ->
  ts <= Z.of_nat fuel ->
  exists p, find_slot fuel tbl pos skip ts = Val p /\ 0 <= p < ts /\ tbl !! Z.to_nat p = Some empty_entry.
Proof.
  intros Hl Hp Hs He -> Hf. apply list_elem_of_lookup_1 in He as [j Hj].
  pose proof (lookup_lt_Some _ _ _ Hj).
  destruct (walk_reaches pos skip (Z.of_nat j) Hs ltac:(lia)) as (k & Hk & Ek).
  eapply (find_slot_reaches tbl skip (Z.of_nat j)); [done|done|by rewrite Nat2Z.id|done|done|lia].
Qed.

End Walk.

(** Primality by trial division up to the square root. *)
Fixpoint no_divisor (p : Z) (d : Z) (k : nat) : bool :=
  match k with
  | O => true
  | S k => negb (p mod d =? 0) && no_divisor p (d + 1) k
  end.

Lemma no_divisor_spec p k : forall d, no_divisor p d k = true -> forall x, d <= x < d + Z.of_nat k -> 0 < d -> ~ (x | p).
Proof.
  induction k as [|k IH]; intros d; cbn [no_divisor]; [lia|]. rewrite andb_true_iff, negb_true_iff, Z.eqb_neq.
  intros [H1 H2] x Hx Hd Hdiv. destruct (decide (x = d)) as [->|]; [by apply H1, Z.mod_divide; [lia|]|].
  by apply (IH (d + 1)) in Hdiv; [|done|lia..].
Qed.

Lemma prime_by_trial p : (1 <? p) && no_divisor p 2 (Z.to_nat (Z.sqrt p - 1)) = true -> Z.prime p.
Proof.
  rewrite andb_true_iff, Z.ltb_lt. intros [Hp Ht]. split; [done|]. intros n Hn [m Hm].
  pose proof (Z.sqrt_spec p ltac:(lia)) as Hs. cbv zeta in Hs. set (r := Z.sqrt p) in *.
  assert (1 < m < p) as Hm1 by nia. assert (0 <= r) by apply Z.sqrt_nonneg.
  destruct (decide (n <= r)).
  - apply (no_divisor_spec _ _ _ Ht n); [lia..|]. by exists m.
  - assert (m <= r).
    { destruct (decide (m <= r)) as [|Hgt]; [done|]. pose proof (Z.mul_le_mono_nonneg (r + 1) m (r + 1) n ltac:(lia) ltac:(lia) ltac:(lia) ltac:(lia)). nia. }
    apply (no_divisor_spec _ _ _ Ht m); [lia..|]. exists n. lia.
Qed.

(** * Counting entries *)

Definition entries (v : Z) (l : list Z) : nat := length (filter (fun x => x = v) l).

Lemma entries_insert v w u l i :
  l !! i = Some w ->
  (entries u (<[i := v]> l) + (if decide (u = w) then 1 else 0) = entries u l + (if decide (u = v) then 1 else 0))%nat.
Proof.
  unfold entries. revert i. induction l as [|x l IH]; intros [|i] H; [done..| |].
  - cbn in H. injection H as ->. change (<[0%nat := v]> (w :: l)) with (v :: l).
    rewrite !filter_cons. repeat case_decide; cbn [length]; simplify_eq; lia.
  - specialize (IH _ H). change (<[S i := v]> (x :: l)) with (x :: <[i := v]> l).
    rewrite !filter_cons. repeat case_decide; cbn [length]; lia.
Qed.

Lemma entries_elem v l : (1 <= entries v l)%nat -> v ∈ l.
Proof.
  unfold entries. destruct (filter (fun x => x = v) l) as [|x f] eqn:E; cbn; [lia|].
  intros _. assert (x ∈ filter (fun x => x = v) l) as H by (rewrite E; left).
  apply list_elem_of_filter in H as [-> H]. done.
Qed.

Lemma entries_replicate v w n : entries v (replicate n w) = if decide (v = w) then n else 0%nat.
Proof.
  unfold entries. induction n as [|n IH]; [by case_decide|].
  cbn [replicate]. rewrite filter_cons. repeat case_decide; cbn [length]; simplify_eq; lia.
Qed.

(** The number of turns backend [i] of [n] has had after [k] turns. *)
Definition turns (n i k : Z) : Z := (k - i + n - 1) / n.

Lemma turns_succ n i k :
  0 <= i < n -> 0 <= k -> turns n i (k + 1) = turns n i k + (if decide (k mod n = i) then 1 else 0).
Proof.
  intros Hi Hk. unfold turns. replace (k + 1 - i + n - 1) with (k - i + n) by lia.
  pose proof (Z.div_mod k n ltac:(lia)). pose proof (Z.mod_pos_bound k n ltac:(lia)).
  set (q := k / n) in *. set (r := k mod n) in *. case_decide as E.
  - rewrite <- (Z.div_unique_pos (k - i + n) n (q + 1) 0) by lia.
    rewrite <- (Z.div_unique_pos (k - i + n - 1) n q (n - 1)) by lia. lia.
  - destruct (decide (r < i)).
    + rewrite <- (Z.div_unique_pos (k - i + n) n q (r - i + n)) by lia.
      rewrite <- (Z.div_unique_pos (k - i + n - 1) n q (r - i + n - 1)) by lia. lia.
    + rewrite <- (Z.div_unique_pos (k - i + n) n (q + 1) (r - i)) by lia.
      rewrite <- (Z.div_unique_pos (k - i + n - 1) n (q + 1) (r - i - 1)) by lia. lia.
Qed.

Lemma turns_total n i k : 0 <= i < n -> 0 <= k -> turns n i k = k / n + (if i <? k mod n then 1 else 0).
Proof.
  intros Hi Hk. unfold turns. pose proof (Z.div_mod k n ltac:(lia)). pose proof (Z.mod_pos_bound k n ltac:(lia)).
  set (q := k / n) in *. set (r := k mod n) in *. destruct (i <? r) eqn:E; to_prop.
  - rewrite <- (Z.div_unique_pos (k - i + n - 1) n (q + 1) (r - i - 1)) by lia. lia.
  - rewrite <- (Z.div_unique_pos (k - i + n - 1) n q (r - i + n - 1)) by lia. lia.
Qed.

(** * The filling loops *)

Section Fill.
Context (ts : Z) (Hprime : Z.prime ts) (Hts : ts <= 2 ^ 31).
Context (n : nat) (Hn : (1 <= n)%nat) (Hn32 : Z.of_nat n <= empty_entry).
Context (skips : list Z) (Hskips : length skips = n) (Hskip : Forall (fun s => 1 <= s < ts) skips).

(** After [filled] turns: the entries are of backends that had a turn or empty. *)
Record filling (st : fill_state) : Prop := {
  f_table : Z.of_nat (length (table st)) = ts;
  f_next : length (next st) = n;
  f_pos : Forall (fun p => 0 <= p < ts) (next st);
  f_filled : 0 <= filled st <= ts;
  f_empty : Z.of_nat (entries empty_entry (table st)) = ts - filled st;
  f_vals : Forall (fun v => v = empty_entry \/ 0 <= v < Z.of_nat n) (table st);
  f_turns : forall i, 0 <= i < Z.of_nat n -> Z.of_nat (entries i (table st)) = turns (Z.of_nat n) i (filled st);
}.

Lemma place_filling st i pos p' :
  filling st -> (i < n)%nat -> filled st < ts -> filled st mod Z.of_nat n = Z.of_nat i ->
  table st !! Z.to_nat pos = Some empty_entry -> 0 <= p' < ts ->
  filling (mkFill (<[Z.to_nat pos := Z.of_nat i]> (table st)) (<[i := p']> (next st)) (filled st + 1)).
Proof.
  intros [F1 F2 F3 F4 F5 F6 F7] Hi Hlt Hmod He Hp.
  pose proof (fun u => entries_insert (Z.of_nat i) empty_entry u _ _ He) as Hent.
  split; cbn [table next filled].
  - by rewrite length_insert.
  - by rewrite length_insert.
  - by apply Forall_insert.
  - lia.
  - specialize (Hent empty_entry). rewrite decide_True, decide_False in Hent by lia. lia.
  - apply Forall_insert; [done|right; lia].
  - intros j Hj. rewrite turns_succ, <- F7 by lia. specialize (Hent j). rewrite decide_False in Hent by lia.
    rewrite Hmod. repeat case_decide; lia.
Qed.

Lemma fill_round_ok fuel m : forall i st,
  ts <= Z.of_nat fuel -> filling st -> filled st < ts -> (i + m = n)%nat ->
  filled st mod Z.of_nat n = Z.of_nat i mod Z.of_nat n ->
  exists st', fill_round fuel skips ts (seq i m) st = Val st' /\ filling st'
    /\ filled st + Z.of_nat (Nat.min 1 m) <= filled st'
    /\ (filled st' < ts -> filled st' mod Z.of_nat n = 0).
Proof.
  induction m as [|m IH]; intros i st Hfuel Hf Hlt Him Hmod.
  { exists st. cbn. split_and!; [done|done|lia|]. intros _. rewrite Hmod.
    replace i with n by lia. apply Z.mod_same. lia. }
  cbn [seq fill_round]. rewrite (Z.mod_small (Z.of_nat i)) in Hmod by lia.
  destruct (lookup_lt_is_Some_2 (next st) i) as [start Es]; [rewrite (f_next _ Hf); lia|].
  destruct (lookup_lt_is_Some_2 skips i) as [skip Ek]; [lia|]. rewrite Es, Ek.
  pose proof (Forall_lookup_1 _ _ _ _ (f_pos _ Hf) Es) as Hs. pose proof (Forall_lookup_1 _ _ _ _ Hskip Ek) as Hk.
  destruct (find_slot_total ts Hprime Hts (table st) start skip empty_entry fuel) as (p & -> & Hp & He); try done.
  { apply Hf. }
  { apply entries_elem. pose proof (f_empty _ Hf). lia. }
  cbn [mbind outcome_bind filled].
  rewrite (wrap32_small (Z.of_nat i)) by (unfold empty_entry in *; lia).
  set (st' := mkFill _ _ _). assert (filling st') as Hf'.
  { apply place_filling; [done|lia|done..|]. apply Z.mod_pos_bound. pose proof (Z.prime_ge_2 _ Hprime). lia. }
  destruct (ts <=? filled st + 1) eqn:E; to_prop.
  - exists st'. split_and!; [done|done|cbn; lia|]. cbn. lia.
  - destruct (IH (S i) st') as (st2 & E2 & Hf2 & Hinc & Hz); [done|done|cbn; lia|lia| |].
    { cbn [st' filled]. rewrite <- Zplus_mod_idemp_l, Hmod. f_equal. lia. }
    exists st2. split_and!; [done|done| |done]. cbn [st' filled] in Hinc. lia.
Qed.

Lemma fill_ok fuel rounds : forall st,
  ts <= Z.of_nat fuel -> filling st -> (filled st < ts -> filled st mod Z.of_nat n = 0) ->
  ts - filled st < Z.of_nat rounds ->
  exists st', fill rounds fuel skips ts (seq 0 n) st = Val st' /\ filling st' /\ filled st' = ts.
Proof.
  induction rounds as [|r IH]; intros st Hfuel Hf Hmod Hr; [pose proof (f_filled _ Hf); lia|].
  cbn [fill]. destruct (filled st <? ts) eqn:E; to_prop.
  2: { exists st. split_and!; [done|done|]. pose proof (f_filled _ Hf). lia. }
  destruct (fill_round_ok fuel n 0 st) as (st1 & -> & Hf1 & Hinc & Hz); [done..|by rewrite Hmod, Z.mod_0_l by lia|].
  cbn [mbind outcome_bind]. apply IH; [done..|lia].
Qed.

End Fill.

(** * Theorems *)

Lemma hash_skip_range h ts : 2 <= ts <= 2 ^ 31 -> 1 <= wrap32 (wrap32 (Z.shiftr h 32 mod (ts - 1)) + 1) < ts.
Proof.
  intros H. pose proof (Z.mod_pos_bound (Z.shiftr h 32) (ts - 1) ltac:(lia)).
  rewrite (wrap32_small (_ mod _)) by lia. rewrite wrap32_small; lia.
Qed.

Lemma GenerateMaglevTable_ok backends ts fuel :
  Z.prime ts -> ts <= 2 ^ 31 -> backends <> [] -> Z.of_nat (length backends) <= empty_entry -> ts < Z.of_nat fuel ->
  exists tbl, GenerateMaglevTable fuel backends ts = Val tbl /\ Z.of_nat (length tbl) = ts
    /\ (forall v, v ∈ tbl -> 0 <= v < Z.of_nat (length backends))
    /\ (forall i, 0 <= i < Z.of_nat (length backends) ->
          Z.of_nat (entries i tbl) = turns (Z.of_nat (length backends)) i ts).
Proof.
  intros Hp H31 Hne Hlen Hfuel. pose proof (Z.prime_ge_2 _ Hp) as H2. unfold GenerateMaglevTable.
  assert (1 <= length backends)%nat as Hn by (destruct backends; cbn; [done|lia]).
  set (n := length backends) in *.
  destruct (n =? 0)%nat eqn:E0; [apply Nat.eqb_eq in E0; lia|].
  destruct ((ts <=? 0) || (4294967295 <? ts)) eqn:E1; to_prop; [lia|].
  destruct (ts - 1 =? 0) eqn:E2; to_prop; [lia|].
  match goal with |- context [fill _ _ ?sk ts _ ?s0] => set (skips := sk); set (st0 := s0) end.
  assert (filling ts n st0) as Hf0.
  { split; cbn [st0 table next filled].
    - rewrite length_replicate. lia.
    - by rewrite !length_fmap.
    - apply Forall_fmap, Forall_true. intros h. apply Z.mod_pos_bound. lia.
    - lia.
    - rewrite entries_replicate, decide_True by done. lia.
    - apply Forall_forall. intros v ->%elem_of_replicate_inv. by left.
    - intros i Hi. rewrite entries_replicate, decide_False by lia. unfold turns. symmetry. apply Z.div_small. lia. }
  destruct (fill_ok ts Hp H31 n Hn Hlen skips) with (fuel := fuel) (rounds := fuel) (st := st0)
    as (st' & -> & Hf & Hfull); [by unfold skips; rewrite !length_fmap| |lia|done|by rewrite Z.mod_0_l by lia|cbn; lia|].
  { apply Forall_fmap, Forall_true. intros h. apply hash_skip_range. lia. }
  exists (table st'). split; [done|]. split; [apply Hf|]. split; [|intros i Hi; rewrite <- Hfull; by apply Hf].
  intros v Hv. destruct (proj1 (Forall_forall _ _) (f_vals _ _ _ Hf) v Hv) as [->|]; [exfalso|done].
  assert (1 <= entries empty_entry (table st'))%nat as He.
  { unfold entries. assert (empty_entry ∈ filter (fun x => x = empty_entry) (table st')) as Hin by (by apply list_elem_of_filter).
    destruct (filter _ _); [by apply elem_of_nil in Hin|cbn; lia]. }
  pose proof (f_empty _ _ _ Hf). lia.
Qed.

(** C30: For a prime table size (the code uses 65537) and at least one backend
    the generator returns a table of that size whose entries are all backend
    indexes, and every backend owns its even share of the entries: size / n, one
    more for the first size mod n backends. *)
Theorem maglev_even_shares backends ts :
  Z.prime ts -> ts <= 2 ^ 31 -> backends <> [] -> Z.of_nat (length backends) < 2 ^ 32 ->
  let n := Z.of_nat (length backends) in
  exists tbl, GenerateMaglevTable (S (Z.to_nat ts)) backends ts = Val tbl
    /\ Z.of_nat (length tbl) = ts
    /\ (forall v, v ∈ tbl -> 0 <= v < n)
    /\ (forall i, 0 <= i < n -> Z.of_nat (entries i tbl) = ts / n + (if i <? ts mod n then 1 else 0)).
Proof.
  intros Hp H31 Hne Hlen n. pose proof (Z.prime_ge_2 _ Hp).
  destruct (GenerateMaglevTable_ok backends ts (S (Z.to_nat ts))) as (tbl & E & Hl & Hv & Ht);
    [done..|unfold empty_entry; lia|lia|].
  exists tbl. split_and!; [done..|]. intros i Hi. rewrite Ht by done. by apply turns_total; lia.
Qed.

Lemma maglev_even_shares_witness :
  exists tbl, GenerateMaglevTable (S (Z.to_nat 7)) ["10.0.0.1:80"; "10.0.0.2:80"; "10.0.0.3:80"] 7 = Val tbl
    /\ Z.of_nat (entries 0 tbl) = 3 /\ Z.of_nat (entries 1 tbl) = 2 /\ Z.of_nat (entries 2 tbl) = 2.
Proof.
  destruct (maglev_even_shares ["10.0.0.1:80"; "10.0.0.2:80"; "10.0.0.3:80"] 7) as (tbl & E & _ & _ & Hs).
  - by apply prime_by_trial.
  - lia.
  - done.
  - cbn. lia.
  - exists tbl. split; [exact E|]. split_and!; (rewrite Hs; [reflexivity|cbn; lia]).
Defined.

(** Outside that case the generator also returns, with a table of zeros for
    no backends and without a table for a size that is not positive or not below
    2^32; the one size it cannot handle is 1, for which it divides by zero. *)
Theorem maglev_edge_sizes fuel backends ts :
  GenerateMaglevTable fuel [] (Z.of_nat ts) = Val (replicate ts 0)
  /\ (backends <> [] -> ts = 0%nat \/ 2 ^ 32 <= Z.of_nat ts -> GenerateMaglevTable fuel backends (Z.of_nat ts) = Val [])
  /\ (backends <> [] -> GenerateMaglevTable fuel backends 1 = Panic).
Proof.
  unfold GenerateMaglevTable. split_and!.
  - cbn [length Nat.eqb]. destruct (Z.of_nat ts <? 0) eqn:E; to_prop; [lia|]. by rewrite Nat2Z.id.
  - intros Hne Hts. destruct backends; [done|]. cbn [length Nat.eqb].
    destruct ((Z.of_nat ts <=? 0) || (4294967295 <? Z.of_nat ts)) eqn:E; [done|to_prop; lia].
  - intros Hne. by destruct backends.
Qed.

Lemma maglev_edge_sizes_witness : GenerateMaglevTable 10 ["10.0.0.1:80"] 1 = Panic.
Proof. apply (maglev_edge_sizes 10 ["10.0.0.1:80"] 0). discriminate. Defined.
