(* ===== verification/ServiceWatcher.v ===== *)
(** The service watcher, internal/service/watcher.go: it turns Kubernetes
    Services and EndpointSlices into slots of the backend array, Maglev tables and
    entries of the dataplane's service table.  The calls to the dataplane are the
    trace a handler emits (their answers are only logged); the informer caches
    are arguments.  The backend slots of the tracked services never overlap and
    every slot a service refers to is its own; deleting a service deletes the
    entries its last reconciliation made.  Two leaks are recorded as theorems. *)

From Stdlib Require Import ZArith Lia Zdivisibility String.
From stdpp Require Import base tactics list gmap strings fin_maps.
From S2P Require Import Prelude GoStrings GoNet Constants SlotAllocator Maglev.

(** * Kubernetes objects, as far as the watcher reads them *)

(** [TargetPort.IntValue()] is kept as its value. *)
Record ServicePort := mkPort {
  p_Name : string; p_Protocol : string; p_Port : Z; p_TargetPort : Z; p_NodePort : Z }.

Record Service := mkService {
  s_Namespace : string; s_Name : string;
  ClusterIPs : list string; ClusterIP : string;
  Ports : list ServicePort; s_Type : string;
  ExternalIPs : list string; Ingress : list string;
  SessionAffinity : string; ExternalTrafficPolicy : string;
  InternalTrafficPolicy : option string; AffinitySeconds : option Z }.

Record Endpoint := mkEndpoint { Ready : option bool; Addresses : list string }.

Record EndpointSlice := mkSlice {
  e_Namespace : string; ServiceLabel : option string;
  Endpoints : list Endpoint; e_Ports : list (option Z * option string) }.

(** * Requests to the dataplane *)

Record ServiceKey := mkKey { k_Ip : string; k_Port : Z; k_Protocol : Z; k_Scope : Z }.

#[export] Instance ServiceKey_eq_dec : EqDecision ServiceKey.
Proof. solve_decision. Defined.
#[export] Instance ServiceKey_countable : Countable ServiceKey.
Proof.
  refine (inj_countable' (fun k => (k_Ip k, k_Port k, k_Protocol k, k_Scope k))
            (fun t => mkKey t.1.1.1 t.1.1.2 t.1.2 t.2) _). by intros [].
Defined.

Record ServiceValue := mkValue {
  BackendCount : Z; BackendOffset : Z; Algorithm : Z; Flags : Z; AffinityTimeout : Z; MaglevOffset : Z }.

Record BackendEntry := mkBackend { b_Index : Z; b_Ip : string; b_Port : Z; b_NodeIp : string }.

Inductive dp_call :=
| UpsertService (k : ServiceKey) (v : ServiceValue)
| DeleteService (k : ServiceKey)
| UpsertBackends (l : list BackendEntry)
| UpsertMaglevTable (off : Z) (entries : list Z).

(** * The watcher *)

Definition MaglevTableSize : Z := 65537.

Record serviceState := mkState {
  backendOffset : Z; backendCount : Z; algorithm : Z; maglevOffset : Z;
  scopes : list Z; clusterIPs : list string }.

Record Watcher := mkWatcher {
  allocator : SlotAllocator; defaultAlg : string; dsrEnabled : bool;
  maglevAllocator : SlotAllocator; services : gmap string serviceState }.

(** [NewWatcher] with the option [WithDSR]. *)
Definition NewWatcher (alloc : SlotAllocator) (alg : string) (dsr : bool) : Watcher :=
  mkWatcher alloc alg dsr (NewSlotAllocator 1048576) ∅.

(** ** Helpers *)

Definition portToU32 (port : Z) : Z := if port <? 0 then 0 else wrap32 port.

Definition intToU32 (n : Z) : Z := if n <? 0 then 0 else wrap32 n.

Definition svc_key (svc : Service) : string := s_Namespace svc +:+ "/" +:+ s_Name svc.

Definition serviceClusterIPs (svc : Service) : list string :=
  if negb (length (ClusterIPs svc) =? 0)%nat then
    filter (fun ip => Is_true (negb (String.eqb ip "") && negb (String.eqb ip "None"))) (ClusterIPs svc)
  else if negb (String.eqb (ClusterIP svc) "") && negb (String.eqb (ClusterIP svc) "None") then [ClusterIP svc]
  else [].

Record backendInfo := mkBackendInfo { ip : string; nodeIP : string; port : Z; portName : string }.

Definition slice_backends (eps : EndpointSlice) : list backendInfo :=
  ep ← Endpoints eps;
  if (match Ready ep with Some r => negb r | None => false end) then []
  else
    addr ← Addresses ep;
    match ParseIP addr with
    | None => []
    | Some _ =>
        [match e_Ports eps with
         | (Some p, name) :: _ => mkBackendInfo addr "" p (default "" name)
         | _ => mkBackendInfo addr "" 0 ""
         end]
    end.

(** [collectBackends]; [store] is what [epsStore.List()] yields, in its order, and
    [None] before [Start]. *)
Definition collectBackends (store : option (list EndpointSlice)) (svc : Service) : list backendInfo :=
  match store with
  | None => []
  | Some l =>
      eps ← l;
      if negb (String.eqb (e_Namespace eps) (s_Namespace svc)) then []
      else match ServiceLabel eps with
           | Some name => if negb (String.eqb name (s_Name svc)) then [] else slice_backends eps
           | None => []
           end
  end.

Definition resolveAlgorithm (w : Watcher) : Z :=
  let s := to_lower (defaultAlg w) in
  if String.eqb s "round-robin" then AlgRoundRobin
  else if String.eqb s "maglev" then AlgMaglev
  else AlgRandom.

Definition computeScopes (svc : Service) : list Z :=
  [ScopeClusterIP]
  ++ (if String.eqb (s_Type svc) "NodePort" then [ScopeNodePort]
      else if String.eqb (s_Type svc) "LoadBalancer" then [ScopeNodePort; ScopeLoadBalancer]
      else [])
  ++ (if (0 <? length (ExternalIPs svc))%nat then [ScopeExternalIP] else []).

Definition serviceIPForScope (clusterIP : string) (scope : Z) (specificIP : string) : string :=
  if scope =? ScopeClusterIP then clusterIP
  else if scope =? ScopeNodePort then ""
  else if (scope =? ScopeExternalIP) || (scope =? ScopeLoadBalancer) then
    if negb (String.eqb specificIP "") then specificIP else clusterIP
  else clusterIP.

Definition servicePortForScope (p : ServicePort) (scope : Z) : Z :=
  if (scope =? ScopeNodePort) && (0 <? p_NodePort p) then portToU32 (p_NodePort p) else portToU32 (p_Port p).

Definition computeFlags (w : Watcher) (svc : Service) : Z :=
  let f := 0 in
  let f := if String.eqb (SessionAffinity svc) "ClientIP" then Z.lor f 1 else f in
  let f := if String.eqb (ExternalTrafficPolicy svc) "Local" then Z.lor f 2 else f in
  let f := if dsrEnabled w then Z.lor f 4 else f in
  match InternalTrafficPolicy svc with
  | Some p => if String.eqb p "Local" then Z.lor f 8 else f
  | None => f
  end.

Definition computeAffinityTimeout (svc : Service) : Z :=
  match AffinitySeconds svc with Some t => portToU32 t | None => 0 end.

Definition resolveTargetPort (p : ServicePort) (be : backendInfo) : Z :=
  if negb (String.eqb (portName be) "") && String.eqb (portName be) (p_Name p) then portToU32 (port be)
  else if (0 <? port be) && String.eqb (p_Name p) "" then portToU32 (port be)
  else if 0 <? p_TargetPort p then intToU32 (p_TargetPort p)
  else portToU32 (p_Port p).

(** ** Calls to the dataplane *)

(** The deletions of the entries of the tracked ClusterIPs in one scope. *)
Definition delete_cluster (svc : Service) (ips : list string) (scope : Z) : list dp_call :=
  p ← Ports svc;
  clusterIP ← ips;
  [DeleteService (mkKey (serviceIPForScope clusterIP scope "") (servicePortForScope p scope)
                        (ProtocolToNumber (p_Protocol p)) scope)].

(** [freeOldState] *)
Definition freeOldState (w : Watcher) (svc : Service) (old : serviceState) : Watcher * list dp_call :=
  let alloc := if 0 <? backendCount old then Free (allocator w) (backendOffset old) (backendCount old) else allocator w in
  let mag := if (algorithm old =? AlgMaglev) && (0 <? maglevOffset old)
             then Free (maglevAllocator w) (maglevOffset old) MaglevTableSize else maglevAllocator w in
  (mkWatcher alloc (defaultAlg w) (dsrEnabled w) mag (services w),
   scope ← scopes old; delete_cluster svc (clusterIPs old) scope).

Definition with_index {A} (l : list A) : list (nat * A) := imap pair l.

Definition pushBackends (off : Z) (backends : list backendInfo) (ports : list ServicePort) : list dp_call :=
  let entries :=
    '(portIdx, p) ← with_index ports;
    '(i, be) ← with_index backends;
    [mkBackend (wrap32 (off + intToU32 (Z.of_nat portIdx * Z.of_nat (length backends) + Z.of_nat i)))
               (ip be) (resolveTargetPort p be) (nodeIP be)] in
  if (0 <? length entries)%nat then [UpsertBackends entries] else [].

Definition upsertServiceEntries (w : Watcher) (svc : Service) (ips : list string) (off : Z)
    (backends : list backendInfo) (alg maglevOff : Z) (scs : list Z) : list dp_call :=
  '(portIdx, p) ← with_index (Ports svc);
  let proto := ProtocolToNumber (p_Protocol p) in
  let v := mkValue (intToU32 (Z.of_nat (length backends)))
                   (wrap32 (off + intToU32 (Z.of_nat portIdx * Z.of_nat (length backends))))
                   alg (computeFlags w svc) (computeAffinityTimeout svc) maglevOff in
  (scope ← scs;
   clusterIP ← ips;
   [UpsertService (mkKey (serviceIPForScope clusterIP scope "") (servicePortForScope p scope) proto scope) v])
  ++ (extIP ← ExternalIPs svc;
      [UpsertService (mkKey extIP (portToU32 (p_Port p)) proto ScopeExternalIP) v])
  ++ (if String.eqb (s_Type svc) "LoadBalancer" then
        ing ← Ingress svc;
        if String.eqb ing "" then [] else
        [UpsertService (mkKey ing (portToU32 (p_Port p)) proto ScopeLoadBalancer) v]
      else []).

(** [deleteServiceLocked] *)
Definition deleteService (w : Watcher) (svc : Service) : Watcher * list dp_call :=
  match services w !! svc_key svc with
  | None => (w, [])
  | Some st =>
      let calls :=
        scope ← scopes st;
        delete_cluster svc (clusterIPs st) scope
        ++ (if scope =? ScopeExternalIP then
              extIP ← ExternalIPs svc; p ← Ports svc;
              [DeleteService (mkKey extIP (portToU32 (p_Port p)) (ProtocolToNumber (p_Protocol p)) ScopeExternalIP)]
            else [])
        ++ (if scope =? ScopeLoadBalancer then
              ing ← Ingress svc;
              if String.eqb ing "" then [] else
              p ← Ports svc;
              [DeleteService (mkKey ing (portToU32 (p_Port p)) (ProtocolToNumber (p_Protocol p)) ScopeLoadBalancer)]
            else []) in
      let alloc := if 0 <? backendCount st then Free (allocator w) (backendOffset st) (backendCount st) else allocator w in
      let mag := if (algorithm st =? AlgMaglev) && (0 <? maglevOffset st)
                 then Free (maglevAllocator w) (maglevOffset st) MaglevTableSize else maglevAllocator w in
      (mkWatcher alloc (defaultAlg w) (dsrEnabled w) mag (delete (svc_key svc) (services w)), calls)
  end.

(** The Maglev part of [reconcileService]: the allocator, the algorithm and table
    offset to use, and the call.  The target port of the first service port is
    read for every backend. *)
Definition setupMaglev (mag : SlotAllocator) (svc : Service) (backends : list backendInfo) (alg : Z)
    : outcome (SlotAllocator * Z * Z * list dp_call) :=
  if alg =? AlgMaglev then
    match Alloc mag MaglevTableSize with
    | (mag', Err _) => Val (mag', AlgRandom, 0, [])
    | (mag', Ok off) =>
        match Ports svc with
        | [] => Panic (* svc.Spec.Ports[0] with at least one backend *)
        | p :: _ =>
            let backendStrs := (fun be => ip be +:+ ":" +:+ fmt_d (resolveTargetPort p be)) <$> backends in
            table ← GenerateMaglevTable (S (Z.to_nat MaglevTableSize)) backendStrs MaglevTableSize;
            Val (mag', alg, off, [UpsertMaglevTable off table])
        end
    end
  else Val (mag, alg, 0, []).

Definition reconcileService (store : option (list EndpointSlice)) (w : Watcher) (svc : Service)
    : outcome (Watcher * list dp_call) :=
  let key := svc_key svc in
  let ips := serviceClusterIPs svc in
  if (length ips =? 0)%nat then
    match services w !! key with
    | Some _ => Val (deleteService w svc)
    | None => Val (w, [])
    end
  else
    let backends := collectBackends store svc in
    let alg := resolveAlgorithm w in
    let '(w1, freed) := match services w !! key with
                        | Some old => freeOldState w svc old
                        | None => (w, [])
                        end in
    let forget alloc := mkWatcher alloc (defaultAlg w1) (dsrEnabled w1) (maglevAllocator w1) (delete key (services w1)) in
    if (length backends =? 0)%nat then Val (forget (allocator w1), freed)
    else
      let totalBackends := intToU32 (Z.of_nat (length backends) * Z.of_nat (length (Ports svc))) in
      match Alloc (allocator w1) totalBackends with
      | (alloc', Err _) => Val (forget alloc', freed)
      | (alloc', Ok off) =>
          '(mag', alg', maglevOff, magcalls) ← setupMaglev (maglevAllocator w1) svc backends alg;
          let scs := computeScopes svc in
          let st := mkState off totalBackends alg' maglevOff scs ips in
          Val (mkWatcher alloc' (defaultAlg w1) (dsrEnabled w1) mag' (<[key := st]> (services w1)),
               freed ++ pushBackends off backends (Ports svc) ++ magcalls
               ++ upsertServiceEntries w1 svc ips off backends alg' maglevOff scs)
      end.

(** ** Informer events *)

Inductive event :=
| ServiceChange (svc : Service)
| ServiceDelete (svc : Service)
| EndpointSliceChange (eps : EndpointSlice).

(** One event; [svcs] is the service cache by key, [store] the slice cache. *)
Definition handle (svcs : gmap string Service) (store : option (list EndpointSlice)) (w : Watcher) (e : event)
    : outcome (Watcher * list dp_call) :=
  match e with
  | ServiceChange svc => reconcileService store w svc
  | ServiceDelete svc => Val (deleteService w svc)
  | EndpointSliceChange eps =>
      match ServiceLabel eps with
      | None => Val (w, [])
      | Some name =>
          match svcs !! (e_Namespace eps +:+ "/" +:+ name) with
          | None => Val (w, [])
          | Some svc => reconcileService store w svc
          end
      end
  end.

(** A history of events, each with the caches as they are then. *)
Fixpoint handle_all (w : Watcher) (l : list (gmap string Service * option (list EndpointSlice) * event))
    : outcome (Watcher * list dp_call) :=
  match l with
  | [] => Val (w, [])
  | (svcs, store, e) :: r =>
      '(w1, c1) ← handle svcs store w e;
      '(w2, c2) ← handle_all w1 r;
      Val (w2, c1 ++ c2)
  end.

(** ** Listing *)

Definition ServiceCount (w : Watcher) : Z := Z.of_nat (size (services w)).

Definition scopeName (scope : Z) : string :=
  if scope =? ScopeClusterIP then "ClusterIP"
  else if scope =? ScopeNodePort then "NodePort"
  else if scope =? ScopeExternalIP then "ExternalIP"
  else if scope =? ScopeLoadBalancer then "LoadBalancer"
  else "scope-" +:+ fmt_d scope.

Definition algName (alg : Z) : string :=
  if alg =? AlgRandom then "random"
  else if alg =? AlgRoundRobin then "round-robin"
  else if alg =? AlgMaglev then "maglev"
  else "alg-" +:+ fmt_d alg.

Record ServiceInfo := mkInfo {
  i_ClusterIp : string; i_Port : Z; i_Protocol : string; i_Scope : string;
  i_BackendCount : Z; i_Algorithm : string; i_Backends : list string; i_Dsr : bool }.

(** [ListTrackedServices]; [svcs] is what [svcStore.List()] yields. *)
Definition ListTrackedServices (w : Watcher) (svcs : option (list Service)) (store : option (list EndpointSlice))
    : list ServiceInfo :=
  match svcs with
  | None => []
  | Some l =>
      svc ← l;
      match services w !! svc_key svc with
      | None => []
      | Some st =>
          let backends := collectBackends store svc in
          let backendStrs := (fun be => ip be +:+ ":" +:+ fmt_d (port be)) <$> backends in
          clusterIP ← clusterIPs st;
          p ← Ports svc;
          scope ← scopes st;
          [mkInfo clusterIP (portToU32 (p_Port p)) (p_Protocol p) (scopeName scope)
                  (intToU32 (Z.of_nat (length backends))) (algName (algorithm st)) backendStrs (dsrEnabled w)]
      end
  end.

(** * The dataplane's service table *)

(** The table the calls leave behind. *)
Definition apply_call (t : gmap ServiceKey ServiceValue) (c : dp_call) : gmap ServiceKey ServiceValue :=
  match c with
  | UpsertService k v => <[k := v]> t
  | DeleteService k => delete k t
  | _ => t
  end.

Definition apply_calls (t : gmap ServiceKey ServiceValue) (l : list dp_call) : gmap ServiceKey ServiceValue :=
  foldl apply_call t l.

(** * Backend slots *)

(** The blocks of the backend array that the tracked services own. *)
Definition block (st : serviceState) : list slotRange :=
  if 0 <? backendCount st then [mkRange (backendOffset st) (backendCount st)] else [].

Definition blocks (m : gmap string serviceState) : list slotRange := '(_, st) ← map_to_list m; block st.

Definition watcher_inv (w : Watcher) : Prop := SlotAllocator.inv (allocator w) /\ partitioned (allocator w) (blocks (services w)).

Lemma blocks_insert m k st : m !! k = None -> blocks (<[k := st]> m) ≡ₚ block st ++ blocks m.
Proof. intros H. unfold blocks. by rewrite map_to_list_insert. Qed.

Lemma blocks_delete m k st : m !! k = Some st -> blocks m ≡ₚ block st ++ blocks (delete k m).
Proof.
  intros H. rewrite <- (insert_delete_id m k st H) at 1. apply blocks_insert, lookup_delete_eq.
Qed.

Lemma partitioned_perm a bs bs' : bs ≡ₚ bs' -> partitioned a bs -> partitioned a bs'.
Proof.
  intros H [Hb Hp]. split; [by rewrite <- H|]. intros s. rewrite <- (Hp s).
  apply cover_count_perm. by rewrite H.
Qed.

(** Giving back the block of a service. *)
Lemma free_block a st bs :
  SlotAllocator.inv a -> partitioned a (block st ++ bs) ->
  let a' := if 0 <? backendCount st then Free a (backendOffset st) (backendCount st) else a in
  SlotAllocator.inv a' /\ partitioned a' bs.
Proof.
  intros Hi Hp a'. unfold a', block in *. destruct (0 <? backendCount st) eqn:E; [|done].
  by apply (free_partitioned _ _ (mkRange _ _) bs Hi Hp).
Qed.

Lemma Alloc_zero a a' r : SlotAllocator.inv a -> Alloc a 0 = (a', r) -> a' = a.
Proof.
  intros [Hm Hch]. unfold Alloc. destruct a as [m l]. cbn in *. destruct l as [|[o c] l]; cbn; [by intros [= <-]|].
  destruct Hch as (? & ? & ? & _). cbn in *. destruct (0 <=? c) eqn:E1; to_prop; [|lia].
  destruct (c =? 0) eqn:E2; to_prop; [lia|]. intros [= <- _]. rewrite !wrap32_small by lia.
  by rewrite Z.add_0_r, Z.sub_0_r.
Qed.

Lemma intToU32_range n : 0 <= intToU32 n < 2 ^ 32.
Proof. unfold intToU32. case_match; [lia|]. apply Z.mod_pos_bound. lia. Qed.

(** Taking a block for a service. *)
Lemma take_block a bs cnt a' off alg mo scs ips :
  SlotAllocator.inv a -> partitioned a bs -> 0 <= cnt -> Alloc a cnt = (a', Ok off) ->
  SlotAllocator.inv a' /\ partitioned a' (block (mkState off cnt alg mo scs ips) ++ bs).
Proof.
  intros Hi Hp Hc E. unfold block. cbn. destruct (0 <? cnt) eqn:Ec; to_prop.
  - by eapply alloc_partitioned; [..|lia|done].
  - assert (cnt = 0) as -> by lia. apply Alloc_zero in E as ->; [|done]. done.
Qed.

Lemma delete_inv w svc : watcher_inv w -> watcher_inv (deleteService w svc).1.
Proof.
  intros [Hi Hp]. unfold deleteService. destruct (services w !! svc_key svc) as [st|] eqn:E; [|done].
  unfold watcher_inv. cbn [fst allocator services]. apply (free_block _ st); [done|].
  by eapply partitioned_perm; [apply blocks_delete|].
Qed.

Lemma Alloc_Err_same a cnt a' e : Alloc a cnt = (a', Err e) -> a' = a.
Proof. unfold Alloc. destruct (alloc_from _ _) as [[]|]; [done|]. intros H. by injection H. Qed.

Lemma reconcile_inv store w svc w' calls :
  watcher_inv w -> reconcileService store w svc = Val (w', calls) -> watcher_inv w'.
Proof.
  intros Hw E. unfold reconcileService in E.
  destruct (_ =? 0)%nat eqn:E0.
  { destruct (services w !! svc_key svc); [|by injection E as <- _].
    injection E as E. pose proof (delete_inv w svc Hw) as Hd. by rewrite E in Hd. }
  set (old := services w !! svc_key svc) in E. destruct (match old with Some o => _ | None => _ end) as [w1 freed] eqn:Ew.
  assert (SlotAllocator.inv (allocator w1) /\ partitioned (allocator w1) (blocks (delete (svc_key svc) (services w1)))) as [Hi Hp].
  { destruct Hw as [Hi Hp]. unfold old in Ew. destruct (services w !! svc_key svc) as [o|] eqn:Eo.
    - injection Ew as <- _. cbn [allocator services]. apply (free_block _ o); [done|].
      by eapply partitioned_perm; [apply blocks_delete|].
    - injection Ew as <- <-. by rewrite delete_id. }
  clear Ew old. destruct (length (collectBackends store svc) =? 0)%nat eqn:E1; [by injection E as <- _|].
  destruct (Alloc _ _) as [a' [off|e]] eqn:Ea.
  2: { injection E as <- _. apply Alloc_Err_same in Ea as ->. done. }
  destruct (setupMaglev _ _ _ _) as [[[[mag alg] mo] mc]| |] eqn:Em; [|done..].
  injection E as <- _.
  match goal with |- context [mkState ?o ?c ?a ?m ?s ?i] =>
    destruct (take_block _ _ _ _ _ a m s i Hi Hp (proj1 (intToU32_range _)) Ea) as [Hi' Hp'] end.
  split; [done|]. cbn [allocator services]. eapply partitioned_perm; [|done].
  rewrite <- blocks_insert by apply lookup_delete_eq. by rewrite insert_delete_eq.
Qed.

(** * The calls of a reconciliation *)

Definition is_delete (c : dp_call) : Prop := exists k, c = DeleteService k.

Lemma delete_cluster_deletes svc ips scope : Forall is_delete (delete_cluster svc ips scope).
Proof.
  apply Forall_forall. intros c (p & (i & ->%list_elem_of_singleton & _)%list_elem_of_bind & _)%list_elem_of_bind.
  by eexists.
Qed.

Lemma freeOldState_deletes w svc old : Forall is_delete (freeOldState w svc old).2.
Proof.
  cbn. apply Forall_forall. intros c (scope & H & _)%list_elem_of_bind.
  by eapply Forall_forall in H; [|apply delete_cluster_deletes].
Qed.

Lemma setupMaglev_calls mag svc backends alg mag' alg' mo calls :
  setupMaglev mag svc backends alg = Val (mag', alg', mo, calls) ->
  calls = [] \/ exists table, calls = [UpsertMaglevTable mo table].
Proof.
  unfold setupMaglev. destruct (alg =? AlgMaglev); [|intros [= _ _ _ <-]; by left].
  destruct (Alloc mag MaglevTableSize) as [m [off|e]]; [|intros [= _ _ _ <-]; by left].
  destruct (Ports svc) as [|p ps]; [done|]. destruct (GenerateMaglevTable _ _ _) as [t| |]; [|done..].
  intros [= _ _ <- <-]. right. by exists t.
Qed.

(** A reconciliation forgets the service and deletes entries, or it takes a block
    of slots, fills it, and points the entries of the service to it. *)
Lemma reconcile_shape store w svc w' calls :
  reconcileService store w svc = Val (w', calls) ->
  (services w' !! svc_key svc = None /\ Forall is_delete calls)
  \/ let backends := collectBackends store svc in
     let total := intToU32 (Z.of_nat (length backends) * Z.of_nat (length (Ports svc))) in
     exists w1 freed off alg mo mcalls, backends <> [] /\
       Forall is_delete freed /\ (mcalls = [] \/ exists table, mcalls = [UpsertMaglevTable mo table])
       /\ (watcher_inv w -> SlotAllocator.inv (allocator w1)) /\ maxSlots (allocator w1) = maxSlots (allocator w)
       /\ Alloc (allocator w1) total = (allocator w', Ok off)
       /\ services w' !! svc_key svc = Some (mkState off total alg mo (computeScopes svc) (serviceClusterIPs svc))
       /\ calls = freed ++ pushBackends off backends (Ports svc) ++ mcalls
                  ++ upsertServiceEntries w1 svc (serviceClusterIPs svc) off backends alg mo (computeScopes svc).
Proof.
  intros E. unfold reconcileService in E. destruct (length (serviceClusterIPs svc) =? 0)%nat eqn:E0.
  { left. destruct (services w !! svc_key svc) as [st|] eqn:Es.
    - unfold deleteService in E. rewrite Es in E. injection E as <- <-. split; [apply lookup_delete_eq|].
      apply Forall_forall. intros c (scope & H & _)%list_elem_of_bind. rewrite !elem_of_app in H.
      destruct H as [H|[H|H]].
      + by eapply Forall_forall in H; [|apply delete_cluster_deletes].
      + destruct (scope =? _); [|by apply elem_of_nil in H].
        apply list_elem_of_bind in H as (e & (p & ->%list_elem_of_singleton & _)%list_elem_of_bind & _). by eexists.
      + destruct (scope =? _); [|by apply elem_of_nil in H].
        apply list_elem_of_bind in H as (e & H & _). destruct (String.eqb e ""); [by apply elem_of_nil in H|].
        apply list_elem_of_bind in H as (p & ->%list_elem_of_singleton & _). by eexists.
    - injection E as <- <-. by split. }
  destruct (match services w !! svc_key svc with Some o => _ | None => _ end) as [w1 freed] eqn:Ew.
  assert (Forall is_delete freed /\ (watcher_inv w -> SlotAllocator.inv (allocator w1))
          /\ maxSlots (allocator w1) = maxSlots (allocator w)) as (Hf & Hi & Hm).
  { destruct (services w !! svc_key svc) as [o|] eqn:Eo.
    - pose proof (freeOldState_deletes w svc o) as Hd. injection Ew as <- <-. split; [done|]. cbn [allocator]. split.
      + intros [Hi Hp]. apply (free_block _ o (blocks (delete (svc_key svc) (services w)))); [done|].
        by eapply partitioned_perm; [apply blocks_delete|].
      + by destruct (0 <? backendCount o).
    - injection Ew as <- <-. split_and!; [constructor|by intros [? _]|done]. }
  clear Ew. destruct (length (collectBackends store svc) =? 0)%nat eqn:E1.
  { left. injection E as <- <-. by split; [apply lookup_delete_eq|]. }
  destruct (Alloc _ _) as [a' [off|e]] eqn:Ea.
  2: { left. injection E as <- <-. by split; [apply lookup_delete_eq|]. }
  destruct (setupMaglev _ _ _ _) as [[[[mag alg] mo] mc]| |] eqn:Em; [|done..]. injection E as <- <-.
  right. exists w1, freed, off, alg, mo, mc. split_and!; try done; [by intros En; rewrite En in E1|by eapply setupMaglev_calls|apply lookup_insert_eq].
Qed.

(** The keys under which port [p] of a service is entered. *)
Definition entry_key (svc : Service) (ips : list string) (scs : list Z) (p : ServicePort) (k : ServiceKey) : Prop :=
  let proto := ProtocolToNumber (p_Protocol p) in
  (exists scope i, scope ∈ scs /\ i ∈ ips /\ k = mkKey (serviceIPForScope i scope "") (servicePortForScope p scope) proto scope)
  \/ (exists e, e ∈ ExternalIPs svc /\ k = mkKey e (portToU32 (p_Port p)) proto ScopeExternalIP)
  \/ (s_Type svc = "LoadBalancer" /\ exists e, e ∈ Ingress svc /\ e <> "" /\ k = mkKey e (portToU32 (p_Port p)) proto ScopeLoadBalancer).

Lemma upsert_elem w svc ips off backends alg mo scs c :
  c ∈ upsertServiceEntries w svc ips off backends alg mo scs ->
  exists i p k, Ports svc !! i = Some p /\ entry_key svc ips scs p k
    /\ c = UpsertService k (mkValue (intToU32 (Z.of_nat (length backends)))
                              (wrap32 (off + intToU32 (Z.of_nat i * Z.of_nat (length backends))))
                              alg (computeFlags w svc) (computeAffinityTimeout svc) mo).
Proof.
  intros ([j p] & H & (i & p' & [= <- <-] & Hp)%elem_of_lookup_imap)%list_elem_of_bind.
  exists j, p. rewrite !elem_of_app in H. unfold entry_key. destruct H as [H|[H|H]].
  - apply list_elem_of_bind in H as (sc & (ip & ->%list_elem_of_singleton & Hip)%list_elem_of_bind & Hsc).
    eexists. split_and!; [done| |done]. left. by exists sc, ip.
  - apply list_elem_of_bind in H as (e & ->%list_elem_of_singleton & He).
    eexists. split_and!; [done| |done]. right; left. by exists e.
  - destruct (String.eqb_spec (s_Type svc) "LoadBalancer") as [Et|]; [|by apply elem_of_nil in H].
    apply list_elem_of_bind in H as (e & H & He). destruct (String.eqb_spec e ""); [by apply elem_of_nil in H|].
    apply list_elem_of_singleton in H as ->. eexists. split_and!; [done| |done]. right; right. split; [done|]. by exists e.
Qed.

Lemma push_elem off backends ports i p j be :
  ports !! i = Some p -> backends !! j = Some be ->
  exists l, pushBackends off backends ports = [UpsertBackends l]
    /\ mkBackend (wrap32 (off + intToU32 (Z.of_nat i * Z.of_nat (length backends) + Z.of_nat j)))
         (ip be) (resolveTargetPort p be) (nodeIP be) ∈ l.
Proof.
  intros Hp Hb. unfold pushBackends. set (l := with_index ports ≫= _).
  assert (mkBackend (wrap32 (off + intToU32 (Z.of_nat i * Z.of_nat (length backends) + Z.of_nat j)))
            (ip be) (resolveTargetPort p be) (nodeIP be) ∈ l) as Hin.
  { unfold l. apply list_elem_of_bind. exists (i, p). split; [|by apply (elem_of_lookup_imap_2 pair)].
    apply list_elem_of_bind. exists (j, be). split; [by apply list_elem_of_singleton|by apply (elem_of_lookup_imap_2 pair)]. }
  exists l. split; [|done]. destruct l; [by apply elem_of_nil in Hin|done].
Qed.

Lemma push_elem_inv off backends ports l e :
  UpsertBackends l ∈ pushBackends off backends ports -> e ∈ l ->
  exists i p j be, ports !! i = Some p /\ backends !! j = Some be
    /\ e = mkBackend (wrap32 (off + intToU32 (Z.of_nat i * Z.of_nat (length backends) + Z.of_nat j)))
         (ip be) (resolveTargetPort p be) (nodeIP be).
Proof.
  unfold pushBackends. destruct (_ <? _)%nat; [|by intros ?%elem_of_nil].
  rewrite list_elem_of_singleton. intros [= ->] H.
  apply list_elem_of_bind in H as ([i p] & ([j be] & ->%list_elem_of_singleton & Hb)%list_elem_of_bind & Hp).
  apply elem_of_lookup_imap in Hp as (? & ? & [= <- <-] & Hp). apply elem_of_lookup_imap in Hb as (? & ? & [= <- <-] & Hb).
  by exists i, p, j, be.
Qed.

Lemma slot_index off i j N P :
  0 <= off -> off + N * P < 2 ^ 32 -> 0 <= i < P -> 0 <= j -> i * N + j <= N * P ->
  0 <= N -> wrap32 (off + intToU32 (i * N + j)) = off + i * N + j.
Proof.
  intros. unfold intToU32. assert (0 <= i * N) by nia. destruct (i * N + j <? 0) eqn:E; to_prop; [lia|].
  rewrite (wrap32_small (i * N + j)) by lia. rewrite wrap32_small; lia.
Qed.

Lemma row_index N i i' j j' : 0 <= j < N -> 0 <= j' < N -> i * N + j = i' * N + j' -> i = i' /\ j = j'.
Proof. intros. assert (i = i') by nia. nia. Qed.

Lemma row_bound N P i j : 0 <= i < P -> 0 <= j <= N -> i * N + j <= N * P.
Proof. intros. nia. Qed.

Lemma intToU32_small n : 0 <= n < 2 ^ 32 -> intToU32 n = n.
Proof. intros H. unfold intToU32. destruct (n <? 0) eqn:E; to_prop; [lia|]. by apply wrap32_small. Qed.

Lemma upsert_among freed off backends ports mc ups k v mo :
  Forall is_delete freed -> (mc = [] \/ exists table, mc = [UpsertMaglevTable mo table]) ->
  UpsertService k v ∈ freed ++ pushBackends off backends ports ++ mc ++ ups -> UpsertService k v ∈ ups.
Proof.
  intros Hf Hmc Hin. rewrite !elem_of_app in Hin. destruct Hin as [Hin|[Hin|[Hin|]]]; [exfalso..|done].
  - rewrite Forall_forall in Hf. by destruct (Hf _ Hin).
  - unfold pushBackends in Hin. destruct (_ <? _)%nat; [by apply list_elem_of_singleton in Hin|by apply elem_of_nil in Hin].
  - destruct Hmc as [->|[t ->]]; [by apply elem_of_nil in Hin|by apply list_elem_of_singleton in Hin].
Qed.

(** The row of slots of one service port holds the backends in order. *)
Lemma push_row off backends ports i p :
  let N := Z.of_nat (length backends) in
  0 <= off -> off + N * Z.of_nat (length ports) < 2 ^ 32 -> ports !! i = Some p -> backends <> [] ->
  exists l, UpsertBackends l ∈ pushBackends off backends ports /\
    forall j be, backends !! j = Some be ->
      let slot := mkBackend (off + Z.of_nat i * N + Z.of_nat j) (ip be) (resolveTargetPort p be) (nodeIP be) in
      slot ∈ l /\ forall e, e ∈ l -> b_Index e = b_Index slot -> e = slot.
Proof.
  intros N Ho Hb Hp Hne. destruct (lookup_lt_is_Some_2 backends 0) as [b0 H0]; [destruct backends; cbn; [done|lia]|].
  destruct (push_elem off backends ports i p 0 b0 Hp H0) as (l & El & _).
  assert (forall i j p be, ports !! i = Some p -> backends !! j = Some be ->
    wrap32 (off + intToU32 (Z.of_nat i * N + Z.of_nat j)) = off + Z.of_nat i * N + Z.of_nat j) as Hix.
  { intros i' j' p' be' Hi' Hj'. apply lookup_lt_Some in Hi', Hj'.
    apply slot_index with (P := Z.of_nat (length ports)); [done|done|lia|lia|apply row_bound; lia|lia]. }
  exists l. rewrite El. split; [left|]. intros j be Hj slot. split.
  - destruct (push_elem off backends ports i p j be Hp Hj) as (l' & El' & Hin). rewrite El in El'. injection El' as <-.
    fold N in Hin. by rewrite (Hix i j p be) in Hin.
  - intros e He. destruct (push_elem_inv off backends ports l e) as (i' & p' & j' & be' & Hp' & Hj' & ->); [rewrite El; left|done|].
    cbn [b_Index slot]. fold N. rewrite (Hix i' j' p' be') by done. intros Heq.
    pose proof (lookup_lt_Some _ _ _ Hj). pose proof (lookup_lt_Some _ _ _ Hj').
    destruct (row_index N (Z.of_nat i') (Z.of_nat i) (Z.of_nat j') (Z.of_nat j)); [lia..|].
    assert (i' = i) as -> by lia. assert (j' = j) as -> by lia. rewrite Hp in Hp'. rewrite Hj in Hj'.
    injection Hp' as <-. injection Hj' as <-. done.
Qed.

Lemma handle_inv svcs store w e w' calls :
  watcher_inv w -> handle svcs store w e = Val (w', calls) -> watcher_inv w'.
Proof.
  intros Hw. destruct e as [svc|svc|eps]; cbn.
  - by apply reconcile_inv.
  - intros [= E]. pose proof (delete_inv w svc Hw) as H. by rewrite E in H.
  - repeat case_match; try (by intros [= <- _]). by apply reconcile_inv.
Qed.

Lemma handle_all_inv l : forall w w' calls,
  watcher_inv w -> handle_all w l = Val (w', calls) -> watcher_inv w'.
Proof.
  induction l as [|[[svcs store] e] l IH]; intros w w' calls Hw E; cbn [handle_all] in E; [by injection E as <- _|].
  destruct (handle svcs store w e) as [[w1 c1]| |] eqn:Eh; [|done..]. cbn in E.
  destruct (handle_all w1 l) as [[w2 c2]| |] eqn:Er; [|done..]. injection E as <- _.
  eapply IH; [|done]. by eapply handle_inv.
Qed.

Lemma watcher_inv_new max alg dsr : 1 <= max < 2 ^ 32 -> watcher_inv (NewWatcher (NewSlotAllocator max) alg dsr).
Proof.
  intros H. split; [by apply inv_new|]. cbn [NewWatcher allocator services]. unfold blocks.
  rewrite map_to_list_empty. by apply new_partitioned.
Qed.

Lemma alloc_max a cnt a' r : Alloc a cnt = (a', r) -> maxSlots a' = maxSlots a.
Proof. unfold Alloc. destruct (alloc_from _ _) as [[]|]; by intros [= <- _]. Qed.

(** * Theorems *)

(** C8: After any history of service and endpoint events, every slot of the
    backend array is free or belongs to exactly one tracked service. *)
Theorem backend_slots_partition max alg dsr l w calls s :
  1 <= max < 2 ^ 32 ->
  handle_all (NewWatcher (NewSlotAllocator max) alg dsr) l = Val (w, calls) ->
  cover_count s (free (allocator w) ++ blocks (services w))
  = if decide (0 <= s < maxSlots (allocator w)) then 1%nat else 0%nat.
Proof. intros Hm E. by destruct (handle_all_inv _ _ _ _ (watcher_inv_new max alg dsr Hm) E) as [_ [_ H]]. Qed.

Definition example_svc : Service :=
  mkService "default" "web" ["10.96.0.1"] "10.96.0.1" [mkPort "" "TCP" 80 8080 0] "ClusterIP"
            ["203.0.113.7"] [] "None" "" None None.

Definition example_slices (addrs : list string) : option (list EndpointSlice) :=
  Some [mkSlice "default" (Some "web") [mkEndpoint (Some true) addrs] [(Some 8080, None)]].

Definition after (r : outcome (Watcher * list dp_call)) : Watcher * list dp_call :=
  match r with Val x => x | _ => (NewWatcher (NewSlotAllocator 0) "" false, []) end.

Lemma backend_slots_partition_witness :
  let r := after (handle_all (NewWatcher (NewSlotAllocator 64) "random" false)
                    [(∅, example_slices ["10.1.0.5"; "10.1.0.6"], ServiceChange example_svc)]) in
  cover_count 1 (free (allocator r.1) ++ blocks (services r.1)) = 1%nat.
Proof.
  intros r. change 1%nat with (if decide (0 <= 1 < maxSlots (allocator r.1)) then 1%nat else 0%nat).
  apply (backend_slots_partition 64 "random" false
           [(∅, example_slices ["10.1.0.5"; "10.1.0.6"], ServiceChange example_svc)] r.1 r.2); [lia|].
  vm_compute. reflexivity.
Defined.

(** C9: Every request for a service entry that a reconciliation sends refers to slots
    of the block the service owns, and a request of the same reconciliation asks for
    exactly the ready backends in these slots, in order, with the target port of the
    service port of the entry.  The state is one the watcher can be in and the slots
    asked for fit 32 bits.  It is about the requests only: the daemon refuses those for
    backends, whose node address the watcher leaves empty (watcher_backends_refused). *)
Theorem entries_reach_own_backends store w svc w' calls k v :
  let backends := collectBackends store svc in
  watcher_inv w -> Z.of_nat (length backends) * Z.of_nat (length (Ports svc)) < 2 ^ 32 ->
  reconcileService store w svc = Val (w', calls) -> UpsertService k v ∈ calls ->
  exists st i p, services w' !! svc_key svc = Some st /\ Ports svc !! i = Some p
    /\ entry_key svc (serviceClusterIPs svc) (computeScopes svc) p k
    /\ BackendCount v = Z.of_nat (length backends)
    /\ backendOffset st <= BackendOffset v
    /\ BackendOffset v + BackendCount v <= backendOffset st + backendCount st
    /\ exists l, UpsertBackends l ∈ calls /\
         forall j be, backends !! j = Some be ->
           let slot := mkBackend (BackendOffset v + Z.of_nat j) (ip be) (resolveTargetPort p be) (nodeIP be) in
           slot ∈ l /\ forall e, e ∈ l -> b_Index e = b_Index slot -> e = slot.
Proof.
  intros backends Hw Hsz E Hin.
  destruct (reconcile_shape _ _ _ _ _ E) as [[_ Hd]|(w1 & freed & off & alg & mo & mc & Hne & Hf & Hmc & Hi & Hm & Ha & Hs & ->)].
  { rewrite Forall_forall in Hd. by destruct (Hd _ Hin). }
  apply (upsert_among _ _ _ _ _ _ _ _ _ Hf Hmc) in Hin.
  apply upsert_elem in Hin as (i & p & k' & Hp & Hk & [= -> ->]).
  fold backends in Ha, Hs, Hne |- *. set (N := Z.of_nat (length backends)) in *. set (P := Z.of_nat (length (Ports svc))) in *.
  pose proof (lookup_lt_Some _ _ _ Hp) as Hlt.
  assert (1 <= N) as HN by (destruct backends; [done|cbn in N; lia]). assert (1 <= P) by lia.
  assert (N <= N * P) by nia.
  rewrite (intToU32_small (N * P)) in Ha, Hs by nia.
  destruct (Alloc_Ok _ (N * P) _ _ (Hi Hw) ltac:(nia) Ha) as (_ & _ & Hoff & Hmax & _).
  destruct (Hi Hw) as [Hmx _].
  destruct (push_row off backends (Ports svc) i p) as (l & Hl & Hrow); [done|fold N P; lia|done|done|].
  fold N in Hrow. pose proof (row_bound N P (Z.of_nat i) N ltac:(lia) ltac:(lia)).
  assert (wrap32 (off + intToU32 (Z.of_nat i * N)) = off + Z.of_nat i * N) as Ew.
  { rewrite <- (Z.add_0_r (Z.of_nat i * N)) at 1. rewrite (slot_index off _ 0 N P); lia. }
  eexists _, i, p. cbn [BackendCount BackendOffset backendOffset backendCount].
  rewrite Ew, (intToU32_small N) by lia. split_and!; [done|done|done|done|cbn; nia|cbn; lia|].
  exists l. split; [rewrite !elem_of_app; by right; left|done].
Qed.

Lemma entries_reach_own_backends_witness :
  let w := NewWatcher (NewSlotAllocator 64) "random" false in
  let store := example_slices ["10.1.0.5"; "10.1.0.6"] in
  let r := after (reconcileService store w example_svc) in
  exists k v st, UpsertService k v ∈ r.2 /\ services r.1 !! svc_key example_svc = Some st /\ BackendCount v = 2
    /\ exists l, UpsertBackends l ∈ r.2 /\ mkBackend (BackendOffset v + 1) "10.1.0.6" 8080 "" ∈ l.
Proof.
  intros w store r.
  destruct (entries_reach_own_backends store w example_svc r.1 r.2
              (mkKey "10.96.0.1" 80 6 0) (mkValue 2 0 0 0 0 0)) as (st & i & p & Hs & Hp & _ & Hc & _ & _ & l & Hl & Hrow).
  - by apply watcher_inv_new.
  - vm_compute. reflexivity.
  - vm_compute. reflexivity.
  - apply list_elem_of_In. vm_compute. tauto.
  - assert (p = mkPort "" "TCP" 80 8080 0) as ->.
    { destruct i as [|[|i]]; cbn in Hp; [by injection Hp as <-|done..]. }
    exists (mkKey "10.96.0.1" 80 6 0), (mkValue 2 0 0 0 0 0), st. split_and!.
    + apply list_elem_of_In. vm_compute. tauto.
    + exact Hs.
    + exact Hc.
    + exists l. split; [exact Hl|].
      apply (Hrow 1%nat (mkBackendInfo "10.1.0.6" "" 8080 "")). vm_compute. reflexivity.
Defined.

(** Deleting a service deletes every entry its last reconciliation wrote,
    for all scopes, ports, cluster, external and load-balancer addresses. *)
Theorem delete_removes_entries store w svc w' calls k v :
  reconcileService store w svc = Val (w', calls) -> UpsertService k v ∈ calls ->
  DeleteService k ∈ (deleteService w' svc).2 /\ services (deleteService w' svc).1 !! svc_key svc = None.
Proof.
  intros E Hin.
  destruct (reconcile_shape _ _ _ _ _ E) as [[_ Hd]|(w1 & freed & off & alg & mo & mc & _ & Hf & Hmc & _ & _ & _ & Hs & ->)].
  { rewrite Forall_forall in Hd. by destruct (Hd _ Hin). }
  apply (upsert_among _ _ _ _ _ _ _ _ _ Hf Hmc) in Hin.
  apply upsert_elem in Hin as (i & p & k' & Hp%list_elem_of_lookup_2 & Hk & [= -> _]).
  unfold deleteService. rewrite Hs. cbn [fst snd services scopes clusterIPs]. split; [|apply lookup_delete_eq].
  apply list_elem_of_bind.
  destruct Hk as [(sc & i' & Hsc & Hi' & ->)|[(e & He & ->)|(Ht & e & He & Hne & ->)]].
  - exists sc. split; [rewrite !elem_of_app; left|done]. apply list_elem_of_bind. exists p. split; [|done].
    apply list_elem_of_bind. exists i'. by rewrite list_elem_of_singleton.
  - exists ScopeExternalIP. split.
    + rewrite !elem_of_app. right; left. apply list_elem_of_bind. exists e. split; [|done].
      apply list_elem_of_bind. exists p. by rewrite list_elem_of_singleton.
    + unfold computeScopes. rewrite !elem_of_app. do 2 right. by destruct (ExternalIPs svc); [apply elem_of_nil in He|left].
  - exists ScopeLoadBalancer. split.
    + rewrite !elem_of_app. right; right. apply list_elem_of_bind. exists e. split; [|done].
      destruct (String.eqb_spec e ""); [done|]. apply list_elem_of_bind. exists p. by rewrite list_elem_of_singleton.
    + unfold computeScopes. rewrite Ht, !elem_of_app. right; left. cbn. right; left.
Qed.

Lemma delete_removes_entries_witness :
  let w := NewWatcher (NewSlotAllocator 64) "random" false in
  let r := after (reconcileService (example_slices ["10.1.0.5"]) w example_svc) in
  DeleteService (mkKey "203.0.113.7" 80 6 2) ∈ (deleteService r.1 example_svc).2.
Proof.
  intros w r. apply (delete_removes_entries (example_slices ["10.1.0.5"]) w example_svc r.1 r.2
    (mkKey "203.0.113.7" 80 6 2) (mkValue 1 0 0 0 0 0)); [vm_compute; reflexivity|].
  apply list_elem_of_In. vm_compute. tauto.
Defined.

(** When the last endpoint of a service goes away, the slots of its backends
    are freed but the entries of its external addresses stay: in a fresh watcher
    the example service and then another one get the same slot, and the external
    address of the first still points to it. *)
Theorem external_entry_outlives_backends :
  let other := mkService "default" "db" ["10.96.0.2"] "10.96.0.2" [mkPort "" "TCP" 5432 0 0] "ClusterIP" [] [] "None" "" None None in
  let db_slices := Some [mkSlice "default" (Some "db") [mkEndpoint (Some true) ["10.1.0.9"]] [(Some 5432, None)]] in
  let k := mkKey "203.0.113.7" 80 6 ScopeExternalIP in
  exists w calls v, handle_all (NewWatcher (NewSlotAllocator 64) "random" false)
      [(∅, example_slices ["10.1.0.5"], ServiceChange example_svc);
       (∅, example_slices [], ServiceChange example_svc);
       (∅, db_slices, ServiceChange other)] = Val (w, calls)
    /\ services w !! svc_key example_svc = None
    /\ apply_calls ∅ calls !! k = Some v
    /\ (exists st, services w !! svc_key other = Some st /\ backendOffset st = BackendOffset v).
Proof.
  eexists _, _, _. split; [vm_compute; reflexivity|]. split; [vm_compute; reflexivity|].
  split; [vm_compute; reflexivity|]. eexists. split; vm_compute; reflexivity.
Qed.

(** A first block comes from the start of the array and is returned to it. *)
Lemma alloc_new max cnt :
  1 <= cnt <= max -> max < 2 ^ 32 ->
  exists a', Alloc (NewSlotAllocator max) cnt = (a', Ok 0) /\ Free a' 0 cnt = NewSlotAllocator max.
Proof.
  intros Hc Hm. pose proof (inv_new max ltac:(lia)) as Hi.
  destruct (Alloc (NewSlotAllocator max) cnt) as [a' [off|e]] eqn:E.
  - assert (off = 0) as ->.
    { unfold Alloc in E. cbn in E. destruct (cnt <=? max); [|done]. destruct (max =? cnt); by injection E as _ <-. }
    exists a'. split; [done|]. apply (free_undoes_alloc _ _ _ _ Hi); [lia|done].
  - exfalso. apply (Alloc_Err _ _ _ _ Hi) in E as [_ H]; [|lia]. apply (H 0). intros s Hs.
    apply covers_cons. left. unfold in_range. cbn. lia.
Qed.

Lemma setupMaglev_fresh svc backends p ps :
  Ports svc = p :: ps -> backends <> [] -> Z.of_nat (length backends) < 2 ^ 32 ->
  exists mag table, Alloc (NewSlotAllocator 1048576) MaglevTableSize = (mag, Ok 0)
    /\ setupMaglev (NewSlotAllocator 1048576) svc backends AlgMaglev = Val (mag, AlgMaglev, 0, [UpsertMaglevTable 0 table]).
Proof.
  intros Hp Hne Hlen. unfold setupMaglev. rewrite Hp.
  destruct (GenerateMaglevTable_ok ((fun be => ip be +:+ ":" +:+ fmt_d (resolveTargetPort p be)) <$> backends)
              MaglevTableSize (S (Z.to_nat MaglevTableSize))) as (tbl & E & _).
  - apply prime_by_trial. vm_compute. reflexivity.
  - unfold MaglevTableSize. lia.
  - by intros ?%fmap_nil_inv.
  - rewrite length_fmap. unfold empty_entry. lia.
  - lia.
  - eexists _, tbl. split; [vm_compute; reflexivity|].
    change (Alloc _ _) with (mkSlots 1048576 [mkRange 65537 983039], Ok (E := slot_error) 0).
    cbn [Z.eqb AlgMaglev]. rewrite E. done.
Qed.

(** The Maglev table of the first service is never freed: its offset is 0,
    which the release takes for no table.  After the service is deleted no service
    is tracked, but the 65537 entries at offset 0 are still taken. *)
Theorem first_maglev_table_leaks store svc :
  serviceClusterIPs svc <> [] -> Ports svc <> [] -> collectBackends store svc <> [] ->
  Z.of_nat (length (collectBackends store svc)) * Z.of_nat (length (Ports svc)) <= 65536 ->
  exists w1 c1 w2 c2,
    reconcileService store (NewWatcher (NewSlotAllocator 65536) "maglev" false) svc = Val (w1, c1)
    /\ deleteService w1 svc = (w2, c2)
    /\ services w2 = ∅ /\ allocator w2 = NewSlotAllocator 65536
    /\ free (maglevAllocator w2) = [mkRange MaglevTableSize (1048576 - MaglevTableSize)].
Proof.
  intros Hips Hports Hne Hsz. set (backends := collectBackends store svc) in *.
  set (N := Z.of_nat (length backends)) in *. set (P := Z.of_nat (length (Ports svc))) in *.
  assert (exists p ps, Ports svc = p :: ps) as (p & ps & Ep) by (destruct (Ports svc); [done|eauto]).
  assert (1 <= N) by (destruct backends; [done|cbn in N; lia]).
  assert (1 <= P) by (unfold P; rewrite Ep; cbn; lia).
  assert (1 <= N * P) by nia.
  destruct (setupMaglev_fresh svc backends p ps Ep Hne) as (mag & tbl & Ea & Es); [fold N; nia|].
  destruct (alloc_new 65536 (N * P)) as (a' & Ea' & Ef); [lia..|].
  assert (resolveAlgorithm (NewWatcher (NewSlotAllocator 65536) "maglev" false) = AlgMaglev) as Er by (vm_compute; reflexivity).
  unfold reconcileService. rewrite Er. cbn [NewWatcher services]. rewrite lookup_empty. fold backends N P.
  destruct (length (serviceClusterIPs svc) =? 0)%nat eqn:E0; [by apply Nat.eqb_eq, nil_length_inv in E0|].
  destruct (length backends =? 0)%nat eqn:E1; [by apply Nat.eqb_eq, nil_length_inv in E1|].
  rewrite intToU32_small by lia. cbv beta iota zeta. unfold NewWatcher. cbn [allocator maglevAllocator]. rewrite Ea', Es. cbn [mbind outcome_bind].
  do 4 eexists. split; [done|]. unfold deleteService. cbn [services allocator maglevAllocator].
  rewrite lookup_insert_eq. split; [done|]. cbn [services allocator maglevAllocator backendCount backendOffset].
  rewrite delete_insert_id by done. split; [done|].
  destruct (0 <? N * P) eqn:E2; to_prop; [|lia]. split; [done|]. cbn [maglevOffset Z.ltb Z.compare]. rewrite andb_false_r.
  vm_compute in Ea. injection Ea as <-. reflexivity.
Qed.

Lemma first_maglev_table_leaks_witness :
  exists w1 c1, reconcileService (example_slices ["10.1.0.5"]) (NewWatcher (NewSlotAllocator 65536) "maglev" false) example_svc = Val (w1, c1)
    /\ services (deleteService w1 example_svc).1 = ∅
    /\ free (maglevAllocator (deleteService w1 example_svc).1) = [mkRange MaglevTableSize (1048576 - MaglevTableSize)].
Proof.
  destruct (first_maglev_table_leaks (example_slices ["10.1.0.5"]) example_svc) as (w1 & c1 & w2 & c2 & E1 & E2 & Hs & _ & Hf);
    [vm_compute; discriminate..|vm_compute; discriminate|].
  exists w1, c1. rewrite E2. split; [exact E1|]. split; [exact Hs|exact Hf].
Defined.
