(* ===== verification/PolicyTable.v ===== *)
(** The identity policy table of the dataplane: its lookup in the kernel
    (check_policy in dataplane/novanet-ebpf/src/main.rs) and its maintenance by
    the dataplane daemon (the policy operations of novanet-dataplane/src/maps.rs
    and server.rs).  The lookup is the first match of a fixed order of nine keys;
    a synchronisation installs exactly the given entries if no key is given two
    actions, and is not idempotent otherwise. *)

From Stdlib Require Import ZArith Lia.
From stdpp Require Import base tactics list gmap fin_maps.
From S2P Require Import Prelude.

(** * Definitions *)

Definition ACTION_DENY : Z := 0.
Definition ACTION_ALLOW : Z := 1.
Definition MAX_POLICIES : Z := 65536.

(** [PolicyKey] (without its padding, which is always 0). *)
Record PolicyKey := mkPKey { src_identity : Z; dst_identity : Z; protocol : Z; dst_port : Z }.

#[export] Instance PolicyKey_eq_dec : EqDecision PolicyKey.
Proof. solve_decision. Defined.
#[export] Instance PolicyKey_countable : Countable PolicyKey.
Proof.
  refine (inj_countable' (fun k => (src_identity k, dst_identity k, protocol k, dst_port k))
            (fun t => mkPKey t.1.1.1 t.1.1.2 t.1.2 t.2) _). by intros [].
Defined.

(** The table maps a key to the action of its [PolicyValue]. *)
Abbreviation policies := (gmap PolicyKey Z).

(** ** Lookup in the kernel *)

(** The lookups for one pair of identities, in [check_policy]'s loop body. *)
Definition check_pair (t : policies) (src dst proto port : Z) : option Z :=
  match t !! mkPKey src dst proto port with
  | Some a => Some a
  | None =>
      match (if negb (port =? 0) then t !! mkPKey src dst proto 0 else None) with
      | Some a => Some a
      | None => if negb (proto =? 0) then t !! mkPKey src dst 0 0 else None
      end
  end.

Fixpoint check_pairs (t : policies) (pairs : list (Z * Z)) (proto port : Z) : option Z :=
  match pairs with
  | [] => None
  | (src, dst) :: rest =>
      match check_pair t src dst proto port with
      | Some a => Some a
      | None => check_pairs t rest proto port
      end
  end.

Definition check_policy (t : policies) (src_id dst_id proto port : Z) : option Z :=
  check_pairs t [(src_id, dst_id); (src_id, 0); (0, dst_id)] proto port.

(** ** Maintenance by the daemon *)

(** Insertion into a kernel hash map, which fails when the map is full. *)
Definition bpf_insert (cap : Z) (t : policies) (k : PolicyKey) (v : Z) : option policies :=
  match t !! k with
  | Some _ => Some (<[k := v]> t)
  | None => if Z.of_nat (size t) <? cap then Some (<[k := v]> t) else None
  end.

Definition upsert_policy (t : policies) (k : PolicyKey) (v : Z) : policies * bool :=
  match bpf_insert MAX_POLICIES t k v with
  | Some t' => (t', true)
  | None => (t, false)
  end.

(** Removal fails for a key that is not in the map. *)
Definition delete_policy (t : policies) (k : PolicyKey) : policies * bool :=
  match t !! k with
  | Some _ => (delete k t, true)
  | None => (t, false)
  end.

(** The loop of [sync_policies] over the new entries: the table, the counters, and
    whether every insertion succeeded.  [existing] is the table at its start. *)
Fixpoint sync_loop (cap : Z) (existing t : policies) (added updated : Z) (l : list (PolicyKey * Z))
    : policies * option (Z * Z) :=
  match l with
  | [] => (t, Some (added, updated))
  | (k, v) :: rest =>
      match existing !! k with
      | Some old =>
          if old =? v then sync_loop cap existing t added updated rest
          else match bpf_insert cap t k v with
               | Some t' => sync_loop cap existing t' added (wrap32 (updated + 1)) rest
               | None => (t, None)
               end
      | None =>
          match bpf_insert cap t k v with
          | Some t' => sync_loop cap existing t' (wrap32 (added + 1)) updated rest
          | None => (t, None)
          end
      end
  end.

Fixpoint remove_all (t : policies) (removed : Z) (ks : list PolicyKey) : policies * Z :=
  match ks with
  | [] => (t, removed)
  | k :: rest =>
      let '(t', ok) := delete_policy t k in
      remove_all t' (if ok then wrap32 (removed + 1) else removed) rest
  end.

(** [RealMaps::sync_policies]; [order] is the order of the keys of [existing].
    Without a result an insertion has failed and the removals have not been run. *)
Definition sync_policies (cap : Z) (order : list PolicyKey) (t : policies) (l : list (PolicyKey * Z))
    : policies * option (Z * Z * Z) :=
  match sync_loop cap t t 0 0 l with
  | (t', None) => (t', None)
  | (t', Some (added, updated)) =>
      let '(t'', removed) := remove_all t' 0 (filter (fun k => k ∉ l.*1) order) in
      (t'', Some (added, removed, updated))
  end.

(** [MockMaps::sync_policies], which compares with the table as it changes. *)
Fixpoint mock_loop (t : policies) (l : list (PolicyKey * Z)) : policies :=
  match l with
  | [] => t
  | (k, v) :: rest =>
      mock_loop (match t !! k with
                 | Some old => if old =? v then t else <[k := v]> t
                 | None => <[k := v]> t
                 end) rest
  end.

Definition mock_sync_policies (order : list PolicyKey) (t : policies) (l : list (PolicyKey * Z)) : policies :=
  foldr delete (mock_loop t l) (filter (fun k => k ∉ l.*1) order).

(** ** The gRPC handler *)

(** [PolicyEntry] as it arrives; the action is the number of the proto enum. *)
Record PolicyEntry := mkPolicyEntry {
  pe_src : Z; pe_dst : Z; pe_protocol : Z; pe_port : Z; pe_action : Z }.

Definition POLICY_ACTION_DENY : Z := 0.
Definition POLICY_ACTION_ALLOW : Z := 1.

(** The conversion in [sync_policies] of server.rs, with its truncations. *)
Definition to_policy (e : PolicyEntry) : PolicyKey * Z :=
  (mkPKey (pe_src e) (pe_dst e) (wrap8 (pe_protocol e)) (wrap16 (pe_port e)),
   if pe_action e =? POLICY_ACTION_ALLOW then ACTION_ALLOW else ACTION_DENY).

Definition grpc_sync_policies (order : list PolicyKey) (t : policies) (l : list PolicyEntry)
    : policies * option (Z * Z * Z) :=
  sync_policies MAX_POLICIES order t (to_policy <$> l).

(** * Lookup *)

(** The order of specificity the lookup documents: exact pair, then any
    destination, then any source; for each, exact port, any port, any protocol. *)
Definition candidates (src dst proto port : Z) : list PolicyKey :=
  p ← [(src, dst); (src, 0); (0, dst)];
  [mkPKey p.1 p.2 proto port; mkPKey p.1 p.2 proto 0; mkPKey p.1 p.2 0 0].

Fixpoint first_match (t : policies) (l : list PolicyKey) : option Z :=
  match l with
  | [] => None
  | k :: rest => match t !! k with Some a => Some a | None => first_match t rest end
  end.

Lemma check_pair_first t src dst proto port :
  check_pair t src dst proto port
  = first_match t [mkPKey src dst proto port; mkPKey src dst proto 0; mkPKey src dst 0 0].
Proof.
  unfold check_pair. cbn [first_match]. destruct (t !! mkPKey src dst proto port) eqn:E1; [done|].
  destruct (Z.eqb_spec port 0) as [->|], (Z.eqb_spec proto 0) as [->|]; cbn [negb]; rewrite ?E1; try done;
    repeat case_match; congruence.
Qed.

Lemma first_match_app t l l' :
  first_match t (l ++ l') = match first_match t l with Some a => Some a | None => first_match t l' end.
Proof. induction l as [|k l IH]; cbn; [done|]. by destruct (t !! k). Qed.

Lemma check_pairs_first t pairs proto port :
  check_pairs t pairs proto port
  = first_match t (p ← pairs; [mkPKey p.1 p.2 proto port; mkPKey p.1 p.2 proto 0; mkPKey p.1 p.2 0 0]).
Proof.
  induction pairs as [|[s d] pairs IH]; cbn [check_pairs]; [done|].
  rewrite check_pair_first, IH, bind_cons, first_match_app. done.
Qed.

Lemma check_policy_first t src dst proto port :
  check_policy t src dst proto port = first_match t (candidates src dst proto port).
Proof. apply check_pairs_first. Qed.

Lemma first_match_Some t l a :
  first_match t l = Some a <-> exists l1 k l2, l = l1 ++ k :: l2 /\ t !! k = Some a /\ Forall (fun k' => t !! k' = None) l1.
Proof.
  induction l as [|k l IH]; cbn.
  - split; [done|]. by intros ([|] & ? & ? & ? & _).
  - destruct (t !! k) as [b|] eqn:E; [split|rewrite IH; split].
    + intros [= ->]. by exists [], k, l.
    + intros ([|k1 l1] & k' & l2 & [= <- ->] & Hk & Hf); [congruence|]. apply Forall_cons in Hf as [Hf _]. congruence.
    + intros (l1 & k' & l2 & -> & Hk & Hf). exists (k :: l1), k', l2. split_and!; [done|done|by constructor].
    + intros ([|k1 l1] & k' & l2 & [= <- ->] & Hk & Hf); [congruence|]. apply Forall_cons in Hf as [_ Hf].
      by exists l1, k', l2.
Qed.

Lemma first_match_None t l : first_match t l = None <-> Forall (fun k => t !! k = None) l.
Proof.
  induction l as [|k l IH]; cbn; [split; [constructor|done]|].
  rewrite Forall_cons, <- IH. destruct (t !! k); split; [done|by intros []|done|by intros []].
Qed.

(** * Synchronisation *)

(** No key is given two actions. *)
Definition consistent (l : list (PolicyKey * Z)) : Prop :=
  forall k v v', (k, v) ∈ l -> (k, v') ∈ l -> v = v'.

Lemma bpf_insert_size cap t k v t' : bpf_insert cap t k v = Some t' -> t' = <[k := v]> t.
Proof. unfold bpf_insert. destruct (t !! k); [by intros [= <-]|]. case_match; [by intros [= <-]|done]. Qed.

Lemma bpf_insert_room cap t k v : Z.of_nat (size t) < cap -> bpf_insert cap t k v = Some (<[k := v]> t).
Proof. intros H. unfold bpf_insert. destruct (t !! k); [done|]. destruct (_ <? _) eqn:E; to_prop; [done|lia]. Qed.

(** With room for the new entries every insertion succeeds; a key of the list gets
    one of the actions given for it and the others keep theirs. *)
Lemma sync_loop_spec cap ex (P : PolicyKey -> Z -> Prop) l : forall t added updated,
  (forall k v, (k, v) ∈ l -> P k v) -> Z.of_nat (size t) + Z.of_nat (length l) <= cap ->
  (forall k, (exists v, t !! k = Some v /\ P k v) \/ t !! k = ex !! k) ->
  exists t' cnt, sync_loop cap ex t added updated l = (t', Some cnt)
    /\ (forall k, k ∈ l.*1 -> exists v, t' !! k = Some v /\ P k v)
    /\ (forall k, k ∉ l.*1 -> t' !! k = t !! k).
Proof.
  induction l as [|[k v] l IH]; intros t added updated HP Hs Hex; cbn [length fmap list_fmap fst] in *.
  { exists t, (added, updated). split_and!; [done| |done]. by intros k ?%elem_of_nil. }
  assert (P k v) as Hkv by (apply HP; left).
  assert (exists t1 ad up, sync_loop cap ex t added updated ((k, v) :: l) = sync_loop cap ex t1 ad up l
    /\ (exists w, t1 !! k = Some w /\ P k w) /\ (forall k', k' <> k -> t1 !! k' = t !! k') /\ (size t1 <= S (size t))%nat)
    as (t1 & ad & up & E & H1 & H2 & H3).
  { cbn [sync_loop]. rewrite bpf_insert_room by lia.
    assert ((exists w, <[k := v]> t !! k = Some w /\ P k w) /\ (forall k', k' <> k -> <[k := v]> t !! k' = t !! k')
            /\ (size (<[k := v]> t) <= S (size t))%nat) as Hins.
    { split_and!; [exists v; by rewrite lookup_insert_eq|intros; by rewrite lookup_insert_ne|].
      rewrite map_size_insert. destruct (t !! k); cbv [id]; lia. }
    destruct (ex !! k) as [old|] eqn:Ek; [destruct (Z.eqb_spec old v) as [->|]|]; eauto 10.
    exists t, added, updated. split_and!; [done| |done|lia].
    destruct (Hex k) as [|H]; [done|]. exists v. by rewrite H. }
  rewrite E. destruct (IH t1 ad up) as (t' & cnt & E' & Hin & Hout).
  - intros k' v' ?. apply HP. by right.
  - lia.
  - intros k'. destruct (decide (k' = k)) as [->|Hne]; [by left|]. rewrite H2 by done. apply Hex.
  - exists t', cnt. split_and!; [done| |].
    + intros k' Hk'. destruct (decide (k' ∈ l.*1)) as [|Hn]; [by apply Hin|].
      apply elem_of_cons in Hk' as [->|]; [|done]. by rewrite Hout.
    + intros k' [Hne Hnl]%not_elem_of_cons. by rewrite Hout, H2.
Qed.

Lemma remove_all_spec ks : forall t removed,
  exists r, remove_all t removed ks = (foldl (fun t k => delete k t) t ks, r).
Proof.
  induction ks as [|k ks IH]; intros t removed; cbn [remove_all foldl]; [by eexists|].
  unfold delete_policy. destruct (t !! k) eqn:E; [apply IH|]. rewrite delete_id by done. apply IH.
Qed.

Lemma foldl_delete_lookup (ks : list PolicyKey) : forall (t : policies) k,
  foldl (fun t k => delete k t) t ks !! k = if decide (k ∈ ks) then None else t !! k.
Proof.
  induction ks as [|k' ks IH]; intros t k; cbn [foldl].
  { case_decide as H; [by apply elem_of_nil in H|done]. }
  rewrite IH. destruct (decide (k ∈ ks)) as [H|H]; [by rewrite decide_True by by right|].
  destruct (decide (k = k')) as [->|Hne].
  - rewrite decide_True by left. apply lookup_delete_eq.
  - rewrite decide_False by (by rewrite elem_of_cons; intros [|]). by apply lookup_delete_ne.
Qed.

(** A synchronisation leaves the given keys, each with an action given for it. *)
Lemma sync_policies_spec cap order t l :
  order ≡ₚ (map_to_list t).*1 -> Z.of_nat (size t) + Z.of_nat (length l) <= cap ->
  exists t' cnt, sync_policies cap order t l = (t', Some cnt)
    /\ (forall k, k ∈ l.*1 -> exists v, t' !! k = Some v /\ (k, v) ∈ l)
    /\ (forall k, k ∉ l.*1 -> t' !! k = None).
Proof.
  intros Ho Hs. unfold sync_policies.
  destruct (sync_loop_spec cap t (fun k v => (k, v) ∈ l) l t 0 0) as (t' & [ad up] & -> & Hin & Hout); [done|done|by right|].
  destruct (remove_all_spec (filter (fun k => k ∉ l.*1) order) t' 0) as [r ->].
  eexists _, _. split; [done|]. split; intros k Hk; rewrite foldl_delete_lookup.
  - rewrite decide_False by (rewrite list_elem_of_filter; tauto). by apply Hin.
  - case_decide as Hd; [done|]. rewrite Hout by done. destruct (t !! k) as [v|] eqn:E; [exfalso|done].
    apply Hd, list_elem_of_filter. split; [done|]. rewrite Ho. apply list_elem_of_fmap.
    exists (k, v). by rewrite elem_of_map_to_list.
Qed.

Lemma consistent_list_to_map l k v : consistent l -> (k, v) ∈ l -> (list_to_map l : policies) !! k = Some v.
Proof.
  intros Hc H. destruct ((list_to_map l : policies) !! k) as [v'|] eqn:E.
  - apply elem_of_list_to_map_2 in E. f_equal. by apply (Hc k).
  - exfalso. apply not_elem_of_list_to_map in E. apply E, list_elem_of_fmap. by exists (k, v).
Qed.

(** * Theorems *)

(** The lookup in the kernel is the first match in the documented order of
    specificity: the exact pair of identities, then any destination, then any
    source, and for each pair the exact port, any port, any protocol. *)
Theorem check_policy_first_match t src dst proto port a :
  check_policy t src dst proto port = Some a
  <-> exists l1 k l2, candidates src dst proto port = l1 ++ k :: l2 /\ t !! k = Some a
      /\ Forall (fun k' => t !! k' = None) l1.
Proof. rewrite check_policy_first. apply first_match_Some. Qed.

(** If no key is given two actions and the map has room, a synchronisation
    replaces the table by exactly the given entries, whatever it held before. *)
Theorem sync_installs_entries cap order t l :
  consistent l -> order ≡ₚ (map_to_list t).*1 -> Z.of_nat (size t) + Z.of_nat (length l) <= cap ->
  exists cnt, sync_policies cap order t l = (list_to_map l, Some cnt).
Proof.
  intros Hc Ho Hs. destruct (sync_policies_spec cap order t l Ho Hs) as (t' & cnt & E & Hin & Hout).
  exists cnt. rewrite E. do 2 f_equal. apply map_eq. intros k. destruct (decide (k ∈ l.*1)) as [Hk|Hk].
  - destruct (Hin k Hk) as (v & -> & Hv). symmetry. by apply consistent_list_to_map.
  - by rewrite Hout, not_elem_of_list_to_map_1.
Qed.

Lemma sync_installs_entries_witness :
  exists cnt, sync_policies MAX_POLICIES [mkPKey 9 9 6 80] {[ mkPKey 9 9 6 80 := 1 ]}
    [(mkPKey 7 8 6 443, ACTION_ALLOW); (mkPKey 0 8 0 0, ACTION_DENY)]
  = (list_to_map [(mkPKey 7 8 6 443, ACTION_ALLOW); (mkPKey 0 8 0 0, ACTION_DENY)], Some cnt).
Proof.
  apply (sync_installs_entries MAX_POLICIES [mkPKey 9 9 6 80] {[ mkPKey 9 9 6 80 := 1 ]}
           [(mkPKey 7 8 6 443, ACTION_ALLOW); (mkPKey 0 8 0 0, ACTION_DENY)]).
  - intros k v v' H1 H2. rewrite !elem_of_cons, elem_of_nil in H1, H2. naive_solver.
  - by rewrite map_to_list_singleton.
  - rewrite map_size_singleton. cbn. unfold MAX_POLICIES. lia.
Defined.

(** With two actions for one key a synchronisation is not idempotent: the
    loop compares with the table as it was before, so repeating the same call
    denies what the call before allowed, and the next repetition allows it. *)
Theorem sync_flips_conflicting_key k :
  let l := [(k, ACTION_DENY); (k, ACTION_ALLOW)] in
  let sync t := (sync_policies MAX_POLICIES (map_to_list t).*1 t l).1 in
  sync ∅ = {[ k := ACTION_ALLOW ]}
  /\ sync {[ k := ACTION_ALLOW ]} = {[ k := ACTION_DENY ]}
  /\ sync {[ k := ACTION_DENY ]} = {[ k := ACTION_ALLOW ]}.
Proof.
  assert (filter (fun k' => k' ∉ [k; k]) [k] = []) as Ef.
  { rewrite filter_cons, decide_False by (intros H; apply H; left). done. }
  assert (forall t v, size t = 0%nat \/ size t = 1%nat -> bpf_insert MAX_POLICIES t k v = Some (<[k := v]> t)) as Hins.
  { intros t v Ht. apply bpf_insert_room. unfold MAX_POLICIES. lia. }
  unfold sync_policies. cbn [sync_loop fmap list_fmap fst]. rewrite map_to_list_empty, !map_to_list_singleton.
  rewrite !lookup_empty, !lookup_singleton_eq. cbn [Z.eqb ACTION_ALLOW ACTION_DENY fst fmap list_fmap].
  rewrite Ef, (Hins ∅) by (left; apply map_size_empty). rewrite insert_empty.
  rewrite !(Hins {[ k := _ ]}) by (right; apply map_size_singleton). cbn. by rewrite !insert_singleton_eq.
Qed.
