(* ===== verification/EbpfMaps.v ===== *)
(** The eBPF maps of the dataplane: the keys and values of novanet-common/src/lib.rs,
    the tables the daemon writes and the kernel programs only read ([tables]), and
    the maps the programs write ([dynamic]), with the kernel's answers to the coming
    insertions into the LRU maps.  Addresses are the numbers [u32::from(Ipv4Addr)];
    padding fields, always 0, are left out. *)

From Stdlib Require Import ZArith Lia.
From stdpp Require Import base tactics list gmap.
From S2P Require Import Prelude PolicyTable.

(** * Keys and values *)

Record EndpointValue := mkEndpointValue { ifindex : Z; mac : list Z; identity : Z; ep_node_ip : Z }.

Record TunnelValue := mkTunnelValue { tun_ifindex : Z; remote_ip : Z; vni : Z }.

Record EgressKey := mkEgressKey { eg_src_identity : Z; eg_dst_ip : Z; dst_prefix_len : Z }.

Record EgressValue := mkEgressValue { eg_action : Z; snat_ip : Z }.

Record ServiceKey := mkServiceKey { sk_ip : Z; sk_port : Z; sk_protocol : Z; sk_scope : Z }.

Record ServiceValue := mkServiceValue {
  backend_count : Z; backend_offset : Z; algorithm : Z; flags : Z; affinity_timeout : Z; maglev_offset : Z }.

Record BackendValue := mkBackendValue { be_ip : Z; be_port : Z; be_node_ip : Z }.

Record CtKey := mkCtKey { ct_src_ip : Z; ct_dst_ip : Z; ct_src_port : Z; ct_dst_port : Z; ct_protocol : Z }.

Record CtValue := mkCtValue {
  timestamp : Z; backend_ip : Z; origin_ip : Z; backend_port : Z; origin_port : Z; ct_flags : Z }.

Record SockLbOrigin := mkOrigin { original_ip : Z; original_port : Z; or_protocol : Z }.

Record RateLimitConfig := mkRateLimit { rate : Z; burst : Z; window_ns : Z }.

Record TokenBucketState := mkBucket { tokens : Z; last_refill_ns : Z }.

Record BackendHealthCounters := mkHealth {
  total_conns : Z; failed_conns : Z; timeout_conns : Z; success_conns : Z;
  last_success_ns : Z; last_failure_ns : Z; total_rtt_ns : Z }.

Record FlowEvent := mkFlowEvent {
  fe_family : Z; verdict : Z; drop_reason : Z; fe_tcp_flags : Z; fe_src_identity : Z; fe_dst_identity : Z;
  fe_protocol : Z; fe_src_port : Z; fe_dst_port : Z; fe_src_ip : list Z; fe_dst_ip : list Z;
  bytes : Z; packets : Z; timestamp_ns : Z }.

Definition AF_INET : Z := 2.

Record SockKey := mkSockKey { so_src_ip : Z; so_dst_ip : Z; so_src_port : Z; so_dst_port : Z; so_family : Z }.

#[export] Instance EgressKey_eq_dec : EqDecision EgressKey.
Proof. solve_decision. Defined.
#[export] Instance EgressKey_countable : Countable EgressKey.
Proof.
  refine (inj_countable' (fun k => (eg_src_identity k, eg_dst_ip k, dst_prefix_len k))
            (fun t => mkEgressKey t.1.1 t.1.2 t.2) _). by intros [].
Defined.

#[export] Instance ServiceKey_eq_dec : EqDecision ServiceKey.
Proof. solve_decision. Defined.
#[export] Instance ServiceKey_countable : Countable ServiceKey.
Proof.
  refine (inj_countable' (fun k => (sk_ip k, sk_port k, sk_protocol k, sk_scope k))
            (fun t => mkServiceKey t.1.1.1 t.1.1.2 t.1.2 t.2) _). by intros [].
Defined.

#[export] Instance CtKey_eq_dec : EqDecision CtKey.
Proof. solve_decision. Defined.
#[export] Instance CtKey_countable : Countable CtKey.
Proof.
  refine (inj_countable' (fun k => (ct_src_ip k, ct_dst_ip k, ct_src_port k, ct_dst_port k, ct_protocol k))
            (fun t => mkCtKey t.1.1.1.1 t.1.1.1.2 t.1.1.2 t.1.2 t.2) _). by intros [].
Defined.

#[export] Instance SockKey_eq_dec : EqDecision SockKey.
Proof. solve_decision. Defined.
#[export] Instance SockKey_countable : Countable SockKey.
Proof.
  refine (inj_countable' (fun k => (so_src_ip k, so_dst_ip k, so_src_port k, so_dst_port k, so_family k))
            (fun t => mkSockKey t.1.1.1.1 t.1.1.1.2 t.1.1.2 t.1.2 t.2) _). by intros [].
Defined.

(** * Constants *)

Definition EGRESS_DENY : Z := 0.
Definition EGRESS_ALLOW : Z := 1.
Definition EGRESS_SNAT : Z := 2.

Definition CONFIG_KEY_MODE : Z := 0.
Definition CONFIG_KEY_TUNNEL_TYPE : Z := 1.
Definition CONFIG_KEY_NODE_IP : Z := 2.
Definition CONFIG_KEY_CLUSTER_CIDR_IP : Z := 3.
Definition CONFIG_KEY_CLUSTER_CIDR_PREFIX_LEN : Z := 4.
Definition CONFIG_KEY_DEFAULT_DENY : Z := 5.
Definition CONFIG_KEY_L4LB_ENABLED : Z := 10.

Definition SVC_SCOPE_CLUSTER_IP : Z := 0.
Definition SVC_SCOPE_NODE_PORT : Z := 1.
Definition SVC_SCOPE_EXTERNAL_IP : Z := 2.
Definition SVC_SCOPE_LOAD_BALANCER : Z := 3.

Definition LB_ALG_RANDOM : Z := 0.
Definition LB_ALG_ROUND_ROBIN : Z := 1.
Definition LB_ALG_MAGLEV : Z := 2.

Definition MODE_OVERLAY : Z := 0.
Definition MODE_NATIVE : Z := 1.

Definition DROP_REASON_NONE : Z := 0.
Definition DROP_REASON_POLICY_DENIED : Z := 1.
Definition DROP_REASON_NO_IDENTITY : Z := 2.
Definition DROP_REASON_NO_ROUTE : Z := 3.
Definition DROP_REASON_NO_TUNNEL : Z := 4.
Definition DROP_REASON_TTL_EXCEEDED : Z := 5.
Definition DROP_REASON_RATE_LIMITED : Z := 6.
Definition DROP_REASON_MAX : Z := 16.

Definition ETH_HLEN : Z := 14.

Definition MAX_ENDPOINTS : Z := 65536.
Definition MAX_TUNNELS : Z := 1024.
Definition MAX_EGRESS_POLICIES : Z := 16384.
Definition MAX_CONFIG_ENTRIES : Z := 32.
Definition MAX_SERVICES : Z := 16384.
Definition MAX_BACKENDS : Z := 65536.
Definition MAX_MAGLEV : Z := 1048576.
Definition MAGLEV_TABLE_SIZE : Z := 65537.

(** * Map state *)

(** Arrays are kept as finite maps; entries that were never written are 0. *)
Record tables := mkTables {
  ENDPOINTS : gmap Z EndpointValue;
  POLICIES : policies;
  TUNNELS : gmap Z TunnelValue;
  EGRESS_POLICIES : gmap EgressKey EgressValue;
  CONFIG : gmap Z Z;
  SERVICES : gmap ServiceKey ServiceValue;
  BACKENDS : gmap Z BackendValue;
  MAGLEV : gmap Z Z;
  RL_CONFIG : RateLimitConfig;
  SOCKMAP_ENDPOINTS : gmap (Z * Z) Z;
  MESH_SERVICES : gmap (Z * Z) Z;
}.

Definition empty_tables : tables := mkTables ∅ ∅ ∅ ∅ ∅ ∅ ∅ ∅ (mkRateLimit 0 0 0) ∅ ∅.

Definition set_ENDPOINTS (t : tables) (m : gmap Z EndpointValue) : tables :=
  mkTables m (POLICIES t) (TUNNELS t) (EGRESS_POLICIES t) (CONFIG t) (SERVICES t) (BACKENDS t) (MAGLEV t) (RL_CONFIG t) (SOCKMAP_ENDPOINTS t) (MESH_SERVICES t).
Definition set_POLICIES (t : tables) (m : policies) : tables :=
  mkTables (ENDPOINTS t) m (TUNNELS t) (EGRESS_POLICIES t) (CONFIG t) (SERVICES t) (BACKENDS t) (MAGLEV t) (RL_CONFIG t) (SOCKMAP_ENDPOINTS t) (MESH_SERVICES t).
Definition set_TUNNELS (t : tables) (m : gmap Z TunnelValue) : tables :=
  mkTables (ENDPOINTS t) (POLICIES t) m (EGRESS_POLICIES t) (CONFIG t) (SERVICES t) (BACKENDS t) (MAGLEV t) (RL_CONFIG t) (SOCKMAP_ENDPOINTS t) (MESH_SERVICES t).
Definition set_EGRESS (t : tables) (m : gmap EgressKey EgressValue) : tables :=
  mkTables (ENDPOINTS t) (POLICIES t) (TUNNELS t) m (CONFIG t) (SERVICES t) (BACKENDS t) (MAGLEV t) (RL_CONFIG t) (SOCKMAP_ENDPOINTS t) (MESH_SERVICES t).
Definition set_CONFIG (t : tables) (m : gmap Z Z) : tables :=
  mkTables (ENDPOINTS t) (POLICIES t) (TUNNELS t) (EGRESS_POLICIES t) m (SERVICES t) (BACKENDS t) (MAGLEV t) (RL_CONFIG t) (SOCKMAP_ENDPOINTS t) (MESH_SERVICES t).
Definition set_SERVICES (t : tables) (m : gmap ServiceKey ServiceValue) : tables :=
  mkTables (ENDPOINTS t) (POLICIES t) (TUNNELS t) (EGRESS_POLICIES t) (CONFIG t) m (BACKENDS t) (MAGLEV t) (RL_CONFIG t) (SOCKMAP_ENDPOINTS t) (MESH_SERVICES t).
Definition set_BACKENDS (t : tables) (m : gmap Z BackendValue) : tables :=
  mkTables (ENDPOINTS t) (POLICIES t) (TUNNELS t) (EGRESS_POLICIES t) (CONFIG t) (SERVICES t) m (MAGLEV t) (RL_CONFIG t) (SOCKMAP_ENDPOINTS t) (MESH_SERVICES t).
Definition set_MAGLEV (t : tables) (m : gmap Z Z) : tables :=
  mkTables (ENDPOINTS t) (POLICIES t) (TUNNELS t) (EGRESS_POLICIES t) (CONFIG t) (SERVICES t) (BACKENDS t) m (RL_CONFIG t) (SOCKMAP_ENDPOINTS t) (MESH_SERVICES t).
Definition set_RL_CONFIG (t : tables) (m : RateLimitConfig) : tables :=
  mkTables (ENDPOINTS t) (POLICIES t) (TUNNELS t) (EGRESS_POLICIES t) (CONFIG t) (SERVICES t) (BACKENDS t) (MAGLEV t) m (SOCKMAP_ENDPOINTS t) (MESH_SERVICES t).
Definition set_SOCKMAP_ENDPOINTS (t : tables) (m : gmap (Z * Z) Z) : tables :=
  mkTables (ENDPOINTS t) (POLICIES t) (TUNNELS t) (EGRESS_POLICIES t) (CONFIG t) (SERVICES t) (BACKENDS t) (MAGLEV t) (RL_CONFIG t) m (MESH_SERVICES t).
Definition set_MESH_SERVICES (t : tables) (m : gmap (Z * Z) Z) : tables :=
  mkTables (ENDPOINTS t) (POLICIES t) (TUNNELS t) (EGRESS_POLICIES t) (CONFIG t) (SERVICES t) (BACKENDS t) (MAGLEV t) (RL_CONFIG t) (SOCKMAP_ENDPOINTS t) m.

(** What an LRU map answers to an insertion: it stores the entry, having first
    removed those it picks to make room, or has no memory for it. *)
Inductive lru_answer (K : Type) :=
| Stored (evicts : K -> bool)
| Refused.
Arguments Stored {K}.
Arguments Refused {K}.

(** The answer takes the entry [k] away, or keeps an insertion from changing it. *)
Definition loses {K} (k : K) (a : lru_answer K) : bool :=
  match a with Stored evicts => evicts k | Refused => true end.

(** The choice of the kernel is a sequence of answers, one for every insertion to
    come; after the last nothing is evicted. *)
Definition next_answer {K} (l : list (lru_answer K)) : lru_answer K := hd (Stored (fun _ => false)) l.

Definition lru_insert `{Countable K} {V} (a : lru_answer K) (k : K) (v : V) (m : gmap K V) : gmap K V :=
  match a with
  | Stored evicts => filter (fun e => evicts e.1 = false) (<[k := v]> m)
  | Refused => m
  end.

(** The per-CPU maps are those of the CPU that runs the program.  [ring_free] is
    the number of events the ring buffer has room for; [FLOW_EVENTS] are the
    events submitted, newest first.  The last three fields are the answers to the
    coming insertions in the LRU maps. *)
Record dynamic := mkDynamic {
  CONNTRACK : gmap CtKey CtValue;
  RR_COUNTERS : gmap Z Z;
  DROP_COUNTERS : gmap Z Z;
  RL_TOKENS : gmap (list Z) TokenBucketState;
  BACKEND_HEALTH : gmap (Z * Z) BackendHealthCounters;
  SOCK_LB_ORIGINS : gmap Z SockLbOrigin;
  SOCK_HASH : gset SockKey;
  SOCKMAP_STATS : gmap Z Z;
  FLOW_EVENTS : list FlowEvent;
  ring_free : nat;
  CT_ANSWERS : list (lru_answer CtKey);
  RL_ANSWERS : list (lru_answer (list Z));
  LB_ANSWERS : list (lru_answer Z);
}.

Definition set_RR (d : dynamic) (m : gmap Z Z) : dynamic :=
  mkDynamic (CONNTRACK d) m (DROP_COUNTERS d) (RL_TOKENS d) (BACKEND_HEALTH d) (SOCK_LB_ORIGINS d)
    (SOCK_HASH d) (SOCKMAP_STATS d) (FLOW_EVENTS d) (ring_free d) (CT_ANSWERS d) (RL_ANSWERS d) (LB_ANSWERS d).
Definition set_DROP (d : dynamic) (m : gmap Z Z) : dynamic :=
  mkDynamic (CONNTRACK d) (RR_COUNTERS d) m (RL_TOKENS d) (BACKEND_HEALTH d) (SOCK_LB_ORIGINS d)
    (SOCK_HASH d) (SOCKMAP_STATS d) (FLOW_EVENTS d) (ring_free d) (CT_ANSWERS d) (RL_ANSWERS d) (LB_ANSWERS d).
Definition set_HEALTH (d : dynamic) (m : gmap (Z * Z) BackendHealthCounters) : dynamic :=
  mkDynamic (CONNTRACK d) (RR_COUNTERS d) (DROP_COUNTERS d) (RL_TOKENS d) m (SOCK_LB_ORIGINS d)
    (SOCK_HASH d) (SOCKMAP_STATS d) (FLOW_EVENTS d) (ring_free d) (CT_ANSWERS d) (RL_ANSWERS d) (LB_ANSWERS d).
Definition set_SOCK_HASH (d : dynamic) (m : gset SockKey) : dynamic :=
  mkDynamic (CONNTRACK d) (RR_COUNTERS d) (DROP_COUNTERS d) (RL_TOKENS d) (BACKEND_HEALTH d) (SOCK_LB_ORIGINS d)
    m (SOCKMAP_STATS d) (FLOW_EVENTS d) (ring_free d) (CT_ANSWERS d) (RL_ANSWERS d) (LB_ANSWERS d).
Definition set_STATS (d : dynamic) (m : gmap Z Z) : dynamic :=
  mkDynamic (CONNTRACK d) (RR_COUNTERS d) (DROP_COUNTERS d) (RL_TOKENS d) (BACKEND_HEALTH d) (SOCK_LB_ORIGINS d)
    (SOCK_HASH d) m (FLOW_EVENTS d) (ring_free d) (CT_ANSWERS d) (RL_ANSWERS d) (LB_ANSWERS d).
Definition set_EVENTS (d : dynamic) (l : list FlowEvent) (n : nat) : dynamic :=
  mkDynamic (CONNTRACK d) (RR_COUNTERS d) (DROP_COUNTERS d) (RL_TOKENS d) (BACKEND_HEALTH d) (SOCK_LB_ORIGINS d)
    (SOCK_HASH d) (SOCKMAP_STATS d) l n (CT_ANSWERS d) (RL_ANSWERS d) (LB_ANSWERS d).

(** [LruHashMap::insert], whose result the programs ignore. *)
Definition insert_CONNTRACK (d : dynamic) (k : CtKey) (v : CtValue) : dynamic :=
  mkDynamic (lru_insert (next_answer (CT_ANSWERS d)) k v (CONNTRACK d)) (RR_COUNTERS d) (DROP_COUNTERS d) (RL_TOKENS d) (BACKEND_HEALTH d) (SOCK_LB_ORIGINS d)
    (SOCK_HASH d) (SOCKMAP_STATS d) (FLOW_EVENTS d) (ring_free d) (tail (CT_ANSWERS d)) (RL_ANSWERS d) (LB_ANSWERS d).
Definition insert_TOKENS (d : dynamic) (k : list Z) (v : TokenBucketState) : dynamic :=
  mkDynamic (CONNTRACK d) (RR_COUNTERS d) (DROP_COUNTERS d) (lru_insert (next_answer (RL_ANSWERS d)) k v (RL_TOKENS d)) (BACKEND_HEALTH d) (SOCK_LB_ORIGINS d)
    (SOCK_HASH d) (SOCKMAP_STATS d) (FLOW_EVENTS d) (ring_free d) (CT_ANSWERS d) (tail (RL_ANSWERS d)) (LB_ANSWERS d).
Definition insert_ORIGINS (d : dynamic) (k : Z) (v : SockLbOrigin) : dynamic :=
  mkDynamic (CONNTRACK d) (RR_COUNTERS d) (DROP_COUNTERS d) (RL_TOKENS d) (BACKEND_HEALTH d) (lru_insert (next_answer (LB_ANSWERS d)) k v (SOCK_LB_ORIGINS d))
    (SOCK_HASH d) (SOCKMAP_STATS d) (FLOW_EVENTS d) (ring_free d) (CT_ANSWERS d) (RL_ANSWERS d) (tail (LB_ANSWERS d)).

Definition fresh_dynamic : dynamic := mkDynamic ∅ ∅ ∅ ∅ ∅ ∅ ∅ ∅ [] 1024 [] [] [].

(** [Array::get]: the value of an index below the size of the array. *)
Definition array_get {A} (size : Z) (zero : A) (m : gmap Z A) (i : Z) : option A :=
  if i <? size then Some (default zero (m !! i)) else None.

(** [get_config] of the programs. *)
Definition get_config (t : tables) (key : Z) : Z := default 0 (CONFIG t !! key).

(** * LRU maps *)

Lemma lru_insert_spared `{Countable K} {V} a k v k' (m : gmap K V) :
  loses k' a = false -> lru_insert a k v m !! k' = <[k := v]> m !! k'.
Proof.
  destruct a as [evicts|]; [|done]. cbn. intros Hk. rewrite map_lookup_filter.
  destruct (<[k := v]> m !! k') as [w|]; [|done]. cbn. by rewrite option_guard_True.
Qed.

Lemma lru_insert_lost `{Countable K} {V} evicts k v k' (m : gmap K V) :
  evicts k' = true -> lru_insert (Stored evicts) k v m !! k' = None.
Proof.
  intros Hk. cbn. rewrite map_lookup_filter. destruct (<[k := v]> m !! k'); [|done]. cbn.
  by rewrite option_guard_False by (cbn; congruence).
Qed.

(** The number of answers that take an entry away. *)
Definition losses {K} (k : K) (l : list (lru_answer K)) : nat := length (filter (fun a => loses k a = true) l).

Lemma losses_next {K} (k : K) l : losses k l = ((if loses k (next_answer l) then 1 else 0) + losses k (tail l))%nat.
Proof.
  unfold losses. destruct l as [|a l]; [done|]. cbn [next_answer hd tail]. destruct (loses k a) eqn:E.
  - by rewrite filter_cons_True.
  - by rewrite filter_cons_False by congruence.
Qed.
