(* ===== verification/EbpfHelpers.v ===== *)
(** The helper functions of the kernel programs, dataplane/novanet-ebpf/src/main.rs
    lines 130-860: parsing, events and counters, the egress policy lookup, the
    token bucket, passive health tracking and service lookup with connection
    tracking.  [now] is the answer of bpf_ktime_get_ns.  What the LRU maps evict is
    the choice of the kernel, a part of the state ([lru_answer] of EbpfMaps.v). *)

From Stdlib Require Import ZArith Lia.
From stdpp Require Import base tactics list gmap.
From S2P Require Import Prelude PolicyTable EbpfMaps.

(** * Packets *)

(** A packet is the list of its bytes; [load] is [TcContext::load] of [n] bytes. *)
Definition load (pkt : list Z) (off n : Z) : option (list Z) :=
  if off + n <=? Z.of_nat (length pkt) then Some (take (Z.to_nat n) (drop (Z.to_nat off) pkt)) else None.

(** [u16::from_be_bytes] and [u32::from_be_bytes] of the bytes at [off]. *)
Definition be16 (b : list Z) (off : nat) : Z := nth off b 0 * 256 + nth (S off) b 0.
Definition be32 (b : list Z) (off : nat) : Z := be16 b off * 65536 + be16 b (S (S off)).

(** [to_be_bytes] of a u32. *)
Definition ip_bytes (ip : Z) : list Z :=
  [wrap8 (Z.shiftr ip 24); wrap8 (Z.shiftr ip 16); wrap8 (Z.shiftr ip 8); wrap8 ip].

Definition parse_l4_ports (pkt : list Z) (l4_offset protocol : Z) : Z * Z * Z :=
  if protocol =? 6 then
    match load pkt l4_offset 20 with
    | Some tcp => (be16 tcp 0, be16 tcp 2, match load pkt (l4_offset + 13) 1 with Some b => nth 0 b 0 | None => 0 end)
    | None => (0, 0, 0)
    end
  else if protocol =? 17 then
    match load pkt l4_offset 8 with
    | Some udp => (be16 udp 0, be16 udp 2, 0)
    | None => (0, 0, 0)
    end
  else (0, 0, 0).

(** * Counters and events *)

Definition inc_drop_counter (d : dynamic) (reason : Z) : dynamic :=
  match array_get DROP_REASON_MAX 0 (DROP_COUNTERS d) reason with
  | Some c => set_DROP d (<[reason := wrap64 (c + 1)]> (DROP_COUNTERS d))
  | None => d
  end.

Definition ip16 (ip : Z) : list Z := ip_bytes ip ++ replicate 12 0.

Definition emit_flow_event (now : Z) (d : dynamic) (src_ip dst_ip src_identity dst_identity protocol
    src_port dst_port verdict drop_reason tcp_flags bytes : Z) : dynamic :=
  match ring_free d with
  | O => d
  | S n => set_EVENTS d (mkFlowEvent AF_INET verdict drop_reason tcp_flags src_identity dst_identity protocol
                           src_port dst_port (ip16 src_ip) (ip16 dst_ip) bytes 1 now :: FLOW_EVENTS d) n
  end.

(** * Lookups *)

(** [!((1u32 << (32 - plen)) - 1)] for 0 < plen < 32. *)
Definition prefix_mask (plen : Z) : Z :=
  if plen =? 0 then 0 else if plen =? 32 then 4294967295 else 4294967295 - (2 ^ (32 - plen) - 1).

Definition is_cluster_ip (t : tables) (ip : Z) : bool :=
  let cidr_ip := wrap32 (get_config t CONFIG_KEY_CLUSTER_CIDR_IP) in
  let prefix_len := wrap32 (get_config t CONFIG_KEY_CLUSTER_CIDR_PREFIX_LEN) in
  if (prefix_len =? 0) || (32 <? prefix_len) then false
  else Z.land ip (prefix_mask prefix_len) =? Z.land cidr_ip (prefix_mask prefix_len).

Definition lookup_identity (t : tables) (ip : Z) : option (Z * EndpointValue) :=
  (fun v => (identity v, v)) <$> ENDPOINTS t !! ip.

(** The loop of [check_egress_policy] over the prefix lengths. *)
Fixpoint check_prefixes (t : tables) (src_identity dst_ip : Z) (plens : list Z) : bool * Z :=
  match plens with
  | [] => (true, 0)
  | plen :: rest =>
      match EGRESS_POLICIES t !! mkEgressKey src_identity (Z.land dst_ip (prefix_mask plen)) plen with
      | Some v => if eg_action v =? EGRESS_DENY then (false, 0)
                  else if eg_action v =? EGRESS_ALLOW then (true, 0)
                  else if eg_action v =? EGRESS_SNAT then (true, snat_ip v)
                  else (false, 0)
      | None => check_prefixes t src_identity dst_ip rest
      end
  end.

Definition check_egress_policy (t : tables) (src_identity dst_ip : Z) : bool * Z :=
  check_prefixes t src_identity dst_ip [32; 24; 16; 8; 0].

(** * Rate limiting *)

Definition saturating_sub (a b : Z) : Z := Z.max 0 (a - b).
Definition saturating_add64 (a b : Z) : Z := Z.min MaxUint64 (a + b).

(** The refill of a bucket that was last touched at [last_refill_ns]. *)
Definition refill (cfg : RateLimitConfig) (st : TokenBucketState) (now : Z) : Z :=
  let elapsed := saturating_sub now (last_refill_ns st) in
  if (window_ns cfg <=? elapsed) && (0 <? window_ns cfg) then
    let windows := elapsed / window_ns cfg in
    let tk := saturating_add64 (tokens st) (wrap64 (windows * rate cfg)) in
    if burst cfg <? tk then burst cfg else tk
  else tokens st.

Definition check_rate_limit (t : tables) (now : Z) (d : dynamic) (src_ip : Z) : dynamic * bool :=
  let cfg := RL_CONFIG t in
  if rate cfg =? 0 then (d, true)
  else
    let key := ip16 src_ip in
    match RL_TOKENS d !! key with
    | Some st =>
        let tk := refill cfg st now in
        if 0 <? tk then (insert_TOKENS d key (mkBucket (tk - 1) now), true)
        else (d, false)
    | None =>
        (insert_TOKENS d key (mkBucket (if 0 <? burst cfg then burst cfg - 1 else 0) now), true)
    end.

(** * Passive health tracking *)

Definition has_flag (f mask : Z) : bool := negb (Z.land f mask =? 0).

Definition track_backend_health (now : Z) (d : dynamic) (dst_ip dst_port tcp_flags : Z) : dynamic :=
  if tcp_flags =? 0 then d
  else
    let key := (dst_ip, dst_port) in
    let attempt := has_flag tcp_flags 2 && (Z.land tcp_flags 16 =? 0) in
    let established := Z.land tcp_flags 18 =? 18 in
    let reset := has_flag tcp_flags 4 in
    match BACKEND_HEALTH d !! key with
    | Some c =>
        set_HEALTH d (<[key := mkHealth
          (if attempt then wrap64 (total_conns c + 1) else total_conns c)
          (if reset then wrap64 (failed_conns c + 1) else failed_conns c)
          (timeout_conns c)
          (if established then wrap64 (success_conns c + 1) else success_conns c)
          (if established then now else last_success_ns c)
          (if reset then now else last_failure_ns c)
          (total_rtt_ns c)]> (BACKEND_HEALTH d))
    | None =>
        if Z.of_nat (size (BACKEND_HEALTH d)) <? 4096 then
          set_HEALTH d (<[key := mkHealth
            (if attempt then 1 else 0) (if reset then 1 else 0) 0 (if established then 1 else 0)
            (if established then now else 0) (if reset then now else 0) 0]> (BACKEND_HEALTH d))
        else d
    end.

(** * Service lookup *)

Definition fnv32_step (h x : Z) : Z := wrap32 (Z.lxor h x * 16777619).

Definition hash_5tuple (src_ip dst_ip src_port dst_port proto : Z) : Z :=
  foldl fnv32_step 2166136261 [src_ip; dst_ip; src_port; dst_port; proto].

(** The selection of a backend index, with the hash of the flow; the round-robin
    counter is that of the service's first slot. *)
Definition select_backend (t : tables) (d : dynamic) (svc : ServiceValue) (hash : Z) : dynamic * Z :=
  let count := backend_count svc in
  if algorithm svc =? LB_ALG_ROUND_ROBIN then
    match array_get MAX_SERVICES 0 (RR_COUNTERS d) (backend_offset svc) with
    | Some val => (set_RR d (<[backend_offset svc := wrap32 (val + 1)]> (RR_COUNTERS d)), val mod count)
    | None => (d, 0)
    end
  else if algorithm svc =? LB_ALG_MAGLEV then
    (d, match array_get MAX_MAGLEV 0 (MAGLEV t) (wrap32 (maglev_offset svc + hash mod MAGLEV_TABLE_SIZE)) with
        | Some idx => idx
        | None => 0
        end)
  else (d, hash mod count).

Definition zero_backend : BackendValue := mkBackendValue 0 0 0.

(** [service_lookup]: (backend_ip, backend_port, origin_ip, origin_port). *)
Definition service_lookup (t : tables) (d : dynamic) (dst_ip dst_port protocol src_ip src_port scope : Z)
    : dynamic * option (Z * Z * Z * Z) :=
  if get_config t CONFIG_KEY_L4LB_ENABLED =? 0 then (d, None)
  else
    let ct_key := mkCtKey src_ip dst_ip src_port dst_port protocol in
    match CONNTRACK d !! ct_key with
    | Some ct => (d, Some (backend_ip ct, backend_port ct, origin_ip ct, origin_port ct))
    | None =>
        match SERVICES t !! mkServiceKey dst_ip dst_port protocol scope with
        | None => (d, None)
        | Some svc =>
            if backend_count svc =? 0 then (d, None)
            else
              let '(d1, idx) := select_backend t d svc (hash_5tuple src_ip dst_ip src_port dst_port protocol) in
              match array_get MAX_BACKENDS zero_backend (BACKENDS t) (wrap32 (backend_offset svc + idx)) with
              | None => (d1, None)
              | Some be =>
                  let fwd := mkCtValue 0 (be_ip be) dst_ip (be_port be) dst_port 0 in
                  let rev_key := mkCtKey (be_ip be) src_ip (be_port be) src_port protocol in
                  let rev := mkCtValue 0 0 dst_ip 0 dst_port 0 in
                  (insert_CONNTRACK (insert_CONNTRACK d1 ct_key fwd) rev_key rev,
                   Some (be_ip be, be_port be, dst_ip, dst_port))
              end
        end
    end.

(** [sock_service_lookup]: ClusterIP services, a hash without the source. *)
Definition sock_service_lookup (t : tables) (d : dynamic) (dst_ip dst_port protocol : Z)
    : dynamic * option (Z * Z) :=
  if get_config t CONFIG_KEY_L4LB_ENABLED =? 0 then (d, None)
  else
    match SERVICES t !! mkServiceKey dst_ip dst_port protocol SVC_SCOPE_CLUSTER_IP with
    | None => (d, None)
    | Some svc =>
        if backend_count svc =? 0 then (d, None)
        else
          let '(d1, idx) := select_backend t d svc (foldl fnv32_step 2166136261 [dst_ip; dst_port; protocol]) in
          match array_get MAX_BACKENDS zero_backend (BACKENDS t) (wrap32 (backend_offset svc + idx)) with
          | None => (d1, None)
          | Some be => (d1, Some (be_ip be, be_port be))
          end
    end.

(** * Egress policies *)

(** Entries of two tables that agree on the five prefix lengths give one answer. *)
Lemma check_prefixes_ext t1 t2 src ip plens :
  (forall plen ip', plen ∈ plens ->
     EGRESS_POLICIES t1 !! mkEgressKey src ip' plen = EGRESS_POLICIES t2 !! mkEgressKey src ip' plen) ->
  check_prefixes t1 src ip plens = check_prefixes t2 src ip plens.
Proof.
  induction plens as [|p plens IH]; intros H; [done|]. cbn. rewrite H by left.
  case_match; [done|]. apply IH. intros. apply H. by right.
Qed.

(** * The token bucket *)

(** The answers to a sequence of packets, each with its time and its source. *)
Fixpoint limit_run (t : tables) (d : dynamic) (pkts : list (Z * Z)) : list bool :=
  match pkts with
  | [] => []
  | (now, src_ip) :: rest => let '(d', ok) := check_rate_limit t now d src_ip in ok :: limit_run t d' rest
  end.

(** The number of packets of one source that pass. *)
Fixpoint passed (src_ip : Z) (pkts : list (Z * Z)) (answers : list bool) : Z :=
  match pkts, answers with
  | (_, src) :: pkts, ok :: answers => (if bool_decide (ip16 src = ip16 src_ip) && ok then 1 else 0) + passed src_ip pkts answers
  | _, _ => 0
  end.

Fixpoint ascending (t0 : Z) (times : list Z) : Prop :=
  match times with [] => True | x :: rest => t0 <= x /\ ascending x rest end.

Lemma last_cons_default (x : Z) rest t0 : List.last (x :: rest) t0 = List.last rest x.
Proof. revert x t0. induction rest as [|y rest IH]; intros x t0; [done|]. rewrite (IH y x). exact (IH y t0). Qed.

Lemma ascending_last t0 times : ascending t0 times -> t0 <= List.last times t0.
Proof.
  revert t0. induction times as [|x rest IH]; intros t0; [cbn; lia|]. intros [H1 H2%IH].
  rewrite last_cons_default. lia.
Qed.

Lemma div_superadditive a b w : 0 <= w -> 0 <= a -> 0 <= b -> a / w + b / w <= (a + b) / w.
Proof.
  intros. destruct (decide (w = 0)) as [->|]; [by rewrite !Z.div_0_r|].
  apply Z.div_le_lower_bound; [lia|]. pose proof (Z.mul_div_le a w). pose proof (Z.mul_div_le b w). nia.
Qed.

Lemma div_nonneg a w : 0 <= w -> 0 <= a -> 0 <= a / w.
Proof. intros. destruct (decide (w = 0)) as [->|]; [by rewrite Z.div_0_r|apply Z.div_pos; lia]. Qed.

Section Limiter.
Context (t : tables) (src_ip : Z).
Context (Hrate : 0 < rate (RL_CONFIG t)) (Hburst : 0 <= burst (RL_CONFIG t)) (Hwindow : 0 <= window_ns (RL_CONFIG t)).

Lemma refill_bound st now :
  0 <= tokens st -> last_refill_ns st <= now ->
  0 <= refill (RL_CONFIG t) st now <= tokens st + rate (RL_CONFIG t) * ((now - last_refill_ns st) / window_ns (RL_CONFIG t)).
Proof.
  intros H0 H1. unfold refill, saturating_sub, saturating_add64. rewrite Z.max_r by lia.
  set (e := now - last_refill_ns st). set (w := window_ns (RL_CONFIG t)).
  assert (0 <= e / w) by (apply div_nonneg; lia).
  destruct ((w <=? e) && (0 <? w)); [|nia].
  assert (0 <= wrap64 (e / w * rate (RL_CONFIG t)) <= e / w * rate (RL_CONFIG t)) as [? ?].
  { unfold wrap64. split; [apply Z.mod_pos_bound; lia|]. apply Z.mod_le; nia. }
  unfold MaxUint64. case_match; to_prop; lia.
Qed.

(** What a source may still send at once, the packets it owes to entries the map
    loses included, and the time from which its tokens are refilled. *)
Definition allowance (d : dynamic) : Z :=
  match RL_TOKENS d !! ip16 src_ip with Some st => tokens st | None => Z.max 1 (burst (RL_CONFIG t)) end.

Definition since (d : dynamic) (t0 : Z) : Z :=
  match RL_TOKENS d !! ip16 src_ip with Some st => last_refill_ns st | None => t0 end.

Definition credit (d : dynamic) : Z :=
  allowance d + Z.max 1 (burst (RL_CONFIG t)) * Z.of_nat (losses (ip16 src_ip) (RL_ANSWERS d)).

Definition bucket_ok (d : dynamic) (t0 : Z) : Prop :=
  forall st, RL_TOKENS d !! ip16 src_ip = Some st -> 0 <= tokens st /\ last_refill_ns st <= t0.

Lemma allowance_ok d t0 : bucket_ok d t0 -> 0 <= allowance d /\ since d t0 <= t0.
Proof. unfold bucket_ok, allowance, since. destruct (RL_TOKENS d !! _) as [st|]; [|lia]. intros H. by apply H. Qed.

(** An insertion for another source gives a source nothing but the loss of its
    bucket, which its credit has paid for. *)
Lemma insert_other d src v now t0 :
  t0 <= now -> bucket_ok d t0 -> ip16 src <> ip16 src_ip ->
  let d' := insert_TOKENS d (ip16 src) v in
  bucket_ok d' now /\ since d t0 <= since d' now <= now /\ credit d' <= credit d.
Proof.
  intros Hnow Hok Hne d'. pose proof (allowance_ok d t0 Hok) as [Ha Hs]. unfold credit, d'. cbn [RL_ANSWERS insert_TOKENS].
  rewrite (losses_next _ (RL_ANSWERS d)). unfold bucket_ok, allowance, since in *. cbn [RL_TOKENS insert_TOKENS].
  assert (bucket_ok d now) as Hok' by (intros st Hst; specialize (Hok st Hst); lia).
  destruct (loses (ip16 src_ip) _) eqn:El.
  - destruct (next_answer (RL_ANSWERS d)) as [ev|].
    + rewrite lru_insert_lost by exact El. split; [done|]. lia.
    + split; [exact Hok'|]. cbn [lru_insert]. destruct (RL_TOKENS d !! _); lia.
  - rewrite lru_insert_spared, lookup_insert_ne by done. split; [exact Hok'|]. destruct (RL_TOKENS d !! _); lia.
Qed.

(** An insertion for the source itself that leaves it [tk] tokens, paid for by what
    it had and by a refill [w]: it costs one packet, and only an insertion that is
    refused leaves the time of the last refill as it was. *)
Lemma insert_own d src tk now t0 w :
  t0 <= now -> bucket_ok d t0 -> ip16 src = ip16 src_ip -> 0 <= tk -> tk + 1 <= allowance d + w ->
  let d' := insert_TOKENS d (ip16 src) (mkBucket tk now) in
  bucket_ok d' now /\ since d t0 <= since d' now <= now /\
  (1 + credit d' <= credit d + w /\ since d' now = now \/ 1 + credit d' <= credit d).
Proof.
  intros Hnow Hok E Htk Hw d'. pose proof (allowance_ok d t0 Hok) as [Ha Hs]. unfold credit, d'. cbn [RL_ANSWERS insert_TOKENS].
  rewrite (losses_next _ (RL_ANSWERS d)). unfold bucket_ok, allowance, since in *. cbn [RL_TOKENS insert_TOKENS].
  destruct (loses (ip16 src_ip) _) eqn:El.
  - destruct (next_answer (RL_ANSWERS d)) as [ev|].
    + rewrite lru_insert_lost by exact El. split; [done|]. lia.
    + split; [intros st Hst; specialize (Hok st Hst); lia|]. cbn [lru_insert]. destruct (RL_TOKENS d !! _); lia.
  - rewrite lru_insert_spared, E, lookup_insert_eq by done. cbn [tokens last_refill_ns]. split; [intros st [= <-]; cbn; lia|]. lia.
Qed.

(** One packet: the credit pays for it, with the refill since the last one. *)
Lemma limit_step d now t0 src :
  t0 <= now -> bucket_ok d t0 ->
  let '(d', ok) := check_rate_limit t now d src in
  bucket_ok d' now /\ since d t0 <= since d' now <= now /\
  (if bool_decide (ip16 src = ip16 src_ip) && ok then 1 else 0) + credit d'
    <= credit d + rate (RL_CONFIG t) * ((since d' now - since d t0) / window_ns (RL_CONFIG t)).
Proof.
  intros Hnow Hok. pose proof (allowance_ok d t0 Hok) as [Ha Hs].
  assert (forall x, 0 <= x -> 0 <= rate (RL_CONFIG t) * (x / window_ns (RL_CONFIG t))) as Hrefill
    by (intros x Hx; pose proof (div_nonneg x (window_ns (RL_CONFIG t))); nia).
  assert (bucket_ok d now /\ since d t0 <= since d now <= now /\
    credit d <= credit d + rate (RL_CONFIG t) * ((since d now - since d t0) / window_ns (RL_CONFIG t))) as Hsame.
  { assert (since d t0 <= since d now <= now) by (unfold since in *; destruct (RL_TOKENS d !! _); lia).
    split; [intros st Hst; specialize (Hok st Hst); lia|]. specialize (Hrefill (since d now - since d t0)). lia. }
  unfold check_rate_limit. rewrite (proj2 (Z.eqb_neq _ 0)) by lia.
  destruct (decide (ip16 src = ip16 src_ip)) as [E|E].
  - rewrite bool_decide_true by done. cbn [andb].
    assert (forall tk w, 0 <= tk -> tk + 1 <= allowance d + w ->
      w <= rate (RL_CONFIG t) * ((now - since d t0) / window_ns (RL_CONFIG t)) ->
      let d' := insert_TOKENS d (ip16 src) (mkBucket tk now) in
      bucket_ok d' now /\ since d t0 <= since d' now <= now /\
      1 + credit d' <= credit d + rate (RL_CONFIG t) * ((since d' now - since d t0) / window_ns (RL_CONFIG t))) as Hown.
    { intros tk w Htk Hw Hle d'. destruct (insert_own d src tk now t0 w Hnow Hok E Htk Hw) as (H1 & H2 & H3).
      split; [exact H1|]. split; [exact H2|]. fold d' in H2, H3. specialize (Hrefill (since d' now - since d t0)).
      destruct H3 as [[H3 ->]|H3]; lia. }
    rewrite E in *. destruct (RL_TOKENS d !! ip16 src_ip) as [st|] eqn:Est.
    + destruct (Hok st Est) as [H0 H1]. pose proof (refill_bound st now H0 ltac:(lia)) as [? ?].
      destruct (0 <? refill _ st now) eqn:Er; to_prop; [|exact Hsame].
      apply (Hown _ (rate (RL_CONFIG t) * ((now - last_refill_ns st) / window_ns (RL_CONFIG t)))); [lia| |];
        unfold allowance, since; rewrite Est; lia.
    + apply (Hown _ 0); [case_match; to_prop; lia| |apply Hrefill; lia]. unfold allowance. rewrite Est. case_match; to_prop; lia.
  - rewrite bool_decide_false by done. cbn [andb].
    assert (forall v, let d' := insert_TOKENS d (ip16 src) v in
      bucket_ok d' now /\ since d t0 <= since d' now <= now /\
      0 + credit d' <= credit d + rate (RL_CONFIG t) * ((since d' now - since d t0) / window_ns (RL_CONFIG t))) as Hother.
    { intros v d'. destruct (insert_other d src v now t0 Hnow Hok E) as (H1 & H2 & H3). fold d' in H2, H3.
      split; [exact H1|]. split; [exact H2|]. specialize (Hrefill (since d' now - since d t0)). lia. }
    destruct (RL_TOKENS d !! ip16 src) as [st|]; [|apply Hother]. destruct (0 <? refill _ st now); [apply Hother|exact Hsame].
Qed.

Lemma limit_run_bound pkts : forall d t0,
  bucket_ok d t0 -> ascending t0 pkts.*1 ->
  passed src_ip pkts (limit_run t d pkts)
  <= credit d + rate (RL_CONFIG t) * ((List.last pkts.*1 t0 - since d t0) / window_ns (RL_CONFIG t)).
Proof.
  induction pkts as [|[now src] pkts IH]; intros d t0 Hok Hasc.
  - cbn. pose proof (allowance_ok d t0 Hok) as [? ?]. unfold credit.
    assert (0 <= (t0 - since d t0) / window_ns (RL_CONFIG t)) by (apply div_nonneg; lia). nia.
  - destruct Hasc as [Hle Hasc]. change (ascending now pkts.*1) in Hasc. rewrite fmap_cons. cbn [fst]. rewrite last_cons_default. cbn [limit_run].
    pose proof (limit_step d now t0 src Hle Hok) as Hstep. destruct (check_rate_limit t now d src) as [d' ok].
    destruct Hstep as (Hok' & Hs & Hc). specialize (IH d' now Hok' Hasc). pose proof (ascending_last _ _ Hasc).
    assert (0 <= since d' now - since d t0) as H1 by lia. assert (0 <= List.last pkts.*1 now - since d' now) as H2 by lia.
    cbn [passed]. pose proof (div_superadditive _ _ _ Hwindow H1 H2) as Hd.
    replace (since d' now - since d t0 + (List.last pkts.*1 now - since d' now)) with (List.last pkts.*1 now - since d t0) in Hd by lia.
    nia.
Qed.

End Limiter.

(** * Service lookup *)


Lemma select_backend_conntrack t d svc h : CONNTRACK (select_backend t d svc h).1 = CONNTRACK d.
Proof. unfold select_backend. repeat case_match; done. Qed.



(** * Theorems *)

(** However packets are spaced, and whatever other sources send, the limiter
    passes of one source at most its tokens (a burst, or one packet, if it has no
    bucket), as much as a new bucket holds for each time the map loses its bucket,
    and [rate] packets for each whole window since its last refill. *)
Theorem rate_limit_bound (t : tables) (d : dynamic) (src_ip t0 : Z) (pkts : list (Z * Z)) :
  0 < rate (RL_CONFIG t) -> 0 <= burst (RL_CONFIG t) -> 0 <= window_ns (RL_CONFIG t) ->
  bucket_ok src_ip d t0 -> ascending t0 pkts.*1 ->
  passed src_ip pkts (limit_run t d pkts)
  <= allowance t src_ip d
     + Z.max 1 (burst (RL_CONFIG t)) * Z.of_nat (losses (ip16 src_ip) (RL_ANSWERS d))
     + rate (RL_CONFIG t) * ((List.last pkts.*1 t0 - since src_ip d t0) / window_ns (RL_CONFIG t)).
Proof. intros Hr Hb Hw Hok Hasc. exact (limit_run_bound t src_ip Hr Hb Hw pkts d t0 Hok Hasc). Qed.

Definition limited (r b w : Z) : tables :=
  mkTables ∅ ∅ ∅ ∅ ∅ ∅ ∅ ∅ (mkRateLimit r b w) ∅ ∅.

(** [d] with given answers of the LRU map of the buckets. *)
Definition with_RL_ANSWERS (l : list (lru_answer (list Z))) : dynamic :=
  mkDynamic ∅ ∅ ∅ ∅ ∅ ∅ ∅ ∅ [] 1024 [] l [].

(** The second packet's insertion evicts the bucket: three packets of a burst of
    two pass at once. *)
Lemma rate_limit_bound_witness :
  let d := with_RL_ANSWERS [Stored (fun _ => false); Stored (fun _ => true)] in
  let pkts := (fun now => (now, 167772161)) <$> [0; 1; 2; 3; 4; 14] in
  passed 167772161 pkts (limit_run (limited 2 2 10) d pkts) <= 2 + 2 * 1 + 2 * ((14 - 0) / 10)
  /\ limit_run (limited 2 2 10) d pkts = [true; true; true; true; false; true].
Proof.
  split; [|reflexivity].
  refine (Z.le_trans _ _ _ (rate_limit_bound (limited 2 2 10) (with_RL_ANSWERS [Stored (fun _ => false); Stored (fun _ => true)])
    167772161 0 ((fun now => (now, 167772161)) <$> [0; 1; 2; 3; 4; 14]) _ _ _ _ _) _); [cbn; lia|cbn; lia|cbn; lia| |cbn; lia|].
  - intros st H. discriminate H.
  - vm_compute. discriminate.
Defined.

(** A flow that asks for a backend, with the tables at that time. *)
Record lookup := mkLookup {
  lk_tables : tables; lk_dst_ip : Z; lk_dst_port : Z; lk_protocol : Z; lk_src_ip : Z; lk_src_port : Z; lk_scope : Z }.

Definition do_lookup (d : dynamic) (l : lookup) : dynamic * option (Z * Z * Z * Z) :=
  service_lookup (lk_tables l) d (lk_dst_ip l) (lk_dst_port l) (lk_protocol l) (lk_src_ip l) (lk_src_port l) (lk_scope l).

Definition lookups (d : dynamic) (ls : list lookup) : dynamic := foldl (fun d l => (do_lookup d l).1) d ls.

Definition flow_key (l : lookup) : CtKey := mkCtKey (lk_src_ip l) (lk_dst_ip l) (lk_src_port l) (lk_dst_port l) (lk_protocol l).

(** No coming answer of the map takes the entry [k] away. *)
Definition keeps (k : CtKey) (d : dynamic) : Prop := Forall (fun a => loses k a = false) (CT_ANSWERS d).

Lemma keeps_next k d : keeps k d -> loses k (next_answer (CT_ANSWERS d)) = false /\ Forall (fun a => loses k a = false) (tail (CT_ANSWERS d)).
Proof. unfold keeps. intros H. destruct (CT_ANSWERS d); [done|]. by apply Forall_cons in H. Qed.

Lemma keeps_insert k d k' v :
  keeps k d -> keeps k (insert_CONNTRACK d k' v) /\ CONNTRACK (insert_CONNTRACK d k' v) !! k = <[k' := v]> (CONNTRACK d) !! k.
Proof. intros [H1 H2]%keeps_next. split; [exact H2|]. cbn. by apply lru_insert_spared. Qed.

Lemma select_backend_answers t d svc h : CT_ANSWERS (select_backend t d svc h).1 = CT_ANSWERS d.
Proof. unfold select_backend. repeat case_match; done. Qed.

(** A lookup of another flow that does not come from the address of the service
    leaves a tracked flow alone. *)
Lemma lookup_keeps k v d l :
  keeps k d -> CONNTRACK d !! k = Some v -> lk_src_ip l <> ct_dst_ip k ->
  keeps k (do_lookup d l).1 /\ CONNTRACK (do_lookup d l).1 !! k = Some v.
Proof.
  intros Hk Hv Hs. unfold do_lookup, service_lookup. destruct (_ =? 0); [done|]. fold (flow_key l).
  destruct (CONNTRACK d !! flow_key l) as [ct|] eqn:Ef; [done|]. destruct (SERVICES _ !! _) as [svc|]; [|done].
  destruct (_ =? 0); [done|].
  pose proof (select_backend_answers (lk_tables l) d svc (hash_5tuple (lk_src_ip l) (lk_dst_ip l) (lk_src_port l) (lk_dst_port l) (lk_protocol l))) as Ha.
  pose proof (select_backend_conntrack (lk_tables l) d svc (hash_5tuple (lk_src_ip l) (lk_dst_ip l) (lk_src_port l) (lk_dst_port l) (lk_protocol l))) as Hc.
  destruct (select_backend _ _ _ _) as [d1 idx]. cbn [fst] in Ha, Hc.
  assert (keeps k d1) as Hk1 by (unfold keeps; by rewrite Ha). rewrite <- Hc in Hv, Ef.
  destruct (array_get _ _ _ _) as [be|]; [|done]. cbn [fst].
  destruct (keeps_insert k d1 (flow_key l) (mkCtValue 0 (be_ip be) (lk_dst_ip l) (be_port be) (lk_dst_port l) 0) Hk1) as [Hk2 E2].
  rewrite lookup_insert_ne, Hv in E2 by congruence.
  edestruct keeps_insert as [Hk3 E3]; [exact Hk2|]. split; [exact Hk3|]. rewrite E3, lookup_insert_ne; [exact E2|]. intros <-. by apply Hs.
Qed.

Lemma lookups_keep k v ls : forall d,
  keeps k d -> CONNTRACK d !! k = Some v -> Forall (fun l => lk_src_ip l <> ct_dst_ip k) ls ->
  keeps k (lookups d ls) /\ CONNTRACK (lookups d ls) !! k = Some v.
Proof.
  induction ls as [|l ls IH]; intros d Hk Hv Hls; [done|]. apply Forall_cons in Hls as [Hl Hls].
  destruct (lookup_keeps k v d l Hk Hv Hl). by apply IH.
Qed.

(** The answer to a flow is its entry, if the map keeps it. *)
Lemma answered_is_tracked d l d' a :
  keeps (flow_key l) d -> lk_src_ip l <> lk_dst_ip l -> do_lookup d l = (d', Some a) ->
  keeps (flow_key l) d' /\ exists ct, CONNTRACK d' !! flow_key l = Some ct
    /\ a = (backend_ip ct, backend_port ct, origin_ip ct, origin_port ct).
Proof.
  intros Hk Hne H. unfold do_lookup, service_lookup in H. destruct (_ =? 0); [done|]. fold (flow_key l) in H.
  destruct (CONNTRACK d !! flow_key l) as [ct|] eqn:Ect; [injection H as <- <-; eauto|].
  destruct (SERVICES _ !! _) as [svc|]; [|done]. destruct (_ =? 0); [done|].
  pose proof (select_backend_answers (lk_tables l) d svc (hash_5tuple (lk_src_ip l) (lk_dst_ip l) (lk_src_port l) (lk_dst_port l) (lk_protocol l))) as Ha.
  destruct (select_backend _ _ _ _) as [d1 idx]. cbn [fst] in Ha.
  assert (keeps (flow_key l) d1) as Hk1 by (unfold keeps; by rewrite Ha).
  destruct (array_get _ _ _ _) as [be|]; [|done]. injection H as <- <-.
  edestruct (keeps_insert (flow_key l) d1 (flow_key l)) as [Hk2 E2]; [exact Hk1|]. rewrite lookup_insert_eq in E2.
  edestruct keeps_insert as [Hk3 E3]; [exact Hk2|]. split; [exact Hk3|].
  exists (mkCtValue 0 (be_ip be) (lk_dst_ip l) (be_port be) (lk_dst_port l) 0). split; [|reflexivity].
  rewrite E3, lookup_insert_ne, E2; [reflexivity|]. unfold flow_key. intros [=]. congruence.
Qed.

(** C10: A connection keeps its backend.  Once a flow has been answered, it gets the
    same answer after any number of lookups of any flows, under whatever tables, so
    also when the service has changed or is gone.  This holds as long as the LRU map
    of the connections loses the entry neither to an eviction nor to a failed
    insertion, no flow comes from the address the flow was sent to, and the load
    balancer stays enabled.  The reply of a newly chosen backend is tracked back to
    the service address and port if the map keeps that entry. *)
Theorem flow_keeps_backend d d' l a ls t' scope' :
  keeps (flow_key l) d -> lk_src_ip l <> lk_dst_ip l -> do_lookup d l = (d', Some a) ->
  Forall (fun l' => lk_src_ip l' <> lk_dst_ip l) ls -> get_config t' CONFIG_KEY_L4LB_ENABLED <> 0 ->
  service_lookup t' (lookups d' ls) (lk_dst_ip l) (lk_dst_port l) (lk_protocol l) (lk_src_ip l) (lk_src_port l) scope'
    = (lookups d' ls, Some a)
  /\ let rev := mkCtKey a.1.1.1 (lk_src_ip l) a.1.1.2 (lk_src_port l) (lk_protocol l) in
     (CONNTRACK d !! flow_key l = None -> keeps rev d ->
      CONNTRACK d' !! rev = Some (mkCtValue 0 0 (lk_dst_ip l) 0 (lk_dst_port l) 0)).
Proof.
  intros Hk Hne H Hls Hen. split.
  - destruct (answered_is_tracked d l d' a Hk Hne H) as (Hk' & ct & Hct & ->).
    destruct (lookups_keep _ ct ls d' Hk' Hct Hls) as [_ E]. unfold service_lookup. rewrite (proj2 (Z.eqb_neq _ 0)) by done.
    fold (flow_key l). by rewrite E.
  - intros rev Hn Hr. unfold do_lookup, service_lookup in H. destruct (_ =? 0); [done|]. fold (flow_key l) in H. rewrite Hn in H.
    destruct (SERVICES _ !! _) as [svc|]; [|done]. destruct (_ =? 0); [done|].
    pose proof (select_backend_answers (lk_tables l) d svc (hash_5tuple (lk_src_ip l) (lk_dst_ip l) (lk_src_port l) (lk_dst_port l) (lk_protocol l))) as Ha.
    destruct (select_backend _ _ _ _) as [d1 idx]. cbn [fst] in Ha. assert (keeps rev d1) as Hk1 by (unfold keeps; by rewrite Ha).
    destruct (array_get _ _ _ _) as [be|]; [|done]. injection H as <- <-.
    edestruct (keeps_insert rev d1 (flow_key l)) as [Hk2 _]; [exact Hk1|].
    edestruct keeps_insert as [_ E3]; [exact Hk2|]. rewrite E3. apply lookup_insert_eq.
Qed.

Definition lb_tables (alg : Z) : tables :=
  mkTables ∅ ∅ ∅ ∅ {[ CONFIG_KEY_L4LB_ENABLED := 1 ]}
    {[ mkServiceKey 167772170 80 6 SVC_SCOPE_EXTERNAL_IP := mkServiceValue 2 4 alg 0 0 0 ]}
    {[ 4 := mkBackendValue 3232235777 8080 0; 5 := mkBackendValue 3232235778 8080 0 ]} ∅ (mkRateLimit 0 0 0) ∅ ∅.

(** Between the packets the service changes its algorithm, and another client comes. *)
Lemma flow_keeps_backend_witness :
  let l := mkLookup (lb_tables LB_ALG_ROUND_ROBIN) 167772170 80 6 134744072 40000 SVC_SCOPE_EXTERNAL_IP in
  let other := mkLookup (lb_tables LB_ALG_ROUND_ROBIN) 167772170 80 6 134744073 40000 SVC_SCOPE_EXTERNAL_IP in
  let d := mkDynamic ∅ ∅ ∅ ∅ ∅ ∅ ∅ ∅ [] 1024 (replicate 3 (Stored (fun k => bool_decide (ct_src_ip k = 134744073)))) [] [] in
  let d' := lookups (do_lookup d l).1 [other; other] in
  (do_lookup (do_lookup d l).1 other).2 = Some (3232235778, 8080, 167772170, 80) /\
  service_lookup (lb_tables LB_ALG_RANDOM) d' 167772170 80 6 134744072 40000 SVC_SCOPE_EXTERNAL_IP
  = (d', Some (3232235777, 8080, 167772170, 80)).
Proof.
  intros l other d d'. split; [vm_compute; reflexivity|].
  refine (proj1 (flow_keeps_backend d _ l (3232235777, 8080, 167772170, 80) [other; other] (lb_tables LB_ALG_RANDOM)
    SVC_SCOPE_EXTERNAL_IP _ _ _ _ _)).
  - repeat (apply Forall_cons; split; [reflexivity|]). apply Forall_nil_2.
  - discriminate.
  - vm_compute. reflexivity.
  - repeat (apply Forall_cons; split; [discriminate|]). apply Forall_nil_2.
  - vm_compute. discriminate.
Defined.



(** An egress policy for a prefix other than /32, /24, /16, /8 and /0 is never
    consulted: with or without it, every destination gets the same answer. *)
Theorem egress_prefix_ignored t src_identity dst_ip k v :
  dst_prefix_len k ∉ [32; 24; 16; 8; 0] ->
  check_egress_policy (set_EGRESS t (<[k := v]> (EGRESS_POLICIES t))) src_identity dst_ip
  = check_egress_policy t src_identity dst_ip.
Proof.
  intros Hk. apply check_prefixes_ext. intros plen ip' Hp. cbn. rewrite lookup_insert_ne; [done|]. by intros ->.
Qed.

Lemma egress_prefix_ignored_witness :
  check_egress_policy (set_EGRESS empty_tables (<[mkEgressKey 7 (172 * 2 ^ 24 + 16 * 2 ^ 16) 12 := mkEgressValue EGRESS_DENY 0]> ∅))
    7 (172 * 2 ^ 24 + 16 * 2 ^ 16 + 1) = (true, 0).
Proof.
  rewrite (egress_prefix_ignored empty_tables 7 _ (mkEgressKey 7 (172 * 2 ^ 24 + 16 * 2 ^ 16) 12) (mkEgressValue EGRESS_DENY 0));
    [reflexivity|]. apply (bool_decide_unpack _). vm_compute. exact I.
Defined.
