(* ===== verification/Dataplane.v ===== *)
(** The dataplane daemon: the handlers of its gRPC service
    (dataplane/novanet-dataplane/src/server.rs) with the operations on the kernel
    maps they call (RealMaps in maps.rs).  The maps for IPv6 are optional in the
    loader and not part of the eBPF object, so the operations on them fail.  The
    calls of the Go service watcher are carried out by these handlers. *)

From Stdlib Require Import ZArith Lia Ascii String.
From stdpp Require Import base tactics list gmap strings.
From S2P Require Import Prelude GoStrings GoNet GoCidr RustNet Constants SlotAllocator Maglev ServiceWatcher PolicyTable EbpfMaps EbpfHelpers.

(** * Kernel maps from user space *)

(** Insertion into a hash map of bounded size, and removal, which fails for an
    absent key. *)
Definition hash_insert {K A} `{Countable K} (cap : Z) (m : gmap K A) (k : K) (v : A) : option (gmap K A) :=
  match m !! k with
  | Some _ => Some (<[k := v]> m)
  | None => if Z.of_nat (size m) <? cap then Some (<[k := v]> m) else None
  end.

Definition hash_remove {K A} `{Countable K} (m : gmap K A) (k : K) : option (gmap K A) :=
  match m !! k with Some _ => Some (delete k m) | None => None end.

(** [Array::set]: the index must be in range. *)
Definition array_set {A} (size : Z) (m : gmap Z A) (i : Z) (v : A) : option (gmap Z A) :=
  if i <? size then Some (<[i := v]> m) else None.

(** * Requests *)

Inductive status := InvalidArgument | Internal.

Abbreviation reply := (tables * result status unit)%type.

(** The answer to an operation on one map. *)
Definition commit {A} (t : tables) (set : tables -> A -> tables) (m : option A) : reply :=
  match m with Some m => (set t m, Ok tt) | None => (t, Err Internal) end.

Record UpsertEndpointRequest := mkEndpointReq {
  er_ip : string; er_ifindex : Z; er_mac : list Z; er_identity_id : Z; er_node_ip : string }.

Definition upsert_endpoint (t : tables) (req : UpsertEndpointRequest) : reply :=
  if negb (length (er_mac req) =? 6)%nat then (t, Err InvalidArgument)
  else
    match parse_ip (er_ip req), parse_ip (er_node_ip req) with
    | Some (V4 ip), Some (V4 node) =>
        commit t set_ENDPOINTS (hash_insert MAX_ENDPOINTS (ENDPOINTS t) ip
          (mkEndpointValue (er_ifindex req) (er_mac req) (er_identity_id req) node))
    | Some (V6 _), Some (V6 _) => (t, Err Internal)
    | _, _ => (t, Err InvalidArgument)
    end.

Definition delete_endpoint (t : tables) (ip : string) : reply :=
  match parse_ip ip with
  | Some (V4 a) => commit t set_ENDPOINTS (hash_remove (ENDPOINTS t) a)
  | Some (V6 _) => (t, Err Internal)
  | None => (t, Err InvalidArgument)
  end.

Definition grpc_upsert_policy (t : tables) (e : PolicyEntry) : reply :=
  let '(k, v) := to_policy e in
  match upsert_policy (POLICIES t) k v with
  | (m, true) => (set_POLICIES t m, Ok tt)
  | (_, false) => (t, Err Internal)
  end.

Definition grpc_delete_policy (t : tables) (e : PolicyEntry) : reply :=
  match delete_policy (POLICIES t) (to_policy e).1 with
  | (m, true) => (set_POLICIES t m, Ok tt)
  | (_, false) => (t, Err Internal)
  end.

(** ** Egress policies *)

Definition cidr_address (dst_cidr : string) : string :=
  match cut "/" dst_cidr with Some (a, _) => a | None => dst_cidr end.

Record UpsertEgressPolicyRequest := mkEgressReq {
  gr_src_identity : Z; gr_dst_cidr : string; gr_prefix_len : Z; gr_action : Z; gr_snat_ip : string }.

Definition egress_action (a : Z) : Z := if a =? 1 then EGRESS_ALLOW else if a =? 2 then EGRESS_SNAT else EGRESS_DENY.

Definition upsert_egress_policy (t : tables) (req : UpsertEgressPolicyRequest) : reply :=
  match parse_ip (cidr_address (gr_dst_cidr req)), parse_ip (gr_snat_ip req) with
  | Some (V4 dst), Some (V4 snat) =>
      commit t set_EGRESS (hash_insert MAX_EGRESS_POLICIES (EGRESS_POLICIES t)
        (mkEgressKey (gr_src_identity req) dst (wrap8 (gr_prefix_len req)))
        (mkEgressValue (egress_action (gr_action req)) snat))
  | Some (V6 _), Some (V6 _) => (t, Err Internal)
  | _, _ => (t, Err InvalidArgument)
  end.

Definition delete_egress_policy (t : tables) (src_identity : Z) (dst_cidr : string) (prefix_len : Z) : reply :=
  match parse_ip (cidr_address dst_cidr) with
  | Some (V4 dst) =>
      commit t set_EGRESS (hash_remove (EGRESS_POLICIES t) (mkEgressKey src_identity dst (wrap8 prefix_len)))
  | Some (V6 _) => (t, Err Internal)
  | None => (t, Err InvalidArgument)
  end.

(** ** Services *)

(** The key and value of a request, truncated to the widths of the map. *)
Definition service_key (a : Z) (k : ServiceWatcher.ServiceKey) : EbpfMaps.ServiceKey :=
  mkServiceKey a (wrap16 (k_Port k)) (wrap8 (k_Protocol k)) (wrap8 (k_Scope k)).

Definition service_value (v : ServiceWatcher.ServiceValue) : EbpfMaps.ServiceValue :=
  mkServiceValue (wrap16 (BackendCount v)) (wrap16 (BackendOffset v)) (wrap8 (Algorithm v)) (wrap8 (Flags v))
    (wrap16 (AffinityTimeout v)) (MaglevOffset v).

Definition upsert_service (t : tables) (k : ServiceWatcher.ServiceKey) (v : ServiceWatcher.ServiceValue) : reply :=
  match parse_ip (k_Ip k) with
  | Some (V4 a) => commit t set_SERVICES (hash_insert MAX_SERVICES (SERVICES t) (service_key a k) (service_value v))
  | Some (V6 _) => (t, Err Internal)
  | None => (t, Err InvalidArgument)
  end.

Definition delete_service (t : tables) (k : ServiceWatcher.ServiceKey) : reply :=
  match parse_ip (k_Ip k) with
  | Some (V4 a) => commit t set_SERVICES (hash_remove (SERVICES t) (service_key a k))
  | Some (V6 _) => (t, Err Internal)
  | None => (t, Err InvalidArgument)
  end.

Definition upsert_backend (t : tables) (e : BackendEntry) : reply :=
  match parse_ip (b_Ip e), parse_ip (b_NodeIp e) with
  | Some (V4 a), Some (V4 node) =>
      commit t set_BACKENDS (array_set MAX_BACKENDS (BACKENDS t) (b_Index e) (mkBackendValue a (wrap16 (b_Port e)) node))
  | Some (V6 _), Some (V6 _) => (t, Err Internal)
  | _, _ => (t, Err InvalidArgument)
  end.

(** A loop over entries that stops at the first error and keeps what was written. *)
Fixpoint for_each {A} (f : tables -> A -> reply) (t : tables) (l : list A) : reply :=
  match l with
  | [] => (t, Ok tt)
  | e :: rest => match f t e with
                 | (t', Ok _) => for_each f t' rest
                 | (t', Err s) => (t', Err s)
                 end
  end.

Definition upsert_backends (t : tables) (l : list BackendEntry) : reply := for_each upsert_backend t l.

(** [sync_services]: the service table is emptied; the backend array is left. *)
Definition sync_services (t : tables) (svcs : list (ServiceWatcher.ServiceKey * ServiceWatcher.ServiceValue))
    (backends : list BackendEntry) : reply :=
  match for_each (fun t '(k, v) => upsert_service t k v) (set_SERVICES t ∅) svcs with
  | (t', Ok _) => for_each upsert_backend t' backends
  | (t', Err s) => (t', Err s)
  end.

Definition upsert_maglev_table (t : tables) (off : Z) (entries : list Z) : reply :=
  for_each (fun t '(i, b) => commit t set_MAGLEV (array_set MAX_MAGLEV (MAGLEV t) (wrap32 (off + Z.of_nat i)) b))
    t (imap pair entries).

(** ** Tunnels, configuration and the other tables *)

Definition upsert_tunnel (t : tables) (node_ip : string) (ifidx vni : Z) : reply :=
  match parse_ip node_ip with
  | Some (V4 a) => commit t set_TUNNELS (hash_insert MAX_TUNNELS (TUNNELS t) a (mkTunnelValue ifidx a vni))
  | Some (V6 _) => (t, Err Internal)
  | None => (t, Err InvalidArgument)
  end.

Definition delete_tunnel (t : tables) (node_ip : string) : reply :=
  match parse_ip node_ip with
  | Some (V4 a) => commit t set_TUNNELS (hash_remove (TUNNELS t) a)
  | Some (V6 _) => (t, Err Internal)
  | None => (t, Err InvalidArgument)
  end.

(** The entries in the order in which the map of the request yields them. *)
Definition update_config (t : tables) (entries : list (Z * Z)) : reply :=
  for_each (fun t '(k, v) => commit t set_CONFIG (hash_insert MAX_CONFIG_ENTRIES (CONFIG t) k v)) t entries.

(** The tables that are keyed by an IPv4 address and a port. *)
Definition at_v4 (t : tables) (ip : string) (f : Z -> reply) : reply :=
  match parse_ip ip with Some (V4 a) => f a | _ => (t, Err InvalidArgument) end.

Definition upsert_sockmap_endpoint (t : tables) (ip : string) (port : Z) : reply :=
  at_v4 t ip (fun a => commit t set_SOCKMAP_ENDPOINTS (hash_insert 4096 (SOCKMAP_ENDPOINTS t) (a, port) 1)).

Definition delete_sockmap_endpoint (t : tables) (ip : string) (port : Z) : reply :=
  at_v4 t ip (fun a => commit t set_SOCKMAP_ENDPOINTS (hash_remove (SOCKMAP_ENDPOINTS t) (a, port))).

Definition upsert_mesh_service (t : tables) (ip : string) (port redirect_port : Z) : reply :=
  at_v4 t ip (fun a => commit t set_MESH_SERVICES (hash_insert 4096 (MESH_SERVICES t) (a, port) redirect_port)).

Definition delete_mesh_service (t : tables) (ip : string) (port : Z) : reply :=
  at_v4 t ip (fun a => commit t set_MESH_SERVICES (hash_remove (MESH_SERVICES t) (a, port))).

Definition update_rate_limit_config (t : tables) (r b w : Z) : reply := (set_RL_CONFIG t (mkRateLimit r b w), Ok tt).

(** * The watcher's calls *)

Definition serve (t : tables) (c : dp_call) : tables :=
  match c with
  | UpsertService k v => (upsert_service t k v).1
  | DeleteService k => (delete_service t k).1
  | UpsertBackends l => (upsert_backends t l).1
  | UpsertMaglevTable off entries => (upsert_maglev_table t off entries).1
  end.

Definition serve_all (t : tables) (l : list dp_call) : tables := foldl serve t l.

(** * Lemmas *)

Lemma upsert_backends_no_node t (l : list BackendEntry) :
  Forall (fun e => b_NodeIp e = "") l -> (upsert_backends t l).1 = t.
Proof.
  unfold upsert_backends. destruct 1 as [|e l He Hl]; [done|]. cbn [for_each]. unfold upsert_backend. rewrite He, parse_ip_empty.
  by destruct (parse_ip (b_Ip e)) as [[]|].
Qed.

Lemma commit_backends {A} t (set : tables -> A -> tables) m :
  (forall t x, BACKENDS (set t x) = BACKENDS t) -> BACKENDS (commit t set m).1 = BACKENDS t.
Proof. intros H. destruct m; [apply H|done]. Qed.

Lemma for_each_preserves {A B} (f : tables -> A -> reply) (proj : tables -> B) (l : list A) : forall t,
  (forall t e, proj (f t e).1 = proj t) -> proj (for_each f t l).1 = proj t.
Proof.
  induction l as [|e l IH]; intros t Hf; [done|]. cbn [for_each]. pose proof (Hf t e) as He.
  destruct (f t e) as [t' [?|?]]; cbn [fst] in *; [|done]. rewrite IH; done.
Qed.

(** What the watcher sends: backends without a node address, and NodePort entries
    without an address. *)
Definition watcher_call (c : dp_call) : Prop :=
  match c with
  | UpsertService k _ => 0 <= k_Scope k < 256 /\ (k_Scope k = SVC_SCOPE_NODE_PORT -> k_Ip k = "")
  | UpsertBackends l => Forall (fun e => b_NodeIp e = "") l
  | _ => True
  end.

Lemma maglev_table_preserves {B} (proj : tables -> B) t off entries :
  (forall t m, proj (set_MAGLEV t m) = proj t) -> proj (upsert_maglev_table t off entries).1 = proj t.
Proof.
  intros H. apply for_each_preserves. intros t' [i b]. by destruct (array_set _ _ _ _); [apply H|].
Qed.

Lemma serve_backends t c : watcher_call c -> BACKENDS (serve t c) = BACKENDS t.
Proof.
  destruct c as [k v|k|l|off entries]; intros Hc; cbn [serve].
  - unfold upsert_service. destruct (parse_ip _) as [[]|]; [by apply commit_backends|done..].
  - unfold delete_service. destruct (parse_ip _) as [[]|]; [by apply commit_backends|done..].
  - by rewrite upsert_backends_no_node.
  - by apply maglev_table_preserves.
Qed.

(** The NodePort entries of the service table. *)
Definition no_node_ports (t : tables) : Prop :=
  forall k, sk_scope k = SVC_SCOPE_NODE_PORT -> SERVICES t !! k = None.

Lemma serve_no_node_ports t c : watcher_call c -> no_node_ports t -> no_node_ports (serve t c).
Proof.
  intros Hc Hn k Hk. destruct c as [k' v|k'|l|off entries]; cbn [serve].
  - destruct Hc as [Hr Hs]. unfold upsert_service. destruct (parse_ip (k_Ip k')) as [[a|]|] eqn:E; [|by apply Hn..].
    assert (k <> service_key a k') as Hne.
    { intros ->. cbn in Hk. unfold wrap8 in Hk. rewrite Z.mod_small in Hk by lia. by rewrite (Hs Hk), parse_ip_empty in E. }
    destruct (hash_insert _ _ _ _) as [m|] eqn:Em; [|by apply Hn]. cbn. unfold hash_insert in Em.
    assert (m = <[service_key a k' := service_value v]> (SERVICES t)) as -> by (repeat case_match; congruence).
    rewrite lookup_insert_ne by done. by apply Hn.
  - unfold delete_service. destruct (parse_ip (k_Ip k')) as [[a|]|]; [|by apply Hn..].
    unfold hash_remove. destruct (SERVICES t !! _); [|by apply Hn]. cbn. apply lookup_delete_None. right. by apply Hn.
  - by rewrite upsert_backends_no_node; [apply Hn|].
  - by rewrite (maglev_table_preserves SERVICES); [apply Hn|].
Qed.

Lemma collectBackends_node store svc : Forall (fun b => nodeIP b = "") (collectBackends store svc).
Proof.
  apply Forall_forall. intros b. destruct store as [l|]; [|intros []%elem_of_nil].
  intros (eps & Hb & _)%list_elem_of_bind. repeat case_match; try by apply elem_of_nil in Hb.
  apply list_elem_of_bind in Hb as (ep & Hb & _). case_match; [by apply elem_of_nil in Hb|].
  apply list_elem_of_bind in Hb as (addr & Hb & _). repeat case_match; try by apply elem_of_nil in Hb.
  all: by apply list_elem_of_singleton in Hb as ->.
Qed.

Lemma pushBackends_calls off backends ports :
  Forall (fun b => nodeIP b = "") backends -> Forall watcher_call (pushBackends off backends ports).
Proof.
  intros Hb. unfold pushBackends. case_match; [|done]. constructor; [|done]. apply Forall_forall.
  intros e ([pi p] & He & _)%list_elem_of_bind. apply list_elem_of_bind in He as ([i b] & He & Hin).
  apply list_elem_of_singleton in He as ->. cbn. rewrite Forall_forall in Hb. apply Hb.
  unfold with_index in Hin. apply elem_of_lookup_imap in Hin as (j & y & [= -> ->] & Hy). by eapply list_elem_of_lookup_2.
Qed.

Lemma upsertServiceEntries_calls w svc ips off backends alg mo :
  Forall watcher_call (upsertServiceEntries w svc ips off backends alg mo (computeScopes svc)).
Proof.
  apply Forall_forall. intros c ([pi p] & Hc & _)%list_elem_of_bind. rewrite !elem_of_app in Hc. destruct Hc as [Hc|[Hc|Hc]].
  - apply list_elem_of_bind in Hc as (sc & Hc & Hsc). apply list_elem_of_bind in Hc as (ci & Hc & _).
    apply list_elem_of_singleton in Hc as ->. cbn. split; [|by intros ->].
    assert (sc ∈ [0; 1; 2; 3]) as Hin.
    { unfold computeScopes, ScopeClusterIP, ScopeNodePort, ScopeExternalIP, ScopeLoadBalancer in Hsc.
      repeat case_match; cbn [app] in Hsc; rewrite ?elem_of_cons, ?elem_of_nil in *; tauto. }
    rewrite !elem_of_cons, elem_of_nil in Hin. lia.
  - apply list_elem_of_bind in Hc as (e & Hc & _). apply list_elem_of_singleton in Hc as ->. split; [vm_compute; split; (discriminate || reflexivity)|done].
  - case_match; [|by apply elem_of_nil in Hc]. apply list_elem_of_bind in Hc as (e & Hc & _). case_match; [by apply elem_of_nil in Hc|].
    apply list_elem_of_singleton in Hc as ->. split; [vm_compute; split; (discriminate || reflexivity)|done].
Qed.

Lemma delete_cluster_calls svc ips sc : Forall watcher_call (delete_cluster svc ips sc).
Proof.
  apply Forall_forall. intros c (p & Hc & _)%list_elem_of_bind. apply list_elem_of_bind in Hc as (i & Hc & _).
  by apply list_elem_of_singleton in Hc as ->.
Qed.

Lemma deleteService_calls w svc : Forall watcher_call (deleteService w svc).2.
Proof.
  unfold deleteService. destruct (services w !! _); [|done]. apply Forall_forall.
  intros c (sc & Hc & _)%list_elem_of_bind. rewrite !elem_of_app in Hc. destruct Hc as [Hc|[Hc|Hc]].
  - eapply Forall_forall; [apply delete_cluster_calls|done].
  - case_match; [|by apply elem_of_nil in Hc]. apply list_elem_of_bind in Hc as (e & Hc & _).
    apply list_elem_of_bind in Hc as (p & Hc & _). by apply list_elem_of_singleton in Hc as ->.
  - case_match; [|by apply elem_of_nil in Hc]. apply list_elem_of_bind in Hc as (e & Hc & _). case_match; [by apply elem_of_nil in Hc|].
    apply list_elem_of_bind in Hc as (p & Hc & _). by apply list_elem_of_singleton in Hc as ->.
Qed.

Lemma setupMaglev_watcher_calls mag svc backends alg r : setupMaglev mag svc backends alg = Val r -> Forall watcher_call r.2.
Proof.
  unfold setupMaglev. case_match; [|by intros [= <-]]. destruct (Alloc _ _) as [mag' [off|e]]; [|by intros [= <-]].
  destruct (Ports svc) as [|p ps]; [done|]. destruct (GenerateMaglevTable _ _ _); [|done..]. cbn. intros [= <-]. by repeat constructor.
Qed.

Lemma reconcile_calls store w svc w' calls :
  reconcileService store w svc = Val (w', calls) -> Forall watcher_call calls.
Proof.
  unfold reconcileService. case_match.
  { case_match; intros [= E1]; [|by subst]. pose proof (deleteService_calls w svc) as Hd. by rewrite E1 in Hd. }
  set (wf := match services w !! svc_key svc with Some _ => _ | None => _ end).
  assert (Forall watcher_call wf.2) as Hf.
  { subst wf. case_match; [|done]. apply Forall_bind. apply Forall_forall. intros. apply delete_cluster_calls. }
  destruct wf as [w1 freed]. cbn [snd] in Hf. case_match; [by intros [= _ <-]|].
  destruct (Alloc _ _) as [alloc' [off|e]]; [|by intros [= _ <-]].
  destruct (setupMaglev _ _ _ _) as [[[[mag' alg'] mo] mc]| |] eqn:Em; [|done..]. cbn. intros [= _ <-].
  apply setupMaglev_watcher_calls in Em. rewrite !Forall_app.
  split_and!; [done|apply pushBackends_calls, collectBackends_node|done|apply upsertServiceEntries_calls].
Qed.

Lemma handle_calls svcs store w e w' calls : handle svcs store w e = Val (w', calls) -> Forall watcher_call calls.
Proof.
  destruct e as [svc|svc|eps]; cbn.
  - apply reconcile_calls.
  - intros [= E]. pose proof (deleteService_calls w svc) as Hd. by rewrite E in Hd.
  - destruct (ServiceLabel eps); [|by intros [= _ <-]]. destruct (svcs !! _); [apply reconcile_calls|by intros [= _ <-]].
Qed.

Lemma handle_all_calls l : forall w w' calls, handle_all w l = Val (w', calls) -> Forall watcher_call calls.
Proof.
  induction l as [|[[svcs store] e] l IH]; intros w w' calls; cbn [handle_all]; [by intros [= _ <-]|].
  destruct (handle svcs store w e) as [[w1 c1]| |] eqn:E1; [|done..]. cbn.
  destruct (handle_all w1 l) as [[w2 c2]| |] eqn:E2; [|done..]. cbn. intros [= _ <-].
  apply Forall_app. split; [by eapply handle_calls|by eapply IH].
Qed.

(** * Theorems *)

(** The daemon refuses every backend the service watcher sends.  The watcher
    leaves the node address of a backend empty and the handler requires it to
    parse, so in no history of events does the backend array change; the NodePort
    entries, whose address is empty, are refused as well. *)
Theorem watcher_backends_refused t w l w' calls :
  handle_all w l = Val (w', calls) ->
  BACKENDS (serve_all t calls) = BACKENDS t /\ (no_node_ports t -> no_node_ports (serve_all t calls)).
Proof.
  intros H%handle_all_calls. unfold serve_all. clear -H. revert t.
  induction H as [|c calls Hc Hcalls IH]; intros t; cbn [foldl]; [done|]. destruct (IH (serve t c)) as [-> Hn].
  split; [by apply serve_backends|]. intros Ht. by apply Hn, serve_no_node_ports.
Qed.

Definition one_service : list (gmap string Service * option (list EndpointSlice) * event) :=
  [(∅, example_slices ["10.1.0.5"; "10.1.0.6"], ServiceChange example_svc)].

Lemma watcher_backends_refused_witness :
  let calls := (after (handle_all (NewWatcher (NewSlotAllocator 64) "random" false) one_service)).2 in
  UpsertBackends [mkBackend 0 "10.1.0.5" 8080 ""; mkBackend 1 "10.1.0.6" 8080 ""] ∈ calls
  /\ BACKENDS (serve_all empty_tables calls) = ∅.
Proof.
  intros calls. split; [apply list_elem_of_In; vm_compute; tauto|].
  apply (watcher_backends_refused empty_tables (NewWatcher (NewSlotAllocator 64) "random" false) one_service
    (after (handle_all (NewWatcher (NewSlotAllocator 64) "random" false) one_service)).1 calls).
  vm_compute. reflexivity.
Defined.

(** An IPv4 service that the agent announces under the printed form of its
    address is stored under the number the kernel reads from packets, with its
    fields as sent, and a deletion under the same key takes it away again and
    leaves the table as it was. *)
Theorem service_upsert_delete t ip p4 port proto scope v :
  wf_ip ip -> To4 ip = Some p4 -> 0 <= port < 65536 -> 0 <= proto < 256 -> 0 <= scope < 256 ->
  SERVICES t !! mkServiceKey (ip_val p4) port proto scope = None -> Z.of_nat (size (SERVICES t)) < MAX_SERVICES ->
  let k := mkKey (ip_string ip) port proto scope in
  exists t', upsert_service t k v = (t', Ok tt)
    /\ SERVICES t' !! mkServiceKey (ip_val p4) port proto scope = Some (service_value v)
    /\ exists t'', delete_service t' k = (t'', Ok tt) /\ SERVICES t'' = SERVICES t.
Proof.
  intros Hw H4 Hp Hpr Hs Hn Hcap k. assert (length p4 = 4%nat /\ Forall is_byte p4) as [Hl Hb].
  { destruct (To4_spec ip p4 Hw H4) as (? & ? & _); done. }
  assert (parse_ip (ip_string ip) = Some (V4 (ip_val p4))) as Hparse.
  { unfold ip_string. rewrite H4. destruct (go_len ip =? 0) eqn:E; [|by apply parse_ip_fmt].
    exfalso. destruct Hw as [[Hlen|Hlen] _]; unfold go_len in E; to_prop; lia. }
  assert (service_key (ip_val p4) k = mkServiceKey (ip_val p4) port proto scope) as Hk.
  { unfold service_key, wrap16, wrap8. cbn. by rewrite !Z.mod_small by lia. }
  unfold upsert_service. cbn [k_Ip k]. rewrite Hparse, Hk. unfold hash_insert. rewrite Hn, (proj2 (Z.ltb_lt _ _)) by done.
  eexists. split; [reflexivity|]. cbn [SERVICES set_SERVICES]. rewrite lookup_insert_eq. split; [done|].
  unfold delete_service. cbn [k_Ip k]. rewrite Hparse, Hk. unfold hash_remove. cbn [SERVICES set_SERVICES]. rewrite lookup_insert_eq.
  eexists. split; [reflexivity|]. cbn. by apply delete_insert_id.
Qed.

Lemma service_upsert_delete_witness :
  exists t', upsert_service empty_tables (mkKey "10.96.0.1" 80 6 0) (mkValue 2 0 0 0 0 0) = (t', Ok tt)
    /\ SERVICES t' !! mkServiceKey 174063617 80 6 0 = Some (mkServiceValue 2 0 0 0 0 0)
    /\ exists t'', delete_service t' (mkKey "10.96.0.1" 80 6 0) = (t'', Ok tt) /\ SERVICES t'' = ∅.
Proof.
  apply (service_upsert_delete empty_tables [10; 96; 0; 1] [10; 96; 0; 1] 80 6 0 (mkValue 2 0 0 0 0 0));
    [|reflexivity|lia|lia|lia|reflexivity|vm_compute; reflexivity].
  split; [by left|]. repeat (constructor; [unfold is_byte; lia|]). constructor.
Defined.
