(* ===== verification/PolicyCompiler.v ===== *)
(** The policy compiler, internal/policy/compiler.go and helpers.go: Kubernetes
    NetworkPolicies become rules on identities.  The label selectors of
    apimachinery, the port resolver and the namespace resolver are parameters.
    The lemmas relate the ingress rules to the selectors and ports of the policy;
    what a policy means to Kubernetes is in PolicySpec.v. *)

From Stdlib Require Import ZArith Lia String.
From stdpp Require Import base tactics list gmap strings fin_maps.
From S2P Require Import Prelude GoStrings GoNet Constants Identity.

(** * Kubernetes objects *)

Record Requirement := mkReq { r_Key : string; r_Operator : string; r_Values : list string }.

Record LabelSelector := mkSelector { MatchLabels : labels; MatchExpressions : list Requirement }.

Inductive IntOrString := IntVal (n : Z) | StrVal (s : string).

(** [EndPort] is part of the object; the compiler does not read it. *)
Record NetworkPolicyPort := mkNPPort {
  np_Protocol : option string; np_Port : option IntOrString; np_EndPort : option Z }.

Record IPBlock := mkIPBlock { CIDR : string; Except : list string }.

Record NetworkPolicyPeer := mkPeer {
  PodSelector : option LabelSelector; NamespaceSelector : option LabelSelector; ipBlock : option IPBlock }.

(** An ingress rule with its [From], or an egress rule with its [To]. *)
Record NetworkPolicyRule := mkRule { r_Peers : list NetworkPolicyPeer; r_Ports : list NetworkPolicyPort }.

Record NetworkPolicy := mkPolicy {
  n_Namespace : string; n_Name : string; n_PodSelector : LabelSelector;
  Ingress : list NetworkPolicyRule; Egress : list NetworkPolicyRule; PolicyTypes : list string }.

(** * Rules *)

Definition WildcardIdentity : Z := 0.

Record CompiledRule := mkCompiled {
  SrcIdentity : Z; DstIdentity : Z; Protocol : Z; DstPort : Z; Action : Z;
  c_CIDR : string; IsEgress : bool; c_Namespace : string }.

Record portProto := mkPP { protocol : Z; pp_port : Z }.

Record cidrEntry := mkCidr { cidr : string; action : Z }.

(** ** helpers.go *)

Definition set_label (sel : LabelSelector) (k v : string) : LabelSelector :=
  mkSelector (<[k := v]> (MatchLabels sel)) (MatchExpressions sel).

Definition empty_selector : LabelSelector := mkSelector ∅ [].

Definition is_empty (sel : LabelSelector) : bool :=
  (size (MatchLabels sel) =? 0)%nat && (length (MatchExpressions sel) =? 0)%nat.

Definition buildIdentityRules (ids : list Z) (fixedID : Z) (ports : list portProto) (isEgress : bool) (ns : string)
    : list CompiledRule :=
  id ← ids;
  pp ← ports;
  [if isEgress then mkCompiled fixedID id (protocol pp) (pp_port pp) ActionAllow "" isEgress ns
   else mkCompiled id fixedID (protocol pp) (pp_port pp) ActionAllow "" isEgress ns].

Definition buildCIDRRules (entries : list cidrEntry) (fixedID : Z) (ports : list portProto) (isEgress : bool) (ns : string)
    : list CompiledRule :=
  entry ← entries;
  pp ← ports;
  [if isEgress then mkCompiled fixedID WildcardIdentity (protocol pp) (pp_port pp) (action entry) (cidr entry) isEgress ns
   else mkCompiled WildcardIdentity fixedID (protocol pp) (pp_port pp) (action entry) (cidr entry) isEgress ns].

Definition buildFQDNCIDRRules (cidrs : list string) (fixedID : Z) (ports : list portProto) (isEgress : bool) (ns : string)
    : list CompiledRule :=
  c ← cidrs;
  pp ← ports;
  [if isEgress then mkCompiled fixedID WildcardIdentity (protocol pp) (pp_port pp) ActionAllow c isEgress ns
   else mkCompiled WildcardIdentity fixedID (protocol pp) (pp_port pp) ActionAllow c isEgress ns].

Definition resolveIPBlockCIDRs (c : string) (except : list string) : list cidrEntry :=
  match ParseCIDR c with
  | None => []
  | Some _ =>
      mkCidr c ActionAllow ::
      (e ← except;
       match ParseCIDR e with
       | None => []
       | Some _ => [mkCidr e ActionDeny]
       end)
  end.

Section Compiler.

(** [LabelSelectorAsSelector] followed by [Matches]; [None] is an error. *)
Context (as_selector : LabelSelector -> option (labels -> bool)).
(** The identities of the allocator, in the order a traversal yields them. *)
Context (allocated : list (Z * labels)).
(** [SetNamespaceResolver] and [SetPortResolver]. *)
Context (namespaceResolver : option (LabelSelector -> list string)).
Context (portResolver : option (string -> string -> string -> LabelSelector -> list Z)).

Definition selectorToIdentities (selector : LabelSelector) (namespace : string) : list Z :=
  let scoped := set_label selector "novanet.io/namespace" namespace in
  match as_selector scoped with
  | None => [WildcardIdentity]
  | Some sel =>
      let matches := FindMatchingIdentities sel allocated in
      if (0 <? length matches)%nat then matches else [HashLabels (MatchLabels scoped)]
  end.

Definition findOrFallback (selector : LabelSelector) : list Z :=
  match as_selector selector with
  | None => []
  | Some sel =>
      let matches := FindMatchingIdentities sel allocated in
      if (0 <? length matches)%nat then matches else [HashLabels (MatchLabels selector)]
  end.

Definition resolveNamespaceNames (nsSel : LabelSelector) : list string :=
  match MatchLabels nsSel !! "kubernetes.io/metadata.name" with
  | Some name => [name]
  | None => match namespaceResolver with Some f => f nsSel | None => [] end
  end.

Definition resolvePodAndNsPeers (podSel nsSel : option LabelSelector) (namespace : string) : list Z :=
  match podSel, nsSel with
  | None, None => [WildcardIdentity]
  | _, _ =>
      let podSelector := default empty_selector podSel in
      match nsSel with
      | Some ns =>
          if is_empty ns then
            if is_empty podSelector then [WildcardIdentity] else findOrFallback podSelector
          else
            let nsNames := resolveNamespaceNames ns in
            if (0 <? length nsNames)%nat then
              nsName ← nsNames; findOrFallback (set_label podSelector "novanet.io/namespace" nsName)
            else
              [HashLabels (kmap (fun k => "ns." +:+ k) (MatchLabels ns) ∪ MatchLabels podSelector)]
      | None => findOrFallback (set_label podSelector "novanet.io/namespace" namespace)
      end
  end.

(** ** compiler.go *)

Definition resolvePeers (peers : list NetworkPolicyPeer) (namespace : string) : list Z :=
  peer ← peers;
  match ipBlock peer with
  | Some _ => []
  | None => resolvePodAndNsPeers (PodSelector peer) (NamespaceSelector peer) namespace
  end.

Definition resolvePeersWithIPBlock (peers : list NetworkPolicyPeer) : list cidrEntry :=
  peer ← peers;
  match ipBlock peer with
  | None => []
  | Some b => resolveIPBlockCIDRs (CIDR b) (Except b)
  end.

Definition port_protocol (p : option string) : Z :=
  match p with
  | Some s => if String.eqb s "TCP" then ProtocolTCP
              else if String.eqb s "UDP" then ProtocolUDP
              else if String.eqb s "SCTP" then ProtocolSCTP
              else ProtocolTCP
  | None => ProtocolTCP
  end.

Definition resolvePorts (npPorts : list NetworkPolicyPort) (namespace : string) (podSelector : LabelSelector)
    : list portProto :=
  p ← npPorts;
  let proto := port_protocol (np_Protocol p) in
  match np_Port p with
  | Some (StrVal portName) =>
      match portResolver with
      | Some resolve => (fun rp => mkPP proto rp) <$> resolve portName (default "TCP" (np_Protocol p)) namespace podSelector
      | None => []
      end
  | Some (IntVal pv) => [mkPP proto (if (0 <? pv) && (pv <=? 65535) then Z.land pv 65535 else 0)]
  | None => [mkPP proto 0]
  end.

Definition any_port : list portProto := [mkPP ProtocolAny 0].

Definition compileIngressRule (rule : NetworkPolicyRule) (dstIdentity : Z) (namespace : string) (podSelector : LabelSelector)
    : list CompiledRule :=
  let srcIdentities := if (length (r_Peers rule) =? 0)%nat then [WildcardIdentity] else resolvePeers (r_Peers rule) namespace in
  let srcCIDRs := resolvePeersWithIPBlock (r_Peers rule) in
  let resolved := resolvePorts (r_Ports rule) namespace podSelector in
  let ports := if (length resolved =? 0)%nat then any_port else resolved in
  buildIdentityRules srcIdentities dstIdentity ports false namespace
  ++ buildCIDRRules srcCIDRs dstIdentity ports false namespace.

Definition compileEgressRule (rule : NetworkPolicyRule) (srcIdentity : Z) (namespace : string) : list CompiledRule :=
  let dstIdentities := if (length (r_Peers rule) =? 0)%nat then [WildcardIdentity] else resolvePeers (r_Peers rule) namespace in
  let dstCIDRs := resolvePeersWithIPBlock (r_Peers rule) in
  let resolved := resolvePorts (r_Ports rule) namespace empty_selector in
  let ports := if (length resolved =? 0)%nat then any_port else resolved in
  buildIdentityRules dstIdentities srcIdentity ports true namespace
  ++ buildCIDRRules dstCIDRs srcIdentity ports true namespace.

Definition hasPolicyType (np : NetworkPolicy) (pt : string) : bool :=
  if (length (PolicyTypes np) =? 0)%nat then String.eqb pt "Ingress"
  else bool_decide (pt ∈ PolicyTypes np).

Definition CompilePolicy (np : option NetworkPolicy) : list CompiledRule :=
  match np with
  | None => []
  | Some np =>
      targetID ← selectorToIdentities (n_PodSelector np) (n_Namespace np);
      (if hasPolicyType np "Ingress" then
         if (length (Ingress np) =? 0)%nat then
           [mkCompiled WildcardIdentity targetID ProtocolAny 0 ActionDeny "" false (n_Namespace np)]
         else
           rule ← Ingress np; compileIngressRule rule targetID (n_Namespace np) (n_PodSelector np)
       else [])
      ++ (if hasPolicyType np "Egress" then
            if (length (Egress np) =? 0)%nat then
              [mkCompiled targetID WildcardIdentity ProtocolAny 0 ActionDeny "" false (n_Namespace np)]
            else
              rule ← Egress np; compileEgressRule rule targetID (n_Namespace np)
          else [])
  end.

Definition CompileAll (policies : list (option NetworkPolicy)) : list CompiledRule :=
  np ← policies; CompilePolicy np.

End Compiler.

(** * Ports *)

(** The protocols of Kubernetes, TCP if none is given, and their IP numbers. *)
Definition protocol_is (p : option string) (proto : Z) : Prop :=
  (default "TCP" p, proto) ∈ [("TCP", 6); ("UDP", 17); ("SCTP", 132)].

(** The port entry of a policy admits a port, [EndPort] included: a named port is
    one of the destination's, and is not described here. *)
Definition port_admits (p : NetworkPolicyPort) (proto port : Z) : Prop :=
  protocol_is (np_Protocol p) proto /\
  match np_Port p, np_EndPort p with
  | None, _ => True
  | Some (IntVal n), None => port = n
  | Some (IntVal n), Some e => n <= port <= e
  | Some (StrVal _), _ => False
  end.

(** A port of a known protocol that is a number, or a range of numbers. *)
Definition port_ok (p : NetworkPolicyPort) : Prop :=
  default "TCP" (np_Protocol p) ∈ ["TCP"; "UDP"; "SCTP"] /\
  match np_Port p, np_EndPort p with
  | None, _ => True
  | Some (IntVal n), None => 1 <= n <= 65535
  | Some (IntVal n), Some e => 1 <= n <= e /\ e <= 65535
  | Some (StrVal _), _ => False
  end.

(** The entry without its end. *)
Definition first_port (p : NetworkPolicyPort) : NetworkPolicyPort := mkNPPort (np_Protocol p) (np_Port p) None.

Lemma first_port_admits p proto port : port_ok p -> port_admits (first_port p) proto port -> port_admits p proto port.
Proof.
  intros [_ Hok] [Hp H]. split; [done|]. cbn in H. destruct (np_Port p) as [[n|]|], (np_EndPort p); try done. subst. lia.
Qed.

Lemma first_port_same p : np_EndPort p = None -> first_port p = p.
Proof. destruct p. cbn. by intros ->. Qed.

Lemma port_protocol_is p proto : default "TCP" p ∈ ["TCP"; "UDP"; "SCTP"] -> port_protocol p = proto <-> protocol_is p proto.
Proof.
  unfold protocol_is, port_protocol, ProtocolTCP, ProtocolUDP, ProtocolSCTP. rewrite !elem_of_cons, !elem_of_nil.
  destruct p as [s|]; cbn [default from_option id].
  - intros [->|[->|[->|[]]]]; cbn; naive_solver.
  - intros _. naive_solver.
Qed.

Lemma port_protocol_nonzero p : port_protocol p <> 0.
Proof. unfold port_protocol. repeat case_match; done. Qed.

(** * What the selectors of a policy select *)

Section Meaning.
Context (as_selector : LabelSelector -> option (labels -> bool)) (allocated : list (Z * labels)).
Context (namespaceResolver : option (LabelSelector -> list string)).
Context (portResolver : option (string -> string -> string -> LabelSelector -> list Z)).

Definition selects (sel : LabelSelector) (l : labels) : Prop :=
  exists f, as_selector sel = Some f /\ f l = true.

(** The selector has a pod to select. *)
Definition live (sel : LabelSelector) : Prop := exists e, e ∈ allocated /\ selects sel e.2.

(** No pod has the identity that is used for a selector that selects nothing. *)
Definition harmless (m : labels) : Prop := HashLabels m ∉ WildcardIdentity :: allocated.*1.

Definition sel_ok (sel : LabelSelector) : Prop := live sel \/ is_Some (as_selector sel) /\ harmless (MatchLabels sel).

Definition in_namespace (sel : LabelSelector) (ns : string) : LabelSelector := set_label sel "novanet.io/namespace" ns.

(** The selectors on pods that a peer stands for; [None] is any pod. *)
Definition peer_selectors (ns : string) (peer : NetworkPolicyPeer) : option (list LabelSelector) :=
  let pod := default empty_selector (PodSelector peer) in
  match PodSelector peer, NamespaceSelector peer with
  | None, None => None
  | _, None => Some [in_namespace pod ns]
  | _, Some nsel =>
      if is_empty nsel then if is_empty pod then None else Some [pod]
      else Some (in_namespace pod <$> resolveNamespaceNames namespaceResolver nsel)
  end.

Definition peer_selected (ns : string) (peer : NetworkPolicyPeer) (l : labels) : Prop :=
  ipBlock peer = None /\
  match peer_selectors ns peer with
  | None => True
  | Some sels => exists sel, sel ∈ sels /\ selects sel l
  end.

(** The labels that are hashed for a peer whose namespaces cannot be named. *)
Definition nameless (peer : NetworkPolicyPeer) : labels :=
  kmap (fun k => "ns." +:+ k) (from_option MatchLabels ∅ (NamespaceSelector peer)) ∪ MatchLabels (default empty_selector (PodSelector peer)).

(** Every selector of the peer selects something, or stands for no pod. *)
Definition peer_sel_ok (ns : string) (peer : NetworkPolicyPeer) : Prop :=
  match ipBlock peer, peer_selectors ns peer with
  | None, Some sels => Forall sel_ok sels /\ (sels = [] -> harmless (nameless peer))
  | _, _ => True
  end.

(** What the selectors of a policy and the first ports of its ranges say. *)
Definition rule_selected (ns : string) (r : NetworkPolicyRule) (l : labels) (proto port : Z) : Prop :=
  (r_Peers r = [] \/ exists peer, peer ∈ r_Peers r /\ peer_selected ns peer l)
  /\ (r_Ports r = [] \/ exists p, p ∈ r_Ports r /\ port_admits (first_port p) proto port).

Definition rule_sel_ok (ns : string) (r : NetworkPolicyRule) : Prop :=
  Forall (peer_sel_ok ns) (r_Peers r) /\ Forall port_ok (r_Ports r).

Definition ingress_selected (np : NetworkPolicy) (lsrc ldst : labels) (proto port : Z) : Prop :=
  hasPolicyType np "Ingress" = true
  /\ selects (in_namespace (n_PodSelector np) (n_Namespace np)) ldst
  /\ exists r, r ∈ Ingress np /\ rule_selected (n_Namespace np) r lsrc proto port.

Definition policy_sel_ok (np : NetworkPolicy) : Prop :=
  sel_ok (in_namespace (n_PodSelector np) (n_Namespace np)) /\ Forall (rule_sel_ok (n_Namespace np)) (Ingress np).

(** The compiled rule admits traffic from [src] to [dst]. *)
Definition port_covers (rproto rport proto port : Z) : Prop :=
  (rproto = 0 /\ rport = 0) \/ (rproto = proto /\ (rport = 0 \/ rport = port)).

Definition allows_ingress (r : CompiledRule) (src dst proto port : Z) : Prop :=
  Action r = ActionAllow /\ IsEgress r = false /\ c_CIDR r = "" /\ DstIdentity r = dst
  /\ (SrcIdentity r = src \/ SrcIdentity r = WildcardIdentity)
  /\ port_covers (Protocol r) (DstPort r) proto port.

(** * Identities of selectors *)

Lemma matches_elem sel f i :
  as_selector sel = Some f ->
  i ∈ FindMatchingIdentities f allocated <-> exists l, (i, l) ∈ allocated /\ selects sel l.
Proof.
  intros Ef. unfold FindMatchingIdentities. rewrite list_elem_of_fmap. split.
  - intros ([i' l] & -> & [Hf Hin]%list_elem_of_filter). exists l. split; [done|]. exists f. split; [done|].
    by apply Is_true_eq_true.
  - intros (l & Hin & f' & Ef' & Hf). exists (i, l). split; [done|]. rewrite list_elem_of_filter.
    split; [|done]. rewrite Ef in Ef'. injection Ef' as <-. cbn [snd]. by rewrite Hf.
Qed.

Lemma live_matches sel f : live sel -> as_selector sel = Some f -> (0 <? length (FindMatchingIdentities f allocated))%nat = true.
Proof.
  intros ([i l] & Hin & Hs) Ef. apply Nat.ltb_lt.
  assert (i ∈ FindMatchingIdentities f allocated) as Hi by (apply (matches_elem sel); eauto).
  destruct (FindMatchingIdentities f allocated); [by apply elem_of_nil in Hi|cbn; lia].
Qed.

(** The identities of an arbitrary pod, and the wildcard. *)
Definition known (i : Z) : Prop := i ∈ WildcardIdentity :: allocated.*1.

Lemma known_alloc i l : (i, l) ∈ allocated -> known i.
Proof. intros H. right. apply list_elem_of_fmap. by exists (i, l). Qed.

Lemma fallback_elem m i : harmless m -> known i -> i ∉ [HashLabels m].
Proof. intros Hm Hi ->%list_elem_of_singleton. by apply Hm. Qed.

(** The identities of a selector, or the one of its labels if it has none. *)
Lemma or_fallback_elem sel f i :
  as_selector sel = Some f -> sel_ok sel -> known i ->
  i ∈ (if (0 <? length (FindMatchingIdentities f allocated))%nat then FindMatchingIdentities f allocated else [HashLabels (MatchLabels sel)])
  <-> exists l, (i, l) ∈ allocated /\ selects sel l.
Proof.
  intros Ef Hok Hi. rewrite <- (matches_elem sel f i Ef). destruct Hok as [Hl|[_ Hh]]; [by rewrite (live_matches sel f Hl Ef)|].
  destruct (FindMatchingIdentities f allocated); [|done]. cbn. split; [|by intros ?%elem_of_nil]. intros H. by apply fallback_elem in H.
Qed.

Lemma sel_ok_selector sel : sel_ok sel -> exists f, as_selector sel = Some f.
Proof. intros [(e & _ & f & Ef & _)|[[f Ef] _]]; eauto. Qed.

Lemma findOrFallback_ok sel i :
  sel_ok sel -> known i -> i ∈ findOrFallback as_selector allocated sel <-> exists l, (i, l) ∈ allocated /\ selects sel l.
Proof. intros Hok Hi. destruct (sel_ok_selector sel Hok) as [f Ef]. unfold findOrFallback. rewrite Ef. by apply or_fallback_elem. Qed.

Lemma selectorToIdentities_ok sel ns i :
  sel_ok (in_namespace sel ns) -> known i ->
  i ∈ selectorToIdentities as_selector allocated sel ns <-> exists l, (i, l) ∈ allocated /\ selects (in_namespace sel ns) l.
Proof.
  intros Hok Hi. destruct (sel_ok_selector _ Hok) as [f Ef]. unfold selectorToIdentities. fold (in_namespace sel ns). rewrite Ef.
  by apply or_fallback_elem.
Qed.

Context (Hids : NoDup allocated.*1) (Hzero : WildcardIdentity ∉ allocated.*1).

Lemma allocated_unique i l l' : (i, l) ∈ allocated -> (i, l') ∈ allocated -> l = l'.
Proof.
  clear Hzero. revert Hids. induction allocated as [|[j m] a IH]; [by intros _ ?%elem_of_nil|].
  cbn. intros [Hn Hd]%NoDup_cons. rewrite !elem_of_cons.
  assert (forall m', (j, m') ∉ a) as Hj by (intros m' H; apply Hn, list_elem_of_fmap; by exists (j, m')).
  intros [E1|H1] [E2|H2]; simplify_eq; [done|by apply Hj in H2|by apply Hj in H1|by apply IH].
Qed.

Lemma selected_iff sel i l :
  (i, l) ∈ allocated -> (exists l', (i, l') ∈ allocated /\ selects sel l') <-> selects sel l.
Proof.
  intros Hi. split; [|eauto]. intros (l' & Hi' & Hs). by rewrite (allocated_unique i l l').
Qed.

Lemma allocated_nonzero i l : (i, l) ∈ allocated -> i <> WildcardIdentity.
Proof. intros Hi ->. apply Hzero, list_elem_of_fmap. by exists (WildcardIdentity, l). Qed.

Definition peer_ids (ns : string) (peer : NetworkPolicyPeer) : list Z :=
  resolvePodAndNsPeers as_selector allocated namespaceResolver (PodSelector peer) (NamespaceSelector peer) ns.

(** The identities of a peer, by its selectors. *)
Lemma peer_ids_selectors ns peer i :
  ipBlock peer = None -> peer_sel_ok ns peer -> known i ->
  i ∈ peer_ids ns peer <-> match peer_selectors ns peer with
                           | None => i = WildcardIdentity
                           | Some sels => exists sel, sel ∈ sels /\ i ∈ findOrFallback as_selector allocated sel
                           end.
Proof.
  intros Hb Hl Hi. unfold peer_sel_ok in Hl. rewrite Hb in Hl. revert Hl.
  unfold peer_ids, resolvePodAndNsPeers, peer_selectors, nameless, in_namespace.
  assert (forall sel, i ∈ findOrFallback as_selector allocated sel <->
    exists sel', sel' ∈ [sel] /\ i ∈ findOrFallback as_selector allocated sel') as Hone.
  { intros sel. split; [exists sel; by rewrite list_elem_of_singleton|]. by intros (? & ->%list_elem_of_singleton & ?). }
  assert (forall pod nsel, (resolveNamespaceNames namespaceResolver nsel = [] ->
      harmless (kmap (fun k => "ns." +:+ k) (MatchLabels nsel) ∪ MatchLabels pod)) ->
    i ∈ (if (0 <? length (resolveNamespaceNames namespaceResolver nsel))%nat then
           nsName ← resolveNamespaceNames namespaceResolver nsel; findOrFallback as_selector allocated (set_label pod "novanet.io/namespace" nsName)
         else [HashLabels (kmap (fun k => "ns." +:+ k) (MatchLabels nsel) ∪ MatchLabels pod)])
    <-> exists sel, sel ∈ (fun n => set_label pod "novanet.io/namespace" n) <$> resolveNamespaceNames namespaceResolver nsel /\
          i ∈ findOrFallback as_selector allocated sel) as Hnames.
  { intros pod nsel. destruct (resolveNamespaceNames namespaceResolver nsel) as [|n ns'].
    - intros Hh. cbn [length Nat.ltb Nat.leb]. split; [intros H; by apply fallback_elem in H; [|apply Hh|]|]. by intros (? & ?%elem_of_nil & _).
    - intros _. cbn [length Nat.ltb Nat.leb]. rewrite list_elem_of_bind. setoid_rewrite list_elem_of_fmap. naive_solver. }
  destruct (PodSelector peer) as [pod|], (NamespaceSelector peer) as [nsel|]; cbv [from_option id];
    try (intros _; by apply Hone); try (intros _; by rewrite list_elem_of_singleton).
  - destruct (is_empty nsel); [destruct (is_empty pod); intros _; [by rewrite list_elem_of_singleton|by apply Hone]|].
    intros [_ Hh]. apply Hnames. intros E. apply Hh. by rewrite E.
  - change (is_empty empty_selector) with true. destruct (is_empty nsel); [intros _; by rewrite list_elem_of_singleton|].
    intros [_ Hh]. apply Hnames. intros E. apply Hh. by rewrite E.
Qed.

Lemma peer_ids_permits ns peer i l :
  ipBlock peer = None -> peer_sel_ok ns peer -> (i, l) ∈ allocated ->
  (i ∈ peer_ids ns peer \/ WildcardIdentity ∈ peer_ids ns peer) <-> peer_selected ns peer l.
Proof.
  intros Hb Hl Hi. pose proof (known_alloc i l Hi) as Hk. assert (known WildcardIdentity) as Hk0 by left.
  rewrite !peer_ids_selectors by done. unfold peer_sel_ok in Hl. rewrite Hb in Hl.
  unfold peer_selected. destruct (peer_selectors ns peer) as [sels|]; [|naive_solver].
  destruct Hl as [Hl _]. rewrite Forall_forall in Hl. split.
  - intros [(sel & Hin & Hs)|(sel & Hin & Hs)]; apply findOrFallback_ok in Hs; [|by apply Hl|done| |by apply Hl|done].
    + split; [done|]. exists sel. split; [done|]. by apply (selected_iff sel i l).
    + destruct Hs as (l' & Hs & _). by apply allocated_nonzero in Hs.
  - intros (_ & sel & Hs & Hsel). left. exists sel. split; [done|]. apply findOrFallback_ok; [by apply Hl|done|]. eauto.
Qed.

(** * Rules of a policy *)

Lemma buildIdentityRules_elem ids fixed ports ns r :
  r ∈ buildIdentityRules ids fixed ports false ns <->
  exists id pp, id ∈ ids /\ pp ∈ ports /\ r = mkCompiled id fixed (protocol pp) (pp_port pp) ActionAllow "" false ns.
Proof.
  unfold buildIdentityRules. rewrite list_elem_of_bind. split.
  - intros (id & (pp & ->%list_elem_of_singleton & Hp)%list_elem_of_bind & Hid). by exists id, pp.
  - intros (id & pp & Hid & Hp & ->). exists id. split; [|done]. apply list_elem_of_bind. exists pp.
    by rewrite list_elem_of_singleton.
Qed.

Lemma resolveIPBlockCIDRs_nonempty c except e : e ∈ resolveIPBlockCIDRs c except -> cidr e <> "".
Proof.
  unfold resolveIPBlockCIDRs. destruct (ParseCIDR c) eqn:E; [|by intros ?%elem_of_nil].
  intros [->|H]%elem_of_cons; [cbn; intros ->; by vm_compute in E|].
  apply list_elem_of_bind in H as (x & H & _). destruct (ParseCIDR x) eqn:Ex; [|by apply elem_of_nil in H].
  apply list_elem_of_singleton in H as ->. cbn. intros ->. by vm_compute in Ex.
Qed.

(** Rules for address blocks are marked as such. *)
Lemma buildCIDRRules_cidr peers fixed ports eg ns r :
  r ∈ buildCIDRRules (resolvePeersWithIPBlock peers) fixed ports eg ns -> c_CIDR r <> "".
Proof.
  intros (e & (pp & ->%list_elem_of_singleton & _)%list_elem_of_bind & He)%list_elem_of_bind.
  apply list_elem_of_bind in He as (peer & He & _). destruct (ipBlock peer); [|by apply elem_of_nil in He].
  apply resolveIPBlockCIDRs_nonempty in He. by destruct eg.
Qed.

Lemma resolvePeers_permits ns peers i l :
  Forall (peer_sel_ok ns) peers -> (i, l) ∈ allocated ->
  (exists id, id ∈ resolvePeers as_selector allocated namespaceResolver peers ns /\ (id = i \/ id = WildcardIdentity))
  <-> exists peer, peer ∈ peers /\ peer_selected ns peer l.
Proof.
  intros Hl Hi. rewrite Forall_forall in Hl. unfold resolvePeers. setoid_rewrite list_elem_of_bind. split.
  - intros (id & (peer & Hid & Hp) & Heq). destruct (ipBlock peer) eqn:Eb; [by apply elem_of_nil in Hid|].
    exists peer. split; [done|]. apply (peer_ids_permits ns peer i l Eb (Hl _ Hp) Hi).
    destruct Heq as [->| ->]; [by left|by right].
  - intros (peer & Hp & Hper). pose proof Hper as [Eb _].
    apply (peer_ids_permits ns peer i l Eb (Hl _ Hp) Hi) in Hper as [H|H];
      eexists; (split; [exists peer; rewrite Eb; by split|tauto]).
Qed.

Lemma resolvePorts_covers ports ns sel proto port :
  Forall port_ok ports ->
  (exists pp, pp ∈ resolvePorts portResolver ports ns sel /\ port_covers (protocol pp) (pp_port pp) proto port)
  <-> exists p, p ∈ ports /\ port_admits (first_port p) proto port.
Proof.
  intros Hok. rewrite Forall_forall in Hok. unfold resolvePorts. setoid_rewrite list_elem_of_bind.
  assert (forall p, p ∈ ports -> forall pp,
    pp ∈ (match np_Port p with
          | Some (StrVal portName) => match portResolver with
              | Some resolve => (fun rp => mkPP (port_protocol (np_Protocol p)) rp) <$> resolve portName (default "TCP" (np_Protocol p)) ns sel
              | None => [] end
          | Some (IntVal pv) => [mkPP (port_protocol (np_Protocol p)) (if (0 <? pv) && (pv <=? 65535) then Z.land pv 65535 else 0)]
          | None => [mkPP (port_protocol (np_Protocol p)) 0] end)
    <-> pp = mkPP (port_protocol (np_Protocol p)) (match np_Port p with Some (IntVal n) => n | _ => 0 end)) as Hpp.
  { intros p Hp pp. destruct (Hok p Hp) as [_ Hn]. destruct (np_Port p) as [[n|s]|]; [|by destruct (np_EndPort p)|by rewrite list_elem_of_singleton].
    assert (1 <= n <= 65535) by (destruct (np_EndPort p); lia).
    rewrite list_elem_of_singleton. destruct ((0 <? n) && (n <=? 65535)) eqn:E; [|to_prop; lia].
    change 65535 with (Z.ones 16). rewrite Z.land_ones by lia. rewrite Z.mod_small by lia. done. }
  split.
  - intros (pp & (p & Hin & Hp) & Hc). exists p. split; [done|]. apply Hpp in Hin as ->; [|done].
    unfold port_covers, port_admits in *. cbn in Hc |- *. destruct (Hok p Hp) as [Hpr Hn].
    destruct Hc as [[E _]|[E Hc]]; [by apply port_protocol_nonzero in E|]. split; [by apply port_protocol_is|].
    destruct (np_Port p) as [[n|s]|]; [destruct (np_EndPort p); lia|by destruct (np_EndPort p)|done].
  - intros (p & Hp & Hc). eexists. split; [exists p; split; [by apply Hpp|done]|]. unfold port_covers, port_admits in *. cbn in *.
    destruct Hc as [Hpr Hc]. right. split; [apply port_protocol_is; [by apply Hok|done]|].
    destruct (np_Port p) as [[n|s]|]; [by right|done|by left].
Qed.

Lemma resolvePorts_nil ports ns sel :
  Forall port_ok ports -> (length (resolvePorts portResolver ports ns sel) =? 0)%nat = true <-> ports = [].
Proof.
  intros Hok. destruct ports as [|p ports]; [done|]. apply Forall_cons in Hok as [Hok _]. split; [|done].
  unfold resolvePorts. rewrite bind_cons, length_app. destruct Hok as [_ Hok].
  destruct (np_Port p) as [[n|s]|]; [done|by destruct (np_EndPort p)|done].
Qed.

(** What the rules of one ingress rule admit, by its identities and ports; the
    rules for address blocks do not count. *)
Lemma identity_rules_exact ids pps rest fixed ns src dst proto port :
  (forall r, r ∈ rest -> c_CIDR r <> "") ->
  (exists r, r ∈ buildIdentityRules ids fixed pps false ns ++ rest /\ allows_ingress r src dst proto port)
  <-> fixed = dst /\ (exists id, id ∈ ids /\ (id = src \/ id = WildcardIdentity))
      /\ exists pp, pp ∈ pps /\ port_covers (protocol pp) (pp_port pp) proto port.
Proof.
  intros Hrest. split.
  - intros (r & [H|H]%elem_of_app & Ha).
    + apply buildIdentityRules_elem in H as (id & pp & Hid & Hpp & ->).
      destruct Ha as (_ & _ & _ & <- & Hs & Hc). cbn in *. eauto 10.
    + apply Hrest in H. by destruct Ha as (_ & _ & ? & _).
  - intros (-> & (id & Hid & Hs) & pp & Hpp & Hc). eexists. split.
    + apply elem_of_app. left. apply buildIdentityRules_elem. by exists id, pp.
    + by split_and!.
Qed.

(** The identity rules of one ingress rule admit what the rule says. *)
Lemma compileIngressRule_exact ns sel rule src lsrc dst dst' proto port :
  rule_sel_ok ns rule -> (src, lsrc) ∈ allocated ->
  (exists r, r ∈ compileIngressRule as_selector allocated namespaceResolver portResolver rule dst' ns sel
             /\ allows_ingress r src dst proto port)
  <-> dst' = dst /\ rule_selected ns rule lsrc proto port.
Proof.
  intros [Hpeers Hports] Hsrc. unfold compileIngressRule, rule_selected.
  set (ids := if (length (r_Peers rule) =? 0)%nat then _ else _).
  set (pps := if (length (resolvePorts _ _ _ _) =? 0)%nat then _ else _).
  assert ((exists id, id ∈ ids /\ (id = src \/ id = WildcardIdentity))
          <-> r_Peers rule = [] \/ exists peer, peer ∈ r_Peers rule /\ peer_selected ns peer lsrc) as Hids'.
  { unfold ids. destruct (r_Peers rule) as [|p ps] eqn:Ep; cbn [length Nat.eqb].
    - split; [by left|]. intros _. exists WildcardIdentity. rewrite list_elem_of_singleton. by split; [|right].
    - rewrite (resolvePeers_permits ns _ _ lsrc Hpeers Hsrc). split; [by right|by intros [|]]. }
  assert ((exists pp, pp ∈ pps /\ port_covers (protocol pp) (pp_port pp) proto port)
          <-> r_Ports rule = [] \/ exists p, p ∈ r_Ports rule /\ port_admits (first_port p) proto port) as Hpps.
  { unfold pps. pose proof (resolvePorts_nil (r_Ports rule) ns sel Hports) as Hnil.
    destruct (length (resolvePorts portResolver (r_Ports rule) ns sel) =? 0)%nat.
    - destruct Hnil as [Hn _]. specialize (Hn eq_refl). split; [by left|]. intros _. exists (mkPP ProtocolAny 0).
      split; [by apply list_elem_of_singleton|by left].
    - rewrite (resolvePorts_covers _ ns sel proto port Hports). split; [by right|]. intros [H|H]; [|done].
      apply Hnil in H. done. }
  rewrite <- Hids', <- Hpps. apply identity_rules_exact. intros r. apply buildCIDRRules_cidr.
Qed.

Lemma compileEgressRule_egress rule src ns r :
  r ∈ compileEgressRule as_selector allocated namespaceResolver portResolver rule src ns -> IsEgress r = true.
Proof.
  unfold compileEgressRule. intros [H|H]%elem_of_app.
  - apply list_elem_of_bind in H as (id & (pp & ->%list_elem_of_singleton & _)%list_elem_of_bind & _). done.
  - apply list_elem_of_bind in H as (e & (pp & ->%list_elem_of_singleton & _)%list_elem_of_bind & _). done.
Qed.

Lemma CompilePolicy_ingress_exact np src lsrc dst ldst proto port :
  policy_sel_ok np -> (src, lsrc) ∈ allocated -> (dst, ldst) ∈ allocated ->
  (exists r, r ∈ CompilePolicy as_selector allocated namespaceResolver portResolver (Some np)
             /\ allows_ingress r src dst proto port)
  <-> ingress_selected np lsrc ldst proto port.
Proof.
  intros [Hlive Hrules] Hsrc Hdst. rewrite Forall_forall in Hrules.
  assert (forall t, known t -> t ∈ selectorToIdentities as_selector allocated (n_PodSelector np) (n_Namespace np)
                    <-> exists l, (t, l) ∈ allocated /\ selects (in_namespace (n_PodSelector np) (n_Namespace np)) l) as Ht.
  { intros t. by apply selectorToIdentities_ok. }
  pose proof (known_alloc dst ldst Hdst) as Hk.
  cbn [CompilePolicy]. unfold ingress_selected. split.
  - intros (r & (t & Hr & Hin)%list_elem_of_bind & Ha). apply elem_of_app in Hr as [Hr|Hr].
    + destruct (hasPolicyType np "Ingress"); [|by apply elem_of_nil in Hr]. destruct (_ =? 0)%nat.
      { apply list_elem_of_singleton in Hr as ->. by destruct Ha as [? _]. }
      apply list_elem_of_bind in Hr as (rule & Hr & Hrule).
      destruct (proj1 (compileIngressRule_exact _ (n_PodSelector np) rule src lsrc dst t proto port (Hrules _ Hrule) Hsrc))
        as [-> Hper]; [by exists r|].
      split_and!; [done| |by exists rule]. apply (selected_iff _ dst ldst Hdst). by apply Ht.
    + exfalso. destruct (hasPolicyType np "Egress"); [|by apply elem_of_nil in Hr]. destruct (_ =? 0)%nat.
      { apply list_elem_of_singleton in Hr as ->. by destruct Ha as [? _]. }
      apply list_elem_of_bind in Hr as (rule & Hr & _). apply compileEgressRule_egress in Hr.
      destruct Ha as (_ & ? & _). congruence.
  - intros (Hty & Hsel & rule & Hrule & Hper).
    destruct (proj2 (compileIngressRule_exact (n_Namespace np) (n_PodSelector np) rule src lsrc dst dst proto port (Hrules _ Hrule) Hsrc))
      as (r & Hr & Ha); [done|].
    exists r. split; [|done]. apply list_elem_of_bind. exists dst. split; [|apply Ht; eauto].
    apply elem_of_app. left. rewrite Hty. destruct (Ingress np) as [|r0 rs] eqn:Ei; [by apply elem_of_nil in Hrule|].
    cbn [length Nat.eqb]. apply list_elem_of_bind. by exists rule.
Qed.

End Meaning.
