(* ===== verification/PolicySpec.v ===== *)
(** What a Kubernetes NetworkPolicy says, independently of the compiler: a peer is
    a selector on namespaces and one on pods, a port entry a protocol with a port
    or a range.  The labels of an identity are those of its pods with the
    namespace under the key novanet.io/namespace; the labels of the namespaces and
    the selectors of apimachinery are parameters.  The lemmas connect this with
    the selectors the compiler looks up (PolicyCompiler.v). *)

From Stdlib Require Import ZArith Lia String.
From stdpp Require Import base tactics list gmap strings fin_maps.
From S2P Require Import Prelude GoStrings Constants Identity PolicyCompiler.

Definition namespace_key : string := "novanet.io/namespace".
Definition name_key : string := "kubernetes.io/metadata.name".

Section Spec.
Context (as_selector : LabelSelector -> option (labels -> bool)).
(** The namespaces of the cluster and their labels. *)
Context (namespaces : gmap string labels).

(** * The meaning of a policy *)

Definition pod_namespace (l : labels) : option string := l !! namespace_key.

Definition peer_admits (ns : string) (peer : NetworkPolicyPeer) (l : labels) : Prop :=
  ipBlock peer = None
  /\ match NamespaceSelector peer with
     | None => pod_namespace l = Some ns
     | Some nsel => exists n nl, pod_namespace l = Some n /\ namespaces !! n = Some nl /\ selects as_selector nsel nl
     end
  /\ match PodSelector peer with None => True | Some sel => selects as_selector sel l end.

Definition rule_admits (ns : string) (r : NetworkPolicyRule) (l : labels) (proto port : Z) : Prop :=
  (r_Peers r = [] \/ exists peer, peer ∈ r_Peers r /\ peer_admits ns peer l)
  /\ (r_Ports r = [] \/ exists p, p ∈ r_Ports r /\ port_admits p proto port).

(** The policy is one for ingress, selects the pod with labels [ldst], and a rule
    admits connections of pods with labels [lsrc] to the port. *)
Definition policy_admits (np : NetworkPolicy) (lsrc ldst : labels) (proto port : Z) : Prop :=
  (PolicyTypes np = [] \/ "Ingress" ∈ PolicyTypes np)
  /\ pod_namespace ldst = Some (n_Namespace np) /\ selects as_selector (n_PodSelector np) ldst
  /\ exists r, r ∈ Ingress np /\ rule_admits (n_Namespace np) r lsrc proto port.

(** * What is assumed *)

(** A pod is in a namespace of the cluster. *)
Definition placed (l : labels) : Prop := exists n nl, pod_namespace l = Some n /\ namespaces !! n = Some nl.

(** What apimachinery documents of selectors: an empty one selects everything, a
    required label is a condition of its own, and Kubernetes labels every
    namespace with its name. *)
Record cluster_laws : Prop := {
  empty_law : forall sel l, is_empty sel = true -> selects as_selector sel l;
  scope_law : forall sel ns l, placed l -> MatchLabels sel !! namespace_key = None ->
    selects as_selector (in_namespace sel ns) l <-> pod_namespace l = Some ns /\ selects as_selector sel l;
  name_law : forall n nl m, namespaces !! n = Some nl -> selects as_selector (mkSelector {[ name_key := m ]} []) nl <-> n = m;
}.

Context (allocated : list (Z * labels)).
Context (namespaceResolver : option (LabelSelector -> list string)).

(** A namespace selector that is empty, asks for a name only, or that the resolver
    answers with the namespaces it selects. *)
Definition ns_sel_ok (nsel : LabelSelector) : Prop :=
  is_empty nsel = true
  \/ (exists m, nsel = mkSelector {[ name_key := m ]} [])
  \/ (MatchLabels nsel !! name_key = None /\ exists f, namespaceResolver = Some f /\
      forall n, n ∈ f nsel <-> exists nl, namespaces !! n = Some nl /\ selects as_selector nsel nl).

(** A pod peer has a selector, does not use the key of the namespaces, and its
    selectors select a pod or stand for none. *)
Definition peer_ok (ns : string) (peer : NetworkPolicyPeer) : Prop :=
  peer_sel_ok as_selector allocated namespaceResolver ns peer /\
  (ipBlock peer = None ->
     ~ (PodSelector peer = None /\ NamespaceSelector peer = None)
     /\ (forall sel, PodSelector peer = Some sel -> MatchLabels sel !! namespace_key = None)
     /\ (forall nsel, NamespaceSelector peer = Some nsel -> ns_sel_ok nsel)).

Definition rule_ok (ns : string) (r : NetworkPolicyRule) : Prop :=
  Forall (peer_ok ns) (r_Peers r) /\ Forall port_ok (r_Ports r).

Definition policy_ok (np : NetworkPolicy) : Prop :=
  sel_ok as_selector allocated (in_namespace (n_PodSelector np) (n_Namespace np))
  /\ MatchLabels (n_PodSelector np) !! namespace_key = None
  /\ Forall (rule_ok (n_Namespace np)) (Ingress np).

(** No port entry is a range. *)
Definition no_ranges (np : NetworkPolicy) : Prop :=
  Forall (fun r => Forall (fun p => np_EndPort p = None) (r_Ports r)) (Ingress np).

(** * Selectors *)

Context (Hlaws : cluster_laws).

Lemma pod_selected_empty l : selects as_selector empty_selector l.
Proof. by apply (empty_law Hlaws). Qed.

(** The namespaces of a selector. *)
Lemma names_selected nsel n nl :
  ns_sel_ok nsel -> is_empty nsel = false -> namespaces !! n = Some nl ->
  n ∈ resolveNamespaceNames namespaceResolver nsel <-> selects as_selector nsel nl.
Proof.
  intros [H|[(m & ->)|(Hk & f & Ef & Hf)]] He Hn; [congruence| |]; unfold resolveNamespaceNames.
  - change (MatchLabels (mkSelector {[name_key := m]} [])) with ({[name_key := m]} : labels).
    rewrite lookup_singleton_eq, list_elem_of_singleton. symmetry. by apply (name_law Hlaws).
  - change "kubernetes.io/metadata.name" with name_key. rewrite Hk, Ef, Hf. split; [|eauto]. intros (nl' & Hn' & Hs). congruence.
Qed.

Lemma peer_selected_admits ns peer l :
  peer_ok ns peer -> placed l -> peer_selected as_selector namespaceResolver ns peer l <-> peer_admits ns peer l.
Proof.
  intros [_ Hok] Hpl. unfold peer_selected, peer_admits. destruct (ipBlock peer) eqn:Eb; [naive_solver|].
  destruct (Hok eq_refl) as (Hne & Hpod & Hns). unfold peer_selectors.
  destruct (NamespaceSelector peer) as [nsel|] eqn:En.
  - specialize (Hns nsel eq_refl). destruct (is_empty nsel) eqn:Ee.
    + assert (exists n nl, pod_namespace l = Some n /\ namespaces !! n = Some nl /\ selects as_selector nsel nl) as Hany.
      { destruct Hpl as (n & nl & Hn & Hnl). exists n, nl. split_and!; [done..|]. by apply (empty_law Hlaws). }
      destruct (PodSelector peer) as [pod|]; cbn [default from_option id]; [|change (is_empty empty_selector) with true; naive_solver].
      destruct (is_empty pod) eqn:Ep; [pose proof (empty_law Hlaws pod l Ep); naive_solver|].
      setoid_rewrite list_elem_of_singleton. naive_solver.
    + assert (forall pod, MatchLabels pod !! namespace_key = None ->
        (exists sel, sel ∈ in_namespace pod <$> resolveNamespaceNames namespaceResolver nsel /\ selects as_selector sel l) <->
        (exists n nl, pod_namespace l = Some n /\ namespaces !! n = Some nl /\ selects as_selector nsel nl) /\ selects as_selector pod l) as H.
      { intros pod Hk. setoid_rewrite list_elem_of_fmap. split.
        - intros (sel & (n & -> & Hin) & Hs). apply (scope_law Hlaws) in Hs as [Hn Hs]; [|done..]. split; [|done].
          destruct Hpl as (n' & nl & Hn' & Hnl). assert (n' = n) as -> by congruence. exists n, nl. split_and!; [done..|].
          by apply (names_selected nsel n nl).
        - intros [(n & nl & Hn & Hnl & Hs) Hp]. exists (in_namespace pod n). split.
          + exists n. split; [done|]. by apply (names_selected nsel n nl).
          + by apply (scope_law Hlaws). }
      destruct (PodSelector peer) as [pod|]; cbn [default from_option id].
      * rewrite (H pod) by by apply Hpod. tauto.
      * rewrite (H empty_selector) by done. pose proof (pod_selected_empty l). tauto.
  - destruct (PodSelector peer) as [pod|]; [|by destruct Hne]. cbn [default from_option id]. setoid_rewrite list_elem_of_singleton.
    rewrite <- (scope_law Hlaws pod ns l Hpl (Hpod pod eq_refl)). naive_solver.
Qed.

(** * Rules and policies *)

Lemma rule_peers_admit ns peers l :
  Forall (peer_ok ns) peers -> placed l ->
  (peers = [] \/ exists peer, peer ∈ peers /\ peer_selected as_selector namespaceResolver ns peer l)
  <-> (peers = [] \/ exists peer, peer ∈ peers /\ peer_admits ns peer l).
Proof.
  intros Hok Hl. rewrite Forall_forall in Hok. split; (intros [->|(p & Hp & H)]; [by left|]); right; exists p;
    (split; [done|]); apply (peer_selected_admits ns p l (Hok p Hp) Hl); done.
Qed.

Lemma target_selected np l :
  policy_ok np -> placed l ->
  selects as_selector (in_namespace (n_PodSelector np) (n_Namespace np)) l
  <-> pod_namespace l = Some (n_Namespace np) /\ selects as_selector (n_PodSelector np) l.
Proof. intros (_ & Hk & _) Hl. by apply (scope_law Hlaws). Qed.

Lemma ingress_type np : hasPolicyType np "Ingress" = true <-> PolicyTypes np = [] \/ "Ingress" ∈ PolicyTypes np.
Proof.
  unfold hasPolicyType. destruct (PolicyTypes np) as [|x l]; [by split; [left|]|]. cbn [length Nat.eqb].
  rewrite bool_decide_eq_true. split; [by right|by intros [|]].
Qed.

Lemma policy_ok_sel np : policy_ok np -> policy_sel_ok as_selector allocated namespaceResolver np.
Proof.
  intros (H1 & _ & H2). split; [done|]. eapply Forall_impl; [exact H2|]. intros r [Hp Hq]. split; [|done].
  eapply Forall_impl; [exact Hp|]. by intros p [? _].
Qed.

Lemma selected_admits np lsrc ldst proto port :
  policy_ok np -> placed lsrc -> placed ldst ->
  ingress_selected as_selector namespaceResolver np lsrc ldst proto port -> policy_admits np lsrc ldst proto port.
Proof.
  intros Hok Hs Hd (Hty & Ht & r & Hr & Hpe & Hpo). split; [by apply ingress_type|].
  apply target_selected in Ht as [Hn Ht]; [|done..]. split; [done|]. split; [done|]. exists r. split; [done|].
  destruct Hok as (_ & _ & Hok). rewrite Forall_forall in Hok. destruct (Hok r Hr) as [Hpok Hqok].
  split; [by apply rule_peers_admit|]. destruct Hpo as [|(p & Hp & H)]; [by left|right]. exists p. split; [done|].
  rewrite Forall_forall in Hqok. apply first_port_admits; [by apply Hqok|done].
Qed.

Lemma admits_selected np lsrc ldst proto port :
  policy_ok np -> no_ranges np -> placed lsrc -> placed ldst ->
  policy_admits np lsrc ldst proto port -> ingress_selected as_selector namespaceResolver np lsrc ldst proto port.
Proof.
  intros Hok Hnr Hs Hd (Hty & Hn & Ht & r & Hr & Hpe & Hpo). split; [by apply ingress_type|].
  split; [by apply target_selected|]. exists r. split; [done|].
  destruct Hok as (_ & _ & Hok). unfold no_ranges in Hnr. rewrite Forall_forall in Hok, Hnr. destruct (Hok r Hr) as [Hpok _].
  split; [by apply rule_peers_admit|]. destruct Hpo as [|(p & Hp & H)]; [by left|right]. exists p. split; [done|].
  specialize (Hnr r Hr). rewrite Forall_forall in Hnr. by rewrite first_port_same by by apply Hnr.
Qed.

End Spec.
