(* ===== verification/PolicyEnforcement.v ===== *)
(** From NetworkPolicies to verdicts: the agent's policy callback
    (OnPolicyChange in internal/agent/server.go) sends the compiled rules to the
    dataplane, which installs them in the table that the kernel programs look up.
    Rules between two identities are enforced as compiled; the theorems at the
    end show where the combination falls short of what the policies say. *)

From Stdlib Require Import ZArith Lia String.
From stdpp Require Import base tactics list gmap strings fin_maps.
From S2P Require Import Prelude GoStrings Constants Identity PolicyTable PolicyCompiler PolicySpec.

(** * The agent *)

(** The entry [OnPolicyChange] sends for a rule; rules with a CIDR are skipped. *)
Definition rule_entry (r : CompiledRule) : PolicyEntry :=
  mkPolicyEntry (wire_identity (SrcIdentity r)) (wire_identity (DstIdentity r)) (Protocol r) (DstPort r)
    (if Action r =? ActionAllow then POLICY_ACTION_ALLOW else POLICY_ACTION_DENY).

Definition policy_entries (rules : list CompiledRule) : list PolicyEntry :=
  r ← rules; if negb (String.eqb (c_CIDR r) "") then [] else [rule_entry r].

(** The synchronisation of [OnPolicyChange] with a connected dataplane whose table
    is [t]: the table after it, and whether it succeeded. *)
Definition sync_rules (t : policies) (rules : list CompiledRule) : policies * bool :=
  match grpc_sync_policies (map_to_list t).*1 t (policy_entries rules) with
  | (t', Some _) => (t', true)
  | (t', None) => (t', false)
  end.

(** The verdict of the programs for a packet between two known identities: a table
    entry decides, and without one the default-deny setting. *)
Definition verdict (t : policies) (default_deny : bool) (src dst proto port : Z) : Z :=
  match check_policy t src dst proto port with
  | Some a => a
  | None => if default_deny then ACTION_DENY else ACTION_ALLOW
  end.

(** * Synchronised tables *)

Lemma sync_rules_spec t rules :
  Z.of_nat (size t) + Z.of_nat (length (policy_entries rules)) <= MAX_POLICIES ->
  exists t', sync_rules t rules = (t', true)
    /\ (forall r, r ∈ rules -> c_CIDR r = "" ->
          exists a r', t' !! (to_policy (rule_entry r)).1 = Some a
            /\ r' ∈ rules /\ c_CIDR r' = "" /\ to_policy (rule_entry r') = ((to_policy (rule_entry r)).1, a))
    /\ (forall k a, t' !! k = Some a -> exists r, r ∈ rules /\ c_CIDR r = "" /\ to_policy (rule_entry r) = (k, a)).
Proof.
  intros Hs. unfold sync_rules, grpc_sync_policies.
  assert (forall k a, (k, a) ∈ to_policy <$> policy_entries rules <->
    exists r, r ∈ rules /\ c_CIDR r = "" /\ to_policy (rule_entry r) = (k, a)) as Hel.
  { intros k a. rewrite list_elem_of_fmap. unfold policy_entries. split.
    - intros (e & Ee & (r & Hr & Hin)%list_elem_of_bind). destruct (String.eqb_spec (c_CIDR r) ""); cbn in Hr.
      + apply list_elem_of_singleton in Hr as ->. by exists r.
      + by apply elem_of_nil in Hr.
    - intros (r & Hin & Hc & E). exists (rule_entry r). split; [done|]. apply list_elem_of_bind. exists r.
      split; [|done]. rewrite Hc. cbn. by apply list_elem_of_singleton. }
  destruct (sync_policies_spec MAX_POLICIES (map_to_list t).*1 t (to_policy <$> policy_entries rules))
    as (t' & cnt & -> & Hin & Hout); [done|by rewrite length_fmap|].
  exists t'. split; [done|]. split.
  - intros r Hr Hc. destruct (Hin (to_policy (rule_entry r)).1) as (v & Hv & (r' & ? & ? & ?)%Hel).
    + apply list_elem_of_fmap. exists (to_policy (rule_entry r)). split; [done|].
      destruct (to_policy (rule_entry r)) as [k a] eqn:E. apply Hel. by exists r.
    + by exists v, r'.
  - intros k a Hk. destruct (decide (k ∈ (to_policy <$> policy_entries rules).*1)) as [Hd|Hd].
    + destruct (Hin k Hd) as (v & Hv & H%Hel). rewrite Hk in Hv. by injection Hv as <-.
    + rewrite Hout in Hk; done.
Qed.

(** Rules as the compilers make them: identity rules between two non-wildcard
    identities allow, and ports and protocols fit their fields. *)
Definition wf_rule (r : CompiledRule) : Prop :=
  0 <= Protocol r < 256 /\ 0 <= DstPort r < 65536
  /\ (c_CIDR r = "" -> Action r <> ActionAllow -> SrcIdentity r = WildcardIdentity \/ DstIdentity r = WildcardIdentity).

Lemma wf_rule_entry r :
  wf_rule r -> to_policy (rule_entry r)
  = (mkPKey (wire_identity (SrcIdentity r)) (wire_identity (DstIdentity r)) (Protocol r) (DstPort r),
     if Action r =? ActionAllow then ACTION_ALLOW else ACTION_DENY).
Proof.
  intros (Hp & Hd & _). unfold to_policy, rule_entry. cbn. unfold wrap8, wrap16. rewrite !Z.mod_small by lia.
  by destruct (Action r =? ActionAllow).
Qed.

(** A rule between two identities is enforced, whatever the other rules say. *)
Lemma exact_allow_enforced t' rules r src dst proto port :
  Forall wf_rule rules ->
  (forall r, r ∈ rules -> c_CIDR r = "" -> exists a r', t' !! (to_policy (rule_entry r)).1 = Some a
      /\ r' ∈ rules /\ c_CIDR r' = "" /\ to_policy (rule_entry r') = ((to_policy (rule_entry r)).1, a)) ->
  (forall k a, t' !! k = Some a -> exists r, r ∈ rules /\ c_CIDR r = "" /\ to_policy (rule_entry r) = (k, a)) ->
  src <> 0 -> dst <> 0 ->
  r ∈ rules -> c_CIDR r = "" -> wire_identity (SrcIdentity r) = src -> wire_identity (DstIdentity r) = dst ->
  port_covers (Protocol r) (DstPort r) proto port ->
  check_policy t' src dst proto port = Some ACTION_ALLOW.
Proof.
  intros Hwf Hin Hout Hs Hd Hr Hc Es Ed Hcov. rewrite Forall_forall in Hwf.
  assert (forall p q a, t' !! mkPKey src dst p q = Some a -> a = ACTION_ALLOW) as Hall.
  { intros p q a (r' & Hr' & Hc' & E)%Hout. rewrite (wf_rule_entry r' (Hwf _ Hr')) in E.
    injection E as E1 E2 _ _ <-. destruct (Z.eqb_spec (Action r') ActionAllow) as [|Hne]; [done|exfalso].
    destruct (Hwf _ Hr') as (_ & _ & Hw). destruct (Hw Hc' Hne) as [E|E].
    - apply Hs. rewrite <- E1, E. done.
    - apply Hd. rewrite <- E2, E. done. }
  destruct (Hin r Hr Hc) as (a & r' & Hk & _). rewrite (wf_rule_entry r (Hwf _ Hr)) in Hk. cbn [fst] in Hk. rewrite Es, Ed in Hk.
  unfold check_policy. cbn [check_pairs]. rewrite check_pair_first. cbn [first_match].
  destruct (t' !! mkPKey src dst proto port) as [b|] eqn:E1; [by rewrite (Hall _ _ _ E1)|].
  destruct (t' !! mkPKey src dst proto 0) as [b|] eqn:E2; [by rewrite (Hall _ _ _ E2)|].
  destruct (t' !! mkPKey src dst 0 0) as [b|] eqn:E3; [by rewrite (Hall _ _ _ E3)|].
  exfalso. destruct Hcov as [[Ep Eq]|[Ep [Eq|Eq]]]; rewrite Ep, Eq in Hk; congruence.
Qed.

(** * Compiled rules are well formed *)

Section Compiled.
Context (as_selector : LabelSelector -> option (labels -> bool)) (allocated : list (Z * labels)).
Context (namespaceResolver : option (LabelSelector -> list string)).
Context (portResolver : option (string -> string -> string -> LabelSelector -> list Z)).

(** The resolver yields 16-bit port numbers. *)
Definition resolver_u16 : Prop :=
  forall f, portResolver = Some f -> forall name proto ns sel, Forall (fun p => 0 <= p < 65536) (f name proto ns sel).

Context (Hports : resolver_u16).

Definition wf_pp (pp : portProto) : Prop := 0 <= PolicyCompiler.protocol pp < 256 /\ 0 <= pp_port pp < 65536.

Lemma port_protocol_range p : 0 <= port_protocol p < 256.
Proof. unfold port_protocol. repeat case_match; vm_compute; split; (discriminate || reflexivity). Qed.

Lemma resolvePorts_wf ports ns sel :
  Forall wf_pp (if (length (resolvePorts portResolver ports ns sel) =? 0)%nat then any_port
                else resolvePorts portResolver ports ns sel).
Proof.
  assert (Forall wf_pp (resolvePorts portResolver ports ns sel)) as H.
  { apply Forall_forall. intros pp (p & Hin & _)%list_elem_of_bind. pose proof (port_protocol_range (np_Protocol p)).
    destruct (np_Port p) as [[n|s]|].
    - apply list_elem_of_singleton in Hin as ->. split; [done|]. cbn. case_match; [|lia].
      change (Z.land n 65535) with (Z.land n (Z.ones 16)). rewrite Z.land_ones by lia. pose proof (Z.mod_pos_bound n (2 ^ 16)). lia.
    - destruct portResolver as [f|] eqn:Ef; [|by apply elem_of_nil in Hin].
      apply list_elem_of_fmap in Hin as (rp & -> & Hrp). split; [done|].
      pose proof (Hports f Ef s (default "TCP" (np_Protocol p)) ns sel) as Hf. rewrite Forall_forall in Hf. by apply Hf.
    - apply list_elem_of_singleton in Hin as ->. split; [done|]. cbn. lia. }
  case_match; [|done]. constructor; [|constructor]. split; cbn; [vm_compute; split; (discriminate || reflexivity)|lia].
Qed.

Lemma identity_rules_wf ids fixed ports eg ns : Forall wf_pp ports -> Forall wf_rule (buildIdentityRules ids fixed ports eg ns).
Proof.
  intros Hp. rewrite Forall_forall in Hp. apply Forall_forall. intros r (id & (pp & ->%list_elem_of_singleton & Hpp)%list_elem_of_bind & _)%list_elem_of_bind.
  destruct (Hp _ Hpp). by destruct eg; (split; [done|split; [done|]]); cbn in *; intros.
Qed.

Lemma cidr_rules_wf peers fixed ports eg ns :
  Forall wf_pp ports -> Forall wf_rule (buildCIDRRules (resolvePeersWithIPBlock peers) fixed ports eg ns).
Proof.
  intros Hp. rewrite Forall_forall in Hp. apply Forall_forall. intros r Hr. pose proof (buildCIDRRules_cidr _ _ _ _ _ _ Hr).
  apply list_elem_of_bind in Hr as (e & (pp & ->%list_elem_of_singleton & Hpp)%list_elem_of_bind & _).
  destruct (Hp _ Hpp). by destruct eg; (split; [done|split; [done|]]); cbn in *; intros.
Qed.

Lemma CompileAll_wf pols : Forall wf_rule (CompileAll as_selector allocated namespaceResolver portResolver pols).
Proof.
  apply Forall_forall. intros r (np & Hr & _)%list_elem_of_bind. destruct np as [np|]; [|by apply elem_of_nil in Hr].
  apply list_elem_of_bind in Hr as (t & Hr & _). apply elem_of_app in Hr as [Hr|Hr].
  - destruct (hasPolicyType np "Ingress"); [|by apply elem_of_nil in Hr]. destruct (_ =? 0)%nat.
    { apply list_elem_of_singleton in Hr as ->. split; [cbn; unfold ProtocolAny; lia|split; [cbn; lia|]]. intros _ _. by left. }
    apply list_elem_of_bind in Hr as (rule & Hr & _). unfold compileIngressRule in Hr.
    eapply Forall_forall; [|exact Hr]. apply Forall_app. split; [apply identity_rules_wf|apply cidr_rules_wf]; apply resolvePorts_wf.
  - destruct (hasPolicyType np "Egress"); [|by apply elem_of_nil in Hr]. destruct (_ =? 0)%nat.
    { apply list_elem_of_singleton in Hr as ->. split; [cbn; unfold ProtocolAny; lia|split; [cbn; lia|]]. intros _ _. by right. }
    apply list_elem_of_bind in Hr as (rule & Hr & _). unfold compileEgressRule in Hr.
    eapply Forall_forall; [|exact Hr]. apply Forall_app. split; [apply identity_rules_wf|apply cidr_rules_wf]; apply resolvePorts_wf.
Qed.

(** Every ingress rule names its sources, none of them as all pods of all
    namespaces. *)
Definition selective (np : NetworkPolicy) : Prop :=
  Forall (fun r => r_Peers r <> [] /\ Forall (fun p => ipBlock p = None -> peer_selectors namespaceResolver (n_Namespace np) p <> None) (r_Peers r))
    (Ingress np).

Lemma selective_source np r :
  WildcardIdentity ∉ allocated.*1 ->
  policy_sel_ok as_selector allocated namespaceResolver np -> selective np ->
  r ∈ CompilePolicy as_selector allocated namespaceResolver portResolver (Some np) ->
  Action r = ActionAllow -> IsEgress r = false -> c_CIDR r = "" -> SrcIdentity r <> WildcardIdentity.
Proof.
  intros Hzero [_ Hok] Hsel Hr Ha He Hc. unfold selective in Hsel. rewrite Forall_forall in Hok, Hsel.
  apply list_elem_of_bind in Hr as (t & Hr & _). apply elem_of_app in Hr as [Hr|Hr].
  - destruct (hasPolicyType np "Ingress"); [|by apply elem_of_nil in Hr]. destruct (_ =? 0)%nat.
    { by apply list_elem_of_singleton in Hr as ->. }
    apply list_elem_of_bind in Hr as (rule & Hr & Hin). destruct (Hok _ Hin) as [Hlive _], (Hsel _ Hin) as [Hne Hsp].
    unfold compileIngressRule in Hr. destruct (length (r_Peers rule) =? 0)%nat eqn:El.
    { apply Nat.eqb_eq, nil_length_inv in El. done. }
    apply elem_of_app in Hr as [Hr|Hr]; [|by apply buildCIDRRules_cidr in Hr].
    apply buildIdentityRules_elem in Hr as (id & pp & Hid & _ & ->). cbn. intros ->.
    apply list_elem_of_bind in Hid as (peer & Hid & Hp). destruct (ipBlock peer) eqn:Eb; [by apply elem_of_nil in Hid|].
    rewrite Forall_forall in Hlive, Hsp. specialize (Hlive _ Hp). specialize (Hsp _ Hp Eb).
    change (WildcardIdentity ∈ peer_ids as_selector allocated namespaceResolver (n_Namespace np) peer) in Hid.
    assert (known allocated WildcardIdentity) as Hk by left.
    apply peer_ids_selectors in Hid; [|done..]. unfold peer_sel_ok in Hlive. rewrite Eb in Hlive.
    destruct (peer_selectors namespaceResolver (n_Namespace np) peer) as [sels|]; [|done].
    destruct Hid as (sel & Hs & Hid), Hlive as [Hlive _]. rewrite Forall_forall in Hlive.
    apply findOrFallback_ok in Hid as (l & Hid & _); [|by apply Hlive|done].
    apply Hzero, list_elem_of_fmap. by exists (WildcardIdentity, l).
  - exfalso. destruct (hasPolicyType np "Egress"); [|by apply elem_of_nil in Hr]. destruct (_ =? 0)%nat.
    { by apply list_elem_of_singleton in Hr as ->. }
    apply list_elem_of_bind in Hr as (rule & Hr & _). apply compileEgressRule_egress in Hr. congruence.
Qed.

End Compiled.

(** * Theorems *)

(** A label selector without expressions, as apimachinery documents it. *)
Definition match_labels (sel : LabelSelector) : option (labels -> bool) :=
  match MatchExpressions sel with
  | [] => Some (fun l => bool_decide (MatchLabels sel ⊆ l))
  | _ => None
  end.

Definition pod (app : string) : labels := {[ "app" := app; "novanet.io/namespace" := "default" ]}.

Definition app_selector (app : string) : LabelSelector := mkSelector {[ "app" := app ]} [].

(** Three pods of the default namespace and their identities. *)
Definition pods : list (Z * labels) := (fun app => (HashLabels (pod app), pod app)) <$> ["web"; "db"; "other"].

Definition from_app (app : string) : NetworkPolicyPeer := mkPeer (Some (app_selector app)) None None.

(** Pods app=db accept TCP port 5432 from pods app=web. *)
Definition db_from_web : NetworkPolicy :=
  mkPolicy "default" "db-from-web" (app_selector "db")
    [mkRule [from_app "web"] [mkNPPort (Some "TCP") (Some (IntVal 5432)) None]] [] ["Ingress"].

(** Pods app=db accept nothing. *)
Definition db_deny_all : NetworkPolicy := mkPolicy "default" "db-deny" (app_selector "db") [] [] ["Ingress"].

(** Pods app=db accept everything. *)
Definition db_allow_all : NetworkPolicy := mkPolicy "default" "db-allow" (app_selector "db") [mkRule [] []] [] ["Ingress"].

(** Pods app=web may connect to anything. *)
Definition web_egress_all : NetworkPolicy := mkPolicy "default" "web-out" (app_selector "web") [] [mkRule [] []] ["Egress"].

Definition compile (pols : list NetworkPolicy) : list CompiledRule :=
  CompileAll match_labels pods None None (Some <$> pols).

Definition wire (app : string) : Z := wire_identity (HashLabels (pod app)).

(** C1: The ingress rules that the compiler makes from a policy, on the allocated
    identities, never admit a connection that the policy does not admit, and admit
    every connection it does admit if none of its ports is a range; of a range they
    admit the first port only (port_range_truncated).  What the policy admits is
    defined by Kubernetes' terms.  The selectors are as apimachinery documents them;
    each pod selector, with its namespace, selects some allocated identity or hashes to
    none; namespace selectors are empty, give just a name, or are resolved by the API
    server; ports are numbers with a protocol Kubernetes has. *)
Theorem compiled_ingress_exact as_selector namespaces allocated nsr pr np src lsrc dst ldst proto port :
  cluster_laws as_selector namespaces -> NoDup allocated.*1 -> WildcardIdentity ∉ allocated.*1 ->
  policy_ok as_selector namespaces allocated nsr np ->
  (src, lsrc) ∈ allocated -> (dst, ldst) ∈ allocated -> placed namespaces lsrc -> placed namespaces ldst ->
  let admitted := exists r, r ∈ CompilePolicy as_selector allocated nsr pr (Some np) /\ allows_ingress r src dst proto port in
  (admitted -> policy_admits as_selector namespaces np lsrc ldst proto port)
  /\ (no_ranges np -> policy_admits as_selector namespaces np lsrc ldst proto port -> admitted).
Proof.
  intros Hlaws Hnd Hz Hok Hsrc Hdst Hps Hpd admitted. unfold admitted.
  rewrite (CompilePolicy_ingress_exact as_selector allocated nsr pr Hnd Hz np src lsrc dst ldst proto port (policy_ok_sel _ _ _ _ _ Hok) Hsrc Hdst).
  split; [by apply (selected_admits as_selector namespaces allocated)|]. intros Hnr. by apply (admits_selected as_selector namespaces allocated).
Qed.

(** C2: A connection that a policy admits is allowed by the kernel after the policies
    have been synchronised, whatever the table held before and whatever the other
    policies say.  The policy is as in the theorem before and has no port ranges, and
    every rule of it names its sources, none of them as all pods; no two pods share an
    identity number, the two identities are not 0 in the 32 bits of the table, and the
    old and new entries together fit it. *)
Theorem permitted_ingress_allowed as_selector namespaces allocated nsr pr pols np t src lsrc dst ldst proto port dd :
  cluster_laws as_selector namespaces -> NoDup allocated.*1 -> WildcardIdentity ∉ allocated.*1 -> resolver_u16 pr ->
  Some np ∈ pols -> policy_ok as_selector namespaces allocated nsr np -> no_ranges np -> selective nsr np ->
  (src, lsrc) ∈ allocated -> (dst, ldst) ∈ allocated -> placed namespaces lsrc -> placed namespaces ldst ->
  wire_identity src <> 0 -> wire_identity dst <> 0 ->
  Z.of_nat (size t) + Z.of_nat (length (policy_entries (CompileAll as_selector allocated nsr pr pols))) <= MAX_POLICIES ->
  policy_admits as_selector namespaces np lsrc ldst proto port ->
  exists t', sync_rules t (CompileAll as_selector allocated nsr pr pols) = (t', true)
    /\ verdict t' dd (wire_identity src) (wire_identity dst) proto port = ACTION_ALLOW.
Proof.
  intros Hlaws Hnd Hz Hu Hnp Hok Hnr Hsel Hsrc Hdst Hps Hpd Hws Hwd Hcap Hper.
  destruct (sync_rules_spec t _ Hcap) as (t' & E & Hin & Hout). exists t'. split; [done|].
  pose proof (policy_ok_sel _ _ _ _ _ Hok) as Hsok.
  apply (admits_selected as_selector namespaces allocated nsr Hlaws np) in Hper; [|done..].
  destruct (proj2 (CompilePolicy_ingress_exact as_selector allocated nsr pr Hnd Hz np src lsrc dst ldst proto port Hsok Hsrc Hdst) Hper)
    as (r & Hr & Ha & He & Hc & Hd & Hs & Hcov).
  pose proof (selective_source as_selector allocated nsr pr np r Hz Hsok Hsel Hr Ha He Hc) as Hns.
  destruct Hs as [Hs|]; [|done].
  unfold verdict. erewrite (exact_allow_enforced t' _ r); [done|by apply CompileAll_wf|done..| |done| | |done].
  - apply list_elem_of_bind. by exists (Some np).
  - by rewrite Hs.
  - by rewrite Hd.
Qed.

(** The one namespace of the examples. *)
Definition default_only : gmap string labels := {[ "default" := {[ name_key := "default" ]} ]}.

Lemma match_labels_laws : cluster_laws match_labels default_only.
Proof.
  assert (forall sel l, selects match_labels sel l <-> MatchExpressions sel = [] /\ MatchLabels sel ⊆ l) as Hs.
  { intros sel l. unfold selects, match_labels. destruct (MatchExpressions sel); [|naive_solver].
    split; [intros (f & [= <-] & H%bool_decide_eq_true); done|]. intros [_ H]. eexists. split; [done|]. by apply bool_decide_eq_true. }
  split.
  - intros [m e] l. unfold is_empty. cbn. intros [E1 E2]%andb_true_iff. apply Nat.eqb_eq in E1, E2.
    apply map_size_empty_inv in E1. apply nil_length_inv in E2. subst. apply Hs. split; [done|apply map_empty_subseteq].
  - intros sel ns l _ Hk. rewrite !Hs. unfold pod_namespace. cbn [MatchExpressions MatchLabels in_namespace set_label].
    split.
    + intros [He Hsub]. split; [eapply lookup_weaken; [apply lookup_insert_eq|exact Hsub]|]. split; [done|].
      etransitivity; [|exact Hsub]. by apply insert_subseteq.
    + intros (Hn & He & Hsub). split; [done|]. by apply insert_subseteq_l.
  - intros n nl m Hn. unfold default_only in Hn. apply lookup_singleton_Some in Hn as [<- <-]. rewrite Hs. cbn [MatchExpressions MatchLabels].
    rewrite map_singleton_subseteq_l, lookup_singleton_Some. naive_solver.
Qed.

Lemma pod_placed app : placed default_only (pod app).
Proof. exists "default", {[ name_key := "default" ]}. split; [|reflexivity]. unfold pod_namespace, pod. rewrite lookup_insert_ne by done. by apply lookup_singleton_eq. Qed.

Lemma pods_distinct : NoDup pods.*1 /\ WildcardIdentity ∉ pods.*1.
Proof. split; apply (bool_decide_unpack _); vm_compute; exact I. Qed.

Lemma selects_db : selects match_labels (in_namespace (app_selector "db") "default") (pod "db").
Proof. eexists. split; [reflexivity|]. vm_compute. reflexivity. Qed.

Lemma selects_web : selects match_labels (in_namespace (app_selector "web") "default") (pod "web").
Proof. eexists. split; [reflexivity|]. vm_compute. reflexivity. Qed.

Lemma in_pods app : app ∈ ["web"; "db"; "other"] -> (HashLabels (pod app), pod app) ∈ pods.
Proof. intros H. apply list_elem_of_fmap. by exists app. Qed.

Lemma db_live : sel_ok match_labels pods (in_namespace (app_selector "db") "default").
Proof. left. exists (HashLabels (pod "db"), pod "db"). split; [apply in_pods; right; left|apply selects_db]. Qed.

Lemma from_web_ok : peer_ok match_labels default_only pods None "default" (from_app "web").
Proof.
  split.
  - split; [|done]. constructor; [|constructor]. left. exists (HashLabels (pod "web"), pod "web").
    split; [apply in_pods; left|apply selects_web].
  - intros _. split; [by intros []|]. split; [|done]. by intros sel [= <-].
Qed.

(** Pods app=db accept connections of pods app=web to some TCP ports. *)
Definition db_from_web_to (port : NetworkPolicyPort) : NetworkPolicy :=
  mkPolicy "default" "db-from-web" (app_selector "db") [mkRule [from_app "web"] [port]] [] ["Ingress"].

Lemma db_from_web_ok port : port_ok port -> policy_ok match_labels default_only pods None (db_from_web_to port).
Proof.
  intros Hp. split; [apply db_live|]. split; [done|]. constructor; [|constructor].
  split; (constructor; [|constructor]); [apply from_web_ok|done].
Qed.

Lemma db_from_web_admits p port : port_admits p 6 port -> policy_admits match_labels default_only (db_from_web_to p) (pod "web") (pod "db") 6 port.
Proof.
  intros Hp. split; [right; left|].
  split; [reflexivity|]. split; [eexists; split; [reflexivity|vm_compute; reflexivity]|]. eexists. split; [left|]. split; right.
  - exists (from_app "web"). split; [left|]. split; [done|]. split; [reflexivity|]. eexists. split; [reflexivity|vm_compute; reflexivity].
  - exists p. split; [left|done].
Qed.

Lemma compiled_ingress_exact_witness :
  exists r, r ∈ CompilePolicy match_labels pods None None (Some db_from_web)
    /\ allows_ingress r (HashLabels (pod "web")) (HashLabels (pod "db")) 6 5432.
Proof.
  refine (proj2 (compiled_ingress_exact match_labels default_only pods None None db_from_web _ (pod "web") _ (pod "db") 6 5432
    match_labels_laws _ _ _ _ _ _ _) _ _);
    [apply pods_distinct|apply pods_distinct| |apply in_pods; left|apply in_pods; right; left|apply pod_placed..| |].
  - apply (db_from_web_ok (mkNPPort (Some "TCP") (Some (IntVal 5432)) None)). split; [left|]. cbn. lia.
  - repeat (constructor; [|constructor]). done.
  - apply (db_from_web_admits (mkNPPort (Some "TCP") (Some (IntVal 5432)) None)). by split; [left|].
Defined.

Lemma permitted_ingress_allowed_witness :
  exists t', sync_rules ∅ (compile [db_deny_all; db_from_web]) = (t', true)
    /\ verdict t' true (wire "web") (wire "db") 6 5432 = ACTION_ALLOW.
Proof.
  apply (permitted_ingress_allowed match_labels default_only pods None None [Some db_deny_all; Some db_from_web] db_from_web ∅
           (HashLabels (pod "web")) (pod "web") (HashLabels (pod "db")) (pod "db") 6 5432 true).
  - apply match_labels_laws.
  - apply pods_distinct.
  - apply pods_distinct.
  - by intros f [=].
  - right; left.
  - apply (db_from_web_ok (mkNPPort (Some "TCP") (Some (IntVal 5432)) None)). split; [left|]. cbn. lia.
  - repeat (constructor; [|constructor]). done.
  - constructor; [|constructor]. split; [done|]. constructor; [done|constructor].
  - apply in_pods; left.
  - apply in_pods; right; left.
  - apply pod_placed.
  - apply pod_placed.
  - vm_compute. discriminate.
  - vm_compute. discriminate.
  - vm_compute. discriminate.
  - apply (db_from_web_admits (mkNPPort (Some "TCP") (Some (IntVal 5432)) None)). by split; [left|].
Defined.

(** A port range is compiled for its first port only.  The policy admits app=web to
    the ports 5432 to 5434 of app=db, and no compiled rule admits port 5433; under
    default deny the connection is refused. *)
Theorem port_range_truncated :
  let np := db_from_web_to (mkNPPort (Some "TCP") (Some (IntVal 5432)) (Some 5434)) in
  policy_ok match_labels default_only pods None np
  /\ policy_admits match_labels default_only np (pod "web") (pod "db") 6 5433
  /\ verdict (sync_rules ∅ (compile [np])).1 true (wire "web") (wire "db") 6 5432 = ACTION_ALLOW
  /\ verdict (sync_rules ∅ (compile [np])).1 true (wire "web") (wire "db") 6 5433 = ACTION_DENY.
Proof.
  split; [apply db_from_web_ok; split; [left|cbn; lia]|]. split; [apply db_from_web_admits; split; [left|cbn; lia]|].
  split; vm_compute; reflexivity.
Qed.

(** The table entry of a rule is among the keys the lookup tries. *)
Definition wire_covers (r : CompiledRule) (src dst proto port : Z) : Prop :=
  (wire_identity (SrcIdentity r), wire_identity (DstIdentity r)) ∈ [(src, dst); (src, 0); (0, dst)]
  /\ port_covers (Protocol r) (DstPort r) proto port.

Lemma candidates_covers r src dst proto port :
  mkPKey (wire_identity (SrcIdentity r)) (wire_identity (DstIdentity r)) (Protocol r) (DstPort r)
    ∈ candidates src dst proto port -> wire_covers r src dst proto port.
Proof.
  unfold candidates. intros ([s d] & Hk & Hp)%list_elem_of_bind. cbn [fst snd] in Hk. unfold wire_covers, port_covers.
  rewrite !elem_of_cons, elem_of_nil in Hk. split; [|naive_solver].
  by destruct Hk as [[= -> -> _ _]|[[= -> -> _ _]|[[= -> -> _ _]|[]]]].
Qed.

Lemma first_match_action t l a :
  first_match t l <> None -> (forall k b, k ∈ l -> t !! k = Some b -> b = a) -> first_match t l = Some a.
Proof.
  intros Hn Ha. destruct (first_match t l) as [b|] eqn:E; [|done].
  apply first_match_Some in E as (l1 & k & l2 & -> & Hk & _). f_equal. apply (Ha k); [|done].
  rewrite elem_of_app, elem_of_cons. tauto.
Qed.

(** A policy that selects a pod and has no ingress rules closes it: every
    connection to the pod that no compiled rule allows is denied. *)
Theorem default_deny_enforced as_selector allocated nsr pr pols np t src dst ldst proto port dd :
  resolver_u16 pr -> Some np ∈ pols -> hasPolicyType np "Ingress" = true -> Ingress np = [] ->
  live as_selector allocated (in_namespace (n_PodSelector np) (n_Namespace np)) ->
  (dst, ldst) ∈ allocated -> selects as_selector (in_namespace (n_PodSelector np) (n_Namespace np)) ldst ->
  let rules := CompileAll as_selector allocated nsr pr pols in
  (forall r, r ∈ rules -> c_CIDR r = "" -> Action r = ActionAllow -> ~ wire_covers r src (wire_identity dst) proto port) ->
  Z.of_nat (size t) + Z.of_nat (length (policy_entries rules)) <= MAX_POLICIES ->
  exists t', sync_rules t rules = (t', true) /\ verdict t' dd src (wire_identity dst) proto port = ACTION_DENY.
Proof.
  intros Hu Hnp Hty Hing Hlive Hdst Hsel rules Hno Hcap.
  destruct (sync_rules_spec t rules Hcap) as (t' & E & Hin & Hout). exists t'. split; [done|].
  pose proof (CompileAll_wf as_selector allocated nsr pr Hu pols) as Hwf. fold rules in Hwf. rewrite Forall_forall in Hwf.
  set (deny := mkCompiled WildcardIdentity dst ProtocolAny 0 ActionDeny "" false (n_Namespace np)).
  assert (deny ∈ rules) as Hdeny.
  { apply list_elem_of_bind. exists (Some np). split; [|done]. apply list_elem_of_bind. exists dst.
    split; [|apply selectorToIdentities_ok; [by left|by eapply known_alloc|eauto]]. apply elem_of_app. left. rewrite Hty, Hing. by apply list_elem_of_singleton. }
  unfold verdict. rewrite check_policy_first, (first_match_action _ _ ACTION_DENY); [done| |].
  - intros Hn%first_match_None. rewrite Forall_forall in Hn.
    destruct (Hin deny Hdeny eq_refl) as (a & _ & Hk & _). rewrite (wf_rule_entry _ (Hwf _ Hdeny)) in Hk. cbn [fst deny] in Hk.
    rewrite Hn in Hk; [done|]. unfold candidates. cbn. rewrite !elem_of_cons. do 8 right. by left.
  - intros k b Hk (r & Hr & Hc & Er)%Hout. rewrite (wf_rule_entry r (Hwf _ Hr)) in Er. injection Er as <- <-.
    destruct (Z.eqb_spec (Action r) ActionAllow); [|done]. exfalso. by apply (Hno r); [..|apply candidates_covers].
Qed.

Lemma default_deny_enforced_witness :
  exists t', sync_rules ∅ (compile [db_deny_all]) = (t', true)
    /\ verdict t' false (wire "web") (wire "db") 6 5432 = ACTION_DENY.
Proof.
  apply (default_deny_enforced match_labels pods None None [Some db_deny_all] db_deny_all ∅ (wire "web")
           (HashLabels (pod "db")) (pod "db") 6 5432 false).
  - by intros f [=].
  - left.
  - reflexivity.
  - reflexivity.
  - exists (HashLabels (pod "db"), pod "db"). split; [apply in_pods; right; left|apply selects_db].
  - apply in_pods; right; left.
  - apply selects_db.
  - intros r Hr _ Ha. exfalso. apply list_elem_of_In in Hr. vm_compute in Hr. destruct Hr as [<-|[]]. vm_compute in Ha. discriminate.
  - vm_compute. discriminate.
Defined.

(** A policy with ingress rules does not isolate the pods it selects.  The
    policy selects app=db and admits only app=web, but the compiler makes no deny
    rule for it, so with the default setting app=other is allowed as well. *)
Theorem allow_list_does_not_isolate :
  ~ policy_admits match_labels default_only db_from_web (pod "other") (pod "db") 6 5432
  /\ selects match_labels (in_namespace (n_PodSelector db_from_web) "default") (pod "db")
  /\ verdict (sync_rules ∅ (compile [db_from_web])).1 false (wire "other") (wire "db") 6 5432 = ACTION_ALLOW.
Proof.
  split; [|split; [apply selects_db|vm_compute; reflexivity]].
  intros (_ & _ & _ & r & Hr & Hper & _). apply list_elem_of_singleton in Hr as ->.
  destruct Hper as [|(peer & Hp & _ & _ & Hsel)]; [done|]. apply list_elem_of_singleton in Hp as ->.
  destruct Hsel as (f & Hf & Hm). injection Hf as <-. vm_compute in Hm. discriminate.
Qed.

(** An egress policy overrides an ingress policy.  app=db accepts nothing,
    app=web may connect to anything; the lookup finds the rule from app=web to any
    identity first and allows what the ingress policy denies. *)
Theorem egress_rule_bypasses_ingress_deny :
  let t := (sync_rules ∅ (compile [db_deny_all; web_egress_all])).1 in
  verdict t true (wire "other") (wire "db") 6 5432 = ACTION_DENY
  /\ verdict t true (wire "web") (wire "db") 6 5432 = ACTION_ALLOW.
Proof. split; vm_compute; reflexivity. Qed.

(** Two policies on the same pods, one that admits everything and one that
    admits nothing, compile to two actions for one key; every synchronisation of
    the unchanged policies turns the verdict around. *)
Theorem resync_flips_verdict :
  let rules := compile [db_deny_all; db_allow_all] in
  let t1 := (sync_rules ∅ rules).1 in
  let t2 := (sync_rules t1 rules).1 in
  let t3 := (sync_rules t2 rules).1 in
  verdict t1 false (wire "web") (wire "db") 6 5432 = ACTION_ALLOW
  /\ verdict t2 false (wire "web") (wire "db") 6 5432 = ACTION_DENY
  /\ verdict t3 false (wire "web") (wire "db") 6 5432 = ACTION_ALLOW.
Proof. split; [|split]; vm_compute; reflexivity. Qed.
