(* ===== verification/EbpfTc.v ===== *)
(** The traffic-control programs of dataplane/novanet-ebpf/src/main.rs: tc_ingress,
    tc_egress, tc_tunnel_ingress, tc_tunnel_egress and tc_host_ingress, with the
    packet rewriting of perform_dnat and perform_snat.  The checksum helpers of the
    kernel, the answer of bpf_skb_set_tunnel_key and the reading of the header
    length by the network-types crate are parameters. *)

From Stdlib Require Import ZArith Lia.
From stdpp Require Import base tactics list gmap.
From S2P Require Import Prelude PolicyTable EbpfMaps EbpfHelpers PolicyEnforcement.

(** * The packet buffer *)

(** The socket buffer: its bytes, its mark, and the tunnel metadata (remote
    address, VNI) that was set on it. *)
Record skb := mkSkb { data : list Z; mark : Z; tunnel_key : option (Z * Z) }.

Definition set_data (s : skb) (b : list Z) : skb := mkSkb b (mark s) (tunnel_key s).

(** [TcContext::store]. *)
Definition store (pkt : list Z) (off : Z) (b : list Z) : option (list Z) :=
  if off + Z.of_nat (length b) <=? Z.of_nat (length pkt)
  then Some (take (Z.to_nat off) pkt ++ b ++ drop (Z.to_nat off + length b) pkt) else None.

(** The bytes of a u16 in network order, and the values of [to_be] on a
    little-endian target. *)
Definition port_bytes (p : Z) : list Z := [wrap8 (Z.shiftr p 8); wrap8 p].
Definition to_be32 (ip : Z) : Z :=
  wrap8 ip * 16777216 + wrap8 (Z.shiftr ip 8) * 65536 + wrap8 (Z.shiftr ip 16) * 256 + wrap8 (Z.shiftr ip 24).
Definition to_be16 (p : Z) : Z := wrap8 p * 256 + wrap8 (Z.shiftr p 8).

(** What a program returns: a TC action, or the redirection to an interface. *)
Inductive tc_result := Act (a : Z) | Redirect (ifidx : Z).

Definition TC_ACT_OK : Z := 0.
Definition TC_ACT_SHOT : Z := 2.

#[export] Instance tc_result_eq_dec : EqDecision tc_result.
Proof. solve_decision. Defined.

(** The fields the programs read from a packet. *)
Record headers := mkHeaders {
  h_src_ip : Z; h_dst_ip : Z; h_protocol : Z; h_l4_offset : Z; h_total_len : Z;
  h_src_port : Z; h_dst_port : Z; h_tcp_flags : Z }.

Inductive parsed := ParseErr | NotIPv4 | IPv4 (h : headers).

Section Kernel.
(** [ihl] of the first byte of an IPv4 header; the checksum helpers, given offset,
    old and new value and flags; whether the tunnel metadata can be set. *)
Context (ihl : Z -> Z).
Context (l3_csum_replace l4_csum_replace : list Z -> Z -> Z -> Z -> Z -> option (list Z)).
Context (tunnel_ok : bool).

(** The parsing that begins every program. *)
Definition parse_packet (pkt : list Z) : parsed :=
  match load pkt 0 ETH_HLEN with
  | None => ParseErr
  | Some eth =>
      if negb (be16 eth 12 =? 2048) then NotIPv4
      else
        match load pkt ETH_HLEN 20 with
        | None => ParseErr
        | Some ipv4 =>
            let l4_offset := ETH_HLEN + ihl (nth 0 ipv4 0) * 4 in
            let protocol := nth 9 ipv4 0 in
            let '(sp, dp, fl) := parse_l4_ports pkt l4_offset protocol in
            IPv4 (mkHeaders (be32 ipv4 12) (be32 ipv4 16) protocol l4_offset (be16 ipv4 2) sp dp fl)
        end
  end.

(** ** Address translation *)

(** The steps of the rewriting functions: each may fail, and what was written
    before a failure stays. *)
Fixpoint write_steps (pkt : list Z) (steps : list (list Z -> option (list Z))) : list Z * bool :=
  match steps with
  | [] => (pkt, true)
  | f :: rest => match f pkt with Some pkt' => write_steps pkt' rest | None => (pkt, false) end
  end.

Definition l4_csum_offset (l4_offset protocol : Z) : Z :=
  if protocol =? 6 then l4_offset + 16 else l4_offset + 6.

(** [perform_dnat] and [perform_snat] differ in the offsets of the address
    ([ETH_HLEN + 16] and [ETH_HLEN + 12]) and of the port (2 and 0). *)
Definition perform_nat (ip_off port_off : Z) (pkt : list Z) (l4_offset protocol old_ip new_ip old_port new_port : Z)
    : list Z * bool :=
  write_steps pkt
    ([ (fun p => l3_csum_replace p (ETH_HLEN + 10) (to_be32 old_ip) (to_be32 new_ip) 4);
       (fun p => store p (ETH_HLEN + ip_off) (ip_bytes new_ip)) ]
     ++ if (protocol =? 6) || (protocol =? 17) then
          [ (fun p => l4_csum_replace p (l4_csum_offset l4_offset protocol) (to_be32 old_ip) (to_be32 new_ip) 20);
            (fun p => l4_csum_replace p (l4_csum_offset l4_offset protocol) (to_be16 old_port) (to_be16 new_port) 2);
            (fun p => store p (l4_offset + port_off) (port_bytes new_port)) ]
        else []).

Definition perform_dnat := perform_nat 16 2.
Definition perform_snat := perform_nat 12 0.

(** ** Policy *)

(** The three arms of the matches on [check_policy]. *)
Inductive decision := Denied | Allowed | NoEntry.

Definition decide_policy (t : tables) (src_identity dst_identity protocol dst_port : Z) : decision :=
  match check_policy (POLICIES t) src_identity dst_identity protocol dst_port with
  | Some a => if a =? ACTION_DENY then Denied else if a =? ACTION_ALLOW then Allowed else NoEntry
  | None => NoEntry
  end.

Definition default_deny (t : tables) : bool := get_config t CONFIG_KEY_DEFAULT_DENY =? 1.

Definition flow_event (now : Z) (d : dynamic) (h : headers) (src_identity dst_identity vd reason : Z) : dynamic :=
  emit_flow_event now d (h_src_ip h) (h_dst_ip h) src_identity dst_identity (h_protocol h)
    (h_src_port h) (h_dst_port h) vd reason (h_tcp_flags h) (h_total_len h).

(** A drop that is counted and reported. *)
Definition drop_packet (now : Z) (d : dynamic) (h : headers) (src_identity dst_identity reason : Z)
    : dynamic * tc_result :=
  (flow_event now (inc_drop_counter d reason) h src_identity dst_identity ACTION_DENY reason, Act TC_ACT_SHOT).

Definition allow_event (now : Z) (d : dynamic) (h : headers) (src_identity dst_identity : Z) : dynamic :=
  flow_event now d h src_identity dst_identity ACTION_ALLOW DROP_REASON_NONE.

(** The match on [check_policy] that ends in a TC action. *)
Definition enforce (t : tables) (now : Z) (d : dynamic) (h : headers) (src_identity dst_identity : Z)
    : dynamic * tc_result :=
  match decide_policy t src_identity dst_identity (h_protocol h) (h_dst_port h) with
  | Denied => drop_packet now d h src_identity dst_identity DROP_REASON_POLICY_DENIED
  | Allowed => (allow_event now d h src_identity dst_identity, Act TC_ACT_OK)
  | NoEntry =>
      if default_deny t then drop_packet now d h src_identity dst_identity DROP_REASON_POLICY_DENIED
      else (d, Act TC_ACT_OK)
  end.

Definition identity_or_0 (t : tables) (ip : Z) : Z :=
  match lookup_identity t ip with Some (id, _) => id | None => 0 end.

(** ** tc_ingress *)

Definition try_tc_ingress (t : tables) (now : Z) (d : dynamic) (s : skb) : option (dynamic * skb * tc_result) :=
  match parse_packet (data s) with
  | ParseErr => None
  | NotIPv4 => Some (d, s, Act TC_ACT_OK)
  | IPv4 h =>
      let '(d, allowed) := check_rate_limit t now d (h_src_ip h) in
      if negb allowed then Some (inc_drop_counter d DROP_REASON_RATE_LIMITED, s, Act TC_ACT_SHOT)
      else
        let d := if h_protocol h =? 6 then track_backend_health now d (h_dst_ip h) (h_dst_port h) (h_tcp_flags h) else d in
        if get_config t CONFIG_KEY_MODE =? MODE_OVERLAY then Some (d, s, Act TC_ACT_OK)
        else
          match lookup_identity t (h_src_ip h) with
          | None =>
              if default_deny t then
                let '(d, r) := drop_packet now d h 0 0 DROP_REASON_NO_IDENTITY in Some (d, s, r)
              else Some (d, s, Act TC_ACT_OK)
          | Some (src_identity, _) =>
              let '(d, r) := enforce t now d h src_identity (identity_or_0 t (h_dst_ip h)) in Some (d, s, r)
          end
  end.

(** ** tc_egress *)

(** A pod of another node in overlay mode: policy, then the tunnel of the node. *)
Definition egress_overlay (t : tables) (now : Z) (d : dynamic) (s : skb) (h : headers)
    (src_identity dst_identity : Z) (dst_ep : EndpointValue) : dynamic * skb * tc_result :=
  match TUNNELS t !! ep_node_ip dst_ep with
  | Some tunnel =>
      let dec := decide_policy t src_identity dst_identity (h_protocol h) (h_dst_port h) in
      if match dec with Denied => true | Allowed => false | NoEntry => default_deny t end then
        let '(d, r) := drop_packet now d h src_identity dst_identity DROP_REASON_POLICY_DENIED in (d, s, r)
      else if negb tunnel_ok then (inc_drop_counter d DROP_REASON_NO_TUNNEL, s, Act TC_ACT_SHOT)
      else (allow_event now d h src_identity dst_identity,
            mkSkb (data s) (mark s) (Some (remote_ip tunnel, vni tunnel)), Redirect (tun_ifindex tunnel))
  | None =>
      let '(d, r) := drop_packet now d h src_identity dst_identity DROP_REASON_NO_TUNNEL in (d, s, r)
  end.

(** A destination that is not a known endpoint. *)
Definition egress_unknown (t : tables) (now : Z) (d : dynamic) (s : skb) (h : headers) (src_identity : Z)
    : dynamic * skb * tc_result :=
  if negb (is_cluster_ip t (h_dst_ip h)) then
    let '(allowed, _) := check_egress_policy t src_identity (h_dst_ip h) in
    if negb allowed then
      let '(d, r) := drop_packet now d h src_identity 0 DROP_REASON_POLICY_DENIED in (d, s, r)
    else (allow_event now d h src_identity 0, s, Act TC_ACT_OK)
  else if get_config t CONFIG_KEY_MODE =? MODE_OVERLAY then
    let '(d, r) := drop_packet now d h src_identity 0 DROP_REASON_NO_ROUTE in (d, s, r)
  else (d, s, Act TC_ACT_OK).

Definition try_tc_egress (t : tables) (now : Z) (d : dynamic) (s : skb) : option (dynamic * skb * tc_result) :=
  match parse_packet (data s) with
  | ParseErr => None
  | NotIPv4 => Some (d, s, Act TC_ACT_OK)
  | IPv4 h =>
      let src_identity := identity_or_0 t (h_src_ip h) in
      match lookup_identity t (h_dst_ip h) with
      | Some (dst_identity, dst_ep) =>
          let node_ip := wrap32 (get_config t CONFIG_KEY_NODE_IP) in
          if (ep_node_ip dst_ep =? node_ip) || (ep_node_ip dst_ep =? 0) then
            let '(d, r) := enforce t now d h src_identity dst_identity in Some (d, s, r)
          else if get_config t CONFIG_KEY_MODE =? MODE_OVERLAY then
            Some (egress_overlay t now d s h src_identity dst_identity dst_ep)
          else
            let '(d, r) := enforce t now d h src_identity dst_identity in Some (d, s, r)
      | None => Some (egress_unknown t now d s h src_identity)
      end
  end.

(** ** tc_tunnel_ingress *)

Definition to_pod (t : tables) (dst_ip : Z) : tc_result :=
  match lookup_identity t dst_ip with
  | Some (_, dst_ep) => Redirect (ifindex dst_ep)
  | None => Act TC_ACT_OK
  end.

Definition enforce_tunnel_policy (t : tables) (now : Z) (d : dynamic) (h : headers) (src_identity dst_identity : Z)
    : dynamic * tc_result :=
  if src_identity =? 0 then
    if default_deny t then drop_packet now d h 0 dst_identity DROP_REASON_NO_IDENTITY
    else (d, to_pod t (h_dst_ip h))
  else
    match decide_policy t src_identity dst_identity (h_protocol h) (h_dst_port h) with
    | Denied => drop_packet now d h src_identity dst_identity DROP_REASON_POLICY_DENIED
    | Allowed => (allow_event now d h src_identity dst_identity, to_pod t (h_dst_ip h))
    | NoEntry =>
        if default_deny t then drop_packet now d h src_identity dst_identity DROP_REASON_POLICY_DENIED
        else (d, to_pod t (h_dst_ip h))
    end.

Definition pod_mac (dst_ip : Z) : list Z := [2; 254] ++ ip_bytes dst_ip.

(** The rewriting to the tracked origin of a flow. *)
Definition snat_to_origin (d : dynamic) (pkt : list Z) (h : headers) : list Z :=
  match CONNTRACK d !! mkCtKey (h_src_ip h) (h_dst_ip h) (h_src_port h) (h_dst_port h) (h_protocol h) with
  | Some ct =>
      if negb (origin_ip ct =? 0) then
        (perform_snat pkt (h_l4_offset h) (h_protocol h) (h_src_ip h) (origin_ip ct) (h_src_port h) (origin_port ct)).1
      else pkt
  | None => pkt
  end.

(** The mark set first stays on the buffer also when the program fails. *)
Definition try_tc_tunnel_ingress (t : tables) (now : Z) (d : dynamic) (s0 : skb)
    : skb * option (dynamic * skb * tc_result) :=
  let s := mkSkb (data s0) 16384 (tunnel_key s0) in
  (s, match parse_packet (data s) with
      | ParseErr => None
      | NotIPv4 => Some (d, s, Act TC_ACT_OK)
      | IPv4 h =>
          let pkt := default (data s) (store (data s) 0 (pod_mac (h_dst_ip h))) in
          let pkt := if negb (get_config t CONFIG_KEY_L4LB_ENABLED =? 0) then snat_to_origin d pkt h else pkt in
          let '(d, r) := enforce_tunnel_policy t now d h (identity_or_0 t (h_src_ip h)) (identity_or_0 t (h_dst_ip h)) in
          Some (d, set_data s pkt, r)
      end).

(** ** tc_host_ingress *)

Definition try_tc_host_ingress (t : tables) (d : dynamic) (s : skb) : option (dynamic * skb * tc_result) :=
  if get_config t CONFIG_KEY_L4LB_ENABLED =? 0 then Some (d, s, Act TC_ACT_OK)
  else
    match parse_packet (data s) with
    | ParseErr => None
    | NotIPv4 => Some (d, s, Act TC_ACT_OK)
    | IPv4 h =>
        match CONNTRACK d !! mkCtKey (h_src_ip h) (h_dst_ip h) (h_src_port h) (h_dst_port h) (h_protocol h) with
        | Some _ => Some (d, set_data s (snat_to_origin d (data s) h), Act TC_ACT_OK)
        | None =>
            let dnat bip bport :=
              set_data s (perform_dnat (data s) (h_l4_offset h) (h_protocol h) (h_dst_ip h) bip (h_dst_port h) bport).1 in
            match service_lookup t d 0 (h_dst_port h) (h_protocol h) (h_src_ip h) (h_src_port h) SVC_SCOPE_NODE_PORT with
            | (d, Some (bip, bport, _, _)) => Some (d, dnat bip bport, Act TC_ACT_OK)
            | (d, None) =>
                match service_lookup t d (h_dst_ip h) (h_dst_port h) (h_protocol h) (h_src_ip h) (h_src_port h)
                        SVC_SCOPE_EXTERNAL_IP with
                | (d, Some (bip, bport, _, _)) => Some (d, dnat bip bport, Act TC_ACT_OK)
                | (d, None) => Some (d, s, Act TC_ACT_OK)
                end
            end
        end
    end.

(** ** The entry points, which let a packet pass when the program fails *)

Definition or_pass (d : dynamic) (s : skb) (r : option (dynamic * skb * tc_result)) : dynamic * skb * tc_result :=
  default (d, s, Act TC_ACT_OK) r.

Definition tc_ingress (t : tables) (now : Z) (d : dynamic) (s : skb) := or_pass d s (try_tc_ingress t now d s).
Definition tc_egress (t : tables) (now : Z) (d : dynamic) (s : skb) := or_pass d s (try_tc_egress t now d s).
Definition tc_tunnel_ingress (t : tables) (now : Z) (d : dynamic) (s : skb) :=
  let '(s', r) := try_tc_tunnel_ingress t now d s in or_pass d s' r.
Definition tc_tunnel_egress (d : dynamic) (s : skb) : dynamic * skb * tc_result := (d, s, Act TC_ACT_OK).
Definition tc_host_ingress (t : tables) (d : dynamic) (s : skb) := or_pass d s (try_tc_host_ingress t d s).

End Kernel.

(** * Accounting of drops *)

(** A program that drops a packet adds one to one drop counter; one that does not
    leaves the counters alone. *)
Definition accounted (d d' : dynamic) (r : tc_result) : Prop :=
  if decide (r = Act TC_ACT_SHOT) then
    exists reason, reason ∈ [DROP_REASON_POLICY_DENIED; DROP_REASON_NO_IDENTITY; DROP_REASON_NO_ROUTE;
                             DROP_REASON_NO_TUNNEL; DROP_REASON_RATE_LIMITED]
      /\ DROP_COUNTERS d' = <[reason := wrap64 (default 0 (DROP_COUNTERS d !! reason) + 1)]> (DROP_COUNTERS d)
  else DROP_COUNTERS d' = DROP_COUNTERS d.

Lemma flow_event_counters now d h si di vd reason : DROP_COUNTERS (flow_event now d h si di vd reason) = DROP_COUNTERS d.
Proof. unfold flow_event, emit_flow_event. by destruct (ring_free d). Qed.

Lemma flow_event_conntrack now d h si di vd reason : CONNTRACK (flow_event now d h si di vd reason) = CONNTRACK d.
Proof. unfold flow_event, emit_flow_event. by destruct (ring_free d). Qed.

Lemma inc_drop_counters d reason :
  reason < DROP_REASON_MAX ->
  DROP_COUNTERS (inc_drop_counter d reason) = <[reason := wrap64 (default 0 (DROP_COUNTERS d !! reason) + 1)]> (DROP_COUNTERS d).
Proof. intros H. unfold inc_drop_counter, array_get. by rewrite (proj2 (Z.ltb_lt _ _) H). Qed.

Lemma pass_accounted d d' r : r <> Act TC_ACT_SHOT -> DROP_COUNTERS d' = DROP_COUNTERS d -> accounted d d' r.
Proof. intros. unfold accounted. by rewrite decide_False. Qed.

Lemma shot_accounted d d' d'' reason :
  reason ∈ [DROP_REASON_POLICY_DENIED; DROP_REASON_NO_IDENTITY; DROP_REASON_NO_ROUTE;
            DROP_REASON_NO_TUNNEL; DROP_REASON_RATE_LIMITED] ->
  DROP_COUNTERS d' = DROP_COUNTERS d -> DROP_COUNTERS d'' = DROP_COUNTERS (inc_drop_counter d' reason) ->
  accounted d d'' (Act TC_ACT_SHOT).
Proof.
  intros Hr E E'. unfold accounted. rewrite decide_True by done. exists reason. split; [done|].
  rewrite E', inc_drop_counters, E; [done|]. rewrite !elem_of_cons, elem_of_nil in Hr.
  unfold DROP_REASON_MAX. naive_solver (unfold DROP_REASON_POLICY_DENIED, DROP_REASON_NO_IDENTITY, DROP_REASON_NO_ROUTE,
    DROP_REASON_NO_TUNNEL, DROP_REASON_RATE_LIMITED; lia).
Qed.

Lemma drop_accounted now d0 d h si di reason :
  reason ∈ [DROP_REASON_POLICY_DENIED; DROP_REASON_NO_IDENTITY; DROP_REASON_NO_ROUTE;
            DROP_REASON_NO_TUNNEL; DROP_REASON_RATE_LIMITED] ->
  DROP_COUNTERS d = DROP_COUNTERS d0 ->
  accounted d0 (drop_packet now d h si di reason).1 (drop_packet now d h si di reason).2.
Proof. intros Hr E. by apply (shot_accounted d0 d _ reason); [..|apply flow_event_counters]. Qed.

Ltac one_of := rewrite !elem_of_cons; tauto.

Lemma enforce_accounted t now d0 d h si di :
  DROP_COUNTERS d = DROP_COUNTERS d0 -> accounted d0 (enforce t now d h si di).1 (enforce t now d h si di).2.
Proof.
  intros E. unfold enforce. destruct (decide_policy _ _ _ _ _); [apply drop_accounted; [one_of|done]| |].
  - apply pass_accounted; [done|]. cbn. unfold allow_event. by rewrite flow_event_counters.
  - case_match; [apply drop_accounted; [one_of|done]|by apply pass_accounted].
Qed.

Lemma to_pod_accounted t d d' ip : DROP_COUNTERS d' = DROP_COUNTERS d -> accounted d d' (to_pod t ip).
Proof. intros. apply pass_accounted; [|done]. unfold to_pod. by case_match; [case_match|]. Qed.

Lemma tunnel_accounted t now d h si di :
  accounted d (enforce_tunnel_policy t now d h si di).1 (enforce_tunnel_policy t now d h si di).2.
Proof.
  unfold enforce_tunnel_policy. repeat case_match; try (apply drop_accounted; [one_of|done]).
  all: apply to_pod_accounted; cbn; unfold allow_event; by rewrite ?flow_event_counters.
Qed.

Lemma check_rate_limit_counters t now d ip : DROP_COUNTERS (check_rate_limit t now d ip).1 = DROP_COUNTERS d.
Proof. unfold check_rate_limit. by repeat case_match. Qed.

Lemma track_counters now d ip port fl : DROP_COUNTERS (track_backend_health now d ip port fl) = DROP_COUNTERS d.
Proof. unfold track_backend_health. by repeat case_match. Qed.

Lemma service_lookup_counters t d dip dp pr sip sp sc :
  DROP_COUNTERS (service_lookup t d dip dp pr sip sp sc).1 = DROP_COUNTERS d.
Proof.
  unfold service_lookup. repeat case_match; try done.
  all: match goal with H : select_backend _ _ _ _ = (?d1, _) |- _ =>
    assert (DROP_COUNTERS d1 = DROP_COUNTERS d) by (unfold select_backend in H; repeat case_match; by simplify_eq) end; done.
Qed.

Lemma ingress_accounted ihl t now d s :
  let '(d', _, r) := tc_ingress ihl t now d s in accounted d d' r.
Proof.
  unfold tc_ingress, try_tc_ingress. destruct (parse_packet ihl (data s)); [by apply pass_accounted..|].
  pose proof (check_rate_limit_counters t now d (h_src_ip h)) as Hc. destruct (check_rate_limit _ _ _ _) as [d1 ok]. cbn [fst] in Hc.
  destruct ok; cbn [negb]; [|by apply (shot_accounted d d1 _ DROP_REASON_RATE_LIMITED); [one_of|..]].
  set (d2 := if _ =? 6 then _ else _).
  assert (DROP_COUNTERS d2 = DROP_COUNTERS d) as E by (subst d2; case_match; by rewrite ?track_counters).
  destruct (get_config _ _ =? _); [by apply pass_accounted|]. destruct (lookup_identity _ _) as [[si ep]|].
  - pose proof (enforce_accounted t now d d2 h si (identity_or_0 t (h_dst_ip h)) E) as H.
    by destruct (enforce _ _ _ _ _ _).
  - destruct (default_deny t); [|by apply pass_accounted].
    by apply (drop_accounted now d d2 h 0 0 DROP_REASON_NO_IDENTITY); [one_of|].
Qed.

Lemma egress_accounted ihl tok t now d s :
  let '(d', _, r) := tc_egress ihl tok t now d s in accounted d d' r.
Proof.
  unfold tc_egress, try_tc_egress, egress_overlay, egress_unknown. destruct (parse_packet ihl (data s)); [by apply pass_accounted..|].
  assert (forall si di, accounted d (allow_event now d h si di) (Act TC_ACT_OK)) as Hallow
    by (intros; apply pass_accounted; [done|apply flow_event_counters]).
  assert (forall si di reason, reason ∈ [DROP_REASON_POLICY_DENIED; DROP_REASON_NO_IDENTITY; DROP_REASON_NO_ROUTE;
            DROP_REASON_NO_TUNNEL; DROP_REASON_RATE_LIMITED] ->
    accounted d (drop_packet now d h si di reason).1 (drop_packet now d h si di reason).2) as Hdrop
    by (intros; by apply drop_accounted).
  destruct (lookup_identity _ (h_dst_ip h)) as [[di ep]|].
  - pose proof (enforce_accounted t now d d h (identity_or_0 t (h_src_ip h)) di eq_refl) as H.
    destruct (enforce _ _ _ _ _ _). destruct (_ || _); [done|]. destruct (get_config _ _ =? _); [|done].
    destruct (TUNNELS t !! _); [|apply Hdrop; one_of].
    match goal with |- context [if ?b then _ else _] => destruct b end; [apply Hdrop; one_of|].
    destruct tok; cbn [negb]; [|by apply (shot_accounted d d _ DROP_REASON_NO_TUNNEL); [one_of|..]].
    apply pass_accounted; [done|apply flow_event_counters].
  - destruct (is_cluster_ip _ _); cbn [negb].
    + destruct (get_config _ _ =? _); [apply Hdrop; one_of|by apply pass_accounted].
    + destruct (check_egress_policy _ _ _) as [ok ?]. destruct ok; cbn [negb]; [apply Hallow|apply Hdrop; one_of].
Qed.

Lemma host_accounted ihl l3 l4 t d s :
  let '(d', _, r) := tc_host_ingress ihl l3 l4 t d s in accounted d d' r.
Proof.
  unfold tc_host_ingress, try_tc_host_ingress. destruct (get_config _ _ =? 0); [by apply pass_accounted|].
  destruct (parse_packet ihl (data s)); [by apply pass_accounted..|]. destruct (CONNTRACK d !! _); [by apply pass_accounted|].
  pose proof (service_lookup_counters t d 0 (h_dst_port h) (h_protocol h) (h_src_ip h) (h_src_port h) SVC_SCOPE_NODE_PORT) as H1.
  destruct (service_lookup _ d 0 _ _ _ _ _) as [d1 [[[[? ?] ?] ?]|]]; [by apply pass_accounted|]. cbn [fst] in H1.
  pose proof (service_lookup_counters t d1 (h_dst_ip h) (h_dst_port h) (h_protocol h) (h_src_ip h) (h_src_port h) SVC_SCOPE_EXTERNAL_IP) as H2.
  destruct (service_lookup _ d1 _ _ _ _ _ _) as [d2 [[[[? ?] ?] ?]|]]; cbn [fst] in H2; (apply pass_accounted; [done|congruence]).
Qed.

(** * Rewriting packets *)

(** What the kernel documents of its checksum helpers: on a field inside the packet
    they succeed and write nothing but the two bytes of the field. *)
Definition csum_helper (f : list Z -> Z -> Z -> Z -> Z -> option (list Z)) : Prop :=
  forall p off old new fl, 0 <= off -> off + 2 <= Z.of_nat (length p) ->
    exists p', f p off old new fl = Some p' /\ length p' = length p
      /\ forall i : nat, Z.of_nat i <> off -> Z.of_nat i <> off + 1 -> p' !! i = p !! i.

Lemma store_spec p off b :
  0 <= off -> off + Z.of_nat (length b) <= Z.of_nat (length p) ->
  exists p', store p off b = Some p' /\ length p' = length p
    /\ (forall i : nat, off <= Z.of_nat i < off + Z.of_nat (length b) -> p' !! i = b !! (i - Z.to_nat off)%nat)
    /\ (forall i : nat, ~ (off <= Z.of_nat i < off + Z.of_nat (length b)) -> p' !! i = p !! i).
Proof.
  intros H0 H1. unfold store. rewrite (proj2 (Z.leb_le _ _)) by done. eexists. split; [reflexivity|].
  assert (length (take (Z.to_nat off) p) = Z.to_nat off) as Ht by (rewrite length_take; lia).
  split; [rewrite !length_app, length_drop, Ht; lia|]. split; intros i Hi.
  - rewrite lookup_app_r, Ht by lia. rewrite lookup_app_l by lia. done.
  - destruct (decide (Z.of_nat i < off)).
    + rewrite lookup_app_l by lia. by rewrite lookup_take_lt by lia.
    + rewrite lookup_app_r, lookup_app_r, Ht, lookup_drop by lia. f_equal. lia.
Qed.

(** The bytes a translation may change: the address at [ip_at], the port at
    [port_at], and the checksums. *)
Definition nat_bytes (ip_at port_at csum : Z) (i : Z) : Prop :=
  (ip_at <= i < ip_at + 4) \/ (port_at <= i < port_at + 2) \/ (24 <= i < 26) \/ (csum <= i < csum + 2).

Definition rewritten (p p' : list Z) (ip_at port_at csum ip port : Z) : Prop :=
  length p' = length p
  /\ (forall j : nat, (j < 4)%nat -> p' !! (Z.to_nat ip_at + j)%nat = ip_bytes ip !! j)
  /\ (forall j : nat, (j < 2)%nat -> p' !! (Z.to_nat port_at + j)%nat = port_bytes port !! j)
  /\ (forall i : nat, ~ nat_bytes ip_at port_at csum (Z.of_nat i) -> p' !! i = p !! i).

Lemma perform_nat_spec l3 l4 ip_off port_off pkt l4_offset protocol old_ip new_ip old_port new_port :
  csum_helper l3 -> csum_helper l4 -> ip_off = 12 \/ ip_off = 16 -> port_off = 0 \/ port_off = 2 ->
  protocol = 6 \/ protocol = 17 -> ETH_HLEN + 20 <= l4_offset ->
  l4_csum_offset l4_offset protocol + 2 <= Z.of_nat (length pkt) ->
  exists pkt', perform_nat l3 l4 ip_off port_off pkt l4_offset protocol old_ip new_ip old_port new_port = (pkt', true)
    /\ rewritten pkt pkt' (ETH_HLEN + ip_off) (l4_offset + port_off) (l4_csum_offset l4_offset protocol) new_ip new_port.
Proof.
  intros H3 H4 Hi Hp Hpr Hoff Hlen. unfold perform_nat. set (c := l4_csum_offset l4_offset protocol) in *.
  assert (l4_offset + 6 <= c) as Hc by (subst c; unfold l4_csum_offset; case_match; lia).
  replace ((protocol =? 6) || (protocol =? 17)) with true by (destruct Hpr as [-> | ->]; done).
  unfold ETH_HLEN in *. cbn [write_steps app].
  edestruct (H3 pkt (14 + 10)) as (p1 & -> & L1 & E1); [lia..|].
  destruct (store_spec p1 (14 + ip_off) (ip_bytes new_ip)) as (p2 & -> & L2 & I2 & E2); [lia|cbn [ip_bytes length]; lia|].
  edestruct (H4 p2 c) as (p3 & -> & L3 & E3); [lia..|]. edestruct (H4 p3 c) as (p4 & -> & L4 & E4); [lia..|].
  destruct (store_spec p4 (l4_offset + port_off) (port_bytes new_port)) as (p5 & -> & L5 & I5 & E5); [lia|cbn [port_bytes length]; lia|].
  cbn [ip_bytes port_bytes length] in I2, E2, I5, E5. change (Z.of_nat 4) with 4 in *. change (Z.of_nat 2) with 2 in *.
  exists p5. split; [done|]. split; [lia|]. split; [|split].
  - intros j Hj. rewrite E5, E4, E3, I2 by lia. f_equal. lia.
  - intros j Hj. rewrite I5 by lia. f_equal. lia.
  - unfold nat_bytes. intros i Hn. rewrite E5, E4, E3, E2, E1 by lia. done.
Qed.

(** * Policy decisions *)

(** The table holds the two actions only. *)
Definition actions_known (t : tables) : Prop :=
  map_Forall (fun _ a => a = ACTION_DENY \/ a = ACTION_ALLOW) (POLICIES t).

(** Whether the table and the default setting deny a flow. *)
Definition denies (t : tables) (src_identity dst_identity : Z) (h : headers) : bool :=
  verdict (POLICIES t) (default_deny t) src_identity dst_identity (h_protocol h) (h_dst_port h) =? ACTION_DENY.

Lemma check_policy_known t src dst proto port a :
  actions_known t -> check_policy (POLICIES t) src dst proto port = Some a -> a = ACTION_DENY \/ a = ACTION_ALLOW.
Proof.
  intros Hk. rewrite check_policy_first. intros (l1 & k & l2 & _ & Hl & _)%first_match_Some. exact (Hk _ _ Hl).
Qed.

Lemma decide_policy_denies t src dst h :
  actions_known t ->
  denies t src dst h
  = match decide_policy t src dst (h_protocol h) (h_dst_port h) with
    | Denied => true | Allowed => false | NoEntry => default_deny t end.
Proof.
  intros Hk. unfold denies, verdict, decide_policy.
  destruct (check_policy _ _ _ _ _) as [a|] eqn:E; [|by destruct (default_deny t)].
  by destruct (check_policy_known _ _ _ _ _ _ Hk E) as [-> | ->].
Qed.

Lemma enforce_verdict t now d h src dst :
  actions_known t -> (enforce t now d h src dst).2 = Act (if denies t src dst h then TC_ACT_SHOT else TC_ACT_OK).
Proof.
  intros Hk. rewrite decide_policy_denies by done. unfold enforce. destruct (decide_policy _ _ _ _ _); try done.
  by destruct (default_deny t).
Qed.

(** Where tc_egress sends a packet for a known endpoint that policy allows: up the
    stack, or for a pod of another node in overlay mode into the tunnel of its node,
    if there is one and bpf_skb_set_tunnel_key succeeds. *)
Definition egress_delivery (tunnel_ok : bool) (t : tables) (ep : EndpointValue) : tc_result :=
  if (ep_node_ip ep =? wrap32 (get_config t CONFIG_KEY_NODE_IP)) || (ep_node_ip ep =? 0)
     || negb (get_config t CONFIG_KEY_MODE =? MODE_OVERLAY)
  then Act TC_ACT_OK
  else match TUNNELS t !! ep_node_ip ep with
       | Some tn => if tunnel_ok then Redirect (tun_ifindex tn) else Act TC_ACT_SHOT
       | None => Act TC_ACT_SHOT
       end.

(** Where it sends a packet for an address that is no endpoint: the policy table has
    no say, only the egress table for addresses outside the cluster. *)
Definition egress_stray (t : tables) (src_identity : Z) (h : headers) : tc_result :=
  if is_cluster_ip t (h_dst_ip h)
  then Act (if get_config t CONFIG_KEY_MODE =? MODE_OVERLAY then TC_ACT_SHOT else TC_ACT_OK)
  else Act (if (check_egress_policy t src_identity (h_dst_ip h)).1 then TC_ACT_OK else TC_ACT_SHOT).

Lemma egress_verdict ihl tunnel_ok t now d s h :
  parse_packet ihl (data s) = IPv4 h -> actions_known t ->
  (tc_egress ihl tunnel_ok t now d s).2
  = match ENDPOINTS t !! h_dst_ip h with
    | Some ep => if denies t (identity_or_0 t (h_src_ip h)) (identity ep) h then Act TC_ACT_SHOT else egress_delivery tunnel_ok t ep
    | None => egress_stray t (identity_or_0 t (h_src_ip h)) h
    end.
Proof.
  intros Hp Hk. unfold tc_egress, try_tc_egress. rewrite Hp. unfold lookup_identity at 1.
  destruct (ENDPOINTS t !! h_dst_ip h) as [ep|]; cbn [fmap option_fmap option_map].
  - pose proof (enforce_verdict t now d h (identity_or_0 t (h_src_ip h)) (identity ep) Hk) as Hv.
    destruct (enforce _ _ _ _ _ _) as [d1 r1]. cbn [snd] in Hv. subst r1. unfold egress_delivery, egress_overlay.
    destruct (_ || (ep_node_ip ep =? 0)); cbn [orb]; [by destruct (denies _ _ _ _)|].
    destruct (get_config _ _ =? _); cbn [negb]; [|by destruct (denies _ _ _ _)].
    rewrite <- decide_policy_denies by done. destruct (TUNNELS t !! _), tunnel_ok; by destruct (denies _ _ _ _).
  - unfold egress_unknown, egress_stray. destruct (is_cluster_ip _ _); cbn [negb]; [by destruct (_ =? _)|].
    by destruct (check_egress_policy _ _ _) as [[] ?].
Qed.

Lemma tunnel_verdict ihl l3 l4 t now d s h :
  parse_packet ihl (data s) = IPv4 h -> actions_known t ->
  (tc_tunnel_ingress ihl l3 l4 t now d s).2
  = let src_identity := identity_or_0 t (h_src_ip h) in
    if (if src_identity =? 0 then default_deny t else denies t src_identity (identity_or_0 t (h_dst_ip h)) h)
    then Act TC_ACT_SHOT else to_pod t (h_dst_ip h).
Proof.
  intros Hp Hk. unfold tc_tunnel_ingress, try_tc_tunnel_ingress. cbn [data]. rewrite Hp. cbv zeta.
  rewrite decide_policy_denies by done. unfold enforce_tunnel_policy. destruct (_ =? 0); [by destruct (default_deny t)|].
  destruct (decide_policy _ _ _ _ _); try done. by destruct (default_deny t).
Qed.

Lemma ingress_verdict ihl t now d s h :
  parse_packet ihl (data s) = IPv4 h -> actions_known t ->
  (tc_ingress ihl t now d s).2
  = Act (if negb (check_rate_limit t now d (h_src_ip h)).2 then TC_ACT_SHOT
         else if get_config t CONFIG_KEY_MODE =? MODE_OVERLAY then TC_ACT_OK
         else if match ENDPOINTS t !! h_src_ip h with
                 | Some ep => denies t (identity ep) (identity_or_0 t (h_dst_ip h)) h
                 | None => default_deny t
                 end then TC_ACT_SHOT else TC_ACT_OK).
Proof.
  intros Hp Hk. unfold tc_ingress, try_tc_ingress. rewrite Hp. destruct (check_rate_limit _ _ _ _) as [d1 []]; [|done]. cbn [negb snd].
  destruct (_ =? MODE_OVERLAY); [done|]. unfold lookup_identity at 1.
  destruct (ENDPOINTS t !! h_src_ip h) as [ep|]; cbn [fmap option_fmap option_map]; [|by destruct (default_deny t)].
  match goal with |- context [enforce t now ?d2 h ?a ?b] => pose proof (enforce_verdict t now d2 h a b Hk) as Hv;
    destruct (enforce t now d2 h a b) end. exact Hv.
Qed.

(** * Theorems *)

(** A TCP packet without options, with the SYN flag. *)
Definition tcp_packet (src_ip dst_ip src_port dst_port : Z) : list Z :=
  replicate 12 0 ++ [8; 0] ++ [69; 0; 0; 40; 0; 0; 0; 0; 64; 6; 0; 0] ++ ip_bytes src_ip ++ ip_bytes dst_ip
  ++ port_bytes src_port ++ port_bytes dst_port ++ [0; 0; 0; 0; 0; 0; 0; 0; 80; 2; 0; 0; 0; 0; 0; 0].

Definition ihl_field (b : Z) : Z := Z.land b 15.

Definition pod_ip (n : Z) : Z := 10 * 2 ^ 24 + 244 * 2 ^ 16 + n.

Definition node_tables (pol : policies) (config : gmap Z Z) : tables :=
  mkTables {[ pod_ip 1 := mkEndpointValue 11 [] 100 0; pod_ip 2 := mkEndpointValue 12 [] 200 0 ]} pol ∅ ∅
    config ∅ ∅ ∅ (mkRateLimit 0 0 0) ∅ ∅.

Definition deny_200 : policies := {[ mkPKey 0 200 0 0 := ACTION_DENY ]}.

Definition headers_12 (dst_ip : Z) : headers := mkHeaders (pod_ip 1) dst_ip 6 34 40 40000 80 2.

(** A checksum helper that adds the difference to the field without folding. *)
Definition bump (p : list Z) (off old new fl : Z) : option (list Z) := store p off (port_bytes (new - old)).

(** C3: What the programs do with an IPv4 packet, when the policy table holds no other
    actions than allow and deny.  Leaving a pod for a known endpoint, it is dropped
    exactly if the verdict of the table for the two identities is deny, or, for a pod
    of another node in overlay mode, if the node has no tunnel or the tunnel cannot
    be set; the verdict has no say on packets for other addresses, which outside the
    cluster follow the egress table.  Coming from the tunnel it is dropped exactly if
    the verdict is deny, or without a source identity if the default is deny, and
    otherwise redirected to the pod's interface.  At a pod's interface it is dropped
    exactly if the rate limiter refuses it or, in native mode only, if the verdict is
    deny or, from an unknown source, the default is. *)
Theorem programs_enforce_verdict ihl l3 l4 tunnel_ok t now d s h :
  parse_packet ihl (data s) = IPv4 h -> actions_known t ->
  let src_identity := identity_or_0 t (h_src_ip h) in
  let dst_identity := identity_or_0 t (h_dst_ip h) in
  (tc_egress ihl tunnel_ok t now d s).2
  = match ENDPOINTS t !! h_dst_ip h with
    | Some ep => if denies t src_identity (identity ep) h then Act TC_ACT_SHOT else egress_delivery tunnel_ok t ep
    | None => egress_stray t src_identity h
    end
  /\ (tc_tunnel_ingress ihl l3 l4 t now d s).2
     = (if (if src_identity =? 0 then default_deny t else denies t src_identity dst_identity h)
        then Act TC_ACT_SHOT else to_pod t (h_dst_ip h))
  /\ (tc_ingress ihl t now d s).2
     = Act (if negb (check_rate_limit t now d (h_src_ip h)).2 then TC_ACT_SHOT
            else if get_config t CONFIG_KEY_MODE =? MODE_OVERLAY then TC_ACT_OK
            else if match ENDPOINTS t !! h_src_ip h with
                    | Some ep => denies t (identity ep) dst_identity h
                    | None => default_deny t
                    end then TC_ACT_SHOT else TC_ACT_OK).
Proof.
  intros Hp Hk. split; [by apply egress_verdict|]. split; [by apply tunnel_verdict|by apply ingress_verdict].
Qed.

(** In a native cluster a deny entry for identity 200 stops a packet at all three. *)
Lemma programs_enforce_verdict_witness :
  let t := node_tables deny_200 {[ CONFIG_KEY_MODE := MODE_NATIVE ]} in
  let s := mkSkb (tcp_packet (pod_ip 1) (pod_ip 2) 40000 80) 0 None in
  parse_packet ihl_field (data s) = IPv4 (headers_12 (pod_ip 2))
  /\ (tc_egress ihl_field true t 0 fresh_dynamic s).2 = Act TC_ACT_SHOT
  /\ (tc_tunnel_ingress ihl_field bump bump t 0 fresh_dynamic s).2 = Act TC_ACT_SHOT
  /\ (tc_ingress ihl_field t 0 fresh_dynamic s).2 = Act TC_ACT_SHOT.
Proof.
  intros t s. split; [vm_compute; reflexivity|].
  destruct (programs_enforce_verdict ihl_field bump bump true t 0 fresh_dynamic s (headers_12 (pod_ip 2))) as (H1 & H2 & H3).
  - vm_compute. reflexivity.
  - intros k a Ha. change (({[ mkPKey 0 200 0 0 := ACTION_DENY ]} : policies) !! k = Some a) in Ha. apply lookup_singleton_Some in Ha as [_ <-]. by left.
  - split; [rewrite H1|split; [rewrite H2|rewrite H3]]; vm_compute; reflexivity.
Defined.

(** Every program that drops a packet adds one to exactly one drop counter, and
    no counter changes when a packet passes. *)
Theorem drops_counted ihl l3 l4 tunnel_ok t now d s :
  (let '(d', _, r) := tc_ingress ihl t now d s in accounted d d' r)
  /\ (let '(d', _, r) := tc_egress ihl tunnel_ok t now d s in accounted d d' r)
  /\ (let '(d', _, r) := tc_tunnel_ingress ihl l3 l4 t now d s in accounted d d' r)
  /\ (let '(d', _, r) := tc_host_ingress ihl l3 l4 t d s in accounted d d' r).
Proof.
  split; [apply ingress_accounted|]. split; [apply egress_accounted|]. split; [|apply host_accounted].
  unfold tc_tunnel_ingress, try_tc_tunnel_ingress. cbn [data].
  destruct (parse_packet ihl (data s)); [by apply pass_accounted..|].
  pose proof (tunnel_accounted t now d h (identity_or_0 t (h_src_ip h)) (identity_or_0 t (h_dst_ip h))) as H.
  by destruct (enforce_tunnel_policy _ _ _ _ _ _).
Qed.

(** The translations of a TCP or UDP packet succeed, write the new address and
    port in network order where the header has the destination (or the source),
    and change nothing else but the checksums. *)
Theorem translations_rewrite l3 l4 pkt l4_offset protocol old_ip new_ip old_port new_port :
  csum_helper l3 -> csum_helper l4 -> protocol = 6 \/ protocol = 17 -> ETH_HLEN + 20 <= l4_offset ->
  l4_csum_offset l4_offset protocol + 2 <= Z.of_nat (length pkt) ->
  (exists pkt', perform_dnat l3 l4 pkt l4_offset protocol old_ip new_ip old_port new_port = (pkt', true)
     /\ rewritten pkt pkt' 30 (l4_offset + 2) (l4_csum_offset l4_offset protocol) new_ip new_port)
  /\ (exists pkt', perform_snat l3 l4 pkt l4_offset protocol old_ip new_ip old_port new_port = (pkt', true)
     /\ rewritten pkt pkt' 26 l4_offset (l4_csum_offset l4_offset protocol) new_ip new_port).
Proof.
  intros. split; [apply perform_nat_spec; auto|]. edestruct (perform_nat_spec l3 l4 12 0 pkt l4_offset protocol old_ip new_ip old_port new_port) as (p & E & R); auto.
  rewrite Z.add_0_r in R. by exists p.
Qed.

Lemma bump_helper : csum_helper bump.
Proof.
  intros p off old new fl H0 H1. destruct (store_spec p off (port_bytes (new - old))) as (p' & E & L & _ & O); [done|cbn [port_bytes length]; lia|].
  exists p'. split; [done|]. split; [done|]. intros i ? ?. apply O. cbn [port_bytes length]. lia.
Qed.

Lemma translations_rewrite_witness :
  exists pkt', perform_dnat bump bump (tcp_packet (pod_ip 1) (pod_ip 2) 40000 80) 34 6 (pod_ip 2) (pod_ip 3) 80 8080 = (pkt', true)
    /\ rewritten (tcp_packet (pod_ip 1) (pod_ip 2) 40000 80) pkt' 30 36 50 (pod_ip 3) 8080.
Proof.
  destruct (translations_rewrite bump bump (tcp_packet (pod_ip 1) (pod_ip 2) 40000 80) 34 6 (pod_ip 2) (pod_ip 3) 80 8080) as [H _];
    [apply bump_helper|apply bump_helper|by left|vm_compute; discriminate|vm_compute; discriminate|exact H].
Defined.

(** Connections to an external address break after the first packet.  The first
    packet is sent to a backend and leaves a tracking entry under its own
    addresses, if the LRU map stores it; the next packet of the same flow finds that entry, is taken for a
    reply, and has its source overwritten with the external address instead of its
    destination with the backend. *)
Theorem external_flow_breaks ihl l3 l4 t d s h d1 bip bport oip oport :
  csum_helper l3 -> csum_helper l4 -> parse_packet ihl (data s) = IPv4 h ->
  h_protocol h = 6 \/ h_protocol h = 17 -> ETH_HLEN + 20 <= h_l4_offset h ->
  l4_csum_offset (h_l4_offset h) (h_protocol h) + 2 <= Z.of_nat (length (data s)) ->
  h_src_ip h <> h_dst_ip h -> h_dst_ip h <> 0 -> get_config t CONFIG_KEY_L4LB_ENABLED <> 0 ->
  CONNTRACK d !! mkCtKey (h_src_ip h) (h_dst_ip h) (h_src_port h) (h_dst_port h) (h_protocol h) = None ->
  keeps (mkCtKey (h_src_ip h) (h_dst_ip h) (h_src_port h) (h_dst_port h) (h_protocol h)) d ->
  service_lookup t d 0 (h_dst_port h) (h_protocol h) (h_src_ip h) (h_src_port h) SVC_SCOPE_NODE_PORT = (d, None) ->
  service_lookup t d (h_dst_ip h) (h_dst_port h) (h_protocol h) (h_src_ip h) (h_src_port h) SVC_SCOPE_EXTERNAL_IP
    = (d1, Some (bip, bport, oip, oport)) ->
  exists p1 p2,
    tc_host_ingress ihl l3 l4 t d s = (d1, set_data s p1, Act TC_ACT_OK)
    /\ rewritten (data s) p1 30 (h_l4_offset h + 2) (l4_csum_offset (h_l4_offset h) (h_protocol h)) bip bport
    /\ tc_host_ingress ihl l3 l4 t d1 s = (d1, set_data s p2, Act TC_ACT_OK)
    /\ rewritten (data s) p2 26 (h_l4_offset h) (l4_csum_offset (h_l4_offset h) (h_protocol h)) (h_dst_ip h) (h_dst_port h).
Proof.
  intros H3 H4 Hp Hpr Ho Hl Hne Hd0 Hen Hct Hk Hnp Hext. unfold tc_host_ingress, try_tc_host_ingress.
  rewrite (proj2 (Z.eqb_neq _ 0)), Hp, Hct, Hnp, Hext by done.
  destruct (perform_nat_spec l3 l4 16 2 (data s) (h_l4_offset h) (h_protocol h) (h_dst_ip h) bip (h_dst_port h) bport)
    as (p1 & E1 & R1); auto.
  destruct (perform_nat_spec l3 l4 12 0 (data s) (h_l4_offset h) (h_protocol h) (h_src_ip h) (h_dst_ip h) (h_src_port h) (h_dst_port h))
    as (p2 & E2 & R2); auto. rewrite Z.add_0_r in R2.
  assert (exists ct, CONNTRACK d1 !! mkCtKey (h_src_ip h) (h_dst_ip h) (h_src_port h) (h_dst_port h) (h_protocol h) = Some ct /\
    origin_ip ct = h_dst_ip h /\ origin_port ct = h_dst_port h) as (ct & Hct1 & Hoip & Hop).
  { destruct (answered_is_tracked d (mkLookup t (h_dst_ip h) (h_dst_port h) (h_protocol h) (h_src_ip h) (h_src_port h) SVC_SCOPE_EXTERNAL_IP)
      d1 (bip, bport, oip, oport) Hk Hne Hext) as (_ & ct & Hct1 & E). exists ct. split; [exact Hct1|]. injection E as -> -> -> ->.
    unfold service_lookup in Hext. rewrite (proj2 (Z.eqb_neq _ 0)), Hct in Hext by done. repeat case_match; simplify_eq; done. }
  exists p1, p2. unfold perform_dnat. rewrite E1, Hct1. split; [done|]. split; [done|]. split; [|done].
  unfold snat_to_origin. rewrite Hct1. rewrite Hoip, Hop, (proj2 (Z.eqb_neq _ 0)) by done. cbn [negb].
  unfold perform_snat. by rewrite E2.
Qed.

(** The state after the first packet of a flow to the external address. *)
Definition after_first : dynamic :=
  (service_lookup (lb_tables LB_ALG_RANDOM) fresh_dynamic 167772170 80 6 134744072 40000 SVC_SCOPE_EXTERNAL_IP).1.

Lemma first_lookup :
  service_lookup (lb_tables LB_ALG_RANDOM) fresh_dynamic 167772170 80 6 134744072 40000 SVC_SCOPE_EXTERNAL_IP
  = (after_first, Some (3232235777 + hash_5tuple 134744072 167772170 40000 80 6 mod 2, 8080, 167772170, 80)).
Proof. unfold after_first. vm_compute. reflexivity. Qed.

Lemma first_packet :
  parse_packet ihl_field (tcp_packet 134744072 167772170 40000 80) = IPv4 (mkHeaders 134744072 167772170 6 34 40 40000 80 2)
  /\ service_lookup (lb_tables LB_ALG_RANDOM) fresh_dynamic 0 80 6 134744072 40000 SVC_SCOPE_NODE_PORT = (fresh_dynamic, None).
Proof. split; vm_compute; reflexivity. Qed.

Lemma external_flow_breaks_witness :
  exists p1 p2, let s := mkSkb (tcp_packet 134744072 167772170 40000 80) 0 None in
    let bip := 3232235777 + hash_5tuple 134744072 167772170 40000 80 6 mod 2 in
    tc_host_ingress ihl_field bump bump (lb_tables LB_ALG_RANDOM) fresh_dynamic s = (after_first, set_data s p1, Act TC_ACT_OK)
    /\ rewritten (data s) p1 30 (34 + 2) (l4_csum_offset 34 6) bip 8080
    /\ tc_host_ingress ihl_field bump bump (lb_tables LB_ALG_RANDOM) after_first s = (after_first, set_data s p2, Act TC_ACT_OK)
    /\ rewritten (data s) p2 26 34 (l4_csum_offset 34 6) 167772170 80.
Proof.
  apply (external_flow_breaks ihl_field bump bump (lb_tables LB_ALG_RANDOM) fresh_dynamic
    (mkSkb (tcp_packet 134744072 167772170 40000 80) 0 None) (mkHeaders 134744072 167772170 6 34 40 40000 80 2)
    after_first _ 8080 167772170 80); [apply bump_helper|apply bump_helper|apply first_packet|by left| | |done|done| |done|apply Forall_nil_2|
    apply first_packet|apply first_lookup]; vm_compute; discriminate.
Defined.

(** Traffic to addresses outside the cluster is not subject to the policy
    table.  Unless an egress CIDR policy names the pod's identity it passes,
    whatever entries the table has and whatever the default setting is. *)
Theorem external_egress_not_policed ihl tunnel_ok t now d s h :
  parse_packet ihl (data s) = IPv4 h -> ENDPOINTS t !! h_dst_ip h = None -> is_cluster_ip t (h_dst_ip h) = false ->
  (forall k v, EGRESS_POLICIES t !! k = Some v -> eg_src_identity k <> identity_or_0 t (h_src_ip h)) ->
  tc_egress ihl tunnel_ok t now d s
  = (allow_event now d h (identity_or_0 t (h_src_ip h)) 0, s, Act TC_ACT_OK).
Proof.
  intros Hp He Hc Hk. unfold tc_egress, try_tc_egress, egress_overlay, egress_unknown. rewrite Hp. unfold lookup_identity at 1. rewrite He. cbn [fmap option_fmap option_map].
  rewrite Hc. cbn [negb].
  assert (check_egress_policy t (identity_or_0 t (h_src_ip h)) (h_dst_ip h) = (true, 0)) as ->; [|done].
  unfold check_egress_policy. generalize [32; 24; 16; 8; 0]. intros plens. induction plens as [|p plens IH]; [done|].
  cbn [check_prefixes]. destruct (EGRESS_POLICIES t !! _) eqn:E; [|done]. by apply Hk in E.
Qed.

Definition deny_from_100 : tables := node_tables {[ mkPKey 100 0 0 0 := ACTION_DENY ]} {[ CONFIG_KEY_DEFAULT_DENY := 1 ]}.

Lemma external_egress_not_policed_witness :
  denies deny_from_100 100 0 (headers_12 134744072) = true
  /\ tc_egress ihl_field true deny_from_100 0 fresh_dynamic (mkSkb (tcp_packet (pod_ip 1) 134744072 40000 80) 0 None)
     = (allow_event 0 fresh_dynamic (headers_12 134744072) 100 0, mkSkb (tcp_packet (pod_ip 1) 134744072 40000 80) 0 None, Act TC_ACT_OK).
Proof.
  split; [vm_compute; reflexivity|].
  apply (external_egress_not_policed ihl_field true deny_from_100 0 fresh_dynamic _ (headers_12 134744072));
    [vm_compute; reflexivity|vm_compute; reflexivity|vm_compute; reflexivity|].
  intros k v Hk. apply (lookup_empty_Some k v) in Hk. destruct Hk.
Defined.

(** A deny entry for all sources does not stop unknown ones.  Without the
    default-deny setting, a packet whose source is not a known endpoint enters the
    pod, from the tunnel or in native mode, without any lookup in the policy
    table. *)
Theorem unknown_source_not_policed ihl l3 l4 t now d s h :
  parse_packet ihl (data s) = IPv4 h -> ENDPOINTS t !! h_src_ip h = None -> default_deny t = false ->
  (tc_tunnel_ingress ihl l3 l4 t now d s).2 = to_pod t (h_dst_ip h)
  /\ (rate (RL_CONFIG t) = 0 -> (tc_ingress ihl t now d s).2 = Act TC_ACT_OK).
Proof.
  intros Hp He Hd. split.
  - unfold tc_tunnel_ingress, try_tc_tunnel_ingress. cbn [data]. rewrite Hp.
    unfold identity_or_0 at 1, lookup_identity at 1. rewrite He. cbn [fmap option_fmap option_map].
    unfold enforce_tunnel_policy. cbn [Z.eqb]. by rewrite Hd.
  - intros Hr. unfold tc_ingress, try_tc_ingress. rewrite Hp. unfold check_rate_limit. rewrite Hr. cbn [negb Z.eqb].
    destruct (get_config _ _ =? MODE_OVERLAY); [done|]. unfold lookup_identity at 1. rewrite He, Hd. done.
Qed.

Lemma unknown_source_not_policed_witness :
  let t := node_tables deny_200 ∅ in
  verdict (POLICIES t) false 0 200 6 80 = ACTION_DENY
  /\ (tc_tunnel_ingress ihl_field bump bump t 0 fresh_dynamic (mkSkb (tcp_packet 134744072 (pod_ip 2) 40000 80) 0 None)).2 = Redirect 12.
Proof.
  split; [vm_compute; reflexivity|].
  rewrite (proj1 (unknown_source_not_policed ihl_field bump bump (node_tables deny_200 ∅) 0 fresh_dynamic
    (mkSkb (tcp_packet 134744072 (pod_ip 2) 40000 80) 0 None) (mkHeaders 134744072 (pod_ip 2) 6 34 40 40000 80 2)
    ltac:(vm_compute; reflexivity) ltac:(vm_compute; reflexivity) ltac:(vm_compute; reflexivity))).
  vm_compute. reflexivity.
Defined.
