(* ===== verification/EbpfSock.v ===== *)
(** The socket programs of dataplane/novanet-ebpf/src/main.rs: the ClusterIP load
    balancer on connect, sendmsg, recvmsg and getpeername, the socket-map bypass
    (sock_ops and sk_msg) and the mesh redirection (sk_lookup).  The context fields
    are the raw values the kernel hands to the program. *)

From Stdlib Require Import ZArith Lia.
From stdpp Require Import base tactics list gmap.
From S2P Require Import Prelude PolicyTable EbpfMaps EbpfHelpers EbpfTc.

(** * Socket load balancing *)

(** [bpf_sock_addr] with the cookie of its socket; [user_port] is a big-endian u16
    in a u32. *)
Record sock_addr := mkSockAddr { user_ip4 : Z; user_port : Z; cookie : Z }.

(** [u16::from_be], which on a little-endian target swaps the bytes as [to_be] does. *)
Definition from_be16 (x : Z) : Z := to_be16 x.

Definition connect_or_send (proto : Z) (t : tables) (d : dynamic) (a : sock_addr) : dynamic * sock_addr :=
  let dst_port := from_be16 (wrap16 (user_port a)) in
  match sock_service_lookup t d (user_ip4 a) dst_port proto with
  | (d, Some (bip, bport)) =>
      (insert_ORIGINS d (cookie a) (mkOrigin (user_ip4 a) dst_port proto),
       mkSockAddr bip (to_be16 bport) (cookie a))
  | (d, None) => (d, a)
  end.

Definition sock_connect4 := connect_or_send 6.
Definition sock_sendmsg4 := connect_or_send 17.

(** [sock_recvmsg4] and [sock_getpeername4] have the same body. *)
Definition restore_origin (d : dynamic) (a : sock_addr) : sock_addr :=
  match SOCK_LB_ORIGINS d !! cookie a with
  | Some o => mkSockAddr (original_ip o) (to_be16 (original_port o)) (cookie a)
  | None => a
  end.

Definition sock_recvmsg4 := restore_origin.
Definition sock_getpeername4 := restore_origin.

(** * Socket map *)

(** The fields of [bpf_sock_ops] and [sk_msg_md] that the programs read. *)
Record sock_md := mkSockMd { local_ip4 : Z; remote_ip4 : Z; local_port : Z; remote_port : Z }.

Definition md_ports (m : sock_md) : Z * Z := (wrap16 (local_port m), from_be16 (wrap16 (remote_port m))).

(** [room] tells whether the socket can be added to the hash map. *)
Definition sockops_sockmap (t : tables) (d : dynamic) (room : bool) (op : Z) (m : sock_md) : dynamic :=
  if negb (op =? 4) && negb (op =? 5) then d
  else
    let '(src_port, dst_port) := md_ports m in
    match SOCKMAP_ENDPOINTS t !! (local_ip4 m, src_port), SOCKMAP_ENDPOINTS t !! (remote_ip4 m, dst_port) with
    | Some _, Some _ =>
        if room then set_SOCK_HASH d ({[ mkSockKey (local_ip4 m) (remote_ip4 m) src_port dst_port 2 ]} ∪ SOCK_HASH d) else d
    | _, _ => d
    end.

Definition inc_stat (d : dynamic) (i : Z) : dynamic :=
  match array_get 2 0 (SOCKMAP_STATS d) i with
  | Some c => set_STATS d (<[i := wrap64 (c + 1)]> (SOCKMAP_STATS d))
  | None => d
  end.

(** The socket a message is redirected to, if any; the program answers SK_PASS. *)
Definition sk_msg_sockmap (d : dynamic) (m : sock_md) : dynamic * option SockKey :=
  let '(src_port, dst_port) := md_ports m in
  let peer_key := mkSockKey (remote_ip4 m) (local_ip4 m) dst_port src_port 2 in
  if bool_decide (peer_key ∈ SOCK_HASH d) then (inc_stat d 0, Some peer_key) else (inc_stat d 1, None).

(** * Mesh redirection *)

(** The program's answers. *)
Definition SK_PASS : Z := 0.

(** The fields of [bpf_sk_lookup]: [lu_local_ip4] is the destination address in
    network byte order, as the kernel has it, [lu_local_port] a number. *)
Record sk_lookup_md := mkSkLookup { lu_family : Z; lu_protocol : Z; lu_local_ip4 : Z; lu_local_port : Z }.

(** What the kernel hands to the program for a TCP connection to the address [ip] and
    a port: on the little-endian target the bytes of the number are reversed. *)
Definition tcp_lookup (ip port : Z) : sk_lookup_md := mkSkLookup 2 6 (to_be32 ip) port.

(** [listener port] is the socket bpf_sk_lookup_tcp finds on 127.0.0.1:port, and
    [assign] the result of bpf_sk_assign; the program returns its answer and the
    socket it has assigned. *)
Definition sk_lookup_mesh {sock} (t : tables) (listener : Z -> option sock) (assign : sock -> Z)
    (lookup : sk_lookup_md) : Z * option sock :=
  if negb (lu_family lookup =? 2) || negb (lu_protocol lookup =? 6) then (SK_PASS, None)
  else
    match MESH_SERVICES t !! (lu_local_ip4 lookup, lu_local_port lookup) with
    | None => (SK_PASS, None)
    | Some redirect_port =>
        match listener (wrap16 redirect_port) with
        | None => (SK_PASS, None)
        | Some sk => if negb (assign sk =? 0) then (SK_PASS, None) else (SK_PASS, Some sk)
        end
    end.

(** * Lemmas *)

Lemma to_be16_range p : 0 <= to_be16 p < 65536.
Proof.
  unfold to_be16, wrap8. pose proof (Z.mod_pos_bound p (2 ^ 8) ltac:(lia)).
  pose proof (Z.mod_pos_bound (Z.shiftr p 8) (2 ^ 8) ltac:(lia)). lia.
Qed.

Lemma to_be16_involutive p : 0 <= p < 65536 -> to_be16 (to_be16 p) = p.
Proof.
  intros Hp. unfold to_be16, wrap8. rewrite !Z.shiftr_div_pow2 by lia. change (2 ^ 8) with 256.
  pose proof (Z.div_mod p 256 ltac:(lia)). pose proof (Z.mod_pos_bound p 256 ltac:(lia)).
  assert (0 <= p / 256 < 256) by (split; [apply Z.div_pos|apply Z.div_lt_upper_bound]; lia).
  rewrite (Z.mod_small (p / 256)) by lia.
  replace (p mod 256 * 256 + p / 256) with (p / 256 + p mod 256 * 256) by lia.
  rewrite Z.mod_add, Z.div_add, (Z.div_small (p / 256)), (Z.mod_small (p / 256)) by lia.
  rewrite Z.add_0_l, (Z.mod_small (p mod 256)) by lia. lia.
Qed.

Lemma sock_lookup_none t d ip port proto :
  SERVICES t !! mkServiceKey ip port proto SVC_SCOPE_CLUSTER_IP = None -> sock_service_lookup t d ip port proto = (d, None).
Proof. intros H. unfold sock_service_lookup. rewrite H. by case_match. Qed.

(** * Theorems *)

(** An application does not notice the translation of its socket: after a
    connect or a sendmsg, translated or not, getpeername and recvmsg on the socket
    give the address and the port the application used, if the LRU map has stored
    the entry of the socket. *)
Theorem peer_name_restored t d a proto :
  0 <= user_port a < 65536 -> SOCK_LB_ORIGINS d !! cookie a = None -> loses (cookie a) (next_answer (LB_ANSWERS d)) = false ->
  let '(d', a') := connect_or_send proto t d a in
  sock_getpeername4 d' a' = a /\ sock_recvmsg4 d' a' = a.
Proof.
  intros Hp Ho Hlru. destruct a as [ip p c]. cbn [user_port cookie] in *. unfold connect_or_send, sock_getpeername4, sock_recvmsg4, restore_origin.
  cbn [user_ip4 user_port cookie].
  assert (SOCK_LB_ORIGINS (sock_service_lookup t d ip (from_be16 (wrap16 p)) proto).1 = SOCK_LB_ORIGINS d /\
          LB_ANSWERS (sock_service_lookup t d ip (from_be16 (wrap16 p)) proto).1 = LB_ANSWERS d) as [Hd Ha].
  { unfold sock_service_lookup, select_backend. by repeat case_match; simplify_eq. }
  destruct (sock_service_lookup _ _ _ _ _) as [d1 [[bip bport]|]]; cbn [fst] in Hd, Ha.
  - cbn [SOCK_LB_ORIGINS insert_ORIGINS cookie]. rewrite lru_insert_spared, lookup_insert_eq by by rewrite Ha. cbn [original_ip original_port].
    unfold from_be16, wrap16. rewrite Z.mod_small, to_be16_involutive by lia. done.
  - cbn [cookie]. by rewrite Hd, Ho.
Qed.

Lemma peer_name_restored_witness :
  let '(d', a') := connect_or_send 6 (lb_tables LB_ALG_RANDOM) fresh_dynamic (mkSockAddr 167772170 20480 7) in
  sock_getpeername4 d' a' = mkSockAddr 167772170 20480 7 /\ sock_recvmsg4 d' a' = mkSockAddr 167772170 20480 7.
Proof.
  apply (peer_name_restored (lb_tables LB_ALG_RANDOM) fresh_dynamic (mkSockAddr 167772170 20480 7) 6); [cbn; lia|reflexivity|reflexivity].
Defined.

(** On a little-endian machine the socket load balancer does not find the
    services it is given.  The kernel passes the address in network order and the
    program looks it up unconverted, while the tables hold addresses as numbers: a
    connect to a service address is left as it is unless the address with its
    bytes reversed is a service address too. *)
Theorem socket_lb_misses_service t d ip port c :
  (forall p, SERVICES t !! mkServiceKey (to_be32 ip) p 6 SVC_SCOPE_CLUSTER_IP = None) ->
  sock_connect4 t d (mkSockAddr (to_be32 ip) (to_be16 port) c) = (d, mkSockAddr (to_be32 ip) (to_be16 port) c).
Proof.
  intros H. unfold sock_connect4, connect_or_send. cbn [user_ip4 user_port]. by rewrite sock_lookup_none.
Qed.

(** 10.0.0.10:80 as a ClusterIP service with one backend. *)
Definition cluster_tables : tables :=
  mkTables ∅ ∅ ∅ ∅ {[ CONFIG_KEY_L4LB_ENABLED := 1 ]}
    {[ mkServiceKey 167772161 80 6 SVC_SCOPE_CLUSTER_IP := mkServiceValue 1 0 LB_ALG_RANDOM 0 0 0 ]}
    {[ 0 := mkBackendValue 3232235777 8080 0 ]} ∅ (mkRateLimit 0 0 0) ∅ ∅.

Lemma socket_lb_misses_service_witness :
  sock_service_lookup cluster_tables fresh_dynamic 167772161 80 6 = (fresh_dynamic, Some (3232235777, 8080))
  /\ sock_connect4 cluster_tables fresh_dynamic (mkSockAddr (to_be32 167772161) (to_be16 80) 7)
     = (fresh_dynamic, mkSockAddr (to_be32 167772161) (to_be16 80) 7).
Proof.
  split; [vm_compute; reflexivity|]. apply (socket_lb_misses_service cluster_tables fresh_dynamic 167772161 80 7).
  intros p. apply lookup_singleton_ne. intros [=].
Defined.

(** Two sockets of registered endpoints are joined: once the far end has
    reported its connection, a message sent by the near end is redirected to the
    far end's socket. *)
Theorem sockmap_joins_ends t d op near far v w :
  op = 4 \/ op = 5 ->
  local_ip4 far = remote_ip4 near -> remote_ip4 far = local_ip4 near ->
  md_ports far = ((md_ports near).2, (md_ports near).1) ->
  SOCKMAP_ENDPOINTS t !! (local_ip4 near, (md_ports near).1) = Some v ->
  SOCKMAP_ENDPOINTS t !! (remote_ip4 near, (md_ports near).2) = Some w ->
  (sk_msg_sockmap (sockops_sockmap t d true op far) near).2
  = Some (mkSockKey (local_ip4 far) (remote_ip4 far) (md_ports far).1 (md_ports far).2 2).
Proof.
  intros Hop El Er Ep Hv Hw. unfold sockops_sockmap. replace (negb (op =? 4) && negb (op =? 5)) with false by (destruct Hop as [-> | ->]; done).
  rewrite Ep, El, Er, Hw, Hv. unfold sk_msg_sockmap. destruct (md_ports near) as [sp dp]. cbn [fst snd].
  rewrite bool_decide_true; [done|]. cbn [SOCK_HASH set_SOCK_HASH]. set_solver.
Qed.

Definition two_ends : tables :=
  mkTables ∅ ∅ ∅ ∅ ∅ ∅ ∅ ∅ (mkRateLimit 0 0 0) {[ (1, 40000) := 1; (2, 80) := 1 ]} ∅.

Lemma sockmap_joins_ends_witness :
  (sk_msg_sockmap (sockops_sockmap two_ends fresh_dynamic true 5 (mkSockMd 2 1 80 (to_be16 40000))) (mkSockMd 1 2 40000 (to_be16 80))).2
  = Some (mkSockKey 2 1 80 40000 2).
Proof.
  exact (sockmap_joins_ends two_ends fresh_dynamic 5 (mkSockMd 1 2 40000 (to_be16 80)) (mkSockMd 2 1 80 (to_be16 40000)) 1 1
    (or_intror eq_refl) eq_refl eq_refl eq_refl eq_refl eq_refl).
Defined.
