(* ===== verification/GoUtf8.v ===== *)
(** UTF-8 as Go's [range] over a string decodes it ([utf8.DecodeRuneInString]):
    an ill-formed sequence yields U+FFFD and consumes one byte. *)

From Stdlib Require Import ZArith Lia Ascii String.
From stdpp Require Import base tactics list gmap strings fin_maps.
From S2P Require Import Prelude GoStrings.

Definition RuneError : Z := 65533.

(** The bytes of a string. *)
Fixpoint str_bytes (s : string) : list Z :=
  match s with EmptyString => [] | String c r => ord c :: str_bytes r end.

Definition in_range (lo hi x : Z) : bool := (lo <=? x) && (x <=? hi).

(** The range the second byte must lie in, by the first. *)
Definition second_range (b0 : Z) : Z * Z :=
  if b0 =? 224 then (160, 191)
  else if b0 =? 237 then (128, 159)
  else if b0 =? 240 then (144, 191)
  else if b0 =? 244 then (128, 143)
  else (128, 191).

(** The first rune of a non-empty byte sequence and the number of bytes it
    takes. *)
Definition decode_rune (b0 : Z) (rest : list Z) : Z * nat :=
  if b0 <? 128 then (b0, 1%nat)
  else
    let '(lo, hi) := second_range b0 in
    if in_range 194 223 b0 then
      match rest with
      | b1 :: _ => if in_range lo hi b1 then (Z.lor (Z.shiftl (Z.land b0 31) 6) (Z.land b1 63), 2%nat)
                   else (RuneError, 1%nat)
      | _ => (RuneError, 1%nat)
      end
    else if in_range 224 239 b0 then
      match rest with
      | b1 :: b2 :: _ =>
          if in_range lo hi b1 && in_range 128 191 b2
          then (Z.lor (Z.shiftl (Z.land b0 15) 12) (Z.lor (Z.shiftl (Z.land b1 63) 6) (Z.land b2 63)), 3%nat)
          else (RuneError, 1%nat)
      | _ => (RuneError, 1%nat)
      end
    else if in_range 240 244 b0 then
      match rest with
      | b1 :: b2 :: b3 :: _ =>
          if in_range lo hi b1 && in_range 128 191 b2 && in_range 128 191 b3
          then (Z.lor (Z.shiftl (Z.land b0 7) 18)
                 (Z.lor (Z.shiftl (Z.land b1 63) 12) (Z.lor (Z.shiftl (Z.land b2 63) 6) (Z.land b3 63))), 4%nat)
          else (RuneError, 1%nat)
      | _ => (RuneError, 1%nat)
      end
    else (RuneError, 1%nat).

(** The runes of a byte sequence; each step consumes at least a byte, so the
    length of the sequence is enough fuel. *)
Fixpoint decode_runes (fuel : nat) (l : list Z) : list Z :=
  match fuel, l with
  | S f, b0 :: rest => let '(r, n) := decode_rune b0 rest in r :: decode_runes f (drop n (b0 :: rest))
  | _, _ => []
  end.

Definition runes (s : string) : list Z := let l := str_bytes s in decode_runes (length l) l.

(** [unicode.IsControl]: C0, DEL and C1. *)
Definition IsControl (r : Z) : bool := in_range 0 31 r || in_range 127 159 r.

(** The bytes a rune takes beyond the first are not ASCII. *)
Lemma decode_rune_spec b0 rest r n :
  decode_rune b0 rest = (r, n) ->
  (1 <= n)%nat /\
  (b0 < 128 -> r = b0 /\ n = 1%nat) /\
  Forall (fun b => 128 <= b) (take (n - 1) rest).
Proof.
  unfold decode_rune. destruct (b0 <? 128) eqn:E0; to_prop.
  { intros [= <- <-]. by cbn. }
  assert (128 <= fst (second_range b0)) as Hlo by (unfold second_range; repeat case_match; cbn; lia).
  destruct (second_range b0) as [lo hi]. cbn in Hlo.
  intros H. repeat case_match; simplify_eq; cbn; split_and!; try lia; try constructor;
    unfold in_range in *; to_prop; try lia; repeat constructor; lia.
Qed.

Lemma drop_cons_pos {A} n (x : A) l : (1 <= n)%nat -> drop n (x :: l) = drop (n - 1) l.
Proof. destruct n; [lia|]. intros _. cbn. by rewrite Nat.sub_0_r. Qed.

Lemma decode_runes_ascii fuel l b :
  (length l <= fuel)%nat -> b ∈ l -> b < 128 -> b ∈ decode_runes fuel l.
Proof.
  revert l. induction fuel as [|f IH]; intros l Hl Hb Hlt.
  { destruct l; [by apply elem_of_nil in Hb|cbn in Hl; lia]. }
  destruct l as [|b0 rest]; [by apply elem_of_nil in Hb|]. cbn [decode_runes].
  destruct (decode_rune b0 rest) as [r n] eqn:E.
  apply decode_rune_spec in E as (Hn & Hr & Hf). cbn in Hl.
  rewrite drop_cons_pos by done.
  apply elem_of_cons in Hb as [->|Hb]; [destruct (Hr Hlt) as [-> _]; by left|].
  right. rewrite <- (take_drop (n - 1) rest) in Hb. apply elem_of_app in Hb as [Hb|Hb].
  - rewrite Forall_forall in Hf. specialize (Hf b Hb). lia.
  - apply IH; [|done..]. rewrite length_drop. lia.
Qed.

(** A string without control runes has no ASCII control bytes. *)
Lemma no_control_lacks s c :
  forallb (fun r => negb (IsControl r)) (runes s) = true -> ord c < 32 -> lacks c s.
Proof.
  intros H Hc. assert (ord c ∉ str_bytes s) as Hn.
  { intros Hin. rewrite forallb_forall in H.
    assert (ord c ∈ runes s) as Hr by (apply decode_runes_ascii; [lia|done|lia]).
    apply list_elem_of_In in Hr. specialize (H _ Hr). unfold IsControl, in_range in H.
    pose proof (ord_range c). to_prop. lia. }
  clear H. unfold lacks. induction s as [|d s IH]; [done|]. cbn in *.
  rewrite elem_of_cons in Hn. apply andb_true_iff. split; [|apply IH; tauto].
  apply negb_true_iff, Ascii.eqb_neq. intros ->. tauto.
Qed.
