(* ===== verification/GoTabwriter.v ===== *)
(** The package text/tabwriter as cmd/novanetctl uses it: minimal width 0, padding of two
    spaces, no flags.  Cells end at a tab, lines at a newline; the last cell of a line
    belongs to no column.  A column is a run of consecutive lines that have a cell in it,
    and is as wide as its widest cell and the padding.  Texts have no vertical tab, form
    feed or byte 255, which the package treats specially. *)

From Stdlib Require Import ZArith Lia Ascii String.
From stdpp Require Import base tactics list gmap strings.
From S2P Require Import Prelude GoStrings GoUtf8.

(** * Formatting *)

Definition width (s : string) : nat := length (runes s).
Definition padding : nat := 2.

Fixpoint spaces (n : nat) : string := match n with O => "" | S n => String " " (spaces n) end.

(** [writeLines] on one line: the columns whose widths are known are padded. *)
Fixpoint write_line (widths : list nat) (cells : list string) : string :=
  match cells, widths with
  | [], _ => ""
  | c :: cs, [] => c +:+ write_line [] cs
  | c :: cs, w :: ws => c +:+ spaces (w - width c) +:+ write_line ws cs
  end.

(** A line with a cell in column [col]. *)
Definition has_cell (col : nat) (cells : list string) : bool := (col <? length cells - 1)%nat.

(** The runs of lines that have, and that do not have, a cell in the column. *)
Fixpoint runs (col : nat) (lines : list (list string)) : list (bool * list (list string)) :=
  match lines with
  | [] => []
  | l :: rest =>
      match runs col rest with
      | (b, r) :: rs => if Bool.eqb b (has_cell col l) then (b, l :: r) :: rs else (has_cell col l, [l]) :: (b, r) :: rs
      | [] => [(has_cell col l, [l])]
      end
  end.

Definition column_width (col : nat) (lines : list (list string)) : nat :=
  foldr (fun l w => Nat.max (width (default "" (l !! col)) + padding) w) 0%nat lines.

(** [format]: the fuel counts columns to the right. *)
Fixpoint format (cols : nat) (widths : list nat) (lines : list (list string)) : list string :=
  match cols with
  | O => write_line widths <$> lines
  | S cols =>
      runs (length widths) lines ≫= fun run : bool * list (list string) =>
        if run.1 then format cols (widths ++ [column_width (length widths) run.2]) run.2 else write_line widths <$> run.2
  end.

Definition most_cells (lines : list (list string)) : nat := foldr (fun l n => Nat.max (length l) n) 0%nat lines.

(** The whole of a text written and flushed. *)
Definition tab_chr : ascii := chr 9.
Definition newline_chr : ascii := chr 10.
Definition newline : string := String newline_chr "".
Definition tab : string := String tab_chr "".

Definition tabwriter (text : string) : string :=
  let lines := split_on tab_chr <$> split_on newline_chr text in
  join newline (format (most_cells lines) [] lines).

(** * Tables *)

(** A text of lines of cells. *)
Definition line_text (cells : list string) : string := join tab cells +:+ newline.
Definition lines_text (lines : list (list string)) : string := join "" (line_text <$> lines).

(** ** What it prints *)

Lemma runs_uniform col b lines : lines <> [] -> Forall (fun l => has_cell col l = b) lines -> runs col lines = [(b, lines)].
Proof.
  induction lines as [|l [|l' lines] IH]; [done|intros _ [<- _]%Forall_cons; done|].
  intros _ [Hl H]%Forall_cons. cbn [runs]. cbn [runs] in IH. rewrite IH by done. by rewrite Hl, Bool.eqb_reflx.
Qed.

(** Runs end where the column does. *)
Lemma runs_app col a x b y : has_cell col x <> has_cell col y -> runs col ((a ++ [x]) ++ y :: b) = runs col (a ++ [x]) ++ runs col (y :: b).
Proof.
  intros Hxy. induction a as [|l a IH].
  - change (([] ++ [x]) ++ y :: b) with (x :: (y :: b)). cbn [app runs]. assert (exists r rs, runs col (y :: b) = (has_cell col y, r) :: rs) as (r & rs & E).
    { cbn [runs]. destruct (runs col b) as [|[b' r] rs]; [by eexists _, _|]. destruct (Bool.eqb b' (has_cell col y)) eqn:E; [|by eexists _, _].
      apply Bool.eqb_prop in E as ->. by eexists _, _. }
    cbn [runs] in E. rewrite E. rewrite (proj2 (Bool.eqb_false_iff _ _)) by congruence. done.
  - cbn [app runs]. cbn [app] in IH. rewrite IH. destruct (runs col (a ++ [x])) as [|[b' r] rs] eqn:E.
    + destruct a; cbn [app runs] in E; [done|]. destruct (runs col (a ++ [x])) as [|[? ?] ?]; [done|]. by destruct (Bool.eqb _ _).
    + cbn [app]. by destruct (Bool.eqb _ _).
Qed.

Lemma format_app cols a x b y :
  has_cell 0 x <> has_cell 0 y -> format cols [] ((a ++ [x]) ++ y :: b) = format cols [] (a ++ [x]) ++ format cols [] (y :: b).
Proof.
  intros H. destruct cols as [|cols]; cbn [format length]; [apply fmap_app|]. by rewrite runs_app, bind_app.
Qed.

(** Lines of one cell are printed as they are. *)
Lemma format_plain cols lines : Forall (fun l => length l = 1%nat) lines -> format cols [] lines = (fun l => default "" (head l)) <$> lines.
Proof.
  intros H. assert (write_line [] <$> lines = (fun l => default "" (head l)) <$> lines) as E.
  { induction H as [|l lines Hl _ IH]; [done|]. rewrite !fmap_cons, IH. f_equal. destruct l as [|c [|? ?]]; try done. cbn. apply str_app_nil_r. }
  destruct cols as [|cols]; cbn [format length]; [done|]. destruct lines as [|l lines]; [done|].
  rewrite (runs_uniform 0 false) by (done || (eapply Forall_impl; [exact H|]; intros l' Hl'; unfold has_cell; by rewrite Hl')).
  cbn [mbind list_bind fst snd]. by rewrite app_nil_r.
Qed.

Definition column_widths (n : nat) (lines : list (list string)) : list nat := (fun c => column_width c lines) <$> seq 0 n.

(** Lines with the same number of cells form one block, whose columns are as wide as
    their widest cells. *)
Lemma format_block cols widths n lines :
  lines <> [] -> Forall (fun l => length l = S n) lines -> (length widths + cols >= n)%nat -> (length widths <= n)%nat ->
  format cols widths lines =
  write_line (widths ++ ((fun c => column_width c lines) <$> seq (length widths) (n - length widths))) <$> lines.
Proof.
  intros Hne Hl. revert widths. induction cols as [|cols IH]; intros widths Hc Hw; cbn [format].
  { replace (n - length widths)%nat with 0%nat by lia. by rewrite app_nil_r. }
  rewrite (runs_uniform _ (length widths <? n)%nat) by
    (done || (eapply Forall_impl; [exact Hl|]; intros l' Hl'; unfold has_cell; rewrite Hl'; f_equal; lia)).
  cbn [mbind list_bind fst snd]. rewrite app_nil_r. destruct (Nat.ltb_spec (length widths) n) as [Hlt|Hge].
  - rewrite IH by (rewrite length_app; cbn; lia). rewrite length_app. cbn [length].
    replace (n - length widths)%nat with (S (n - (length widths + 1)))%nat by lia. cbn [seq]. rewrite fmap_cons.
    replace (length widths + 1)%nat with (S (length widths)) by lia. by rewrite <- (assoc_L (++)).
  - replace (n - length widths)%nat with 0%nat by lia. by rewrite app_nil_r.
Qed.

Lemma format_table cols n lines :
  lines <> [] -> Forall (fun l => length l = S n) lines -> (n <= cols)%nat -> format cols [] lines = write_line (column_widths n lines) <$> lines.
Proof. intros Hne Hl Hn. rewrite (format_block _ _ n) by (done || cbn; lia). unfold column_widths. cbn. by rewrite Nat.sub_0_r. Qed.

(** ** Texts of lines *)

Lemma join_empty_cons x l : join "" (x :: l) = x +:+ join "" l.
Proof. destruct l; [symmetry; apply str_app_nil_r|done]. Qed.

Lemma lines_text_split lines :
  Forall (Forall (lacks newline_chr)) lines -> split_on newline_chr (lines_text lines) = (join tab <$> lines) ++ [""].
Proof.
  intros H. unfold lines_text. induction H as [|l lines Hl _ IH]; [done|].
  rewrite fmap_cons, join_empty_cons. unfold line_text at 1. rewrite str_app_assoc.
  etrans; [apply (split_on_app newline_chr (join tab l) (join "" (line_text <$> lines)))|rewrite IH; done]. clear IH. induction Hl as [|c cs Hc Hcs IH]; [done|]. destruct cs as [|c' cs]; [done|].
  change (join tab (c :: c' :: cs)) with (c +:+ tab +:+ join tab (c' :: cs)). rewrite !lacks_app. by split; [|split].
Qed.

Lemma tabwriter_lines lines :
  Forall (fun l => l <> [] /\ Forall (lacks newline_chr) l /\ Forall (lacks tab_chr) l) lines ->
  exists cols, (most_cells lines <= cols)%nat /\ tabwriter (lines_text lines) = join newline (format cols [] (lines ++ [[""]])).
Proof.
  intros H. unfold tabwriter. rewrite lines_text_split by (eapply Forall_impl; [exact H|]; naive_solver).
  rewrite fmap_app. assert (split_on tab_chr <$> (join tab <$> lines) = lines) as ->.
  { induction H as [|l lines (Hne & _ & Ht) _ IH]; [done|]. rewrite !fmap_cons, IH. f_equal. by apply split_on_join. }
  eexists. split; [|reflexivity]. unfold most_cells. clear H. induction lines as [|l lines IH]; cbn [app foldr]; [lia|]. lia.
Qed.

(** ** Sections *)

(** The output of a command: plain lines and tables of [n + 2] cells a row. *)
Inductive section := Plain (lines : list string) | Table (n : nat) (rows : list (list string)).

Definition section_lines (s : section) : list (list string) :=
  match s with Plain ls => (fun l => [l]) <$> ls | Table _ rows => rows end.
Definition section_print (s : section) : list string :=
  match s with Plain ls => ls | Table n rows => write_line (column_widths (S n) rows) <$> rows end.

Definition section_ok (s : section) : Prop :=
  section_lines s <> [] /\ Forall (Forall (fun c => lacks newline_chr c /\ lacks tab_chr c)) (section_lines s) /\
  match s with Plain _ => True | Table n rows => Forall (fun r => length r = S (S n)) rows end.

Definition is_table (s : section) : bool := match s with Plain _ => false | Table _ _ => true end.

(** Plain lines and tables take turns. *)
Fixpoint alternate (ss : list section) : Prop :=
  match ss with
  | s :: ((t :: _) as rest) => is_table s <> is_table t /\ alternate rest
  | _ => True
  end.

Definition sections_lines (ss : list section) : list (list string) := ss ≫= section_lines.
Definition sections_text (ss : list section) : string := lines_text (sections_lines ss).

Lemma section_cells s : section_ok s -> Forall (fun l => has_cell 0 l = is_table s) (section_lines s).
Proof.
  intros (_ & _ & H). destruct s as [ls|n rows]; cbn in *.
  - apply Forall_fmap, Forall_true. done.
  - eapply Forall_impl; [exact H|]. intros l Hl. unfold has_cell. by rewrite Hl.
Qed.

Lemma format_section cols s : section_ok s -> (most_cells (section_lines s) <= S cols)%nat -> format cols [] (section_lines s) = section_print s.
Proof.
  intros (Hne & _ & H) Hc. destruct s as [ls|n rows]; cbn [section_lines section_print] in *.
  - rewrite format_plain by (apply Forall_fmap, Forall_true; done). rewrite <- list_fmap_compose. apply list_fmap_id.
  - apply format_table; [done|done|]. destruct rows as [|r rows]; [done|]. apply Forall_cons in H as [Hr _]. cbn in Hc. lia.
Qed.

Lemma format_turn cols t a b :
  a <> [] -> b <> [] -> Forall (fun l => has_cell 0 l = t) a -> (forall l r, b = l :: r -> has_cell 0 l = negb t) ->
  format cols [] (a ++ b) = format cols [] a ++ format cols [] b.
Proof.
  intros Ha Hb Hat Hbt. destruct b as [|y b]; [done|]. destruct (exists_last Ha) as (a' & x & ->). apply format_app.
  rewrite (Hbt y b eq_refl). apply Forall_app in Hat as [_ [Hx _]%Forall_cons]. rewrite Hx. by destruct t.
Qed.

Lemma most_cells_app a b : most_cells (a ++ b) = Nat.max (most_cells a) (most_cells b).
Proof. unfold most_cells. induction a as [|l a IH]; cbn; [done|]. rewrite IH. lia. Qed.

Lemma format_sections cols ss :
  Forall section_ok ss -> alternate ss -> (most_cells (sections_lines ss) <= S cols)%nat ->
  format cols [] (sections_lines ss ++ [[""]]) = (ss ≫= section_print) ++ [""].
Proof.
  intros Hok. induction Hok as [|s ss Hs Hss IH]; intros Ha Hc; [by apply (format_plain cols [[""]]); constructor|].
  change (sections_lines (s :: ss)) with (section_lines s ++ sections_lines ss) in *. rewrite most_cells_app in Hc.
  change ((s :: ss) ≫= section_print) with (section_print s ++ (ss ≫= section_print)). rewrite <- !(assoc_L (++)).
  destruct ss as [|s' ss].
  - destruct s as [ls|n rows].
    + assert (section_lines (Plain ls) ++ sections_lines [] ++ [[""]] = section_lines (Plain (ls ++ [""]))) as -> by (cbn; by rewrite fmap_app).
      apply (format_section cols (Plain (ls ++ [""]))).
      * destruct Hs as (_ & H & _). split; [by destruct ls|]. split; [|done]. cbn in *. rewrite fmap_app. apply Forall_app. split; [done|].
        repeat constructor.
      * cbn [section_lines] in *. rewrite fmap_app, most_cells_app. cbn in *. lia.
    + rewrite (format_turn cols true); [|by destruct Hs|done|by apply (section_cells (Table n rows))|by intros l r [= <- <-]].
      rewrite format_section by (done || lia). f_equal. apply (format_plain cols [[""]]). by constructor.
  - destruct Ha as [Ht Ha]. rewrite (format_turn cols (is_table s)); [|by destruct Hs|by destruct (sections_lines _)|by apply section_cells|].
    { rewrite format_section by (done || lia). f_equal. apply IH; [done|lia]. }
    intros l r E. apply Forall_cons in Hss as [Hs' _]. pose proof (section_cells s' Hs') as Hc'.
    change (sections_lines (s' :: ss)) with (section_lines s' ++ sections_lines ss) in E.
    destruct (section_lines s') as [|l' r'] eqn:El; [by destruct Hs'|]. injection E as <- _. apply Forall_cons in Hc' as [-> _].
    by destruct (is_table s), (is_table s').
Qed.

(** A command that writes plain lines and tables in turn prints the plain lines as they
    are and the rows of each table with its columns aligned. *)
Lemma tabwriter_sections ss :
  Forall section_ok ss -> alternate ss -> tabwriter (sections_text ss) = join newline ((ss ≫= section_print) ++ [""]).
Proof.
  intros Hok Ha. destruct (tabwriter_lines (sections_lines ss)) as (cols & Hc & E).
  - apply Forall_bind. eapply Forall_impl; [exact Hok|]. intros s (_ & Hcells & Hn).
    assert (Forall (fun l => l <> []) (section_lines s)) as Hne.
    { destruct s as [ls|n rows]; [by apply Forall_fmap, Forall_true|]. eapply Forall_impl; [exact Hn|]. by intros [|]. }
    apply Forall_forall. intros l Hl. rewrite Forall_forall in Hcells, Hne. specialize (Hcells l Hl). split; [by apply Hne|].
    split; (eapply Forall_impl; [exact Hcells|]; naive_solver).
  - unfold sections_text. rewrite E. f_equal. apply format_sections; [done|done|lia].
Qed.

(** * Reading a table back *)

(** The words of a line, as tools that read tables see them. *)
Definition words (s : string) : list string := filter (fun w => w <> "") (split_on " " s).

Definition word (s : string) : Prop := s <> "" /\ lacks " " s.

Lemma split_spaces n s : split_on " " (spaces n +:+ s) = replicate n "" ++ split_on " " s.
Proof.
  induction n as [|n IH]; [done|]. cbn [spaces replicate]. rewrite str_app_cons.
  etrans; [apply (split_on_app " " "" (spaces n +:+ s)); done|]. by rewrite IH.
Qed.

Lemma words_skip n s : words (spaces n +:+ s) = words s.
Proof.
  unfold words. rewrite split_spaces, filter_app. assert (filter (fun w => w <> "") (replicate n "") = []) as ->; [|done].
  induction n as [|n IH]; [done|]. cbn [replicate]. rewrite filter_cons, decide_False by tauto. exact IH.
Qed.

Lemma words_cons c n s : word c -> words (c +:+ spaces (S n) +:+ s) = c :: words s.
Proof.
  intros [Hne Hc]. rewrite <- (words_skip n s). unfold words at 1. cbn [spaces].
  change (String " " (spaces n) +:+ s) with (String " " (spaces n +:+ s)). rewrite split_on_app by done.
  by rewrite filter_cons, decide_True.
Qed.

Lemma words_one c : word c -> words c = [c].
Proof. intros [Hne Hc]. unfold words. rewrite split_on_lacks by done. by rewrite filter_cons, decide_True. Qed.

Lemma column_width_cell col lines l c : l ∈ lines -> l !! col = Some c -> (width c + padding <= column_width col lines)%nat.
Proof.
  intros Hl Hc. induction lines as [|l' lines IH]; [by apply elem_of_nil in Hl|]. cbn [column_width foldr]. fold (column_width col lines).
  apply elem_of_cons in Hl as [<-|Hl]; [rewrite Hc; change (default "" (Some c)) with c; lia|]. specialize (IH Hl). lia.
Qed.

(** A row, printed in columns that are wide enough, has its cells as its words. *)
Lemma words_row ws cells :
  length cells = S (length ws) -> Forall word cells -> (forall i w c, ws !! i = Some w -> cells !! i = Some c -> (width c < w)%nat) ->
  words (write_line ws cells) = cells.
Proof.
  revert ws. induction cells as [|c cells IH]; intros ws Hl Hw Hi; [done|]. apply Forall_cons in Hw as [Hc Hw].
  destruct ws as [|w ws]; cbn [write_line].
  - destruct cells; [|done]. rewrite str_app_nil_r. by apply words_one.
  - pose proof (Hi 0%nat w c eq_refl eq_refl) as H0. destruct (w - width c)%nat as [|n] eqn:En; [lia|]. rewrite words_cons by done. f_equal.
    apply IH; [by injection Hl|done|]. intros i w' c' H1 H2. by apply (Hi (S i)).
Qed.

(** A row of a table whose cells are words has its cells as its words, whatever the other
    rows are. *)
Lemma row_reads_back n rows r :
  r ∈ rows -> length r = S (S n) -> Forall word r -> words (write_line (column_widths (S n) rows) r) = r.
Proof.
  intros Hr Hl Hw. apply words_row; [|done|].
  - unfold column_widths. by rewrite length_fmap, length_seq.
  - intros j w c Hj Hc. unfold column_widths in Hj. apply list_lookup_fmap_Some in Hj as (x & -> & [-> Hx]%lookup_seq).
    pose proof (column_width_cell j rows r c Hr Hc) as H. unfold padding in H. cbn in *. lia.
Qed.

(** The rows under a header are the words of the lines after the first. *)
Lemma table_reads_back n header rows :
  Forall (fun r => length r = S (S n)) rows -> Forall (Forall word) rows ->
  words <$> tail (section_print (Table n (header :: rows))) = rows.
Proof.
  intros Hl Hw. cbn [section_print]. rewrite fmap_cons. cbn [tail]. rewrite <- list_fmap_compose. etrans; [|apply list_fmap_id].
  apply list_fmap_ext. intros i r Hr. apply list_elem_of_lookup_2 in Hr. rewrite Forall_forall in Hl, Hw.
  apply (row_reads_back n (header :: rows) r); [by right|by apply Hl|by apply Hw].
Qed.

(** ** Lines *)

Lemma lacks_spaces c n : c <> " "%char -> lacks c (spaces n).
Proof. intros Hc. induction n as [|n IH]; [done|]. unfold lacks in *. cbn [spaces str_all]. rewrite IH. by destruct (Ascii.eqb_spec " " c) as [<-|]. Qed.

Lemma lacks_write_line c ws cells : c <> " "%char -> Forall (lacks c) cells -> lacks c (write_line ws cells).
Proof.
  intros Hc H. revert ws. induction H as [|x cells Hx _ IH]; intros ws; [done|].
  destruct ws; cbn [write_line]; rewrite ?lacks_app; auto using lacks_spaces.
Qed.

(** The lines of what a command prints. *)
Lemma printed_lines ss :
  Forall section_ok ss -> alternate ss -> split_on newline_chr (tabwriter (sections_text ss)) = (ss ≫= section_print) ++ [""].
Proof.
  intros Hok Ha. rewrite tabwriter_sections by done. apply split_on_join; [by destruct (ss ≫= section_print)|].
  apply Forall_app. split; [|by repeat constructor]. apply Forall_bind. eapply Forall_impl; [exact Hok|].
  intros s (_ & H & _). destruct s as [ls|n rows]; cbn [section_print section_lines] in *.
  - apply (proj1 (Forall_fmap (fun l => [l]) _ _)) in H. eapply Forall_impl; [exact H|]. intros l [[? _] _]%Forall_cons. done.
  - apply Forall_fmap. eapply Forall_impl; [exact H|]. intros l Hl. apply lacks_write_line; [done|]. eapply Forall_impl; [exact Hl|]. by intros ? [? ?].
Qed.

Lemma write_line_cons w ws c cs : write_line (w :: ws) (c :: cs) = c +:+ spaces (w - width c) +:+ write_line ws cs.
Proof. done. Qed.

(** A single line is not aligned with anything: its cells are two spaces apart. *)
Lemma write_line_alone cells :
  cells <> [] -> write_line (column_widths (length cells - 1) [cells]) cells = join "  " cells.
Proof.
  assert (forall pre rest, rest <> [] ->
    write_line ((fun c => column_width c [pre ++ rest]) <$> seq (length pre) (length rest - 1)) rest = join "  " rest) as H.
  { intros pre rest. revert pre. induction rest as [|c [|c' rest] IH]; intros pre Hne; [done|apply str_app_nil_r|].
    cbn [length seq Nat.sub]. rewrite fmap_cons, write_line_cons. replace (column_width (length pre) [pre ++ c :: c' :: rest]) with (width c + 2)%nat.
    2: { unfold column_width. cbn [foldr]. rewrite list_lookup_middle by done. cbn [default]. unfold padding. unfold id. lia. }
    replace (width c + 2 - width c)%nat with 2%nat by lia. specialize (IH (pre ++ [c]) ltac:(done)).
    rewrite length_app, Nat.add_1_r, <- (assoc_L (++)) in IH. cbn [app length Nat.sub] in IH. rewrite Nat.sub_0_r in IH. rewrite IH. done. }
  intros Hne. by apply (H [] cells).
Qed.

Lemma tabwriter_one_line cells :
  (2 <= length cells)%nat -> Forall (fun c => lacks newline_chr c /\ lacks tab_chr c) cells ->
  tabwriter (lines_text [cells]) = join "  " cells +:+ newline.
Proof.
  intros Hl Hc. pose proof (tabwriter_sections [Table (length cells - 2) [cells]]) as H.
  change (sections_text [Table (length cells - 2) [cells]]) with (lines_text [cells]) in H. rewrite H; [|apply Forall_singleton; split; [done|]; split; apply Forall_singleton; [done|lia]|done].
  cbn [mbind list_bind section_print fmap list_fmap app join]. rewrite <- (write_line_alone cells) by (destruct cells; cbn in Hl; [lia|done]).
  replace (S (length cells - 2)) with (length cells - 1)%nat by lia. by rewrite str_app_nil_r.
Qed.
