(* ===== verification/GoText.v ===== *)
(** Searching and replacing in Go strings: [strings.HasPrefix], [Contains],
    [Index] and single-byte [ReplaceAll]. *)

From Stdlib Require Import ZArith Lia Ascii String.
From stdpp Require Import base tactics list gmap strings fin_maps.
From S2P Require Import Prelude GoStrings.

(** [strings.CutPrefix]: what follows the prefix. *)
Fixpoint cut_prefix (p s : string) : option string :=
  match p, s with
  | EmptyString, _ => Some s
  | String c p', String d s' => if Ascii.eqb c d then cut_prefix p' s' else None
  | _, _ => None
  end.

Definition has_prefix (p s : string) : bool :=
  match cut_prefix p s with Some _ => true | None => false end.

(** [strings.Cut]: the text before and after the first occurrence. *)
Fixpoint cut_sub (sub s : string) : option (string * string) :=
  match cut_prefix sub s with
  | Some rest => Some ("", rest)
  | None =>
      match s with
      | EmptyString => None
      | String c r =>
          match cut_sub sub r with
          | Some (a, b) => Some (String c a, b)
          | None => None
          end
      end
  end.

Definition contains (s sub : string) : bool :=
  match cut_sub sub s with Some _ => true | None => false end.

(** [strings.ReplaceAll(s, c, d)] for one-byte strings. *)
Fixpoint replace_char (c d : ascii) (s : string) : string :=
  match s with
  | EmptyString => EmptyString
  | String e r => String (if Ascii.eqb e c then d else e) (replace_char c d r)
  end.

Lemma cut_prefix_app p s : cut_prefix p (p +:+ s) = Some s.
Proof.
  induction p as [|c p IH]; [done|]. rewrite str_app_cons. cbn. by rewrite Ascii.eqb_refl.
Qed.

Lemma cut_prefix_Some p s r : cut_prefix p s = Some r -> s = p +:+ r.
Proof.
  revert s. induction p as [|c p IH]; intros s; cbn; [by intros [= ->]|].
  destruct s as [|d s]; [done|]. destruct (Ascii.eqb_spec c d) as [->|]; [|done].
  intros ->%IH. done.
Qed.

Lemma has_prefix_spec p s : has_prefix p s = true <-> exists r, s = p +:+ r.
Proof.
  unfold has_prefix. split.
  - destruct (cut_prefix p s) eqn:E; [|done]. intros _. eexists. by apply cut_prefix_Some.
  - intros [r ->]. by rewrite cut_prefix_app.
Qed.

(** A separator that starts with a byte the text before it lacks is found right
    after that text. *)
Lemma cut_sub_app c sub s t :
  lacks c s -> cut_sub (String c sub) (s +:+ String c sub +:+ t) = Some (s, t).
Proof.
  unfold lacks. induction s as [|d s IH]; cbn [str_all].
  - intros _. rewrite str_app_nil_l.
    destruct (String c sub +:+ t) as [|e u] eqn:E; [done|].
    assert (cut_prefix (String c sub) (String e u) = Some t) as H by (rewrite <- E; apply cut_prefix_app).
    cbn [cut_sub]. by rewrite H.
  - rewrite andb_true_iff, negb_true_iff. intros [Hd Hs]. rewrite str_app_cons.
    cbn [cut_sub cut_prefix]. rewrite Ascii.eqb_sym, Hd. by rewrite IH.
Qed.

Lemma cut_sub_skip sub c r :
  cut_prefix sub (String c r) = None ->
  cut_sub sub (String c r) = prod_map (String c) id <$> cut_sub sub r.
Proof. intros H. cbn [cut_sub]. rewrite H. by destruct (cut_sub sub r) as [[]|]. Qed.

Lemma cut_sub_field c sub s t :
  lacks c s -> cut_sub (String c sub) (s +:+ t) = prod_map (String.append s) id <$> cut_sub (String c sub) t.
Proof.
  unfold lacks. induction s as [|d s IH]; cbn [str_all].
  - intros _. rewrite str_app_nil_l. by destruct (cut_sub _ t) as [[]|].
  - rewrite andb_true_iff, negb_true_iff. intros [Hd Hs].
    rewrite str_app_cons, cut_sub_skip by (cbn; by rewrite Ascii.eqb_sym, Hd).
    rewrite IH by done. by destruct (cut_sub _ t) as [[]|].
Qed.

Lemma replace_char_lacks x c d s : x <> d -> lacks x s -> lacks x (replace_char c d s).
Proof.
  intros Hx. unfold lacks. induction s as [|e s IH]; [done|]. cbn [str_all replace_char].
  rewrite !andb_true_iff, !negb_true_iff. intros [He Hs]. split; [|auto].
  destruct (Ascii.eqb e c); [|done]. by apply Ascii.eqb_neq.
Qed.

Lemma join_lacks c sep l : lacks c sep -> Forall (lacks c) l -> lacks c (join sep l).
Proof.
  intros Hs Hl. induction Hl as [|x l Hx Hl IH]; [done|].
  destruct l as [|y l]; [done|]. change (lacks c (x +:+ sep +:+ join sep (y :: l))).
  by rewrite !lacks_app.
Qed.
