(* ===== verification/Intent.v ===== *)
(** The routing intents and their store (internal/routing/types/types.go and
    internal/routing/intent/store.go): the four kinds of intent, the keys under
    which an owner's intents are filed, and the operations of [Store].

    The store holds what its callers hand over by pointer; the callers of this
    program build a fresh intent for each call and drop it, so the intents are
    values here.  [time.Now()] is the argument [now].  The getters copy, in the
    order in which the maps are iterated ([MapIter]). *)

From Stdlib Require Import ZArith Lia Ascii String.
From stdpp Require Import base tactics list gmap strings fin_maps.
From S2P Require Import Prelude GoStrings GoMap GoNet.

(** * The enumerations of types.go *)

Definition PeerTypeUnspecified : Z := 0.
Definition PeerTypeExternal : Z := 1.
Definition PeerTypeInternal : Z := 2.

Definition AddressFamilyUnspecified : Z := 0.
Definition AddressFamilyIPv4Unicast : Z := 1.
Definition AddressFamilyIPv6Unicast : Z := 2.

Definition ProtocolUnspecified : Z := 0.
Definition ProtocolBGP : Z := 1.
Definition ProtocolOSPF : Z := 2.

Definition EventTypePeerUp : Z := 1.
Definition EventTypePeerDown : Z := 2.
Definition EventTypePrefixAdvertised : Z := 3.
Definition EventTypePrefixWithdrawn : Z := 4.
Definition EventTypeBFDUp : Z := 5.
Definition EventTypeBFDDown : Z := 6.
Definition EventTypeOSPFNeighborUp : Z := 7.
Definition EventTypeOSPFNeighborDown : Z := 8.
Definition EventTypeFRRConnected : Z := 9.
Definition EventTypeFRRDisconnected : Z := 10.
Definition EventTypeOwnerRegistered : Z := 11.
Definition EventTypeOwnerDeregistered : Z := 12.
Definition EventTypePolicyViolation : Z := 13.
Definition EventTypeBGPConfigChanged : Z := 14.

(** * Intents *)

(** The sentinel errors of the package; the text wrapped around them is not
    modelled. *)
Inductive intent_error : Set :=
| ErrOwnerEmpty
| ErrIntentNil
| ErrNeighborAddrEmpty
| ErrPrefixEmpty
| ErrPeerAddrEmpty
| ErrIfaceNameEmpty
| ErrAreaIDEmpty
| ErrNoIntents
| ErrIntentNotFound
| ErrAreaIDInvalid
| ErrAreaIDIPv6.

#[export] Instance intent_error_eq_dec : EqDecision intent_error.
Proof. solve_decision. Defined.

Record PeerIntent := mkPeer {
  p_Owner : string;
  p_NeighborAddress : string;
  p_RemoteAS : Z;
  p_PeerType : Z;
  p_Keepalive : Z;
  p_HoldTime : Z;
  p_BFDEnabled : bool;
  p_BFDMinRxMs : Z;
  p_BFDMinTxMs : Z;
  p_BFDDetectMultiplier : Z;
  p_Description : string;
  p_AddressFamilies : list Z;
  p_SourceAddress : string;
  p_EBGPMultihop : Z;
  p_Password : string;
  p_MaxPrefixes : Z;
  p_CreatedAt : Z;
  p_UpdatedAt : Z }.

Record PrefixIntent := mkPrefix {
  x_Owner : string;
  x_Prefix : string;
  x_Protocol : Z;
  x_LocalPreference : Z;
  x_Communities : list string;
  x_MED : Z;
  x_NextHop : string;
  x_CreatedAt : Z;
  x_UpdatedAt : Z }.

Record BFDIntent := mkBFD {
  b_Owner : string;
  b_PeerAddress : string;
  b_MinRxMs : Z;
  b_MinTxMs : Z;
  b_DetectMultiplier : Z;
  b_InterfaceName : string;
  b_CreatedAt : Z;
  b_UpdatedAt : Z }.

Record OSPFIntent := mkOSPF {
  o_Owner : string;
  o_InterfaceName : string;
  o_AreaID : string;
  o_Passive : bool;
  o_Cost : Z;
  o_HelloInterval : Z;
  o_DeadInterval : Z;
  o_IPv6 : bool;
  o_CreatedAt : Z;
  o_UpdatedAt : Z }.

(** Writing the owner and the two timestamps of an intent. *)
Definition stampPeer (owner : string) (c u : Z) (p : PeerIntent) : PeerIntent :=
  mkPeer owner (p_NeighborAddress p) (p_RemoteAS p) (p_PeerType p) (p_Keepalive p)
    (p_HoldTime p) (p_BFDEnabled p) (p_BFDMinRxMs p) (p_BFDMinTxMs p)
    (p_BFDDetectMultiplier p) (p_Description p) (p_AddressFamilies p)
    (p_SourceAddress p) (p_EBGPMultihop p) (p_Password p) (p_MaxPrefixes p) c u.
Definition stampPrefix (owner : string) (c u : Z) (p : PrefixIntent) : PrefixIntent :=
  mkPrefix owner (x_Prefix p) (x_Protocol p) (x_LocalPreference p) (x_Communities p)
    (x_MED p) (x_NextHop p) c u.
Definition stampBFD (owner : string) (c u : Z) (b : BFDIntent) : BFDIntent :=
  mkBFD owner (b_PeerAddress b) (b_MinRxMs b) (b_MinTxMs b) (b_DetectMultiplier b)
    (b_InterfaceName b) c u.
Definition stampOSPF (owner : string) (c u : Z) (o : OSPFIntent) : OSPFIntent :=
  mkOSPF owner (o_InterfaceName o) (o_AreaID o) (o_Passive o) (o_Cost o)
    (o_HelloInterval o) (o_DeadInterval o) (o_IPv6 o) c u.

(** * The store *)

Record OwnerIntents := mkOwner {
  Peers : gmap string PeerIntent;
  Prefixes : gmap string PrefixIntent;
  BFD : gmap string BFDIntent;
  OSPF : gmap string OSPFIntent }.

Definition newOwnerIntents : OwnerIntents := mkOwner ∅ ∅ ∅ ∅.

Definition set_Peers (m : gmap string PeerIntent) (oi : OwnerIntents) : OwnerIntents :=
  mkOwner m (Prefixes oi) (BFD oi) (OSPF oi).
Definition set_Prefixes (m : gmap string PrefixIntent) (oi : OwnerIntents) : OwnerIntents :=
  mkOwner (Peers oi) m (BFD oi) (OSPF oi).
Definition set_BFD (m : gmap string BFDIntent) (oi : OwnerIntents) : OwnerIntents :=
  mkOwner (Peers oi) (Prefixes oi) m (OSPF oi).
Definition set_OSPF (m : gmap string OSPFIntent) (oi : OwnerIntents) : OwnerIntents :=
  mkOwner (Peers oi) (Prefixes oi) (BFD oi) m.

(** [Store]: the intents of each owner. *)
Abbreviation Store := (gmap string OwnerIntents).

Definition NewStore : Store := ∅.

Definition peerKey (neighborAddr : string) : string := "peer:" +:+ neighborAddr.
Definition prefixKey (protocol prefix : string) : string :=
  "prefix:" +:+ to_lower protocol +:+ ":" +:+ prefix.
Definition bfdKey (peerAddr : string) : string := "bfd:" +:+ peerAddr.
Definition ospfKey (ifaceName : string) : string := "ospf:" +:+ ifaceName.

Definition protocolString (p : Z) : string :=
  if p =? ProtocolBGP then "bgp" else if p =? ProtocolOSPF then "ospf" else "unknown".

Definition ensureOwner (s : Store) (owner : string) : OwnerIntents :=
  match s !! owner with Some oi => oi | None => newOwnerIntents end.

(** What an execute callback of [setIntent] leaves to be written: the creation
    time of the intent it replaces and, given the two timestamps of the new
    intent, the owner's intents. *)
Record intentResult := mkIntentResult {
  existingCreatedAt : option Z;
  stamped : Z -> Z -> OwnerIntents }.

Definition setIntent {I : Type} (now : Z) (s : Store) (owner : string) (intent : option I)
    (validate : I -> option intent_error) (execute : I -> OwnerIntents -> intentResult)
    : result intent_error unit * Store :=
  if String.eqb owner "" then (Err ErrOwnerEmpty, s)
  else match intent with
  | None => (Err ErrIntentNil, s)
  | Some i =>
      match validate i with
      | Some e => (Err e, s)
      | None =>
          let res := execute i (ensureOwner s owner) in
          let createdAt := match existingCreatedAt res with Some t => t | None => now end in
          (Ok tt, <[owner := stamped res createdAt now]> s)
      end
  end.

(** The common part of the four removals. *)
Definition removeIntent (s : Store) (owner : string) (remove : OwnerIntents -> option OwnerIntents)
    : result intent_error unit * Store :=
  match s !! owner with
  | None => (Err ErrNoIntents, s)
  | Some oi =>
      match remove oi with
      | None => (Err ErrIntentNotFound, s)
      | Some oi' => (Ok tt, <[owner := oi']> s)
      end
  end.

(** ** BGP peers *)

Definition SetPeerIntent (now : Z) (s : Store) (owner : string) (intent : option PeerIntent) :=
  setIntent now s owner intent
    (fun i => if String.eqb (p_NeighborAddress i) "" then Some ErrNeighborAddrEmpty else None)
    (fun i oi =>
       let key := peerKey (p_NeighborAddress i) in
       mkIntentResult (p_CreatedAt <$> Peers oi !! key)
         (fun c u => set_Peers (<[key := stampPeer owner c u i]> (Peers oi)) oi)).

Definition RemovePeerIntent (s : Store) (owner neighborAddr : string)
    : result intent_error unit * Store :=
  if String.eqb owner "" then (Err ErrOwnerEmpty, s)
  else if String.eqb neighborAddr "" then (Err ErrNeighborAddrEmpty, s)
  else removeIntent s owner (fun oi =>
    let key := peerKey neighborAddr in
    match Peers oi !! key with
    | None => None
    | Some _ => Some (set_Peers (delete key (Peers oi)) oi)
    end).

(** ** Prefixes *)

Definition SetPrefixIntent (now : Z) (s : Store) (owner : string) (intent : option PrefixIntent) :=
  setIntent now s owner intent
    (fun i => if String.eqb (x_Prefix i) "" then Some ErrPrefixEmpty else None)
    (fun i oi =>
       let key := prefixKey (protocolString (x_Protocol i)) (x_Prefix i) in
       mkIntentResult (x_CreatedAt <$> Prefixes oi !! key)
         (fun c u => set_Prefixes (<[key := stampPrefix owner c u i]> (Prefixes oi)) oi)).

Definition RemovePrefixIntent (s : Store) (owner prefix protocol : string)
    : result intent_error unit * Store :=
  if String.eqb owner "" then (Err ErrOwnerEmpty, s)
  else if String.eqb prefix "" then (Err ErrPrefixEmpty, s)
  else removeIntent s owner (fun oi =>
    let key := prefixKey protocol prefix in
    match Prefixes oi !! key with
    | None => None
    | Some _ => Some (set_Prefixes (delete key (Prefixes oi)) oi)
    end).

(** ** BFD sessions *)

Definition SetBFDIntent (now : Z) (s : Store) (owner : string) (intent : option BFDIntent) :=
  setIntent now s owner intent
    (fun i => if String.eqb (b_PeerAddress i) "" then Some ErrPeerAddrEmpty else None)
    (fun i oi =>
       let key := bfdKey (b_PeerAddress i) in
       mkIntentResult (b_CreatedAt <$> BFD oi !! key)
         (fun c u => set_BFD (<[key := stampBFD owner c u i]> (BFD oi)) oi)).

Definition RemoveBFDIntent (s : Store) (owner peerAddr : string)
    : result intent_error unit * Store :=
  if String.eqb owner "" then (Err ErrOwnerEmpty, s)
  else if String.eqb peerAddr "" then (Err ErrPeerAddrEmpty, s)
  else removeIntent s owner (fun oi =>
    let key := bfdKey peerAddr in
    match BFD oi !! key with
    | None => None
    | Some _ => Some (set_BFD (delete key (BFD oi)) oi)
    end).

(** ** OSPF interfaces *)

(** The area check: an IPv4 address or a run of ASCII digits.  The loop over
    the runes stops at the first that is not a digit, so a byte-wise test gives
    the same answer. *)
Definition validArea (area : string) : option intent_error :=
  match ParseIP area with
  | Some ip => match To4 ip with Some _ => None | None => Some ErrAreaIDIPv6 end
  | None =>
      if str_all (fun ch => (48 <=? ord ch) && (ord ch <=? 57)) area then None
      else Some ErrAreaIDInvalid
  end.

Definition SetOSPFIntent (now : Z) (s : Store) (owner : string) (intent : option OSPFIntent) :=
  setIntent now s owner intent
    (fun i => if String.eqb (o_InterfaceName i) "" then Some ErrIfaceNameEmpty
              else if String.eqb (o_AreaID i) "" then Some ErrAreaIDEmpty
              else validArea (o_AreaID i))
    (fun i oi =>
       let key := ospfKey (o_InterfaceName i) in
       mkIntentResult (o_CreatedAt <$> OSPF oi !! key)
         (fun c u => set_OSPF (<[key := stampOSPF owner c u i]> (OSPF oi)) oi)).

Definition RemoveOSPFIntent (s : Store) (owner ifaceName : string)
    : result intent_error unit * Store :=
  if String.eqb owner "" then (Err ErrOwnerEmpty, s)
  else if String.eqb ifaceName "" then (Err ErrIfaceNameEmpty, s)
  else removeIntent s owner (fun oi =>
    let key := ospfKey ifaceName in
    match OSPF oi !! key with
    | None => None
    | Some _ => Some (set_OSPF (delete key (OSPF oi)) oi)
    end).

(** ** Snapshots *)

Section Snapshots.
Context {MI : MapIter}.

Definition GetAllIntents (s : Store) : Store := s.
Definition GetOwnerIntents (s : Store) (owner : string) : option OwnerIntents := s !! owner.
Definition GetPeerIntents (s : Store) : list PeerIntent := iter_values s ≫= fun oi => iter_values (Peers oi).
Definition GetPrefixIntents (s : Store) : list PrefixIntent := iter_values s ≫= fun oi => iter_values (Prefixes oi).
Definition GetBFDIntents (s : Store) : list BFDIntent := iter_values s ≫= fun oi => iter_values (BFD oi).
Definition GetOSPFIntents (s : Store) : list OSPFIntent := iter_values s ≫= fun oi => iter_values (OSPF oi).

Definition RemoveAllByOwner (s : Store) (owner : string) : Store :=
  match s !! owner with None => s | Some _ => delete owner s end.

Definition GetOwnerPrefixes (s : Store) (owner : string) : list string :=
  match s !! owner with None => [] | Some oi => x_Prefix <$> iter_values (Prefixes oi) end.
Definition GetOwnerPeers (s : Store) (owner : string) : list string :=
  match s !! owner with None => [] | Some oi => p_NeighborAddress <$> iter_values (Peers oi) end.
End Snapshots.

(** * The store as a map *)

(** What an intent is filed under.  The protocols that are neither BGP nor OSPF
    share one name. *)
Inductive proto_name : Set := NameBGP | NameOSPF | NameUnknown.

Inductive intent_id : Set :=
| PeerId (addr : string)
| PrefixId (proto : proto_name) (prefix : string)
| BFDId (addr : string)
| OSPFId (iface : string).

Inductive any_intent : Type :=
| APeer (p : PeerIntent)
| APrefix (p : PrefixIntent)
| ABFD (b : BFDIntent)
| AOSPF (o : OSPFIntent).

#[export] Instance proto_name_eq_dec : EqDecision proto_name.
Proof. solve_decision. Defined.
#[export] Instance intent_id_eq_dec : EqDecision intent_id.
Proof. solve_decision. Defined.

Definition proto_text (n : proto_name) : string :=
  match n with NameBGP => "bgp" | NameOSPF => "ospf" | NameUnknown => "unknown" end.

Definition proto_of (p : Z) : proto_name :=
  if p =? ProtocolBGP then NameBGP else if p =? ProtocolOSPF then NameOSPF else NameUnknown.

Definition id_of (i : any_intent) : intent_id :=
  match i with
  | APeer p => PeerId (p_NeighborAddress p)
  | APrefix p => PrefixId (proto_of (x_Protocol p)) (x_Prefix p)
  | ABFD b => BFDId (b_PeerAddress b)
  | AOSPF o => OSPFId (o_InterfaceName o)
  end.

Definition created (i : any_intent) : Z :=
  match i with
  | APeer p => p_CreatedAt p | APrefix p => x_CreatedAt p
  | ABFD b => b_CreatedAt b | AOSPF o => o_CreatedAt o
  end.

Definition stamp (owner : string) (c u : Z) (i : any_intent) : any_intent :=
  match i with
  | APeer p => APeer (stampPeer owner c u p)
  | APrefix p => APrefix (stampPrefix owner c u p)
  | ABFD b => ABFD (stampBFD owner c u b)
  | AOSPF o => AOSPF (stampOSPF owner c u o)
  end.

(** The intent an owner has filed under an id. *)
Definition owner_lookup (oi : OwnerIntents) (i : intent_id) : option any_intent :=
  match i with
  | PeerId a => APeer <$> Peers oi !! peerKey a
  | PrefixId n x => APrefix <$> Prefixes oi !! prefixKey (proto_text n) x
  | BFDId a => ABFD <$> BFD oi !! bfdKey a
  | OSPFId f => AOSPF <$> OSPF oi !! ospfKey f
  end.

Definition lookup_intent (s : Store) (owner : string) (i : intent_id) : option any_intent :=
  match s !! owner with Some oi => owner_lookup oi i | None => None end.

Definition SetIntent (now : Z) (s : Store) (owner : string) (i : any_intent) :=
  match i with
  | APeer p => SetPeerIntent now s owner (Some p)
  | APrefix p => SetPrefixIntent now s owner (Some p)
  | ABFD b => SetBFDIntent now s owner (Some b)
  | AOSPF o => SetOSPFIntent now s owner (Some o)
  end.

Definition RemoveIntentById (s : Store) (owner : string) (i : intent_id) :=
  match i with
  | PeerId a => RemovePeerIntent s owner a
  | PrefixId n x => RemovePrefixIntent s owner x (proto_text n)
  | BFDId a => RemoveBFDIntent s owner a
  | OSPFId f => RemoveOSPFIntent s owner f
  end.

(** The inputs [SetIntent] accepts. *)
Definition valid_intent (i : any_intent) : Prop :=
  match i with
  | APeer p => p_NeighborAddress p <> ""
  | APrefix p => x_Prefix p <> ""
  | ABFD b => b_PeerAddress b <> ""
  | AOSPF o => o_InterfaceName o <> "" /\ o_AreaID o <> "" /\ validArea (o_AreaID o) = None
  end.

Lemma protocolString_text p : protocolString p = proto_text (proto_of p).
Proof. unfold protocolString, proto_of. by repeat case_match. Qed.

Lemma prefixKey_inj n1 n2 x1 x2 :
  prefixKey (proto_text n1) x1 = prefixKey (proto_text n2) x2 -> n1 = n2 /\ x1 = x2.
Proof.
  unfold prefixKey. intros H%str_app_inj_l.
  apply (sep_app_inj ":") in H as [Hn ?]; [|by destruct n1|by destruct n2].
  split; [|done]. by destruct n1, n2.
Qed.

(** The map of the kind of an intent, written at its key. *)
Definition owner_insert (oi : OwnerIntents) (i : any_intent) : OwnerIntents :=
  match i with
  | APeer p => set_Peers (<[peerKey (p_NeighborAddress p) := p]> (Peers oi)) oi
  | APrefix p =>
      set_Prefixes (<[prefixKey (protocolString (x_Protocol p)) (x_Prefix p) := p]> (Prefixes oi)) oi
  | ABFD b => set_BFD (<[bfdKey (b_PeerAddress b) := b]> (BFD oi)) oi
  | AOSPF o => set_OSPF (<[ospfKey (o_InterfaceName o) := o]> (OSPF oi)) oi
  end.

Definition owner_delete (oi : OwnerIntents) (i : intent_id) : OwnerIntents :=
  match i with
  | PeerId a => set_Peers (delete (peerKey a) (Peers oi)) oi
  | PrefixId n x => set_Prefixes (delete (prefixKey (proto_text n) x) (Prefixes oi)) oi
  | BFDId a => set_BFD (delete (bfdKey a) (BFD oi)) oi
  | OSPFId f => set_OSPF (delete (ospfKey f) (OSPF oi)) oi
  end.

Lemma owner_lookup_insert oi i k :
  owner_lookup (owner_insert oi i) k = if decide (k = id_of i) then Some i else owner_lookup oi k.
Proof.
  destruct i as [p|p|b|o], k as [a|n x|a|f]; cbn; try (rewrite decide_False by done; done);
    rewrite ?protocolString_text; destruct (decide _) as [E|E]; simplify_eq;
    rewrite ?lookup_insert_eq; try done; rewrite lookup_insert_ne; try done; intros Hk; apply E;
    first [apply prefixKey_inj in Hk as [-> ->] | apply str_app_inj_l in Hk as ->]; done.
Qed.

Lemma owner_lookup_delete oi i k :
  owner_lookup (owner_delete oi i) k = if decide (k = i) then None else owner_lookup oi k.
Proof.
  destruct i as [p|m p|b|o], k as [a|n x|a|f]; cbn; try (rewrite decide_False by done; done);
    destruct (decide _) as [E|E]; simplify_eq;
    rewrite ?lookup_delete_eq; try done; rewrite lookup_delete_ne; try done; intros Hk; apply E;
    first [apply prefixKey_inj in Hk as [-> ->] | apply str_app_inj_l in Hk as ->]; done.
Qed.

(** The set operations, uniformly: refused with the store unchanged, or filed
    under the intent's own id. *)
Lemma SetIntent_eq now s owner i :
  owner <> "" -> valid_intent i ->
  SetIntent now s owner i =
  (Ok tt,
   let c := match lookup_intent s owner (id_of i) with Some j => created j | None => now end in
   <[owner := owner_insert (ensureOwner s owner) (stamp owner c now i)]> s).
Proof.
  intros Ho%String.eqb_neq Hv. unfold lookup_intent, ensureOwner.
  destruct i as [p|p|b|o]; cbn in *;
    unfold SetPeerIntent, SetPrefixIntent, SetBFDIntent, SetOSPFIntent, setIntent; rewrite Ho.
  - apply String.eqb_neq in Hv as ->. cbn. unfold ensureOwner.
    destruct (s !! owner) as [oi|]; cbn; [|done]. by destruct (Peers oi !! _).
  - apply String.eqb_neq in Hv as ->. cbn. unfold ensureOwner. rewrite protocolString_text.
    destruct (s !! owner) as [oi|]; cbn; [|done]. by destruct (Prefixes oi !! _).
  - apply String.eqb_neq in Hv as ->. cbn. unfold ensureOwner.
    destruct (s !! owner) as [oi|]; cbn; [|done]. by destruct (BFD oi !! _).
  - destruct Hv as (H1%String.eqb_neq & H2%String.eqb_neq & H3). rewrite H1, H2, H3.
    cbn. unfold ensureOwner.
    destruct (s !! owner) as [oi|]; cbn; [|done]. by destruct (OSPF oi !! _).
Qed.

Lemma SetIntent_refused now s owner i :
  ~ (owner <> "" /\ valid_intent i) ->
  exists e, SetIntent now s owner i = (Err e, s).
Proof.
  intros H. destruct (String.eqb_spec owner "") as [->|Ho].
  { destruct i; by eexists. }
  destruct i as [p|p|b|o]; cbn in *;
    unfold SetPeerIntent, SetPrefixIntent, SetBFDIntent, SetOSPFIntent, setIntent;
    apply String.eqb_neq in Ho as Ho'; rewrite Ho';
    repeat case_match; simplify_eq; try (eexists; reflexivity);
    exfalso; apply H; to_prop; done.
Qed.

Definition id_nonempty (i : intent_id) : Prop :=
  match i with PeerId a | PrefixId _ a | BFDId a | OSPFId a => a <> "" end.

#[export] Instance id_nonempty_dec i : Decision (id_nonempty i).
Proof. destruct i; cbn; apply _. Defined.

#[export] Instance valid_intent_dec i : Decision (valid_intent i).
Proof. destruct i; cbn; apply _. Defined.

Lemma RemoveIntentById_eq s owner i :
  owner <> "" -> id_nonempty i ->
  RemoveIntentById s owner i =
  match lookup_intent s owner i with
  | Some _ => (Ok tt, <[owner := owner_delete (ensureOwner s owner) i]> s)
  | None => (Err (match s !! owner with None => ErrNoIntents | Some _ => ErrIntentNotFound end), s)
  end.
Proof.
  intros Ho%String.eqb_neq Hi. unfold lookup_intent, ensureOwner.
  destruct i as [a|n a|a|a]; cbn in *; apply String.eqb_neq in Hi;
    unfold RemovePeerIntent, RemovePrefixIntent, RemoveBFDIntent, RemoveOSPFIntent, removeIntent;
    rewrite Ho, Hi; destruct (s !! owner) as [oi|]; try done; cbn.
  - by destruct (Peers oi !! _).
  - by destruct (Prefixes oi !! _).
  - by destruct (BFD oi !! _).
  - by destruct (OSPF oi !! _).
Qed.

Lemma lookup_intent_insert s owner oi o k :
  lookup_intent (<[owner := oi]> s) o k =
  if decide (o = owner) then owner_lookup oi k else lookup_intent s o k.
Proof.
  unfold lookup_intent. destruct (decide (o = owner)) as [->|].
  - by rewrite lookup_insert_eq.
  - by rewrite lookup_insert_ne.
Qed.

Lemma owner_lookup_ensure s owner k :
  owner_lookup (ensureOwner s owner) k = lookup_intent s owner k.
Proof. unfold ensureOwner, lookup_intent. destruct (s !! owner); [done|]. by destruct k. Qed.

Lemma id_of_stamp owner c u i : id_of (stamp owner c u i) = id_of i.
Proof. by destruct i. Qed.

Inductive store_op : Type :=
| OpSet (owner : string) (i : any_intent)
| OpRemove (owner : string) (i : intent_id)
| OpRemoveAll (owner : string).

Definition apply_op (now : Z) (s : Store) (op : store_op) : result intent_error unit * Store :=
  match op with
  | OpSet owner i => SetIntent now s owner i
  | OpRemove owner i => RemoveIntentById s owner i
  | OpRemoveAll owner => (Ok tt, RemoveAllByOwner s owner)
  end.

(** The abstract store: a partial map from owner and id to intent. *)
Definition intent_map : Type := string -> intent_id -> option any_intent.

Definition op_enabled (a : intent_map) (op : store_op) : Prop :=
  match op with
  | OpSet owner i => owner <> "" /\ valid_intent i
  | OpRemove owner i => owner <> "" /\ id_nonempty i /\ is_Some (a owner i)
  | OpRemoveAll owner => True
  end.

Definition spec_op (now : Z) (a : intent_map) (op : store_op) : intent_map := fun o k =>
  match op with
  | OpSet owner i =>
      if decide (o = owner /\ k = id_of i)
      then Some (stamp owner (match a o k with Some j => created j | None => now end) now i)
      else a o k
  | OpRemove owner i => if decide (o = owner /\ k = i) then None else a o k
  | OpRemoveAll owner => if decide (o = owner) then None else a o k
  end.

Lemma SetIntent_spec now s owner i :
  owner <> "" -> valid_intent i ->
  forall o k, lookup_intent (SetIntent now s owner i).2 o k
              = spec_op now (lookup_intent s) (OpSet owner i) o k.
Proof.
  intros Ho Hv o k. rewrite SetIntent_eq by done. cbn [snd spec_op].
  rewrite lookup_intent_insert, owner_lookup_insert, id_of_stamp, owner_lookup_ensure.
  destruct (decide (o = owner)) as [->|]; [|by rewrite decide_False by naive_solver].
  destruct (decide (k = id_of i)) as [->|].
  - by rewrite decide_True.
  - by rewrite decide_False by naive_solver.
Qed.

Lemma RemoveIntentById_spec now s owner i :
  owner <> "" -> id_nonempty i -> is_Some (lookup_intent s owner i) ->
  forall o k, lookup_intent (RemoveIntentById s owner i).2 o k
              = spec_op now (lookup_intent s) (OpRemove owner i) o k.
Proof.
  intros Ho Hi [j Hj] o k. rewrite RemoveIntentById_eq by done. rewrite Hj. cbn [snd spec_op].
  rewrite lookup_intent_insert, owner_lookup_delete, owner_lookup_ensure.
  destruct (decide (o = owner)) as [->|]; [|by rewrite decide_False by naive_solver].
  destruct (decide (k = i)) as [->|].
  - by rewrite decide_True.
  - by rewrite decide_False by naive_solver.
Qed.

Lemma RemoveAllByOwner_spec now s owner o k :
  lookup_intent (RemoveAllByOwner s owner) o k
  = spec_op now (lookup_intent s) (OpRemoveAll owner) o k.
Proof.
  unfold RemoveAllByOwner, lookup_intent, spec_op. destruct (decide (o = owner)) as [->|].
  - destruct (s !! owner) eqn:E; [by rewrite lookup_delete_eq|]. by rewrite E.
  - destruct (s !! owner); [by rewrite lookup_delete_ne|done].
Qed.

Lemma RemoveIntentById_refused s owner i :
  ~ (owner <> "" /\ id_nonempty i /\ is_Some (lookup_intent s owner i)) ->
  exists e, RemoveIntentById s owner i = (Err e, s).
Proof.
  intros H. destruct (decide (owner <> "")) as [Ho|Ho]; cycle 1.
  { apply dec_stable in Ho as ->. destruct i; by eexists. }
  destruct (decide (id_nonempty i)) as [Hi|Hi]; cycle 1.
  { apply String.eqb_neq in Ho. destruct i; cbn in *; apply dec_stable in Hi as ->;
      unfold RemovePeerIntent, RemovePrefixIntent, RemoveBFDIntent, RemoveOSPFIntent;
      rewrite Ho; by eexists. }
  rewrite RemoveIntentById_eq by done.
  destruct (lookup_intent s owner i) eqn:E; [|by eexists].
  by destruct H.
Qed.

(** C26: The intent store implements a map from owner and intent id to intent.
    Each operation succeeds exactly when the abstract one is enabled, a refused
    operation changes nothing, and a successful one has the effect of the
    abstract operation on every owner and id: setting files the intent under its
    own id with the caller as owner, the current time as update time and the
    creation time of the intent it replaces; removing takes away that entry only;
    removing an owner takes away all of the owner's entries and no others. *)
Theorem store_is_a_map now s op :
  let '(r, s') := apply_op now s op in
  (is_ok r = true <-> op_enabled (lookup_intent s) op) /\
  (is_ok r = false -> s' = s) /\
  (is_ok r = true -> forall o k, lookup_intent s' o k = spec_op now (lookup_intent s) op o k).
Proof.
  destruct op as [owner i|owner i|owner]; cbn [apply_op op_enabled].
  - destruct (decide (owner <> "")) as [Ho|Ho].
    2: { destruct (SetIntent_refused now s owner i) as [e ->]; [naive_solver|]. cbn. naive_solver. }
    destruct (SetIntent now s owner i) as [r s'] eqn:E.
    destruct (decide (valid_intent i)) as [Hv|Hv].
    + pose proof (SetIntent_spec now s owner i Ho Hv) as Hs. rewrite E in Hs.
      rewrite SetIntent_eq in E by done. injection E as <- _. cbn. naive_solver.
    + destruct (SetIntent_refused now s owner i) as [e He]; [naive_solver|].
      rewrite He in E. injection E as <- <-. cbn. naive_solver.
  - destruct (RemoveIntentById s owner i) as [r s'] eqn:E.
    destruct (decide (owner <> "" /\ id_nonempty i /\ is_Some (lookup_intent s owner i))) as [H|H].
    + destruct H as (H1 & H2 & H3).
      pose proof (RemoveIntentById_spec now s owner i H1 H2 H3) as Hs. rewrite E in Hs.
      rewrite RemoveIntentById_eq in E by done. destruct H3 as [j Hj]. rewrite Hj in E.
      injection E as <- _. cbn. naive_solver.
    + destruct (RemoveIntentById_refused s owner i H) as [e He].
      rewrite He in E. injection E as <- <-. cbn. naive_solver.
  - cbn. split; [done|]. split; [done|]. intros _ o k. apply (RemoveAllByOwner_spec now).
Qed.

(** * Well-formed stores *)

Definition owner_of (i : any_intent) : string :=
  match i with
  | APeer p => p_Owner p | APrefix p => x_Owner p | ABFD b => b_Owner b | AOSPF o => o_Owner o
  end.

(** Every entry of an owner is filed under its own key, is valid and names the
    owner. *)
Definition filed {A} (inj : A -> any_intent) (key : A -> string) (o : string) (m : gmap string A) : Prop :=
  map_Forall (fun k x => k = key x /\ owner_of (inj x) = o /\ valid_intent (inj x)) m.

Definition prefixIntentKey (p : PrefixIntent) : string :=
  prefixKey (protocolString (x_Protocol p)) (x_Prefix p).

Definition owner_wf (o : string) (oi : OwnerIntents) : Prop :=
  filed APeer (fun p => peerKey (p_NeighborAddress p)) o (Peers oi) /\
  filed APrefix prefixIntentKey o (Prefixes oi) /\
  filed ABFD (fun b => bfdKey (b_PeerAddress b)) o (BFD oi) /\
  filed AOSPF (fun i => ospfKey (o_InterfaceName i)) o (OSPF oi).

Definition store_wf (s : Store) : Prop := map_Forall owner_wf s.

Lemma owner_wf_new o : owner_wf o newOwnerIntents.
Proof. split_and!; apply map_Forall_empty. Qed.

Lemma owner_wf_ensure s o : store_wf s -> owner_wf o (ensureOwner s o).
Proof. intros H. unfold ensureOwner. destruct (s !! o) eqn:E; [by apply H|apply owner_wf_new]. Qed.

Lemma owner_wf_insert o oi i :
  owner_wf o oi -> owner_of i = o -> valid_intent i -> owner_wf o (owner_insert oi i).
Proof.
  intros (H1 & H2 & H3 & H4) Ho Hv.
  destruct i; split_and!; cbn; try done; by apply map_Forall_insert_2.
Qed.

Lemma owner_wf_delete o oi i : owner_wf o oi -> owner_wf o (owner_delete oi i).
Proof.
  intros (H1 & H2 & H3 & H4).
  destruct i; split_and!; cbn; try done; by apply map_Forall_delete.
Qed.

Lemma owner_of_stamp o c u i : owner_of (stamp o c u i) = o.
Proof. by destruct i. Qed.

Lemma valid_stamp o c u i : valid_intent i -> valid_intent (stamp o c u i).
Proof. by destruct i. Qed.

Lemma apply_op_wf now s op : store_wf s -> store_wf (apply_op now s op).2.
Proof.
  intros Hs. destruct op as [o i|o i|o]; cbn [apply_op].
  - destruct (decide (o <> "" /\ valid_intent i)) as [[Ho Hv]|Hn].
    + rewrite SetIntent_eq by done. apply map_Forall_insert_2; [|done].
      apply owner_wf_insert; [by apply owner_wf_ensure|by rewrite owner_of_stamp|by apply valid_stamp].
    + by destruct (SetIntent_refused now s o i Hn) as [e ->].
  - destruct (decide (o <> "" /\ id_nonempty i /\ is_Some (lookup_intent s o i))) as [(Ho & Hi & j & Hj)|Hn].
    + rewrite RemoveIntentById_eq, Hj by done. apply map_Forall_insert_2; [|done].
      by apply owner_wf_delete, owner_wf_ensure.
    + by destruct (RemoveIntentById_refused s o i Hn) as [e ->].
  - cbn. unfold RemoveAllByOwner. destruct (s !! o); [|done]. by apply map_Forall_delete.
Qed.

(** A run of the store: operations with the times at which they happen. *)
Definition run_ops (s : Store) (ops : list (Z * store_op)) : Store :=
  foldl (fun s op => (apply_op op.1 s op.2).2) s ops.

Lemma run_ops_wf ops s : store_wf s -> store_wf (run_ops s ops).
Proof. revert s. induction ops as [|op ops IH]; [done|]. intros s H. by apply IH, apply_op_wf. Qed.

Lemma store_wf_new : store_wf NewStore.
Proof. apply map_Forall_empty. Qed.

Section Snapshot_lemmas.
Context {MI : MapIter}.

Lemma elem_of_snapshot {A} (proj : OwnerIntents -> gmap string A) (s : Store) x :
  x ∈ (iter_values s ≫= fun oi => iter_values (proj oi)) <->
  exists o oi k, s !! o = Some oi /\ proj oi !! k = Some x.
Proof.
  rewrite list_elem_of_bind. setoid_rewrite elem_of_iter_values. naive_solver.
Qed.

Definition snapshot (s : Store) (i : any_intent) : Prop :=
  match i with
  | APeer p => p ∈ GetPeerIntents s
  | APrefix p => p ∈ GetPrefixIntents s
  | ABFD b => b ∈ GetBFDIntents s
  | AOSPF o => o ∈ GetOSPFIntents s
  end.

(** After any run of the store, the four getters return exactly the intents
    filed for some owner: an intent is in its getter's list if and only if its
    own owner has it under its own id. *)
Theorem snapshots_exact ops i :
  let s := run_ops NewStore ops in
  snapshot s i <-> lookup_intent s (owner_of i) (id_of i) = Some i.
Proof.
  cbn. pose proof (run_ops_wf ops NewStore store_wf_new) as Hs.
  set (s := run_ops NewStore ops) in *. unfold lookup_intent.
  destruct i as [p|p|b|o]; cbn;
    unfold GetPeerIntents, GetPrefixIntents, GetBFDIntents, GetOSPFIntents;
    rewrite elem_of_snapshot; (split;
      [intros (o' & oi & k & Ho & Hk); destruct (Hs o' oi Ho) as (H1 & H2 & H3 & H4)
      |intros H; destruct (s !! _) as [oi|] eqn:Ho; [|done];
       apply fmap_Some in H as (x & Hx & [= <-]); by eauto]).
  - destruct (H1 k p Hk) as (-> & <- & _). cbn in Ho |- *. by rewrite Ho, Hk.
  - destruct (H2 k p Hk) as (-> & <- & _). cbn in Ho |- *. rewrite Ho.
    unfold prefixIntentKey in Hk. rewrite protocolString_text in Hk. by rewrite Hk.
  - destruct (H3 k b Hk) as (-> & <- & _). cbn in Ho |- *. by rewrite Ho, Hk.
  - destruct (H4 k o Hk) as (-> & <- & _). cbn in Ho |- *. by rewrite Ho, Hk.
Qed.
End Snapshot_lemmas.
