(* ===== verification/FrrClient.v ===== *)
(** The FRR client (internal/routing/frr): validation of the parameters, the
    batch of vtysh commands of each operation, and the classification of what
    vtysh answers.

    vtysh and the FRR daemons are the class [Vtysh]: what run number [n] prints
    and whether it exits cleanly is arbitrary.  A time-out or a cancelled context
    is a run that fails.  The JSON of the show commands is decoded by the
    language's library; the class gives the decoded entries.  [vty] is the state
    the operations thread: the number of runs so far and the log of
    configuration batches.  The paths of the client, its logger and its mutex
    are not modelled, and of errors only the sentinel is kept. *)

From Stdlib Require Import ZArith Lia Ascii String.
From stdpp Require Import base tactics list gmap strings fin_maps.
From S2P Require Import Prelude GoStrings GoMap GoNet GoUtf8 GoText.

Inductive frr_error : Set :=
| ErrVtyshFailed
| ErrVtyshConfigError
| ErrInvalidVTYParam
| ErrInvalidIPAddress
| ErrBGPNotConfigured
| ErrUnrecognizedAFI.

(** * State as FRR reports it (show.go) *)

Record BGPNeighborState := mkBGPNeighbor {
  n_Address : string;
  n_RemoteAS : Z;
  n_State : string;
  n_UpTime : string;
  n_MsgRcvd : Z;
  n_MsgSent : Z;
  n_PrefixesReceived : Z;
  n_PrefixesSent : Z }.

Record BFDPeerState := mkBFDPeer {
  f_PeerAddress : string;
  f_Interface : string;
  f_Status : string;
  f_Uptime : string }.

Record OSPFNeighborState := mkOSPFNeighbor {
  s_NeighborID : string;
  s_Address : string;
  s_Interface : string;
  s_State : string }.

(** The decoded JSON objects. *)
Record addressFamilyEntry := mkAfiEntry {
  AcceptedPrefixCounter : Z;
  SentPrefixCounter : Z }.

Record bgpNeighborJSON := mkBgpJSON {
  j_RemoteAS : Z;
  j_BGPState : string;
  j_BGPTimerUpString : string;
  j_MsgRcvd : Z;
  j_MsgSent : Z;
  j_AddressFamilyInfo : list (string * addressFamilyEntry) }.

Record bfdPeerJSON := mkBfdJSON {
  j_Peer : string;
  j_Interface : string;
  j_Status : string;
  j_Uptime : Z }.

Record ospfNeighborEntry := mkOspfJSON {
  j_NbrState : string;
  j_IfaceName : string;
  j_SrcAddress : string }.

(** * vtysh *)

Class Vtysh := {
  vtysh_config : nat -> list string -> option string;
  vtysh_show_bgp : nat -> option (list (string * bgpNeighborJSON));
  vtysh_show_bfd : nat -> option (list bfdPeerJSON);
  vtysh_show_ospf : nat -> option (list (string * list ospfNeighborEntry)) }.

Record vty_run := mkRun { run_commands : list string; run_accepted : bool }.
Record vty := mkVty { vty_runs : nat; vty_log : list vty_run }.

Definition V (A : Type) : Type := vty -> A * vty.

#[export] Instance V_ret : MRet V := fun A a v => (a, v).
#[export] Instance V_bind : MBind V := fun A B f m v => let '(a, v') := m v in f a v'.

(** A guard that returns its error early. *)
Definition check_ (e : option frr_error) (k : V (option frr_error)) : V (option frr_error) :=
  match e with Some x => mret (Some x) | None => k end.
Notation "'check' e ';;' k" := (check_ e k) (at level 100, e at next level, right associativity).

(** [Client]; [localAS] is the field that changes. *)
Record Client := mkClient { localAS : Z }.

Definition NewClient : Client := mkClient 0.

(** * Validation (sanitize.go) *)

Definition sanitizeVTYParam (s : string) : option frr_error :=
  if existsb IsControl (runes s) then Some ErrInvalidVTYParam else None.

Definition validateIPAddress (addr : string) : option frr_error :=
  match ParseIP addr with None => Some ErrInvalidIPAddress | Some _ => None end.

(** The check of an optional field: an empty string is not checked. *)
Definition sanitizeOpt (s : string) : option frr_error :=
  if String.eqb s "" then None else sanitizeVTYParam s.

(** * Running vtysh (client.go) *)

Definition nl : ascii := "010".
Definition cr : ascii := "013".

(** The text piped to vtysh. *)
Definition vty_lines (commands : list string) : list string :=
  "configure terminal" :: commands ++ ["end"].
Definition vty_input (commands : list string) : string :=
  join (String nl "") (vty_lines commands) +:+ String nl "".

(** The markers in the output that mean a command was rejected. *)
Definition has_error_marker (out : string) : bool :=
  contains out "% " || contains out "error reading from" || contains out "is not running"
  || contains out "Command incomplete" || contains out "connection refused"
  || contains out "vtysh: error".

Definition sanitizeCommand (cmd : string) : string :=
  match cut_sub " password " cmd with
  | Some (before, _) => before +:+ " password ***"
  | None => cmd
  end.

Section Client.
Context {VT : Vtysh}.

Definition runConfig (commands : list string) : V (option frr_error) := fun v =>
  let res :=
    match vtysh_config (vty_runs v) commands with
    | None => Some ErrVtyshFailed
    | Some out => if has_error_marker out then Some ErrVtyshConfigError else None
    end in
  (res, mkVty (S (vty_runs v))
          (vty_log v ++ [mkRun commands (match res with None => true | Some _ => false end)])).

(** [runShow] followed by the decoding of its output. *)
Definition runShow {A} (show : nat -> option A) : V (option A) := fun v =>
  (show (vty_runs v), mkVty (S (vty_runs v)) (vty_log v)).

(** * BGP (bgp.go) *)

Record NeighborConfig := mkNbrCfg {
  SourceAddress : string;
  EBGPMultihop : Z;
  Password : string;
  Description : string }.

Definition exitAddressFamily : string := "exit-address-family".

Definition bgpGracefulRestartCommands : list string :=
  ["bgp graceful-restart";
   "bgp graceful-restart restart-time 120";
   "bgp graceful-restart stalepath-time 360"].

Definition bgpGlobalCommands (as_ : Z) (routerID : string) : list string :=
  ["router bgp " +:+ fmt_d as_; "bgp router-id " +:+ routerID; "no bgp ebgp-requires-policy"]
  ++ bgpGracefulRestartCommands.

Definition resolveAFICLI (afi : string) : result frr_error string :=
  if String.eqb afi "ipv4-unicast" || String.eqb afi "ipv4" then Ok "ipv4 unicast"
  else if String.eqb afi "ipv6-unicast" || String.eqb afi "ipv6" then Ok "ipv6 unicast"
  else Err ErrUnrecognizedAFI.

Definition ConfigureBGPGlobal (c : Client) (localAS : Z) (routerID : string)
    : V (Client * option frr_error) :=
  match sanitizeVTYParam routerID with
  | Some e => mret (c, Some e)
  | None =>
      err ← runConfig (bgpGlobalCommands localAS routerID);
      match err with
      | Some e => mret (c, Some e)
      | None => mret (mkClient localAS, None)
      end
  end.

Definition ReconfigureBGPGlobal (c : Client) (oldAS newAS : Z) (routerID : string)
    : V (Client * option frr_error) :=
  match sanitizeVTYParam routerID with
  | Some e => mret (c, Some e)
  | None =>
      if oldAS =? newAS then
        err ← runConfig (bgpGlobalCommands newAS routerID);
        mret (c, err)
      else if negb (oldAS =? 0) then
        err ← runConfig ["no router bgp " +:+ fmt_d oldAS];
        match err with
        | Some e => mret (c, Some e)
        | None => ConfigureBGPGlobal c newAS routerID
        end
      else ConfigureBGPGlobal c newAS routerID
  end.

Definition GetLocalAS (c : Client) : Z := localAS c.

Definition router_bgp (c : Client) : string := "router bgp " +:+ fmt_d (localAS c).

Definition addNeighborCommands (c : Client) (addr : string) (remoteAS keepalive holdTime : Z)
    (cfg : option NeighborConfig) : list string :=
  [router_bgp c; "neighbor " +:+ addr +:+ " remote-as " +:+ fmt_d remoteAS]
  ++ (if (0 <? keepalive) && (0 <? holdTime)
      then ["neighbor " +:+ addr +:+ " timers " +:+ fmt_d keepalive +:+ " " +:+ fmt_d holdTime] else [])
  ++ match cfg with
     | None => []
     | Some g =>
         (if String.eqb (Description g) "" then []
          else ["neighbor " +:+ addr +:+ " description " +:+ Description g])
         ++ (if String.eqb (SourceAddress g) "" then []
             else ["neighbor " +:+ addr +:+ " update-source " +:+ SourceAddress g])
         ++ (if 0 <? EBGPMultihop g
             then ["neighbor " +:+ addr +:+ " ebgp-multihop " +:+ fmt_d (EBGPMultihop g)] else [])
         ++ (if String.eqb (Password g) "" then []
             else ["neighbor " +:+ addr +:+ " password " +:+ Password g])
     end.

Definition AddNeighbor (c : Client) (addr : string) (remoteAS : Z) (peerType : string)
    (keepalive holdTime : Z) (cfg : option NeighborConfig) : V (option frr_error) :=
  check validateIPAddress addr;;
  check match cfg with Some g => sanitizeOpt (Description g) | None => None end;;
  check match cfg with Some g => sanitizeOpt (Password g) | None => None end;;
  check match cfg with
        | Some g => if String.eqb (SourceAddress g) "" then None else validateIPAddress (SourceAddress g)
        | None => None
        end;;
  if localAS c =? 0 then mret (Some ErrBGPNotConfigured)
  else runConfig (addNeighborCommands c addr remoteAS keepalive holdTime cfg).

Definition RemoveNeighbor (c : Client) (addr : string) : V (option frr_error) :=
  check validateIPAddress addr;;
  runConfig [router_bgp c; "no neighbor " +:+ addr].

(** The operations that run inside an address family. *)
Definition in_afi (c : Client) (afi : string) (commands : list string) : V (option frr_error) :=
  match resolveAFICLI afi with
  | Err e => mret (Some e)
  | Ok afiName =>
      runConfig ([router_bgp c; "address-family " +:+ afiName] ++ commands ++ [exitAddressFamily])
  end.

Definition ActivateNeighborAFI (c : Client) (addr afi : string) : V (option frr_error) :=
  check validateIPAddress addr;;
  in_afi c afi ["neighbor " +:+ addr +:+ " activate";
                "neighbor " +:+ addr +:+ " soft-reconfiguration inbound"].

Definition AdvertiseNetwork (c : Client) (prefix afi : string) : V (option frr_error) :=
  check sanitizeVTYParam prefix;;
  in_afi c afi ["network " +:+ prefix].

Definition WithdrawNetwork (c : Client) (prefix afi : string) : V (option frr_error) :=
  check sanitizeVTYParam prefix;;
  in_afi c afi ["no network " +:+ prefix].

Definition SetNeighborMaxPrefix (c : Client) (addr : string) (maxPrefixes : Z) (warningOnly : bool)
    (afi : string) : V (option frr_error) :=
  check validateIPAddress addr;;
  in_afi c afi ["neighbor " +:+ addr +:+ " maximum-prefix " +:+ fmt_d maxPrefixes
                +:+ (if warningOnly then " warning-only" else "")].

(** The first error of a list of parameters. *)
Fixpoint sanitizeAll (l : list string) : option frr_error :=
  match l with
  | [] => None
  | s :: r => match sanitizeVTYParam s with Some e => Some e | None => sanitizeAll r end
  end.

Definition ConfigureRouteMap (c : Client) (name : string) (setCmds : list string) : V (option frr_error) :=
  check sanitizeVTYParam name;;
  check sanitizeAll setCmds;;
  runConfig (["no route-map " +:+ name; "route-map " +:+ name +:+ " permit 10"] ++ setCmds ++ ["exit"]).

Definition AdvertiseNetworkWithRouteMap (c : Client) (prefix afi routeMap : string) : V (option frr_error) :=
  check sanitizeVTYParam prefix;;
  check sanitizeVTYParam routeMap;;
  in_afi c afi ["network " +:+ prefix +:+ " route-map " +:+ routeMap].

Definition RemoveRouteMap (c : Client) (name : string) : V (option frr_error) :=
  check sanitizeVTYParam name;;
  runConfig ["no route-map " +:+ name].

Definition SetNeighborBFD (c : Client) (addr : string) (enabled : bool) : V (option frr_error) :=
  check validateIPAddress addr;;
  runConfig [router_bgp c;
             if enabled then "neighbor " +:+ addr +:+ " bfd" else "no neighbor " +:+ addr +:+ " bfd"].

(** * BFD (bfd.go) *)

Definition opt_cmd (n : Z) (text : string) : list string :=
  if 0 <? n then [text +:+ fmt_d n] else [].

Definition AddBFDPeer (c : Client) (peerAddr : string) (minRx minTx detectMult : Z) (iface : string)
    : V (option frr_error) :=
  check validateIPAddress peerAddr;;
  check sanitizeOpt iface;;
  runConfig (
    ["bfd"; "peer " +:+ peerAddr +:+ (if String.eqb iface "" then "" else " interface " +:+ iface)]
    ++ opt_cmd minRx "receive-interval " ++ opt_cmd minTx "transmit-interval "
    ++ opt_cmd detectMult "detect-multiplier " ++ ["exit"; "exit"]).

Definition RemoveBFDPeer (c : Client) (peerAddr iface : string) : V (option frr_error) :=
  check validateIPAddress peerAddr;;
  check sanitizeOpt iface;;
  runConfig
    ["bfd"; "no peer " +:+ peerAddr +:+ (if String.eqb iface "" then "" else " interface " +:+ iface);
     "exit"].

(** * OSPF (ospf.go) *)

Definition EnableOSPFInterface (c : Client) (ifaceName areaID : string) (passive : bool)
    (cost hello dead : Z) : V (option frr_error) :=
  check sanitizeVTYParam ifaceName;;
  check sanitizeVTYParam areaID;;
  runConfig (
    ["interface " +:+ ifaceName; "ip ospf area " +:+ areaID]
    ++ opt_cmd cost "ip ospf cost " ++ opt_cmd hello "ip ospf hello-interval "
    ++ opt_cmd dead "ip ospf dead-interval " ++ ["exit"]
    ++ (if passive then ["router ospf"; "passive-interface " +:+ ifaceName] else [])).

Definition EnableOSPFv3Interface (c : Client) (ifaceName areaID : string) (passive : bool)
    (cost : Z) : V (option frr_error) :=
  check sanitizeVTYParam ifaceName;;
  check sanitizeVTYParam areaID;;
  runConfig (
    ["interface " +:+ ifaceName; "ipv6 ospf6 area " +:+ areaID]
    ++ opt_cmd cost "ipv6 ospf6 cost " ++ ["exit"]
    ++ (if passive then ["router ospf6"; "passive-interface " +:+ ifaceName] else [])).

Definition DisableOSPFv3Interface (c : Client) (ifaceName areaID : string) (passive : bool)
    : V (option frr_error) :=
  check sanitizeVTYParam ifaceName;;
  check sanitizeVTYParam areaID;;
  runConfig (
    ["interface " +:+ ifaceName; "no ipv6 ospf6 area " +:+ areaID; "exit"]
    ++ (if passive then ["router ospf6"; "no passive-interface " +:+ ifaceName] else [])).

Definition DisableOSPFInterface (c : Client) (ifaceName areaID : string) (passive : bool)
    : V (option frr_error) :=
  check sanitizeVTYParam ifaceName;;
  check sanitizeVTYParam areaID;;
  runConfig (
    ["interface " +:+ ifaceName; "no ip ospf area " +:+ areaID; "exit"]
    ++ (if passive then ["router ospf"; "no passive-interface " +:+ ifaceName] else [])).

(** * Show commands (show.go) *)

Definition sum32 (f : addressFamilyEntry -> Z) (l : list (string * addressFamilyEntry)) : Z :=
  foldl (fun a e => wrap32 (a + f e.2)) 0 l.

(** [parseBGPNeighborsJSON] on the decoded object. *)
Definition parseBGPNeighbors (raw : list (string * bgpNeighborJSON)) : list BGPNeighborState :=
  (fun '(addr, nbr) =>
     mkBGPNeighbor addr (j_RemoteAS nbr) (j_BGPState nbr) (j_BGPTimerUpString nbr)
       (j_MsgRcvd nbr) (j_MsgSent nbr)
       (sum32 AcceptedPrefixCounter (j_AddressFamilyInfo nbr))
       (sum32 SentPrefixCounter (j_AddressFamilyInfo nbr))) <$> raw.

Definition bfdUptime (u : Z) : string :=
  if 0 <? u then fmt_d (u / 3600) +:+ "h" +:+ fmt_d (u mod 3600 / 60) +:+ "m" +:+ fmt_d (u mod 60) +:+ "s"
  else "".

(** [parseBFDPeersJSON] on the decoded array. *)
Definition parseBFDPeers (peers : list bfdPeerJSON) : list BFDPeerState :=
  (fun p => mkBFDPeer (j_Peer p) (j_Interface p) (j_Status p) (bfdUptime (j_Uptime p))) <$> peers.

(** The state up to the first slash. *)
Definition baseState (state : string) : string :=
  match cut "/" state with Some (s, _) => s | None => state end.

(** [parseOSPFNeighborsJSON] on the decoded object. *)
Definition parseOSPFNeighbors (raw : list (string * list ospfNeighborEntry)) : list OSPFNeighborState :=
  raw ≫= fun '(nbrID, entries) =>
    (fun e => mkOSPFNeighbor nbrID
                (if String.eqb (j_SrcAddress e) "" then nbrID else j_SrcAddress e)
                (j_IfaceName e) (baseState (j_NbrState e))) <$> entries.

Definition GetBGPNeighbors : V (option (list BGPNeighborState)) :=
  r ← runShow vtysh_show_bgp; mret (parseBGPNeighbors <$> r).
Definition GetBFDPeers : V (option (list BFDPeerState)) :=
  r ← runShow vtysh_show_bfd; mret (parseBFDPeers <$> r).
Definition GetOSPFNeighbors : V (option (list OSPFNeighborState)) :=
  r ← runShow vtysh_show_ospf; mret (parseOSPFNeighbors <$> r).
End Client.

(** * What the operations send *)

(** A configuration operation of the client, with its arguments. *)
Inductive client_call : Type :=
| CConfigureBGPGlobal (as_ : Z) (routerID : string)
| CReconfigureBGPGlobal (oldAS newAS : Z) (routerID : string)
| CAddNeighbor (addr : string) (remoteAS : Z) (peerType : string) (keepalive holdTime : Z)
    (cfg : option NeighborConfig)
| CRemoveNeighbor (addr : string)
| CActivateNeighborAFI (addr afi : string)
| CAdvertiseNetwork (prefix afi : string)
| CWithdrawNetwork (prefix afi : string)
| CSetNeighborMaxPrefix (addr : string) (maxPrefixes : Z) (warningOnly : bool) (afi : string)
| CConfigureRouteMap (name : string) (setCmds : list string)
| CAdvertiseNetworkWithRouteMap (prefix afi routeMap : string)
| CRemoveRouteMap (name : string)
| CSetNeighborBFD (addr : string) (enabled : bool)
| CAddBFDPeer (peerAddr : string) (minRx minTx detectMult : Z) (iface : string)
| CRemoveBFDPeer (peerAddr iface : string)
| CEnableOSPFInterface (ifaceName areaID : string) (passive : bool) (cost hello dead : Z)
| CEnableOSPFv3Interface (ifaceName areaID : string) (passive : bool) (cost : Z)
| CDisableOSPFInterface (ifaceName areaID : string) (passive : bool)
| CDisableOSPFv3Interface (ifaceName areaID : string) (passive : bool).

Section Calls.
Context {VT : Vtysh}.

Definition client_op (c : Client) (op : client_call) : V (option frr_error) :=
  match op with
  | CConfigureBGPGlobal a r => r ← ConfigureBGPGlobal c a r; mret r.2
  | CReconfigureBGPGlobal o n r => r ← ReconfigureBGPGlobal c o n r; mret r.2
  | CAddNeighbor a r t k h g => AddNeighbor c a r t k h g
  | CRemoveNeighbor a => RemoveNeighbor c a
  | CActivateNeighborAFI a f => ActivateNeighborAFI c a f
  | CAdvertiseNetwork p f => AdvertiseNetwork c p f
  | CWithdrawNetwork p f => WithdrawNetwork c p f
  | CSetNeighborMaxPrefix a m w f => SetNeighborMaxPrefix c a m w f
  | CConfigureRouteMap n l => ConfigureRouteMap c n l
  | CAdvertiseNetworkWithRouteMap p f m => AdvertiseNetworkWithRouteMap c p f m
  | CRemoveRouteMap n => RemoveRouteMap c n
  | CSetNeighborBFD a e => SetNeighborBFD c a e
  | CAddBFDPeer a x t d i => AddBFDPeer c a x t d i
  | CRemoveBFDPeer a i => RemoveBFDPeer c a i
  | CEnableOSPFInterface i a p x h d => EnableOSPFInterface c i a p x h d
  | CEnableOSPFv3Interface i a p x => EnableOSPFv3Interface c i a p x
  | CDisableOSPFInterface i a p => DisableOSPFInterface c i a p
  | CDisableOSPFv3Interface i a p => DisableOSPFv3Interface c i a p
  end.
End Calls.

(** ** The bytes of an accepted address *)

Definition is_ip_char (c : ascii) : bool :=
  match hex_val c with Some _ => true | None => Ascii.eqb c "." || Ascii.eqb c ":" end.

Lemma str_all_split p c s :
  p c = true -> Forall (fun x => str_all p x = true) (split_on c s) -> str_all p s = true.
Proof.
  intros Hc. induction s as [|d s IH]; [done|]. cbn [split_on str_all].
  destruct (Ascii.eqb_spec d c) as [->|Hd].
  - rewrite Forall_cons. intros [_ H]. rewrite Hc. by apply IH.
  - pose proof (split_on_nonempty c s) as Hne. destruct (split_on c s) as [|h t]; [done|].
    rewrite Forall_cons. cbn [str_all]. rewrite andb_true_iff. intros [[Hp Hh] Ht].
    rewrite Hp. cbn. apply IH. by constructor.
Qed.

Lemma read_digits_chars val p s l :
  (forall c d, val c = Some d -> p c = true) -> read_digits val s = Some l -> str_all p s = true.
Proof.
  intros Hv. revert l. induction s as [|c s IH]; intros l; [done|]. cbn.
  destruct (val c) eqn:E; [|done]. destruct (read_digits val s) eqn:E2; [|done].
  intros _. rewrite (Hv _ _ E). by eapply IH.
Qed.

Lemma dec_is_ip_char c d : dec_val c = Some d -> is_ip_char c = true.
Proof. unfold dec_val, is_ip_char, hex_val. case_match; [done|done]. Qed.

Lemma hex_is_ip_char c d : hex_val c = Some d -> is_ip_char c = true.
Proof. unfold is_ip_char. by intros ->. Qed.

Lemma parse_octet_chars s x : parse_octet s = Some x -> str_all is_ip_char s = true.
Proof.
  unfold parse_octet. destruct (read_digits dec_val s) eqn:E; [|done]. intros _.
  eapply read_digits_chars; [|done]. apply dec_is_ip_char.
Qed.

Lemma parse_group_chars s x : parse_group s = Some x -> str_all is_ip_char s = true.
Proof.
  unfold parse_group. destruct (read_digits hex_val s) eqn:E; [|done]. intros _.
  eapply read_digits_chars; [|done]. apply hex_is_ip_char.
Qed.

Lemma mapM_chars (f : string -> option Z) l k :
  (forall s x, f s = Some x -> str_all is_ip_char s = true) ->
  mapM f l = Some k -> Forall (fun s => str_all is_ip_char s = true) l.
Proof.
  intros Hf H. apply mapM_Some in H. induction H as [|x y l k Hxy H IH]; constructor; eauto.
Qed.

Lemma parse_ipv4_chars s x : parse_ipv4 s = Some x -> str_all is_ip_char s = true.
Proof.
  unfold parse_ipv4. intros H. apply (str_all_split _ "."); [done|].
  destruct (split_on "." s) as [|a [|b [|c [|d [|]]]]]; try done.
  eapply mapM_chars; [apply parse_octet_chars|done].
Qed.

Lemma parse_fields_chars l k :
  parse_fields l = Some k -> Forall (fun s => str_all is_ip_char s = true) l.
Proof.
  revert k. induction l as [|x l IH]; intros k H; [done|].
  destruct l as [|y l].
  - constructor; [|done]. cbn in H. destruct (str_has "." x).
    + destruct (parse_ipv4 x) eqn:E; [|done]. by eapply parse_ipv4_chars.
    + destruct (parse_group x) eqn:E; [|done]. by eapply parse_group_chars.
  - change (match parse_group x, parse_fields (y :: l) with
            | Some g, Some gs => Some (g :: gs) | _, _ => None end = Some k) in H.
    destruct (parse_group x) eqn:E1; [|done]. destruct (parse_fields (y :: l)) eqn:E2; [|done].
    constructor; [by eapply parse_group_chars|by eapply IH].
Qed.

Lemma cut_ellipsis_Some s l r : cut_ellipsis s = Some (l, r) -> s = l +:+ "::" +:+ r.
Proof.
  revert l r. induction s as [|c s IH]; intros l r; [done|]. cbn.
  destruct (Ascii.eqb_spec c ":") as [->|]; [destruct s as [|d s']; [done|]|];
    [destruct (Ascii.eqb_spec d ":") as [->|]; [by intros [= <- <-]|]|];
    destruct (cut_ellipsis _) as [[a b]|]; try done; intros [= <- <-];
    rewrite str_app_cons; by rewrite <- (IH a b).
Qed.

Lemma parse_side_chars parse s k :
  (forall l k, parse l = Some k -> Forall (fun s => str_all is_ip_char s = true) l) ->
  parse_side parse s = Some k -> str_all is_ip_char s = true.
Proof.
  intros Hp. unfold parse_side. destruct (String.eqb_spec s "") as [->|]; [done|].
  intros H. apply (str_all_split _ ":"); [done|]. by eapply Hp.
Qed.

Lemma ParseIP_chars s ip : ParseIP s = Some ip -> str_all is_ip_char s = true.
Proof.
  unfold ParseIP, parse_addr. destruct (first_mark s) as [c|]; [|done].
  destruct (Ascii.eqb c ".").
  { destruct (parse_ipv4 s) eqn:E; [|done]. intros _. by eapply parse_ipv4_chars. }
  destruct (Ascii.eqb c ":"); [|done]. destruct (str_has "%" s); [done|].
  unfold parse_ipv6, parse_groups. destruct (cut_ellipsis s) as [[l r]|] eqn:Ec.
  - apply cut_ellipsis_Some in Ec as ->. rewrite !str_all_app.
    destruct (parse_side (mapM _) l) eqn:El; [|done].
    destruct (parse_side parse_fields r) eqn:Er; [|done]. intros _.
    apply parse_side_chars in Er; [|apply parse_fields_chars].
    apply parse_side_chars in El; [|intros ??; apply mapM_chars, parse_group_chars].
    by rewrite El, Er.
  - destruct (parse_fields (split_on ":" s)) eqn:E; [|done]. intros _.
    apply (str_all_split _ ":"); [done|]. by eapply parse_fields_chars.
Qed.

Lemma ParseIP_lacks s ip c : ParseIP s = Some ip -> is_ip_char c = false -> lacks c s.
Proof.
  intros H Hc. apply ParseIP_chars in H. unfold lacks. eapply str_all_impl; [|done].
  intros d Hd. apply negb_true_iff, Ascii.eqb_neq. intros ->. congruence.
Qed.

(** ** One line per command *)

(** A text that stays on its line. *)
Definition one_line (s : string) : Prop := lacks nl s /\ lacks cr s.

Lemma one_line_app s t : one_line s -> one_line t -> one_line (s +:+ t).
Proof. unfold one_line. rewrite !lacks_app. tauto. Qed.

Lemma fmt_d_one_line n : one_line (fmt_d n).
Proof.
  split; (destruct (n <? 0) eqn:E; to_prop;
    [unfold fmt_d; rewrite (proj2 (Z.ltb_lt n 0) E), lacks_app; split; [done|];
     apply digits_str_lacks; [|done]; eapply Forall_impl; [by apply (digits_range 10); lia|]; simpl; lia
    |by apply fmt_d_lacks]).
Qed.

Lemma sanitize_one_line s : sanitizeVTYParam s = None -> one_line s.
Proof.
  unfold sanitizeVTYParam. destruct (existsb IsControl (runes s)) eqn:E; [done|]. intros _.
  assert (forallb (fun r => negb (IsControl r)) (runes s) = true) as H.
  { apply forallb_forall. intros x Hx. apply negb_true_iff.
    destruct (IsControl x) eqn:Ex; [|done].
    rewrite <- not_true_iff_false, existsb_exists in E. destruct E. eauto. }
  split; by apply no_control_lacks.
Qed.

Lemma validate_one_line s : validateIPAddress s = None -> one_line s.
Proof.
  unfold validateIPAddress. destruct (ParseIP s) eqn:E; [|done]. intros _.
  split; by eapply ParseIP_lacks.
Qed.

Lemma sanitizeOpt_one_line s : sanitizeOpt s = None -> one_line s.
Proof.
  unfold sanitizeOpt. destruct (String.eqb_spec s "") as [->|]; [done|]. apply sanitize_one_line.
Qed.

Lemma sanitizeAll_one_line l : sanitizeAll l = None -> Forall one_line l.
Proof.
  induction l as [|s l IH]; [done|]. cbn. destruct (sanitizeVTYParam s) eqn:E; [done|].
  intros H. constructor; [by apply sanitize_one_line|by apply IH].
Qed.

Lemma afi_one_line afi n : resolveAFICLI afi = Ok n -> one_line n.
Proof. unfold resolveAFICLI. repeat case_match; intros; simplify_eq; done. Qed.

Create HintDb vty discriminated.
#[export] Hint Resolve one_line_app fmt_d_one_line sanitize_one_line validate_one_line
  sanitizeOpt_one_line sanitizeAll_one_line afi_one_line : vty.
#[export] Hint Extern 1 (one_line _) => (split; reflexivity) : vty.
#[export] Hint Extern 0 (Forall one_line _) => assumption : vty.

(** The runs of an operation carry one-line commands only. *)
Definition sends_lines {A} (m : V A) : Prop := forall v, exists rs,
  vty_log (m v).2 = vty_log v ++ rs /\ Forall (fun r => Forall one_line (run_commands r)) rs.

Lemma sends_ret {A} (a : A) : sends_lines (mret a).
Proof. intros v. exists []. by rewrite app_nil_r. Qed.

Lemma sends_bind {A B} (m : V A) (f : A -> V B) :
  sends_lines m -> (forall a, sends_lines (f a)) -> sends_lines (m ≫= f).
Proof.
  intros Hm Hf v. unfold mbind, V_bind. destruct (Hm v) as (r1 & H1 & F1).
  destruct (m v) as [a v']. destruct (Hf a v') as (r2 & H2 & F2). cbn in *.
  exists (r1 ++ r2). rewrite H2, H1, app_assoc. split; [done|]. by apply Forall_app.
Qed.

Lemma sends_check e k : (e = None -> sends_lines k) -> sends_lines (check_ e k).
Proof. intros H. destruct e; [apply sends_ret|by apply H]. Qed.

Lemma opt_cmd_lines n t : one_line t -> Forall one_line (opt_cmd n t).
Proof. intros. unfold opt_cmd. case_match; [|done]. apply Forall_singleton. auto with vty. Qed.

(** Check a batch command by command. *)
Ltac solve_lines :=
  repeat (first [apply Forall_nil_2 | apply Forall_cons_2 | apply Forall_app_2 | apply opt_cmd_lines
                | progress eauto with vty | case_match ]);
  eauto 8 with vty.

Lemma join_snoc sep l x : l <> [] -> join sep (l ++ [x]) = join sep l +:+ sep +:+ x.
Proof.
  intros Hl. induction l as [|y l IH]; [done|]. destruct l as [|z l]; [done|].
  change (y +:+ sep +:+ join sep ((z :: l) ++ [x]) = (y +:+ sep +:+ join sep (z :: l)) +:+ sep +:+ x).
  rewrite IH by done. by rewrite !str_app_assoc.
Qed.

Lemma vty_input_lines l :
  Forall one_line (vty_lines l) ->
  split_on nl (vty_input l) = vty_lines l ++ [""] /\ lacks cr (vty_input l).
Proof.
  intros H. split.
  - replace (vty_input l) with (join (String nl "") (vty_lines l ++ [""])).
    + apply split_on_join; [done|]. apply Forall_app. split; [|by repeat constructor]. eapply Forall_impl; [done|]. by intros ? [].
    + unfold vty_input. by rewrite join_snoc.
  - unfold vty_input. rewrite lacks_app. split; [|done]. apply lacks_join; [done|].
    eapply Forall_impl; [done|]. by intros ? [].
Qed.

Section Lines.
Context {VT : Vtysh}.

Lemma sends_runConfig l : Forall one_line l -> sends_lines (runConfig l).
Proof. intros H v. unfold runConfig. eexists [_]. split; [reflexivity|]. by repeat constructor. Qed.

Lemma sends_in_afi c afi l : Forall one_line l -> sends_lines (in_afi c afi l).
Proof.
  intros H. unfold in_afi. destruct (resolveAFICLI afi) as [n|] eqn:E; [|apply sends_ret].
  apply sends_runConfig. unfold router_bgp. solve_lines.
Qed.

Lemma bgpGlobal_lines a r : one_line r -> Forall one_line (bgpGlobalCommands a r).
Proof. intros. unfold bgpGlobalCommands, bgpGracefulRestartCommands. cbn [app]. solve_lines. Qed.

Lemma sends_ConfigureBGPGlobal c a r : sends_lines (ConfigureBGPGlobal c a r).
Proof.
  unfold ConfigureBGPGlobal. destruct (sanitizeVTYParam r) eqn:E; [apply sends_ret|].
  apply sends_bind; [apply sends_runConfig, bgpGlobal_lines; auto with vty|].
  intros []; apply sends_ret.
Qed.

Lemma sends_ReconfigureBGPGlobal c o n r : sends_lines (ReconfigureBGPGlobal c o n r).
Proof.
  unfold ReconfigureBGPGlobal. destruct (sanitizeVTYParam r) eqn:E; [apply sends_ret|].
  destruct (o =? n); [apply sends_bind; [apply sends_runConfig, bgpGlobal_lines; auto with vty|]|].
  - intros; apply sends_ret.
  - destruct (negb _); [|apply sends_ConfigureBGPGlobal]. apply sends_bind.
    + apply sends_runConfig. solve_lines.
    + intros []; [apply sends_ret|apply sends_ConfigureBGPGlobal].
Qed.

Lemma sends_AddNeighbor c a r t k h g : sends_lines (AddNeighbor c a r t k h g).
Proof.
  unfold AddNeighbor. repeat (apply sends_check; intros ?).
  destruct (localAS c =? 0); [apply sends_ret|]. apply sends_runConfig.
  unfold addNeighborCommands, router_bgp. destruct g as [g|]; [|solve_lines].
  assert (one_line (SourceAddress g)) by (destruct (String.eqb_spec (SourceAddress g) "") as [-> |];
    auto with vty).
  solve_lines.
Qed.

(** The position of the secret in the password command. *)
Lemma sanitize_password addr pw :
  validateIPAddress addr = None ->
  sanitizeCommand ("neighbor " +:+ addr +:+ " password " +:+ pw) = "neighbor " +:+ addr +:+ " password ***".
Proof.
  unfold validateIPAddress. destruct (ParseIP addr) as [ip|] eqn:E; [|done]. intros _.
  pose proof (ParseIP_lacks addr ip " " E eq_refl) as Hs.
  pose proof (ParseIP_lacks addr ip "p" E eq_refl) as Hp.
  assert (cut_sub " password " (addr +:+ " password " +:+ pw) = Some (addr, pw)) as Hc
    by by apply (cut_sub_app " " "password ").
  unfold sanitizeCommand.
  change ("neighbor " +:+ addr +:+ " password " +:+ pw)
    with ("neighbor" +:+ String " " (addr +:+ " password " +:+ pw)).
  rewrite (cut_sub_field " " "password "), cut_sub_skip, Hc by
    (done || (destruct addr as [|d r]; [done|]; unfold lacks in Hp; cbn [str_all] in Hp;
     apply andb_true_iff in Hp as [Hd%negb_true_iff _]; rewrite str_app_cons;
     cbn [cut_prefix]; rewrite Ascii.eqb_refl, (Ascii.eqb_sym _ d), Hd; done)).
  cbn. done.
Qed.

(** A neighbour's password does not reach the log.  The commands [AddNeighbor]
    builds for two configurations that differ in the password only are logged
    identically. *)
Theorem password_not_logged c addr remoteAS keepalive holdTime src hops desc pw1 pw2 :
  validateIPAddress addr = None -> pw1 <> "" -> pw2 <> "" ->
  let logged pw := sanitizeCommand <$>
    addNeighborCommands c addr remoteAS keepalive holdTime (Some (mkNbrCfg src hops pw desc)) in
  logged pw1 = logged pw2.
Proof.
  intros Ha H1%String.eqb_neq H2%String.eqb_neq. cbn zeta.
  assert (forall pw, sanitizeCommand <$> ["neighbor " +:+ addr +:+ " password " +:+ pw]
                     = ["neighbor " +:+ addr +:+ " password ***"]) as Hp.
  { intros pw. change ([sanitizeCommand ("neighbor " +:+ addr +:+ " password " +:+ pw)]
                       = ["neighbor " +:+ addr +:+ " password ***"]).
    by rewrite sanitize_password. }
  unfold addNeighborCommands. cbn [Password Description SourceAddress EBGPMultihop].
  by rewrite H1, H2, !fmap_app, !Hp.
Qed.

Lemma password_not_logged_witness :
  (sanitizeCommand <$> addNeighborCommands (mkClient 65000) "10.0.0.1" 65001 0 0
     (Some (mkNbrCfg "" 0 "secret" "")))
  = (sanitizeCommand <$> addNeighborCommands (mkClient 65000) "10.0.0.1" 65001 0 0
       (Some (mkNbrCfg "" 0 "other" ""))).
Proof.
  exact (password_not_logged (mkClient 65000) "10.0.0.1" 65001 0 0 "" 0 "" "secret" "other"
           ltac:(reflexivity) ltac:(discriminate) ltac:(discriminate)).
Defined.

(** C27: No parameter can smuggle in configuration.  Whatever strings a caller
    passes to an operation of the client, each batch the operation pipes to
    vtysh reads, line by line, as "configure terminal", the commands of the
    batch and "end". *)
Theorem one_line_per_command c op v :
  exists rs, vty_log (client_op c op v).2 = vty_log v ++ rs /\
    Forall (fun r => split_on nl (vty_input (run_commands r)) = vty_lines (run_commands r) ++ [""] /\
                     lacks cr (vty_input (run_commands r))) rs.
Proof.
  assert (sends_lines (client_op c op)) as H.
  { destruct op; cbn [client_op];
      try (apply sends_bind; [first [apply sends_ConfigureBGPGlobal | apply sends_ReconfigureBGPGlobal]|];
           intros; apply sends_ret);
      try apply sends_AddNeighbor;
      unfold RemoveNeighbor, ActivateNeighborAFI, AdvertiseNetwork, WithdrawNetwork,
        SetNeighborMaxPrefix, ConfigureRouteMap, AdvertiseNetworkWithRouteMap, RemoveRouteMap,
        SetNeighborBFD, AddBFDPeer, RemoveBFDPeer, EnableOSPFInterface, EnableOSPFv3Interface,
        DisableOSPFInterface, DisableOSPFv3Interface;
      repeat (apply sends_check; intros ?);
      first [apply sends_in_afi | apply sends_runConfig]; unfold router_bgp; solve_lines. }
  destruct (H v) as (rs & E & F). exists rs. split; [done|].
  eapply Forall_impl; [done|]. intros [l ok] Hl. cbn in *.
  assert (Forall one_line (vty_lines l)) as Hv.
  { unfold vty_lines. constructor; [done|]. apply Forall_app. split; [done|]. by repeat constructor. }
  by apply vty_input_lines.
Qed.
End Lines.
