(* ===== verification/Reconciler.v ===== *)
(** The routing reconciler (internal/routing/reconciler/reconciler.go): the
    applied state it tracks, the translation of intents into client calls, the
    reconciliation of each kind of intent, the reconciliation cycle, the direct
    operations, withdrawal and the monitoring of FRR's state.

    The code runs in the monad [M]: it threads the reconciler, the vtysh state
    and the published events, and a call through a nil client panics.  Methods
    that hold the mutex are atomic.  Metrics and logging are dropped; of an error
    the sentinel is kept, and a list of errors stands for the aggregate (the
    empty list for nil).  The intent store is an argument. *)

From Stdlib Require Import ZArith Lia Ascii String.
From stdpp Require Import base tactics list gmap strings fin_maps.
From S2P Require Import Prelude GoStrings GoMap GoNet GoUtf8 GoText Intent FrrClient.

Inductive rec_error : Set :=
| RFrr (e : frr_error)
| ErrFRRClientNotAvailable
| ErrBGPGlobalNotSet
| ErrUnexpectedIntentType
| ErrUnknownIntentType
| ErrAppliedNotFound
| ErrUnspecifiedProtocol
| ErrUnsupportedProtocol.

Definition bgpStateEstablished : string := "Established".
Definition ospfStateFull : string := "Full".

(** A call of [PublishRouteEvent]. *)
Record route_event := mkEvent {
  ev_type : Z;
  ev_owner : string;
  ev_detail : string;
  ev_metadata : list (string * string) }.

Record ospfLastState := mkOspfLast { l_State : string; l_Interface : string }.

Record BGPGlobalConfig := mkBGPGlobal { g_LocalAS : Z; g_RouterID : string }.

(** [Reconciler]; [eventPublisher] tells whether one is set and [triggerCh]
    whether the one-place trigger channel is full. *)
Record Reconciler := mkRec {
  frrClient : option Client;
  bgpGlobal : option BGPGlobalConfig;
  appliedPeers : gmap string PeerIntent;
  appliedPrefixes : gmap string PrefixIntent;
  appliedBFD : gmap string BFDIntent;
  appliedOSPF : gmap string OSPFIntent;
  peerManagedBFD : gset string;
  bgpConfigured : bool;
  eventPublisher : bool;
  lastBGPStates : gmap string string;
  lastBFDStates : gmap string string;
  lastOSPFStates : gmap string ospfLastState;
  triggerCh : bool }.

Definition NewReconciler (client : option Client) (g : option BGPGlobalConfig) : Reconciler :=
  mkRec client g ∅ ∅ ∅ ∅ ∅ false false ∅ ∅ ∅ false.

Definition set_frrClient c r := mkRec c (bgpGlobal r) (appliedPeers r) (appliedPrefixes r) (appliedBFD r)
  (appliedOSPF r) (peerManagedBFD r) (bgpConfigured r) (eventPublisher r) (lastBGPStates r)
  (lastBFDStates r) (lastOSPFStates r) (triggerCh r).
Definition set_bgpGlobal g r := mkRec (frrClient r) g (appliedPeers r) (appliedPrefixes r) (appliedBFD r)
  (appliedOSPF r) (peerManagedBFD r) (bgpConfigured r) (eventPublisher r) (lastBGPStates r)
  (lastBFDStates r) (lastOSPFStates r) (triggerCh r).
Definition set_appliedPeers m r := mkRec (frrClient r) (bgpGlobal r) m (appliedPrefixes r) (appliedBFD r)
  (appliedOSPF r) (peerManagedBFD r) (bgpConfigured r) (eventPublisher r) (lastBGPStates r)
  (lastBFDStates r) (lastOSPFStates r) (triggerCh r).
Definition set_appliedPrefixes m r := mkRec (frrClient r) (bgpGlobal r) (appliedPeers r) m (appliedBFD r)
  (appliedOSPF r) (peerManagedBFD r) (bgpConfigured r) (eventPublisher r) (lastBGPStates r)
  (lastBFDStates r) (lastOSPFStates r) (triggerCh r).
Definition set_appliedBFD m r := mkRec (frrClient r) (bgpGlobal r) (appliedPeers r) (appliedPrefixes r) m
  (appliedOSPF r) (peerManagedBFD r) (bgpConfigured r) (eventPublisher r) (lastBGPStates r)
  (lastBFDStates r) (lastOSPFStates r) (triggerCh r).
Definition set_appliedOSPF m r := mkRec (frrClient r) (bgpGlobal r) (appliedPeers r) (appliedPrefixes r)
  (appliedBFD r) m (peerManagedBFD r) (bgpConfigured r) (eventPublisher r) (lastBGPStates r)
  (lastBFDStates r) (lastOSPFStates r) (triggerCh r).
Definition set_peerManagedBFD m r := mkRec (frrClient r) (bgpGlobal r) (appliedPeers r) (appliedPrefixes r)
  (appliedBFD r) (appliedOSPF r) m (bgpConfigured r) (eventPublisher r) (lastBGPStates r)
  (lastBFDStates r) (lastOSPFStates r) (triggerCh r).
Definition set_bgpConfigured b r := mkRec (frrClient r) (bgpGlobal r) (appliedPeers r) (appliedPrefixes r)
  (appliedBFD r) (appliedOSPF r) (peerManagedBFD r) b (eventPublisher r) (lastBGPStates r)
  (lastBFDStates r) (lastOSPFStates r) (triggerCh r).
Definition set_eventPublisher b r := mkRec (frrClient r) (bgpGlobal r) (appliedPeers r) (appliedPrefixes r)
  (appliedBFD r) (appliedOSPF r) (peerManagedBFD r) (bgpConfigured r) b (lastBGPStates r)
  (lastBFDStates r) (lastOSPFStates r) (triggerCh r).
Definition set_lastBGPStates m r := mkRec (frrClient r) (bgpGlobal r) (appliedPeers r) (appliedPrefixes r)
  (appliedBFD r) (appliedOSPF r) (peerManagedBFD r) (bgpConfigured r) (eventPublisher r) m
  (lastBFDStates r) (lastOSPFStates r) (triggerCh r).
Definition set_lastBFDStates m r := mkRec (frrClient r) (bgpGlobal r) (appliedPeers r) (appliedPrefixes r)
  (appliedBFD r) (appliedOSPF r) (peerManagedBFD r) (bgpConfigured r) (eventPublisher r)
  (lastBGPStates r) m (lastOSPFStates r) (triggerCh r).
Definition set_lastOSPFStates m r := mkRec (frrClient r) (bgpGlobal r) (appliedPeers r) (appliedPrefixes r)
  (appliedBFD r) (appliedOSPF r) (peerManagedBFD r) (bgpConfigured r) (eventPublisher r)
  (lastBGPStates r) (lastBFDStates r) m (triggerCh r).
Definition set_triggerCh b r := mkRec (frrClient r) (bgpGlobal r) (appliedPeers r) (appliedPrefixes r)
  (appliedBFD r) (appliedOSPF r) (peerManagedBFD r) (bgpConfigured r) (eventPublisher r)
  (lastBGPStates r) (lastBFDStates r) (lastOSPFStates r) b.

(** * The monad *)

Record world := mkWorld { w_rec : Reconciler; w_vty : vty; w_events : list route_event }.

Definition M (A : Type) : Type := world -> outcome (A * world).

#[export] Instance M_ret : MRet M := fun A a w => Val (a, w).
#[export] Instance M_bind : MBind M := fun A B f m w =>
  match m w with Val (a, w') => f a w' | Panic => Panic | Diverge => Diverge end.

Definition getr {A} (f : Reconciler -> A) : M A := fun w => Val (f (w_rec w), w).
Definition upd (f : Reconciler -> Reconciler) : M unit := fun w =>
  Val (tt, mkWorld (f (w_rec w)) (w_vty w) (w_events w)).
Definition publish (e : route_event) : M unit := fun w =>
  Val (tt, mkWorld (w_rec w) (w_vty w) (w_events w ++ [e])).

(** A call through [r.frrClient]. *)
Definition frr {A} (op : Client -> V A) : M A := fun w =>
  match frrClient (w_rec w) with
  | None => Panic
  | Some c => let '(a, v) := op c (w_vty w) in Val (a, mkWorld (w_rec w) v (w_events w))
  end.

(** [if err := m; err != nil { return err }], with the client's error wrapped. *)
Definition try_ (m : M (option frr_error)) (k : M (option rec_error)) : M (option rec_error) :=
  e ← m; match e with Some x => mret (Some (RFrr x)) | None => k end.
Notation "'try' m ';;' k" := (try_ m k) (at level 100, m at next level, right associativity).

(** A loop that collects errors. *)
Fixpoint range {A} (l : list (string * A)) (body : string -> A -> M (list rec_error)) : M (list rec_error) :=
  match l with
  | [] => mret []
  | (k, x) :: r => e1 ← body k x; e2 ← range r body; mret (e1 ++ e2)
  end.

(** * Helpers *)

Definition resolvePeerType (pt : Z) : string :=
  if pt =? PeerTypeInternal then "internal" else "external".

Definition resolveAddressFamily (af : Z) : string :=
  if af =? AddressFamilyIPv4Unicast then "ipv4-unicast"
  else if af =? AddressFamilyIPv6Unicast then "ipv6-unicast" else "".

Definition recPrefixKey (protocol : Z) (prefix : string) : string :=
  "prefix:" +:+ protocolString protocol +:+ ":" +:+ prefix.

Definition detectAFI (prefix : string) : string :=
  if str_has ":" prefix then "ipv6-unicast" else "ipv4-unicast".

Definition peerEqual (a b : PeerIntent) : bool :=
  String.eqb (p_NeighborAddress a) (p_NeighborAddress b) && (p_RemoteAS a =? p_RemoteAS b)
  && (p_PeerType a =? p_PeerType b) && (p_Keepalive a =? p_Keepalive b)
  && (p_HoldTime a =? p_HoldTime b) && Bool.eqb (p_BFDEnabled a) (p_BFDEnabled b)
  && (p_BFDMinRxMs a =? p_BFDMinRxMs b) && (p_BFDMinTxMs a =? p_BFDMinTxMs b)
  && (p_BFDDetectMultiplier a =? p_BFDDetectMultiplier b) && (p_EBGPMultihop a =? p_EBGPMultihop b)
  && String.eqb (p_Password a) (p_Password b) && String.eqb (p_SourceAddress a) (p_SourceAddress b)
  && (p_MaxPrefixes a =? p_MaxPrefixes b) && String.eqb (p_Description a) (p_Description b)
  && bool_decide (p_AddressFamilies a = p_AddressFamilies b).

Definition prefixEqual (a b : PrefixIntent) : bool :=
  String.eqb (x_Prefix a) (x_Prefix b) && (x_Protocol a =? x_Protocol b)
  && (x_LocalPreference a =? x_LocalPreference b) && (x_MED a =? x_MED b)
  && String.eqb (x_NextHop a) (x_NextHop b) && bool_decide (x_Communities a = x_Communities b).

Definition bfdEqual (a b : BFDIntent) : bool :=
  String.eqb (b_PeerAddress a) (b_PeerAddress b) && (b_MinRxMs a =? b_MinRxMs b)
  && (b_MinTxMs a =? b_MinTxMs b) && (b_DetectMultiplier a =? b_DetectMultiplier b)
  && String.eqb (b_InterfaceName a) (b_InterfaceName b).

Definition ospfEqual (a b : OSPFIntent) : bool :=
  String.eqb (o_InterfaceName a) (o_InterfaceName b) && String.eqb (o_AreaID a) (o_AreaID b)
  && Bool.eqb (o_Passive a) (o_Passive b) && (o_Cost a =? o_Cost b)
  && (o_HelloInterval a =? o_HelloInterval b) && (o_DeadInterval a =? o_DeadInterval b)
  && Bool.eqb (o_IPv6 a) (o_IPv6 b).

(** Whether a prefix needs a route map, its name, and the commands that set it. *)
Definition hasAttributes (p : PrefixIntent) : bool :=
  (0 <? x_LocalPreference p) || (0 <? go_len (x_Communities p)) || (0 <? x_MED p)
  || negb (String.eqb (x_NextHop p) "").

Definition rmName (p : PrefixIntent) : string :=
  "NR-PFX-" +:+ replace_char ":" "-" (replace_char "/" "-" (x_Prefix p)).

Definition setCmds (p : PrefixIntent) : list string :=
  (if 0 <? x_LocalPreference p then ["set local-preference " +:+ fmt_d (x_LocalPreference p)] else [])
  ++ (if 0 <? go_len (x_Communities p) then ["set community " +:+ join " " (x_Communities p)] else [])
  ++ (if 0 <? x_MED p then ["set metric " +:+ fmt_d (x_MED p)] else [])
  ++ (if negb (String.eqb (x_NextHop p) "") then ["set ip next-hop " +:+ x_NextHop p] else []).

Section Reconciler.
Context {VT : Vtysh} {MI : MapIter}.

(** * Applying and removing one intent *)

(** Run [op] for each address family that has a name, up to the first error. *)
Fixpoint for_afis (l : list Z) (op : string -> M (option frr_error)) : M (option frr_error) :=
  match l with
  | [] => mret None
  | af :: r =>
      let afiName := resolveAddressFamily af in
      if String.eqb afiName "" then for_afis r op
      else e ← op afiName; match e with Some x => mret (Some x) | None => for_afis r op end
  end.

(** Link or unlink the BFD session of a peer. *)
Definition linkBFD (p : PeerIntent) : M (option rec_error) :=
  let addr := p_NeighborAddress p in
  let bfdK := bfdKey addr in
  if p_BFDEnabled p then
    try frr (fun c => AddBFDPeer c addr (p_BFDMinRxMs p) (p_BFDMinTxMs p) (p_BFDDetectMultiplier p) "");;
    _ ← upd (fun r => set_peerManagedBFD ({[bfdK]} ∪ peerManagedBFD r) r);
    _ ← upd (fun r => set_appliedBFD (<[bfdK := mkBFD (p_Owner p) addr (p_BFDMinRxMs p) (p_BFDMinTxMs p)
                                                (p_BFDDetectMultiplier p) "" 0 0]> (appliedBFD r)) r);
    try frr (fun c => SetNeighborBFD c addr true);;
    mret None
  else
    try frr (fun c => SetNeighborBFD c addr false);;
    managed ← getr peerManagedBFD;
    if bool_decide (bfdK ∈ managed) then
      try frr (fun c => RemoveBFDPeer c addr "");;
      _ ← upd (fun r => set_peerManagedBFD (peerManagedBFD r ∖ {[bfdK]}) r);
      _ ← upd (fun r => set_appliedBFD (delete bfdK (appliedBFD r)) r);
      mret None
    else mret None.

Definition applyPeerIntent (p : PeerIntent) : M (option rec_error) :=
  let addr := p_NeighborAddress p in
  let nbrCfg := mkNbrCfg (p_SourceAddress p) (p_EBGPMultihop p) (p_Password p) (p_Description p) in
  let maxPfx := if p_MaxPrefixes p =? 0 then 1000 else p_MaxPrefixes p in
  try frr (fun c => AddNeighbor c addr (p_RemoteAS p) (resolvePeerType (p_PeerType p))
                      (p_Keepalive p) (p_HoldTime p) (Some nbrCfg));;
  try for_afis (p_AddressFamilies p) (fun afi => frr (fun c => ActivateNeighborAFI c addr afi));;
  try for_afis (p_AddressFamilies p) (fun afi => frr (fun c => SetNeighborMaxPrefix c addr maxPfx true afi));;
  linkBFD p.

Definition removePeerFromFRR (addr : string) : M (option rec_error) :=
  try frr (fun c => RemoveNeighbor c addr);; mret None.

Definition applyPrefixIntent (p : PrefixIntent) : M (option rec_error) :=
  if x_Protocol p =? ProtocolBGP then
    let afi := detectAFI (x_Prefix p) in
    if hasAttributes p then
      try frr (fun c => ConfigureRouteMap c (rmName p) (setCmds p));;
      try frr (fun c => AdvertiseNetworkWithRouteMap c (x_Prefix p) afi (rmName p));;
      mret None
    else
      try frr (fun c => AdvertiseNetwork c (x_Prefix p) afi);;
      mret None
  else if x_Protocol p =? ProtocolOSPF then mret None
  else if x_Protocol p =? ProtocolUnspecified then mret (Some ErrUnspecifiedProtocol)
  else mret (Some ErrUnsupportedProtocol).

Definition removePrefixFromFRR (p : PrefixIntent) : M (option rec_error) :=
  if x_Protocol p =? ProtocolUnspecified then mret (Some ErrUnspecifiedProtocol)
  else if x_Protocol p =? ProtocolBGP then
    try frr (fun c => WithdrawNetwork c (x_Prefix p) (detectAFI (x_Prefix p)));;
    if hasAttributes p then
      _ ← frr (fun c => RemoveRouteMap c (rmName p));
      mret None
    else mret None
  else if x_Protocol p =? ProtocolOSPF then mret None
  else mret (Some ErrUnsupportedProtocol).

Definition applyBFDIntent (b : BFDIntent) : M (option rec_error) :=
  try frr (fun c => AddBFDPeer c (b_PeerAddress b) (b_MinRxMs b) (b_MinTxMs b) (b_DetectMultiplier b)
                      (b_InterfaceName b));;
  mret None.

Definition removeBFDFromFRR (peerAddr iface : string) : M (option rec_error) :=
  try frr (fun c => RemoveBFDPeer c peerAddr iface);; mret None.

Definition applyOSPFIntent (o : OSPFIntent) : M (option rec_error) :=
  try frr (fun c =>
    if o_IPv6 o then EnableOSPFv3Interface c (o_InterfaceName o) (o_AreaID o) (o_Passive o) (o_Cost o)
    else EnableOSPFInterface c (o_InterfaceName o) (o_AreaID o) (o_Passive o) (o_Cost o)
           (o_HelloInterval o) (o_DeadInterval o));;
  mret None.

Definition removeOSPFFromFRR (o : OSPFIntent) : M (option rec_error) :=
  try frr (fun c =>
    if o_IPv6 o then DisableOSPFv3Interface c (o_InterfaceName o) (o_AreaID o) (o_Passive o)
    else DisableOSPFInterface c (o_InterfaceName o) (o_AreaID o) (o_Passive o));;
  mret None.

(** [ensureBGPGlobal]. *)
Definition ensureBGPGlobal : M (option rec_error) :=
  r ← getr id;
  if bgpConfigured r then mret None
  else match frrClient r with
  | None => mret (Some ErrFRRClientNotAvailable)
  | Some c =>
      match bgpGlobal r with
      | None => mret (Some ErrBGPGlobalNotSet)
      | Some g =>
          if g_LocalAS g =? 0 then mret (Some ErrBGPGlobalNotSet)
          else
            let oldAS := GetLocalAS c in
            res ← frr (fun c => ReconfigureBGPGlobal c oldAS (g_LocalAS g) (g_RouterID g));
            _ ← upd (set_frrClient (Some res.1));
            match res.2 with
            | Some e => mret (Some (RFrr e))
            | None =>
                _ ← (if negb (oldAS =? 0) && negb (oldAS =? g_LocalAS g)
                     then upd (fun r => set_appliedPeers ∅ (set_appliedPrefixes ∅
                                 (set_lastBGPStates ∅ (set_lastBFDStates ∅ r))))
                     else mret tt);
                _ ← upd (set_bgpConfigured true);
                mret None
            end
      end
  end.

(** * Reconciling each kind of intent *)

(** The entry is applied with an equivalent intent. *)
Definition up_to_date {A} (eq : A -> A -> bool) (existing : option A) (d : A) : bool :=
  match existing with Some e => eq e d | None => false end.

Definition desiredPeers (l : list PeerIntent) := build (fun p => peerKey (p_NeighborAddress p)) l.
Definition desiredPrefixes (l : list PrefixIntent) := build (fun p => recPrefixKey (x_Protocol p) (x_Prefix p)) l.
Definition desiredBFD (l : list BFDIntent) := build (fun b => bfdKey (b_PeerAddress b)) l.
Definition desiredOSPF (l : list OSPFIntent) := build (fun o => ospfKey (o_InterfaceName o)) l.

(** The bodies of the two loops of [ReconcilePeers]. *)
Definition syncPeer (key : string) (dp : PeerIntent) : M (list rec_error) :=
  existing ← getr (fun r => appliedPeers r !! key);
  if up_to_date peerEqual existing dp then mret []
  else
    err ← applyPeerIntent dp;
    match err with
    | Some e => mret [e]
    | None => _ ← upd (fun r => set_appliedPeers (<[key := dp]> (appliedPeers r)) r); mret []
    end.

(** The clean-up of an auto-created BFD session before its peer is removed. *)
Definition dropManaged (addr : string) : M unit :=
  let bfdK := bfdKey addr in
  managed ← getr peerManagedBFD;
  if bool_decide (bfdK ∈ managed) then
    _ ← frr (fun c => SetNeighborBFD c addr false);
    _ ← frr (fun c => RemoveBFDPeer c addr "");
    upd (fun r => set_peerManagedBFD (peerManagedBFD r ∖ {[bfdK]})
                    (set_appliedBFD (delete bfdK (appliedBFD r))
                      (set_lastBFDStates (delete addr (lastBFDStates r)) r)))
  else mret tt.

Definition dropPeer (desired : gmap string PeerIntent) (key : string) (ap : PeerIntent) : M (list rec_error) :=
  match desired !! key with
  | Some _ => mret []
  | None =>
      let addr := p_NeighborAddress ap in
      _ ← dropManaged addr;
      err ← removePeerFromFRR addr;
      match err with
      | Some e => mret [e]
      | None =>
          _ ← upd (fun r => set_appliedPeers (delete key (appliedPeers r))
                              (set_lastBGPStates (delete addr (lastBGPStates r)) r));
          mret []
      end
  end.

Definition ReconcilePeers (desired : list PeerIntent) : M (list rec_error) :=
  let desiredMap := desiredPeers desired in
  errs1 ← range (iter desiredMap) syncPeer;
  applied ← getr appliedPeers;
  errs2 ← range (iter applied) (dropPeer desiredMap);
  mret (errs1 ++ errs2).

Definition syncPrefix (key : string) (dp : PrefixIntent) : M (list rec_error) :=
  existing ← getr (fun r => appliedPrefixes r !! key);
  if up_to_date prefixEqual existing dp then mret []
  else
    _ ← match existing with
        | Some e =>
            if (x_Protocol e =? ProtocolBGP) && hasAttributes e
            then frr (fun c => RemoveRouteMap c (rmName e)) else mret None
        | None => mret None
        end;
    err ← applyPrefixIntent dp;
    match err with
    | Some e => mret [e]
    | None => _ ← upd (fun r => set_appliedPrefixes (<[key := dp]> (appliedPrefixes r)) r); mret []
    end.

Definition dropPrefix (desired : gmap string PrefixIntent) (key : string) (ap : PrefixIntent)
    : M (list rec_error) :=
  match desired !! key with
  | Some _ => mret []
  | None =>
      err ← removePrefixFromFRR ap;
      match err with
      | Some e => mret [e]
      | None => _ ← upd (fun r => set_appliedPrefixes (delete key (appliedPrefixes r)) r); mret []
      end
  end.

Definition ReconcilePrefixes (desired : list PrefixIntent) : M (list rec_error) :=
  let desiredMap := desiredPrefixes desired in
  errs1 ← range (iter desiredMap) syncPrefix;
  applied ← getr appliedPrefixes;
  errs2 ← range (iter applied) (dropPrefix desiredMap);
  mret (errs1 ++ errs2).

Definition syncBFD (key : string) (db : BFDIntent) : M (list rec_error) :=
  existing ← getr (fun r => appliedBFD r !! key);
  if up_to_date bfdEqual existing db then mret []
  else
    err ← applyBFDIntent db;
    match err with
    | Some e => mret [e]
    | None => _ ← upd (fun r => set_appliedBFD (<[key := db]> (appliedBFD r)) r); mret []
    end.

Definition dropBFD (desired : gmap string BFDIntent) (key : string) (ab : BFDIntent) : M (list rec_error) :=
  match desired !! key with
  | Some _ => mret []
  | None =>
      managed ← getr peerManagedBFD;
      if bool_decide (key ∈ managed) then mret []
      else
        err ← removeBFDFromFRR (b_PeerAddress ab) (b_InterfaceName ab);
        match err with
        | Some e => mret [e]
        | None =>
            _ ← upd (fun r => set_appliedBFD (delete key (appliedBFD r))
                                (set_lastBFDStates (delete (b_PeerAddress ab) (lastBFDStates r)) r));
            mret []
        end
  end.

Definition ReconcileBFD (desired : list BFDIntent) : M (list rec_error) :=
  let desiredMap := desiredBFD desired in
  errs1 ← range (iter desiredMap) syncBFD;
  applied ← getr appliedBFD;
  errs2 ← range (iter applied) (dropBFD desiredMap);
  mret (errs1 ++ errs2).

Definition syncOSPF (key : string) (do_ : OSPFIntent) : M (list rec_error) :=
  existing ← getr (fun r => appliedOSPF r !! key);
  if up_to_date ospfEqual existing do_ then mret []
  else
    err ← applyOSPFIntent do_;
    match err with
    | Some e => mret [e]
    | None => _ ← upd (fun r => set_appliedOSPF (<[key := do_]> (appliedOSPF r)) r); mret []
    end.

Definition dropOSPF (desired : gmap string OSPFIntent) (key : string) (ao : OSPFIntent) : M (list rec_error) :=
  match desired !! key with
  | Some _ => mret []
  | None =>
      err ← removeOSPFFromFRR ao;
      match err with
      | Some e => mret [e]
      | None => _ ← upd (fun r => set_appliedOSPF (delete key (appliedOSPF r)) r); mret []
      end
  end.

Definition ReconcileOSPF (desired : list OSPFIntent) : M (list rec_error) :=
  let desiredMap := desiredOSPF desired in
  errs1 ← range (iter desiredMap) syncOSPF;
  applied ← getr appliedOSPF;
  errs2 ← range (iter applied) (dropOSPF desiredMap);
  mret (errs1 ++ errs2).

(** * Monitoring FRR *)

Definition findPeerOwner (s : Store) (addr : string) : string :=
  match list_find (fun p => p_NeighborAddress p = addr) (GetPeerIntents s) with
  | Some (_, p) => p_Owner p | None => ""
  end.
Definition findBFDOwner (s : Store) (addr : string) : string :=
  match list_find (fun b => b_PeerAddress b = addr) (GetBFDIntents s) with
  | Some (_, b) => b_Owner b | None => ""
  end.
Definition findOSPFOwnerByNeighbor (s : Store) (iface : string) : string :=
  match list_find (fun o => o_InterfaceName o = iface) (GetOSPFIntents s) with
  | Some (_, o) => o_Owner o | None => ""
  end.

Fixpoint each {A} (l : list A) (body : A -> M unit) : M unit :=
  match l with
  | [] => mret tt
  | x :: r => _ ← body x; each r body
  end.

Definition eventKeyPeer : string := "peer".
Definition eventKeyPreviousState : string := "previous_state".
Definition eventKeyNeighborID : string := "neighbor_id".
Definition eventKeyStatus : string := "status".
Definition eventKeyState : string := "state".

(** The first loop of [monitorBGPNeighbors]. *)
Definition seeBGP (s : Store) (nbr : BGPNeighborState) : M unit :=
  let addr := n_Address nbr in
  prev ← getr (fun r => lastBGPStates r !! addr);
  _ ← match prev with
      | Some prev =>
          if negb (String.eqb prev (n_State nbr)) then
            let detail := "BGP peer " +:+ addr +:+ " is now " +:+ n_State nbr +:+ " (was " +:+ prev +:+ ")" in
            let meta := [(eventKeyPeer, addr); (eventKeyState, n_State nbr); (eventKeyPreviousState, prev)] in
            if String.eqb (n_State nbr) bgpStateEstablished
            then publish (mkEvent EventTypePeerUp (findPeerOwner s addr) detail meta)
            else if String.eqb prev bgpStateEstablished
            then publish (mkEvent EventTypePeerDown (findPeerOwner s addr) detail meta)
            else mret tt
          else mret tt
      | None =>
          if String.eqb (n_State nbr) bgpStateEstablished
          then publish (mkEvent EventTypePeerUp (findPeerOwner s addr)
                          ("BGP peer " +:+ addr +:+ " is Established")
                          [(eventKeyPeer, addr); (eventKeyState, n_State nbr)])
          else mret tt
      end;
  upd (fun r => set_lastBGPStates (<[addr := n_State nbr]> (lastBGPStates r)) r).

(** Its second loop: a neighbour of the last states that FRR no longer has. *)
Definition goneBGP (s : Store) (current : list string) (e : string * string) : M unit :=
  let '(addr, prevState) := e in
  if bool_decide (addr ∈ current) then mret tt
  else
    _ ← (if String.eqb prevState bgpStateEstablished
         then publish (mkEvent EventTypePeerDown (findPeerOwner s addr)
                ("BGP peer " +:+ addr +:+ " disappeared from FRR (was " +:+ prevState +:+ ")")
                [(eventKeyPeer, addr); (eventKeyState, "gone"); (eventKeyPreviousState, prevState)])
         else mret tt);
    upd (fun r => set_lastBGPStates (delete addr (lastBGPStates r)) r).

Definition monitorBGPNeighbors (s : Store) : M unit :=
  res ← frr (fun _ => GetBGPNeighbors);
  match res with
  | None => mret tt
  | Some nbrs =>
      _ ← each nbrs (seeBGP s);
      last ← getr lastBGPStates;
      each (iter last) (goneBGP s (n_Address <$> nbrs))
  end.

Definition seeBFD (s : Store) (peer : BFDPeerState) : M unit :=
  let addr := f_PeerAddress peer in
  prev ← getr (fun r => lastBFDStates r !! addr);
  _ ← match prev with
      | Some prev =>
          if negb (String.eqb prev (f_Status peer)) then
            let meta := [(eventKeyPeer, addr); (eventKeyStatus, f_Status peer); ("previous_status", prev)] in
            if String.eqb (f_Status peer) "up"
            then publish (mkEvent EventTypeBFDUp (findBFDOwner s addr)
                            ("BFD peer " +:+ addr +:+ " is now up (was " +:+ prev +:+ ")") meta)
            else publish (mkEvent EventTypeBFDDown (findBFDOwner s addr)
                            ("BFD peer " +:+ addr +:+ " is now " +:+ f_Status peer
                             +:+ " (was " +:+ prev +:+ ")") meta)
          else mret tt
      | None =>
          if String.eqb (f_Status peer) "up"
          then publish (mkEvent EventTypeBFDUp (findBFDOwner s addr) ("BFD peer " +:+ addr +:+ " is up")
                          [(eventKeyPeer, addr); (eventKeyStatus, f_Status peer)])
          else mret tt
      end;
  upd (fun r => set_lastBFDStates (<[addr := f_Status peer]> (lastBFDStates r)) r).

Definition goneBFD (s : Store) (current : list string) (e : string * string) : M unit :=
  let '(addr, prevStatus) := e in
  if bool_decide (addr ∈ current) then mret tt
  else
    _ ← (if String.eqb prevStatus "up"
         then publish (mkEvent EventTypeBFDDown (findBFDOwner s addr)
                ("BFD peer " +:+ addr +:+ " disappeared from FRR (was " +:+ prevStatus +:+ ")")
                [(eventKeyPeer, addr); (eventKeyStatus, "gone"); ("previous_status", prevStatus)])
         else mret tt);
    upd (fun r => set_lastBFDStates (delete addr (lastBFDStates r)) r).

Definition monitorBFDPeers (s : Store) : M unit :=
  res ← frr (fun _ => GetBFDPeers);
  match res with
  | None => mret tt
  | Some peers =>
      _ ← each peers (seeBFD s);
      last ← getr lastBFDStates;
      each (iter last) (goneBFD s (f_PeerAddress <$> peers))
  end.

Definition seeOSPF (s : Store) (nbr : OSPFNeighborState) : M unit :=
  let id := s_NeighborID nbr in
  prev ← getr (fun r => lastOSPFStates r !! id);
  _ ← match prev with
      | Some prev =>
          if negb (String.eqb (l_State prev) (s_State nbr)) then
            let detail := "OSPF neighbor " +:+ id +:+ " is now " +:+ s_State nbr
                          +:+ " (was " +:+ l_State prev +:+ ")" in
            let meta := [(eventKeyNeighborID, id); (eventKeyState, s_State nbr);
                         (eventKeyPreviousState, l_State prev)] in
            if String.eqb (s_State nbr) ospfStateFull
            then publish (mkEvent EventTypeOSPFNeighborUp (findOSPFOwnerByNeighbor s (s_Interface nbr)) detail meta)
            else if String.eqb (l_State prev) ospfStateFull
            then publish (mkEvent EventTypeOSPFNeighborDown (findOSPFOwnerByNeighbor s (s_Interface nbr)) detail meta)
            else mret tt
          else mret tt
      | None =>
          if String.eqb (s_State nbr) ospfStateFull
          then publish (mkEvent EventTypeOSPFNeighborUp (findOSPFOwnerByNeighbor s (s_Interface nbr))
                          ("OSPF neighbor " +:+ id +:+ " is Full")
                          [(eventKeyNeighborID, id); (eventKeyState, s_State nbr)])
          else mret tt
      end;
  upd (fun r => set_lastOSPFStates (<[id := mkOspfLast (s_State nbr) (s_Interface nbr)]> (lastOSPFStates r)) r).

Definition goneOSPF (s : Store) (current : list string) (e : string * ospfLastState) : M unit :=
  let '(id, prevInfo) := e in
  if bool_decide (id ∈ current) then mret tt
  else
    _ ← (if String.eqb (l_State prevInfo) ospfStateFull
         then publish (mkEvent EventTypeOSPFNeighborDown (findOSPFOwnerByNeighbor s (l_Interface prevInfo))
                ("OSPF neighbor " +:+ id +:+ " disappeared from FRR (was " +:+ l_State prevInfo +:+ ")")
                [(eventKeyNeighborID, id); (eventKeyState, "gone"); (eventKeyPreviousState, l_State prevInfo)])
         else mret tt);
    upd (fun r => set_lastOSPFStates (delete id (lastOSPFStates r)) r).

Definition monitorOSPFNeighbors (s : Store) : M unit :=
  res ← frr (fun _ => GetOSPFNeighbors);
  match res with
  | None => mret tt
  | Some nbrs =>
      _ ← each nbrs (seeOSPF s);
      last ← getr lastOSPFStates;
      each (iter last) (goneOSPF s (s_NeighborID <$> nbrs))
  end.

Definition monitorFRRState (s : Store) : M unit :=
  client ← getr frrClient;
  publisher ← getr eventPublisher;
  if match client with None => true | Some _ => false end || negb publisher then mret tt
  else
    _ ← monitorBGPNeighbors s;
    _ ← monitorBFDPeers s;
    monitorOSPFNeighbors s.

(** * The reconciliation cycle *)

Definition Reconcile (s : Store) : M (list rec_error) :=
  client ← getr frrClient;
  match client with
  | None => mret []
  | Some _ =>
      err ← ensureBGPGlobal;
      match err with
      | Some e => mret [e]
      | None =>
          e1 ← ReconcilePeers (GetPeerIntents s);
          e2 ← ReconcilePrefixes (GetPrefixIntents s);
          e3 ← ReconcileBFD (GetBFDIntents s);
          e4 ← ReconcileOSPF (GetOSPFIntents s);
          _ ← monitorFRRState s;
          mret (e1 ++ e2 ++ e3 ++ e4)
      end
  end.

(** * Direct operations *)

(** The kind tag must agree with the type of the value. *)
Definition ApplyIntent (intentType : string) (value : any_intent) : M (option rec_error) :=
  let finish (m : M (option rec_error)) (f : Reconciler -> Reconciler) :=
    err ← m; match err with Some e => mret (Some e) | None => _ ← upd f; mret None end in
  if String.eqb intentType "peer" then
    match value with
    | APeer pi => finish (applyPeerIntent pi)
        (fun r => set_appliedPeers (<[peerKey (p_NeighborAddress pi) := pi]> (appliedPeers r)) r)
    | _ => mret (Some ErrUnexpectedIntentType)
    end
  else if String.eqb intentType "prefix" then
    match value with
    | APrefix pi => finish (applyPrefixIntent pi)
        (fun r => set_appliedPrefixes (<[recPrefixKey (x_Protocol pi) (x_Prefix pi) := pi]> (appliedPrefixes r)) r)
    | _ => mret (Some ErrUnexpectedIntentType)
    end
  else if String.eqb intentType "bfd" then
    match value with
    | ABFD bi => finish (applyBFDIntent bi)
        (fun r => set_appliedBFD (<[bfdKey (b_PeerAddress bi) := bi]> (appliedBFD r)) r)
    | _ => mret (Some ErrUnexpectedIntentType)
    end
  else if String.eqb intentType "ospf" then
    match value with
    | AOSPF oi => finish (applyOSPFIntent oi)
        (fun r => set_appliedOSPF (<[ospfKey (o_InterfaceName oi) := oi]> (appliedOSPF r)) r)
    | _ => mret (Some ErrUnexpectedIntentType)
    end
  else mret (Some ErrUnknownIntentType).

Definition RemoveIntent (intentType key : string) : M (option rec_error) :=
  let finish (m : M (option rec_error)) (f : Reconciler -> Reconciler) :=
    err ← m; match err with Some e => mret (Some e) | None => _ ← upd f; mret None end in
  r ← getr id;
  if String.eqb intentType "peer" then
    let mapKey := peerKey key in
    match appliedPeers r !! mapKey with
    | None => mret (Some ErrAppliedNotFound)
    | Some ap => finish (removePeerFromFRR (p_NeighborAddress ap))
                   (fun r => set_appliedPeers (delete mapKey (appliedPeers r)) r)
    end
  else if String.eqb intentType "prefix" then
    let mapKey := "prefix:" +:+ key in
    match appliedPrefixes r !! mapKey with
    | None => mret (Some ErrAppliedNotFound)
    | Some ap => finish (removePrefixFromFRR ap)
                   (fun r => set_appliedPrefixes (delete mapKey (appliedPrefixes r)) r)
    end
  else if String.eqb intentType "bfd" then
    let mapKey := bfdKey key in
    match appliedBFD r !! mapKey with
    | None => mret (Some ErrAppliedNotFound)
    | Some ab => finish (removeBFDFromFRR key (b_InterfaceName ab))
                   (fun r => set_appliedBFD (delete mapKey (appliedBFD r)) r)
    end
  else if String.eqb intentType "ospf" then
    let mapKey := ospfKey key in
    match appliedOSPF r !! mapKey with
    | None => mret (Some ErrAppliedNotFound)
    | Some ao => finish (removeOSPFFromFRR ao)
                   (fun r => set_appliedOSPF (delete mapKey (appliedOSPF r)) r)
    end
  else mret (Some ErrUnknownIntentType).

Definition TriggerReconcile : M unit := upd (set_triggerCh true).

Definition SetFRRClient (client : option Client) : M unit :=
  upd (fun r => set_frrClient client (set_appliedPeers ∅ (set_appliedPrefixes ∅ (set_appliedBFD ∅
                  (set_appliedOSPF ∅ (set_peerManagedBFD ∅ r)))))).

Definition SetEventPublisher : M unit := upd (set_eventPublisher true).

Definition UpdateBGPGlobal (localAS : Z) (routerID : string) : M (Z * string) :=
  g ← getr bgpGlobal;
  let prev := default (mkBGPGlobal 0 "") g in
  _ ← upd (set_bgpGlobal (Some (mkBGPGlobal localAS routerID)));
  _ ← upd (set_bgpConfigured false);
  mret (g_LocalAS prev, g_RouterID prev).

(** * Withdrawing everything *)

Definition withdrawPrefix (key : string) (p : PrefixIntent) : M (list rec_error) :=
  let forget := upd (fun r => set_appliedPrefixes (delete key (appliedPrefixes r)) r) in
  if x_Protocol p =? ProtocolBGP then
    err ← frr (fun c => WithdrawNetwork c (x_Prefix p) (detectAFI (x_Prefix p)));
    match err with
    | Some e => mret [RFrr e]
    | None =>
        errs ← (if hasAttributes p then
                  rmErr ← frr (fun c => RemoveRouteMap c (rmName p));
                  mret (match rmErr with Some e => [RFrr e] | None => [] end)
                else mret []);
        _ ← forget; mret errs
    end
  else _ ← forget; mret [].

Definition withdrawBFD (key : string) (b : BFDIntent) : M (list rec_error) :=
  err ← frr (fun c => RemoveBFDPeer c (b_PeerAddress b) (b_InterfaceName b));
  match err with
  | Some e => mret [RFrr e]
  | None => _ ← upd (fun r => set_appliedBFD (delete key (appliedBFD r)) r); mret []
  end.

Definition withdrawOSPF (key : string) (o : OSPFIntent) : M (list rec_error) :=
  err ← frr (fun c =>
    if o_IPv6 o then DisableOSPFv3Interface c (o_InterfaceName o) (o_AreaID o) (o_Passive o)
    else DisableOSPFInterface c (o_InterfaceName o) (o_AreaID o) (o_Passive o));
  match err with
  | Some e => mret [RFrr e]
  | None => _ ← upd (fun r => set_appliedOSPF (delete key (appliedOSPF r)) r); mret []
  end.

Definition withdrawPeer (key : string) (p : PeerIntent) : M (list rec_error) :=
  err ← frr (fun c => RemoveNeighbor c (p_NeighborAddress p));
  match err with
  | Some e => mret [RFrr e]
  | None => _ ← upd (fun r => set_appliedPeers (delete key (appliedPeers r)) r); mret []
  end.

Definition WithdrawAll : M (list rec_error) :=
  client ← getr frrClient;
  match client with
  | None => mret []
  | Some _ =>
      px ← getr appliedPrefixes;
      e1 ← range (iter px) withdrawPrefix;
      bf ← getr appliedBFD;
      e2 ← range (iter bf) withdrawBFD;
      os ← getr appliedOSPF;
      e3 ← range (iter os) withdrawOSPF;
      pr ← getr appliedPeers;
      e4 ← range (iter pr) withdrawPeer;
      let errs := e1 ++ e2 ++ e3 ++ e4 in
      if 0 <? go_len errs then mret errs
      else
        _ ← upd (fun r => set_lastBGPStates ∅ (set_lastBFDStates ∅ (set_lastOSPFStates ∅ r)));
        mret []
  end.
End Reconciler.
