(* ===== verification/ReconcilerSync.v ===== *)
(** Correctness of the reconciler: a weakest-precondition calculus for its
    monad, the invariant of the applied state, convergence of the applied state
    to the intents, and quiescence once it has converged. *)

From Stdlib Require Import ZArith Lia Ascii String.
From stdpp Require Import base tactics list gmap strings fin_maps.
From S2P Require Import Prelude GoStrings GoMap GoNet GoUtf8 GoText Intent FrrClient Reconciler.

(** * Weakest preconditions *)

(** [m] returns from [w], with an answer and a world that satisfy [Q]. *)
Definition wp {A} (m : M A) (w : world) (Q : A -> world -> Prop) : Prop :=
  exists a w', m w = Val (a, w') /\ Q a w'.

Lemma mbind_val {A B} (m : M A) (f : A -> M B) w a w' :
  m w = Val (a, w') -> (m ≫= f) w = f a w'.
Proof. intros H. unfold mbind, M_bind. by rewrite H. Qed.

Lemma wp_ret {A} (a : A) w Q : Q a w -> wp (mret a) w Q.
Proof. intros. by exists a, w. Qed.

Lemma wp_bind {A B} (m : M A) (f : A -> M B) w Q :
  wp m w (fun a w' => wp (f a) w' Q) -> wp (m ≫= f) w Q.
Proof.
  intros (a & w' & E & b & w'' & E' & HQ). exists b, w''. split; [|done].
  unfold mbind, M_bind. by rewrite E.
Qed.

Lemma wp_mono {A} (m : M A) w (P Q : A -> world -> Prop) :
  wp m w P -> (forall a w', P a w' -> Q a w') -> wp m w Q.
Proof. intros (a & w' & E & HP) H. exists a, w'. auto. Qed.

Lemma wp_getr {A} (f : Reconciler -> A) w Q : Q (f (w_rec w)) w -> wp (getr f) w Q.
Proof. intros. by eexists _, _. Qed.

Lemma wp_upd f w Q :
  Q tt (mkWorld (f (w_rec w)) (w_vty w) (w_events w)) -> wp (upd f) w Q.
Proof. intros. by eexists _, _. Qed.

Lemma wp_frr {A} (op : Client -> V A) c w Q :
  frrClient (w_rec w) = Some c ->
  (let '(a, v) := op c (w_vty w) in Q a (mkWorld (w_rec w) v (w_events w))) ->
  wp (frr op) w Q.
Proof.
  intros Hc H. unfold wp, frr. rewrite Hc. destruct (op c (w_vty w)) as [a v]. by eexists _, _.
Qed.

Lemma wp_try m k w Q :
  wp m w (fun e w' => match e with Some x => Q (Some (RFrr x)) w' | None => wp k w' Q end) ->
  wp (try_ m k) w Q.
Proof.
  intros H. unfold try_. apply wp_bind. eapply wp_mono; [exact H|].
  intros [x|] w'; [apply wp_ret|done].
Qed.

(** The loop rule.  [Pre] and [Good] speak about the entry at the key of the
    current element; the body leaves the other keys alone. *)
Lemma wp_range {A B} (get : Reconciler -> gmap string B) (I : world -> Prop)
    (Pre Good : string -> A -> option B -> Prop) (Fine : string -> A -> Prop) body l :
  (forall k x w, I w -> Pre k x (get (w_rec w) !! k) ->
     wp (body k x) w (fun es w' =>
       I w' /\ (forall k', k' <> k -> get (w_rec w') !! k' = get (w_rec w) !! k') /\
       (es = [] -> Good k x (get (w_rec w') !! k)) /\ (Fine k x -> es = []))) ->
  NoDup l.*1 ->
  forall w, I w -> (forall k x, (k, x) ∈ l -> Pre k x (get (w_rec w) !! k)) ->
  wp (range l body) w (fun es w' =>
    I w' /\ (forall k, k ∉ l.*1 -> get (w_rec w') !! k = get (w_rec w) !! k) /\
    (es = [] -> forall k x, (k, x) ∈ l -> Good k x (get (w_rec w') !! k)) /\
    ((forall k x, (k, x) ∈ l -> Fine k x) -> es = [])).
Proof.
  intros Hb. induction l as [|[k x] l IH]; intros Hnd w HI Hpre; cbn [range].
  { apply wp_ret. split_and!; try done. intros _ k x H. by apply elem_of_nil in H. }
  cbn in Hnd. apply NoDup_cons in Hnd as [Hk Hnd].
  apply wp_bind. eapply wp_mono; [apply Hb; [done|apply Hpre; by left]|].
  intros e1 w1 (HI1 & Hf1 & Hg1 & Hok1). apply wp_bind. eapply wp_mono; [apply (IH Hnd w1 HI1)|].
  { intros k' x' Hin. rewrite Hf1; [apply Hpre; by right|].
    intros ->. apply Hk. apply list_elem_of_fmap. by exists (k, x'). }
  intros e2 w2 (HI2 & Hf2 & Hg2 & Hok2). apply wp_ret. split_and!; [done| | |].
  - intros k' [Hne Hnin]%not_elem_of_cons. rewrite Hf2 by done. by apply Hf1.
  - intros [-> ->]%app_eq_nil k' x' [[= -> ->]|Hin]%elem_of_cons; [|by apply Hg2].
    rewrite Hf2 by done. by apply Hg1.
  - intros Hfine. rewrite Hok1, Hok2; [done| |].
    + intros k' x' Hin. apply Hfine. by right.
    + apply Hfine. by left.
Qed.

(** A loop whose body does nothing. *)
Lemma range_noop {A} (l : list (string * A)) body w :
  (forall k x, (k, x) ∈ l -> body k x w = Val ([], w)) -> range l body w = Val ([], w).
Proof.
  induction l as [|[k x] l IH]; intros H; [done|]. cbn [range]. unfold mbind, M_bind.
  rewrite (H k x) by by left. rewrite IH; [done|]. intros k' x' Hin. apply H. by right.
Qed.

(** * The client's operations *)

(** FRR accepts every batch. *)
Definition healthy {VT : Vtysh} : Prop := forall n cmds,
  exists out, vtysh_config n cmds = Some out /\ has_error_marker out = false.

(** The parameters the client accepts. *)
Definition peer_ok (p : PeerIntent) : Prop :=
  validateIPAddress (p_NeighborAddress p) = None /\ sanitizeOpt (p_Description p) = None /\
  sanitizeOpt (p_Password p) = None /\
  (p_SourceAddress p = "" \/ validateIPAddress (p_SourceAddress p) = None).

Definition prefix_ok (p : PrefixIntent) : Prop :=
  (x_Protocol p = ProtocolBGP /\ sanitizeVTYParam (x_Prefix p) = None /\
   (hasAttributes p = true -> sanitizeVTYParam (rmName p) = None /\ sanitizeAll (setCmds p) = None)) \/
  x_Protocol p = ProtocolOSPF.

Definition bfd_ok (b : BFDIntent) : Prop :=
  validateIPAddress (b_PeerAddress b) = None /\ sanitizeOpt (b_InterfaceName b) = None.

Definition ospf_ok (o : OSPFIntent) : Prop :=
  sanitizeVTYParam (o_InterfaceName o) = None /\ sanitizeVTYParam (o_AreaID o) = None.

(** [op] answers, succeeds only if [ok] holds, and succeeds if it does and FRR
    is healthy. *)
Definition op_spec {VT : Vtysh} (ok : Prop) (op : V (option frr_error)) : Prop := forall v,
  ((op v).1 = None -> ok) /\ (healthy -> ok -> (op v).1 = None).

Section Client_ops.
Context {VT : Vtysh}.

Lemma runConfig_spec l : op_spec True (runConfig l).
Proof.
  intros v. split; [done|]. intros Hh _. unfold runConfig. cbn.
  destruct (Hh (vty_runs v) l) as (out & -> & ->). done.
Qed.

Lemma check_spec (P : Prop) e k : op_spec P k -> op_spec (e = None /\ P) (check_ e k).
Proof.
  intros Hk v. unfold check_. destruct e; [by split; [|intros _ []]|].
  destruct (Hk v) as [H1 H2]. split; [auto|]. intros Hh [_ HP]. auto.
Qed.

Lemma op_spec_iff (P Q : Prop) op : (P <-> Q) -> op_spec P op -> op_spec Q op.
Proof. intros H Ho v. destruct (Ho v). split; [rewrite <- H|intros ?; rewrite <- H]; auto. Qed.

Lemma in_afi_spec c afi l : afi = "ipv4-unicast" \/ afi = "ipv6-unicast" -> op_spec True (in_afi c afi l).
Proof. intros [-> | ->]; apply runConfig_spec. Qed.

Lemma detectAFI_cases p : detectAFI p = "ipv4-unicast" \/ detectAFI p = "ipv6-unicast".
Proof. unfold detectAFI. case_match; tauto. Qed.

Lemma resolveAddressFamily_cases a :
  resolveAddressFamily a <> "" ->
  resolveAddressFamily a = "ipv4-unicast" \/ resolveAddressFamily a = "ipv6-unicast".
Proof. unfold resolveAddressFamily. repeat case_match; tauto. Qed.

Ltac op :=
  eapply op_spec_iff;
  [|repeat (apply check_spec); first [apply runConfig_spec | by apply in_afi_spec]]; tauto.

Lemma RemoveNeighbor_spec c a : op_spec (validateIPAddress a = None) (RemoveNeighbor c a).
Proof. op. Qed.
Lemma ActivateNeighborAFI_spec c a f :
  f = "ipv4-unicast" \/ f = "ipv6-unicast" ->
  op_spec (validateIPAddress a = None) (ActivateNeighborAFI c a f).
Proof. intros. op. Qed.
Lemma SetNeighborMaxPrefix_spec c a m b f :
  f = "ipv4-unicast" \/ f = "ipv6-unicast" ->
  op_spec (validateIPAddress a = None) (SetNeighborMaxPrefix c a m b f).
Proof. intros. op. Qed.
Lemma AdvertiseNetwork_spec c p :
  op_spec (sanitizeVTYParam p = None) (AdvertiseNetwork c p (detectAFI p)).
Proof. pose proof (detectAFI_cases p). op. Qed.
Lemma WithdrawNetwork_spec c p :
  op_spec (sanitizeVTYParam p = None) (WithdrawNetwork c p (detectAFI p)).
Proof. pose proof (detectAFI_cases p). op. Qed.
Lemma ConfigureRouteMap_spec c n l :
  op_spec (sanitizeVTYParam n = None /\ sanitizeAll l = None) (ConfigureRouteMap c n l).
Proof. op. Qed.
Lemma AdvertiseNetworkWithRouteMap_spec c p m :
  op_spec (sanitizeVTYParam p = None /\ sanitizeVTYParam m = None)
    (AdvertiseNetworkWithRouteMap c p (detectAFI p) m).
Proof. pose proof (detectAFI_cases p). op. Qed.
Lemma SetNeighborBFD_spec c a b : op_spec (validateIPAddress a = None) (SetNeighborBFD c a b).
Proof. op. Qed.
Lemma AddBFDPeer_spec c a x t d i :
  op_spec (validateIPAddress a = None /\ sanitizeOpt i = None) (AddBFDPeer c a x t d i).
Proof. op. Qed.
Lemma RemoveBFDPeer_spec c a i :
  op_spec (validateIPAddress a = None /\ sanitizeOpt i = None) (RemoveBFDPeer c a i).
Proof. op. Qed.

Lemma AddNeighbor_spec c p t :
  op_spec (peer_ok p /\ localAS c <> 0)
    (AddNeighbor c (p_NeighborAddress p) (p_RemoteAS p) t (p_Keepalive p) (p_HoldTime p)
       (Some (mkNbrCfg (p_SourceAddress p) (p_EBGPMultihop p) (p_Password p) (p_Description p)))).
Proof.
  eapply op_spec_iff; cycle 1.
  - repeat (apply check_spec).
    instantiate (1 := localAS c <> 0). destruct (localAS c =? 0) eqn:E; to_prop.
    + intros v. split; [done|]. by intros _ ?.
    + intros v. destruct (runConfig_spec (addNeighborCommands c (p_NeighborAddress p) (p_RemoteAS p)
        (p_Keepalive p) (p_HoldTime p) (Some (mkNbrCfg (p_SourceAddress p) (p_EBGPMultihop p)
          (p_Password p) (p_Description p)))) v) as [_ H]. auto.
  - unfold peer_ok. cbn [Description Password SourceAddress].
    destruct (String.eqb_spec (p_SourceAddress p) ""); tauto.
Qed.

Lemma EnableOSPF_spec c o :
  op_spec (ospf_ok o)
    (if o_IPv6 o then EnableOSPFv3Interface c (o_InterfaceName o) (o_AreaID o) (o_Passive o) (o_Cost o)
     else EnableOSPFInterface c (o_InterfaceName o) (o_AreaID o) (o_Passive o) (o_Cost o)
            (o_HelloInterval o) (o_DeadInterval o)).
Proof. unfold ospf_ok. destruct (o_IPv6 o); op. Qed.

Lemma DisableOSPF_spec c o :
  op_spec (ospf_ok o)
    (if o_IPv6 o then DisableOSPFv3Interface c (o_InterfaceName o) (o_AreaID o) (o_Passive o)
     else DisableOSPFInterface c (o_InterfaceName o) (o_AreaID o) (o_Passive o)).
Proof. unfold ospf_ok. destruct (o_IPv6 o); op. Qed.
End Client_ops.

(** * Applying and removing one intent *)

(** Same reconciler and events; only vtysh has run. *)
Definition vty_only (w w' : world) : Prop := w_rec w' = w_rec w /\ w_events w' = w_events w.

Definition prefix_rm_ok (p : PrefixIntent) : Prop :=
  (x_Protocol p = ProtocolBGP /\ sanitizeVTYParam (x_Prefix p) = None) \/ x_Protocol p = ProtocolOSPF.

Lemma prefix_ok_rm p : prefix_ok p -> prefix_rm_ok p.
Proof. unfold prefix_ok, prefix_rm_ok. tauto. Qed.

Section Apply.
Context {VT : Vtysh} {MI : MapIter}.

Lemma wp_call op ok c w Q :
  frrClient (w_rec w) = Some c -> op_spec ok (op c) ->
  (forall e w', vty_only w w' -> (e = None -> ok) -> (healthy -> ok -> e = None) -> Q e w') ->
  wp (frr op) w Q.
Proof.
  intros Hc Ho H. eapply wp_frr; [done|]. destruct (Ho (w_vty w)) as [H1 H2].
  destruct (op c (w_vty w)) as [e v]. by apply H.
Qed.

(** [m] answers, only runs vtysh, and succeeds exactly as [ok] says. *)
Definition intent_spec (ok : Prop) (m : M (option rec_error)) : Prop := forall w c,
  frrClient (w_rec w) = Some c ->
  wp m w (fun e w' => vty_only w w' /\ (e = None -> ok) /\ (healthy -> ok -> e = None)).

Lemma try_one ok op :
  (forall c, op_spec ok (op c)) -> intent_spec ok (try frr op;; mret None).
Proof.
  intros Ho w c Hc. apply wp_try. eapply wp_call; [done|apply Ho|].
  intros [x|] w' Hw H1 H2; [split; [done|split; [done|]]|apply wp_ret; auto].
  intros Hh Hok. by specialize (H2 Hh Hok).
Qed.

Lemma removePeer_spec a : intent_spec (validateIPAddress a = None) (removePeerFromFRR a).
Proof. apply try_one. intros. apply RemoveNeighbor_spec. Qed.
Lemma applyBFD_spec b : intent_spec (bfd_ok b) (applyBFDIntent b).
Proof. apply try_one. intros. apply AddBFDPeer_spec. Qed.
Lemma removeBFD_spec a i :
  intent_spec (validateIPAddress a = None /\ sanitizeOpt i = None) (removeBFDFromFRR a i).
Proof. apply try_one. intros. apply RemoveBFDPeer_spec. Qed.
Lemma applyOSPF_spec o : intent_spec (ospf_ok o) (applyOSPFIntent o).
Proof. apply try_one. intros. apply EnableOSPF_spec. Qed.
Lemma removeOSPF_spec o : intent_spec (ospf_ok o) (removeOSPFFromFRR o).
Proof. apply try_one. intros. apply DisableOSPF_spec. Qed.

Lemma vty_only_client w w' : vty_only w w' -> frrClient (w_rec w') = frrClient (w_rec w).
Proof. by intros [-> _]. Qed.

Lemma vty_only_trans w w1 w2 : vty_only w w1 -> vty_only w1 w2 -> vty_only w w2.
Proof. unfold vty_only. intros [? ?] [? ?]. split; congruence. Qed.

Lemma vty_only_refl w : vty_only w w.
Proof. done. Qed.

(** Two client calls in a row. *)
Lemma try_two ok1 ok2 op1 op2 :
  (forall c, op_spec ok1 (op1 c)) -> (forall c, op_spec ok2 (op2 c)) ->
  intent_spec (ok1 /\ ok2) (try frr op1;; try frr op2;; mret None).
Proof.
  intros H1 H2 w c Hc. apply wp_try. eapply wp_call; [done|apply H1|].
  intros [x|] w1 Hw1 Ha1 Hb1.
  { split; [done|split; [done|]]. intros Hh [Hok _]. by specialize (Hb1 Hh Hok). }
  eapply wp_mono; [apply (try_one ok2 op2 H2 w1 c)|].
  { by rewrite (vty_only_client w w1). }
  intros e w2 (Hw2 & Ha2 & Hb2). split; [by eapply vty_only_trans|]. split; [auto|].
  intros Hh [? ?]. auto.
Qed.

Lemma spec_weaken (P Q : Prop) m : (P <-> Q) -> intent_spec P m -> intent_spec Q m.
Proof.
  intros H Hm w c Hc. eapply wp_mono; [apply (Hm w c Hc)|]. intros e w' (? & ? & ?).
  rewrite <- H. auto.
Qed.

Lemma spec_ret (ok : Prop) e : (e = None <-> ok) -> intent_spec ok (mret e).
Proof. intros H w c _. apply wp_ret. split; [apply vty_only_refl|]. tauto. Qed.

Lemma applyPrefix_spec p : intent_spec (prefix_ok p) (applyPrefixIntent p).
Proof.
  unfold applyPrefixIntent, prefix_ok.
  destruct (x_Protocol p =? ProtocolBGP) eqn:E1; to_prop.
  { destruct (hasAttributes p).
    - eapply spec_weaken; [|apply try_two; intros;
        [apply ConfigureRouteMap_spec|apply AdvertiseNetworkWithRouteMap_spec]].
      rewrite E1. split; [tauto|]. intros [?|?]; [tauto|done].
    - eapply spec_weaken; [|apply try_one; intros; apply AdvertiseNetwork_spec].
      rewrite E1. split; [intros; left; split_and!; done|]. intros [?|?]; [tauto|done]. }
  destruct (x_Protocol p =? ProtocolOSPF) eqn:E2; to_prop; [apply spec_ret; tauto|].
  destruct (x_Protocol p =? ProtocolUnspecified); apply spec_ret; split; try done; tauto.
Qed.

Lemma removePrefix_spec p : intent_spec (prefix_rm_ok p) (removePrefixFromFRR p).
Proof.
  unfold removePrefixFromFRR, prefix_rm_ok.
  destruct (x_Protocol p =? ProtocolUnspecified) eqn:E0; to_prop.
  { apply spec_ret. split; [done|]. rewrite E0. intros [[? _]|?]; done. }
  destruct (x_Protocol p =? ProtocolBGP) eqn:E1; to_prop.
  { intros w c Hc. apply wp_try. eapply wp_call; [done|apply WithdrawNetwork_spec|].
    intros [x|] w1 Hw1 H1 H2.
    - split; [done|split; [done|]]. intros Hh [[_ Hok]|?]; [by specialize (H2 Hh Hok)|].
      by rewrite E1 in *.
    - destruct (hasAttributes p); [|apply wp_ret; tauto].
      apply wp_bind. eapply wp_frr; [by rewrite (vty_only_client w w1)|].
      destruct (RemoveRouteMap _ _ _) as [e v]. apply wp_ret.
      split; [by eapply vty_only_trans|]. tauto. }
  destruct (x_Protocol p =? ProtocolOSPF) eqn:E2; to_prop; apply spec_ret; split; try done; tauto.
Qed.

Lemma for_afis_spec ok l (op : string -> Client -> V (option frr_error)) w c :
  frrClient (w_rec w) = Some c ->
  (forall f, f = "ipv4-unicast" \/ f = "ipv6-unicast" -> op_spec ok (op f c)) ->
  wp (for_afis l (fun afi => frr (op afi))) w
     (fun e w' => vty_only w w' /\ (healthy -> ok -> e = None)).
Proof.
  intros Hc Ho. revert w Hc. induction l as [|af l IH]; intros w Hc; cbn [for_afis].
  { apply wp_ret. by split; [apply vty_only_refl|]. }
  destruct (String.eqb_spec (resolveAddressFamily af) "") as [_|Hne]; [by apply IH|].
  apply wp_bind. eapply wp_call; [done|by apply Ho, resolveAddressFamily_cases|].
  intros [x|] w1 Hw1 _ H2.
  - apply wp_ret. split; [done|]. intros Hh Hok. by specialize (H2 Hh Hok).
  - eapply wp_mono; [apply IH; by rewrite (vty_only_client w w1)|].
    intros e w2 [? ?]. split; [by eapply vty_only_trans|done].
Qed.

(** The fields of a reconciler no reconciliation step writes. *)
Definition core (r : Reconciler) := (frrClient r, bgpGlobal r, bgpConfigured r, eventPublisher r).

Lemma core_client r r' : core r' = core r -> frrClient r' = frrClient r.
Proof. unfold core. congruence. Qed.

(** Only the BFD bookkeeping has changed, and its sessions remain removable. *)
Definition bfd_inv (r : Reconciler) : Prop := map_Forall (fun _ b => bfd_ok b) (appliedBFD r).

Definition bfd_only (r r' : Reconciler) : Prop :=
  core r' = core r /\ appliedPeers r' = appliedPeers r /\ appliedPrefixes r' = appliedPrefixes r /\
  appliedOSPF r' = appliedOSPF r /\ (bfd_inv r -> bfd_inv r').

Lemma bfd_only_refl r : bfd_only r r.
Proof. by unfold bfd_only. Qed.

Lemma vty_bfd_only r w w' : bfd_only r (w_rec w) -> vty_only w w' -> bfd_only r (w_rec w').
Proof. by intros ? [-> _]. Qed.

Lemma bfd_only_trans r1 r2 r3 : bfd_only r1 r2 -> bfd_only r2 r3 -> bfd_only r1 r3.
Proof. unfold bfd_only. intros (? & ? & ? & ? & ?) (? & ? & ? & ? & ?). split_and!; congruence || auto. Qed.

Lemma linkBFD_spec p w c :
  frrClient (w_rec w) = Some c -> peer_ok p ->
  wp (linkBFD p) w (fun e w' => bfd_only (w_rec w) (w_rec w') /\ (healthy -> e = None)).
Proof.
  intros Hc (Haddr & _). assert (bfd_only (w_rec w) (w_rec w)) as Hr by apply bfd_only_refl.
  unfold linkBFD. destruct (p_BFDEnabled p).
  - apply wp_try. eapply wp_call; [done|apply AddBFDPeer_spec|]. intros [x|] w1 [Hw1 _] Ha Hb.
    { rewrite Hw1. split; [done|]. intros Hh. by specialize (Hb Hh (conj Haddr eq_refl)). }
    apply wp_bind, wp_upd. apply wp_bind, wp_upd. apply wp_try.
    eapply wp_call; [cbn; by rewrite Hw1|apply SetNeighborBFD_spec|]. intros e w2 [Hw2 _] _ Hb2.
    assert (bfd_only (w_rec w) (w_rec w2)) as Hf.
    { rewrite Hw2. cbn. rewrite Hw1. split_and!; try done. intros Hi. apply map_Forall_insert_2; [|done].
      by split. }
    destruct e as [x|]; [|by apply wp_ret]. split; [done|]. intros Hh. by specialize (Hb2 Hh Haddr).
  - apply wp_try. eapply wp_call; [done|apply SetNeighborBFD_spec|]. intros [x|] w1 [Hw1 _] _ Hb.
    { rewrite Hw1. split; [done|]. intros Hh. by specialize (Hb Hh Haddr). }
    apply wp_bind, wp_getr. case_bool_decide; [|apply wp_ret; by rewrite Hw1].
    apply wp_try. eapply wp_call; [by rewrite Hw1|apply RemoveBFDPeer_spec|].
    intros [x|] w2 [Hw2 _] _ Hb2.
    { rewrite Hw2, Hw1. split; [done|]. intros Hh. by specialize (Hb2 Hh (conj Haddr eq_refl)). }
    apply wp_bind, wp_upd. apply wp_bind, wp_upd. apply wp_ret. cbn. rewrite Hw2, Hw1.
    split; [|done]. split_and!; try done. intros Hi. by apply map_Forall_delete.
Qed.

(** A loop over the address families, inside [try]. *)
Lemma wp_try_afis ok l (op : string -> Client -> V (option frr_error)) k w c Q :
  frrClient (w_rec w) = Some c -> ok ->
  (forall f, f = "ipv4-unicast" \/ f = "ipv6-unicast" -> op_spec ok (op f c)) ->
  (forall x w', vty_only w w' -> ~ healthy -> Q (Some (RFrr x)) w') ->
  (forall w', vty_only w w' -> wp k w' Q) ->
  wp (try_ (for_afis l (fun afi => frr (op afi))) k) w Q.
Proof.
  intros Hc Hok Ho H1 H2. apply wp_try. eapply wp_mono; [by eapply for_afis_spec|].
  intros [x|] w' [Hw Hb]; [|by apply H2]. apply H1; [done|]. intros Hh. by specialize (Hb Hh Hok).
Qed.

Lemma applyPeer_spec p w c :
  frrClient (w_rec w) = Some c ->
  wp (applyPeerIntent p) w (fun e w' =>
    bfd_only (w_rec w) (w_rec w') /\ (e = None -> peer_ok p /\ localAS c <> 0) /\
    (healthy -> localAS c <> 0 -> peer_ok p -> e = None)).
Proof.
  intros Hc. assert (bfd_only (w_rec w) (w_rec w)) as Hr by apply bfd_only_refl.
  unfold applyPeerIntent. apply wp_try.
  eapply wp_call; [done|apply AddNeighbor_spec|]. intros [x|] w1 [Hw1 _] Ha Hb.
  { rewrite Hw1. split; [done|]. split; [done|].
    intros Hh Has Hp. by specialize (Hb Hh (conj Hp Has)). }
  destruct (Ha eq_refl) as [Hp Has]. clear Ha Hb. pose proof Hp as (Haddr & _).
  apply (wp_try_afis _ _ (fun afi c => ActivateNeighborAFI c (p_NeighborAddress p) afi) _ _ c _
           ltac:(by rewrite Hw1) Haddr); [intros; by apply ActivateNeighborAFI_spec| |].
  { intros x w2 [Hw2 _] Hn. rewrite Hw2, Hw1. tauto. }
  intros w2 [Hw2 _].
  apply (wp_try_afis _ _ (fun afi c => SetNeighborMaxPrefix c (p_NeighborAddress p)
           (if p_MaxPrefixes p =? 0 then 1000 else p_MaxPrefixes p) true afi) _ _ c _
           ltac:(by rewrite Hw2, Hw1) Haddr); [intros; by apply SetNeighborMaxPrefix_spec| |].
  { intros x w3 [Hw3 _] Hn. rewrite Hw3, Hw2, Hw1. tauto. }
  intros w3 [Hw3 _]. assert (w_rec w3 = w_rec w) as Hw by congruence.
  eapply wp_mono; [apply (linkBFD_spec p w3 c); [by rewrite Hw|done]|].
  intros e w4 [Hf He]. rewrite Hw in Hf. split; [done|]. split; [done|]. auto.
Qed.

(** * One kind of intent *)

(** [applied] holds what is desired: an equivalent intent at each desired key
    and nothing elsewhere, except at the keys of [skip]. *)
Definition agree {A} (eq : A -> A -> bool) (skip : gset string) (desired applied : gmap string A) : Prop :=
  forall k, match desired !! k with
            | Some d => up_to_date eq (applied !! k) d = true
            | None => applied !! k = None \/ k ∈ skip
            end.

(** What the body of a loop over [get] does at a key. *)
Definition at_key {A} (get : Reconciler -> gmap string A) (I : world -> Prop) (k : string) (w : world)
    (good : option A -> Prop) (fine : Prop) (es : list rec_error) (w' : world) : Prop :=
  I w' /\ (forall k', k' <> k -> get (w_rec w') !! k' = get (w_rec w) !! k') /\
  (es = [] -> good (get (w_rec w') !! k)) /\ (fine -> es = []).

Definition drop_good {A} (skip : gset string) (desired : gmap string A) (k : string) (x : A)
    (o : option A) : Prop :=
  match desired !! k with Some _ => o = Some x | None => o = None \/ k ∈ skip end.

Lemma wp_stage {A} (get : Reconciler -> gmap string A) eq skip desired sync drop
    (I : world -> Prop) (fine : A -> Prop) w :
  (forall k d w, I w ->
     wp (sync k d) w (at_key get I k w (fun o => up_to_date eq o d = true) (healthy /\ fine d))) ->
  (forall k x w, I w -> get (w_rec w) !! k = Some x ->
     wp (drop desired k x) w (at_key get I k w (drop_good skip desired k x) healthy)) ->
  I w ->
  wp (errs1 ← range (iter desired) sync;
      applied ← getr get;
      errs2 ← range (iter applied) (drop desired);
      mret (errs1 ++ errs2)) w
     (fun es w' => I w' /\ (es = [] -> agree eq skip desired (get (w_rec w'))) /\
        (healthy -> map_Forall (fun _ d => fine d) desired -> es = [])).
Proof.
  intros Hs Hd HI. apply wp_bind. eapply wp_mono.
  { eapply (wp_range get I (fun _ _ _ => True) (fun _ d o => up_to_date eq o d = true)
      (fun _ d => healthy /\ fine d)); [intros; by apply Hs|apply NoDup_iter_keys|done|done]. }
  intros e1 w1 (HI1 & _ & Hg1 & Hf1). apply wp_bind, wp_getr, wp_bind. eapply wp_mono.
  { eapply (wp_range get I (fun _ x o => o = Some x) (drop_good skip desired)
      (fun _ _ => healthy)); [intros; by apply Hd|apply NoDup_iter_keys|done|].
    intros k x. apply elem_of_iter. }
  intros e2 w2 (HI2 & Ho2 & Hg2 & Hf2). apply wp_ret. split; [done|]. split.
  - intros [-> ->]%app_eq_nil k. specialize (Hg1 eq_refl). specialize (Hg2 eq_refl).
    destruct (get (w_rec w1) !! k) as [x|] eqn:E1.
    + specialize (Hg2 k x (proj2 (elem_of_iter _ _ _) E1)). unfold drop_good in Hg2.
      destruct (desired !! k) as [d|] eqn:Ed; [|done].
      specialize (Hg1 k d (proj2 (elem_of_iter _ _ _) Ed)). by rewrite Hg2, <- E1.
    + rewrite Ho2.
      * rewrite E1. destruct (desired !! k) as [d|] eqn:Ed; [|by left].
        specialize (Hg1 k d (proj2 (elem_of_iter _ _ _) Ed)). by rewrite E1 in Hg1.
      * intros ([k' x] & -> & Hin%elem_of_iter)%list_elem_of_fmap. cbn in E1. congruence.
  - intros Hh Hfine. rewrite Hf1, Hf2; [done|done|].
    intros k d Hin%elem_of_iter. split; [done|]. by eapply (Hfine k d).
Qed.

(** A desired state that is already applied needs no run. *)
Lemma stage_noop {A} (get : Reconciler -> gmap string A) eq skip desired sync drop w :
  (forall k d, up_to_date eq (get (w_rec w) !! k) d = true -> sync k d w = Val ([], w)) ->
  (forall k x, is_Some (desired !! k) \/ k ∈ skip -> drop desired k x w = Val ([], w)) ->
  agree eq skip desired (get (w_rec w)) ->
  (errs1 ← range (iter desired) sync;
   applied ← getr get;
   errs2 ← range (iter applied) (drop desired);
   mret (errs1 ++ errs2)) w = Val ([], w).
Proof.
  intros Hs Hd Ha. unfold mbind at 1, M_bind at 1. rewrite range_noop.
  2: { intros k d Hin%elem_of_iter. apply Hs. specialize (Ha k). by rewrite Hin in Ha. }
  unfold mbind at 1, M_bind at 1, getr, mbind at 1, M_bind at 1. rewrite range_noop; [done|].
  intros k x Hin%elem_of_iter. apply Hd. specialize (Ha k).
  destruct (desired !! k); [by left; eexists|]. right. destruct Ha; [congruence|done].
Qed.

(** * The four kinds *)

Lemma peerEqual_refl p : peerEqual p p = true.
Proof.
  unfold peerEqual. rewrite !String.eqb_refl, !Z.eqb_refl, Bool.eqb_reflx. by rewrite bool_decide_true.
Qed.
Lemma prefixEqual_refl p : prefixEqual p p = true.
Proof. unfold prefixEqual. rewrite !String.eqb_refl, !Z.eqb_refl. by rewrite bool_decide_true. Qed.
Lemma bfdEqual_refl b : bfdEqual b b = true.
Proof. unfold bfdEqual. by rewrite !String.eqb_refl, !Z.eqb_refl. Qed.
Lemma ospfEqual_refl o : ospfEqual o o = true.
Proof. unfold ospfEqual. by rewrite !String.eqb_refl, !Z.eqb_refl, !Bool.eqb_reflx. Qed.

(** What the applied state must satisfy for its entries to be removable. *)
Definition peers_inv (r : Reconciler) : Prop :=
  map_Forall (fun _ p => validateIPAddress (p_NeighborAddress p) = None) (appliedPeers r).
Definition prefixes_inv (r : Reconciler) : Prop := map_Forall (fun _ p => prefix_ok p) (appliedPrefixes r).
Definition ospf_inv (r : Reconciler) : Prop := map_Forall (fun _ o => ospf_ok o) (appliedOSPF r).

Lemma at_key_keep {A} (get : Reconciler -> gmap string A) I k w good (fine : Prop) :
  I w -> good (get (w_rec w) !! k) -> at_key get I k w good fine [] w.
Proof. by split. Qed.

Lemma at_key_err {A} (get : Reconciler -> gmap string A) I k w good (fine : Prop) e w' :
  I w' -> get (w_rec w') = get (w_rec w) -> ~ fine -> at_key get I k w good fine [e] w'.
Proof. intros HI Hg Hf. split; [done|]. rewrite Hg. split; [done|]. by split. Qed.

(** An attempt that only runs vtysh, recorded under its key on success. *)
Lemma wp_record {A} (get : Reconciler -> gmap string A) set frame eq k d ok act w0 w c :
  (forall m r, get (set m r) = m) -> eq d d = true ->
  (ok -> forall r, frame r -> frame (set (<[k := d]> (get r)) r)) ->
  frrClient (w_rec w) = Some c -> intent_spec ok act -> w_rec w = w_rec w0 -> frame (w_rec w) ->
  wp (err ← act;
      match err with
      | Some e => mret [e]
      | None => _ ← upd (fun r => set (<[k := d]> (get r)) r); mret []
      end) w
     (at_key get (fun w => frame (w_rec w)) k w0 (fun o => up_to_date eq o d = true) (healthy /\ ok)).
Proof.
  intros Hgs Heq Hset Hc Hact Hw Hf. apply wp_bind. eapply wp_mono; [apply (Hact w c Hc)|].
  intros [e|] w1 ([Hw1 _] & Ha & Hb).
  - apply wp_ret, at_key_err; [by rewrite Hw1|congruence|]. intros [Hh Hok]. by specialize (Hb Hh Hok).
  - apply wp_bind, wp_upd, wp_ret. unfold at_key. cbn. rewrite Hw1, Hgs, lookup_insert_eq, <- Hw.
    split; [by apply Hset; [apply Ha|]|]. split; [intros; by rewrite lookup_insert_ne|]. by split.
Qed.

(** A removal that only runs vtysh, forgotten on success. *)
Lemma wp_forget {A} (get : Reconciler -> gmap string A) frame desired k x skip ok act f w0 w c :
  (forall r, get (f r) = delete k (get r)) -> (forall r, frame r -> frame (f r)) ->
  desired !! k = None -> (ok : Prop) -> frrClient (w_rec w) = Some c -> intent_spec ok act ->
  get (w_rec w) = get (w_rec w0) -> frame (w_rec w) ->
  wp (err ← act;
      match err with
      | Some e => mret [e]
      | None => _ ← upd f; mret []
      end) w
     (at_key get (fun w => frame (w_rec w)) k w0 (drop_good skip desired k x) healthy).
Proof.
  intros Hg Hset Hd Hok Hc Hact Hw Hf. apply wp_bind. eapply wp_mono; [apply (Hact w c Hc)|].
  intros [e|] w1 ([Hw1 _] & Ha & Hb).
  - apply wp_ret, at_key_err; [by rewrite Hw1|congruence|]. intros Hh. by specialize (Hb Hh Hok).
  - apply wp_bind, wp_upd, wp_ret. unfold at_key, drop_good. cbn. rewrite Hw1, Hg, lookup_delete_eq, Hd, <- Hw.
    split; [by apply Hset|]. split; [intros; by rewrite lookup_delete_ne|]. by split; [left|].
Qed.

(** ** Prefixes *)

Definition prefixes_frame (r0 r : Reconciler) : Prop :=
  core r = core r0 /\ appliedPeers r = appliedPeers r0 /\ appliedBFD r = appliedBFD r0 /\
  peerManagedBFD r = peerManagedBFD r0 /\ appliedOSPF r = appliedOSPF r0 /\ prefixes_inv r.

Lemma syncPrefix_spec r0 c k d w :
  frrClient r0 = Some c -> prefixes_frame r0 (w_rec w) ->
  wp (syncPrefix k d) w (at_key appliedPrefixes (fun w => prefixes_frame r0 (w_rec w)) k w
                           (fun o => up_to_date prefixEqual o d = true) (healthy /\ prefix_ok d)).
Proof.
  intros Hc Hf. unfold syncPrefix. apply wp_bind, wp_getr.
  destruct (up_to_date _ _ _) eqn:Eu; [by apply wp_ret, at_key_keep|].
  assert (frrClient (w_rec w) = Some c) as Hcw by (rewrite <- Hc; by apply core_client, Hf).
  apply wp_bind. apply (wp_mono _ _ (fun _ w' => vty_only w w')).
  { destruct (appliedPrefixes (w_rec w) !! k) as [e|]; [|by apply wp_ret].
    destruct (_ && _); [|by apply wp_ret]. eapply wp_frr; [done|]. by destruct (RemoveRouteMap _ _ _). }
  intros _ w1 [Hw1 _]. apply (wp_record appliedPrefixes set_appliedPrefixes (prefixes_frame r0)
    prefixEqual k d (prefix_ok d) _ w w1 c); try by rewrite ?Hw1.
  - apply prefixEqual_refl.
  - intros Hok r (? & ? & ? & ? & ? & Hi). split_and!; try done.
    by apply map_Forall_insert_2.
  - apply applyPrefix_spec.
Qed.

Lemma dropPrefix_spec r0 c desired k x w :
  frrClient r0 = Some c -> prefixes_frame r0 (w_rec w) -> appliedPrefixes (w_rec w) !! k = Some x ->
  wp (dropPrefix desired k x) w (at_key appliedPrefixes (fun w => prefixes_frame r0 (w_rec w)) k w
                                   (drop_good ∅ desired k x) healthy).
Proof.
  intros Hc Hf Hx. unfold dropPrefix.
  destruct (desired !! k) as [d|] eqn:Ed; [apply wp_ret, at_key_keep; [done|]; unfold drop_good; by rewrite Ed|].
  pose proof Hf as (Hcore & ? & ? & ? & ? & Hi).
  apply (wp_forget appliedPrefixes (prefixes_frame r0) desired k x ∅ (prefix_rm_ok x) _ _ w w c); try done.
  - intros r (? & ? & ? & ? & ? & Hr). split_and!; try done. by apply map_Forall_delete.
  - by apply prefix_ok_rm, (Hi k x).
  - rewrite <- Hc. by apply core_client.
  - apply removePrefix_spec.
Qed.

Lemma ReconcilePrefixes_spec l w c :
  frrClient (w_rec w) = Some c -> prefixes_inv (w_rec w) ->
  wp (ReconcilePrefixes l) w (fun es w' =>
    prefixes_frame (w_rec w) (w_rec w') /\
    (es = [] -> agree prefixEqual ∅ (desiredPrefixes l) (appliedPrefixes (w_rec w'))) /\
    (healthy -> map_Forall (fun _ d => prefix_ok d) (desiredPrefixes l) -> es = [])).
Proof.
  intros Hc Hi. apply (wp_stage appliedPrefixes prefixEqual ∅ (desiredPrefixes l) syncPrefix dropPrefix
    (fun w' => prefixes_frame (w_rec w) (w_rec w'))).
  - intros. by eapply syncPrefix_spec.
  - intros. by eapply dropPrefix_spec.
  - by split_and!.
Qed.

(** ** BFD sessions *)

Definition bfd_frame (r0 r : Reconciler) : Prop :=
  core r = core r0 /\ appliedPeers r = appliedPeers r0 /\ appliedPrefixes r = appliedPrefixes r0 /\
  peerManagedBFD r = peerManagedBFD r0 /\ appliedOSPF r = appliedOSPF r0 /\ bfd_inv r.

Lemma syncBFD_spec r0 c k d w :
  frrClient r0 = Some c -> bfd_frame r0 (w_rec w) ->
  wp (syncBFD k d) w (at_key appliedBFD (fun w => bfd_frame r0 (w_rec w)) k w
                        (fun o => up_to_date bfdEqual o d = true) (healthy /\ bfd_ok d)).
Proof.
  intros Hc Hf. unfold syncBFD. apply wp_bind, wp_getr.
  destruct (up_to_date _ _ _) eqn:Eu; [by apply wp_ret, at_key_keep|].
  apply (wp_record appliedBFD set_appliedBFD (bfd_frame r0) bfdEqual k d (bfd_ok d) _ w w c); try done.
  - apply bfdEqual_refl.
  - intros Hok r (? & ? & ? & ? & ? & Hi). split_and!; try done. by apply map_Forall_insert_2.
  - rewrite <- Hc. by apply core_client, Hf.
  - apply applyBFD_spec.
Qed.

Lemma dropBFD_spec r0 c desired k x w :
  frrClient r0 = Some c -> bfd_frame r0 (w_rec w) -> appliedBFD (w_rec w) !! k = Some x ->
  wp (dropBFD desired k x) w (at_key appliedBFD (fun w => bfd_frame r0 (w_rec w)) k w
                                (drop_good (peerManagedBFD r0) desired k x) healthy).
Proof.
  intros Hc Hf Hx. unfold dropBFD.
  destruct (desired !! k) as [d|] eqn:Ed; [apply wp_ret, at_key_keep; [done|]; unfold drop_good; by rewrite Ed|].
  pose proof Hf as (Hcore & ? & ? & Hpm & ? & Hi).
  apply wp_bind, wp_getr. rewrite Hpm.
  case_bool_decide; [apply wp_ret, at_key_keep; [done|]; unfold drop_good; rewrite Ed; by right|].
  apply (wp_forget appliedBFD (bfd_frame r0) desired k x _ (bfd_ok x) _ _ w w c); try done.
  - intros r (? & ? & ? & ? & ? & Hr). split_and!; try done. by apply map_Forall_delete.
  - by apply (Hi k x).
  - rewrite <- Hc. by apply core_client.
  - apply removeBFD_spec.
Qed.

Lemma ReconcileBFD_spec l w c :
  frrClient (w_rec w) = Some c -> bfd_inv (w_rec w) ->
  wp (ReconcileBFD l) w (fun es w' =>
    bfd_frame (w_rec w) (w_rec w') /\
    (es = [] -> agree bfdEqual (peerManagedBFD (w_rec w)) (desiredBFD l) (appliedBFD (w_rec w'))) /\
    (healthy -> map_Forall (fun _ d => bfd_ok d) (desiredBFD l) -> es = [])).
Proof.
  intros Hc Hi. apply (wp_stage appliedBFD bfdEqual (peerManagedBFD (w_rec w)) (desiredBFD l) syncBFD dropBFD
    (fun w' => bfd_frame (w_rec w) (w_rec w'))).
  - intros. by eapply syncBFD_spec.
  - intros. by eapply dropBFD_spec.
  - by split_and!.
Qed.

(** ** OSPF interfaces *)

Definition ospf_frame (r0 r : Reconciler) : Prop :=
  core r = core r0 /\ appliedPeers r = appliedPeers r0 /\ appliedPrefixes r = appliedPrefixes r0 /\
  appliedBFD r = appliedBFD r0 /\ peerManagedBFD r = peerManagedBFD r0 /\ ospf_inv r.

Lemma syncOSPF_spec r0 c k d w :
  frrClient r0 = Some c -> ospf_frame r0 (w_rec w) ->
  wp (syncOSPF k d) w (at_key appliedOSPF (fun w => ospf_frame r0 (w_rec w)) k w
                         (fun o => up_to_date ospfEqual o d = true) (healthy /\ ospf_ok d)).
Proof.
  intros Hc Hf. unfold syncOSPF. apply wp_bind, wp_getr.
  destruct (up_to_date _ _ _) eqn:Eu; [by apply wp_ret, at_key_keep|].
  apply (wp_record appliedOSPF set_appliedOSPF (ospf_frame r0) ospfEqual k d (ospf_ok d) _ w w c); try done.
  - apply ospfEqual_refl.
  - intros Hok r (? & ? & ? & ? & ? & Hi). split_and!; try done. by apply map_Forall_insert_2.
  - rewrite <- Hc. by apply core_client, Hf.
  - apply applyOSPF_spec.
Qed.

Lemma dropOSPF_spec r0 c desired k x w :
  frrClient r0 = Some c -> ospf_frame r0 (w_rec w) -> appliedOSPF (w_rec w) !! k = Some x ->
  wp (dropOSPF desired k x) w (at_key appliedOSPF (fun w => ospf_frame r0 (w_rec w)) k w
                                 (drop_good ∅ desired k x) healthy).
Proof.
  intros Hc Hf Hx. unfold dropOSPF.
  destruct (desired !! k) as [d|] eqn:Ed; [apply wp_ret, at_key_keep; [done|]; unfold drop_good; by rewrite Ed|].
  pose proof Hf as (Hcore & ? & ? & ? & ? & Hi).
  apply (wp_forget appliedOSPF (ospf_frame r0) desired k x ∅ (ospf_ok x) _ _ w w c); try done.
  - intros r (? & ? & ? & ? & ? & Hr). split_and!; try done. by apply map_Forall_delete.
  - by apply (Hi k x).
  - rewrite <- Hc. by apply core_client.
  - apply removeOSPF_spec.
Qed.

Lemma ReconcileOSPF_spec l w c :
  frrClient (w_rec w) = Some c -> ospf_inv (w_rec w) ->
  wp (ReconcileOSPF l) w (fun es w' =>
    ospf_frame (w_rec w) (w_rec w') /\
    (es = [] -> agree ospfEqual ∅ (desiredOSPF l) (appliedOSPF (w_rec w'))) /\
    (healthy -> map_Forall (fun _ d => ospf_ok d) (desiredOSPF l) -> es = [])).
Proof.
  intros Hc Hi. apply (wp_stage appliedOSPF ospfEqual ∅ (desiredOSPF l) syncOSPF dropOSPF
    (fun w' => ospf_frame (w_rec w) (w_rec w'))).
  - intros. by eapply syncOSPF_spec.
  - intros. by eapply dropOSPF_spec.
  - by split_and!.
Qed.

(** ** BGP peers *)

Definition peers_frame (r0 r : Reconciler) : Prop :=
  core r = core r0 /\ appliedPrefixes r = appliedPrefixes r0 /\ appliedOSPF r = appliedOSPF r0 /\
  bfd_inv r /\ peers_inv r.

Lemma peers_frame_bfd_only r0 r r' : peers_frame r0 r -> bfd_only r r' -> peers_frame r0 r'.
Proof.
  intros (? & ? & ? & ? & Hp) (? & E & ? & ? & ?). split_and!; [congruence..|auto|].
  unfold peers_inv in *. by rewrite E.
Qed.

Lemma syncPeer_spec r0 c k d w :
  frrClient r0 = Some c -> peers_frame r0 (w_rec w) ->
  wp (syncPeer k d) w (at_key appliedPeers (fun w => peers_frame r0 (w_rec w)) k w
                         (fun o => up_to_date peerEqual o d = true)
                         (healthy /\ localAS c <> 0 /\ peer_ok d)).
Proof.
  intros Hc Hf. unfold syncPeer. apply wp_bind, wp_getr.
  destruct (up_to_date _ _ _) eqn:Eu; [by apply wp_ret, at_key_keep|].
  assert (frrClient (w_rec w) = Some c) as Hcw by (rewrite <- Hc; by apply core_client, Hf).
  apply wp_bind. eapply wp_mono; [by apply (applyPeer_spec d w c)|].
  intros e w1 (Hw1 & Ha & Hb). pose proof (peers_frame_bfd_only _ _ _ Hf Hw1) as Hf1.
  destruct Hw1 as (_ & Hp1 & _). destruct e as [e|].
  - apply wp_ret, at_key_err; [done|done|]. intros (Hh & Has & Hp). by specialize (Hb Hh Has Hp).
  - apply wp_bind, wp_upd, wp_ret. unfold at_key. cbn. rewrite lookup_insert_eq.
    split; [|split; [intros; by rewrite lookup_insert_ne, Hp1|split; [intros _; apply peerEqual_refl|done]]].
    destruct Hf1 as (? & ? & ? & ? & Hi). split_and!; try done.
    apply map_Forall_insert_2; [by destruct (Ha eq_refl) as [[? _] _]|done].
Qed.

Lemma dropManaged_spec addr w c :
  frrClient (w_rec w) = Some c ->
  wp (dropManaged addr) w (fun _ w' => bfd_only (w_rec w) (w_rec w')).
Proof.
  intros Hc. unfold dropManaged. apply wp_bind, wp_getr.
  case_bool_decide; [|apply wp_ret, bfd_only_refl].
  apply wp_bind. eapply wp_frr; [done|]. destruct (SetNeighborBFD _ _ _ _) as [e1 v1].
  apply wp_bind. eapply wp_frr; [done|]. destruct (RemoveBFDPeer _ _ _ _) as [e2 v2].
  apply wp_upd. cbn. split_and!; try done. intros Hi. by apply map_Forall_delete.
Qed.

Lemma dropPeer_spec r0 c desired k x w :
  frrClient r0 = Some c -> peers_frame r0 (w_rec w) -> appliedPeers (w_rec w) !! k = Some x ->
  wp (dropPeer desired k x) w (at_key appliedPeers (fun w => peers_frame r0 (w_rec w)) k w
                                 (drop_good ∅ desired k x) healthy).
Proof.
  intros Hc Hf Hx. unfold dropPeer.
  destruct (desired !! k) as [d|] eqn:Ed; [apply wp_ret, at_key_keep; [done|]; unfold drop_good; by rewrite Ed|].
  assert (frrClient (w_rec w) = Some c) as Hcw by (rewrite <- Hc; by apply core_client, Hf).
  apply wp_bind. eapply wp_mono; [by apply (dropManaged_spec (p_NeighborAddress x) w c)|].
  intros a w1 Hw1. pose proof (peers_frame_bfd_only _ _ _ Hf Hw1) as Hf1.
  destruct Hw1 as (Hcore1 & Hp1 & _).
  apply (wp_forget appliedPeers (peers_frame r0) desired k x ∅
    (validateIPAddress (p_NeighborAddress x) = None) _ _ w w1 c); try done.
  - intros r (? & ? & ? & ? & Hr). split_and!; try done. by apply map_Forall_delete.
  - destruct Hf as (_ & _ & _ & _ & Hi). by apply (Hi k x).
  - rewrite <- Hcw. by apply core_client.
  - apply removePeer_spec.
Qed.

Lemma ReconcilePeers_spec l w c :
  frrClient (w_rec w) = Some c -> bfd_inv (w_rec w) -> peers_inv (w_rec w) ->
  wp (ReconcilePeers l) w (fun es w' =>
    peers_frame (w_rec w) (w_rec w') /\
    (es = [] -> agree peerEqual ∅ (desiredPeers l) (appliedPeers (w_rec w'))) /\
    (healthy -> localAS c <> 0 -> map_Forall (fun _ d => peer_ok d) (desiredPeers l) -> es = [])).
Proof.
  intros Hc Hb Hi. eapply wp_mono.
  - apply (wp_stage appliedPeers peerEqual ∅ (desiredPeers l) syncPeer dropPeer
      (fun w' => peers_frame (w_rec w) (w_rec w')) (fun d => localAS c <> 0 /\ peer_ok d)).
    + intros. by eapply syncPeer_spec.
    + intros. by eapply dropPeer_spec.
    + by split_and!.
  - intros es w' (? & ? & Hok). split; [done|]. split; [done|]. intros Hh Has Hall. apply Hok; [done|].
    intros k d Hd. by split; [|apply (Hall k d)].
Qed.

(** * Monitoring *)

(** Only the last-seen states and the events have changed, and no batch was
    sent. *)
Definition monitor_only (w w' : world) : Prop :=
  core (w_rec w') = core (w_rec w) /\ appliedPeers (w_rec w') = appliedPeers (w_rec w) /\
  appliedPrefixes (w_rec w') = appliedPrefixes (w_rec w) /\ appliedBFD (w_rec w') = appliedBFD (w_rec w) /\
  appliedOSPF (w_rec w') = appliedOSPF (w_rec w) /\ peerManagedBFD (w_rec w') = peerManagedBFD (w_rec w) /\
  vty_log (w_vty w') = vty_log (w_vty w).

Lemma monitor_only_refl w : monitor_only w w.
Proof. by split_and!. Qed.

Lemma monitor_only_trans w w1 w2 : monitor_only w w1 -> monitor_only w1 w2 -> monitor_only w w2.
Proof. unfold monitor_only. intros. destruct_and?. split_and!; congruence. Qed.

Lemma wp_each {A} (l : list A) body w :
  (forall x w', wp (body x) w' (fun _ w'' => monitor_only w' w'')) ->
  wp (each l body) w (fun _ w' => monitor_only w w').
Proof.
  intros Hb. revert w. induction l as [|x l IH]; intros w; cbn [each]; [apply wp_ret, monitor_only_refl|].
  apply wp_bind. eapply wp_mono; [apply Hb|]. intros [] w1 H1. eapply wp_mono; [apply IH|].
  intros [] w2 H2. by eapply monitor_only_trans.
Qed.

Lemma wp_publish e w : wp (publish e) w (fun _ w' => monitor_only w w').
Proof. eexists tt, _. split; [reflexivity|]. by split_and!. Qed.

Lemma wp_then (m : M unit) f w :
  wp m w (fun _ w' => monitor_only w w') ->
  (forall r, core (f r) = core r /\ appliedPeers (f r) = appliedPeers r /\
     appliedPrefixes (f r) = appliedPrefixes r /\ appliedBFD (f r) = appliedBFD r /\
     appliedOSPF (f r) = appliedOSPF r /\ peerManagedBFD (f r) = peerManagedBFD r) ->
  wp (_ ← m; upd f) w (fun _ w' => monitor_only w w').
Proof.
  intros Hm Hf. apply wp_bind. eapply wp_mono; [exact Hm|]. intros [] w1 H1. apply wp_upd.
  destruct (Hf (w_rec w1)) as (? & ? & ? & ? & ? & ?), H1 as (? & ? & ? & ? & ? & ? & ?).
  split_and!; cbn; congruence.
Qed.

Ltac quiet_events :=
  repeat case_match; first [apply wp_publish | apply wp_ret, monitor_only_refl].

Lemma seeBGP_quiet s x w : wp (seeBGP s x) w (fun _ w' => monitor_only w w').
Proof. apply wp_bind, wp_getr, wp_then; [quiet_events|done]. Qed.
Lemma seeBFD_quiet s x w : wp (seeBFD s x) w (fun _ w' => monitor_only w w').
Proof. apply wp_bind, wp_getr, wp_then; [quiet_events|done]. Qed.
Lemma seeOSPF_quiet s x w : wp (seeOSPF s x) w (fun _ w' => monitor_only w w').
Proof. apply wp_bind, wp_getr, wp_then; [quiet_events|done]. Qed.
Lemma goneBGP_quiet s l x w : wp (goneBGP s l x) w (fun _ w' => monitor_only w w').
Proof.
  destruct x. cbn. case_bool_decide; [apply wp_ret, monitor_only_refl|]. apply wp_then; [quiet_events|done].
Qed.
Lemma goneBFD_quiet s l x w : wp (goneBFD s l x) w (fun _ w' => monitor_only w w').
Proof.
  destruct x. cbn. case_bool_decide; [apply wp_ret, monitor_only_refl|]. apply wp_then; [quiet_events|done].
Qed.
Lemma goneOSPF_quiet s l x w : wp (goneOSPF s l x) w (fun _ w' => monitor_only w w').
Proof.
  destruct x. cbn. case_bool_decide; [apply wp_ret, monitor_only_refl|]. apply wp_then; [quiet_events|done].
Qed.

(** The shape of the three monitors. *)
Lemma monitor_quiet {A B} (op : V (option (list A))) (see : A -> M unit) (last : Reconciler -> gmap string B)
    (gone : list A -> string * B -> M unit) w c :
  frrClient (w_rec w) = Some c ->
  (forall v, vty_log (op v).2 = vty_log v) ->
  (forall x w', wp (see x) w' (fun _ w'' => monitor_only w' w'')) ->
  (forall l x w', wp (gone l x) w' (fun _ w'' => monitor_only w' w'')) ->
  wp (res ← frr (fun _ => op);
      match res with
      | None => mret tt
      | Some l => _ ← each l see; m ← getr last; each (iter m) (gone l)
      end) w (fun _ w' => monitor_only w w').
Proof.
  intros Hc Ho Hs Hg. apply wp_bind. eapply wp_frr; [done|]. specialize (Ho (w_vty w)).
  destruct (op (w_vty w)) as [res v]. cbn in Ho.
  assert (monitor_only w (mkWorld (w_rec w) v (w_events w))) as H1 by by split_and!.
  destruct res as [l|]; [|by apply wp_ret].
  apply wp_bind. eapply wp_mono; [by apply wp_each|]. intros [] w2 H2. apply wp_bind, wp_getr.
  eapply wp_mono; [by apply wp_each|]. intros [] w3 H3.
  by eapply monitor_only_trans; [|eapply monitor_only_trans].
Qed.

Lemma monitorFRRState_quiet s w : wp (monitorFRRState s) w (fun _ w' => monitor_only w w').
Proof.
  unfold monitorFRRState. apply wp_bind, wp_getr, wp_bind, wp_getr.
  destruct (frrClient (w_rec w)) as [c|] eqn:Hc; [|apply wp_ret, monitor_only_refl].
  destruct (eventPublisher (w_rec w)); [|apply wp_ret, monitor_only_refl]. cbn [orb negb].
  apply wp_bind. eapply wp_mono.
  { apply (monitor_quiet GetBGPNeighbors (seeBGP s) lastBGPStates
      (fun l => goneBGP s (n_Address <$> l)) w c Hc); intros; [done|apply seeBGP_quiet|apply goneBGP_quiet]. }
  intros [] w1 H1. assert (frrClient (w_rec w1) = Some c) as Hc1 by (rewrite <- Hc; by apply core_client, H1).
  apply wp_bind. eapply wp_mono.
  { apply (monitor_quiet GetBFDPeers (seeBFD s) lastBFDStates
      (fun l => goneBFD s (f_PeerAddress <$> l)) w1 c Hc1); intros; [done|apply seeBFD_quiet|apply goneBFD_quiet]. }
  intros [] w2 H2. assert (frrClient (w_rec w2) = Some c) as Hc2 by (rewrite <- Hc1; by apply core_client, H2).
  eapply wp_mono.
  { apply (monitor_quiet GetOSPFNeighbors (seeOSPF s) lastOSPFStates
      (fun l => goneOSPF s (s_NeighborID <$> l)) w2 c Hc2); intros; [done|apply seeOSPF_quiet|apply goneOSPF_quiet]. }
  intros [] w3 H3. by eapply monitor_only_trans; [|eapply monitor_only_trans].
Qed.
End Apply.
