(* ===== verification/ReconcilerProps.v ===== *)
(** The theorems on the reconciler: its invariant over every run, convergence
    under a healthy FRR, quiescence, withdrawal, and the runs in which it does
    not do what it promises. *)

From Stdlib Require Import ZArith Lia Ascii String.
From stdpp Require Import base tactics list gmap strings fin_maps.
From S2P Require Import Prelude GoStrings GoMap GoNet GoUtf8 GoText Intent FrrClient Reconciler ReconcilerSync.

(** * The invariant *)

(** Every applied entry can be removed, and a configured BGP instance has a
    client that knows its AS. *)
Definition rec_inv (r : Reconciler) : Prop :=
  peers_inv r /\ prefixes_inv r /\ bfd_inv r /\ ospf_inv r /\
  (bgpConfigured r = true -> exists c, frrClient r = Some c /\ localAS c <> 0).

(** BGP is configured, or can be. *)
Definition global_ok (r : Reconciler) : Prop :=
  bgpConfigured r = true \/
  exists g, bgpGlobal r = Some g /\ g_LocalAS g <> 0 /\ sanitizeVTYParam (g_RouterID g) = None.

Definition store_ok (s : Store) : Prop :=
  forall o oi, s !! o = Some oi ->
    map_Forall (fun _ p => peer_ok p) (Peers oi) /\ map_Forall (fun _ p => prefix_ok p) (Prefixes oi) /\
    map_Forall (fun _ b => bfd_ok b) (BFD oi) /\ map_Forall (fun _ o => ospf_ok o) (OSPF oi).

Section Props.
Context {VT : Vtysh}.

Lemma RemoveRouteMap_spec c n : op_spec (sanitizeVTYParam n = None) (RemoveRouteMap c n).
Proof. eapply op_spec_iff; [|apply check_spec, runConfig_spec]. tauto. Qed.

Lemma Configure_spec c a r v :
  let '(c', e) := (ConfigureBGPGlobal c a r v).1 in
  (e = None -> localAS c' = a) /\ (healthy -> sanitizeVTYParam r = None -> e = None).
Proof.
  unfold ConfigureBGPGlobal. destruct (sanitizeVTYParam r) eqn:E; [by split|].
  unfold mbind, V_bind. pose proof (runConfig_spec (bgpGlobalCommands a r) v) as [_ H].
  destruct (runConfig _ v) as [[x|] v']; cbn in *; [|done]. split; [done|].
  intros Hh _. by specialize (H Hh I).
Qed.

Lemma Reconfigure_spec c o a r v :
  o = localAS c ->
  let '(c', e) := (ReconfigureBGPGlobal c o a r v).1 in
  (e = None -> localAS c' = a) /\ (healthy -> sanitizeVTYParam r = None -> e = None).
Proof.
  intros ->. unfold ReconfigureBGPGlobal. destruct (sanitizeVTYParam r) eqn:E; [by split|].
  destruct (Z.eqb_spec (localAS c) a) as [<-|Hne].
  { unfold mbind, V_bind. pose proof (runConfig_spec (bgpGlobalCommands (localAS c) r) v) as [_ H].
    destruct (runConfig _ v) as [e v']; cbn in *. split; [done|]. intros Hh _. auto. }
  assert (forall v, let '(c', e) := (ConfigureBGPGlobal c a r v).1 in
    (e = None -> localAS c' = a) /\ (healthy -> e = None)) as Hcfg.
  { intros v'. pose proof (Configure_spec c a r v') as H. destruct (_.1) as [c' e]. rewrite E in H.
    destruct H. split; auto. }
  destruct (negb (localAS c =? 0)).
  2: { specialize (Hcfg v). destruct (_.1) as [c' e]. destruct Hcfg. by split; auto. }
  unfold mbind, V_bind. pose proof (runConfig_spec ["no router bgp " +:+ fmt_d (localAS c)] v) as [_ H].
  destruct (runConfig _ v) as [[x|] v']; cbn [fst] in H.
  - split; [done|]. intros Hh _. by specialize (H Hh I).
  - specialize (Hcfg v'). destruct (_.1) as [c' e]. destruct Hcfg. by split; auto.
Qed.

Lemma ensureBGPGlobal_spec w c :
  frrClient (w_rec w) = Some c -> rec_inv (w_rec w) ->
  wp ensureBGPGlobal w (fun e w' =>
    rec_inv (w_rec w') /\ (exists c', frrClient (w_rec w') = Some c') /\
    (e = None -> bgpConfigured (w_rec w') = true) /\
    (healthy -> global_ok (w_rec w) -> e = None)).
Proof.
  intros Hc Hi. unfold ensureBGPGlobal. apply wp_bind, wp_getr. unfold id.
  destruct (bgpConfigured (w_rec w)) eqn:Ec; [apply wp_ret; eauto 6|]. rewrite Hc.
  destruct (bgpGlobal (w_rec w)) as [g|] eqn:Eg; cycle 1.
  { apply wp_ret. unfold global_ok. rewrite Ec, Eg. split_and!; try by eauto. naive_solver. }
  destruct (Z.eqb_spec (g_LocalAS g) 0) as [Hz|Hz].
  { apply wp_ret. unfold global_ok. rewrite Ec, Eg. split; [done|]. split; [by eauto|].
    split; [done|]. naive_solver. }
  apply wp_bind. eapply wp_frr; [done|].
  pose proof (Reconfigure_spec c (GetLocalAS c) (g_LocalAS g) (g_RouterID g) (w_vty w) eq_refl) as Hr.
  destruct (ReconfigureBGPGlobal _ _ _ _ _) as [[c' e] v]. cbn [fst snd] in *. destruct Hr as [Hr1 Hr2].
  apply wp_bind, wp_upd. cbn. destruct Hi as (Hp & Hx & Hb & Ho & _). destruct e as [e|].
  - apply wp_ret. cbn. split; [|split; [by eauto|]].
    + split_and!; try done. cbn. by rewrite Ec.
    + split; [done|]. intros Hh [?|(g' & ? & ? & ?)]; [congruence|]. assert (g' = g) as -> by congruence.
      specialize (Hr2 Hh). naive_solver.
  - apply wp_bind. set (clear := negb _ && negb _).
    assert (forall r, frrClient r = Some c' -> peers_inv r -> prefixes_inv r -> bfd_inv r -> ospf_inv r ->
      rec_inv (set_bgpConfigured true r)) as Hset.
    { intros r ? ? ? ? ?. split_and!; try done. intros _. exists c'. split; [done|].
      rewrite (Hr1 eq_refl). done. }
    destruct clear.
    + apply wp_upd, wp_bind, wp_upd, wp_ret. cbn. split; [|by eauto].
      apply Hset; try done; apply map_Forall_empty.
    + apply wp_ret, wp_bind, wp_upd, wp_ret. cbn. split; [|by eauto]. by apply Hset.
Qed.

(** * A reconciliation cycle *)

(** The applied state is what the intents ask for; the BFD sessions that peers
    have created are theirs. *)
Definition in_sync {MI : MapIter} (s : Store) (r : Reconciler) : Prop :=
  agree peerEqual ∅ (desiredPeers (GetPeerIntents s)) (appliedPeers r) /\
  agree prefixEqual ∅ (desiredPrefixes (GetPrefixIntents s)) (appliedPrefixes r) /\
  agree bfdEqual (peerManagedBFD r) (desiredBFD (GetBFDIntents s)) (appliedBFD r) /\
  agree ospfEqual ∅ (desiredOSPF (GetOSPFIntents s)) (appliedOSPF r).

Lemma build_ok {A} (key : A -> string) (ok : A -> Prop) l :
  Forall ok l -> map_Forall (fun _ d => ok d) (build key l).
Proof. intros H k d [Hd _]%build_Some. rewrite Forall_forall in H. auto. Qed.

Lemma snapshot_ok {MI : MapIter} {A} (proj : OwnerIntents -> gmap string A) (ok : A -> Prop) (s : Store) :
  (forall o oi, s !! o = Some oi -> map_Forall (fun _ x => ok x) (proj oi)) ->
  Forall ok (iter_values s ≫= fun oi => iter_values (proj oi)).
Proof.
  intros H. apply Forall_forall. intros x (o & oi & k & Ho & Hk)%elem_of_snapshot. by eapply (H o oi Ho k).
Qed.

Lemma Reconcile_spec {MI : MapIter} s w c :
  frrClient (w_rec w) = Some c -> rec_inv (w_rec w) ->
  wp (Reconcile s) w (fun es w' =>
    rec_inv (w_rec w') /\ (exists c', frrClient (w_rec w') = Some c') /\
    (es = [] -> in_sync s (w_rec w') /\ bgpConfigured (w_rec w') = true) /\
    (healthy -> global_ok (w_rec w) -> store_ok s -> es = [])).
Proof.
  intros Hc Hi. unfold Reconcile. apply wp_bind, wp_getr. rewrite Hc.
  apply wp_bind. eapply wp_mono; [by eapply ensureBGPGlobal_spec|].
  intros [e|] w0 (Hi0 & [c0 Hc0] & Hcfg & Hok0).
  { apply wp_ret. split; [done|]. split; [by eauto|]. split; [done|]. intros Hh Hg _. by specialize (Hok0 Hh Hg). }
  specialize (Hcfg eq_refl). clear Hok0. destruct Hi0 as (Hp0 & Hx0 & Hb0 & Ho0 & Has).
  destruct (Has Hcfg) as (c1 & Hc1 & Hne). assert (c1 = c0) as -> by congruence. clear Hc1.
  apply wp_bind. eapply wp_mono; [by apply (ReconcilePeers_spec (GetPeerIntents s) w0 c0)|].
  intros e1 w1 ((Hk1 & Ex1 & Eo1 & Hb1 & Hp1) & Hs1 & Hok1).
  apply wp_bind. eapply wp_mono.
  { apply (ReconcilePrefixes_spec (GetPrefixIntents s) w1 c0).
    - rewrite <- Hc0. by apply core_client. - unfold prefixes_inv. by rewrite Ex1. }
  intros e2 w2 ((Hk2 & Ep2 & Eb2 & Em2 & Eo2 & Hx2) & Hs2 & Hok2).
  apply wp_bind. eapply wp_mono.
  { apply (ReconcileBFD_spec (GetBFDIntents s) w2 c0).
    - rewrite <- Hc0. apply core_client. congruence. - unfold bfd_inv. by rewrite Eb2. }
  intros e3 w3 ((Hk3 & Ep3 & Ex3 & Em3 & Eo3 & Hb3) & Hs3 & Hok3).
  apply wp_bind. eapply wp_mono.
  { apply (ReconcileOSPF_spec (GetOSPFIntents s) w3 c0).
    - rewrite <- Hc0. apply core_client. congruence. - unfold ospf_inv. by rewrite Eo3, Eo2, Eo1. }
  intros e4 w4 ((Hk4 & Ep4 & Ex4 & Eb4 & Em4 & Ho4) & Hs4 & Hok4).
  apply wp_bind. eapply wp_mono; [apply monitorFRRState_quiet|].
  intros [] w5 (Hk5 & Ep5 & Ex5 & Eb5 & Eo5 & Em5 & _). apply wp_ret.
  assert (core (w_rec w5) = core (w_rec w0)) as Hk by congruence.
  assert (frrClient (w_rec w5) = Some c0) as Hc5 by (rewrite <- Hc0; by apply core_client).
  assert (bgpConfigured (w_rec w5) = true) as Hcfg5 by (rewrite <- Hcfg; unfold core in Hk; congruence).
  split; [|split; [by eauto|split]].
  - unfold rec_inv, peers_inv, prefixes_inv, bfd_inv, ospf_inv.
    rewrite Ep5, Ep4, Ep3, Ep2, Ex5, Ex4, Ex3, Eb5, Eb4, Eo5. split_and!; try done. by eauto.
  - intros (-> & (-> & (-> & ->)%app_eq_nil)%app_eq_nil)%app_eq_nil. split; [|done]. unfold in_sync.
    rewrite Ep5, Ep4, Ep3, Ep2, Ex5, Ex4, Ex3, Eb5, Eb4, Eo5, Em5, Em4, Em3. split_and!; auto.
  - intros Hh _ Hs. rewrite Hok1, Hok2, Hok3, Hok4; try done.
    all: apply build_ok, snapshot_ok; intros o oi Ho; by destruct (Hs o oi Ho) as (? & ? & ? & ?).
Qed.

(** * Quiescence *)

Lemma Reconcile_quiet {MI : MapIter} s w c :
  frrClient (w_rec w) = Some c -> bgpConfigured (w_rec w) = true -> in_sync s (w_rec w) ->
  exists w', Reconcile s w = Val ([], w') /\ monitor_only w w'.
Proof.
  intros Hc Hcfg (Hp & Hx & Hb & Ho).
  assert (ReconcilePeers (GetPeerIntents s) w = Val ([], w)) as Ep.
  { apply (stage_noop appliedPeers peerEqual ∅); [| |done].
    - intros k d Hd. unfold syncPeer, mbind, M_bind, getr. by rewrite Hd.
    - intros k x [[d Hd]|Hk]; [|set_solver]. unfold dropPeer. by rewrite Hd. }
  assert (ReconcilePrefixes (GetPrefixIntents s) w = Val ([], w)) as Ex.
  { apply (stage_noop appliedPrefixes prefixEqual ∅); [| |done].
    - intros k d Hd. unfold syncPrefix, mbind, M_bind, getr. by rewrite Hd.
    - intros k x [[d Hd]|Hk]; [|set_solver]. unfold dropPrefix. by rewrite Hd. }
  assert (ReconcileBFD (GetBFDIntents s) w = Val ([], w)) as Eb.
  { apply (stage_noop appliedBFD bfdEqual (peerManagedBFD (w_rec w))); [| |done].
    - intros k d Hd. unfold syncBFD, mbind, M_bind, getr. by rewrite Hd.
    - intros k x Hk. unfold dropBFD. destruct (desiredBFD _ !! k) eqn:E; [done|].
      destruct Hk as [[? ?]|Hk]; [done|]. unfold mbind, M_bind, getr. by rewrite bool_decide_true. }
  assert (ReconcileOSPF (GetOSPFIntents s) w = Val ([], w)) as Eo.
  { apply (stage_noop appliedOSPF ospfEqual ∅); [| |done].
    - intros k d Hd. unfold syncOSPF, mbind, M_bind, getr. by rewrite Hd.
    - intros k x [[d Hd]|Hk]; [|set_solver]. unfold dropOSPF. by rewrite Hd. }
  destruct (monitorFRRState_quiet s w) as ([] & w' & Em & Hm). exists w'. split; [|done].
  unfold Reconcile. erewrite mbind_val by reflexivity. rewrite Hc.
  erewrite (mbind_val ensureBGPGlobal); cycle 1.
  { unfold ensureBGPGlobal, mbind, M_bind, getr, id. rewrite Hcfg. reflexivity. }
  cbv beta iota. rewrite (mbind_val _ _ _ _ _ Ep), (mbind_val _ _ _ _ _ Ex), (mbind_val _ _ _ _ _ Eb),
    (mbind_val _ _ _ _ _ Eo), (mbind_val _ _ _ _ _ Em). done.
Qed.

(** * Withdrawal *)

(** The invariant together with a client. *)
Definition live (r : Reconciler) : Prop := rec_inv r /\ exists c, frrClient r = Some c.

Lemma live_vty w w' : vty_only w w' -> live (w_rec w) -> live (w_rec w').
Proof. by intros [-> _]. Qed.

Lemma live_delete_prefix k r :
  live r -> live (set_appliedPrefixes (delete k (appliedPrefixes r)) r).
Proof. intros [(? & ? & ? & ? & ?) ?]. split; [|done]. split_and!; try done. by apply map_Forall_delete. Qed.
Lemma live_delete_bfd k r : live r -> live (set_appliedBFD (delete k (appliedBFD r)) r).
Proof. intros [(? & ? & ? & ? & ?) ?]. split; [|done]. split_and!; try done. by apply map_Forall_delete. Qed.
Lemma live_delete_ospf k r : live r -> live (set_appliedOSPF (delete k (appliedOSPF r)) r).
Proof. intros [(? & ? & ? & ? & ?) ?]. split; [|done]. split_and!; try done. by apply map_Forall_delete. Qed.
Lemma live_delete_peer k r : live r -> live (set_appliedPeers (delete k (appliedPeers r)) r).
Proof. intros [(? & ? & ? & ? & ?) ?]. split; [|done]. split_and!; try done. by apply map_Forall_delete. Qed.

(** A client call and, if it succeeds, the removal of an entry. *)
Lemma wp_withdraw {A} (get : Reconciler -> gmap string A) (I : Reconciler -> Prop) f k ok op w c :
  (forall r, get (f r) = delete k (get r)) -> (forall r, I r -> I (f r)) -> (ok : Prop) ->
  frrClient (w_rec w) = Some c -> op_spec ok (op c) -> I (w_rec w) ->
  wp (err ← frr op;
      match err with Some e => mret [RFrr e] | None => _ ← upd f; mret [] end) w
     (at_key get (fun w => I (w_rec w)) k w (fun o => o = None) healthy).
Proof.
  intros Hg HI Hok Hc Hop Hw. apply wp_bind. eapply wp_call; [done|done|].
  intros [e|] w1 [Hw1 _] _ Hb.
  - apply wp_ret, at_key_err; [by rewrite Hw1|by rewrite Hw1|]. intros Hh. by specialize (Hb Hh Hok).
  - apply wp_bind, wp_upd, wp_ret. unfold at_key. cbn. rewrite Hw1, Hg, lookup_delete_eq.
    split; [by apply HI|]. split; [intros; by rewrite lookup_delete_ne|done].
Qed.

(** The loop over one applied map empties it. *)
Lemma wp_empty {MI : MapIter} {A} (get : Reconciler -> gmap string A) (I : Reconciler -> Prop) body w :
  (forall k x w, I (w_rec w) -> get (w_rec w) !! k = Some x ->
     wp (body k x) w (at_key get (fun w => I (w_rec w)) k w (fun o => o = None) healthy)) ->
  I (w_rec w) ->
  wp (range (iter (get (w_rec w))) body) w (fun es w' =>
    I (w_rec w') /\ (es = [] -> get (w_rec w') = ∅) /\ (healthy -> es = [])).
Proof.
  intros Hb HI. eapply wp_mono.
  { apply (wp_range get (fun w => I (w_rec w)) (fun _ x o => o = Some x) (fun _ _ o => o = None)
      (fun _ _ => healthy)); [intros; by apply Hb|apply NoDup_iter_keys|done|].
    intros k x. apply elem_of_iter. }
  intros es w' (HI' & Ho & Hg & Hf). split; [done|]. split; [|auto].
  intros ->. apply map_eq. intros k. rewrite lookup_empty.
  destruct (get (w_rec w) !! k) as [x|] eqn:E.
  - apply (Hg eq_refl k x). by apply elem_of_iter.
  - rewrite Ho; [done|]. intros ([k' x] & -> & Hin%elem_of_iter)%list_elem_of_fmap. cbn in E. congruence.
Qed.

Lemma withdrawPrefix_spec (I : Reconciler -> Prop) k x w :
  (forall r, I r -> live r /\ I (set_appliedPrefixes (delete k (appliedPrefixes r)) r)) ->
  I (w_rec w) -> appliedPrefixes (w_rec w) !! k = Some x ->
  wp (withdrawPrefix k x) w
     (at_key appliedPrefixes (fun w => I (w_rec w)) k w (fun o => o = None) healthy).
Proof.
  intros HI Hw Hx. destruct (HI _ Hw) as [[(Hp & Hxs & _) [c Hc]] _].
  assert (forall r, w_rec r = w_rec w -> wp (_ ← upd (fun r => set_appliedPrefixes (delete k (appliedPrefixes r)) r); mret [])
    r (at_key appliedPrefixes (fun w => I (w_rec w)) k w (fun o => o = None) healthy)) as Hforget.
  { intros r Hr. apply wp_bind, wp_upd, wp_ret. unfold at_key. cbn. rewrite Hr, lookup_delete_eq.
    split; [by apply HI|]. split; [intros; by rewrite lookup_delete_ne|done]. }
  unfold withdrawPrefix. destruct (x_Protocol x =? ProtocolBGP) eqn:E; [|by apply Hforget]. to_prop.
  apply wp_bind. eapply wp_call; [done|apply WithdrawNetwork_spec|]. intros [e|] w1 [Hw1 _] _ Hb.
  - apply wp_ret, at_key_err; [by rewrite Hw1|by rewrite Hw1|]. intros Hh.
    destruct (Hxs k x Hx) as [(_ & Hok & _)|Ho]; [by specialize (Hb Hh Hok)|]. by rewrite E in Ho.
  - destruct (hasAttributes x) eqn:Ea; [|apply wp_bind, wp_ret; by apply Hforget].
    apply wp_bind, wp_bind. eapply wp_call; [by rewrite Hw1|apply RemoveRouteMap_spec|].
    intros [e|] w2 [Hw2 _] _ Hb2; apply wp_ret; [|apply Hforget; congruence].
    apply wp_bind, wp_upd, wp_ret. unfold at_key. cbn. rewrite Hw2, Hw1.
    split; [by apply HI|]. split; [intros; by rewrite lookup_delete_ne|]. split; [done|].
    intros Hh. destruct (Hxs k x Hx) as [(_ & _ & Hok)|Ho]; [|by rewrite E in Ho].
    by specialize (Hb2 Hh (proj1 (Hok Ea))).
Qed.

Lemma withdrawBFD_spec (I : Reconciler -> Prop) k x w :
  (forall r, I r -> live r /\ I (set_appliedBFD (delete k (appliedBFD r)) r)) ->
  I (w_rec w) -> appliedBFD (w_rec w) !! k = Some x ->
  wp (withdrawBFD k x) w (at_key appliedBFD (fun w => I (w_rec w)) k w (fun o => o = None) healthy).
Proof.
  intros HI Hw Hx. destruct (HI _ Hw) as [[(_ & _ & Hb & _) [c Hc]] _]. unfold withdrawBFD.
  apply (wp_withdraw appliedBFD I _ k (bfd_ok x) _ w c); try done;
    [apply HI|by apply (Hb k x)|apply RemoveBFDPeer_spec].
Qed.

Lemma withdrawOSPF_spec (I : Reconciler -> Prop) k x w :
  (forall r, I r -> live r /\ I (set_appliedOSPF (delete k (appliedOSPF r)) r)) ->
  I (w_rec w) -> appliedOSPF (w_rec w) !! k = Some x ->
  wp (withdrawOSPF k x) w (at_key appliedOSPF (fun w => I (w_rec w)) k w (fun o => o = None) healthy).
Proof.
  intros HI Hw Hx. destruct (HI _ Hw) as [[(_ & _ & _ & Ho & _) [c Hc]] _]. unfold withdrawOSPF.
  apply (wp_withdraw appliedOSPF I _ k (ospf_ok x) _ w c); try done;
    [apply HI|by apply (Ho k x)|apply DisableOSPF_spec].
Qed.

Lemma withdrawPeer_spec (I : Reconciler -> Prop) k x w :
  (forall r, I r -> live r /\ I (set_appliedPeers (delete k (appliedPeers r)) r)) ->
  I (w_rec w) -> appliedPeers (w_rec w) !! k = Some x ->
  wp (withdrawPeer k x) w (at_key appliedPeers (fun w => I (w_rec w)) k w (fun o => o = None) healthy).
Proof.
  intros HI Hw Hx. destruct (HI _ Hw) as [[(Hp & _) [c Hc]] _]. unfold withdrawPeer.
  apply (wp_withdraw appliedPeers I _ k (validateIPAddress (p_NeighborAddress x) = None) _ w c); try done;
    [apply HI|by apply (Hp k x)|apply RemoveNeighbor_spec].
Qed.

(** The conclusion of a withdrawal: every map is empty if nothing failed, and
    nothing fails under a healthy FRR. *)
Definition all_empty (r : Reconciler) : Prop :=
  appliedPeers r = ∅ /\ appliedPrefixes r = ∅ /\ appliedBFD r = ∅ /\ appliedOSPF r = ∅.

Lemma WithdrawAll_spec {MI : MapIter} w :
  live (w_rec w) ->
  wp WithdrawAll w (fun es w' =>
    live (w_rec w') /\ (es = [] -> all_empty (w_rec w')) /\ (healthy -> es = [])).
Proof.
  intros Hl. pose proof Hl as [_ [c0 Hc0]]. unfold WithdrawAll. apply wp_bind, wp_getr. rewrite Hc0.
  apply wp_bind, wp_getr, wp_bind. eapply wp_mono.
  { apply (wp_empty appliedPrefixes live); [|done]. intros. apply withdrawPrefix_spec; [|done..].
    split; [done|]. by apply live_delete_prefix. }
  intros e1 w1 (Hl1 & Hx1 & Hh1). apply wp_bind, wp_getr, wp_bind. eapply wp_mono.
  { pose (I2 := fun r => live r /\ appliedPrefixes r = appliedPrefixes (w_rec w1)).
    apply (wp_empty appliedBFD I2); [|done]. intros k x w' Hw' Hk. apply (withdrawBFD_spec I2); [|done..].
    intros r [? ?]. split; [done|]. split; [by apply live_delete_bfd|done]. }
  intros e2 w2 ([Hl2 Hx2] & Hb2 & Hh2). apply wp_bind, wp_getr, wp_bind. eapply wp_mono.
  { pose (I3 := fun r => live r /\ appliedPrefixes r = appliedPrefixes (w_rec w2) /\
      appliedBFD r = appliedBFD (w_rec w2)).
    apply (wp_empty appliedOSPF I3); [|done]. intros k x w' Hw' Hk. apply (withdrawOSPF_spec I3); [|done..].
    intros r [? ?]. split; [done|]. split; [by apply live_delete_ospf|done]. }
  intros e3 w3 ((Hl3 & Hx3 & Hb3) & Ho3 & Hh3). apply wp_bind, wp_getr, wp_bind. eapply wp_mono.
  { pose (I4 := fun r => live r /\ appliedPrefixes r = appliedPrefixes (w_rec w3) /\
      appliedBFD r = appliedBFD (w_rec w3) /\ appliedOSPF r = appliedOSPF (w_rec w3)).
    apply (wp_empty appliedPeers I4); [|done]. intros k x w' Hw' Hk. apply (withdrawPeer_spec I4); [|done..].
    intros r [? ?]. split; [done|]. split; [by apply live_delete_peer|done]. }
  intros e4 w4 ((Hl4 & Hx4 & Hb4 & Ho4) & Hp4 & Hh4).
  assert (healthy -> e1 ++ e2 ++ e3 ++ e4 = []) as Hh.
  { intros Hh. by rewrite Hh1, Hh2, Hh3, Hh4. }
  assert (e1 ++ e2 ++ e3 ++ e4 = [] -> all_empty (w_rec w4)) as He.
  { intros (-> & (-> & (-> & ->)%app_eq_nil)%app_eq_nil)%app_eq_nil.
    split; [by apply Hp4|]. rewrite Hx4, Hx3, Hx2, Hb4, Hb3, Ho4. split_and!; auto. }
  destruct (e1 ++ e2 ++ e3 ++ e4) as [|e es]; [|apply wp_ret; cbn; by split_and!].
  cbn. apply wp_bind, wp_upd, wp_ret. split; [by destruct Hl4|]. split; [by intros _; apply He|done].
Qed.

(** * Runs of the reconciler *)

(** The operations, apart from the replacement of the client. *)
Inductive rec_op : Type :=
| RReconcile (MI : MapIter) (s : Store)
| RApplyIntent (t : string) (v : any_intent)
| RRemoveIntent (t k : string)
| RTriggerReconcile
| RSetEventPublisher
| RUpdateBGPGlobal (a : Z) (r : string)
| RWithdrawAll (MI : MapIter).

Definition run_rec_op (op : rec_op) : M unit :=
  match op with
  | RReconcile _ s => _ ← Reconcile s; mret tt
  | RApplyIntent t v => _ ← ApplyIntent t v; mret tt
  | RRemoveIntent t k => _ ← RemoveIntent t k; mret tt
  | RTriggerReconcile => TriggerReconcile
  | RSetEventPublisher => SetEventPublisher
  | RUpdateBGPGlobal a r => _ ← UpdateBGPGlobal a r; mret tt
  | RWithdrawAll _ => _ ← WithdrawAll; mret tt
  end.

(** The worlds a reconciler created with a client can reach, whatever FRR
    answers. *)
Inductive reachable : world -> Prop :=
| reach_new c g v : reachable (mkWorld (NewReconciler (Some c) g) v [])
| reach_op w op w' : reachable w -> run_rec_op op w = Val (tt, w') -> reachable w'.

Lemma live_new c g : live (NewReconciler (Some c) g).
Proof. split; [|by eauto]. split_and!; try apply map_Forall_empty. done. Qed.

(** Recording an intent that was applied. *)
Lemma wp_finish (m : M (option rec_error)) f w :
  wp m w (fun e w' => live (w_rec w') /\ (e = None -> live (f (w_rec w')))) ->
  wp (err ← m; match err with Some e => mret (Some e) | None => _ ← upd f; mret None end) w
     (fun _ w' => live (w_rec w')).
Proof.
  intros H. apply wp_bind. eapply wp_mono; [exact H|]. intros [e|] w' [? Hf]; [by apply wp_ret|].
  apply wp_bind, wp_upd, wp_ret. by apply Hf.
Qed.

Lemma ApplyIntent_live t v w : live (w_rec w) -> wp (ApplyIntent t v) w (fun _ w' => live (w_rec w')).
Proof.
  intros Hl. pose proof Hl as [_ [c Hc]]. unfold ApplyIntent.
  repeat (destruct (String.eqb t _); [destruct v; try (by apply wp_ret); apply wp_finish|]).
  - eapply wp_mono; [by eapply applyPeer_spec|].
    intros e w' ((Hk & Ep & Ex & Eo & Hb) & Hok & _).
    destruct Hl as [(? & ? & ? & ? & ?) _]. pose proof (core_client _ _ Hk) as Hc'.
    assert (live (w_rec w')) as [Hi Hcl].
    { split; [|by rewrite Hc'; eauto]. unfold core in Hk.
      split_and!; unfold peers_inv, prefixes_inv, ospf_inv; rewrite ?Ep, ?Ex, ?Eo; try done; [by apply Hb|].
      replace (bgpConfigured (w_rec w')) with (bgpConfigured (w_rec w)) by congruence. by rewrite Hc'. }
    split; [done|]. intros He. destruct Hi as (? & ? & ? & ? & ?). split; [|done]. split_and!; try done.
    apply map_Forall_insert_2; [|done]. by destruct (Hok He) as [[? _] _].
  - eapply wp_mono; [by apply (applyPrefix_spec _ w c)|]. intros e w' (Hw & Hok & _).
    pose proof (live_vty _ _ Hw Hl) as Hl'. split; [done|]. intros He.
    destruct Hl' as [(? & ? & ? & ? & ?) ?]. split; [|done]. split_and!; try done.
    apply map_Forall_insert_2; auto.
  - eapply wp_mono; [by apply (applyBFD_spec _ w c)|]. intros e w' (Hw & Hok & _).
    pose proof (live_vty _ _ Hw Hl) as Hl'. split; [done|]. intros He.
    destruct Hl' as [(? & ? & ? & ? & ?) ?]. split; [|done]. split_and!; try done.
    apply map_Forall_insert_2; auto.
  - eapply wp_mono; [by apply (applyOSPF_spec _ w c)|]. intros e w' (Hw & Hok & _).
    pose proof (live_vty _ _ Hw Hl) as Hl'. split; [done|]. intros He.
    destruct Hl' as [(? & ? & ? & ? & ?) ?]. split; [|done]. split_and!; try done.
    apply map_Forall_insert_2; auto.
  - by apply wp_ret.
Qed.

Lemma wp_finish_vty ok m f w c :
  frrClient (w_rec w) = Some c -> intent_spec ok m -> live (w_rec w) -> (forall r, live r -> live (f r)) ->
  wp (err ← m; match err with Some e => mret (Some e) | None => _ ← upd f; mret None end) w
     (fun _ w' => live (w_rec w')).
Proof.
  intros Hc Hm Hl Hf. apply wp_finish. eapply wp_mono; [apply (Hm w c Hc)|].
  intros e w' (Hw & _). pose proof (live_vty _ _ Hw Hl). auto.
Qed.

Lemma RemoveIntent_live t k w : live (w_rec w) -> wp (RemoveIntent t k) w (fun _ w' => live (w_rec w')).
Proof.
  intros Hl. pose proof Hl as [_ [c Hc]]. unfold RemoveIntent. apply wp_bind, wp_getr. unfold id.
  repeat (destruct (String.eqb t _); [case_match; [|by apply wp_ret]|]); [..|by apply wp_ret].
  - eapply wp_finish_vty; [done|apply removePeer_spec|done|intros; by apply live_delete_peer].
  - eapply wp_finish_vty; [done|apply removePrefix_spec|done|intros; by apply live_delete_prefix].
  - eapply wp_finish_vty; [done|apply removeBFD_spec|done|intros; by apply live_delete_bfd].
  - eapply wp_finish_vty; [done|apply removeOSPF_spec|done|intros; by apply live_delete_ospf].
Qed.

Lemma run_rec_op_live op w : live (w_rec w) -> wp (run_rec_op op) w (fun _ w' => live (w_rec w')).
Proof.
  intros Hl. pose proof Hl as [Hi [c Hc]]. destruct op; cbn [run_rec_op].
  - apply wp_bind. eapply wp_mono; [by eapply Reconcile_spec|]. intros es w' (? & ? & _). by apply wp_ret.
  - apply wp_bind. eapply wp_mono; [by apply ApplyIntent_live|]. intros. by apply wp_ret.
  - apply wp_bind. eapply wp_mono; [by apply RemoveIntent_live|]. intros. by apply wp_ret.
  - by apply wp_upd.
  - by apply wp_upd.
  - unfold UpdateBGPGlobal. apply wp_bind, wp_bind, wp_getr, wp_bind, wp_upd, wp_bind, wp_upd, wp_ret, wp_ret.
    destruct Hi as (? & ? & ? & ? & ?). split; [|by exists c]. by split_and!.
  - apply wp_bind. eapply wp_mono; [by apply WithdrawAll_spec|]. intros es w' (? & _). by apply wp_ret.
Qed.

Lemma reachable_live w : reachable w -> live (w_rec w).
Proof.
  induction 1 as [c g v|w op w' H IH E]; [apply live_new|].
  destruct (run_rec_op_live op w IH) as (a & w'' & E' & Hl). congruence.
Qed.
End Props.

(** * What several owners ask for *)

(** No two owners file an intent under the same key. *)
Definition conflict_free (s : Store) : Prop := forall o1 o2 oi1 oi2,
  s !! o1 = Some oi1 -> s !! o2 = Some oi2 -> o1 <> o2 ->
  Peers oi1 ##ₘ Peers oi2 /\ Prefixes oi1 ##ₘ Prefixes oi2 /\ BFD oi1 ##ₘ BFD oi2 /\ OSPF oi1 ##ₘ OSPF oi2.

(** Then the desired state is the union of the owners' maps, in whatever order
    the store is walked. *)
Lemma desired_exact {MI : MapIter} {A} (proj : OwnerIntents -> gmap string A) key (s : Store) :
  (forall o oi k x, s !! o = Some oi -> proj oi !! k = Some x -> k = key x) ->
  (forall o1 o2 oi1 oi2, s !! o1 = Some oi1 -> s !! o2 = Some oi2 -> o1 <> o2 -> proj oi1 ##ₘ proj oi2) ->
  forall k x, build key (iter_values s ≫= fun oi => iter_values (proj oi)) !! k = Some x <->
              exists o oi, s !! o = Some oi /\ proj oi !! k = Some x.
Proof.
  intros Hkey Hdis. set (l := iter_values s ≫= _).
  assert (forall k x, build key l !! k = Some x -> exists o oi, s !! o = Some oi /\ proj oi !! k = Some x) as H.
  { intros k x [(o & oi & k' & Ho & Hk)%elem_of_snapshot ->]%build_Some.
    exists o, oi. split; [done|]. by rewrite <- (Hkey o oi k' x). }
  intros k x. split; [apply H|]. intros (o & oi & Ho & Hk).
  assert (is_Some (build key l !! k)) as [y Hy].
  { apply build_dom, list_elem_of_fmap. exists x. split; [by eapply Hkey|].
    apply elem_of_snapshot. by exists o, oi, k. }
  rewrite Hy. f_equal. destruct (H k y Hy) as (o' & oi' & Ho' & Hk').
  destruct (decide (o' = o)) as [->|Hne]; [congruence|].
  destruct (map_disjoint_spec (proj oi') (proj oi)) as [Hd _].
  exfalso. by eapply (Hd (Hdis o' o oi' oi Ho' Ho Hne) k y x).
Qed.

Lemma desired_order (MI1 MI2 : MapIter) {A} (proj : OwnerIntents -> gmap string A) key (s : Store) :
  (forall o oi k x, s !! o = Some oi -> proj oi !! k = Some x -> k = key x) ->
  (forall o1 o2 oi1 oi2, s !! o1 = Some oi1 -> s !! o2 = Some oi2 -> o1 <> o2 -> proj oi1 ##ₘ proj oi2) ->
  build key (@iter_values MI1 _ _ _ _ s ≫= fun oi => @iter_values MI1 _ _ _ _ (proj oi))
  = build key (@iter_values MI2 _ _ _ _ s ≫= fun oi => @iter_values MI2 _ _ _ _ (proj oi)).
Proof.
  intros Hkey Hdis. apply map_eq. intros k. apply option_eq. intros x.
  by rewrite (@desired_exact MI1), (@desired_exact MI2).
Qed.

Lemma recPrefixKey_eq p : prefixIntentKey p = recPrefixKey (x_Protocol p) (x_Prefix p).
Proof.
  unfold prefixIntentKey, prefixKey, recPrefixKey. rewrite protocolString_text. by destruct (proto_of _).
Qed.

Lemma in_sync_order (MI1 MI2 : MapIter) s r :
  store_wf s -> conflict_free s -> @in_sync MI1 s r -> @in_sync MI2 s r.
Proof.
  intros Hwf Hcf. unfold in_sync, desiredPeers, desiredPrefixes, desiredBFD, desiredOSPF,
    GetPeerIntents, GetPrefixIntents, GetBFDIntents, GetOSPFIntents.
  rewrite (desired_order MI1 MI2 Peers), (desired_order MI1 MI2 Prefixes),
    (desired_order MI1 MI2 BFD), (desired_order MI1 MI2 OSPF); [done|..];
    try (intros o oi k x Ho Hk; destruct (Hwf o oi Ho) as (H1 & H2 & H3 & H4));
    try (intros o1 o2 oi1 oi2 Ho1 Ho2 Hne; by destruct (Hcf o1 o2 oi1 oi2 Ho1 Ho2 Hne) as (? & ? & ? & ?)).
  - by destruct (H4 k x Hk).
  - by destruct (H3 k x Hk).
  - destruct (H2 k x Hk) as [-> _]. apply recPrefixKey_eq.
  - by destruct (H1 k x Hk).
Qed.

(** * Theorems *)

(** C5: One cycle converges.  From any state a reconciler with a client can
    reach, whatever FRR answered so far, and for any intents whose parameters the
    client accepts: if BGP can be configured and FRR accepts what it is sent from
    now on, [Reconcile] returns without error and leaves the applied state equal
    to the intents, nothing missing, outdated or left over. *)
Theorem reconcile_converges (VT0 VT : Vtysh) (MI : MapIter) s w :
  reachable (VT := VT0) w -> healthy (VT := VT) -> global_ok (w_rec w) -> store_ok s ->
  exists w', Reconcile (VT := VT) s w = Val ([], w') /\ in_sync s (w_rec w').
Proof.
  intros Hr Hh Hg Hs. destruct (reachable_live w Hr) as [Hi [c Hc]].
  destruct (Reconcile_spec (VT := VT) s w c Hc Hi) as (es & w' & E & _ & _ & Hsync & Hok).
  specialize (Hok Hh Hg Hs) as ->. exists w'. split; [done|]. by apply Hsync.
Qed.

(** C25: An error-free cycle is stable where owners do not contest.  If [Reconcile]
    returned without error on intents of the store of which no two owners file one
    under the same key, whatever FRR answered, then another cycle on the same intents,
    in whatever order the maps are walked, returns without error, sends FRR no
    configuration and leaves the applied state as it is.  With contested keys it need
    not (contested_peer_flaps). *)
Theorem reconcile_stable (VT VT' : Vtysh) (MI MI' : MapIter) ops w w1 :
  let s := run_ops NewStore ops in
  reachable (VT := VT) w -> Reconcile (VT := VT) (MI := MI) s w = Val ([], w1) -> conflict_free s ->
  exists w2, Reconcile (VT := VT') (MI := MI') s w1 = Val ([], w2) /\ monitor_only w1 w2.
Proof.
  intros s Hr E Hcf. destruct (reachable_live w Hr) as [Hi [c Hc]].
  destruct (Reconcile_spec (VT := VT) (MI := MI) s w c Hc Hi) as (es & w' & E' & Hi' & [c' Hc'] & Hsync & _).
  rewrite E in E'. injection E' as <- <-. destruct (Hsync eq_refl) as [Hs Hcfg].
  apply (Reconcile_quiet (VT := VT') (MI := MI') s w1 c' Hc' Hcfg). apply (in_sync_order MI MI'); [|done..].
  apply run_ops_wf, store_wf_new.
Qed.

(** The reconciler does not panic.  Every operation of a reconciler that was
    created with a client returns, in every reachable state and whatever FRR
    answers. *)
Theorem reconciler_returns (VT : Vtysh) w op :
  reachable w -> exists w', run_rec_op op w = Val (tt, w').
Proof.
  intros Hr%reachable_live. destruct (run_rec_op_live op w Hr) as ([] & w' & E & _). by exists w'.
Qed.

(** Withdrawing is complete.  In every reachable state [WithdrawAll] returns;
    if it reports no error the reconciler tracks no peer, prefix, BFD session or
    OSPF interface any more; and it reports none if FRR accepts the removals. *)
Theorem withdraw_all_empties (VT0 VT : Vtysh) (MI : MapIter) w :
  reachable (VT := VT0) w ->
  exists es w', WithdrawAll (VT := VT) w = Val (es, w') /\
    (es = [] -> all_empty (w_rec w')) /\ (healthy (VT := VT) -> es = []).
Proof.
  intros Hr%reachable_live. destruct (WithdrawAll_spec (VT := VT) w Hr) as (es & w' & E & _ & H1 & H2).
  by exists es, w'.
Qed.

(** * A sample run *)

(** An FRR that accepts everything and has no neighbours. *)
Definition frr_accepts : Vtysh :=
  {| vtysh_config := fun _ _ => Some ""; vtysh_show_bgp := fun _ => Some [];
     vtysh_show_bfd := fun _ => Some []; vtysh_show_ospf := fun _ => Some [] |}.

Definition sample_peer : PeerIntent :=
  mkPeer "" "10.0.0.1" 65001 PeerTypeExternal 0 0 true 300 300 3 "" [AddressFamilyIPv4Unicast] "" 0 "" 0 0 0.

Definition sample_ops : list (Z * store_op) := [(1, OpSet "novanet" (APeer sample_peer))].
Definition sample_store : Store := run_ops NewStore sample_ops.

Definition sample_world : world :=
  mkWorld (NewReconciler (Some NewClient) (Some (mkBGPGlobal 65000 "1.1.1.1"))) (mkVty 0 []) [].

Lemma sample_store_eq :
  sample_store = {["novanet" := mkOwner {["peer:10.0.0.1" := stampPeer "novanet" 1 1 sample_peer]} ∅ ∅ ∅]}.
Proof. reflexivity. Qed.

Lemma sample_store_ok : store_ok sample_store.
Proof.
  rewrite sample_store_eq. intros o oi [_ <-]%lookup_singleton_Some. cbn [Peers Prefixes BFD OSPF].
  split; [|split; [|split]; apply map_Forall_empty].
  apply map_Forall_singleton. split_and!; try reflexivity. by left.
Qed.

Lemma sample_conflict_free : conflict_free sample_store.
Proof.
  rewrite sample_store_eq. intros o1 o2 oi1 oi2 [<- _]%lookup_singleton_Some [<- _]%lookup_singleton_Some.
  done.
Qed.

Lemma frr_accepts_healthy : healthy (VT := frr_accepts).
Proof. intros n cmds. by exists "". Qed.

Lemma sample_global_ok : global_ok (w_rec sample_world).
Proof. right. by exists (mkBGPGlobal 65000 "1.1.1.1"). Qed.

Lemma sample_world_reachable (VT : Vtysh) : reachable (VT := VT) sample_world.
Proof. apply (reach_new (VT := VT)). Qed.

Lemma reconcile_converges_witness :
  exists w', Reconcile (VT := frr_accepts) (MI := iter_forward) sample_store sample_world = Val ([], w')
             /\ in_sync (MI := iter_forward) sample_store (w_rec w').
Proof.
  exact (reconcile_converges frr_accepts frr_accepts iter_forward sample_store sample_world
           (sample_world_reachable _) frr_accepts_healthy sample_global_ok sample_store_ok).
Defined.

Lemma sample_first_cycle :
  exists w1, Reconcile (VT := frr_accepts) (MI := iter_forward) sample_store sample_world = Val ([], w1).
Proof.
  destruct (reachable_live _ (sample_world_reachable frr_accepts)) as [Hi [c Hc]].
  destruct (Reconcile_spec (VT := frr_accepts) (MI := iter_forward) sample_store _ c Hc Hi)
    as (es & w' & E & _ & _ & _ & Hok).
  rewrite (Hok frr_accepts_healthy sample_global_ok sample_store_ok) in E. by exists w'.
Qed.

Lemma reconcile_stable_witness :
  exists w1 w2, Reconcile (VT := frr_accepts) (MI := iter_forward) sample_store sample_world = Val ([], w1)
    /\ Reconcile (VT := frr_accepts) (MI := iter_backward) sample_store w1 = Val ([], w2)
    /\ monitor_only w1 w2.
Proof.
  destruct sample_first_cycle as [w1 E].
  destruct (reconcile_stable frr_accepts frr_accepts iter_forward iter_backward sample_ops sample_world w1
              (sample_world_reachable _) E sample_conflict_free) as (w2 & E2 & Hm).
  exact (ex_intro _ w1 (ex_intro _ w2 (conj E (conj E2 Hm)))).
Defined.

Lemma reconciler_returns_witness :
  exists w', run_rec_op (VT := frr_accepts) (RWithdrawAll iter_forward) sample_world = Val (tt, w').
Proof. exact (reconciler_returns frr_accepts sample_world (RWithdrawAll iter_forward) (sample_world_reachable _)). Defined.

Lemma withdraw_all_empties_witness :
  exists w1 es w', Reconcile (VT := frr_accepts) (MI := iter_forward) sample_store sample_world = Val ([], w1) /\
    WithdrawAll (VT := frr_accepts) (MI := iter_forward) w1 = Val (es, w') /\
    (es = [] -> all_empty (w_rec w')) /\ (healthy (VT := frr_accepts) -> es = []).
Proof.
  destruct sample_first_cycle as [w1 E].
  assert (reachable (VT := frr_accepts) w1) as Hr.
  { apply (reach_op (VT := frr_accepts) sample_world (RReconcile iter_forward sample_store));
      [apply sample_world_reachable|]. cbn [run_rec_op]. by rewrite (mbind_val _ _ _ _ _ E). }
  destruct (withdraw_all_empties frr_accepts frr_accepts iter_forward w1 Hr) as (es & w' & H).
  exact (ex_intro _ w1 (ex_intro _ es (ex_intro _ w' (conj E H)))).
Defined.

(** * A replaced client *)

Section Replaced.
Context {VT : Vtysh}.

(** BGP is marked as configured, but the client does not know the AS. *)
Definition stuck (r : Reconciler) : Prop :=
  bgpConfigured r = true /\ (exists c, frrClient r = Some c /\ localAS c = 0) /\
  appliedPeers r = ∅ /\ prefixes_inv r /\ bfd_inv r /\ ospf_inv r.

Lemma stuck_sync r0 c k d w :
  frrClient r0 = Some c -> localAS c = 0 ->
  peers_frame r0 (w_rec w) /\ appliedPeers (w_rec w) = ∅ ->
  wp (syncPeer k d) w (at_key appliedPeers
    (fun w => peers_frame r0 (w_rec w) /\ appliedPeers (w_rec w) = ∅) k w (fun _ => False) False).
Proof.
  intros Hc H0 [Hf He]. unfold syncPeer. apply wp_bind, wp_getr. rewrite He, lookup_empty. cbn [up_to_date].
  assert (frrClient (w_rec w) = Some c) as Hcw by (rewrite <- Hc; by apply core_client, Hf).
  apply wp_bind. eapply wp_mono; [by apply (applyPeer_spec d w c)|].
  intros e w1 (Hw1 & Ha & _). destruct e as [e|]; [|by destruct (Ha eq_refl)].
  pose proof (peers_frame_bfd_only _ _ _ Hf Hw1). destruct Hw1 as (_ & Hp & _).
  apply wp_ret, at_key_err; [|done|tauto]. split; [done|congruence].
Qed.

Lemma stuck_peers {MI : MapIter} l w c :
  frrClient (w_rec w) = Some c -> localAS c = 0 -> bfd_inv (w_rec w) -> appliedPeers (w_rec w) = ∅ ->
  wp (ReconcilePeers l) w (fun es w' =>
    peers_frame (w_rec w) (w_rec w') /\ appliedPeers (w_rec w') = ∅ /\ (l <> [] -> es <> [])).
Proof.
  intros Hc H0 Hb He. unfold ReconcilePeers. apply wp_bind. eapply wp_mono.
  { eapply (wp_range appliedPeers (fun w' => peers_frame (w_rec w) (w_rec w') /\ appliedPeers (w_rec w') = ∅)
      (fun _ _ _ => True) (fun _ _ _ => False) (fun _ _ => False));
      [intros; by eapply stuck_sync|apply NoDup_iter_keys| |done].
    split; [|done]. split_and!; try done. unfold peers_inv. rewrite He. apply map_Forall_empty. }
  intros e1 w1 ([Hf1 He1] & _ & Hg1 & _). apply wp_bind, wp_getr. rewrite He1, iter_empty.
  apply wp_bind, wp_ret, wp_ret. split; [done|]. split; [done|]. rewrite app_nil_r.
  intros Hl ->. destruct l as [|p l]; [done|].
  assert (is_Some (desiredPeers (p :: l) !! peerKey (p_NeighborAddress p))) as [d Hd].
  { apply build_dom. by left. }
  by apply (Hg1 eq_refl (peerKey (p_NeighborAddress p)) d), elem_of_iter.
Qed.

Lemma stuck_cycle {MI : MapIter} s w :
  stuck (w_rec w) -> GetPeerIntents s <> [] ->
  wp (Reconcile s) w (fun es w' => es <> [] /\ stuck (w_rec w')).
Proof.
  intros (Hcfg & (c & Hc & H0) & He & Hx & Hb & Ho) Hne.
  unfold Reconcile. apply wp_bind, wp_getr. rewrite Hc. apply wp_bind.
  apply (wp_mono _ _ (fun e w' => e = None /\ w' = w)).
  { unfold ensureBGPGlobal. apply wp_bind, wp_getr. unfold id. rewrite Hcfg. by apply wp_ret. }
  intros ? ? [-> ->]. apply wp_bind. eapply wp_mono; [by apply (stuck_peers _ w c)|].
  intros e1 w1 ((Hk1 & Ex1 & Eo1 & Hb1 & _) & He1 & Hl1). specialize (Hl1 Hne).
  apply wp_bind. eapply wp_mono.
  { apply (ReconcilePrefixes_spec (GetPrefixIntents s) w1 c).
    - rewrite <- Hc. by apply core_client. - unfold prefixes_inv. by rewrite Ex1. }
  intros e2 w2 ((Hk2 & Ep2 & Eb2 & _ & Eo2 & Hx2) & _ & _). apply wp_bind. eapply wp_mono.
  { apply (ReconcileBFD_spec (GetBFDIntents s) w2 c).
    - rewrite <- Hc. apply core_client. congruence. - unfold bfd_inv. by rewrite Eb2. }
  intros e3 w3 ((Hk3 & Ep3 & Ex3 & _ & Eo3 & Hb3) & _ & _). apply wp_bind. eapply wp_mono.
  { apply (ReconcileOSPF_spec (GetOSPFIntents s) w3 c).
    - rewrite <- Hc. apply core_client. congruence. - unfold ospf_inv. by rewrite Eo3, Eo2, Eo1. }
  intros e4 w4 ((Hk4 & Ep4 & Ex4 & Eb4 & _ & Ho4) & _ & _). apply wp_bind.
  eapply wp_mono; [apply monitorFRRState_quiet|].
  intros [] w5 (Hk5 & Ep5 & Ex5 & Eb5 & Eo5 & _). apply wp_ret.
  assert (core (w_rec w5) = core (w_rec w)) as Hk by congruence.
  split; [by intros [? ?]%app_eq_nil|]. unfold stuck, prefixes_inv, bfd_inv, ospf_inv.
  rewrite Ep5, Ep4, Ep3, Ep2, Ex5, Ex4, Ex3, Eb5, Eb4, Eo5. split_and!; try done.
  - rewrite <- Hcfg. unfold core in Hk. congruence.
  - exists c. split; [|done]. rewrite <- Hc. by apply core_client.
Qed.

(** A run of cycles, with what each returned. *)
Fixpoint cycles {MI : MapIter} (l : list Store) : M (list (list rec_error)) :=
  match l with
  | [] => mret []
  | s :: r => es ← Reconcile s; rest ← cycles r; mret (es :: rest)
  end.
End Replaced.

(** A replaced client never works.  Once BGP has been configured, replacing
    the client by a new one ([SetFRRClient], whose comment says that everything
    is then re-applied) leaves the flag that BGP is configured set, while the new
    client does not know the AS: in every later cycle in which some peer is
    wanted, whatever FRR answers, [Reconcile] reports an error and no peer is
    applied. *)
Theorem replaced_client_applies_no_peer (VT : Vtysh) (MI : MapIter) w l :
  bgpConfigured (w_rec w) = true -> Forall (fun s => GetPeerIntents s <> []) l ->
  exists ess w', (_ ← SetFRRClient (Some NewClient); cycles l) w = Val (ess, w') /\
    length ess = length l /\ Forall (fun es => es <> []) ess /\ appliedPeers (w_rec w') = ∅.
Proof.
  intros Hcfg Hl.
  assert (forall w, stuck (w_rec w) -> wp (cycles l) w (fun ess w' =>
    length ess = length l /\ Forall (fun es => es <> []) ess /\ appliedPeers (w_rec w') = ∅)) as H.
  { clear w Hcfg. induction Hl as [|s l Hs Hl IH]; intros w Hw; cbn [cycles].
    { apply wp_ret. by destruct Hw as (_ & _ & ? & _). }
    apply wp_bind. eapply wp_mono; [by apply stuck_cycle|]. intros es w1 [Hes Hw1].
    apply wp_bind. eapply wp_mono; [by apply IH|]. intros ess w2 (Hlen & Hall & He).
    apply wp_ret. split; [cbn; congruence|]. split; [by constructor|done]. }
  apply wp_bind, wp_upd, H. split_and!; cbn; try done; try apply map_Forall_empty. by exists NewClient.
Qed.

Definition configured_world : world :=
  mkWorld (set_bgpConfigured true (NewReconciler (Some (mkClient 65000)) (Some (mkBGPGlobal 65000 "1.1.1.1"))))
    (mkVty 1 []) [].

Lemma sample_has_peer : GetPeerIntents (MI := iter_forward) sample_store <> [].
Proof.
  assert (stampPeer "novanet" 1 1 sample_peer ∈ GetPeerIntents (MI := iter_forward) sample_store) as H.
  { rewrite sample_store_eq. apply elem_of_snapshot. eexists "novanet", _, _.
    by split; [apply lookup_insert_eq|apply lookup_insert_eq]. }
  intros E. rewrite E in H. by apply elem_of_nil in H.
Qed.

Lemma replaced_client_applies_no_peer_witness :
  exists ess w', (_ ← SetFRRClient (Some NewClient);
                  cycles (VT := frr_accepts) (MI := iter_forward) [sample_store; sample_store]) configured_world
                 = Val (ess, w') /\
    length ess = 2%nat /\ Forall (fun es => es <> []) ess /\ appliedPeers (w_rec w') = ∅.
Proof.
  apply (replaced_client_applies_no_peer frr_accepts iter_forward configured_world [sample_store; sample_store]).
  - reflexivity.
  - apply Forall_cons; split; [exact sample_has_peer|].
    apply Forall_cons; split; [exact sample_has_peer|]. apply Forall_nil; exact Logic.I.
Defined.

(** * A half-applied peer *)

(** An FRR that rejects the third batch it is sent. *)
Definition frr_rejects_third : Vtysh :=
  {| vtysh_config := fun n _ => if (n =? 2)%nat then Some "% Unknown command" else Some "";
     vtysh_show_bgp := fun _ => Some []; vtysh_show_bfd := fun _ => Some [];
     vtysh_show_ospf := fun _ => Some [] |}.

(** The store after the peer has been removed again. *)
Definition emptied_store : Store := (RemovePeerIntent sample_store "novanet" "10.0.0.1").2.

Definition orphan_log : list vty_run :=
  [mkRun (bgpGlobalCommands 65000 "1.1.1.1") true;
   mkRun ["router bgp 65000"; "neighbor 10.0.0.1 remote-as 65001"] true;
   mkRun ["router bgp 65000"; "address-family ipv4 unicast"; "neighbor 10.0.0.1 activate";
          "neighbor 10.0.0.1 soft-reconfiguration inbound"; "exit-address-family"] false].

Definition cycle_log (w : outcome (list rec_error * world)) : option (list rec_error * list vty_run) :=
  match w with Val (es, w') => Some (es, vty_log (w_vty w')) | _ => None end.

Lemma cycle_log_inv m es l :
  cycle_log m = Some (es, l) -> exists w, m = Val (es, w) /\ vty_log (w_vty w) = l.
Proof. destruct m as [[? w]| |]; try done. intros [= -> <-]. by exists w. Qed.

Lemma emptied_store_eq : emptied_store = {["novanet" := newOwnerIntents]}.
Proof. vm_compute. reflexivity. Qed.

Lemma emptied_store_run :
  emptied_store = run_ops NewStore (sample_ops ++ [(2, OpRemove "novanet" (PeerId "10.0.0.1"))]).
Proof. vm_compute. reflexivity. Qed.

Lemma orphan_run :
  cycle_log (Reconcile (VT := frr_rejects_third) (MI := iter_forward) sample_store sample_world)
    = Some ([RFrr ErrVtyshConfigError], orphan_log) /\
  cycle_log ((_ ← Reconcile (VT := frr_rejects_third) (MI := iter_forward) sample_store;
              Reconcile (VT := frr_rejects_third) (MI := iter_forward) emptied_store) sample_world)
    = Some ([], orphan_log).
Proof. split; vm_compute; reflexivity. Qed.

(** A peer whose set-up fails half-way can be left in FRR for ever.  FRR
    accepts the neighbour and rejects the activation of its address family; the
    intent is removed before the next cycle.  That cycle reports success, and
    neither it nor any later cycle, whatever FRR answers, sends FRR anything, so
    the accepted neighbour is never removed. *)
Theorem half_applied_peer_is_orphaned (VT : Vtysh) (MI : MapIter) :
  exists w1 w2,
    Reconcile (VT := frr_rejects_third) (MI := iter_forward) sample_store sample_world
      = Val ([RFrr ErrVtyshConfigError], w1) /\
    Reconcile (VT := frr_rejects_third) (MI := iter_forward) emptied_store w1 = Val ([], w2) /\
    vty_log (w_vty w2) = orphan_log /\
    exists w3, Reconcile (VT := VT) (MI := MI) emptied_store w2 = Val ([], w3) /\ monitor_only w2 w3.
Proof.
  destruct orphan_run as [(w1 & E1 & Hl1)%cycle_log_inv H2].
  rewrite (mbind_val _ _ _ _ _ E1) in H2. apply cycle_log_inv in H2 as (w2 & E2 & Hl2).
  exists w1, w2. split; [exact E1|]. split; [exact E2|]. split; [exact Hl2|].
  assert (live (w_rec w1)) as [Hi1 [c1 Hc1]].
  { destruct (reachable_live _ (sample_world_reachable frr_rejects_third)) as [Hi [c Hc]].
    destruct (Reconcile_spec (VT := frr_rejects_third) (MI := iter_forward) sample_store _ c Hc Hi)
      as (es & w' & E & Hi' & Hc' & _). rewrite E1 in E. injection E as <- <-. exact (conj Hi' Hc'). }
  destruct (Reconcile_spec (VT := frr_rejects_third) (MI := iter_forward) emptied_store w1 c1 Hc1 Hi1)
    as (es & w' & E & Hi2 & [c2 Hc2] & Hs & _). rewrite E2 in E. injection E as <- <-.
  destruct (Hs eq_refl) as [Hsync Hcfg]. apply (Reconcile_quiet emptied_store w2 c2 Hc2 Hcfg).
  apply (in_sync_order iter_forward MI); [rewrite emptied_store_run; apply run_ops_wf, store_wf_new| |exact Hsync].
  clear. intros o1 o2 oi1 oi2. rewrite emptied_store_eq.
  intros [<- _]%lookup_singleton_Some [<- _]%lookup_singleton_Some. done.
Qed.

(** * Two owners of one peer *)

Definition other_peer : PeerIntent :=
  mkPeer "" "10.0.0.1" 65002 PeerTypeExternal 0 0 false 0 0 0 "" [] "" 0 "" 0 0 0.

Definition contested_store : Store :=
  run_ops NewStore [(1, OpSet "a" (APeer sample_peer)); (2, OpSet "b" (APeer other_peer))].

Definition applied_as (w : outcome (list rec_error * world)) : option (list rec_error * list Z * nat) :=
  match w with
  | Val (es, w') => Some (es, p_RemoteAS <$> (map_to_list (appliedPeers (w_rec w'))).*2, length (vty_log (w_vty w')))
  | _ => None
  end.

(** Two owners that want the same peer differently make it flap.  With an FRR
    that accepts everything, three cycles on the same intents re-configure the
    neighbour each time the map of owners is walked in another order, and every
    cycle reports success. *)
Theorem contested_peer_flaps :
  let fwd := Reconcile (VT := frr_accepts) (MI := iter_forward) contested_store in
  let bwd := Reconcile (VT := frr_accepts) (MI := iter_backward) contested_store in
  exists x y, x <> y /\
    applied_as (fwd sample_world) = Some ([], [x], 3%nat) /\
    applied_as ((_ ← fwd; bwd) sample_world) = Some ([], [y], 8%nat) /\
    applied_as ((_ ← fwd; _ ← bwd; fwd) sample_world) = Some ([], [x], 11%nat).
Proof. cbn zeta. exists 65002, 65001. split; [done|]. split_and!; vm_compute; reflexivity. Qed.
