(* ===== verification/RoutingEvents.v ===== *)
(** The events the reconciler publishes: an up and a down event for a BGP
    neighbour exactly when it enters and leaves the Established state. *)

From Stdlib Require Import ZArith Lia Ascii String.
From stdpp Require Import base tactics list gmap strings fin_maps.
From S2P Require Import Prelude GoStrings GoMap GoNet GoUtf8 GoText Intent FrrClient Reconciler ReconcilerSync.

(** The kind of an event and the peer it is about. *)
Definition ev_peer (e : route_event) : string :=
  match ev_metadata e with (k, a) :: _ => if String.eqb k eventKeyPeer then a else "" | [] => "" end.
Definition ev_key (e : route_event) : Z * string := (ev_type e, ev_peer e).

Definition established (st : option string) : bool := bool_decide (st = Some bgpStateEstablished).

(** What a change of state calls for. *)
Definition transition (prev now : option string) (addr : string) : list (Z * string) :=
  match established prev, established now with
  | false, true => [(EventTypePeerUp, addr)]
  | true, false => [(EventTypePeerDown, addr)]
  | _, _ => []
  end.

Section Events.
Context {VT : Vtysh} {MI : MapIter}.

(** [m] appends events with keys [ks] and updates the last-seen states by [f]. *)
Definition emits (f : gmap string string -> gmap string string) (ks : list (Z * string)) (m : M unit) (w : world) : Prop :=
  exists evs, m w = Val (tt, mkWorld (set_lastBGPStates (f (lastBGPStates (w_rec w))) (w_rec w)) (w_vty w)
                               (w_events w ++ evs)) /\ ev_key <$> evs = ks.

Lemma String_dec a b : String.eqb a b = bool_decide (a = b).
Proof. destruct (String.eqb_spec a b); [by rewrite bool_decide_true|by rewrite bool_decide_false]. Qed.

Lemma seeBGP_emits s nbr w :
  emits (fun m => <[n_Address nbr := n_State nbr]> m)
        (transition (lastBGPStates (w_rec w) !! n_Address nbr) (Some (n_State nbr)) (n_Address nbr))
        (seeBGP s nbr) w.
Proof.
  unfold seeBGP, emits, transition, established.
  unfold mbind at 1, M_bind at 1, getr at 1.
  destruct (lastBGPStates (w_rec w) !! n_Address nbr) as [prev|].
  - rewrite !String_dec.
    destruct (decide (prev = n_State nbr)) as [->|Hne].
    + rewrite (bool_decide_true (n_State nbr = n_State nbr)) by done. eexists []. rewrite app_nil_r.
      split; [done|]. by case_bool_decide.
    + rewrite (bool_decide_false (prev = n_State nbr)) by done. cbn [negb].
      destruct (decide (n_State nbr = bgpStateEstablished)) as [E|E].
      * rewrite (bool_decide_true (n_State nbr = _)) by done. eexists [_]. split; [reflexivity|].
        rewrite (bool_decide_false (Some prev = _)) by congruence. by rewrite bool_decide_true by congruence.
      * rewrite (bool_decide_false (n_State nbr = _)) by done.
        rewrite (bool_decide_false (Some (n_State nbr) = _)) by congruence.
        destruct (decide (prev = bgpStateEstablished)) as [E'|E'].
        -- rewrite (bool_decide_true (prev = _)) by done. eexists [_]. split; [reflexivity|].
           by rewrite bool_decide_true by congruence.
        -- rewrite (bool_decide_false (prev = _)) by done. eexists []. rewrite app_nil_r. split; [reflexivity|].
           by rewrite bool_decide_false by congruence.
  - rewrite !String_dec, (bool_decide_false (None = _)) by done.
    destruct (decide (n_State nbr = bgpStateEstablished)) as [E|E].
    + rewrite (bool_decide_true (n_State nbr = _)) by done. eexists [_]. split; [reflexivity|].
      by rewrite bool_decide_true by congruence.
    + rewrite (bool_decide_false (n_State nbr = _)) by done. eexists []. rewrite app_nil_r. split; [reflexivity|].
      by rewrite bool_decide_false by congruence.
Qed.

Lemma goneBGP_emits s current a st w :
  emits (fun m => if bool_decide (a ∈ current) then m else delete a m)
        (if bool_decide (a ∈ current) then [] else transition (Some st) None a)
        (goneBGP s current (a, st)) w.
Proof.
  unfold goneBGP, emits, transition, established. case_bool_decide as Hin.
  { eexists []. rewrite app_nil_r. split; [by destruct w as [[] ? ?]|done]. }
  rewrite (bool_decide_false (None = _)), String_dec by done.
  destruct (decide (st = bgpStateEstablished)) as [E|E].
  - rewrite bool_decide_true by done. eexists [_]. split; [reflexivity|].
    by rewrite bool_decide_true by congruence.
  - rewrite bool_decide_false by done. eexists []. rewrite app_nil_r. split; [reflexivity|].
    by rewrite bool_decide_false by congruence.
Qed.

Lemma emits_bind f1 f2 ks1 ks2 (m1 m2 : M unit) w :
  emits f1 ks1 m1 w ->
  (forall w', w_rec w' = set_lastBGPStates (f1 (lastBGPStates (w_rec w))) (w_rec w) -> emits f2 ks2 m2 w') ->
  emits (fun m => f2 (f1 m)) (ks1 ++ ks2) (_ ← m1; m2) w.
Proof.
  intros (e1 & E1 & H1) H2. specialize (H2 (mkWorld (set_lastBGPStates (f1 (lastBGPStates (w_rec w))) (w_rec w))
    (w_vty w) (w_events w ++ e1)) eq_refl). destruct H2 as (e2 & E2 & H2).
  exists (e1 ++ e2). split; [|by rewrite fmap_app, H1, H2].
  unfold mbind, M_bind. rewrite E1, E2. cbn. by rewrite app_assoc.
Qed.

Lemma bind_ext {A B} (f g : A -> list B) l : (forall x, x ∈ l -> f x = g x) -> l ≫= f = l ≫= g.
Proof.
  induction l as [|x l IH]; intros H; [done|]. cbn [mbind list_bind].
  rewrite (H x) by by left. f_equal. apply IH. intros y Hy. apply H. by right.
Qed.

(** What the first loop leaves and emits. *)
Definition record_all (l : list BGPNeighborState) (m : gmap string string) : gmap string string :=
  foldl (fun m x => <[n_Address x := n_State x]> m) m l.
Definition see_keys (last : gmap string string) (l : list BGPNeighborState) : list (Z * string) :=
  l ≫= fun x => transition (last !! n_Address x) (Some (n_State x)) (n_Address x).

(** The neighbours are distinct, so each is compared with the state before the
    loop. *)
Lemma see_loop s l w :
  NoDup (n_Address <$> l) ->
  emits (record_all l) (see_keys (lastBGPStates (w_rec w)) l) (each l (seeBGP s)) w.
Proof.
  revert w. induction l as [|x l IH]; intros w Hnd.
  { exists []. rewrite app_nil_r. split; [by destruct w as [[] ? ?]|done]. }
  cbn in Hnd. apply NoDup_cons in Hnd as [Hx Hnd].
  apply (emits_bind (fun m => <[n_Address x := n_State x]> m) (record_all l) _
           (see_keys (lastBGPStates (w_rec w)) l) (seeBGP s x)); [apply seeBGP_emits|].
  intros w' Hw'. replace (see_keys (lastBGPStates (w_rec w)) l) with (see_keys (lastBGPStates (w_rec w')) l);
    [by apply IH|].
  apply bind_ext. intros y Hy. rewrite Hw'.
  cbn [lastBGPStates set_lastBGPStates]. rewrite lookup_insert_ne; [done|].
  intros E. apply Hx. rewrite E. by apply list_elem_of_fmap_2.
Qed.

(** What the second loop leaves and emits. *)
Definition drop_gone (current : list string) (l : list (string * string)) (m : gmap string string) :=
  foldl (fun m e => if bool_decide (e.1 ∈ current) then m else delete e.1 m) m l.
Definition gone_keys (current : list string) (l : list (string * string)) : list (Z * string) :=
  l ≫= fun e => if bool_decide (e.1 ∈ current) then [] else transition (Some e.2) None e.1.

Lemma gone_loop s current l w :
  emits (drop_gone current l) (gone_keys current l) (each l (goneBGP s current)) w.
Proof.
  revert w. induction l as [|[a st] l IH]; intros w.
  { exists []. rewrite app_nil_r. split; [by destruct w as [[] ? ?]|done]. }
  apply (emits_bind (fun m => if bool_decide (a ∈ current) then m else delete a m) (drop_gone current l)
           _ (gone_keys current l) (goneBGP s current (a, st))); [apply goneBGP_emits|]. intros w' _. apply IH.
Qed.

Lemma record_all_lookup l m a :
  NoDup (n_Address <$> l) ->
  record_all l m !! a = match list_find (fun x => n_Address x = a) l with
                        | Some (_, x) => Some (n_State x) | None => m !! a end.
Proof.
  revert m. induction l as [|x l IH]; intros m Hnd; [done|].
  cbn in Hnd. apply NoDup_cons in Hnd as [Hx Hnd]. unfold record_all. cbn [foldl].
  change (record_all l (<[n_Address x := n_State x]> m) !! a = match list_find (fun x => n_Address x = a) (x :: l)
    with Some (_, x) => Some (n_State x) | None => m !! a end).
  rewrite IH by done. cbn [list_find]. destruct (decide (n_Address x = a)) as [<-|Hne].
  - destruct (list_find _ l) as [[i y]|] eqn:E; [|by rewrite lookup_insert_eq].
    apply list_find_Some in E as (Hy & Hya & _). destruct Hx. rewrite <- Hya.
    apply list_elem_of_fmap_2. by eapply list_elem_of_lookup_2.
  - rewrite lookup_insert_ne by done. by destruct (list_find _ l) as [[i y]|].
Qed.

Lemma transition_peer p n a k : k ∈ transition p n a -> k.2 = a.
Proof.
  unfold transition. intros Hk. repeat case_match; try by apply elem_of_nil in Hk.
  all: by apply list_elem_of_singleton in Hk as ->.
Qed.

Lemma filter_all {A} (P : A -> Prop) `{!forall x, Decision (P x)} l : Forall P l -> filter P l = l.
Proof. induction 1; [done|]. rewrite filter_cons_True by done. congruence. Qed.
Lemma filter_none {A} (P : A -> Prop) `{!forall x, Decision (P x)} l : Forall (fun x => ~ P x) l -> filter P l = [].
Proof. induction 1; [done|]. by rewrite filter_cons_False. Qed.

(** The keys about one peer, when every element emits keys about itself. *)
Lemma filter_bind {A} (key : A -> string) (f : A -> list (Z * string)) l a :
  NoDup (key <$> l) -> (forall x k, k ∈ f x -> k.2 = key x) ->
  filter (fun k => k.2 = a) (l ≫= f) =
  match list_find (fun x => key x = a) l with Some (_, x) => f x | None => [] end.
Proof.
  intros Hnd Hf. induction l as [|x l IH]; [done|].
  cbn in Hnd. apply NoDup_cons in Hnd as [Hx Hnd]. specialize (IH Hnd).
  change ((x :: l) ≫= f) with (f x ++ (l ≫= f)). rewrite filter_app, IH. cbn [list_find].
  destruct (decide (key x = a)) as [<-|Hne].
  - destruct (list_find _ l) as [[i y]|] eqn:E.
    { apply list_find_Some in E as (Hy & Hya & _). destruct Hx. rewrite <- Hya.
      apply list_elem_of_fmap_2. by eapply list_elem_of_lookup_2. }
    rewrite app_nil_r. apply filter_all. apply Forall_forall. eauto.
  - replace (filter (fun k => k.2 = a) (f x)) with (@nil (Z * string)).
    { by destruct (list_find _ l) as [[i y]|]. }
    symmetry. apply filter_none. apply Forall_forall. intros k Hk%Hf. congruence.
Qed.

Lemma iter_find (m : gmap string string) a :
  match list_find (fun e => e.1 = a) (iter m) with
  | Some (_, e) => e.1 = a /\ m !! a = Some e.2
  | None => m !! a = None
  end.
Proof.
  destruct (list_find _ _) as [[i [k v]]|] eqn:E.
  - apply list_find_Some in E as (Hi & <- & _). split; [done|].
    apply elem_of_iter. by eapply list_elem_of_lookup_2.
  - apply list_find_None in E. destruct (m !! a) as [v|] eqn:Ea; [|done].
    rewrite Forall_forall in E. by destruct (E (a, v)); [apply elem_of_iter|].
Qed.

(** The state of a neighbour in FRR's report. *)
Definition reported (l : list BGPNeighborState) (a : string) : option string :=
  match list_find (fun x => n_Address x = a) l with Some (_, x) => Some (n_State x) | None => None end.

Lemma reported_None l a : reported l a = None <-> a ∉ n_Address <$> l.
Proof.
  unfold reported. destruct (list_find _ l) as [[i x]|] eqn:E.
  - split; [done|]. apply list_find_Some in E as (Hi & <- & _). intros H. destruct H.
    apply list_elem_of_fmap_2. by eapply list_elem_of_lookup_2.
  - split; [|done]. intros _ (x & -> & Hx)%list_elem_of_fmap. apply list_find_None in E.
    rewrite Forall_forall in E. by apply (E x).
Qed.

Lemma keys_exact last l a :
  NoDup (n_Address <$> l) ->
  filter (fun k => k.2 = a) (see_keys last l ++ gone_keys (n_Address <$> l) (iter (record_all l last)))
  = transition (last !! a) (reported l a) a.
Proof.
  intros Hnd. rewrite filter_app. unfold see_keys, gone_keys.
  rewrite (filter_bind n_Address); [|done|intros x k; apply transition_peer].
  rewrite (filter_bind fst); [|apply NoDup_iter_keys|].
  2: { intros [b st] k. cbn. case_bool_decide; [by intros ?%elem_of_nil|apply transition_peer]. }
  pose proof (iter_find (record_all l last) a) as Hf. rewrite record_all_lookup in Hf by done.
  unfold reported. destruct (list_find (fun x => n_Address x = a) l) as [[i x]|] eqn:E.
  - apply list_find_Some in E as (Hi & <- & _).
    destruct (list_find _ (iter _)) as [[j [b st]]|]; [|by rewrite app_nil_r]. destruct Hf as [Hb _]. cbn in *.
    rewrite bool_decide_true; [by rewrite app_nil_r|]. subst b.
    apply list_elem_of_fmap_2. by eapply list_elem_of_lookup_2.
  - assert (a ∉ n_Address <$> l) as Hn by (apply reported_None; unfold reported; by rewrite E).
    destruct (list_find _ (iter _)) as [[j [b st]]|]; [|by rewrite Hf]. destruct Hf as [Hb Hl]. cbn in *.
    subst b. rewrite bool_decide_false by done. by rewrite Hl.
Qed.

Lemma drop_gone_lookup current l m a :
  drop_gone current l m !! a = if decide (a ∈ l.*1 /\ a ∉ current) then None else m !! a.
Proof.
  revert m. induction l as [|[b st] l IH]; intros m; [done|].
  unfold drop_gone. cbn [foldl fst].
  change (drop_gone current l (if bool_decide (b ∈ current) then m else delete b m) !! a =
    if decide (a ∈ b :: l.*1 /\ a ∉ current) then None else m !! a). rewrite IH.
  destruct (decide (a ∈ l.*1 /\ a ∉ current)) as [H|H]; destruct (decide (a ∈ b :: l.*1 /\ a ∉ current)) as [H'|H']; [done| | |].
  - destruct H'. split; [right|]; tauto.
  - destruct H' as [[->|]%elem_of_cons Hn]; [|tauto]. rewrite bool_decide_false by done. apply lookup_delete_eq.
  - case_bool_decide; [done|]. destruct (decide (a = b)) as [->|]; [|by rewrite lookup_delete_ne].
    destruct H'. split; [by left|done].
Qed.

(** The BGP events are the changes of the Established state.  Given FRR's
    report of its neighbours, [monitorBGPNeighbors] publishes about each address
    exactly one up event if the neighbour is Established now and was not, exactly
    one down event if it was and is not any more (also when it has disappeared
    from the report), and nothing otherwise; and it remembers exactly the states
    of the report. *)
Theorem bgp_events_exact s w c raw :
  frrClient (w_rec w) = Some c -> vtysh_show_bgp (vty_runs (w_vty w)) = Some raw -> NoDup raw.*1 ->
  exists evs w', monitorBGPNeighbors s w = Val (tt, w') /\ w_events w' = w_events w ++ evs /\
    forall a, filter (fun k => k.2 = a) (ev_key <$> evs)
              = transition (lastBGPStates (w_rec w) !! a) (reported (parseBGPNeighbors raw) a) a /\
            lastBGPStates (w_rec w') !! a = reported (parseBGPNeighbors raw) a.
Proof.
  intros Hc Hs Hnd. set (l := parseBGPNeighbors raw).
  assert (NoDup (n_Address <$> l)) as Hl.
  { subst l. unfold parseBGPNeighbors. rewrite <- list_fmap_compose.
    replace (n_Address ∘ _ <$> raw) with raw.*1; [done|]. apply list_fmap_ext. by intros ? []. }
  unfold monitorBGPNeighbors, frr. unfold mbind at 1, M_bind at 1. rewrite Hc.
  unfold GetBGPNeighbors, runShow, mbind at 1, V_bind, mret at 1, V_ret. rewrite Hs. cbn [fmap option_fmap option_map].
  fold l. set (w0 := mkWorld _ _ _). destruct (see_loop s l w0 Hl) as (e1 & E1 & K1).
  rewrite (mbind_val _ _ _ _ _ E1). set (w1 := mkWorld _ _ _) in E1 |- *.
  destruct (gone_loop s (n_Address <$> l) (iter (lastBGPStates (w_rec w1))) w1) as (e2 & E2 & K2).
  unfold mbind, M_bind, getr. rewrite E2. eexists (e1 ++ e2), _. split; [reflexivity|].
  split; [cbn; by rewrite app_assoc|]. intros a. split.
  - rewrite fmap_app, K1, K2. by apply keys_exact.
  - cbn. rewrite drop_gone_lookup. destruct (reported l a) as [st|] eqn:Er.
    + rewrite decide_False by (intros [_ Hn%reported_None]; congruence).
      rewrite record_all_lookup by done. unfold reported in Er.
      by destruct (list_find _ l) as [[]|].
    + apply reported_None in Er. destruct (decide _) as [|Hd]; [done|].
      destruct (record_all l (lastBGPStates (w_rec w)) !! a) as [st|] eqn:E; [|done].
      destruct Hd. split; [|done]. apply list_elem_of_fmap. exists (a, st). by rewrite elem_of_iter.
Qed.
End Events.

Definition frr_one_neighbor : Vtysh :=
  {| vtysh_config := fun _ _ => Some "";
     vtysh_show_bgp := fun _ => Some [("10.0.0.1", mkBgpJSON 65001 "Established" "00:01:00" 4 5 [])];
     vtysh_show_bfd := fun _ => Some []; vtysh_show_ospf := fun _ => Some [] |}.

Definition watching : world :=
  mkWorld (set_eventPublisher true (set_lastBGPStates {["10.0.0.2" := "Established"]}
             (NewReconciler (Some (mkClient 65000)) None))) (mkVty 0 []) [].

Lemma bgp_events_exact_witness :
  exists evs w', monitorBGPNeighbors (VT := frr_one_neighbor) (MI := iter_forward) NewStore watching = Val (tt, w') /\
    w_events w' = [] ++ evs /\
    forall a, filter (fun k => k.2 = a) (ev_key <$> evs)
      = transition (({["10.0.0.2" := "Established"]} : gmap string string) !! a)
          (reported [mkBGPNeighbor "10.0.0.1" 65001 "Established" "00:01:00" 4 5 0 0] a) a /\
      lastBGPStates (w_rec w') !! a
      = reported [mkBGPNeighbor "10.0.0.1" 65001 "Established" "00:01:00" 4 5 0 0] a.
Proof.
  apply (bgp_events_exact (VT := frr_one_neighbor) (MI := iter_forward) NewStore watching (mkClient 65000)
           [("10.0.0.1", mkBgpJSON 65001 "Established" "00:01:00" 4 5 [])]).
  - reflexivity.
  - reflexivity.
  - apply NoDup_singleton.
Defined.
