(* ===== verification/RoutingManager.v ===== *)
(** The routing manager (internal/routing/manager.go), the reconciler's loop and
    the event stream of the agent (internal/agent/routing_rpcs.go): the operations
    that file intents and ask for a cycle, the cycle the loop then runs, and the
    publication of events to subscriber channels.

    A channel is its buffer and whether it is closed; closing a closed channel and
    sending on a closed one panic.  A received trigger and a tick of the timer
    both run one cycle. *)

From Stdlib Require Import ZArith Lia Ascii String.
From stdpp Require Import base tactics list gmap strings fin_maps.
From S2P Require Import Prelude GoStrings GoMap GoNet GoUtf8 GoText Intent FrrClient.
From S2P Require Import Reconciler ReconcilerSync ReconcilerProps.

Record RouteEvent := mkRouteEvent {
  re_EventType : string;
  re_Owner : string;
  re_Detail : string;
  re_Metadata : list (string * string) }.

Definition eventTypeNames : gmap Z string := list_to_map
  [(EventTypePeerUp, "peer_up"); (EventTypePeerDown, "peer_down");
   (EventTypePrefixAdvertised, "prefix_advertised"); (EventTypePrefixWithdrawn, "prefix_withdrawn");
   (EventTypeBFDUp, "bfd_up"); (EventTypeBFDDown, "bfd_down");
   (EventTypeOSPFNeighborUp, "ospf_neighbor_up"); (EventTypeOSPFNeighborDown, "ospf_neighbor_down");
   (EventTypeFRRConnected, "frr_connected"); (EventTypeFRRDisconnected, "frr_disconnected");
   (EventTypeOwnerRegistered, "owner_registered"); (EventTypeOwnerDeregistered, "owner_deregistered");
   (EventTypePolicyViolation, "policy_violation"); (EventTypeBGPConfigChanged, "bgp_config_changed")].

(** A buffered channel of events. *)
Record chan := mkChan { ch_buf : list RouteEvent; ch_closed : bool }.
Definition chan_cap : Z := 256.

(** [Manager]: its store, the reconciler's world, the owner it files intents
    for, the channels made so far and those that are subscribed. *)
Record Manager := mkManager {
  store : Store;
  rec : world;
  owner : string;
  chans : gmap nat chan;
  subscribers : gset nat }.

Definition set_store s m := mkManager s (rec m) (owner m) (chans m) (subscribers m).
Definition set_rec w m := mkManager (store m) w (owner m) (chans m) (subscribers m).
Definition set_chans c m := mkManager (store m) (rec m) (owner m) c (subscribers m).
Definition set_subscribers s m := mkManager (store m) (rec m) (owner m) (chans m) s.

Definition NewManager (o : string) : Manager :=
  mkManager NewStore
    (mkWorld (set_eventPublisher true (NewReconciler (Some NewClient) None)) (mkVty 0 []) [])
    o ∅ ∅.

(** [m.rec.TriggerReconcile()] and other updates of the reconciler. *)
Definition on_rec (f : Reconciler -> Reconciler) (m : Manager) : Manager :=
  set_rec (mkWorld (f (w_rec (rec m))) (w_vty (rec m)) (w_events (rec m))) m.
Definition trigger (m : Manager) : Manager := on_rec (set_triggerCh true) m.

(** * Filing intents *)

Definition ConfigureBGP (localAS : Z) (routerID : string) (m : Manager) : Manager :=
  trigger (on_rec (fun r => set_bgpConfigured false (set_bgpGlobal (Some (mkBGPGlobal localAS routerID)) r)) m).

Record BFDOptions := mkBFDOptions {
  Enabled : bool; MinRxMs : Z; MinTxMs : Z; DetectMultiplier : Z }.

(** File an intent and, if the store took it, ask for a cycle. *)
Definition file (m : Manager) (r : result intent_error unit * Store) : result intent_error unit * Manager :=
  match r with
  | (Err e, s) => (Err e, set_store s m)
  | (Ok _, s) => (Ok tt, trigger (set_store s m))
  end.

(** The removals that treat a missing intent as done. *)
Definition file_lenient (m : Manager) (r : result intent_error unit * Store) : result intent_error unit * Manager :=
  match r with
  | (Err _, s) => (Ok tt, set_store s m)
  | (Ok _, s) => (Ok tt, trigger (set_store s m))
  end.

Definition ApplyPeer (now : Z) (neighborAddr : string) (remoteAS : Z) (bfd : option BFDOptions) (m : Manager) :=
  let base := mkPeer (owner m) neighborAddr remoteAS PeerTypeExternal 0 0 in
  let tail p := p "" [AddressFamilyIPv4Unicast] "" 0 "" 0 0 0 in
  let peer :=
    match bfd with
    | Some b => if Enabled b then tail (base true (MinRxMs b) (MinTxMs b) (DetectMultiplier b))
                else tail (base false 0 0 0)
    | None => tail (base false 0 0 0)
    end in
  file m (SetPeerIntent now (store m) (owner m) (Some peer)).

Definition AdvertisePrefix (now : Z) (prefix : string) (m : Manager) :=
  file m (SetPrefixIntent now (store m) (owner m)
            (Some (mkPrefix (owner m) prefix ProtocolBGP 0 [] 0 "" 0 0))).

Definition WithdrawPrefix (prefix : string) (m : Manager) :=
  file_lenient m (RemovePrefixIntent (store m) (owner m) prefix "bgp").

Definition RemovePeer (neighborAddr : string) (m : Manager) :=
  file m (RemovePeerIntent (store m) (owner m) neighborAddr).

Definition EnableBFD (now : Z) (peerAddr : string) (minRxMs minTxMs detectMult : Z) (iface : string) (m : Manager) :=
  file m (SetBFDIntent now (store m) (owner m)
            (Some (mkBFD (owner m) peerAddr minRxMs minTxMs detectMult iface 0 0))).

Definition DisableBFD (peerAddr : string) (m : Manager) :=
  file_lenient m (RemoveBFDIntent (store m) (owner m) peerAddr).

Definition EnableOSPF (now : Z) (ifaceName areaID : string) (passive : bool) (cost hello dead : Z) (ipv6 : bool)
    (m : Manager) :=
  file m (SetOSPFIntent now (store m) (owner m)
            (Some (mkOSPF (owner m) ifaceName areaID passive cost hello dead ipv6 0 0))).

Definition DisableOSPF (ifaceName : string) (m : Manager) :=
  file_lenient m (RemoveOSPFIntent (store m) (owner m) ifaceName).

(** * Events *)

Definition event_name (t : Z) : string :=
  match eventTypeNames !! t with Some n => n | None => "unknown_" +:+ fmt_d t end.

(** A non-blocking send. *)
Definition try_send (c : chan) (e : RouteEvent) : outcome chan :=
  if ch_closed c then Panic
  else if go_len (ch_buf c) <? chan_cap then Val (mkChan (ch_buf c ++ [e]) false)
  else Val c.

Fixpoint send_all (l : list nat) (e : RouteEvent) (cs : gmap nat chan) : outcome (gmap nat chan) :=
  match l with
  | [] => Val cs
  | i :: r =>
      match cs !! i with
      | None => send_all r e cs
      | Some c => c' ← try_send c e; send_all r e (<[i := c']> cs)
      end
  end.

Definition PublishRouteEvent (ev : route_event) (m : Manager) : outcome Manager :=
  let e := mkRouteEvent (event_name (ev_type ev)) (ev_owner ev) (ev_detail ev) (ev_metadata ev) in
  cs ← send_all (elements (subscribers m)) e (chans m);
  mret (set_chans cs m).

(** [make] returns a channel that was not there before. *)
Definition SubscribeEvents (m : Manager) : nat * Manager :=
  let ch := fresh (dom (chans m)) in
  (ch, set_subscribers ({[ch]} ∪ subscribers m) (set_chans (<[ch := mkChan [] false]> (chans m)) m)).

Definition close (ch : nat) (m : Manager) : outcome Manager :=
  match chans m !! ch with
  | Some c => if ch_closed c then Panic else Val (set_chans (<[ch := mkChan (ch_buf c) true]> (chans m)) m)
  | None => Panic
  end.

Definition UnsubscribeEvents (ch : nat) (m : Manager) : outcome Manager :=
  close ch (set_subscribers (subscribers m ∖ {[ch]}) m).

(** The part of [Shutdown] that concerns the subscribers. *)
Fixpoint close_all (l : list nat) (m : Manager) : outcome Manager :=
  match l with
  | [] => Val m
  | ch :: r => m' ← close ch m; close_all r (set_subscribers (subscribers m' ∖ {[ch]}) m')
  end.
Definition Shutdown (m : Manager) : outcome Manager := close_all (elements (subscribers m)) m.

(** The agent's part: the context of the loop is cancelled before, so that no
    cycle runs between the withdrawal and the end. *)
Definition ShutdownRouting (podCIDR : string) (m : Manager) : outcome Manager :=
  Shutdown (WithdrawPrefix podCIDR m).2.

(** The receive of the stream handler: an event, the end of the stream, or
    nothing yet. *)
Inductive received := Got (e : RouteEvent) | Ended | Blocked.
Definition receive (ch : nat) (m : Manager) : received * Manager :=
  match chans m !! ch with
  | Some c =>
      match ch_buf c with
      | e :: r => (Got e, set_chans (<[ch := mkChan r (ch_closed c)]> (chans m)) m)
      | [] => (if ch_closed c then Ended else Blocked, m)
      end
  | None => (Blocked, m)
  end.

(** The filters of [StreamRoutingEvents]. *)
Definition stream_sends (ownerFilter : string) (eventTypes : list string) (e : RouteEvent) : bool :=
  negb (negb (String.eqb ownerFilter "") && negb (String.eqb (re_Owner e) ownerFilter))
  && negb ((0 <? go_len eventTypes) && negb (bool_decide (re_EventType e ∈ eventTypes))).

(** One turn of the loop of [StreamRoutingEvents]: what is sent, and whether the
    handler goes on; when it returns, the deferred [UnsubscribeEvents] runs. *)
Definition stream_turn (ch : nat) (ownerFilter : string) (eventTypes : list string) (m : Manager)
    : outcome (option RouteEvent * bool * Manager) :=
  match receive ch m with
  | (Ended, m') => m'' ← UnsubscribeEvents ch m'; mret (None, false, m'')
  | (Got e, m') => mret (if stream_sends ownerFilter eventTypes e then Some e else None, true, m')
  | (Blocked, m') => mret (None, true, m')
  end.

(** The handler, for a number of turns. *)
Fixpoint stream_loop (turns : nat) (ch : nat) (ownerFilter : string) (eventTypes : list string) (m : Manager)
    : outcome Manager :=
  match turns with
  | O => Val m
  | S n =>
      r ← stream_turn ch ownerFilter eventTypes m;
      let '(_, go, m') := r in
      if go : bool then stream_loop n ch ownerFilter eventTypes m' else Val m'
  end.

(** * The loop *)

Fixpoint publish_all (l : list route_event) (m : Manager) : outcome Manager :=
  match l with
  | [] => Val m
  | e :: r => m' ← PublishRouteEvent e m; publish_all r m'
  end.

(** A turn of [RunLoop]: on a trigger, which is taken out of its channel, or on a
    tick, the reconciler runs a cycle on the store; its events go to the
    subscribers. *)
Definition run_cycle {VT : Vtysh} {MI : MapIter} (triggered : bool) (m : Manager)
    : outcome (list rec_error * Manager) :=
  let w := rec m in
  let r0 := if triggered then set_triggerCh false (w_rec w) else w_rec w in
  r ← Reconcile (store m) (mkWorld r0 (w_vty w) []);
  let '(es, w') := r in
  m' ← publish_all (w_events w') (set_rec (mkWorld (w_rec w') (w_vty w') []) m);
  mret (es, m').

(** * Runs of the manager *)

(** Every subscribed channel is open. *)
Definition subs_inv (m : Manager) : Prop :=
  forall ch, ch ∈ subscribers m -> exists c, chans m !! ch = Some c /\ ch_closed c = false.

Definition mgr_inv (m : Manager) : Prop := live (w_rec (rec m)) /\ subs_inv m.

(** The calls that file or withdraw intents. *)
Inductive file_op : Type :=
| FApplyPeer (addr : string) (as_ : Z) (bfd : option BFDOptions)
| FAdvertisePrefix (prefix : string)
| FWithdrawPrefix (prefix : string)
| FRemovePeer (addr : string)
| FEnableBFD (addr : string) (rx tx mult : Z) (iface : string)
| FDisableBFD (addr : string)
| FEnableOSPF (iface area : string) (passive : bool) (cost hello dead : Z) (ipv6 : bool)
| FDisableOSPF (iface : string).

Definition run_file_op (now : Z) (op : file_op) (m : Manager) : result intent_error unit * Manager :=
  match op with
  | FApplyPeer a s b => ApplyPeer now a s b m
  | FAdvertisePrefix p => AdvertisePrefix now p m
  | FWithdrawPrefix p => WithdrawPrefix p m
  | FRemovePeer a => RemovePeer a m
  | FEnableBFD a r t d i => EnableBFD now a r t d i m
  | FDisableBFD a => DisableBFD a m
  | FEnableOSPF i a p c h d v => EnableOSPF now i a p c h d v m
  | FDisableOSPF i => DisableOSPF i m
  end.

Inductive mgr_step {VT : Vtysh} : Manager -> Manager -> Prop :=
| step_file now op m : mgr_step m (run_file_op now op m).2
| step_configure a r m : mgr_step m (ConfigureBGP a r m)
| step_subscribe m : mgr_step m (SubscribeEvents m).2
| step_unsubscribe ch m m' : ch ∈ subscribers m -> UnsubscribeEvents ch m = Val m' -> mgr_step m m'
| step_receive ch m : mgr_step m (receive ch m).2
| step_cycle MI t es m m' : run_cycle (MI := MI) t m = Val (es, m') -> mgr_step m m'
| step_shutdown m m' : Shutdown m = Val m' -> mgr_step m m'.

Inductive mgr_reachable {VT : Vtysh} : Manager -> Prop :=
| mgr_new o : mgr_reachable (NewManager o)
| mgr_next m m' : mgr_reachable m -> mgr_step m m' -> mgr_reachable m'.

(** ** Channels *)

Lemma send_all_spec l e cs :
  NoDup l -> (forall i, i ∈ l -> exists c, cs !! i = Some c /\ ch_closed c = false) ->
  exists cs', send_all l e cs = Val cs' /\
    forall i, cs' !! i = if decide (i ∈ l)
      then (fun c => if go_len (ch_buf c) <? chan_cap then mkChan (ch_buf c ++ [e]) false else c) <$> cs !! i
      else cs !! i.
Proof.
  revert cs. induction l as [|i l IH]; intros cs Hnd Hl; [by exists cs|].
  apply NoDup_cons in Hnd as [Hi Hnd]. cbn [send_all].
  destruct (Hl i ltac:(by left)) as (c & Hc & Ho). rewrite Hc. unfold try_send. rewrite Ho.
  set (c' := if go_len (ch_buf c) <? chan_cap then mkChan (ch_buf c ++ [e]) false else c).
  replace (if go_len (ch_buf c) <? chan_cap then Val (mkChan (ch_buf c ++ [e]) false) else Val c)
    with (Val c') by (subst c'; by case_match). unfold mbind, outcome_bind.
  destruct (IH (<[i := c']> cs) Hnd) as (cs' & E & Hcs').
  { intros j Hj. destruct (Hl j ltac:(by right)) as (d & Hd & Hdo).
    rewrite lookup_insert_ne by (intros ->; done). by exists d. }
  exists cs'. split; [done|]. intros j. rewrite Hcs'.
  destruct (decide (j = i)) as [->|Hne].
  - rewrite decide_False, decide_True, lookup_insert_eq, Hc by (done || by left). done.
  - rewrite lookup_insert_ne by done. destruct (decide (j ∈ l)).
    + by rewrite decide_True by by right.
    + rewrite decide_False; [done|]. by intros [?|?]%elem_of_cons.
Qed.

Lemma publish_spec ev m :
  subs_inv m ->
  exists cs, PublishRouteEvent ev m = Val (set_chans cs m) /\
    forall i, cs !! i = if decide (i ∈ subscribers m)
      then (fun c => if go_len (ch_buf c) <? chan_cap
                     then mkChan (ch_buf c ++ [mkRouteEvent (event_name (ev_type ev)) (ev_owner ev)
                                                 (ev_detail ev) (ev_metadata ev)]) false else c) <$> chans m !! i
      else chans m !! i.
Proof.
  intros Hs. unfold PublishRouteEvent.
  destruct (send_all_spec (elements (subscribers m))
    (mkRouteEvent (event_name (ev_type ev)) (ev_owner ev) (ev_detail ev) (ev_metadata ev)) (chans m))
    as (cs & E & Hcs).
  - apply NoDup_elements.
  - intros i Hi%elem_of_elements. by apply Hs.
  - exists cs. rewrite E. split; [done|]. intros i. rewrite Hcs.
    destruct (decide (i ∈ subscribers m)).
    + by rewrite decide_True by by apply elem_of_elements.
    + by rewrite decide_False by by rewrite elem_of_elements.
Qed.

Lemma publish_inv ev m :
  subs_inv m -> exists cs, PublishRouteEvent ev m = Val (set_chans cs m) /\ subs_inv (set_chans cs m).
Proof.
  intros Hs. destruct (publish_spec ev m Hs) as (cs & E & Hcs). exists cs. split; [done|].
  intros i Hi. cbn in *. destruct (Hs i Hi) as (c & Hc & Ho). rewrite Hcs, decide_True, Hc by done. cbn.
  eexists. split; [reflexivity|]. by case_match.
Qed.

Lemma publish_all_inv l m :
  subs_inv m -> exists cs, publish_all l m = Val (set_chans cs m) /\ subs_inv (set_chans cs m).
Proof.
  revert m. induction l as [|e l IH]; intros m Hs; cbn [publish_all].
  { exists (chans m). by destruct m. }
  destruct (publish_inv e m Hs) as (cs & -> & Hs1). unfold mbind, outcome_bind.
  destruct (IH _ Hs1) as (cs' & -> & Hs2). by exists cs'.
Qed.

Lemma close_spec ch m c :
  chans m !! ch = Some c -> ch_closed c = false ->
  close ch m = Val (set_chans (<[ch := mkChan (ch_buf c) true]> (chans m)) m).
Proof. intros Hc Ho. unfold close. by rewrite Hc, Ho. Qed.

Lemma close_all_spec l m :
  NoDup l -> (forall ch, ch ∈ l -> exists c, chans m !! ch = Some c /\ ch_closed c = false) ->
  exists m', close_all l m = Val m' /\ rec m' = rec m /\ store m' = store m /\
    (forall ch, ch ∈ subscribers m' <-> ch ∈ subscribers m /\ ch ∉ l) /\
    (forall ch, ch ∉ l -> chans m' !! ch = chans m !! ch) /\
    (forall ch, ch ∈ l -> exists c, chans m !! ch = Some c /\ chans m' !! ch = Some (mkChan (ch_buf c) true)).
Proof.
  revert m. induction l as [|ch l IH]; intros m Hnd Hl; cbn [close_all].
  { exists m. split_and!; try done. - intros ch. set_solver. - intros ch H. by apply elem_of_nil in H. }
  apply NoDup_cons in Hnd as [Hch Hnd]. destruct (Hl ch ltac:(by left)) as (c & Hc & Ho).
  rewrite (close_spec ch m c Hc Ho). unfold mbind, outcome_bind.
  destruct (IH (set_subscribers (subscribers m ∖ {[ch]}) (set_chans (<[ch := mkChan (ch_buf c) true]> (chans m)) m)) Hnd)
    as (m' & E & Hr & Hst & Hsub & Hout & Hin).
  { intros j Hj. cbn. rewrite lookup_insert_ne by (intros ->; done). apply Hl. by right. }
  exists m'. split; [done|]. split; [done|]. split; [done|]. cbn in *. split_and!.
  - intros j. rewrite Hsub, elem_of_difference, elem_of_singleton, not_elem_of_cons. tauto.
  - intros j [Hne Hj]%not_elem_of_cons. rewrite Hout by done. by rewrite lookup_insert_ne.
  - intros j [->|Hj]%elem_of_cons.
    + exists c. rewrite Hout by done. by rewrite lookup_insert_eq.
    + destruct (Hin j Hj) as (d & Hd & Hd'). rewrite lookup_insert_ne in Hd by (intros ->; done). by exists d.
Qed.

(** ** The invariant *)

Lemma live_trigger b r : live r -> live (set_triggerCh b r).
Proof. done. Qed.

Lemma file_inv m r : mgr_inv m -> mgr_inv (file m r).2.
Proof. by destruct r as [[] s]. Qed.

Lemma file_lenient_inv m r : mgr_inv m -> mgr_inv (file_lenient m r).2.
Proof. by destruct r as [[] s]. Qed.

Lemma subscribe_inv m : mgr_inv m -> mgr_inv (SubscribeEvents m).2.
Proof.
  intros [Hl Hs]. split; [done|]. intros ch. cbn. rewrite elem_of_union, elem_of_singleton.
  intros [->|Hch]; [by rewrite lookup_insert_eq; eauto|].
  destruct (Hs ch Hch) as (c & Hc & Ho). rewrite lookup_insert_ne; [by eauto|].
  intros E. apply (is_fresh (dom (chans m))). rewrite E. by eapply elem_of_dom_2.
Qed.

Lemma receive_inv ch m : mgr_inv m -> mgr_inv (receive ch m).2.
Proof.
  intros [Hl Hs]. unfold receive. destruct (chans m !! ch) as [c|] eqn:E; [|done].
  destruct (ch_buf c); [done|]. split; [done|]. intros i Hi. cbn in *.
  destruct (Hs i Hi) as (d & Hd & Ho). destruct (decide (i = ch)) as [->|].
  - rewrite lookup_insert_eq. rewrite E in Hd. injection Hd as ->. by eauto.
  - rewrite lookup_insert_ne by done. by eauto.
Qed.

Lemma run_cycle_spec {VT : Vtysh} {MI : MapIter} t m :
  mgr_inv m ->
  exists es m', run_cycle t m = Val (es, m') /\ mgr_inv m' /\ store m' = store m /\ owner m' = owner m /\
    (es = [] -> in_sync (store m) (w_rec (rec m'))) /\
    (healthy -> global_ok (w_rec (rec m)) -> store_ok (store m) -> es = []).
Proof.
  intros [[Hi [c Hc]] Hs]. unfold run_cycle.
  set (r0 := if t then _ else _). set (w0 := mkWorld r0 _ _).
  assert (rec_inv r0 /\ frrClient r0 = Some c /\ (global_ok (w_rec (rec m)) -> global_ok r0)) as (Hi0 & Hc0 & Hg0)
    by (subst r0; by destruct t).
  destruct (Reconcile_spec (store m) w0 c Hc0 Hi0) as (es & w' & E & Hi' & Hc' & Hsync & Hok).
  unfold mbind at 1, outcome_bind at 1. rewrite E.
  destruct (publish_all_inv (w_events w') (set_rec (mkWorld (w_rec w') (w_vty w') []) m) Hs) as (cs & E2 & Hs2).
  rewrite E2. unfold mbind, outcome_bind. eexists es, _. split; [reflexivity|]. cbn.
  split_and!; try done; [intros He; by apply Hsync|auto].
Qed.

Lemma unsubscribe_inv ch m :
  mgr_inv m -> ch ∈ subscribers m -> exists m', UnsubscribeEvents ch m = Val m' /\ mgr_inv m'.
Proof.
  intros [Hl Hs] Hch. destruct (Hs ch Hch) as (c & Hc & Ho). unfold UnsubscribeEvents.
  rewrite (close_spec ch _ c) by done. eexists. split; [reflexivity|]. split; [done|].
  intros i. cbn. rewrite elem_of_difference, elem_of_singleton. intros [Hi Hne].
  rewrite lookup_insert_ne by done. by apply Hs.
Qed.

Lemma shutdown_inv m :
  mgr_inv m -> exists m', Shutdown m = Val m' /\ mgr_inv m' /\
    forall ch, ch ∈ subscribers m -> exists c, chans m' !! ch = Some c /\ ch_closed c = true.
Proof.
  intros [Hl Hs]. unfold Shutdown.
  destruct (close_all_spec (elements (subscribers m)) m (NoDup_elements _)) as (m' & E & Hr & _ & Hsub & Hout & Hin).
  { intros ch Hch%elem_of_elements. by apply Hs. }
  exists m'. split; [done|]. split; [split; [by rewrite Hr|]|].
  - intros ch [H1 H2]%Hsub. by rewrite elem_of_elements in H2.
  - intros ch Hch. destruct (Hin ch) as (c & _ & Hc); [by apply elem_of_elements|]. by eexists.
Qed.

Lemma mgr_reachable_inv {VT : Vtysh} m : mgr_reachable m -> mgr_inv m.
Proof.
  induction 1 as [o|m m' _ IH Hst].
  { split; [apply live_new|]. intros ch H. cbn in H. set_solver. }
  destruct Hst as [now op m|a r m|m|ch m m' Hch E|ch m|MI t es m m' E|m m' E].
  - destruct op; cbn; unfold ApplyPeer, AdvertisePrefix, WithdrawPrefix, RemovePeer, EnableBFD, DisableBFD,
      EnableOSPF, DisableOSPF; first [by apply file_inv | by apply file_lenient_inv].
  - destruct IH as [[(? & ? & ? & ? & ?) ?] ?]. split; [|done]. split; [|done]. by split_and!.
  - by apply subscribe_inv.
  - destruct (unsubscribe_inv ch m IH Hch) as (m'' & E' & Hm). congruence.
  - by apply receive_inv.
  - destruct (run_cycle_spec (MI := MI) t m IH) as (es' & m'' & E' & Hm & _). congruence.
  - destruct (shutdown_inv m IH) as (m'' & E' & Hm & _). congruence.
Qed.

(** ** The store of the manager *)

(** The store operation behind a call. *)
Definition op_of (op : file_op) (m : Manager) : store_op :=
  match op with
  | FApplyPeer a r b =>
      let '(on, rx, tx, mult) :=
        match b with
        | Some b => if Enabled b then (true, MinRxMs b, MinTxMs b, DetectMultiplier b) else (false, 0, 0, 0)
        | None => (false, 0, 0, 0)
        end in
      OpSet (owner m) (APeer (mkPeer (owner m) a r PeerTypeExternal 0 0 on rx tx mult
                                "" [AddressFamilyIPv4Unicast] "" 0 "" 0 0 0))
  | FAdvertisePrefix p => OpSet (owner m) (APrefix (mkPrefix (owner m) p ProtocolBGP 0 [] 0 "" 0 0))
  | FWithdrawPrefix p => OpRemove (owner m) (PrefixId NameBGP p)
  | FRemovePeer a => OpRemove (owner m) (PeerId a)
  | FEnableBFD a rx tx mult i => OpSet (owner m) (ABFD (mkBFD (owner m) a rx tx mult i 0 0))
  | FDisableBFD a => OpRemove (owner m) (BFDId a)
  | FEnableOSPF i a p c h d v => OpSet (owner m) (AOSPF (mkOSPF (owner m) i a p c h d v 0 0))
  | FDisableOSPF i => OpRemove (owner m) (OSPFId i)
  end.

Lemma file_store m r : store (file m r).2 = r.2 /\ owner (file m r).2 = owner m.
Proof. by destruct r as [[] s]. Qed.

Lemma file_lenient_store m r : store (file_lenient m r).2 = r.2 /\ owner (file_lenient m r).2 = owner m.
Proof. by destruct r as [[] s]. Qed.

Lemma run_file_op_store now op m :
  store (run_file_op now op m).2 = (apply_op now (store m) (op_of op m)).2 /\
  owner (run_file_op now op m).2 = owner m.
Proof.
  destruct op as [a r [[[] ? ? ?]|]| | | | | | |]; cbn [run_file_op op_of apply_op Enabled];
    unfold ApplyPeer, AdvertisePrefix, WithdrawPrefix, RemovePeer, EnableBFD, DisableBFD, EnableOSPF, DisableOSPF;
    match goal with
    | |- context [file m ?r] => destruct (file_store m r)
    | |- context [file_lenient m ?r] => destruct (file_lenient_store m r)
    end; by split.
Qed.

Definition store_op_owner (op : store_op) : string :=
  match op with OpSet o _ | OpRemove o _ | OpRemoveAll o => o end.

Lemma apply_op_other now s op o :
  o <> store_op_owner op -> (apply_op now s op).2 !! o = s !! o.
Proof.
  intros Hne. destruct op as [ow i|ow i|ow]; cbn in *.
  - destruct (decide (ow <> "" /\ valid_intent i)) as [[Ho Hv]|Hn].
    + rewrite SetIntent_eq by done. by apply lookup_insert_ne.
    + by destruct (SetIntent_refused now s ow i Hn) as [e ->].
  - destruct (decide (ow <> "" /\ id_nonempty i /\ is_Some (lookup_intent s ow i))) as [(Ho & Hi & j & Hj)|Hn].
    + rewrite RemoveIntentById_eq, Hj by done. by apply lookup_insert_ne.
    + by destruct (RemoveIntentById_refused s ow i Hn) as [e ->].
  - unfold RemoveAllByOwner. destruct (s !! ow); [|done]. by apply lookup_delete_ne.
Qed.

(** The manager files under its own name only. *)
Definition own_store (m : Manager) : Prop :=
  store_wf (store m) /\ forall o, is_Some (store m !! o) -> o = owner m.

Lemma run_file_op_own now op m : own_store m -> own_store (run_file_op now op m).2.
Proof.
  intros [Hwf Hown]. destruct (run_file_op_store now op m) as [Hs Ho]. split.
  - rewrite Hs. by apply apply_op_wf.
  - intros o. rewrite Hs, Ho. destruct (decide (o = owner m)) as [|Hne]; [done|].
    rewrite apply_op_other; [apply Hown|]. by destruct op as [a r [[[] ? ? ?]|]| | | | | | |].
Qed.

Lemma receive_store ch m : store (receive ch m).2 = store m /\ owner (receive ch m).2 = owner m.
Proof. unfold receive. by repeat case_match. Qed.

Lemma close_store ch m m' : close ch m = Val m' -> store m' = store m /\ owner m' = owner m.
Proof. unfold close. repeat case_match; intros; by simplify_eq. Qed.

Lemma close_all_store l m m' : close_all l m = Val m' -> store m' = store m /\ owner m' = owner m.
Proof.
  revert m. induction l as [|ch l IH]; intros m; cbn [close_all]; [by intros [= ->]|].
  unfold mbind, outcome_bind. destruct (close ch m) as [m1| |] eqn:E; try done.
  intros H. apply IH in H as [H1 H2]. cbn in H1, H2. destruct (close_store ch m m1 E). split; congruence.
Qed.

Lemma mgr_reachable_own {VT : Vtysh} m : mgr_reachable m -> own_store m.
Proof.
  induction 1 as [o|m m' Hr IH Hst].
  { split; [apply store_wf_new|]. intros o' [x Hx]. cbn in Hx. unfold NewStore in Hx. by rewrite lookup_empty in Hx. }
  assert (forall m'', store m'' = store m /\ owner m'' = owner m -> own_store m'') as Hsame.
  { intros m'' [E1 E2]. unfold own_store. by rewrite E1, E2. }
  destruct Hst as [now op m|a r m|m|ch m m' Hch E|ch m|MI t es m m' E|m m' E].
  - by apply run_file_op_own.
  - by apply Hsame.
  - by apply Hsame.
  - apply Hsame. by apply (close_store ch) in E.
  - apply Hsame, receive_store.
  - destruct (run_cycle_spec (MI := MI) t m (mgr_reachable_inv m Hr)) as (es' & m'' & E' & _ & H1 & H2 & _).
    rewrite E in E'. injection E' as <- <-. by apply Hsame.
  - apply Hsame. by apply close_all_store in E.
Qed.

(** * Theorems *)

(** Publishing an event neither blocks nor panics, and reaches every
    subscriber that has room.  In every state the manager can reach,
    [PublishRouteEvent] appends the event to the channel of each subscriber whose
    buffer is not full and changes no other channel. *)
Theorem event_reaches_subscribers {VT : Vtysh} m ev :
  mgr_reachable m ->
  exists m', PublishRouteEvent ev m = Val m' /\ subscribers m' = subscribers m /\
    forall ch c, chans m !! ch = Some c ->
      chans m' !! ch = Some (if bool_decide (ch ∈ subscribers m) && (go_len (ch_buf c) <? chan_cap)
                             then mkChan (ch_buf c ++ [mkRouteEvent (event_name (ev_type ev)) (ev_owner ev)
                                                         (ev_detail ev) (ev_metadata ev)]) false
                             else c).
Proof.
  intros [_ Hs]%mgr_reachable_inv. destruct (publish_spec ev m Hs) as (cs & E & Hcs).
  eexists. split; [exact E|]. split; [done|]. intros ch c Hc. cbn. rewrite Hcs.
  destruct (decide (ch ∈ subscribers m)) as [Hin|Hin].
  - rewrite bool_decide_true, Hc by done. cbn. by case_match.
  - by rewrite bool_decide_false.
Qed.

Lemma stream_drains ch ownerFilter eventTypes buf m :
  chans m !! ch = Some (mkChan buf true) ->
  stream_loop (S (length buf)) ch ownerFilter eventTypes m = Panic.
Proof.
  revert m. induction buf as [|e buf IH]; intros m Hc; cbn [stream_loop length];
    unfold stream_turn, receive; rewrite Hc; cbn [ch_buf ch_closed].
  - unfold UnsubscribeEvents, close. cbn. by rewrite Hc.
  - unfold mbind, outcome_bind, mret, outcome_ret. apply IH. cbn. by rewrite lookup_insert_eq.
Qed.

(** A client that is streaming events when the agent shuts down makes the
    stream handler panic.  [Shutdown] closes every subscribed channel; the
    handler, once it has read what is left, sees the end of its stream and its
    deferred [UnsubscribeEvents] closes the channel a second time. *)
Theorem stream_panics_after_shutdown {VT : Vtysh} m ch ownerFilter eventTypes :
  mgr_reachable m -> ch ∈ subscribers m ->
  exists m1 turns, Shutdown m = Val m1 /\ stream_loop turns ch ownerFilter eventTypes m1 = Panic.
Proof.
  intros Hm%mgr_reachable_inv Hch. destruct (shutdown_inv m Hm) as (m1 & E & _ & Hcl).
  destruct (Hcl ch Hch) as ([buf cl] & Hc & Ho). cbn in Ho. subst cl.
  exists m1, (S (length buf)). split; [done|]. by apply stream_drains.
Qed.

(** ** From the API to FRR *)

Lemma store_ok_advertise now m prefix :
  owner m <> "" -> prefix <> "" -> sanitizeVTYParam prefix = None -> store_ok (store m) ->
  exists m1, AdvertisePrefix now prefix m = (Ok tt, m1) /\ rec m1 = rec (trigger m) /\
    chans m1 = chans m /\ subscribers m1 = subscribers m /\ owner m1 = owner m /\ store_ok (store m1) /\
    exists d, lookup_intent (store m1) (owner m) (PrefixId NameBGP prefix) = Some (APrefix d).
Proof.
  intros Ho Hp Hsan Hok. set (d := mkPrefix (owner m) prefix ProtocolBGP 0 [] 0 "" 0 0).
  unfold AdvertisePrefix. fold d.
  change (SetPrefixIntent now (store m) (owner m) (Some d)) with (SetIntent now (store m) (owner m) (APrefix d)).
  pose proof (SetIntent_spec now (store m) (owner m) (APrefix d) Ho Hp (owner m) (PrefixId NameBGP prefix)) as Hl.
  rewrite (SetIntent_eq now (store m) (owner m) (APrefix d) Ho Hp) in Hl |- *. cbn [file].
  eexists. split; [reflexivity|]. split_and!; try done.
  - intros o oi. cbn. intros [[<- <-]|[_ H]]%lookup_insert_Some; [|by eapply Hok].
    assert (map_Forall (fun _ p => peer_ok p) (Peers (ensureOwner (store m) (owner m))) /\
      map_Forall (fun _ p => prefix_ok p) (Prefixes (ensureOwner (store m) (owner m))) /\
      map_Forall (fun _ b => bfd_ok b) (BFD (ensureOwner (store m) (owner m))) /\
      map_Forall (fun _ o => ospf_ok o) (OSPF (ensureOwner (store m) (owner m)))) as (H1 & H2 & H3 & H4).
    { unfold ensureOwner. destruct (store m !! owner m) eqn:E; [by apply (Hok (owner m))|].
      split_and!; apply map_Forall_empty. }
    split; [exact H1|]. split; [|by split].
    apply map_Forall_insert_2; [|exact H2]. by left.
  - eexists. etransitivity; [exact Hl|]. cbn [spec_op]. rewrite decide_True by done. reflexivity.
Qed.

Lemma recPrefixKey_inj_bgp p prefix :
  recPrefixKey (x_Protocol p) (x_Prefix p) = recPrefixKey ProtocolBGP prefix ->
  x_Protocol p = ProtocolBGP /\ x_Prefix p = prefix.
Proof.
  unfold recPrefixKey. intros H%str_app_inj_l. apply (sep_app_inj ":") in H as [H1 H2].
  - split; [|done]. unfold protocolString in H1. repeat case_match; to_prop; done.
  - unfold protocolString. by repeat case_match.
  - done.
Qed.

Lemma desired_prefix_advertised {MI : MapIter} (s : Store) o prefix d :
  store_wf s -> lookup_intent s o (PrefixId NameBGP prefix) = Some (APrefix d) ->
  exists d', desiredPrefixes (GetPrefixIntents s) !! recPrefixKey ProtocolBGP prefix = Some d' /\
    x_Protocol d' = ProtocolBGP /\ x_Prefix d' = prefix.
Proof.
  intros Hwf Hl. unfold lookup_intent in Hl. destruct (s !! o) as [oi|] eqn:Ho; [|done].
  cbn in Hl. destruct (Prefixes oi !! _) as [x|] eqn:Hx; [|done].
  destruct (Hwf o oi Ho) as (_ & H2 & _ & _). destruct (H2 _ x Hx) as [Hk _].
  assert (is_Some (desiredPrefixes (GetPrefixIntents s) !! recPrefixKey ProtocolBGP prefix)) as [d' Hd'].
  { apply build_dom, list_elem_of_fmap. exists x. split.
    - rewrite <- recPrefixKey_eq, <- Hk. done.
    - apply elem_of_snapshot. by eexists o, oi, _. }
  exists d'. split; [done|]. apply build_Some in Hd' as [_ Hd']. symmetry in Hd'.
  by apply recPrefixKey_inj_bgp.
Qed.

(** C24: An advertised prefix reaches FRR in one cycle.  In every reachable state of a
    manager with an owner in which the BGP process is configured or its AS number and
    router id are set ([global_ok]), and every stored intent is one the client accepts
    ([store_ok]), for a prefix the client accepts, [AdvertisePrefix] succeeds, and the
    cycle it triggers, with an FRR that accepts what it is sent, ends without error and
    with the prefix applied as a BGP advertisement.  A manager that was never given the
    BGP settings is excluded: its cycle answers ErrBGPGlobalNotSet. *)
Theorem advertised_prefix_is_applied {VT0 VT : Vtysh} {MI : MapIter} now prefix m :
  mgr_reachable (VT := VT0) m -> store_ok (store m) ->
  owner m <> "" -> prefix <> "" -> sanitizeVTYParam prefix = None ->
  healthy (VT := VT) -> global_ok (w_rec (rec m)) ->
  exists m1 m2 a, AdvertisePrefix now prefix m = (Ok tt, m1) /\
    run_cycle (VT := VT) true m1 = Val ([], m2) /\
    appliedPrefixes (w_rec (rec m2)) !! recPrefixKey ProtocolBGP prefix = Some a /\
    x_Prefix a = prefix /\ x_Protocol a = ProtocolBGP.
Proof.
  intros Hr Hok Ho Hp Hsan Hh Hg. destruct (mgr_reachable_inv m Hr) as [Hl Hs].
  destruct (mgr_reachable_own m Hr) as [Hwf _].
  destruct (store_ok_advertise now m prefix Ho Hp Hsan Hok)
    as (m1 & E1 & Hr1 & Hc1 & Hs1 & Ho1 & Hok1 & d & Hd).
  assert (mgr_inv m1) as Hm1.
  { split; [by rewrite Hr1|]. intros ch. unfold subs_inv in Hs. rewrite Hs1, Hc1. apply Hs. }
  assert (store_wf (store m1)) as Hwf1.
  { pose proof (apply_op_wf now (store m) (OpSet (owner m) (APrefix (mkPrefix (owner m) prefix ProtocolBGP 0 [] 0 "" 0 0))) Hwf) as H.
    unfold AdvertisePrefix in E1. cbn [apply_op SetIntent] in H.
    destruct (SetPrefixIntent _ _ _ _) as [[] s]; [|done]. injection E1 as <-. done. }
  destruct (run_cycle_spec (VT := VT) true m1 Hm1) as (es & m2 & E2 & _ & _ & _ & Hsync & Hes).
  assert (es = []) as -> by (apply Hes; [done|by rewrite Hr1|done]).
  destruct (Hsync eq_refl) as (_ & Hpx & _).
  destruct (desired_prefix_advertised (store m1) (owner m) prefix d Hwf1 Hd) as (d' & Hd' & Hproto & Hpre).
  specialize (Hpx (recPrefixKey ProtocolBGP prefix)). rewrite Hd' in Hpx.
  destruct (appliedPrefixes _ !! _) as [a|] eqn:Ea; [|done]. cbn in Hpx.
  exists m1, m2, a. split; [done|]. split; [done|]. split; [done|].
  unfold prefixEqual in Hpx. to_prop. destruct_and?. split; congruence.
Qed.

Lemma store_ok_delete s o i :
  store_ok s -> store_ok (RemoveIntentById s o i).2.
Proof.
  intros Hok. destruct (decide (o <> "" /\ id_nonempty i /\ is_Some (lookup_intent s o i)))
    as [(Ho & Hi & j & Hj)|Hn]; [|by destruct (RemoveIntentById_refused s o i Hn) as [e ->]].
  rewrite RemoveIntentById_eq, Hj by done. intros o' oi. cbn [snd].
  intros [[<- <-]|[_ H]]%lookup_insert_Some; [|by eapply Hok].
  unfold lookup_intent in Hj. destruct (s !! o) as [oi|] eqn:E; [|done].
  replace (ensureOwner s o) with oi by (unfold ensureOwner; by rewrite E).
  destruct (Hok o oi E) as (H1 & H2 & H3 & H4).
  destruct i; cbn; (split; [|split; [|split]]); try assumption; by apply map_Forall_delete.
Qed.

Lemma withdrawn_not_desired {MI : MapIter} m prefix :
  own_store m -> owner m <> "" -> prefix <> "" ->
  let s := (RemoveIntentById (store m) (owner m) (PrefixId NameBGP prefix)).2 in
  desiredPrefixes (GetPrefixIntents s) !! recPrefixKey ProtocolBGP prefix = None.
Proof.
  intros [Hwf Hown] Ho Hp s. destruct (_ !! _) as [d|] eqn:Hd; [|done].
  apply build_Some in Hd as [(o & oi & k & Hoi & Hk)%elem_of_snapshot Hkey].
  pose proof (apply_op_wf 0 (store m) (OpRemove (owner m) (PrefixId NameBGP prefix)) Hwf) as Hwf'.
  fold s in Hwf'. destruct (Hwf' o oi Hoi) as (_ & H2 & _). destruct (H2 k d Hk) as [-> _].
  rewrite recPrefixKey_eq, <- Hkey in Hk.
  assert (o = owner m) as ->.
  { destruct (decide (o = owner m)) as [|Hne]; [done|]. apply Hown.
    rewrite <- (apply_op_other 0 _ (OpRemove (owner m) (PrefixId NameBGP prefix)) o Hne). by eexists. }
  assert (lookup_intent s (owner m) (PrefixId NameBGP prefix) = Some (APrefix d)) as Hs.
  { unfold lookup_intent. rewrite Hoi. cbn. change (prefixKey "bgp" prefix) with (recPrefixKey ProtocolBGP prefix).
    by rewrite Hk. }
  destruct (lookup_intent (store m) (owner m) (PrefixId NameBGP prefix)) as [j|] eqn:Hj.
  - subst s. rewrite (RemoveIntentById_spec 0) in Hs by done. cbn in Hs. by rewrite decide_True in Hs.
  - subst s. rewrite RemoveIntentById_eq, Hj in Hs by done. cbn in Hs. congruence.
Qed.

(** A withdrawn prefix leaves FRR in one cycle.  In every reachable state
    [WithdrawPrefix] succeeds, and the next cycle that ends without error, as it
    does with an FRR that accepts what it is sent, leaves no BGP advertisement of
    the prefix applied. *)
Theorem withdrawn_prefix_is_removed {VT0 VT : Vtysh} {MI : MapIter} prefix t m :
  mgr_reachable (VT := VT0) m -> owner m <> "" -> prefix <> "" ->
  exists m1 es m2, WithdrawPrefix prefix m = (Ok tt, m1) /\ run_cycle (VT := VT) t m1 = Val (es, m2) /\
    (es = [] -> appliedPrefixes (w_rec (rec m2)) !! recPrefixKey ProtocolBGP prefix = None) /\
    (healthy (VT := VT) -> global_ok (w_rec (rec m)) -> store_ok (store m) -> es = []).
Proof.
  intros Hr Ho Hp. pose proof (mgr_reachable_own m Hr) as Hown.
  pose proof (withdrawn_not_desired m prefix Hown Ho Hp) as Hd. cbn zeta in Hd.
  pose proof (store_ok_delete (store m) (owner m) (PrefixId NameBGP prefix)) as Hso.
  pose proof (file_lenient_inv m (RemoveIntentById (store m) (owner m) (PrefixId NameBGP prefix))
                (mgr_reachable_inv m Hr)) as Hi.
  unfold WithdrawPrefix. change (RemovePrefixIntent (store m) (owner m) prefix "bgp")
    with (RemoveIntentById (store m) (owner m) (PrefixId NameBGP prefix)).
  destruct (RemoveIntentById _ _ _) as [r s]. cbn [snd] in *.
  assert (exists m1, file_lenient m (r, s) = (Ok tt, m1) /\ store m1 = s /\
    (global_ok (w_rec (rec m)) -> global_ok (w_rec (rec m1)))) as (m1 & E1 & Hs1 & Hg1).
  { destruct r; cbn; (eexists; split; [reflexivity|]; split; [reflexivity|exact (fun H => H)]). }
  rewrite E1 in *. cbn [snd] in Hi.
  destruct (run_cycle_spec (VT := VT) t m1 Hi) as (es & m2 & E2 & _ & _ & _ & Hsync & Hes).
  exists m1, es, m2. split; [done|]. split; [done|]. rewrite Hs1 in *. split.
  - intros He. destruct (Hsync He) as (_ & Hpx & _). specialize (Hpx (recPrefixKey ProtocolBGP prefix)).
    rewrite Hd in Hpx. destruct Hpx as [Hpx|Hpx]; [exact Hpx|set_solver].
  - intros Hh Hg Hk. apply Hes; auto.
Qed.

(** The withdrawal of the pod network at shutdown never reaches FRR.  From
    every reachable state [ShutdownRouting] returns without having run vtysh and
    with the prefix still among the applied ones: [WithdrawPrefix] only files the
    withdrawal, and the loop that would carry it out has been stopped. *)
Theorem shutdown_leaves_prefix_advertised {VT : Vtysh} m podCIDR :
  mgr_reachable m ->
  exists m', ShutdownRouting podCIDR m = Val m' /\ w_vty (rec m') = w_vty (rec m) /\
    appliedPrefixes (w_rec (rec m')) = appliedPrefixes (w_rec (rec m)) /\
    subscribers m' = ∅.
Proof.
  intros Hm%mgr_reachable_inv. unfold ShutdownRouting, WithdrawPrefix, Shutdown.
  set (m1 := (file_lenient _ _).2).
  assert (w_vty (rec m1) = w_vty (rec m) /\ appliedPrefixes (w_rec (rec m1)) = appliedPrefixes (w_rec (rec m)))
    as [Hv Ha] by (subst m1; by destruct (RemovePrefixIntent _ _ _ _) as [[] ?]).
  assert (mgr_inv m1) as [_ Hs] by (by apply file_lenient_inv).
  destruct (close_all_spec (elements (subscribers m1)) m1 (NoDup_elements _)) as (m' & E & Hr & _ & Hsub & _).
  { intros ch Hch%elem_of_elements. by apply Hs. }
  exists m'. rewrite E, Hr. split_and!; try done. apply set_eq. intros ch. rewrite Hsub, elem_of_elements. set_solver.
Qed.

(** * Examples *)

Definition sample_manager : Manager := ConfigureBGP 65001 "10.0.0.1" (NewManager "novanet").
Definition sample_listener : Manager := (SubscribeEvents sample_manager).2.
Definition sample_advertiser : Manager := (AdvertisePrefix 7 "10.244.1.0/24" sample_manager).2.

Lemma sample_manager_reachable (VT : Vtysh) : mgr_reachable (VT := VT) sample_manager.
Proof. eapply mgr_next; [apply mgr_new|apply step_configure]. Qed.
Lemma sample_listener_reachable (VT : Vtysh) : mgr_reachable (VT := VT) sample_listener.
Proof. eapply mgr_next; [apply sample_manager_reachable|apply step_subscribe]. Qed.
Lemma sample_advertiser_reachable (VT : Vtysh) : mgr_reachable (VT := VT) sample_advertiser.
Proof.
  eapply mgr_next; [apply sample_manager_reachable|apply (step_file 7 (FAdvertisePrefix "10.244.1.0/24"))].
Qed.
Lemma sample_manager_store_ok : store_ok (store sample_manager).
Proof. intros o oi H. cbn in H. unfold NewStore in H. by rewrite lookup_empty in H. Qed.
Lemma sample_manager_global_ok : global_ok (w_rec (rec sample_manager)).
Proof. right. eexists. by split_and!. Qed.

Lemma sample_advertised {es m2} :
  run_cycle (VT := frr_accepts) (MI := iter_forward) true sample_advertiser = Val (es, m2) ->
  es = [] /\ is_Some (appliedPrefixes (w_rec (rec m2)) !! recPrefixKey ProtocolBGP "10.244.1.0/24").
Proof.
  assert (match run_cycle (VT := frr_accepts) (MI := iter_forward) true sample_advertiser with
          | Val (es, m) => bool_decide (es = []) &&
              bool_decide (is_Some (appliedPrefixes (w_rec (rec m)) !! recPrefixKey ProtocolBGP "10.244.1.0/24"))
          | _ => false end = true) as H by (vm_compute; reflexivity).
  intros E. rewrite E in H. apply andb_prop in H as [H1 H2].
  split; [by apply bool_decide_eq_true in H1|by apply bool_decide_eq_true in H2].
Qed.

Lemma event_reaches_subscribers_witness :
  exists m', PublishRouteEvent (mkEvent EventTypePeerUp "novanet" "neighbor 10.0.0.2" []) sample_listener = Val m' /\
    ch_buf <$> chans m' !! 0%nat = Some [mkRouteEvent "peer_up" "novanet" "neighbor 10.0.0.2" []].
Proof.
  destruct (event_reaches_subscribers (VT := frr_accepts) sample_listener
    (mkEvent EventTypePeerUp "novanet" "neighbor 10.0.0.2" []) (sample_listener_reachable _)) as (m' & E & _ & H).
  exists m'. split; [exact E|]. rewrite (H 0%nat (mkChan [] false) eq_refl). vm_compute. reflexivity.
Defined.

Lemma stream_panics_after_shutdown_witness :
  exists m1 turns, Shutdown sample_listener = Val m1 /\ stream_loop turns 0%nat "" [] m1 = Panic.
Proof.
  apply (stream_panics_after_shutdown (VT := frr_accepts) sample_listener 0%nat "" []
    (sample_listener_reachable _)). by vm_compute.
Defined.

Lemma advertised_prefix_is_applied_witness :
  exists m1 m2 a, AdvertisePrefix 7 "10.244.1.0/24" sample_manager = (Ok tt, m1) /\
    run_cycle (VT := frr_accepts) (MI := iter_forward) true m1 = Val ([], m2) /\
    appliedPrefixes (w_rec (rec m2)) !! recPrefixKey ProtocolBGP "10.244.1.0/24" = Some a /\
    x_Prefix a = "10.244.1.0/24" /\ x_Protocol a = ProtocolBGP.
Proof.
  exact (advertised_prefix_is_applied (VT0 := frr_accepts) (VT := frr_accepts) (MI := iter_forward)
    7 "10.244.1.0/24" sample_manager (sample_manager_reachable _) sample_manager_store_ok
    ltac:(done) ltac:(done) ltac:(vm_compute; reflexivity) frr_accepts_healthy sample_manager_global_ok).
Defined.

Lemma withdrawn_prefix_is_removed_witness :
  exists m1 es m2, WithdrawPrefix "10.244.1.0/24" sample_advertiser = (Ok tt, m1) /\
    run_cycle (VT := frr_accepts) (MI := iter_forward) true m1 = Val (es, m2).
Proof.
  destruct (withdrawn_prefix_is_removed (VT0 := frr_accepts) (VT := frr_accepts) (MI := iter_forward)
    "10.244.1.0/24" true sample_advertiser (sample_advertiser_reachable _) ltac:(done) ltac:(done))
    as (m1 & es & m2 & H1 & H2 & _).
  exists m1, es, m2. exact (conj H1 H2).
Defined.

Lemma shutdown_leaves_prefix_advertised_witness :
  exists m1 m2 m3, AdvertisePrefix 7 "10.244.1.0/24" sample_manager = (Ok tt, m1) /\
    run_cycle (VT := frr_accepts) (MI := iter_forward) true m1 = Val ([], m2) /\
    ShutdownRouting "10.244.1.0/24" m2 = Val m3 /\
    is_Some (appliedPrefixes (w_rec (rec m3)) !! recPrefixKey ProtocolBGP "10.244.1.0/24").
Proof.
  destruct (run_cycle_spec (VT := frr_accepts) (MI := iter_forward) true sample_advertiser
    (mgr_reachable_inv _ (sample_advertiser_reachable frr_accepts))) as (es & m2 & E & _).
  destruct (shutdown_leaves_prefix_advertised (VT := frr_accepts) m2 "10.244.1.0/24"
    (mgr_next _ _ (sample_advertiser_reachable _) (step_cycle _ _ _ _ _ E))) as (m3 & E3 & _ & Ha & _).
  exists sample_advertiser, m2, m3. destruct (sample_advertised E) as [-> Hp].
  split; [reflexivity|]. split; [exact E|]. split; [exact E3|]. rewrite Ha. exact Hp.
Defined.
