(* ===== verification/RoutingRpcs.v ===== *)
(** The listing RPCs of the agent over the routing manager,
    internal/agent/routing_rpcs.go: what FRR reports about BGP neighbours, BFD sessions and
    OSPF neighbours, and the prefixes of the intent store, each with the owner of the
    intent behind it.  A query runs vtysh, so it takes a place in the history of runs. *)

From Stdlib Require Import ZArith Lia Ascii String.
From stdpp Require Import base tactics list gmap strings fin_maps sorting.
From S2P Require Import Prelude GoStrings GoMap GoNet GoUtf8 GoText Intent FrrClient.
From S2P Require Import Reconciler ReconcilerSync ReconcilerProps RoutingManager.

(** [sort.Slice] by a text field; the order of equal ones is open. *)
Class GoSort := {
  sort_by : forall {A}, (A -> string) -> list A -> list A;
  sort_perm : forall {A} (key : A -> string) l, sort_by key l ≡ₚ l;
  sort_sorted : forall {A} (key : A -> string) l, Sorted String.le (key <$> sort_by key l) }.

Definition saturateU32 (v : Z) : Z := if 4294967295 <? v then 4294967295 else wrap32 v.

Inductive rpc_code := FailedPrecondition | Unavailable | RpcInternal.

Record RoutingPeerInfo := mkPeerInfo {
  ri_NeighborAddress : string; ri_RemoteAs : Z; ri_State : string; ri_Uptime : string; ri_PrefixesReceived : Z;
  ri_PrefixesSent : Z; ri_MsgReceived : Z; ri_MsgSent : Z; ri_BfdStatus : string; ri_Owner : string }.

Record RoutingPrefixInfo := mkPrefixInfo { rx_Prefix : string; rx_Protocol : string; rx_State : string; rx_Owner : string }.

Record RoutingBFDSessionInfo := mkBFDInfo {
  rb_PeerAddress : string; rb_Status : string; rb_Uptime : string; rb_MinRxMs : Z; rb_MinTxMs : Z;
  rb_DetectMultiplier : Z; rb_InterfaceName : string; rb_Owner : string }.

Record RoutingOSPFNeighborInfo := mkOSPFInfo {
  ro_NeighborId : string; ro_Address : string; ro_InterfaceName : string; ro_State : string; ro_Owner : string }.

(** A Go map filled from a list: the last entry of a key counts. *)
Definition index_by {A B} (key : A -> string) (val : A -> B) (l : list A) : gmap string B :=
  foldl (fun m x => <[key x := val x]> m) ∅ l.

Section listings.
Context {VT : Vtysh} {MI : MapIter} {GS : GoSort}.

(** A query of the manager's FRR client. *)
Definition query {A} (q : V A) (m : Manager) : A * Manager :=
  let '(a, v) := q (w_vty (rec m)) in (a, set_rec (mkWorld (w_rec (rec m)) v (w_events (rec m))) m).

Definition peer_info (bfdByAddr ownerByAddr : gmap string string) (nbr : BGPNeighborState) : RoutingPeerInfo :=
  mkPeerInfo (n_Address nbr) (n_RemoteAS nbr) (n_State nbr) (n_UpTime nbr) (n_PrefixesReceived nbr) (n_PrefixesSent nbr)
    (saturateU32 (n_MsgRcvd nbr)) (saturateU32 (n_MsgSent nbr))
    (default "" (bfdByAddr !! n_Address nbr)) (default "" (ownerByAddr !! n_Address nbr)).

(** [hasClient] is whether the manager has a client, as every manager that [NewManager]
    returns does. *)
Definition GetRoutingPeers (hasClient : bool) (rm : option Manager) : option Manager * result rpc_code (list RoutingPeerInfo) :=
  match rm with
  | None => (None, Err FailedPrecondition)
  | Some m =>
      if negb hasClient then (Some m, Err Unavailable)
      else
        let '(neighbors, m) := query GetBGPNeighbors m in
        match neighbors with
        | None => (Some m, Err RpcInternal)
        | Some nbrs =>
            let '(bfdPeers, m) := query GetBFDPeers m in
            let bfdByAddr := index_by f_PeerAddress f_Status (default [] bfdPeers) in
            let ownerByAddr := index_by p_NeighborAddress p_Owner (GetPeerIntents (store m)) in
            (Some m, Ok (sort_by ri_NeighborAddress (peer_info bfdByAddr ownerByAddr <$> nbrs)))
        end
  end.

Definition prefix_info (pi : PrefixIntent) : RoutingPrefixInfo :=
  mkPrefixInfo (x_Prefix pi) (if x_Protocol pi =? ProtocolOSPF then "ospf" else "bgp") "advertised" (x_Owner pi).

Definition GetRoutingPrefixes (rm : option Manager) : result rpc_code (list RoutingPrefixInfo) :=
  match rm with
  | None => Err FailedPrecondition
  | Some m => Ok (sort_by rx_Prefix (prefix_info <$> GetPrefixIntents (store m)))
  end.

(** The timers, interface and owner known for an address: those of a BFD intent, or of
    a peer intent with BFD where there is none. *)
Definition timers : Type := Z * Z * Z * string * string.

Definition of_bfd (bi : BFDIntent) : timers := (b_MinRxMs bi, b_MinTxMs bi, b_DetectMultiplier bi, b_InterfaceName bi, b_Owner bi).
Definition of_peer (pi : PeerIntent) : timers := (p_BFDMinRxMs pi, p_BFDMinTxMs pi, p_BFDDetectMultiplier pi, "", p_Owner pi).

Definition add_peer_timers (m : gmap string timers) (pi : PeerIntent) : gmap string timers :=
  if p_BFDEnabled pi then
    match m !! p_NeighborAddress pi with Some _ => m | None => <[p_NeighborAddress pi := of_peer pi]> m end
  else m.

Definition session_info (bfdByAddr : gmap string timers) (bp : BFDPeerState) : RoutingBFDSessionInfo :=
  let '(rx, tx, mult, iface, own) := default (0, 0, 0, "", "") (bfdByAddr !! f_PeerAddress bp) in
  mkBFDInfo (f_PeerAddress bp) (f_Status bp) (f_Uptime bp) rx tx mult iface own.

Definition GetRoutingBFDSessions (hasClient : bool) (rm : option Manager)
    : option Manager * result rpc_code (list RoutingBFDSessionInfo) :=
  match rm with
  | None => (None, Err FailedPrecondition)
  | Some m =>
      if negb hasClient then (Some m, Err Unavailable)
      else
        let '(bfdPeers, m) := query GetBFDPeers m in
        match bfdPeers with
        | None => (Some m, Err RpcInternal)
        | Some peers =>
            let bfdByAddr := foldl add_peer_timers (index_by b_PeerAddress of_bfd (GetBFDIntents (store m))) (GetPeerIntents (store m)) in
            (Some m, Ok (sort_by rb_PeerAddress (session_info bfdByAddr <$> peers)))
        end
  end.

Definition ospf_info (ownerByIface : gmap string string) (nbr : OSPFNeighborState) : RoutingOSPFNeighborInfo :=
  mkOSPFInfo (s_NeighborID nbr) (s_Address nbr) (s_Interface nbr) (s_State nbr) (default "" (ownerByIface !! s_Interface nbr)).

Definition GetRoutingOSPFNeighbors (hasClient : bool) (rm : option Manager)
    : option Manager * result rpc_code (list RoutingOSPFNeighborInfo) :=
  match rm with
  | None => (None, Err FailedPrecondition)
  | Some m =>
      if negb hasClient then (Some m, Err Unavailable)
      else
        let '(neighbors, m) := query GetOSPFNeighbors m in
        match neighbors with
        | None => (Some m, Err RpcInternal)
        | Some nbrs =>
            let ownerByIface := index_by o_InterfaceName o_Owner (GetOSPFIntents (store m)) in
            (Some m, Ok (ospf_info ownerByIface <$> nbrs))
        end
  end.
End listings.

(** * What the listings say *)

Lemma index_by_snoc {A B} (key : A -> string) (val : A -> B) l x :
  index_by key val (l ++ [x]) = <[key x := val x]> (index_by key val l).
Proof. unfold index_by. by rewrite foldl_app. Qed.

Lemma index_by_spec {A B} (key : A -> string) (val : A -> B) l k :
  match index_by key val l !! k with
  | Some v => exists x, x ∈ l /\ key x = k /\ val x = v
  | None => forall x, x ∈ l -> key x <> k
  end.
Proof.
  induction l as [|x l IH] using rev_ind; [cbn; rewrite lookup_empty; by intros x ?%elem_of_nil|].
  rewrite index_by_snoc. destruct (decide (key x = k)) as [<-|Hk].
  - rewrite lookup_insert_eq. exists x. split; [apply elem_of_app; right; by left|done].
  - rewrite lookup_insert_ne by done. destruct (index_by key val l !! k).
    + destruct IH as (y & Hy & H). exists y. split; [apply elem_of_app; by left|done].
    + intros y [Hy|Hy%list_elem_of_singleton]%elem_of_app; [by apply IH|congruence].
Qed.

(** The owner shown for a key: of some intent with the key, or none where there is none. *)
Lemma owner_shown {A} (key owner : A -> string) l k :
  let o := default "" (index_by key owner l !! k) in
  (exists x, x ∈ l /\ key x = k /\ owner x = o) \/ (o = "" /\ forall x, x ∈ l -> key x <> k).
Proof. cbn. pose proof (index_by_spec key owner l k) as H. destruct (index_by key owner l !! k); [by left|by right]. Qed.

(** A query asks vtysh once and changes nothing but the count of runs. *)
Definition ran (m : Manager) : Manager :=
  set_rec (mkWorld (w_rec (rec m)) (mkVty (S (vty_runs (w_vty (rec m)))) (vty_log (w_vty (rec m)))) (w_events (rec m))) m.

Lemma query_bgp {VT : Vtysh} m :
  query GetBGPNeighbors m = (parseBGPNeighbors <$> vtysh_show_bgp (vty_runs (w_vty (rec m))), ran m).
Proof. reflexivity. Qed.

Lemma query_bfd {VT : Vtysh} m :
  query GetBFDPeers m = (parseBFDPeers <$> vtysh_show_bfd (vty_runs (w_vty (rec m))), ran m).
Proof. reflexivity. Qed.

(** The peer listing is FRR's neighbour table, sorted by address, with saturated message
    counters; the owner is that of a peer intent for the address, and empty exactly for
    neighbours no intent asks for (owners have names).  The query changes neither store
    nor applied state. *)
Theorem peers_listed {VT : Vtysh} {MI : MapIter} {GS : GoSort} m raw :
  vtysh_show_bgp (vty_runs (w_vty (rec m))) = Some raw ->
  exists m' l, GetRoutingPeers true (Some m) = (Some m', Ok l) /\
    store m' = store m /\ w_rec (rec m') = w_rec (rec m) /\ Sorted String.le (ri_NeighborAddress <$> l) /\
    (ri_NeighborAddress <$> l) ≡ₚ (n_Address <$> parseBGPNeighbors raw) /\
    forall i, i ∈ l -> 0 <= ri_MsgReceived i <= 4294967295 /\
      ((exists p, p ∈ GetPeerIntents (store m) /\ p_NeighborAddress p = ri_NeighborAddress i /\ p_Owner p = ri_Owner i) \/
       (ri_Owner i = "" /\ forall p, p ∈ GetPeerIntents (store m) -> p_NeighborAddress p <> ri_NeighborAddress i)).
Proof.
  intros Hraw. unfold GetRoutingPeers. cbn [negb]. rewrite query_bgp, Hraw. cbn [fmap option_fmap option_map]. rewrite query_bfd.
  eexists _, _. split; [reflexivity|]. split; [done|]. split; [done|]. split; [apply sort_sorted|].
  split; [rewrite sort_perm; by rewrite <- list_fmap_compose|].
  intros i. rewrite sort_perm. intros (nbr & -> & _)%list_elem_of_fmap. split; [|apply owner_shown].
  cbn. unfold saturateU32. destruct (Z.ltb_spec 4294967295 (n_MsgRcvd nbr)); [lia|]. unfold wrap32.
  pose proof (Z.mod_pos_bound (n_MsgRcvd nbr) (2 ^ 32)). lia.
Qed.

Lemma peer_timers_lookup l : forall m k,
  foldl add_peer_timers m l !! k = match m !! k with
    | Some t => Some t
    | None => of_peer <$> (snd <$> list_find (fun p => p_BFDEnabled p = true /\ p_NeighborAddress p = k) l)
    end.
Proof.
  induction l as [|p l IH]; intros m k; [by cbn; destruct (m !! k)|]. cbn [foldl list_find]. rewrite IH. unfold add_peer_timers.
  assert (forall P : Prop, forall (d : Decision P), ~ P -> match m !! k with
      | Some t => Some t | None => of_peer <$> (snd <$> list_find (fun p => p_BFDEnabled p = true /\ p_NeighborAddress p = k) l) end =
    match m !! k with
      | Some t => Some t
      | None => of_peer <$> (snd <$> (if d then Some (0%nat, p) else prod_map S id <$> list_find (fun p => p_BFDEnabled p = true /\ p_NeighborAddress p = k) l)) end) as Hskip.
  { intros P d Hn. destruct (m !! k); [done|]. destruct d; [done|]. by destruct (list_find _ l) as [[]|]. }
  destruct (p_BFDEnabled p) eqn:Ee; [|apply Hskip; intros [? _]; congruence].
  destruct (decide (p_NeighborAddress p = k)) as [<-|Hk].
  - destruct (m !! p_NeighborAddress p) eqn:Em; [by rewrite Em|]. rewrite lookup_insert_eq. by rewrite decide_True.
  - rewrite <- (Hskip _ (decide _)) by (intros [_ ?]; congruence).
    destruct (m !! p_NeighborAddress p); [done|]. by rewrite lookup_insert_ne.
Qed.

(** The session listing is FRR's table of BFD peers, sorted by address.  The timers and
    the owner are those of a BFD intent for the address; without one, those of a peer
    intent that asks for BFD; without either, empty. *)
Theorem sessions_listed {VT : Vtysh} {MI : MapIter} {GS : GoSort} m raw :
  vtysh_show_bfd (vty_runs (w_vty (rec m))) = Some raw ->
  exists m' l, GetRoutingBFDSessions true (Some m) = (Some m', Ok l) /\
    store m' = store m /\ w_rec (rec m') = w_rec (rec m) /\ Sorted String.le (rb_PeerAddress <$> l) /\
    (rb_PeerAddress <$> l) ≡ₚ (f_PeerAddress <$> parseBFDPeers raw) /\
    forall i, i ∈ l -> let t := (rb_MinRxMs i, rb_MinTxMs i, rb_DetectMultiplier i, rb_InterfaceName i, rb_Owner i) in
      (exists b, b ∈ GetBFDIntents (store m) /\ b_PeerAddress b = rb_PeerAddress i /\ t = of_bfd b) \/
      ((forall b, b ∈ GetBFDIntents (store m) -> b_PeerAddress b <> rb_PeerAddress i) /\
       ((exists p, p ∈ GetPeerIntents (store m) /\ p_BFDEnabled p = true /\ p_NeighborAddress p = rb_PeerAddress i /\ t = of_peer p) \/
        (t = (0, 0, 0, "", "") /\ forall p, p ∈ GetPeerIntents (store m) -> p_BFDEnabled p = true -> p_NeighborAddress p <> rb_PeerAddress i))).
Proof.
  intros Hraw. unfold GetRoutingBFDSessions. cbn [negb]. rewrite query_bfd, Hraw. cbn [fmap option_fmap option_map].
  set (tbl := foldl add_peer_timers _ _).
  assert (forall bp, rb_PeerAddress (session_info tbl bp) = f_PeerAddress bp) as Haddr.
  { intros bp. unfold session_info. by destruct (default _ _) as [[[[? ?] ?] ?] ?]. }
  eexists _, _. split; [reflexivity|]. split; [done|]. split; [done|]. split; [apply sort_sorted|].
  split; [rewrite sort_perm; rewrite <- list_fmap_compose; erewrite list_fmap_ext; [done|intros ? x ?; apply Haddr]|].
  intros i. rewrite sort_perm. intros (bp & -> & _)%list_elem_of_fmap. rewrite Haddr. cbv zeta.
  assert ((rb_MinRxMs (session_info tbl bp), rb_MinTxMs (session_info tbl bp), rb_DetectMultiplier (session_info tbl bp),
    rb_InterfaceName (session_info tbl bp), rb_Owner (session_info tbl bp)) = default (0, 0, 0, "", "") (tbl !! f_PeerAddress bp)) as ->.
  { unfold session_info. by destruct (default _ _) as [[[[? ?] ?] ?] ?]. }
  unfold tbl. rewrite peer_timers_lookup. cbn [store ran set_rec].
  pose proof (index_by_spec b_PeerAddress of_bfd (GetBFDIntents (store m)) (f_PeerAddress bp)) as Hb.
  destruct (index_by b_PeerAddress of_bfd _ !! _) as [t|]; [left; destruct Hb as (b & ? & ? & <-); by exists b|].
  right. split; [done|]. destruct (list_find _ (GetPeerIntents (store m))) as [[j p]|] eqn:El; cbn.
  - left. apply list_find_Some in El as (Hj & [He Ha] & _). exists p. split; [by eapply list_elem_of_lookup_2|done].
  - right. split; [done|]. apply list_find_None in El. rewrite Forall_forall in El. intros p Hp He Ha. by apply (El p Hp).
Qed.

(** * A sort *)

Definition key_le {A} (key : A -> string) : relation A := fun x y => String.le (key x) (key y).

#[export] Instance key_le_dec {A} (key : A -> string) : RelDecision (key_le key).
Proof. intros x y. unfold key_le. apply _. Defined.

#[export] Instance key_le_total {A} (key : A -> string) : Total (key_le key).
Proof. intros x y. unfold key_le. apply (total String.le). Qed.

Lemma key_sorted {A} (key : A -> string) l : Sorted (key_le key) l -> Sorted String.le (key <$> l).
Proof.
  induction 1 as [|x l Hs IH Hd]; [constructor|]. cbn. constructor; [done|]. inversion Hd; cbn; by constructor.
Qed.

Definition merge_sorts : GoSort :=
  {| sort_by := fun A key l => merge_sort (key_le key) l;
     sort_perm := fun A key l => merge_sort_Permutation (key_le key) l;
     sort_sorted := fun A key l => key_sorted key _ (Sorted_merge_sort (key_le key) l) |}.

(** A prefix is listed as advertised as soon as it is asked for: here no cycle has run,
    and nothing is applied. *)
Theorem unapplied_prefix_listed : exists m,
  AdvertisePrefix 5 "10.244.1.0/24" (NewManager "novanet") = (Ok tt, m) /\
  GetRoutingPrefixes (MI := iter_forward) (GS := merge_sorts) (Some m) = Ok [mkPrefixInfo "10.244.1.0/24" "bgp" "advertised" "novanet"] /\
  appliedPrefixes (w_rec (rec m)) = ∅.
Proof. eexists. split; [vm_compute; reflexivity|]. split; vm_compute; reflexivity. Qed.

(** An FRR with one neighbour and one BFD session. *)
Definition one_neighbour : Vtysh :=
  {| vtysh_config := fun _ _ => Some "";
     vtysh_show_bgp := fun _ => Some [("10.0.0.2", mkBgpJSON 65002 "Established" "00:01:00" 5000000000 12 [])];
     vtysh_show_bfd := fun _ => Some [mkBfdJSON "10.0.0.2" "eth0" "up" 60];
     vtysh_show_ospf := fun _ => Some [] |}.

Definition asked : Manager := NewManager "novanet".

Lemma peers_listed_witness :
  exists m' l, GetRoutingPeers (VT := one_neighbour) (MI := iter_forward) (GS := merge_sorts) true (Some asked) = (Some m', Ok l) /\
    (ri_NeighborAddress <$> l) ≡ₚ ["10.0.0.2"].
Proof.
  destruct (peers_listed (VT := one_neighbour) (MI := iter_forward) (GS := merge_sorts) asked
    [("10.0.0.2", mkBgpJSON 65002 "Established" "00:01:00" 5000000000 12 [])] eq_refl) as (m' & l & E & _ & _ & _ & P & _).
  exists m', l. split; [exact E|exact P].
Defined.

Lemma sessions_listed_witness :
  exists m' l, GetRoutingBFDSessions (VT := one_neighbour) (MI := iter_forward) (GS := merge_sorts) true (Some asked) = (Some m', Ok l) /\
    (rb_PeerAddress <$> l) ≡ₚ ["10.0.0.2"].
Proof.
  destruct (sessions_listed (VT := one_neighbour) (MI := iter_forward) (GS := merge_sorts) asked
    [mkBfdJSON "10.0.0.2" "eth0" "up" 60] eq_refl) as (m' & l & E & _ & _ & _ & P & _).
  exists m', l. split; [exact E|exact P].
Defined.
