(* ===== verification/GoSha256.v ===== *)
(** SHA-256 as crypto/sha256 computes it, on bytes as [Z].  The round constants
    and the initial state are the fractional parts of the cube and square roots
    of the first primes, as the standard defines them. *)

From Stdlib Require Import ZArith Lia.
From stdpp Require Import base tactics list.
From S2P Require Import Prelude.

(** * Words *)

Definition add32 (x y : Z) : Z := wrap32 (x + y).
Definition rotr (n x : Z) : Z := Z.lor (Z.shiftr x n) (wrap32 (Z.shiftl x (32 - n))).
Definition not32 (x : Z) : Z := Z.lxor x (2 ^ 32 - 1).

Definition choose (x y z : Z) : Z := Z.lxor (Z.land x y) (Z.land (not32 x) z).
Definition majority (x y z : Z) : Z := Z.lxor (Z.lxor (Z.land x y) (Z.land x z)) (Z.land y z).
Definition mix (a b c x : Z) : Z := Z.lxor (Z.lxor (rotr a x) (rotr b x)) (rotr c x).
Definition mix_shift (a b c x : Z) : Z := Z.lxor (Z.lxor (rotr a x) (rotr b x)) (Z.shiftr x c).

(** * Constants *)

Definition primes : list Z :=
  [2; 3; 5; 7; 11; 13; 17; 19; 23; 29; 31; 37; 41; 43; 47; 53; 59; 61; 67; 71; 73; 79; 83; 89; 97; 101; 103; 107;
   109; 113; 127; 131; 137; 139; 149; 151; 157; 163; 167; 173; 179; 181; 191; 193; 197; 199; 211; 223; 227; 229;
   233; 239; 241; 251; 257; 263; 269; 271; 277; 281; 283; 293; 307; 311].

(** The integer cube root, bit by bit from bit [n - 1] down. *)
Fixpoint cube_root (n : nat) (acc z : Z) : Z :=
  match n with
  | O => acc
  | S m => let c := acc + 2 ^ Z.of_nat m in cube_root m (if c * c * c <=? z then c else acc) z
  end.

Definition round_constants : list Z := (fun p => wrap32 (cube_root 36 0 (p * 2 ^ 96))) <$> primes.
Definition initial_state : list Z := (fun p => wrap32 (Z.sqrt (p * 2 ^ 64))) <$> take 8 primes.

(** * Blocks *)

Definition be_word (a b c d : Z) : Z := a * 2 ^ 24 + b * 2 ^ 16 + c * 2 ^ 8 + d.
Definition word_bytes (x : Z) : list Z :=
  [Z.shiftr x 24 mod 256; Z.shiftr x 16 mod 256; Z.shiftr x 8 mod 256; x mod 256].

Fixpoint be_words (l : list Z) : list Z :=
  match l with
  | a :: b :: c :: d :: r => be_word a b c d :: be_words r
  | _ => []
  end.

(** The message, a one bit, zeros up to a multiple of 64 bytes less eight, and the
    length in bits. *)
Definition pad (msg : list Z) : list Z :=
  let n := Z.of_nat (length msg) in
  let zeros := Z.to_nat ((55 - n) mod 64) in
  let bits := 8 * n in
  msg ++ [128] ++ replicate zeros 0 ++ word_bytes (Z.shiftr bits 32) ++ word_bytes (wrap32 bits).

(** The 64 words of a block from its 16, the newest first. *)
Fixpoint extend (n : nat) (w : list Z) : list Z :=
  match n with
  | O => w
  | S m =>
      let at_ i := default 0 (w !! i) in
      extend m (add32 (add32 (mix_shift 17 19 10 (at_ 1%nat)) (at_ 6%nat))
                  (add32 (mix_shift 7 18 3 (at_ 14%nat)) (at_ 15%nat)) :: w)
  end.

Definition sha_round (st : list Z) (kw : Z * Z) : list Z :=
  match st with
  | [a; b; c; d; e; f; g; h] =>
      let t1 := add32 (add32 (add32 h (mix 6 11 25 e)) (choose e f g)) (add32 kw.1 kw.2) in
      let t2 := add32 (mix 2 13 22 a) (majority a b c) in
      [add32 t1 t2; a; b; c; add32 d t1; e; f; g]
  | _ => st
  end.

Definition compress (ks st block : list Z) : list Z :=
  zip_with add32 st (foldl sha_round st (zip ks (reverse (extend 48 (reverse block))))).

Fixpoint blocks (fuel : nat) (l : list Z) : list (list Z) :=
  match fuel with
  | O => []
  | S f => match l with [] => [] | _ => take 16 l :: blocks f (drop 16 l) end
  end.

(** [sha256.Sum256]. *)
Definition Sum256 (msg : list Z) : list Z :=
  let ws := be_words (pad msg) in
  foldl (compress round_constants) initial_state (blocks (length ws) ws) ≫= word_bytes.

(** * Shape *)

Lemma word_bytes_ok x : length (word_bytes x) = 4%nat /\ Forall (fun b => 0 <= b < 256) (word_bytes x).
Proof. split; [done|]. repeat (constructor; [apply Z.mod_pos_bound; lia|]). constructor. Qed.

Lemma sha_round_length st kw : length (sha_round st kw) = length st.
Proof. unfold sha_round. by repeat case_match. Qed.

Lemma compress_length ks st block : length (compress ks st block) = length st.
Proof.
  unfold compress. rewrite length_zip_with_l_eq; [done|].
  generalize (zip ks (reverse (extend 48 (reverse block)))). intros l.
  assert (forall l s, length (foldl sha_round s l) = length s) as H.
  { induction l0 as [|x l' IH]; intros s; [done|]. cbn [foldl]. by rewrite IH, sha_round_length. }
  by rewrite H.
Qed.

(** A digest is 32 bytes. *)
Lemma Sum256_ok msg : length (Sum256 msg) = 32%nat /\ Forall (fun b => 0 <= b < 256) (Sum256 msg).
Proof.
  unfold Sum256. set (bs := blocks _ _). set (st := foldl _ _ bs).
  assert (length st = 8%nat) as Hl.
  { subst st. generalize bs. intros l. assert (forall s, length (foldl (compress round_constants) s l) = length s) as H.
    { induction l as [|x l' IH]; intros s; [done|]. cbn [foldl]. by rewrite IH, compress_length. }
    by rewrite H. }
  clearbody st. clear bs. split.
  - assert (forall l : list Z, length (l ≫= word_bytes) = (4 * length l)%nat) as H.
    { induction l as [|x l IH]; [done|]. rewrite bind_cons, length_app, IH. cbn [length]. cbn. lia. }
    rewrite H, Hl. done.
  - rewrite Forall_bind. apply Forall_true. intros x. apply word_bytes_ok.
Qed.

(** The digests of the empty message and of "abc" from the standard. *)
Lemma Sum256_empty :
  take 4 (Sum256 []) = [227; 176; 196; 66] /\ drop 28 (Sum256 []) = [120; 82; 184; 85].
Proof. vm_compute. done. Qed.

Lemma Sum256_abc :
  take 4 (Sum256 [97; 98; 99]) = [186; 120; 22; 191] /\ drop 28 (Sum256 [97; 98; 99]) = [242; 0; 21; 173].
Proof. vm_compute. done. Qed.
