(* ===== verification/DnsCache.v ===== *)
(** The DNS cache of FQDN peers (internal/policy/dns_cache.go): lookups with a
    time to live and stale answers on failure, refresh, and eviction of the least
    recently used entry.  The resolver and the clock are inputs.  The cache never
    exceeds its limit, and what it evicts is never newer than what it keeps. *)

From Stdlib Require Import ZArith Lia Ascii String.
From stdpp Require Import base tactics list gmap strings fin_maps.
From S2P Require Import Prelude GoStrings GoMap GoNet.

Definition defaultDNSTTL : Z := 5 * 60 * 10 ^ 9.
Definition defaultMaxEntries : Z := 10000.

Record dnsCacheEntry := mkDns { ips : list IP; expiry : Z; lastAccess : Z }.

(** [DNSCache], without its mutex and the grouping of concurrent lookups. *)
Record DNSCache := mkDNSCache { entries : gmap string dnsCacheEntry; maxEntries : Z }.

Definition NewDNSCache (max : Z) : DNSCache :=
  mkDNSCache ∅ (if max <=? 0 then defaultMaxEntries else max).

Definition Size (c : DNSCache) : Z := Z.of_nat (size (entries c)).

Definition set_entries (e : gmap string dnsCacheEntry) (c : DNSCache) : DNSCache := mkDNSCache e (maxEntries c).

Section Cache.
Context {MI : MapIter}.

(** The inner loop of [evictLocked]: the first of the oldest entries. *)
Fixpoint oldest (l : list (string * dnsCacheEntry)) (best : option (string * Z)) : option (string * Z) :=
  match l with
  | [] => best
  | (key, entry) :: rest =>
      oldest rest (match best with
                   | Some (_, t) => if lastAccess entry <? t then Some (key, lastAccess entry) else best
                   | None => Some (key, lastAccess entry)
                   end)
  end.

Fixpoint evict (fuel : nat) (max : Z) (m : gmap string dnsCacheEntry) : outcome (gmap string dnsCacheEntry) :=
  match fuel with
  | O => Diverge
  | S f =>
      if max <? Z.of_nat (size m) then
        evict f max (delete (match oldest (iter m) None with Some (k, _) => k | None => "" end) m)
      else Val m
  end.

Definition evictLocked (c : DNSCache) : outcome DNSCache :=
  m ← evict (S (size (entries c))) (maxEntries c) (entries c);
  mret (set_entries m c).

(** [Resolve] at the times [t1] and [t2] of its two looks at the clock; [lookup]
    is the answer of the resolver. *)
Definition Resolve (fqdn : string) (t1 t2 : Z) (lookup : option (list IP)) (c : DNSCache)
    : outcome (list IP * DNSCache) :=
  let store resolved :=
    c' ← evictLocked (set_entries (<[fqdn := mkDns resolved (t2 + defaultDNSTTL) t2]> (entries c)) c);
    mret (resolved, c') in
  match entries c !! fqdn with
  | Some e =>
      if t1 <? expiry e then Val (ips e, set_entries (<[fqdn := mkDns (ips e) (expiry e) t2]> (entries c)) c)
      else match lookup with None => Val (ips e, c) | Some resolved => store resolved end
  | None => match lookup with None => Val ([], c) | Some resolved => store resolved end
  end.

(** [ipsEqual]. *)
Definition ipsEqual (a b : list IP) : bool :=
  (length a =? length b)%nat && forallb (fun ip => bool_decide (ip_string ip ∈ ip_string <$> a)) b.

(** [Refresh]: the names are collected first; [lookup] gives the time and the
    answer for each. *)
Fixpoint refresh (l : list string) (lookup : string -> Z * option (list IP)) (m : gmap string dnsCacheEntry)
    : Z * gmap string dnsCacheEntry :=
  match l with
  | [] => (0, m)
  | fqdn :: rest =>
      match lookup fqdn with
      | (_, None) => refresh rest lookup m
      | (now, Some resolved) =>
          let old := match m !! fqdn with Some e => ips e | None => [] end in
          let '(n, m') := refresh rest lookup (<[fqdn := mkDns resolved (now + defaultDNSTTL) now]> m) in
          ((if ipsEqual old resolved then 0 else 1) + n, m')
      end
  end.

Definition Refresh (lookup : string -> Z * option (list IP)) (c : DNSCache) : Z * DNSCache :=
  let '(n, m) := refresh (iter (entries c)).*1 lookup (entries c) in (n, set_entries m c).

Definition GetAll (c : DNSCache) : gmap string (list IP) := ips <$> entries c.

(** * Eviction *)

Lemma oldest_spec l best :
  match oldest l best with
  | None => l = [] /\ best = None
  | Some (k, t) =>
      (best = Some (k, t) \/ exists e, (k, e) ∈ l /\ lastAccess e = t) /\
      (forall k' t', best = Some (k', t') -> t <= t') /\ (forall k' e', (k', e') ∈ l -> t <= lastAccess e')
  end.
Proof.
  revert best. induction l as [|[key entry] l IH]; intros best; cbn [oldest].
  { destruct best as [[k t]|]; [|done]. split; [by left|]. split.
    - intros k' t' [= <- <-]. lia.
    - intros k' e' H. by apply elem_of_nil in H. }
  set (best' := match best with Some (_, t) => _ | None => _ end).
  assert (exists k0 t0, best' = Some (k0, t0) /\ t0 <= lastAccess entry /\
    (best = Some (k0, t0) \/ k0 = key /\ t0 = lastAccess entry) /\ (forall k' t', best = Some (k', t') -> t0 <= t'))
    as (k0 & t0 & Hb & Hle & Hor & Hmin).
  { subst best'. destruct best as [[k t]|]; [destruct (lastAccess entry <? t) eqn:E; to_prop|];
      eexists _, _; (split; [reflexivity|]); split_and!; try lia; try naive_solver lia. }
  specialize (IH best'). destruct (oldest l best') as [[k t]|]; [|by destruct IH; congruence].
  destruct IH as (Hk & Hbest & Hl). specialize (Hbest k0 t0 Hb). split_and!.
  - destruct Hk as [Hk|(e & He & Ht)].
    + rewrite Hb in Hk. injection Hk as <- <-. destruct Hor as [|[-> ->]]; [by left|]. right. exists entry. by split; [left|].
    + right. exists e. by split; [right|].
  - intros k' t' H. specialize (Hmin k' t' H). lia.
  - intros k' e' [[= -> ->]|H]%elem_of_cons; [lia|by apply (Hl k')].
Qed.

(** Eviction ends within the limit, and keeps nothing older than what it drops. *)
Lemma evict_spec fuel max m :
  0 <= max -> (size m < fuel)%nat ->
  exists m', evict fuel max m = Val m' /\ m' ⊆ m /\ Z.of_nat (size m') <= Z.max max (Z.of_nat (size m)) /\
    (max <= Z.of_nat (size m) -> Z.of_nat (size m') = max) /\ (Z.of_nat (size m) <= max -> m' = m) /\
    forall k e k' e', m !! k = Some e -> m' !! k = None -> m' !! k' = Some e' -> lastAccess e <= lastAccess e'.
Proof.
  intros Hmax. revert m. induction fuel as [|f IH]; intros m Hf; [lia|]. cbn [evict].
  destruct (max <? Z.of_nat (size m)) eqn:E; to_prop.
  2:{ exists m. split_and!; try done; try lia. intros k e k' e' H1 H2. congruence. }
  pose proof (oldest_spec (iter m) None) as Ho. destruct (oldest (iter m) None) as [[k t]|].
  2:{ destruct Ho as [Ho _]. pose proof (iter_perm m) as Hp. rewrite Ho in Hp. apply Permutation_nil_l in Hp.
      symmetry in Hp. apply map_to_list_empty_iff in Hp. subst m. rewrite map_size_empty in E. lia. }
  destruct Ho as ([Ho|(e & He%elem_of_iter & Ht)] & _ & Hmin); [done|].
  assert (size (delete k m) = pred (size m)) as Hsz by (rewrite map_size_delete_Some; [lia|by eexists]).
  destruct (IH (delete k m) ltac:(lia)) as (m' & Ev & Hsub & Hle & Heq & Hid & Hlru).
  exists m'. split; [done|]. split; [etrans; [exact Hsub|apply delete_subseteq]|]. split; [lia|].
  split; [intros _; apply Heq; lia|]. split; [lia|].
  intros k1 e1 k2 e2 H1 H2 H3. assert (m !! k2 = Some e2) as Hk2.
  { eapply lookup_weaken; [exact H3|]. etrans; [exact Hsub|apply delete_subseteq]. }
  destruct (decide (k1 = k)) as [->|Hne].
  - assert (e1 = e) as -> by congruence. rewrite Ht. apply (Hmin k2). by apply elem_of_iter.
  - apply (Hlru k1 e1 k2 e2); [by rewrite lookup_delete_ne|done|done].
Qed.

(** * Histories *)

Inductive dns_op : Type :=
| OpResolve (fqdn : string) (t1 t2 : Z) (lookup : option (list IP))
| OpRefresh (lookup : string -> Z * option (list IP)).

Definition run_dns_op (c : DNSCache) (op : dns_op) : outcome (list IP * DNSCache) :=
  match op with
  | OpResolve f t1 t2 l => Resolve f t1 t2 l c
  | OpRefresh l => Val ([], (Refresh l c).2)
  end.

Fixpoint run_dns (c : DNSCache) (ops : list dns_op) : outcome (list (list IP) * DNSCache) :=
  match ops with
  | [] => Val ([], c)
  | op :: rest => '(a, c1) ← run_dns_op c op; '(l, c2) ← run_dns c1 rest; Val (a :: l, c2)
  end.

Definition dns_inv (c : DNSCache) : Prop := 0 < maxEntries c /\ Size c <= maxEntries c.

Lemma evictLocked_spec c :
  0 < maxEntries c -> exists c', evictLocked c = Val c' /\ dns_inv c' /\ maxEntries c' = maxEntries c /\
    entries c' ⊆ entries c /\ (Size c <= maxEntries c -> c' = c) /\
    forall k e k' e', entries c !! k = Some e -> entries c' !! k = None -> entries c' !! k' = Some e' ->
      lastAccess e <= lastAccess e'.
Proof.
  intros Hm. unfold evictLocked.
  destruct (evict_spec (S (size (entries c))) (maxEntries c) (entries c)) as (m' & E & Hsub & Hle & Heq & Hid & Hlru); [lia..|].
  unfold mbind, outcome_bind. rewrite E. exists (set_entries m' c). split; [done|]. split.
  { split; [done|]. unfold Size. cbn. lia. }
  split; [done|]. split; [done|]. split; [|done]. intros H. unfold Size in H. rewrite Hid by done. by destruct c.
Qed.

Lemma Resolve_returns f t1 t2 l c :
  dns_inv c -> exists a c', Resolve f t1 t2 l c = Val (a, c') /\ dns_inv c' /\ maxEntries c' = maxEntries c.
Proof.
  intros [Hm Hs]. unfold Resolve.
  assert (forall r, exists c', evictLocked (set_entries (<[f := mkDns r (t2 + defaultDNSTTL) t2]> (entries c)) c) = Val c' /\
    dns_inv c' /\ maxEntries c' = maxEntries c) as Hstore.
  { intros r. destruct (evictLocked_spec (set_entries (<[f := mkDns r (t2 + defaultDNSTTL) t2]> (entries c)) c)) as (c' & E & H1 & H2 & _);
      [done|]. by exists c'. }
  destruct (entries c !! f) as [e|] eqn:Ef.
  - destruct (t1 <? expiry e).
    + eexists _, _. split; [reflexivity|]. split; [|done]. split; [done|]. unfold Size in *. cbn.
      rewrite map_size_insert_Some by (by eexists). done.
    + destruct l as [r|]; [|by eexists _, _]. destruct (Hstore r) as (c' & E & H). rewrite E. by eexists _, _.
  - destruct l as [r|]; [|by eexists _, _]. destruct (Hstore r) as (c' & E & H). rewrite E. by eexists _, _.
Qed.

Lemma refresh_dom l lookup m : (forall f, f ∈ l -> f ∈ dom m) -> dom (refresh l lookup m).2 = dom m.
Proof.
  revert m. induction l as [|f l IH]; intros m Hl; cbn [refresh]; [done|].
  destruct (lookup f) as [now [r|]].
  - set (m1 := <[f := mkDns r (now + defaultDNSTTL) now]> m).
    assert (dom m1 = dom m) as Hd by (subst m1; rewrite dom_insert_L; pose proof (Hl f ltac:(by left)); set_solver).
    specialize (IH m1). destruct (refresh l lookup m1) as [n m2]. cbn in *. rewrite IH, Hd; [done|].
    intros g Hg. rewrite Hd. apply Hl. by right.
  - apply IH. intros g Hg. apply Hl. by right.
Qed.

Lemma Refresh_inv lookup c : dns_inv c -> dns_inv (Refresh lookup c).2 /\ maxEntries (Refresh lookup c).2 = maxEntries c.
Proof.
  intros [Hm Hs]. unfold Refresh. pose proof (refresh_dom (iter (entries c)).*1 lookup (entries c)) as Hd.
  destruct (refresh _ _ _) as [n m]. cbn in *. split; [|done]. split; [done|]. unfold Size in *. cbn.
  rewrite <- !size_dom in *. rewrite Hd; [done|]. intros f ([k e] & -> & He%elem_of_iter)%list_elem_of_fmap.
  by eapply elem_of_dom_2.
Qed.

(** The cache stays within its limit.  Every history of lookups and refreshes
    on a new cache returns, whatever the resolver answers and the clock shows, and
    ends with at most the configured number of entries. *)
Theorem dns_cache_bounded max ops :
  exists l c, run_dns (NewDNSCache max) ops = Val (l, c) /\
    Size c <= (if max <=? 0 then defaultMaxEntries else max).
Proof.
  assert (forall ops c, dns_inv c -> exists l c', run_dns c ops = Val (l, c') /\ dns_inv c' /\ maxEntries c' = maxEntries c) as H.
  { clear. induction ops as [|op ops IH]; intros c Hc; cbn [run_dns]; [by eexists _, _|].
    assert (exists a c1, run_dns_op c op = Val (a, c1) /\ dns_inv c1 /\ maxEntries c1 = maxEntries c) as (a & c1 & E & Hc1 & Hm1).
    { destruct op as [f t1 t2 l|lookup]; cbn [run_dns_op]; [by apply Resolve_returns|].
      eexists _, _. split; [reflexivity|]. by apply Refresh_inv. }
    destruct (IH c1 Hc1) as (l & c2 & E2 & Hc2 & Hm2). unfold mbind, outcome_bind. rewrite E, E2. eexists _, _.
    split; [reflexivity|]. split; [done|]. congruence. }
  destruct (H ops (NewDNSCache max)) as (l & c & E & [_ Hs] & Hm).
  - split; unfold Size; cbn; rewrite ?map_size_empty; destruct (max <=? 0) eqn:E; to_prop; unfold defaultMaxEntries; lia.
  - exists l, c. split; [done|]. by rewrite Hm in Hs.
Qed.

(** What a lookup answers: a fresh entry from the cache, else what the resolver
    says, else the stale entry. *)
Theorem resolve_answers f t1 t2 lookup c a c' :
  Resolve f t1 t2 lookup c = Val (a, c') ->
  a = match entries c !! f with
      | Some e => if t1 <? expiry e then ips e else default (ips e) lookup
      | None => default [] lookup
      end.
Proof.
  unfold Resolve, mbind, outcome_bind. intros E.
  destruct (entries c !! f) as [e|]; [destruct (t1 <? expiry e); [by simplify_eq|]|]; destruct lookup; try by simplify_eq.
  - destruct (evictLocked _); [by injection E as <- <-|discriminate E..].
  - destruct (evictLocked _); [by injection E as <- <-|discriminate E..].
Qed.

End Cache.

(** The comparison of [Refresh] takes {x, y} and {x, x} for the same answer. *)
Lemma ipsEqual_repeats :
  ipsEqual [[10; 0; 0; 1]; [10; 0; 0; 2]] [[10; 0; 0; 1]; [10; 0; 0; 1]] = true.
Proof. reflexivity. Qed.
