(* ===== verification/ExtendedPolicy.v ===== *)
(** The compiler of NovaNetworkPolicies (internal/policy/extended.go, objects from
    api/v1alpha1/novanetworkpolicy_types.go): port ranges, FQDN and service account
    peers.  The resolver of names and the clock are an environment.  The rules say
    what the policy says when its ranges are small and end before port 65535; a
    small range that ends there is never compiled. *)

From Stdlib Require Import ZArith Lia String.
From stdpp Require Import base tactics list gmap strings fin_maps.
From S2P Require Import Prelude GoStrings GoMap GoNet Constants Identity PolicyCompiler PolicySpec PolicyEnforcement DnsCache.

(** * Objects *)

Record NovaNetworkPolicyPort := mkNPort {
  v_Protocol : option string; v_Port : option Z; v_EndPort : option Z }.

Record ServiceAccountPeer := mkSA { sa_Name : string; sa_Namespace : string }.

Record NovaNetworkPolicyPeer := mkNPeer {
  v_PodSelector : option LabelSelector; v_NamespaceSelector : option LabelSelector; v_IPBlock : option IPBlock;
  v_FQDN : option string; v_ServiceAccount : option ServiceAccountPeer }.

(** An ingress rule with its [From], or an egress rule with its [To]. *)
Record NovaNetworkPolicyRule := mkNRule { v_Peers : list NovaNetworkPolicyPeer; v_Ports : list NovaNetworkPolicyPort }.

Record NovaNetworkPolicy := mkNova {
  v_Namespace : string; v_Name : string; v_Selector : LabelSelector;
  v_Ingress : list NovaNetworkPolicyRule; v_Egress : list NovaNetworkPolicyRule; v_PolicyTypes : list string }.

(** * Lookups *)

(** The two looks at the clock and the answers of the resolver at each lookup. *)
Class DnsEnv := dns_env : nat -> Z * Z * (string -> option (list IP)).

Record dns := mkDNS { dnsCache : DNSCache; lookups : nat }.

Definition D (A : Type) : Type := dns -> outcome (A * dns).

#[export] Instance D_ret : MRet D := fun _ a s => Val (a, s).
#[export] Instance D_bind : MBind D := fun _ _ f m s => '(a, s') ← m s; f a s'.

(** The body of a loop that appends what each element gives. *)
Fixpoint collect {A B} (f : A -> D (list B)) (l : list A) : D (list B) :=
  match l with
  | [] => mret []
  | x :: rest => a ← f x; b ← collect f rest; mret (a ++ b)
  end.

Section Extended.
Context {MI : MapIter} {DE : DnsEnv}.
Context (as_selector : LabelSelector -> option (labels -> bool)).
Context (allocated : list (Z * labels)).
Context (namespaceResolver : option (LabelSelector -> list string)).

Definition NewExtendedCompiler : dns := mkDNS (NewDNSCache defaultMaxEntries) 0.

Definition SetDNSCache (c : DNSCache) (s : dns) : dns := mkDNS c (lookups s).

Definition resolve (fqdn : string) : D (list IP) := fun s =>
  let '(t1, t2, lookup) := dns_env (lookups s) in
  '(a, c) ← Resolve fqdn t1 t2 (lookup fqdn) (dnsCache s);
  Val (a, mkDNS c (S (lookups s))).

Definition resolveServiceAccountPeer (sa : ServiceAccountPeer) (policyNamespace : string) : Z :=
  let ns := if String.eqb (sa_Namespace sa) "" then policyNamespace else sa_Namespace sa in
  HashLabels (<["novanet.io/namespace" := ns]> {["novanet.io/service-account" := sa_Name sa]}).

Definition resolveExtendedPeers (peers : list NovaNetworkPolicyPeer) (namespace : string) : list Z :=
  peer ← peers;
  match v_IPBlock peer, v_FQDN peer with
  | None, None =>
      match v_ServiceAccount peer with
      | Some sa => [resolveServiceAccountPeer sa namespace]
      | None => resolvePodAndNsPeers as_selector allocated namespaceResolver
                  (v_PodSelector peer) (v_NamespaceSelector peer) namespace
      end
  | _, _ => []
  end.

Definition resolveExtendedCIDRs (peers : list NovaNetworkPolicyPeer) : list cidrEntry :=
  peer ← peers;
  match v_IPBlock peer with
  | None => []
  | Some b => resolveIPBlockCIDRs (CIDR b) (Except b)
  end.

Definition host_cidr (ip : IP) : string :=
  match To4 ip with Some _ => ip_string ip +:+ "/32" | None => ip_string ip +:+ "/128" end.

Definition resolveFQDNPeers : list NovaNetworkPolicyPeer -> D (list string) :=
  collect (fun peer => match v_FQDN peer with
                       | None => mret []
                       | Some fqdn => ips ← resolve fqdn; mret (host_cidr <$> ips)
                       end).

Definition maxExpandablePortRange : Z := 100.

(** The loop over the ports of a range, whose variable is a 16-bit integer. *)
Fixpoint expand (fuel : nat) (proto port endPort : Z) : outcome (list portProto) :=
  match fuel with
  | O => Diverge
  | S f =>
      if port <=? endPort then
        l ← expand f proto (wrap16 (port + 1)) endPort;
        mret (mkPP proto port :: l)
      else mret []
  end.

Definition resolve_port (p : NovaNetworkPolicyPort) : outcome (list portProto) :=
  let proto := port_protocol (v_Protocol p) in
  match v_Port p with
  | None => mret [mkPP proto 0]
  | Some portVal =>
      if (portVal <? 0) || (MaxUint16 <? portVal) then mret []
      else
        let startPort := Z.land portVal MaxUint16 in
        match v_EndPort p with
        | None => mret [mkPP proto startPort]
        | Some endPortVal =>
            if (endPortVal <? 0) || (MaxUint16 <? endPortVal) then mret []
            else
              let endPort := Z.land endPortVal MaxUint16 in
              let rangeSize := endPort - startPort + 1 in
              if rangeSize <=? 0 then mret []
              else if maxExpandablePortRange <? rangeSize then mret [mkPP proto 0]
              else expand 102 proto startPort endPort
        end
  end.

Fixpoint resolveExtendedPorts (ports : list NovaNetworkPolicyPort) : outcome (list portProto) :=
  match ports with
  | [] => mret []
  | p :: rest => a ← resolve_port p; b ← resolveExtendedPorts rest; mret (a ++ b)
  end.

Definition lift {A} (m : outcome A) : D A := fun s => a ← m; Val (a, s).

Definition compileDirectionalRule (peers : list NovaNetworkPolicyPeer) (nnpPorts : list NovaNetworkPolicyPort)
    (fixedID : Z) (isEgress : bool) (namespace : string) : D (list CompiledRule) :=
  let cidrEntries := resolveExtendedCIDRs peers in
  fqdnCIDRs ← resolveFQDNPeers peers;
  resolved ← lift (resolveExtendedPorts nnpPorts);
  let identities := if (length peers =? 0)%nat then [WildcardIdentity] else resolveExtendedPeers peers namespace in
  let ports := if (length resolved =? 0)%nat then any_port else resolved in
  mret (buildIdentityRules identities fixedID ports isEgress namespace
        ++ buildCIDRRules cidrEntries fixedID ports isEgress namespace
        ++ buildFQDNCIDRRules fqdnCIDRs fixedID ports isEgress namespace).

Definition compileExtIngress (rule : NovaNetworkPolicyRule) (dstIdentity : Z) (namespace : string) : D (list CompiledRule) :=
  compileDirectionalRule (v_Peers rule) (v_Ports rule) dstIdentity false namespace.

Definition compileExtEgress (rule : NovaNetworkPolicyRule) (srcIdentity : Z) (namespace : string) : D (list CompiledRule) :=
  compileDirectionalRule (v_Peers rule) (v_Ports rule) srcIdentity true namespace.

Definition hasExtendedPolicyType (nnp : NovaNetworkPolicy) (pt : string) : bool :=
  if (length (v_PolicyTypes nnp) =? 0)%nat then String.eqb pt "Ingress"
  else bool_decide (pt ∈ v_PolicyTypes nnp).

(** The rules of one target of [CompilePolicy]. *)
Definition compile_target (nnp : NovaNetworkPolicy) (targetID : Z) : D (list CompiledRule) :=
  ingress ← (if hasExtendedPolicyType nnp "Ingress" then
               if (length (v_Ingress nnp) =? 0)%nat then
                 mret [mkCompiled WildcardIdentity targetID ProtocolAny 0 ActionDeny "" false (v_Namespace nnp)]
               else collect (fun rule => compileExtIngress rule targetID (v_Namespace nnp)) (v_Ingress nnp)
             else mret []);
  egress ← (if hasExtendedPolicyType nnp "Egress" then
              if (length (v_Egress nnp) =? 0)%nat then
                mret [mkCompiled targetID WildcardIdentity ProtocolAny 0 ActionDeny "" true (v_Namespace nnp)]
              else collect (fun rule => compileExtEgress rule targetID (v_Namespace nnp)) (v_Egress nnp)
            else mret []);
  mret (ingress ++ egress).

Definition CompileExtended (nnp : option NovaNetworkPolicy) : D (list CompiledRule) :=
  match nnp with
  | None => mret []
  | Some nnp =>
      collect (compile_target nnp) (selectorToIdentities as_selector allocated (v_Selector nnp) (v_Namespace nnp))
  end.

Definition CompileAllExtended (policies : list (option NovaNetworkPolicy)) : D (list CompiledRule) :=
  collect CompileExtended policies.

End Extended.

(** * Port ranges *)

(** The loop ends on every range that ends before 65535, with its ports. *)
Lemma expand_spec proto endPort : endPort < MaxUint16 -> forall fuel port,
  0 <= port -> (Z.to_nat (endPort - port + 1) < fuel)%nat ->
  expand fuel proto port endPort = Val (mkPP proto <$> seqZ port (endPort - port + 1)).
Proof.
  unfold MaxUint16. intros He. induction fuel as [|f IH]; intros port Hp Hf; [lia|]. cbn [expand].
  destruct (port <=? endPort) eqn:E; to_prop.
  - unfold wrap16. rewrite Z.mod_small by lia. rewrite IH by lia. unfold mbind, outcome_bind, mret, outcome_ret.
    rewrite (seqZ_cons port) by lia. cbn [fmap list_fmap]. do 4 f_equal; lia.
  - rewrite seqZ_nil by lia. done.
Qed.

(** With the end at 65535 the 16-bit variable never passes it. *)
Lemma expand_max proto fuel port : 0 <= port <= MaxUint16 -> expand fuel proto port MaxUint16 = Diverge.
Proof.
  unfold MaxUint16. revert port. induction fuel as [|f IH]; intros port Hp; [done|]. cbn [expand].
  destruct (port <=? 65535) eqn:E; to_prop; [|lia]. rewrite IH; [done|].
  unfold wrap16. pose proof (Z.mod_pos_bound (port + 1) (2 ^ 16)). lia.
Qed.

(** The expansion of a port range of at most a hundred ports ends exactly when
    the range ends before port 65535; the fuel of the model is enough then, and the
    result is the ports of the range in order.  A range up to 65535 loops for ever. *)
Theorem range_expansion_ends_iff proto a b :
  0 <= a <= b -> b <= MaxUint16 -> b - a < maxExpandablePortRange ->
  ((exists fuel l, expand fuel proto a b = Val l) <-> b < MaxUint16) /\
  (b < MaxUint16 -> expand 102 proto a b = Val (mkPP proto <$> seqZ a (b - a + 1))).
Proof.
  unfold maxExpandablePortRange. intros Hab Hb Hr. split; [split|].
  - intros (fuel & l & E). destruct (decide (b = MaxUint16)) as [->|]; [|lia].
    rewrite expand_max in E by lia. discriminate E.
  - intros H. exists 102%nat. eexists. apply expand_spec; lia.
  - intros H. apply expand_spec; lia.
Qed.

Lemma range_expansion_ends_iff_witness :
  (0 <= 8000 <= 8002 /\ 8002 <= MaxUint16 /\ 8002 - 8000 < maxExpandablePortRange) /\
  ((exists fuel l, expand fuel ProtocolTCP 8000 8002 = Val l) <-> 8002 < MaxUint16) /\
  (8002 < MaxUint16 -> expand 102 ProtocolTCP 8000 8002 = Val (mkPP ProtocolTCP <$> seqZ 8000 (8002 - 8000 + 1))).
Proof.
  unfold MaxUint16, maxExpandablePortRange. split; [lia|]. apply (range_expansion_ends_iff ProtocolTCP 8000 8002); unfold MaxUint16, maxExpandablePortRange; lia.
Defined.

Lemma land_u16 x : 0 <= x <= MaxUint16 -> Z.land x MaxUint16 = x.
Proof. unfold MaxUint16. intros H. change 65535 with (Z.ones 16). rewrite Z.land_ones by lia. apply Z.mod_small. lia. Qed.

(** Ports the compiler translates exactly: of a known protocol, no port, one, or a
    small range that ends before the last port. *)
Definition nova_port_ok (p : NovaNetworkPolicyPort) : Prop :=
  default "TCP" (v_Protocol p) ∈ ["TCP"; "UDP"; "SCTP"] /\
  match v_Port p, v_EndPort p with
  | None, _ => True
  | Some a, None => 1 <= a <= MaxUint16
  | Some a, Some b => 1 <= a <= b /\ b < MaxUint16 /\ b - a < maxExpandablePortRange
  end.

Definition nova_port_permits (p : NovaNetworkPolicyPort) (proto port : Z) : Prop :=
  protocol_is (v_Protocol p) proto /\
  match v_Port p, v_EndPort p with
  | None, _ => True
  | Some a, None => port = a
  | Some a, Some b => a <= port <= b
  end.

Lemma resolve_port_covers p :
  nova_port_ok p -> exists l, resolve_port p = Val l /\ l <> [] /\
    forall proto port, (exists pp, pp ∈ l /\ port_covers (protocol pp) (pp_port pp) proto port) <-> nova_port_permits p proto port.
Proof.
  intros [Hpr Hok]. revert Hok. unfold resolve_port, nova_port_permits. setoid_rewrite <- (port_protocol_is (v_Protocol p) _ Hpr).
  pose proof (port_protocol_nonzero (v_Protocol p)) as Hnz.
  set (pr := port_protocol (v_Protocol p)) in *.
  assert (forall q proto port, (exists pp, pp ∈ [mkPP pr q] /\ port_covers (protocol pp) (pp_port pp) proto port) <->
    pr = proto /\ (q = 0 \/ q = port)) as Hone.
  { intros q proto port. unfold port_covers. setoid_rewrite list_elem_of_singleton. split.
    - intros (pp & -> & H). cbn in H. tauto.
    - intros H. eexists. split; [reflexivity|]. cbn. tauto. }
  destruct (v_Port p) as [a|]; [destruct (v_EndPort p) as [b|]|].
  - intros (Hab & Hb & Hr). unfold MaxUint16, maxExpandablePortRange in *. rewrite !land_u16 by (unfold MaxUint16; lia).
    repeat (case_match; to_prop; try lia). eexists. split; [apply expand_spec; unfold MaxUint16; lia|]. split.
    { rewrite seqZ_cons by lia. done. }
    intros proto port. setoid_rewrite list_elem_of_fmap. unfold port_covers. split.
    + intros (pp & (q & -> & Hq%elem_of_seqZ) & Hc). cbn in Hc. split; lia.
    + intros [<- Hp]. eexists. split; [exists port; split; [reflexivity|apply elem_of_seqZ; lia]|]. cbn. tauto.
  - intros Ha. unfold MaxUint16 in *. case_match; to_prop; [lia|]. rewrite land_u16 by (unfold MaxUint16; lia).
    eexists. split; [reflexivity|]. split; [done|]. intros proto port. rewrite Hone. split; intros [? ?]; split; lia.
  - intros _. eexists. split; [reflexivity|]. split; [done|]. intros proto port. rewrite Hone. tauto.
Qed.

Lemma resolveExtendedPorts_covers ports :
  Forall nova_port_ok ports -> exists l, resolveExtendedPorts ports = Val l /\ (l = [] <-> ports = []) /\
    forall proto port, (exists pp, pp ∈ l /\ port_covers (protocol pp) (pp_port pp) proto port)
      <-> exists p, p ∈ ports /\ nova_port_permits p proto port.
Proof.
  induction 1 as [|p ports Hp _ IH]; cbn [resolveExtendedPorts].
  { exists []. split; [done|]. split; [done|]. intros proto port. split; intros (x & H & _); by apply elem_of_nil in H. }
  destruct (resolve_port_covers p Hp) as (a & Ea & Hne & Ha), IH as (b & Eb & _ & Hb).
  unfold mbind, outcome_bind. rewrite Ea, Eb. eexists. split; [reflexivity|]. split; [split; [by intros [??]%app_nil|done]|].
  intros proto port. setoid_rewrite elem_of_app. setoid_rewrite elem_of_cons. specialize (Ha proto port). specialize (Hb proto port).
  split.
  - intros (pp & [H|H] & Hc).
    + exists p. split; [by left|]. apply Ha. by exists pp.
    + destruct (proj1 Hb) as (p' & ? & ?); [by exists pp|]. exists p'. by split; [right|].
  - intros (p' & [->|H] & Hc).
    + apply Ha in Hc as (pp & ? & ?). exists pp. by split; [left|].
    + destruct (proj2 Hb) as (pp & ? & ?); [by exists p'|]. exists pp. by split; [right|].
Qed.

(** * Compilations that return *)

Section Exact.
Context {MI : MapIter} {DE : DnsEnv}.

(** The computation returns from every good cache, leaving one, with a result in [P]. *)
Definition D_ok {A} (m : D A) (P : A -> Prop) : Prop :=
  forall s, dns_inv (dnsCache s) -> exists a s', m s = Val (a, s') /\ dns_inv (dnsCache s') /\ P a.

Lemma D_ok_ret {A} (a : A) (P : A -> Prop) : P a -> D_ok (mret a) P.
Proof. intros Ha s Hs. by exists a, s. Qed.

Lemma D_ok_bind {A B} (m : D A) (f : A -> D B) P Q :
  D_ok m P -> (forall a, P a -> D_ok (f a) Q) -> D_ok (m ≫= f) Q.
Proof.
  intros Hm Hf s Hs. destruct (Hm s Hs) as (a & s1 & E & Hs1 & Ha). destruct (Hf a Ha s1 Hs1) as (b & s2 & E2 & Hs2 & Hb).
  exists b, s2. unfold mbind, D_bind, mbind, outcome_bind. by rewrite E.
Qed.

Lemma D_ok_lift {A} (m : outcome A) a (P : A -> Prop) : m = Val a -> P a -> D_ok (lift m) P.
Proof. intros -> Ha s Hs. by exists a, s. Qed.

(** What the results of a loop have in common. *)
Lemma D_ok_collect {A B Q} (f : A -> D (list B)) (l : list A) (H : Q -> B -> Prop) (R : Q -> A -> Prop) :
  (forall x, x ∈ l -> D_ok (f x) (fun bs => forall q, (exists b, b ∈ bs /\ H q b) <-> R q x)) ->
  D_ok (collect f l) (fun bs => forall q, (exists b, b ∈ bs /\ H q b) <-> exists x, x ∈ l /\ R q x).
Proof.
  induction l as [|x l IH]; intros Hf; cbn [collect].
  - apply D_ok_ret. intros q. split; intros (y & Hy & _); by apply elem_of_nil in Hy.
  - eapply D_ok_bind; [apply Hf; by left|]. intros a Ha. cbn beta in Ha.
    eapply D_ok_bind; [apply IH; intros y Hy; apply Hf; by right|]. intros b Hb. apply D_ok_ret. intros q.
    specialize (Ha q). specialize (Hb q). setoid_rewrite elem_of_app. setoid_rewrite elem_of_cons. split.
    + intros (y & [Hy|Hy] & Hh); [exists x; split; [by left|]; apply Ha; by exists y|].
      destruct (proj1 Hb) as (z & ? & ?); [by exists y|]. exists z. by split; [right|].
    + intros (y & [->|Hy] & Hr); [apply Ha in Hr as (b' & ? & ?); exists b'; by split; [left|]|].
      destruct (proj2 Hb) as (z & ? & ?); [by exists y|]. exists z. by split; [right|].
Qed.

Lemma resolve_ok fqdn : D_ok (resolve fqdn) (fun _ => True).
Proof.
  intros s Hs. unfold resolve. destruct (dns_env (lookups s)) as [[t1 t2] lookup].
  destruct (Resolve_returns fqdn t1 t2 (lookup fqdn) (dnsCache s) Hs) as (a & c & E & Hc & _).
  unfold mbind, outcome_bind. rewrite E. by eexists _, _.
Qed.

Lemma resolveFQDNPeers_ok peers : D_ok (resolveFQDNPeers peers) (Forall (fun c => c <> "")).
Proof.
  unfold resolveFQDNPeers. induction peers as [|p peers IH]; cbn [collect]; [by apply D_ok_ret|].
  eapply D_ok_bind with (P := Forall (fun c => c <> "")).
  - destruct (v_FQDN p) as [f|]; [|by apply D_ok_ret]. eapply D_ok_bind; [apply resolve_ok|]. intros ips _. apply D_ok_ret.
    apply Forall_forall. intros c (ip & -> & _)%list_elem_of_fmap. unfold host_cidr. destruct (To4 ip); by destruct (ip_string ip).
  - intros a Ha. eapply D_ok_bind; [exact IH|]. intros b Hb. apply D_ok_ret. by apply Forall_app.
Qed.

Context (as_selector : LabelSelector -> option (labels -> bool)) (namespaces : gmap string labels).
Context (allocated : list (Z * labels)) (namespaceResolver : option (LabelSelector -> list string)).

(** * What a policy says *)

(** A peer as one of a NetworkPolicy: a peer with a name stands for addresses, like
    a block. *)
Definition as_peer (p : NovaNetworkPolicyPeer) : NetworkPolicyPeer :=
  mkPeer (v_PodSelector p) (v_NamespaceSelector p)
    (match v_FQDN p with Some f => Some (mkIPBlock f []) | None => v_IPBlock p end).

Definition nova_peer_ok (ns : string) (p : NovaNetworkPolicyPeer) : Prop :=
  v_ServiceAccount p = None /\ peer_ok as_selector namespaces allocated namespaceResolver ns (as_peer p).

Definition nova_rule_ok (ns : string) (r : NovaNetworkPolicyRule) : Prop :=
  Forall (nova_peer_ok ns) (v_Peers r) /\ Forall nova_port_ok (v_Ports r).

Definition nova_rule_permits (ns : string) (r : NovaNetworkPolicyRule) (l : labels) (proto port : Z) : Prop :=
  (v_Peers r = [] \/ exists p, p ∈ v_Peers r /\ peer_admits as_selector namespaces ns (as_peer p) l) /\
  (v_Ports r = [] \/ exists p, p ∈ v_Ports r /\ nova_port_permits p proto port).

Definition nova_permits_ingress (nnp : NovaNetworkPolicy) (lsrc ldst : labels) (proto port : Z) : Prop :=
  (v_PolicyTypes nnp = [] \/ "Ingress" ∈ v_PolicyTypes nnp)
  /\ pod_namespace ldst = Some (v_Namespace nnp) /\ selects as_selector (v_Selector nnp) ldst
  /\ exists r, r ∈ v_Ingress nnp /\ nova_rule_permits (v_Namespace nnp) r lsrc proto port.

Definition nova_policy_ok (nnp : NovaNetworkPolicy) : Prop :=
  sel_ok as_selector allocated (in_namespace (v_Selector nnp) (v_Namespace nnp))
  /\ MatchLabels (v_Selector nnp) !! namespace_key = None
  /\ Forall (nova_rule_ok (v_Namespace nnp)) (v_Ingress nnp)
  /\ Forall (fun r => Forall nova_port_ok (v_Ports r)) (v_Egress nnp).

Context (Hlaws : cluster_laws as_selector namespaces).
Context (Hids : NoDup allocated.*1) (Hzero : WildcardIdentity ∉ allocated.*1).
Context (Hplaced : Forall (fun e => placed namespaces e.2) allocated).

Lemma allocated_placed i l : (i, l) ∈ allocated -> placed namespaces l.
Proof. intros H. rewrite Forall_forall in Hplaced. exact (Hplaced _ H). Qed.

Lemma nova_ingress_type nnp : hasExtendedPolicyType nnp "Ingress" = true <-> v_PolicyTypes nnp = [] \/ "Ingress" ∈ v_PolicyTypes nnp.
Proof.
  unfold hasExtendedPolicyType. destruct (v_PolicyTypes nnp) as [|x l]; [by split; [left|]|]. cbn [length Nat.eqb].
  rewrite bool_decide_eq_true. split; [by right|by intros [|]].
Qed.

Lemma resolveExtendedPeers_as ns peers :
  Forall (nova_peer_ok ns) peers ->
  resolveExtendedPeers as_selector allocated namespaceResolver peers ns
  = resolvePeers as_selector allocated namespaceResolver (as_peer <$> peers) ns.
Proof.
  induction 1 as [|p peers [Hsa _] _ IH]; [done|]. unfold resolveExtendedPeers, resolvePeers in *. cbn [fmap list_fmap].
  rewrite !bind_cons, IH. f_equal. unfold as_peer. rewrite Hsa. by destruct (v_FQDN p), (v_IPBlock p).
Qed.

Lemma cidr_rules_marked peers names fixed ports ns r :
  Forall (fun c => c <> "") names ->
  r ∈ buildCIDRRules (resolveExtendedCIDRs peers) fixed ports false ns ++ buildFQDNCIDRRules names fixed ports false ns ->
  c_CIDR r <> "".
Proof.
  intros Hn [H|H]%elem_of_app.
  - apply list_elem_of_bind in H as (e & (pp & ->%list_elem_of_singleton & _)%list_elem_of_bind & He). cbn.
    apply list_elem_of_bind in He as (peer & He & _). destruct (v_IPBlock peer); [|by apply elem_of_nil in He].
    by apply resolveIPBlockCIDRs_nonempty in He.
  - apply list_elem_of_bind in H as (c & (pp & ->%list_elem_of_singleton & _)%list_elem_of_bind & Hc). cbn.
    rewrite Forall_forall in Hn. by apply Hn.
Qed.

Lemma compileExtIngress_exact ns rule fixed :
  nova_rule_ok ns rule ->
  D_ok (compileExtIngress as_selector allocated namespaceResolver rule fixed ns) (fun rs =>
    forall src lsrc dst proto port, (src, lsrc) ∈ allocated ->
      (exists r, r ∈ rs /\ allows_ingress r src dst proto port)
      <-> fixed = dst /\ nova_rule_permits ns rule lsrc proto port).
Proof.
  intros [Hpeers Hports]. unfold compileExtIngress, compileDirectionalRule.
  destruct (resolveExtendedPorts_covers _ Hports) as (pps & Epp & Hnil & Hcov).
  eapply D_ok_bind; [apply resolveFQDNPeers_ok|]. intros names Hn.
  eapply D_ok_bind; [eapply (D_ok_lift _ pps (fun x => x = pps)); [exact Epp|done]|]. intros ? ->. apply D_ok_ret.
  intros src lsrc dst proto port Hsrc. rewrite identity_rules_exact by (intros r; by apply cidr_rules_marked).
  unfold nova_rule_permits. rewrite resolveExtendedPeers_as by done.
  assert (Forall (peer_sel_ok as_selector allocated namespaceResolver ns) (as_peer <$> v_Peers rule)) as Hlive.
  { apply Forall_fmap. eapply Forall_impl; [exact Hpeers|]. by intros p (_ & ? & _). }
  assert (forall q, q ∈ v_Peers rule -> peer_selected as_selector namespaceResolver ns (as_peer q) lsrc
    <-> peer_admits as_selector namespaces ns (as_peer q) lsrc) as Hadm.
  { intros q Hq. rewrite Forall_forall in Hpeers. destruct (Hpeers q Hq) as [_ Hpok].
    apply (peer_selected_admits as_selector namespaces allocated namespaceResolver Hlaws ns _ _ Hpok). by eapply allocated_placed. }
  pose proof (resolvePeers_permits as_selector allocated namespaceResolver Hids Hzero ns _ src lsrc Hlive Hsrc) as Hp.
  f_equiv. f_equiv.
  - destruct (v_Peers rule) as [|p ps] eqn:Ep; cbn [length Nat.eqb].
    + split; [by left|]. intros _. exists WildcardIdentity. rewrite list_elem_of_singleton. by split; [|right].
    + rewrite Hp. setoid_rewrite list_elem_of_fmap. split; [intros (? & (q & -> & ?) & ?); right; exists q; split; [done|by apply Hadm]|].
      intros [?|(q & ? & ?)]; [done|]. exists (as_peer q). split; [by exists q|by apply Hadm].
  - specialize (Hcov proto port). destruct pps as [|pp pps']; cbn [length Nat.eqb].
    + split; [intros _; left; by apply Hnil|]. intros _. exists (mkPP ProtocolAny 0).
      split; [by apply list_elem_of_singleton|by left].
    + rewrite Hcov. split; [by right|]. intros [H|H]; [apply Hnil in H; discriminate H|done].
Qed.

Lemma compileExtEgress_egress ns rule fixed :
  Forall nova_port_ok (v_Ports rule) ->
  D_ok (compileExtEgress as_selector allocated namespaceResolver rule fixed ns) (Forall (fun r => IsEgress r = true)).
Proof.
  intros Hports. unfold compileExtEgress, compileDirectionalRule.
  destruct (resolveExtendedPorts_covers _ Hports) as (pps & Epp & _).
  eapply D_ok_bind; [apply resolveFQDNPeers_ok|]. intros names _.
  eapply D_ok_bind; [eapply (D_ok_lift _ pps (fun _ => True)); [exact Epp|done]|]. intros ? _. apply D_ok_ret.
  apply Forall_forall. intros r [H|[H|H]%elem_of_app]%elem_of_app;
    by apply list_elem_of_bind in H as (x & (pp & ->%list_elem_of_singleton & _)%list_elem_of_bind & _).
Qed.

(** A pod the allocator knows, a destination, a protocol and a port. *)
Definition traffic : Type := Z * labels * Z * Z * Z.

Definition admits (q : traffic) (r : CompiledRule) : Prop :=
  let '(src, lsrc, dst, proto, port) := q in (src, lsrc) ∈ allocated /\ allows_ingress r src dst proto port.

Definition target_permits (nnp : NovaNetworkPolicy) (q : traffic) (t : Z) : Prop :=
  let '(src, lsrc, dst, proto, port) := q in
  (src, lsrc) ∈ allocated /\ hasExtendedPolicyType nnp "Ingress" = true /\ t = dst /\
  exists r, r ∈ v_Ingress nnp /\ nova_rule_permits (v_Namespace nnp) r lsrc proto port.

Lemma ingress_rules_exact nnp t :
  Forall (nova_rule_ok (v_Namespace nnp)) (v_Ingress nnp) ->
  D_ok (collect (fun rule => compileExtIngress as_selector allocated namespaceResolver rule t (v_Namespace nnp)) (v_Ingress nnp))
    (fun rs => forall q, (exists r, r ∈ rs /\ admits q r) <-> exists rule, rule ∈ v_Ingress nnp /\
      let '(src, lsrc, dst, proto, port) := q in
      (src, lsrc) ∈ allocated /\ t = dst /\ nova_rule_permits (v_Namespace nnp) rule lsrc proto port).
Proof.
  intros Hok. rewrite Forall_forall in Hok. apply (D_ok_collect _ _ admits). intros rule Hrule s Hs.
  destruct (compileExtIngress_exact _ rule t (Hok _ Hrule) s Hs) as (rs & s' & E & Hs' & Hrs).
  exists rs, s'. split; [done|]. split; [done|]. intros [[[[src lsrc] dst] proto] port]. unfold admits. split.
  - intros (r & Hr & Hsrc & Ha). split; [done|]. apply (Hrs src lsrc dst proto port Hsrc). by exists r.
  - intros (Hsrc & Hp). apply (Hrs src lsrc dst proto port Hsrc) in Hp as (r & Hr & Ha). by exists r.
Qed.

Lemma compile_target_exact nnp t :
  nova_policy_ok nnp ->
  D_ok (compile_target as_selector allocated namespaceResolver nnp t)
    (fun rs => forall q, (exists r, r ∈ rs /\ admits q r) <-> target_permits nnp q t).
Proof.
  intros (_ & _ & Hin & Heg). unfold compile_target.
  eapply D_ok_bind with (P := fun rs => forall q, (exists r, r ∈ rs /\ admits q r) <-> target_permits nnp q t).
  - unfold target_permits. destruct (hasExtendedPolicyType nnp "Ingress"); [destruct (length (v_Ingress nnp) =? 0)%nat eqn:El|].
    + apply Nat.eqb_eq, nil_length_inv in El. rewrite El. apply D_ok_ret. intros [[[[src lsrc] dst] proto] port]. split.
      * intros (r & ->%list_elem_of_singleton & _ & [Ha _]). discriminate Ha.
      * intros (_ & _ & _ & r & Hr & _). by apply elem_of_nil in Hr.
    + intros s Hs. destruct (ingress_rules_exact nnp t Hin s Hs) as (rs & s' & E & Hs' & Hrs). exists rs, s'.
      split; [done|]. split; [done|]. intros q. rewrite Hrs. destruct q as [[[[src lsrc] dst] proto] port]. naive_solver.
    + apply D_ok_ret. intros [[[[src lsrc] dst] proto] port]. split; [intros (r & Hr & _); by apply elem_of_nil in Hr|].
      by intros (_ & ? & _).
  - intros ingress Hi. eapply D_ok_bind with (P := Forall (fun r => IsEgress r = true)).
    + destruct (hasExtendedPolicyType nnp "Egress"); [destruct (length (v_Egress nnp) =? 0)%nat|].
      * apply D_ok_ret. by constructor.
      * revert Heg. induction 1 as [|r rs Hr _ IH]; cbn [collect]; [by apply D_ok_ret|].
        eapply D_ok_bind; [by apply compileExtEgress_egress|]. intros a Ha. eapply D_ok_bind; [exact IH|].
        intros b Hb. apply D_ok_ret. by apply Forall_app.
      * by apply D_ok_ret.
    + intros egress He. apply D_ok_ret. intros q. rewrite <- Hi. rewrite Forall_forall in He. split.
      * intros (r & [Hr|Hr]%elem_of_app & Ha); [by exists r|]. apply He in Hr.
        destruct q as [[[[src lsrc] dst] proto] port], Ha as (_ & _ & Ha & _). congruence.
      * intros (r & Hr & Ha). exists r. split; [apply elem_of_app; by left|done].
Qed.

End Exact.

(** C31: Compiling a NovaNetworkPolicy returns, whatever the resolver of names
    answers, and the ingress rules it yields between pods admit exactly what the policy
    says, by the meaning of NetworkPolicies with port ranges.  The selectors are as
    apimachinery documents them; the selectors of the policy, with their namespaces,
    select some allocated identity or hash to none; namespace selectors are empty, give
    just a name, or are resolved by the API server; protocols are TCP, UDP or SCTP in
    capitals; ranges have at most 100 ports and end before 65535; no peer is a service
    account.  Every allocated identity is one of a pod in a namespace of the cluster. *)
Theorem extended_policy_exact {MI : MapIter} {DE : DnsEnv} as_selector namespaces allocated namespaceResolver nnp s :
  cluster_laws as_selector namespaces -> NoDup allocated.*1 -> WildcardIdentity ∉ allocated.*1 ->
  Forall (fun e => placed namespaces e.2) allocated ->
  nova_policy_ok as_selector namespaces allocated namespaceResolver nnp -> dns_inv (dnsCache s) ->
  exists rules s', CompileExtended as_selector allocated namespaceResolver (Some nnp) s = Val (rules, s') /\
    forall src lsrc dst ldst proto port, (src, lsrc) ∈ allocated -> (dst, ldst) ∈ allocated ->
      (exists r, r ∈ rules /\ allows_ingress r src dst proto port)
      <-> nova_permits_ingress as_selector namespaces nnp lsrc ldst proto port.
Proof.
  intros Hlaws Hids Hzero Hpl Hok Hs.
  destruct (D_ok_collect (compile_target as_selector allocated namespaceResolver nnp)
    (selectorToIdentities as_selector allocated (v_Selector nnp) (v_Namespace nnp)) (admits allocated)
    (target_permits as_selector namespaces allocated nnp)) with (s := s)
    as (rules & s' & E & _ & Hr); [|done|].
  { intros t _. by apply compile_target_exact. }
  exists rules, s'. split; [exact E|]. intros src lsrc dst ldst proto port Hsrc Hdst.
  specialize (Hr (src, lsrc, dst, proto, port)). unfold admits, target_permits in Hr. destruct Hok as (Hlive & Hkey & _).
  pose proof (selectorToIdentities_ok as_selector allocated _ _ dst Hlive (known_alloc allocated dst ldst Hdst)) as Ht.
  rewrite (selected_iff as_selector allocated Hids _ dst ldst Hdst) in Ht.
  rewrite (scope_law _ _ Hlaws _ _ ldst (allocated_placed namespaces allocated Hpl dst ldst Hdst) Hkey) in Ht.
  unfold nova_permits_ingress. rewrite <- nova_ingress_type. split.
  - intros (r & Hin & Ha). destruct (proj1 Hr) as (t & Hin' & _ & Hty & -> & Hp); [by exists r|]. apply Ht in Hin' as [? ?]. done.
  - intros (Hty & Hn & Hsel & Hp). destruct (proj2 Hr) as (r & Hin & _ & Ha); [exists dst|by exists r].
    split; [by apply Ht|done].
Qed.

(** The database accepts connections of the web pods on ports 5432 to 5434, and of
    the hosts of a name. *)
Definition db_range : NovaNetworkPolicy :=
  mkNova "default" "db" (app_selector "db")
    [mkNRule [mkNPeer (Some (app_selector "web")) None None None None; mkNPeer None None None (Some "example.com") None]
             [mkNPort None (Some 5432) (Some 5434)]] [] ["Ingress"].

#[local] Instance quiet_dns : DnsEnv := fun _ => (0, 0, fun _ => Some [[192; 0; 2; 1]]).

Lemma db_range_ok : nova_policy_ok match_labels default_only pods None db_range.
Proof.
  split; [apply db_live|]. split; [done|]. split; [|constructor].
  constructor; [|constructor]. split; (constructor; [|constructor]).
  - split; [done|]. apply from_web_ok.
  - split; [done|]. by split.
  - constructor.
  - split; [left|]. cbn. unfold MaxUint16, maxExpandablePortRange. lia.
Qed.

Lemma extended_policy_exact_witness :
  exists rules s', CompileExtended (MI := iter_forward) match_labels pods None (Some db_range) NewExtendedCompiler = Val (rules, s') /\
    forall src lsrc dst ldst proto port, (src, lsrc) ∈ pods -> (dst, ldst) ∈ pods ->
      (exists r, r ∈ rules /\ allows_ingress r src dst proto port)
      <-> nova_permits_ingress match_labels default_only db_range lsrc ldst proto port.
Proof.
  apply (extended_policy_exact (MI := iter_forward) (DE := quiet_dns) match_labels default_only pods None db_range NewExtendedCompiler);
    [apply match_labels_laws|apply pods_distinct|apply pods_distinct| |apply db_range_ok|].
  - apply Forall_forall. intros e (app & -> & _)%list_elem_of_fmap. apply pod_placed.
  - split; [reflexivity|]. vm_compute. discriminate.
Defined.

(** * Compilations that do not return *)

Section Diverge.
Context {MI : MapIter} {DE : DnsEnv}.

(** The computation returns from every good cache, or does not end. *)
Definition D_safe {A} (m : D A) : Prop :=
  forall s, dns_inv (dnsCache s) -> m s = Diverge \/ exists a s', m s = Val (a, s') /\ dns_inv (dnsCache s').

Definition D_diverges {A} (m : D A) : Prop := forall s, dns_inv (dnsCache s) -> m s = Diverge.

Lemma D_ok_safe {A} (m : D A) P : D_ok m P -> D_safe m.
Proof. intros H s Hs. destruct (H s Hs) as (a & s' & E & Hs' & _). right. eauto. Qed.

Lemma D_safe_ret {A} (a : A) : D_safe (mret a).
Proof. intros s Hs. right. by exists a, s. Qed.

Lemma D_safe_bind {A B} (m : D A) (f : A -> D B) : D_safe m -> (forall a, D_safe (f a)) -> D_safe (m ≫= f).
Proof.
  intros Hm Hf s Hs. unfold mbind, D_bind, mbind, outcome_bind.
  destruct (Hm s Hs) as [->|(a & s' & -> & Hs')]; [by left|]. by apply Hf.
Qed.

Lemma D_diverges_bind {A B} (m : D A) (f : A -> D B) :
  D_diverges m \/ D_safe m /\ (forall a, D_diverges (f a)) -> D_diverges (m ≫= f).
Proof.
  intros H s Hs. unfold mbind, D_bind, mbind, outcome_bind. destruct H as [H|[Hm Hf]]; [by rewrite (H s Hs)|].
  destruct (Hm s Hs) as [->|(a & s' & -> & Hs')]; [done|]. by apply Hf.
Qed.

Lemma D_safe_collect {A B} (f : A -> D (list B)) l : (forall x, D_safe (f x)) -> D_safe (collect f l).
Proof.
  intros Hf. induction l as [|x l IH]; cbn [collect]; [apply D_safe_ret|].
  apply D_safe_bind; [done|]. intros a. apply D_safe_bind; [done|]. intros b. apply D_safe_ret.
Qed.

Lemma D_diverges_collect {A B} (f : A -> D (list B)) l x :
  (forall y, D_safe (f y)) -> x ∈ l -> D_diverges (f x) -> D_diverges (collect f l).
Proof.
  intros Hf Hx Hd. induction l as [|y l IH]; [by apply elem_of_nil in Hx|]. cbn [collect]. apply D_diverges_bind.
  apply elem_of_cons in Hx as [->|Hx]; [by left|]. right. split; [done|]. intros a. apply D_diverges_bind. left. by apply IH.
Qed.

Lemma expand_safe fuel proto a b : expand fuel proto a b <> Panic.
Proof.
  revert a. induction fuel as [|f IH]; intros a; cbn [expand]; [done|]. case_match; [|done].
  specialize (IH (wrap16 (a + 1))). unfold mbind, outcome_bind. by destruct (expand _ _ _ _).
Qed.

Lemma resolve_port_safe p : resolve_port p <> Panic.
Proof. unfold resolve_port. repeat case_match; try done. apply expand_safe. Qed.

Lemma resolveExtendedPorts_safe l : resolveExtendedPorts l <> Panic.
Proof.
  induction l as [|p l IH]; cbn [resolveExtendedPorts]; [done|]. pose proof (resolve_port_safe p).
  unfold mbind, outcome_bind. destruct (resolve_port p), (resolveExtendedPorts l); done.
Qed.

(** A small range that ends at 65535. *)
Definition top_range (p : NovaNetworkPolicyPort) : Prop :=
  exists a, v_Port p = Some a /\ v_EndPort p = Some MaxUint16 /\ MaxUint16 - maxExpandablePortRange < a <= MaxUint16.

Lemma top_range_diverges l p : p ∈ l -> top_range p -> resolveExtendedPorts l = Diverge.
Proof.
  intros Hp (a & Ea & Eb & Ha). induction l as [|q l IH]; [by apply elem_of_nil in Hp|]. cbn [resolveExtendedPorts].
  pose proof (resolve_port_safe q) as Hq. unfold mbind, outcome_bind. apply elem_of_cons in Hp as [<-|Hp].
  2:{ rewrite (IH Hp). by destruct (resolve_port q). }
  clear Hq. assert (resolve_port p = Diverge) as ->; [|done]. unfold resolve_port, maxExpandablePortRange, MaxUint16 in *. rewrite Ea, Eb.
  rewrite !land_u16 by (unfold MaxUint16; lia). repeat (case_match; to_prop; try lia). apply (expand_max _ 102). unfold MaxUint16. lia.
Qed.

Context (as_selector : LabelSelector -> option (labels -> bool)) (allocated : list (Z * labels)).
Context (namespaceResolver : option (LabelSelector -> list string)).

Lemma directional_safe peers ports fixed eg ns :
  D_safe (compileDirectionalRule as_selector allocated namespaceResolver peers ports fixed eg ns).
Proof.
  unfold compileDirectionalRule. apply D_safe_bind; [eapply D_ok_safe, resolveFQDNPeers_ok|]. intros names.
  apply D_safe_bind; [|intros a; apply D_safe_ret]. intros s Hs. pose proof (resolveExtendedPorts_safe ports).
  unfold lift, mbind, outcome_bind. destruct (resolveExtendedPorts ports) as [l| |]; [right; by eexists _, _|done|by left].
Qed.

Lemma directional_diverges peers ports fixed eg ns p :
  p ∈ ports -> top_range p -> D_diverges (compileDirectionalRule as_selector allocated namespaceResolver peers ports fixed eg ns).
Proof.
  intros Hp Ht. unfold compileDirectionalRule. apply D_diverges_bind. right.
  split; [eapply D_ok_safe, resolveFQDNPeers_ok|]. intros names. apply D_diverges_bind. left. intros s Hs.
  unfold lift, mbind, outcome_bind. by rewrite (top_range_diverges ports p Hp Ht).
Qed.

Lemma compile_target_safe nnp t : D_safe (compile_target as_selector allocated namespaceResolver nnp t).
Proof.
  unfold compile_target. apply D_safe_bind; [|intros a; apply D_safe_bind; [|intros b; apply D_safe_ret]];
    repeat case_match; try apply D_safe_ret; apply D_safe_collect; intros x; apply directional_safe.
Qed.

Lemma selectorToIdentities_nonempty sel ns : exists t, t ∈ selectorToIdentities as_selector allocated sel ns.
Proof.
  unfold selectorToIdentities. case_match; [|eexists; by apply list_elem_of_singleton].
  destruct (FindMatchingIdentities _ _) as [|t l]; [eexists; by apply list_elem_of_singleton|]. exists t. by left.
Qed.

End Diverge.

(** A NovaNetworkPolicy with the ingress type, one of whose ingress rules has a
    range of at most a hundred ports that ends at port 65535, is never compiled: the
    16-bit loop variable wraps around and the compiler loops for ever. *)
Theorem top_port_range_never_compiles {MI : MapIter} {DE : DnsEnv} as_selector allocated namespaceResolver nnp rule p s :
  hasExtendedPolicyType nnp "Ingress" = true -> rule ∈ v_Ingress nnp -> p ∈ v_Ports rule -> top_range p ->
  dns_inv (dnsCache s) ->
  CompileExtended as_selector allocated namespaceResolver (Some nnp) s = Diverge.
Proof.
  intros Hty Hrule Hp Htop Hs. cbn [CompileExtended].
  destruct (selectorToIdentities_nonempty as_selector allocated (v_Selector nnp) (v_Namespace nnp)) as [t Ht].
  apply (D_diverges_collect _ _ t); [apply compile_target_safe|done| |done]. unfold compile_target. rewrite Hty.
  apply D_diverges_bind. left. destruct (v_Ingress nnp) as [|r0 rs] eqn:Ei; [by apply elem_of_nil in Hrule|]. cbn [length Nat.eqb].
  rewrite <- Ei in *. apply (D_diverges_collect _ _ rule); [intros x; apply directional_safe|done|].
  by apply (directional_diverges _ _ _ _ _ _ _ _ p).
Qed.

(** Ephemeral ports. *)
Definition ephemeral : NovaNetworkPolicy :=
  mkNova "default" "ephemeral" (app_selector "web") [mkNRule [] [mkNPort (Some "TCP") (Some 65500) (Some 65535)]] [] [].

Lemma top_port_range_never_compiles_witness :
  CompileExtended (MI := iter_forward) match_labels pods None (Some ephemeral) NewExtendedCompiler = Diverge.
Proof.
  apply (top_port_range_never_compiles (MI := iter_forward) (DE := quiet_dns) match_labels pods None ephemeral
           (mkNRule [] [mkNPort (Some "TCP") (Some 65500) (Some 65535)]) (mkNPort (Some "TCP") (Some 65500) (Some 65535)));
    [reflexivity|left|left| |].
  - exists 65500. split; [done|]. split; [done|]. unfold MaxUint16, maxExpandablePortRange. lia.
  - split; [reflexivity|]. vm_compute. discriminate.
Defined.

(** A pod that runs under the service account, and says so in its labels, does not
    have the identity of a service account peer unless it has no other labels. *)
Lemma service_account_peer_misses_pod :
  let l : labels := <["app" := "web"]> (<["novanet.io/namespace" := "default"]> {["novanet.io/service-account" := "api"]}) in
  resolveServiceAccountPeer (mkSA "api" "") "default" <> HashLabels l.
Proof. vm_compute. discriminate. Qed.
