(* ===== verification/RoutingPolicy.v ===== *)
(** Ownership rules of the routing layer: the policy engine
    (internal/routing/policy/engine.go) and the configuration it is built from
    (internal/routing/config/config.go).  Text is compared in lower case as ASCII.
    A prefix the engine accepts lies within the owner's networks, except when it is
    an IPv4 address written as an IPv6 one. *)

From Stdlib Require Import ZArith Lia Ascii String.
From stdpp Require Import base tactics list gmap strings fin_maps.
From S2P Require Import Prelude GoStrings GoMap GoNet GoCidr.

(** * The configuration *)

(** [PrefixPolicy]; the kind of prefixes is [Type_]. *)
Record PrefixPolicy := mkPrefixPolicy { Type_ : string; AllowedCIDRs : list string }.

Record OwnerConfig := mkOwner { Token : string; AllowedPrefixes : PrefixPolicy }.

Record FRRConfig := mkFRR { SocketDir : string; ConnectTimeout : Z; RetryInterval : Z }.

(** [PeerConfig], the fields that [Validate] reads. *)
Record PeerConfig := mkPeerConfig { NeighborAddress : string; RemoteAS : Z; SourceAddress : string }.

Record BGPConfig := mkBGPConfig { LocalAS : Z; AsBase : Z; RouterID : string; AutoRouterID : bool; Peers : list PeerConfig }.

Record Config := mkConfig {
  ListenSocket : string; FRR : FRRConfig; BGP : BGPConfig; Owners : gmap string OwnerConfig; LogLevel : string;
  MetricsAddress : string; DisconnectGracePeriod : Z }.

Definition DefaultConfig : Config :=
  mkConfig "/run/novaroute/novaroute.sock" (mkFRR "/run/frr" 10 5) (mkBGPConfig 0 0 "" false []) ∅ "info" ":9100" 0.

Inductive config_error :=
| ErrListenSocketEmpty | ErrAtLeastOneOwnerRequired | ErrDisconnectGracePeriodNeg
| ErrFRRSocketDirEmpty | ErrFRRConnectTimeoutPositive | ErrFRRRetryIntervalPositive
| ErrBGPRouterIDInvalid | ErrBGPPeerNeighborEmpty | ErrBGPPeerNeighborInvalid | ErrBGPPeerRemoteASZero
| ErrBGPPeerSourceAddrInvalid | ErrOwnerTokenEmpty | ErrOwnerPrefixTypeEmpty | ErrOwnerPrefixTypeUnknown
| ErrOwnerCIDRInvalid | ErrLogLevelInvalid
| ErrAsBaseNodeIPRequired | ErrAsBaseNodeIPInvalid | ErrAsBaseOctetParse | ErrLocalASEnvInvalid.

Definition check (bad : bool) (e : config_error) (next : option config_error) : option config_error :=
  if bad then Some e else next.

(** The first error of a loop. *)
Fixpoint first_error {A} (f : A -> option config_error) (l : list A) : option config_error :=
  match l with
  | [] => None
  | x :: rest => match f x with Some e => Some e | None => first_error f rest end
  end.

Definition is_ip (s : string) : bool := match ParseIP s with Some _ => true | None => false end.
Definition is_cidr (s : string) : bool := match ParseCIDR s with Some _ => true | None => false end.
Definition nonempty (s : string) : bool := negb (String.eqb s "").

Definition validateBGPPeer (p : PeerConfig) : option config_error :=
  check (String.eqb (NeighborAddress p) "") ErrBGPPeerNeighborEmpty
  (check (negb (is_ip (NeighborAddress p))) ErrBGPPeerNeighborInvalid
  (check (RemoteAS p =? 0) ErrBGPPeerRemoteASZero
  (check (nonempty (SourceAddress p) && negb (is_ip (SourceAddress p))) ErrBGPPeerSourceAddrInvalid None))).

Definition validateOwner (o : OwnerConfig) : option config_error :=
  let t := to_lower (Type_ (AllowedPrefixes o)) in
  check (String.eqb (Token o) "") ErrOwnerTokenEmpty
  (if String.eqb t "host_only" || String.eqb t "subnet" || String.eqb t "any" then
     first_error (fun c => if is_cidr c then None else Some ErrOwnerCIDRInvalid) (AllowedCIDRs (AllowedPrefixes o))
   else if String.eqb t "" then Some ErrOwnerPrefixTypeEmpty
   else Some ErrOwnerPrefixTypeUnknown).

Section Validate.
Context {MI : MapIter}.

Definition validateOwners (owners : gmap string OwnerConfig) : option config_error :=
  check (size owners =? 0)%nat ErrAtLeastOneOwnerRequired (first_error (fun o => validateOwner o.2) (iter owners)).

Definition Validate (cfg : Config) : option config_error :=
  let level := to_lower (LogLevel cfg) in
  check (String.eqb (ListenSocket cfg) "") ErrListenSocketEmpty
  (check (String.eqb (SocketDir (FRR cfg)) "") ErrFRRSocketDirEmpty
  (check (ConnectTimeout (FRR cfg) <=? 0) ErrFRRConnectTimeoutPositive
  (check (RetryInterval (FRR cfg) <=? 0) ErrFRRRetryIntervalPositive
  (check (nonempty (RouterID (BGP cfg)) && negb (is_ip (RouterID (BGP cfg)))) ErrBGPRouterIDInvalid
  (match first_error validateBGPPeer (Peers (BGP cfg)) with
   | Some e => Some e
   | None =>
       match validateOwners (Owners cfg) with
       | Some e => Some e
       | None =>
           check (negb (String.eqb level "debug" || String.eqb level "info" || String.eqb level "warn" || String.eqb level "error"))
             ErrLogLevelInvalid
           (check (DisconnectGracePeriod cfg <? 0) ErrDisconnectGracePeriodNeg None)
       end
   end))))).

End Validate.

(** ** Environment variables *)

(** [isShellSpecialVar] and [isAlphaNum] of package os. *)
Definition isShellSpecialVar (c : ascii) : bool :=
  str_has c "*#$@!?-0123456789".

Definition isAlphaNum (c : ascii) : bool :=
  let n := ord c in
  Ascii.eqb c "_" || ((48 <=? n) && (n <=? 57)) || ((97 <=? n) && (n <=? 122)) || ((65 <=? n) && (n <=? 90)).

Fixpoint take_name (s : string) : string * string :=
  match s with
  | EmptyString => ("", "")
  | String c r => if isAlphaNum c then let '(a, b) := take_name r in (String c a, b) else ("", s)
  end.

(** What follows a dollar sign: the variable, if there is one, and the rest of the
    text; [inr] keeps the dollar sign. *)
Definition shell_name (s : string) : (option string * string) + string :=
  match s with
  | EmptyString => inr ""
  | String c r =>
      if Ascii.eqb c "{" then
        match cut "}" r with
        | None => inl (None, r)
        | Some ("", r') => inl (None, r')
        | Some (name, r') => inl (Some name, r')
        end
      else if isShellSpecialVar c then inl (Some (String c ""), r)
      else match take_name s with
           | ("", _) => inr s
           | (name, r') => inl (Some name, r')
           end
  end.

(** [os.Expand]; every step consumes a character. *)
Fixpoint os_expand (fuel : nat) (env : string -> string) (s : string) : string :=
  match fuel with
  | O => ""
  | S f =>
      match s with
      | EmptyString => ""
      | String c r =>
          if Ascii.eqb c "$" && nonempty r then
            match shell_name r with
            | inl (None, r') => os_expand f env r'
            | inl (Some name, r') => env name +:+ os_expand f env r'
            | inr r' => String c (os_expand f env r')
            end
          else String c (os_expand f env r)
      end
  end.

Definition ExpandEnv (env : string -> string) (s : string) : string := os_expand (S (String.length s)) env s.

(** [strconv.ParseUint(s, 10, 32)]. *)
Definition parse_uint32 (s : string) : option Z :=
  match read_digits dec_val s with
  | Some (d :: l) => let n := of_digits 10 (d :: l) in if n <? 2 ^ 32 then Some n else None
  | _ => None
  end.

Definition set_bgp (f : BGPConfig -> BGPConfig) (c : Config) : Config :=
  mkConfig (ListenSocket c) (FRR c) (f (BGP c)) (Owners c) (LogLevel c) (MetricsAddress c) (DisconnectGracePeriod c).
Definition set_router_id (r : string) (b : BGPConfig) : BGPConfig := mkBGPConfig (LocalAS b) (AsBase b) r (AutoRouterID b) (Peers b).
Definition set_local_as (n : Z) (b : BGPConfig) : BGPConfig := mkBGPConfig n (AsBase b) (RouterID b) (AutoRouterID b) (Peers b).
Definition set_owners (o : gmap string OwnerConfig) (c : Config) : Config :=
  mkConfig (ListenSocket c) (FRR c) (BGP c) o (LogLevel c) (MetricsAddress c) (DisconnectGracePeriod c).

(** [ExpandEnvVars] with the environment [env], empty for unset variables. *)
Definition ExpandEnvVars (env : string -> string) (cfg : Config) : result config_error Config :=
  let cfg := set_owners ((fun o => mkOwner (ExpandEnv env (Token o)) (AllowedPrefixes o)) <$> Owners cfg) cfg in
  let cfg := set_bgp (set_router_id (ExpandEnv env (RouterID (BGP cfg)))) cfg in
  let nodeIP := env "NODE_IP" in
  let cfg := if AutoRouterID (BGP cfg) && String.eqb (RouterID (BGP cfg)) "" && nonempty nodeIP
             then set_bgp (set_router_id nodeIP) cfg else cfg in
  let per_node :=
    if 0 <? AsBase (BGP cfg) then
      if String.eqb nodeIP "" then Err ErrAsBaseNodeIPRequired
      else match split_on "." nodeIP with
           | [_; _; _; last] =>
               match parse_uint32 last with
               | None => Err ErrAsBaseOctetParse
               | Some n => Ok (set_bgp (set_local_as (wrap32 (AsBase (BGP cfg) + n))) cfg)
               end
           | _ => Err ErrAsBaseNodeIPInvalid
           end
    else Ok cfg in
  match per_node with
  | Err e => Err e
  | Ok cfg =>
      let local := env "NOVAROUTE_BGP_LOCAL_AS" in
      let overridden := if nonempty local then
                          match parse_uint32 local with
                          | None => Err ErrLocalASEnvInvalid
                          | Some n => Ok (set_bgp (set_local_as n) cfg)
                          end
                        else Ok cfg in
      match overridden with
      | Err e => Err e
      | Ok cfg =>
          let router := env "NOVAROUTE_BGP_ROUTER_ID" in
          Ok (if nonempty router then set_bgp (set_router_id router) cfg else cfg)
      end
  end.

(** * The engine *)

Definition PrefixTypeHostOnly : string := "host_only".
Definition PrefixTypeSubnet : string := "subnet".
Definition PrefixTypeAny : string := "any".
Definition adminOwner : string := "admin".

Inductive policy_error :=
| ErrUnknownOwner | ErrInvalidToken | ErrHostOnlyIPv4Policy | ErrHostOnlyIPv6Policy | ErrSubnetIPv4Policy
| ErrSubnetIPv6Policy | ErrUnknownPrefixPolicyType | ErrPrefixNotInAllowedCIDR | ErrOwnershipConflict
| ErrInvalidPrefix | ErrInvalidAllowedCIDR.

(** [Engine] without its logger: the owners of its configuration. *)
Abbreviation Engine := (gmap string OwnerConfig).

Definition NewEngine (owners : gmap string OwnerConfig) : Engine := owners.

Definition ValidateToken (e : Engine) (owner token : string) : result policy_error unit :=
  match e !! owner with
  | None => Err ErrUnknownOwner
  | Some o => if negb (String.eqb (Token o) token) then Err ErrInvalidToken else Ok tt
  end.

Fixpoint validateAllowedCIDRs (ip : IP) (ipNet : IPNet) (allowed : list string) : result policy_error unit :=
  match allowed with
  | [] => Err ErrPrefixNotInAllowedCIDR
  | c :: rest =>
      match ParseCIDR c with
      | None => Err ErrInvalidAllowedCIDR
      | Some (_, allowedNet) =>
          if Contains allowedNet ip && ((mask_size (net_mask allowedNet)).1 <=? (mask_size (net_mask ipNet)).1)
          then Ok tt
          else validateAllowedCIDRs ip ipNet rest
      end
  end.

(** The check of the length of the prefix against the kind of the policy. *)
Definition check_type (kind : string) (isIPv4 : bool) (ones bits : Z) : result policy_error unit :=
  if String.eqb kind PrefixTypeHostOnly then
    if isIPv4 && negb (ones =? 32) then Err ErrHostOnlyIPv4Policy
    else if negb isIPv4 && negb (ones =? 128) then Err ErrHostOnlyIPv6Policy
    else Ok tt
  else if String.eqb kind PrefixTypeSubnet then
    if isIPv4 then if (ones <? 8) || (28 <? ones) then Err ErrSubnetIPv4Policy else Ok tt
    else if ones =? bits then Err ErrSubnetIPv6Policy else Ok tt
  else if String.eqb kind PrefixTypeAny then Ok tt
  else Err ErrUnknownPrefixPolicyType.

Definition ValidatePrefix (e : Engine) (owner prefix : string) : result policy_error unit :=
  match e !! owner with
  | None => Err ErrUnknownOwner
  | Some o =>
      match ParseCIDR prefix with
      | None => Err ErrInvalidPrefix
      | Some (ip, ipNet) =>
          let '(ones, bits) := mask_size (net_mask ipNet) in
          let isIPv4 := match To4 ip with Some _ => true | None => false end in
          match check_type (to_lower (Type_ (AllowedPrefixes o))) isIPv4 ones bits with
          | Err err => Err err
          | Ok _ =>
              if (0 <? length (AllowedCIDRs (AllowedPrefixes o)))%nat
              then validateAllowedCIDRs ip ipNet (AllowedCIDRs (AllowedPrefixes o))
              else Ok tt
          end
      end
  end.

Definition known_owner (e : Engine) (owner : string) : result policy_error unit :=
  match e !! owner with None => Err ErrUnknownOwner | Some _ => Ok tt end.

Definition ValidatePeerOperation := known_owner.
Definition ValidateBFDOperation := known_owner.
Definition ValidateOSPFOperation := known_owner.

Definition CheckConflict (owner existingOwner : string) : result policy_error unit :=
  if String.eqb existingOwner "" || String.eqb existingOwner owner then Ok tt
  else if String.eqb owner adminOwner then Ok tt
  else Err ErrOwnershipConflict.

(** * Expansion *)

Lemma cut_length c s a b : cut c s = Some (a, b) -> (String.length b < String.length s)%nat.
Proof.
  revert a b. induction s as [|d s IH]; intros a b; cbn; [done|]. destruct (Ascii.eqb d c); [intros; simplify_eq; lia|].
  destruct (cut c s) as [[x y]|]; [|done]. intros; simplify_eq. specialize (IH x b eq_refl). lia.
Qed.

Lemma take_name_length s a b : take_name s = (a, b) -> (String.length b <= String.length s)%nat /\ (a <> "" -> String.length b < String.length s)%nat.
Proof.
  revert a b. induction s as [|d s IH]; intros a b; cbn; [intros; simplify_eq; done|].
  destruct (isAlphaNum d); [|intros; simplify_eq; cbn; split; [lia|done]].
  destruct (take_name s) as [x y]. intros; simplify_eq. destruct (IH x b eq_refl). split; [lia|]. intros _. lia.
Qed.

Lemma shell_name_length s :
  match shell_name s with
  | inl (_, r) => (String.length r <= String.length s)%nat
  | inr r => r = s
  end.
Proof.
  destruct s as [|c r]; [done|]. unfold shell_name. destruct (Ascii.eqb c "{").
  - destruct (cut "}" r) as [[name r']|] eqn:E; [apply cut_length in E|cbn; lia]. destruct name; cbn; lia.
  - destruct (isShellSpecialVar c); [cbn; lia|]. destruct (take_name (String c r)) as [name r'] eqn:E.
    apply take_name_length in E as [H _]. destruct name; [done|exact H].
Qed.

(** The fuel of [ExpandEnv] is enough. *)
Lemma os_expand_fuel env f1 f2 s :
  (String.length s < f1)%nat -> (String.length s < f2)%nat -> os_expand f1 env s = os_expand f2 env s.
Proof.
  revert f2 s. induction f1 as [|f1 IH]; intros f2 s H1 H2; [lia|]. destruct f2 as [|f2]; [lia|]. cbn [os_expand].
  destruct s as [|c r]; [done|]. cbn [String.length] in *. pose proof (shell_name_length r) as Hl.
  destruct (Ascii.eqb c "$" && nonempty r); [|f_equal; apply IH; lia].
  destruct (shell_name r) as [[[name|] r']|r']; [f_equal| |f_equal]; apply IH; subst; lia.
Qed.

(** Text without a dollar sign stays as it is. *)
Lemma ExpandEnv_plain env s : lacks "$" s -> ExpandEnv env s = s.
Proof.
  unfold ExpandEnv, lacks. generalize (Nat.lt_succ_diag_r (String.length s)). generalize (S (String.length s)) as f.
  induction s as [|c s IH]; intros f Hf Hl; (destruct f as [|f]; [lia|]); [done|]. cbn [os_expand].
  cbn [str_all] in Hl. apply andb_true_iff in Hl as [Hc Hl]. apply negb_true_iff in Hc. rewrite Hc. cbn [andb].
  f_equal. apply IH; [cbn in Hf; lia|done].
Qed.

(** * What the engine accepts *)

Lemma validateAllowedCIDRs_Ok ip n l :
  validateAllowedCIDRs ip n l = Ok tt ->
  exists c aip a, c ∈ l /\ ParseCIDR c = Some (aip, a) /\ Contains a ip = true /\
    (mask_size (net_mask a)).1 <= (mask_size (net_mask n)).1.
Proof.
  induction l as [|c l IH]; cbn [validateAllowedCIDRs]; [done|]. destruct (ParseCIDR c) as [[aip a]|] eqn:E; [|done].
  destruct (Contains a ip && _) eqn:Ec.
  - intros _. apply andb_true_iff in Ec as [? ?]. to_prop. exists c, aip, a. split; [left|]. done.
  - intros H. destruct (IH H) as (c' & aip' & a' & ? & ?). exists c', aip', a'. split; [by right|done].
Qed.

Lemma ValidatePrefix_Ok e owner prefix :
  ValidatePrefix e owner prefix = Ok tt <->
  exists o ip n, e !! owner = Some o /\ ParseCIDR prefix = Some (ip, n) /\
    check_type (to_lower (Type_ (AllowedPrefixes o))) (match To4 ip with Some _ => true | None => false end)
      (mask_size (net_mask n)).1 (mask_size (net_mask n)).2 = Ok tt /\
    (AllowedCIDRs (AllowedPrefixes o) = [] \/ validateAllowedCIDRs ip n (AllowedCIDRs (AllowedPrefixes o)) = Ok tt).
Proof.
  unfold ValidatePrefix. split.
  - destruct (e !! owner) as [o|]; [|done]. destruct (ParseCIDR prefix) as [[ip n]|]; [|done].
    destruct (mask_size (net_mask n)) as [ones bits] eqn:Em. destruct (check_type _ _ _ _) as [[]|] eqn:Ec; [|done].
    intros H. exists o, ip, n. rewrite Em. split; [done|]. split; [done|]. split; [done|].
    destruct (AllowedCIDRs (AllowedPrefixes o)); [by left|by right].
  - intros (o & ip & n & -> & -> & Hc & Ha). destruct (mask_size (net_mask n)). cbn [fst snd] in Hc. rewrite Hc.
    destruct Ha as [->|Ha]; [done|]. by destruct (AllowedCIDRs (AllowedPrefixes o)).
Qed.

(** The prefix is written in the notation of its own family. *)
Definition own_notation (prefix : string) : Prop :=
  forall ip n, ParseCIDR prefix = Some (ip, n) -> length (net_mask n) = 4%nat \/ To4 ip = None.

(** When an owner is restricted to a list of networks, a prefix that the engine
    accepts lies within one of them: every address of the prefix is an address of
    that network.  The prefix is not an IPv4 address in IPv6 notation. *)
Theorem accepted_prefix_within e owner o prefix ip n :
  e !! owner = Some o -> AllowedCIDRs (AllowedPrefixes o) <> [] -> own_notation prefix ->
  ValidatePrefix e owner prefix = Ok tt -> ParseCIDR prefix = Some (ip, n) ->
  exists c aip a, c ∈ AllowedCIDRs (AllowedPrefixes o) /\ ParseCIDR c = Some (aip, a) /\
    forall x, wf_ip x -> Contains n x = true -> Contains a x = true.
Proof.
  intros Ho Hne Hown H Hp. apply ValidatePrefix_Ok in H as (o' & ip' & n' & Ho' & Hp' & _ & Ha).
  rewrite Ho in Ho'. injection Ho' as <-. rewrite Hp in Hp'. injection Hp' as <- <-. destruct Ha as [Ha|Ha]; [done|].
  destruct (validateAllowedCIDRs_Ok _ _ _ Ha) as (c & aip & a & Hc & Ec & Hcon & Hle). exists c, aip, a.
  split; [done|]. split; [done|]. intros x Hx Hnx.
  destruct (ParseCIDR_ok _ _ _ Hp) as (_ & ones & bits & Hok & Hsz).
  destruct (ParseCIDR_ok _ _ _ Ec) as (_ & aones & abits & Haok & Hasz).
  rewrite Hsz, Hasz in Hle. cbn in Hle. exact (network_within n ones bits a aones abits prefix ip x Hp Hok Haok (Hown _ _ Hp) Hcon Hle Hx Hnx).
Qed.

Definition tenant : OwnerConfig := mkOwner "secret" (mkPrefixPolicy "subnet" ["10.0.0.0/8"; "192.168.0.0/16"]).

Lemma accepted_prefix_within_witness :
  exists c aip a, c ∈ AllowedCIDRs (AllowedPrefixes tenant) /\ ParseCIDR c = Some (aip, a) /\
    forall x, wf_ip x -> Contains (mkIPNet [192; 168; 4; 0] [255; 255; 252; 0]) x = true -> Contains a x = true.
Proof.
  apply (accepted_prefix_within {["tenant" := tenant]} "tenant" tenant "192.168.4.0/22"
           [0; 0; 0; 0; 0; 0; 0; 0; 0; 0; 255; 255; 192; 168; 4; 0] (mkIPNet [192; 168; 4; 0] [255; 255; 252; 0]));
    [reflexivity|discriminate| |vm_compute; reflexivity|vm_compute; reflexivity].
  intros ip n H. vm_compute in H. injection H as <- <-. left. reflexivity.
Defined.

(** An owner restricted to host routes of 10.0.0.0/8 may advertise ::/32: the prefix
    is an IPv4 address for the engine and an IPv6 network for the router. *)
Theorem mapped_prefix_evades_policy :
  let hosts := mkOwner "secret" (mkPrefixPolicy "host_only" ["10.0.0.0/8"]) in
  ValidatePrefix {["tenant" := hosts]} "tenant" "::ffff:10.0.0.5/32" = Ok tt /\
  exists ip n, ParseCIDR "::ffff:10.0.0.5/32" = Some (ip, n) /\
    exists x y a, ParseIP "::1" = Some x /\ ParseIP "::2" = Some y /\ Contains n x = true /\ Contains n y = true /\
      ParseCIDR "10.0.0.0/8" = Some a /\ Contains a.2 x = false.
Proof.
  split; [vm_compute; reflexivity|]. eexists _, _. split; [vm_compute; reflexivity|].
  eexists _, _, _. do 5 (split; [vm_compute; reflexivity|]). vm_compute. reflexivity.
Qed.

(** A validated configuration leaves the engine nothing to complain about but the
    prefix. *)
Lemma first_error_None {A} (f : A -> option config_error) l : first_error f l = None -> forall x, x ∈ l -> f x = None.
Proof.
  induction l as [|y l IH]; cbn; [by intros _ x ?%elem_of_nil|]. destruct (f y) eqn:E; [done|].
  intros H x [->|Hx]%elem_of_cons; [done|by apply IH].
Qed.

Lemma Validate_owner `{MapIter} cfg owner o :
  Validate cfg = None -> Owners cfg !! owner = Some o -> validateOwner o = None.
Proof.
  unfold Validate, check. intros Hv Ho. do 5 (case_match; [done|]).
  destruct (first_error validateBGPPeer _); [done|]. destruct (validateOwners (Owners cfg)) eqn:E; [done|].
  clear Hv. unfold validateOwners, check in E. case_match; [done|]. apply (first_error_None _ _ E (owner, o)). by apply elem_of_iter.
Qed.

Lemma validateOwner_allowed o ip n err :
  validateOwner o = None -> validateAllowedCIDRs ip n (AllowedCIDRs (AllowedPrefixes o)) = Err err -> err = ErrPrefixNotInAllowedCIDR.
Proof.
  unfold validateOwner, check. cbv zeta. case_match; [done|]. case_match; [|by case_match].
  generalize (AllowedCIDRs (AllowedPrefixes o)). clear. intros l. induction l as [|c l IH]; cbn; [by intros _ [=]|].
  unfold is_cidr. destruct (ParseCIDR c) as [[aip a]|]; [|done]. intros Hl. destruct (Contains a ip && _); [done|]. by apply IH.
Qed.

(** With a validated configuration the engine refuses a prefix of a configured
    owner only for a fault of the prefix: it is malformed, has the wrong length for
    the owner's kind of prefixes, or lies outside the owner's networks. *)
Theorem validated_config_blames_prefix {MI : MapIter} cfg owner o prefix err :
  Validate cfg = None -> Owners cfg !! owner = Some o ->
  ValidatePrefix (NewEngine (Owners cfg)) owner prefix = Err err ->
  err ∈ [ErrInvalidPrefix; ErrHostOnlyIPv4Policy; ErrHostOnlyIPv6Policy; ErrSubnetIPv4Policy; ErrSubnetIPv6Policy;
         ErrPrefixNotInAllowedCIDR].
Proof.
  intros Hv Ho. pose proof (Validate_owner cfg owner o Hv Ho) as Hval. unfold ValidatePrefix, NewEngine. rewrite Ho.
  destruct (ParseCIDR prefix) as [[ip n]|]; [|intros [=<-]; left]. destruct (mask_size (net_mask n)) as [ones bits].
  destruct (check_type _ _ _ _) as [[]|err'] eqn:Ec.
  - destruct (0 <? _)%nat; [|done]. intros E. apply (validateOwner_allowed o ip n err Hval) in E as ->. set_solver.
  - intros [=->]. unfold validateOwner, check in Hval. cbv zeta in Hval. destruct (String.eqb (Token o) ""); [done|].
    unfold check_type in Ec. destruct (String.eqb_spec (to_lower (Type_ (AllowedPrefixes o))) "host_only") as [Et|];
      [rewrite Et in Ec; cbn in Ec; repeat (case_match; simplify_eq; try set_solver)|].
    destruct (String.eqb_spec (to_lower (Type_ (AllowedPrefixes o))) "subnet") as [Et|];
      [rewrite Et in Ec; cbn in Ec; repeat (case_match; simplify_eq; try set_solver)|].
    destruct (String.eqb_spec (to_lower (Type_ (AllowedPrefixes o))) "any") as [Et|]; [rewrite Et in Ec; cbn in Ec; done|].
    cbn [orb] in Hval. destruct (String.eqb _ ""); discriminate Hval.
Qed.

Definition tenants : Config := set_owners {["tenant" := tenant]} DefaultConfig.

Lemma validated_config_blames_prefix_witness :
  ErrSubnetIPv4Policy ∈ [ErrInvalidPrefix; ErrHostOnlyIPv4Policy; ErrHostOnlyIPv6Policy; ErrSubnetIPv4Policy; ErrSubnetIPv6Policy;
         ErrPrefixNotInAllowedCIDR].
Proof.
  apply (validated_config_blames_prefix (MI := iter_forward) tenants "tenant" tenant "10.0.0.1/32"); vm_compute; reflexivity.
Defined.
