(* ===== verification/DpClient.v ===== *)
(** The dataplane as the agent reaches it: calls that may be lost on the way, and
    the client of internal/dataplane/client.go, whose operations are calls of the
    handlers of Dataplane.v.  A call before [Connect] or after [Close] changes
    nothing; what a successful call writes is what the kernel programs read. *)

From Stdlib Require Import ZArith Lia Ascii String.
From stdpp Require Import base tactics list gmap strings fin_maps.
From S2P Require Import Prelude GoStrings GoMap GoNet GoCidr RustNet Constants ServiceWatcher PolicyTable EbpfMaps Dataplane.

(** * Calls of the dataplane *)

(** What becomes of a call: the daemon carries it out and answers, it never
    arrives, or it is carried out and the caller sees an error, a deadline for
    instance. *)
Inductive delivery := Delivered | Lost | LateError.

Class DpNet := dp_net : nat -> delivery.

(** The daemon's tables, and the number of calls made so far. *)
Record dpc := mkDpc { dp_tables : tables; dp_sent : nat }.

Definition rpc {DN : DpNet} (f : tables -> reply) (d : dpc) : dpc * bool :=
  let n := S (dp_sent d) in
  match dp_net (dp_sent d) with
  | Delivered => let '(t, r) := f (dp_tables d) in (mkDpc t n, match r with Ok _ => true | Err _ => false end)
  | Lost => (mkDpc (dp_tables d) n, false)
  | LateError => (mkDpc (f (dp_tables d)).1 n, false)
  end.

(** * The client *)

Inductive client_error := ErrNotConnected | ErrEmptySocketPath | ErrCall.

(** [Client]: its path, whether it has a connection, and the other end. *)
Record Client := mkClient { socketPath : string; client : bool; link : dpc }.

Definition NewClient (path : string) (d : dpc) : result client_error Client :=
  if String.eqb path "" then Err ErrEmptySocketPath else Ok (mkClient path false d).

(** [Connect]; [ok] tells whether the connection object could be made. *)
Definition Connect (ok : bool) (c : Client) : result client_error unit * Client :=
  if ok then (Ok tt, mkClient (socketPath c) true (link c)) else (Err ErrCall, c).

Definition Close (c : Client) : Client := mkClient (socketPath c) false (link c).

(** [Backend] and [ServiceConfig]. *)
Record Backend := mkLBBackend { be_Index : Z; be_IP : string; be_Port : Z; be_NodeIP : string }.

Record ServiceConfig := mkServiceConfig {
  sc_IP : string; sc_Port : Z; sc_Protocol : Z; sc_Scope : Z; sc_BackendCount : Z; sc_BackendOffset : Z;
  sc_Algorithm : Z; sc_Flags : Z; sc_AffinityTimeout : Z; sc_MaglevOffset : Z }.

Section Client.
Context {DN : DpNet}.

(** What the operations share: no connection, no call. *)
Definition call (f : tables -> reply) (c : Client) : result client_error unit * Client :=
  if client c then
    let '(d, ok) := rpc f (link c) in
    (if ok then Ok tt else Err ErrCall, mkClient (socketPath c) true d)
  else (Err ErrNotConnected, c).

Definition UpsertEndpoint (ep : UpsertEndpointRequest) := call (fun t => upsert_endpoint t ep).
Definition DeleteEndpoint (ip : string) := call (fun t => delete_endpoint t ip).
Definition UpsertPolicy (rule : PolicyEntry) := call (fun t => grpc_upsert_policy t rule).
Definition DeletePolicy (rule : PolicyEntry) := call (fun t => grpc_delete_policy t rule).
Definition UpsertTunnel (nodeIP : string) (ifidx v : Z) := call (fun t => upsert_tunnel t nodeIP ifidx v).
Definition DeleteTunnel (nodeIP : string) := call (fun t => delete_tunnel t nodeIP).

(** The entries travel as a map, which the other end iterates. *)
Definition UpdateConfig {MI : MapIter} (entries : gmap Z Z) := call (fun t => update_config t (iter entries)).

Definition UpsertSockmapEndpoint (ip : string) (port : Z) := call (fun t => upsert_sockmap_endpoint t ip port).
Definition DeleteSockmapEndpoint (ip : string) (port : Z) := call (fun t => delete_sockmap_endpoint t ip port).
Definition UpsertMeshService (ip : string) (port redirectPort : Z) := call (fun t => upsert_mesh_service t ip port redirectPort).
Definition DeleteMeshService (ip : string) (port : Z) := call (fun t => delete_mesh_service t ip port).
Definition UpdateRateLimitConfig (r b windowNs : Z) := call (fun t => update_rate_limit_config t r b windowNs).

Definition UpsertBackends (backends : list Backend) :=
  call (fun t => upsert_backends t ((fun b => mkBackend (be_Index b) (be_IP b) (be_Port b) (be_NodeIP b)) <$> backends)).

Definition UpsertServiceEntry (svc : ServiceConfig) :=
  call (fun t => upsert_service t (mkKey (sc_IP svc) (sc_Port svc) (sc_Protocol svc) (sc_Scope svc))
    (mkValue (sc_BackendCount svc) (sc_BackendOffset svc) (sc_Algorithm svc) (sc_Flags svc) (sc_AffinityTimeout svc)
       (sc_MaglevOffset svc))).

Definition UpsertEgressPolicy (p : UpsertEgressPolicyRequest) := call (fun t => upsert_egress_policy t p).
Definition DeleteEgressPolicy (srcIdentity : Z) (dstCIDR : string) (dstPrefixLen : Z) :=
  call (fun t => delete_egress_policy t srcIdentity dstCIDR dstPrefixLen).

(** * Lemmas *)

(** A call that returns without an error has been carried out. *)
Lemma rpc_true f d d' : rpc f d = (d', true) -> dp_tables d' = (f (dp_tables d)).1 /\ (f (dp_tables d)).2 = Ok tt.
Proof.
  unfold rpc. destruct (dp_net (dp_sent d)); [|by intros [= <-]..].
  destruct (f (dp_tables d)) as [t [[]|]]; intros [= <-]; done.
Qed.

Lemma call_ok f c c' :
  call f c = (Ok tt, c') ->
  client c = true /\ client c' = true /\ dp_tables (link c') = (f (dp_tables (link c))).1 /\ (f (dp_tables (link c))).2 = Ok tt.
Proof.
  unfold call. destruct (client c); [|done]. destruct (rpc f (link c)) as [d [|]] eqn:E; [|done]. intros [= <-].
  apply rpc_true in E as [? ?]. done.
Qed.

End Client.

(** The net that loses nothing. *)
#[export] Instance dp_reliable : DpNet := fun _ => Delivered.
