(* ===== verification/EgressManager.v ===== *)
(** Egress CIDR rules: the egress manager (internal/egress/manager.go) and the
    agent's SyncEgressRules (internal/agent/server.go), which copies the rules
    with a CIDR into the manager and into the dataplane's egress table.  The
    kernel's decision for traffic that leaves the cluster is shown to be that of
    the rules, with the limits the table imposes. *)

From Stdlib Require Import ZArith Lia Ascii String.
From stdpp Require Import base tactics list gmap strings fin_maps.
From S2P Require Import Prelude GoStrings GoMap GoNet GoCidr GoUtf8 GoText RustNet Constants Identity PolicyTable.
From S2P Require Import DpClient.
From S2P Require Import EbpfMaps EbpfHelpers Dataplane PolicyCompiler PolicyEnforcement.

(** * The manager *)

Record Rule := mkEgressRule {
  Name : string; e_SrcIdentity : Z; DstCIDR : string; e_Protocol : Z; e_DstPort : Z; e_Action : Z }.

Record CompiledEgressRule := mkCompiledEgress {
  ce_Namespace : string; ce_Name : string; ce_SrcIdentity : Z; ce_DstCIDR : IPNet;
  ce_Protocol : Z; ce_DstPort : Z; ce_Action : Z }.

(** [Manager], without its mutex and logger. *)
Record Manager := mkEgressManager {
  nodeIP : IP; clusterCIDR : option IPNet; masquerade : bool; rules : gmap string CompiledEgressRule }.

Definition NewManager (ip : IP) (cluster : option IPNet) : Manager := mkEgressManager ip cluster true ∅.

Definition set_rules (r : gmap string CompiledEgressRule) (m : Manager) : Manager :=
  mkEgressManager (nodeIP m) (clusterCIDR m) (masquerade m) r.

Definition SetMasqueradeEnabled (enabled : bool) (m : Manager) : Manager :=
  mkEgressManager (nodeIP m) (clusterCIDR m) enabled (rules m).

Definition IsMasqueradeEnabled (m : Manager) : bool := masquerade m.

Definition ruleKey (namespace name : string) : string := namespace +:+ "/" +:+ name.

(** The error is that of [net.ParseCIDR]. *)
Definition AddEgressRule (namespace : string) (r : Rule) (m : Manager) : result unit unit * Manager :=
  match ParseCIDR (DstCIDR r) with
  | None => (Err tt, m)
  | Some (_, cidr) =>
      (Ok tt, set_rules (<[ruleKey namespace (Name r) :=
                 mkCompiledEgress namespace (Name r) (e_SrcIdentity r) cidr (e_Protocol r) (e_DstPort r) (e_Action r)]>
                 (rules m)) m)
  end.

Definition RemoveEgressRule (namespace name : string) (m : Manager) : Manager :=
  set_rules (delete (ruleKey namespace name) (rules m)) m.

Definition GetRules {MI : MapIter} (m : Manager) : list CompiledEgressRule := iter_values (rules m).

Definition GetRule (namespace name : string) (m : Manager) : option CompiledEgressRule :=
  rules m !! ruleKey namespace name.

Definition Count (m : Manager) : Z := Z.of_nat (size (rules m)).

(** * SyncEgressRules *)

Record EgressMapKey := mkEgressMapKey { m_SrcIdentity : Z; m_DstCidr : string; m_DstPrefixLen : Z }.

#[export] Instance EgressMapKey_eq_dec : EqDecision EgressMapKey.
Proof. solve_decision. Defined.
#[export] Instance EgressMapKey_countable : Countable EgressMapKey.
Proof.
  refine (inj_countable' (fun k => (m_SrcIdentity k, m_DstCidr k, m_DstPrefixLen k))
            (fun '(a, b, c) => mkEgressMapKey a b c) _). by intros [].
Defined.

(** [IPMask.String] and [IPNet.String]. *)
Definition hex_byte (b : Z) : string := fmt_x (b / 16) +:+ fmt_x (b mod 16).
Definition mask_string (m : list Z) : string :=
  if (length m =? 0)%nat then "<nil>" else join "" (hex_byte <$> m).
Definition net_string (n : IPNet) : string :=
  match net_number n with
  | None => "<nil>"
  | Some (nn, m) =>
      let l := mask_length m in
      ip_string nn +:+ "/" +:+ if l =? -1 then mask_string m else fmt_d l
  end.

Definition EGRESS_ACTION_DENY : Z := 0.
Definition EGRESS_ACTION_ALLOW : Z := 1.
Definition pb_egress_action (r : CompiledRule) : Z :=
  if Action r =? ActionAllow then EGRESS_ACTION_ALLOW else EGRESS_ACTION_DENY.

(** What the function works on: the manager, the keys of the last call, the keys
    of this one, and the dataplane. *)
Record sync_state := mkSync { s_mgr : Manager; s_new : gmap EgressMapKey bool; s_dp : dpc }.

Definition cidr_key (src : Z) (n : IPNet) : EgressMapKey :=
  mkEgressMapKey src (net_string n) (mask_size (net_mask n)).1.

Section Sync.
Context {DN : DpNet} {MI : MapIter} (NodeIP : IP).

(** One turn of the loop over the rules. *)
Definition sync_rule (i : Z) (r : CompiledRule) (s : sync_state) : sync_state :=
  if String.eqb (c_CIDR r) "" then s
  else
    match ParseCIDR (c_CIDR r) with
    | None => s
    | Some (_, cidrNet) =>
        let ones := (mask_size (net_mask cidrNet)).1 in
        let cidrStr := net_string cidrNet in
        let action := pb_egress_action r in
        let key := mkEgressMapKey (SrcIdentity r) cidrStr ones in
        let mgr := (AddEgressRule (c_Namespace r)
          (mkEgressRule ("np-cidr-" +:+ fmt_d i) (SrcIdentity r) (c_CIDR r) (Protocol r) (DstPort r) action)
          (s_mgr s)).2 in
        let snatIPStr := if IsMasqueradeEnabled mgr then ip_string NodeIP else "" in
        let '(dp, _) := rpc (fun t => upsert_egress_policy t
          (mkEgressReq (wire_identity (SrcIdentity r)) cidrStr ones action snatIPStr)) (s_dp s) in
        mkSync mgr (<[key := true]> (s_new s)) dp
    end.

Fixpoint sync_loop (i : Z) (l : list CompiledRule) (s : sync_state) : sync_state :=
  match l with
  | [] => s
  | r :: rest => sync_loop (i + 1) rest (sync_rule i r s)
  end.

(** The loop over the keys of the last call. *)
Fixpoint delete_stale (new : gmap EgressMapKey bool) (old : list (EgressMapKey * bool)) (d : dpc) : dpc :=
  match old with
  | [] => d
  | (k, _) :: rest =>
      delete_stale new rest
        (if default false (new !! k) then d
         else (rpc (fun t => delete_egress_policy t (wire_identity (m_SrcIdentity k)) (m_DstCidr k) (m_DstPrefixLen k))
                 d).1)
  end.

(** The loop over the manager's rules. *)
Fixpoint prune (new : gmap EgressMapKey bool) (l : list CompiledEgressRule) (m : Manager) : Manager :=
  match l with
  | [] => m
  | e :: rest =>
      prune new rest
        (if default false (new !! cidr_key (ce_SrcIdentity e) (ce_DstCIDR e)) then m
         else RemoveEgressRule (ce_Namespace e) (ce_Name e) m)
  end.

(** The manager, the keys to remember and the dataplane after the call, when the
    agent has a manager and is connected. *)
Definition SyncEgressRules (l : list CompiledRule) (m : Manager) (prev : gmap EgressMapKey bool) (d : dpc)
    : Manager * gmap EgressMapKey bool * dpc :=
  let s := sync_loop 0 l (mkSync m ∅ d) in
  let d' := delete_stale (s_new s) (iter prev) (s_dp s) in
  (prune (s_new s) (GetRules (s_mgr s)) (s_mgr s), s_new s, d').

End Sync.

(** * Networks in requests *)

(** A rule whose CIDR is an IPv4 network, and that network. *)
Definition rule_net (r : CompiledRule) : option IPNet :=
  if String.eqb (c_CIDR r) "" then None else snd <$> ParseCIDR (c_CIDR r).

Definition net_v4 (n : IPNet) : Prop := exists ones, cidr_ok n ones 32.

Definition v4_rule (r : CompiledRule) : Prop :=
  c_CIDR r = "" \/ exists ip n, ParseCIDR (c_CIDR r) = Some (ip, n) /\ length (net_ip n) = 4%nat.

(** The key under which the daemon files a network. *)
Definition wire_key (src : Z) (n : IPNet) : EgressKey :=
  mkEgressKey (wire_identity src) (ip_val (net_ip n)) (mask_size (net_mask n)).1.

Lemma v4_rule_net r :
  v4_rule r -> match rule_net r with Some n => net_v4 n | None => c_CIDR r = "" end.
Proof.
  unfold rule_net. intros [->|(ip & n & E & Hl)]; [done|].
  destruct (String.eqb_spec (c_CIDR r) "") as [|_]; [done|]. rewrite E. cbn.
  apply ParseCIDR_ok in E as (_ & ones & bits & Hok & _). exists ones.
  assert (bits = 32) as <- by (rewrite (cidr_bits _ _ _ Hok), Hl; done). done.
Qed.

Lemma net_v4_facts n :
  net_v4 n -> exists ones, length (net_ip n) = 4%nat /\ Forall is_byte (net_ip n) /\
    mask_size (net_mask n) = (ones, 32) /\ 0 <= ones <= 32 /\
    net_string n = fmt_ipv4 (net_ip n) +:+ "/" +:+ fmt_d ones.
Proof.
  intros [ones H]. exists ones. pose proof (cidr_mask_size _ _ _ H) as Hs.
  destruct H as [Hb Hl Hby Ho Hm _]. assert (length (net_ip n) = 4%nat) as Hl4 by lia.
  split_and!; try done; try lia. unfold net_string.
  assert (net_number n = Some (net_ip n, net_mask n)) as ->.
  { unfold net_number. rewrite To4_len4 by done. unfold go_len. by rewrite Hm, mask_bytes_length, Hl4. }
  rewrite Hm, mask_length_mask_bytes by lia. unfold ip_string. rewrite To4_len4 by done.
  unfold go_len. rewrite Hl4. destruct (ones =? -1) eqn:E; to_prop; [lia|done].
Qed.

Lemma fmt_ipv4_lacks_slash ip : Forall is_byte ip -> lacks "/" (fmt_ipv4 ip).
Proof.
  intros H. unfold fmt_ipv4. apply join_lacks; [done|]. by apply fmt_d_fields_lack.
Qed.

Lemma net_string_address n :
  net_v4 n -> parse_ip (cidr_address (net_string n)) = Some (V4 (ip_val (net_ip n))).
Proof.
  intros (ones & Hl & Hb & _ & _ & ->)%net_v4_facts. unfold cidr_address.
  change ("/" +:+ fmt_d ones) with (String "/" (fmt_d ones)).
  rewrite cut_app by by apply fmt_ipv4_lacks_slash. by apply parse_ip_fmt.
Qed.

(** Networks with one key in the kernel have one key in the agent. *)
Lemma wire_key_inj src1 n1 src2 n2 :
  net_v4 n1 -> net_v4 n2 -> (wire_identity src1 = wire_identity src2 -> src1 = src2) ->
  wire_key src1 n1 = wire_key src2 n2 -> cidr_key src1 n1 = cidr_key src2 n2.
Proof.
  intros H1 H2 Hs [= E1 E2 E3]. apply Hs in E1 as ->.
  destruct (net_v4_facts n1 H1) as (o1 & L1 & B1 & M1 & _ & S1).
  destruct (net_v4_facts n2 H2) as (o2 & L2 & B2 & M2 & _ & S2).
  unfold cidr_key. rewrite S1, S2. rewrite M1, M2 in E3 |- *. cbn in E3. subst o2.
  apply ip_val_inj in E2; [|done..|congruence]. by rewrite E2.
Qed.

(** * What a synchronisation leaves *)

Definition rule_wire (r : CompiledRule) : option EgressKey := wire_key (SrcIdentity r) <$> rule_net r.

(** The last rule for a key: the one that stays in the table. *)
Definition last_rule (l : list CompiledRule) (k : EgressKey) : option CompiledRule :=
  last (filter (fun r => rule_wire r = Some k) l).

Definition rule_value (node : Z) (r : CompiledRule) : EgressValue :=
  mkEgressValue (egress_action (pb_egress_action r)) node.

Definition egress_write (node : Z) (e : gmap EgressKey EgressValue) (r : CompiledRule) : gmap EgressKey EgressValue :=
  match rule_wire r with Some k => <[k := rule_value node r]> e | None => e end.

Definition note_key (new : gmap EgressMapKey bool) (r : CompiledRule) : gmap EgressMapKey bool :=
  match rule_net r with Some n => <[cidr_key (SrcIdentity r) n := true]> new | None => new end.

(** The table holds what the remembered keys name. *)
Definition mirrors (t : tables) (prev : gmap EgressMapKey bool) : Prop :=
  (forall key b, prev !! key = Some b -> exists src n, net_v4 n /\ key = cidr_key src n) /\
  (forall k, is_Some (EGRESS_POLICIES t !! k) -> exists src n b,
     net_v4 n /\ prev !! cidr_key src n = Some b /\ k = wire_key src n).

Lemma last_rule_snoc l r k :
  last_rule (l ++ [r]) k = if decide (rule_wire r = Some k) then Some r else last_rule l k.
Proof.
  unfold last_rule. rewrite filter_app. case_decide as H.
  - by rewrite filter_cons_True, filter_nil, last_snoc.
  - by rewrite filter_cons_False, filter_nil, app_nil_r.
Qed.

Lemma last_rule_elem l k r : last_rule l k = Some r -> r ∈ l /\ rule_wire r = Some k.
Proof. intros H%last_Some_elem_of. by apply list_elem_of_filter in H as [? ?]. Qed.

Lemma last_rule_None l k : last_rule l k = None -> forall r, r ∈ l -> rule_wire r <> Some k.
Proof.
  intros H%last_None r Hr E. assert (r ∈ filter (fun r => rule_wire r = Some k) l) as Hf
    by by apply list_elem_of_filter. rewrite H in Hf. by apply elem_of_nil in Hf.
Qed.

Lemma writes_lookup node l e k :
  foldl (egress_write node) e l !! k =
  match last_rule l k with Some r => Some (rule_value node r) | None => e !! k end.
Proof.
  induction l as [|r l IH] using rev_ind; [done|]. rewrite foldl_app, last_rule_snoc. cbn.
  unfold egress_write at 1. destruct (rule_wire r) as [k'|] eqn:E.
  - case_decide as H; simplify_eq; [by rewrite lookup_insert_eq|]. by rewrite lookup_insert_ne by congruence.
  - by rewrite decide_False.
Qed.

Lemma writes_size node l e : (size (foldl (egress_write node) e l) <= size e + length l)%nat.
Proof.
  revert e. induction l as [|r l IH]; intros e; cbn; [lia|]. etrans; [apply IH|].
  assert (size (egress_write node e r) <= S (size e))%nat; [|lia].
  unfold egress_write. destruct (rule_wire r) as [k|]; [|lia]. rewrite map_size_insert. destruct (e !! k); cbn; unfold id; lia.
Qed.

Lemma notes_lookup l new key :
  is_Some (foldl note_key new l !! key) <->
  is_Some (new !! key) \/ exists r n, r ∈ l /\ rule_net r = Some n /\ key = cidr_key (SrcIdentity r) n.
Proof.
  revert new. induction l as [|r l IH]; intros new; cbn.
  - split; [by left|]. intros [|(r & n & H & _)]; [done|]. by apply elem_of_nil in H.
  - rewrite IH. unfold note_key. setoid_rewrite elem_of_cons. destruct (rule_net r) as [n|] eqn:E.
    + rewrite lookup_insert_is_Some'. naive_solver.
    + naive_solver.
Qed.

Lemma notes_true l new key b :
  (forall b, new !! key = Some b -> b = true) -> foldl note_key new l !! key = Some b -> b = true.
Proof.
  revert new. induction l as [|r l IH]; intros new H; cbn; [apply H|]. apply IH. intros b'.
  unfold note_key. destruct (rule_net r); [|apply H]. rewrite lookup_insert_Some. naive_solver.
Qed.

Lemma parse_ip_string ip p4 : wf_ip ip -> To4 ip = Some p4 -> parse_ip (ip_string ip) = Some (V4 (ip_val p4)).
Proof.
  intros Hw H4. destruct (To4_spec ip p4 Hw H4) as (Hl & Hb & _). unfold ip_string. rewrite H4.
  destruct (go_len ip =? 0) eqn:E; [|by apply parse_ip_fmt].
  exfalso. destruct Hw as [[Hlen|Hlen] _]; unfold go_len in E; to_prop; lia.
Qed.

Lemma wrap8_ones n : net_v4 n -> wrap8 (mask_size (net_mask n)).1 = (mask_size (net_mask n)).1.
Proof.
  intros (ones & _ & _ & -> & Ho & _)%net_v4_facts. cbn. unfold wrap8. apply Z.mod_small. lia.
Qed.

Lemma set_EGRESS_same t : set_EGRESS t (EGRESS_POLICIES t) = t.
Proof. by destruct t. Qed.

Section Sync_spec.
Context {DN : DpNet} {MI : MapIter} (NodeIP p4 : IP).
Context (Hnet : forall k, dp_net k = Delivered) (Hnode : wf_ip NodeIP) (H4 : To4 NodeIP = Some p4).
Let node : Z := ip_val p4.

Lemma rpc_delivered f d : (rpc f d).1 = mkDpc (f (dp_tables d)).1 (S (dp_sent d)).
Proof. unfold rpc. rewrite Hnet. by destruct (f (dp_tables d)). Qed.

Lemma upsert_egress_v4 t src n act :
  net_v4 n -> Z.of_nat (size (EGRESS_POLICIES t)) < MAX_EGRESS_POLICIES ->
  (upsert_egress_policy t (mkEgressReq (wire_identity src) (net_string n) (mask_size (net_mask n)).1 act
     (ip_string NodeIP))).1
  = set_EGRESS t (<[wire_key src n := mkEgressValue (egress_action act) node]> (EGRESS_POLICIES t)).
Proof.
  intros Hn Hs. unfold upsert_egress_policy. cbn [gr_dst_cidr gr_snat_ip gr_src_identity gr_prefix_len gr_action].
  rewrite (net_string_address n Hn), (parse_ip_string NodeIP p4 Hnode H4).
  rewrite wrap8_ones by done. unfold hash_insert. change (mkEgressKey _ _ _) with (wire_key src n).
  destruct (EGRESS_POLICIES t !! wire_key src n); [done|]. by rewrite (proj2 (Z.ltb_lt _ _)).
Qed.

Lemma sync_rule_v4 i r s :
  v4_rule r -> masquerade (s_mgr s) = true ->
  Z.of_nat (size (EGRESS_POLICIES (dp_tables (s_dp s)))) < MAX_EGRESS_POLICIES ->
  let s' := sync_rule NodeIP i r s in
  let t := dp_tables (s_dp s) in
  dp_tables (s_dp s') = set_EGRESS t (egress_write node (EGRESS_POLICIES t) r) /\
  masquerade (s_mgr s') = true /\ s_new s' = note_key (s_new s) r.
Proof.
  intros Hv Hm Hs. apply v4_rule_net in Hv. unfold sync_rule, egress_write, note_key, rule_wire, rule_net in *.
  destruct (String.eqb (c_CIDR r) ""); [by rewrite set_EGRESS_same|].
  destruct (ParseCIDR (c_CIDR r)) as [[ip n]|] eqn:E; [|cbn; by rewrite set_EGRESS_same].
  cbn [fmap option_fmap option_map snd] in *. unfold AddEgressRule, IsMasqueradeEnabled. cbn [DstCIDR].
  rewrite E. cbn [snd set_rules masquerade]. rewrite Hm.
  match goal with |- context [rpc ?f ?d] => pose proof (rpc_delivered f d) as Hr; destruct (rpc f d) as [dp ok] end.
  cbn in Hr. subst dp. cbn [s_dp s_mgr s_new dp_tables masquerade set_rules]. split; [|done].
  by rewrite upsert_egress_v4.
Qed.

Lemma sync_loop_v4 i l s :
  Forall v4_rule l -> masquerade (s_mgr s) = true ->
  Z.of_nat (size (EGRESS_POLICIES (dp_tables (s_dp s))) + length l) <= MAX_EGRESS_POLICIES ->
  let s' := sync_loop NodeIP i l s in
  let t := dp_tables (s_dp s) in
  dp_tables (s_dp s') = set_EGRESS t (foldl (egress_write node) (EGRESS_POLICIES t) l) /\
  s_new s' = foldl note_key (s_new s) l.
Proof.
  intros Hl. revert i s. induction Hl as [|r l Hr Hl IH]; intros i s Hm Hs; cbn.
  { by rewrite set_EGRESS_same. }
  cbn [length] in Hs. destruct (sync_rule_v4 i r s Hr Hm ltac:(lia)) as (Ht & Hm' & Hn).
  destruct (IH (i + 1) (sync_rule NodeIP i r s) Hm') as [H1 H2].
  { rewrite Ht. cbn [EGRESS_POLICIES set_EGRESS]. pose proof (writes_size node [r] (EGRESS_POLICIES (dp_tables (s_dp s)))) as Hz.
    cbn in Hz. lia. }
  rewrite H1, H2, Ht, Hn. done.
Qed.

Lemma delete_egress_v4 t src n :
  net_v4 n ->
  (delete_egress_policy t (wire_identity src) (net_string n) (mask_size (net_mask n)).1).1
  = set_EGRESS t (delete (wire_key src n) (EGRESS_POLICIES t)).
Proof.
  intros Hn. unfold delete_egress_policy. rewrite net_string_address, wrap8_ones by done.
  change (mkEgressKey _ _ _) with (wire_key src n). unfold hash_remove.
  destruct (EGRESS_POLICIES t !! wire_key src n) eqn:El; [done|]. cbn. by rewrite delete_id, set_EGRESS_same.
Qed.

(** The keys that a pass of [delete_stale] takes out. *)
Definition wire_of (key : EgressMapKey) : EgressKey :=
  mkEgressKey (wire_identity (m_SrcIdentity key))
    (match parse_ip (cidr_address (m_DstCidr key)) with Some (V4 a) => a | _ => 0 end) (m_DstPrefixLen key).

Definition stale_keys (new : gmap EgressMapKey bool) (old : list (EgressMapKey * bool)) : list EgressKey :=
  kb ← old; if default false (new !! kb.1) then [] else [wire_of kb.1].

Lemma wire_of_cidr_key src n : net_v4 n -> wire_of (cidr_key src n) = wire_key src n.
Proof. intros Hn. unfold wire_of, cidr_key. cbn. by rewrite net_string_address. Qed.

Lemma delete_stale_spec new old d :
  (forall key b, (key, b) ∈ old -> exists src n, net_v4 n /\ key = cidr_key src n) ->
  exists e, dp_tables (delete_stale new old d) = set_EGRESS (dp_tables d) e /\
    forall k, e !! k = if decide (k ∈ stale_keys new old) then None else EGRESS_POLICIES (dp_tables d) !! k.
Proof.
  revert d. induction old as [|[key b] old IH]; intros d Hold; cbn [delete_stale].
  { exists (EGRESS_POLICIES (dp_tables d)). by rewrite set_EGRESS_same. }
  destruct (Hold key b ltac:(by left)) as (src & n & Hn & ->).
  specialize (fun d => IH d (fun key b H => Hold key b (list_elem_of_further _ _ _ H))).
  unfold stale_keys. rewrite bind_cons. fold (stale_keys new old). cbn [fst].
  destruct (default false (new !! cidr_key src n)) eqn:E; [apply IH|].
  destruct (IH (rpc (fun t => delete_egress_policy t (wire_identity src) (net_string n) (mask_size (net_mask n)).1) d).1)
    as (e & He & Hk).
  exists e. rewrite rpc_delivered in He, Hk. cbn [dp_tables] in He, Hk. rewrite delete_egress_v4 in He, Hk by done.
  cbn [EGRESS_POLICIES set_EGRESS] in Hk. split.
  { rewrite rpc_delivered. cbn [m_SrcIdentity m_DstCidr m_DstPrefixLen cidr_key]. rewrite delete_egress_v4 by done.
    exact He. }
  intros k. rewrite Hk, wire_of_cidr_key by done.
  destruct (decide (k = wire_key src n)) as [->|Hne].
  - rewrite lookup_delete_eq, (decide_True (P := _ ∈ [_] ++ _)) by by left. by case_decide.
  - rewrite lookup_delete_ne by done. cbn [app].
    destruct (decide (k ∈ stale_keys new old)).
    + by rewrite decide_True by by right.
    + rewrite decide_False; [done|]. by intros [?|?]%elem_of_cons.
Qed.

(** The table after a synchronisation that follows another: for each key the last
    rule decides, and nothing is left of rules that are gone.  The identities in
    use are taken to differ in their low 32 bits. *)
Lemma sync_exact l m prev d (P : Z -> Prop) :
  (forall a b, P a -> P b -> wire_identity a = wire_identity b -> a = b) ->
  Forall (fun r => P (SrcIdentity r)) l -> map_Forall (fun k _ => P (m_SrcIdentity k)) prev ->
  Forall v4_rule l -> masquerade m = true -> mirrors (dp_tables d) prev ->
  Z.of_nat (size (EGRESS_POLICIES (dp_tables d)) + length l) <= MAX_EGRESS_POLICIES ->
  let '(m', prev', d') := SyncEgressRules NodeIP l m prev d in
  exists e, dp_tables d' = set_EGRESS (dp_tables d) e /\
    (forall k, e !! k = rule_value node <$> last_rule l k) /\
    (forall key, is_Some (prev' !! key) <->
       exists r n, r ∈ l /\ rule_net r = Some n /\ key = cidr_key (SrcIdentity r) n).
Proof.
  intros Hinj Hl Hp Hv Hm [Hprev Hmir] Hs. unfold SyncEgressRules.
  destruct (sync_loop_v4 0 l (mkSync m ∅ d) Hv Hm Hs) as [Ht Hn]. cbn [s_dp s_new] in Ht, Hn.
  set (s := sync_loop NodeIP 0 l (mkSync m ∅ d)) in *.
  destruct (delete_stale_spec (s_new s) (iter prev) (s_dp s)) as (e & He & Hk).
  { intros key b Hin%elem_of_iter. by eapply Hprev. }
  exists e. rewrite He, Ht. split; [done|]. split.
  2:{ intros key. rewrite Hn, notes_lookup, lookup_empty. split; [intros [[? ?]|]; done|by right]. }
  intros k. rewrite Hk, Ht. cbn [EGRESS_POLICIES set_EGRESS]. rewrite writes_lookup.
  assert (forall key, default false (s_new s !! key) = true <->
    exists r n, r ∈ l /\ rule_net r = Some n /\ key = cidr_key (SrcIdentity r) n) as Hnew.
  { intros key. pose proof (notes_lookup l ∅ key) as Hx. rewrite <- Hn, lookup_empty in Hx.
    assert (forall b, s_new s !! key = Some b -> b = true) as Htrue
      by (intros b; rewrite Hn; apply notes_true; intros b'; by rewrite lookup_empty).
    destruct (s_new s !! key) as [b|]; cbn.
    - rewrite (Htrue b) by done. split; [|done]. intros _. destruct Hx as [Hx _]. destruct Hx as [[? ?]|]; done.
    - split; [done|]. intros H. destruct Hx as [_ Hx]. destruct Hx as [? ?]; [by right|done]. }
  rewrite Forall_forall in Hl, Hv.
  assert (forall src n b r n', prev !! cidr_key src n = Some b -> net_v4 n -> r ∈ l -> rule_net r = Some n' ->
    wire_key src n = wire_key (SrcIdentity r) n' -> cidr_key src n = cidr_key (SrcIdentity r) n') as Hkey.
  { intros src n b r n' Hb Hn4 Hr Hrn E. pose proof (v4_rule_net r (Hv _ Hr)) as Hv4. rewrite Hrn in Hv4.
    apply wire_key_inj; [done|done| |done]. apply Hinj; [exact (Hp _ _ Hb)|by apply Hl]. }
  destruct (last_rule l k) as [r|] eqn:El.
  - apply last_rule_elem in El as [Hr Hw]. unfold rule_wire in Hw.
    apply fmap_Some in Hw as (n & Hrn & ->). rewrite decide_False; [done|].
    intros ([key b] & Hin & Hb%elem_of_iter)%list_elem_of_bind. cbn in Hin.
    destruct (Hprev key b Hb) as (src & n0 & Hn0 & ->).
    destruct (default false (s_new s !! cidr_key src n0)) eqn:Ed; [by apply elem_of_nil in Hin|].
    apply list_elem_of_singleton in Hin. rewrite wire_of_cidr_key in Hin by done.
    rewrite (proj2 (Hnew (cidr_key src n0))) in Ed; [done|]. exists r, n. split_and!; try done.
    by eapply Hkey.
  - cbn. case_decide as Hst; [done|]. destruct (EGRESS_POLICIES (dp_tables d) !! k) as [v|] eqn:Ev; [|done].
    destruct (Hmir k ltac:(eauto)) as (src & n & b & Hn4 & Hb & ->). exfalso. apply Hst, list_elem_of_bind.
    exists (cidr_key src n, b). cbn. split; [|by apply elem_of_iter].
    destruct (default false (s_new s !! cidr_key src n)) eqn:Ed.
    + apply Hnew in Ed as (r & n' & Hr & Hrn & E). exfalso. apply (last_rule_None _ _ El r Hr).
      unfold rule_wire. rewrite Hrn. cbn. f_equal.
      pose proof (v4_rule_net r (Hv _ Hr)) as Hv4. rewrite Hrn in Hv4.
      by rewrite <- !wire_of_cidr_key, E.
    + rewrite wire_of_cidr_key by done. by left.
Qed.
End Sync_spec.

(** * The kernel's decision *)

(** The decision the rules make for a destination outside the cluster: the last
    rule for the longest of the given prefixes that has one. *)
Fixpoint rules_decide (l : list CompiledRule) (src dst : Z) (plens : list Z) : bool :=
  match plens with
  | [] => true
  | plen :: rest =>
      match last_rule l (mkEgressKey src (Z.land dst (prefix_mask plen)) plen) with
      | Some r => Action r =? ActionAllow
      | None => rules_decide l src dst rest
      end
  end.

Lemma check_prefixes_rules t l node src dst plens :
  (forall k, EGRESS_POLICIES t !! k = rule_value node <$> last_rule l k) ->
  check_prefixes t src dst plens = (rules_decide l src dst plens, 0).
Proof.
  intros H. induction plens as [|p plens IH]; [done|]. cbn [check_prefixes rules_decide]. rewrite H.
  destruct (last_rule l _) as [r|]; [|done]. cbn. unfold pb_egress_action.
  by destruct (Action r =? ActionAllow).
Qed.

(** C16: Egress CIDR rules are enforced as synchronised.  If the table holds what
    the last synchronisation left, the calls arrive, masquerading is on, the
    CIDRs are IPv4 and the identities in use differ in 32 bits, then after
    [SyncEgressRules] the kernel lets a packet to an address outside the cluster
    pass exactly if the last rule for the longest prefix among /32, /24, /16, /8
    and /0 that has a rule allows it, or none has; rules that are gone have no
    effect, and the table is again what the remembered keys name. *)
Theorem egress_rules_enforced (DN : DpNet) (MI : MapIter) NodeIP p4 l m prev d (P : Z -> Prop) :
  (forall k, dp_net k = Delivered) -> wf_ip NodeIP -> To4 NodeIP = Some p4 ->
  (forall a b, P a -> P b -> wire_identity a = wire_identity b -> a = b) ->
  Forall (fun r => P (SrcIdentity r)) l -> map_Forall (fun k _ => P (m_SrcIdentity k)) prev ->
  Forall v4_rule l -> masquerade m = true -> mirrors (dp_tables d) prev ->
  Z.of_nat (size (EGRESS_POLICIES (dp_tables d)) + length l) <= MAX_EGRESS_POLICIES ->
  let '(m', prev', d') := SyncEgressRules NodeIP l m prev d in
  (forall src dst, check_egress_policy (dp_tables d') src dst = (rules_decide l src dst [32; 24; 16; 8; 0], 0)) /\
  mirrors (dp_tables d') prev'.
Proof.
  intros Hnet Hw H4 Hinj Hl Hp Hv Hm Hmir Hs.
  pose proof (sync_exact NodeIP p4 Hnet Hw H4 l m prev d P Hinj Hl Hp Hv Hm Hmir Hs) as H.
  destruct (SyncEgressRules NodeIP l m prev d) as [[m' prev'] d']. destruct H as (e & Ht & He & Hk).
  rewrite Forall_forall in Hv. split; [|split].
  - intros src dst. apply (check_prefixes_rules _ l (ip_val p4)). by rewrite Ht.
  - intros key b Hb. destruct (proj1 (Hk key)) as (r & n & Hr & Hrn & ->); [eauto|]. exists (SrcIdentity r), n.
    split; [|done]. pose proof (v4_rule_net r (Hv _ Hr)) as H. by rewrite Hrn in H.
  - intros k [v Hv']. rewrite Ht in Hv'. cbn in Hv'. rewrite He in Hv'.
    destruct (last_rule l k) as [r|] eqn:El; [|done]. apply last_rule_elem in El as [Hr Hw'].
    unfold rule_wire in Hw'. apply fmap_Some in Hw' as (n & Hrn & ->).
    destruct (proj2 (Hk (cidr_key (SrcIdentity r) n))) as [b Hb]; [eauto|]. exists (SrcIdentity r), n, b.
    split_and!; try done. pose proof (v4_rule_net r (Hv _ Hr)) as H. by rewrite Hrn in H.
Qed.

(** * Limits *)

(** Rules for one source and network differ, for the kernel, in their action only:
    protocol and port are not part of the key. *)
Lemma rule_wire_port r r' :
  SrcIdentity r = SrcIdentity r' -> c_CIDR r = c_CIDR r' -> rule_wire r = rule_wire r'.
Proof. unfold rule_wire, rule_net. by intros -> ->. Qed.

Section Ingress_cidr.
Context (as_selector : LabelSelector -> option (labels -> bool)) (allocated : list (Z * labels)).
Context (nsr : option (LabelSelector -> list string)).
Context (pr : option (string -> string -> string -> LabelSelector -> list Z)).

Definition ingress_cidr (r : CompiledRule) : Prop := c_CIDR r <> "" /\ IsEgress r = false.

#[local] Instance ingress_cidr_dec r : Decision (ingress_cidr r) := _.

Lemma compiled_ingress_cidr np r :
  r ∈ CompilePolicy as_selector allocated nsr pr np -> ingress_cidr r -> SrcIdentity r = WildcardIdentity.
Proof.
  destruct np as [np|]; [|by intros ?%elem_of_nil]. intros (id & Hr & _)%list_elem_of_bind [Hc Hi].
  apply elem_of_app in Hr as [Hr|Hr].
  - destruct (hasPolicyType np "Ingress"); [|by apply elem_of_nil in Hr].
    destruct (length (Ingress np) =? 0)%nat.
    { apply list_elem_of_singleton in Hr as ->. done. }
    apply list_elem_of_bind in Hr as (rule & Hr & _). unfold compileIngressRule in Hr.
    apply elem_of_app in Hr as [Hr|Hr].
    + apply list_elem_of_bind in Hr as (i & Hr & _). apply list_elem_of_bind in Hr as (pp & Hr & _).
      apply list_elem_of_singleton in Hr as ->. done.
    + apply list_elem_of_bind in Hr as (i & Hr & _). apply list_elem_of_bind in Hr as (pp & Hr & _).
      apply list_elem_of_singleton in Hr as ->. done.
  - destruct (hasPolicyType np "Egress"); [|by apply elem_of_nil in Hr].
    destruct (length (Egress np) =? 0)%nat.
    { apply list_elem_of_singleton in Hr as ->. done. }
    apply list_elem_of_bind in Hr as (rule & Hr & _). unfold compileEgressRule in Hr.
    apply elem_of_app in Hr as [Hr|Hr];
      (apply list_elem_of_bind in Hr as (i & Hr & _); apply list_elem_of_bind in Hr as (pp & Hr & _);
       apply list_elem_of_singleton in Hr as ->; done).
Qed.

(** Ingress rules with an IP block have no effect.  Of the rules compiled from
    any set of policies, taking away those that admit or refuse sources by CIDR
    changes neither the entries of the policy table nor the decision of the
    egress table for any identity: [OnPolicyChange] skips them, and
    [SyncEgressRules] files them as egress rules of identity 0. *)
Theorem ingress_cidr_rules_ignored pols src dst :
  src <> 0 ->
  let l := CompileAll as_selector allocated nsr pr pols in
  let l' := filter (fun r => ~ ingress_cidr r) l in
  policy_entries l = policy_entries l' /\
  rules_decide l src dst [32; 24; 16; 8; 0] = rules_decide l' src dst [32; 24; 16; 8; 0].
Proof.
  intros Hsrc l l'. assert (forall r, r ∈ l -> ingress_cidr r -> SrcIdentity r = WildcardIdentity) as Hl.
  { intros r (np & Hr & _)%list_elem_of_bind. by eapply compiled_ingress_cidr. }
  subst l'. clearbody l. split.
  - unfold policy_entries. clear Hl. induction l as [|r l IH]; [done|]. rewrite bind_cons, filter_cons.
    case_decide as H.
    + by rewrite bind_cons, IH.
    + rewrite IH. destruct H as [H _]. apply String.eqb_neq in H. by rewrite H.
  - generalize [32; 24; 16; 8; 0]. intros plens. induction plens as [|p plens IH]; [done|]. cbn [rules_decide].
    rewrite IH. set (k := mkEgressKey _ _ p). enough (last_rule l k = last_rule (filter (fun r => ~ ingress_cidr r) l) k) as -> by done.
    unfold last_rule. f_equal. clear IH. induction l as [|r l IHl]; [done|].
    rewrite (filter_cons (fun r => ~ ingress_cidr r)).
    case_decide as H; [rewrite !(filter_cons (fun r => rule_wire r = Some k)), IHl; [done|]; intros; apply Hl; [by right|done]|].
    rewrite filter_cons_False; [apply IHl; intros; apply Hl; [by right|done]|].
    unfold rule_wire. intros (n & _ & E)%fmap_Some. injection E as E _ _.
    rewrite (Hl r) in E by (by left || done). by cbn in E.
Qed.
End Ingress_cidr.

(** * Examples *)

(** A policy that lets the pods of "db" be reached from one network only. *)
Definition db_from_block : NetworkPolicy :=
  mkPolicy "default" "db-block" (app_selector "db")
    [mkRule [mkPeer None None (Some (mkIPBlock "10.1.0.0/16" []))] []] [] ["Ingress"].

Lemma ingress_cidr_rules_ignored_witness :
  let l := compile [db_from_block] in
  (exists r, r ∈ l /\ ingress_cidr r) /\
  policy_entries l = policy_entries (filter (fun r => ~ ingress_cidr r) l) /\
  rules_decide l 7 167837697 [32; 24; 16; 8; 0]
  = rules_decide (filter (fun r => ~ ingress_cidr r) l) 7 167837697 [32; 24; 16; 8; 0].
Proof.
  split; [|exact (ingress_cidr_rules_ignored match_labels pods None None [Some db_from_block] 7 167837697 ltac:(done))].
  eexists. split; [left|]. split; done.
Defined.


(** A pod that may reach 10.0.0.0/8 but for 10.1.0.0/16. *)
Definition web_to_block : list CompiledRule :=
  [mkCompiled 7 0 0 0 ActionAllow "10.0.0.0/8" true "default"; mkCompiled 7 0 0 0 ActionDeny "10.1.0.0/16" true "default"].

Lemma egress_rules_enforced_witness :
  let '(m', prev', d') := SyncEgressRules (MI := iter_forward) [192; 168; 0; 1] web_to_block
                            (NewManager [192; 168; 0; 1] None) ∅ (mkDpc empty_tables 0) in
  check_egress_policy (dp_tables d') 7 167837697 = (false, 0).
Proof.
  pose proof (egress_rules_enforced dp_reliable iter_forward [192; 168; 0; 1] [192; 168; 0; 1] web_to_block
    (NewManager [192; 168; 0; 1] None) ∅ (mkDpc empty_tables 0) (fun a => a = 7)) as H.
  destruct (SyncEgressRules _ _ _ _ _) as [[m' prev'] d'].
  destruct H as [H _]; [done| |done|by intros a b -> -> | | | | | |vm_compute; done|].
  - split; [by left|]. repeat (constructor; [unfold is_byte; lia|]). constructor.
  - by repeat constructor.
  - apply map_Forall_empty.
  - repeat (apply Forall_cons; split; [right; eexists _, _; split; vm_compute; reflexivity|]). apply Forall_nil_2.
  - done.
  - split; [intros key b H; by rewrite lookup_empty in H|]. intros k [v H]. cbn in H. by rewrite lookup_empty in H.
  - rewrite H. vm_compute. reflexivity.
Defined.
