(* ===== verification/AgentProps.v ===== *)
(** Properties of the agent's control service: the invariant of its calls, what
    AddPod and DelPod do to addresses, identities and the dataplane's endpoint
    table, and which histories lose addresses. *)

From Stdlib Require Import ZArith Lia Ascii String.
From stdpp Require Import base tactics list gmap strings fin_maps.
From S2P Require Import Prelude GoStrings GoMap GoNet GoCidr GoSha256 RustNet Constants IpamIndex.
From S2P Require Import IpamAllocator Identity PolicyTable EbpfMaps EbpfHelpers Dataplane PolicyCompiler.
From S2P Require Import DpClient.
From S2P Require Import PolicyEnforcement EgressManager AgentServer.

(** * The components' promises *)

(** An address that is held and not one of the allocator's own. *)
Definition taken (a : IpamAllocator.Allocator) (x : Z) : Prop :=
  x ∈ held a /\ ~ reserved a (x - lo_addr a).

Lemma Allocate_spec a f w :
  IpamAllocator.inv a ->
  exists a' f' r, IpamAllocator.Allocate a f w = Val (a', f', r) /\ IpamAllocator.inv a' /\ frame a a' /\
    match r with
    | Ok ip => wf_ip ip /\ (addr16 ip ∉ held a) /\ taken a' (addr16 ip) /\ held a' = {[addr16 ip]} ∪ held a
    | Err _ => held a' = held a
    end.
Proof.
  intros Hi. destruct (Allocate_sim a f w Hi) as (a' & f' & r & E & Hi' & Hf & Hs & _). unfold step in E.
  destruct (IpamAllocator.Allocate a f w) as [[[a1 f1] r1]| |] eqn:Ea; try done.
  unfold mbind, outcome_bind, with_response in E. injection E as -> -> Er.
  exists a', f', r1. split; [done|]. split; [done|]. split; [done|].
  destruct r1 as [ip|e]; subst r; inversion Hs; subst; try done.
  match goal with H : in_net _ _ _ |- _ => destruct H as [Hw Hr] end.
  match goal with H : addr16 ip ∉ held a |- _ => rename H into Hfree end. assert (held a' = {[addr16 ip]} ∪ held a) as Hh by congruence.
  split; [done|]. split; [done|]. split; [|done]. split.
  - rewrite Hh. set_solver.
  - destruct (frame_net _ _ Hf) as (Hlo & _). rewrite (reserved_frame _ _ _ Hf), Hlo.
    intros Hres%(inv_reserved _ Hi). apply Hfree. by apply elem_of_held.
Qed.

Lemma Release_spec a f ip rm :
  IpamAllocator.inv a -> wf_ip ip -> taken a (addr16 ip) ->
  exists a' f', Release a f ip rm = Val (a', f', Ok tt) /\ IpamAllocator.inv a' /\ frame a a' /\
    held a' = held a ∖ {[addr16 ip]}.
Proof.
  intros Hi Hw [Hh Hn]. destruct (Release_sim a f ip rm Hi (proj2 Hw)) as (a' & f' & r & E & Hi' & Hf & Hs & _).
  destruct (held_address a _ Hi Hh) as (ip' & [_ Hr'] & Ha').
  assert (in_net (lo_addr a) (a_size a) ip) as Hin by (split; [done|lia]). unfold step in E.
  destruct (Release a f ip rm) as [[[a1 f1] r1]| |] eqn:Ea; try done.
  unfold mbind, outcome_bind, with_response in E. injection E as -> -> Er.
  assert (r = Ok None /\ held a' = held a ∖ {[addr16 ip]}) as [-> Hheld].
  { unfold reserved in Hn. inversion Hs; subst; try done; exfalso; apply Hn.
    - left. lia.
    - right. split; [done|]. left. lia.
    - right. split; [done|]. right. lia. }
  exists a', f'. by destruct r1 as [[]|].
Qed.

Lemma taken_frame a a' x : frame a a' -> x ∈ held a' -> ~ reserved a (x - lo_addr a) -> taken a' x.
Proof.
  intros Hf Hx Hn. split; [done|]. destruct (frame_net _ _ Hf) as (Hlo & _). by rewrite (reserved_frame _ _ _ Hf), Hlo.
Qed.

Lemma Gateway_returns a : IpamAllocator.inv a -> exists ip, Gateway a = Val ip.
Proof.
  intros Hi. destruct (free_addr a 1 Hi) as (ip & E & _); [pose proof (inv_min _ Hi); lia|]. by exists ip.
Qed.

(** The addresses of an IPv4 allocator are IPv4. *)
Lemma v4_address a ip :
  IpamAllocator.inv a -> isIPv4 a = true -> wf_ip ip -> addr16 ip ∈ held a -> exists p4, To4 ip = Some p4.
Proof.
  intros Hi Hv Hw Hh. destruct (To4 ip) as [p4|] eqn:E; [by exists p4|]. exfalso.
  apply (To4_None_block ip Hw) in E. apply E. destruct (held_address a _ Hi Hh) as (ip' & [_ Hr] & Ha).
  rewrite Ha in Hr. pose proof (inv_cidr _ Hi) as Hc. pose proof (inv_v4 _ Hi) as H4. rewrite Hv in H4. symmetry in H4. to_prop.
  assert (length (net_ip (network a)) = 4%nat) as Hl by (pose proof (inv_len _ Hi) as H; unfold go_len in H; lia).
  unfold lo_addr in Hr. rewrite (inv_base _ Hi), (addr16_4 _ Hl), (inv_size _ Hi), H4 in Hr.
  pose proof (ip_val_range _ (cidr_bytes _ _ _ Hc)) as Hrange. rewrite Hl in Hrange.
  destruct (cidr_aligned _ _ _ Hc) as [q Hq]. rewrite H4 in Hq. pose proof (cidr_ones _ _ _ Hc) as Ho. rewrite H4 in Ho.
  set (h := 8 * 4 - prefixLen a) in *. assert (2 ^ 32 = 2 ^ (32 - h) * 2 ^ h) as Hp by (rewrite <- Z.pow_add_r by lia; f_equal; lia).
  assert (0 < 2 ^ h) by (apply Z.pow_pos_nonneg; lia).
  change (8 * Z.of_nat 4) with 32 in Hrange. rewrite Hp in Hrange.
  assert (q < 2 ^ (32 - h)) by (apply (Z.mul_lt_mono_pos_r (2 ^ h)); lia).
  assert (ip_val (net_ip (network a)) + 2 ^ h <= 2 ^ 32) by (rewrite Hp, Hq; nia).
  unfold v4_base in Hr. symmetry. apply (Z.div_unique _ _ _ (addr16 ip - 65535 * 2 ^ 32)); lia.
Qed.

(** Addresses with one printed form are one address. *)
Lemma same_string ip1 ip2 p4 :
  wf_ip ip1 -> wf_ip ip2 -> ip_string ip1 = ip_string ip2 -> To4 ip2 = Some p4 ->
  addr16 ip1 = addr16 ip2 /\ To4 ip1 = Some p4.
Proof.
  intros H1 H2 E H4. pose proof (ParseIP_ip_string ip1 H1) as E1. rewrite E, ParseIP_ip_string in E1 by done.
  assert (addr16 ip1 = addr16 ip2) as Ha by (unfold addr16; congruence). split; [done|].
  pose proof (To4_Some_block ip2 p4 H2 H4) as Hb. destruct (To4 ip1) as [q4|] eqn:E4.
  - apply (addr16_To4 _ _ H1) in E4 as A1. apply (addr16_To4 _ _ H2) in H4 as A2. f_equal.
    destruct (To4_spec _ _ H1 E4) as (L1 & B1 & _). destruct (To4_spec _ _ H2 H4) as (L2 & B2 & _).
    apply ip_val_inj; [done|done|congruence|lia].
  - apply (To4_None_block _ H1) in E4. by rewrite Ha in E4.
Qed.

(** * Policy synchronisation leaves the rest alone *)

(** The parts of the server that only CNI calls change. *)
Definition same_pods (s s' : Server) : Prop :=
  IPAlloc s' = IPAlloc s /\ fs s' = fs s /\ IDAlloc s' = IDAlloc s /\ Endpoints s' = Endpoints s /\
  k8s s' = k8s s /\ NodeIP s' = NodeIP s /\ connected s' = connected s /\ store s' = store s.

Definition same_endpoints (d d' : dpc) : Prop := ENDPOINTS (dp_tables d') = ENDPOINTS (dp_tables d).

Lemma rpc_keeps {DN : DpNet} f d :
  (forall t, ENDPOINTS (f t).1 = ENDPOINTS t) -> same_endpoints d (rpc f d).1.
Proof.
  intros H. unfold rpc, same_endpoints. destruct (dp_net _); cbn; [|done|apply H].
  specialize (H (dp_tables d)). by destruct (f (dp_tables d)).
Qed.

Lemma upsert_egress_keeps t req : ENDPOINTS (upsert_egress_policy t req).1 = ENDPOINTS t.
Proof.
  unfold upsert_egress_policy, commit. by repeat case_match.
Qed.

Lemma delete_egress_keeps t a b c : ENDPOINTS (delete_egress_policy t a b c).1 = ENDPOINTS t.
Proof. unfold delete_egress_policy, commit. by repeat case_match. Qed.

Section Keeps.
Context {DN : DpNet} {MI : MapIter}.

Lemma sync_rule_keeps node i r st : same_endpoints (s_dp st) (s_dp (sync_rule node i r st)).
Proof.
  unfold sync_rule. destruct (String.eqb _ _); [done|]. destruct (ParseCIDR _) as [[? n]|]; [|done].
  match goal with |- context [rpc ?f ?d] => pose proof (rpc_keeps f d (fun t => upsert_egress_keeps t _)) as H;
    destruct (rpc f d) end. exact H.
Qed.

Lemma sync_loop_keeps node i l st : same_endpoints (s_dp st) (s_dp (sync_loop node i l st)).
Proof.
  revert i st. induction l as [|r l IH]; intros i st; [done|]. cbn. unfold same_endpoints in *.
  rewrite IH. apply sync_rule_keeps.
Qed.

Lemma delete_stale_keeps new old d : same_endpoints d (delete_stale new old d).
Proof.
  revert d. induction old as [|[k b] old IH]; intros d; [done|]. cbn. unfold same_endpoints in *. rewrite IH.
  case_match; [done|]. apply rpc_keeps. intros t. apply delete_egress_keeps.
Qed.

Lemma SyncEgressRules_keeps node l m prev d :
  same_endpoints d (SyncEgressRules node l m prev d).2.
Proof.
  unfold SyncEgressRules. cbn. unfold same_endpoints. rewrite delete_stale_keeps, sync_loop_keeps. done.
Qed.

Context (as_selector : LabelSelector -> option (labels -> bool)).
Context (nsr : option (LabelSelector -> list string)).
Context (pr : option (string -> string -> string -> LabelSelector -> list Z)).

Lemma OnPolicyChange_keeps rules s :
  same_pods s (OnPolicyChange rules s) /\ same_endpoints (dp s) (dp (OnPolicyChange rules s)).
Proof.
  unfold OnPolicyChange. cbn [connected set_policy]. destruct (connected s); [|done]. cbn [negb].
  match goal with |- context [rpc ?f ?d] => pose proof (rpc_keeps f d) as H; destruct (rpc f d) as [d' ok] end.
  cbn in H. assert (same_endpoints (dp s) d') as Hd.
  { apply H. intros t. unfold dp_sync_policies. by destruct (sync_rules _ _). }
  destruct ok; cbn [negb]; [|done]. cbn [EgressMgr set_policy]. destruct (EgressMgr s) as [m|]; [|done].
  match goal with |- context [SyncEgressRules ?a ?b ?c ?d ?e] =>
    pose proof (SyncEgressRules_keeps a b c d e) as Hs; destruct (SyncEgressRules a b c d e) as [[m' prev'] d''] end.
  split; [done|]. unfold same_endpoints in *. cbn in *. congruence.
Qed.

Lemma Recompile_keeps s :
  same_pods s (Recompile as_selector nsr pr s) /\ same_endpoints (dp s) (dp (Recompile as_selector nsr pr s)).
Proof. unfold Recompile. destruct (store s); [apply OnPolicyChange_keeps|done]. Qed.
End Keeps.

(** * The two calls *)

(** The number of references to an identity. *)
Definition refs (a : Identity.Allocator) (id : Z) : Z :=
  match view a !! id with Some (_, n) => n | None => 0 end.

Lemma spec_alloc_refs a a' lbls id :
  spec_alloc (view a) lbls id (view a') -> forall i, refs a' i = refs a i + (if decide (i = id) then 1 else 0).
Proof.
  unfold refs. intros H i. inversion H as [id' l n Hid Hc E1 E2|id' Hid Hc Hu E1 E2]; subst.
  - destruct (decide (i = id)) as [->|]; [rewrite lookup_insert_eq, Hid; done|].
    rewrite lookup_insert_ne by done. lia.
  - destruct (decide (i = id)) as [->|]; [rewrite lookup_insert_eq, Hid; done|].
    rewrite lookup_insert_ne by done. lia.
Qed.

Lemma refs_pos a id l n : Identity.inv a -> view a !! id = Some (l, n) -> 1 <= n.
Proof.
  intros Hi. rewrite view_lookup. destruct (idToLabels a !! id), (refCount a !! id) eqn:E; try done.
  intros [= <- <-]. by eapply inv_pos.
Qed.

Lemma RemoveIdentity_refs a id :
  Identity.inv a -> forall i, refs (RemoveIdentity a id) i = if decide (i = id) then Z.max 0 (refs a i - 1) else refs a i.
Proof.
  intros Hi i. unfold refs. destruct (RemoveIdentity_sim a id Hi) as [_ ->]. unfold spec_remove.
  destruct (view a !! id) as [[l n]|] eqn:E.
  - pose proof (refs_pos a id l n Hi E). destruct (n <=? 1) eqn:En; to_prop; destruct (decide (i = id)) as [->|].
    + rewrite lookup_delete_eq, E. lia.
    + by rewrite lookup_delete_ne.
    + rewrite lookup_insert_eq, E. lia.
    + by rewrite lookup_insert_ne.
  - destruct (decide (i = id)) as [->|]; [by rewrite E|done].
Qed.

(** What a call may do to addresses and identities without giving or taking. *)
Definition neutral (s s' : Server) : Prop :=
  IpamAllocator.inv (IPAlloc s') /\ frame (IPAlloc s) (IPAlloc s') /\ held (IPAlloc s') = held (IPAlloc s) /\
  IDAlloc s' = IDAlloc s /\ Endpoints s' = Endpoints s /\ dp s' = dp s.

(** The endpoint that a successful [AddPod] records. *)
Definition new_endpoint (req : AddPodRequest) (podIP : IP) (ifindex id : Z) : Endpoint :=
  mkEndpoint (a_PodName req) (a_PodNamespace req) (a_ContainerId req) podIP (GenerateMAC podIP)
    (wrap32 ifindex) id (a_Netns req) (a_IfName req) ("nv" +:+ substring 0 11 (a_ContainerId req)).

Definition added (s s' : Server) (req : AddPodRequest) (e : call_env) (podIP : IP) (id : Z) : Prop :=
  exists ifindex, e_setup e = Some ifindex /\
  wf_ip podIP /\ (addr16 podIP ∉ held (IPAlloc s)) /\ taken (IPAlloc s') (addr16 podIP) /\
  IpamAllocator.inv (IPAlloc s') /\ frame (IPAlloc s) (IPAlloc s') /\
  held (IPAlloc s') = {[addr16 podIP]} ∪ held (IPAlloc s) /\
  AllocateIdentity (S (size (idToLabels (IDAlloc s)))) (IDAlloc s) (pod_labels s req e) = Val (IDAlloc s', id) /\
  Endpoints s' = <[podKey (a_PodNamespace req) (a_PodName req) := new_endpoint req podIP ifindex id]> (Endpoints s).

Section Calls.
Context {DN : DpNet} {MI : MapIter}.
Context (as_selector : LabelSelector -> option (labels -> bool)).
Context (nsr : option (LabelSelector -> list string)).
Context (pr : option (string -> string -> string -> LabelSelector -> list Z)).

Definition ids_fit (s : Server) : Prop :=
  Identity.inv (IDAlloc s) /\ Z.of_nat (size (idToLabels (IDAlloc s))) < 2 ^ 64.

Lemma push_endpoint_keeps ep s : same_pods s (push_endpoint ep s).
Proof. unfold push_endpoint. destruct (connected s) eqn:E; [|done]. repeat case_match. done. Qed.

(** [AddPod] returns; it either changes nothing or adds one pod. *)
Lemma AddPod_spec req e s :
  IpamAllocator.inv (IPAlloc s) -> ids_fit s ->
  exists s' r, AddPod as_selector nsr pr req e s = Val (s', r) /\
    match r with
    | Err _ => neutral s s'
    | Ok resp => exists podIP id ifindex, added s s' req e podIP id /\ e_setup e = Some ifindex /\
        r_Ip resp = ip_string podIP /\ connected s' = connected s /\
        same_endpoints (dp (push_endpoint (new_endpoint req podIP ifindex id) s)) (dp s')
    end.
Proof.
  intros Hi [Hid Hsz]. unfold AddPod. destruct (validateAddPodRequest req) as [c|] eqn:Ev.
  { exists s, (Err c). split; [done|]. split; [done|]. split; [apply frame_refl|done]. }
  destruct (Allocate_spec (IPAlloc s) (fs s) (e_write e) Hi) as (a & f & r & Ea & Hia & Hfa & Hr).
  unfold mbind, outcome_bind. rewrite Ea. destruct r as [podIP|err]; [|by eexists _, _].
  destruct Hr as (Hw & Hfree & Ht & Hh). cbn [IDAlloc set_IPAlloc].
  change (pod_labels (set_IPAlloc a f s) req e) with (pod_labels s req e).
  destruct (AllocateIdentity_sim (IDAlloc s) (pod_labels s req e) Hid Hsz) as (ids & id & Ei & Hids & _).
  rewrite Ei. cbn [IPAlloc set_IPAlloc set_IDAlloc fs].
  destruct (Gateway_returns a Hia) as [gw ->]. destruct (e_setup e) as [ifindex|] eqn:Es.
  - eexists _, _. split; [reflexivity|]. exists podIP, id, ifindex.
    set (ep := new_endpoint req podIP ifindex id).
    set (s0 := set_Endpoints (<[podKey (a_PodNamespace req) (a_PodName req) := ep]> (Endpoints s))
                 (set_IDAlloc ids (set_IPAlloc a f s))).
    change (push_endpoint _ (set_Endpoints _ _)) with (push_endpoint ep s0).
    destruct (Recompile_keeps as_selector nsr pr (push_endpoint ep s0)) as [(R1 & _ & R3 & R4 & _ & _ & R7 & _) Hd].
    destruct (push_endpoint_keeps ep s0) as (H1 & _ & H3 & H4 & _ & _ & H7 & _).
    assert (dp (push_endpoint ep s0) = dp (push_endpoint ep s)) as Hdp.
    { unfold push_endpoint. cbn [connected set_Endpoints set_IDAlloc set_IPAlloc dp NodeIP s0].
      destruct (connected s); [|done].
      destruct (rpc _ (dp s)) as [d1 ok1]. destruct (rpc _ d1) as [d2 ok2]. by destruct (rpc _ d2). }
    split; [|rewrite Hdp in Hd; split_and!; [done|done|by rewrite R7, H7|done]].
    exists ifindex. rewrite R1, R3, R4, H1, H3, H4. done.
  - destruct (Release_spec a f podIP (e_removed e) Hia Hw Ht) as (a2 & f2 & Er & Hi2 & Hf2 & Hh2).
    rewrite Er. eexists _, _. split; [reflexivity|]. cbn.
    assert (held a2 = held (IPAlloc s)) as Hheld by (rewrite Hh2, Hh; set_solver).
    split; [done|]. split; [by eapply frame_trans|]. split; [done|]. split; [|done].
    by eapply allocate_remove_roundtrip.
Qed.

(** [DelPod] returns; it either changes nothing or removes one pod. *)
Definition removed (s s' : Server) (key : string) (ep : Endpoint) : Prop :=
  Endpoints s !! key = Some ep /\ Endpoints s' = delete key (Endpoints s) /\
  IpamAllocator.inv (IPAlloc s') /\ frame (IPAlloc s) (IPAlloc s') /\
  held (IPAlloc s') = held (IPAlloc s) ∖ {[addr16 (ep_IP ep)]} /\
  IDAlloc s' = RemoveIdentity (IDAlloc s) (IdentityID ep) /\
  dp s' = if connected s then (rpc (fun t => delete_endpoint t (ip_string (ep_IP ep))) (dp s)).1 else dp s.

Lemma DelPod_spec req e s :
  IpamAllocator.inv (IPAlloc s) ->
  (forall k ep, Endpoints s !! k = Some ep -> wf_ip (ep_IP ep) /\ taken (IPAlloc s) (addr16 (ep_IP ep))) ->
  let key := podKey (d_PodNamespace req) (d_PodName req) in
  exists s', DelPod req e s = Val s' /\
    match Endpoints s !! key with
    | Some ep => if decide (ContainerID ep = d_ContainerId req) then removed s s' key ep else s' = s
    | None => s' = s
    end.
Proof.
  intros Hi Hep key. unfold DelPod. fold key. destruct (Endpoints s !! key) as [ep|] eqn:Ek; [|by exists s].
  destruct (String.eqb_spec (ContainerID ep) (d_ContainerId req)) as [E|E]; cbn [negb].
  2:{ exists s. by rewrite decide_False. }
  destruct (Hep key ep Ek) as [Hw Ht].
  destruct (Release_spec (IPAlloc s) (fs s) (ep_IP ep) (e_removed e) Hi Hw Ht) as (a & f & Er & Hia & Hfa & Hh).
  unfold mbind, outcome_bind. cbn [IPAlloc set_Endpoints fs]. rewrite Er.
  cbn [connected set_IDAlloc set_IPAlloc set_Endpoints]. destruct (connected s) eqn:Ec; eexists; (split; [reflexivity|]);
    rewrite decide_True by done; unfold removed; rewrite Ec; done.
Qed.
End Calls.

(** * The invariant *)

(** The number of endpoints with an identity. *)
Definition users (m : gmap string Endpoint) (id : Z) : Z :=
  Z.of_nat (size (filter (fun kv => IdentityID kv.2 = id) m)).

Lemma users_delete m k ep id :
  m !! k = Some ep -> users (delete k m) id = users m id - (if decide (id = IdentityID ep) then 1 else 0).
Proof.
  intros Hk. unfold users. rewrite map_filter_delete.
  destruct (decide (id = IdentityID ep)) as [->|Hne].
  - assert (filter (fun kv => IdentityID kv.2 = IdentityID ep) m !! k = Some ep) as H
      by by apply map_lookup_filter_Some.
    rewrite map_size_delete_Some by eauto.
    assert (size (filter (fun kv => IdentityID kv.2 = IdentityID ep) m) <> 0)%nat; [|lia].
    intros E%map_size_empty_inv. by rewrite E, lookup_empty in H.
  - rewrite delete_id; [lia|]. apply map_lookup_filter_None. right. intros ep' Hep'. cbn. congruence.
Qed.

Lemma users_fresh m k ep id :
  m !! k = None -> users (<[k := ep]> m) id = users m id + (if decide (id = IdentityID ep) then 1 else 0).
Proof.
  intros Hk. pose proof (users_delete (<[k := ep]> m) k ep id (lookup_insert_eq _ _ _)) as H.
  rewrite delete_insert_id in H by done. lia.
Qed.

Lemma users_insert m k ep id :
  users (<[k := ep]> m) id <= users m id + (if decide (id = IdentityID ep) then 1 else 0).
Proof.
  rewrite <- (insert_delete_eq m k ep), users_fresh by apply lookup_delete_eq.
  destruct (m !! k) as [e0|] eqn:E; [rewrite (users_delete m k e0) by done|rewrite delete_id by done]; [|lia].
  destruct (decide (id = IdentityID e0)); lia.
Qed.

(** Every pod has an address of its own, which is held for it, and its identity
    is referenced at least once for each pod that has it. *)
Record agent_inv (n : Z) (s : Server) : Prop := {
  ai_ipam : IpamAllocator.inv (IPAlloc s);
  ai_id : Identity.inv (IDAlloc s);
  ai_size : Z.of_nat (size (idToLabels (IDAlloc s))) <= n;
  ai_ep : forall k ep, Endpoints s !! k = Some ep -> wf_ip (ep_IP ep) /\ taken (IPAlloc s) (addr16 (ep_IP ep));
  ai_sep : forall k1 k2 e1 e2, Endpoints s !! k1 = Some e1 -> Endpoints s !! k2 = Some e2 -> k1 <> k2 ->
    addr16 (ep_IP e1) <> addr16 (ep_IP e2);
  ai_ref : forall id, users (Endpoints s) id <= refs (IDAlloc s) id;
}.

Lemma agent_inv_same n s s' : same_pods s s' -> agent_inv n s -> agent_inv n s'.
Proof.
  intros (E1 & E2 & E3 & E4 & _) []. split; rewrite ?E1, ?E3, ?E4; done.
Qed.

Lemma agent_inv_mono n n' s : n <= n' -> agent_inv n s -> agent_inv n' s.
Proof. intros Hn []. split; try done. lia. Qed.

Lemma agent_inv_neutral n s s' : neutral s s' -> agent_inv n s -> agent_inv n s'.
Proof.
  intros (H1 & H2 & H3 & H4 & H5 & _) []. split; rewrite ?H4, ?H5; try done.
  intros k ep Hk. destruct (ai_ep0 k ep Hk) as [Hw [Ht Hn]]. split; [done|]. apply (taken_frame (IPAlloc s)); [done|by rewrite H3|done].
Qed.

Lemma agent_inv_added n s s' req e podIP id :
  added s s' req e podIP id -> n < 2 ^ 64 -> agent_inv n s -> agent_inv (n + 1) s'.
Proof.
  intros (ifindex & _ & Hw & Hfree & Ht & Hi & Hf & Hh & Ea & He) Hn Ha. destruct Ha.
  destruct (AllocateIdentity_sim (IDAlloc s) (pod_labels s req e) ai_id0 ltac:(lia)) as (ids & id' & Ea' & Hids & Hsp & _).
  rewrite Ea in Ea'. injection Ea' as <- <-. split; [done|done| | | |].
  - pose proof (spec_alloc_size _ _ _ _ Hsp) as Hs. rewrite !view_size in Hs by done. lia.
  - intros k ep. rewrite He. intros [[_ <-]|[_ Hk]]%lookup_insert_Some; [done|].
    destruct (ai_ep0 k ep Hk) as [Hwk [Htk Hnk]]. split; [done|]. apply (taken_frame (IPAlloc s)); [done| |done]. set_solver.
  - assert (forall k ep, Endpoints s !! k = Some ep -> addr16 (ep_IP ep) <> addr16 podIP) as Hne.
    { intros k ep Hk E. apply Hfree. rewrite <- E. by apply (ai_ep0 k ep). }
    intros k1 k2 e1 e2. rewrite He.
    intros [[<- <-]|[? H1]]%lookup_insert_Some [[<- <-]|[? H2]]%lookup_insert_Some Hk; try done; cbn [new_endpoint ep_IP].
    + intros E. by apply (Hne k2 e2 H2).
    + by apply (Hne k1).
    + by apply (ai_sep0 k1 k2).
  - intros i. rewrite He, (spec_alloc_refs _ _ _ _ Hsp). specialize (ai_ref0 i).
    pose proof (users_insert (Endpoints s) (podKey (a_PodNamespace req) (a_PodName req)) (new_endpoint req podIP ifindex id) i) as H.
    cbn [new_endpoint IdentityID] in H. lia.
Qed.

Lemma agent_inv_removed {DN : DpNet} n s s' key ep : removed s s' key ep -> agent_inv n s -> agent_inv n s'.
Proof.
  intros (Hk & He & Hi & Hf & Hh & Hid & _) Ha. destruct Ha.
  destruct (RemoveIdentity_sim (IDAlloc s) (IdentityID ep) ai_id0) as [Hi' Hv]. rewrite <- Hid in *.
  split; [done|done| | | |].
  - pose proof (spec_remove_size (view (IDAlloc s)) (IdentityID ep)) as Hs.
    rewrite <- Hv, !view_size in Hs by done. lia.
  - intros k e. rewrite He. intros [Hne Hke]%lookup_delete_Some. destruct (ai_ep0 k e Hke) as [Hw [Ht Hn]].
    split; [done|]. apply (taken_frame (IPAlloc s)); [done| |done]. rewrite Hh.
    pose proof (ai_sep0 k key e ep Hke Hk ltac:(congruence)). set_solver.
  - intros k1 k2 e1 e2. rewrite He. intros [_ H1]%lookup_delete_Some [_ H2]%lookup_delete_Some. by apply ai_sep0.
  - intros i. rewrite He, (users_delete _ _ ep) by done. rewrite Hid, RemoveIdentity_refs by done.
    specialize (ai_ref0 i). case_decide; lia.
Qed.

(** * The dataplane *)

(** A generated address is six bytes, unicast and locally administered. *)
Lemma GenerateMAC_ok ip :
  wf_ip ip -> length (GenerateMAC ip) = 6%nat /\ Forall is_byte (GenerateMAC ip) /\ GenerateMAC ip !! 0%nat = Some 2.
Proof.
  intros Hw. unfold GenerateMAC. destruct (To4 ip) as [p4|] eqn:E4.
  - destruct (To4_spec ip p4 Hw E4) as (Hl & Hb & _). rewrite take_ge by lia. split_and!; [|..|done].
    + cbn. by rewrite Hl.
    + repeat (constructor; [unfold is_byte; lia|]). done.
  - destruct (To16 ip) as [p16|]; [|split_and!; [done| |done]; repeat (constructor; [unfold is_byte; lia|]); constructor].
    destruct (Sum256_ok p16) as [Hl Hb]. split_and!; [|..|done].
    + cbn [app length]. rewrite length_drop, Hl. done.
    + repeat (constructor; [unfold is_byte; lia|]). apply Forall_drop. exact Hb.
Qed.

Section Dataplane.
Context {DN : DpNet} (Hnet : forall k, dp_net k = Delivered).

Lemma push_endpoint_v4 ep s p4 n4 :
  connected s = true -> wf_ip (ep_IP ep) -> To4 (ep_IP ep) = Some p4 -> wf_ip (NodeIP s) -> To4 (NodeIP s) = Some n4 ->
  MAC ep = GenerateMAC (ep_IP ep) -> Z.of_nat (size (ENDPOINTS (dp_tables (dp s)))) < MAX_ENDPOINTS ->
  ENDPOINTS (dp_tables (dp (push_endpoint ep s)))
  = <[ip_val p4 := mkEndpointValue (IfIndex ep) (MAC ep) (wire_identity (IdentityID ep)) (ip_val n4)]>
      (ENDPOINTS (dp_tables (dp s))).
Proof.
  intros Hc Hw H4 Hwn Hn4 Hm Hs. unfold push_endpoint. rewrite Hc.
  match goal with |- context [rpc ?f (dp s)] => pose proof (rpc_delivered Hnet f (dp s)) as E1; destruct (rpc f (dp s)) as [d1 o1] end.
  cbn in E1. pose proof (rpc_delivered Hnet (fun t => (t, Ok tt)) d1) as E2. destruct (rpc _ d1) as [d2 o2]. cbn in E2.
  pose proof (rpc_delivered Hnet (fun t => (t, Ok tt)) d2) as E3. destruct (rpc _ d2) as [d3 o3]. cbn in E3. subst d3 d2 d1.
  cbn [dp set_dp dp_tables]. unfold upsert_endpoint. cbn [er_mac er_ip er_node_ip er_ifindex er_identity_id].
  rewrite Hm, (proj1 (GenerateMAC_ok _ Hw)), (parse_ip_string _ p4), (parse_ip_string _ n4) by done. cbn [Nat.eqb negb].
  unfold hash_insert. destruct (ENDPOINTS (dp_tables (dp s)) !! ip_val p4); [done|]. by rewrite (proj2 (Z.ltb_lt _ _)).
Qed.

Lemma delete_endpoint_v4 ip p4 t :
  wf_ip ip -> To4 ip = Some p4 -> ENDPOINTS (delete_endpoint t (ip_string ip)).1 = delete (ip_val p4) (ENDPOINTS t).
Proof.
  intros Hw H4. unfold delete_endpoint. rewrite (parse_ip_string _ p4) by done. unfold hash_remove.
  destruct (ENDPOINTS t !! ip_val p4) eqn:E; [done|]. cbn. by rewrite delete_id.
Qed.
End Dataplane.

(** * Histories *)

(** The calls and events of an agent: CNI requests, a change of the policies in
    the informer's store, and the dataplane coming or going. *)
Inductive agent_op : Type :=
| OAdd (req : AddPodRequest) (e : call_env)
| ODel (req : DelPodRequest) (e : call_env)
| OPolicies (pols : list (option NetworkPolicy))
| OConnected (b : bool).

Section Histories.
Context {DN : DpNet} {MI : MapIter}.
Context (as_selector : LabelSelector -> option (labels -> bool)).
Context (nsr : option (LabelSelector -> list string)).
Context (pr : option (string -> string -> string -> LabelSelector -> list Z)).

Definition run_op (op : agent_op) (s : Server) : outcome (Server * option (result code AddPodResponse)) :=
  match op with
  | OAdd req e => '(s', r) ← AddPod as_selector nsr pr req e s; Val (s', Some r)
  | ODel req e => s' ← DelPod req e s; Val (s', None)
  | OPolicies pols => Val (Recompile as_selector nsr pr (set_store (Some pols) s), None)
  | OConnected b => Val (set_connected b s, None)
  end.

Fixpoint run (s : Server) (ops : list agent_op) : outcome (Server * list (option (result code AddPodResponse))) :=
  match ops with
  | [] => Val (s, [])
  | op :: rest => '(s1, r) ← run_op op s; '(s2, rs) ← run s1 rest; Val (s2, r :: rs)
  end.

(** What an operation does, in terms of pods. *)
Inductive effect (s s' : Server) (op : agent_op) : option (result code AddPodResponse) -> Prop :=
| E_added req e podIP id resp : op = OAdd req e -> added s s' req e podIP id -> r_Ip resp = ip_string podIP ->
    effect s s' op (Some (Ok resp))
| E_refused req e c : op = OAdd req e -> neutral s s' -> effect s s' op (Some (Err c))
| E_removed req e ep : op = ODel req e -> removed s s' (podKey (d_PodNamespace req) (d_PodName req)) ep ->
    effect s s' op None
| E_none : (match op with OAdd _ _ => False | _ => True end) ->
    IPAlloc s' = IPAlloc s /\ IDAlloc s' = IDAlloc s /\ Endpoints s' = Endpoints s -> effect s s' op None.

Lemma run_op_effect n op s :
  agent_inv n s -> n < 2 ^ 64 -> exists s' r, run_op op s = Val (s', r) /\ effect s s' op r.
Proof.
  intros Ha Hn. destruct op as [req e|req e|pols|b]; cbn [run_op].
  - destruct (AddPod_spec as_selector nsr pr req e s (ai_ipam _ _ Ha)) as (s' & r & E & Hr).
    { split; [apply (ai_id _ _ Ha)|]. pose proof (ai_size _ _ Ha). lia. }
    unfold mbind, outcome_bind. rewrite E. eexists _, _. split; [reflexivity|]. destruct r as [resp|c].
    + destruct Hr as (podIP & id & ifindex & Hadd & _ & Hresp & _). by eapply E_added.
    + by eapply E_refused.
  - destruct (DelPod_spec req e s (ai_ipam _ _ Ha) (ai_ep _ _ Ha)) as (s' & E & Hr).
    unfold mbind, outcome_bind. rewrite E. eexists _, _. split; [reflexivity|].
    destruct (Endpoints s !! _) as [ep|] eqn:Ek.
    + case_decide; [by eapply E_removed|]. subst s'. by apply E_none.
    + subst s'. by apply E_none.
  - eexists _, _. split; [reflexivity|]. apply E_none; [done|].
    by destruct (Recompile_keeps as_selector nsr pr (set_store (Some pols) s)) as [(-> & _ & -> & -> & _) _].
  - eexists _, _. split; [reflexivity|]. by apply E_none.
Qed.

Lemma effect_inv n op s s' r : effect s s' op r -> n < 2 ^ 64 -> agent_inv n s -> agent_inv (n + 1) s'.
Proof.
  intros He Hn Ha. destruct He as [req e podIP id resp _ Hadd _|req e c _ Hne|req e ep _ Hr|_ (E1 & E2 & E3)].
  - by eapply agent_inv_added.
  - eapply agent_inv_mono; [|by eapply agent_inv_neutral]. lia.
  - eapply agent_inv_mono; [|by eapply agent_inv_removed]. lia.
  - eapply agent_inv_mono; [|]; [|destruct Ha; split; rewrite ?E1, ?E2, ?E3; eassumption]. lia.
Qed.

(** Every history returns and keeps the invariant, and any property that the
    effects preserve. *)
Lemma run_ind (P : Server -> Prop) n s ops :
  (forall n s s' op r, effect s s' op r -> op ∈ ops -> agent_inv n s -> P s -> P s') ->
  agent_inv n s -> n + Z.of_nat (length ops) <= 2 ^ 64 -> P s ->
  exists s' rs, run s ops = Val (s', rs) /\ agent_inv (n + Z.of_nat (length ops)) s' /\ P s'.
Proof.
  intros HP. revert n s. induction ops as [|op ops IH]; intros n s Ha Hn Hs; cbn [run length].
  { exists s, []. split; [done|]. split; [|done]. by replace (n + Z.of_nat 0) with n by lia. }
  cbn [length] in Hn. destruct (run_op_effect n op s Ha ltac:(lia)) as (s1 & r & E & He).
  destruct (IH (fun n s s' op' r H Hin => HP n s s' op' r H (list_elem_of_further _ _ _ Hin)) (n + 1) s1)
    as (s2 & rs & E2 & Ha2 & Hs2).
  - eapply effect_inv; [exact He|lia|exact Ha].
  - lia.
  - eapply HP; [exact He|by left|exact Ha|exact Hs].
  - unfold mbind, outcome_bind. rewrite E, E2. eexists _, _. split; [reflexivity|]. split; [|done].
    by replace (n + Z.of_nat (S (length ops))) with (n + 1 + Z.of_nat (length ops)) by lia.
Qed.

Lemma new_agent_inv a f b node c t eg :
  IpamAllocator.inv a -> agent_inv 0 (NewServer a f Identity.NewAllocator b node c t eg).
Proof.
  intros Hi. split; cbn; try done. apply identity_inv_new.
Qed.

(** An address that is taken while no pod has it. *)
Definition orphan (s : Server) (x : Z) : Prop :=
  taken (IPAlloc s) x /\ forall k ep, Endpoints s !! k = Some ep -> addr16 (ep_IP ep) <> x.

Lemma orphan_effect n s s' op r x : effect s s' op r -> agent_inv n s -> orphan s x -> orphan s' x.
Proof.
  intros He Ha [[Hx Hn] Hno]. destruct He as [req e podIP id resp _ Hadd _|req e c _ Hne|req e ep _ Hr|_ (E1 & E2 & E3)].
  - destruct Hadd as (ifindex & _ & _ & Hfree & _ & _ & Hf & Hh & _ & He). split.
    + apply (taken_frame (IPAlloc s)); [done| |done]. set_solver.
    + intros k ep. rewrite He. intros [[_ <-]|[_ Hk]]%lookup_insert_Some; [|by eapply Hno]. cbn. intros <-. by destruct Hfree.
  - destruct Hne as (_ & Hf & Hh & _ & He & _). split; [|by rewrite He].
    apply (taken_frame (IPAlloc s)); [done|by rewrite Hh|done].
  - destruct Hr as (Hk & He & _ & Hf & Hh & _). split.
    + apply (taken_frame (IPAlloc s)); [done| |done]. rewrite Hh. specialize (Hno _ _ Hk). set_solver.
    + intros k e'. rewrite He. intros [_ Hk']%lookup_delete_Some. by eapply Hno.
  - unfold orphan, taken. rewrite E1, E3. done.
Qed.

Lemma endpoint_identity n s k ep :
  agent_inv n s -> Endpoints s !! k = Some ep -> is_Some (GetLabels (IDAlloc s) (IdentityID ep)).
Proof.
  intros Ha Hk. pose proof (ai_ref _ _ Ha (IdentityID ep)) as Hr.
  pose proof (users_delete (Endpoints s) k ep (IdentityID ep) Hk) as Hu. rewrite decide_True in Hu by done.
  assert (0 <= users (delete k (Endpoints s)) (IdentityID ep)) by (unfold users; lia).
  unfold refs in Hr. rewrite view_lookup in Hr. unfold GetLabels.
  destruct (idToLabels (IDAlloc s) !! IdentityID ep); [by eexists|]. lia.
Qed.

(** C6: Pods do not share addresses, and their addresses and identities stay
    allocated.  Every history of CNI calls, policy changes and dataplane
    connections on a new agent returns, and in the state it ends in any two pods
    have different addresses, each pod's address is held by the allocator and
    outside the reserved ones, and each pod's identity is known. *)
Theorem pods_keep_their_addresses podCIDR sdir mkdir rd a f b node c t eg ops :
  NewAllocatorWithStateDir podCIDR sdir mkdir rd = Val (Ok a) -> Z.of_nat (length ops) <= 2 ^ 64 ->
  exists s rs, run (NewServer a f Identity.NewAllocator b node c t eg) ops = Val (s, rs) /\
    (forall k1 k2 e1 e2, Endpoints s !! k1 = Some e1 -> Endpoints s !! k2 = Some e2 -> k1 <> k2 ->
       addr16 (ep_IP e1) <> addr16 (ep_IP e2)) /\
    (forall k ep, Endpoints s !! k = Some ep -> taken (IPAlloc s) (addr16 (ep_IP ep)) /\
       is_Some (GetLabels (IDAlloc s) (IdentityID ep))).
Proof.
  intros Hn Hlen. destruct (new_inv _ _ _ _ _ Hn) as (_ & _ & _ & _ & _ & _ & _ & Hi & _).
  destruct (run_ind (fun _ => True) 0 _ ops ltac:(done) (new_agent_inv a f b node c t eg Hi) ltac:(lia) I)
    as (s & rs & E & Ha & _).
  exists s, rs. split; [done|]. split; [apply (ai_sep _ _ Ha)|]. intros k ep Hk. split.
  - by apply (ai_ep _ _ Ha) in Hk as [_ ?].
  - by eapply endpoint_identity.
Qed.

(** An agent that restarts loses the addresses of its pods for good.  The new
    agent's allocator takes the addresses that the state directory names, but the
    table of endpoints starts empty: whatever calls follow, [DelPod] of the old
    pods included, such an address is never free again and no pod has it. *)
Theorem restart_orphans_addresses podCIDR sdir es a f b node c t eg ops x :
  NewAllocatorWithStateDir podCIDR sdir true (Some es) = Val (Ok a) -> taken a x -> Z.of_nat (length ops) <= 2 ^ 64 ->
  exists s rs, run (NewServer a f Identity.NewAllocator b node c t eg) ops = Val (s, rs) /\ orphan s x.
Proof.
  intros Hn Hx Hlen. destruct (new_inv _ _ _ _ _ Hn) as (_ & _ & _ & _ & _ & _ & _ & Hi & _).
  destruct (run_ind (fun s => orphan s x) 0 (NewServer a f Identity.NewAllocator b node c t eg) ops)
    as (s & rs & E & _ & Ho).
  - intros n s s' op r He _ Ha. by eapply orphan_effect.
  - by apply new_agent_inv.
  - lia.
  - split; [done|]. intros k ep H. cbn in H. by rewrite lookup_empty in H.
  - by exists s, rs.
Qed.

(** Adding a pod that is already there loses the address it had.  When
    [AddPod] succeeds for a pod that the agent has an endpoint for, whatever calls
    follow, the old address is never free again and no pod has it. *)
Theorem readded_pod_orphans_address n s s1 req e resp ep ops :
  agent_inv n s -> AddPod as_selector nsr pr req e s = Val (s1, Ok resp) ->
  Endpoints s !! podKey (a_PodNamespace req) (a_PodName req) = Some ep ->
  n + 1 + Z.of_nat (length ops) <= 2 ^ 64 ->
  exists s2 rs, run s1 ops = Val (s2, rs) /\ orphan s2 (addr16 (ep_IP ep)).
Proof.
  intros Ha E Hk Hn. destruct (AddPod_spec as_selector nsr pr req e s (ai_ipam _ _ Ha)) as (s' & r & E' & Hr).
  { split; [apply (ai_id _ _ Ha)|]. pose proof (ai_size _ _ Ha). lia. }
  rewrite E in E'. injection E' as <- <-. destruct Hr as (podIP & id & ifindex & Hadd & _).
  pose proof (agent_inv_added n s s1 req e podIP id Hadd ltac:(lia) Ha) as Ha1.
  destruct (ai_ep _ _ Ha _ _ Hk) as [_ [Ht Htn]].
  destruct (run_ind (fun s => orphan s (addr16 (ep_IP ep))) (n + 1) s1 ops) as (s2 & rs & E2 & _ & Ho); [| |lia| |].
  - intros n' s0 s0' op r He _ Ha0. by eapply orphan_effect.
  - done.
  - destruct Hadd as (ifx & _ & _ & Hfree & _ & _ & Hf & Hh & _ & He). split.
    + apply (taken_frame (IPAlloc s)); [done| |done]. set_solver.
    + intros k e'. rewrite He. intros [[_ <-]|[Hne Hk']]%lookup_insert_Some.
      * cbn. intros Heq. apply Hfree. by rewrite Heq.
      * by apply (ai_sep _ _ Ha k (podKey (a_PodNamespace req) (a_PodName req)) e' ep Hk' Hk).
  - by exists s2, rs.
Qed.

(** A pod that is added is known to the kernel.  With an IPv4 dataplane that is
    connected and has room, after [AddPod] the programs find the pod's address in
    the table of endpoints, with the interface and MAC address of the pod and the
    low 32 bits of the identity that its labels have. *)
Theorem added_pod_known_to_kernel n s s' req e resp n4 :
  agent_inv n s -> n < 2 ^ 64 -> AddPod as_selector nsr pr req e s = Val (s', Ok resp) ->
  (forall k, dp_net k = Delivered) -> connected s = true -> wf_ip (NodeIP s) -> To4 (NodeIP s) = Some n4 ->
  isIPv4 (IPAlloc s) = true -> Z.of_nat (size (ENDPOINTS (dp_tables (dp s)))) < MAX_ENDPOINTS ->
  exists ep p4, Endpoints s' !! podKey (a_PodNamespace req) (a_PodName req) = Some ep /\
    To4 (ep_IP ep) = Some p4 /\ r_Ip resp = ip_string (ep_IP ep) /\
    GetIdentity (IDAlloc s') (pod_labels s req e) = Some (IdentityID ep) /\
    lookup_identity (dp_tables (dp s')) (ip_val p4)
    = Some (wire_identity (IdentityID ep),
            mkEndpointValue (IfIndex ep) (MAC ep) (wire_identity (IdentityID ep)) (ip_val n4)).
Proof.
  intros Ha Hn E Hnet Hc Hwn Hn4 Hv4 Hs.
  destruct (AddPod_spec as_selector nsr pr req e s (ai_ipam _ _ Ha)) as (s1 & r & E' & Hr).
  { split; [apply (ai_id _ _ Ha)|]. pose proof (ai_size _ _ Ha). lia. }
  rewrite E in E'. injection E' as <- <-. destruct Hr as (podIP & id & ifindex & Hadd & Es & Hresp & _ & Hd).
  destruct Hadd as (ifx & Es' & Hw & Hfree & [Ht _] & Hi & Hf & Hh & Eid & He).
  rewrite Es in Es'. injection Es' as <-.
  assert (exists p4, To4 podIP = Some p4) as [p4 H4].
  { apply (v4_address (IPAlloc s')); [done| |done|done]. destruct (frame_net _ _ Hf) as (_ & _ & -> & _). done. }
  exists (new_endpoint req podIP ifindex id), p4. rewrite He, lookup_insert_eq. split; [done|]. split; [done|].
  split; [done|]. split.
  - destruct (AllocateIdentity_sim (IDAlloc s) (pod_labels s req e) (ai_id _ _ Ha)) as (ids & id' & E1 & _ & _ & Hg & _).
    { pose proof (ai_size _ _ Ha). lia. }
    rewrite Eid in E1. injection E1 as <- <-. exact Hg.
  - unfold lookup_identity. rewrite Hd, (push_endpoint_v4 Hnet _ s p4 n4) by done. by rewrite lookup_insert_eq.
Qed.
(** Deleting a pod undoes adding it.  After a successful [AddPod] of a pod that
    was not there and the [DelPod] for its container, the endpoints, the identity
    allocator and the set of held addresses are what they were; so is the kernel's
    table of endpoints, if the dataplane is connected, IPv4 and had no entry for
    the address. *)
Theorem del_undoes_add n s s1 req e resp e' :
  agent_inv n s -> n < 2 ^ 64 -> AddPod as_selector nsr pr req e s = Val (s1, Ok resp) ->
  Endpoints s !! podKey (a_PodNamespace req) (a_PodName req) = None ->
  exists s2, DelPod (mkDelPod (a_PodName req) (a_PodNamespace req) (a_ContainerId req)) e' s1 = Val s2 /\
    Endpoints s2 = Endpoints s /\ IDAlloc s2 = IDAlloc s /\ held (IPAlloc s2) = held (IPAlloc s) /\
    ((forall k, dp_net k = Delivered) -> forall ip p4 n4, connected s = true -> wf_ip (NodeIP s) -> To4 (NodeIP s) = Some n4 ->
      wf_ip ip -> To4 ip = Some p4 -> r_Ip resp = ip_string ip -> ENDPOINTS (dp_tables (dp s)) !! ip_val p4 = None ->
      Z.of_nat (size (ENDPOINTS (dp_tables (dp s)))) < MAX_ENDPOINTS ->
      ENDPOINTS (dp_tables (dp s2)) = ENDPOINTS (dp_tables (dp s))).
Proof.
  intros Ha Hn E Hk. destruct (AddPod_spec as_selector nsr pr req e s (ai_ipam _ _ Ha)) as (s' & r & E' & Hr).
  { split; [apply (ai_id _ _ Ha)|]. pose proof (ai_size _ _ Ha). lia. }
  rewrite E in E'. injection E' as <- <-. destruct Hr as (podIP & id & ifindex & Hadd & Es & Hresp & Hconn & Hd).
  pose proof (agent_inv_added n s s1 req e podIP id Hadd Hn Ha) as Ha1.
  destruct Hadd as (ifx & Es' & Hw & Hfree & _ & _ & _ & Hh & Eid & He). rewrite Es in Es'. injection Es' as <-.
  destruct (DelPod_spec (mkDelPod (a_PodName req) (a_PodNamespace req) (a_ContainerId req)) e' s1 (ai_ipam _ _ Ha1) (ai_ep _ _ Ha1))
    as (s2 & E2 & Hr). exists s2. split; [done|]. cbn [d_PodName d_PodNamespace d_ContainerId] in Hr.
  rewrite He, lookup_insert_eq in Hr. cbn [new_endpoint ContainerID] in Hr. rewrite decide_True in Hr by done.
  destruct Hr as (_ & He2 & _ & _ & Hh2 & Hi2 & Hd2). cbn [new_endpoint ep_IP IdentityID] in *. split_and!.
  - rewrite He2, He. by apply delete_insert_id.
  - rewrite Hi2. by eapply allocate_remove_roundtrip; [apply (ai_id _ _ Ha)|].
  - rewrite Hh2, Hh. set_solver.
  - intros Hnet ip p4 n4 Hc Hwn Hn4 Hwi H4 Hip Hnone Hsz. rewrite Hd2, Hconn, Hc, rpc_delivered by done. cbn [dp_tables].
    assert (addr16 podIP = addr16 ip /\ To4 podIP = Some p4) as [_ H4'].
    { apply (same_string podIP ip p4); [done|done| |done]. by rewrite <- Hresp, Hip. }
    rewrite (delete_endpoint_v4 podIP p4) by done. rewrite Hd, (push_endpoint_v4 Hnet _ s p4 n4) by done.
    by apply delete_insert_id.
Qed.

(** * Accounting *)

(** Every taken address belongs to a pod, and every reference to an identity too. *)
Definition accounted (s : Server) : Prop :=
  (forall x, taken (IPAlloc s) x -> exists k ep, Endpoints s !! k = Some ep /\ addr16 (ep_IP ep) = x) /\
  (forall id, refs (IDAlloc s) id = users (Endpoints s) id).

(** A history in which pods are only added when they are not there. *)
Fixpoint fresh_run (s : Server) (ops : list agent_op) : Prop :=
  match ops with
  | [] => True
  | op :: rest =>
      match op with
      | OAdd req _ => Endpoints s !! podKey (a_PodNamespace req) (a_PodName req) = None
      | _ => True
      end /\ forall s' r, run_op op s = Val (s', r) -> fresh_run s' rest
  end.

Lemma taken_back a a' x : frame a a' -> taken a' x -> ~ reserved a (x - lo_addr a).
Proof. intros Hf [_ Hn]. destruct (frame_net _ _ Hf) as (Hlo & _). by rewrite (reserved_frame _ _ _ Hf), Hlo in Hn. Qed.

Lemma accounted_effect n s s' op r :
  effect s s' op r -> n < 2 ^ 64 -> agent_inv n s ->
  match op with OAdd req _ => Endpoints s !! podKey (a_PodNamespace req) (a_PodName req) = None | _ => True end ->
  accounted s -> accounted s'.
Proof.
  intros He Hn Ha Hfresh [Hx Hr]. destruct He as [req e podIP id resp -> Hadd _|req e c _ Hne|req e ep _ Hrm|_ (E1 & E2 & E3)].
  - destruct Hadd as (ifindex & _ & Hw & Hfree & _ & _ & Hf & Hh & Eid & He).
    destruct (AllocateIdentity_sim (IDAlloc s) (pod_labels s req e) (ai_id _ _ Ha)) as (ids & id' & E1 & _ & Hsp & _).
    { pose proof (ai_size _ _ Ha). lia. }
    rewrite Eid in E1. injection E1 as <- <-. split.
    + intros x Ht. pose proof (taken_back _ _ _ Hf Ht) as Hnr. destruct Ht as [Ht _]. rewrite Hh, He in *.
      apply elem_of_union in Ht as [->%elem_of_singleton|Ht].
      * eexists _, _. by rewrite lookup_insert_eq.
      * destruct (Hx x (conj Ht Hnr)) as (k & ep & Hk & Hax). exists k, ep. split; [|done].
        rewrite lookup_insert_ne; [done|]. intros <-. cbn in Hfresh. congruence.
    + intros i. rewrite He, users_fresh, (spec_alloc_refs _ _ _ _ Hsp), Hr by done. done.
  - destruct Hne as (_ & Hf & Hh & Hi & He & _). unfold accounted. rewrite Hi, He. split; [|done].
    intros x Ht. apply Hx. split; [rewrite <- Hh; apply Ht|by eapply taken_back].
  - destruct Hrm as (Hk & He & _ & Hf & Hh & Hi & _). split.
    + intros x Ht. pose proof (taken_back _ _ _ Hf Ht) as Hnr. destruct Ht as [Ht _]. rewrite Hh in Ht.
      apply elem_of_difference in Ht as [Ht Hne]. destruct (Hx x (conj Ht Hnr)) as (k & ep' & Hk' & Hax).
      exists k, ep'. split; [|done]. rewrite He, lookup_delete_ne; [done|]. intros <-. set_solver.
    + intros i. rewrite He, Hi, (users_delete _ _ ep), RemoveIdentity_refs, Hr by (done || apply Ha).
      pose proof (users_delete (Endpoints s) _ ep (IdentityID ep) Hk) as Hu. rewrite decide_True in Hu by done.
      assert (0 <= users (delete (podKey (d_PodNamespace req) (d_PodName req)) (Endpoints s)) (IdentityID ep)) by (unfold users; lia).
      case_decide as Hd; [subst i; lia|lia].
  - unfold accounted. by rewrite E1, E2, E3.
Qed.

(** Without restarts and double additions nothing leaks.  On an agent that
    starts with no address files, after any history that adds pods only when they
    are not there, every address in use belongs to a pod and every identity is
    referenced exactly as often as pods have it; so when the last pod is gone, all
    addresses are free and no identity is left. *)
Theorem fresh_histories_account podCIDR sdir a f b node c t eg ops :
  NewAllocatorWithStateDir podCIDR sdir true (Some []) = Val (Ok a) -> Z.of_nat (length ops) <= 2 ^ 64 ->
  fresh_run (NewServer a f Identity.NewAllocator b node c t eg) ops ->
  exists s rs, run (NewServer a f Identity.NewAllocator b node c t eg) ops = Val (s, rs) /\ accounted s /\
    (Endpoints s = ∅ -> (forall x, ~ taken (IPAlloc s) x) /\ forall id, GetLabels (IDAlloc s) id = None).
Proof.
  intros Hnew Hlen Hfr. destruct (new_inv _ _ _ _ _ Hnew) as (_ & _ & _ & _ & _ & _ & _ & Hi & _ & _ & _ & Hheld).
  assert (accounted (NewServer a f Identity.NewAllocator b node c t eg)) as Hacc.
  { split; [|done]. intros x [Ht Hn]. cbn in *. apply Hheld in Ht as [?|(_ & es & x' & [= <-] & Hin & _)]; [done|]. by apply elem_of_nil in Hin. }
  pose proof (new_agent_inv a f b node c t eg Hi) as Ha. revert Hfr Hacc Ha.
  assert (0 + Z.of_nat (length ops) <= 2 ^ 64) as Hl by lia. revert Hl. clear Hlen Hnew Hi Hheld.
  generalize (NewServer a f Identity.NewAllocator b node c t eg) as s. generalize 0 as n.
  induction ops as [|op ops IH]; intros n s Hl Hfr Hacc Ha; cbn [run].
  - exists s, []. split; [done|]. split; [done|]. intros He. destruct Hacc as [Hx Hr]. rewrite He in *. split.
    + intros x (k & ep & Hk & _)%Hx. by rewrite lookup_empty in Hk.
    + intros id. specialize (Hr id). unfold GetLabels. apply inv_known; [apply (ai_id _ _ Ha)|].
      change (users ∅ id) with 0 in Hr. unfold refs in Hr. destruct (view (IDAlloc s) !! id) as [[l m]|] eqn:Ev; [|done].
      apply (refs_pos _ _ _ _ (ai_id _ _ Ha)) in Ev. lia.
  - cbn [length] in Hl. destruct Hfr as [Hop Hfr]. destruct (run_op_effect n op s Ha ltac:(lia)) as (s1 & r & E & He).
    destruct (IH (n + 1) s1) as (s2 & rs & E2 & H2); [lia|by eapply Hfr| | |].
    + eapply accounted_effect; [exact He| |exact Ha|exact Hop|exact Hacc]. lia.
    + eapply effect_inv; [exact He|lia|exact Ha].
    + unfold mbind, outcome_bind. rewrite E, E2. eexists _, _. split; [reflexivity|exact H2].
Qed.
End Histories.

(** C19: A call that fails changes nothing.  When [AddPod] answers with an error,
    whether the request was malformed, no address could be taken or the network
    could not be set up, the held addresses, the identities, the endpoints and the
    dataplane are as before. *)
Theorem failed_add_rolls_back {DN : DpNet} {MI : MapIter} as_selector nsr pr n s req e s' c :
  agent_inv n s -> n < 2 ^ 64 -> AddPod as_selector nsr pr req e s = Val (s', Err c) ->
  held (IPAlloc s') = held (IPAlloc s) /\ IDAlloc s' = IDAlloc s /\ Endpoints s' = Endpoints s /\ dp s' = dp s.
Proof.
  intros Ha Hn E. destruct (AddPod_spec as_selector nsr pr req e s (ai_ipam _ _ Ha)) as (s1 & r & E' & Hr).
  { split; [apply (ai_id _ _ Ha)|]. pose proof (ai_size _ _ Ha). lia. }
  rewrite E in E'. injection E' as <- <-. by destruct Hr as (_ & _ & ? & ? & ? & ?).
Qed.

(** * Examples *)

Definition sample_alloc : IpamAllocator.Allocator :=
  IpamAllocator.mkAllocator (mkIPNet [10; 244; 1; 0] [255; 255; 255; 248]) [10; 244; 1; 0] 8 (Bitmap.mkBitmap [131] 8)
    3 29 4 true "/s".

Lemma sample_alloc_new : NewAllocatorWithStateDir "10.244.1.0/29" "/s" true (Some []) = Val (Ok sample_alloc).
Proof. vm_compute. reflexivity. Qed.

Definition sample_server : Server :=
  NewServer sample_alloc ∅ Identity.NewAllocator false [192; 168; 0; 1] true empty_tables None.

Definition sample_add (container : string) : AddPodRequest :=
  mkAddPod "web-1" "default" container "/run/netns/a" "eth0" {[ "app" := "web" ]}.
Definition sample_del : DelPodRequest := mkDelPod "web-1" "default" "0123456789ab".
Definition sample_env : call_env := mkEnv WriteOk None (Some 7) true.
Definition failing_env : call_env := mkEnv WriteOk None None true.

Abbreviation sample_AddPod := (AddPod (DN := dp_reliable) (MI := iter_forward) match_labels None None).
Abbreviation sample_run := (run (DN := dp_reliable) (MI := iter_forward) match_labels None None).

Lemma sample_inv : agent_inv 0 sample_server.
Proof.
  apply new_agent_inv. by destruct (new_inv _ _ _ _ _ sample_alloc_new) as (_ & _ & _ & _ & _ & _ & _ & Hi & _).
Qed.

(** A predicate on the outcome of a call, decided by running it. *)
Lemma outcome_elim {A} (o : outcome A) (p : A -> bool) :
  match o with Val x => p x | _ => false end = true -> exists x, o = Val x /\ p x = true.
Proof. destruct o as [x| |]; [by exists x|done..]. Qed.

Definition add_ok (x : Server * result code AddPodResponse) : bool :=
  match x.2 with Ok resp => String.eqb (r_Ip resp) "10.244.1.2" | Err _ => false end.

Lemma sample_added :
  exists s resp, sample_AddPod (sample_add "0123456789ab") sample_env sample_server = Val (s, Ok resp) /\
    r_Ip resp = "10.244.1.2".
Proof.
  destruct (outcome_elim (sample_AddPod (sample_add "0123456789ab") sample_env sample_server) add_ok) as ([s r] & E & Hp).
  { vm_compute. reflexivity. }
  unfold add_ok in Hp. destruct r as [resp|]; [|discriminate Hp]. apply String.eqb_eq in Hp. exists s, resp. exact (conj E Hp).
Qed.

Lemma sample_readded s1 resp1 :
  sample_AddPod (sample_add "0123456789ab") sample_env sample_server = Val (s1, Ok resp1) ->
  exists ep s2 resp2, Endpoints s1 !! podKey "default" "web-1" = Some ep /\ ep_IP ep = [10; 244; 1; 2] /\
    sample_AddPod (sample_add "ba9876543210") sample_env s1 = Val (s2, Ok resp2).
Proof.
  intros E. assert (match sample_AddPod (sample_add "0123456789ab") sample_env sample_server with
    | Val (s1, _) =>
        match Endpoints s1 !! podKey "default" "web-1", sample_AddPod (sample_add "ba9876543210") sample_env s1 with
        | Some ep, Val (_, Ok _) => bool_decide (ep_IP ep = [10; 244; 1; 2])
        | _, _ => false
        end
    | _ => false end = true) as H by (vm_compute; reflexivity).
  rewrite E in H. clear E. destruct (Endpoints s1 !! _) as [ep|]; [|discriminate H].
  destruct (sample_AddPod _ _ s1) as [[s2 [resp2|]]| |]; [|discriminate H..]. apply bool_decide_eq_true in H.
  exists ep, s2, resp2. exact (conj eq_refl (conj H eq_refl)).
Qed.

Lemma pods_keep_their_addresses_witness :
  exists s rs, sample_run sample_server [OAdd (sample_add "0123456789ab") sample_env; ODel sample_del sample_env] = Val (s, rs).
Proof.
  destruct (pods_keep_their_addresses (DN := dp_reliable) (MI := iter_forward) match_labels None None
    "10.244.1.0/29" "/s" true (Some []) sample_alloc ∅ false [192; 168; 0; 1] true empty_tables None
    [OAdd (sample_add "0123456789ab") sample_env; ODel sample_del sample_env] sample_alloc_new ltac:(cbn; lia))
    as (s & rs & E & _).
  exists s, rs. exact E.
Defined.

Definition restarted_alloc : IpamAllocator.Allocator :=
  IpamAllocator.mkAllocator (mkIPNet [10; 244; 1; 0] [255; 255; 255; 248]) [10; 244; 1; 0] 8 (Bitmap.mkBitmap [135] 8)
    4 29 4 true "/s".

Lemma restarted_alloc_new :
  NewAllocatorWithStateDir "10.244.1.0/29" "/s" true (Some [("10.244.1.2", false)]) = Val (Ok restarted_alloc).
Proof. vm_compute. reflexivity. Qed.

Lemma restarted_taken : taken restarted_alloc (addr16 [10; 244; 1; 2]).
Proof.
  split; [apply (bool_decide_unpack _); vm_compute; exact I|].
  change (addr16 [10; 244; 1; 2] - lo_addr restarted_alloc) with 2. unfold reserved. cbn. lia.
Qed.

Lemma restart_orphans_addresses_witness :
  exists s rs, sample_run (NewServer restarted_alloc {["10.244.1.2"]} Identity.NewAllocator false [192; 168; 0; 1] true
    empty_tables None) [ODel sample_del sample_env] = Val (s, rs) /\ orphan s (addr16 [10; 244; 1; 2]).
Proof.
  exact (restart_orphans_addresses (DN := dp_reliable) (MI := iter_forward) match_labels None None
    "10.244.1.0/29" "/s" [("10.244.1.2", false)] restarted_alloc {["10.244.1.2"]} false [192; 168; 0; 1] true empty_tables
    None [ODel sample_del sample_env] (addr16 [10; 244; 1; 2]) restarted_alloc_new restarted_taken ltac:(cbn; lia)).
Defined.

Lemma readded_pod_orphans_address_witness :
  exists s1 resp1 s2 resp2 s3 rs,
    sample_AddPod (sample_add "0123456789ab") sample_env sample_server = Val (s1, Ok resp1) /\
    sample_AddPod (sample_add "ba9876543210") sample_env s1 = Val (s2, Ok resp2) /\
    sample_run s2 [ODel sample_del sample_env] = Val (s3, rs) /\ orphan s3 (addr16 [10; 244; 1; 2]).
Proof.
  destruct sample_added as (s1 & resp1 & E1 & _). destruct (sample_readded s1 resp1 E1) as (ep & s2 & resp2 & Hk & Hip & E2).
  destruct (AddPod_spec (DN := dp_reliable) (MI := iter_forward) match_labels None None (sample_add "0123456789ab") sample_env
    sample_server (ai_ipam _ _ sample_inv)) as (s1' & r & E1' & Hr).
  { split; [apply (ai_id _ _ sample_inv)|]. pose proof (ai_size _ _ sample_inv). lia. }
  rewrite E1 in E1'. injection E1' as <- <-. destruct Hr as (podIP & id & ifindex & Hadd & _).
  pose proof (agent_inv_added 0 sample_server s1 _ _ _ _ Hadd ltac:(lia) sample_inv) as Ha.
  destruct (readded_pod_orphans_address (DN := dp_reliable) (MI := iter_forward) match_labels None None (0 + 1) s1 s2
    (sample_add "ba9876543210") sample_env resp2 ep [ODel sample_del sample_env] Ha E2 Hk ltac:(cbn; lia)) as (s3 & rs & E3 & Ho).
  rewrite Hip in Ho. exists s1, resp1, s2, resp2, s3, rs. exact (conj E1 (conj E2 (conj E3 Ho))).
Defined.

Lemma added_pod_known_to_kernel_witness :
  exists s resp ep p4, sample_AddPod (sample_add "0123456789ab") sample_env sample_server = Val (s, Ok resp) /\
    lookup_identity (dp_tables (dp s)) (ip_val p4)
    = Some (wire_identity (IdentityID ep), mkEndpointValue (IfIndex ep) (MAC ep) (wire_identity (IdentityID ep)) 3232235521).
Proof.
  destruct sample_added as (s & resp & E & _).
  destruct (added_pod_known_to_kernel (DN := dp_reliable) (MI := iter_forward) match_labels None None 0 sample_server s
    (sample_add "0123456789ab") sample_env resp [192; 168; 0; 1] sample_inv ltac:(lia) E) as (ep & p4 & _ & _ & _ & _ & Hl);
    [intros k; reflexivity|reflexivity| |reflexivity|reflexivity|vm_compute; reflexivity|].
  - split; [by left|]. repeat (constructor; [unfold is_byte; cbn; lia|]). constructor.
  - exists s, resp, ep, p4. exact (conj E Hl).
Defined.

Lemma del_undoes_add_witness :
  exists s1 resp s2, sample_AddPod (sample_add "0123456789ab") sample_env sample_server = Val (s1, Ok resp) /\
    DelPod (DN := dp_reliable) sample_del sample_env s1 = Val s2 /\ held (IPAlloc s2) = held sample_alloc /\
    ENDPOINTS (dp_tables (dp s2)) = ∅.
Proof.
  destruct sample_added as (s1 & resp & E & Hip).
  destruct (del_undoes_add (DN := dp_reliable) (MI := iter_forward) match_labels None None 0 sample_server s1
    (sample_add "0123456789ab") sample_env resp sample_env sample_inv ltac:(lia) E eq_refl) as (s2 & E2 & _ & _ & Hh & Hd).
  assert (forall a b c d, Forall is_byte [a; b; c; d] -> wf_ip [a; b; c; d]) as Hwf by (intros; by split; [left|]).
  exists s1, resp, s2. split; [exact E|]. split; [exact E2|]. split; [exact Hh|].
  rewrite (Hd (fun _ => eq_refl) [10; 244; 1; 2] [10; 244; 1; 2] [192; 168; 0; 1] eq_refl); [reflexivity| |reflexivity| |reflexivity| |reflexivity|vm_compute; reflexivity].
  - apply Hwf. repeat (constructor; [unfold is_byte; lia|]). constructor.
  - apply Hwf. repeat (constructor; [unfold is_byte; lia|]). constructor.
  - rewrite Hip. vm_compute. reflexivity.
Defined.

Lemma fresh_histories_account_witness :
  exists s rs, sample_run sample_server [OAdd (sample_add "0123456789ab") sample_env; ODel sample_del sample_env] = Val (s, rs)
    /\ accounted s.
Proof.
  destruct (fresh_histories_account (DN := dp_reliable) (MI := iter_forward) match_labels None None
    "10.244.1.0/29" "/s" sample_alloc ∅ false [192; 168; 0; 1] true empty_tables None
    [OAdd (sample_add "0123456789ab") sample_env; ODel sample_del sample_env] sample_alloc_new ltac:(cbn; lia))
    as (s & rs & E & Ha & _).
  - split; [reflexivity|]. intros s' r _. split; [exact I|]. intros s'' r' _. exact I.
  - exists s, rs. exact (conj E Ha).
Defined.

Lemma sample_failed :
  exists s c, sample_AddPod (sample_add "0123456789ab") failing_env sample_server = Val (s, Err c).
Proof.
  destruct (outcome_elim (sample_AddPod (sample_add "0123456789ab") failing_env sample_server)
    (fun x => match x.2 with Ok _ => false | Err _ => true end)) as ([s r] & E & Hp).
  { vm_compute. reflexivity. }
  destruct r as [resp|c]; [discriminate Hp|]. exists s, c. exact E.
Qed.

Lemma failed_add_rolls_back_witness :
  exists s c, sample_AddPod (sample_add "0123456789ab") failing_env sample_server = Val (s, Err c) /\
    held (IPAlloc s) = held sample_alloc.
Proof.
  destruct sample_failed as (s & c & E).
  destruct (failed_add_rolls_back (DN := dp_reliable) (MI := iter_forward) match_labels None None 0 sample_server
    (sample_add "0123456789ab") failing_env s c sample_inv ltac:(lia) E) as (Hh & _).
  exists s, c. exact (conj E Hh).
Defined.
