(* ===== verification/CpVip.v ===== *)
(** The control-plane address (internal/agent/cpvip/manager.go): the manager checks
    the API servers of the control-plane nodes, keeps the service entry of the
    virtual address on the healthy ones, and announces the address over BGP and on
    the loopback interface while the local one is healthy.  Node lists, health
    checks, interface addresses and the loopback calls are inputs of a cycle. *)

From Stdlib Require Import ZArith Lia Ascii String.
From stdpp Require Import base tactics list gmap strings fin_maps.
From S2P Require Import Prelude GoStrings GoMap GoNet GoCidr RustNet Constants SlotAllocator ServiceWatcher EbpfMaps Dataplane DpClient.
From S2P Require Import GoUtf8 GoText Intent RoutingManager.

Definition backendBaseOffset : Z := 65520.
Definition apiServerPort : Z := 6443.

Record Config := mkVipConfig {
  VIP : string; HealthInterval : Z; HealthTimeout : Z; NodeName : string; IsControlPlane : bool }.

(** [Manager]; [dpClient] and [routingMgr] may be nil.  [loopback] holds the
    addresses the manager has put on the loopback interface. *)
Record VipManager := mkVip {
  cfg : Config; dpClient : option Client; routingMgr : option RoutingManager.Manager;
  vip_backends : gmap string bool; bgpAdvertised : bool; loopbackBound : bool; loopback : gset string }.

Definition set_dpClient d m := mkVip (cfg m) d (routingMgr m) (vip_backends m) (bgpAdvertised m) (loopbackBound m) (loopback m).
Definition set_routing r adv m := mkVip (cfg m) (dpClient m) r (vip_backends m) adv (loopbackBound m) (loopback m).
Definition set_vip_backends b m := mkVip (cfg m) (dpClient m) (routingMgr m) b (bgpAdvertised m) (loopbackBound m) (loopback m).
Definition set_loopback b l m := mkVip (cfg m) (dpClient m) (routingMgr m) (vip_backends m) (bgpAdvertised m) b l.

Definition NewVipManager (c : Config) (d : option Client) (r : option RoutingManager.Manager) : VipManager :=
  let second := 10 ^ 9 in
  mkVip (mkVipConfig (VIP c) (if HealthInterval c =? 0 then 5 * second else HealthInterval c)
           (if HealthTimeout c =? 0 then 3 * second else HealthTimeout c) (NodeName c) (IsControlPlane c))
    d r ∅ false false ∅.

Definition vipPrefix (ip : string) : string := if contains ip ":" then "/128" else "/32".
Definition vipCIDR (m : VipManager) : string := VIP (cfg m) +:+ vipPrefix (VIP (cfg m)).

(** A node of the list, with its labels already matched: its addresses by type. *)
Abbreviation node_addresses := (list (string * string)).

Fixpoint internal_ip (l : node_addresses) : option string :=
  match l with
  | [] => None
  | (ty, a) :: rest => if String.eqb ty "InternalIP" then Some a else internal_ip rest
  end.

(** [discoverCPNodes]; [None] is an error of the API. *)
Definition discoverCPNodes (nodes : option (list node_addresses)) : option (list string) :=
  match nodes with None => None | Some l => Some (omap internal_ip l) end.

(** The answer to a health check: none, or an HTTP status. *)
Definition checkHealth (answer : option Z) : bool :=
  match answer with None => false | Some code => negb (500 <=? code) end.

(** [mapsEqual]: a missing key reads as false. *)
Definition mapsEqual (a b : gmap string bool) : bool :=
  (size a =? size b)%nat && forallb (fun '(k, v) => Bool.eqb (default false (b !! k)) v) (map_to_list a).

(** What a cycle sees: the nodes, the answers of the API servers, the addresses of
    the host (in the order of the interfaces), whether the calls on the loopback
    interface succeed, and the time. *)
Record cycle := mkCycle {
  y_nodes : option (list node_addresses); y_answer : string -> option Z; y_local : option (list string);
  y_loopback_ok : bool; y_now : Z }.

Section Manager.
Context {DN : DpNet} {MI : MapIter}.

Fixpoint backend_entries (i : Z) (l : list string) : list Backend :=
  match l with
  | [] => []
  | ip :: rest => mkLBBackend (backendBaseOffset + i) ip apiServerPort ip :: backend_entries (i + 1) rest
  end.

Definition updateDataplane (healthyIPs : list string) (m : VipManager) : VipManager :=
  match dpClient m with
  | None => m
  | Some c =>
      let n := Z.of_nat (length healthyIPs) in
      let backends := backend_entries 0 healthyIPs in
      let '(r, c) := if (0 <? length backends)%nat then UpsertBackends backends c else (Ok tt, c) in
      match r with
      | Err _ => set_dpClient (Some c) m
      | Ok _ =>
          let '(_, c) := UpsertServiceEntry
            (mkServiceConfig (VIP (cfg m)) apiServerPort ProtocolTCP ScopeClusterIP n backendBaseOffset AlgRoundRobin 0 0 0) c in
          set_dpClient (Some c) m
      end
  end.

Definition manageBGP (now : Z) (localHealthy : bool) (m : VipManager) : VipManager :=
  match routingMgr m with
  | None => m
  | Some r =>
      if localHealthy && negb (bgpAdvertised m) then
        match AdvertisePrefix now (vipCIDR m) r with
        | (Ok _, r') => set_routing (Some r') true m
        | (Err _, r') => set_routing (Some r') false m
        end
      else if negb localHealthy && bgpAdvertised m then
        match WithdrawPrefix (vipCIDR m) r with
        | (Ok _, r') => set_routing (Some r') false m
        | (Err _, r') => set_routing (Some r') true m
        end
      else m
  end.

Definition manageLoopback (ok localHealthy : bool) (m : VipManager) : VipManager :=
  if localHealthy && negb (loopbackBound m) then
    set_loopback true (if ok then loopback m ∪ {[vipCIDR m]} else loopback m) m
  else if negb localHealthy && loopbackBound m then
    set_loopback false (if ok then loopback m ∖ {[vipCIDR m]} else loopback m) m
  else m.

Fixpoint first_local (locals : list string) (ips : list string) : string :=
  match ips with
  | [] => ""
  | ip :: rest => if bool_decide (ip ∈ locals) then ip else first_local locals rest
  end.

Definition localIP (locals : option (list string)) (cpNodeIPs : list string) : string :=
  match locals with None => "" | Some l => first_local l cpNodeIPs end.

Definition healthy_map (answer : string -> option Z) (l : list string) : gmap string bool :=
  foldl (fun m ip => <[ip := checkHealth (answer ip)]> m) ∅ l.

Definition reconcile (y : cycle) (m : VipManager) : VipManager :=
  match discoverCPNodes (y_nodes y) with
  | None => m
  | Some cpNodes =>
      if (length cpNodes =? 0)%nat then m
      else
        let healthy := healthy_map (y_answer y) cpNodes in
        let changed := negb (mapsEqual (vip_backends m) healthy) in
        let m := set_vip_backends healthy m in
        if negb changed then m
        else
          let healthyIPs := (filter (fun p => p.2 = true) (iter healthy)).*1 in
          let m := updateDataplane healthyIPs m in
          if IsControlPlane (cfg m) then
            let localHealthy := default false (healthy !! localIP (y_local y) cpNodes) in
            manageLoopback (y_loopback_ok y) localHealthy (manageBGP (y_now y) localHealthy m)
          else m
  end.

Definition vip_shutdown (ok : bool) (m : VipManager) : VipManager :=
  if IsControlPlane (cfg m) then
    let m := match routingMgr m with
             | Some r => if bgpAdvertised m then set_routing (Some (WithdrawPrefix (vipCIDR m) r).2) (bgpAdvertised m) m else m
             | None => m
             end in
    if loopbackBound m then set_loopback (loopbackBound m) (if ok then loopback m ∖ {[vipCIDR m]} else loopback m) m else m
  else m.

(** [Run]: the cycles until the context ends. *)
Definition vip_run (cycles : list cycle) (m : VipManager) : VipManager := foldl (fun m y => reconcile y m) m cycles.

End Manager.

(** * Health *)

Lemma healthy_map_lookup answer l ip :
  healthy_map answer l !! ip = if decide (ip ∈ l) then Some (checkHealth (answer ip)) else None.
Proof.
  unfold healthy_map. assert (forall m : gmap string bool, foldl (fun m ip => <[ip := checkHealth (answer ip)]> m) m l !! ip
    = if decide (ip ∈ l) then Some (checkHealth (answer ip)) else m !! ip) as H; [|by rewrite H].
  induction l as [|x l IH]; intros m; cbn [foldl]; [done|]. rewrite IH. destruct (decide (ip ∈ l)).
  - rewrite decide_True by (by right). done.
  - destruct (decide (ip = x)) as [->|Hne].
    + rewrite decide_True by left. by rewrite lookup_insert_eq.
    + rewrite decide_False by (rewrite elem_of_cons; tauto). by rewrite lookup_insert_ne.
Qed.

Lemma healthy_map_dom answer l : dom (healthy_map answer l) = list_to_set l.
Proof.
  apply set_eq. intros x. rewrite elem_of_dom, elem_of_list_to_set, healthy_map_lookup.
  destruct (decide (x ∈ l)); split; intros H; done.
Qed.

(** On maps with the same keys [mapsEqual] is equality. *)
Lemma mapsEqual_dom a b : dom a = dom b -> mapsEqual a b = true <-> a = b.
Proof.
  intros Hd. unfold mapsEqual. rewrite andb_true_iff, forallb_forall. split.
  - intros [_ H]. apply map_eq. intros k. destruct (a !! k) as [v|] eqn:Ea.
    + assert (k ∈ dom b) as [w Hw]%elem_of_dom by (rewrite <- Hd; by eapply elem_of_dom_2).
      specialize (H (k, v)). cbn in H. rewrite Hw in H. cbn in H. rewrite Hw. f_equal. symmetry. apply Bool.eqb_prop, H.
      by apply list_elem_of_In, elem_of_map_to_list.
    + symmetry. apply not_elem_of_dom. rewrite <- Hd. by apply not_elem_of_dom.
  - intros ->. split; [by apply Nat.eqb_eq|]. intros [k v] H%list_elem_of_In%elem_of_map_to_list. rewrite H. by destruct v.
Qed.

(** * The service entry *)

Definition v4_of (ip : string) : Z := match parse_ip ip with Some (V4 a) => a | _ => 0 end.
Definition is_v4 (ip : string) : Prop := parse_ip ip = Some (V4 (v4_of ip)).

Definition vip_key (vip : string) : EbpfMaps.ServiceKey := mkServiceKey (v4_of vip) 6443 ProtocolTCP ScopeClusterIP.

(** The tables direct the virtual address to exactly the addresses of [l]. *)
Definition serves (t : tables) (vip : string) (l : list string) : Prop :=
  SERVICES t !! vip_key vip = Some (mkServiceValue (Z.of_nat (length l)) backendBaseOffset AlgRoundRobin 0 0 0) /\
  forall i ip, l !! i = Some ip ->
    BACKENDS t !! (backendBaseOffset + Z.of_nat i) = Some (mkBackendValue (v4_of ip) apiServerPort (v4_of ip)).

Definition entry_of (b : Backend) : BackendEntry := mkBackend (be_Index b) (be_IP b) (be_Port b) (be_NodeIP b).

Lemma backends_written l : Forall is_v4 l -> forall i t, 0 <= i -> i + Z.of_nat (length l) <= 16 ->
  exists t', upsert_backends t (entry_of <$> backend_entries i l) = (t', Ok tt) /\ SERVICES t' = SERVICES t /\
    (forall j, j < backendBaseOffset + i -> BACKENDS t' !! j = BACKENDS t !! j) /\
    forall j ip, l !! j = Some ip ->
      BACKENDS t' !! (backendBaseOffset + i + Z.of_nat j) = Some (mkBackendValue (v4_of ip) apiServerPort (v4_of ip)).
Proof.
  unfold upsert_backends, backendBaseOffset. induction 1 as [|ip l Hip _ IH]; intros i t Hi Hl; cbn [backend_entries fmap list_fmap for_each].
  { exists t. split; [done|]. split; [done|]. split; [done|]. intros j ip H. by rewrite lookup_nil in H. }
  unfold upsert_backend at 1. cbn [entry_of b_Ip b_NodeIp b_Index b_Port be_IP be_NodeIP be_Index be_Port]. rewrite Hip.
  unfold array_set, backendBaseOffset. cbn [length] in Hl.
  rewrite (proj2 (Z.ltb_lt _ _)) by (unfold MAX_BACKENDS; lia). cbn [commit].
  set (t1 := set_BACKENDS t _). destruct (IH (i + 1) t1) as (t' & E & Hs & Hlow & Hat); [lia..|].
  exists t'. split; [exact E|]. split; [by rewrite Hs|]. split.
  - intros j Hj. rewrite Hlow by lia. cbn. rewrite lookup_insert_ne by lia. done.
  - intros [|j] ip' Hj; cbn in Hj.
    + injection Hj as <-. change (Z.of_nat 0) with 0. rewrite Z.add_0_r, Hlow by lia. cbn [t1 BACKENDS set_BACKENDS].
      by rewrite lookup_insert_eq.
    + specialize (Hat j ip' Hj). replace (65520 + i + Z.of_nat (S j)) with (65520 + (i + 1) + Z.of_nat j) by lia. done.
Qed.

Lemma updateDataplane_serves m c l :
  dpClient m = Some c -> client c = true -> Forall is_v4 l -> (length l <= 16)%nat -> is_v4 (VIP (cfg m)) ->
  (Z.of_nat (size (SERVICES (dp_tables (link c)))) < MAX_SERVICES \/ is_Some (SERVICES (dp_tables (link c)) !! vip_key (VIP (cfg m)))) ->
  exists c', updateDataplane (DN := dp_reliable) l m = set_dpClient (Some c') m /\ client c' = true /\
    serves (dp_tables (link c')) (VIP (cfg m)) l.
Proof.
  intros Hc Hcl Hl Hlen Hvip Hcap. unfold updateDataplane. rewrite Hc.
  destruct (backends_written l Hl 0 (dp_tables (link c))) as (t' & Et & Hs & _ & Hat); [lia..|].
  assert (exists c1, (if (0 <? length (backend_entries 0 l))%nat then UpsertBackends (DN := dp_reliable) (backend_entries 0 l) c else (Ok tt, c))
    = (Ok tt, c1) /\ client c1 = true /\ dp_tables (link c1) = t') as (c1 & -> & Hc1 & Ht1).
  { destruct (0 <? length (backend_entries 0 l))%nat eqn:E.
    - unfold UpsertBackends, call. rewrite Hcl. unfold rpc, dp_net, dp_reliable. fold (fmap entry_of (backend_entries 0 l)).
      change (fmap (fun b => mkBackend (be_Index b) (be_IP b) (be_Port b) (be_NodeIP b)) (backend_entries 0 l))
        with (entry_of <$> backend_entries 0 l). rewrite Et. by eexists.
    - destruct l; [|done]. cbn in Et. injection Et as <-. by exists c. }
  unfold UpsertServiceEntry, call. rewrite Hc1. unfold rpc, dp_net, dp_reliable. rewrite Ht1.
  unfold upsert_service. cbn [k_Ip sc_IP]. rewrite Hvip.
  assert (service_key (v4_of (VIP (cfg m))) (mkKey (VIP (cfg m)) apiServerPort ProtocolTCP ScopeClusterIP) = vip_key (VIP (cfg m))) as Hk by done.
  cbn [sc_Port sc_Protocol sc_Scope sc_BackendCount sc_BackendOffset sc_Algorithm sc_Flags sc_AffinityTimeout sc_MaglevOffset].
  rewrite Hk. set (v := service_value _).
  assert (hash_insert MAX_SERVICES (SERVICES t') (vip_key (VIP (cfg m))) v = Some (<[vip_key (VIP (cfg m)) := v]> (SERVICES t'))) as ->.
  { unfold hash_insert. rewrite Hs. destruct (SERVICES (dp_tables (link c)) !! vip_key (VIP (cfg m))) eqn:Ek; [done|].
    destruct Hcap as [Hcap|[? Hcap]]; [|congruence]. by rewrite (proj2 (Z.ltb_lt _ _)). }
  cbn [commit]. eexists. split; [reflexivity|]. split; [done|]. split.
  - cbn. rewrite lookup_insert_eq. unfold v, service_value, wrap16, wrap8. cbn. rewrite Z.mod_small by lia. done.
  - intros i ip Hi. cbn. specialize (Hat i ip Hi). by replace (backendBaseOffset + Z.of_nat i) with (backendBaseOffset + 0 + Z.of_nat i) by lia.
Qed.

(** * Cycles *)

Section Cycles.
Context {DN : DpNet} {MI : MapIter}.

Definition healthy_ips (h : gmap string bool) : list string := (filter (fun p => p.2 = true) (iter h)).*1.

Lemma healthy_ips_elem h ip : ip ∈ healthy_ips h <-> h !! ip = Some true.
Proof.
  unfold healthy_ips. rewrite list_elem_of_fmap. split.
  - intros ([k v] & -> & [Hv H%elem_of_iter]%list_elem_of_filter). cbn in *. by subst.
  - intros H. exists (ip, true). split; [done|]. apply list_elem_of_filter. split; [done|]. by apply elem_of_iter.
Qed.

Lemma healthy_ips_NoDup h : NoDup (healthy_ips h).
Proof.
  unfold healthy_ips. apply NoDup_fmap_2_strong.
  - intros [k v] [k' v'] [_ H1%elem_of_iter]%list_elem_of_filter [_ H2%elem_of_iter]%list_elem_of_filter [= <-]. congruence.
  - apply NoDup_filter. rewrite iter_perm. apply NoDup_map_to_list.
Qed.

Lemma healthy_ips_length answer l : (length (healthy_ips (healthy_map answer l)) <= length l)%nat.
Proof.
  apply submseteq_length, NoDup_submseteq; [apply healthy_ips_NoDup|]. intros ip H%healthy_ips_elem.
  rewrite healthy_map_lookup in H. by destruct (decide (ip ∈ l)).
Qed.

(** The announcements leave the health map and the dataplane alone. *)
Lemma manageBGP_frame now h m :
  dpClient (manageBGP now h m) = dpClient m /\ vip_backends (manageBGP now h m) = vip_backends m /\ cfg (manageBGP now h m) = cfg m.
Proof.
  unfold manageBGP. destruct (routingMgr m) as [r|]; [|done].
  destruct (h && _); [destruct (AdvertisePrefix _ _ _) as [[]]; done|].
  destruct (negb h && _); [destruct (WithdrawPrefix _ _) as [[]]; done|done].
Qed.

Lemma manageLoopback_frame ok h m :
  dpClient (manageLoopback ok h m) = dpClient m /\ vip_backends (manageLoopback ok h m) = vip_backends m /\ cfg (manageLoopback ok h m) = cfg m.
Proof. unfold manageLoopback. by repeat case_match. Qed.

Lemma updateDataplane_frame l m :
  vip_backends (updateDataplane l m) = vip_backends m /\ cfg (updateDataplane l m) = cfg m.
Proof. unfold updateDataplane. by repeat case_match. Qed.

Lemma reconcile_changed y m ips :
  discoverCPNodes (y_nodes y) = Some ips -> ips <> [] -> mapsEqual (vip_backends m) (healthy_map (y_answer y) ips) = false ->
  let h := healthy_map (y_answer y) ips in
  vip_backends (reconcile y m) = h /\ cfg (reconcile y m) = cfg m /\
  dpClient (reconcile y m) = dpClient (updateDataplane (healthy_ips h) (set_vip_backends h m)).
Proof.
  intros Hd Hne He h. unfold reconcile. rewrite Hd. destruct ips as [|ip ips]; [done|]. cbn [length Nat.eqb]. fold h in He |- *.
  rewrite He. cbn [negb]. fold (healthy_ips h). destruct (updateDataplane_frame (healthy_ips h) (set_vip_backends h m)) as [H1 H2].
  destruct (IsControlPlane _); [|done].
  match goal with |- context [manageLoopback ?ok ?b (manageBGP ?now ?b ?m')] =>
    destruct (manageLoopback_frame ok b (manageBGP now b m')) as (-> & -> & ->), (manageBGP_frame now b m') as (-> & -> & ->) end.
  done.
Qed.

Lemma reconcile_same y m ips :
  discoverCPNodes (y_nodes y) = Some ips -> mapsEqual (vip_backends m) (healthy_map (y_answer y) ips) = true ->
  reconcile y m = if decide (ips = []) then m else set_vip_backends (healthy_map (y_answer y) ips) m.
Proof.
  intros Hd He. unfold reconcile. rewrite Hd. destruct ips as [|ip ips]; [done|]. cbn [length Nat.eqb]. rewrite He. done.
Qed.

Lemma set_vip_backends_id m : set_vip_backends (vip_backends m) m = m.
Proof. by destruct m. Qed.

(** A second cycle that sees the same does nothing. *)
Lemma reconcile_again y m ips :
  discoverCPNodes (y_nodes y) = Some ips -> vip_backends m = healthy_map (y_answer y) ips -> reconcile y m = m.
Proof.
  intros Hd Hb. rewrite (reconcile_same y m ips Hd) by (rewrite Hb; by apply mapsEqual_dom).
  case_decide; [done|]. rewrite <- Hb. apply set_vip_backends_id.
Qed.

Lemma reconcile_backends y m ips :
  discoverCPNodes (y_nodes y) = Some ips -> ips <> [] -> vip_backends (reconcile y m) = healthy_map (y_answer y) ips.
Proof.
  intros Hd Hne. destruct (mapsEqual (vip_backends m) (healthy_map (y_answer y) ips)) eqn:E.
  - rewrite (reconcile_same y m ips Hd E). by rewrite decide_False.
  - by apply reconcile_changed.
Qed.

Lemma vip_run_again y ips m n :
  discoverCPNodes (y_nodes y) = Some ips -> vip_backends m = healthy_map (y_answer y) ips -> vip_run (replicate n y) m = m.
Proof.
  intros Hd Hb. induction n as [|n IH]; [done|]. cbn [replicate vip_run foldl].
  change (vip_run (replicate n y) (reconcile y m) = m). by rewrite (reconcile_again y m ips Hd Hb).
Qed.

End Cycles.

(** The dataplane of [m] serves the healthy nodes that [m] has on record. *)
Definition synced {MI : MapIter} (m : VipManager) : Prop :=
  exists c, dpClient m = Some c /\ client c = true /\ serves (dp_tables (link c)) (VIP (cfg m)) (healthy_ips (vip_backends m)).

Lemma reconcile_synced {MI : MapIter} y m ips c :
  discoverCPNodes (y_nodes y) = Some ips -> ips <> [] -> Forall is_v4 ips -> (length ips <= 16)%nat -> is_v4 (VIP (cfg m)) ->
  dpClient m = Some c -> client c = true ->
  (vip_backends m = ∅ /\ Z.of_nat (size (SERVICES (dp_tables (link c)))) < MAX_SERVICES \/
   synced m /\ dom (vip_backends m) = list_to_set ips) ->
  let m' := reconcile (DN := dp_reliable) y m in
  synced m' /\ vip_backends m' = healthy_map (y_answer y) ips /\ cfg m' = cfg m.
Proof.
  intros Hd Hne Hv4 Hlen Hvip Hc Hcl Hm m'. set (h := healthy_map (y_answer y) ips).
  destruct (mapsEqual (vip_backends m) h) eqn:E.
  - destruct Hm as [[Hm _]|[Hm Hdom]].
    { exfalso. unfold mapsEqual in E. rewrite Hm, map_size_empty in E. apply andb_true_iff in E as [E _]. apply Nat.eqb_eq in E.
      symmetry in E. apply map_size_empty_iff in E. pose proof (healthy_map_dom (y_answer y) ips) as Hd'. fold h in Hd'.
      rewrite E, dom_empty_L in Hd'. destruct ips; [done|]. set_solver. }
    apply mapsEqual_dom in E; [|unfold h; by rewrite Hdom, healthy_map_dom].
    assert (m' = m) as -> by (apply (reconcile_again y m ips Hd E)). done.
  - destruct (reconcile_changed (DN := dp_reliable) y m ips Hd Hne E) as (Hb & Hcfg & Hdp). fold h in Hb, Hdp.
    assert (Forall is_v4 (healthy_ips h)) as Hh.
    { apply Forall_forall. intros ip Hip%healthy_ips_elem. unfold h in Hip. rewrite healthy_map_lookup in Hip.
      rewrite Forall_forall in Hv4. apply Hv4. by destruct (decide (ip ∈ ips)). }
    destruct (updateDataplane_serves (set_vip_backends h m) c (healthy_ips h)) as (c' & Eu & Hc' & Hs); try done.
    { etrans; [apply healthy_ips_length|done]. }
    { destruct Hm as [[_ Hm]|[(c0 & Hc0 & _ & Hsv & _) _]]; [by left|right]. rewrite Hc in Hc0. injection Hc0 as <-. by eexists. }
    split; [|by split]. exists c'. unfold m'. rewrite Hdp, Eu. split; [done|]. split; [done|]. rewrite Hb, Hcfg. exact Hs.
Qed.

(** C34: The service entry of the control-plane address follows the health of the
    nodes.  A new manager with a working dataplane that sees the same control-plane
    nodes in every cycle directs the address, after any number of cycles, to exactly
    the nodes that were healthy in the last one, each at one slot. *)
Theorem vip_serves_healthy_nodes {MI : MapIter} c r cl ips cycles y :
  client cl = true -> Z.of_nat (size (SERVICES (dp_tables (link cl)))) < MAX_SERVICES -> is_v4 (VIP c) ->
  ips <> [] -> Forall is_v4 ips -> (length ips <= 16)%nat ->
  Forall (fun y => discoverCPNodes (y_nodes y) = Some ips) (cycles ++ [y]) ->
  let m := vip_run (DN := dp_reliable) (cycles ++ [y]) (NewVipManager c (Some cl) r) in
  exists c' l, dpClient m = Some c' /\ serves (dp_tables (link c')) (VIP c) l /\ NoDup l /\
    forall ip, ip ∈ l <-> ip ∈ ips /\ checkHealth (y_answer y ip) = true.
Proof.
  intros Hcl Hcap Hvip Hne Hv4 Hlen Hall m. apply Forall_app in Hall as [Hall Hy].
  apply Forall_cons in Hy as [Hy _].
  assert (exists m0, m = reconcile (DN := dp_reliable) y m0 /\ cfg m0 = cfg (NewVipManager c (Some cl) r) /\
    exists c0, dpClient m0 = Some c0 /\ client c0 = true /\
    (vip_backends m0 = ∅ /\ Z.of_nat (size (SERVICES (dp_tables (link c0)))) < MAX_SERVICES \/
     synced m0 /\ dom (vip_backends m0) = list_to_set ips)) as (m0 & Em & Hcfg0 & c0 & Hc0 & Hcl0 & Hm0).
  { exists (vip_run (DN := dp_reliable) cycles (NewVipManager c (Some cl) r)).
    split; [unfold m, vip_run; by rewrite foldl_app|]. clear m y Hy.
    induction cycles as [|y cycles IH] using rev_ind; [split; [done|]; exists cl; split; [done|]; split; [done|by left]|].
    apply Forall_app in Hall as [Hall Hy]. apply Forall_cons in Hy as [Hy _].
    destruct (IH Hall) as (Hcfg & c0 & Hc0 & Hcl0 & Hm0). unfold vip_run. rewrite foldl_app. cbn [foldl].
    fold (vip_run (DN := dp_reliable) cycles (NewVipManager c (Some cl) r)). set (m0 := vip_run _ _) in *.
    destruct (reconcile_synced y m0 ips c0 Hy Hne Hv4 Hlen) as (Hs & Hb & Hcfg'); [by rewrite Hcfg|done..|].
    split; [congruence|]. pose proof Hs as (c1 & Hc1 & Hcl1 & _). exists c1. split; [done|]. split; [done|]. right. split; [done|].
    by rewrite Hb, healthy_map_dom. }
  destruct (reconcile_synced y m0 ips c0 Hy Hne Hv4 Hlen) as ((c' & Hc' & _ & Hs) & Hb & Hcfg); [by rewrite Hcfg0|done..|].
  rewrite <- Em in *. exists c', (healthy_ips (vip_backends m)). split; [done|]. rewrite Hcfg, Hcfg0 in Hs. split; [done|].
  split; [apply healthy_ips_NoDup|]. intros ip. rewrite healthy_ips_elem, Hb, healthy_map_lookup.
  destruct (decide (ip ∈ ips)); split; try tauto; [intros [= ->]; done|intros [_ ->]; done|done].
Qed.

Definition cp_node (ip : string) : node_addresses := [("Hostname", "cp"); ("InternalIP", ip)].

Definition sample_cycle (healthy : list string) : cycle :=
  mkCycle (Some [cp_node "192.168.0.1"; cp_node "192.168.0.2"])
    (fun ip => if bool_decide (ip ∈ healthy) then Some 401 else None) (Some ["192.168.0.9"]) true 0.

Definition sample_vip : Config := mkVipConfig "192.168.0.100" 0 0 "node" false.

Definition sample_client : Client := mkClient "/run/novanet/dataplane.sock" true (mkDpc empty_tables 0).

Lemma vip_serves_healthy_nodes_witness :
  let m := vip_run (DN := dp_reliable) (MI := iter_forward)
    ([sample_cycle ["192.168.0.1"; "192.168.0.2"]] ++ [sample_cycle ["192.168.0.2"]])
    (NewVipManager sample_vip (Some sample_client) None) in
  exists c' l, dpClient m = Some c' /\ serves (dp_tables (link c')) "192.168.0.100" l /\ NoDup l /\
    forall ip, ip ∈ l <-> ip ∈ ["192.168.0.1"; "192.168.0.2"] /\ checkHealth (y_answer (sample_cycle ["192.168.0.2"]) ip) = true.
Proof.
  apply (vip_serves_healthy_nodes (MI := iter_forward) sample_vip None sample_client ["192.168.0.1"; "192.168.0.2"]
           [sample_cycle ["192.168.0.1"; "192.168.0.2"]] (sample_cycle ["192.168.0.2"]));
    [reflexivity|reflexivity|reflexivity|discriminate| |cbn; lia|].
  - repeat (constructor; [reflexivity|]). constructor.
  - repeat (constructor; [reflexivity|]). constructor.
Defined.

(** When the only control-plane node was unhealthy and is replaced by a healthy
    one with another address, the manager does not notice: the comparison reads the
    missing node as unhealthy.  The service entry, the announcement and the loopback
    address stay as they are, in that cycle and in all later ones that see the same. *)
Theorem replaced_node_unnoticed {DN : DpNet} {MI : MapIter} m x z y n :
  vip_backends m = {[x := false]} -> discoverCPNodes (y_nodes y) = Some [z] -> x <> z -> checkHealth (y_answer y z) = true ->
  vip_run (replicate (S n) y) m = set_vip_backends {[z := true]} m.
Proof.
  intros Hb Hd Hne Hh. cbn [replicate vip_run foldl]. change (vip_run (replicate n y) (reconcile y m) = set_vip_backends {[z := true]} m).
  assert (healthy_map (y_answer y) [z] = {[z := true]}) as Eh by (unfold healthy_map; cbn; by rewrite Hh).
  assert (reconcile y m = set_vip_backends {[z := true]} m) as ->.
  { rewrite (reconcile_same y m [z] Hd); [by rewrite decide_False, Eh|]. rewrite Eh, Hb. unfold mapsEqual.
    rewrite !map_size_singleton, map_to_list_singleton. cbn. by rewrite lookup_singleton_ne. }
  apply (vip_run_again y [z]); [done|]. by rewrite Eh.
Qed.

Lemma replaced_node_unnoticed_witness :
  let y z code := mkCycle (Some [cp_node z]) (fun _ => code) (Some []) true 0 in
  let m0 := NewVipManager sample_vip (Some sample_client) None in
  let m1 := reconcile (DN := dp_reliable) (MI := iter_forward) (y "192.168.0.1" None) m0 in
  vip_run (DN := dp_reliable) (MI := iter_forward) (replicate 3 (y "192.168.0.2" (Some 200))) m1
  = set_vip_backends {["192.168.0.2" := true]} m1.
Proof.
  intros y m0 m1. apply (replaced_node_unnoticed (DN := dp_reliable) (MI := iter_forward) m1 "192.168.0.1" "192.168.0.2");
    [vm_compute; reflexivity|reflexivity|discriminate|reflexivity].
Defined.

(** Calls that do not reach the dataplane leave its tables alone. *)
Lemma call_lost {DN : DpNet} f c :
  dp_net (dp_sent (link c)) = Lost ->
  exists r c', call f c = (r, c') /\ dp_tables (link c') = dp_tables (link c) /\ r <> Ok tt.
Proof. intros E. unfold call, rpc. rewrite E. destruct (client c); eexists _, _; (split; [reflexivity|]); split; done. Qed.

(** An update that fails is not tried again.  When the first call of a cycle is
    lost, the manager still records the health it saw; the tables of the dataplane
    keep what they had, in that cycle and in all later ones that see the same. *)
Theorem failed_update_never_retried {DN : DpNet} {MI : MapIter} m c y ips n :
  dpClient m = Some c -> dp_net (dp_sent (link c)) = Lost -> discoverCPNodes (y_nodes y) = Some ips -> ips <> [] ->
  let m' := vip_run (replicate (S n) y) m in
  vip_backends m' = healthy_map (y_answer y) ips /\
  exists c', dpClient m' = Some c' /\ dp_tables (link c') = dp_tables (link c).
Proof.
  intros Hc Hlost Hd Hne m'. pose proof (reconcile_backends y m ips Hd Hne) as Hb.
  assert (m' = reconcile y m) as ->.
  { unfold m'. cbn [replicate vip_run foldl]. change (vip_run (replicate n y) (reconcile y m) = reconcile y m).
    by apply (vip_run_again y ips). }
  split; [done|]. destruct (mapsEqual (vip_backends m) (healthy_map (y_answer y) ips)) eqn:E.
  - rewrite (reconcile_same y m ips Hd E), decide_False by done. by exists c.
  - destruct (reconcile_changed y m ips Hd Hne E) as (_ & _ & ->). unfold updateDataplane. cbn [dpClient set_vip_backends]. rewrite Hc.
    destruct (0 <? _)%nat.
    + unfold UpsertBackends. match goal with |- context [call ?f c] => destruct (call_lost f c Hlost) as (r & c' & -> & Ht & Hr) end.
      destruct r as [[]|]; [done|]. cbn. by exists c'.
    + unfold UpsertServiceEntry. match goal with |- context [call ?f c] => destruct (call_lost f c Hlost) as (r & c' & -> & Ht & Hr) end.
      cbn. by exists c'.
Qed.

Lemma failed_update_never_retried_witness :
  let net : DpNet := fun n => match n with O => Lost | _ => Delivered end in
  let m' := vip_run (DN := net) (MI := iter_forward) (replicate 4 (sample_cycle ["192.168.0.2"]))
    (NewVipManager sample_vip (Some sample_client) None) in
  vip_backends m' = healthy_map (y_answer (sample_cycle ["192.168.0.2"])) ["192.168.0.1"; "192.168.0.2"] /\
  exists c', dpClient m' = Some c' /\ dp_tables (link c') = empty_tables.
Proof.
  intros net m'. apply (failed_update_never_retried (DN := net) (MI := iter_forward) (NewVipManager sample_vip (Some sample_client) None)
    sample_client (sample_cycle ["192.168.0.2"]) ["192.168.0.1"; "192.168.0.2"] 3); [reflexivity|reflexivity|reflexivity|discriminate].
Defined.

(** The slots reserved for the address are slots of the service watcher: a watcher
    that has handed out the slots below them gives them out next. *)
Lemma reserved_slots_shared :
  exists a off, (Alloc (NewSlotAllocator 65536) backendBaseOffset).1 = a /\ (Alloc a 16).2 = Ok off /\ off = backendBaseOffset.
Proof. eexists _, _. split; [reflexivity|]. split; vm_compute; reflexivity. Qed.
