(* ===== verification/Overlay.v ===== *)
(** The overlay: the tunnel manager (internal/tunnel/manager.go, route_linux.go) and
    the node watcher that keeps it in step with the cluster
    (internal/agent/setup_routing.go, setup_config.go).  A state holds the manager,
    the tables of the dataplane, and the kernel's routes and neighbours.  The results
    of netlink calls are an environment, indexed by the number of calls so far. *)

From Stdlib Require Import ZArith Lia Ascii String.
From stdpp Require Import base tactics list gmap strings fin_maps.
From S2P Require Import Prelude GoStrings GoMap GoNet GoCidr RustNet EbpfMaps Dataplane DpClient.

(** * The tunnel manager *)

Definition protocolGeneve : string := "geneve".
Definition protocolVxlan : string := "vxlan".

Record Info := mkTunnelInfo {
  ti_NodeName : string; ti_NodeIP : string; ti_PodCIDR : string; ti_InterfaceName : string; ti_Ifindex : Z }.

(** [Manager]; the agent passes a nil client to it and calls the dataplane itself. *)
Record TunnelManager := mkTunnelManager {
  tm_protocol : string; tm_nodeIP : IP; tm_vni : Z; tm_client : option Client;
  tunnelIfName : string; tunnelIfindex : Z; tunnels : gmap string Info }.

Definition NewTunnelManager (protocol : string) (nodeIP : IP) (v : Z) (c : option Client) : TunnelManager :=
  mkTunnelManager protocol nodeIP v c "" 0 ∅.

Definition set_tunnels t m :=
  mkTunnelManager (tm_protocol m) (tm_nodeIP m) (tm_vni m) (tm_client m) (tunnelIfName m) (tunnelIfindex m) t.
Definition set_tm_client c m :=
  mkTunnelManager (tm_protocol m) (tm_nodeIP m) (tm_vni m) c (tunnelIfName m) (tunnelIfindex m) (tunnels m).
Definition set_interface n i m :=
  mkTunnelManager (tm_protocol m) (tm_nodeIP m) (tm_vni m) (tm_client m) n i (tunnels m).

Inductive tunnel_error := ErrInvalidNodeIP | ErrUnsupportedTunnelProto | ErrInterface | ErrRegister.

Section Manager.
Context {DN : DpNet}.

(** [removeTunnelLocked], which is [RemoveTunnel] under the lock. *)
Definition RemoveTunnel (nodeName : string) (m : TunnelManager) : TunnelManager :=
  match tunnels m !! nodeName with
  | None => m
  | Some info =>
      let c := match tm_client m with
               | Some c => if negb (String.eqb (ti_NodeIP info) "") then Some (DeleteTunnel (ti_NodeIP info) c).2 else Some c
               | None => None
               end in
      set_tunnels (delete nodeName (tunnels m)) (set_tm_client c m)
  end.

(** [ensureTunnelInterface]; [created] is the index of the interface that the kernel
    has or makes, [None] when that fails. *)
Definition ensureTunnelInterface (created : option Z) (m : TunnelManager) : result tunnel_error unit * TunnelManager :=
  if negb (tunnelIfindex m =? 0) then (Ok tt, m)
  else
    let make ifName := match created with
                       | None => (Err ErrInterface, m)
                       | Some i => (Ok tt, set_interface ifName i m)
                       end in
    if String.eqb (tm_protocol m) protocolGeneve then make "nv_geneve"
    else if String.eqb (tm_protocol m) protocolVxlan then make "nvx0"
    else (Err ErrUnsupportedTunnelProto, m).

Definition AddTunnel (created : option Z) (nodeName nodeIP podCIDR : string) (m : TunnelManager)
    : result tunnel_error unit * TunnelManager :=
  match ParseIP nodeIP with
  | None => (Err ErrInvalidNodeIP, m)
  | Some parsedIP =>
      let m := match tunnels m !! nodeName with Some _ => RemoveTunnel nodeName m | None => m end in
      match ensureTunnelInterface created m with
      | (Err e, m) => (Err e, m)
      | (Ok _, m) =>
          let '(r, m) := match tm_client m with
                         | None => (Ok tt, m)
                         | Some c => let '(r, c) := UpsertTunnel (ip_string parsedIP) (wrap32 (tunnelIfindex m)) (tm_vni m) c in
                                     (r, set_tm_client (Some c) m)
                         end in
          match r with
          | Err _ => (Err ErrRegister, m)
          | Ok _ =>
              (Ok tt, set_tunnels (<[nodeName := mkTunnelInfo nodeName nodeIP podCIDR (tunnelIfName m) (tunnelIfindex m)]>
                                     (tunnels m)) m)
          end
      end
  end.

End Manager.

Definition GetTunnel (nodeName : string) (m : TunnelManager) : option Info := tunnels m !! nodeName.
Definition ListTunnels {MI : MapIter} (m : TunnelManager) : list Info := iter_values (tunnels m).
Definition TunnelCount (m : TunnelManager) : Z := Z.of_nat (size (tunnels m)).

(** * Routes *)

Definition dummyGateway : string := "169.254.1.1".

Definition IPToTunnelMAC (ip : IP) : list Z :=
  match To4 ip with Some p4 => [170; 187] ++ p4 | None => [170; 187; 0; 0; 0; 0] end.

(** Whether a netlink call succeeds. *)
Class Netlink := nl : nat -> bool.

(** The kernel's routes by destination, with the device and the source address, its
    neighbours by device and address, and the number of netlink calls made. *)
Record kernel := mkKernel {
  k_routes : gmap (IP * list Z) (string * IP); k_neigh : gmap (string * string) (list Z); k_calls : nat }.

Definition dst_key (n : IPNet) : IP * list Z := (net_ip n, net_mask n).

Section Routes.
Context {NL : Netlink}.

(** One netlink call with its effect. *)
Definition netlink (f : kernel -> option kernel) (k : kernel) : bool * kernel :=
  let k' := mkKernel (k_routes k) (k_neigh k) (S (k_calls k)) in
  if nl (k_calls k) then match f k' with Some k'' => (true, k'') | None => (false, k') end else (false, k').

Definition AddRoute (cidr ifName : string) (srcIP remoteNodeIP : IP) (k : kernel) : bool * kernel :=
  match ParseCIDR cidr with
  | None => (false, k)
  | Some (_, dst) =>
      let '(ok, k) := netlink Some k in
      if negb ok then (false, k)
      else
        let '(ok, k) := netlink (fun k => Some (mkKernel (k_routes k)
          (<[(ifName, dummyGateway) := IPToTunnelMAC remoteNodeIP]> (k_neigh k)) (k_calls k))) k in
        if negb ok then (false, k)
        else netlink (fun k => Some (mkKernel (<[dst_key dst := (ifName, srcIP)]> (k_routes k)) (k_neigh k) (k_calls k))) k
  end.

(** Removing a route that is not there fails. *)
Definition RemoveRoute (cidr : string) (k : kernel) : bool * kernel :=
  match ParseCIDR cidr with
  | None => (false, k)
  | Some (_, dst) =>
      netlink (fun k => match k_routes k !! dst_key dst with
                        | None => None
                        | Some _ => Some (mkKernel (delete (dst_key dst) (k_routes k)) (k_neigh k) (k_calls k))
                        end) k
  end.

End Routes.

(** * The node watcher *)

(** A node of the cluster: name, pod network and addresses by type. *)
Record Node := mkNode { n_Name : string; n_PodCIDR : string; n_Addresses : list (string * string) }.

Fixpoint addresses_ip (l : list (string * string)) : string :=
  match l with
  | [] => ""
  | (ty, a) :: rest => if String.eqb ty "InternalIP" then a else addresses_ip rest
  end.

Definition NodeInternalIP (n : Node) : string := addresses_ip (n_Addresses n).

(** [NodeWatcherState] with the dataplane, absent when there is no client. *)
Record NodeWatcherState := mkNW {
  TunnelMgr : TunnelManager; DpLink : option dpc; SelfNodeIP : IP; TunnelProgramsAttached : bool; Kernel : kernel }.

Definition set_TunnelMgr m nw := mkNW m (DpLink nw) (SelfNodeIP nw) (TunnelProgramsAttached nw) (Kernel nw).
Definition set_DpLink d nw := mkNW (TunnelMgr nw) d (SelfNodeIP nw) (TunnelProgramsAttached nw) (Kernel nw).
Definition set_attached b nw := mkNW (TunnelMgr nw) (DpLink nw) (SelfNodeIP nw) b (Kernel nw).
Definition set_Kernel k nw := mkNW (TunnelMgr nw) (DpLink nw) (SelfNodeIP nw) (TunnelProgramsAttached nw) k.

Section Watcher.
Context {DN : DpNet} {NL : Netlink} {MI : MapIter}.

(** A call of the dataplane that changes no table: attaching a program. *)
Definition attach_call (d : dpc) : dpc := (rpc (fun t => (t, Ok tt)) d).1.

Definition EnsureTunnel (created : option Z) (nodeName nodeIP podCIDR : string) (parsedNodeIP : IP)
    (nw : NodeWatcherState) : NodeWatcherState :=
  match GetTunnel nodeName (TunnelMgr nw) with
  | Some info => set_Kernel (AddRoute podCIDR (ti_InterfaceName info) (SelfNodeIP nw) parsedNodeIP (Kernel nw)).2 nw
  | None =>
      match AddTunnel created nodeName nodeIP podCIDR (TunnelMgr nw) with
      | (Err _, m) => set_TunnelMgr m nw
      | (Ok _, m) =>
          let nw := set_TunnelMgr m nw in
          match GetTunnel nodeName m with
          | None => nw
          | Some info =>
              let nw := match DpLink nw with
                        | None => nw
                        | Some d =>
                            let d := (rpc (fun t => upsert_tunnel t (ip_string parsedNodeIP) (wrap32 (ti_Ifindex info)) 1) d).1 in
                            if negb (TunnelProgramsAttached nw) then
                              set_attached true (set_DpLink (Some (attach_call (attach_call d))) nw)
                            else set_DpLink (Some d) nw
                        end in
              set_Kernel (AddRoute podCIDR (ti_InterfaceName info) (SelfNodeIP nw) parsedNodeIP (Kernel nw)).2 nw
          end
      end
  end.

(** The node is one that [ReconcileNodes] sees: its name, address and pod network. *)
Definition seen_node (selfNode : string) (node : Node) : option (string * string * string * IP) :=
  if String.eqb (n_Name node) selfNode || String.eqb (n_PodCIDR node) "" then None
  else
    let nodeIP := NodeInternalIP node in
    if String.eqb nodeIP "" then None
    else match ParseIP nodeIP with
         | None => None
         | Some parsed => Some (n_Name node, nodeIP, n_PodCIDR node, parsed)
         end.

Fixpoint ReconcileNodes (created : option Z) (nodes : list Node) (selfNode : string) (nw : NodeWatcherState)
    : gset string * NodeWatcherState :=
  match nodes with
  | [] => (∅, nw)
  | node :: rest =>
      match seen_node selfNode node with
      | None => ReconcileNodes created rest selfNode nw
      | Some (name, nodeIP, podCIDR, parsed) =>
          let '(seen, nw) := ReconcileNodes created rest selfNode (EnsureTunnel created name nodeIP podCIDR parsed nw) in
          ({[name]} ∪ seen, nw)
      end
  end.

Definition cleanup_tunnel (t : Info) (nw : NodeWatcherState) : NodeWatcherState :=
  let nw := if negb (String.eqb (ti_PodCIDR t) "") then set_Kernel (RemoveRoute (ti_PodCIDR t) (Kernel nw)).2 nw else nw in
  let nw := match DpLink nw with
            | Some d => if negb (String.eqb (ti_NodeIP t) "") then
                          set_DpLink (Some (rpc (fun tb => delete_tunnel tb (ti_NodeIP t)) d).1) nw
                        else nw
            | None => nw
            end in
  set_TunnelMgr (RemoveTunnel (ti_NodeName t) (TunnelMgr nw)) nw.

Definition CleanupStaleTunnels (seen : gset string) (nw : NodeWatcherState) : NodeWatcherState :=
  foldl (fun nw t => if bool_decide (ti_NodeName t ∈ seen) then nw else cleanup_tunnel t nw) nw (ListTunnels (TunnelMgr nw)).

(** One turn of [WatchNodes]; [None] is a failed listing. *)
Definition watch_poll (created : option Z) (selfNode : string) (nodes : option (list Node)) (nw : NodeWatcherState)
    : NodeWatcherState :=
  match nodes with
  | None => nw
  | Some l => let '(seen, nw) := ReconcileNodes created l selfNode nw in CleanupStaleTunnels seen nw
  end.

Definition WatchNodes (created : option Z) (selfNode : string) (polls : list (option (list Node))) (nw : NodeWatcherState)
    : NodeWatcherState := foldl (fun nw l => watch_poll created selfNode l nw) nw polls.

End Watcher.

(** * Tunnels in step with the nodes *)

Lemma keep_only (A B : gset string) : (A ∪ B) ∖ ((A ∪ B) ∖ B) = B.
Proof. apply set_eq. intros x. destruct (decide (x ∈ B)); set_solver. Qed.

Section Mirror.
Context {NL : Netlink} {MI : MapIter}.
#[local] Existing Instance dp_reliable.

(** The addresses of the nodes, the index of the interface, and all names. *)
Context (addr : string -> list Z) (i : Z) (names : gset string).
Context (Haddr : forall name, name ∈ names -> length (addr name) = 4%nat /\ Forall is_byte (addr name)).
Context (Hinj : forall a b, a ∈ names -> b ∈ names -> addr a = addr b -> a = b).
Context (Hi : 0 < i < 2 ^ 32) (Hnames : Z.of_nat (size names) <= MAX_TUNNELS).

Definition akey (name : string) : Z := ip_val (addr name).

Lemma akey_inj a b : a ∈ names -> b ∈ names -> akey a = akey b -> a = b.
Proof.
  intros Ha Hb H. destruct (Haddr a Ha) as [La Ba], (Haddr b Hb) as [Lb Bb].
  apply Hinj, ip_val_inj; [done|done|done|done|congruence|done].
Qed.

Definition table_of (t : tables) (S : gset string) : Prop :=
  forall a v, TUNNELS t !! a = Some v <-> exists name, name ∈ S /\ a = akey name /\ v = mkTunnelValue i a 1.

(** The manager and the dataplane know exactly the nodes of [S]. *)
Definition mirror (nw : NodeWatcherState) (S : gset string) : Prop :=
  tm_client (TunnelMgr nw) = None /\ tm_protocol (TunnelMgr nw) ∈ [protocolGeneve; protocolVxlan] /\
  (tunnelIfindex (TunnelMgr nw) = i \/ tunnelIfindex (TunnelMgr nw) = 0) /\
  dom (tunnels (TunnelMgr nw)) = S /\
  (forall name info, tunnels (TunnelMgr nw) !! name = Some info ->
     ti_NodeName info = name /\ ti_NodeIP info = fmt_ipv4 (addr name)) /\
  exists d, DpLink nw = Some d /\ table_of (dp_tables d) S.

Lemma mirror_kernel nw k S : mirror nw S -> mirror (set_Kernel k nw) S.
Proof. done. Qed.

Lemma table_size t S : table_of t S -> (size (TUNNELS t) <= size S)%nat.
Proof.
  intros Ht. rewrite <- size_dom. transitivity (length (akey <$> elements S)); [|by rewrite length_fmap].
  apply submseteq_length, NoDup_submseteq; [apply NoDup_elements|]. intros a [v Hv]%elem_of_elements%elem_of_dom.
  apply Ht in Hv as (name & Hn & -> & _). apply list_elem_of_fmap. exists name. split; [done|]. by apply elem_of_elements.
Qed.

(** The address of a node as the watcher reads it and prints it. *)
Lemma node_address name parsed :
  name ∈ names -> ParseIP (fmt_ipv4 (addr name)) = Some parsed -> ip_string parsed = fmt_ipv4 (addr name).
Proof.
  intros Hn. destruct (Haddr name Hn) as [Hl Hb]. assert (wf_ip (addr name)) as Hw by (split; [by left|done]).
  pose proof (ParseIP_ip_string _ Hw) as Hp. rewrite To16_len4 in Hp by done.
  assert (forall ip, length ip = 4%nat -> ip_string ip = fmt_ipv4 ip) as Hs.
  { intros ip Hip. unfold ip_string. rewrite To4_len4 by done. unfold go_len. by rewrite Hip. }
  rewrite Hs in Hp by done. rewrite Hp. intros [= <-].
  assert (length (v4InV6Prefix ++ addr name) = 16%nat) as H16 by (rewrite length_app, Hl; done).
  pose proof (unmap_v4 (addr name) Hl) as Hu. unfold unmap in Hu.
  unfold ip_string. destruct (go_len (v4InV6Prefix ++ addr name) =? 0) eqn:E; [unfold go_len in E; to_prop; lia|].
  rewrite To4_len16, bool_decide_true in Hu |- * by (done || by rewrite take_app_length'). cbn in Hu |- *. by rewrite Hu.
Qed.

Lemma table_insert t S name :
  table_of t S -> name ∉ S -> S ∪ {[name]} ⊆ names ->
  exists t', upsert_tunnel t (fmt_ipv4 (addr name)) i 1 = (t', Ok tt) /\ table_of t' (S ∪ {[name]}).
Proof.
  intros Ht Hn Hsub. assert (name ∈ names) as Hname by set_solver. destruct (Haddr name Hname) as [Hl Hb]. unfold upsert_tunnel. rewrite parse_ip_fmt by done. fold (akey name).
  assert (TUNNELS t !! akey name = None) as Hnone.
  { destruct (TUNNELS t !! akey name) eqn:E; [|done]. apply Ht in E as (name' & Hn' & E & _).
    apply akey_inj in E; [by subst|done|set_solver]. }
  pose proof (table_size t S Ht) as Hsz. apply subseteq_size in Hsub. rewrite size_union, size_singleton in Hsub by set_solver.
  unfold hash_insert. rewrite Hnone, (proj2 (Z.ltb_lt _ _)) by lia. eexists. split; [reflexivity|].
  intros a v. cbn. rewrite lookup_insert_Some. split.
  - intros [[<- <-]|[Hne (name' & ? & ? & ?)%Ht]]; [exists name; set_solver|exists name'; set_solver].
  - intros (name' & Hin & -> & ->). destruct (decide (akey name = akey name')) as [->|Hne]; [by left|right].
    split; [done|]. apply Ht. exists name'. split; [|done]. set_solver.
Qed.

Lemma table_delete t S name :
  table_of t S -> S ⊆ names -> name ∈ S ->
  exists t', delete_tunnel t (fmt_ipv4 (addr name)) = (t', Ok tt) /\ table_of t' (S ∖ {[name]}).
Proof.
  intros Ht Hsub Hn. destruct (Haddr name) as [Hl Hb]; [set_solver|]. unfold delete_tunnel. rewrite parse_ip_fmt by done. fold (akey name).
  assert (TUNNELS t !! akey name = Some (mkTunnelValue i (akey name) 1)) as Hs by (apply Ht; by exists name).
  unfold hash_remove. rewrite Hs. eexists. split; [reflexivity|]. intros a v. cbn. rewrite lookup_delete_Some. split.
  - intros [Hne (name' & ? & -> & ->)%Ht]. exists name'. split; [|done]. apply elem_of_difference. split; [done|].
    intros ->%elem_of_singleton. done.
  - intros (name' & [Hin Hne]%elem_of_difference & -> & ->). split; [intros E; apply akey_inj in E; set_solver|]. apply Ht. by exists name'.
Qed.

Lemma EnsureTunnel_mirror nw S name cidr parsed :
  mirror nw S -> S ∪ {[name]} ⊆ names -> ParseIP (fmt_ipv4 (addr name)) = Some parsed ->
  mirror (EnsureTunnel (Some i) name (fmt_ipv4 (addr name)) cidr parsed nw) (S ∪ {[name]}).
Proof.
  intros Hm Hsub Hp. pose proof Hm as (Hcl & Hpr & Hif & Hdom & Hinf & d & Hd & Ht). unfold EnsureTunnel, GetTunnel.
  destruct (tunnels (TunnelMgr nw) !! name) as [info|] eqn:En.
  { apply mirror_kernel. replace (S ∪ {[name]}) with S; [done|]. apply elem_of_dom_2 in En. set_solver. }
  assert (name ∉ S) as Hn by (subst S; by apply not_elem_of_dom).
  unfold AddTunnel. rewrite Hp, En.
  assert (exists m, ensureTunnelInterface (Some i) (TunnelMgr nw) = (Ok tt, m) /\ tm_client m = None /\ tunnelIfindex m = i /\
    tm_protocol m = tm_protocol (TunnelMgr nw) /\ tunnels m = tunnels (TunnelMgr nw)) as (m & -> & Hc & Hmi & Hmp & Hmt).
  { unfold ensureTunnelInterface. destruct (Z.eqb_spec (tunnelIfindex (TunnelMgr nw)) 0); cbn [negb].
    - rewrite !elem_of_cons, elem_of_nil in Hpr. destruct Hpr as [Hpr|[Hpr|[]]]; rewrite Hpr; by eexists.
    - eexists. split; [reflexivity|]. destruct Hif; done. }
  rewrite Hc. cbn [tunnels set_tunnels]. rewrite Hmt, lookup_insert_eq. cbn [DpLink set_TunnelMgr ti_Ifindex]. rewrite Hd, Hmi.
  rewrite (node_address name parsed) by (done || set_solver). unfold wrap32. rewrite Z.mod_small by lia.
  destruct (table_insert (dp_tables d) S name Ht Hn Hsub) as (t' & E & Ht').
  assert (exists n, (rpc (fun t => upsert_tunnel t (fmt_ipv4 (addr name)) i 1) d).1 = mkDpc t' n) as [n ->].
  { unfold rpc, dp_net, dp_reliable. rewrite E. by eexists. }
  apply mirror_kernel. cbn [TunnelProgramsAttached set_TunnelMgr].
  assert (forall d', dp_tables d' = t' -> forall b, mirror (set_attached b (set_DpLink (Some d') (set_TunnelMgr
    (set_tunnels (<[name := mkTunnelInfo name (fmt_ipv4 (addr name)) cidr (tunnelIfName m) i]> (tunnels (TunnelMgr nw))) m) nw)))
    (S ∪ {[name]})) as H.
  { intros d' Hd' b. split; [done|]. split; [cbn; by rewrite Hmp|]. split; [by left|]. split; [cbn; set_solver|]. split.
    - intros name' info'. cbn. rewrite lookup_insert_Some. intros [[<- <-]|[_ ?]]; [done|by apply Hinf].
    - exists d'. rewrite Hd'. done. }
  destruct (TunnelProgramsAttached nw) eqn:Eb; cbn [negb].
  - specialize (H (mkDpc t' n) eq_refl true). by unfold set_attached, set_DpLink, set_TunnelMgr in *; cbn in *; rewrite Eb.
  - apply (H (attach_call (attach_call (mkDpc t' n)))). done.
Qed.

(** The names of the nodes that a listing shows. *)
Definition seen_names (selfNode : string) (l : list Node) : gset string :=
  list_to_set (omap (fun n => match seen_node selfNode n with Some (name, _, _, _) => Some name | None => None end) l).

(** A listing in which the nodes have their addresses. *)
Definition listing_ok (selfNode : string) (l : list Node) : Prop :=
  seen_names selfNode l ⊆ names /\
  forall n name ip cidr parsed, n ∈ l -> seen_node selfNode n = Some (name, ip, cidr, parsed) -> ip = fmt_ipv4 (addr name).

Lemma seen_node_parsed self n name ip cidr parsed : seen_node self n = Some (name, ip, cidr, parsed) -> ParseIP ip = Some parsed.
Proof.
  unfold seen_node. destruct (_ || _); [done|]. destruct (String.eqb _ ""); [done|].
  destruct (ParseIP (NodeInternalIP n)) eqn:E; [|done]. by intros [= <- <- <- <-].
Qed.

Lemma ReconcileNodes_mirror self l : forall nw S,
  mirror nw S -> S ⊆ names -> listing_ok self l ->
  exists nw', ReconcileNodes (Some i) l self nw = (seen_names self l, nw') /\ mirror nw' (S ∪ seen_names self l).
Proof.
  induction l as [|n l IH]; intros nw S Hm HS [Hsub Hl]; cbn [ReconcileNodes].
  { exists nw. split; [done|]. unfold seen_names. cbn. by rewrite union_empty_r_L. }
  unfold seen_names in *. cbn [omap list_omap] in *. destruct (seen_node self n) as [[[[name ip] cidr] parsed]|] eqn:E.
  - rewrite list_to_set_cons in *. pose proof (Hl n name ip cidr parsed ltac:(by left) E) as ->.
    pose proof (seen_node_parsed _ _ _ _ _ _ E) as Hp.
    destruct (IH (EnsureTunnel (Some i) name (fmt_ipv4 (addr name)) cidr parsed nw) (S ∪ {[name]})) as (nw' & -> & Hm').
    + apply EnsureTunnel_mirror; [done|set_solver|done].
    + set_solver.
    + split; [set_solver|]. intros n' ? ? ? ? Hn'. apply Hl. by right.
    + exists nw'. split; [done|]. by rewrite <- union_assoc_L in Hm'.
  - apply (IH nw S Hm HS). split; [done|]. intros n' ? ? ? ? Hn'. apply Hl. by right.
Qed.

Lemma cleanup_mirror nw S t :
  mirror nw S -> S ⊆ names -> tunnels (TunnelMgr nw) !! ti_NodeName t = Some t ->
  mirror (cleanup_tunnel t nw) (S ∖ {[ti_NodeName t]}) /\
  tunnels (TunnelMgr (cleanup_tunnel t nw)) = delete (ti_NodeName t) (tunnels (TunnelMgr nw)).
Proof.
  intros (Hcl & Hpr & Hif & Hdom & Hinf & d & Hd & Ht) HS Hlk. unfold cleanup_tunnel.
  assert (ti_NodeName t ∈ S) as Hin by (subst S; by eapply elem_of_dom_2).
  set (nw1 := if negb (String.eqb (ti_PodCIDR t) "") then _ else _).
  assert (TunnelMgr nw1 = TunnelMgr nw /\ DpLink nw1 = Some d) as [E1 E2] by (unfold nw1; by destruct (negb _)).
  destruct (Hinf _ _ Hlk) as [_ Hip]. rewrite E2, Hip.
  assert (String.eqb (fmt_ipv4 (addr (ti_NodeName t))) "" = false) as ->.
  { apply String.eqb_neq. intros E. destruct (Haddr (ti_NodeName t)) as [Hl Hb]; [set_solver|]. pose proof (parse_ip_fmt _ Hl Hb) as Hp.
    rewrite E, parse_ip_empty in Hp. done. }
  cbn [negb]. destruct (table_delete (dp_tables d) S (ti_NodeName t) Ht HS Hin) as (t' & E & Ht').
  cbn [TunnelMgr set_DpLink]. rewrite E1. unfold RemoveTunnel. rewrite Hlk, Hcl. cbn [TunnelMgr set_TunnelMgr tunnels set_tunnels set_tm_client].
  split; [|done]. split; [done|]. split; [done|]. split; [done|]. split; [cbn; subst S; by rewrite dom_delete_L|]. split.
  - intros name info. cbn. rewrite lookup_delete_Some. intros [_ H]. by apply Hinf.
  - unfold rpc, dp_net, dp_reliable. rewrite E. eexists. split; [reflexivity|done].
Qed.

Lemma cleanup_all_mirror seen l : forall nw S,
  mirror nw S -> S ⊆ names -> NoDup (ti_NodeName <$> l) -> (forall t, t ∈ l -> tunnels (TunnelMgr nw) !! ti_NodeName t = Some t) ->
  mirror (foldl (fun nw t => if bool_decide (ti_NodeName t ∈ seen) then nw else cleanup_tunnel t nw) nw l)
    (S ∖ (list_to_set (ti_NodeName <$> l) ∖ seen)).
Proof.
  induction l as [|t l IH]; intros nw S Hm HS Hnd Hl; cbn [foldl fmap list_fmap].
  { cbn. by replace (S ∖ (∅ ∖ seen)) with S by set_solver. }
  apply NoDup_cons in Hnd as [Hn Hnd]. rewrite list_to_set_cons. case_bool_decide as Hs.
  - replace (S ∖ (({[ti_NodeName t]} ∪ list_to_set (ti_NodeName <$> l)) ∖ seen)) with (S ∖ (list_to_set (ti_NodeName <$> l) ∖ seen))
      by set_solver. apply IH; [done|done|done|]. intros t' Ht'. apply Hl. by right.
  - destruct (cleanup_mirror nw S t Hm HS) as [Hm' Hd]; [apply Hl; by left|].
    replace (S ∖ (({[ti_NodeName t]} ∪ list_to_set (ti_NodeName <$> l)) ∖ seen))
      with ((S ∖ {[ti_NodeName t]}) ∖ (list_to_set (ti_NodeName <$> l) ∖ seen)) by set_solver.
    apply IH; [done|set_solver|done|]. intros t' Ht'. rewrite Hd, lookup_delete_ne; [apply Hl; by right|].
    intros E. apply Hn. rewrite E. apply list_elem_of_fmap. by exists t'.
Qed.

Lemma watch_poll_mirror self l nw S :
  mirror nw S -> S ⊆ names -> listing_ok self l -> mirror (watch_poll (Some i) self (Some l) nw) (seen_names self l).
Proof.
  intros Hm HS Hl. unfold watch_poll. destruct (ReconcileNodes_mirror self l nw S Hm HS Hl) as (nw' & -> & Hm').
  unfold CleanupStaleTunnels, ListTunnels. pose proof Hm' as (_ & _ & _ & Hdom & Hinf & _).
  set (tl := iter_values (tunnels (TunnelMgr nw'))).
  assert ((ti_NodeName <$> tl) = (iter (tunnels (TunnelMgr nw'))).*1) as Hk.
  { unfold tl, iter_values. rewrite <- list_fmap_compose. apply list_fmap_ext. intros j [name info] H%list_elem_of_lookup_2%elem_of_iter.
    cbn. by destruct (Hinf _ _ H). }
  pose proof (cleanup_all_mirror (seen_names self l) tl nw' _ Hm' ltac:(destruct Hl; set_solver)) as H. rewrite Hk in H.
  assert (list_to_set (iter (tunnels (TunnelMgr nw'))).*1 = S ∪ seen_names self l) as Hset.
  { apply set_eq. intros x. rewrite elem_of_list_to_set, <- Hdom, elem_of_dom, list_elem_of_fmap. split.
    - intros ([k v] & -> & Hv%elem_of_iter). by eexists.
    - intros [v Hv]. exists (x, v). by rewrite elem_of_iter. }
  rewrite Hset, keep_only in H.
  apply H; [apply NoDup_iter_keys|]. intros t (k & Hk')%elem_of_iter_values. by destruct (Hinf _ _ Hk') as [-> _].
Qed.

End Mirror.

(** * Names of the nodes *)

Section Names.
Context {DN : DpNet} {NL : Netlink} {MI : MapIter} (i : Z).

(** The manager has tunnels for exactly the nodes of [S]. *)
Definition knows (nw : NodeWatcherState) (S : gset string) : Prop :=
  tm_client (TunnelMgr nw) = None /\ tm_protocol (TunnelMgr nw) ∈ [protocolGeneve; protocolVxlan] /\
  dom (tunnels (TunnelMgr nw)) = S /\
  (forall name info, tunnels (TunnelMgr nw) !! name = Some info -> ti_NodeName info = name).

Lemma knows_manager nw nw' S : TunnelMgr nw' = TunnelMgr nw -> knows nw S -> knows nw' S.
Proof. unfold knows. by intros ->. Qed.

Lemma EnsureTunnel_knows nw S name ip cidr parsed :
  knows nw S -> ParseIP ip = Some parsed -> knows (EnsureTunnel (Some i) name ip cidr parsed nw) (S ∪ {[name]}).
Proof.
  intros Hk Hp. pose proof Hk as (Hc & Hpr & Hdom & Hown). unfold EnsureTunnel, GetTunnel.
  destruct (tunnels (TunnelMgr nw) !! name) as [info|] eqn:En.
  { replace (S ∪ {[name]}) with S; [done|]. apply elem_of_dom_2 in En. set_solver. }
  unfold AddTunnel. rewrite Hp, En.
  assert (exists m, ensureTunnelInterface (Some i) (TunnelMgr nw) = (Ok tt, m) /\ tm_client m = None /\
    tm_protocol m = tm_protocol (TunnelMgr nw) /\ tunnels m = tunnels (TunnelMgr nw)) as (m & -> & Hmc & Hmp & Hmt).
  { unfold ensureTunnelInterface. destruct (negb _); [by eexists|].
    rewrite !elem_of_cons, elem_of_nil in Hpr. destruct Hpr as [Hpr|[Hpr|[]]]; rewrite Hpr; by eexists. }
  rewrite Hmc. cbn [tunnels set_tunnels]. rewrite Hmt, lookup_insert_eq.
  eapply (knows_manager (set_TunnelMgr (set_tunnels (<[name := mkTunnelInfo name ip cidr (tunnelIfName m) (tunnelIfindex m)]>
    (tunnels (TunnelMgr nw))) m) nw)).
  - cbn [DpLink set_TunnelMgr]. destruct (DpLink nw); [|done]. by destruct (negb _).
  - split; [done|]. split; [cbn; by rewrite Hmp|]. split; [cbn; set_solver|].
    intros name' info'. cbn. rewrite lookup_insert_Some. intros [[<- <-]|[_ ?]]; [done|by apply Hown].
Qed.

Lemma ReconcileNodes_knows self l : forall nw S,
  knows nw S -> exists nw', ReconcileNodes (Some i) l self nw = (seen_names self l, nw') /\ knows nw' (S ∪ seen_names self l).
Proof.
  unfold seen_names. induction l as [|n l IH]; intros nw S Hk; cbn [ReconcileNodes omap list_omap].
  { exists nw. split; [done|]. cbn. by rewrite union_empty_r_L. }
  destruct (seen_node self n) as [[[[name ip] cidr] parsed]|] eqn:E; [|by apply IH]. rewrite list_to_set_cons.
  destruct (IH (EnsureTunnel (Some i) name ip cidr parsed nw) (S ∪ {[name]})) as (nw' & -> & Hk').
  { apply EnsureTunnel_knows; [done|]. by eapply seen_node_parsed. }
  exists nw'. split; [done|]. by rewrite <- union_assoc_L in Hk'.
Qed.

Lemma cleanup_knows nw S t : knows nw S -> knows (cleanup_tunnel t nw) (S ∖ {[ti_NodeName t]}).
Proof.
  intros (Hc & Hpr & Hdom & Hown). unfold cleanup_tunnel. cbv zeta.
  match goal with |- knows (set_TunnelMgr _ ?x) _ => set (nw1 := x) end.
  assert (TunnelMgr nw1 = TunnelMgr nw) as E by (unfold nw1; repeat case_match; done).
  unfold RemoveTunnel. rewrite E. destruct (tunnels (TunnelMgr nw) !! ti_NodeName t) eqn:Et.
  - rewrite Hc. split; [done|]. split; [done|]. split; [cbn; subst S; by rewrite dom_delete_L|].
    intros name info. cbn. rewrite lookup_delete_Some. intros [_ H]. by apply Hown.
  - apply not_elem_of_dom in Et. split; [done|]. split; [done|]. split; [cbn; set_solver|done].
Qed.

Lemma cleanup_all_knows seen l : forall nw S,
  knows nw S -> knows (foldl (fun nw t => if bool_decide (ti_NodeName t ∈ seen) then nw else cleanup_tunnel t nw) nw l)
    (S ∖ (list_to_set (ti_NodeName <$> l) ∖ seen)).
Proof.
  induction l as [|t l IH]; intros nw S Hk; cbn [foldl fmap list_fmap].
  { cbn. by replace (S ∖ (∅ ∖ seen)) with S by set_solver. }
  rewrite list_to_set_cons. case_bool_decide as Hs.
  - replace (S ∖ (({[ti_NodeName t]} ∪ list_to_set (ti_NodeName <$> l)) ∖ seen)) with (S ∖ (list_to_set (ti_NodeName <$> l) ∖ seen))
      by set_solver. by apply IH.
  - replace (S ∖ (({[ti_NodeName t]} ∪ list_to_set (ti_NodeName <$> l)) ∖ seen))
      with ((S ∖ {[ti_NodeName t]}) ∖ (list_to_set (ti_NodeName <$> l) ∖ seen)) by set_solver. by apply IH, cleanup_knows.
Qed.

Lemma watch_poll_knows self l nw S : knows nw S -> knows (watch_poll (Some i) self (Some l) nw) (seen_names self l).
Proof.
  intros Hk. unfold watch_poll. destruct (ReconcileNodes_knows self l nw S Hk) as (nw' & -> & Hk').
  pose proof Hk' as (_ & _ & Hdom & Hown). unfold CleanupStaleTunnels, ListTunnels.
  pose proof (cleanup_all_knows (seen_names self l) (iter_values (tunnels (TunnelMgr nw'))) nw' _ Hk') as H.
  replace (list_to_set (ti_NodeName <$> iter_values (tunnels (TunnelMgr nw')))) with (S ∪ seen_names self l) in H;
    [by rewrite keep_only in H|].
  apply set_eq. intros x. rewrite elem_of_list_to_set, <- Hdom, elem_of_dom, list_elem_of_fmap. split.
  - intros [v Hv]. exists v. split; [symmetry; by apply Hown|]. apply elem_of_iter_values. by exists x.
  - intros (v & -> & (k & Hv)%elem_of_iter_values). rewrite (Hown _ _ Hv). by eexists.
Qed.

Lemma watch_knows self polls nw S : knows nw S -> exists S', knows (WatchNodes (Some i) self polls nw) S'.
Proof.
  revert nw S. induction polls as [|[l|] polls IH]; intros nw S Hk; [by exists S| |]; unfold WatchNodes; cbn [foldl].
  - by apply (IH _ (seen_names self l)), (watch_poll_knows self l nw S).
  - by apply (IH nw S).
Qed.
End Names.

(** C14: The overlay follows the cluster.  After any history of listings, failed ones
    included, the manager has a tunnel for exactly the remote nodes of the last
    listing, whatever their addresses and whatever calls the dataplane loses, if the
    tunnel interface can be created and the protocol is one of the two.  The kernel's
    tunnel table has exactly the addresses of those nodes if in all listings every
    node name keeps one IPv4 address that no other node has, the dataplane gets every
    call and starts without tunnels, and the nodes fit the table; it does not follow
    a changed or reused address (known_nodes_never_updated,
    reused_address_loses_tunnel). *)
Theorem overlay_follows_nodes {NL : Netlink} {MI : MapIter} i self nodeIP k polls l proto :
  0 < i < 2 ^ 32 -> proto ∈ [protocolGeneve; protocolVxlan] ->
  (forall (DN : DpNet) dp,
     dom (tunnels (TunnelMgr (WatchNodes (DN := DN) (Some i) self (polls ++ [Some l])
       (mkNW (NewTunnelManager proto nodeIP 1 None) dp nodeIP false k)))) = seen_names self l) /\
  forall addr names d,
    (forall name, name ∈ names -> length (addr name) = 4%nat /\ Forall is_byte (addr name)) ->
    (forall a b, a ∈ names -> b ∈ names -> addr a = addr b -> a = b) ->
    Z.of_nat (size names) <= MAX_TUNNELS -> TUNNELS (dp_tables d) = ∅ ->
    (forall l', Some l' ∈ polls -> listing_ok addr names self l') -> listing_ok addr names self l ->
    exists d', DpLink (WatchNodes (DN := dp_reliable) (Some i) self (polls ++ [Some l])
        (mkNW (NewTunnelManager proto nodeIP 1 None) (Some d) nodeIP false k)) = Some d' /\
      forall a v, TUNNELS (dp_tables d') !! a = Some v <->
        exists name, name ∈ seen_names self l /\ a = ip_val (addr name) /\ v = mkTunnelValue i a 1.
Proof.
  intros Hi Hp. split.
  { intros DN dp. set (nw0 := mkNW _ dp nodeIP false k). assert (knows nw0 ∅) as H0 by by split_and!.
    destruct (watch_knows i self polls nw0 ∅ H0) as [S Hk]. unfold WatchNodes in *. rewrite foldl_app. cbn [foldl].
    by destruct (watch_poll_knows i self l _ S Hk) as (_ & _ & H & _). }
  intros addr names d Haddr Hinj Hn Ht Hpolls Hlast. set (nw := WatchNodes _ _ _ _).
  assert (mirror addr i nw (seen_names self l)) as (_ & _ & _ & _ & _ & d' & Hd & Htab); [|by exists d'].
  assert (exists S, S ⊆ names /\ mirror addr i (WatchNodes (DN := dp_reliable) (Some i) self polls
    (mkNW (NewTunnelManager proto nodeIP 1 None) (Some d) nodeIP false k)) S) as (S & HS & Hm).
  { clear nw Hlast. induction polls as [|[l'|] polls IH] using rev_ind.
    - exists ∅. split; [set_solver|]. split; [done|]. split; [done|]. split; [by right|]. split; [done|]. split; [done|].
      exists d. split; [done|]. intros a v. rewrite Ht. split; [done|]. intros (name & H & _). set_solver.
    - destruct IH as (S & HS & Hm); [intros l0 H; apply Hpolls; rewrite elem_of_app; by left|].
      assert (listing_ok addr names self l') as Hl' by (apply Hpolls; rewrite elem_of_app; right; by left).
      exists (seen_names self l'). split; [apply Hl'|]. unfold WatchNodes. rewrite foldl_app. cbn [foldl].
      by apply (watch_poll_mirror addr i names Haddr Hinj Hi Hn self l' _ S).
    - destruct IH as (S & HS & Hm); [intros l0 H; apply Hpolls; rewrite elem_of_app; by left|].
      exists S. split; [done|]. unfold WatchNodes. by rewrite foldl_app. }
  unfold nw, WatchNodes. rewrite foldl_app. cbn [foldl]. by apply (watch_poll_mirror addr i names Haddr Hinj Hi Hn self l _ S).
Qed.

Definition sample_addr (name : string) : list Z :=
  if String.eqb name "b" then [192; 168; 0; 2] else if String.eqb name "c" then [192; 168; 0; 3] else [0; 0; 0; 0].

Definition cluster_node (name ip cidr : string) : Node := mkNode name cidr [("InternalIP", ip)].

Definition node_a := cluster_node "a" "192.168.0.1" "10.244.0.0/24".
Definition node_b := cluster_node "b" "192.168.0.2" "10.244.1.0/24".
Definition node_c := cluster_node "c" "192.168.0.3" "10.244.2.0/24".

Definition always_ok : Netlink := fun _ => true.
Definition idle_kernel : kernel := mkKernel ∅ ∅ 0.

Definition fresh_watcher : NodeWatcherState :=
  mkNW (NewTunnelManager "geneve" [192; 168; 0; 1] 1 None) (Some (mkDpc empty_tables 0)) [192; 168; 0; 1] false idle_kernel.

Lemma sample_listing_ok l : l ∈ [[node_a; node_b]; [node_a; node_c]] -> listing_ok sample_addr {["b"; "c"]} "a" l.
Proof.
  rewrite !elem_of_cons, elem_of_nil. intros [->|[->|[]]].
  all: split; [apply (bool_decide_unpack _); vm_compute; exact I|].
  all: intros n name ip cidr parsed [->|[->|H%elem_of_nil]%elem_of_cons]%elem_of_cons E; [discriminate E| |done].
  all: vm_compute in E; injection E as <- <- _ _; vm_compute; reflexivity.
Qed.

Lemma overlay_follows_nodes_witness :
  let nw := WatchNodes (DN := dp_reliable) (NL := always_ok) (MI := iter_forward) (Some 7) "a"
    ([Some [node_a; node_b]; None] ++ [Some [node_a; node_c]]) fresh_watcher in
  dom (tunnels (TunnelMgr nw)) = seen_names "a" [node_a; node_c] /\
  exists d', DpLink nw = Some d' /\
    forall a v, TUNNELS (dp_tables d') !! a = Some v <->
      exists name, name ∈ seen_names "a" [node_a; node_c] /\ a = ip_val (sample_addr name) /\ v = mkTunnelValue 7 a 1.
Proof.
  destruct (overlay_follows_nodes (NL := always_ok) (MI := iter_forward) 7 "a" [192; 168; 0; 1] idle_kernel
    [Some [node_a; node_b]; None] [node_a; node_c] "geneve") as [H1 H2]; [lia|left|]. split; [apply H1|].
  apply (H2 sample_addr {["b"; "c"]} (mkDpc empty_tables 0)).
  - intros name H. unfold sample_addr. destruct (String.eqb name "b"); [|destruct (String.eqb name "c")];
      (split; [done|]); repeat (constructor; [unfold is_byte; lia|]); constructor.
  - intros a b [->%elem_of_singleton| ->%elem_of_singleton]%elem_of_union [->%elem_of_singleton| ->%elem_of_singleton]%elem_of_union;
      vm_compute; intros E; (reflexivity || discriminate E).
  - vm_compute. discriminate.
  - reflexivity.
  - intros l' [[= ->]|[H|H%elem_of_nil]%elem_of_cons]%elem_of_cons; [|done|done]. apply sample_listing_ok. left.
  - apply sample_listing_ok. right. left.
Defined.

(** * Nodes that change *)

Section Known.
Context {DN : DpNet} {NL : Netlink} {MI : MapIter}.

(** A node that has a tunnel costs the dataplane no call, whatever its address. *)
Lemma EnsureTunnel_known created name ip cidr parsed nw info :
  GetTunnel name (TunnelMgr nw) = Some info ->
  TunnelMgr (EnsureTunnel created name ip cidr parsed nw) = TunnelMgr nw /\
  DpLink (EnsureTunnel created name ip cidr parsed nw) = DpLink nw.
Proof. intros H. unfold EnsureTunnel. by rewrite H. Qed.

Lemma ReconcileNodes_known created self l : forall nw,
  seen_names self l ⊆ dom (tunnels (TunnelMgr nw)) ->
  exists nw', ReconcileNodes created l self nw = (seen_names self l, nw') /\
    TunnelMgr nw' = TunnelMgr nw /\ DpLink nw' = DpLink nw.
Proof.
  unfold seen_names. induction l as [|n l IH]; intros nw Hl; cbn [ReconcileNodes omap list_omap] in *; [by exists nw|].
  destruct (seen_node self n) as [[[[name ip] cidr] parsed]|]; [|by apply IH].
  rewrite list_to_set_cons in *. assert (name ∈ dom (tunnels (TunnelMgr nw))) as [info Hinfo]%elem_of_dom by set_solver.
  destruct (EnsureTunnel_known created name ip cidr parsed nw info Hinfo) as [H1 H2].
  destruct (IH (EnsureTunnel created name ip cidr parsed nw)) as (nw' & -> & H3 & H4); [rewrite H1; set_solver|].
  exists nw'. split; [done|]. by rewrite H3, H4.
Qed.

Definition names_own (m : TunnelManager) : Prop := forall name info, tunnels m !! name = Some info -> ti_NodeName info = name.

(** A listing of exactly the known nodes changes nothing but routes. *)
Lemma watch_poll_known created self l nw :
  names_own (TunnelMgr nw) -> seen_names self l = dom (tunnels (TunnelMgr nw)) ->
  TunnelMgr (watch_poll created self (Some l) nw) = TunnelMgr nw /\ DpLink (watch_poll created self (Some l) nw) = DpLink nw.
Proof.
  intros Hown Hd. unfold watch_poll. destruct (ReconcileNodes_known created self l nw) as (nw' & -> & H1 & H2); [by rewrite Hd|].
  assert (CleanupStaleTunnels (seen_names self l) nw' = nw') as ->; [|done]. unfold CleanupStaleTunnels, ListTunnels. rewrite H1.
  assert (forall tl, (forall t, t ∈ tl -> ti_NodeName t ∈ seen_names self l) ->
    foldl (fun nw t => if bool_decide (ti_NodeName t ∈ seen_names self l) then nw else cleanup_tunnel t nw) nw' tl = nw') as Hf.
  { induction tl as [|t tl IH]; intros Htl; [done|]. cbn [foldl]. rewrite bool_decide_true by (apply Htl; by left).
    apply IH. intros t' H. apply Htl. by right. }
  apply Hf. intros t (k & Hk)%elem_of_iter_values. rewrite Hd, (Hown _ _ Hk). by eapply elem_of_dom_2.
Qed.

End Known.

Lemma known_polls {DN : DpNet} {NL : Netlink} {MI : MapIter} created self polls nw :
  names_own (TunnelMgr nw) -> Forall (fun l => seen_names self l = dom (tunnels (TunnelMgr nw))) polls ->
  DpLink (WatchNodes created self (Some <$> polls) nw) = DpLink nw /\
  TunnelMgr (WatchNodes created self (Some <$> polls) nw) = TunnelMgr nw.
Proof.
  revert nw. induction polls as [|l polls IH]; intros nw Hown Hl; [done|]. apply Forall_cons in Hl as [H Hl].
  destruct (watch_poll_known created self l nw Hown H) as [H1 H2]. cbn [fmap list_fmap]. unfold WatchNodes. cbn [foldl].
  destruct (IH (watch_poll created self (Some l) nw)) as [H3 H4]; [by rewrite H1|by rewrite H1|]. unfold WatchNodes in H3, H4.
  by rewrite H3, H4.
Qed.

(** Once the manager has a tunnel for every node of the listings, the dataplane
    hears nothing more: not of a node that came back with another address, and not
    of a tunnel whose registration was lost.  The tables stay as they are through
    every further listing of those nodes, whatever their addresses. *)
Theorem known_nodes_never_updated {DN : DpNet} {NL : Netlink} {MI : MapIter} created self polls nw :
  names_own (TunnelMgr nw) -> Forall (fun l => seen_names self l = dom (tunnels (TunnelMgr nw))) polls ->
  DpLink (WatchNodes created self (Some <$> polls) nw) = DpLink nw /\
  TunnelMgr (WatchNodes created self (Some <$> polls) nw) = TunnelMgr nw.
Proof.
  apply known_polls.
Qed.

(** Node b moves to 192.168.0.9. *)
Lemma known_nodes_never_updated_witness :
  let nw := WatchNodes (DN := dp_reliable) (NL := always_ok) (MI := iter_forward) (Some 7) "a" [Some [node_a; node_b]] fresh_watcher in
  DpLink (WatchNodes (DN := dp_reliable) (NL := always_ok) (MI := iter_forward) (Some 7) "a"
    (Some <$> [[cluster_node "b" "192.168.0.9" "10.244.1.0/24"]; [cluster_node "b" "192.168.0.9" "10.244.1.0/24"]]) nw) = DpLink nw /\
  TunnelMgr (WatchNodes (DN := dp_reliable) (NL := always_ok) (MI := iter_forward) (Some 7) "a"
    (Some <$> [[cluster_node "b" "192.168.0.9" "10.244.1.0/24"]; [cluster_node "b" "192.168.0.9" "10.244.1.0/24"]]) nw) = TunnelMgr nw.
Proof.
  intros nw. apply (known_nodes_never_updated (DN := dp_reliable) (NL := always_ok) (MI := iter_forward)).
  - assert (tunnels (TunnelMgr nw) = {["b" := mkTunnelInfo "b" "192.168.0.2" "10.244.1.0/24" "nv_geneve" 7]}) as E by (vm_compute; reflexivity).
    unfold names_own. rewrite E. intros name info [<- <-]%lookup_singleton_Some. reflexivity.
  - repeat (constructor; [vm_compute; reflexivity|]). constructor.
Defined.

(** A registration that is lost leaves the manager with a tunnel all the same. *)
Lemma lost_registration_is_recorded :
  let nw := WatchNodes (DN := fun _ => Lost) (NL := always_ok) (MI := iter_forward) (Some 7) "a" [Some [node_a; node_b]] fresh_watcher in
  dom (tunnels (TunnelMgr nw)) = {["b"]} /\ exists d, DpLink nw = Some d /\ TUNNELS (dp_tables d) = ∅.
Proof. split; [vm_compute; reflexivity|]. eexists. split; vm_compute; reflexivity. Qed.

(** ** An address that is used again *)

Lemma iter_values_two {MI : MapIter} (m : gmap string Info) k1 k2 x1 x2 :
  k1 <> k2 -> m = <[k1 := x1]> {[k2 := x2]} -> iter_values m = [x1; x2] \/ iter_values m = [x2; x1].
Proof.
  intros Hne ->. unfold iter_values. assert (iter (<[k1 := x1]> {[k2 := x2]}) ≡ₚ [(k1, x1); (k2, x2)]) as Hp.
  { rewrite iter_perm, map_to_list_insert by (by rewrite lookup_singleton_ne). by rewrite map_to_list_singleton. }
  symmetry in Hp. apply Permutation_length_2_inv in Hp as [->| ->]; [by left|by right].
Qed.

(** The watcher knows one node, [old], with the address [p4], and has registered it. *)
Definition knows_one (nw : NodeWatcherState) (old cidr : string) (p4 : list Z) (i : Z) : Prop :=
  tm_client (TunnelMgr nw) = None /\ tunnelIfindex (TunnelMgr nw) = i /\ 0 < i < 2 ^ 32 /\
  tunnels (TunnelMgr nw) = {[old := mkTunnelInfo old (fmt_ipv4 p4) cidr (tunnelIfName (TunnelMgr nw)) i]} /\
  exists d, DpLink nw = Some d /\ is_Some (TUNNELS (dp_tables d) !! ip_val p4).

Lemma cleanup_drops {NL : Netlink} t nw d p4 :
  length p4 = 4%nat -> Forall is_byte p4 -> ti_NodeIP t = fmt_ipv4 p4 -> DpLink nw = Some d -> is_Some (TUNNELS (dp_tables d) !! ip_val p4) ->
  tm_client (TunnelMgr nw) = None -> is_Some (tunnels (TunnelMgr nw) !! ti_NodeName t) ->
  let nw' := cleanup_tunnel (DN := dp_reliable) t nw in
  (exists d', DpLink nw' = Some d' /\ TUNNELS (dp_tables d') !! ip_val p4 = None) /\
  tunnels (TunnelMgr nw') = delete (ti_NodeName t) (tunnels (TunnelMgr nw)).
Proof.
  intros Hl Hb Hip Hd [v Hv] Hc [x Hx]. unfold cleanup_tunnel. set (nw1 := if negb (String.eqb (ti_PodCIDR t) "") then _ else _).
  assert (TunnelMgr nw1 = TunnelMgr nw /\ DpLink nw1 = Some d) as [E1 E2] by (unfold nw1; by destruct (negb _)).
  rewrite E2, Hip. pose proof (parse_ip_fmt _ Hl Hb) as Hp.
  assert (String.eqb (fmt_ipv4 p4) "" = false) as -> by (apply String.eqb_neq; intros E; by rewrite E, parse_ip_empty in Hp).
  cbn [negb]. unfold rpc, dp_net, dp_reliable, delete_tunnel. rewrite Hp. unfold hash_remove. rewrite Hv. cbn. rewrite E1.
  unfold RemoveTunnel. rewrite Hx, Hc. cbn. split; [|done]. eexists. split; [reflexivity|]. apply lookup_delete_eq.
Qed.

(** When a node is replaced by one with another name and the same address between
    two listings, the watcher first registers the new node and then deletes the
    entry of the old one, which is the same: the new node has no entry in the tunnel
    table, and later listings do not bring it back. *)
Theorem reused_address_loses_tunnel {NL : Netlink} {MI : MapIter} created self nw old cidr p4 i node new cidr' parsed n :
  length p4 = 4%nat -> Forall is_byte p4 -> knows_one nw old cidr p4 i -> new <> old ->
  seen_node self node = Some (new, fmt_ipv4 p4, cidr', parsed) ->
  let nw' := WatchNodes (DN := dp_reliable) created self (Some <$> replicate (S n) [node]) nw in
  dom (tunnels (TunnelMgr nw')) = {[new]} /\
  exists d, DpLink nw' = Some d /\ TUNNELS (dp_tables d) !! ip_val p4 = None.
Proof.
  intros Hl Hb (Hc & Hif & Hi & Htun & d & Hd & [v Hv]) Hne Hseen nw'.
  set (nw1 := watch_poll (DN := dp_reliable) created self (Some [node]) nw).
  assert (tunnels (TunnelMgr nw1) = {[new := mkTunnelInfo new (fmt_ipv4 p4) cidr' (tunnelIfName (TunnelMgr nw)) i]} /\
    exists d, DpLink nw1 = Some d /\ TUNNELS (dp_tables d) !! ip_val p4 = None) as [Ht1 Hd1].
  { unfold nw1, watch_poll. cbn [ReconcileNodes]. rewrite Hseen.
    pose proof (seen_node_parsed _ _ _ _ _ _ Hseen) as Hp. set (nw2 := EnsureTunnel _ _ _ _ _ _).
    assert (tm_client (TunnelMgr nw2) = None /\ tunnels (TunnelMgr nw2) =
      <[new := mkTunnelInfo new (fmt_ipv4 p4) cidr' (tunnelIfName (TunnelMgr nw)) i]> (tunnels (TunnelMgr nw)) /\
      exists d2, DpLink nw2 = Some d2 /\ is_Some (TUNNELS (dp_tables d2) !! ip_val p4)) as (Hc2 & Ht2 & d2 & Hd2 & Hv2).
    { unfold nw2, EnsureTunnel, GetTunnel. rewrite Htun, lookup_singleton_ne by done. unfold AddTunnel, ensureTunnelInterface.
      rewrite Hp, Htun, lookup_singleton_ne, Hif by done. destruct (Z.eqb_spec i 0); [lia|]. cbn [negb]. rewrite Hc.
      cbn [tunnels set_tunnels]. rewrite lookup_insert_eq. cbn [DpLink set_TunnelMgr ti_Ifindex]. rewrite Hd.
      assert (ip_string parsed = fmt_ipv4 p4) as ->.
      { apply (node_address (fun _ => p4) {["x"]} (fun _ _ => conj Hl Hb) "x"); [by apply elem_of_singleton|done]. }
      unfold rpc, dp_net, dp_reliable, upsert_tunnel. rewrite parse_ip_fmt by done. unfold hash_insert. rewrite Hv.
      destruct (negb _); cbn; rewrite Htun, ?Hif; (split; [done|]; split; [done|]); eexists; (split; [reflexivity|]); cbn;
        rewrite lookup_insert_eq; by eexists. }
    cbn. unfold CleanupStaleTunnels, ListTunnels.
    destruct (cleanup_drops (mkTunnelInfo old (fmt_ipv4 p4) cidr (tunnelIfName (TunnelMgr nw)) i) nw2 d2 p4) as [Hdrop Htd]; try done.
    { rewrite Ht2, Htun. cbn. rewrite lookup_insert_ne, lookup_singleton_eq by done. by eexists. }
    rewrite Htun in Ht2. destruct (iter_values_two _ _ _ _ _ Hne Ht2) as [-> | ->]; cbn [foldl].
    all: rewrite (bool_decide_true (ti_NodeName (mkTunnelInfo new _ _ _ _) ∈ _)) by (cbn; set_solver).
    all: rewrite (bool_decide_false (ti_NodeName (mkTunnelInfo old _ _ _ _) ∈ _)) by (cbn; set_solver).
    all: split; [|exact Hdrop]; rewrite Htd, Ht2; cbn; rewrite delete_insert_ne by done; by rewrite delete_singleton_eq, insert_empty. }
  assert (seen_names self [node] = {[new]}) as Hsn by (unfold seen_names; cbn; rewrite Hseen; cbn; set_solver).
  destruct (known_polls created self (replicate n [node]) nw1) as [H1 H2].
  { unfold names_own. rewrite Ht1. intros name info [<- <-]%lookup_singleton_Some. done. }
  { apply Forall_replicate. rewrite Hsn, Ht1. set_solver. }
  assert (nw' = WatchNodes (DN := dp_reliable) created self (Some <$> replicate n [node]) nw1) as -> by done.
  rewrite H1, H2, Ht1. split; [set_solver|]. exact Hd1.
Qed.

Lemma reused_address_loses_tunnel_witness :
  let nw := WatchNodes (DN := dp_reliable) (NL := always_ok) (MI := iter_forward) (Some 7) "a" [Some [node_a; node_b]] fresh_watcher in
  let nw' := WatchNodes (DN := dp_reliable) (NL := always_ok) (MI := iter_forward) (Some 7) "a"
    (Some <$> replicate 3 [cluster_node "b2" "192.168.0.2" "10.244.3.0/24"]) nw in
  dom (tunnels (TunnelMgr nw')) = {["b2"]} /\
  exists d, DpLink nw' = Some d /\ TUNNELS (dp_tables d) !! ip_val [192; 168; 0; 2] = None.
Proof.
  intros nw. apply (reused_address_loses_tunnel (NL := always_ok) (MI := iter_forward) (Some 7) "a" nw "b" "10.244.1.0/24" [192; 168; 0; 2] 7
    (cluster_node "b2" "192.168.0.2" "10.244.3.0/24") "b2" "10.244.3.0/24" [0; 0; 0; 0; 0; 0; 0; 0; 0; 0; 255; 255; 192; 168; 0; 2] 2).
  - reflexivity.
  - repeat (constructor; [unfold is_byte; lia|]). constructor.
  - split; [vm_compute; reflexivity|]. split; [vm_compute; reflexivity|]. split; [lia|]. split; [vm_compute; reflexivity|].
    eexists. split; [vm_compute; reflexivity|]. vm_compute. by eexists.
  - discriminate.
  - vm_compute. reflexivity.
Defined.

Lemma netlink_true {NL : Netlink} f k k' :
  netlink f k = (true, k') -> f (mkKernel (k_routes k) (k_neigh k) (S (k_calls k))) = Some k'.
Proof. unfold netlink. destruct (nl (k_calls k)); [|done]. destruct (f _); [by intros [= <-]|done]. Qed.

(** All routes of an interface go through one gateway, whose link address is the one
    of the node that was added last. *)
Lemma gateway_of_last_node {NL : Netlink} cidr1 cidr2 ifn src ip1 ip2 k k1 k2 :
  AddRoute cidr1 ifn src ip1 k = (true, k1) -> AddRoute cidr2 ifn src ip2 k1 = (true, k2) ->
  k_neigh k2 !! (ifn, dummyGateway) = Some (IPToTunnelMAC ip2).
Proof.
  intros _. unfold AddRoute. destruct (ParseCIDR cidr2) as [[? dst]|]; [|done].
  destruct (netlink Some k1) as [[] k3]; [|done]. cbn [negb].
  match goal with |- context [netlink ?f k3] => destruct (netlink f k3) as [[] k4] eqn:E4; [|done] end. cbn [negb].
  intros E5. apply netlink_true in E4, E5. injection E4 as <-. injection E5 as <-. cbn. by rewrite lookup_insert_eq.
Qed.
