(* ===== verification/AgentConfig.v ===== *)
(** The agent's configuration (internal/config/config.go) and what becomes of it in
    the dataplane (PushDataplaneConfig in internal/agent/setup_dataplane.go).  A
    validated configuration makes the kernel programs take exactly the addresses of
    the cluster network for cluster addresses.  Text is compared in lower case as
    ASCII. *)

From Stdlib Require Import ZArith Lia Ascii String.
From stdpp Require Import base tactics list gmap strings fin_maps.
From S2P Require Import Prelude GoStrings GoMap GoNet GoCidr RustNet EbpfMaps EbpfHelpers Dataplane DpClient Overlay.

(** * The configuration *)

Record RoutingPeerConfig := mkRoutingPeer {
  rp_NeighborAddress : string; rp_RemoteAS : Z; rp_Description : string; rp_BFDEnabled : bool;
  rp_BFDMinRxMs : Z; rp_BFDMinTxMs : Z; rp_BFDDetectMultiplier : Z }.

Record RoutingConfig := mkRoutingConfig {
  rc_Protocol : string; FRRSocketDir : string; ControlPlaneVIP : string; ControlPlaneVIPHealthInterval : Z;
  rc_BFDEnabled : bool; rc_BFDMinRxMs : Z; rc_BFDMinTxMs : Z; rc_BFDDetectMult : Z; rc_Peers : list RoutingPeerConfig }.

Record L4LBConfig := mkL4LB { l4_Enabled : bool; DefaultAlgorithm : string }.
Record EncryptionConfig := mkEncryption { en_Type : string; WireGuardPort : Z; NodeAnnotationKey : string }.
Record LBIPAMConfig := mkLBIPAM { lb_Enabled : bool; L2AnnouncementEnabled : bool }.
Record EBPFServicesConfig := mkEBPFServices { es_Enabled : bool; SocketPath : string }.
Record IPv6Config := mkIPv6 { v6_Enabled : bool; ClusterCIDRv6 : string; NodeCIDRv6MaskSize : Z }.

(** [Config]; a settings struct with one flag is the flag. *)
Record AgentConfig := mkAgentConfig {
  c_ListenSocket : string; CNISocket : string; DataplaneSocket : string; ClusterCIDR : string; NodeCIDRMaskSize : Z;
  TunnelProtocol : string; RoutingMode : string; Routing : RoutingConfig; MasqueradeEnabled : bool; DefaultDeny : bool;
  L4LB : L4LBConfig; Encryption : EncryptionConfig; HostFirewall : bool; Bandwidth : bool; LBIPAM : LBIPAMConfig;
  EBPFServices : EBPFServicesConfig; IPv6 : IPv6Config; DSR : bool; XDPAcceleration : string; c_LogLevel : string;
  c_MetricsAddress : string }.

Definition DefaultAgentConfig : AgentConfig :=
  mkAgentConfig "/run/novanet/novanet.sock" "/run/novanet/cni.sock" "/run/novanet/dataplane.sock" "10.244.0.0/16" 24
    "geneve" "overlay" (mkRoutingConfig "bgp" "/run/frr" "" 0 false 0 0 0 []) true false (mkL4LB false "random")
    (mkEncryption "disabled" 51871 "novanet.io/wireguard-pubkey") false false (mkLBIPAM false true)
    (mkEBPFServices true "/run/novanet/ebpf-services.sock") (mkIPv6 false "" 112) false "disabled" "info" "127.0.0.1:9103".

Inductive agent_config_error :=
| ErrEmptyListenSocket | ErrEmptyCNISocket | ErrEmptyDataplaneSocket | ErrEmptyClusterCIDR | ErrClusterCIDR
| ErrInvalidNodeCIDRMask | ErrInvalidTunnelProto | ErrInvalidRoutingMode | ErrEmptyRoutingProto | ErrInvalidRoutingProto
| ErrInvalidLogLevel | ErrEmptyClusterCIDRv6 | ErrInvalidClusterCIDRv6 | ErrInvalidNodeCIDRv6.

Definition one_of (s : string) (l : list string) : bool := bool_decide (to_lower s ∈ l).

Definition ValidateAgent (cfg : AgentConfig) : option agent_config_error :=
  if String.eqb (c_ListenSocket cfg) "" then Some ErrEmptyListenSocket
  else if String.eqb (CNISocket cfg) "" then Some ErrEmptyCNISocket
  else if String.eqb (DataplaneSocket cfg) "" then Some ErrEmptyDataplaneSocket
  else if String.eqb (ClusterCIDR cfg) "" then Some ErrEmptyClusterCIDR
  else if match ParseCIDR (ClusterCIDR cfg) with None => true | Some _ => false end then Some ErrClusterCIDR
  else if (NodeCIDRMaskSize cfg <? 16) || (28 <? NodeCIDRMaskSize cfg) then Some ErrInvalidNodeCIDRMask
  else if negb (one_of (TunnelProtocol cfg) ["geneve"; "vxlan"]) then Some ErrInvalidTunnelProto
  else if negb (one_of (RoutingMode cfg) ["overlay"; "native"]) then Some ErrInvalidRoutingMode
  else
    let native := one_of (RoutingMode cfg) ["native"] in
    if native && String.eqb (to_lower (rc_Protocol (Routing cfg))) "" then Some ErrEmptyRoutingProto
    else if native && negb (one_of (rc_Protocol (Routing cfg)) ["bgp"; "ospf"]) then Some ErrInvalidRoutingProto
    else if negb (one_of (c_LogLevel cfg) ["debug"; "info"; "warn"; "error"]) then Some ErrInvalidLogLevel
    else if v6_Enabled (IPv6 cfg) then
      if String.eqb (ClusterCIDRv6 (IPv6 cfg)) "" then Some ErrEmptyClusterCIDRv6
      else match ParseCIDR (ClusterCIDRv6 (IPv6 cfg)) with
           | None => Some ErrInvalidClusterCIDRv6
           | Some (ip, _) =>
               match To4 ip with
               | Some _ => Some ErrInvalidClusterCIDRv6
               | None => if (NodeCIDRv6MaskSize (IPv6 cfg) <? 48) || (120 <? NodeCIDRv6MaskSize (IPv6 cfg))
                         then Some ErrInvalidNodeCIDRv6 else None
               end
           end
    else None.

(** ** The environment *)

(** [os.Getenv] and [parseBoolEnv] for an environment of set variables. *)
Abbreviation environ := (gmap string string).
Definition getenv (env : environ) (v : string) : string := default "" (env !! v).

Definition parseBoolEnv (env : environ) (v : string) (current : bool) : bool :=
  if one_of (getenv env v) ["true"; "1"] then true
  else if one_of (getenv env v) ["false"; "0"] then false
  else current.

(** A string setting with its variable, and with the older one that counts when the
    variable is not set at all. *)
Definition env_string (env : environ) (v current : string) : string :=
  if String.eqb (getenv env v) "" then current else getenv env v.

Definition env_legacy (env : environ) (v legacy current : string) : string :=
  match env !! v with Some _ => current | None => env_string env legacy current end.

Definition ExpandAgentEnv (env : environ) (c : AgentConfig) : AgentConfig :=
  mkAgentConfig (c_ListenSocket c) (CNISocket c) (DataplaneSocket c)
    (env_legacy env "NOVANET_CLUSTER_CIDR" "NOVAROUTE_CLUSTER_CIDR" (env_string env "NOVANET_CLUSTER_CIDR" (ClusterCIDR c)))
    (NodeCIDRMaskSize c)
    (env_legacy env "NOVANET_TUNNEL_PROTOCOL" "NOVAROUTE_TUNNEL_PROTOCOL" (env_string env "NOVANET_TUNNEL_PROTOCOL" (TunnelProtocol c)))
    (env_legacy env "NOVANET_ROUTING_MODE" "NOVAROUTE_ROUTING_MODE" (env_string env "NOVANET_ROUTING_MODE" (RoutingMode c)))
    (Routing c) (MasqueradeEnabled c) (DefaultDeny c)
    (mkL4LB (parseBoolEnv env "NOVANET_L4LB_ENABLED" (l4_Enabled (L4LB c))) (DefaultAlgorithm (L4LB c)))
    (mkEncryption (env_string env "NOVANET_ENCRYPTION_TYPE" (en_Type (Encryption c))) (WireGuardPort (Encryption c))
       (NodeAnnotationKey (Encryption c)))
    (parseBoolEnv env "NOVANET_HOST_FIREWALL_ENABLED" (HostFirewall c))
    (parseBoolEnv env "NOVANET_BANDWIDTH_ENABLED" (Bandwidth c))
    (mkLBIPAM (parseBoolEnv env "NOVANET_LBIPAM_ENABLED" (lb_Enabled (LBIPAM c))) (L2AnnouncementEnabled (LBIPAM c)))
    (EBPFServices c)
    (mkIPv6 (parseBoolEnv env "NOVANET_IPV6_ENABLED" (v6_Enabled (IPv6 c)))
       (env_string env "NOVANET_CLUSTER_CIDR_V6" (ClusterCIDRv6 (IPv6 c))) (NodeCIDRv6MaskSize (IPv6 c)))
    (parseBoolEnv env "NOVANET_DSR_ENABLED" (DSR c))
    (env_string env "NOVANET_XDP_ACCELERATION" (XDPAcceleration c)) (c_LogLevel c) (c_MetricsAddress c).

(** * Configuration of the dataplane *)

Definition TunnelGEV : Z := 0.
Definition TunnelVXL : Z := 1.
Definition CONFIG_KEY_MASQUERADE_ENABLE : Z := 6.
Definition CONFIG_KEY_POD_CIDR_IP : Z := 8.
Definition CONFIG_KEY_POD_CIDR_PL : Z := 9.

Definition set_opt (k : Z) (v : option Z) (m : gmap Z Z) : gmap Z Z := match v with Some x => <[k := x]> m | None => m end.

(** The address and the prefix length of a CIDR, under their two keys. *)
Definition cidr_entries (k_ip k_len : Z) (cidr : string) (m : gmap Z Z) : gmap Z Z :=
  match ParseCIDR cidr with
  | None => m
  | Some (ip, n) => <[k_len := (mask_size (net_mask n)).1]> (set_opt k_ip (ip_val <$> To4 ip) m)
  end.

Definition b2z (b : bool) : Z := if b then 1 else 0.

Definition config_entries (cfg : AgentConfig) (nodeIP : IP) (podCIDR : string) : gmap Z Z :=
  let m := set_opt CONFIG_KEY_MODE
    (if one_of (RoutingMode cfg) ["overlay"] then Some MODE_OVERLAY
     else if one_of (RoutingMode cfg) ["native"] then Some MODE_NATIVE else None) ∅ in
  let m := set_opt CONFIG_KEY_TUNNEL_TYPE
    (if one_of (TunnelProtocol cfg) ["geneve"] then Some TunnelGEV
     else if one_of (TunnelProtocol cfg) ["vxlan"] then Some TunnelVXL else None) m in
  let m := set_opt CONFIG_KEY_NODE_IP (ip_val <$> To4 nodeIP) m in
  let m := cidr_entries CONFIG_KEY_CLUSTER_CIDR_IP CONFIG_KEY_CLUSTER_CIDR_PREFIX_LEN (ClusterCIDR cfg) m in
  let m := cidr_entries CONFIG_KEY_POD_CIDR_IP CONFIG_KEY_POD_CIDR_PL podCIDR m in
  <[CONFIG_KEY_L4LB_ENABLED := b2z (l4_Enabled (L4LB cfg))]>
  (<[CONFIG_KEY_MASQUERADE_ENABLE := b2z (MasqueradeEnabled cfg)]>
  (<[CONFIG_KEY_DEFAULT_DENY := b2z (DefaultDeny cfg)]> m)).

Definition PushDataplaneConfig {DN : DpNet} {MI : MapIter} (cfg : AgentConfig) (nodeIP : IP) (podCIDR : string) (d : dpc) : dpc * bool :=
  rpc (fun t => update_config t (iter (config_entries cfg nodeIP podCIDR))) d.

(** * What the kernel reads *)

(** A batch of entries that fits is written as a whole. *)
Lemma update_config_writes l : forall t,
  NoDup l.*1 -> Z.of_nat (size (CONFIG t)) + Z.of_nat (length l) <= MAX_CONFIG_ENTRIES ->
  exists t', update_config t l = (t', Ok tt) /\ CONFIG t' = list_to_map l ∪ CONFIG t.
Proof.
  unfold update_config. induction l as [|[k v] l IH]; intros t Hnd Hsz; cbn [for_each list_to_map foldr].
  { exists t. split; [done|]. cbn. by rewrite map_empty_union. }
  cbn in Hnd. apply NoDup_cons in Hnd as [Hk Hnd]. cbn [length] in Hsz.
  assert (hash_insert MAX_CONFIG_ENTRIES (CONFIG t) k v = Some (<[k := v]> (CONFIG t))) as ->.
  { unfold hash_insert. destruct (CONFIG t !! k); [done|]. by rewrite (proj2 (Z.ltb_lt _ _)) by lia. }
  cbn [commit]. destruct (IH (set_CONFIG t (<[k := v]> (CONFIG t))) Hnd) as (t' & E & Ht').
  { cbn. rewrite map_size_insert. destruct (CONFIG t !! k); cbn; unfold id; lia. }
  exists t'. split; [exact E|]. rewrite Ht'. cbn. apply map_eq. intros j.
  destruct (decide (j = k)) as [->|Hne].
  - rewrite lookup_union_r by (by apply not_elem_of_list_to_map_1). rewrite lookup_insert_eq.
    symmetry. apply lookup_union_Some_l. by rewrite lookup_insert_eq.
  - rewrite !lookup_union, !lookup_insert_ne by done. done.
Qed.

Lemma set_opt_dom k v m : dom (set_opt k v m) ⊆ {[k]} ∪ dom m.
Proof. destruct v; cbn; set_solver. Qed.

Lemma cidr_entries_dom k1 k2 c m : dom (cidr_entries k1 k2 c m) ⊆ {[k1; k2]} ∪ dom m.
Proof.
  unfold cidr_entries. destruct (ParseCIDR c) as [[ip n]|]; [|set_solver]. rewrite dom_insert.
  pose proof (set_opt_dom k1 (ip_val <$> To4 ip) m). set_solver.
Qed.

Lemma config_entries_keys cfg nodeIP podCIDR :
  dom (config_entries cfg nodeIP podCIDR) ⊆ list_to_set [0; 1; 2; 3; 4; 5; 6; 8; 9; 10].
Proof.
  unfold config_entries. rewrite !dom_insert. etrans; [do 3 (apply union_mono_l)|]; [etrans; [apply cidr_entries_dom|];
    apply union_mono_l; etrans; [apply cidr_entries_dom|]; apply union_mono_l; do 3 (etrans; [apply set_opt_dom|]; apply union_mono_l);
    rewrite dom_empty; reflexivity|].
  apply (bool_decide_unpack _). vm_compute. exact I.
Qed.

Lemma push_config_read {MI : MapIter} cfg nodeIP podCIDR d :
  Z.of_nat (size (CONFIG (dp_tables d))) <= 20 ->
  exists d', PushDataplaneConfig (DN := dp_reliable) cfg nodeIP podCIDR d = (d', true) /\
    forall k v, config_entries cfg nodeIP podCIDR !! k = Some v -> get_config (dp_tables d') k = v.
Proof.
  intros Hsz. unfold PushDataplaneConfig, rpc, dp_net, dp_reliable. set (m := config_entries cfg nodeIP podCIDR).
  assert (Z.of_nat (length (iter m)) <= 12) as Hlen.
  { rewrite iter_perm, length_map_to_list, <- size_dom.
    pose proof (subseteq_size _ _ (config_entries_keys cfg nodeIP podCIDR)) as H.
    change (size (list_to_set [0; 1; 2; 3; 4; 5; 6; 8; 9; 10] : gset Z)) with 10%nat in H. fold m in H. lia. }
  destruct (update_config_writes (iter m) (dp_tables d)) as (t' & -> & Ht').
  { rewrite iter_perm. apply NoDup_fst_map_to_list. }
  { unfold MAX_CONFIG_ENTRIES. lia. }
  eexists. split; [reflexivity|]. intros k v Hk. unfold get_config. cbn. rewrite Ht'.
  assert (list_to_map (iter m) = m) as ->; [|by rewrite (lookup_union_Some_l _ _ _ _ Hk)].
  apply map_eq. intros j. apply option_eq. intros x. rewrite <- elem_of_list_to_map, elem_of_iter; [done|].
  rewrite iter_perm. apply NoDup_fst_map_to_list.
Qed.

Lemma set_opt_ne k v m j : j <> k -> set_opt k v m !! j = m !! j.
Proof. intros H. destruct v; [by apply lookup_insert_ne|done]. Qed.

Lemma cidr_entries_ne k1 k2 c m j : j <> k1 -> j <> k2 -> cidr_entries k1 k2 c m !! j = m !! j.
Proof.
  intros H1 H2. unfold cidr_entries. destruct (ParseCIDR c) as [[ip n]|]; [|done].
  by rewrite lookup_insert_ne, set_opt_ne.
Qed.

Lemma cidr_entries_v4 k1 k2 c m ip n p4 :
  k1 <> k2 -> ParseCIDR c = Some (ip, n) -> To4 ip = Some p4 ->
  cidr_entries k1 k2 c m !! k1 = Some (ip_val p4) /\ cidr_entries k1 k2 c m !! k2 = Some (mask_size (net_mask n)).1.
Proof.
  intros Hne E E4. unfold cidr_entries. rewrite E, E4. cbn. rewrite lookup_insert_ne, !lookup_insert_eq by done. done.
Qed.

(** Masking with the prefix mask of the programs. *)
Lemma land_prefix_mask x n : 0 <= x < 2 ^ 32 -> 1 <= n <= 32 -> Z.land x (prefix_mask n) = x / 2 ^ (32 - n) * 2 ^ (32 - n).
Proof.
  intros Hx Hn. assert (prefix_mask n = Z.ldiff (Z.ones 32) (Z.ones (32 - n))) as ->.
  { rewrite Z.ldiff_ones_r, Z.shiftl_mul_pow2, Z.shiftr_div_pow2, Z.ones_equiv by lia.
    unfold prefix_mask. destruct (n =? 0) eqn:E0; to_prop; [lia|].
    assert (Z.pred (2 ^ 32) / 2 ^ (32 - n) = 2 ^ n - 1) as ->.
    { symmetry. apply (Z.div_unique _ _ _ (2 ^ (32 - n) - 1)); [pose proof (Z.pow_pos_nonneg 2 (32 - n)); lia|].
      replace 32 with ((32 - n) + n) at 1 by lia. rewrite Z.pow_add_r by lia. lia. }
    assert (2 ^ n * 2 ^ (32 - n) = 2 ^ 32) by (rewrite <- Z.pow_add_r by lia; f_equal; lia).
    destruct (n =? 32) eqn:E; to_prop; [subst; done|lia]. }
  assert (forall a b, Z.land x (Z.ldiff a b) = Z.ldiff (Z.land x a) b) as ->.
  { intros a b. apply Z.bits_inj'. intros k Hk. rewrite Z.land_spec, !Z.ldiff_spec, Z.land_spec. by rewrite andb_assoc. }
  rewrite (Z.land_ones x 32), Z.mod_small by lia. by rewrite Z.ldiff_ones_r, Z.shiftl_mul_pow2, Z.shiftr_div_pow2 by lia.
Qed.

(** The kernel's test of a cluster address, from the two entries. *)
Lemma is_cluster_ip_Contains t c ip n p4 x :
  ParseCIDR c = Some (ip, n) -> length (net_mask n) = 4%nat -> To4 ip = Some p4 -> 1 <= (mask_size (net_mask n)).1 ->
  get_config t CONFIG_KEY_CLUSTER_CIDR_IP = ip_val p4 -> get_config t CONFIG_KEY_CLUSTER_CIDR_PREFIX_LEN = (mask_size (net_mask n)).1 ->
  length x = 4%nat -> Forall is_byte x -> is_cluster_ip t (ip_val x) = Contains n x.
Proof.
  intros Hp Hm4 E4 Hone Hg1 Hg2 Hlx Hbx. destruct (ParseCIDR_ok _ _ _ Hp) as (Hwi & ones & bits & Hok & Hsz).
  destruct (ParseCIDR_within _ _ _ _ _ Hp Hok (or_introl Hm4)) as (Hun & Hlen & Hval).
  rewrite Hsz in *. cbn [fst] in *. unfold unmap in Hlen, Hval. rewrite E4 in Hlen, Hval. cbn [from_option id] in Hlen, Hval.
  assert (length (net_ip n) = 4%nat) as Hl4 by (rewrite (cidr_mask _ _ _ Hok), mask_bytes_length in Hm4; done).
  pose proof (cidr_bits _ _ _ Hok) as Hb. rewrite Hl4 in Hb. pose proof (cidr_ones _ _ _ Hok) as Ho.
  assert (wf_ip x) as Hwx by (split; [by left|done]).
  destruct (To4_spec _ _ Hwi E4) as (Hlp & Hbp & _).
  pose proof (ip_val_range x Hbx) as Hrx. pose proof (ip_val_range p4 Hbp) as Hrp. rewrite Hlx in Hrx. rewrite Hlp in Hrp.
  unfold is_cluster_ip. rewrite Hg1, Hg2. unfold wrap32. rewrite !Z.mod_small by lia.
  destruct ((ones =? 0) || (32 <? ones)) eqn:E; to_prop; [lia|].
  rewrite !land_prefix_mask by lia.
  destruct (Contains n x) eqn:Ec.
  - apply (Contains_unmap _ _ _ _ Hok Hun Hwx) in Ec as [_ Hv]. unfold unmap in Hv. rewrite To4_len4 in Hv by done. cbn [from_option id] in Hv.
    rewrite Hv in Hval. replace (bits - ones) with (32 - ones) in Hval by lia. rewrite Hval. by rewrite Z.eqb_refl.
  - destruct (Z.eqb_spec (ip_val x / 2 ^ (32 - ones) * 2 ^ (32 - ones)) (ip_val p4 / 2 ^ (32 - ones) * 2 ^ (32 - ones))) as [Heq|]; [|done].
    exfalso. apply Z.mul_cancel_r in Heq; [|apply Z.pow_nonzero; lia]. enough (Contains n x = true) by congruence.
    apply (Contains_unmap _ _ _ _ Hok Hun Hwx). unfold unmap. rewrite To4_len4 by done. cbn [from_option id]. split; [congruence|].
    replace (bits - ones) with (32 - ones) in * by lia. by rewrite Hval, Heq.
Qed.

Lemma ValidateAgent_modes cfg :
  ValidateAgent cfg = None ->
  to_lower (RoutingMode cfg) ∈ ["overlay"; "native"] /\ to_lower (TunnelProtocol cfg) ∈ ["geneve"; "vxlan"] /\
  exists ip n, ParseCIDR (ClusterCIDR cfg) = Some (ip, n).
Proof.
  unfold ValidateAgent. destruct (ParseCIDR (ClusterCIDR cfg)) as [[ip n]|].
  2:{ intros H. repeat (case_match; [done|]). done. }
  intros H.
  destruct (String.eqb (c_ListenSocket cfg) ""); [done|]. destruct (String.eqb (CNISocket cfg) ""); [done|].
  destruct (String.eqb (DataplaneSocket cfg) ""); [done|]. destruct (String.eqb (ClusterCIDR cfg) ""); [done|].
  destruct ((NodeCIDRMaskSize cfg <? 16) || _); [done|].
  destruct (one_of (TunnelProtocol cfg) ["geneve"; "vxlan"]) eqn:E1; [|done].
  destruct (one_of (RoutingMode cfg) ["overlay"; "native"]) eqn:E2; [|done].
  unfold one_of in E1, E2. apply bool_decide_eq_true in E1, E2. split; [done|]. split; [done|]. by eexists _, _.
Qed.

(** C32: After a validated configuration is sent, the kernel programs work with what
    it says: they are in the configured mode, deny by default iff it says so, balance
    services iff it says so, know the node's address, and take an IPv4 address for
    one of the cluster exactly when it lies in the cluster network, an IPv4 network
    with a prefix of at least one bit. *)
Theorem kernel_follows_config {MI : MapIter} cfg nodeIP node4 podCIDR d ip n :
  ValidateAgent cfg = None -> Z.of_nat (size (CONFIG (dp_tables d))) <= 20 -> To4 nodeIP = Some node4 ->
  ParseCIDR (ClusterCIDR cfg) = Some (ip, n) -> length (net_mask n) = 4%nat -> 1 <= (mask_size (net_mask n)).1 ->
  exists d', PushDataplaneConfig (DN := dp_reliable) cfg nodeIP podCIDR d = (d', true) /\
    let t := dp_tables d' in
    get_config t CONFIG_KEY_MODE = (if String.eqb (to_lower (RoutingMode cfg)) "overlay" then MODE_OVERLAY else MODE_NATIVE) /\
    get_config t CONFIG_KEY_DEFAULT_DENY = b2z (DefaultDeny cfg) /\
    get_config t CONFIG_KEY_L4LB_ENABLED = b2z (l4_Enabled (L4LB cfg)) /\
    get_config t CONFIG_KEY_NODE_IP = ip_val node4 /\
    forall x, length x = 4%nat -> Forall is_byte x -> is_cluster_ip t (ip_val x) = Contains n x.
Proof.
  intros Hv Hsz Hnode Hp Hm4 Hone. destruct (push_config_read cfg nodeIP podCIDR d Hsz) as (d' & Ed & Hget).
  exists d'. split; [done|]. cbv zeta. destruct (ValidateAgent_modes cfg Hv) as (Hmode & _ & _).
  assert (exists p4, To4 ip = Some p4) as [p4 E4].
  { pose proof (ParseCIDR_ok _ _ _ Hp) as (Hwi & ones & bits & Hok & _).
    destruct (ParseCIDR_within _ _ _ _ _ Hp Hok (or_introl Hm4)) as (_ & Hlen & _). unfold unmap in Hlen.
    destruct (To4 ip) eqn:E; [by eexists|]. cbn [from_option id] in Hlen. rewrite (cidr_mask _ _ _ Hok), mask_bytes_length in Hm4.
    rewrite Hm4 in Hlen. by rewrite To4_len4 in E. }
  assert (forall k, k <> CONFIG_KEY_L4LB_ENABLED -> k <> CONFIG_KEY_MASQUERADE_ENABLE -> k <> CONFIG_KEY_DEFAULT_DENY ->
    k <> CONFIG_KEY_POD_CIDR_IP -> k <> CONFIG_KEY_POD_CIDR_PL -> forall v,
    cidr_entries CONFIG_KEY_CLUSTER_CIDR_IP CONFIG_KEY_CLUSTER_CIDR_PREFIX_LEN (ClusterCIDR cfg)
      (set_opt CONFIG_KEY_NODE_IP (ip_val <$> To4 nodeIP) (set_opt CONFIG_KEY_TUNNEL_TYPE
        (if one_of (TunnelProtocol cfg) ["geneve"] then Some TunnelGEV
         else if one_of (TunnelProtocol cfg) ["vxlan"] then Some TunnelVXL else None)
        (set_opt CONFIG_KEY_MODE (if one_of (RoutingMode cfg) ["overlay"] then Some MODE_OVERLAY
         else if one_of (RoutingMode cfg) ["native"] then Some MODE_NATIVE else None) ∅))) !! k = Some v ->
    get_config (dp_tables d') k = v) as Hk.
  { intros k H1 H2 H3 H4 H5 v H. apply Hget. unfold config_entries. rewrite !lookup_insert_ne by done. by rewrite cidr_entries_ne. }
  split.
  { apply Hk; [done..|]. rewrite cidr_entries_ne, !set_opt_ne by done. unfold one_of.
    rewrite !elem_of_cons, elem_of_nil in Hmode. destruct Hmode as [->|[->|[]]]; done. }
  split; [apply Hget; unfold config_entries; by rewrite !lookup_insert_ne, lookup_insert_eq by done|].
  split; [apply Hget; unfold config_entries; by rewrite lookup_insert_eq|].
  split.
  { apply Hk; [done..|]. rewrite cidr_entries_ne by done. rewrite Hnode. cbn. by rewrite lookup_insert_eq. }
  intros x Hlx Hbx.
  match type of Hk with context [cidr_entries ?a ?b ?c ?m] => destruct (cidr_entries_v4 a b c m ip n p4 ltac:(done) Hp E4) as [H1 H2] end.
  apply (is_cluster_ip_Contains _ (ClusterCIDR cfg) ip n p4); try done; apply Hk; done.
Qed.

Lemma kernel_follows_config_witness :
  exists d', PushDataplaneConfig (DN := dp_reliable) (MI := iter_forward) DefaultAgentConfig [192; 168; 0; 1] "10.244.1.0/24"
      (mkDpc empty_tables 0) = (d', true) /\
    let t := dp_tables d' in
    get_config t CONFIG_KEY_MODE = MODE_OVERLAY /\ get_config t CONFIG_KEY_DEFAULT_DENY = 0 /\
    get_config t CONFIG_KEY_L4LB_ENABLED = 0 /\ get_config t CONFIG_KEY_NODE_IP = 3232235521 /\
    forall x, length x = 4%nat -> Forall is_byte x ->
      is_cluster_ip t (ip_val x) = Contains (mkIPNet [10; 244; 0; 0] [255; 255; 0; 0]) x.
Proof.
  apply (kernel_follows_config (MI := iter_forward) DefaultAgentConfig [192; 168; 0; 1] [192; 168; 0; 1] "10.244.1.0/24" (mkDpc empty_tables 0)
    [0; 0; 0; 0; 0; 0; 0; 0; 0; 0; 255; 255; 10; 244; 0; 0]); try (vm_compute; reflexivity); vm_compute; discriminate.
Defined.

(** * Spelling *)

(** A protocol spelt with capitals passes validation and selects the tunnel type
    in the dataplane, but the tunnel manager compares the spelling: it never gets an
    interface, and no node ever gets a tunnel. *)
Theorem capitals_disable_overlay {NL : Netlink} {MI : MapIter} {DN : DpNet} created self nodeIP d k polls :
  let cfg := ExpandAgentEnv {["NOVANET_TUNNEL_PROTOCOL" := "Geneve"]} DefaultAgentConfig in
  ValidateAgent cfg = None /\ config_entries cfg nodeIP "10.244.1.0/24" !! CONFIG_KEY_TUNNEL_TYPE = Some TunnelGEV /\
  let nw := WatchNodes created self polls (mkNW (NewTunnelManager (TunnelProtocol cfg) nodeIP 1 None) d nodeIP false k) in
  tunnels (TunnelMgr nw) = ∅ /\ DpLink nw = d.
Proof.
  intros cfg. split; [vm_compute; reflexivity|]. split.
  { unfold config_entries. rewrite !lookup_insert_ne, !cidr_entries_ne, set_opt_ne by done. reflexivity. }
  cbv zeta. set (nw0 := mkNW _ _ _ _ _). change (TunnelProtocol cfg) with "Geneve" in nw0.
  assert (forall nw, TunnelMgr nw = NewTunnelManager "Geneve" nodeIP 1 None -> DpLink nw = d ->
    forall l, exists seen nw', ReconcileNodes created l self nw = (seen, nw') /\
      TunnelMgr nw' = NewTunnelManager "Geneve" nodeIP 1 None /\ DpLink nw' = d) as Hrec.
  { intros nw Hm Hd l. revert nw Hm Hd. induction l as [|n l IH]; intros nw Hm Hd; cbn [ReconcileNodes]; [by eexists _, _|].
    destruct (seen_node self n) as [[[[name ip] cidr] parsed]|]; [|by apply IH].
    assert (EnsureTunnel created name ip cidr parsed nw = nw) as ->.
    { assert (set_TunnelMgr (NewTunnelManager "Geneve" nodeIP 1 None) nw = nw) as Hset by (rewrite <- Hm; by destruct nw).
      unfold EnsureTunnel, GetTunnel. rewrite Hm. unfold AddTunnel. destruct (ParseIP ip); exact Hset. }
    destruct (IH nw Hm Hd) as (seen & nw' & -> & H). by eexists _, _. }
  assert (forall nw, TunnelMgr nw = NewTunnelManager "Geneve" nodeIP 1 None -> DpLink nw = d ->
    forall l, TunnelMgr (watch_poll created self l nw) = NewTunnelManager "Geneve" nodeIP 1 None /\
      DpLink (watch_poll created self l nw) = d) as Hpoll.
  { intros nw Hm Hd [l|]; [|done]. unfold watch_poll. destruct (Hrec nw Hm Hd l) as (seen & nw' & -> & Hm' & Hd').
    unfold CleanupStaleTunnels, ListTunnels, iter_values. rewrite Hm'. cbn [tunnels NewTunnelManager]. by rewrite iter_empty. }
  enough (TunnelMgr (WatchNodes created self polls nw0) = NewTunnelManager "Geneve" nodeIP 1 None /\
    DpLink (WatchNodes created self polls nw0) = d) as [-> ->] by done.
  assert (TunnelMgr nw0 = NewTunnelManager "Geneve" nodeIP 1 None /\ DpLink nw0 = d) as [Hm Hd] by done. revert Hm Hd.
  generalize nw0. clear nw0. induction polls as [|l polls IH]; intros nw Hm Hd; [done|]. unfold WatchNodes. cbn [foldl].
  apply IH; by apply Hpoll.
Qed.

(** The newer variable wins over the older one, and over the file. *)
Lemma env_precedence env v legacy current x :
  env !! v = Some x -> x <> "" -> env_legacy env v legacy (env_string env v current) = x.
Proof.
  intros Hx Hne. unfold env_legacy, env_string, getenv. rewrite Hx. cbn. by destruct (String.eqb_spec x "").
Qed.
