(* ===== verification/HostFirewall.v ===== *)
(** The host firewall manager (internal/hostfirewall/manager.go): compilation of
    HostEndpointPolicies to rules and the table of compiled rules.  After any
    history of policies the table is the union of the rules of the last compiled
    version of each policy, except that a policy cannot be emptied. *)

From Stdlib Require Import ZArith Lia Ascii String.
From stdpp Require Import base tactics list gmap strings fin_maps.
From S2P Require Import Prelude GoStrings GoMap GoNet Constants.

Variant Direction := DirectionIngress | DirectionEgress.

#[export] Instance Direction_eq_dec : EqDecision Direction.
Proof. solve_decision. Defined.

(** The policy as the API declares it; the node selector is not read here. *)
Record HostPort := mkHostPort { hp_Port : Z; hp_EndPort : option Z }.
Record HostRule := mkHostRule {
  hr_Action : string; hr_Protocol : option string; hr_CIDRs : list string; hr_Ports : list HostPort }.
Record HostEndpointPolicy := mkHostPolicy {
  hep_Name : string; hep_Ingress : list HostRule; hep_Egress : list HostRule }.

Record CompiledHostRule := mkCompiledHost {
  RuleID : string; hc_Direction : Direction; hc_Protocol : Z; hc_CIDR : IPNet;
  hc_Port : Z; hc_EndPort : Z; hc_Action : Z; PolicyName : string }.

Inductive host_error := ErrNilPolicy | ErrUnknownAction | ErrCIDR.

(** * Compilation *)

Definition convertAction (action : string) : result host_error Z :=
  if String.eqb action "Allow" then Ok ActionAllow
  else if String.eqb action "Deny" then Ok ActionDeny
  else Err ErrUnknownAction.

Definition convertProtocol (proto : option string) : Z :=
  match proto with
  | None => ProtocolAny
  | Some p =>
      if String.eqb p "TCP" then ProtocolTCP
      else if String.eqb p "UDP" then ProtocolUDP
      else if String.eqb p "SCTP" then ProtocolSCTP
      else ProtocolAny
  end.

Fixpoint parseCIDRs (cidrs : list string) : result host_error (list IPNet) :=
  match cidrs with
  | [] => Ok []
  | c :: rest =>
      match ParseCIDR c with
      | None => Err ErrCIDR
      | Some (_, n) => match parseCIDRs rest with Ok l => Ok (n :: l) | Err e => Err e end
      end
  end.

Definition int32ToUint16 (port : Z) : Z :=
  if (port <? 0) || (port >? MaxUint16) then 0 else wrap16 (Z.land port MaxUint16).

Record portRange := mkPortRange { pr_port : Z; pr_endPort : Z }.

Definition expand_port (p : HostPort) : list portRange :=
  if (hp_Port p <? 0) || (hp_Port p >? MaxUint16) then []
  else [mkPortRange (int32ToUint16 (hp_Port p))
          match hp_EndPort p with
          | Some ep => if (0 <=? ep) && (ep <=? MaxUint16) then int32ToUint16 ep else 0
          | None => 0
          end].

Definition expandPorts (ports : list HostPort) : list portRange := ports ≫= expand_port.

Definition all_net : IPNet := default (mkIPNet [] []) (snd <$> ParseCIDR "0.0.0.0/0").

Definition dirStr (dir : Direction) : string :=
  match dir with DirectionEgress => "egress" | DirectionIngress => "ingress" end.

Definition ruleID (policyName : string) (dir : Direction) (idx : Z) : string :=
  policyName +:+ "/" +:+ dirStr dir +:+ "/" +:+ fmt_d idx.

(** One rule without its number, for each network and each port range. *)
Definition expand_rule (policyName : string) (dir : Direction) (rule : HostRule)
    : result host_error (list (Z -> CompiledHostRule)) :=
  match convertAction (hr_Action rule) with
  | Err e => Err e
  | Ok action =>
      let proto := convertProtocol (hr_Protocol rule) in
      match parseCIDRs (hr_CIDRs rule) with
      | Err e => Err e
      | Ok parsed =>
          let cidrs := if go_len parsed =? 0 then [all_net] else parsed in
          let expanded := expandPorts (hr_Ports rule) in
          let ports := if go_len expanded =? 0 then [mkPortRange 0 0] else expanded in
          Ok (cidrs ≫= fun cidr => (fun pr idx =>
                mkCompiledHost (ruleID policyName dir idx) dir proto cidr (pr_port pr) (pr_endPort pr)
                  action policyName) <$> ports)
      end
  end.

(** The running number [idx]. *)
Fixpoint number (idx : Z) (l : list (Z -> CompiledHostRule)) : list CompiledHostRule :=
  match l with
  | [] => []
  | f :: rest => f idx :: number (idx + 1) rest
  end.

Fixpoint compile_from (idx : Z) (policyName : string) (dir : Direction) (rules : list HostRule)
    : result host_error (list CompiledHostRule) :=
  match rules with
  | [] => Ok []
  | rule :: rest =>
      match expand_rule policyName dir rule with
      | Err e => Err e
      | Ok l =>
          match compile_from (idx + go_len l) policyName dir rest with
          | Err e => Err e
          | Ok l' => Ok (number idx l ++ l')
          end
      end
  end.

Definition compileRules := compile_from 0.

Definition CompileHostPolicy (policy : option HostEndpointPolicy) : result host_error (list CompiledHostRule) :=
  match policy with
  | None => Err ErrNilPolicy
  | Some p =>
      match compileRules (hep_Name p) DirectionIngress (hep_Ingress p) with
      | Err e => Err e
      | Ok ingressRules =>
          match compileRules (hep_Name p) DirectionEgress (hep_Egress p) with
          | Err e => Err e
          | Ok egressRules => Ok (ingressRules ++ egressRules)
          end
      end
  end.

(** * The table *)

(** [Manager], without its mutex and logger. *)
Record HostManager := mkHostManager { host_rules : gmap string CompiledHostRule }.

Definition NewHostManager : HostManager := mkHostManager ∅.

Definition RemovePolicy (policyName : string) (m : HostManager) : HostManager :=
  mkHostManager (filter (fun p => PolicyName p.2 <> policyName) (host_rules m)).

Definition ApplyRules (l : list CompiledHostRule) (m : HostManager) : HostManager :=
  match l with
  | [] => m
  | r :: _ => mkHostManager (foldl (fun t r => <[RuleID r := r]> t) (host_rules (RemovePolicy (PolicyName r) m)) l)
  end.

Definition GetHostRules {MI : MapIter} (m : HostManager) : list CompiledHostRule := iter_values (host_rules m).

Definition GetRulesByDirection {MI : MapIter} (dir : Direction) (m : HostManager) : list CompiledHostRule :=
  filter (fun r => hc_Direction r = dir) (iter_values (host_rules m)).

Definition HostCount (m : HostManager) : Z := Z.of_nat (size (host_rules m)).

(** * Rule numbers *)

(** The rules of [l] carry the numbers from [idx] on. *)
Definition numbered (name : string) (dir : Direction) (idx : Z) (l : list CompiledHostRule) : Prop :=
  forall (k : nat) r, l !! k = Some r -> RuleID r = ruleID name dir (idx + Z.of_nat k) /\ PolicyName r = name.

Lemma numbered_app name dir idx l l' :
  numbered name dir idx l -> numbered name dir (idx + go_len l) l' -> numbered name dir idx (l ++ l').
Proof.
  intros H H' k r [Hk|[Hk Hr]]%lookup_app_Some; [by apply H|].
  destruct (H' _ _ Hr) as [-> ?]. split; [|done]. f_equal. unfold go_len. lia.
Qed.

Lemma expand_rule_ids name dir rule l f i :
  expand_rule name dir rule = Ok l -> f ∈ l -> RuleID (f i) = ruleID name dir i /\ PolicyName (f i) = name.
Proof.
  unfold expand_rule. destruct (convertAction _); [|done]. destruct (parseCIDRs _); [|done].
  intros [= <-] (c & (pr & -> & _)%list_elem_of_fmap & _)%list_elem_of_bind. done.
Qed.

Lemma number_length idx l : length (number idx l) = length l.
Proof. revert idx. induction l as [|f l IH]; intros idx; simpl; [done|]. by rewrite IH. Qed.

Lemma number_numbered name dir idx l :
  (forall f i, f ∈ l -> RuleID (f i) = ruleID name dir i /\ PolicyName (f i) = name) ->
  numbered name dir idx (number idx l).
Proof.
  revert idx. induction l as [|f l IH]; intros idx Hf k r Hk; [done|]. destruct k as [|k]; simpl in Hk.
  - simplify_eq. destruct (Hf f idx) as [-> ?]; [by left|]. split; [f_equal; lia|done].
  - destruct (IH (idx + 1) (fun g i Hg => Hf g i (list_elem_of_further _ _ _ Hg)) k r Hk) as [-> ?].
    split; [f_equal; lia|done].
Qed.

Lemma compile_from_numbered name dir rules idx l :
  compile_from idx name dir rules = Ok l -> numbered name dir idx l.
Proof.
  revert idx l. induction rules as [|rule rules IH]; intros idx l; simpl.
  - intros [= <-]. by intros k r Hk.
  - destruct (expand_rule name dir rule) as [fs|] eqn:E; [|done].
    destruct (compile_from _ name dir rules) as [l'|] eqn:El; [|done]. intros [= <-].
    apply numbered_app.
    + apply number_numbered. intros f i Hf. by eapply expand_rule_ids.
    + unfold go_len in *. rewrite number_length. by apply IH.
Qed.

Lemma ruleID_inj n n' d d' i i' :
  lacks "/" n -> lacks "/" n' -> 0 <= i -> 0 <= i' ->
  ruleID n d i = ruleID n' d' i' -> n = n' /\ d = d' /\ i = i'.
Proof.
  unfold ruleID. intros Hn Hn' Hi Hi'. change ("/" +:+ ?t) with (String "/" t).
  intros [-> H]%sep_app_inj; [|done..].
  apply sep_app_inj in H as [Hd H]; [|by destruct d|by destruct d'].
  apply fmt_d_inj in H as ->; [|done..]. by destruct d, d'.
Qed.

Lemma numbered_ids name dir idx l r :
  numbered name dir idx l -> r ∈ l -> exists i, idx <= i /\ RuleID r = ruleID name dir i /\ PolicyName r = name.
Proof.
  intros H [k Hk]%list_elem_of_lookup. destruct (H k r Hk). exists (idx + Z.of_nat k). split; [lia|done].
Qed.

Lemma numbered_NoDup name dir idx l : lacks "/" name -> 0 <= idx -> numbered name dir idx l -> NoDup (RuleID <$> l).
Proof.
  intros Hn Hi H. apply NoDup_alt. intros i j x. rewrite !list_lookup_fmap, !fmap_Some.
  intros (r & Hr & ->) (r' & Hr' & E). destruct (H _ _ Hr) as [E1 _], (H _ _ Hr') as [E2 _].
  rewrite E1, E2 in E. apply ruleID_inj in E as (_ & _ & E); [lia|done..|lia|lia].
Qed.

(** What the compiler makes of a policy whose name has no slash: rules of that
    policy, with different ids that no other such policy uses. *)
Definition compiled (name : string) (l : list CompiledHostRule) : Prop :=
  lacks "/" name /\ NoDup (RuleID <$> l) /\
  Forall (fun r => PolicyName r = name /\ exists d i, 0 <= i /\ RuleID r = ruleID name d i) l.

Lemma CompileHostPolicy_compiled p l :
  lacks "/" (hep_Name p) -> CompileHostPolicy (Some p) = Ok l -> compiled (hep_Name p) l.
Proof.
  intros Hn. simpl. unfold compileRules.
  destruct (compile_from 0 _ DirectionIngress _) as [li|] eqn:Ei; [|done].
  destruct (compile_from 0 _ DirectionEgress _) as [le|] eqn:Ee; [|done]. intros [= <-].
  apply compile_from_numbered in Ei, Ee. split; [done|split].
  - rewrite fmap_app. apply NoDup_app. split; [by eapply numbered_NoDup; eauto; lia|].
    split; [|by eapply numbered_NoDup; eauto; lia].
    intros x (r & -> & Hr)%list_elem_of_fmap (r' & E & Hr')%list_elem_of_fmap.
    apply (numbered_ids _ _ _ _ _ Ei) in Hr as (i & ? & E1 & _).
    apply (numbered_ids _ _ _ _ _ Ee) in Hr' as (j & ? & E2 & _).
    rewrite E1, E2 in E. apply ruleID_inj in E as (_ & ? & _); done.
  - apply Forall_app; split; apply Forall_forall; intros r Hr; eapply numbered_ids in Hr; eauto; naive_solver.
Qed.

Lemma compiled_separate n n' l l' r r' :
  compiled n l -> compiled n' l' -> r ∈ l -> r' ∈ l' -> RuleID r = RuleID r' -> n = n'.
Proof.
  unfold compiled. rewrite !Forall_forall. intros (Hn & _ & H) (Hn' & _ & H') Hr Hr'.
  destruct (H _ Hr) as (_ & d & i & ? & ->), (H' _ Hr') as (_ & d' & i' & ? & ->).
  by intros (? & _)%ruleID_inj.
Qed.

(** * Histories *)

Inductive host_op : Type := HApply (p : HostEndpointPolicy) | HRemove (name : string).

(** A policy that does not compile is reported and leaves the table alone. *)
Definition host_step (m : HostManager) (op : host_op) : HostManager :=
  match op with
  | HApply p => match CompileHostPolicy (Some p) with Ok l => ApplyRules l m | Err _ => m end
  | HRemove name => RemovePolicy name m
  end.

(** The intended state: the rules in force, by policy. *)
Definition host_spec (ps : gmap string (list CompiledHostRule)) (op : host_op) : gmap string (list CompiledHostRule) :=
  match op with
  | HApply p => match CompileHostPolicy (Some p) with Ok (r :: l) => <[hep_Name p := r :: l]> ps | _ => ps end
  | HRemove name => delete name ps
  end.

Definition host_op_ok (op : host_op) : Prop := match op with HApply p => lacks "/" (hep_Name p) | HRemove _ => True end.

Definition host_rel (m : HostManager) (ps : gmap string (list CompiledHostRule)) : Prop :=
  (forall name l, ps !! name = Some l -> compiled name l) /\
  forall id r, host_rules m !! id = Some r <-> exists l, ps !! PolicyName r = Some l /\ r ∈ l /\ RuleID r = id.

Lemma host_rel_remove m ps name : host_rel m ps -> host_rel (RemovePolicy name m) (delete name ps).
Proof.
  intros [Hc H]. split.
  - intros n l [_ Hl]%lookup_delete_Some. by apply Hc.
  - intros id r. simpl. rewrite map_lookup_filter_Some, H. setoid_rewrite lookup_delete_Some. naive_solver.
Qed.

Lemma host_rel_apply m ps name r0 l :
  compiled name (r0 :: l) -> host_rel m ps -> host_rel (ApplyRules (r0 :: l) m) (<[name := r0 :: l]> ps).
Proof.
  intros Hcl Hrel. pose proof Hcl as (Hn & Hnd & Hf).
  assert (PolicyName r0 = name) as Hr0 by (by apply Forall_cons in Hf as [[? _] _]).
  unfold ApplyRules. rewrite Hr0. apply (host_rel_remove m ps name) in Hrel as [Hc H].
  rewrite <- insert_delete_eq. split.
  - intros n l' [[<- <-]|[_ Hl']]%lookup_insert_Some; [done|by apply Hc].
  - intros id r. cbn [host_rules]. rewrite foldl_insert_Some by done.
    setoid_rewrite lookup_insert_Some. rewrite Forall_forall in Hf. split.
    + intros [[Hr ->]|[Hid Hr]].
      * exists (r0 :: l). split; [left|done]. by destruct (Hf r Hr).
      * apply H in Hr as (l' & Hl' & ? & ?). exists l'. split; [right|done].
        split; [|done]. intros E. by rewrite <- E, lookup_delete_eq in Hl'.
    + intros (l' & [[Hp <-]|[Hne Hl']] & Hr & <-); [by left|right].
      split; [|apply H; eauto].
      intros (r' & E & Hr')%list_elem_of_fmap. apply Hne.
      by apply (compiled_separate _ _ (r0 :: l) l' r' r Hcl (Hc _ _ Hl')).
Qed.

(** After any history of policies with proper names, the firewall table is the
    union of the rules of the policies in force: those last compiled to at least
    one rule and not removed since. *)
Theorem host_rules_follow_policies ops :
  Forall host_op_ok ops ->
  forall id r, host_rules (foldl host_step NewHostManager ops) !! id = Some r <->
    exists l, foldl host_spec ∅ ops !! PolicyName r = Some l /\ r ∈ l /\ RuleID r = id.
Proof.
  intros Hops. cut (host_rel (foldl host_step NewHostManager ops) (foldl host_spec ∅ ops)); [by intros []|].
  induction ops as [|op ops IH] using rev_ind; simpl.
  - split; [done|]. intros id r. rewrite lookup_empty. naive_solver.
  - apply Forall_app in Hops as [Hops [Hop _]%Forall_cons]. rewrite !foldl_app. simpl.
    specialize (IH Hops). destruct op as [p|name]; unfold host_step, host_spec.
    + destruct (CompileHostPolicy (Some p)) as [[|r0 l]|] eqn:E; [done| |done].
      apply host_rel_apply; [|done]. by apply CompileHostPolicy_compiled.
    + by apply host_rel_remove.
Qed.

(** A policy whose rules are all taken away keeps the rules of its last
    version: [ApplyRules] returns before it removes anything. *)
Theorem emptied_policy_keeps_rules p l r m :
  lacks "/" (hep_Name p) -> CompileHostPolicy (Some p) = Ok l -> r ∈ l ->
  host_rules (host_step (host_step m (HApply p)) (HApply (mkHostPolicy (hep_Name p) [] []))) !! RuleID r = Some r.
Proof.
  intros Hn E Hr. unfold host_step at 1. simpl CompileHostPolicy. cbn [ApplyRules app].
  unfold host_step. rewrite E. destruct (CompileHostPolicy_compiled p l Hn E) as (_ & Hnd & _).
  destruct l as [|r0 l]; [by apply elem_of_nil in Hr|]. unfold ApplyRules. cbn [host_rules].
  rewrite foldl_insert_Some by done. by left.
Qed.

(** * Instances *)

Definition ssh_policy : HostEndpointPolicy :=
  mkHostPolicy "ssh" [mkHostRule "Allow" (Some "TCP") ["10.0.0.0/8"; "192.168.0.0/16"] [mkHostPort 22 None]]
    [mkHostRule "Deny" None [] []].

Lemma host_rules_follow_policies_witness :
  host_rules (foldl host_step NewHostManager [HApply ssh_policy]) !! "ssh/ingress/1" =
    Some (mkCompiledHost "ssh/ingress/1" DirectionIngress 6 (mkIPNet [192; 168; 0; 0] [255; 255; 0; 0]) 22 0 1 "ssh").
Proof.
  apply (host_rules_follow_policies [HApply ssh_policy]); [by repeat constructor|].
  eexists. split; [vm_compute; reflexivity|]. split; [right; left|reflexivity].
Defined.

Lemma emptied_policy_keeps_rules_witness : exists r,
  host_rules (foldl host_step NewHostManager [HApply ssh_policy; HApply (mkHostPolicy "ssh" [] [])]) !! RuleID r = Some r.
Proof.
  eexists. eapply (emptied_policy_keeps_rules ssh_policy); [reflexivity|vm_compute; reflexivity|left].
Defined.
