(* ===== verification/EgressGateway.v ===== *)
(** The egress gateway reconciler (internal/egressgateway/reconciler.go), which
    turns EgressGatewayPolicies into rules of the egress manager.  A reconciled
    policy has exactly its rules in the manager, whatever order the nodes are
    listed in, and leaves the others alone, unless another policy of the
    namespace has a name that begins with its own and a dash. *)

From Stdlib Require Import ZArith Lia Ascii String.
From stdpp Require Import base tactics list gmap strings fin_maps sorting.
From S2P Require Import Prelude GoStrings GoMap GoNet GoCidr GoText Constants Identity PolicyCompiler PolicyEnforcement.
From S2P Require Import DpClient EgressManager.

Record EgressGatewayPolicy := mkGatewayPolicy {
  g_Namespace : string; g_Name : string; g_PodSelector : LabelSelector;
  DestinationCIDRs : list string; ExcludedCIDRs : list string; EgressIP : string }.

(** [Policy], the reconciled state. *)
Record GatewayState := mkGatewayState {
  gs_Namespace : string; gs_Name : string; gs_PodSelector : LabelSelector; gs_DestCIDRs : list string;
  gs_ExcludedCIDRs : list string; GatewayNodes : list string; ActiveGateway : string; gs_EgressIP : string }.

Record GatewayReconciler := mkGatewayRec {
  egressMgr : Manager; identityAlloc : Identity.Allocator; policies : gmap string GatewayState }.

Definition NewGatewayReconciler (m : Manager) (a : Identity.Allocator) : GatewayReconciler := mkGatewayRec m a ∅.

Inductive gateway_error := ErrNoGatewayNodes | ErrDestination | ErrExcluded | ErrSelector | ErrAdd.

Definition policyKey (namespace name : string) : string := namespace +:+ "/" +:+ name.

Definition gateway_prefix (name : string) : string := "egp-" +:+ name +:+ "-".

(** The rules of a policy: one for each destination and identity, or one for
    each destination when no identity matches. *)
Definition gateway_rule (name : string) (src : Z) (cidr : string) : Rule :=
  mkEgressRule name src cidr 0 0 ActionSNAT.

Definition gateway_rules (name activeGateway : string) (dests : list string) (ids : list Z) : list Rule :=
  let base := gateway_prefix name +:+ activeGateway +:+ "-" in
  if go_len ids =? 0 then imap (fun i cidr => gateway_rule (base +:+ fmt_d (Z.of_nat i)) 0 cidr) dests
  else mjoin (imap (fun i cidr => imap (fun j src =>
         gateway_rule (base +:+ fmt_d (Z.of_nat i) +:+ "-" +:+ fmt_d (Z.of_nat j)) src cidr) ids) dests).

(** The loop over [AddEgressRule], which stops at the first error. *)
Fixpoint add_rules (namespace : string) (l : list Rule) (m : Manager) : result gateway_error unit * Manager :=
  match l with
  | [] => (Ok tt, m)
  | r :: rest =>
      match AddEgressRule namespace r m with
      | (Err _, m') => (Err ErrAdd, m')
      | (Ok _, m') => add_rules namespace rest m'
      end
  end.

Definition parses (cidr : string) : bool := match ParseCIDR cidr with Some _ => true | None => false end.

Section Gateway.
Context {MI : MapIter}.
(** [metav1.LabelSelectorAsSelector], with the [Matches] of the selector. *)
Variable as_selector : LabelSelector -> option (labels -> bool).

Definition remove_rule (namespace prefix : string) (m : Manager) (r : CompiledEgressRule) : Manager :=
  if String.eqb (ce_Namespace r) namespace && has_prefix prefix (ce_Name r)
  then RemoveEgressRule namespace (ce_Name r) m else m.

Definition removeRulesForPolicy (namespace name : string) (m : Manager) : Manager :=
  foldl (remove_rule namespace (gateway_prefix name)) m (GetRules m).

Definition GatewayReconcile (policy : EgressGatewayPolicy) (nodes : list string) (r : GatewayReconciler)
    : result gateway_error unit * GatewayReconciler :=
  let ns := g_Namespace policy in
  let name := g_Name policy in
  match merge_sort String.le nodes with
  | [] => (Err ErrNoGatewayNodes, r)
  | activeGateway :: _ as sortedNodes =>
      if negb (forallb parses (DestinationCIDRs policy)) then (Err ErrDestination, r)
      else if negb (forallb parses (ExcludedCIDRs policy)) then (Err ErrExcluded, r)
      else match as_selector (g_PodSelector policy) with
      | None => (Err ErrSelector, r)
      | Some selector =>
          let ids := FindMatchingIdentities selector (iter (idToLabels (identityAlloc r))) in
          let cleared := removeRulesForPolicy ns name (egressMgr r) in
          let dests := if go_len (DestinationCIDRs policy) =? 0 then ["0.0.0.0/0"] else DestinationCIDRs policy in
          match add_rules ns (gateway_rules name activeGateway dests ids) cleared with
          | (Err e, m) => (Err e, mkGatewayRec m (identityAlloc r) (policies r))
          | (Ok _, m) =>
              (Ok tt, mkGatewayRec m (identityAlloc r)
                (<[policyKey ns name := mkGatewayState ns name (g_PodSelector policy) dests (ExcludedCIDRs policy)
                                          sortedNodes activeGateway (EgressIP policy)]> (policies r)))
          end
      end
  end.

Definition GatewayDelete (ns name : string) (r : GatewayReconciler) : GatewayReconciler :=
  mkGatewayRec (removeRulesForPolicy ns name (egressMgr r)) (identityAlloc r) (delete (policyKey ns name) (policies r)).

Definition GetActiveGateway (ns name : string) (r : GatewayReconciler) : option string :=
  ActiveGateway <$> policies r !! policyKey ns name.

Definition ListGatewayPolicies (r : GatewayReconciler) : list GatewayState := iter_values (policies r).
End Gateway.

(** * Names of rules *)

Lemma NoDup_imap {A B} (f : nat -> A -> B) l :
  (forall i x i' x', f i x = f i' x' -> i = i') -> NoDup (imap f l).
Proof.
  revert f. induction l as [|x l IH]; intros f Hf; simpl; [constructor|]. constructor.
  - intros (i & y & E & _)%elem_of_lookup_imap. by apply Hf in E.
  - apply IH. intros i y i' y' E. specialize (Hf _ _ _ _ E). lia.
Qed.

Lemma NoDup_mjoin_imap {A B} (f : nat -> A -> list B) l :
  (forall i x, NoDup (f i x)) -> (forall i x i' x' y, y ∈ f i x -> y ∈ f i' x' -> i = i') ->
  NoDup (mjoin (imap f l)).
Proof.
  revert f. induction l as [|x l IH]; intros f Hn Hd; simpl; [constructor|]. apply NoDup_app.
  split; [done|split].
  - intros y Hy (k & Hk & (i & z & -> & _)%elem_of_lookup_imap)%list_elem_of_join. by apply (Hd 0%nat x (S i) z y) in Hk.
  - apply IH; [intros; apply Hn|]. intros i z i' z' y H1 H2. specialize (Hd _ _ _ _ _ H1 H2). lia.
Qed.

Lemma fmap_join {A B} (f : A -> B) (ls : list (list A)) : f <$> mjoin ls = mjoin (fmap f <$> ls).
Proof. induction ls as [|l ls IH]; simpl; [done|]. by rewrite fmap_app, IH. Qed.

Lemma index_dash (i : nat) : lacks "-" (fmt_d (Z.of_nat i)).
Proof. apply fmt_d_lacks; [lia|done]. Qed.

Lemma index_inj (i j : nat) : fmt_d (Z.of_nat i) = fmt_d (Z.of_nat j) -> i = j.
Proof. intros H%fmt_d_inj; lia. Qed.

Lemma gateway_names_NoDup name gw dests ids : NoDup (Name <$> gateway_rules name gw dests ids).
Proof.
  unfold gateway_rules. destruct (go_len ids =? 0).
  - rewrite fmap_imap. apply NoDup_imap. intros i x i' x' H%str_app_inj_l. by apply index_inj.
  - rewrite fmap_join, fmap_imap. apply NoDup_mjoin_imap; simpl.
    + intros i x. rewrite fmap_imap. apply NoDup_imap. intros j y j' y' H%str_app_inj_l.
      by apply str_app_inj_l, str_app_inj_l, index_inj in H.
    + intros i x i' x' y. rewrite !fmap_imap.
      intros (j & z & -> & _)%elem_of_lookup_imap (j' & z' & E & _)%elem_of_lookup_imap.
      apply str_app_inj_l in E. change ("-" +:+ ?t) with (String "-" t) in E.
      apply sep_app_inj in E as [E _]; [|apply index_dash..]. by apply index_inj.
Qed.

Lemma gateway_names_prefix name gw dests ids rule :
  rule ∈ gateway_rules name gw dests ids -> has_prefix (gateway_prefix name) (Name rule) = true.
Proof.
  unfold gateway_rules. intros H. apply has_prefix_spec. destruct (go_len ids =? 0).
  - apply elem_of_lookup_imap in H as (i & x & -> & _). simpl. rewrite str_app_assoc. eauto.
  - apply list_elem_of_join in H as (l & Hl & (i & x & -> & _)%elem_of_lookup_imap).
    apply elem_of_lookup_imap in Hl as (j & y & -> & _). simpl. rewrite str_app_assoc. eauto.
Qed.

(** The sources and destinations of the rules. *)
Lemma gateway_rules_content name gw dests ids src cidr :
  (exists rule, rule ∈ gateway_rules name gw dests ids /\ e_SrcIdentity rule = src /\ DstCIDR rule = cidr) <->
  cidr ∈ dests /\ (src ∈ ids \/ ids = [] /\ src = 0).
Proof.
  unfold gateway_rules. destruct (decide (ids = [])) as [->|Hne]; simpl.
  - setoid_rewrite elem_of_lookup_imap. setoid_rewrite list_elem_of_lookup. split.
    + intros (r & (i & x & -> & Hi) & <- & <-). simpl. split; [eauto|by right].
    + intros [[i Hi] [[j Hj]|[_ ->]]]; [done|]. eexists. split; [by exists i, cidr|done].
  - destruct (go_len ids =? 0) eqn:E; [apply Z.eqb_eq in E; by destruct ids|].
    setoid_rewrite list_elem_of_join. split.
    + intros (r & (l & Hl & (i & x & -> & Hi)%elem_of_lookup_imap) & <- & <-).
      apply elem_of_lookup_imap in Hl as (j & y & -> & Hj). simpl.
      split; [|left]; by eapply list_elem_of_lookup_2.
    + intros [[i Hi]%list_elem_of_lookup [[j Hj]%list_elem_of_lookup|[? _]]]; [|done].
      eexists. split; [eexists; split; [|apply elem_of_lookup_imap; by exists i, cidr]|].
      * apply elem_of_lookup_imap. by exists j, src.
      * done.
Qed.

(** * The manager's table *)

Definition rule_key (r : CompiledEgressRule) : string := ruleKey (ce_Namespace r) (ce_Name r).

(** Every rule is stored under its own namespace, which has no slash, and name. *)
Definition mgr_keyed (m : Manager) : Prop :=
  forall k r, rules m !! k = Some r -> k = rule_key r /\ lacks "/" (ce_Namespace r).

(** The rules [removeRulesForPolicy] takes for those of a policy. *)
Definition belongs (ns name : string) (r : CompiledEgressRule) : Prop :=
  ce_Namespace r = ns /\ has_prefix (gateway_prefix name) (ce_Name r) = true.

Lemma ruleKey_inj ns ns' a b : lacks "/" ns -> lacks "/" ns' -> ruleKey ns a = ruleKey ns' b -> ns = ns' /\ a = b.
Proof. unfold ruleKey. change ("/" +:+ ?t) with (String "/" t). apply sep_app_inj. Qed.

Section Spec.
Context {MI : MapIter}.

Lemma remove_rules_lookup ns prefix l m k r :
  rules (foldl (remove_rule ns prefix) m l) !! k = Some r <->
  rules m !! k = Some r /\
  Forall (fun r' => ce_Namespace r' = ns -> has_prefix prefix (ce_Name r') = true -> k <> ruleKey ns (ce_Name r')) l.
Proof.
  revert m. induction l as [|r' l IH]; intros m; simpl; [by rewrite Forall_nil; naive_solver|].
  rewrite IH, Forall_cons. unfold remove_rule at 1.
  destruct (_ && _) eqn:E; to_prop.
  - unfold RemoveEgressRule, set_rules. simpl. rewrite lookup_delete_Some. naive_solver.
  - split; [|naive_solver]. intros [? ?]. split; [done|split; [|done]]. intros. naive_solver congruence.
Qed.

Lemma removeRules_lookup ns name m k r :
  mgr_keyed m ->
  rules (removeRulesForPolicy ns name m) !! k = Some r <-> rules m !! k = Some r /\ ~ belongs ns name r.
Proof.
  intros Hk. unfold removeRulesForPolicy. rewrite remove_rules_lookup, Forall_forall. unfold GetRules.
  setoid_rewrite elem_of_iter_values. split; intros [H Hr]; (split; [done|]).
  - intros [Hn Hp]. apply (Hr r); [eauto|done|done|]. destruct (Hk _ _ H) as [-> _]. unfold rule_key. by rewrite Hn.
  - intros r' [k' Hk'] Hn Hp ->. destruct (Hk _ _ Hk') as [-> _].
    unfold rule_key in Hk'. rewrite Hn in Hk'. simplify_eq. by apply Hr.
Qed.

Lemma removeRules_keyed ns name m : mgr_keyed m -> mgr_keyed (removeRulesForPolicy ns name m).
Proof. intros Hk k r [H _]%(removeRules_lookup _ _ _ _ _ Hk). by apply Hk. Qed.

(** The compiled form of a rule. *)
Definition compile_rule (ns : string) (r : Rule) : option CompiledEgressRule :=
  (fun '(_, n) => mkCompiledEgress ns (Name r) (e_SrcIdentity r) n (e_Protocol r) (e_DstPort r) (e_Action r))
    <$> ParseCIDR (DstCIDR r).

Lemma compile_rule_Some ns r cr :
  compile_rule ns r = Some cr ->
  ce_Namespace cr = ns /\ ce_Name cr = Name r /\ ce_SrcIdentity cr = e_SrcIdentity r /\
  ParseCIDR (DstCIDR r) = Some ((default ([], ce_DstCIDR cr) (ParseCIDR (DstCIDR r))).1, ce_DstCIDR cr).
Proof. unfold compile_rule. rewrite fmap_Some. intros ([ip n] & E & ->). by rewrite E. Qed.

Lemma add_rules_run ns l cl m :
  mapM (compile_rule ns) l = Some cl ->
  add_rules ns l m = (Ok tt, set_rules (foldl (fun t r => <[rule_key r := r]> t) (rules m) cl) m).
Proof.
  rewrite mapM_Some. intros H. revert m. induction H as [|r cr l cl Hr _ IH]; intros m; simpl; [by destruct m|].
  apply fmap_Some in Hr as ([ip n] & E & ->). unfold AddEgressRule. rewrite E, IH. done.
Qed.

Lemma compile_names ns l cl : mapM (compile_rule ns) l = Some cl -> rule_key <$> cl = ruleKey ns <$> (Name <$> l).
Proof.
  rewrite mapM_Some. induction 1 as [|r cr l cl H _ IH]; [done|]. rewrite !fmap_cons, IH. f_equal.
  apply compile_rule_Some in H as (H1 & H2 & _). unfold rule_key. by rewrite H1, H2.
Qed.

Lemma compile_all ns l : Forall (fun r => parses (DstCIDR r) = true) l -> exists cl, mapM (compile_rule ns) l = Some cl.
Proof.
  intros H. apply mapM_is_Some. eapply Forall_impl; [exact H|]. intros r. unfold parses, compile_rule.
  simpl. destruct (ParseCIDR _); [|done]. intros _. by eexists.
Qed.

Lemma elem_of_compiled ns l cl cr :
  mapM (compile_rule ns) l = Some cl -> cr ∈ cl <-> exists r, r ∈ l /\ compile_rule ns r = Some cr.
Proof.
  rewrite mapM_Some. induction 1 as [|r x l cl H _ IH]; [by setoid_rewrite elem_of_nil; naive_solver|].
  setoid_rewrite elem_of_cons. rewrite IH. naive_solver.
Qed.
End Spec.

Section Exact.
Context {MI : MapIter}.
Variable as_selector : LabelSelector -> option (labels -> bool).

(** The identities and the destinations a policy speaks of. *)
Definition policy_ids (p : EgressGatewayPolicy) (a : Identity.Allocator) : list Z :=
  match as_selector (g_PodSelector p) with
  | Some sel => FindMatchingIdentities sel (iter (idToLabels a))
  | None => []
  end.

Definition policy_dests (p : EgressGatewayPolicy) : list string :=
  if go_len (DestinationCIDRs p) =? 0 then ["0.0.0.0/0"] else DestinationCIDRs p.

Lemma dests_parse p : forallb parses (DestinationCIDRs p) = true -> Forall (fun c => parses c = true) (policy_dests p).
Proof.
  unfold policy_dests. intros H. destruct (go_len _ =? 0); [by repeat constructor|].
  apply Forall_forall. intros c Hc. rewrite forallb_forall in H. apply H. by apply list_elem_of_In.
Qed.

(** A reconciliation that succeeds, taken apart. *)
Lemma reconcile_run p nodes r r' :
  GatewayReconcile as_selector p nodes r = (Ok tt, r') ->
  exists gw sorted cl, merge_sort String.le nodes = gw :: sorted /\
    mapM (compile_rule (g_Namespace p)) (gateway_rules (g_Name p) gw (policy_dests p) (policy_ids p (identityAlloc r)))
      = Some cl /\
    egressMgr r' = set_rules (foldl (fun t cr => <[rule_key cr := cr]> t)
                     (rules (removeRulesForPolicy (g_Namespace p) (g_Name p) (egressMgr r))) cl)
                     (removeRulesForPolicy (g_Namespace p) (g_Name p) (egressMgr r)) /\
    GetActiveGateway (g_Namespace p) (g_Name p) r' = Some gw.
Proof.
  unfold GatewayReconcile, policy_ids. destruct (merge_sort String.le nodes) as [|gw sorted]; [done|].
  destruct (forallb parses (DestinationCIDRs p)) eqn:Hd; [|done].
  destruct (forallb parses (ExcludedCIDRs p)); [|done].
  destruct (as_selector _) as [sel|]; [|done]. cbn [negb]. fold (policy_dests p).
  set (ids := FindMatchingIdentities _ _).
  destruct (compile_all (g_Namespace p) (gateway_rules (g_Name p) gw (policy_dests p) ids)) as [cl Hcl].
  { apply Forall_forall. intros rule Hr.
    assert (DstCIDR rule ∈ policy_dests p) as Hin by (eapply gateway_rules_content; eauto).
    apply dests_parse in Hd. by rewrite Forall_forall in Hd; apply Hd. }
  rewrite (add_rules_run _ _ cl _ Hcl). intros [= <-]. exists gw, sorted, cl.
  split_and!; [done..|]. unfold GetActiveGateway. simpl. by rewrite lookup_insert_eq.
Qed.

Lemma reconcile_dest p nodes r r' :
  GatewayReconcile as_selector p nodes r = (Ok tt, r') ->
  exists cidr ip net, cidr ∈ policy_dests p /\ ParseCIDR cidr = Some (ip, net).
Proof.
  unfold GatewayReconcile. destruct (merge_sort String.le nodes); [done|].
  destruct (forallb parses (DestinationCIDRs p)) eqn:Hd; [|done]. intros _. apply dests_parse in Hd.
  assert (policy_dests p <> []) by (unfold policy_dests; by destruct (DestinationCIDRs p)).
  destruct (policy_dests p) as [|c ds]; [done|]. apply Forall_cons in Hd as [Hc _]. unfold parses in Hc.
  destruct (ParseCIDR c) as [[ip n]|] eqn:E; [|done]. exists c, ip, n. split; [left|done].
Qed.

(** The table after a reconciliation. *)
Lemma reconcile_lookup p nodes r r' :
  mgr_keyed (egressMgr r) -> GatewayReconcile as_selector p nodes r = (Ok tt, r') ->
  exists gw, forall k cr, rules (egressMgr r') !! k = Some cr <->
    (exists rule, rule ∈ gateway_rules (g_Name p) gw (policy_dests p) (policy_ids p (identityAlloc r)) /\
       compile_rule (g_Namespace p) rule = Some cr /\ k = rule_key cr) \/
    ((k ∉ (ruleKey (g_Namespace p) <$> (Name <$> gateway_rules (g_Name p) gw (policy_dests p) (policy_ids p (identityAlloc r)))))
     /\ rules (egressMgr r) !! k = Some cr /\ ~ belongs (g_Namespace p) (g_Name p) cr).
Proof.
  intros Hk (gw & sorted & cl & _ & Hcl & -> & _)%reconcile_run. exists gw. intros k cr. simpl.
  pose proof (compile_names _ _ _ Hcl) as Hn. rewrite foldl_insert_Some.
  - rewrite Hn, removeRules_lookup by done.
    enough (cr ∈ cl <-> exists rule, rule ∈ gateway_rules (g_Name p) gw (policy_dests p) (policy_ids p (identityAlloc r)) /\
              compile_rule (g_Namespace p) rule = Some cr) as -> by naive_solver.
    by apply elem_of_compiled.
  - rewrite Hn. apply NoDup_fmap_2; [|apply gateway_names_NoDup]. intros a b H.
    unfold ruleKey in H. by apply str_app_inj_l, str_app_inj_l in H.
Qed.

Lemma reconcile_content p nodes r r' src net :
  mgr_keyed (egressMgr r) -> GatewayReconcile as_selector p nodes r = (Ok tt, r') ->
  (exists k cr, rules (egressMgr r') !! k = Some cr /\ belongs (g_Namespace p) (g_Name p) cr /\
                ce_SrcIdentity cr = src /\ ce_DstCIDR cr = net) <->
  exists cidr ip, ParseCIDR cidr = Some (ip, net) /\ cidr ∈ policy_dests p /\
    (src ∈ policy_ids p (identityAlloc r) \/ policy_ids p (identityAlloc r) = [] /\ src = 0).
Proof.
  intros Hk Hr. destruct (reconcile_lookup _ _ _ _ Hk Hr) as [gw H]. setoid_rewrite H. split.
  - intros (k & cr & [(rule & Hin & Hc & _)|(_ & _ & Hb)] & Hb' & <- & <-); [|done].
    apply fmap_Some in Hc as ([ip n] & E & ->). exists (DstCIDR rule), ip. split; [done|].
    eapply gateway_rules_content; eauto.
  - intros (cidr & ip & E & Hd).
    apply (gateway_rules_content (g_Name p) gw) in Hd as (rule & Hin & <- & <-).
    eexists (ruleKey (g_Namespace p) (Name rule)), _. split; [left; exists rule; split; [done|]|].
    + unfold compile_rule. by rewrite E.
    + split; [|done]. split; [done|]. by eapply gateway_names_prefix.
Qed.

Lemma reconcile_others p nodes r r' k cr :
  mgr_keyed (egressMgr r) -> lacks "/" (g_Namespace p) -> GatewayReconcile as_selector p nodes r = (Ok tt, r') ->
  ~ belongs (g_Namespace p) (g_Name p) cr ->
  rules (egressMgr r') !! k = Some cr <-> rules (egressMgr r) !! k = Some cr.
Proof.
  intros Hk Hns Hr Hb. destruct (reconcile_lookup _ _ _ _ Hk Hr) as [gw H]. rewrite H. split.
  - intros [(rule & Hin & Hc & _)|(_ & ? & _)]; [|done]. exfalso. apply Hb.
    apply compile_rule_Some in Hc as (? & E & _). split; [done|]. rewrite E. by eapply gateway_names_prefix.
  - intros Hcr. right. split; [|done].
    intros (n & -> & (rule & -> & Hin)%list_elem_of_fmap)%list_elem_of_fmap.
    destruct (Hk _ _ Hcr) as [E Hl]. apply ruleKey_inj in E as [E1 E2]; [|done..].
    apply Hb. split; [done|]. rewrite <- E2. by eapply gateway_names_prefix.
Qed.

(** A reconciled policy has exactly one kind of rule in the egress manager: for
    each of its destinations and each identity its selector matches (or the
    wildcard 0 when none does); rules that do not carry its prefix in its
    namespace are as before. *)
Theorem gateway_policy_exact p nodes r r' :
  mgr_keyed (egressMgr r) -> lacks "/" (g_Namespace p) -> GatewayReconcile as_selector p nodes r = (Ok tt, r') ->
  (forall src net,
    (exists k cr, rules (egressMgr r') !! k = Some cr /\ belongs (g_Namespace p) (g_Name p) cr /\
                  ce_SrcIdentity cr = src /\ ce_DstCIDR cr = net) <->
    exists cidr ip, ParseCIDR cidr = Some (ip, net) /\ cidr ∈ policy_dests p /\
      (src ∈ policy_ids p (identityAlloc r) \/ policy_ids p (identityAlloc r) = [] /\ src = 0)) /\
  (forall k cr, ~ belongs (g_Namespace p) (g_Name p) cr ->
    rules (egressMgr r') !! k = Some cr <-> rules (egressMgr r) !! k = Some cr).
Proof.
  intros Hk Hns Hr. split; intros; [by eapply reconcile_content|by eapply reconcile_others].
Qed.

Lemma reconcile_keyed p nodes r r' :
  mgr_keyed (egressMgr r) -> lacks "/" (g_Namespace p) -> GatewayReconcile as_selector p nodes r = (Ok tt, r') ->
  mgr_keyed (egressMgr r').
Proof.
  intros Hk Hns Hr k cr Hcr. destruct (reconcile_lookup _ _ _ _ Hk Hr) as [gw H].
  destruct (proj1 (H k cr) Hcr) as [(rule & Hin & Hc & Ek)|(Hn & Hcr' & Hb)]; [|by apply Hk].
  apply compile_rule_Some in Hc as (E & _). rewrite E. done.
Qed.

(** The gateway does not depend on the order in which the nodes are listed. *)
Lemma gateway_order_irrelevant p nodes nodes' r :
  nodes ≡ₚ nodes' -> GatewayReconcile as_selector p nodes r = GatewayReconcile as_selector p nodes' r.
Proof.
  intros Hp. unfold GatewayReconcile.
  assert (merge_sort String.le nodes = merge_sort String.le nodes') as E; [|by rewrite E].
  apply (Sorted_unique String.le); [apply Sorted_merge_sort; apply _..|]. by rewrite !merge_sort_Permutation.
Qed.

Lemma has_prefix_longer name suffix s :
  has_prefix (gateway_prefix (name +:+ "-" +:+ suffix)) s = true -> has_prefix (gateway_prefix name) s = true.
Proof.
  rewrite !has_prefix_spec. intros [t ->]. unfold gateway_prefix. exists (suffix +:+ "-" +:+ t). by rewrite !str_app_assoc.
Qed.

(** Deleting a policy also takes the rules of every policy of the namespace
    whose name continues its own with a dash; that policy is still listed with
    its gateway. *)
Theorem delete_takes_namesakes p name suffix nodes r r' :
  mgr_keyed (egressMgr r) -> lacks "/" (g_Namespace p) -> g_Name p = name +:+ "-" +:+ suffix ->
  GatewayReconcile as_selector p nodes r = (Ok tt, r') ->
  (exists k cr, rules (egressMgr r') !! k = Some cr /\ belongs (g_Namespace p) (g_Name p) cr) /\
  (forall k cr, rules (egressMgr (GatewayDelete (g_Namespace p) name r')) !! k = Some cr ->
     ~ belongs (g_Namespace p) (g_Name p) cr) /\
  is_Some (GetActiveGateway (g_Namespace p) (g_Name p) (GatewayDelete (g_Namespace p) name r')).
Proof.
  intros Hk Hns Hn Hr. split_and!.
  - destruct (reconcile_dest _ _ _ _ Hr) as (cidr & ip & net & Hin & E).
    destruct (policy_ids p (identityAlloc r)) as [|i ids] eqn:Ei.
    + edestruct (reconcile_content p nodes r r' 0 net Hk Hr) as [_ (k & cr & ? & ? & _)]; [|eauto].
      exists cidr, ip. rewrite Ei. auto.
    + edestruct (reconcile_content p nodes r r' i net Hk Hr) as [_ (k & cr & ? & ? & _)]; [|eauto].
      exists cidr, ip. rewrite Ei. split_and!; [done..|]. left. left.
  - intros k cr. unfold GatewayDelete. simpl. intros [_ Hb]%removeRules_lookup; [|by eapply reconcile_keyed].
    intros [? Hp]. apply Hb. split; [done|]. rewrite Hn in Hp. by eapply has_prefix_longer.
  - destruct (reconcile_run _ _ _ _ Hr) as (gw & _ & _ & _ & _ & _ & Hgw). exists gw. rewrite <- Hgw.
    unfold GetActiveGateway, GatewayDelete. simpl. f_equal. rewrite lookup_delete_ne; [done|].
    unfold policyKey. intros E%str_app_inj_l%str_app_inj_l. rewrite Hn in E.
    apply (f_equal String.length) in E. rewrite !str_length_app in E. simpl in E. lia.
Qed.
End Exact.

(** * Instances *)

Definition gw_alloc : Identity.Allocator :=
  mkAllocator {[7 := {["app" := "web"]}]} {[7 := 1]} ∅.

Definition gw_start : GatewayReconciler := NewGatewayReconciler (NewManager [10; 0; 0; 1] None) gw_alloc.

Definition gw_policy (name : string) : EgressGatewayPolicy :=
  mkGatewayPolicy "default" name (mkSelector {["app" := "web"]} []) ["203.0.113.0/24"] [] "".

Lemma start_keyed : mgr_keyed (egressMgr gw_start).
Proof. intros k r H. simpl in H. by rewrite lookup_empty in H. Qed.

Lemma gateway_policy_exact_witness :
  let r' := (GatewayReconcile (MI := iter_forward) match_labels (gw_policy "web") ["n2"; "n1"] gw_start).2 in
  exists k cr, rules (egressMgr r') !! k = Some cr /\ belongs "default" "web" cr /\ ce_SrcIdentity cr = 7 /\
               ce_DstCIDR cr = mkIPNet [203; 0; 113; 0] [255; 255; 255; 0].
Proof.
  intros r'. apply (gateway_policy_exact (MI := iter_forward) match_labels (gw_policy "web") ["n2"; "n1"] gw_start r');
    [apply start_keyed|reflexivity|vm_compute; reflexivity|].
  eexists "203.0.113.0/24", _. split; [vm_compute; reflexivity|]. split; [left|].
  left. vm_compute. left.
Defined.

Lemma delete_takes_namesakes_witness :
  let r' := (GatewayReconcile (MI := iter_forward) match_labels (gw_policy "web-eu") ["n1"] gw_start).2 in
  is_Some (GetActiveGateway "default" "web-eu" (GatewayDelete (MI := iter_forward) "default" "web" r')).
Proof.
  intros r'.
  apply (delete_takes_namesakes (MI := iter_forward) match_labels (gw_policy "web-eu") "web" "eu" ["n1"] gw_start r');
    [apply start_keyed|reflexivity|reflexivity|vm_compute; reflexivity].
Defined.
