(* ===== verification/NativeRouting.v ===== *)
(** Native routing: the agent's InitNativeMode and WatchNodesNative
    (internal/agent/setup_routing.go) over the routing manager.  Every node that
    is listed becomes a BGP peer whose AS number is the one the other node gives
    to itself; a node that is peered with is never looked at again. *)

From Stdlib Require Import ZArith Lia Ascii String.
From stdpp Require Import base tactics list gmap strings fin_maps.
From S2P Require Import Prelude GoStrings GoMap GoNet GoCidr Intent FrrClient Reconciler RoutingManager CpVip Overlay AgentConfig.

(** * Set-up *)

(** The AS number of a node: 64512 plus the last two bytes of its address. *)
Definition node_as (ip : IP) : outcome Z :=
  let ipBytes := default [] (To16 ip) in
  hi ← go_index ipBytes 14;
  lo ← go_index ipBytes 15;
  Val (wrap32 (64512 + wrap32 (hi * 256) + lo)).

(** The BFD options of an external peer; a zero takes the global value. *)
Definition peer_bfd (g : RoutingConfig) (p : RoutingPeerConfig) : BFDOptions :=
  let or_global v d := if v =? 0 then d else v in
  if rp_BFDEnabled p then
    mkBFDOptions true (or_global (rp_BFDMinRxMs p) (rc_BFDMinRxMs g)) (or_global (rp_BFDMinTxMs p) (rc_BFDMinTxMs g))
      (or_global (rp_BFDDetectMultiplier p) (rc_BFDDetectMult g))
  else mkBFDOptions false 0 0 0.

Definition apply_external (now : Z) (g : RoutingConfig) (m : Manager) (p : RoutingPeerConfig) : Manager :=
  (ApplyPeer now (rp_NeighborAddress p) (rp_RemoteAS p) (Some (peer_bfd g p)) m).2.

Definition watcher_bfd (g : RoutingConfig) : option BFDOptions :=
  if rc_BFDEnabled g then Some (mkBFDOptions true (rc_BFDMinRxMs g) (rc_BFDMinTxMs g) (rc_BFDDetectMult g)) else None.

(** The control-plane VIP manager the agent starts, if it starts one. *)
Definition vip_config (c : AgentConfig) (nodeName : string) (controlPlane : bool) : option CpVip.Config :=
  if negb (String.eqb (ControlPlaneVIP (Routing c)) "") && l4_Enabled (L4LB c) then
    let interval := if ControlPlaneVIPHealthInterval (Routing c) >? 0
                    then ControlPlaneVIPHealthInterval (Routing c) * 10 ^ 9 else 5 * 10 ^ 9 in
    Some (mkVipConfig (ControlPlaneVIP (Routing c)) interval 0 nodeName controlPlane)
  else None.

(** [InitNativeMode] once FRR is ready, up to the start of the two background
    loops; [None] when the agent exits because the prefix is refused. *)
Definition InitNativeMode (now : Z) (c : AgentConfig) (nodeIP : IP) (podCIDR nodeName : string) (controlPlane : bool)
    : outcome (option (Manager * option CpVip.Config)) :=
  localAS ← node_as nodeIP;
  match AdvertisePrefix now podCIDR (ConfigureBGP localAS (ip_string nodeIP) (NewManager "novanet")) with
  | (Err _, _) => Val None
  | (Ok _, m) => Val (Some (foldl (apply_external now (Routing c)) m (rc_Peers (Routing c)), vip_config c nodeName controlPlane))
  end.

(** * The node watcher *)

(** The manager and the map [peered]. *)
Record native := mkNative { n_mgr : Manager; peered : gset string }.

Section Watch.
Variable selfNode : string.
Variable bfdOpts : option BFDOptions.

Definition native_node (now : Z) (st : native) (n : Node) : outcome native :=
  if String.eqb (n_Name n) selfNode then Val st
  else
    let remoteIP := NodeInternalIP n in
    if String.eqb remoteIP "" || bool_decide (n_Name n ∈ peered st) then Val st
    else match ParseIP remoteIP with
    | None => Val st
    | Some parsedIP =>
        remoteAS ← node_as parsedIP;
        match ApplyPeer now remoteIP remoteAS bfdOpts (n_mgr st) with
        | (Err _, m) => Val (mkNative m (peered st))
        | (Ok _, m) => Val (mkNative m ({[n_Name n]} ∪ peered st))
        end
    end.

Fixpoint native_nodes (now : Z) (st : native) (nodes : list Node) : outcome native :=
  match nodes with
  | [] => Val st
  | n :: rest => st' ← native_node now st n; native_nodes now st' rest
  end.

(** One poll: the time and the listing, [None] when it fails. *)
Definition native_poll (st : native) (poll : Z * option (list Node)) : outcome native :=
  match poll.2 with
  | None => Val st
  | Some nodes => native_nodes poll.1 st nodes
  end.

Fixpoint native_polls (st : native) (polls : list (Z * option (list Node))) : outcome native :=
  match polls with
  | [] => Val st
  | p :: rest => st' ← native_poll st p; native_polls st' rest
  end.

Definition WatchNodesNative (m : Manager) (polls : list (Z * option (list Node))) : outcome native :=
  native_polls (mkNative m ∅) polls.
End Watch.

(** * AS numbers *)

Lemma node_as_parsed s ip : ParseIP s = Some ip -> exists a, node_as ip = Val a /\ 64512 <= a < 64512 + 2 ^ 16.
Proof.
  intros [Hl Hb]%ParseIP_wf. unfold node_as. rewrite To16_len16 by done. change (default [] (Some ip)) with ip. cbv zeta.
  destruct (lookup_lt_is_Some_2 ip 14%nat ltac:(lia)) as [hi Hhi].
  destruct (lookup_lt_is_Some_2 ip 15%nat ltac:(lia)) as [lo Hlo].
  rewrite Forall_lookup in Hb. pose proof (Hb _ _ Hhi). pose proof (Hb _ _ Hlo). unfold is_byte in *.
  rewrite (go_index_val ip 14 hi), (go_index_val ip 15 lo) by done. simpl. eexists. split; [done|].
  unfold wrap32. rewrite (Z.mod_small (hi * 256)) by lia. rewrite Z.mod_small; lia.
Qed.

(** * Filing peers *)

(** The owner has filed a peer for an address, with an AS number. *)
Definition peers_with (m : Manager) (addr : string) (as_ : Z) (bfd : option BFDOptions) : Prop :=
  exists p, lookup_intent (store m) (owner m) (PeerId addr) = Some (APeer p) /\
    p_NeighborAddress p = addr /\ p_RemoteAS p = as_ /\
    p_BFDEnabled p = match bfd with Some b => Enabled b | None => false end.

Lemma ApplyPeer_files now addr as_ bfd m :
  owner m <> "" -> addr <> "" ->
  exists m', ApplyPeer now addr as_ bfd m = (Ok tt, m') /\ owner m' = owner m /\ peers_with m' addr as_ bfd /\
    bgpGlobal (w_rec (rec m')) = bgpGlobal (w_rec (rec m)) /\
    forall k, k <> PeerId addr -> lookup_intent (store m') (owner m) k = lookup_intent (store m) (owner m) k.
Proof.
  intros Ho Ha. unfold ApplyPeer. set (peer := match bfd with Some _ => _ | None => _ end).
  change (SetPeerIntent now (store m) (owner m) (Some peer)) with (SetIntent now (store m) (owner m) (APeer peer)).
  assert (p_NeighborAddress peer = addr) as Hn by (unfold peer; by destruct bfd as [[[] ? ? ?]|]).
  assert (valid_intent (APeer peer)) as Hv by (cbn; by rewrite Hn).
  pose proof (SetIntent_spec now (store m) (owner m) (APeer peer) Ho Hv) as Hs.
  rewrite SetIntent_eq in * by done. cbn [snd] in Hs. unfold file.
  eexists. split; [done|]. split; [done|]. cbn [store owner trigger on_rec set_rec set_store]. split_and!.
  - unfold peers_with. simpl store. simpl owner. rewrite Hs. cbn [spec_op id_of]. rewrite Hn.
    rewrite decide_True by done. eexists. split; [done|]. cbn. unfold peer. by destruct bfd as [[[] ? ? ?]|].
  - done.
  - intros k Hk. rewrite Hs. cbn [spec_op id_of]. rewrite Hn. by rewrite decide_False by naive_solver.
Qed.

Lemma peers_with_other m m' addr as_ bfd :
  owner m' = owner m -> lookup_intent (store m') (owner m) (PeerId addr) = lookup_intent (store m) (owner m) (PeerId addr) ->
  peers_with m addr as_ bfd -> peers_with m' addr as_ bfd.
Proof. unfold peers_with. intros -> ->. done. Qed.

(** * What the watcher keeps true *)

Section Follow.
Variable selfNode : string.
Variable bfdOpts : option BFDOptions.
(** The address a node name is listed with, as long as it does not change. *)
Variable addr : string -> string.

(** The nodes the watcher peers with. *)
Definition peerable (n : Node) : Prop := n_Name n <> selfNode /\ is_Some (ParseIP (addr (n_Name n))).

Definition has_peer (m : Manager) (name : string) : Prop :=
  exists ip a, ParseIP (addr name) = Some ip /\ node_as ip = Val a /\ peers_with m (addr name) a bfdOpts.

Definition native_inv (o : string) (st : native) : Prop :=
  owner (n_mgr st) = o /\ forall name, name ∈ peered st -> has_peer (n_mgr st) name.

Lemma native_node_inv o now st n :
  o <> "" -> NodeInternalIP n = addr (n_Name n) -> native_inv o st ->
  exists st', native_node selfNode bfdOpts now st n = Val st' /\ native_inv o st' /\
    peered st ⊆ peered st' /\ (peerable n -> n_Name n ∈ peered st').
Proof.
  intros Ho Ha [Hown Hp]. unfold native_node. rewrite Ha.
  assert (forall (P : Prop), ~ P \/ n_Name n ∈ peered st -> (exists st', Val st = Val st' /\ native_inv o st' /\
            peered st ⊆ peered st' /\ (P -> n_Name n ∈ peered st'))) as same.
  { intros P HP. exists st. split_and!; [done..|]. naive_solver. }
  destruct (String.eqb (n_Name n) selfNode) eqn:Es; to_prop.
  { apply same. left. by intros [? _]. }
  destruct (String.eqb (addr (n_Name n)) "") eqn:Ee; to_prop; cbn [orb].
  { apply same. left. intros [_ H]. rewrite Ee in H. vm_compute in H. by destruct H. }
  case_bool_decide as Hin; [by apply same; right|].
  destruct (ParseIP (addr (n_Name n))) as [ip|] eqn:Ep; [|apply same; left; intros [_ H]; rewrite Ep in H; by destruct H].
  destruct (node_as_parsed _ _ Ep) as (a & Ea & _). rewrite Ea. cbn [mbind outcome_bind].
  destruct (ApplyPeer_files now (addr (n_Name n)) a bfdOpts (n_mgr st)) as (m' & -> & Hown' & Hpw & _ & Hother); [congruence|done|].
  eexists. split; [done|]. split_and!; cbn [n_mgr peered]; [|set_solver..].
  unfold native_inv. cbn [n_mgr peered]. split; [congruence|].
  intros name [->%elem_of_singleton|Hn]%elem_of_union; [by exists ip, a|].
  destruct (Hp name Hn) as (ip' & a' & Eip' & Ea' & Hpw').
  exists ip', a'. split; [done|]. split; [done|].
  destruct (decide (addr name = addr (n_Name n))) as [E|E].
  - rewrite E in *. rewrite Ep in Eip'. simplify_eq. rewrite Ea in Ea'. by simplify_eq.
  - eapply peers_with_other; [done| |exact Hpw']. apply Hother. naive_solver.
Qed.

Lemma native_nodes_inv o now l st :
  o <> "" -> Forall (fun n => NodeInternalIP n = addr (n_Name n)) l -> native_inv o st ->
  exists st', native_nodes selfNode bfdOpts now st l = Val st' /\ native_inv o st' /\
    peered st ⊆ peered st' /\ forall n, n ∈ l -> peerable n -> n_Name n ∈ peered st'.
Proof.
  intros Ho Hl. revert st. induction Hl as [|n l Hn _ IH]; intros st Hst.
  - exists st. split_and!; [done..|]. by intros n H%elem_of_nil.
  - destruct (native_node_inv o now st n Ho Hn Hst) as (st1 & E1 & Hst1 & Hs1 & Hp1).
    destruct (IH st1 Hst1) as (st2 & E2 & Hst2 & Hs2 & Hp2).
    exists st2. cbn. rewrite E1. cbn. split_and!; [done..|set_solver|].
    intros n' [->|Hn']%elem_of_cons Hpe; [|by apply Hp2]. by apply Hs2, Hp1.
Qed.

Definition steady (polls : list (Z * option (list Node))) : Prop :=
  forall t nodes n, (t, Some nodes) ∈ polls -> n ∈ nodes -> NodeInternalIP n = addr (n_Name n).

Lemma native_polls_inv o polls st :
  o <> "" -> steady polls -> native_inv o st ->
  exists st', native_polls selfNode bfdOpts st polls = Val st' /\ native_inv o st' /\ peered st ⊆ peered st' /\
    forall t nodes n, (t, Some nodes) ∈ polls -> n ∈ nodes -> peerable n -> n_Name n ∈ peered st'.
Proof.
  intros Ho. revert st. induction polls as [|[t [nodes|]] polls IH]; intros st Hs Hst.
  - exists st. split_and!; [done..|]. by intros t l n H%elem_of_nil.
  - destruct (native_nodes_inv o t nodes st Ho) as (st1 & E1 & Hst1 & Hs1 & Hp1); [|done|].
    { apply Forall_forall. intros n Hn. apply (Hs t nodes); [left|done]. }
    destruct (IH st1) as (st2 & E2 & Hst2 & Hs2 & Hp2); [|done|].
    { intros t' l n Hin. apply (Hs t' l). by right. }
    exists st2. cbn. rewrite E1. cbn. split_and!; [done..|set_solver|].
    intros t' l n [?|Hin]%elem_of_cons Hn Hpe; [|by eapply Hp2]. simplify_eq. apply Hs2. by apply Hp1.
  - destruct (IH st) as (st2 & E2 & Hst2 & Hs2 & Hp2); [|done|].
    { intros t' l n Hin. apply (Hs t' l). by right. }
    exists st2. cbn. split_and!; [done..|].
    intros t' l n [?|Hin]%elem_of_cons Hn Hpe; [done|by eapply Hp2].
Qed.
End Follow.

(** * The set-up of one agent *)

Lemma ApplyPeer_keeps now addr as_ bfd m m' :
  owner m <> "" -> (ApplyPeer now addr as_ bfd m).2 = m' ->
  owner m' = owner m /\ bgpGlobal (w_rec (rec m')) = bgpGlobal (w_rec (rec m)) /\
  forall k, k <> PeerId addr -> lookup_intent (store m') (owner m) k = lookup_intent (store m) (owner m) k.
Proof.
  intros Ho <-. destruct (decide (addr = "")) as [->|Ha].
  - unfold ApplyPeer, SetPeerIntent, setIntent. apply String.eqb_neq in Ho as ->.
    by destruct bfd as [[[] ? ? ?]|].
  - destruct (ApplyPeer_files now addr as_ bfd m Ho Ha) as (m' & -> & ? & _ & ? & ?). done.
Qed.

Lemma external_keeps now g l m m' :
  owner m <> "" -> foldl (apply_external now g) m l = m' ->
  owner m' = owner m /\ bgpGlobal (w_rec (rec m')) = bgpGlobal (w_rec (rec m)) /\
  forall n x, lookup_intent (store m') (owner m) (PrefixId n x) = lookup_intent (store m) (owner m) (PrefixId n x).
Proof.
  intros Ho <-. revert m Ho. induction l as [|p l IH]; intros m Ho; [done|]. cbn [foldl].
  destruct (ApplyPeer_keeps now (rp_NeighborAddress p) (rp_RemoteAS p) (Some (peer_bfd g p)) m _ Ho eq_refl)
    as (H1 & H2 & H3).
  fold (apply_external now g m p) in *. destruct (IH (apply_external now g m p)) as (H4 & H5 & H6); [congruence|].
  split; [congruence|]. split; [congruence|]. intros n x. rewrite <- H1, H6, H1. by apply H3.
Qed.

(** What the set-up leaves: the AS number of the node, and its prefix filed. *)
Definition set_up (m : Manager) (ip : IP) (podCIDR : string) (a : Z) : Prop :=
  owner m = "novanet" /\ node_as ip = Val a /\ bgpGlobal (w_rec (rec m)) = Some (mkBGPGlobal a (ip_string ip)) /\
  exists p, lookup_intent (store m) "novanet" (PrefixId (proto_of ProtocolBGP) podCIDR) = Some (APrefix p) /\ x_Prefix p = podCIDR.

Lemma InitNativeMode_sets_up now c s ip podCIDR name cp :
  ParseIP s = Some ip -> podCIDR <> "" ->
  exists m a, InitNativeMode now c ip podCIDR name cp = Val (Some (m, vip_config c name cp)) /\ set_up m ip podCIDR a.
Proof.
  intros (a & Ea & _)%node_as_parsed Hp. unfold InitNativeMode. rewrite Ea. cbn [mbind outcome_bind].
  set (m0 := ConfigureBGP _ _ _). unfold AdvertisePrefix. set (x := mkPrefix _ _ _ _ _ _ _ _ _).
  change (SetPrefixIntent now (store m0) (owner m0) (Some x)) with (SetIntent now (store m0) "novanet" (APrefix x)).
  assert (valid_intent (APrefix x)) as Hv by done.
  pose proof (SetIntent_spec now (store m0) "novanet" (APrefix x) ltac:(done) Hv) as Hs.
  rewrite SetIntent_eq in * by done. cbn [snd] in Hs. cbn [file].
  set (m1 := trigger _). eexists _, a. split; [done|].
  destruct (external_keeps now (Routing c) (rc_Peers (Routing c)) m1 _ ltac:(done) eq_refl) as (H1 & H2 & H3).
  split; [by rewrite H1|]. split; [done|]. split; [by rewrite H2|].
  specialize (H3 (proto_of ProtocolBGP) podCIDR). change (owner m1) with "novanet" in H3. rewrite H3.
  subst m1. cbn [store trigger on_rec set_rec set_store]. rewrite Hs. cbn [spec_op id_of x_Protocol x_Prefix x].
  rewrite decide_True by done. by eexists.
Qed.

(** The watcher leaves the prefixes alone. *)
Definition same_prefixes (m m' : Manager) : Prop :=
  owner m' = owner m /\
  forall n x, lookup_intent (store m') (owner m) (PrefixId n x) = lookup_intent (store m) (owner m) (PrefixId n x).

Lemma same_prefixes_trans m1 m2 m3 : same_prefixes m1 m2 -> same_prefixes m2 m3 -> same_prefixes m1 m3.
Proof. intros [E1 H1] [E2 H2]. split; [congruence|]. intros n x. rewrite <- H1, <- E1. apply H2. Qed.

Lemma native_node_prefixes self bfd now st n st' :
  owner (n_mgr st) <> "" -> native_node self bfd now st n = Val st' -> same_prefixes (n_mgr st) (n_mgr st').
Proof.
  intros Ho. unfold native_node. destruct (String.eqb _ _); [by intros [= <-]|].
  destruct (_ || _); [by intros [= <-]|]. destruct (ParseIP _) as [ip|]; [|by intros [= <-]].
  destruct (node_as ip) as [a| |]; [|done..]. cbn [mbind outcome_bind].
  destruct (ApplyPeer now (NodeInternalIP n) a bfd (n_mgr st)) as [r m'] eqn:E.
  destruct (ApplyPeer_keeps now (NodeInternalIP n) a bfd (n_mgr st) m' Ho ltac:(by rewrite E)) as (H1 & _ & H3).
  destruct r; intros [= <-]; (split; [done|]); intros; by apply H3.
Qed.

Lemma native_nodes_prefixes self bfd now l : forall st st',
  owner (n_mgr st) <> "" -> native_nodes self bfd now st l = Val st' -> same_prefixes (n_mgr st) (n_mgr st').
Proof.
  induction l as [|n l IH]; intros st st' Ho; cbn; [by intros [= <-]|].
  destruct (native_node self bfd now st n) as [st1| |] eqn:E; [|done..]. cbn. intros E2.
  apply native_node_prefixes in E; [|done]. eapply same_prefixes_trans; [exact E|]. apply IH; [|done].
  destruct E as [-> _]. done.
Qed.

Lemma native_polls_prefixes self bfd polls : forall st st',
  owner (n_mgr st) <> "" -> native_polls self bfd st polls = Val st' -> same_prefixes (n_mgr st) (n_mgr st').
Proof.
  induction polls as [|[t [l|]] polls IH]; intros st st' Ho; cbn; [by intros [= <-]| |by apply IH].
  destruct (native_nodes self bfd t st l) as [st1| |] eqn:E; [|done..]. cbn. intros E2.
  apply native_nodes_prefixes in E; [|done]. eapply same_prefixes_trans; [exact E|]. apply IH; [|done].
  destruct E as [-> _]. done.
Qed.

(** C15: The BGP mesh fits together: let two nodes set up native routing, and let the
    first watch any sequence of listings that give each name one address and
    list the second.  The first ends up with a peer for the address of the second
    whose AS number is the one the second runs BGP with, and still advertises its
    own prefix. *)
Theorem native_mesh_agrees now now' c c' sA sB ipA ipB cidrA cidrB nameA nameB cp cp' addr polls t nodes n :
  ParseIP sA = Some ipA -> ParseIP sB = Some ipB -> cidrA <> "" -> cidrB <> "" -> nameA <> nameB ->
  steady addr polls -> (t, Some nodes) ∈ polls -> n ∈ nodes -> n_Name n = nameB -> addr nameB = sB ->
  exists mA mB vA vB st a,
    InitNativeMode now c ipA cidrA nameA cp = Val (Some (mA, vA)) /\
    InitNativeMode now' c' ipB cidrB nameB cp' = Val (Some (mB, vB)) /\
    WatchNodesNative nameA (watcher_bfd (Routing c)) mA polls = Val st /\
    bgpGlobal (w_rec (rec mB)) = Some (mkBGPGlobal a (ip_string ipB)) /\
    peers_with (n_mgr st) sB a (watcher_bfd (Routing c)) /\
    is_Some (lookup_intent (store (n_mgr st)) "novanet" (PrefixId (proto_of ProtocolBGP) cidrA)).
Proof.
  intros HA HB HcA HcB Hne Hst Hp Hn Hname Hb.
  destruct (InitNativeMode_sets_up now c sA ipA cidrA nameA cp HA HcA) as (mA & aA & EA & HoA & _ & _ & pA & HpA & _).
  destruct (InitNativeMode_sets_up now' c' sB ipB cidrB nameB cp' HB HcB) as (mB & aB & EB & _ & HaB & HgB & _).
  destruct (native_polls_inv nameA (watcher_bfd (Routing c)) addr "novanet" polls (mkNative mA ∅))
    as (st & Est & [Ho Hinv] & _ & Hall); [done|done| |].
  { split; [done|]. cbn. intros x Hx. set_solver. }
  assert (nameB ∈ peered st) as Hin.
  { rewrite <- Hname. apply (Hall t nodes n); [done..|]. split; [congruence|]. rewrite Hname, Hb, HB. eauto. }
  destruct (Hinv _ Hin) as (ip & a & Eip & Ea & Hpw). rewrite Hb in *. rewrite HB in Eip. simplify_eq.
  rewrite Ea in HaB. simplify_eq.
  eexists mA, mB, _, _, st, aB. split_and!; [done..|].
  assert (owner (n_mgr (mkNative mA ∅)) <> "") as HneA by (cbn; by rewrite HoA).
  destruct (native_polls_prefixes _ _ _ _ _ HneA Est) as [_ H].
  cbn [n_mgr] in H. rewrite HoA in H. rewrite H. eauto.
Qed.

(** A listing of nodes that are all peered with changes nothing: the new address
    of a node that moved gets no peer, and the peers of nodes that left stay. *)
Theorem peered_nodes_ignored self bfd now st nodes :
  Forall (fun n => n_Name n = self \/ n_Name n ∈ peered st) nodes -> native_poll self bfd st (now, Some nodes) = Val st.
Proof.
  unfold native_poll. cbn [fst snd]. induction 1 as [|n l Hn _ IH]; [done|]. cbn.
  assert (native_node self bfd now st n = Val st) as ->; [|done].
  unfold native_node. destruct Hn as [->|Hn]; [by rewrite String.eqb_refl|].
  destruct (String.eqb _ self); [done|]. rewrite bool_decide_true by done. by rewrite orb_true_r.
Qed.

(** * Instances *)

Lemma native_mesh_agrees_witness :
  exists mA mB vA vB st a,
    InitNativeMode 1 DefaultAgentConfig (default [] (ParseIP "192.168.0.1")) "10.244.0.0/24" "a" false = Val (Some (mA, vA)) /\
    InitNativeMode 2 DefaultAgentConfig (default [] (ParseIP "192.168.0.2")) "10.244.1.0/24" "b" false = Val (Some (mB, vB)) /\
    WatchNodesNative "a" None mA [(3, None); (4, Some [node_a; node_b])] = Val st /\
    bgpGlobal (w_rec (rec mB)) = Some (mkBGPGlobal a "192.168.0.2") /\
    peers_with (n_mgr st) "192.168.0.2" a None /\
    is_Some (lookup_intent (store (n_mgr st)) "novanet" (PrefixId (proto_of ProtocolBGP) "10.244.0.0/24")).
Proof.
  refine (native_mesh_agrees 1 2 DefaultAgentConfig DefaultAgentConfig "192.168.0.1" "192.168.0.2"
           (default [] (ParseIP "192.168.0.1")) (default [] (ParseIP "192.168.0.2")) "10.244.0.0/24" "10.244.1.0/24"
           "a" "b" false false (fun x => if String.eqb x "a" then "192.168.0.1" else "192.168.0.2")
           [(3, None); (4, Some [node_a; node_b])] 4 [node_a; node_b] node_b _ _ _ _ _ _ _ _ _ _); try done.
  - intros t l n [?|[[= -> ->]|H%elem_of_nil]%elem_of_cons]%elem_of_cons Hn; [done| |done].
    apply elem_of_cons in Hn as [->|[->|H%elem_of_nil]%elem_of_cons]; [reflexivity|reflexivity|done].
  - right; left.
  - right; left.
Defined.

(** Node b has moved and node c has left. *)
Definition meshed : native := mkNative (NewManager "novanet") {["b"; "c"]}.

Lemma peered_nodes_ignored_witness :
  native_poll "a" None meshed (5, Some [cluster_node "b" "192.168.0.9" "10.244.1.0/24"]) = Val meshed.
Proof.
  apply (peered_nodes_ignored "a" None 5 meshed). constructor; [right; vm_compute; reflexivity|constructor].
Defined.
