(* ===== verification/NodeMode.v ===== *)
(** The node registry (internal/node/registry.go) and the routing mode manager
    (internal/routing/mode.go) that listens to it.  In overlay mode the tunnels
    follow the registry, changes of address included, until the manager stops. *)

From Stdlib Require Import ZArith Lia Ascii String.
From stdpp Require Import base tactics list gmap strings fin_maps sorting.
From S2P Require Import Prelude GoStrings GoMap GoNet Intent FrrClient Reconciler RoutingManager DpClient Overlay AgentConfig.

(** * The registry *)

Record NodeInfo := mkNodeInfo { i_Name : string; i_IP : string; i_PodCIDR : string; i_Ready : bool }.

Variant node_event := EvAdd | EvUpdate | EvDelete.

Section Registry.
(** Callbacks change a state outside the registry; [C] names them. *)
Context {C S : Type}.
Variable call : C -> node_event -> NodeInfo -> S -> S.

Record Registry := mkRegistry { nodes : gmap string NodeInfo; callbacks : list C }.

Definition NewRegistry : Registry := mkRegistry ∅ [].

Definition notify (ev : node_event) (n : NodeInfo) (cbs : list C) (s : S) : S :=
  foldl (fun s cb => call cb ev n s) s cbs.

Definition AddNode (name ip podCIDR : string) (r : Registry) (s : S) : Registry * S :=
  let node := mkNodeInfo name ip podCIDR true in
  let event := match nodes r !! name with Some _ => EvUpdate | None => EvAdd end in
  (mkRegistry (<[name := node]> (nodes r)) (callbacks r), notify event node (callbacks r) s).

Definition RemoveNode (name : string) (r : Registry) (s : S) : Registry * S :=
  match nodes r !! name with
  | None => (r, s)
  | Some node => (mkRegistry (delete name (nodes r)) (callbacks r), notify EvDelete node (callbacks r) s)
  end.

Definition SetReady (name : string) (ready : bool) (r : Registry) (s : S) : Registry * S :=
  match nodes r !! name with
  | None => (r, s)
  | Some node =>
      let node := mkNodeInfo (i_Name node) (i_IP node) (i_PodCIDR node) ready in
      (mkRegistry (<[name := node]> (nodes r)) (callbacks r), notify EvUpdate node (callbacks r) s)
  end.

Definition OnNodeChange (cb : C) (r : Registry) : Registry := mkRegistry (nodes r) (callbacks r ++ [cb]).

Definition GetNode (name : string) (r : Registry) : option NodeInfo := nodes r !! name.

Definition by_name (a b : NodeInfo) : Prop := String.le (i_Name a) (i_Name b).
#[export] Instance by_name_dec a b : Decision (by_name a b) := _.

Definition ListNodes {MI : MapIter} (r : Registry) : list NodeInfo := merge_sort by_name (iter_values (nodes r)).

Definition NodeCount (r : Registry) : Z := Z.of_nat (size (nodes r)).
End Registry.
Arguments Registry C : clear implicits.

(** * The mode manager *)

(** The callback that [startOverlay] registers is known by its context; [live]
    holds the contexts that are not done. *)
Record ModeManager := mkMode {
  m_mode : string; m_cluster : string; tunnelMgr : TunnelManager; routingMgr : option Manager;
  nodeRegistry : Registry nat; cancel : option nat; live : gset nat; next : nat }.

Definition NewModeManager (c : AgentConfig) (t : TunnelManager) (r : option Manager) (reg : Registry nat) : ModeManager :=
  mkMode (RoutingMode c) (ClusterCIDR c) t r reg None ∅ 0.

Inductive mode_error := ErrUnsupportedMode | ErrRoutingMgrRequired | ErrFRR | ErrAdvertise (e : intent_error).

Section Mode.
Context {DN : DpNet} {MI : MapIter}.
(** The index of the tunnel interface, [None] when it cannot be made. *)
Variable created : option Z.

(** What the callback works on: the contexts that are not done, and the tunnels. *)
Definition overlay_state : Type := gset nat * TunnelManager.

Definition on_node (ctx : nat) (ev : node_event) (n : NodeInfo) (s : overlay_state) : overlay_state :=
  if bool_decide (ctx ∈ s.1) then
    (s.1, match ev with
          | EvAdd | EvUpdate => (AddTunnel created (i_Name n) (i_IP n) (i_PodCIDR n) s.2).2
          | EvDelete => RemoveTunnel (i_Name n) s.2
          end)
  else s.

Definition set_overlay (rs : Registry nat * overlay_state) (m : ModeManager) : ModeManager :=
  mkMode (m_mode m) (m_cluster m) rs.2.2 (routingMgr m) rs.1 (cancel m) rs.2.1 (next m).

Definition overlay_of (m : ModeManager) : overlay_state := (live m, tunnelMgr m).

(** A change of the registry, with the callbacks it runs. *)
Definition on_registry (f : Registry nat -> overlay_state -> Registry nat * overlay_state) (m : ModeManager) : ModeManager :=
  set_overlay (f (nodeRegistry m) (overlay_of m)) m.

Definition set_tunnelMgr t m :=
  mkMode (m_mode m) (m_cluster m) t (routingMgr m) (nodeRegistry m) (cancel m) (live m) (next m).
Definition set_routingMgr r m :=
  mkMode (m_mode m) (m_cluster m) (tunnelMgr m) r (nodeRegistry m) (cancel m) (live m) (next m).

Definition startOverlay (ctx : nat) (m : ModeManager) : ModeManager :=
  let reg := OnNodeChange ctx (nodeRegistry m) in
  let t := foldl (fun t n => (AddTunnel created (i_Name n) (i_IP n) (i_PodCIDR n) t).2) (tunnelMgr m) (ListNodes reg) in
  mkMode (m_mode m) (m_cluster m) t (routingMgr m) reg (cancel m) (live m) (next m).

Definition stopOverlay (m : ModeManager) : ModeManager :=
  set_tunnelMgr (foldl (fun t i => RemoveTunnel (ti_NodeName i) t) (tunnelMgr m) (ListTunnels (tunnelMgr m))) m.

(** [frr] says whether the FRR daemons come up. *)
Definition startNative (now : Z) (frr : bool) (m : ModeManager) : result mode_error unit * ModeManager :=
  match routingMgr m with
  | None => (Err ErrRoutingMgrRequired, m)
  | Some r =>
      if negb frr then (Err ErrFRR, m)
      else match AdvertisePrefix now (m_cluster m) r with
      | (Err e, r') => (Err (ErrAdvertise e), set_routingMgr (Some r') m)
      | (Ok _, r') => (Ok tt, set_routingMgr (Some r') m)
      end
  end.

Definition stopNative (m : ModeManager) : outcome ModeManager :=
  match routingMgr m with
  | None => Val m
  | Some r => r' ← Shutdown (WithdrawPrefix (m_cluster m) r).2; Val (set_routingMgr (Some r') m)
  end.

Definition Start (now : Z) (frr : bool) (m : ModeManager) : result mode_error unit * ModeManager :=
  let ctx := next m in
  let m := mkMode (m_mode m) (m_cluster m) (tunnelMgr m) (routingMgr m) (nodeRegistry m) (Some ctx)
             ({[ctx]} ∪ live m) (ctx + 1)%nat in
  if String.eqb (m_mode m) "overlay" then (Ok tt, startOverlay ctx m)
  else if String.eqb (m_mode m) "native" then startNative now frr m
  else (Err ErrUnsupportedMode,
        mkMode (m_mode m) (m_cluster m) (tunnelMgr m) (routingMgr m) (nodeRegistry m) (cancel m) (live m ∖ {[ctx]}) (next m)).

Definition Stop (m : ModeManager) : outcome ModeManager :=
  let m := mkMode (m_mode m) (m_cluster m) (tunnelMgr m) (routingMgr m) (nodeRegistry m) None
             (match cancel m with Some ctx => live m ∖ {[ctx]} | None => live m end) (next m) in
  if String.eqb (m_mode m) "overlay" then Val (stopOverlay m)
  else if String.eqb (m_mode m) "native" then stopNative m
  else Val m.
End Mode.

(** * Tunnels follow the registry *)

Inductive reg_op : Type :=
| RAdd (name ip podCIDR : string)
| RRemove (name : string)
| RReady (name : string) (ready : bool).

Definition reg_op_ok (op : reg_op) : Prop := match op with RAdd _ ip _ => is_Some (ParseIP ip) | _ => True end.

Definition run_reg {DN : DpNet} (created : option Z) (m : ModeManager) (op : reg_op) : ModeManager :=
  on_registry match op with
    | RAdd name ip cidr => AddNode (on_node created) name ip cidr
    | RRemove name => RemoveNode (on_node created) name
    | RReady name ready => SetReady (on_node created) name ready
    end m.

(** A tunnel manager that can make its interface and has no client of its own. *)
Definition able (t : TunnelManager) : Prop :=
  tm_client t = None /\ (tm_protocol t = protocolGeneve \/ tm_protocol t = protocolVxlan).

Definition reg_wf (ns : gmap string NodeInfo) : Prop :=
  forall name n, ns !! name = Some n -> i_Name n = name /\ is_Some (ParseIP (i_IP n)).

(** The tunnel of every node of [ns], with its present address and network. *)
Definition follows (ns : gmap string NodeInfo) (t : TunnelManager) : Prop :=
  able t /\ reg_wf ns /\
  forall name, (fun i => (ti_NodeName i, ti_NodeIP i, ti_PodCIDR i)) <$> tunnels t !! name
             = (fun n => (i_Name n, i_IP n, i_PodCIDR n)) <$> ns !! name.

Section Follows.
Context {DN : DpNet} {MI : MapIter}.
Variable i : Z.

Lemma RemoveTunnel_able name t :
  able t -> able (RemoveTunnel name t) /\ tunnels (RemoveTunnel name t) = delete name (tunnels t).
Proof.
  intros [Hc Hp]. unfold RemoveTunnel. destruct (tunnels t !! name) as [info|] eqn:E.
  - rewrite Hc. done.
  - split; [done|]. by rewrite delete_id.
Qed.

Lemma ensure_able t : able t -> exists t', ensureTunnelInterface (Some i) t = (Ok tt, t') /\ able t' /\ tunnels t' = tunnels t.
Proof.
  intros [Hc Hp]. unfold ensureTunnelInterface. destruct (negb _); [by exists t|].
  destruct Hp as [Hp|Hp]; rewrite Hp; simpl; (eexists; split; [done|split; [|done]]); split; auto.
Qed.

Lemma AddTunnel_able name ip cidr t :
  able t -> is_Some (ParseIP ip) ->
  exists info, let t' := (AddTunnel (Some i) name ip cidr t).2 in
    able t' /\ tunnels t' = <[name := info]> (tunnels t) /\
    ti_NodeName info = name /\ ti_NodeIP info = ip /\ ti_PodCIDR info = cidr.
Proof.
  intros Ht [p Hp]. unfold AddTunnel. rewrite Hp.
  set (t1 := match tunnels t !! name with Some _ => RemoveTunnel name t | None => t end).
  assert (able t1 /\ tunnels t1 = delete name (tunnels t)) as [H1 E1].
  { unfold t1. destruct (tunnels t !! name) eqn:E; [by apply RemoveTunnel_able|]. split; [done|]. by rewrite delete_id. }
  destruct (ensure_able t1 H1) as (t2 & -> & H2 & E2). pose proof H2 as [Hc _]. rewrite Hc. eexists. cbn.
  split; [by destruct H2|]. split; [by rewrite E2, E1, insert_delete_eq|done].
Qed.

Lemma follows_add ns t n :
  follows ns t -> is_Some (ParseIP (i_IP n)) ->
  follows (<[i_Name n := n]> ns) (AddTunnel (Some i) (i_Name n) (i_IP n) (i_PodCIDR n) t).2.
Proof.
  intros (Ht & Hwf & Hf) Hp. destruct (AddTunnel_able (i_Name n) (i_IP n) (i_PodCIDR n) t Ht Hp) as (info & Ht' & E & H1 & H2 & H3).
  split; [done|]. split.
  - intros name n' [[<- <-]|[_ Hn']]%lookup_insert_Some; [done|by apply Hwf].
  - intros name. rewrite E. destruct (decide (i_Name n = name)) as [<-|Hne].
    + rewrite !lookup_insert_eq. simpl. by rewrite H1, H2, H3.
    + rewrite !lookup_insert_ne by done. apply Hf.
Qed.

Lemma follows_remove ns t name : follows ns t -> follows (delete name ns) (RemoveTunnel name t).
Proof.
  intros (Ht & Hwf & Hf). destruct (RemoveTunnel_able name t Ht) as [Ht' E]. split; [done|]. split.
  - intros name' n' [_ Hn']%lookup_delete_Some. by apply Hwf.
  - intros name'. rewrite E. destruct (decide (name = name')) as [<-|Hne].
    + by rewrite !lookup_delete_eq.
    + rewrite !lookup_delete_ne by done. apply Hf.
Qed.

(** The state of a manager that runs in overlay mode. *)
Definition running (m : ModeManager) : Prop :=
  exists ctx, callbacks (nodeRegistry m) = [ctx] /\ cancel m = Some ctx /\ ctx ∈ live m /\ m_mode m = "overlay" /\
    follows (nodes (nodeRegistry m)) (tunnelMgr m).

Lemma run_reg_running m op : reg_op_ok op -> running m -> running (run_reg (Some i) m op).
Proof.
  intros Hop (ctx & Hcb & Hc & Hl & Hm & Hf). pose proof Hf as (_ & Hwf & _). exists ctx.
  destruct op as [name ip cidr|name|name ready]; unfold run_reg, on_registry, AddNode, RemoveNode, SetReady.
  - cbn. rewrite Hcb. cbn. unfold on_node. cbn. rewrite bool_decide_true by done. split_and!; [done..|].
    assert (match match nodes (nodeRegistry m) !! name with Some _ => EvUpdate | None => EvAdd end with
            | EvAdd | EvUpdate => (AddTunnel (Some i) name ip cidr (tunnelMgr m)).2
            | EvDelete => RemoveTunnel name (tunnelMgr m)
            end = (AddTunnel (Some i) name ip cidr (tunnelMgr m)).2) as -> by (by destruct (_ !! _)).
    apply (follows_add _ _ (mkNodeInfo name ip cidr true)); done.
  - destruct (nodes (nodeRegistry m) !! name) as [n|] eqn:En; cbn; [|by split_and!].
    destruct (Hwf _ _ En) as [Hn _]. rewrite Hcb. cbn. unfold on_node. cbn. rewrite bool_decide_true by done.
    split_and!; [done..|]. rewrite Hn. by apply follows_remove.
  - destruct (nodes (nodeRegistry m) !! name) as [n|] eqn:En; cbn; [|by split_and!].
    destruct (Hwf _ _ En) as [Hn Hp]. rewrite Hcb. cbn. unfold on_node. cbn. rewrite bool_decide_true by done.
    split_and!; [done..|]. pose proof (follows_add _ _ (mkNodeInfo (i_Name n) (i_IP n) (i_PodCIDR n) ready) Hf Hp) as H.
    cbn in H. by rewrite Hn in *.
Qed.

Lemma add_listed l : forall ns t, follows ns t -> Forall (fun n => is_Some (ParseIP (i_IP n))) l ->
  follows (foldl (fun ns n => <[i_Name n := n]> ns) ns l)
    (foldl (fun t n => (AddTunnel (Some i) (i_Name n) (i_IP n) (i_PodCIDR n) t).2) t l).
Proof.
  induction l as [|n l IH]; intros ns t Hf Hl; [done|]. apply Forall_cons in Hl as [Hn Hl]. cbn [foldl].
  apply IH; [|done]. by apply follows_add.
Qed.

Lemma listed_nodes (r : Registry nat) :
  reg_wf (nodes r) -> foldl (fun ns n => <[i_Name n := n]> ns) ∅ (ListNodes r) = nodes r.
Proof.
  intros Hwf. unfold ListNodes, iter_values.
  assert (i_Name <$> merge_sort by_name (iter (nodes r)).*2 ≡ₚ (iter (nodes r)).*1) as Hperm.
  { rewrite merge_sort_Permutation, <- list_fmap_compose.
    rewrite (list_fmap_ext (i_Name ∘ snd) fst); [done|]. intros k [name n] H%list_elem_of_lookup_2%elem_of_iter. by destruct (Hwf _ _ H). }
  apply map_eq. intros k. apply option_eq. intros n. rewrite foldl_insert_Some; [|rewrite Hperm; apply NoDup_iter_keys].
  rewrite lookup_empty, merge_sort_Permutation. fold (iter_values (nodes r)). rewrite elem_of_iter_values. split.
  - intros [[[k' Hk'] ->]|[_ ?]]; [|done]. by destruct (Hwf _ _ Hk') as [-> _].
  - intros Hn. left. split; [eauto|]. by destruct (Hwf _ _ Hn).
Qed.

Lemma Start_running now frr m m' r :
  m_mode m = "overlay" -> able (tunnelMgr m) -> tunnels (tunnelMgr m) = ∅ ->
  callbacks (nodeRegistry m) = [] -> reg_wf (nodes (nodeRegistry m)) ->
  Start (Some i) now frr m = (r, m') -> r = Ok tt /\ running m'.
Proof.
  intros Hm Ha Ht Hcb Hwf. unfold Start. cbn [m_mode]. rewrite Hm. cbn. intros [= <- <-]. split; [done|].
  exists (next m). cbn. rewrite Hcb. split_and!; [done..|set_solver|done|].
  change (ListNodes (mkRegistry (nodes (nodeRegistry m)) [next m])) with (ListNodes (nodeRegistry m)).
  rewrite <- (listed_nodes (nodeRegistry m)) at 1 by done. apply add_listed.
  - split; [done|]. split; [done|]. intros name. by rewrite Ht, !lookup_empty.
  - apply Forall_forall. intros n. unfold ListNodes. rewrite merge_sort_Permutation, elem_of_iter_values.
    intros [k Hk]. by destruct (Hwf _ _ Hk).
Qed.

Lemma remove_listed l : forall t, able t ->
  able (foldl (fun t i => RemoveTunnel (ti_NodeName i) t) t l) /\
  forall k, tunnels (foldl (fun t i => RemoveTunnel (ti_NodeName i) t) t l) !! k
    = if decide (k ∈ ti_NodeName <$> l) then None else tunnels t !! k.
Proof.
  induction l as [|x l IH]; intros t Ht.
  - split; [done|]. intros k. by rewrite decide_False by apply not_elem_of_nil.
  - cbn [foldl]. destruct (RemoveTunnel_able (ti_NodeName x) t Ht) as [Ht' E].
    destruct (IH _ Ht') as [Ha Hk]. split; [done|]. intros k. rewrite Hk, E. rewrite fmap_cons.
    destruct (decide (k ∈ ti_NodeName <$> l)) as [Hin|Hin]; [by rewrite decide_True by (by right)|].
    destruct (decide (k = ti_NodeName x)) as [->|Hne].
    + rewrite decide_True by left. by rewrite lookup_delete_eq.
    + rewrite decide_False by (by rewrite elem_of_cons; intros [?|?]). by rewrite lookup_delete_ne.
Qed.

Lemma Stop_running m : running m -> exists m', Stop m = Val m' /\ tunnels (tunnelMgr m') = ∅ /\
  Forall (fun ctx => ctx ∉ live m') (callbacks (nodeRegistry m')).
Proof.
  intros (ctx & Hcb & Hc & Hl & Hm & Ha & Hwf & Hf). unfold Stop. cbn [m_mode]. rewrite Hm, Hc. cbn.
  eexists. split; [done|]. cbn. rewrite Hcb. split; [|constructor; [set_solver|constructor]].
  destruct (remove_listed (ListTunnels (tunnelMgr m)) _ Ha) as [_ Hk]. apply map_empty. intros k. rewrite Hk.
  destruct (decide _) as [|Hin]; [done|]. destruct (tunnels (tunnelMgr m) !! k) as [info|] eqn:E; [|done].
  destruct Hin. apply list_elem_of_fmap. exists info. unfold ListTunnels. rewrite elem_of_iter_values.
  split; [|eauto]. specialize (Hf k). rewrite E in Hf. destruct (_ !! k) as [n|] eqn:En; [|done].
  destruct (Hwf _ _ En) as [Hn _]. cbn in Hf. simplify_eq. congruence.
Qed.

Lemma run_reg_stopped m op :
  Forall (fun ctx => ctx ∉ live m) (callbacks (nodeRegistry m)) ->
  tunnelMgr (run_reg (Some i) m op) = tunnelMgr m /\
  live (run_reg (Some i) m op) = live m /\ callbacks (nodeRegistry (run_reg (Some i) m op)) = callbacks (nodeRegistry m).
Proof.
  intros Hcb.
  assert (forall ev n, notify (on_node (Some i)) ev n (callbacks (nodeRegistry m)) (overlay_of m) = overlay_of m) as Hn.
  { intros ev n. unfold notify. induction Hcb as [|c l Hc _ IH]; [done|]. cbn [foldl].
    unfold on_node at 2. cbn. by rewrite bool_decide_false. }
  destruct op as [name ip cidr|name|name ready]; unfold run_reg, on_registry, AddNode, RemoveNode, SetReady.
  - by rewrite Hn.
  - destruct (_ !! name); [|done]. by rewrite Hn.
  - destruct (_ !! name); [|done]. by rewrite Hn.
Qed.

Lemma run_regs_stopped ops m :
  Forall (fun ctx => ctx ∉ live m) (callbacks (nodeRegistry m)) ->
  tunnelMgr (foldl (run_reg (Some i)) m ops) = tunnelMgr m.
Proof.
  revert m. induction ops as [|op ops IH]; intros m Hcb; [done|]. cbn [foldl].
  destruct (run_reg_stopped m op Hcb) as (E1 & E2 & E3). rewrite IH; [done|]. by rewrite E2, E3.
Qed.
End Follows.

(** In overlay mode the tunnels are those of the registered nodes, with their
    present addresses and networks, from the start and through every addition,
    change and removal; stopping removes them all, and nothing that happens to the
    registry afterwards brings one back. *)
Theorem mode_tunnels_follow_registry {DN : DpNet} {MI : MapIter} i now frr m ops ops' :
  m_mode m = "overlay" -> able (tunnelMgr m) -> tunnels (tunnelMgr m) = ∅ ->
  callbacks (nodeRegistry m) = [] -> reg_wf (nodes (nodeRegistry m)) -> Forall reg_op_ok ops ->
  exists m1 m2, Start (Some i) now frr m = (Ok tt, m1) /\
    (let mr := foldl (run_reg (Some i)) m1 ops in
     (forall name, (fun t => (ti_NodeIP t, ti_PodCIDR t)) <$> GetTunnel name (tunnelMgr mr)
                 = (fun n => (i_IP n, i_PodCIDR n)) <$> GetNode name (nodeRegistry mr)) /\
     Stop mr = Val m2) /\
    tunnels (tunnelMgr (foldl (run_reg (Some i)) m2 ops')) = ∅.
Proof.
  intros Hm Ha Ht Hcb Hwf Hops. destruct (Start (Some i) now frr m) as [r m1] eqn:E.
  destruct (Start_running i now frr m m1 r Hm Ha Ht Hcb Hwf E) as [-> Hr].
  assert (running (foldl (run_reg (Some i)) m1 ops)) as Hrun.
  { clear -Hr Hops. revert m1 Hr. induction Hops as [|op ops Hop _ IH]; intros m1 Hr; [done|].
    cbn [foldl]. apply IH. by apply run_reg_running. }
  destruct (Stop_running _ Hrun) as (m2 & E2 & Ht2 & Hcb2).
  exists m1, m2. split; [done|]. split; [split; [|done]|].
  - destruct Hrun as (ctx & _ & _ & _ & _ & _ & _ & Hf). intros name. specialize (Hf name).
    unfold GetTunnel, GetNode. destruct (tunnels _ !! name), (nodes _ !! name); cbn in *; congruence.
  - by rewrite run_regs_stopped.
Qed.

Definition mode_start : ModeManager :=
  NewModeManager DefaultAgentConfig (NewTunnelManager "vxlan" [192; 168; 0; 1] 1 None) None
    (mkRegistry {["b" := mkNodeInfo "b" "192.168.0.2" "10.244.1.0/24" true]} []).

Lemma mode_tunnels_follow_registry_witness : exists m1 m2,
  Start (DN := dp_reliable) (MI := iter_forward) (Some 9) 0 true mode_start = (Ok tt, m1) /\
  (let mr := foldl (run_reg (DN := dp_reliable) (Some 9)) m1 [RAdd "b" "192.168.0.9" "10.244.1.0/24"; RReady "b" false] in
   (forall name, (fun t => (ti_NodeIP t, ti_PodCIDR t)) <$> GetTunnel name (tunnelMgr mr)
               = (fun n => (i_IP n, i_PodCIDR n)) <$> GetNode name (nodeRegistry mr)) /\
   Stop (DN := dp_reliable) (MI := iter_forward) mr = Val m2) /\
  tunnels (tunnelMgr (foldl (run_reg (DN := dp_reliable) (Some 9)) m2 [RRemove "b"])) = ∅.
Proof.
  apply (mode_tunnels_follow_registry (DN := dp_reliable) (MI := iter_forward) 9 0 true mode_start
           [RAdd "b" "192.168.0.9" "10.244.1.0/24"; RReady "b" false] [RRemove "b"]); [done| |done|done| |].
  - split; [done|by right].
  - intros name n H. cbn in H. apply lookup_singleton_Some in H as [<- <-]. split; [done|]. vm_compute. eauto.
  - repeat constructor. vm_compute. eauto.
Defined.

(** In native mode the prefix advertised is the cluster's, not the node's. *)
Lemma native_mode_advertises_cluster now m r r' :
  m_mode m = "native" -> routingMgr m = Some r -> AdvertisePrefix now (m_cluster m) r = (Ok tt, r') ->
  routingMgr (Start (DN := dp_reliable) (MI := iter_forward) None now true m).2 = Some r'.
Proof. intros Hm Hr E. unfold Start. cbn [m_mode]. rewrite Hm. cbn. unfold startNative. cbn. by rewrite Hr, E. Qed.
