(* ===== verification/Webhook.v ===== *)
(** The validating admission webhooks (internal/webhook): what they check of the
    NovaNet resources, and what the components that consume the resources make of
    what they let through.  The paths of apimachinery's field errors are kept, their
    texts are not. *)

From Stdlib Require Import ZArith Lia Ascii String.
From stdpp Require Import base tactics list gmap strings fin_maps.
From S2P Require Import Prelude GoStrings GoMap GoNet GoCidr Constants Identity IpamIndex IpamPool IpamManager PolicyCompiler.
From S2P Require Import PolicyEnforcement DnsCache ExtendedPolicy HostFirewall EgressGateway.

(** * validation.go *)

Inductive webhook_error :=
| errInvalidCIDR | errNonCanonicalCIDR | errInvalidIP | errInvalidPort | errEndPort | errEndPortBeforePort | errInvalidProtocol.

Definition validateCIDR (cidr : string) : option webhook_error :=
  match ParseCIDR cidr with
  | None => Some errInvalidCIDR
  | Some (ip, ipNet) =>
      if negb (String.eqb (ip_string ip) (ip_string (net_ip ipNet))) then Some errNonCanonicalCIDR else None
  end.

Definition validateIP (ip : string) : option webhook_error :=
  match ParseIP ip with None => Some errInvalidIP | Some _ => None end.

Definition validatePort (port : Z) : option webhook_error :=
  if (port <? 1) || (port >? 65535) then Some errInvalidPort else None.

Definition validatePortRange (port endPort : Z) : option webhook_error :=
  match validatePort port with
  | Some e => Some e
  | None =>
      match validatePort endPort with
      | Some _ => Some errEndPort
      | None => if endPort <? port then Some errEndPortBeforePort else None
      end
  end.

(** [strings.ToUpper], as far as the result is ASCII text: the letters a to z, and
    the two letters outside ASCII whose upper case is in it (dotless i, C4 B1, and
    long s, C5 BF). *)
Definition upper_char (c : ascii) : ascii := if (97 <=? ord c) && (ord c <=? 122) then chr (ord c - 32) else c.

Fixpoint to_upper (s : string) : string :=
  match s with
  | EmptyString => EmptyString
  | String c1 (String c2 rest as tail) =>
      if (ord c1 =? 196) && (ord c2 =? 177) then String "I" (to_upper rest)
      else if (ord c1 =? 197) && (ord c2 =? 191) then String "S" (to_upper rest)
      else String (upper_char c1) (to_upper tail)
  | String c EmptyString => String (upper_char c) EmptyString
  end.

Definition validProtocols : list string := ["TCP"; "UDP"; "SCTP"].

Definition validateProtocol (protocol : string) : option webhook_error :=
  if bool_decide (to_upper protocol ∈ validProtocols) then None else Some errInvalidProtocol.

Definition cidrsOverlap (a b : IPNet) : bool := Contains a (net_ip b) || Contains b (net_ip a).

(** The address and the mask of a parsed network have the same length. *)
Definition lastAddr (n : IPNet) : IP := zip_with (fun b m => Z.lor b (Z.lxor m 255)) (net_ip n) (net_mask n).

Definition cidrContains (parent child : IPNet) : bool :=
  if negb (Contains parent (net_ip child)) then false else Contains parent (lastAddr child).

(** * Field errors *)

Inductive path_elem := Child (name : string) | Index (i : nat).
Variant field_problem := NotSupported | Invalid (e : webhook_error) | Other | Required.
Record field_error := mkFieldError { fe_path : list path_elem; fe_problem : field_problem }.

(** [field.Invalid] when a check fails. *)
Definition invalid (path : list path_elem) (check : option webhook_error) : list field_error :=
  match check with Some e => [mkFieldError path (Invalid e)] | None => [] end.

Definition each {A} (path : list path_elem) (l : list A) (f : list path_elem -> A -> list field_error) : list field_error :=
  mjoin (imap (fun i x => f (path ++ [Index i]) x) l).

(** * Policies *)

Definition validateIPBlock (path : list path_elem) (b : IPBlock) : list field_error :=
  match validateCIDR (CIDR b) with
  | Some e => [mkFieldError (path ++ [Child "cidr"]) (Invalid e)]
  | None =>
      each (path ++ [Child "except"]) (Except b) (fun p except =>
        match validateCIDR except with
        | Some e => [mkFieldError p (Invalid e)]
        | None =>
            match ParseCIDR (CIDR b), ParseCIDR except with
            | Some (_, parentNet), Some (_, exceptNet) =>
                if negb (cidrContains parentNet exceptNet) then [mkFieldError p Other] else []
            | _, _ => []
            end
        end)
  end.

Definition validateNetworkPolicyPeers (path : list path_elem) (peers : list NovaNetworkPolicyPeer) : list field_error :=
  each path peers (fun p peer =>
    match v_IPBlock peer with Some b => validateIPBlock (p ++ [Child "ipBlock"]) b | None => [] end).

Definition validateNetworkPolicyPorts (path : list path_elem) (ports : list NovaNetworkPolicyPort) : list field_error :=
  each path ports (fun p port =>
    match v_Protocol port with Some s => invalid (p ++ [Child "protocol"]) (validateProtocol s) | None => [] end ++
    match v_Port port with Some n => invalid (p ++ [Child "port"]) (validatePort n) | None => [] end ++
    match v_EndPort port with
    | Some e =>
        match v_Port port with
        | None => [mkFieldError (p ++ [Child "port"]) Required]
        | Some n => invalid (p ++ [Child "endPort"]) (validatePortRange n e)
        end
    | None => []
    end).

Definition validate_rules (dir peers : string) (rules : list NovaNetworkPolicyRule) : list field_error :=
  each [Child "spec"; Child dir] rules (fun p rule =>
    validateNetworkPolicyPorts (p ++ [Child "ports"]) (v_Ports rule) ++
    validateNetworkPolicyPeers (p ++ [Child peers]) (v_Peers rule)).

Definition validateNovaNetworkPolicySpec (spec : NovaNetworkPolicy) : list field_error :=
  each [Child "spec"; Child "policyTypes"] (v_PolicyTypes spec) (fun p pt =>
    if String.eqb pt "Ingress" || String.eqb pt "Egress" then [] else [mkFieldError p NotSupported]) ++
  validate_rules "ingress" "from" (v_Ingress spec) ++
  validate_rules "egress" "to" (v_Egress spec).

Definition validateEgressGatewayPolicySpec (spec : EgressGatewayPolicy) : list field_error :=
  each [Child "spec"; Child "destinationCIDRs"] (DestinationCIDRs spec) (fun p c => invalid p (validateCIDR c)) ++
  each [Child "spec"; Child "excludedCIDRs"] (ExcludedCIDRs spec) (fun p c => invalid p (validateCIDR c)) ++
  (if negb (String.eqb (EgressIP spec) "") then
     match ParseIP (EgressIP spec) with None => [mkFieldError [Child "spec"; Child "egressIP"] Other] | Some _ => [] end
   else []).

Definition validateHostRule (path : list path_elem) (rule : HostRule) : list field_error :=
  (if String.eqb (hr_Action rule) "Allow" || String.eqb (hr_Action rule) "Deny" then []
   else [mkFieldError (path ++ [Child "action"]) NotSupported]) ++
  each (path ++ [Child "cidrs"]) (hr_CIDRs rule) (fun p c => invalid p (validateCIDR c)) ++
  each (path ++ [Child "ports"]) (hr_Ports rule) (fun p hp =>
    invalid (p ++ [Child "port"]) (validatePort (hp_Port hp)) ++
    match hp_EndPort hp with
    | Some e => invalid (p ++ [Child "endPort"]) (validatePortRange (hp_Port hp) e)
    | None => []
    end) ++
  match hr_Protocol rule with Some s => invalid (path ++ [Child "protocol"]) (validateProtocol s) | None => [] end.

Definition validateHostEndpointPolicySpec (spec : HostEndpointPolicy) : list field_error :=
  each [Child "spec"; Child "ingress"] (hep_Ingress spec) validateHostRule ++
  each [Child "spec"; Child "egress"] (hep_Egress spec) validateHostRule.

(** * Pools *)

(** An IPPool has the fields of the manager's pool configuration. *)

Definition poolTypes : list string := ["LoadBalancerVIP"; "IngressIP"; "PodCIDR"; "ServiceClusterIP"; "Custom"].

(** The loop over the CIDRs, with the networks parsed so far: an overlap is reported
    once for each of them, and the network joins them all the same. *)
Fixpoint validate_cidrs (i : nat) (parsed : list IPNet) (cidrs : list string) : list field_error :=
  match cidrs with
  | [] => []
  | cidr :: rest =>
      let p := [Child "spec"; Child "cidrs"; Index i] in
      match validateCIDR cidr, ParseCIDR cidr with
      | Some e, _ => mkFieldError p (Invalid e) :: validate_cidrs (S i) parsed rest
      | None, Some (_, ipNet) =>
          ((fun _ => mkFieldError p Other) <$> filter (fun prev => cidrsOverlap ipNet prev = true) parsed) ++
          validate_cidrs (S i) (parsed ++ [ipNet]) rest
      | None, None => validate_cidrs (S i) parsed rest
      end
  end.

Definition validateIPPoolSpec (spec : PoolConfig) : list field_error :=
  (if bool_decide (cfg_type spec ∈ poolTypes) then [] else [mkFieldError [Child "spec"; Child "type"] NotSupported]) ++
  validate_cidrs 0 [] (CIDRs spec) ++
  each [Child "spec"; Child "addresses"] (Addresses spec) (fun p a => invalid p (validateIP a)) ++
  (if (go_len (CIDRs spec) =? 0) && (go_len (Addresses spec) =? 0)
   then [mkFieldError [Child "spec"] Required] else []).

(** * Clusters *)

(** The fields of a NovaNetCluster the webhook reads. *)
Record ClusterSpec := mkClusterSpec {
  cl_ClusterCIDR : string; cl_ClusterCIDRv6 : string; cl_ControlPlaneVIP : string; cl_MTU : option Z;
  cl_WireGuardPort : option Z; cl_MetricsPort : option Z; cl_HealthPort : option Z }.

Definition validateNovanetClusterSpec (spec : ClusterSpec) : list field_error :=
  let net_path f := [Child "spec"; Child "networking"; Child f] in
  let agent f := [Child "spec"; Child "agent"; Child f] in
  invalid (net_path "clusterCIDR") (validateCIDR (cl_ClusterCIDR spec)) ++
  (if negb (String.eqb (cl_ClusterCIDRv6 spec) "")
   then invalid (net_path "clusterCIDRv6") (validateCIDR (cl_ClusterCIDRv6 spec)) else []) ++
  (if negb (String.eqb (cl_ControlPlaneVIP spec) "")
   then invalid (net_path "controlPlaneVIP") (validateIP (cl_ControlPlaneVIP spec)) else []) ++
  match cl_MTU spec with
  | Some mtu => if negb (mtu =? 0) && ((mtu <? 1280) || (mtu >? 9000)) then [mkFieldError (net_path "mtu") Other] else []
  | None => []
  end ++
  match cl_WireGuardPort spec with
  | Some port => if (port <? 1) || (port >? 65535)
                 then [mkFieldError [Child "spec"; Child "encryption"; Child "wireGuardPort"] Other] else []
  | None => []
  end ++
  match cl_MetricsPort spec with Some p => invalid (agent "metricsPort") (validatePort p) | None => [] end ++
  match cl_HealthPort spec with Some p => invalid (agent "healthPort") (validatePort p) | None => [] end.

(** * Networks *)

Lemma unmap_net n : unmapped n -> unmap (net_ip n) = net_ip n.
Proof. unfold unmap. intros [H|H]; [by rewrite To4_len4|by rewrite H]. Qed.

(** A parsed network contains its own address, and two addresses it contains
    agree above the host bits. *)
Lemma Contains_net a aones abits b bones bbits :
  cidr_ok a aones abits -> cidr_ok b bones bbits -> unmapped a -> unmapped b ->
  Contains a (net_ip b) = true <->
  length (net_ip b) = length (net_ip a) /\
  ip_val (net_ip a) / 2 ^ (abits - aones) = ip_val (net_ip b) / 2 ^ (abits - aones).
Proof.
  intros Ha Hb Hua Hub. rewrite (Contains_unmap _ _ _ _ Ha Hua (cidr_wf _ _ _ Hb)). by rewrite unmap_net.
Qed.

Lemma div_coarser x y h k : 0 <= h <= k -> x / 2 ^ h = y / 2 ^ h -> x / 2 ^ k = y / 2 ^ k.
Proof.
  intros Hh H. replace k with (h + (k - h)) by lia. rewrite Z.pow_add_r by lia.
  rewrite <- !Z.div_div by lia. by rewrite H.
Qed.

(** The overlap check of the pool webhook is exact: two networks are reported
    exactly if some address lies in both. *)
Lemma cidrsOverlap_spec a aones abits b bones bbits :
  cidr_ok a aones abits -> cidr_ok b bones bbits -> unmapped a -> unmapped b ->
  cidrsOverlap a b = true <-> exists ip, wf_ip ip /\ Contains a ip = true /\ Contains b ip = true.
Proof.
  intros Ha Hb Hua Hub. unfold cidrsOverlap. rewrite orb_true_iff. split.
  - intros [H|H]; [exists (net_ip b)|exists (net_ip a)]; (split; [by eapply cidr_wf|]); (split; [|try done]);
      try done; [apply (Contains_net b _ _ b _ _ Hb Hb)|apply (Contains_net a _ _ a _ _ Ha Ha)]; done.
  - intros (ip & Hw & H1 & H2).
    apply (Contains_unmap _ _ _ _ Ha Hua Hw) in H1 as [L1 V1]. apply (Contains_unmap _ _ _ _ Hb Hub Hw) in H2 as [L2 V2].
    pose proof (cidr_ones _ _ _ Ha). pose proof (cidr_ones _ _ _ Hb).
    destruct (decide (abits - aones <= bbits - bones)) as [Hle|Hle].
    + right. apply (Contains_net b _ _ a _ _ Hb Ha); [done..|]. split; [congruence|]. rewrite V2. symmetry.
      eapply div_coarser; [|exact V1]. lia.
    + left. apply (Contains_net a _ _ b _ _ Ha Hb); [done..|]. split; [congruence|]. rewrite V1. symmetry.
      eapply div_coarser; [|exact V2]. lia.
Qed.

(** ** The last address *)

Lemma byte_or_facts :
  forallb (fun b => forallb (fun m => Z.lor (Z.land b m) (Z.lxor m 255) =? Z.land b m + (255 - m)) (seqZ 0 256)) (seqZ 0 256) = true.
Proof. vm_compute. reflexivity. Qed.

Lemma byte_or b m : is_byte b -> is_byte m -> Z.lor (Z.land b m) (Z.lxor m 255) = Z.land b m + (255 - m).
Proof.
  intros Hb Hm. pose proof byte_or_facts as H. rewrite forallb_forall in H.
  specialize (H b). rewrite <- list_elem_of_In, elem_of_seqZ in H. specialize (H Hb). rewrite forallb_forall in H.
  specialize (H m). rewrite <- list_elem_of_In, elem_of_seqZ in H. by apply Z.eqb_eq, H.
Qed.

Lemma ip_val_add l : forall k, length l = length k -> ip_val (zip_with Z.add l k) = ip_val l + ip_val k.
Proof.
  unfold ip_val. induction l as [|x l IH]; intros [|y k] Hl; [done..|]. cbn [zip_with].
  rewrite !of_digits_cons, IH by (simpl in *; lia). rewrite length_zip_with. simpl in Hl.
  replace (length l `min` length k)%nat with (length l) by lia. replace (length k) with (length l) by lia. ring.
Qed.

Definition host_bytes (m : list Z) : list Z := (fun b => 255 - b) <$> m.

Lemma host_bytes_0 l : ip_val (host_bytes (mask_bytes l 0)) = 256 ^ Z.of_nat l - 1.
Proof.
  rewrite mask_bytes_0. unfold host_bytes, ip_val. induction l as [|l IH]; [done|].
  cbn [replicate]. rewrite fmap_cons, of_digits_cons, IH, length_fmap, length_replicate.
  rewrite Nat2Z.inj_succ, Z.pow_succ_r by lia. lia.
Qed.

Lemma host_bytes_value l : forall n, 0 <= n <= 8 * Z.of_nat l ->
  ip_val (host_bytes (mask_bytes l n)) = 2 ^ (8 * Z.of_nat l - n) - 1.
Proof.
  induction l as [|l IH]; intros n Hn.
  { by replace n with 0 by lia. }
  unfold host_bytes, ip_val in *. cbn [mask_bytes]. destruct (8 <=? n) eqn:E; to_prop;
    rewrite fmap_cons, of_digits_cons, length_fmap, mask_bytes_length.
  - rewrite IH by lia. replace (8 * Z.of_nat (S l) - n) with (8 * Z.of_nat l - (n - 8)) by lia. lia.
  - pose proof (host_bytes_0 l) as H. unfold host_bytes, ip_val in H. rewrite H, pow256.
    assert (Z.shiftr 255 n = 2 ^ (8 - n) - 1) as Hs.
    { assert (n = 0 \/ n = 1 \/ n = 2 \/ n = 3 \/ n = 4 \/ n = 5 \/ n = 6 \/ n = 7) as Hc by lia.
      by destruct Hc as [->|[->|[->|[->|[->|[->|[->| ->]]]]]]]. }
    replace (255 - (255 - Z.shiftr 255 n)) with (2 ^ (8 - n) - 1) by lia.
    replace (8 * Z.of_nat (S l) - n) with ((8 - n) + 8 * Z.of_nat l) by lia. rewrite Z.pow_add_r by lia. ring.
Qed.

Lemma mask_bytes_bytes l : forall n, 0 <= n <= 8 * Z.of_nat l -> Forall is_byte (mask_bytes l n).
Proof.
  induction l as [|l IH]; intros n Hn; cbn [mask_bytes]; [constructor|].
  destruct (8 <=? n) eqn:E; to_prop; (constructor; [unfold is_byte|apply IH; lia]); [lia|].
  assert (0 <= Z.shiftr 255 n <= 255); [|lia]. rewrite Z.shiftr_div_pow2 by lia.
  split; [apply Z.div_pos; lia|]. apply Z.div_le_upper_bound; [lia|]. assert (0 < 2 ^ n) by lia. nia.
Qed.

Lemma last_masked a m :
  Forall is_byte a -> Forall is_byte m -> length a = length m ->
  zip_with (fun b m => Z.lor b (Z.lxor m 255)) (zip_with Z.land a m) m = zip_with Z.add (zip_with Z.land a m) (host_bytes m).
Proof.
  intros Ha. revert m. induction Ha as [|x a Hx _ IH]; intros [|y m] Hm Hl; [done..|].
  apply Forall_cons in Hm as [Hy Hm]. unfold host_bytes. rewrite fmap_cons. cbn [zip_with].
  rewrite byte_or by done. f_equal. apply IH; [done|]. simpl in Hl. lia.
Qed.

Lemma byte_lor_range :
  forallb (fun b => forallb (fun m => (0 <=? Z.lor b (Z.lxor m 255)) && (Z.lor b (Z.lxor m 255) <? 256)) (seqZ 0 256)) (seqZ 0 256) = true.
Proof. vm_compute. reflexivity. Qed.

Lemma last_bytes a m : Forall is_byte a -> Forall is_byte m -> Forall is_byte (zip_with (fun b m => Z.lor b (Z.lxor m 255)) a m).
Proof.
  intros Ha. revert m. induction Ha as [|x a Hx _ IH]; intros [|y m] Hm; [constructor..|].
  apply Forall_cons in Hm as [Hy Hm]. cbn [zip_with]. constructor; [|by apply IH].
  pose proof byte_lor_range as H. rewrite forallb_forall in H.
  specialize (H x). rewrite <- list_elem_of_In, elem_of_seqZ in H. specialize (H Hx). rewrite forallb_forall in H.
  specialize (H y). rewrite <- list_elem_of_In, elem_of_seqZ in H. specialize (H Hy). to_prop. unfold is_byte. lia.
Qed.

(** The last address of a network is its own plus all ones in the host bits. *)
Lemma lastAddr_value n ones bits :
  cidr_ok n ones bits ->
  ip_val (lastAddr n) = ip_val (net_ip n) + 2 ^ (bits - ones) - 1 /\
  length (lastAddr n) = length (net_ip n) /\ Forall is_byte (lastAddr n).
Proof.
  intros Hc. pose proof Hc as [Hb Hl Hby Ho Hm [q Hq]]. set (l := length (net_ip n)) in *.
  assert (mask_ip (net_ip n) (mask_bytes l ones) = net_ip n) as Hmask.
  { apply ip_val_inj; [apply mask_bytes_byte; auto; lia|done| |].
    - unfold mask_ip. rewrite length_zip_with, mask_bytes_length. unfold l. lia.
    - rewrite mask_value by (done || lia). rewrite <- Hb, Hq, Z.div_mul; [done|]. apply Z.pow_nonzero; lia. }
  unfold lastAddr. rewrite Hm.
  assert (zip_with (fun b m => Z.lor b (Z.lxor m 255)) (net_ip n) (mask_bytes l ones)
          = zip_with Z.add (net_ip n) (host_bytes (mask_bytes l ones))) as E.
  { rewrite <- Hmask at 1 2. apply last_masked; [done|apply mask_bytes_bytes; lia|by rewrite mask_bytes_length]. }
  rewrite E. split; [|split].
  - rewrite ip_val_add by (unfold host_bytes; by rewrite length_fmap, mask_bytes_length).
    rewrite host_bytes_value, <- Hb by lia. lia.
  - unfold host_bytes. rewrite length_zip_with, length_fmap, mask_bytes_length. unfold l. lia.
  - rewrite <- E. apply last_bytes; [done|apply mask_bytes_bytes; lia].
Qed.

(** The containment check of the policy webhook is exact, as long as the last
    address of the exception is not the IPv4-mapped 255.255.255.255: an exception
    passes exactly if every address of it lies in the block. *)
Lemma cidrContains_spec p pones pbits c cones cbits :
  cidr_ok p pones pbits -> cidr_ok c cones cbits -> unmapped p -> unmapped c -> unmap (lastAddr c) = lastAddr c ->
  cidrContains p c = true <-> forall ip, wf_ip ip -> Contains c ip = true -> Contains p ip = true.
Proof.
  intros Hp Hc Hup Huc Hul. pose proof (cidr_wf _ _ _ Hc) as Hwc.
  destruct (lastAddr_value _ _ _ Hc) as (Hv & Hl & Hby).
  assert (wf_ip (lastAddr c)) as Hwl by (destruct (cidr_len _ _ _ Hc); split; [left; congruence|done|right; congruence|done]).
  pose proof (cidr_aligned _ _ _ Hc) as [q Hq]. pose proof (cidr_ones _ _ _ Hc). pose proof (cidr_ones _ _ _ Hp).
  set (h := cbits - cones) in *. set (k := pbits - pones) in *.
  assert (0 < 2 ^ h) by (apply Z.pow_pos_nonneg; lia). assert (0 < 2 ^ k) by (apply Z.pow_pos_nonneg; lia).
  assert (forall ip, wf_ip ip -> Contains c ip = true <-> length (unmap ip) = length (net_ip c) /\ ip_val (net_ip c) / 2 ^ h = ip_val (unmap ip) / 2 ^ h) as HC
    by (intros; by apply Contains_unmap).
  assert (forall ip, wf_ip ip -> Contains p ip = true <-> length (unmap ip) = length (net_ip p) /\ ip_val (net_ip p) / 2 ^ k = ip_val (unmap ip) / 2 ^ k) as HP
    by (intros; by apply Contains_unmap).
  assert (cidrContains p c = true <-> Contains p (net_ip c) = true /\ Contains p (lastAddr c) = true) as ->.
  { unfold cidrContains. destruct (Contains p (net_ip c)); naive_solver. }
  split.
  - intros [Ha Hz] ip Hw Hi. apply HP in Ha as [L1 V1]; [|done]. apply HP in Hz as [L2 V2]; [|done].
    apply HC in Hi as [L3 V3]; [|done]. rewrite unmap_net in * by done. rewrite Hul in *. apply HP; [done|].
    split; [congruence|].
    assert (h <= k) as Hhk.
    { destruct (decide (h <= k)) as [|Hgt]; [done|exfalso].
      assert (2 ^ h = 2 ^ (h - k) * 2 ^ k) as E by (rewrite <- Z.pow_add_r; [f_equal|..]; lia).
      assert (2 <= 2 ^ (h - k)) by (replace (h - k) with (1 + (h - k - 1)) by lia; rewrite Z.pow_add_r by lia;
        pose proof (Z.pow_pos_nonneg 2 (h - k - 1)); lia).
      rewrite V1 in V2. rewrite Hv, Hq, E in V2.
      rewrite Z.mul_assoc, Z.div_mul in V2 by lia.
      replace (q * 2 ^ (h - k) * 2 ^ k + 2 ^ (h - k) * 2 ^ k - 1) with ((q * 2 ^ (h - k) + 2 ^ (h - k) - 1) * 2 ^ k + (2 ^ k - 1)) in V2 by ring.
      rewrite Z.div_add_l, (Z.div_small (2 ^ k - 1)) in V2 by lia. lia. }
    rewrite V1. eapply div_coarser; [|exact V3]. lia.
  - intros Hall. split; apply Hall; [done| |done|]; apply HC; try done.
    + by rewrite unmap_net.
    + rewrite Hul. split; [done|]. rewrite Hv, Hq, Z.div_mul by lia.
      replace (q * 2 ^ h + 2 ^ h - 1) with (q * 2 ^ h + (2 ^ h - 1)) by lia.
      rewrite Z.div_add_l, Z.div_small by lia. lia.
Qed.

(** An exception that is refused although the block contains it. *)
Lemma mapped_last_address_refused :
  validateIPBlock [] (mkIPBlock "::/64" ["::/80"]) = [mkFieldError [Child "except"; Index 0] Other].
Proof. vm_compute. reflexivity. Qed.

(** * What admission guarantees *)

Lemma join_nil {A} (ls : list (list A)) : mjoin ls = [] <-> Forall (fun l => l = []) ls.
Proof.
  induction ls as [|l ls IH]; simpl; [by split|]. rewrite Forall_cons, <- IH. split; [apply app_eq_nil|].
  by intros [-> ->].
Qed.

Lemma each_nil {A} path (l : list A) f :
  each path l f = [] <-> forall i x, l !! i = Some x -> f (path ++ [Index i]) x = [].
Proof.
  unfold each. rewrite join_nil, Forall_lookup. setoid_rewrite list_lookup_imap. setoid_rewrite fmap_Some. naive_solver.
Qed.

Lemma app_nil_iff {A} (l k : list A) : l ++ k = [] <-> l = [] /\ k = [].
Proof. split; [apply app_eq_nil|by intros [-> ->]]. Qed.

Lemma invalid_nil path e : invalid path e = [] <-> e = None.
Proof. by destruct e. Qed.

Lemma validatePort_None n : validatePort n = None <-> 1 <= n <= 65535.
Proof. unfold validatePort. destruct (_ || _) eqn:E; rewrite ?Z.gtb_ltb in E; to_prop; split; try done; lia. Qed.

Lemma validatePortRange_None n e : validatePortRange n e = None <-> 1 <= n /\ n <= e /\ e <= 65535.
Proof.
  unfold validatePortRange. pose proof (validatePort_None n). pose proof (validatePort_None e).
  destruct (validatePort n), (validatePort e); [split; [done|]..|].
  - intros. assert (1 <= n <= 65535) by lia. naive_solver.
  - intros. assert (1 <= n <= 65535) by lia. naive_solver.
  - intros. assert (1 <= e <= 65535) by lia. naive_solver.
  - assert (1 <= n <= 65535) by naive_solver. assert (1 <= e <= 65535) by naive_solver.
    destruct (e <? n) eqn:E; to_prop; split; try done; lia.
Qed.

Lemma validateCIDR_parses c : validateCIDR c = None -> exists ip n, ParseCIDR c = Some (ip, n).
Proof. unfold validateCIDR. destruct (ParseCIDR c) as [[ip n]|]; [eauto|done]. Qed.

(** A compiled host rule says what a rule of the policy says. *)
Definition host_rule_says (rule : HostRule) (r : CompiledHostRule) : Prop :=
  hc_Action r = (if String.eqb (hr_Action rule) "Allow" then ActionAllow else ActionDeny) /\
  hc_Protocol r = convertProtocol (hr_Protocol rule) /\
  ((hr_CIDRs rule = [] /\ hc_CIDR r = all_net) \/
   exists c ip, c ∈ hr_CIDRs rule /\ ParseCIDR c = Some (ip, hc_CIDR r)) /\
  ((hr_Ports rule = [] /\ hc_Port r = 0 /\ hc_EndPort r = 0) \/
   exists hp, hp ∈ hr_Ports rule /\ hc_Port r = hp_Port hp /\ hc_EndPort r = default 0 (hp_EndPort hp)).

Lemma parseCIDRs_ok l : Forall (fun c => validateCIDR c = None) l -> exists ns, parseCIDRs l = Ok ns /\
  length ns = length l /\ forall n, n ∈ ns -> exists c ip, c ∈ l /\ ParseCIDR c = Some (ip, n).
Proof.
  induction 1 as [|c l Hc _ (ns & E & Hl & H)]; [exists []; split_and!; [done..|]; by intros n Hn%elem_of_nil|].
  destruct (validateCIDR_parses c Hc) as (ip & n & Ec). exists (n :: ns). cbn. rewrite Ec, E.
  split_and!; [done|simpl; lia|]. intros n' [->|Hn]%elem_of_cons.
  - exists c, ip. split; [left|done].
  - destruct (H n' Hn) as (c' & ip' & ? & ?). exists c', ip'. split; [by right|done].
Qed.

Lemma int32ToUint16_id n : 0 <= n <= 65535 -> int32ToUint16 n = n.
Proof.
  intros H. unfold int32ToUint16. destruct (_ || _) eqn:E; rewrite ?Z.gtb_ltb in E; unfold MaxUint16 in *; to_prop; [lia|].
  change 65535 with (Z.ones 16). rewrite Z.land_ones by lia. unfold wrap16. rewrite Z.mod_mod, Z.mod_small; lia.
Qed.

Lemma expand_port_ok hp :
  validatePort (hp_Port hp) = None ->
  (forall e, hp_EndPort hp = Some e -> validatePortRange (hp_Port hp) e = None) ->
  expand_port hp = [mkPortRange (hp_Port hp) (default 0 (hp_EndPort hp))].
Proof.
  intros Hp He. apply validatePort_None in Hp. unfold expand_port.
  destruct (_ || _) eqn:E; rewrite ?Z.gtb_ltb in E; unfold MaxUint16 in *; to_prop; [lia|].
  rewrite int32ToUint16_id by lia. do 2 f_equal. destruct (hp_EndPort hp) as [e|]; [|done].
  specialize (He e eq_refl). apply validatePortRange_None in He.
  destruct (_ && _) eqn:E2; to_prop; [|lia]. cbn. apply int32ToUint16_id. lia.
Qed.

Lemma expandPorts_ok ports :
  Forall (fun hp => validatePort (hp_Port hp) = None /\
                    forall e, hp_EndPort hp = Some e -> validatePortRange (hp_Port hp) e = None) ports ->
  expandPorts ports = (fun hp => mkPortRange (hp_Port hp) (default 0 (hp_EndPort hp))) <$> ports.
Proof.
  unfold expandPorts. induction 1 as [|hp ports [Hp He] _ IH]; [done|].
  rewrite bind_cons, fmap_cons, IH, expand_port_ok by done. done.
Qed.

(** An admitted rule, taken apart. *)
Lemma validateHostRule_nil path rule :
  validateHostRule path rule = [] ->
  (hr_Action rule = "Allow" \/ hr_Action rule = "Deny") /\ Forall (fun c => validateCIDR c = None) (hr_CIDRs rule) /\
  Forall (fun hp => validatePort (hp_Port hp) = None /\
                    forall e, hp_EndPort hp = Some e -> validatePortRange (hp_Port hp) e = None) (hr_Ports rule).
Proof.
  unfold validateHostRule. rewrite !app_nil_iff, !each_nil. intros (Ha & Hc & Hp & _). split_and!.
  - destruct (_ || _) eqn:E; [|done]. by to_prop.
  - apply Forall_lookup. intros i c Hi. apply Hc in Hi. by apply invalid_nil in Hi.
  - apply Forall_lookup. intros i hp Hi. apply Hp in Hi. apply app_nil_iff in Hi as [H1 H2]. apply invalid_nil in H1.
    split; [done|]. intros e He. rewrite He in H2. by apply invalid_nil in H2.
Qed.

Lemma expand_rule_admitted name dir path rule :
  validateHostRule path rule = [] ->
  exists l, expand_rule name dir rule = Ok l /\ forall f i, f ∈ l -> host_rule_says rule (f i).
Proof.
  intros (Ha & Hc & Hp)%validateHostRule_nil. unfold expand_rule.
  assert (convertAction (hr_Action rule) = Ok (if String.eqb (hr_Action rule) "Allow" then ActionAllow else ActionDeny)) as ->
    by (unfold convertAction; by destruct Ha as [-> | ->]).
  destruct (parseCIDRs_ok _ Hc) as (ns & -> & Hlen & Hns). rewrite (expandPorts_ok _ Hp).
  eexists. split; [done|].
  intros f i (c & (pr & -> & Hpr)%list_elem_of_fmap & Hcin)%list_elem_of_bind. unfold host_rule_says. cbn.
  split; [done|]. split; [done|]. split.
  - destruct (go_len ns =? 0) eqn:E; to_prop.
    + apply list_elem_of_singleton in Hcin as ->. left. split; [|done]. destruct (hr_CIDRs rule); [done|].
      destruct ns; done.
    + right. by apply Hns.
  - destruct (go_len _ =? 0) eqn:E; to_prop.
    + apply list_elem_of_singleton in Hpr as ->. left. by destruct (hr_Ports rule).
    + right. apply list_elem_of_fmap in Hpr as (hp & -> & Hhp). by exists hp.
Qed.

Lemma elem_of_number idx l r : r ∈ number idx l -> exists f i, f ∈ l /\ r = f i.
Proof.
  revert idx. induction l as [|f l IH]; intros idx; cbn [number]; [by intros H%elem_of_nil|].
  intros [->|H]%elem_of_cons; [exists f, idx; split; [left|done]|].
  apply IH in H as (g & i & ? & ->). exists g, i. split; [by right|done].
Qed.

Lemma compile_from_admitted name dir rules : forall idx,
  Forall (fun rule => exists path, validateHostRule path rule = []) rules ->
  exists l, compile_from idx name dir rules = Ok l /\ forall r, r ∈ l -> exists rule, rule ∈ rules /\ host_rule_says rule r.
Proof.
  induction rules as [|rule rules IH]; intros idx Hr; cbn [compile_from].
  - exists []. split; [done|]. by intros r H%elem_of_nil.
  - apply Forall_cons in Hr as [[path Hp] Hr]. destruct (expand_rule_admitted name dir path rule Hp) as (l & -> & Hl).
    destruct (IH (idx + go_len l) Hr) as (l' & -> & Hl'). eexists. split; [done|].
    intros r [(f & i & Hf & ->)%elem_of_number|H]%elem_of_app.
    + exists rule. split; [left|by apply Hl].
    + destruct (Hl' r H) as (rule' & ? & ?). exists rule'. split; [by right|done].
Qed.

(** A HostEndpointPolicy the webhook admits compiles, and every compiled rule says
    what one of its rules says: its action and protocol, one of its networks, and one
    of its port ranges as written; only a rule without ports matches any port. *)
Theorem admitted_host_policy_compiles p :
  validateHostEndpointPolicySpec p = [] ->
  exists l, CompileHostPolicy (Some p) = Ok l /\
    forall r, r ∈ l -> exists rule, rule ∈ hep_Ingress p ++ hep_Egress p /\ host_rule_says rule r.
Proof.
  unfold validateHostEndpointPolicySpec. rewrite app_nil_iff, !each_nil. intros [Hi He].
  destruct (compile_from_admitted (hep_Name p) DirectionIngress (hep_Ingress p) 0) as (li & Ei & Hli).
  { apply Forall_lookup. intros i rule H%Hi. eauto. }
  destruct (compile_from_admitted (hep_Name p) DirectionEgress (hep_Egress p) 0) as (le & Ee & Hle).
  { apply Forall_lookup. intros i rule H%He. eauto. }
  cbn [CompileHostPolicy]. unfold compileRules. rewrite Ei, Ee. eexists. split; [done|].
  setoid_rewrite elem_of_app. intros r [(rule & ? & ?)%Hli|(rule & ? & ?)%Hle]; eauto.
Qed.

Lemma admitted_host_policy_compiles_witness :
  exists l, CompileHostPolicy (Some ssh_policy) = Ok l /\
    forall r, r ∈ l -> exists rule, rule ∈ hep_Ingress ssh_policy ++ hep_Egress ssh_policy /\ host_rule_says rule r.
Proof. apply (admitted_host_policy_compiles ssh_policy). vm_compute. reflexivity. Defined.

(** The webhook compares protocols without regard to case, the compilers do not: an
    admitted spelling other than TCP, UDP and SCTP turns a host rule into one for
    every protocol, and a port of a NovaNetworkPolicy into a TCP port. *)
Theorem protocol_spelling_changes_rule s port path name dir :
  validateProtocol s = None -> s ∉ validProtocols -> 1 <= port <= 65535 ->
  (let rule := mkHostRule "Allow" (Some s) [] [mkHostPort port None] in
   validateHostRule path rule = [] /\
   expand_rule name dir rule = Ok [fun idx => mkCompiledHost (ruleID name dir idx) dir ProtocolAny all_net port 0 ActionAllow name]) /\
  (let np := mkNPort (Some s) (Some port) None in
   validateNetworkPolicyPorts path [np] = [] /\ resolveExtendedPorts [np] = Val [mkPP ProtocolTCP port]).
Proof.
  intros Hs Hn Hp. assert (s <> "TCP" /\ s <> "UDP" /\ s <> "SCTP") as (H1 & H2 & H3).
  { unfold validProtocols in Hn. rewrite !not_elem_of_cons in Hn. naive_solver. }
  apply String.eqb_neq in H1, H2, H3. assert (validatePort port = None) as Hv by (by apply validatePort_None).
  split; cbv zeta; split.
  - unfold validateHostRule, each. cbn. by rewrite Hv, Hs.
  - unfold expand_rule. cbn [convertAction hr_Action hr_CIDRs parseCIDRs hr_Ports hr_Protocol].
    rewrite (expandPorts_ok [mkHostPort port None]) by (constructor; [split; done|constructor]).
    cbn. unfold convertProtocol. by rewrite H1, H2, H3.
  - unfold validateNetworkPolicyPorts, each. cbn. by rewrite Hv, Hs.
  - cbn [resolveExtendedPorts]. unfold resolve_port. cbn. rewrite H1, H2, H3.
    destruct (_ || _) eqn:E; unfold MaxUint16 in *; to_prop; [lia|]. cbn. do 3 f_equal.
    change 65535 with (Z.ones 16). rewrite Z.land_ones, Z.mod_small; lia.
Qed.

Lemma protocol_spelling_changes_rule_witness :
  resolveExtendedPorts [mkNPort (Some "udp") (Some 53) None] = Val [mkPP ProtocolTCP 53].
Proof.
  apply (protocol_spelling_changes_rule "udp" 53 [] "" DirectionIngress); [reflexivity| |lia].
  unfold validProtocols. rewrite !not_elem_of_cons. split_and!; try discriminate. apply not_elem_of_nil.
Defined.

(** The webhook admits a NovaNetworkPolicy that the extended compiler never finishes
    with, whatever the identities, the selectors and the answers of the resolver. *)
Theorem admitted_policy_hangs_compiler : exists nnp,
  validateNovaNetworkPolicySpec nnp = [] /\
  forall (MI : MapIter) (DE : DnsEnv) as_selector allocated namespaceResolver s, dns_inv (dnsCache s) ->
    CompileExtended as_selector allocated namespaceResolver (Some nnp) s = Diverge.
Proof.
  exists ephemeral. split; [vm_compute; reflexivity|]. intros MI DE as_selector allocated nr s Hs.
  apply (top_port_range_never_compiles as_selector allocated nr ephemeral
           (mkNRule [] [mkNPort (Some "TCP") (Some 65500) (Some 65535)]) (mkNPort (Some "TCP") (Some 65500) (Some 65535)));
    [reflexivity|left|left| |done].
  exists 65500. split; [done|]. split; [done|]. unfold MaxUint16, maxExpandablePortRange. lia.
Qed.

(** * Pools *)

Lemma validate_cidrs_nil cidrs : forall i parsed,
  validate_cidrs i parsed cidrs = [] ->
  exists ns, Forall2 (fun c n => exists ip, ParseCIDR c = Some (ip, n)) cidrs ns /\
    forall j k a b, (parsed ++ ns) !! j = Some a -> (parsed ++ ns) !! k = Some b -> (j < k)%nat ->
      (length parsed <= k)%nat -> cidrsOverlap b a = false.
Proof.
  induction cidrs as [|c cidrs IH]; intros i parsed; cbn [validate_cidrs].
  - intros _. exists []. split; [constructor|]. rewrite app_nil_r. intros j k a b _ Hk%lookup_lt_Some. lia.
  - destruct (validateCIDR c) eqn:Ec; [done|]. destruct (validateCIDR_parses c Ec) as (ip & n & E). rewrite E.
    intros [Ho Hrest]%app_nil_iff. destruct (IH _ _ Hrest) as (ns & Hns & Hd). exists (n :: ns).
    split; [constructor; eauto|]. intros j k a b Hj Hk Hjk Hle.
    rewrite <- app_assoc in Hd. cbn in Hd. destruct (decide (length parsed = k)) as [<-|Hne].
    + rewrite lookup_app_r, Nat.sub_diag in Hk by lia. cbn in Hk. simplify_eq.
      rewrite lookup_app_l in Hj by lia. apply list_elem_of_lookup_2 in Hj.
      destruct (cidrsOverlap b a) eqn:Ea; [exfalso|done]. apply fmap_nil_inv in Ho.
      assert (a ∈ filter (fun prev => cidrsOverlap b prev = true) parsed) as Hin by (by apply list_elem_of_filter).
      rewrite Ho in Hin. by apply elem_of_nil in Hin.
    + apply (Hd j k); [done|done|done|]. rewrite length_app. simpl. lia.
Qed.

(** In a pool the webhook admits, every CIDR parses and no address lies in two of
    them (networks written as IPv4-mapped IPv6 set aside). *)
Theorem admitted_pool_disjoint spec :
  validateIPPoolSpec spec = [] ->
  exists ns, Forall2 (fun c n => exists ip, ParseCIDR c = Some (ip, n)) (CIDRs spec) ns /\
    forall j k a b ip, ns !! j = Some a -> ns !! k = Some b -> j <> k -> unmapped a -> unmapped b ->
      wf_ip ip -> ~ (Contains a ip = true /\ Contains b ip = true).
Proof.
  unfold validateIPPoolSpec. rewrite !app_nil_iff. intros (_ & Hc & _).
  destruct (validate_cidrs_nil _ _ _ Hc) as (ns & Hns & Hd). exists ns. split; [done|].
  assert (forall j n, ns !! j = Some n -> exists ones bits, cidr_ok n ones bits) as Hok.
  { intros j n Hj. destruct (Forall2_lookup_r _ _ _ _ _ Hns Hj) as (c & _ & ip & E).
    destruct (ParseCIDR_ok _ _ _ E) as (_ & o & b & ? & _). eauto. }
  assert (forall j k a b ip, ns !! j = Some a -> ns !! k = Some b -> (j < k)%nat -> unmapped a -> unmapped b ->
            wf_ip ip -> ~ (Contains a ip = true /\ Contains b ip = true)) as Hlt.
  { intros j k a b ip Hj Hk Hjk Ha Hb Hw [H1 H2]. destruct (Hok _ _ Hj) as (? & ? & Hoa), (Hok _ _ Hk) as (? & ? & Hob).
    specialize (Hd j k a b Hj Hk Hjk ltac:(simpl; lia)).
    assert (cidrsOverlap b a = true) as H; [|congruence]. apply (cidrsOverlap_spec _ _ _ _ _ _ Hob Hoa Hb Ha). eauto. }
  intros j k a b ip Hj Hk Hne Ha Hb Hw [H1 H2]. destruct (decide (j < k)%nat).
  - by apply (Hlt j k a b ip).
  - apply (Hlt k j b a ip); [done|done|lia|done..].
Qed.

Lemma admitted_pool_disjoint_witness :
  exists ns, Forall2 (fun c n => exists ip, ParseCIDR c = Some (ip, n)) ["10.0.0.0/24"; "10.0.1.0/24"] ns /\
    forall j k a b ip, ns !! j = Some a -> ns !! k = Some b -> j <> k -> unmapped a -> unmapped b ->
      wf_ip ip -> ~ (Contains a ip = true /\ Contains b ip = true).
Proof.
  apply (admitted_pool_disjoint (mkConfig "lb" "Custom" ["10.0.0.0/24"; "10.0.1.0/24"] [] true "ops")).
  vm_compute. reflexivity.
Defined.

(** A single address is not compared with the CIDRs: the webhook admits a pool from
    which one address is granted to two owners. *)
Theorem admitted_pool_grants_twice : exists cfg od m0 m1 m2,
  validateIPPoolSpec cfg = [] /\ RegisterPool NewManager cfg = Val (m0, Ok tt) /\
  grpc_Allocate m0 od [] "lb" "" "svc-a" "r" 1 = Val (m1, Ok ("10.0.0.0", "lb")) /\
  grpc_AllocateSpecific m1 "lb" "10.0.0.0" "svc-b" "r" 2 = Val (m2, Ok tt).
Proof.
  destruct overlapping_address_allocated_twice as (m0 & m1 & m2 & _ & _ & H0 & H1 & H2 & _).
  eexists _, _, m0, m1, m2. split; [|split; [exact H0|split; [exact H1|exact H2]]]. vm_compute. reflexivity.
Qed.
