(* ===== verification/RemoteSync.v ===== *)
(** Remote endpoints: internal/agent/remotesync/sync.go.  Every agent watches the
    pods of the cluster and writes those of the other nodes to its dataplane, so
    that the kernel programs find an identity for their addresses.  The informer
    is the sequence of objects its handlers get. *)

From Stdlib Require Import ZArith Lia Ascii String.
From stdpp Require Import base tactics list gmap strings fin_maps.
From S2P Require Import Prelude GoStrings GoMap GoNet GoCidr RustNet Constants IpamAllocator Identity EbpfMaps EbpfHelpers Dataplane.
From S2P Require Import PolicyCompiler PolicyEnforcement DpClient EgressManager AgentServer AgentProps.

(** * Handlers *)

(** What the handlers read of a pod. *)
Record Pod := mkPod {
  pod_Name : string; pod_Namespace : string; pod_Labels : labels;
  pod_NodeName : string; pod_PodIP : string; pod_HostIP : string }.

(** An object of the informer: a pod, a [DeletedFinalStateUnknown] that may
    hold one, or something else. *)
Inductive informer_obj := ObjPod (p : Pod) | ObjTombstone (p : option Pod) | ObjOther.

Inductive pod_event := PodAdd (o : informer_obj) | PodUpdate (o : informer_obj) | PodDelete (o : informer_obj).

(** The dataplane, and the number the gauge shows. *)
Record sync_state := mkSync { rs_dp : dpc; remoteCount : Z }.

Definition remote_labels (p : Pod) : labels := <["novanet.io/namespace" := pod_Namespace p]> (pod_Labels p).

Section Sync.
Context {DN : DpNet} (selfNode : string).

Definition upsertRemoteEndpoint (p : Pod) (d : dpc) : dpc * bool :=
  match ParseIP (pod_PodIP p) with
  | None => (d, false)
  | Some podIP =>
      match ParseIP (pod_HostIP p) with
      | None => (d, false)
      | Some hostIP =>
          let identityID := HashLabels (remote_labels p) in
          rpc (fun t => upsert_endpoint t (mkEndpointReq (ip_string podIP) 0 [0; 0; 0; 0; 0; 0]
            (wire_identity identityID) (ip_string hostIP))) d
      end
  end.

Definition deleteRemoteEndpoint (p : Pod) (d : dpc) : dpc * bool :=
  match ParseIP (pod_PodIP p) with
  | None => (d, false)
  | Some podIP => rpc (fun t => delete_endpoint t (ip_string podIP)) d
  end.

Definition skipped (p : Pod) : bool := String.eqb (pod_NodeName p) selfNode || String.eqb (pod_PodIP p) "".

Definition onAdd (o : informer_obj) (s : sync_state) : sync_state :=
  match o with
  | ObjPod p =>
      if skipped p then s
      else
        let '(d, ok) := upsertRemoteEndpoint p (rs_dp s) in
        mkSync d (if ok then remoteCount s + 1 else remoteCount s)
  | _ => s
  end.

Definition onUpdate (o : informer_obj) (s : sync_state) : sync_state :=
  match o with
  | ObjPod p => if skipped p then s else mkSync (upsertRemoteEndpoint p (rs_dp s)).1 (remoteCount s)
  | _ => s
  end.

Definition onDelete (o : informer_obj) (s : sync_state) : sync_state :=
  match (match o with ObjPod p => Some p | ObjTombstone p => p | ObjOther => None end) with
  | None => s
  | Some p =>
      if skipped p then s
      else
        let '(d, ok) := deleteRemoteEndpoint p (rs_dp s) in
        mkSync d (if ok then (if remoteCount s - 1 <? 0 then 0 else remoteCount s - 1) else remoteCount s)
  end.

Definition sync_event (s : sync_state) (ev : pod_event) : sync_state :=
  match ev with PodAdd o => onAdd o s | PodUpdate o => onUpdate o s | PodDelete o => onDelete o s end.

(** [StartRemoteEndpointSync]: the handlers run one after the other. *)
Definition StartRemoteEndpointSync (events : list pod_event) (d : dpc) : sync_state :=
  foldl sync_event (mkSync d 0) events.

(** * Lemmas *)

Lemma ip_string_v4 ip p4 : wf_ip ip -> To4 ip = Some p4 -> ip_string ip = fmt_ipv4 p4.
Proof.
  intros Hw H4. unfold ip_string. rewrite H4. destruct (go_len ip =? 0) eqn:E; [|done].
  exfalso. destruct Hw as [[Hlen|Hlen] _]; unfold go_len in E; to_prop; lia.
Qed.

Definition v4 (b : list Z) : Prop := length b = 4%nat /\ Forall is_byte b.

Lemma ParseIP_v4 b : v4 b -> exists ip, ParseIP (fmt_ipv4 b) = Some ip /\ parse_ip (ip_string ip) = Some (V4 (ip_val b)).
Proof.
  intros [Hl Hb]. assert (wf_ip b) as Hw by (split; [by left|done]).
  rewrite <- (ip_string_v4 b b Hw) by by rewrite To4_len4. rewrite ParseIP_ip_string by done.
  rewrite To16_len4 by done. eexists. split; [reflexivity|]. apply parse_ip_string.
  - split; [right; rewrite length_app, Hl; done|]. apply Forall_app. split; [apply v4InV6Prefix_bytes|done].
  - rewrite To4_len16 by (rewrite length_app, Hl; done). by rewrite bool_decide_true, drop_app_length' by done.
Qed.

(** A pod with IPv4 addresses, as the kubelet prints them. *)
Definition pod_at (p : Pod) (p4 h4 : list Z) : Prop :=
  v4 p4 /\ v4 h4 /\ pod_PodIP p = fmt_ipv4 p4 /\ pod_HostIP p = fmt_ipv4 h4.

(** The entry of the table of endpoints for a pod of another node. *)
Definition remote_value (p : Pod) (h4 : list Z) : EndpointValue :=
  mkEndpointValue 0 [0; 0; 0; 0; 0; 0] (wire_identity (HashLabels (remote_labels p))) (ip_val h4).

Lemma upsert_remote p p4 h4 d d' :
  pod_at p p4 h4 -> upsertRemoteEndpoint p d = (d', true) ->
  ENDPOINTS (dp_tables d') = <[ip_val p4 := remote_value p h4]> (ENDPOINTS (dp_tables d)).
Proof.
  intros (Hp & Hh & Ep & Eh). unfold upsertRemoteEndpoint. rewrite Ep, Eh.
  destruct (ParseIP_v4 p4 Hp) as (ip & -> & Hip), (ParseIP_v4 h4 Hh) as (hip & -> & Hhip).
  intros [-> H]%rpc_true. unfold upsert_endpoint in *. cbn [er_mac er_ip er_node_ip length Nat.eqb negb] in *.
  rewrite Hip, Hhip in *. unfold hash_insert in *. destruct (ENDPOINTS _ !! _); [done|]. by destruct (_ <? _).
Qed.

Section Delivered.
Hypothesis Hnet : forall k, dp_net k = Delivered.

Lemma upsert_remote_delivered p p4 h4 d :
  pod_at p p4 h4 ->
  is_Some (ENDPOINTS (dp_tables d) !! ip_val p4) \/ Z.of_nat (size (ENDPOINTS (dp_tables d))) < MAX_ENDPOINTS ->
  (upsertRemoteEndpoint p d).2 = true.
Proof.
  intros (Hp & Hh & Ep & Eh) Hroom. unfold upsertRemoteEndpoint. rewrite Ep, Eh.
  destruct (ParseIP_v4 p4 Hp) as (ip & -> & Hip), (ParseIP_v4 h4 Hh) as (hip & -> & Hhip).
  unfold rpc, upsert_endpoint. rewrite Hnet. cbn [er_mac er_ip er_node_ip length Nat.eqb negb].
  rewrite Hip, Hhip. unfold hash_insert. destruct Hroom as [[v ->]|Hr]; [done|].
  destruct (ENDPOINTS _ !! _); [done|]. by rewrite (proj2 (Z.ltb_lt _ _) Hr).
Qed.

Lemma delete_remote p p4 h4 d :
  pod_at p p4 h4 -> ENDPOINTS (dp_tables (deleteRemoteEndpoint p d).1) = delete (ip_val p4) (ENDPOINTS (dp_tables d)).
Proof.
  intros (Hp & _ & Ep & _). unfold deleteRemoteEndpoint. rewrite Ep. destruct (ParseIP_v4 p4 Hp) as (ip & -> & Hip).
  unfold rpc, delete_endpoint. rewrite Hnet, Hip. unfold hash_remove.
  destruct (ENDPOINTS _ !! _) eqn:E; [done|]. cbn. by rewrite delete_id.
Qed.
End Delivered.
End Sync.

(** * The cluster *)

(** The pods of the cluster by namespace and name. *)
Abbreviation cluster := (gmap (string * string) Pod).
Definition pod_id (p : Pod) : string * string := (pod_Namespace p, pod_Name p).

Section Cluster.
Context {DN : DpNet} (self : string) (base : gmap Z EndpointValue).

(** No other pod has the address of a pod, and the entries [base] of the node's
    own pods do not have the address of a pod of another node. *)
Definition own_address (c : cluster) (p : Pod) : Prop :=
  (pod_PodIP p = "" \/ exists p4 h4, pod_at p p4 h4) /\
  (forall k q, c !! k = Some q -> k <> pod_id p -> pod_PodIP p <> "" -> pod_PodIP q <> pod_PodIP p) /\
  (pod_NodeName p <> self -> forall p4 h4, pod_at p p4 h4 -> base !! ip_val p4 = None).

(** The entry that a pod calls for, none for a pod of the node itself or one
    without an address. *)
Definition addr4 (s : string) : option Z := match parse_ip s with Some (V4 a) => Some a | _ => None end.

Definition remote_entry (p : Pod) : gmap Z EndpointValue :=
  if String.eqb (pod_NodeName p) self then ∅
  else match addr4 (pod_PodIP p), addr4 (pod_HostIP p) with
       | Some a, Some h => {[ a := mkEndpointValue 0 [0; 0; 0; 0; 0; 0] (wire_identity (HashLabels (remote_labels p))) h ]}
       | _, _ => ∅
       end.

(** A change of the cluster and the event the informer makes of it.  No two pods
    have one address at a time; a pod may be scheduled and change or lose its
    address with any update; what is deleted is the last state that was seen.
    [left] holds the entries of addresses that a pod of another node has had and no
    pod of another node has got since. *)
Inductive cluster_step (c : cluster) (left : gmap Z EndpointValue) : pod_event -> cluster -> gmap Z EndpointValue -> Prop :=
| cs_add p : c !! pod_id p = None -> own_address c p ->
    cluster_step c left (PodAdd (ObjPod p)) (<[pod_id p := p]> c) (left ∖ remote_entry p)
| cs_update p q : c !! pod_id p = Some q -> own_address c p ->
    cluster_step c left (PodUpdate (ObjPod p)) (<[pod_id p := p]> c) ((remote_entry q ∪ left) ∖ remote_entry p)
| cs_delete p o : c !! pod_id p = Some p -> o = ObjPod p \/ o = ObjTombstone (Some p) ->
    cluster_step c left (PodDelete o) (delete (pod_id p) c) left.

(** Histories in which the entries fit the table. *)
Inductive cluster_run : cluster -> gmap Z EndpointValue -> list pod_event -> cluster -> gmap Z EndpointValue -> Prop :=
| cr_nil c left : cluster_run c left [] c left
| cr_cons c left ev c1 left1 evs c2 left2 :
    cluster_step c left ev c1 left1 -> Z.of_nat (size base + size c1 + size left1) <= MAX_ENDPOINTS ->
    cluster_run c1 left1 evs c2 left2 -> cluster_run c left (ev :: evs) c2 left2.

(** The entries that a cluster calls for. *)
Definition entry (c : cluster) (a : Z) (v : EndpointValue) : Prop :=
  base !! a = Some v \/
  exists p p4 h4, c !! pod_id p = Some p /\ pod_NodeName p <> self /\ pod_at p p4 h4 /\ a = ip_val p4 /\ v = remote_value p h4.

Definition table_exact (t : gmap Z EndpointValue) (c : cluster) (left : gmap Z EndpointValue) : Prop :=
  forall a v, t !! a = Some v <-> entry c a v \/ left !! a = Some v.

Definition cluster_ok (c : cluster) : Prop := forall k p, c !! k = Some p -> k = pod_id p /\ own_address c p.

Lemma cluster_ok_insert c p : cluster_ok c -> own_address c p -> cluster_ok (<[pod_id p := p]> c).
Proof.
  intros Hc Hp k q [[<- <-]|[Hne Hk]]%lookup_insert_Some.
  - split; [done|]. destruct Hp as (H1 & H2 & H3). split; [done|]. split; [|done].
    intros k q [[<- _]|[_ Hk]]%lookup_insert_Some; [done|]. by apply H2.
  - destruct (Hc _ _ Hk) as [-> (H1 & H2 & H3)]. split; [done|]. split; [done|]. split; [|done].
    intros k q' [[<- <-]|[_ Hk']]%lookup_insert_Some Hd Hq; [|by eapply H2].
    intros E. destruct Hp as (_ & Hp & _). apply (Hp _ _ Hk); congruence.
Qed.

Lemma cluster_ok_delete c k : cluster_ok c -> cluster_ok (delete k c).
Proof.
  intros Hc k' q [Hne Hk]%lookup_delete_Some. destruct (Hc _ _ Hk) as [-> (H1 & H2 & H3)]. split; [done|].
  split; [done|]. split; [|done]. intros k'' q' [_ Hk']%lookup_delete_Some. by apply H2.
Qed.

Lemma cluster_step_ok c left ev c' left' : cluster_ok c -> cluster_step c left ev c' left' -> cluster_ok c'.
Proof. intros Hc Hs. destruct Hs as [p _ Ho|p q _ Ho|p o Hp _]; [by apply cluster_ok_insert..|by apply cluster_ok_delete]. Qed.

Lemma fmt_ipv4_nonempty b : v4 b -> fmt_ipv4 b <> "".
Proof. intros Hb E. destruct (ParseIP_v4 b Hb) as (ip & H & _). rewrite E in H. discriminate H. Qed.

Lemma pod_at_eq p q p4 h4 q4 g4 : pod_at p p4 h4 -> pod_at q q4 g4 -> pod_PodIP p = pod_PodIP q <-> ip_val p4 = ip_val q4.
Proof.
  intros ([Hl Hb] & _ & -> & _) ([Hl' Hb'] & _ & -> & _). split; intros E.
  - assert (parse_ip (fmt_ipv4 p4) = parse_ip (fmt_ipv4 q4)) as E' by by rewrite E.
    rewrite !parse_ip_fmt in E' by done. by injection E'.
  - f_equal. apply ip_val_inj; congruence.
Qed.

Lemma pod_at_host p p4 h4 q4 g4 : pod_at p p4 h4 -> pod_at p q4 g4 -> ip_val h4 = ip_val g4.
Proof.
  intros (_ & [Hl Hb] & _ & E) (_ & [Hl' Hb'] & _ & E').
  assert (parse_ip (fmt_ipv4 h4) = parse_ip (fmt_ipv4 g4)) as P by congruence.
  rewrite !parse_ip_fmt in P by done. by injection P.
Qed.

(** The entry of a pod is its own. *)
Lemma no_other c p p4 h4 v :
  own_address c p -> pod_NodeName p <> self -> pod_at p p4 h4 -> ~ entry (delete (pod_id p) c) (ip_val p4) v.
Proof.
  intros (_ & H2 & H3) Hn Hat [Hb|(q & q4 & g4 & [Hne Hq]%lookup_delete_Some & _ & Hqat & E & _)].
  - rewrite (H3 Hn _ _ Hat) in Hb. done.
  - apply (H2 _ _ Hq); [congruence| |].
    + destruct Hat as (Hv & _ & -> & _). by apply fmt_ipv4_nonempty.
    + by apply (proj2 (pod_at_eq q p _ _ _ _ Hqat Hat)).
Qed.

(** What one pod calls for. *)
Definition pod_entry (p : Pod) (a : Z) (v : EndpointValue) : Prop :=
  pod_NodeName p <> self /\ exists p4 h4, pod_at p p4 h4 /\ a = ip_val p4 /\ v = remote_value p h4.

Lemma entry_insert c p a v :
  entry (<[pod_id p := p]> c) a v <-> pod_entry p a v \/ entry (delete (pod_id p) c) a v.
Proof.
  unfold entry, pod_entry. split.
  - intros [Hb|(q & q4 & g4 & [[_ <-]|[Hne Hq]]%lookup_insert_Some & Hn & Hat)]; [by auto|naive_solver|].
    right. right. exists q, q4, g4. by rewrite lookup_delete_ne.
  - intros [(Hn & p4 & h4 & Hat)|[Hb|(q & q4 & g4 & [Hne Hq]%lookup_delete_Some & Hn & Hat)]]; [|by auto|].
    + right. exists p, p4, h4. by rewrite lookup_insert_eq.
    + right. exists q, q4, g4. by rewrite lookup_insert_ne.
Qed.

Lemma entry_known c p a v :
  c !! pod_id p = Some p -> entry c a v <-> pod_entry p a v \/ entry (delete (pod_id p) c) a v.
Proof. intros Hp. rewrite <- entry_insert. by rewrite insert_id. Qed.

Lemma skipped_entry p a v : skipped self p = true -> ~ pod_entry p a v.
Proof.
  unfold skipped. intros [E%String.eqb_eq|E%String.eqb_eq]%orb_true_iff (Hn & p4 & h4 & (Hp & _ & Ep & _) & _); [done|].
  apply (fmt_ipv4_nonempty p4 Hp). congruence.
Qed.

Lemma not_skipped c p :
  skipped self p = false -> own_address c p -> pod_NodeName p <> self /\ exists p4 h4, pod_at p p4 h4.
Proof.
  unfold skipped. intros [E1%String.eqb_neq E2%String.eqb_neq]%orb_false_iff ([|H] & _); done.
Qed.

Lemma remote_entry_spec c p a v : own_address c p -> remote_entry p !! a = Some v <-> pod_entry p a v.
Proof.
  intros (Hp & _). unfold remote_entry, pod_entry. destruct (String.eqb_spec (pod_NodeName p) self) as [E|E].
  { split; [by intros ?%lookup_empty_Some|]. by intros [? _]. }
  assert (forall p4 h4, pod_at p p4 h4 -> addr4 (pod_PodIP p) = Some (ip_val p4) /\ addr4 (pod_HostIP p) = Some (ip_val h4)) as Hat.
  { intros p4 h4 ([Hl Hb] & [Hl' Hb'] & -> & ->). unfold addr4. by rewrite !parse_ip_fmt. }
  destruct Hp as [E0|(p4 & h4 & Hp)].
  - rewrite E0. change (addr4 "") with (@None Z). split; [by intros ?%lookup_empty_Some|].
    intros (_ & p4 & h4 & (H4 & _ & Ep & _) & _). destruct (fmt_ipv4_nonempty p4 H4). congruence.
  - destruct (Hat _ _ Hp) as [-> ->]. rewrite lookup_singleton_Some. split.
    + intros [<- <-]. split; [done|]. by exists p4, h4.
    + intros (_ & q4 & g4 & Hq & -> & ->). unfold remote_value. rewrite (pod_at_host _ _ _ _ _ Hp Hq).
      split; [|done]. by apply (pod_at_eq p p _ _ _ _ Hp Hq).
Qed.

Lemma remote_entry_skipped c p : own_address c p -> skipped self p = true -> remote_entry p = ∅.
Proof.
  intros Ho Hs. apply map_eq. intros a. rewrite lookup_empty. destruct (remote_entry p !! a) as [v|] eqn:E; [|done].
  apply (remote_entry_spec c) in E; [|done]. by apply (skipped_entry p a v Hs) in E.
Qed.

(** The entries left over are not those of the node, nor of a pod. *)
Definition left_ok (c : cluster) (left : gmap Z EndpointValue) : Prop := forall a v w, left !! a = Some v -> ~ entry c a w.

Lemma left_ok_put c L p : left_ok (delete (pod_id p) c) L -> own_address c p -> left_ok (<[pod_id p := p]> c) (L ∖ remote_entry p).
Proof.
  intros HL Ho a v w [Hv Hn]%lookup_difference_Some [He|He]%entry_insert; [|by eapply HL].
  apply (remote_entry_spec c p a w Ho) in He. congruence.
Qed.

Lemma left_ok_old c q left :
  cluster_ok c -> c !! pod_id q = Some q -> left_ok c left -> left_ok (delete (pod_id q) c) (remote_entry q ∪ left).
Proof.
  intros Hc Hq HL a v w [Hv|[_ Hv]]%lookup_union_Some_raw He.
  - destruct (Hc _ _ Hq) as [_ Ho]. apply (remote_entry_spec c q a v Ho) in Hv as (Hn & p4 & h4 & Hat & -> & _).
    exact (no_other c q p4 h4 w Ho Hn Hat He).
  - apply (HL a v w Hv). apply (entry_known c q a w Hq). by right.
Qed.

Lemma table_exact_size t c left : table_exact t c left -> (size t <= size base + size c + size left)%nat.
Proof.
  intros Ht. set (adr := fun p => match ParseIP (pod_PodIP p) with
    | Some ip => match parse_ip (ip_string ip) with Some (V4 a) => a | _ => 0 end | None => 0 end).
  rewrite <- size_dom. transitivity (length (((map_to_list base).*1 ++ (adr <$> (map_to_list c).*2)) ++ (map_to_list left).*1));
    [|by rewrite !length_app, !length_fmap, !length_map_to_list].
  apply submseteq_length, NoDup_submseteq; [apply NoDup_elements|].
  intros a [v Hv]%elem_of_elements%elem_of_dom. rewrite !elem_of_app.
  apply Ht in Hv as [[Hb|(p & p4 & h4 & Hp & _ & (Hp4 & _ & Ep & _) & -> & _)]|Hl].
  - left. left. apply list_elem_of_fmap. exists (a, v). split; [done|]. by apply elem_of_map_to_list.
  - left. right. apply list_elem_of_fmap. exists p. split; [unfold adr; rewrite Ep; by destruct (ParseIP_v4 p4 Hp4) as (ip & -> & ->)|].
    apply list_elem_of_fmap. exists (pod_id p, p). split; [done|]. by apply elem_of_map_to_list.
  - right. apply list_elem_of_fmap. exists (a, v). split; [done|]. by apply elem_of_map_to_list.
Qed.

Hypothesis Hnet : forall k, dp_net k = Delivered.

(** Writing the entry of a pod over what is there. *)
Lemma put_exact c p L d :
  own_address c p -> table_exact (ENDPOINTS (dp_tables d)) (delete (pod_id p) c) L ->
  Z.of_nat (size base + size (<[pod_id p := p]> c) + size (L ∖ remote_entry p)) <= MAX_ENDPOINTS ->
  table_exact (ENDPOINTS (dp_tables (if skipped self p then d else (upsertRemoteEndpoint p d).1)))
    (<[pod_id p := p]> c) (L ∖ remote_entry p).
Proof.
  intros Ho Ht Hfit. unfold table_exact in Ht. destruct (skipped self p) eqn:Hsk.
  { rewrite (remote_entry_skipped c p Ho Hsk), map_difference_empty. intros a v. rewrite entry_insert, Ht.
    pose proof (skipped_entry p a v Hsk). tauto. }
  destruct (not_skipped _ _ Hsk Ho) as (Hn & p4 & h4 & Hat).
  assert (forall v, remote_entry p !! ip_val p4 = Some v <-> v = remote_value p h4) as Hp4.
  { intros v. rewrite (remote_entry_spec c p _ v Ho). split; [|intros ->; split; [done|]; by exists p4, h4].
    intros (_ & q4 & g4 & Hq & _ & ->). unfold remote_value. by rewrite (pod_at_host _ _ _ _ _ Hat Hq). }
  assert (forall a, a <> ip_val p4 -> remote_entry p !! a = None) as Hne.
  { intros a Ha. destruct (remote_entry p !! a) as [v|] eqn:E; [|done]. apply (remote_entry_spec c p a v Ho) in E as (_ & q4 & g4 & Hq & -> & _).
    destruct Ha. by apply (pod_at_eq p p _ _ _ _ Hq Hat). }
  assert (is_Some (ENDPOINTS (dp_tables d) !! ip_val p4) \/ Z.of_nat (size (ENDPOINTS (dp_tables d))) < MAX_ENDPOINTS) as Hroom.
  { destruct (ENDPOINTS (dp_tables d) !! ip_val p4) as [v|] eqn:E; [left; by eexists|right].
    assert (L ∖ remote_entry p = L) as EL.
    { apply map_eq. intros a. rewrite lookup_difference. destruct (decide (a = ip_val p4)) as [->|Ha]; [|by rewrite Hne].
      rewrite (proj2 (Hp4 _) eq_refl). destruct (L !! ip_val p4) as [w|] eqn:EL; [|done].
      assert (ENDPOINTS (dp_tables d) !! ip_val p4 = Some w) by (apply Ht; by right). congruence. }
    apply (table_exact_size _ _ L) in Ht. rewrite EL in Hfit. rewrite <- insert_delete_eq, map_size_insert_None in Hfit by apply lookup_delete_eq. lia. }
  pose proof (upsert_remote_delivered Hnet p p4 h4 d Hat Hroom) as Hok.
  destruct (upsertRemoteEndpoint p d) as [d' ok] eqn:E. cbn in Hok. subst ok. cbn [fst].
  rewrite (upsert_remote p p4 h4 d d' Hat E). intros a v. rewrite entry_insert, lookup_difference_Some, <- (remote_entry_spec c p a v Ho).
  destruct (decide (a = ip_val p4)) as [->|Ha].
  - rewrite lookup_insert_eq, Hp4. split; [intros [= <-]; by left; left|].
    intros [[->|He]|[_ Hv]]; [done|by apply (no_other c p p4 h4) in He|].
    rewrite (proj2 (Hp4 _) eq_refl) in Hv. discriminate Hv.
  - rewrite lookup_insert_ne, Ht, Hne by done. naive_solver.
Qed.

Lemma sync_step c left ev c' left' s :
  cluster_ok c -> left_ok c left -> cluster_step c left ev c' left' -> Z.of_nat (size base + size c' + size left') <= MAX_ENDPOINTS ->
  table_exact (ENDPOINTS (dp_tables (rs_dp s))) c left ->
  left_ok c' left' /\ table_exact (ENDPOINTS (dp_tables (rs_dp (sync_event self s ev)))) c' left'.
Proof.
  intros Hc HL Hs Hfit Ht. unfold table_exact in Ht. destruct Hs as [p Hp Ho|p q Hq Ho|p o Hp Hobj]; cbn [sync_event onAdd onUpdate].
  - rewrite <- (delete_id c (pod_id p) Hp) in HL, Ht. split; [by apply left_ok_put|].
    pose proof (put_exact c p left (rs_dp s) Ho Ht Hfit) as H. destruct (skipped self p); [done|].
    by destruct (upsertRemoteEndpoint p (rs_dp s)).
  - destruct (Hc _ _ Hq) as [Eid Hqo]. pose proof Hq as Hq'. rewrite Eid in Hq'.
    pose proof (left_ok_old c q left Hc Hq' HL) as HL'. rewrite <- Eid in HL'. split; [by apply left_ok_put|].
    pose proof (put_exact c p (remote_entry q ∪ left) (rs_dp s) Ho) as H. rewrite Eid in H at 1.
    destruct (skipped self p); apply H; try done; clear H;
      (intros a v; rewrite Ht, (entry_known c q a v Hq'), lookup_union_Some_raw, (remote_entry_spec c q a v Hqo);
       split; [|naive_solver]; intros [[He|He]|Hl]; [by right; left|by left|right; right; split; [|done]];
       destruct (remote_entry q !! a) as [w|] eqn:Ew; [|done];
       apply (remote_entry_spec c q a w Hqo) in Ew; exfalso; apply (HL a v w Hl), (entry_known c q a w Hq'); by left).
  - assert (left_ok (delete (pod_id p) c) left) as HL'
      by (intros a v w Hv He; apply (HL a v w Hv), (entry_known c p a w Hp); by right).
    split; [exact HL'|]. unfold onDelete.
    assert ((match o with ObjPod p => Some p | ObjTombstone p => p | ObjOther => None end) = Some p) as -> by by destruct Hobj as [-> | ->].
    destruct (skipped self p) eqn:Hsk.
    + intros a v. rewrite Ht, (entry_known c p) by done. pose proof (skipped_entry p a v Hsk). tauto.
    + destruct (Hc _ _ Hp) as [_ Ho]. destruct (not_skipped _ _ Hsk Ho) as (Hn & p4 & h4 & Hat).
      pose proof (delete_remote Hnet p p4 h4 (rs_dp s) Hat) as Hd.
      destruct (deleteRemoteEndpoint p (rs_dp s)) as [d ok]. cbn [fst rs_dp] in Hd |- *. rewrite Hd.
      intros a v. rewrite lookup_delete_Some, Ht, (entry_known c p) by done. split.
      * intros [Hne [[(_ & q4 & g4 & Hqat & -> & _)|]|]]; [|by left|by right]. destruct Hne. by apply (pod_at_eq p p _ _ _ _ Hat Hqat).
      * intros [He|Hl].
        -- split; [intros <-; by eapply no_other|by left; right].
        -- split; [|by right]. intros <-. apply (HL (ip_val p4) v (remote_value p h4) Hl), (entry_known c p _ _ Hp).
           left. split; [done|]. by exists p4, h4.
Qed.

Lemma sync_run c left evs c' left' s :
  cluster_run c left evs c' left' -> cluster_ok c -> left_ok c left -> table_exact (ENDPOINTS (dp_tables (rs_dp s))) c left ->
  table_exact (ENDPOINTS (dp_tables (rs_dp (foldl (sync_event self) s evs)))) c' left'.
Proof.
  intros Hr. revert s. induction Hr as [|c left ev c1 left1 evs c2 left2 Hs Hfit _ IH]; intros s Hc HL Ht; [done|]. cbn [foldl].
  destruct (sync_step c left ev c1 left1 s Hc HL Hs Hfit Ht). apply IH; [by eapply cluster_step_ok|done..].
Qed.

Lemma left_ok_run c left evs c' left' :
  cluster_run c left evs c' left' -> cluster_ok c -> left_ok c left -> left_ok c' left'.
Proof.
  intros Hr. induction Hr as [|c left ev c1 left1 evs c2 left2 Hs _ _ IH]; intros Hc HL; [done|].
  apply IH; [by eapply cluster_step_ok|]. destruct Hs as [p Hp Ho|p q Hq Ho|p o Hp _].
  - rewrite <- (delete_id c (pod_id p) Hp) in HL. by apply left_ok_put.
  - destruct (Hc _ _ Hq) as [Eid _]. apply left_ok_put; [|done]. rewrite Eid in *. by apply left_ok_old.
  - intros a v w Hv He. apply (HL a v w Hv), (entry_known c p a w Hp). by right.
Qed.

(** ** Where leftovers come from *)

Definition seen (evs : list pod_event) (p : Pod) : Prop := PodAdd (ObjPod p) ∈ evs \/ PodUpdate (ObjPod p) ∈ evs.

(** The pods have been seen, and a leftover is the entry of a state [q] of a pod that
    an update to [p] gave another address, or took the address from. *)
Definition traced (evs : list pod_event) (c : cluster) (left : gmap Z EndpointValue) : Prop :=
  (forall k q, c !! k = Some q -> seen evs q) /\
  forall a v, left !! a = Some v -> exists q p, seen evs q /\ PodUpdate (ObjPod p) ∈ evs /\ pod_id q = pod_id p /\
    remote_entry q !! a = Some v /\ remote_entry p !! a = None.

Lemma seen_app evs ev p : seen evs p -> seen (evs ++ [ev]) p.
Proof. unfold seen. rewrite !elem_of_app. tauto. Qed.

Lemma traced_step evs c left ev c' left' :
  cluster_ok c -> cluster_step c left ev c' left' -> traced evs c left -> traced (evs ++ [ev]) c' left'.
Proof.
  intros Hc Hs [H1 H2]. assert (forall a v, left !! a = Some v -> exists q p, seen (evs ++ [ev]) q /\
    PodUpdate (ObjPod p) ∈ evs ++ [ev] /\ pod_id q = pod_id p /\ remote_entry q !! a = Some v /\ remote_entry p !! a = None) as H2'.
  { intros a v (q & p & Hq & Hp & H)%H2. exists q, p. split; [by apply seen_app|]. split; [apply elem_of_app; by left|done]. }
  assert (forall q, PodAdd (ObjPod q) = ev \/ PodUpdate (ObjPod q) = ev -> seen (evs ++ [ev]) q) as Hnew.
  { intros q Hq. unfold seen. rewrite !elem_of_app, !list_elem_of_singleton. naive_solver. }
  destruct Hs as [p Hp Ho|p q Hq Ho|p o Hp Hobj]; split.
  - intros k q' [[_ <-]|[_ Hk]]%lookup_insert_Some; [by apply Hnew; left|by eapply seen_app, H1].
  - intros a v [Hv _]%lookup_difference_Some. by apply H2'.
  - intros k q' [[_ <-]|[_ Hk]]%lookup_insert_Some; [by apply Hnew; right|by eapply seen_app, H1].
  - intros a v [[Hv|[_ Hv]]%lookup_union_Some_raw Hn]%lookup_difference_Some; [|by apply H2'].
    exists q, p. split; [by eapply seen_app, H1|]. split; [apply elem_of_app; right; left|].
    split; [symmetry; by apply (Hc _ _ Hq)|done].
  - intros k q' [_ Hk]%lookup_delete_Some. by eapply seen_app, H1.
  - done.
Qed.

Lemma traced_run c left evs c' left' pre :
  cluster_run c left evs c' left' -> cluster_ok c -> traced pre c left -> traced (pre ++ evs) c' left'.
Proof.
  intros Hr. revert pre. induction Hr as [|c left ev c1 left1 evs c2 left2 Hs _ _ IH]; intros pre Hc Ht; [by rewrite app_nil_r|].
  rewrite cons_middle, app_assoc. apply IH; [by eapply cluster_step_ok|by eapply traced_step].
Qed.
End Cluster.

(** * Properties *)

(** C13: The table of endpoints follows the cluster, up to entries left over.  For every
    history of pods added, updated in any way and deleted, in which no two pods have
    one IPv4 address at a time, pods of other nodes do not have the address of the
    node's own entries, the entries fit the table and all calls are delivered, the
    table holds the node's own entries, exactly one entry for each pod of another node
    that has an address (the identity its labels hash to and the address of its
    node), and otherwise only leftovers: entries of a pod that an update has given
    another address, or taken the address from.  So without such an update there is
    no other entry. *)
Theorem remote_table_exact {DN : DpNet} self evs c left d :
  (forall k, dp_net k = Delivered) ->
  cluster_run self (ENDPOINTS (dp_tables d)) ∅ ∅ evs c left ->
  table_exact self (ENDPOINTS (dp_tables d))
    (ENDPOINTS (dp_tables (rs_dp (StartRemoteEndpointSync self evs d)))) c left
  /\ forall a v, left !! a = Some v ->
       (forall w, ~ entry self (ENDPOINTS (dp_tables d)) c a w) /\
       exists q p, seen evs q /\ PodUpdate (ObjPod p) ∈ evs /\ pod_id q = pod_id p /\
         remote_entry self q !! a = Some v /\ remote_entry self p !! a = None.
Proof.
  intros Hnet Hr. assert (cluster_ok self (ENDPOINTS (dp_tables d)) ∅) as Hc by by intros k p ?%lookup_empty_Some.
  assert (left_ok self (ENDPOINTS (dp_tables d)) ∅ ∅) as HL by by intros a v w ?%lookup_empty_Some.
  assert (table_exact self (ENDPOINTS (dp_tables d)) (ENDPOINTS (dp_tables d)) ∅ ∅) as H0.
  { intros a v. split; [by left; left|]. intros [[|(p & _ & _ & []%lookup_empty_Some & _)]|?%lookup_empty_Some]; done. }
  split; [apply (sync_run self _ Hnet ∅ ∅ evs c left (mkSync d 0) Hr); done|]. intros a v Hv.
  split; [intros w; by eapply (left_ok_run self _ ∅ ∅)|].
  destruct (traced_run self _ ∅ ∅ evs c left [] Hr Hc) as [_ H]; [by split; intros ? ? ?%lookup_empty_Some|]. by apply H.
Qed.

(** An update that changes the address of a pod leaves the old entry behind: the
    address keeps the identity of the pod, also after the pod is deleted. *)
Theorem changed_address_left_behind {DN : DpNet} self p q p4 q4 h4 g4 s d d' :
  (forall k, dp_net k = Delivered) -> pod_at q q4 g4 -> pod_at p p4 h4 -> ip_val p4 <> ip_val q4 -> pod_NodeName p <> self ->
  upsertRemoteEndpoint q (rs_dp s) = (d, true) -> upsertRemoteEndpoint p d = (d', true) ->
  let s1 := mkSync d (remoteCount s) in
  let s2 := sync_event self (sync_event self s1 (PodUpdate (ObjPod p))) (PodDelete (ObjPod p)) in
  lookup_identity (dp_tables (rs_dp s2)) (ip_val q4) = Some (wire_identity (HashLabels (remote_labels q)), remote_value q g4).
Proof.
  intros Hnet Hq Hp Hne Hn Eq Ep s1 s2. unfold s2, lookup_identity. cbn [sync_event onUpdate onDelete].
  assert (skipped self p = false) as Hsk.
  { unfold skipped. rewrite (proj2 (String.eqb_neq _ _) Hn). apply String.eqb_neq. destruct Hp as (H4 & _ & -> & _). by apply fmt_ipv4_nonempty. }
  rewrite Hsk. cbn [rs_dp s1]. rewrite Ep. cbn [fst rs_dp]. pose proof (delete_remote Hnet p p4 h4 d' Hp) as Hd.
  destruct (deleteRemoteEndpoint p d') as [d2 ok]. cbn [fst rs_dp] in *. rewrite Hd, lookup_delete_ne by done.
  rewrite (upsert_remote p p4 h4 d d' Hp Ep), lookup_insert_ne by done. by rewrite (upsert_remote q q4 g4 (rs_dp s) d Hq Eq), lookup_insert_eq.
Qed.




(** A pod that goes takes the entry of another pod with its address along: a
    pod on the host network, whose address is its node's, or a completed pod whose
    address has been given to a new one.  The pod [q] has just been written, and
    after the deletion of [p] its address has no identity. *)
Theorem shared_address_forgotten {DN : DpNet} self p q p4 h4 g4 s d :
  (forall k, dp_net k = Delivered) -> pod_at p p4 h4 -> pod_at q p4 g4 -> pod_NodeName p <> self ->
  upsertRemoteEndpoint q (rs_dp s) = (d, true) ->
  let s1 := mkSync d (remoteCount s) in
  let s2 := sync_event self s1 (PodDelete (ObjPod p)) in
  lookup_identity (dp_tables (rs_dp s1)) (ip_val p4) = Some (wire_identity (HashLabels (remote_labels q)), remote_value q g4) /\
  lookup_identity (dp_tables (rs_dp s2)) (ip_val p4) = None.
Proof.
  intros Hnet Hat Hq Hn Hup s1 s2. unfold lookup_identity. split.
  { cbn. by rewrite (upsert_remote q p4 g4 (rs_dp s) d), lookup_insert_eq. }
  unfold s2. cbn [sync_event onDelete]. unfold skipped.
  rewrite (proj2 (String.eqb_neq _ _) Hn). destruct (String.eqb_spec (pod_PodIP p) "") as [E|_].
  { destruct Hat as (Hp & _ & Ep & _). destruct (fmt_ipv4_nonempty p4 Hp). congruence. }
  pose proof (delete_remote Hnet p p4 h4 d Hat) as Hd. cbn [orb rs_dp s1].
  destruct (deleteRemoteEndpoint p d) as [d' ok]. cbn [fst rs_dp] in *. by rewrite Hd, lookup_delete_eq.
Qed.

(** * Examples *)

Definition sample_pod (name node : string) : Pod :=
  mkPod name "default" {[ "app" := "web" ]} node "10.244.1.2" "192.168.0.1".

Lemma sample_pod_at name node : pod_at (sample_pod name node) [10; 244; 1; 2] [192; 168; 0; 1].
Proof.
  split_and!; try reflexivity; (split; [reflexivity|]); repeat (constructor; [unfold is_byte; lia|]); constructor.
Qed.

(** The gauge does not count a pod that gets its address after its creation. *)
Lemma gauge_misses_updated_pod :
  let evs := [PodAdd (ObjPod (mkPod "a" "default" ∅ "n1" "" "")); PodUpdate (ObjPod (sample_pod "a" "n1"))] in
  let s := StartRemoteEndpointSync (DN := dp_reliable) "n2" evs (mkDpc empty_tables 0) in
  remoteCount s = 0 /\ size (ENDPOINTS (dp_tables (rs_dp s))) = 1%nat.
Proof. by vm_compute. Qed.

(** A pod of another node with an address of its choice. *)
Definition pod_with (ip : string) : Pod := mkPod "a" "default" {[ "app" := "web" ]} "n1" ip "192.168.0.1".

Lemma pod_with_at x : is_byte x -> pod_at (pod_with (fmt_ipv4 [10; 244; 1; x])) [10; 244; 1; x] [192; 168; 0; 1].
Proof.
  intros Hx. split_and!; try reflexivity; (split; [reflexivity|]); repeat (constructor; [done || (unfold is_byte; lia)|]); constructor.
Qed.

Lemma own_alone (c : cluster) p p4 h4 :
  (forall k q, c !! k = Some q -> k = pod_id p) -> pod_at p p4 h4 -> own_address "n2" ∅ c p.
Proof.
  intros Hc Hp. split; [right; eauto|]. split; [intros k q Hk Hne; by apply Hc in Hk|]. intros _ p4' h4' _. apply lookup_empty.
Qed.

(** The pod is added with the address 10.244.1.2 and updated to 10.244.1.3. *)
Lemma remote_table_exact_witness :
  let t := ENDPOINTS (dp_tables (rs_dp (StartRemoteEndpointSync (DN := dp_reliable) "n2"
    [PodAdd (ObjPod (pod_with "10.244.1.2")); PodUpdate (ObjPod (pod_with "10.244.1.3"))] (mkDpc empty_tables 0)))) in
  t !! ip_val [10; 244; 1; 3] = Some (remote_value (pod_with "10.244.1.3") [192; 168; 0; 1]) /\
  t !! ip_val [10; 244; 1; 2] = Some (remote_value (pod_with "10.244.1.2") [192; 168; 0; 1]).
Proof.
  set (p := pod_with "10.244.1.2"). set (q := pod_with "10.244.1.3").
  destruct (remote_table_exact (DN := dp_reliable) "n2" [PodAdd (ObjPod p); PodUpdate (ObjPod q)] (<[pod_id q := q]> (<[pod_id p := p]> ∅))
    ((remote_entry "n2" p ∪ ∅ ∖ remote_entry "n2" p) ∖ remote_entry "n2" q) (mkDpc empty_tables 0) (fun _ => eq_refl)) as [H _].
  - eapply cr_cons; [apply cs_add; [reflexivity|]|vm_compute; discriminate|].
    { apply (own_alone _ _ [10; 244; 1; 2] [192; 168; 0; 1]); [by intros k r ?%lookup_empty_Some|].
      apply (pod_with_at 2). unfold is_byte. lia. }
    eapply cr_cons; [apply (cs_update _ _ _ _ q p); [apply lookup_insert_eq|]|vm_compute; discriminate|apply cr_nil].
    apply (own_alone _ _ [10; 244; 1; 3] [192; 168; 0; 1]); [|apply (pod_with_at 3); unfold is_byte; lia].
    intros k r [[<- _]|[_ []%lookup_empty_Some]]%lookup_insert_Some. reflexivity.
  - split; apply H.
    + left. right. exists q, [10; 244; 1; 3], [192; 168; 0; 1]. split; [apply lookup_insert_eq|].
      split; [discriminate|]. split; [apply (pod_with_at 3); unfold is_byte; lia|done].
    + right. vm_compute. reflexivity.
Defined.

Lemma changed_address_left_behind_witness :
  exists s, lookup_identity (dp_tables (rs_dp (sync_event (DN := dp_reliable) "n2" (sync_event (DN := dp_reliable) "n2" s
      (PodUpdate (ObjPod (pod_with "10.244.1.3")))) (PodDelete (ObjPod (pod_with "10.244.1.3")))))) (ip_val [10; 244; 1; 2])
    = Some (wire_identity (HashLabels (remote_labels (pod_with "10.244.1.2"))), remote_value (pod_with "10.244.1.2") [192; 168; 0; 1]).
Proof.
  eexists. eapply (changed_address_left_behind (DN := dp_reliable) "n2" (pod_with "10.244.1.3") (pod_with "10.244.1.2") [10; 244; 1; 3]
    [10; 244; 1; 2] [192; 168; 0; 1] [192; 168; 0; 1] (mkSync (mkDpc empty_tables 0) 0));
    [done|apply (pod_with_at 2); unfold is_byte; lia|apply (pod_with_at 3); unfold is_byte; lia|discriminate|discriminate|
     vm_compute; reflexivity|vm_compute; reflexivity].
Defined.

Lemma shared_address_forgotten_witness :
  lookup_identity (dp_tables (rs_dp (sync_event (DN := dp_reliable) "n2"
    (mkSync (upsertRemoteEndpoint (DN := dp_reliable) (sample_pod "b" "n1") (mkDpc empty_tables 0)).1 0)
    (PodDelete (ObjPod (sample_pod "a" "n1")))))) (ip_val [10; 244; 1; 2]) = None.
Proof.
  refine (proj2 (shared_address_forgotten (DN := dp_reliable) "n2" (sample_pod "a" "n1") (sample_pod "b" "n1")
    [10; 244; 1; 2] [192; 168; 0; 1] [192; 168; 0; 1] (mkSync (mkDpc empty_tables 0) 0) _ (fun _ => eq_refl)
    (sample_pod_at "a" "n1") (sample_pod_at "b" "n1") _ _)); [discriminate|].
  vm_compute. reflexivity.
Defined.




