(* ===== verification/DpReads.v ===== *)
(** What the daemon reports and attaches: the reading handlers of
    novanet-dataplane/src/server.rs over src/maps.rs, the programs it attaches to
    interfaces, and the reading calls of internal/dataplane/client.go.  The maps
    the kernel programs write are one per CPU, and a report sums them up. *)

From Stdlib Require Import ZArith Lia Ascii String.
From stdpp Require Import base tactics list gmap strings fin_maps.
From S2P Require Import Prelude GoStrings GoMap GoNet GoCidr RustNet ServiceWatcher PolicyTable EbpfMaps EbpfHelpers.
From S2P Require Import Dataplane DpClient.

(** * Reports *)

(** [Ipv4Addr::from(u32)] and its text. *)
Definition ipv4_bytes (a : Z) : list Z :=
  [wrap8 (Z.shiftr a 24); wrap8 (Z.shiftr a 16); wrap8 (Z.shiftr a 8); wrap8 a].
Definition ipv4_string (a : Z) : string := fmt_ipv4 (ipv4_bytes a).

Definition sum64 (l : list Z) : Z := foldl (fun acc x => wrap64 (acc + x)) 0 l.

Record SockmapStats := mkSockmapStats { Redirected : Z; Fallback : Z; ActiveEndpoints : Z }.

Definition get_sockmap_stats (cpus : list dynamic) (t : tables) : SockmapStats :=
  mkSockmapStats (sum64 ((fun d => default 0 (SOCKMAP_STATS d !! 0)) <$> cpus))
    (sum64 ((fun d => default 0 (SOCKMAP_STATS d !! 1)) <$> cpus))
    (wrap32 (Z.of_nat (size (SOCKMAP_ENDPOINTS t)))).

Record MeshServiceEntry := mkMeshEntry { me_IP : string; me_Port : Z; me_RedirectPort : Z }.

Definition list_mesh_services {MI : MapIter} (t : tables) : list MeshServiceEntry :=
  (fun kv => mkMeshEntry (ipv4_string kv.1.1) kv.1.2 kv.2) <$> iter (MESH_SERVICES t).

(** The counters of one backend; the failure rate is kept as a fraction. *)
Record BackendHealthInfo := mkHealthInfo {
  bh_IP : string; bh_Port : Z; TotalConns : Z; FailedConns : Z; TimeoutConns : Z; SuccessConns : Z;
  AvgRTTNs : Z; FailureRate : Z * Z }.

Definition zero_health : BackendHealthCounters := mkHealth 0 0 0 0 0 0 0.

Definition add_health (a v : BackendHealthCounters) : BackendHealthCounters :=
  mkHealth (wrap64 (total_conns a + total_conns v)) (wrap64 (failed_conns a + failed_conns v))
    (wrap64 (timeout_conns a + timeout_conns v)) (wrap64 (success_conns a + success_conns v))
    (if last_success_ns a <? last_success_ns v then last_success_ns v else last_success_ns a)
    (if last_failure_ns a <? last_failure_ns v then last_failure_ns v else last_failure_ns a)
    (wrap64 (total_rtt_ns a + total_rtt_ns v)).

Definition cpu_health (key : Z * Z) (d : dynamic) : BackendHealthCounters := default zero_health (BACKEND_HEALTH d !! key).

Definition combine_health (cpus : list dynamic) (key : Z * Z) : BackendHealthCounters :=
  foldl add_health zero_health (cpu_health key <$> cpus).

(** The keys of the map are those any CPU has added. *)
Definition health_keys (cpus : list dynamic) : gmap (Z * Z) BackendHealthCounters :=
  foldr (fun d m => BACKEND_HEALTH d ∪ m) ∅ cpus.

Definition get_backend_health (cpus : list dynamic) (key : Z * Z) : option BackendHealthCounters :=
  match health_keys cpus !! key with Some _ => Some (combine_health cpus key) | None => None end.

Definition get_all_backend_health {MI : MapIter} (cpus : list dynamic) : list ((Z * Z) * BackendHealthCounters) :=
  (fun kv => (kv.1, combine_health cpus kv.1)) <$> iter (health_keys cpus).

Definition health_counters_to_proto (ip : string) (port : Z) (c : BackendHealthCounters) : BackendHealthInfo :=
  mkHealthInfo ip port (total_conns c) (failed_conns c) (timeout_conns c) (success_conns c)
    (if success_conns c =? 0 then 0 else total_rtt_ns c / success_conns c)
    (if 0 <? total_conns c then (failed_conns c, total_conns c) else (0, 1)).

Definition get_backend_health_stats {MI : MapIter} (cpus : list dynamic) (ip : string) (port : Z)
    : result status (list BackendHealthInfo) :=
  if negb (String.eqb ip "") then
    match parse_ip ip with
    | Some (V4 a) =>
        Ok (match get_backend_health cpus (a, port) with
            | Some c => [health_counters_to_proto ip port c]
            | None => []
            end)
    | _ => Err InvalidArgument
    end
  else Ok ((fun kc => health_counters_to_proto (ipv4_string kc.1.1) kc.1.2 kc.2) <$> get_all_backend_health cpus).

Definition TUNNEL_GENEVE : Z := 0.
Definition TUNNEL_VXLAN : Z := 1.

Definition mode_string (t : tables) : string :=
  let mode := get_config t CONFIG_KEY_MODE in
  if mode =? MODE_OVERLAY then "overlay" else if mode =? MODE_NATIVE then "native" else "unknown".

Definition tunnel_protocol_string (t : tables) : string :=
  let tt := get_config t CONFIG_KEY_TUNNEL_TYPE in
  if tt =? TUNNEL_GENEVE then "geneve" else if tt =? TUNNEL_VXLAN then "vxlan" else "unknown".

(** The counters that are not 0. *)
Definition get_drop_counters (cpus : list dynamic) : list (Z * Z) :=
  filter (fun kv => 0 < kv.2)
    ((fun i => (i, sum64 ((fun d => default 0 (DROP_COUNTERS d !! i)) <$> cpus))) <$> seqZ 0 DROP_REASON_MAX).

(** * Programs *)

Variant AttachDirection := AttachTCIngress | AttachTCEgress.

Record AttachedProgramInfo := mkAttached { interface : string; attach_type : string; program_id : Z }.

Definition type_str (dir : AttachDirection) : string :=
  match dir with AttachTCIngress => "ingress" | AttachTCEgress => "egress" end.

Definition starts_with (p s : string) : bool := String.prefix p s.

Definition prog_name (iface : string) (dir : AttachDirection) : string :=
  if starts_with "geneve" iface || starts_with "vxlan" iface || starts_with "nv_" iface || starts_with "nvx" iface then
    match dir with AttachTCIngress => "tc_tunnel_ingress" | AttachTCEgress => "tc_tunnel_egress" end
  else match dir with AttachTCIngress => "tc_egress" | AttachTCEgress => "tc_ingress" end.

(** The list the status shows, and the links that keep programs attached: an
    interface, a direction and the name of the program. *)
Record programs := mkPrograms { attached : list AttachedProgramInfo; tc_links : list (string * string * string) }.

(** [loaded] is the id of the program if the kernel accepts the attachment. *)
Definition attach_program (loaded : option Z) (iface : string) (dir : AttachDirection) (p : programs) : programs * result status unit :=
  match loaded with
  | None => (p, Err Internal)
  | Some id =>
      (mkPrograms (attached p ++ [mkAttached iface (type_str dir) id])
         (tc_links p ++ [(iface, type_str dir, prog_name iface dir)]), Ok tt)
  end.

Definition detach_program (iface : string) (dir : AttachDirection) (p : programs) : programs * result status unit :=
  (mkPrograms
     (filter (fun a => negb (String.eqb (interface a) iface && String.eqb (attach_type a) (type_str dir)) = true) (attached p))
     (filter (fun l => negb (String.eqb l.1.1 iface && String.eqb l.1.2 (type_str dir)) = true) (tc_links p)), Ok tt).

Record Status := mkStatus {
  EndpointCount : Z; PolicyCount : Z; TunnelCount : Z; Programs : list AttachedProgramInfo;
  st_Mode : string; st_TunnelProtocol : string; DropCounters : list (Z * Z); ServiceCount : Z }.

Definition get_dataplane_status (cpus : list dynamic) (p : programs) (t : tables) : Status :=
  mkStatus (wrap32 (Z.of_nat (size (ENDPOINTS t)))) (wrap32 (Z.of_nat (size (POLICIES t))))
    (wrap32 (Z.of_nat (size (TUNNELS t)))) (attached p) (mode_string t) (tunnel_protocol_string t)
    (get_drop_counters cpus) (wrap32 (Z.of_nat (size (SERVICES t)))).

(** [stream_flows]: the events of an identity, or all of them. *)
Definition stream_flows (identity_filter : Z) (events : list FlowEvent) : list FlowEvent :=
  filter (fun e => negb (negb (identity_filter =? 0) && negb (fe_src_identity e =? identity_filter)
                           && negb (fe_dst_identity e =? identity_filter)) = true) events.

(** * The client *)

Section Client.
Context {DN : DpNet} {MI : MapIter}.

(** A call whose answer carries data. *)
Definition rpc_with {A} (f : tables -> tables * result status A) (d : dpc) : dpc * option A :=
  let n := S (dp_sent d) in
  match dp_net (dp_sent d) with
  | Delivered => let '(t, r) := f (dp_tables d) in (mkDpc t n, match r with Ok a => Some a | Err _ => None end)
  | Lost => (mkDpc (dp_tables d) n, None)
  | LateError => (mkDpc (f (dp_tables d)).1 n, None)
  end.

Definition ask {A} (f : tables -> tables * result status A) (c : Client) : result client_error A * Client :=
  if client c then
    let '(d, r) := rpc_with f (link c) in
    (match r with Some a => Ok a | None => Err ErrCall end, mkClient (socketPath c) true d)
  else (Err ErrNotConnected, c).

Definition GetSockmapStats (cpus : list dynamic) := ask (fun t => (t, Ok (get_sockmap_stats cpus t))).

Definition ListMeshServices := ask (fun t => (t, Ok (list_mesh_services t))).

(** The daemon does not count what the limiter does. *)
Definition GetRateLimitStats := ask (fun t => (t, Ok (0, 0))).

Definition GetBackendHealthStats (cpus : list dynamic) (ip : string) (port : Z) :=
  ask (fun t => (t, get_backend_health_stats cpus ip port)).

Definition GetStatus (cpus : list dynamic) (p : programs) := ask (fun t => (t, Ok (get_dataplane_status cpus p t))).

(** [order] is the order in which the daemon finds the entries of the table. *)
Definition SyncPolicies (order : list PolicyKey) (rules : list PolicyEntry) :=
  ask (fun t =>
    let '(m, r) := grpc_sync_policies order (POLICIES t) rules in
    (set_POLICIES t m, match r with Some counts => Ok counts | None => Err Internal end)).

(** [AttachProgram] and [DetachProgram]; a call may be lost like any other. *)
Definition change_programs (f : programs -> programs * result status unit) (c : Client) (p : programs)
    : result client_error unit * Client * programs :=
  if client c then
    let c' := mkClient (socketPath c) true (mkDpc (dp_tables (link c)) (S (dp_sent (link c)))) in
    match dp_net (dp_sent (link c)) with
    | Delivered => let '(p', r) := f p in ((match r with Ok _ => Ok tt | Err _ => Err ErrCall end), c', p')
    | Lost => (Err ErrCall, c', p)
    | LateError => (Err ErrCall, c', (f p).1)
    end
  else (Err ErrNotConnected, c, p).

Definition AttachProgram (loaded : option Z) (iface : string) (dir : AttachDirection) := change_programs (attach_program loaded iface dir).
Definition DetachProgram (iface : string) (dir : AttachDirection) := change_programs (detach_program iface dir).
End Client.

(** * Backend health *)

(** Packets as [track_backend_health] sees them, with the CPU they arrive on. *)
Record seen_packet := mkSeen { on_cpu : nat; at_ns : Z; to_ip : Z; to_port : Z; tcp_flags : Z }.

Definition to_key (p : seen_packet) : Z * Z := (to_ip p, to_port p).

Definition track (cpus : list dynamic) (p : seen_packet) : list dynamic :=
  alter (fun d => track_backend_health (at_ns p) d (to_ip p) (to_port p) (tcp_flags p)) (on_cpu p) cpus.

Definition is_attempt (f : Z) : bool := has_flag f 2 && (Z.land f 16 =? 0).
Definition is_established (f : Z) : bool := Z.land f 18 =? 18.
Definition is_reset (f : Z) : bool := has_flag f 4.

(** The packets to a backend that [sel] selects. *)
Definition packets_to (key : Z * Z) (sel : Z -> bool) (ps : list seen_packet) : Z :=
  Z.of_nat (length (filter (fun p => to_key p = key /\ tcp_flags p <> 0 /\ sel (tcp_flags p) = true) ps)).

Definition zsum (l : list Z) : Z := foldr Z.add 0 l.

Lemma zsum_alter {A} (g : A -> Z) (f : A -> A) i l x :
  l !! i = Some x -> zsum (g <$> alter f i l) = zsum (g <$> l) - g x + g (f x).
Proof.
  revert i. induction l as [|y l IH]; intros [|i] H; cbn in *; simplify_eq; cbn; [lia|].
  unfold zsum in IH. rewrite (IH i H). lia.
Qed.

Lemma zsum_nonneg l : Forall (fun x => 0 <= x) l -> 0 <= zsum l.
Proof. induction 1; cbn; [lia|]. unfold zsum in *. lia. Qed.

Lemma zsum_elem l x : Forall (fun x => 0 <= x) l -> x ∈ l -> x <= zsum l.
Proof.
  induction 1 as [|y l Hy Hl IH]; [by intros ?%elem_of_nil|]. cbn. pose proof (zsum_nonneg l Hl) as Hn. unfold zsum in *.
  intros [->|Hx]%elem_of_cons; [lia|]. specialize (IH Hx). lia.
Qed.

(** Adding up 64-bit counters whose sum fits. *)
Lemma sum_counters (pi : BackendHealthCounters -> Z) l :
  (forall a v, pi (add_health a v) = wrap64 (pi a + pi v)) ->
  forall a, Forall (fun c => 0 <= pi c) l -> 0 <= pi a -> pi a + zsum (pi <$> l) < 2 ^ 64 ->
  pi (foldl add_health a l) = pi a + zsum (pi <$> l).
Proof.
  intros Hpi. induction l as [|c l IH]; intros a Hl Ha Hs; cbn in *; [lia|].
  apply Forall_cons in Hl as [Hc Hl]. pose proof (zsum_nonneg (pi <$> l)) as Hz. unfold zsum in *.
  specialize (Hz ltac:(by apply Forall_fmap)).
  assert (pi (add_health a c) = pi a + pi c) as E by (rewrite Hpi; unfold wrap64; apply Z.mod_small; lia).
  rewrite IH; rewrite ?E; [lia|done|lia|lia].
Qed.

Definition health_fits (S : gset (Z * Z)) (d : dynamic) : Prop := dom (BACKEND_HEALTH d) ⊆ S.

(** The counters a packet moves, with what moves them. *)
Definition counters : list ((BackendHealthCounters -> Z) * (Z -> bool)) :=
  [(total_conns, is_attempt); (failed_conns, is_reset); (success_conns, is_established)].

Lemma health_room S d key :
  health_fits S d -> key ∈ S -> (size S <= 4096)%nat -> BACKEND_HEALTH d !! key = None ->
  (Z.of_nat (size (BACKEND_HEALTH d)) <? 4096) = true.
Proof.
  intros Hf Hk Hs Hn. apply Z.ltb_lt. rewrite <- size_dom.
  assert (size (dom (BACKEND_HEALTH d)) < size S)%nat; [|lia]. apply subset_size. split; [done|].
  intros H. apply H, elem_of_dom in Hk as [v Hv]. congruence.
Qed.

(** One packet on one CPU. *)
Lemma track_counts S now d ip port f key pi sel :
  (pi, sel) ∈ counters -> health_fits S d -> (ip, port) ∈ S -> (size S <= 4096)%nat ->
  0 <= pi (cpu_health key d) < 2 ^ 64 - 1 ->
  let d' := track_backend_health now d ip port f in
  health_fits S d' /\
  pi (cpu_health key d') = pi (cpu_health key d) + (if bool_decide ((ip, port) = key /\ f <> 0 /\ sel f = true) then 1 else 0).
Proof.
  intros Hpi Hf Hk Hs Hr d'. unfold d', track_backend_health. destruct (Z.eqb_spec f 0) as [->|Hf0].
  { split; [done|]. rewrite bool_decide_false by naive_solver. lia. }
  assert (forall c, health_fits S (set_HEALTH d (<[(ip, port) := c]> (BACKEND_HEALTH d)))) as Hfit.
  { intros c. unfold health_fits. cbn. rewrite dom_insert. set_solver. }
  assert (forall c, pi c = pi (cpu_health (ip, port) d) + (if sel f then 1 else 0) ->
    pi (cpu_health key (set_HEALTH d (<[(ip, port) := c]> (BACKEND_HEALTH d))))
    = pi (cpu_health key d) + (if bool_decide ((ip, port) = key /\ f <> 0 /\ sel f = true) then 1 else 0)) as Hset.
  { intros c Hc. unfold cpu_health at 1. cbn [BACKEND_HEALTH set_HEALTH]. destruct (decide ((ip, port) = key)) as [<-|Hne].
    - rewrite lookup_insert_eq. cbn [from_option id]. rewrite Hc. f_equal. destruct (sel f); [by rewrite bool_decide_true|].
      by rewrite bool_decide_false by naive_solver.
    - rewrite lookup_insert_ne, bool_decide_false by naive_solver. fold (cpu_health key d). lia. }
  assert (forall x : Z, 0 <= x < 2 ^ 64 - 1 -> wrap64 (x + 1) = x + 1) as Hw by (intros x Hx; apply Z.mod_small; lia).
  destruct (decide ((ip, port) = key)) as [Ek|Hne].
  - destruct (BACKEND_HEALTH d !! (ip, port)) as [c|] eqn:E.
    + split; [apply Hfit|apply Hset]. rewrite <- Ek in Hr. unfold cpu_health in *. rewrite E in *. cbn [from_option id] in *.
      unfold counters in Hpi. rewrite !elem_of_cons, elem_of_nil in Hpi.
      destruct Hpi as [[= -> ->]|[[= -> ->]|[[= -> ->]|[]]]]; cbn; rewrite Hw by done;
        (fold (is_attempt f) || fold (is_reset f) || fold (is_established f)); case_match; lia.
    + rewrite (health_room S d (ip, port)) by done. split; [apply Hfit|apply Hset]. unfold cpu_health. rewrite E. cbn [from_option id].
      unfold counters in Hpi. rewrite !elem_of_cons, elem_of_nil in Hpi.
      destruct Hpi as [[= -> ->]|[[= -> ->]|[[= -> ->]|[]]]]; reflexivity.
  - assert (forall c, pi (cpu_health key (set_HEALTH d (<[(ip, port) := c]> (BACKEND_HEALTH d)))) = pi (cpu_health key d) + 0) as Ho.
    { intros c. unfold cpu_health. cbn. rewrite lookup_insert_ne by done. lia. }
    rewrite bool_decide_false by naive_solver.
    destruct (BACKEND_HEALTH d !! (ip, port)) as [c|] eqn:E; [by split|].
    rewrite (health_room S d (ip, port)) by done. by split.
Qed.

Definition cpus_ok (S : gset (Z * Z)) (key : Z * Z) (cpus : list dynamic) : Prop :=
  Forall (health_fits S) cpus /\
  forall pi sel, (pi, sel) ∈ counters -> Forall (fun d => 0 <= pi (cpu_health key d)) cpus.

Lemma track_step S key cpus p pi sel :
  cpus_ok S key cpus -> (on_cpu p < length cpus)%nat -> to_key p ∈ S -> (size S <= 4096)%nat ->
  (forall pi sel, (pi, sel) ∈ counters -> zsum ((fun d => pi (cpu_health key d)) <$> cpus) < 2 ^ 64 - 1) ->
  (pi, sel) ∈ counters ->
  cpus_ok S key (track cpus p) /\
  zsum ((fun d => pi (cpu_health key d)) <$> track cpus p)
  = zsum ((fun d => pi (cpu_health key d)) <$> cpus) + packets_to key sel [p].
Proof.
  intros [Hf Hn] Hc Hk Hs Hz Hpi. destruct (lookup_lt_is_Some_2 cpus (on_cpu p) Hc) as [d Hd].
  assert (forall pi sel, (pi, sel) ∈ counters ->
    health_fits S (track_backend_health (at_ns p) d (to_ip p) (to_port p) (tcp_flags p)) /\
    pi (cpu_health key (track_backend_health (at_ns p) d (to_ip p) (to_port p) (tcp_flags p)))
    = pi (cpu_health key d) + packets_to key sel [p] /\ 0 <= pi (cpu_health key d)) as Ht.
  { intros pi' sel' Hp'. pose proof (Forall_lookup_1 _ _ _ _ (Hn _ _ Hp') Hd) as H0. cbn in H0.
    assert (pi' (cpu_health key d) <= zsum ((fun d => pi' (cpu_health key d)) <$> cpus)) as Hle.
    { apply zsum_elem; [by apply Forall_fmap, (Hn _ sel')|]. apply list_elem_of_fmap. exists d.
      split; [done|]. by eapply list_elem_of_lookup_2. }
    specialize (Hz _ _ Hp'). destruct (track_counts S (at_ns p) d (to_ip p) (to_port p) (tcp_flags p) key pi' sel' Hp'
      (Forall_lookup_1 _ _ _ _ Hf Hd) Hk Hs ltac:(lia)) as [H1 H2].
    split; [done|]. split; [|done]. rewrite H2. f_equal. unfold packets_to. cbn.
    destruct (decide (to_key p = key /\ tcp_flags p <> 0 /\ sel' (tcp_flags p) = true)) as [Hy|Hy];
      [rewrite bool_decide_true by done|rewrite bool_decide_false by done]; done. }
  split; [split|].
  - apply Forall_alter; [done|]. intros x Hx. rewrite Hd in Hx. injection Hx as <-. intros _. by destruct (Ht _ _ Hpi).
  - intros pi' sel' Hp'. apply Forall_alter; [by eapply Hn|]. intros x Hx. rewrite Hd in Hx. injection Hx as <-. intros _.
    destruct (Ht _ _ Hp') as (_ & -> & ?). unfold packets_to. lia.
  - unfold track. rewrite (zsum_alter _ _ _ _ d Hd). destruct (Ht _ _ Hpi) as (_ & -> & _). lia.
Qed.

Lemma packets_to_cons key sel p ps : packets_to key sel (p :: ps) = packets_to key sel [p] + packets_to key sel ps.
Proof. unfold packets_to. rewrite !filter_cons, filter_nil. case_decide; cbn [length]; lia. Qed.

Lemma packets_to_one key sel p : 0 <= packets_to key sel [p] <= 1.
Proof. unfold packets_to. cbn. case_decide; cbn; lia. Qed.

Lemma track_run S key ps : forall cpus,
  cpus_ok S key cpus -> Forall (fun p => (on_cpu p < length cpus)%nat /\ to_key p ∈ S) ps -> (size S <= 4096)%nat ->
  (forall pi sel, (pi, sel) ∈ counters ->
    zsum ((fun d => pi (cpu_health key d)) <$> cpus) + Z.of_nat (length ps) < 2 ^ 64) ->
  cpus_ok S key (foldl track cpus ps) /\
  forall pi sel, (pi, sel) ∈ counters ->
    zsum ((fun d => pi (cpu_health key d)) <$> foldl track cpus ps)
    = zsum ((fun d => pi (cpu_health key d)) <$> cpus) + packets_to key sel ps.
Proof.
  induction ps as [|p ps IH]; intros cpus Hok Hps Hs Hz; cbn [foldl].
  { split; [done|]. intros pi sel _. unfold packets_to. cbn. lia. }
  apply Forall_cons in Hps as [[Hc Hk] Hps].
  assert (forall pi sel, (pi, sel) ∈ counters -> zsum ((fun d => pi (cpu_health key d)) <$> cpus) < 2 ^ 64 - 1) as Hz1.
  { intros pi sel Hp. specialize (Hz pi sel Hp). cbn [length] in Hz. lia. }
  pose proof (fun pi sel => track_step S key cpus p pi sel Hok Hc Hk Hs Hz1) as Hstep.
  destruct (IH (track cpus p)) as [Hok' Hsum]; [|..|done| |].
  - by destruct (Hstep total_conns is_attempt ltac:(by left)).
  - unfold track. by rewrite length_alter.
  - intros pi sel Hp. destruct (Hstep _ _ Hp) as [_ ->]. specialize (Hz _ _ Hp). cbn [length] in Hz.
    pose proof (packets_to_one key sel p). lia.
  - split; [done|]. intros pi sel Hp. rewrite (Hsum _ _ Hp). destruct (Hstep _ _ Hp) as [_ ->].
    rewrite (packets_to_cons key sel p ps). lia.
Qed.

Lemma health_keys_Some cpus key :
  is_Some (health_keys cpus !! key) <-> Exists (fun d => is_Some (BACKEND_HEALTH d !! key)) cpus.
Proof.
  induction cpus as [|d cpus IH]; cbn.
  - rewrite lookup_empty, Exists_nil. by split; [intros []|].
  - rewrite lookup_union_is_Some, Exists_cons. by rewrite <- IH.
Qed.

Lemma Exists_alter {A} (P : A -> Prop) (Q : Prop) f i l x :
  l !! i = Some x -> (P (f x) <-> P x \/ Q) -> Exists P (alter f i l) <-> Exists P l \/ Q.
Proof.
  revert i. induction l as [|y l IH]; intros [|i] H HP; cbn in *; simplify_eq; rewrite !Exists_cons; [tauto|].
  fold (alter f i l). rewrite (IH i H HP). tauto.
Qed.

Lemma track_present S now d ip port f key :
  health_fits S d -> (ip, port) ∈ S -> (size S <= 4096)%nat ->
  is_Some (BACKEND_HEALTH (track_backend_health now d ip port f) !! key)
  <-> is_Some (BACKEND_HEALTH d !! key) \/ ((ip, port) = key /\ f <> 0).
Proof.
  intros Hf Hk Hs. unfold track_backend_health. destruct (Z.eqb_spec f 0) as [->|Hf0]; [naive_solver|].
  assert (forall c, is_Some (BACKEND_HEALTH (set_HEALTH d (<[(ip, port) := c]> (BACKEND_HEALTH d))) !! key)
    <-> is_Some (BACKEND_HEALTH d !! key) \/ ((ip, port) = key /\ f <> 0)) as H.
  { intros c. cbn. rewrite lookup_insert_is_Some. destruct (decide ((ip, port) = key)); naive_solver. }
  destruct (BACKEND_HEALTH d !! (ip, port)) eqn:E; [apply H|]. rewrite (health_room S d (ip, port)) by done. apply H.
Qed.

Lemma track_run_present S key ps : forall cpus,
  cpus_ok S key cpus -> Forall (fun p => (on_cpu p < length cpus)%nat /\ to_key p ∈ S) ps -> (size S <= 4096)%nat ->
  (forall pi sel, (pi, sel) ∈ counters ->
    zsum ((fun d => pi (cpu_health key d)) <$> cpus) + Z.of_nat (length ps) < 2 ^ 64) ->
  is_Some (health_keys (foldl track cpus ps) !! key)
  <-> is_Some (health_keys cpus !! key) \/ Exists (fun p => to_key p = key /\ tcp_flags p <> 0) ps.
Proof.
  induction ps as [|p ps IH]; intros cpus Hok Hps Hs Hz; cbn [foldl]; [rewrite Exists_nil; tauto|].
  apply Forall_cons in Hps as [[Hc Hk] Hps]. destruct (lookup_lt_is_Some_2 cpus (on_cpu p) Hc) as [d Hd].
  destruct (track_run S key [p] cpus Hok) as [Hok' Hsum]; [by constructor|done| |].
  { intros pi sel Hp. specialize (Hz _ _ Hp). cbn [length] in *. lia. }
  cbn [foldl] in Hok', Hsum. rewrite IH, Exists_cons, !health_keys_Some; [|done|unfold track; by rewrite length_alter|done|].
  - unfold track. rewrite (Exists_alter _ (to_key p = key /\ tcp_flags p <> 0) _ _ _ d Hd); [tauto|].
    apply (track_present S); [|done|done]. by eapply (Forall_lookup_1 _ _ _ _ (proj1 Hok)).
  - intros pi sel Hp. rewrite (Hsum _ _ Hp). specialize (Hz _ _ Hp). cbn [length] in Hz.
    pose proof (packets_to_one key sel p). lia.
Qed.

(** What the daemon reports of a backend is what the CPUs have seen. *)
Lemma health_report (n : nat) (S : gset (Z * Z)) (ps : list seen_packet) (key : Z * Z) :
  Forall (fun p => (on_cpu p < n)%nat /\ to_key p ∈ S) ps -> (size S <= 4096)%nat -> Z.of_nat (length ps) < 2 ^ 64 ->
  let r := get_backend_health (foldl track (replicate n fresh_dynamic) ps) key in
  (is_Some r <-> Exists (fun p => to_key p = key /\ tcp_flags p <> 0) ps) /\
  forall c, r = Some c ->
    total_conns c = packets_to key is_attempt ps /\ failed_conns c = packets_to key is_reset ps /\
    success_conns c = packets_to key is_established ps.
Proof.
  intros Hps Hs Hlen r. set (cpus := replicate n fresh_dynamic) in *.
  assert (cpus_ok S key cpus) as Hok.
  { split; [by apply Forall_replicate|]. intros pi sel Hp. apply Forall_replicate. cbn.
    unfold counters in Hp. rewrite !elem_of_cons, elem_of_nil in Hp. by destruct Hp as [[= -> _]|[[= -> _]|[[= -> _]|[]]]]. }
  assert (forall pi sel, (pi, sel) ∈ counters -> zsum ((fun d => pi (cpu_health key d)) <$> cpus) = 0) as Hz.
  { intros pi sel Hp. unfold cpus. clear - Hp. unfold counters in Hp. rewrite !elem_of_cons, elem_of_nil in Hp.
    induction n as [|n IH]; [done|]. cbn. unfold zsum in IH. rewrite IH. by destruct Hp as [[= -> _]|[[= -> _]|[[= -> _]|[]]]]. }
  assert (length cpus = n) as Hn by apply length_replicate. rewrite <- Hn in Hps.
  destruct (track_run S key ps cpus Hok Hps Hs) as [[_ Hnn] Hsum]; [intros pi sel Hp; rewrite (Hz _ _ Hp); lia|].
  unfold r, get_backend_health. split.
  - transitivity (is_Some (health_keys (foldl track cpus ps) !! key)).
    { destruct (health_keys (foldl track cpus ps) !! key) as [c|]; [by split; intros _; eexists|]. by split; intros [c Hc]. }
    rewrite (track_run_present S key ps cpus Hok Hps Hs) by (intros pi sel Hp; rewrite (Hz _ _ Hp); lia).
    assert (~ is_Some (health_keys cpus !! key)); [|tauto].
    rewrite health_keys_Some. unfold cpus. clear. induction n as [|n IH]; cbn; [by intros ?%Exists_nil|].
    intros [[c Hc]|H]%Exists_cons; [discriminate Hc|by apply IH].
  - intros c Hc. destruct (health_keys _ !! key); [|done]. injection Hc as <-. unfold combine_health.
    assert (forall pi sel, (pi, sel) ∈ counters -> (forall a v, pi (add_health a v) = wrap64 (pi a + pi v)) -> pi zero_health = 0 ->
      pi (foldl add_health zero_health (cpu_health key <$> foldl track cpus ps)) = packets_to key sel ps) as H.
    { intros pi sel Hp Hadd H0. pose proof (Hsum _ _ Hp) as Hs'. rewrite (Hz _ _ Hp), Z.add_0_l in Hs'.
      assert (pi <$> (cpu_health key <$> foldl track cpus ps) = (fun d => pi (cpu_health key d)) <$> foldl track cpus ps) as Ef
        by by rewrite <- list_fmap_compose.
      rewrite sum_counters; rewrite ?H0, ?Ef, ?Hs'; [lia|done| |lia|].
      - apply Forall_fmap. exact (Hnn _ _ Hp).
      - unfold packets_to. pose proof (length_filter (fun p => to_key p = key /\ tcp_flags p <> 0 /\ sel (tcp_flags p) = true) ps). lia. }
    split; [|split]; apply H; try done; unfold counters; set_solver.
Qed.

(** * Addresses *)

Lemma ipv4_bytes_val p4 : length p4 = 4%nat -> Forall is_byte p4 -> ipv4_bytes (ip_val p4) = p4.
Proof.
  intros Hl Hb. destruct p4 as [|a [|b [|c [|d [|]]]]]; try discriminate Hl.
  repeat (apply Forall_cons in Hb as [? Hb]). unfold is_byte in *. unfold ipv4_bytes, ip_val, wrap8. cbn.
  rewrite !Z.shiftr_div_pow2 by lia. change (2 ^ 24) with (256 * 256 * 256). change (2 ^ 16) with (256 * 256). change (2 ^ 8) with 256.
  repeat f_equal; Z.div_mod_to_equations; lia.
Qed.

Lemma ipv4_bytes_ok a : 0 <= a < 2 ^ 32 -> length (ipv4_bytes a) = 4%nat /\ Forall is_byte (ipv4_bytes a) /\ ip_val (ipv4_bytes a) = a.
Proof.
  intros Ha. split; [done|]. split.
  - unfold ipv4_bytes, is_byte, wrap8. repeat (constructor; [apply Z.mod_pos_bound; lia|]). constructor.
  - unfold ipv4_bytes, ip_val, wrap8. cbn. rewrite !Z.shiftr_div_pow2 by lia.
    change (2 ^ 24) with (256 * 256 * 256). change (2 ^ 16) with (256 * 256). change (2 ^ 8) with 256.
    change (2 ^ 32) with (256 * 256 * 256 * 256) in Ha. Z.div_mod_to_equations; lia.
Qed.

(** * Attached programs *)

Inductive prog_op : Type := PAttach (loaded : option Z) (iface : string) (dir : AttachDirection) | PDetach (iface : string) (dir : AttachDirection).

Definition prog_step (p : programs) (op : prog_op) : programs :=
  match op with
  | PAttach loaded iface dir => (attach_program loaded iface dir p).1
  | PDetach iface dir => (detach_program iface dir p).1
  end.

Definition links_match (p : programs) : Prop :=
  Forall2 (fun a l => interface a = l.1.1 /\ attach_type a = l.1.2 /\
    exists dir, l.1.2 = type_str dir /\ l.2 = prog_name l.1.1 dir) (attached p) (tc_links p).

Lemma Forall2_filter {A B} (R : A -> B -> Prop) (P : A -> Prop) (Q : B -> Prop) `{!forall a, Decision (P a), !forall b, Decision (Q b)} l k :
  Forall2 R l k -> (forall a b, R a b -> P a <-> Q b) -> Forall2 R (filter P l) (filter Q k).
Proof.
  intros HR HPQ. induction HR as [|a b l k Hab _ IH]; [done|]. rewrite !filter_cons.
  pose proof (HPQ _ _ Hab). destruct (decide (P a)), (decide (Q b)); try tauto. by constructor.
Qed.

(** The status tells the truth about the interfaces: after any sequence of
    attachments and detachments, failed ones included, the programs it lists are
    those the daemon holds a link for, each the program of its interface and
    direction. *)
Theorem status_lists_links ops : links_match (foldl prog_step (mkPrograms [] []) ops).
Proof.
  assert (forall p, links_match p -> links_match (foldl prog_step p ops)) as H; [|apply H; by constructor].
  induction ops as [|op ops IH]; intros p Hp; cbn [foldl]; [done|]. apply IH. destruct op as [[id|] iface dir|iface dir]; cbn; [|done|].
  - apply Forall2_app; [done|]. constructor; [|constructor]. cbn. eauto.
  - apply Forall2_filter; [done|]. intros a l (-> & -> & _). done.
Qed.

Definition hex_digit (c : ascii) : bool :=
  let n := Z.of_nat (nat_of_ascii c) in ((48 <=? n) && (n <=? 57)) || ((97 <=? n) && (n <=? 102)).

Definition hex_string (s : string) : Prop := Forall (fun c => hex_digit c = true) (list_ascii_of_string s).

(** The daemon tells pods from tunnels by the names of interfaces.  The host end
    of a pod, named after the pod's container id in hexadecimal digits, gets the
    pod programs, with the directions swapped; the tunnel interfaces get the tunnel
    programs. *)
Theorem programs_fit_interfaces cid dir :
  hex_string cid -> cid <> "" ->
  prog_name ("nv" +:+ substring 0 11 cid) dir = (match dir with AttachTCIngress => "tc_egress" | AttachTCEgress => "tc_ingress" end) /\
  forall tun, tun = "nv_geneve" \/ tun = "nvx0" ->
    prog_name tun dir = (match dir with AttachTCIngress => "tc_tunnel_ingress" | AttachTCEgress => "tc_tunnel_egress" end).
Proof.
  intros Hh Hne. split; [|by intros tun [-> | ->]; destruct dir].
  destruct cid as [|c cid]; [done|]. unfold hex_string in Hh. cbn in Hh. apply Forall_cons in Hh as [Hc _].
  assert (c <> "_"%char /\ c <> "x"%char) as [H1 H2] by (split; intros ->; discriminate Hc).
  unfold prog_name, starts_with. cbn [substring]. generalize (substring 0 10 cid). intros rest.
  change ("nv" +:+ String c rest) with (String "n" (String "v" (String c rest))).
  assert (forall d, c <> d -> String.prefix (String "n" (String "v" (String d ""))) (String "n" (String "v" (String c rest))) = false) as Hp.
  { intros d Hd. cbn. destruct (ascii_dec d c); [congruence|done]. }
  rewrite (Hp "_"%char), (Hp "x"%char) by done. reflexivity.
Qed.

Lemma programs_fit_interfaces_witness :
  prog_name "nv0123456789a" AttachTCIngress = "tc_egress" /\ prog_name "nvx0" AttachTCIngress = "tc_tunnel_ingress".
Proof.
  destruct (programs_fit_interfaces "0123456789abcdef" AttachTCIngress) as [H1 H2].
  - repeat (constructor; [reflexivity|]). constructor.
  - discriminate.
  - split; [exact H1|]. apply H2. by right.
Defined.
