(* ===== verification/DpHost.v ===== *)
(** The host firewall and the XDP handlers of the dataplane daemon
    (novanet-dataplane/src/server.rs) over the longest-prefix-match tries IPCACHE and
    HOST_POLICIES (RealMaps in src/maps.rs).  The tries are optional: without them every
    operation fails.  Arithmetic wraps around, as in a release build. *)

From Stdlib Require Import ZArith Lia Ascii String.
From stdpp Require Import base tactics list gmap strings fin_maps.
From S2P Require Import Prelude GoStrings PolicyTable EbpfMaps Dataplane DpReads.

(** * Tries *)

(** The bits of a byte, the most significant first, as the kernel compares them. *)
Definition byte_bits (b : Z) : list bool := (fun i => Z.testbit b i) <$> [7; 6; 5; 4; 3; 2; 1; 0].
Definition bits (l : list Z) : list bool := l ≫= byte_bits.

(** A trie tells keys apart by the length of their prefix and the bits of their data that
    it covers. *)
Definition trie_key (prefix_len : Z) (data : list Z) : Z * list bool := (prefix_len, take (Z.to_nat prefix_len) (bits data)).
Abbreviation trie := (gmap (Z * list bool)).

(** The kernel refuses a prefix longer than the data, and may refuse an entry by the number
    of entries there are and whether it replaces one.  It may fail to remove an entry, and
    a walk over a table of actions yields keys until an error ends it. *)
Class TrieRoom := {
  trie_room : nat -> bool -> bool;
  trie_keeps : Z * list bool -> bool;
  trie_walk : trie Z -> list (Z * list bool) }.

Section tries.
Context {TR : TrieRoom}.

Definition trie_insert {A} (prefix_len : Z) (data : list Z) (v : A) (t : trie A) : option (trie A) :=
  if 8 * Z.of_nat (length data) <? prefix_len then None
  else if trie_room (size t) (bool_decide (is_Some (t !! trie_key prefix_len data))) then Some (<[trie_key prefix_len data := v]> t) else None.

Definition remove_key {A} (k : Z * list bool) (t : trie A) : option (trie A) :=
  match t !! k with
  | Some _ => if trie_keeps k then None else Some (delete k t)
  | None => None
  end.

Definition trie_remove {A} (prefix_len : Z) (data : list Z) (t : trie A) : option (trie A) := remove_key (trie_key prefix_len data) t.

(** The entries under the keys that can be removed go; how many. *)
Definition remove_keys {A} (existing : list (Z * list bool)) (t : trie A) : trie A * Z :=
  foldl (fun '(t, removed) k => match remove_key k t with Some t' => (t', wrap32 (removed + 1)) | None => (t, removed) end)
    (t, 0) existing.
End tries.

(** * Keys *)

Record IPCacheKey := mkIPCacheKey { ic_prefix_len : Z; ic_addr : list Z }.

Record HostPolicyKey := mkHostPolicyKey {
  hk_prefix_len : Z; hk_identity : Z; hk_direction : Z; hk_protocol : Z; hk_dst_port : Z }.

(** The structs as they lie in memory; they are the data of the keys. *)
Definition ipcache_bytes (k : IPCacheKey) : list Z := le_bytes 4 (ic_prefix_len k) ++ ic_addr k.
Definition host_key_bytes (k : HostPolicyKey) : list Z :=
  le_bytes 4 (hk_prefix_len k) ++ le_bytes 4 (hk_identity k) ++ [hk_direction k; hk_protocol k] ++ le_bytes 2 (hk_dst_port k).

Definition ipcache_key (k : IPCacheKey) : Z * list bool := trie_key (ic_prefix_len k) (ipcache_bytes k).
Definition host_key (k : HostPolicyKey) : Z * list bool := trie_key (hk_prefix_len k) (host_key_bytes k).

Definition HOST_POLICY_INGRESS : Z := 0.
Definition HOST_POLICY_EGRESS : Z := 1.
Definition HOST_POLICY_FULL_PREFIX : Z := 64.
Definition HOST_POLICY_PROTO_PREFIX : Z := 48.
Definition HOST_POLICY_IDENTITY_PREFIX : Z := 40.

Definition cidr_to_ipcache_key (cidr_ip : list Z) (prefix_len : Z) : result status IPCacheKey :=
  if Z.of_nat (length cidr_ip) =? 4 then
    Ok (mkIPCacheKey (wrap32 (prefix_len + 96)) (replicate 10 0 ++ [255; 255] ++ cidr_ip))
  else if Z.of_nat (length cidr_ip) =? 16 then Ok (mkIPCacheKey prefix_len cidr_ip)
  else Err InvalidArgument.

(** FNV-1a over the address and the length of the network. *)
Definition fnv (h b : Z) : Z := wrap32 (Z.lxor h b * 16777619).
Definition identity_for_cidr (cidr_ip : list Z) (prefix_len : Z) : Z :=
  let h := foldl fnv 2166136261 (cidr_ip ++ le_bytes 4 prefix_len) in
  wrap32 (1000 + h mod (4294967295 - 1000)).

Definition build_host_policy_key (identity direction protocol port : Z) : HostPolicyKey :=
  let prefix_len := if 0 <? port then HOST_POLICY_FULL_PREFIX
                    else if 0 <? protocol then HOST_POLICY_PROTO_PREFIX else HOST_POLICY_IDENTITY_PREFIX in
  mkHostPolicyKey prefix_len identity direction protocol port.

(** * Host policies *)

(** A request of [UpsertHostPolicy] and an entry of [SyncHostPolicies]; numbers are those
    of the message. *)
Record HostPolicyEntry := mkHostEntry {
  rule_id : string; he_direction : Z; he_action : Z; cidr_ip : list Z; cidr_prefix_len : Z;
  he_protocol : Z; he_port : Z; he_end_port : Z }.

Record HostRuleInfo := mkRuleInfo { ri_ipcache_key : IPCacheKey; policy_keys : list HostPolicyKey }.

(** The tries, if the eBPF object has them, and the rules by their id. *)
Record host_state := mkHost {
  ipcache : option (trie Z); host_policies : option (trie Z); host_rules : gmap string HostRuleInfo }.

Definition set_ipcache t s := mkHost t (host_policies s) (host_rules s).
Definition set_host_policies t s := mkHost (ipcache s) t (host_rules s).
Definition set_host_rules r s := mkHost (ipcache s) (host_policies s) r.

Section host.
Context {TR : TrieRoom}.

Definition upsert_ipcache (k : IPCacheKey) (identity : Z) (s : host_state) : host_state * bool :=
  match ipcache s with
  | None => (s, false)
  | Some t => match trie_insert (ic_prefix_len k) (ipcache_bytes k) identity t with
              | Some t' => (set_ipcache (Some t') s, true)
              | None => (s, false)
              end
  end.

Definition put_host_policy (k : HostPolicyKey) (action : Z) (s : host_state) : host_state * bool :=
  match host_policies s with
  | None => (s, false)
  | Some t => match trie_insert (hk_prefix_len k) (host_key_bytes k) action t with
              | Some t' => (set_host_policies (Some t') s, true)
              | None => (s, false)
              end
  end.

Definition drop_host_policy (k : HostPolicyKey) (s : host_state) : host_state :=
  match host_policies s with
  | None => s
  | Some t => set_host_policies (Some (default t (trie_remove (hk_prefix_len k) (host_key_bytes k) t))) s
  end.

(** One insertion after the other, up to the first that fails. *)
Fixpoint put_host_policies (l : list (HostPolicyKey * Z)) (s : host_state) : host_state * bool :=
  match l with
  | [] => (s, true)
  | (k, v) :: rest => match put_host_policy k v s with
                      | (s', true) => put_host_policies rest s'
                      | (s', false) => (s', false)
                      end
  end.

Definition host_direction (d : Z) : option Z :=
  if d =? 0 then Some HOST_POLICY_INGRESS else if d =? 1 then Some HOST_POLICY_EGRESS else None.
Definition host_action (a : Z) : Z := if a =? 1 then ACTION_ALLOW else ACTION_DENY.

(** The keys of a rule, or none for a range that is too long.  The length of a range is
    computed in 16 bits. *)
Definition is_range (port end_port : Z) : bool := (port <? end_port) && (0 <? end_port).
Definition range_size (port end_port : Z) : Z := wrap16 (end_port - port + 1).

Definition rule_keys (identity direction : Z) (e : HostPolicyEntry) : option (list HostPolicyKey) :=
  let protocol := wrap8 (he_protocol e) in
  let port := wrap16 (he_port e) in
  let end_port := wrap16 (he_end_port e) in
  if is_range port end_port then
    if 1024 <? range_size port end_port then None
    else Some (build_host_policy_key identity direction protocol <$> seqZ port (end_port - port + 1))
  else Some [build_host_policy_key identity direction protocol port].

Definition upsert_host_policy (e : HostPolicyEntry) (s : host_state) : host_state * result status unit :=
  match cidr_ip e with
  | [] => (s, Err InvalidArgument)
  | _ =>
    match host_direction (he_direction e) with
    | None => (s, Err InvalidArgument)
    | Some direction =>
      let identity := identity_for_cidr (cidr_ip e) (cidr_prefix_len e) in
      match cidr_to_ipcache_key (cidr_ip e) (cidr_prefix_len e) with
      | Err c => (s, Err c)
      | Ok ick =>
        match upsert_ipcache ick identity s with
        | (s, false) => (s, Err Internal)
        | (s, true) =>
          match rule_keys identity direction e with
          | None => (s, Err InvalidArgument)
          | Some keys =>
            match put_host_policies ((fun k => (k, host_action (he_action e))) <$> keys) s with
            | (s, false) => (s, Err Internal)
            | (s, true) => (set_host_rules (<[rule_id e := mkRuleInfo ick keys]> (host_rules s)) s, Ok tt)
            end
          end
        end
      end
    end
  end.

(** Always successful; failures to remove an entry are logged. *)
Definition delete_host_policy (id : string) (s : host_state) : host_state :=
  match host_rules s !! id with
  | None => s
  | Some info => foldl (fun s k => drop_host_policy k s) (set_host_rules (delete id (host_rules s)) s) (policy_keys info)
  end.

(** The loop of [sync_host_policies]: entries that cannot be used are skipped, a failure
    of the cache ends it. *)
Fixpoint collect (l : list HostPolicyEntry) (entries : list (HostPolicyKey * Z)) (rules : gmap string HostRuleInfo) (s : host_state)
    : host_state * option (list (HostPolicyKey * Z) * gmap string HostRuleInfo) :=
  match l with
  | [] => (s, Some (entries, rules))
  | e :: rest =>
    match cidr_ip e with
    | [] => collect rest entries rules s
    | _ =>
      match host_direction (he_direction e) with
      | None => collect rest entries rules s
      | Some direction =>
        let identity := identity_for_cidr (cidr_ip e) (cidr_prefix_len e) in
        match cidr_to_ipcache_key (cidr_ip e) (cidr_prefix_len e) with
        | Err _ => collect rest entries rules s
        | Ok ick =>
          match upsert_ipcache ick identity s with
          | (s, false) => (s, None)
          | (s, true) =>
            match rule_keys identity direction e with
            | None => collect rest entries rules s
            | Some keys =>
              collect rest (entries ++ ((fun k => (k, host_action (he_action e))) <$> keys))
                (<[rule_id e := mkRuleInfo ick keys]> rules) s
            end
          end
        end
      end
    end
  end.

(** [sync_host_policies] of the maps: the entries that the walk yields are removed, if the
    kernel lets them, then the new ones inserted. *)
Definition replace_host_policies (l : list (HostPolicyKey * Z)) (s : host_state) : host_state * option (Z * Z) :=
  match host_policies s with
  | None => (s, None)
  | Some t =>
      let '(t, removed) := remove_keys (trie_walk t) t in
      match put_host_policies l (set_host_policies (Some t) s) with
      | (s, true) => (s, Some (wrap32 (Z.of_nat (length l)), removed))
      | (s, false) => (s, None)
      end
  end.

Definition sync_host_policies (l : list HostPolicyEntry) (s : host_state) : host_state * result status (Z * Z) :=
  match collect l [] ∅ s with
  | (s, None) => (s, Err Internal)
  | (s, Some (entries, rules)) =>
      match replace_host_policies entries s with
      | (s, None) => (s, Err Internal)
      | (s, Some counts) => (set_host_rules rules s, Ok counts)
      end
  end.
End host.

(** * What the tries tell apart *)

Lemma bits_take n l : take (8 * n) (bits l) = bits (take n l).
Proof.
  revert l. induction n as [|n IH]; intros [|b l]; [done..|by rewrite take_nil|].
  replace (8 * S n)%nat with (8 + 8 * n)%nat by lia. change (bits (b :: l)) with (byte_bits b ++ bits l).
  rewrite take_app_add' by done. by rewrite IH.
Qed.

Lemma bits_app l k : bits (l ++ k) = bits l ++ bits k.
Proof. apply bind_app. Qed.

Lemma length_bits l : length (bits l) = (8 * length l)%nat.
Proof. induction l as [|b l IH]; [done|]. change (bits (b :: l)) with (byte_bits b ++ bits l). rewrite length_app, IH. cbn. lia. Qed.

(** A rule with a port is entered under its network alone. *)
Lemma port_rule_key identity direction protocol port :
  0 < port ->
  host_key (build_host_policy_key identity direction protocol port) = (64, bits (le_bytes 4 64 ++ le_bytes 4 identity)).
Proof.
  intros Hp. unfold host_key, build_host_policy_key, trie_key. rewrite (proj2 (Z.ltb_lt 0 port) Hp).
  cbn [hk_prefix_len]. change (Z.to_nat HOST_POLICY_FULL_PREFIX) with (8 * 8)%nat. by rewrite bits_take.
Qed.

(** The same holds of networks: an IPv4 network is entered under its length alone. *)
Lemma ipv4_cache_key a p k :
  length a = 4%nat -> 0 <= p <= 32 -> cidr_to_ipcache_key a p = Ok k ->
  ipcache_key k = (p + 96, take (Z.to_nat (p + 96)) (bits (le_bytes 4 (p + 96) ++ replicate 10 0 ++ [255; 255]))).
Proof.
  intros Ha Hp. unfold cidr_to_ipcache_key. rewrite Ha. intros [= <-]. unfold ipcache_key, trie_key, ipcache_bytes. cbn [ic_prefix_len ic_addr].
  rewrite wrap32_small by lia. f_equal.
  assert (forall pre mapped : list Z, (length pre + length mapped = 16)%nat ->
    take (Z.to_nat (p + 96)) (bits (pre ++ mapped ++ a)) = take (Z.to_nat (p + 96)) (bits (pre ++ mapped))) as H.
  { intros pre mapped Hl. rewrite (assoc_L (++)), (bits_app _ a), take_app_le; [done|]. rewrite length_bits, length_app. lia. }
  by apply (H (le_bytes 4 (p + 96)) (replicate 10 0 ++ [255; 255])).
Qed.

(** The limit on the length of a range is passed by the longest range alone, whose length
    does not fit in 16 bits. *)
Lemma range_limit port end_port :
  0 <= port < 65536 -> 0 <= end_port < 65536 -> is_range port end_port = true ->
  (1024 <? range_size port end_port) = false <-> end_port - port < 1024 \/ (port = 0 /\ end_port = 65535).
Proof.
  intros Hp He. unfold is_range, range_size, wrap16. rewrite andb_true_iff, !Z.ltb_lt, Z.ltb_ge. intros [H1 H2].
  change (2 ^ 16) with 65536. Z.div_mod_to_equations. lia.
Qed.

Lemma fnv_range h b : 0 <= fnv h b < 2 ^ 32.
Proof. unfold fnv, wrap32. by apply Z.mod_pos_bound. Qed.

(** The identity of a network is outside the reserved ones. *)
Lemma identity_for_cidr_range a p : 1000 <= identity_for_cidr a p < 2 ^ 32 - 1.
Proof.
  unfold identity_for_cidr. set (h := foldl fnv _ _). pose proof (Z.mod_pos_bound h (4294967295 - 1000) ltac:(lia)).
  rewrite wrap32_small by lia. lia.
Qed.

(** * Insertions *)

Section room.
Context {TR : TrieRoom} (room : nat).
Hypothesis Hroom : forall n old, (n < room)%nat -> trie_room n old = true.
Hypothesis Hkeeps : forall k, trie_keeps k = false.

Definition entry_map (l : list (HostPolicyKey * Z)) (t : trie Z) : trie Z := foldl (fun t kv => <[host_key kv.1 := kv.2]> t) t l.

Lemma size_insert_le {A} (k : Z * list bool) (v : A) (t : trie A) : (size (<[k := v]> t) <= S (size t))%nat.
Proof. destruct (t !! k) eqn:E; [rewrite map_size_insert_Some by eauto; lia|rewrite map_size_insert_None by done; lia]. Qed.

Definition key_fits (k : HostPolicyKey) : Prop := hk_prefix_len k <= 96.

Lemma built_key_fits i d p port : key_fits (build_host_policy_key i d p port).
Proof. unfold key_fits, build_host_policy_key. cbn. repeat case_match; done. Qed.

Lemma length_host_key_bytes k : length (host_key_bytes k) = 12%nat.
Proof. unfold host_key_bytes. by rewrite !length_app, !length_le_bytes. Qed.

Lemma put_host_policies_ok l t s :
  host_policies s = Some t -> Forall (fun kv => key_fits kv.1) l -> (size t + length l <= room)%nat ->
  put_host_policies l s = (set_host_policies (Some (entry_map l t)) s, true).
Proof.
  intros Hs Hl. revert t s Hs. induction Hl as [|[k v] l Hk _ IH]; intros t s Hs Hn; cbn [put_host_policies entry_map foldl length fst snd] in *.
  { destruct s. cbn in *. by rewrite Hs. }
  unfold put_host_policy. rewrite Hs. unfold trie_insert. rewrite length_host_key_bytes.
  rewrite (proj2 (Z.ltb_ge _ _)) by (unfold key_fits in Hk; cbn in *; lia). rewrite Hroom by lia.
  rewrite (IH (<[host_key k := v]> t)); [done|done|]. pose proof (size_insert_le (host_key k) v t). lia.
Qed.

Definition cidr_fits (e : HostPolicyEntry) : Prop :=
  (length (cidr_ip e) = 4%nat /\ 0 <= cidr_prefix_len e <= 32) \/ (length (cidr_ip e) = 16%nat /\ 0 <= cidr_prefix_len e <= 128).

Lemma cidr_key_ok e : cidr_fits e -> exists k, cidr_to_ipcache_key (cidr_ip e) (cidr_prefix_len e) = Ok k /\
  length (ipcache_bytes k) = 20%nat /\ ic_prefix_len k <= 128.
Proof.
  intros [[Hl Hp]|[Hl Hp]]; unfold cidr_to_ipcache_key; rewrite Hl; eexists; (split; [reflexivity|]); unfold ipcache_bytes; cbn [ic_prefix_len ic_addr].
  - rewrite !length_app, length_le_bytes, length_replicate, Hl. split; [done|]. rewrite wrap32_small; lia.
  - rewrite !length_app, length_le_bytes, Hl. split; [done|]. lia.
Qed.

Lemma upsert_ipcache_ok k i c s :
  ipcache s = Some c -> length (ipcache_bytes k) = 20%nat -> ic_prefix_len k <= 128 -> (size c < room)%nat ->
  upsert_ipcache k i s = (set_ipcache (Some (<[ipcache_key k := i]> c)) s, true).
Proof.
  intros Hs Hl Hp Hc. unfold upsert_ipcache, trie_insert. rewrite Hs, Hl, Hroom by done. by rewrite (proj2 (Z.ltb_ge _ _)) by lia.
Qed.

Lemma entry_map_lookup l t k :
  entry_map l t !! k = match last (filter (fun kv => host_key kv.1 = k) l) with Some kv => Some kv.2 | None => t !! k end.
Proof.
  induction l as [|[k' v] l IH] using rev_ind; [done|]. unfold entry_map in *. rewrite foldl_snoc, filter_app. cbn [fst snd].
  rewrite filter_cons, filter_nil. cbn [fst]. destruct (decide (host_key k' = k)) as [<-|Hne].
  - by rewrite lookup_insert_eq, last_snoc.
  - by rewrite lookup_insert_ne, app_nil_r.
Qed.

(** What a list of rules asks for: the keys of each rule that can be used with its action,
    and the rules by their ids. *)
Definition wanted (e : HostPolicyEntry) : option (list HostPolicyKey) :=
  match host_direction (he_direction e) with
  | Some d => rule_keys (identity_for_cidr (cidr_ip e) (cidr_prefix_len e)) d e
  | None => None
  end.
Definition with_action (e : HostPolicyEntry) (keys : list HostPolicyKey) : list (HostPolicyKey * Z) :=
  (fun k => (k, host_action (he_action e))) <$> keys.
Definition wanted_entries (e : HostPolicyEntry) : list (HostPolicyKey * Z) := with_action e (default [] (wanted e)).
Definition wanted_rules (rules : gmap string HostRuleInfo) (e : HostPolicyEntry) : gmap string HostRuleInfo :=
  match wanted e, cidr_to_ipcache_key (cidr_ip e) (cidr_prefix_len e) with
  | Some keys, Ok ick => <[rule_id e := mkRuleInfo ick keys]> rules
  | _, _ => rules
  end.

Lemma rule_keys_fit i d e keys : rule_keys i d e = Some keys -> Forall key_fits keys.
Proof.
  unfold rule_keys. destruct (is_range _ _); [destruct (1024 <? _); [done|]|]; intros [= <-].
  - apply Forall_fmap, Forall_true. intros. apply built_key_fits.
  - constructor; [apply built_key_fits|constructor].
Qed.

Lemma wanted_entries_fit l : Forall (fun kv => key_fits kv.1) (l ≫= wanted_entries).
Proof.
  apply Forall_forall. intros kv (e & Hkv & _)%list_elem_of_bind. unfold wanted_entries, with_action, wanted in Hkv.
  apply list_elem_of_fmap in Hkv as (k & -> & Hk). cbn. destruct (host_direction _); [|by apply elem_of_nil in Hk].
  destruct (rule_keys _ _ _) as [keys|] eqn:E; [|by apply elem_of_nil in Hk]. apply rule_keys_fit in E. by eapply Forall_forall in E.
Qed.

Lemma cidr_nonempty e : cidr_fits e -> exists b r, cidr_ip e = b :: r.
Proof. intros [[H _]|[H _]]; destruct (cidr_ip e); try done; by eexists _, _. Qed.

Lemma collect_ok l entries rules c s :
  ipcache s = Some c -> Forall cidr_fits l -> (size c + length l <= room)%nat ->
  exists c', collect l entries rules s = (set_ipcache (Some c') s, Some (entries ++ (l ≫= wanted_entries), foldl wanted_rules rules l)).
Proof.
  intros Hs Hl. revert entries rules c s Hs. induction Hl as [|e l He _ IH]; intros entries rules c s Hs Hn; cbn [length] in Hn.
  { exists c. destruct s. cbn in *. by rewrite app_nil_r, Hs. }
  destruct (cidr_nonempty e He) as (b & r & Hb). destruct (cidr_key_ok e He) as (k & Hk & Hkl & Hkp).
  assert (forall i, size (<[ipcache_key k := i]> c) + length l <= room)%nat as Hsz.
  { intros i. pose proof (size_insert_le (ipcache_key k) i c). lia. }
  cbn [collect foldl]. rewrite Hb. rewrite <- Hb. change ((e :: l) ≫= wanted_entries) with (wanted_entries e ++ (l ≫= wanted_entries)).
  unfold wanted_entries at 1, with_action, wanted_rules at 2, wanted. destruct (host_direction (he_direction e)) as [d|].
  2:{ destruct (IH entries rules c s Hs ltac:(lia)) as (c' & ->). by exists c'. }
  rewrite Hk, (upsert_ipcache_ok k _ c s Hs Hkl Hkp) by lia. set (s1 := set_ipcache _ s).
  assert (forall x, set_ipcache x s1 = set_ipcache x s) as Hset by done.
  destruct (rule_keys _ d e) as [keys|].
  - destruct (IH (entries ++ with_action e keys) (<[rule_id e := mkRuleInfo k keys]> rules) _ s1 eq_refl (Hsz _)) as (c' & E).
    exists c'. rewrite <- Hset, (assoc_L (++)). exact E.
  - destruct (IH entries rules _ s1 eq_refl (Hsz _)) as (c' & E). exists c'. rewrite <- Hset. exact E.
Qed.

(** A walk that meets no error yields every key. *)
Lemma remove_keys_all (ks : list (Z * list bool)) (t : trie Z) :
  (forall k, is_Some (t !! k) -> k ∈ ks) -> (remove_keys ks t).1 = ∅.
Proof.
  unfold remove_keys. generalize 0. revert t. induction ks as [|k ks IH]; intros t n Hk; cbn [foldl].
  { apply map_empty. intros k. apply eq_None_not_Some. intros H%Hk. by apply elem_of_nil in H. }
  unfold remove_key at 2. rewrite Hkeeps. destruct (t !! k) eqn:E; apply IH; intros k' H.
  - destruct (decide (k' = k)) as [->|Hne]; [rewrite lookup_delete_eq in H; by destruct H|].
    rewrite lookup_delete_ne in H by done. by apply Hk, elem_of_cons in H as [?|?].
  - apply Hk in H as Hin. apply elem_of_cons in Hin as [->|?]; [rewrite E in H; by destruct H|done].
Qed.

(** A synchronisation replaces the tables of a daemon that has them, if the walk over the
    old entries meets no error and every removal works: afterwards the entry under a key is
    that of the last rule with that key, no other entry is left, and the rules known by id
    are those of the request. *)
Theorem sync_replaces_host_rules l c t s :
  (forall k, is_Some (t !! k) -> k ∈ trie_walk t) ->
  ipcache s = Some c -> host_policies s = Some t -> Forall cidr_fits l ->
  (size c + length l <= room)%nat -> (length (l ≫= wanted_entries) <= room)%nat ->
  exists s' t' counts, sync_host_policies l s = (s', Ok counts) /\ host_policies s' = Some t' /\
    (forall k, t' !! k = snd <$> last (filter (fun kv => host_key kv.1 = k) (l ≫= wanted_entries))) /\
    host_rules s' = foldl wanted_rules ∅ l.
Proof.
  intros Hw Hc Ht Hl Hcr Hr. destruct (collect_ok l [] ∅ c s Hc Hl Hcr) as (c' & E). unfold sync_host_policies. rewrite E. cbn [app].
  unfold replace_host_policies. cbn [host_policies set_ipcache]. rewrite Ht. pose proof (remove_keys_all _ _ Hw) as He.
  destruct (remove_keys (trie_walk t) t) as [t0 n]. cbn [fst] in He. subst t0.
  erewrite put_host_policies_ok; [|reflexivity|apply wanted_entries_fit|rewrite map_size_empty; lia].
  eexists _, _, _. split; [reflexivity|]. split; [reflexivity|]. split; [|done].
  intros k. rewrite entry_map_lookup. destruct (last _); [done|apply lookup_empty].
Qed.

(** ** Single rules *)

Lemma upsert_ok e keys c t s :
  ipcache s = Some c -> host_policies s = Some t -> cidr_fits e -> wanted e = Some keys ->
  (size c < room)%nat -> (size t + length keys <= room)%nat ->
  exists k, cidr_to_ipcache_key (cidr_ip e) (cidr_prefix_len e) = Ok k /\
    upsert_host_policy e s =
      (mkHost (Some (<[ipcache_key k := identity_for_cidr (cidr_ip e) (cidr_prefix_len e)]> c)) (Some (entry_map (with_action e keys) t))
         (<[rule_id e := mkRuleInfo k keys]> (host_rules s)), Ok tt).
Proof.
  intros Hc Ht He Hw Hcr Htr. destruct (cidr_nonempty e He) as (b & r & Hb). destruct (cidr_key_ok e He) as (k & Hk & Hkl & Hkp).
  exists k. split; [done|]. unfold upsert_host_policy. rewrite Hb. rewrite <- Hb. unfold wanted in Hw.
  destruct (host_direction (he_direction e)) as [d|]; [|done]. rewrite Hk, (upsert_ipcache_ok k _ c s Hc Hkl Hkp) by done.
  rewrite Hw. fold (with_action e keys). erewrite (put_host_policies_ok (with_action e keys) t); [done|done| |].
  - apply Forall_fmap. by eapply rule_keys_fit.
  - unfold with_action. by rewrite length_fmap.
Qed.

Lemma trie_remove_lookup {A} (p : Z) (data : list Z) (t : trie A) (x : Z * list bool) :
  default t (trie_remove p data t) !! x = if decide (x = trie_key p data) then None else t !! x.
Proof.
  unfold trie_remove, remove_key. generalize (trie_key p data). intros y. rewrite Hkeeps.
  destruct (t !! y) eqn:E; cbn; destruct (decide (x = y)) as [->|]; [apply lookup_delete_eq|by rewrite lookup_delete_ne|done|done].
Qed.

Lemma drop_lookup keys t s :
  host_policies s = Some t ->
  exists t', foldl (fun s k => drop_host_policy k s) s keys = set_host_policies (Some t') s /\
    forall x, t' !! x = if decide (x ∈ host_key <$> keys) then None else t !! x.
Proof.
  revert t s. induction keys as [|k keys IH]; intros t s Hs.
  { exists t. cbn. split; [destruct s; cbn in *; by rewrite Hs|]. intros x. by rewrite decide_False by apply not_elem_of_nil. }
  cbn [foldl]. destruct (IH (default t (trie_remove (hk_prefix_len k) (host_key_bytes k) t)) (drop_host_policy k s)) as (t' & -> & Ht').
  { unfold drop_host_policy. by rewrite Hs. }
  exists t'. split; [unfold drop_host_policy; by rewrite Hs|]. intros x. rewrite Ht'. rewrite fmap_cons.
  rewrite trie_remove_lookup. destruct (decide (x = _)) as [Hx|Hx].
  - destruct (decide (x ∈ host_key k :: _)) as [|Hn]; [by destruct (decide _)|]. destruct Hn. rewrite Hx. apply list_elem_of_here.
  - destruct (decide (x ∈ host_key <$> keys)) as [Hi|Hi], (decide (x ∈ host_key k :: _)) as [Hj|Hj]; try done.
    + destruct Hj. by apply list_elem_of_further.
    + by apply elem_of_cons in Hj as [?|?].
Qed.

Lemma delete_lookup id info t s :
  host_rules s !! id = Some info -> host_policies s = Some t ->
  exists t', host_policies (delete_host_policy id s) = Some t' /\ host_rules (delete_host_policy id s) = delete id (host_rules s) /\
    forall x, t' !! x = if decide (x ∈ host_key <$> policy_keys info) then None else t !! x.
Proof.
  intros Hi Ht. unfold delete_host_policy. rewrite Hi.
  destruct (drop_lookup (policy_keys info) t (set_host_rules (delete id (host_rules s)) s) Ht) as (t' & -> & Hx). by exists t'.
Qed.

(** Deleting a rule takes back what entering it did, if its id is new and the table has
    no entry under its keys. *)
Theorem delete_undoes_host_rule e keys c t s s' r :
  ipcache s = Some c -> host_policies s = Some t -> cidr_fits e -> wanted e = Some keys ->
  (size c < room)%nat -> (size t + length keys <= room)%nat ->
  host_rules s !! rule_id e = None -> Forall (fun k => t !! host_key k = None) keys ->
  upsert_host_policy e s = (s', r) ->
  r = Ok tt /\ host_policies (delete_host_policy (rule_id e) s') = Some t /\ host_rules (delete_host_policy (rule_id e) s') = host_rules s.
Proof.
  intros Hc Ht He Hw Hcr Htr Hid Hk E. destruct (upsert_ok e keys c t s Hc Ht He Hw Hcr Htr) as (k & _ & E'). rewrite E in E'. injection E' as -> ->.
  split; [done|]. set (s' := mkHost _ _ _).
  assert (host_rules s' !! rule_id e = Some (mkRuleInfo k keys)) as Hr by apply lookup_insert_eq.
  destruct (delete_lookup _ _ (entry_map (with_action e keys) t) s' Hr eq_refl) as (t' & -> & -> & Ht').
  split; [|cbn; by rewrite delete_insert_id]. cbn [policy_keys] in Ht'.
  f_equal. apply map_eq. intros x. rewrite Ht', entry_map_lookup. destruct (decide (x ∈ host_key <$> keys)) as [Hx|Hx].
  - apply list_elem_of_fmap in Hx as (y & -> & Hy). by rewrite (proj1 (Forall_forall _ _) Hk y Hy).
  - destruct (last _) as [[y v]|] eqn:El; [|done]. apply last_Some_elem_of, list_elem_of_filter in El as [<- Hy].
    apply list_elem_of_fmap in Hy as (z & [= -> _] & Hz). destruct Hx. by apply list_elem_of_fmap_2.
Qed.

(** A rule with one port. *)
Definition single_port (e : HostPolicyEntry) : Prop := 0 < wrap16 (he_port e) /\ is_range (wrap16 (he_port e)) (wrap16 (he_end_port e)) = false.

Lemma single_port_wanted e d :
  host_direction (he_direction e) = Some d -> single_port e -> exists k, wanted e = Some [k] /\
    host_key k = (64, bits (le_bytes 4 64 ++ le_bytes 4 (identity_for_cidr (cidr_ip e) (cidr_prefix_len e)))).
Proof.
  intros Hd [Hp Hr]. eexists. unfold wanted, rule_keys. rewrite Hd, Hr. split; [reflexivity|]. by apply port_rule_key.
Qed.

(** Two rules for ports of one network share one entry: the data of a key begins with its
    prefix length, so the 64 bits that are compared end before direction, protocol and
    port.  The rule entered last decides for both, and deleting one deletes both. *)
Theorem host_rules_share_entry e1 e2 d1 d2 c t s s1 s2 :
  ipcache s = Some c -> host_policies s = Some t -> cidr_fits e1 ->
  cidr_ip e2 = cidr_ip e1 -> cidr_prefix_len e2 = cidr_prefix_len e1 -> rule_id e1 <> rule_id e2 ->
  host_direction (he_direction e1) = Some d1 -> host_direction (he_direction e2) = Some d2 -> single_port e1 -> single_port e2 ->
  (size c + 1 < room)%nat -> (size t + 2 <= room)%nat ->
  (upsert_host_policy e1 s).1 = s1 -> (upsert_host_policy e2 s1).1 = s2 ->
  exists k1 k2 t2 t3, wanted e1 = Some [k1] /\ wanted e2 = Some [k2] /\
    host_policies s2 = Some t2 /\ t2 !! host_key k1 = Some (host_action (he_action e2)) /\
    host_policies (delete_host_policy (rule_id e1) s2) = Some t3 /\ t3 !! host_key k2 = None.
Proof.
  intros Hc Ht He Hip Hpl Hid Hd1 Hd2 Hp1 Hp2 Hcr Htr E1 E2.
  destruct (single_port_wanted e1 d1 Hd1 Hp1) as (k1 & Hw1 & Hk1). destruct (single_port_wanted e2 d2 Hd2 Hp2) as (k2 & Hw2 & Hk2).
  rewrite Hip, Hpl in Hk2. assert (cidr_fits e2) as He2 by (unfold cidr_fits; rewrite Hip, Hpl; exact He).
  destruct (upsert_ok e1 [k1] c t s Hc Ht He Hw1) as (i1 & _ & U1); [lia|cbn; lia|]. rewrite U1 in E1. cbn [fst] in E1.
  pose proof (size_insert_le (ipcache_key i1) (identity_for_cidr (cidr_ip e1) (cidr_prefix_len e1)) c).
  pose proof (size_insert_le (host_key k1) (host_action (he_action e1)) t).
  assert (ipcache s1 = Some (<[ipcache_key i1 := identity_for_cidr (cidr_ip e1) (cidr_prefix_len e1)]> c)) as Hc1 by (by rewrite <- E1).
  assert (host_policies s1 = Some (<[host_key k1 := host_action (he_action e1)]> t)) as Ht1 by (by rewrite <- E1).
  destruct (upsert_ok e2 [k2] _ _ s1 Hc1 Ht1 He2 Hw2) as (i2 & _ & U2); [lia|cbn; lia|]. rewrite U2 in E2. cbn [fst] in E2. subst s1 s2.
  set (s2 := mkHost _ _ _). assert (host_rules s2 !! rule_id e1 = Some (mkRuleInfo i1 [k1])) as Hr.
  { cbn. by rewrite lookup_insert_ne, lookup_insert_eq. }
  destruct (delete_lookup _ _ _ s2 Hr eq_refl) as (t3 & E3 & _ & Ht3).
  exists k1, k2. eexists _, t3. split; [done|]. split; [done|]. split; [reflexivity|]. split; [rewrite Hk1, <- Hk2; apply lookup_insert_eq|].
  split; [done|]. rewrite Ht3, decide_True; [done|]. rewrite Hk2, <- Hk1. apply list_elem_of_here.
Qed.
End room.

(** * XDP programs *)

(** The programs the status lists, the traffic-control ones among them, and the XDP links
    that keep programs attached. *)
Record xdp_state := mkXdp { xs_attached : list AttachedProgramInfo; xdp_links : list string }.

Definition is_xdp (iface : string) (a : AttachedProgramInfo) : bool :=
  String.eqb (interface a) iface && String.prefix "xdp" (attach_type a).

Definition mode_str (native : bool) : string := if native then "native" else "skb".

(** [loaded] is the id of the program if the object has it and the kernel accepts the
    attachment. *)
Definition attach_xdp (loaded : option Z) (mode : Z) (iface : string) (x : xdp_state) : xdp_state * result status unit :=
  match (if mode =? 0 then Some true else if mode =? 1 then Some false else None) with
  | None => (x, Err InvalidArgument)
  | Some native =>
      match loaded with
      | None => (x, Err Internal)
      | Some id =>
          (mkXdp (xs_attached x ++ [mkAttached iface ("xdp_" +:+ mode_str native) id]) (xdp_links x ++ [iface]), Ok tt)
      end
  end.

Definition detach_xdp (iface : string) (x : xdp_state) : xdp_state :=
  mkXdp (filter (fun a => is_xdp iface a = false) (xs_attached x)) (filter (fun i => String.eqb i iface = false) (xdp_links x)).

Inductive xdp_op : Type := XAttach (loaded : option Z) (mode : Z) (iface : string) | XDetach (iface : string).

Definition xdp_step (x : xdp_state) (op : xdp_op) : xdp_state :=
  match op with XAttach loaded mode iface => (attach_xdp loaded mode iface x).1 | XDetach iface => detach_xdp iface x end.

Definition xdp_listed (x : xdp_state) : list string := interface <$> filter (fun a => String.prefix "xdp" (attach_type a) = true) (xs_attached x).

Lemma xdp_listed_detach iface x :
  xdp_listed (detach_xdp iface x) = filter (fun i => String.eqb i iface = false) (xdp_listed x).
Proof.
  unfold xdp_listed, detach_xdp. cbn [xs_attached]. induction (xs_attached x) as [|a l IH]; [done|].
  assert (is_xdp iface a = String.eqb (interface a) iface && String.prefix "xdp" (attach_type a)) as Hx by done.
  assert (forall P (d : forall a, Decision (P a)) x, filter P (x :: l) = if decide (P x) then x :: filter P l else filter P l) as Hc by done.
  rewrite (Hc (fun a => String.prefix _ _ = true)). destruct (decide (String.prefix "xdp" (attach_type a) = true)) as [H2|H2].
  - rewrite H2, andb_true_r in Hx. rewrite fmap_cons, (filter_cons _ (interface a)), <- Hx, Hc.
    destruct (decide (is_xdp iface a = false)); [|done]. rewrite filter_cons, decide_True by done. by rewrite fmap_cons, IH.
  - apply not_true_is_false in H2. rewrite H2, andb_false_r in Hx. rewrite Hc, decide_True by done.
    by rewrite filter_cons, decide_False by congruence.
Qed.

Definition other_programs (x : xdp_state) : list AttachedProgramInfo := filter (fun a => String.prefix "xdp" (attach_type a) = false) (xs_attached x).

Lemma other_programs_detach iface x : other_programs (detach_xdp iface x) = other_programs x.
Proof.
  unfold other_programs, detach_xdp. cbn [xs_attached]. rewrite list_filter_filter_l; [done|]. intros a Ha.
  unfold is_xdp. rewrite Ha. apply andb_false_r.
Qed.

(** The status names exactly the interfaces the daemon holds an XDP link for, in order and
    as often, after any sequence of attachments and detachments, whatever the kernel
    refuses; programs of other kinds are left alone. *)
Theorem status_lists_xdp_links ops x :
  xdp_listed x = xdp_links x ->
  xdp_listed (foldl xdp_step x ops) = xdp_links (foldl xdp_step x ops) /\ other_programs (foldl xdp_step x ops) = other_programs x.
Proof.
  revert x. induction ops as [|op ops IH]; intros x Hx; cbn [foldl]; [done|].
  assert (xdp_listed (xdp_step x op) = xdp_links (xdp_step x op) /\ other_programs (xdp_step x op) = other_programs x) as [H1 H2].
  { destruct op as [loaded mode iface|iface]; cbn [xdp_step].
    - unfold attach_xdp. destruct (if mode =? 0 then _ else _) as [native|]; [|done]. destruct loaded as [id|]; [|done].
      unfold xdp_listed, other_programs. cbn [fst xs_attached xdp_links]. rewrite !filter_app, fmap_app, !filter_cons, filter_nil. cbn.
      rewrite app_nil_r. split; [|done]. f_equal. exact Hx.
    - split; [|apply other_programs_detach]. rewrite xdp_listed_detach, Hx. done. }
  destruct (IH _ H1) as [-> ->]. done.
Qed.

(** * Examples *)

#[local] Instance roomy : TrieRoom :=
  { trie_room n _ := bool_decide (n < 16384)%nat; trie_keeps _ := false; trie_walk t := (map_to_list t).*1 }.

Lemma roomy_room n old : (n < 16384)%nat -> trie_room n old = true.
Proof. intros H. apply bool_decide_eq_true_2. exact H. Qed.

Definition empty_host : host_state := mkHost (Some ∅) (Some ∅) ∅.

(** SSH from one network is allowed, the database port is not. *)
Definition ssh_entry : HostPolicyEntry := mkHostEntry "node/ingress/0" 0 1 [10; 0; 0; 0] 8 6 22 0.
Definition db_entry : HostPolicyEntry := mkHostEntry "node/ingress/1" 0 0 [10; 0; 0; 0] 8 6 5432 0.

Lemma ssh_fits : cidr_fits ssh_entry.
Proof. left. split; [reflexivity|cbn; lia]. Qed.
Lemma db_fits : cidr_fits db_entry.
Proof. left. split; [reflexivity|cbn; lia]. Qed.

Lemma sync_replaces_host_rules_witness :
  exists s' t' counts, sync_host_policies [ssh_entry; db_entry] empty_host = (s', Ok counts) /\ host_policies s' = Some t' /\
    host_rules s' = foldl wanted_rules ∅ [ssh_entry; db_entry].
Proof.
  destruct (sync_replaces_host_rules 16384 roomy_room (fun _ => eq_refl) [ssh_entry; db_entry] ∅ ∅ empty_host) as (s' & t' & n & H1 & H2 & _ & H3).
  - intros k [v Hk]. rewrite lookup_empty in Hk. discriminate Hk.
  - reflexivity.
  - reflexivity.
  - constructor; [exact ssh_fits|constructor; [exact db_fits|constructor]].
  - vm_compute. lia.
  - vm_compute. lia.
  - exists s', t', n. exact (conj H1 (conj H2 H3)).
Defined.

Lemma delete_undoes_host_rule_witness :
  host_policies (delete_host_policy "node/ingress/0" (upsert_host_policy ssh_entry empty_host).1) = Some ∅.
Proof.
  destruct (delete_undoes_host_rule 16384 roomy_room (fun _ => eq_refl) ssh_entry [build_host_policy_key (identity_for_cidr [10; 0; 0; 0] 8) 0 6 22] ∅ ∅ empty_host
    (upsert_host_policy ssh_entry empty_host).1 (upsert_host_policy ssh_entry empty_host).2) as (_ & H & _).
  - reflexivity.
  - reflexivity.
  - exact ssh_fits.
  - reflexivity.
  - vm_compute. lia.
  - vm_compute. lia.
  - reflexivity.
  - constructor; [apply lookup_empty|constructor].
  - apply surjective_pairing.
  - exact H.
Defined.

Lemma host_rules_share_entry_witness :
  exists k1 k2 t2 t3, wanted ssh_entry = Some [k1] /\ wanted db_entry = Some [k2] /\
    host_policies (upsert_host_policy db_entry (upsert_host_policy ssh_entry empty_host).1).1 = Some t2 /\
    t2 !! host_key k1 = Some ACTION_DENY /\
    host_policies (delete_host_policy "node/ingress/0" (upsert_host_policy db_entry (upsert_host_policy ssh_entry empty_host).1).1) = Some t3 /\
    t3 !! host_key k2 = None.
Proof.
  apply (host_rules_share_entry 16384 roomy_room (fun _ => eq_refl) ssh_entry db_entry 0 0 ∅ ∅ empty_host
    (upsert_host_policy ssh_entry empty_host).1 _ eq_refl eq_refl ssh_fits eq_refl eq_refl);
    [discriminate|reflexivity|reflexivity|by split|by split|vm_compute; lia|vm_compute; lia|reflexivity|reflexivity].
Defined.

Lemma status_lists_xdp_links_witness :
  xdp_listed (foldl xdp_step (mkXdp [mkAttached "nv0" "ingress" 3] []) [XAttach (Some 9) 1 "eth0"; XAttach None 0 "eth1"]) = ["eth0"].
Proof.
  rewrite (proj1 (status_lists_xdp_links [XAttach (Some 9) 1 "eth0"; XAttach None 0 "eth1"] (mkXdp [mkAttached "nv0" "ingress" 3] []) eq_refl)).
  reflexivity.
Defined.
