(* ===== verification/DpFlows.v ===== *)
(** Flow events from the kernel to the subscribers of the daemon: the records the programs
    write to the ring buffer (FlowEvent of novanet-common/src/lib.rs), the task that reads
    them, converts them and sends them to the subscribers (novanet-dataplane/src/flows.rs),
    and the stream a subscriber gets (stream_flows of src/server.rs). *)

From Stdlib Require Import ZArith Lia Ascii String.
From stdpp Require Import base tactics list gmap strings fin_maps.
From S2P Require Import Prelude GoStrings GoNet GoCidr RustNet PolicyTable EbpfMaps EbpfHelpers Dataplane DpReads.

(** * Records in memory *)

(** The layout of the struct: fields at their offsets, with padding between the addresses
    and the 64-bit fields. *)
Definition event_fields (e : FlowEvent) : list (list Z) :=
  [le_bytes 1 (fe_family e); le_bytes 1 (verdict e); le_bytes 1 (drop_reason e); le_bytes 1 (fe_tcp_flags e);
   le_bytes 4 (fe_src_identity e); le_bytes 4 (fe_dst_identity e); le_bytes 1 (fe_protocol e); [0];
   le_bytes 2 (fe_src_port e); le_bytes 2 (fe_dst_port e); [0; 0]; fe_src_ip e; fe_dst_ip e; [0; 0; 0; 0];
   le_bytes 8 (bytes e); le_bytes 8 (packets e); le_bytes 8 (timestamp_ns e)].
Definition event_bytes (e : FlowEvent) : list Z := mjoin (event_fields e).

Definition event_size : nat := 80.

Definition field (off n : nat) (data : list Z) : list Z := take n (drop off data).
Definition number_at (off n : nat) (data : list Z) : Z := of_le (field off n data).

(** The cast of the reader: a record that begins where the data begins. *)
Definition event_at (data : list Z) : FlowEvent :=
  mkFlowEvent (number_at 0 1 data) (number_at 1 1 data) (number_at 2 1 data) (number_at 3 1 data)
    (number_at 4 4 data) (number_at 8 4 data) (number_at 12 1 data) (number_at 14 2 data) (number_at 16 2 data)
    (field 20 16 data) (field 36 16 data) (number_at 56 8 data) (number_at 64 8 data) (number_at 72 8 data).

(** * Messages *)

(** The message FlowEvent of the gRPC service. *)
Record FlowMessage := mkFlowMessage {
  fm_src_ip : string; fm_dst_ip : string; fm_src_identity : Z; fm_dst_identity : Z; fm_protocol : Z; fm_src_port : Z;
  fm_dst_port : Z; fm_verdict : Z; fm_bytes : Z; fm_packets : Z; fm_timestamp_ns : Z; fm_drop_reason : Z; fm_tcp_flags : Z;
  fm_ip_version : Z }.

(** [Ipv6Addr::to_string]: an address mapped from IPv4 ends in dotted decimal. *)
Definition ipv6_display (ip : list Z) : string :=
  if decide (take 12 ip = v4InV6Prefix) then "::ffff:" +:+ fmt_ipv4 (drop 12 ip) else fmt_ipv6 ip.

(** [as i64]. *)
Definition to_i64 (x : Z) : Z := if x <? 2 ^ 63 then x else x - 2 ^ 64.

Definition raw_to_proto (raw : FlowEvent) : FlowMessage :=
  let v := if verdict raw =? ACTION_ALLOW then 1 else 0 in
  let r := if drop_reason raw =? DROP_REASON_NONE then 0
           else if drop_reason raw =? DROP_REASON_POLICY_DENIED then 1
           else if drop_reason raw =? DROP_REASON_NO_IDENTITY then 2
           else if drop_reason raw =? DROP_REASON_NO_ROUTE then 3
           else if drop_reason raw =? DROP_REASON_NO_TUNNEL then 4
           else if drop_reason raw =? DROP_REASON_TTL_EXCEEDED then 5 else 0 in
  let '(src, dst, version) :=
    if fe_family raw =? AF_INET then (fmt_ipv4 (take 4 (fe_src_ip raw)), fmt_ipv4 (take 4 (fe_dst_ip raw)), 1)
    else (ipv6_display (fe_src_ip raw), ipv6_display (fe_dst_ip raw), 2) in
  mkFlowMessage src dst (fe_src_identity raw) (fe_dst_identity raw) (fe_protocol raw) (fe_src_port raw) (fe_dst_port raw)
    v (bytes raw) (packets raw) (to_i64 (timestamp_ns raw)) r (fe_tcp_flags raw) version.

(** Draining the ring buffer, in either mode of the reader: items that are too short are
    skipped, the others sent. *)
Fixpoint drain (items : list (list Z)) : list FlowMessage :=
  match items with
  | [] => []
  | data :: rest =>
      if (length data <? event_size)%nat then drain rest else raw_to_proto (event_at data) :: drain rest
  end.

(** * Subscribers *)

(** What a receiver of the broadcast channel gets: a value, or the number of values it
    missed because it was too slow. *)
Variant received := Received (m : FlowMessage) | Lagged (n : nat).

(** The channel gives a receiver the values sent since it subscribed, in order, and tells
    of the gaps. *)
Inductive delivers : list FlowMessage -> list received -> Prop :=
| deliver_end : delivers [] []
| deliver_next m ms l : delivers ms l -> delivers (m :: ms) (Received m :: l)
| deliver_gap n ms l : (0 < n <= length ms)%nat -> delivers (drop n ms) l -> delivers ms (Lagged n :: l).

Definition wants (identity_filter : Z) (m : FlowMessage) : bool :=
  negb (negb (identity_filter =? 0) && negb (fm_src_identity m =? identity_filter) && negb (fm_dst_identity m =? identity_filter)).

(** The closure of [stream_flows]. *)
Definition subscriber_item (identity_filter : Z) (r : received) : option FlowMessage :=
  match r with
  | Received m => if wants identity_filter m then Some m else None
  | Lagged _ => None
  end.

Definition subscriber_stream (identity_filter : Z) (l : list received) : list FlowMessage := omap (subscriber_item identity_filter) l.

Definition missed (l : list received) : nat := foldr (fun r acc => match r with Received _ => acc | Lagged n => n + acc end)%nat 0%nat l.

(** * Reading back what was written *)

(** The fields of a record fit their widths. *)
Record event_ok (e : FlowEvent) : Prop := {
  eo_small : Forall is_byte [fe_family e; verdict e; drop_reason e; fe_tcp_flags e; fe_protocol e];
  eo_ids : 0 <= fe_src_identity e < 2 ^ 32 /\ 0 <= fe_dst_identity e < 2 ^ 32;
  eo_ports : 0 <= fe_src_port e < 2 ^ 16 /\ 0 <= fe_dst_port e < 2 ^ 16;
  eo_src : length (fe_src_ip e) = 16%nat; eo_dst : length (fe_dst_ip e) = 16%nat;
  eo_counts : is_u64 (bytes e) /\ is_u64 (packets e) /\ is_u64 (timestamp_ns e) }.

Lemma field_of (fs : list (list Z)) (i : nat) b off n :
  fs !! i = Some b -> length b = n -> sum_list (length <$> take i fs) = off -> field off n (mjoin fs) = b.
Proof.
  intros Hi <- <-. rewrite <- length_join. rewrite <- (take_drop i fs) at 2. rewrite join_app. unfold field.
  rewrite drop_app_length. rewrite (drop_S _ _ _ Hi). cbn. apply take_app_length.
Qed.

Lemma event_field_lengths e :
  event_ok e -> length <$> event_fields e = [1; 1; 1; 1; 4; 4; 1; 1; 2; 2; 2; 16; 16; 4; 8; 8; 8]%nat.
Proof. intros []. unfold event_fields. cbn. by rewrite eo_src0, eo_dst0. Qed.

Lemma event_field e i b off n :
  event_ok e -> event_fields e !! i = Some b -> sum_list (take i [1; 1; 1; 1; 4; 4; 1; 1; 2; 2; 2; 16; 16; 4; 8; 8; 8]%nat) = off ->
  [1; 1; 1; 1; 4; 4; 1; 1; 2; 2; 2; 16; 16; 4; 8; 8; 8]%nat !! i = Some n -> field off n (event_bytes e) = b.
Proof.
  intros He Hb Ho Hn. rewrite <- (event_field_lengths e He) in Ho, Hn. apply (field_of _ i); [done| |].
  - rewrite list_lookup_fmap, Hb in Hn. by injection Hn.
  - by rewrite fmap_take.
Qed.

Lemma event_number e i x off n :
  event_ok e -> event_fields e !! i = Some (le_bytes n x) -> 0 <= x < 2 ^ (8 * Z.of_nat n) ->
  sum_list (take i [1; 1; 1; 1; 4; 4; 1; 1; 2; 2; 2; 16; 16; 4; 8; 8; 8]%nat) = off ->
  [1; 1; 1; 1; 4; 4; 1; 1; 2; 2; 2; 16; 16; 4; 8; 8; 8]%nat !! i = Some n -> number_at off n (event_bytes e) = x.
Proof. intros He Hb Hx Ho Hn. unfold number_at. rewrite (event_field e i _ off n He Hb Ho Hn). by apply of_le_bytes. Qed.

Lemma event_roundtrip e : event_ok e -> event_at (event_bytes e) = e.
Proof.
  intros He. destruct (eo_ids e He) as [? ?], (eo_ports e He) as [? ?], (eo_counts e He) as (? & ? & ?). pose proof (eo_small e He) as Hs.
  rewrite !Forall_cons in Hs. destruct Hs as (? & ? & ? & ? & ? & _). unfold event_at.
  rewrite (event_number e 0 (fe_family e)), (event_number e 1 (verdict e)), (event_number e 2 (drop_reason e)), (event_number e 3 (fe_tcp_flags e)),
    (event_number e 4 (fe_src_identity e)), (event_number e 5 (fe_dst_identity e)), (event_number e 6 (fe_protocol e)),
    (event_number e 8 (fe_src_port e)), (event_number e 9 (fe_dst_port e)), (event_field e 11 (fe_src_ip e)), (event_field e 12 (fe_dst_ip e)),
    (event_number e 14 (bytes e)), (event_number e 15 (packets e)), (event_number e 16 (timestamp_ns e)); try done. by destruct e.
Qed.

Lemma length_event_bytes e : event_ok e -> length (event_bytes e) = event_size.
Proof. intros He. unfold event_bytes. by rewrite length_join, event_field_lengths. Qed.

(** What the programs write is what subscribers are told: the daemon converts each record
    it finds in the ring buffer, field by field as it was written. *)
Lemma drain_written es : Forall event_ok es -> drain (event_bytes <$> es) = raw_to_proto <$> es.
Proof.
  intros H. induction H as [|e es He _ IH]; [done|]. rewrite !fmap_cons. cbn [drain].
  rewrite length_event_bytes, event_roundtrip, IH by done. done.
Qed.

(** ** Gaps *)

Lemma subscriber_sublist f ms l :
  delivers ms l -> subscriber_stream f l `sublist_of` filter (fun m => wants f m = true) ms.
Proof.
  intros H. induction H as [|m ms l _ IH|n ms l _ _ IH]; [done| |].
  - unfold subscriber_stream. cbn [omap list_omap subscriber_item]. rewrite filter_cons.
    destruct (wants f m); [rewrite decide_True by done; by constructor|by rewrite decide_False].
  - etrans; [exact IH|]. rewrite <- (take_drop n ms) at 2. rewrite filter_app. apply sublist_inserts_l. done.
Qed.

Lemma subscriber_count ms l : delivers ms l -> (length (subscriber_stream 0 l) + missed l = length ms)%nat.
Proof.
  intros H. induction H as [|m ms l _ IH|n ms l Hn _ IH]; [done| |].
  - change (subscriber_stream 0 (Received m :: l)) with (m :: subscriber_stream 0 l). cbn [length missed foldr]. fold (missed l). lia.
  - change (subscriber_stream 0 (Lagged n :: l)) with (subscriber_stream 0 l). cbn [missed foldr]. fold (missed l).
    rewrite length_drop in IH. lia.
Qed.

Lemma subscriber_exact f ms l :
  delivers ms l -> missed l = 0%nat -> subscriber_stream f l = filter (fun m => wants f m = true) ms.
Proof.
  intros H. induction H as [|m ms l _ IH|n ms l Hn _ IH]; intros Hm; [done| |cbn in Hm; lia].
  unfold subscriber_stream in *. cbn [omap list_omap subscriber_item]. rewrite filter_cons.
  destruct (wants f m); [rewrite decide_True by done; by rewrite IH|by rewrite decide_False, IH].
Qed.

(** ** Addresses *)

Definition v4_ok (a : Z) : Prop := 0 <= a < 2 ^ 32.

Lemma ip_bytes_display a : v4_ok a -> RustNet.parse_ip (fmt_ipv4 (take 4 (ip16 a))) = Some (V4 a).
Proof.
  intros Ha. destruct (ipv4_bytes_ok a Ha) as (Hl & Hb & Hv).
  change (take 4 (ip16 a)) with (ipv4_bytes a). by rewrite parse_ip_fmt, Hv.
Qed.

(** The record that [emit_flow_event] writes, for values of the widths the programs use. *)
Definition emitted (now src dst sid did proto sport dport v r fl n : Z) : FlowEvent :=
  mkFlowEvent AF_INET v r fl sid did proto sport dport (ip16 src) (ip16 dst) n 1 now.

(** The records a subscriber asks for: all, or those of one identity. *)
Definition concerns (f : Z) (e : FlowEvent) : Prop := f = 0 \/ fe_src_identity e = f \/ fe_dst_identity e = f.
#[export] Instance concerns_dec f e : Decision (concerns f e).
Proof. unfold concerns. apply _. Defined.

Lemma wants_concerns f (es : list FlowEvent) : filter (fun m => wants f m = true) (raw_to_proto <$> es) = raw_to_proto <$> filter (concerns f) es.
Proof.
  assert (forall e, wants f (raw_to_proto e) = true <-> concerns f e) as H.
  { intros e. unfold wants, concerns.
    assert (fm_src_identity (raw_to_proto e) = fe_src_identity e /\ fm_dst_identity (raw_to_proto e) = fe_dst_identity e) as [-> ->]
      by (unfold raw_to_proto; by destruct (fe_family e =? AF_INET)).
    rewrite negb_true_iff, !andb_false_iff, !negb_false_iff, !Z.eqb_eq. tauto. }
  induction es as [|e es IH]; [done|]. rewrite fmap_cons, !filter_cons.
  destruct (decide (concerns f e)) as [Hc|Hc]; [rewrite decide_True by (by apply H); by rewrite fmap_cons, IH|].
  rewrite decide_False by (by rewrite H). exact IH.
Qed.

(** * Theorems *)

(** C39: Subscribers are told of the flows the programs report.  For records of the ring
    buffer whose fields have their widths, however slowly a subscriber reads, it gets
    messages for records, in their order, that concern the identity it asked for; received
    and missed messages together are all records, and a subscriber that missed none gets
    all that concern the identity.  The broadcast channel gives a receiver the values in
    order and tells of the gaps. *)
Theorem subscribers_see_flows es l f :
  Forall event_ok es -> delivers (drain (event_bytes <$> es)) l ->
  subscriber_stream f l `sublist_of` (raw_to_proto <$> filter (concerns f) es) /\
  (length (subscriber_stream 0 l) + missed l = length es)%nat /\
  (missed l = 0%nat -> subscriber_stream f l = raw_to_proto <$> filter (concerns f) es).
Proof.
  intros He Hd. rewrite drain_written in Hd by done. rewrite <- wants_concerns. split; [by apply subscriber_sublist|].
  split; [|by apply subscriber_exact]. rewrite <- (length_fmap raw_to_proto es). by apply subscriber_count.
Qed.

(** C38: A message names the packet.  From the record a program writes, the daemon makes a
    message with addresses that parse back to those of the packet, its identities, ports
    and protocol, the verdict, and the reason of the drop. *)
Theorem flow_names_packet now d src dst sid did proto sport dport v r fl n k :
  ring_free d = S k -> v4_ok src -> v4_ok dst -> Forall is_byte [v; r; fl; proto] -> v = ACTION_ALLOW \/ v = ACTION_DENY -> r <= 5 ->
  0 <= sid < 2 ^ 32 /\ 0 <= did < 2 ^ 32 -> 0 <= sport < 2 ^ 16 /\ 0 <= dport < 2 ^ 16 -> is_u64 n /\ is_u64 now ->
  exists e m, FLOW_EVENTS (emit_flow_event now d src dst sid did proto sport dport v r fl n) = e :: FLOW_EVENTS d /\
    drain [event_bytes e] = [m] /\ parse_ip (fm_src_ip m) = Some (V4 src) /\ parse_ip (fm_dst_ip m) = Some (V4 dst) /\
    fm_src_identity m = sid /\ fm_dst_identity m = did /\ fm_src_port m = sport /\ fm_dst_port m = dport /\
    fm_protocol m = proto /\ fm_verdict m = v /\ fm_drop_reason m = r.
Proof.
  intros Hk Hs Hd Hb Hv Hr Hid Hp [Hn Hnow]. rewrite !Forall_cons in Hb. destruct Hb as (B1 & B2 & B3 & B4 & _).
  set (e := emitted now src dst sid did proto sport dport v r fl n). exists e, (raw_to_proto e).
  split; [unfold emit_flow_event; by rewrite Hk|]. split.
  { apply (drain_written [e]). constructor; [|constructor]. split; cbn; try done. repeat (constructor; [done|]). constructor. }
  split; [by apply ip_bytes_display|]. split; [by apply ip_bytes_display|]. do 5 (split; [done|]). split.
  - cbn. by destruct Hv as [-> | ->].
  - cbn. assert (r = 0 \/ r = 1 \/ r = 2 \/ r = 3 \/ r = 4 \/ r = 5) as Hc by (unfold is_byte in B2; lia).
    by destruct Hc as [->|[->|[->|[->|[-> | ->]]]]].
Qed.

(** ** Examples *)

Definition sample_event : FlowEvent := emitted 7 167772161 167772162 11 12 6 40000 80 1 0 2 60.

Lemma sample_event_ok : event_ok sample_event.
Proof. split; cbn; try done; [repeat (constructor; [done|]); constructor]. Qed.

Lemma subscribers_see_flows_witness :
  subscriber_stream 12 [Lagged 1; Received (raw_to_proto sample_event)] = [raw_to_proto sample_event] /\
  (length (subscriber_stream 0 [Lagged 1; Received (raw_to_proto sample_event)]) + 1 = 2)%nat.
Proof.
  split; [reflexivity|].
  destruct (subscribers_see_flows [sample_event; sample_event] [Lagged 1; Received (raw_to_proto sample_event)] 12) as (_ & H & _).
  - constructor; [exact sample_event_ok|constructor; [exact sample_event_ok|constructor]].
  - constructor; [cbn; lia|]. vm_compute. repeat constructor.
  - exact H.
Defined.

Lemma flow_names_packet_witness :
  exists e m, FLOW_EVENTS (emit_flow_event 7 fresh_dynamic 167772161 167772162 11 12 6 40000 80 ACTION_DENY 1 2 60) = [e] /\
    drain [event_bytes e] = [m] /\ parse_ip (fm_src_ip m) = Some (V4 167772161) /\ fm_drop_reason m = 1.
Proof.
  destruct (flow_names_packet 7 fresh_dynamic 167772161 167772162 11 12 6 40000 80 ACTION_DENY 1 2 60 1023) as (e & m & H1 & H2 & H3 & _ & _ & _ & _ & _ & _ & _ & H4);
    [reflexivity|done|done|repeat (constructor; [done|]); constructor|by right|lia|done|done|done|].
  exists e, m. exact (conj H1 (conj H2 (conj H3 H4))).
Defined.
