(* ===== verification/DpLoader.v ===== *)
(** The start of the dataplane daemon: loading the eBPF object
    (novanet-dataplane/src/loader.rs), attaching the socket programs (maps.rs) and the
    state the daemon then serves with (main.rs), on the maps and programs the object has
    (novanet-ebpf/src/main.rs). *)

From Stdlib Require Import ZArith Lia Ascii String.
From stdpp Require Import base tactics list gmap strings fin_maps.
From S2P Require Import Prelude GoStrings PolicyTable EbpfMaps EbpfHelpers Dataplane DpReads DpHost.

(** * Objects *)

Variant map_kind := KHash | KLruHash | KArray | KPerCpuArray | KPerCpuHash | KRingBuf | KLpmTrie | KSockHash.
Variant prog_kind := PClassifier | PSockAddr | PSockOps | PSkMsg | PXdp | PSkLookup.

#[export] Instance prog_kind_eq_dec : EqDecision prog_kind.
Proof. solve_decision. Defined.

Record object := mkObject { obj_maps : gmap string map_kind; obj_progs : gmap string prog_kind }.

(** The handles of the aya library: which kinds of map a handle is made from.  A handle of
    a kind can be made from a map of that kind, a hash map also from an LRU map. *)
Class Aya := {
  map_into : map_kind -> map_kind -> bool;
  map_into_same k : map_into k k = true;
  map_into_lru : map_into KHash KLruHash = true }.

(** What the kernel accepts: loading a program, attaching it at start, and whether the files
    that name the namespace and the root cgroup open. *)
Record kernel_env := mkKernelEnv { k_load : string -> bool; k_attach : string -> bool; k_netns : bool; k_cgroup : bool }.

Inductive load_error :=
| ProgNotFound (name : string) | ProgType (name : string) | ProgLoad (name : string)
| MapNotFound (name : string) | MapType (name : string) | ObjectFile.

(** The maps with a handle, the programs that are loaded, and the link of sk_lookup_mesh. *)
Record loaded := mkLoaded { ld_maps : gset string; ld_progs : gset string; sk_lookup_link : bool }.

Section loader.
Context {AY : Aya} (k : kernel_env) (o : object).

(** A program that must be there, of its kind, and load. *)
Definition load_prog (kind : prog_kind) (name : string) : option load_error :=
  match obj_progs o !! name with
  | None => Some (ProgNotFound name)
  | Some kind' =>
      if decide (kind' = kind) then (if k_load k name then None else Some (ProgLoad name)) else Some (ProgType name)
  end.

Fixpoint load_progs (kind : prog_kind) (names : list string) : option load_error :=
  match names with
  | [] => None
  | n :: rest => match load_prog kind n with Some e => Some e | None => load_progs kind rest end
  end.

Definition take_map (want : map_kind) (name : string) : option load_error :=
  match obj_maps o !! name with
  | None => Some (MapNotFound name)
  | Some have => if map_into want have then None else Some (MapType name)
  end.

Fixpoint take_maps (l : list (string * map_kind)) : option load_error :=
  match l with
  | [] => None
  | (n, want) :: rest => match take_map want n with Some e => Some e | None => take_maps rest end
  end.

(** Maps and programs that may be missing. *)
Definition optional_maps (l : list (string * map_kind)) : list string :=
  fst <$> filter (fun x => take_map x.2 x.1 = None) l.

Definition try_prog (kind : prog_kind) (name : string) : list string :=
  match load_prog kind name with None => [name] | Some _ => [] end.

Definition tc_programs : list string := ["tc_ingress"; "tc_egress"; "tc_tunnel_ingress"; "tc_tunnel_egress"].
Definition cgroup_programs : list string := ["sock_connect4"; "sock_sendmsg4"; "sock_recvmsg4"; "sock_getpeername4"].

Definition required_maps : list (string * map_kind) :=
  [("ENDPOINTS", KHash); ("POLICIES", KHash); ("TUNNELS", KHash); ("CONFIG", KHash); ("EGRESS_POLICIES", KHash);
   ("SERVICES", KHash); ("BACKENDS", KArray); ("MAGLEV", KArray); ("DROP_COUNTERS", KPerCpuArray); ("FLOW_EVENTS", KRingBuf)].

Definition further_maps : list (string * map_kind) :=
  [("IPCACHE", KLpmTrie); ("HOST_POLICIES", KLpmTrie); ("ENDPOINTS_V6", KHash); ("TUNNELS_V6", KHash); ("EGRESS_POLICIES_V6", KHash);
   ("SERVICES_V6", KHash); ("BACKENDS_V6", KArray); ("SOCK_HASH", KSockHash); ("SOCKMAP_ENDPOINTS", KHash);
   ("SOCKMAP_STATS", KPerCpuArray); ("MESH_SERVICES", KHash); ("RL_TOKENS", KHash); ("RL_CONFIG", KArray); ("BACKEND_HEALTH", KPerCpuHash)].

(** [file] tells whether the object file can be read. *)
Definition load_ebpf (file : bool) : result load_error loaded :=
  if negb file then Err ObjectFile
  else match load_progs PClassifier tc_programs with Some e => Err e | None =>
       match load_progs PSockAddr cgroup_programs with Some e => Err e | None =>
       match take_maps required_maps with Some e => Err e | None =>
       let progs := tc_programs ++ cgroup_programs ++ try_prog PSockOps "sockops_sockmap" ++ try_prog PSkMsg "sk_msg_sockmap" ++
                    try_prog PXdp "xdp_pass" ++ try_prog PSkLookup "sk_lookup_mesh" in
       Ok (mkLoaded (list_to_set ((fst <$> required_maps) ++ optional_maps further_maps)) (list_to_set progs)
             (bool_decide (try_prog PSkLookup "sk_lookup_mesh" <> []) && k_netns k && k_attach k "sk_lookup_mesh"))
       end end end.

(** The links of the socket programs: one after the other, up to the first that fails. *)
Fixpoint attach_all (names : list string) : list string * bool :=
  match names with
  | [] => ([], true)
  | n :: rest =>
      if bool_decide (obj_progs o !! n = Some PSockAddr) && k_attach k n
      then let '(l, ok) := attach_all rest in (n :: l, ok) else ([], false)
  end.

Definition attach_cgroup_programs : list string * bool := if k_cgroup k then attach_all cgroup_programs else ([], false).
End loader.

(** ** Running *)

(** The state of the handlers of [DpHost] when the daemon starts to serve. *)
Definition serving (l : loaded) : host_state :=
  mkHost (if decide ("IPCACHE" ∈ ld_maps l) then Some ∅ else None) (if decide ("HOST_POLICIES" ∈ ld_maps l) then Some ∅ else None) ∅.

(** The program ids the kernel gives to attachments that work; a program that is not loaded
    cannot be attached. *)
Definition prog_id (l : loaded) (accepted : option Z) (name : string) : option Z :=
  if decide (name ∈ ld_progs l) then accepted else None.

(** The program that runs on a hook of an interface after [AttachProgram]. *)
Definition attached_program (l : loaded) (accepted : option Z) (iface : string) (dir : AttachDirection) : option string :=
  match prog_id l accepted (prog_name iface dir) with Some _ => Some (prog_name iface dir) | None => None end.

(** The interface on which the agent attaches the program for services from outside, which
    of a list of names there is. *)
Definition DetectHostInterface (present : string -> bool) : string :=
  default "eth0" (list_find (fun n => present n = true) ["bond0"; "eth0"; "ens192"; "enp0s3"; "ens3"; "ens5"] ≫= fun x => Some x.2).

(** * The object of the repository *)

Definition novanet_ebpf : object :=
  mkObject
    (list_to_map [("ENDPOINTS", KHash); ("POLICIES", KHash); ("TUNNELS", KHash); ("EGRESS_POLICIES", KHash); ("CONFIG", KHash);
       ("FLOW_EVENTS", KRingBuf); ("DROP_COUNTERS", KPerCpuArray); ("SERVICES", KHash); ("BACKENDS", KArray); ("CONNTRACK", KLruHash);
       ("MAGLEV", KArray); ("RR_COUNTERS", KPerCpuArray); ("SOCK_LB_ORIGINS", KLruHash); ("SOCK_HASH", KSockHash);
       ("SOCKMAP_ENDPOINTS", KHash); ("SOCKMAP_STATS", KPerCpuArray); ("MESH_SERVICES", KHash); ("RL_TOKENS", KLruHash);
       ("RL_CONFIG", KArray); ("BACKEND_HEALTH", KPerCpuHash)])
    (list_to_map [("tc_ingress", PClassifier); ("tc_egress", PClassifier); ("tc_tunnel_ingress", PClassifier);
       ("tc_tunnel_egress", PClassifier); ("tc_host_ingress", PClassifier); ("sock_connect4", PSockAddr); ("sock_sendmsg4", PSockAddr);
       ("sock_recvmsg4", PSockAddr); ("sock_getpeername4", PSockAddr); ("sockops_sockmap", PSockOps); ("sk_msg_sockmap", PSkMsg);
       ("sk_lookup_mesh", PSkLookup)]).

(** * Theorems *)

(** A name that is not in a list of names. *)
Ltac not_listed :=
  let H := fresh in intros H; cbn in H; repeat (apply elem_of_cons in H as [H|H]; [discriminate H|]); by apply elem_of_nil in H.

Section theorems.
Context {AY : Aya} (k : kernel_env).

Definition prog_ready (o : object) (kind : prog_kind) (n : string) : Prop := obj_progs o !! n = Some kind /\ k_load k n = true.
Definition map_ready (o : object) (x : string * map_kind) : Prop := exists have, obj_maps o !! x.1 = Some have /\ map_into x.2 have = true.

Lemma load_prog_None o kind n : load_prog k o kind n = None <-> prog_ready o kind n.
Proof.
  unfold load_prog, prog_ready. destruct (obj_progs o !! n) as [kind'|]; [|naive_solver].
  destruct (decide (kind' = kind)) as [->|Hn]; [|naive_solver]. destruct (k_load k n); naive_solver.
Qed.

Lemma load_progs_None o kind l : load_progs k o kind l = None <-> Forall (prog_ready o kind) l.
Proof.
  induction l as [|n l IH]; [by split|]. cbn. rewrite Forall_cons, <- load_prog_None, <- IH.
  destruct (load_prog k o kind n); [naive_solver|tauto].
Qed.

Lemma take_map_None o want n : take_map o want n = None <-> map_ready o (n, want).
Proof.
  unfold take_map, map_ready. cbn. destruct (obj_maps o !! n) as [have|]; [|split; [done|by intros (h & ? & _)]].
  destruct (map_into want have) eqn:E; split; [by exists have|done|done|]. intros (h & [= <-] & ?). congruence.
Qed.

Lemma take_maps_None o l : take_maps o l = None <-> Forall (map_ready o) l.
Proof.
  induction l as [|[n want] l IH]; [by split|]. cbn. rewrite Forall_cons, <- take_map_None, <- IH.
  destruct (take_map o want n); [naive_solver|tauto].
Qed.

(** The daemon starts exactly when the object has what it needs: the file is readable, the
    eight required programs are there, of their kinds and accepted by the kernel, and the
    ten required maps can be used.  Nothing optional keeps it from starting, and the
    optional maps it then uses are those the object has. *)
Theorem daemon_starts_iff o file :
  (exists l, load_ebpf k o file = Ok l) <->
  file = true /\ Forall (prog_ready o PClassifier) tc_programs /\ Forall (prog_ready o PSockAddr) cgroup_programs /\ Forall (map_ready o) required_maps.
Proof.
  rewrite <- !load_progs_None, <- take_maps_None. unfold load_ebpf.
  destruct file; cbn [negb]; [|split; [by intros [? ?]|naive_solver]].
  destruct (load_progs k o PClassifier tc_programs); [split; [by intros [? ?]|naive_solver]|].
  destruct (load_progs k o PSockAddr cgroup_programs); [split; [by intros [? ?]|naive_solver]|].
  destruct (take_maps o required_maps); [split; [by intros [? ?]|naive_solver]|]. split; [done|]. intros _. by eexists.
Qed.

(** A kernel that loads the programs of the repository's object. *)
Hypothesis Hload : forall n, is_Some (obj_progs novanet_ebpf !! n) -> k_load k n = true.

Lemma novanet_prog kind n : obj_progs novanet_ebpf !! n = Some kind -> load_prog k novanet_ebpf kind n = None.
Proof. intros E. apply load_prog_None. split; [done|]. apply Hload. by rewrite E. Qed.

Lemma novanet_map n want have : obj_maps novanet_ebpf !! n = Some have -> have = want \/ (want = KHash /\ have = KLruHash) ->
  take_map novanet_ebpf want n = None.
Proof.
  intros E Hk. apply take_map_None. exists have. split; [done|]. cbn. destruct Hk as [->|[-> ->]]; [apply map_into_same|apply map_into_lru].
Qed.

Lemma novanet_no_map n want : obj_maps novanet_ebpf !! n = None -> take_map novanet_ebpf want n = Some (MapNotFound n).
Proof. intros E. unfold take_map. by rewrite E. Qed.

(** What the daemon has of the repository's object: the tables of the IPv4 programs and of
    the API, and none of the tries; every program but those of XDP and of the host
    interface. *)
Lemma novanet_loaded : exists l, load_ebpf k novanet_ebpf true = Ok l /\
  "IPCACHE" ∉ ld_maps l /\ "HOST_POLICIES" ∉ ld_maps l /\ "xdp_pass" ∉ ld_progs l /\ "tc_host_ingress" ∉ ld_progs l /\
  (list_to_set (tc_programs ++ cgroup_programs) : gset string) ⊆ ld_progs l.
Proof.
  unfold load_ebpf. cbn [negb].
  rewrite (proj2 (load_progs_None novanet_ebpf PClassifier tc_programs)) by (repeat (constructor; [apply load_prog_None, novanet_prog; reflexivity|]); constructor).
  rewrite (proj2 (load_progs_None novanet_ebpf PSockAddr cgroup_programs)) by (repeat (constructor; [apply load_prog_None, novanet_prog; reflexivity|]); constructor).
  rewrite (proj2 (take_maps_None novanet_ebpf required_maps))
    by (repeat (constructor; [apply take_map_None; eapply novanet_map; [reflexivity|by left]|]); constructor).
  eexists. split; [reflexivity|]. cbn [ld_maps ld_progs].
  assert (forall n want, obj_maps novanet_ebpf !! n = None -> (n, want) ∉ filter (fun x => take_map novanet_ebpf x.2 x.1 = None) further_maps) as Hno.
  { intros n want E [Hx _]%list_elem_of_filter. cbn in Hx. by rewrite novanet_no_map in Hx. }
  assert (forall n, obj_maps novanet_ebpf !! n = None -> n ∉ fst <$> required_maps ->
    n ∉ (list_to_set ((fst <$> required_maps) ++ optional_maps novanet_ebpf further_maps) : gset string)) as Hmap.
  { intros n E Hr. rewrite elem_of_list_to_set, elem_of_app. intros [?|Hx]; [done|]. unfold optional_maps in Hx.
    apply list_elem_of_fmap in Hx as ([n' want] & -> & Hx). by apply (Hno n' want). }
  split; [apply Hmap; [reflexivity|not_listed]|]. split; [apply Hmap; [reflexivity|not_listed]|].
  unfold try_prog. rewrite (novanet_prog PSockOps), (novanet_prog PSkMsg), (novanet_prog PSkLookup) by reflexivity.
  change (load_prog k novanet_ebpf PXdp "xdp_pass") with (Some (ProgNotFound "xdp_pass")).
  rewrite !elem_of_list_to_set. split; [not_listed|]. split; [not_listed|]. intros x. rewrite !elem_of_list_to_set, !elem_of_app. tauto.
Qed.

(** The host firewall and XDP cannot be used: the object has neither the tries nor the
    program.  The daemon starts with it and refuses every rule, every synchronisation and
    every attachment, and stays as it was. *)
Theorem host_firewall_unavailable {TR : TrieRoom} :
  exists l, load_ebpf k novanet_ebpf true = Ok l /\
    (forall e, exists c, upsert_host_policy e (serving l) = (serving l, Err c)) /\
    (forall es, sync_host_policies es (serving l) = (serving l, Err Internal)) /\
    (forall accepted mode iface x, exists c, attach_xdp (prog_id l accepted "xdp_pass") mode iface x = (x, Err c)).
Proof.
  destruct novanet_loaded as (l & E & Hi & Hh & Hx & _). exists l. split; [done|].
  assert (serving l = mkHost None None ∅) as -> by (unfold serving; by rewrite !decide_False). split; [|split].
  - intros e. unfold upsert_host_policy. destruct (cidr_ip e) eqn:Ec; [by eexists|]. rewrite <- Ec.
    destruct (host_direction _); [|by eexists]. destruct (cidr_to_ipcache_key _ _); by eexists.
  - intros es. unfold sync_host_policies.
    assert (forall entries rules, exists r, collect es entries rules (mkHost None None ∅) = (mkHost None None ∅, r)) as H.
    { induction es as [|e es IH]; intros entries rules; cbn [collect]; [by eexists|]. destruct (cidr_ip e) eqn:Ec; [apply IH|]. rewrite <- Ec.
      destruct (host_direction _); [|apply IH]. destruct (cidr_to_ipcache_key _ _); [by eexists|apply IH]. }
    destruct (H [] ∅) as [[[entries rules]|] ->]; done.
  - intros accepted mode iface x. unfold prog_id. rewrite decide_False by done. unfold attach_xdp.
    destruct (if mode =? 0 then _ else _); by eexists.
Qed.

(** The program for services from outside never runs.  On the interface the agent chooses
    for it the daemon attaches the program for packets that leave a pod, because it tells
    programs by the names of interfaces, and on no interface is the other one attached. *)
Theorem host_interface_runs_pod_program present id :
  exists l, load_ebpf k novanet_ebpf true = Ok l /\
    attached_program l (Some id) (DetectHostInterface present) AttachTCIngress = Some "tc_egress" /\
    forall accepted iface dir, attached_program l accepted iface dir <> Some "tc_host_ingress".
Proof.
  destruct novanet_loaded as (l & E & _ & _ & _ & _ & Hp). exists l. split; [done|]. split.
  - assert (prog_name (DetectHostInterface present) AttachTCIngress = "tc_egress") as Hn.
    { unfold DetectHostInterface. cbn. repeat case_match; simplify_eq; reflexivity. }
    unfold attached_program, prog_id. rewrite Hn, decide_True; [done|]. apply Hp, elem_of_list_to_set. apply elem_of_app. left.
    apply list_elem_of_further, list_elem_of_here.
  - intros accepted iface dir. unfold attached_program. destruct (prog_id _ _ _); [|done]. unfold prog_name.
    destruct (_ || _), dir; discriminate.
Qed.
End theorems.

(** The socket programs are attached in order: those that are attached are the first ones,
    and all of them unless one fails. *)
Theorem cgroup_programs_prefix k o l ok :
  attach_cgroup_programs k o = (l, ok) -> l `prefix_of` cgroup_programs /\ (ok = true <-> l = cgroup_programs).
Proof.
  assert (forall names l ok, attach_all k o names = (l, ok) -> l `prefix_of` names /\ (ok = true <-> l = names)) as H.
  { induction names as [|n names IH]; intros l' ok' E; cbn in E; [injection E as <- <-; by split|].
    destruct (bool_decide _ && _); [|injection E as <- <-; split; [apply prefix_nil|by split]].
    destruct (attach_all k o names) as [l1 ok1]. destruct (IH l1 ok1 eq_refl) as [H1 H2]. injection E as <- <-.
    split; [by apply prefix_cons|]. rewrite H2. naive_solver. }
  unfold attach_cgroup_programs. destruct (k_cgroup k); [apply H|]. intros [= <- <-]. split; [apply prefix_nil|by split].
Qed.

(** * Examples *)

Definition exact_handles (want have : map_kind) : bool :=
  match want, have with
  | KHash, KHash | KHash, KLruHash | KLruHash, KLruHash | KArray, KArray | KPerCpuArray, KPerCpuArray
  | KPerCpuHash, KPerCpuHash | KRingBuf, KRingBuf | KLpmTrie, KLpmTrie | KSockHash, KSockHash => true
  | _, _ => false
  end.

Definition aya_exact : Aya :=
  {| map_into := exact_handles; map_into_same := fun k => match k with KHash => eq_refl | _ => eq_refl end; map_into_lru := eq_refl |}.

Definition willing : kernel_env := mkKernelEnv (fun _ => true) (fun _ => true) true true.

Lemma host_firewall_unavailable_witness :
  exists l, load_ebpf (AY := aya_exact) willing novanet_ebpf true = Ok l /\
    exists c, upsert_host_policy (TR := roomy) ssh_entry (serving l) = (serving l, Err c).
Proof.
  destruct (host_firewall_unavailable (AY := aya_exact) willing (fun _ _ => eq_refl) (TR := roomy)) as (l & E & H & _).
  exists l. split; [exact E|]. apply H.
Defined.

Lemma host_interface_runs_pod_program_witness :
  exists l, load_ebpf (AY := aya_exact) willing novanet_ebpf true = Ok l /\
    attached_program l (Some 7) "ens3" AttachTCIngress = Some "tc_egress".
Proof.
  destruct (host_interface_runs_pod_program (AY := aya_exact) willing (fun _ _ => eq_refl) (String.eqb "ens3") 7) as (l & E & H & _).
  exists l. exact (conj E H).
Defined.

Lemma cgroup_programs_prefix_witness :
  attach_cgroup_programs (mkKernelEnv (fun _ => true) (fun n => negb (String.eqb n "sock_recvmsg4")) true true) novanet_ebpf
    = (["sock_connect4"; "sock_sendmsg4"], false) /\ ["sock_connect4"; "sock_sendmsg4"] `prefix_of` cgroup_programs.
Proof.
  split; [vm_compute; reflexivity|].
  refine (proj1 (cgroup_programs_prefix (mkKernelEnv (fun _ => true) (fun n => negb (String.eqb n "sock_recvmsg4")) true true) novanet_ebpf _ false _)).
  vm_compute. reflexivity.
Defined.
