(* ===== verification/AgentFlows.v ===== *)
(** What the agent makes of the dataplane's flow events and status: the connection loop
    and the flow consumer of internal/agent/setup_dataplane.go with its counters and its
    table of unanswered handshakes, the flow stream and the status RPC of
    internal/agent/server.go, and the health endpoint of setup_servers.go.  A counter is an
    integer here, a float64 in the source; time is a number of nanoseconds given with each
    event. *)

From Stdlib Require Import ZArith Lia Ascii String.
From stdpp Require Import base tactics list gmap strings fin_maps.
From S2P Require Import Prelude GoStrings GoMap GoNet GoText Constants EbpfMaps Identity PolicyCompiler DpClient DpReads.
From S2P Require Import AgentServer AgentConfig.

(** * Connecting *)

(** One turn of [ConnectToDataplane]: whether the context is over before it, whether a
    client is made, whether the daemon answers, and whether the context ends in the pause. *)
Record attempt := mkAttempt { at_cancelled : bool; at_client : bool; at_answer : bool; at_cancelled_pause : bool }.

Variant connection := Connected | GaveUp | Trying.

(** The connections opened, those closed, and how the loop ends. *)
Fixpoint ConnectToDataplane (l : list attempt) (opened closed : nat) : nat * nat * connection :=
  match l with
  | [] => (opened, closed, Trying)
  | a :: rest =>
      if at_cancelled a then (opened, closed, GaveUp)
      else if negb (at_client a) then
        if at_cancelled_pause a then (opened, closed, GaveUp) else ConnectToDataplane rest opened closed
      else if negb (at_answer a) then
        if at_cancelled_pause a then (S opened, S closed, GaveUp) else ConnectToDataplane rest (S opened) (S closed)
      else (S opened, closed, Connected)
  end.

(** * Flow metrics *)

(** The message FlowEvent. *)
Record flow := mkFlow {
  SrcIp : string; DstIp : string; SrcId : Z; DstId : Z; fl_Protocol : Z; fl_SrcPort : Z; fl_DstPort : Z;
  Verdict : Z; Packets : Z; DropReason : Z; TcpFlags : Z }.

Definition POLICY_ACTION_DENY : Z := 0.

(** The name protoc gives a drop reason. *)
Definition drop_reason_string (r : Z) : string :=
  default (fmt_d r) (["DROP_REASON_NONE"; "DROP_REASON_POLICY_DENIED"; "DROP_REASON_NO_IDENTITY"; "DROP_REASON_NO_ROUTE";
    "DROP_REASON_NO_TUNNEL"; "DROP_REASON_TTL_EXCEEDED"] !! Z.to_nat r).

Record metrics := mkMetrics {
  FlowTotal : gmap (string * string * string) Z; DropsTotal : gmap string Z; PolicyVerdictTotal : gmap string Z;
  TCPConnectionTotal : gmap string Z; TCPLatency : list Z }.

Definition no_metrics : metrics := mkMetrics ∅ ∅ ∅ ∅ [].

Definition add {K} `{Countable K} (k : K) (v : Z) (m : gmap K Z) : gmap K Z := <[k := default 0 (m !! k) + v]> m.

Definition verdict_of (f : flow) : string := if Verdict f =? POLICY_ACTION_DENY then "deny" else "allow".

Definition UpdateFlowMetrics (f : flow) (m : metrics) : metrics :=
  mkMetrics (add (fmt_d (SrcId f), fmt_d (DstId f), verdict_of f) (Packets f) (FlowTotal m))
    (if DropReason f =? 0 then DropsTotal m else add (drop_reason_string (DropReason f)) (Packets f) (DropsTotal m))
    (add (verdict_of f) (Packets f) (PolicyVerdictTotal m)) (TCPConnectionTotal m) (TCPLatency m).

Abbreviation FlowTuple := (string * string * Z * Z)%type.

Definition MaxTrackedTuples : Z := 10000.
Definition second : Z := 1000000000.

Definition has (flags bit : Z) : bool := negb (Z.land flags bit =? 0).
Definition TCPFIN : Z := 1.
Definition TCPSYN : Z := 2.
Definition TCPRST : Z := 4.
Definition TCPACK : Z := 16.

Definition is_syn (f : flow) : bool := has (TcpFlags f) TCPSYN && negb (has (TcpFlags f) TCPACK).
Definition is_syn_ack (f : flow) : bool := has (TcpFlags f) TCPSYN && has (TcpFlags f) TCPACK.
Definition fwd (f : flow) : FlowTuple := (SrcIp f, DstIp f, fl_SrcPort f, fl_DstPort f).
Definition rev (f : flow) : FlowTuple := (DstIp f, SrcIp f, fl_DstPort f, fl_SrcPort f).

Abbreviation pending_table := (gmap (string * string * Z * Z) Z).

Definition count_tcp (f : flow) (m : gmap string Z) : gmap string Z :=
  let m := if is_syn f then add "syn" 1 m else m in
  let m := if has (TcpFlags f) TCPFIN then add "fin" 1 m else m in
  if has (TcpFlags f) TCPRST then add "rst" 1 m else m.

(** The entry of a SYN, the latency a SYN-ACK gives, and what is left of the table. *)
Definition track (f : flow) (now : Z) (pending : pending_table) : pending_table * list Z :=
  if is_syn f then
    (if Z.of_nat (size pending) <? MaxTrackedTuples then <[fwd f := now]> pending else pending, [])
  else if is_syn_ack f then
    match pending !! rev f with
    | None => (pending, [])
    | Some synTime =>
        let rtt := now - synTime in
        (delete (rev f) pending, if (0 <? rtt) && (rtt <? 10 * second) then [rtt] else [])
    end
  else (pending, []).

Definition expire (now : Z) (pending : pending_table) : pending_table :=
  if MaxTrackedTuples / 2 <? Z.of_nat (size pending) then filter (fun x => ~ x.2 < now - 10 * second) pending else pending.

Definition UpdateTCPMetrics (f : flow) (now : Z) (st : metrics * pending_table) : metrics * pending_table :=
  let '(m, pending) := st in
  let '(p, lat) := track f now pending in
  (mkMetrics (FlowTotal m) (DropsTotal m) (PolicyVerdictTotal m) (count_tcp f (TCPConnectionTotal m)) (TCPLatency m ++ lat), expire now p).

Definition ProtoTCP : Z := ProtocolTCP.

Definition flow_step (st : metrics * pending_table) (e : flow * Z) : metrics * pending_table :=
  let '(f, now) := e in
  let m := UpdateFlowMetrics f st.1 in
  if fl_Protocol f =? ProtoTCP then UpdateTCPMetrics f now (m, st.2) else (m, st.2).

(** One stream until it breaks; each stream starts with an empty table. *)
Definition ProcessFlowStream (m : metrics) (events : list (flow * Z)) : metrics * pending_table := foldl flow_step (m, ∅) events.

(** [ConsumeFlows]: the streams one after the other. *)
Definition ConsumeFlows (m : metrics) (streams : list (list (flow * Z))) : metrics :=
  foldl (fun m es => (ProcessFlowStream m es).1) m streams.

(** * The flow stream for clients *)

(** The events the client gets; [opened] is whether the daemon's stream opens, and
    [sends] how many messages the client takes before its own breaks. *)
Definition StreamAgentFlows (s : Server) (opened dropsOnly : bool) (events : list flow) (sends : nat) : option (list flow) :=
  if connected s && opened then
    Some (take sends (filter (fun f => negb (dropsOnly && negb (Verdict f =? POLICY_ACTION_DENY)) = true) events))
  else None.

(** * Status and health *)

Record AgentStatus := mkAgentStatus {
  as_RoutingMode : string; as_TunnelProtocol : string; as_EndpointCount : Z; as_IdentityCount : Z; as_NodeIp : string;
  as_PodCidr : string; as_ClusterCidr : string; as_NovarouteConnected : bool; as_DpConnected : bool; as_Encryption : string;
  as_HostFirewall : bool; as_BandwidthEnabled : bool; as_Ipv6Enabled : bool; as_DsrEnabled : bool; as_XdpMode : string;
  as_LbIpamEnabled : bool; as_PolicyCount : Z; as_TunnelCount : Z; as_AttachedPrograms : Z }.

Definition GetAgentStatus {DN : DpNet} (cpus : list dynamic) (p : programs) (cfg : AgentConfig) (podCIDR : string)
    (routingConnected : bool) (s : Server) : dpc * AgentStatus :=
  let '(d, answer) := if connected s then rpc_with (fun t => (t, Ok (get_dataplane_status cpus p t))) (dp s) else (dp s, None) in
  (d, mkAgentStatus (RoutingMode cfg) (TunnelProtocol cfg) (wrap32 (Z.of_nat (size (Endpoints s))))
        (wrap32 (Identity.Count (IDAlloc s))) (ip_string (NodeIP s)) podCIDR (ClusterCIDR cfg) routingConnected (connected s)
        (en_Type (Encryption cfg)) (HostFirewall cfg) (Bandwidth cfg) (v6_Enabled (IPv6 cfg)) (DSR cfg) (XDPAcceleration cfg)
        (lb_Enabled (LBIPAM cfg))
        (from_option PolicyCount 0 answer) (from_option TunnelCount 0 answer)
        (from_option (fun st => wrap32 (Z.of_nat (length (Programs st)))) 0 answer)).

(** The status code and the status word of /healthz. *)
Definition healthz (s : Server) : Z * string := if connected s then (200, "ok") else (503, "not ready").

(** * Theorems *)

Lemma connect_turns l rest : forall o c,
  Forall (fun x => at_cancelled x = false /\ at_cancelled_pause x = false /\ at_client x && at_answer x = false) l ->
  ConnectToDataplane (l ++ rest) o c =
  ConnectToDataplane rest (o + length (filter (fun x => at_client x = true) l)) (c + length (filter (fun x => at_client x = true) l)).
Proof.
  induction l as [|a l IH]; intros o c Hl; [cbn; by rewrite !Nat.add_0_r|]. apply Forall_cons in Hl as [(H1 & H2 & H3) Hl].
  cbn [app ConnectToDataplane]. rewrite H1, H2. destruct (at_client a) eqn:Ec; cbn [negb].
  - rewrite filter_cons_True by done. cbn [length]. cbn in H3. rewrite H3. cbn [negb]. rewrite IH by done. f_equal; lia.
  - rewrite filter_cons_False by congruence. by apply IH.
Qed.

(** The agent connects on the first turn in which the daemon answers, however many came
    before, unless it is told to stop; every connection of an earlier turn is closed. *)
Theorem connects_once_daemon_answers l a rest :
  Forall (fun x => at_cancelled x = false /\ at_cancelled_pause x = false /\ at_client x && at_answer x = false) l ->
  at_cancelled a = false -> at_client a = true -> at_answer a = true ->
  exists n, ConnectToDataplane (l ++ a :: rest) 0 0 = (S n, n, Connected).
Proof.
  intros Hl H1 H2 H3. exists (length (filter (fun x => at_client x = true) l)). rewrite connect_turns by done.
  cbn [ConnectToDataplane]. by rewrite H1, H2, H3.
Qed.

(** ** Counters *)

Definition total {K} `{Countable K} (m : gmap K Z) : Z := map_fold (fun _ v acc => v + acc) 0 m.

Lemma total_insert {K} `{Countable K} (m : gmap K Z) k v : m !! k = None -> total (<[k := v]> m) = v + total m.
Proof. intros Hk. unfold total. rewrite map_fold_insert_L; [done|intros; lia|done]. Qed.

Lemma total_add {K} `{Countable K} (m : gmap K Z) k v : total (add k v m) = total m + v.
Proof.
  unfold add. destruct (m !! k) as [x|] eqn:E; cbn [default from_option id].
  - rewrite <- (insert_delete_id m k x E) at 2. rewrite <- (insert_delete_eq m k (x + v)).
    rewrite !total_insert by apply lookup_delete_eq. lia.
  - rewrite total_insert by done. lia.
Qed.

Definition packets (es : list (flow * Z)) : Z := foldr (fun e n => Packets e.1 + n) 0 es.

Lemma packets_snoc es e : packets (es ++ [e]) = packets es + Packets e.1.
Proof. unfold packets. induction es as [|x es IH]; cbn; [lia|]. rewrite IH. lia. Qed.

Lemma stream_totals es : forall m,
  total (FlowTotal (ProcessFlowStream m es).1) = total (FlowTotal m) + packets es /\
  total (PolicyVerdictTotal (ProcessFlowStream m es).1) = total (PolicyVerdictTotal m) + packets es.
Proof.
  intros m. unfold ProcessFlowStream. induction es as [|[f now] es IH] using rev_ind; [cbn; lia|].
  rewrite foldl_app. cbn [foldl]. set (st := foldl flow_step (m, ∅) es) in *. rewrite packets_snoc. cbn [fst].
  assert (FlowTotal (flow_step st (f, now)).1 = FlowTotal (UpdateFlowMetrics f st.1) /\
    PolicyVerdictTotal (flow_step st (f, now)).1 = PolicyVerdictTotal (UpdateFlowMetrics f st.1)) as [-> ->].
  { unfold flow_step. destruct (fl_Protocol f =? ProtoTCP); [|done]. unfold UpdateTCPMetrics. by destruct (track f now _). }
  cbn. rewrite !total_add. lia.
Qed.

(** No packet is lost or counted twice: over all streams the flow counters and the
    verdict counters both add up to the packets of the events. *)
Theorem packets_conserved streams :
  let m := ConsumeFlows no_metrics streams in
  total (FlowTotal m) = packets (concat streams) /\ total (PolicyVerdictTotal m) = packets (concat streams).
Proof.
  assert (forall m, total (FlowTotal (ConsumeFlows m streams)) = total (FlowTotal m) + packets (concat streams) /\
    total (PolicyVerdictTotal (ConsumeFlows m streams)) = total (PolicyVerdictTotal m) + packets (concat streams)) as H.
  { induction streams as [|es r IH]; intros m; [cbn; lia|]. cbn [ConsumeFlows foldl].
    specialize (IH (ProcessFlowStream m es).1) as [I1 I2]. unfold ConsumeFlows in I1, I2. rewrite I1, I2.
    destruct (stream_totals es m) as [-> ->]. cbn [concat].
    assert (packets (es ++ concat r) = packets es + packets (concat r)) as ->; [|lia].
    unfold packets. clear. induction es as [|x es IH]; cbn; [lia|]. rewrite IH. lia. }
  cbv zeta. destruct (H no_metrics) as [-> ->]. done.
Qed.

(** ** Handshakes *)

Definition syn_at (es : list (flow * Z)) (t : FlowTuple) (time : Z) : Prop :=
  exists f, (f, time) ∈ es /\ is_syn f = true /\ fwd f = t.

Definition handshake (es : list (flow * Z)) (lat : Z) : Prop :=
  exists f time now, (f, now) ∈ es /\ is_syn_ack f = true /\ syn_at es (rev f) time /\ lat = now - time /\ 0 < lat < 10 * second.

Lemma syn_at_app es e t time : syn_at es t time -> syn_at (es ++ [e]) t time.
Proof. intros (f & Hf & H). exists f. split; [apply elem_of_app; by left|done]. Qed.

Lemma handshake_app es e lat : handshake es lat -> handshake (es ++ [e]) lat.
Proof.
  intros (f & time & now & Hf & Hs & Hsyn & H). exists f, time, now. split; [apply elem_of_app; by left|]. split; [done|].
  split; [by apply syn_at_app|done].
Qed.

Record tracked (es : list (flow * Z)) (st : metrics * pending_table) : Prop := {
  tr_size : Z.of_nat (size st.2) <= MaxTrackedTuples;
  tr_syn : forall t time, st.2 !! t = Some time -> syn_at es t time;
  tr_lat : forall lat, lat ∈ TCPLatency st.1 -> handshake es lat }.

Lemma expire_sub now p : expire now p ⊆ p.
Proof. unfold expire. destruct (_ <? _); [apply map_filter_subseteq|done]. Qed.

Lemma size_sub (p q : pending_table) : p ⊆ q -> (size p <= size q)%nat.
Proof. apply map_subseteq_size. Qed.

Lemma track_spec es f now p p' lat :
  Z.of_nat (size p) <= MaxTrackedTuples -> (forall t time, p !! t = Some time -> syn_at es t time) -> track f now p = (p', lat) ->
  Z.of_nat (size p') <= MaxTrackedTuples /\ (forall t time, p' !! t = Some time -> syn_at (es ++ [(f, now)]) t time) /\
  forall x, x ∈ lat -> handshake (es ++ [(f, now)]) x.
Proof.
  intros Hs Hp. assert (forall t time, p !! t = Some time -> syn_at (es ++ [(f, now)]) t time) as Hp' by (intros; by apply syn_at_app, Hp).
  assert ((f, now) ∈ es ++ [(f, now)]) as Hlast by (apply elem_of_app; right; by left).
  unfold track. destruct (is_syn f) eqn:Esyn; [|destruct (is_syn_ack f) eqn:Eack; [destruct (p !! rev f) as [synTime|] eqn:Er|]].
  - intros [= <- <-]. split; [|split; [|by intros ? ?%elem_of_nil]].
    + destruct (Z.ltb_spec (Z.of_nat (size p)) MaxTrackedTuples); [|done]. rewrite map_size_insert. destruct (p !! fwd f); unfold id; lia.
    + intros t time. destruct (_ <? _); [|by apply Hp']. intros [[<- <-]|[_ H]]%lookup_insert_Some; [by exists f|by apply Hp'].
  - intros [= <- <-]. split; [|split].
    + pose proof (size_sub (delete (rev f) p) p (delete_subseteq _ _)). lia.
    + intros t time [_ H]%lookup_delete_Some. by apply Hp'.
    + intros x. destruct (_ && _) eqn:Eb; [|by intros ?%elem_of_nil]. intros ->%list_elem_of_singleton.
      apply andb_true_iff in Eb as [B1%Z.ltb_lt B2%Z.ltb_lt]. exists f, synTime, now. split; [done|]. split; [done|]. split; [by apply Hp'|done].
  - intros [= <- <-]. split; [done|]. split; [done|]. by intros ? ?%elem_of_nil.
  - intros [= <- <-]. split; [done|]. split; [done|]. by intros ? ?%elem_of_nil.
Qed.

Lemma flow_tracked es st e : tracked es st -> tracked (es ++ [e]) (flow_step st e).
Proof.
  intros [Hs Hp Hl]. destruct e as [f now], st as [m p]. unfold flow_step. cbn [fst snd] in *.
  destruct (fl_Protocol f =? ProtoTCP).
  - unfold UpdateTCPMetrics. destruct (track f now p) as [p' lat] eqn:Et. destruct (track_spec es f now p p' lat Hs Hp Et) as (S1 & S2 & S3).
    split; cbn.
    + pose proof (size_sub _ _ (expire_sub now p')). lia.
    + intros t time H. apply S2. by eapply lookup_weaken; [|apply expire_sub].
    + intros x [Hx|Hx]%elem_of_app; [by apply handshake_app, Hl|by apply S3].
  - split; cbn; [done|intros; by apply syn_at_app, Hp|intros; by apply handshake_app, Hl].
Qed.

(** The table of unanswered handshakes is bounded whatever arrives, and every latency
    that is reported is the time between a SYN of the stream and a SYN-ACK that answers
    it, less than ten seconds. *)
Theorem handshakes_measured events :
  let '(m, pending) := ProcessFlowStream no_metrics events in
  Z.of_nat (size pending) <= MaxTrackedTuples /\ forall lat, lat ∈ TCPLatency m -> handshake events lat.
Proof.
  assert (tracked events (ProcessFlowStream no_metrics events)) as [H1 _ H2].
  { unfold ProcessFlowStream. induction events as [|e es IH] using rev_ind.
    - split; cbn; [done|intros t time; by rewrite lookup_empty|by intros ? ?%elem_of_nil].
    - rewrite foldl_app. by apply flow_tracked. }
  by destruct (ProcessFlowStream no_metrics events).
Qed.

(** The status the agent reports counts its pods, and with a daemon that answers the
    entries of the daemon's tables; the call leaves the tables alone. *)
Theorem status_counts {DN : DpNet} cpus p cfg podCIDR rc s d st :
  GetAgentStatus cpus p cfg podCIDR rc s = (d, st) ->
  as_EndpointCount st = wrap32 (Z.of_nat (size (Endpoints s))) /\ dp_tables d = dp_tables (dp s) /\
  (connected s = true -> dp_net (dp_sent (dp s)) = Delivered ->
    as_PolicyCount st = wrap32 (Z.of_nat (size (POLICIES (dp_tables (dp s))))) /\
    as_TunnelCount st = wrap32 (Z.of_nat (size (TUNNELS (dp_tables (dp s))))) /\
    as_AttachedPrograms st = wrap32 (Z.of_nat (length (attached p)))).
Proof.
  unfold GetAgentStatus. destruct (connected s); [|by intros [= <- <-]].
  unfold rpc_with. destruct (dp_net (dp_sent (dp s))); intros [= <- <-]; by repeat split.
Qed.

Lemma connects_once_daemon_answers_witness : exists n,
  ConnectToDataplane ([mkAttempt false false false false; mkAttempt false true false false] ++ mkAttempt false true true false :: []) 0 0 = (S n, n, Connected).
Proof.
  apply (connects_once_daemon_answers [mkAttempt false false false false; mkAttempt false true false false] (mkAttempt false true true false) []);
    [|reflexivity..]. by repeat constructor.
Defined.

(** An agent with one entry in the daemon's tunnel table. *)
Definition sample_agent (a : IpamAllocator.Allocator) (t : tables) : Server :=
  NewServer a ∅ Identity.NewAllocator false [10; 0; 0; 1] true t None.

Lemma status_counts_sample : forall a t,
  as_TunnelCount (GetAgentStatus (DN := dp_reliable) [] (mkPrograms [] []) DefaultAgentConfig "10.244.1.0/24" false (sample_agent a t)).2
  = wrap32 (Z.of_nat (size (TUNNELS t))).
Proof.
  intros a t. apply (status_counts (DN := dp_reliable) [] (mkPrograms [] []) DefaultAgentConfig "10.244.1.0/24" false (sample_agent a t) _ _ (surjective_pairing _));
    reflexivity.
Defined.
