(* ===== verification/EbpfServices.v ===== *)
(** The eBPF services API: internal/ebpfservices, a gRPC server over the dataplane
    client.  Its calls go through the client to the daemon, and what they write is
    what the kernel programs of EbpfSock.v and EbpfHelpers.v read. *)

From Stdlib Require Import ZArith Lia Ascii String.
From stdpp Require Import base tactics list gmap strings fin_maps.
From S2P Require Import Prelude GoStrings GoMap GoNet GoCidr RustNet EbpfMaps EbpfHelpers EbpfSock.
From S2P Require Import EbpfTc Dataplane DpClient RemoteSync DpReads.

(** * The server *)

Inductive es_code := EInvalidArgument | EUnavailable | ENotFound | EInternal.

(** [Server]: the client and the endpoint resolver, either of which may be nil. *)
Record es_server := mkES { es_client : option Client; es_resolver : option (string -> string -> option string) }.

Section Server.
Context {DN : DpNet} {MI : MapIter}.

Abbreviation response A := (result es_code A * es_server)%type.

(** A call of the dataplane; its errors are reported as internal ones. *)
Definition with_dp {A B} (f : Client -> result client_error A * Client) (g : A -> B) (s : es_server) : response B :=
  match es_client s with
  | None => (Err EUnavailable, s)
  | Some c =>
      let '(r, c') := f c in
      (match r with Ok a => Ok (g a) | Err _ => Err EInternal end, mkES (Some c') (es_resolver s))
  end.

Definition ignore {A} (_ : A) : unit := tt.

Definition resolvePodIP (ns name : string) (s : es_server) : result es_code string :=
  if String.eqb ns "" then Err EInvalidArgument
  else if String.eqb name "" then Err EInvalidArgument
  else
    match es_resolver s with
    | None => Err EUnavailable
    | Some lookup =>
        match es_client s with
        | None => Err EUnavailable
        | Some _ => match lookup ns name with Some ip => Ok ip | None => Err ENotFound end
        end
    end.

Definition EnableSockmap (ns name : string) (s : es_server) : response unit :=
  match resolvePodIP ns name s with
  | Err e => (Err e, s)
  | Ok podIP => with_dp (UpsertSockmapEndpoint podIP 0) ignore s
  end.

Definition DisableSockmap (ns name : string) (s : es_server) : response unit :=
  match resolvePodIP ns name s with
  | Err e => (Err e, s)
  | Ok podIP => with_dp (DeleteSockmapEndpoint podIP 0) ignore s
  end.

Definition es_GetSockmapStats (cpus : list dynamic) (s : es_server) : response SockmapStats :=
  with_dp (GetSockmapStats cpus) id s.

Definition check_ip (ip : string) : option es_code :=
  if String.eqb ip "" then Some EInvalidArgument
  else match ParseIP ip with None => Some EInvalidArgument | Some _ => None end.

Definition AddMeshRedirect (ip : string) (port redirectPort : Z) (s : es_server) : response unit :=
  match check_ip ip with
  | Some e => (Err e, s)
  | None =>
      if port =? 0 then (Err EInvalidArgument, s)
      else if redirectPort =? 0 then (Err EInvalidArgument, s)
      else with_dp (UpsertMeshService ip port redirectPort) ignore s
  end.

Definition RemoveMeshRedirect (ip : string) (port : Z) (s : es_server) : response unit :=
  match check_ip ip with
  | Some e => (Err e, s)
  | None => if port =? 0 then (Err EInvalidArgument, s) else with_dp (DeleteMeshService ip port) ignore s
  end.


Definition check_cidr (cidr : string) : option es_code :=
  if String.eqb cidr "" then Some EInvalidArgument
  else match ParseCIDR cidr with None => Some EInvalidArgument | Some _ => None end.

Definition window : Z := 1000000000.

Definition ConfigureRateLimit (cidr : string) (r b : Z) (s : es_server) : response unit :=
  match check_cidr cidr with
  | Some e => (Err e, s)
  | None =>
      if r =? 0 then (Err EInvalidArgument, s)
      else if b =? 0 then (Err EInvalidArgument, s)
      else with_dp (UpdateRateLimitConfig r b window) ignore s
  end.

Definition RemoveRateLimit (cidr : string) (s : es_server) : response unit :=
  match check_cidr cidr with
  | Some e => (Err e, s)
  | None => with_dp (UpdateRateLimitConfig 0 0 0) ignore s
  end.

Definition es_GetRateLimitStats (s : es_server) : response (Z * Z) := with_dp GetRateLimitStats id s.

Definition GetBackendHealth (cpus : list dynamic) (ip : string) (port : Z) (s : es_server) : response (list BackendHealthInfo) :=
  with_dp (GetBackendHealthStats cpus ip port) id s.

(** [StreamBackendHealth]: the interval between polls in milliseconds, and the
    events it sends.  A tick is the state of the maps and the time; [sends] tells
    whether the next event can be sent, and the stream ends with the first that
    cannot. *)
Definition poll_interval (ms : Z) : Z := if 0 <? ms then (if ms <? 500 then 500 else ms) else 5000.

Fixpoint send_events (events : list (BackendHealthInfo * Z)) (sends : list bool)
    : list (BackendHealthInfo * Z) * option (list bool) :=
  match events with
  | [] => ([], Some sends)
  | e :: events =>
      match sends with
      | true :: sends => let '(sent, r) := send_events events sends in (e :: sent, r)
      | _ => ([], None)
      end
  end.

Fixpoint StreamBackendHealth (ticks : list (list dynamic * Z)) (sends : list bool) (s : es_server)
    : list (BackendHealthInfo * Z) * es_server :=
  match ticks with
  | [] => ([], s)
  | (cpus, now) :: ticks =>
      let '(r, s1) := GetBackendHealth cpus "" 0 s in
      match r with
      | Err EUnavailable => ([], s1)
      | Err _ => StreamBackendHealth ticks sends s1
      | Ok backends =>
          let '(sent, rest) := send_events ((fun b => (b, now)) <$> backends) sends in
          match rest with
          | None => (sent, s1)
          | Some sends => let '(more, s2) := StreamBackendHealth ticks sends s1 in (sent ++ more, s2)
          end
      end
  end.

(** The tables behind a server. *)
Definition es_tables (s : es_server) : tables :=
  match es_client s with Some c => dp_tables (link c) | None => empty_tables end.

Definition es_connected (s : es_server) : Prop := exists c, es_client s = Some c /\ client c = true.
End Server.

(** * Lemmas *)

Section Lemmas.
Context {DN : DpNet} {MI : MapIter}.
Context (Hnet : forall k, dp_net k = Delivered).

(** A call on a connected client is carried out, and its outcome is the handler's. *)
Lemma with_dp_call {B} f (g : unit -> B) s :
  es_connected s ->
  exists s', with_dp (call f) g s
    = (match (f (es_tables s)).2 with Ok _ => Ok (g tt) | Err _ => Err EInternal end, s') /\
    es_connected s' /\ es_resolver s' = es_resolver s /\ es_tables s' = (f (es_tables s)).1.
Proof.
  intros (c & Hc & Hcl). unfold with_dp, es_tables. rewrite Hc. unfold call, rpc. rewrite Hcl, Hnet.
  destruct (f (dp_tables (link c))) as [t [[]|e]]; eexists; (split; [reflexivity|]); (split; [|done]); by eexists.
Qed.

Lemma with_dp_ask {A B} (f : tables -> tables * result status A) (g : A -> B) s :
  es_connected s ->
  exists s', with_dp (ask f) g s
    = (match (f (es_tables s)).2 with Ok a => Ok (g a) | Err _ => Err EInternal end, s') /\
    es_connected s' /\ es_tables s' = (f (es_tables s)).1.
Proof.
  intros (c & Hc & Hcl). unfold with_dp, es_tables. rewrite Hc. unfold ask, rpc_with. rewrite Hcl, Hnet.
  destruct (f (dp_tables (link c))) as [t [a|e]]; eexists; (split; [reflexivity|]); (split; [|done]); by eexists.
Qed.

Lemma check_ip_v4 b : v4 b -> check_ip (fmt_ipv4 b) = None.
Proof.
  intros Hb. unfold check_ip. destruct (String.eqb_spec (fmt_ipv4 b) "") as [E|_]; [by apply fmt_ipv4_nonempty in E|].
  by destruct (ParseIP_v4 b Hb) as (ip & -> & _).
Qed.

(** * Mesh redirection *)

Inductive mesh_op : Type := MAdd (b : list Z) (port rp : Z) | MRemove (b : list Z) (port : Z).

Definition mesh_addr (op : mesh_op) : list Z := match op with MAdd b _ _ | MRemove b _ => b end.

Definition mesh_run (op : mesh_op) (s : es_server) : result es_code unit * es_server :=
  match op with
  | MAdd b port rp => AddMeshRedirect (fmt_ipv4 b) port rp s
  | MRemove b port => RemoveMeshRedirect (fmt_ipv4 b) port s
  end.

(** The contract: a table of at most 4096 redirections. *)
Definition mesh_spec (op : mesh_op) (m : gmap (Z * Z) Z) : result es_code unit * gmap (Z * Z) Z :=
  match op with
  | MAdd b port rp =>
      if (port =? 0) || (rp =? 0) then (Err EInvalidArgument, m)
      else if bool_decide (is_Some (m !! (ip_val b, port))) || (Z.of_nat (size m) <? 4096)
      then (Ok tt, <[(ip_val b, port) := rp]> m) else (Err EInternal, m)
  | MRemove b port =>
      if port =? 0 then (Err EInvalidArgument, m)
      else if bool_decide (is_Some (m !! (ip_val b, port))) then (Ok tt, delete (ip_val b, port) m) else (Err EInternal, m)
  end.

Lemma mesh_step op s :
  es_connected s -> v4 (mesh_addr op) ->
  exists s', mesh_run op s = ((mesh_spec op (MESH_SERVICES (es_tables s))).1, s') /\ es_connected s' /\
    MESH_SERVICES (es_tables s') = (mesh_spec op (MESH_SERVICES (es_tables s))).2.
Proof.
  intros Hc Hv. destruct op as [b port rp|b port]; cbn [mesh_run mesh_spec mesh_addr] in *.
  - unfold AddMeshRedirect. rewrite check_ip_v4 by done. destruct (port =? 0); [by eexists|]. destruct (rp =? 0); [by eexists|].
    cbn [orb]. destruct (with_dp_call (fun t => upsert_mesh_service t (fmt_ipv4 b) port rp) ignore s Hc) as (s' & E & Hc' & _ & Ht).
    exists s'. unfold UpsertMeshService. rewrite E, Ht. unfold upsert_mesh_service, at_v4.
    rewrite (parse_ip_fmt b) by apply Hv. unfold hash_insert.
    destruct (MESH_SERVICES (es_tables s) !! (ip_val b, port)) as [x|] eqn:El.
    + by rewrite bool_decide_true by by eexists.
    + rewrite bool_decide_false by by intros []. cbn [orb]. by destruct (_ <? _).
  - unfold RemoveMeshRedirect. rewrite check_ip_v4 by done. destruct (port =? 0); [by eexists|].
    destruct (with_dp_call (fun t => delete_mesh_service t (fmt_ipv4 b) port) ignore s Hc) as (s' & E & Hc' & _ & Ht).
    exists s'. unfold DeleteMeshService. rewrite E, Ht. unfold delete_mesh_service, at_v4.
    rewrite (parse_ip_fmt b) by apply Hv. unfold hash_remove.
    destruct (MESH_SERVICES (es_tables s) !! (ip_val b, port)) as [x|] eqn:El.
    + by rewrite bool_decide_true by by eexists.
    + by rewrite bool_decide_false by by intros [].
Qed.



End Lemmas.

(** * Properties *)


(** A redirection does not catch the connections it is for: after it was added to
    an empty table, a connection to its address and port is left alone, unless
    the address reads the same in both byte orders. *)
Theorem mesh_redirect_misses {DN : DpNet} {MI : MapIter} s ip port rp sock (listener : Z -> option sock) assign :
  (forall k, dp_net k = Delivered) -> es_connected s -> MESH_SERVICES (es_tables s) = ∅ ->
  v4 ip -> port <> 0 -> rp <> 0 -> to_be32 (ip_val ip) <> ip_val ip ->
  exists s', AddMeshRedirect (fmt_ipv4 ip) port rp s = (Ok tt, s') /\
    MESH_SERVICES (es_tables s') !! (ip_val ip, port) = Some rp /\
    sk_lookup_mesh (es_tables s') listener assign (tcp_lookup (ip_val ip) port) = (SK_PASS, None).
Proof.
  intros Hnet Hc Hm Hip Hport Hrp Hne. destruct (mesh_step Hnet (MAdd ip port rp) s Hc Hip) as (s' & E & _ & Hm').
  cbn [mesh_run mesh_spec] in E, Hm'. rewrite (proj2 (Z.eqb_neq port 0) Hport), (proj2 (Z.eqb_neq rp 0) Hrp), Hm in *.
  cbn [orb] in E, Hm'. rewrite lookup_empty, bool_decide_false in E, Hm' by (intros []; done). rewrite map_size_empty in E, Hm'.
  cbn [fst snd orb] in E, Hm'. exists s'. split; [exact E|]. change (Z.of_nat 0 <? 4096) with true in Hm'. cbn [snd] in Hm'.
  rewrite Hm'. split; [apply lookup_insert_eq|]. unfold sk_lookup_mesh, tcp_lookup. cbn [lu_family lu_protocol lu_local_ip4 lu_local_port].
  rewrite Hm', lookup_insert_ne, lookup_empty; [done|]. intros [=]. congruence.
Qed.

(** A request to enable or disable acceleration for a pod. *)
Definition sockmap_request (s : es_server) {DN : DpNet} (req : bool * (string * string)) : es_server :=
  (if req.1 then EnableSockmap req.2.1 req.2.2 s else DisableSockmap req.2.1 req.2.2 s).2.

Definition only_port_0 (s : es_server) : Prop :=
  forall a port v, SOCKMAP_ENDPOINTS (es_tables s) !! (a, port) = Some v -> port = 0.

Lemma with_dp_inv {DN : DpNet} {B} (P : tables -> Prop) f (g : unit -> B) s :
  P empty_tables -> (forall t, P t -> P (f t).1) -> P (es_tables s) -> P (es_tables (with_dp (call f) g s).2).
Proof.
  intros H0 Hf Hs. unfold with_dp, es_tables in *. destruct (es_client s) as [c|] eqn:E; [|cbn; by rewrite E].
  unfold call, rpc. destruct (client c); [|done]. specialize (Hf _ Hs).
  destruct (dp_net _); destruct (f (dp_tables (link c))) as [t [[]|]]; done.
Qed.

Lemma only_port_0_step {DN : DpNet} s req : only_port_0 s -> only_port_0 (sockmap_request s req).
Proof.
  intros Hs. unfold sockmap_request, EnableSockmap, DisableSockmap, UpsertSockmapEndpoint, DeleteSockmapEndpoint, only_port_0.
  set (P := fun t => forall a port v, SOCKMAP_ENDPOINTS t !! (a, port) = Some v -> port = 0).
  destruct (resolvePodIP req.2.1 req.2.2 s) as [podIP|e]; [|destruct req.1; exact Hs].
  assert (forall f, (forall t, P t -> P (f t).1) -> P (es_tables (with_dp (call f) ignore s).2)) as H.
  { intros f Hf. apply with_dp_inv; [intros a port v Hv; discriminate Hv|done|done]. }
  destruct req.1; apply H; intros t Ht; unfold upsert_sockmap_endpoint, delete_sockmap_endpoint, at_v4;
    destruct (parse_ip podIP) as [[ip|ip]|]; try done; unfold hash_insert, hash_remove;
    destruct (SOCKMAP_ENDPOINTS t !! (ip, 0)) eqn:E; try destruct (_ <? 4096); try done; intros a port v; cbn.
  1,2: intros [[[= _ <-] _]|[_ Hv]]%lookup_insert_Some; [done|by eapply Ht].
  intros [_ Hv]%lookup_delete_Some. by eapply Ht.
Qed.

(** Acceleration never starts.  The API registers a pod's address with port 0,
    and the kernel program looks both ends of a connection up with their ports: no
    history of requests, with calls delivered or lost, ever lets it record a
    connection, whose ports are not 0. *)
Theorem sockmap_never_engages {DN : DpNet} s reqs d room op m :
  SOCKMAP_ENDPOINTS (es_tables s) = ∅ -> wrap16 (local_port m) <> 0 ->
  sockops_sockmap (es_tables (foldl (fun s => sockmap_request s) s reqs)) d room op m = d.
Proof.
  intros Hs Hp. assert (only_port_0 (foldl (fun s => sockmap_request s) s reqs)) as H.
  { assert (only_port_0 s) as H0 by (intros a port v; by rewrite Hs, lookup_empty). clear Hs. revert s H0.
    induction reqs as [|req reqs IH]; intros s H0; [done|]. cbn. apply IH. by apply only_port_0_step. }
  unfold sockops_sockmap. destruct (_ && _); [done|]. unfold md_ports.
  destruct (SOCKMAP_ENDPOINTS _ !! (local_ip4 m, _)) as [v|] eqn:E; [|done]. by apply H in E.
Qed.

(** C36: A limit that the API accepts bounds every source: whatever the others send,
    as many of its packets pass as its bucket holds (the burst, if it has none), the
    rate more for every whole second since the last refill, and a burst more for
    every time the LRU map of the buckets evicts its bucket or refuses to store it.
    The bucket may be one that an earlier limit filled.  The network the request
    names does not matter, neither here nor in the next theorem. *)
Theorem configured_limit_holds {DN : DpNet} {MI : MapIter} cidr r b s s' d src_ip t0 pkts :
  (forall k, dp_net k = Delivered) -> es_connected s -> 0 <= r -> 0 <= b ->
  ConfigureRateLimit cidr r b s = (Ok tt, s') ->
  bucket_ok src_ip d t0 -> ascending t0 pkts.*1 ->
  passed src_ip pkts (limit_run (es_tables s') d pkts)
  <= match RL_TOKENS d !! ip16 src_ip with
     | Some st => tokens st + r * ((List.last pkts.*1 t0 - last_refill_ns st) / window)
     | None => b + r * ((List.last pkts.*1 t0 - t0) / window)
     end + b * Z.of_nat (losses (ip16 src_ip) (RL_ANSWERS d)).
Proof.
  intros Hnet Hc Hr Hb E Ht Hasc. unfold ConfigureRateLimit in E. destruct (check_cidr cidr); [done|].
  destruct (Z.eqb_spec r 0); [done|]. destruct (Z.eqb_spec b 0); [done|].
  destruct (with_dp_call Hnet (fun t => update_rate_limit_config t r b window) ignore s Hc) as (s1 & E1 & _ & _ & Ht1).
  unfold UpdateRateLimitConfig in E. rewrite E1 in E. injection E as <-.
  pose proof (rate_limit_bound (es_tables s1) d src_ip t0 pkts) as H. rewrite Ht1 in *. cbn [RL_CONFIG rate burst window_ns update_rate_limit_config set_RL_CONFIG fst] in H.
  specialize (H ltac:(lia) Hb ltac:(done) Ht Hasc). unfold allowance, since in H.
  cbn [RL_CONFIG rate burst update_rate_limit_config set_RL_CONFIG fst] in H. rewrite Z.max_r in H by lia. cbn [update_rate_limit_config fst]. destruct (RL_TOKENS d !! _); lia.
Qed.

(** Removing the limit of one network removes the limit of every other: the
    daemon has one, and afterwards no packet of any source is held back. *)
Theorem other_network_lifts_limit {DN : DpNet} {MI : MapIter} cidr cidr' r b s s1 s2 d pkts :
  (forall k, dp_net k = Delivered) -> es_connected s ->
  ConfigureRateLimit cidr r b s = (Ok tt, s1) -> RemoveRateLimit cidr' s1 = (Ok tt, s2) ->
  rate (RL_CONFIG (es_tables s1)) = r /\ limit_run (es_tables s2) d pkts = (fun _ => true) <$> pkts.
Proof.
  intros Hnet Hc E E'. unfold ConfigureRateLimit, RemoveRateLimit in *. destruct (check_cidr cidr); [done|]. destruct (check_cidr cidr'); [done|].
  destruct (r =? 0); [done|]. destruct (b =? 0); [done|].
  destruct (with_dp_call Hnet (fun t => update_rate_limit_config t r b window) ignore s Hc) as (s1' & E1 & Hc1 & _ & Ht1).
  unfold UpdateRateLimitConfig in E, E'. rewrite E1 in E. injection E as <-.
  destruct (with_dp_call Hnet (fun t => update_rate_limit_config t 0 0 0) ignore s1' Hc1) as (s2' & E2 & _ & _ & Ht2).
  rewrite E2 in E'. injection E' as <-. split; [by rewrite Ht1|]. rewrite Ht2. clear. revert d.
  induction pkts as [|[now src] pkts IH]; intros d; [done|]. cbn. by rewrite IH.
Qed.

(** Health is what the packets say.  However the packets are spread over the
    CPUs, the health of a backend that the API reports counts the connection
    attempts, resets and handshake answers addressed to it, with the failure rate
    as their quotient; a backend that got no TCP packet is not reported. *)
Theorem backend_health_exact {DN : DpNet} {MI : MapIter} (n : nat) (S : gset (Z * Z)) (ps : list seen_packet) b port s :
  (forall k, dp_net k = Delivered) -> es_connected s -> v4 b ->
  Forall (fun p => (on_cpu p < n)%nat /\ to_key p ∈ S) ps -> (size S <= 4096)%nat -> Z.of_nat (length ps) < 2 ^ 64 ->
  let key := (ip_val b, port) in
  exists l s', GetBackendHealth (foldl track (replicate n fresh_dynamic) ps) (fmt_ipv4 b) port s = (Ok l, s') /\
    (l <> [] <-> Exists (fun p => to_key p = key /\ tcp_flags p <> 0) ps) /\
    forall h, h ∈ l -> bh_IP h = fmt_ipv4 b /\ bh_Port h = port /\
      TotalConns h = packets_to key is_attempt ps /\ FailedConns h = packets_to key is_reset ps /\
      SuccessConns h = packets_to key is_established ps /\
      (0 < TotalConns h -> FailureRate h = (FailedConns h, TotalConns h)).
Proof.
  intros Hnet Hc Hb Hps Hs Hlen key. set (cpus := foldl track _ ps).
  destruct (with_dp_ask Hnet (fun t => (t, get_backend_health_stats cpus (fmt_ipv4 b) port)) id s Hc) as (s' & E & _).
  cbn [snd] in E. assert (get_backend_health_stats cpus (fmt_ipv4 b) port = Ok (match get_backend_health cpus key with
    | Some c => [health_counters_to_proto (fmt_ipv4 b) port c] | None => [] end)) as Eg.
  { unfold get_backend_health_stats. rewrite (proj2 (String.eqb_neq _ _) (fmt_ipv4_nonempty b Hb)). cbn [negb].
    by rewrite (parse_ip_fmt b) by apply Hb. }
  destruct (health_report n S ps key Hps Hs Hlen) as [Hsome Hval].
  eexists _, s'. split; [unfold GetBackendHealth, GetBackendHealthStats; rewrite E, Eg; reflexivity|]. unfold id. fold cpus in Hsome, Hval. destruct (get_backend_health cpus key) as [c|].
  - split; [by rewrite <- Hsome; split; intros _; [by eexists|]|]. intros h ->%list_elem_of_singleton.
    destruct (Hval c eq_refl) as (H1 & H2 & H3). cbn. split_and!; try done. intros H0. by rewrite (proj2 (Z.ltb_lt _ _) H0).
  - split; [by rewrite <- Hsome; split; [|intros []]|]. by intros h ?%elem_of_nil.
Qed.

(** * Examples *)

Definition es_sample : es_server :=
  mkES (Some (mkClient "/run/novanet/dataplane.sock" true (mkDpc empty_tables 0)))
    (Some (fun ns name => if String.eqb name "web" then Some "10.244.1.2" else None)).

Lemma es_sample_connected : es_connected es_sample.
Proof. by eexists. Qed.

Lemma sample_v4 : v4 [10; 0; 0; 1].
Proof. split; [reflexivity|]. repeat (constructor; [unfold is_byte; lia|]). constructor. Qed.


Lemma mesh_redirect_misses_witness :
  exists s', AddMeshRedirect (DN := dp_reliable) "10.0.0.1" 80 15001 es_sample = (Ok tt, s') /\
    sk_lookup_mesh (es_tables s') (fun p => Some p) (fun _ => 0) (tcp_lookup 167772161 80) = (SK_PASS, None).
Proof.
  destruct (mesh_redirect_misses (DN := dp_reliable) (MI := iter_forward) es_sample [10; 0; 0; 1] 80 15001 Z (fun p => Some p) (fun _ => 0)
    (fun _ => eq_refl) es_sample_connected eq_refl sample_v4) as (s' & E & _ & H); [discriminate..|]. exists s'. split; [exact E|exact H].
Defined.

Lemma sockmap_never_engages_witness :
  let s := foldl (fun s => sockmap_request (DN := dp_reliable) s) es_sample [(true, ("default", "web"))] in
  size (SOCKMAP_ENDPOINTS (es_tables s)) = 1%nat /\
  sockops_sockmap (es_tables s) fresh_dynamic true 4 (mkSockMd 183762946 183762946 80 (to_be16 40000)) = fresh_dynamic.
Proof.
  split; [vm_compute; reflexivity|].
  apply (sockmap_never_engages (DN := dp_reliable) es_sample [(true, ("default", "web"))]); [reflexivity|discriminate].
Defined.

(** Two sources take turns, and the third insertion evicts the bucket of the first. *)
Lemma configured_limit_holds_witness :
  let d := with_RL_ANSWERS [Stored (fun _ => false); Stored (fun _ => false); Stored (fun _ => true)] in
  let pkts := [(0, 167772161); (1, 167772162); (2, 167772161); (3, 167772161)] in
  exists s', ConfigureRateLimit (DN := dp_reliable) "10.0.0.0/8" 2 2 es_sample = (Ok tt, s') /\
    passed 167772161 pkts (limit_run (es_tables s') d pkts) <= 2 + 2 * ((3 - 0) / window) + 2 * 1.
Proof.
  intros d pkts. eexists. split; [vm_compute; reflexivity|].
  eapply Z.le_trans; [eapply (configured_limit_holds (DN := dp_reliable) (MI := iter_forward) "10.0.0.0/8" 2 2 es_sample _ d 167772161 0 pkts);
    [reflexivity|exact es_sample_connected|lia|lia|vm_compute; reflexivity|intros st H; discriminate H|cbn; lia]|].
  vm_compute. discriminate.
Defined.

Lemma other_network_lifts_limit_witness :
  exists s1 s2, ConfigureRateLimit (DN := dp_reliable) "10.0.0.0/8" 2 3 es_sample = (Ok tt, s1) /\
    RemoveRateLimit (DN := dp_reliable) "192.168.0.0/16" s1 = (Ok tt, s2) /\
    limit_run (es_tables s2) fresh_dynamic ((fun now => (now, 167772161)) <$> [0; 1; 2; 3; 4]) = [true; true; true; true; true].
Proof.
  do 2 eexists. split; [vm_compute; reflexivity|]. split; [vm_compute; reflexivity|].
  refine (proj2 (other_network_lifts_limit (DN := dp_reliable) (MI := iter_forward) "10.0.0.0/8" "192.168.0.0/16" 2 3 es_sample _ _
    fresh_dynamic ((fun now => (now, 167772161)) <$> [0; 1; 2; 3; 4]) (fun _ => eq_refl) es_sample_connected _ _)); vm_compute; reflexivity.
Defined.

Lemma backend_health_exact_witness :
  exists l s', GetBackendHealth (DN := dp_reliable) (MI := iter_forward)
    (foldl track (replicate 2 fresh_dynamic) [mkSeen 0 5 167772161 80 2; mkSeen 1 6 167772161 80 2; mkSeen 1 7 167772161 80 4])
    "10.0.0.1" 80 es_sample = (Ok l, s') /\ TotalConns <$> l = [2] /\ FailedConns <$> l = [1].
Proof.
  destruct (backend_health_exact (DN := dp_reliable) (MI := iter_forward) 2 {[ (167772161, 80) ]}
    [mkSeen 0 5 167772161 80 2; mkSeen 1 6 167772161 80 2; mkSeen 1 7 167772161 80 4] [10; 0; 0; 1] 80 es_sample
    (fun _ => eq_refl) es_sample_connected sample_v4) as (l & s' & E & _ & _).
  - repeat (constructor; [split; [cbn; lia|by apply elem_of_singleton]|]). constructor.
  - vm_compute. lia.
  - vm_compute. reflexivity.
  - exists l, s'. split; [exact E|]. vm_compute in E. injection E as <- _. split; reflexivity.
Defined.
