(* ===== verification/OperatorIpam.v ===== *)
(** The operator's address controllers: ippool_controller.go and
    ipallocation_controller.go of internal/operator/controller, over the pool
    manager of IpamManager.v.  The API server is the map of objects it stores; an
    object with a deletion time is gone once its finalizer is removed. *)

From Stdlib Require Import ZArith Lia Ascii String.
From stdpp Require Import base tactics list gmap strings fin_maps.
From S2P Require Import Prelude GoStrings GoNet GoCidr Bitmap IpamIndex IpamPool IpamManager.

(** * Objects *)

(** The condition the controllers set: its status and its reason. *)
Abbreviation condition := (bool * string)%type.

(** [IPPool]; its specification has the fields of the manager's configuration.  The
    controller never writes the list of allocations of the status. *)
Record IPPool := mkIPPool {
  ip_Spec : PoolConfig; ps_Allocated : Z; ps_Total : Z; ps_Available : Z; ps_Ready : option condition }.

Variant IPAllocationState := Bound | Released | Conflict.

Record IPAllocation := mkIPAllocation {
  ia_Pool : string; ia_IP : string; ia_Owner : string; ia_Resource : string;
  ia_finalizer : bool; ia_deleting : bool; ia_State : option IPAllocationState; ia_Valid : option condition }.

(** The API server and the operator's manager. *)
Record world := mkWorld { api_pools : gmap string IPPool; api_allocs : gmap string IPAllocation; mgr : Manager }.

(** Which calls of the API server fail. *)
Record faults := mkFaults { get_fails : bool; update_fails : bool; status_fails : bool }.
Definition no_faults : faults := mkFaults false false false.

Definition set_pool (name : string) (p : IPPool) (w : world) : world := mkWorld (<[name := p]> (api_pools w)) (api_allocs w) (mgr w).
Definition set_alloc (name : string) (a : IPAllocation) (w : world) : world := mkWorld (api_pools w) (<[name := a]> (api_allocs w)) (mgr w).
Definition drop_alloc (name : string) (w : world) : world := mkWorld (api_pools w) (delete name (api_allocs w)) (mgr w).
Definition set_mgr (m : Manager) (w : world) : world := mkWorld (api_pools w) (api_allocs w) m.

Definition with_finalizer (b : bool) (a : IPAllocation) : IPAllocation :=
  mkIPAllocation (ia_Pool a) (ia_IP a) (ia_Owner a) (ia_Resource a) b (ia_deleting a) (ia_State a) (ia_Valid a).
Definition with_status (st : IPAllocationState) (v : option condition) (a : IPAllocation) : IPAllocation :=
  mkIPAllocation (ia_Pool a) (ia_IP a) (ia_Owner a) (ia_Resource a) (ia_finalizer a) (ia_deleting a) (Some st) v.
(** A deletion by a user. *)
Definition with_deletion (a : IPAllocation) : IPAllocation :=
  mkIPAllocation (ia_Pool a) (ia_IP a) (ia_Owner a) (ia_Resource a) (ia_finalizer a) true (ia_State a) (ia_Valid a).

(** * Reconciliation *)

Inductive op_error := ErrGet | ErrManager (e : ipam_error) | ErrUpdate.

Definition crdPoolTypeToIPAM (t : string) : string :=
  if bool_decide (t ∈ ["LoadBalancerVIP"; "IngressIP"; "PodCIDR"; "ServiceClusterIP"; "Custom"]) then t else "Custom".

Definition pool_config (name : string) (p : IPPool) : PoolConfig :=
  let s := ip_Spec p in
  mkConfig name (crdPoolTypeToIPAM (cfg_type s)) (CIDRs s) (Addresses s) (AutoAssign s) (cfg_owner s).

Definition ReconcilePool (ro : rec_orders) (flt : faults) (name : string) (w : world) : outcome (world * result op_error unit) :=
  if get_fails flt then Val (w, Err ErrGet)
  else
    match api_pools w !! name with
    | None => Val (set_mgr (UnregisterPool (mgr w) name) w, Ok tt)
    | Some pool =>
        '(m, r) ← UpdatePool (mgr w) (pool_config name pool);
        let w := set_mgr m w in
        match r with
        | Err e =>
            let pool' := mkIPPool (ip_Spec pool) (ps_Allocated pool) (ps_Total pool) (ps_Available pool) (Some (false, "InvalidConfig")) in
            Val (if status_fails flt then w else set_pool name pool' w, Err (ErrManager e))
        | Ok _ =>
            match mgr_GetPool m ro name with
            | Err e => Val (w, Err (ErrManager e))
            | Ok st =>
                let pool' := mkIPPool (ip_Spec pool) (to_int32 (Allocated st)) (to_int32 (Total st)) (to_int32 (st_available st))
                               (Some (true, "PoolReady")) in
                Val (if status_fails flt then (w, Err ErrUpdate) else (set_pool name pool' w, Ok tt))
            end
        end
    end.

Definition isAlreadyAllocatedError (e : ipam_error) : bool :=
  match e with ErrIPAlreadyAlloc => true | _ => false end.

(** A status write whose outcome is ignored. *)
Definition try_status (flt : faults) (name : string) (a : IPAllocation) (w : world) : world :=
  if status_fails flt then w else set_alloc name a w.

Definition bind_allocation (flt : faults) (now : Z) (name : string) (a : IPAllocation) (w : world)
    : outcome (world * result op_error unit) :=
  match ParseIP (ia_IP a) with
  | None => Val (try_status flt name (with_status Conflict (Some (false, "InvalidIP")) a) w, Ok tt)
  | Some ip =>
      '(m, r) ← mgr_AllocateSpecific (mgr w) (ia_Pool a) ip (ia_Owner a) (ia_Resource a) now;
      let w := set_mgr m w in
      let bound := with_status Bound (Some (true, "Bound")) a in
      let finish := if status_fails flt then (w, Err ErrUpdate) else (set_alloc name bound w, Ok tt) in
      match r with
      | Ok _ => Val finish
      | Err e =>
          if isAlreadyAllocatedError e then Val finish
          else Val (try_status flt name (with_status Conflict (Some (false, "AllocationFailed")) a) w, Ok tt)
      end
  end.

Definition release_allocation (flt : faults) (name : string) (a : IPAllocation) (w : world)
    : outcome (world * result op_error unit) :=
  m ← match ParseIP (ia_IP a) with
      | None => Val (mgr w)
      | Some ip => '(m, _) ← mgr_Release (mgr w) (ia_Pool a) ip; Val m
      end;
  let w := set_mgr m w in
  Val (if update_fails flt then (w, Err ErrUpdate) else (drop_alloc name w, Ok tt)).

Definition ReconcileAllocation (flt : faults) (now : Z) (name : string) (w : world) : outcome (world * result op_error unit) :=
  if get_fails flt then Val (w, Err ErrGet)
  else
    match api_allocs w !! name with
    | None => Val (w, Ok tt)
    | Some a =>
        if ia_deleting a then
          if ia_finalizer a then release_allocation flt name a w else Val (w, Ok tt)
        else if ia_finalizer a then bind_allocation flt now name a w
        else if update_fails flt then Val (w, Err ErrUpdate)
        else let a := with_finalizer true a in bind_allocation flt now name a (set_alloc name a w)
    end.

(** * Reachable worlds *)

Definition ok_pools (w : world) : Prop := map_Forall (fun name p => cfg_ok (pool_config name p)) (api_pools w).

(** The address an object holds: that of its specification, once the finalizer
    guards it. *)
Definition claimed (a : IPAllocation) : option (string * string) :=
  if ia_finalizer a then ip ← ParseIP (ia_IP a); Some (ia_Pool a, ip_string ip) else None.

(** An edit by a user of the specification, the status or the finalizers; an object
    that is being deleted is gone without its finalizer. *)
Definition edited (name : string) (a' : IPAllocation) (w : world) : world :=
  if ia_deleting a' && negb (ia_finalizer a') then drop_alloc name w else set_alloc name a' w.

(** The address that an edit takes from an object. *)
Definition taken_away (a a' : IPAllocation) : list (string * string) :=
  if decide (claimed a' = claimed a) then [] else option_list (claimed a).

(** Users create, edit and delete objects; the controllers reconcile any name at any
    time, any of their API calls failing.  A step comes with the addresses it takes
    from objects by an edit. *)
Inductive op_step (w : world) : list (string * string) -> world -> Prop :=
| step_create_pool name p :
    api_pools w !! name = None -> cfg_ok (pool_config name p) -> op_step w [] (set_pool name p w)
| step_edit_pool name p p' :
    api_pools w !! name = Some p -> cfg_ok (pool_config name p') -> op_step w [] (set_pool name p' w)
| step_delete_pool name : op_step w [] (mkWorld (delete name (api_pools w)) (api_allocs w) (mgr w))
| step_create_alloc name a :
    api_allocs w !! name = None -> ia_deleting a = false -> op_step w [] (set_alloc name a w)
| step_edit_alloc name a a' :
    api_allocs w !! name = Some a -> ia_deleting a' = ia_deleting a -> op_step w (taken_away a a') (edited name a' w)
| step_delete_alloc name a :
    api_allocs w !! name = Some a ->
    op_step w [] (if ia_finalizer a then set_alloc name (with_deletion a) w else drop_alloc name w)
| step_pool ro flt name w' r : ReconcilePool ro flt name w = Val (w', r) -> op_step w [] w'
| step_alloc flt now name w' r : ReconcileAllocation flt now name w = Val (w', r) -> op_step w [] w'.

(** The worlds that can be reached, with the addresses that edits took away. *)
Inductive op_reachable : list (string * string) -> world -> Prop :=
| op_start : op_reachable [] (mkWorld ∅ ∅ NewManager)
| op_next L w l w' : op_reachable L w -> op_step w l w' -> op_reachable (l ++ L) w'.

(** The object [a] holds the address [s] of the pool. *)
Definition holds (a : IPAllocation) (pool s : string) : Prop :=
  ia_finalizer a = true /\ ia_Pool a = pool /\ exists ip, ParseIP (ia_IP a) = Some ip /\ ip_string ip = s.

Definition held (w : world) (pool s : string) : Prop := exists name a, api_allocs w !! name = Some a /\ holds a pool s.

Lemma claimed_holds a pool s : claimed a = Some (pool, s) <-> holds a pool s.
Proof.
  unfold claimed, holds. destruct (ia_finalizer a); [|naive_solver]. destruct (ParseIP (ia_IP a)); cbn; naive_solver.
Qed.

(** The owner of the record of an address of the manager. *)
Definition record_of (m : Manager) (pool s : string) : option AllocationInfo := p ← m !! pool; allocations p !! s.

Record op_inv (L : list (string * string)) (w : world) : Prop := {
  oi_mgr : mgr_inv (mgr w);
  oi_pools : ok_pools w;
  oi_held pool s : is_Some (record_of (mgr w) pool s) -> held w pool s \/ (pool, s) ∈ L;
}.

(** The pool is registered and the address is one of its own. *)
Definition offered (m : Manager) (pool : string) (ip : IP) : Prop := exists p, m !! pool = Some p /\ offers p ip.

(** [m'] is [m] with the record of one address replaced. *)
Definition record_set (m m' : Manager) (pool s : string) (i : option AllocationInfo) : Prop :=
  mgr_inv m' /\ (forall pool' ip, wf_ip ip -> offered m' pool' ip <-> offered m pool' ip) /\
  forall pool' s', record_of m' pool' s' = if decide (pool' = pool /\ s' = s) then i else record_of m pool' s'.

Lemma record_of_insert m pool p pool' s' :
  record_of (<[pool := p]> m) pool' s' = if decide (pool' = pool) then allocations p !! s' else record_of m pool' s'.
Proof.
  unfold record_of. case_decide as E; [subst; by rewrite lookup_insert_eq|]. by rewrite lookup_insert_ne.
Qed.

Lemma offered_insert m pool p p' pool' ip :
  m !! pool = Some p -> (offers p' ip <-> offers p ip) -> offered (<[pool := p']> m) pool' ip <-> offered m pool' ip.
Proof.
  intros Hp Ho. unfold offered. destruct (decide (pool' = pool)) as [->|].
  - rewrite lookup_insert_eq, Hp. naive_solver.
  - by rewrite lookup_insert_ne.
Qed.

Lemma specific_records m pool ip own res now :
  mgr_inv m -> wf_ip ip ->
  (exists m', mgr_AllocateSpecific m pool ip own res now = Val (m', Ok tt) /\ offered m pool ip /\
     record_of m pool (ip_string ip) = None /\
     record_set m m' pool (ip_string ip) (Some (mkInfo (normalizeIP ip) own res now))) \/
  (mgr_AllocateSpecific m pool ip own res now = Val (m, Err ErrIPAlreadyAlloc) /\ is_Some (record_of m pool (ip_string ip))) \/
  (exists e, mgr_AllocateSpecific m pool ip own res now = Val (m, Err e) /\ isAlreadyAllocatedError e = false /\
     ~ offered m pool ip).
Proof.
  intros Hm Hw. unfold mgr_AllocateSpecific, getPool. destruct (m !! pool) as [p|] eqn:Ep.
  2:{ right. right. eexists. split; [done|]. split; [done|]. intros (p & ? & _). congruence. }
  destruct (Hm pool p Ep) as [Hi _].
  destruct (AllocateSpecific_sound p ip own res now Hi (proj2 Hw)) as [(p' & E & Hg)|[(E & _ & Ht)|(E & Hn)]];
    rewrite E; cbn [mbind outcome_bind].
  - left. eexists. split; [done|]. destruct Hg as (Hi' & _ & Ho & Hn & Ha & Hoff).
    split; [by exists p|]. split.
    { unfold record_of. rewrite Ep. cbn. apply eq_None_not_Some. by rewrite (pi_taken _ Hi ip Hw). }
    split; [eapply mgr_inv_insert; [done..|by eapply AllocateSpecific_name]|].
    split; [intros; eapply offered_insert; [done|by apply Hoff]|]. intros pool' s'. rewrite record_of_insert, Ha.
    repeat case_decide; try tauto; destruct_and?; simplify_eq; try tauto; [by rewrite lookup_insert_eq|].
    rewrite lookup_insert_ne by naive_solver. unfold record_of. by rewrite Ep.
  - right. left. rewrite insert_id by done. split; [done|]. unfold record_of. rewrite Ep. cbn.
    by apply (pi_taken _ Hi ip Hw).
  - right. right. eexists. rewrite insert_id by done. split; [done|]. split; [done|].
    intros (q & Hq & Ho). apply Hn. split; [done|]. congruence.
Qed.

Lemma release_records m pool ip :
  mgr_inv m -> wf_ip ip ->
  exists m' r, mgr_Release m pool ip = Val (m', r) /\ record_set m m' pool (ip_string ip) None.
Proof.
  intros Hm Hw. unfold mgr_Release, getPool. destruct (m !! pool) as [p|] eqn:Ep.
  2:{ eexists _, _. split; [done|]. split; [done|]. split; [done|]. intros pool' s'. case_decide as E; [|done].
      destruct E as [-> ->]. unfold record_of. by rewrite Ep. }
  destruct (Hm pool p Ep) as [Hi _].
  destruct (Release_sound p ip Hi Hw) as [[E Hn]|(p' & E & _ & Hi' & Ha & Hoff)]; rewrite E; cbn [mbind outcome_bind];
    eexists _, _; (split; [done|]).
  - rewrite insert_id by done. split; [done|]. split; [done|]. intros pool' s'. case_decide as E'; [|done].
    destruct E' as [-> ->]. unfold record_of. by rewrite Ep.
  - split; [eapply mgr_inv_insert; [done..|by eapply Release_name]|].
    split; [intros; eapply offered_insert; [done|by apply Hoff]|]. intros pool' s'. rewrite record_of_insert, Ha.
    repeat case_decide; try tauto; destruct_and?; simplify_eq; try tauto; [by rewrite lookup_delete_eq|].
    rewrite lookup_delete_ne by naive_solver. unfold record_of. by rewrite Ep.
Qed.

(** * The invariant *)

(** Writing an object that holds what the object it replaces held. *)
Lemma held_set w name a pool s :
  (forall a0, api_allocs w !! name = Some a0 -> holds a0 pool s -> holds a pool s) ->
  held w pool s -> held (set_alloc name a w) pool s.
Proof.
  intros Ha (n & a0 & Hn & H0). destruct (decide (n = name)) as [->|Hne].
  - exists name, a. cbn. rewrite lookup_insert_eq. split; [done|]. by apply (Ha a0).
  - exists n, a0. cbn. by rewrite lookup_insert_ne.
Qed.

Lemma inv_set_alloc L w name a :
  op_inv L w -> (forall a0 pool s, api_allocs w !! name = Some a0 -> holds a0 pool s -> holds a pool s) ->
  op_inv L (set_alloc name a w).
Proof.
  intros [H1 H2 H3] Ha. split; [done..|]. intros pool s Hs. destruct (H3 pool s Hs) as [H|H]; [left|by right]. apply held_set; [intros; by eapply Ha|done].
Qed.

Lemma inv_set_pool L w name p : op_inv L w -> cfg_ok (pool_config name p) -> op_inv L (set_pool name p w).
Proof. intros [H1 H2 H3] Hp. split; [done| |done]. by apply map_Forall_insert_2. Qed.

Lemma inv_set_mgr L w m :
  op_inv L w -> mgr_inv m -> (forall pool s, is_Some (record_of m pool s) -> held w pool s \/ (pool, s) ∈ L) -> op_inv L (set_mgr m w).
Proof. intros [H1 H2 H3] Hm Hh. by split. Qed.

Lemma bind_inv L flt now name a w :
  op_inv L w -> api_allocs w !! name = Some a -> ia_finalizer a = true ->
  exists w' r, bind_allocation flt now name a w = Val (w', r) /\ op_inv L w'.
Proof.
  intros Hi Ha Hf. unfold bind_allocation, try_status.
  assert (forall w1 st v, op_inv L w1 -> api_allocs w1 = api_allocs w -> op_inv L (set_alloc name (with_status st v a) w1)) as Hst.
  { intros w1 st v Hi1 E1. apply inv_set_alloc; [done|]. rewrite E1, Ha. by intros ? ? ? [= <-]. }
  destruct (ParseIP (ia_IP a)) as [ip|] eqn:Eip.
  2:{ eexists _, _. split; [done|]. destruct (status_fails flt); [done|]. by apply Hst. }
  destruct (specific_records (mgr w) (ia_Pool a) ip (ia_Owner a) (ia_Resource a) now (oi_mgr _ _ Hi) (parsed_wf _ _ Eip))
    as [(m' & E & _ & _ & Hm & _ & Hr)|[(E & _)|(e & E & He & _)]]; rewrite E; cbn [mbind outcome_bind].
  - assert (op_inv L (set_mgr m' w)) as Hi'.
    { apply inv_set_mgr; [done..|]. intros pool s. rewrite Hr. case_decide as Ed; [|apply (oi_held _ _ Hi)].
      destruct Ed as [-> ->]. intros _. left. exists name, a. split; [done|]. by split; [|split; [|exists ip]]. }
    destruct (status_fails flt); eexists _, _; (split; [done|]); [done|by apply Hst].
  - assert (op_inv L (set_mgr (mgr w) w)) as Hi' by (by destruct w).
    cbn [isAlreadyAllocatedError]. destruct (status_fails flt); eexists _, _; (split; [done|]); [done|by apply Hst].
  - assert (op_inv L (set_mgr (mgr w) w)) as Hi' by (by destruct w).
    rewrite He. destruct (status_fails flt); eexists _, _; (split; [done|]); [done|by apply Hst].
Qed.

Lemma release_inv L flt name a w :
  op_inv L w -> api_allocs w !! name = Some a ->
  exists w' r, release_allocation flt name a w = Val (w', r) /\ op_inv L w'.
Proof.
  intros Hi Ha. unfold release_allocation.
  assert (exists m', (match ParseIP (ia_IP a) with None => Val (mgr w)
            | Some ip => '(m, _) ← mgr_Release (mgr w) (ia_Pool a) ip; Val m end) = Val m' /\ mgr_inv m' /\
          forall pool s, is_Some (record_of m' pool s) -> is_Some (record_of (mgr w) pool s) /\ ~ holds a pool s)
    as (m' & -> & Hm & Hr).
  { destruct (ParseIP (ia_IP a)) as [ip|] eqn:Eip.
    2:{ eexists. split; [done|]. split; [apply (oi_mgr _ _ Hi)|]. intros pool s Hs. split; [done|].
        intros (_ & _ & ip & Eip' & _). congruence. }
    destruct (release_records (mgr w) (ia_Pool a) ip (oi_mgr _ _ Hi) (parsed_wf _ _ Eip)) as (m' & r & -> & Hm & _ & Hr).
    cbn [mbind outcome_bind]. eexists. split; [done|]. split; [done|]. intros pool s. rewrite Hr.
    case_decide as E; [by intros []|]. intros Hs. split; [done|]. intros (_ & Hp & ip' & Eip' & Es). apply E.
    rewrite Eip in Eip'. simplify_eq. done. }
  cbn [mbind outcome_bind]. destruct (update_fails flt); eexists _, _; (split; [done|]).
  - apply inv_set_mgr; [done..|]. intros pool s Hs. apply (oi_held _ _ Hi). by apply Hr.
  - split; [done|apply (oi_pools _ _ Hi)|]. intros pool s [Hs Hn]%Hr.
    destruct (oi_held _ _ Hi pool s Hs) as [(n & a' & Hn' & H')|]; [left|by right]. exists n, a'. split; [|done]. cbn.
    rewrite lookup_delete_ne; [done|]. intros ->. rewrite Ha in Hn'. by simplify_eq.
Qed.

Lemma alloc_inv L flt now name w : op_inv L w -> exists w' r, ReconcileAllocation flt now name w = Val (w', r) /\ op_inv L w'.
Proof.
  intros Hi. unfold ReconcileAllocation. destruct (get_fails flt); [eauto|].
  destruct (api_allocs w !! name) as [a|] eqn:Ea; [|eauto].
  destruct (ia_deleting a), (ia_finalizer a) eqn:Ef; [by apply release_inv|eauto|by apply bind_inv|].
  destruct (update_fails flt); [eauto|]. apply bind_inv; [|by cbn; rewrite lookup_insert_eq|done].
  apply inv_set_alloc; [done|]. rewrite Ea. intros a0 pool s [= <-] [? _]. congruence.
Qed.

Lemma pool_inv_step L ro flt name w : op_inv L w -> exists w' r, ReconcilePool ro flt name w = Val (w', r) /\ op_inv L w'.
Proof.
  intros Hi. unfold ReconcilePool. destruct (get_fails flt); [eauto|].
  destruct (api_pools w !! name) as [p|] eqn:Ep.
  2:{ eexists _, _. split; [done|]. apply inv_set_mgr; [done|apply map_Forall_delete, (oi_mgr _ _ Hi)|].
      intros pool s. unfold record_of, UnregisterPool. destruct (decide (pool = name)) as [->|].
      - rewrite lookup_delete_eq. by intros [].
      - rewrite lookup_delete_ne by done. apply (oi_held _ _ Hi). }
  pose proof (oi_pools _ _ Hi name p Ep) as Hc.
  destruct (NewPool_spec (pool_config name p)) as (x & E & Hx).
  assert (exists m' r, UpdatePool (mgr w) (pool_config name p) = Val (m', r) /\ op_inv L (set_mgr m' w)) as (m' & r & E' & Hi').
  { unfold UpdatePool. rewrite E. cbn [mbind outcome_bind]. destruct x as [q|e]; eexists _, _; (split; [done|]); [|by destruct w].
    apply inv_set_mgr; [done| |].
    - apply (UpdatePool_inv (mgr w) (pool_config name p) _ (Ok tt)); [apply (oi_mgr _ _ Hi)|done|].
      unfold UpdatePool. by rewrite E.
    - intros pool s. rewrite record_of_insert. case_decide; [|apply (oi_held _ _ Hi)].
      rewrite (proj1 (Hx q eq_refl)), lookup_empty. by intros []. }
  rewrite E'. cbn [mbind outcome_bind].
  destruct r as [?|e]; [destruct (mgr_GetPool m' ro name) as [st|e]|]; [| |]; try destruct (status_fails flt); eexists _, _;
    (split; [done|]); try done; by apply inv_set_pool.
Qed.

Lemma inv_weaken l L w : op_inv L w -> op_inv (l ++ L) w.
Proof. intros [H1 H2 H3]. split; [done..|]. intros pool s [H|H]%H3; [by left|right]. apply elem_of_app. by right. Qed.

(** An object without a claim on the address goes. *)
Lemma inv_drop_alloc L w name :
  op_inv L w -> (forall a pool s, api_allocs w !! name = Some a -> holds a pool s -> (pool, s) ∈ L) -> op_inv L (drop_alloc name w).
Proof.
  intros [H1 H2 H3] Ha. split; [done..|]. intros pool s Hs. destruct (H3 pool s Hs) as [(n & a & Hn & H)|H]; [|by right].
  destruct (decide (n = name)) as [->|Hne]; [right; by eapply Ha|left]. exists n, a. split; [|done]. cbn. by rewrite lookup_delete_ne.
Qed.

Lemma edit_inv L w name a a' :
  op_inv L w -> api_allocs w !! name = Some a -> op_inv (taken_away a a' ++ L) (edited name a' w).
Proof.
  intros Hi Ha. unfold edited, taken_away.
  assert (forall pool s, holds a pool s -> holds a' pool s \/ (pool, s) ∈ taken_away a a') as Hc.
  { intros pool s H%claimed_holds. unfold taken_away. case_decide as E; [left; apply claimed_holds; congruence|right].
    rewrite H. by left. }
  unfold taken_away in Hc. set (l := if decide _ then _ else _) in *. apply (inv_weaken l) in Hi.
  destruct (ia_deleting a' && negb (ia_finalizer a')) eqn:Ed.
  - apply inv_drop_alloc; [done|]. rewrite Ha. intros ? pool s [= <-] [[Hf _]|H]%Hc; [|apply elem_of_app; by left].
    apply andb_prop in Ed as [_ Ed]. rewrite Hf in Ed. discriminate Ed.
  - destruct Hi as [H1 H2 H3]. split; [done..|]. intros pool s Hs. destruct (H3 pool s Hs) as [(n & b & Hn & H)|H]; [|by right].
    destruct (decide (n = name)) as [->|Hne].
    + rewrite Ha in Hn. injection Hn as <-. destruct (Hc _ _ H) as [H'|H']; [left|right; apply elem_of_app; by left].
      exists name, a'. cbn. by rewrite lookup_insert_eq.
    + left. exists n, b. cbn. by rewrite lookup_insert_ne.
Qed.

Lemma step_inv L w l w' : op_inv L w -> op_step w l w' -> op_inv (l ++ L) w'.
Proof.
  intros Hi [name p Hn Hc|name p p' Hn Hc|name|name a Hn Hd|name a a' Ha Hd|name a Ha|ro flt name w1 r E|flt now name w1 r E]; cbn [app].
  - by apply inv_set_pool.
  - by apply inv_set_pool.
  - destruct Hi as [H1 H2 H3]. split; [done| |done]. by apply map_Forall_delete.
  - apply inv_set_alloc; [done|]. rewrite Hn. done.
  - by apply edit_inv.
  - destruct (ia_finalizer a) eqn:Ef; [apply inv_set_alloc; [done|]; rewrite Ha; by intros ? ? ? [= <-]|].
    apply inv_drop_alloc; [done|]. rewrite Ha. intros ? pool s [= <-] [? _]. congruence.
  - destruct (pool_inv_step L ro flt name w Hi) as (? & ? & E' & ?). congruence.
  - destruct (alloc_inv L flt now name w Hi) as (? & ? & E' & ?). congruence.
Qed.

Lemma op_reachable_inv L w : op_reachable L w -> op_inv L w.
Proof.
  induction 1 as [|L w l w' _ IH Hs]; [|by eapply step_inv].
  split; [apply map_Forall_empty..|]. intros pool s. unfold record_of, NewManager. cbn. rewrite lookup_empty. by intros [].
Qed.

(** * Properties *)

(** What a fault-free pass makes of an object that is not being deleted. *)
Definition settled (st : IPAllocationState) (reason : string) (a : IPAllocation) : IPAllocation :=
  with_status st (Some (bool_decide (reason = "Bound"), reason)) (with_finalizer true a).

Lemma bind_pass now name w a :
  api_allocs w !! name = Some a -> ia_deleting a = false ->
  ReconcileAllocation no_faults now name w =
    bind_allocation no_faults now name (with_finalizer true a) (set_alloc name (with_finalizer true a) w).
Proof.
  intros Ha Hd. unfold ReconcileAllocation. cbn. rewrite Ha, Hd. destruct (ia_finalizer a) eqn:Ef; [|done].
  assert (with_finalizer true a = a) as -> by (destruct a; cbn in *; by subst).
  unfold set_alloc. rewrite insert_id by done. by destruct w.
Qed.

Lemma bound_pass now name w a ip :
  mgr_inv (mgr w) -> api_allocs w !! name = Some a -> ia_deleting a = false -> ParseIP (ia_IP a) = Some ip ->
  (offered (mgr w) (ia_Pool a) ip \/ is_Some (record_of (mgr w) (ia_Pool a) (ip_string ip))) ->
  exists m', ReconcileAllocation no_faults now name w = Val (set_alloc name (settled Bound "Bound" a) (set_mgr m' w), Ok tt) /\
    record_set (mgr w) m' (ia_Pool a) (ip_string ip)
      (Some (default (mkInfo (normalizeIP ip) (ia_Owner a) (ia_Resource a) now) (record_of (mgr w) (ia_Pool a) (ip_string ip)))).
Proof.
  intros Hm Ha Hd Hp Hor. rewrite (bind_pass _ _ _ a) by done. unfold bind_allocation. cbn. rewrite Hp.
  destruct (specific_records (mgr w) (ia_Pool a) ip (ia_Owner a) (ia_Resource a) now Hm (parsed_wf _ _ Hp))
    as [(m' & E & Ho & Hn & Hr)|[(E & Hs)|(e & E & He & Ho)]]; rewrite E; cbn [mbind outcome_bind].
  - exists m'. rewrite Hn. split; [|done]. unfold set_alloc, set_mgr. cbn. by rewrite insert_insert_eq.
  - exists (mgr w). split; [unfold set_alloc, set_mgr; cbn; by rewrite insert_insert_eq|]. split; [done|]. split; [done|].
    intros pool' s'. case_decide as Ed; [|done]. destruct Ed as [-> ->], Hs as [i Hi]. by rewrite Hi.
  - exfalso. destruct Hor as [?|[i Hi]]; [done|]. apply Ho. unfold record_of in Hi. unfold offered.
    destruct (mgr w !! ia_Pool a) as [p|] eqn:Ep; [|done]. exists p. split; [done|].
    destruct (Hm _ _ Ep) as [Hpi _]. destruct (pi_taken _ Hpi ip (parsed_wf _ _ Hp)) as [Ht _]. cbn in Hi.
    destruct Ht as [Ht|Ht]; [by rewrite Hi|left; by rewrite Ht|right].
    apply Exists_exists in Ht as (cr & Hcr & Hm'). apply Exists_exists. exists cr. split; [done|].
    apply marked_in_range; [|done]. pose proof (pi_ranges _ Hpi) as Hr. rewrite Forall_forall in Hr. by apply Hr.
Qed.

Lemma released_pass now name w a ip :
  mgr_inv (mgr w) -> api_allocs w !! name = Some a -> ia_deleting a = true -> ia_finalizer a = true ->
  ParseIP (ia_IP a) = Some ip ->
  exists m', ReconcileAllocation no_faults now name w = Val (drop_alloc name (set_mgr m' w), Ok tt) /\
    record_set (mgr w) m' (ia_Pool a) (ip_string ip) None.
Proof.
  intros Hm Ha Hd Hf Hp. unfold ReconcileAllocation, release_allocation. cbn. rewrite Ha, Hd, Hf, Hp.
  destruct (release_records (mgr w) (ia_Pool a) ip Hm (parsed_wf _ _ Hp)) as (m' & r & -> & Hr).
  cbn [mbind outcome_bind]. by exists m'.
Qed.

(** C23: Whatever calls fail and in whatever order users create, edit and delete pools
    and allocations and the controllers act, the controllers return, and every address
    recorded in the operator's manager is held by a stored IPAllocation whose finalizer
    guards it, except for addresses that a user's edit of the specification or the
    finalizer took from an object.  So without such an edit no address is orphaned;
    with one it is (edited_claim_orphans_address).  The ranges of one pool do not
    overlap each other. *)
Theorem no_orphan_address L w :
  op_reachable L w ->
  (forall pool s, is_Some (record_of (mgr w) pool s) -> held w pool s \/ (pool, s) ∈ L) /\
  (forall ro flt name, exists w' r, ReconcilePool ro flt name w = Val (w', r)) /\
  (forall flt now name, exists w' r, ReconcileAllocation flt now name w = Val (w', r)).
Proof.
  intros Hi%op_reachable_inv. split; [apply (oi_held _ _ Hi)|]. split; intros.
  - destruct (pool_inv_step L ro flt name w Hi) as (w' & r & E & _). eauto.
  - destruct (alloc_inv L flt now name w Hi) as (w' & r & E & _). eauto.
Qed.

(** An allocation of a free address of a registered pool is bound and recorded
    under its owner; deleting the object then frees the address and restores every
    record of the manager. *)
Theorem allocation_lifecycle L w name a ip now now' :
  op_reachable L w -> api_allocs w !! name = Some a -> ia_deleting a = false -> ParseIP (ia_IP a) = Some ip ->
  offered (mgr w) (ia_Pool a) ip -> record_of (mgr w) (ia_Pool a) (ip_string ip) = None ->
  exists w1 a1 w2,
    ReconcileAllocation no_faults now name w = Val (w1, Ok tt) /\
    api_allocs w1 = <[name := a1]> (api_allocs w) /\ ia_State a1 = Some Bound /\ ia_finalizer a1 = true /\
    record_of (mgr w1) (ia_Pool a) (ip_string ip) = Some (mkInfo (normalizeIP ip) (ia_Owner a) (ia_Resource a) now) /\
    ReconcileAllocation no_faults now' name (set_alloc name (with_deletion a1) w1) = Val (w2, Ok tt) /\
    api_allocs w2 = delete name (api_allocs w) /\
    forall pool s, record_of (mgr w2) pool s = record_of (mgr w) pool s.
Proof.
  intros Hi%op_reachable_inv Ha Hd Hp Ho Hn.
  destruct (bound_pass now name w a ip (oi_mgr _ _ Hi) Ha Hd Hp (or_introl Ho)) as (m1 & E1 & H1 & _ & Hr1).
  rewrite Hn in Hr1. cbn [from_option id] in Hr1. set (a1 := settled Bound "Bound" a) in *.
  set (w1 := set_alloc name a1 (set_mgr m1 w)) in *.
  destruct (released_pass now' name (set_alloc name (with_deletion a1) w1) (with_deletion a1) ip) as (m2 & E2 & _ & _ & Hr2);
    [done|by cbn; rewrite lookup_insert_eq|done..|].
  exists w1, a1. eexists. split; [exact E1|]. split; [done|]. split; [done|]. split; [done|].
  split; [cbn; rewrite Hr1; by rewrite decide_True|]. split; [exact E2|].
  split; [cbn; by rewrite !insert_insert_eq, delete_insert_eq|]. intros pool s. cbn in *. rewrite Hr2.
  case_decide as E; [destruct E as [-> ->]; done|]. rewrite Hr1. by rewrite decide_False.
Qed.

(** Two objects that claim one address are both bound, whoever holds it: the
    controller does not look at the owner.  Deleting the second frees the address
    while the first object still says Bound. *)
Theorem contested_address_freed L w n1 n2 a1 a2 ip now now' :
  op_reachable L w -> n1 <> n2 -> api_allocs w !! n1 = Some a1 -> ia_State a1 = Some Bound ->
  api_allocs w !! n2 = Some a2 -> ia_deleting a2 = false -> ia_Pool a2 = ia_Pool a1 ->
  ParseIP (ia_IP a1) = Some ip -> ParseIP (ia_IP a2) = Some ip -> is_Some (record_of (mgr w) (ia_Pool a1) (ip_string ip)) ->
  exists w1 a2' w2,
    ReconcileAllocation no_faults now n2 w = Val (w1, Ok tt) /\
    api_allocs w1 !! n2 = Some a2' /\ ia_State a2' = Some Bound /\
    record_of (mgr w1) (ia_Pool a1) (ip_string ip) = record_of (mgr w) (ia_Pool a1) (ip_string ip) /\
    ReconcileAllocation no_faults now' n2 (set_alloc n2 (with_deletion a2') w1) = Val (w2, Ok tt) /\
    api_allocs w2 !! n1 = Some a1 /\ record_of (mgr w2) (ia_Pool a1) (ip_string ip) = None.
Proof.
  intros Hi%op_reachable_inv Hne H1 Hb H2 Hd Hpool Hp1 Hp2 [i Hs]. rewrite <- Hpool in *.
  destruct (bound_pass now n2 w a2 ip (oi_mgr _ _ Hi) H2 Hd Hp2) as (m1 & E1 & Hm1 & _ & Hr1); [right; by rewrite Hs|].
  rewrite Hs in Hr1. cbn [from_option id] in Hr1. set (b := settled Bound "Bound" a2) in *.
  destruct (released_pass now' n2 (set_alloc n2 (with_deletion b) (set_alloc n2 b (set_mgr m1 w))) (with_deletion b) ip)
    as (m2 & E2 & _ & _ & Hr2); [done|by cbn; rewrite lookup_insert_eq|done..|].
  eexists _, b, _. split; [exact E1|]. split; [cbn; by rewrite lookup_insert_eq|]. split; [done|].
  split; [cbn; rewrite Hr1, decide_True by done; by rewrite Hs|]. split; [exact E2|]. cbn in *. split.
  - rewrite lookup_delete_ne, !lookup_insert_ne by done. done.
  - rewrite Hr2. by rewrite decide_True.
Qed.

(** Every pass over an existing pool replaces it in the manager: its records are
    gone, the status reports no address in use, and the bound objects stay. *)
Theorem pool_pass_forgets L w ro name p w' :
  op_reachable L w -> api_pools w !! name = Some p -> ReconcilePool ro no_faults name w = Val (w', Ok tt) ->
  (forall s, record_of (mgr w') name s = None) /\ api_allocs w' = api_allocs w /\
  exists p', api_pools w' !! name = Some p' /\ ps_Allocated p' = 0 /\ ps_Available p' = ps_Total p'.
Proof.
  intros Hi%op_reachable_inv Hp. unfold ReconcilePool, UpdatePool. cbn [get_fails status_fails no_faults]. rewrite Hp.
  destruct (NewPool_spec (pool_config name p)) as (x & -> & Hx). cbn [mbind outcome_bind].
  destruct x as [q|e]; [|done]. destruct (Hx q eq_refl) as [Hq _]. unfold mgr_GetPool, getPool.
  cbn [pool_config cfg_name]. rewrite lookup_insert_eq. intros [= <-]. cbn. split; [|split; [done|]].
  - intros s. rewrite record_of_insert, decide_True, Hq by done. apply lookup_empty.
  - eexists. rewrite lookup_insert_eq. split; [done|]. cbn. rewrite Hq, map_size_empty. split; [done|].
    by rewrite Z.sub_0_r.
Qed.

(** * The worlds of the witnesses *)

Definition lb_pool : IPPool := mkIPPool sample_cfg 0 0 0 None.
Definition claim_of (owner : string) : IPAllocation := mkIPAllocation "lb" "10.0.0.1" owner "svc" false false None None.

Definition step_to (x : outcome (world * result op_error unit)) (w : world) : world := match x with Val (w', _) => w' | _ => w end.

(** One pool and two claims of one address; then the first claim is bound. *)
Definition w_claims : world :=
  let w := set_pool "lb" lb_pool (mkWorld ∅ ∅ NewManager) in
  let w := step_to (ReconcilePool (fun _ => []) no_faults "lb" w) w in
  set_alloc "b" (claim_of "team-b") (set_alloc "a" (claim_of "team-a") w).
Definition w_bound : world := step_to (ReconcileAllocation no_faults 1 "a" w_claims) w_claims.

Lemma step_to_reachable L x w w' r :
  op_reachable L w -> x = Val (w', r) -> op_step w [] w' -> op_reachable L (step_to x w).
Proof. intros Hr -> Hs. exact (op_next L w [] w' Hr Hs). Qed.

Lemma alloc_pass_reachable L flt now name w :
  op_reachable L w -> op_reachable L (step_to (ReconcileAllocation flt now name w) w).
Proof.
  intros Hr. destruct (alloc_inv L flt now name w (op_reachable_inv _ _ Hr)) as (w1 & r & E & _).
  eapply step_to_reachable; [done..|]. by eapply step_alloc.
Qed.

Lemma w_claims_reachable : op_reachable [] w_claims.
Proof.
  unfold w_claims. set (w0 := set_pool "lb" lb_pool (mkWorld ∅ ∅ NewManager)).
  assert (op_reachable [] w0) as H0.
  { eapply (op_next [] _ []); [constructor|]. apply step_create_pool; [reflexivity|].
    intros p E. vm_compute in E. injection E as <-. apply (sample_no_overlap 0 ∅). }
  destruct (pool_inv_step [] (fun _ => []) no_faults "lb" w0 (op_reachable_inv _ _ H0)) as (w1 & r & E & _).
  assert (op_reachable [] (step_to (ReconcilePool (fun _ => []) no_faults "lb" w0) w0)) as H1.
  { eapply step_to_reachable; [done..|]. by eapply step_pool. }
  eapply (op_next [] _ []); [|apply step_create_alloc; vm_compute; reflexivity].
  eapply (op_next [] _ []); [exact H1|apply step_create_alloc; vm_compute; reflexivity].
Qed.

Lemma w_bound_reachable : op_reachable [] w_bound.
Proof. apply alloc_pass_reachable, w_claims_reachable. Qed.

(** Then a user gives the first claim another address, and the controller passes. *)
Definition other_claim : IPAllocation := mkIPAllocation "lb" "10.0.0.2" "team-a" "svc" true false (Some Bound) (Some (true, "Bound")).
Definition w_edited : world :=
  let w := edited "a" other_claim w_bound in step_to (ReconcileAllocation no_faults 2 "a" w) w.

Lemma w_edited_reachable : op_reachable [("lb", "10.0.0.1")] w_edited.
Proof.
  apply alloc_pass_reachable. apply (op_next [] w_bound [("lb", "10.0.0.1")]); [apply w_bound_reachable|].
  refine (step_edit_alloc w_bound "a" (settled Bound "Bound" (claim_of "team-a")) other_claim _ _); vm_compute; reflexivity.
Qed.

Lemma claims_offered : offered (mgr w_claims) "lb" [0; 0; 0; 0; 0; 0; 0; 0; 0; 0; 255; 255; 10; 0; 0; 1].
Proof.
  eexists. split; [vm_compute; reflexivity|]. right. apply Exists_cons_hd. unfold in_range. vm_compute. split; congruence.
Qed.

Lemma no_orphan_address_witness :
  is_Some (record_of (mgr w_bound) "lb" "10.0.0.1") /\ held w_bound "lb" "10.0.0.1".
Proof.
  assert (is_Some (record_of (mgr w_bound) "lb" "10.0.0.1")) as H by (vm_compute; eexists; reflexivity).
  split; [exact H|]. destruct (proj1 (no_orphan_address [] w_bound w_bound_reachable) _ _ H) as [Hh|Hn]; [exact Hh|].
  apply elem_of_nil in Hn. destruct Hn.
Defined.

(** Changing the address of a bound object orphans the old one: the controller binds
    the new address and does not release the old, which no object holds any more. *)
Theorem edited_claim_orphans_address :
  op_reachable [("lb", "10.0.0.1")] w_edited /\
  is_Some (record_of (mgr w_edited) "lb" "10.0.0.1") /\ is_Some (record_of (mgr w_edited) "lb" "10.0.0.2") /\
  ~ held w_edited "lb" "10.0.0.1".
Proof.
  split; [apply w_edited_reachable|]. split; [vm_compute; eexists; reflexivity|]. split; [vm_compute; eexists; reflexivity|].
  intros (name & a & Ha & Hh%claimed_holds).
  assert (map_Forall (fun _ a => claimed a <> Some ("lb", "10.0.0.1")) (api_allocs w_edited)) as H.
  { apply (bool_decide_unpack _). vm_compute. exact I. }
  exact (H name a Ha Hh).
Qed.

Lemma allocation_lifecycle_witness :
  exists w1 a1 w2,
    ReconcileAllocation no_faults 1 "a" w_claims = Val (w1, Ok tt) /\
    api_allocs w1 = <["a" := a1]> (api_allocs w_claims) /\ ia_State a1 = Some Bound /\ ia_finalizer a1 = true /\
    record_of (mgr w1) "lb" "10.0.0.1" = Some (mkInfo [10; 0; 0; 1] "team-a" "svc" 1) /\
    ReconcileAllocation no_faults 2 "a" (set_alloc "a" (with_deletion a1) w1) = Val (w2, Ok tt) /\
    api_allocs w2 = delete "a" (api_allocs w_claims) /\
    forall pool s, record_of (mgr w2) pool s = record_of (mgr w_claims) pool s.
Proof.
  apply (allocation_lifecycle [] w_claims "a" (claim_of "team-a") [0; 0; 0; 0; 0; 0; 0; 0; 0; 0; 255; 255; 10; 0; 0; 1] 1 2).
  - apply w_claims_reachable.
  - vm_compute. reflexivity.
  - reflexivity.
  - vm_compute. reflexivity.
  - apply claims_offered.
  - vm_compute. reflexivity.
Defined.

Lemma contested_address_freed_witness :
  exists w1 a2' w2,
    ReconcileAllocation no_faults 2 "b" w_bound = Val (w1, Ok tt) /\
    api_allocs w1 !! "b" = Some a2' /\ ia_State a2' = Some Bound /\
    record_of (mgr w1) "lb" "10.0.0.1" = record_of (mgr w_bound) "lb" "10.0.0.1" /\
    ReconcileAllocation no_faults 3 "b" (set_alloc "b" (with_deletion a2') w1) = Val (w2, Ok tt) /\
    api_allocs w2 !! "a" = Some (settled Bound "Bound" (claim_of "team-a")) /\
    record_of (mgr w2) "lb" "10.0.0.1" = None.
Proof.
  apply (contested_address_freed [] w_bound "a" "b" (settled Bound "Bound" (claim_of "team-a")) (claim_of "team-b")
           [0; 0; 0; 0; 0; 0; 0; 0; 0; 0; 255; 255; 10; 0; 0; 1] 2 3).
  - apply w_bound_reachable.
  - done.
  - vm_compute. reflexivity.
  - reflexivity.
  - vm_compute. reflexivity.
  - reflexivity.
  - reflexivity.
  - vm_compute. reflexivity.
  - vm_compute. reflexivity.
  - vm_compute. eexists. reflexivity.
Defined.

Lemma pool_pass_forgets_witness :
  is_Some (record_of (mgr w_bound) "lb" "10.0.0.1") /\
  exists w', (forall s, record_of (mgr w') "lb" s = None) /\ api_allocs w' = api_allocs w_bound.
Proof.
  split; [vm_compute; eexists; reflexivity|].
  pose (w' := step_to (ReconcilePool (fun _ => []) no_faults "lb" w_bound) w_bound). exists w'.
  destruct (api_pools w_bound !! "lb") as [p|] eqn:E; [|vm_compute in E; discriminate E].
  destruct (pool_pass_forgets [] w_bound (fun _ => []) "lb" p w' w_bound_reachable E) as (H1 & H2 & _).
  - vm_compute. reflexivity.
  - split; assumption.
Defined.
