(* ===== verification/ConfigFile.v ===== *)
(** The agent's configuration file: the JSON tree the agent decodes over its
    defaults (LoadFromFile in internal/config/config.go) and the start of the agent
    (LoadConfig, ResolveNodeParams and the resolvers of the policy compiler in
    internal/agent/setup_config.go).  The text of a JSON document is the business of
    encoding/json; its decoding into the fields of the configuration is here, with
    keys compared without case as ASCII. *)

From Stdlib Require Import ZArith Lia Ascii String.
From stdpp Require Import base tactics list gmap strings fin_maps.
From S2P Require Import Prelude GoStrings GoNet GoCidr Overlay AgentConfig.

(** * JSON *)

Inductive json :=
| JNull | JBool (b : bool) | JNum (z : Z) | JStr (s : string) | JArr (l : list json) | JObj (o : list (string * json)).

Abbreviation jobj := (list (string * json)).

(** The values an object gives a field, in order; the last one wins. *)
Definition values (k : string) (o : jobj) : list json := (filter (fun e => to_lower e.1 = k) o).*2.

(** Decoding every value of a field over the current one; a null changes nothing,
    a value of another type is an error. *)
Definition decode_field {A} (dec : json -> A -> option A) (k : string) (o : jobj) (cur : A) : option A :=
  foldl (fun acc v => c ← acc; match v with JNull => Some c | _ => dec v c end) (Some cur) (values k o).

Definition dec_str (v : json) (_ : string) : option string := match v with JStr s => Some s | _ => None end.
Definition dec_bool (v : json) (_ : bool) : option bool := match v with JBool b => Some b | _ => None end.
Definition dec_range (lo hi : Z) (v : json) (_ : Z) : option Z :=
  match v with JNum z => if (lo <=? z) && (z <? hi) then Some z else None | _ => None end.
Definition dec_int : json -> Z -> option Z := dec_range (- 2 ^ 63) (2 ^ 63).
Definition dec_uint32 : json -> Z -> option Z := dec_range 0 (2 ^ 32).
Definition dec_obj {A} (dec : jobj -> A -> option A) (v : json) (cur : A) : option A :=
  match v with JObj o => dec o cur | _ => None end.

(** * The configuration *)

Definition dec_peer (o : jobj) (p : RoutingPeerConfig) : option RoutingPeerConfig :=
  a ← decode_field dec_str "neighbor_address" o (rp_NeighborAddress p);
  asn ← decode_field dec_uint32 "remote_as" o (rp_RemoteAS p);
  d ← decode_field dec_str "description" o (rp_Description p);
  e ← decode_field dec_bool "bfd_enabled" o (rp_BFDEnabled p);
  rx ← decode_field dec_uint32 "bfd_min_rx_ms" o (rp_BFDMinRxMs p);
  tx ← decode_field dec_uint32 "bfd_min_tx_ms" o (rp_BFDMinTxMs p);
  m ← decode_field dec_uint32 "bfd_detect_multiplier" o (rp_BFDDetectMultiplier p);
  Some (mkRoutingPeer a asn d e rx tx m).

Definition no_peer : RoutingPeerConfig := mkRoutingPeer "" 0 "" false 0 0 0.

(** A list is decoded from scratch: the defaults have no peers. *)
Definition dec_peers (v : json) (_ : list RoutingPeerConfig) : option (list RoutingPeerConfig) :=
  match v with
  | JArr l => mapM (fun x => match x with JNull => Some no_peer | _ => dec_obj dec_peer x no_peer end) l
  | _ => None
  end.

Definition dec_routing (o : jobj) (r : RoutingConfig) : option RoutingConfig :=
  p ← decode_field dec_str "protocol" o (rc_Protocol r);
  d ← decode_field dec_str "frr_socket_dir" o (FRRSocketDir r);
  vip ← decode_field dec_str "control_plane_vip" o (ControlPlaneVIP r);
  hi ← decode_field dec_int "control_plane_vip_health_interval" o (ControlPlaneVIPHealthInterval r);
  e ← decode_field dec_bool "bfd_enabled" o (rc_BFDEnabled r);
  rx ← decode_field dec_uint32 "bfd_min_rx_ms" o (rc_BFDMinRxMs r);
  tx ← decode_field dec_uint32 "bfd_min_tx_ms" o (rc_BFDMinTxMs r);
  m ← decode_field dec_uint32 "bfd_detect_mult" o (rc_BFDDetectMult r);
  ps ← decode_field dec_peers "peers" o (rc_Peers r);
  Some (mkRoutingConfig p d vip hi e rx tx m ps).

Definition dec_flag (k : string) (o : jobj) (cur : bool) : option bool := decode_field dec_bool k o cur.

Definition dec_l4lb (o : jobj) (c : L4LBConfig) : option L4LBConfig :=
  e ← dec_flag "enabled" o (l4_Enabled c);
  a ← decode_field dec_str "default_algorithm" o (DefaultAlgorithm c);
  Some (mkL4LB e a).

Definition dec_encryption (o : jobj) (c : EncryptionConfig) : option EncryptionConfig :=
  t ← decode_field dec_str "type" o (en_Type c);
  p ← decode_field dec_int "wireguard_port" o (WireGuardPort c);
  k ← decode_field dec_str "node_annotation_key" o (NodeAnnotationKey c);
  Some (mkEncryption t p k).

Definition dec_lbipam (o : jobj) (c : LBIPAMConfig) : option LBIPAMConfig :=
  e ← dec_flag "enabled" o (lb_Enabled c);
  a ← dec_flag "l2_announcement_enabled" o (L2AnnouncementEnabled c);
  Some (mkLBIPAM e a).

Definition dec_ebpf_services (o : jobj) (c : EBPFServicesConfig) : option EBPFServicesConfig :=
  e ← dec_flag "enabled" o (es_Enabled c);
  p ← decode_field dec_str "socket_path" o (SocketPath c);
  Some (mkEBPFServices e p).

Definition dec_ipv6 (o : jobj) (c : IPv6Config) : option IPv6Config :=
  e ← dec_flag "enabled" o (v6_Enabled c);
  n ← decode_field dec_str "cluster_cidr_v6" o (ClusterCIDRv6 c);
  m ← decode_field dec_int "node_cidr_v6_mask_size" o (NodeCIDRv6MaskSize c);
  Some (mkIPv6 e n m).

Definition dec_config (o : jobj) (c : AgentConfig) : option AgentConfig :=
  ls ← decode_field dec_str "listen_socket" o (c_ListenSocket c);
  cs ← decode_field dec_str "cni_socket" o (CNISocket c);
  ds ← decode_field dec_str "dataplane_socket" o (DataplaneSocket c);
  cidr ← decode_field dec_str "cluster_cidr" o (ClusterCIDR c);
  mask ← decode_field dec_int "node_cidr_mask_size" o (NodeCIDRMaskSize c);
  tp ← decode_field dec_str "tunnel_protocol" o (TunnelProtocol c);
  rm ← decode_field dec_str "routing_mode" o (RoutingMode c);
  r ← decode_field (dec_obj dec_routing) "routing" o (Routing c);
  eg ← decode_field (dec_obj (dec_flag "masquerade_enabled")) "egress" o (MasqueradeEnabled c);
  po ← decode_field (dec_obj (dec_flag "default_deny")) "policy" o (DefaultDeny c);
  l4 ← decode_field (dec_obj dec_l4lb) "l4lb" o (L4LB c);
  en ← decode_field (dec_obj dec_encryption) "encryption" o (Encryption c);
  hf ← decode_field (dec_obj (dec_flag "enabled")) "host_firewall" o (HostFirewall c);
  bw ← decode_field (dec_obj (dec_flag "enabled")) "bandwidth" o (Bandwidth c);
  lb ← decode_field (dec_obj dec_lbipam) "lb_ipam" o (LBIPAM c);
  es ← decode_field (dec_obj dec_ebpf_services) "ebpf_services" o (EBPFServices c);
  v6 ← decode_field (dec_obj dec_ipv6) "ipv6" o (IPv6 c);
  dsr ← decode_field dec_bool "dsr" o (DSR c);
  xdp ← decode_field dec_str "xdp_acceleration" o (XDPAcceleration c);
  ll ← decode_field dec_str "log_level" o (c_LogLevel c);
  ma ← decode_field dec_str "metrics_address" o (c_MetricsAddress c);
  Some (mkAgentConfig ls cs ds cidr mask tp rm r eg po l4 en hf bw lb es v6 dsr xdp ll ma).

(** What the path leads to: no file, an unreadable or ill-formed one, or a tree. *)
Inductive config_file := NoFile | Unreadable | IllFormed | Document (v : json).

Inductive load_error := ErrNotExist | ErrRead | ErrParse.

Definition LoadFromFile (f : config_file) : result load_error AgentConfig :=
  match f with
  | NoFile => Err ErrNotExist
  | Unreadable => Err ErrRead
  | IllFormed => Err ErrParse
  | Document JNull => Ok DefaultAgentConfig
  | Document v => match dec_obj dec_config v DefaultAgentConfig with Some c => Ok c | None => Err ErrParse end
  end.

(** * The start of the agent *)

(** [os.IsNotExist] does not look inside a wrapped error, and the loader wraps. *)
Definition IsNotExist (e : load_error) : bool := false.

Inductive exit_reason := ExitLoad (e : load_error) | ExitInvalid (e : agent_config_error).

Definition LoadConfig (env : environ) (f : config_file) : result exit_reason AgentConfig :=
  let checked cfg := let cfg := ExpandAgentEnv env cfg in
                     match ValidateAgent cfg with Some e => Err (ExitInvalid e) | None => Ok cfg end in
  match LoadFromFile f with
  | Err e => if IsNotExist e then checked DefaultAgentConfig else Err (ExitLoad e)
  | Ok cfg => checked cfg
  end.

Record Params := mkParams { pr_ConfigPath : string; pr_PodCIDR : string; pr_NodeIPStr : string; pr_NodeName : string }.

(** [lookup] is the API server's answer for the node's name, if there is a client;
    [None] is a fatal exit. *)
Definition ResolveNodeParams (client : option (string -> option Node)) (p : Params) : option Params :=
  p ← match client with
      | Some lookup =>
          if String.eqb (pr_PodCIDR p) "" || String.eqb (pr_NodeIPStr p) "" then
            n ← lookup (pr_NodeName p);
            Some (mkParams (pr_ConfigPath p) (if String.eqb (pr_PodCIDR p) "" then n_PodCIDR n else pr_PodCIDR p)
                    (if String.eqb (pr_NodeIPStr p) "" then NodeInternalIP n else pr_NodeIPStr p) (pr_NodeName p))
          else Some p
      | None => Some p
      end;
  if String.eqb (pr_PodCIDR p) "" || String.eqb (pr_NodeIPStr p) "" then None else Some p.

(** ** The resolvers of the policy compiler *)

Record ContainerPort := mkContainerPort { cp_Name : string; cp_Protocol : string; cp_Port : Z }.

(** A pod is the ports of its containers. *)
Abbreviation pod_ports := (list (list ContainerPort)).

Definition add_port (portName protocol : string) (ports : list Z) (cp : ContainerPort) : list Z :=
  if String.eqb (cp_Name cp) portName && String.eqb (cp_Protocol cp) protocol then
    if bool_decide (wrap16 (cp_Port cp) ∈ ports) then ports else ports ++ [wrap16 (cp_Port cp)]
  else ports.

(** [pods] is the answer of the API server for the selector, or its failure. *)
Definition resolveNamedPorts (pods : option (list pod_ports)) (portName protocol : string) : list Z :=
  match pods with
  | None => []
  | Some pods => foldl (foldl (foldl (add_port portName protocol))) [] pods
  end.

Definition resolveNamespaces (namespaces : option (list string)) : list string := default [] namespaces.

(** * Properties *)

(** The agent exits when its configuration file does not exist, although the
    defaults are valid: the error is wrapped before it is tested. *)
Theorem missing_file_exits env :
  LoadConfig env NoFile = Err (ExitLoad ErrNotExist) /\ ValidateAgent DefaultAgentConfig = None.
Proof. split; [done|]. vm_compute. reflexivity. Qed.

(** An empty document leaves the defaults, whatever the environment does to them. *)
Lemma empty_document env :
  LoadConfig env (Document (JObj [])) = match ValidateAgent (ExpandAgentEnv env DefaultAgentConfig) with
                                        | Some e => Err (ExitInvalid e)
                                        | None => Ok (ExpandAgentEnv env DefaultAgentConfig)
                                        end.
Proof. done. Qed.

Definition matching (portName protocol : string) (cp : ContainerPort) : bool :=
  String.eqb (cp_Name cp) portName && String.eqb (cp_Protocol cp) protocol.

Lemma add_port_spec portName protocol ports cp :
  NoDup ports -> NoDup (add_port portName protocol ports cp) /\
  forall x, x ∈ add_port portName protocol ports cp <-> x ∈ ports \/ matching portName protocol cp = true /\ x = wrap16 (cp_Port cp).
Proof.
  intros Hn. unfold add_port. fold (matching portName protocol cp). destruct (matching portName protocol cp); [|naive_solver].
  case_bool_decide as E; [naive_solver|]. split.
  - apply NoDup_app. split; [done|]. split; [set_solver|apply NoDup_singleton].
  - set_solver.
Qed.

(** Folding one step that adds the elements of [Q]. *)
Lemma fold_adds {A} (f : list Z -> A -> list Z) (Q : A -> Z -> Prop) :
  (forall ports a, NoDup ports -> NoDup (f ports a) /\ forall x, x ∈ f ports a <-> x ∈ ports \/ Q a x) ->
  forall l ports, NoDup ports -> NoDup (foldl f ports l) /\ forall x, x ∈ foldl f ports l <-> x ∈ ports \/ exists a, a ∈ l /\ Q a x.
Proof.
  intros Hf l. induction l as [|a l IH]; intros ports Hn; cbn [foldl].
  - split; [done|]. set_solver.
  - destruct (Hf ports a Hn) as [H1 H2]. destruct (IH _ H1) as [H3 H4]. split; [done|]. intros x. rewrite H4, H2. set_solver.
Qed.

(** The ports a name stands for: each port once, and exactly those of the
    containers of the selected pods that give the name and the protocol. *)
Theorem named_ports_exact pods portName protocol :
  NoDup (resolveNamedPorts (Some pods) portName protocol) /\
  forall x, x ∈ resolveNamedPorts (Some pods) portName protocol <->
    exists pod ct cp, pod ∈ pods /\ ct ∈ pod /\ cp ∈ ct /\ cp_Name cp = portName /\ cp_Protocol cp = protocol /\ x = wrap16 (cp_Port cp).
Proof.
  unfold resolveNamedPorts.
  pose proof (fold_adds _ _ (add_port_spec portName protocol)) as H1. pose proof (fold_adds _ _ (fun p a => H1 a p)) as H2.
  destruct (fold_adds _ _ (fun p a => H2 a p) pods [] NoDup_nil_2) as [H3 H4]. split; [done|]. intros x. rewrite H4.
  unfold matching. setoid_rewrite andb_true_iff. setoid_rewrite String.eqb_eq. split.
  - intros [?%elem_of_nil|(pod & Hp & ct & Hc & cp & Hcp & [? ?] & ->)]; [done|]. by exists pod, ct, cp.
  - intros (pod & ct & cp & Hp & Hc & Hcp & ? & ? & ->). right. exists pod. split; [done|]. exists ct. split; [done|].
    exists cp. by split.
Qed.
