(* ===== verification/CniPlugin.v ===== *)
(** The CNI plugin (cmd/novanet-cni/main.go): the commands ADD, DEL and CHECK the
    container runtime runs, over the agent of AgentServer.v.  The plugin keeps no
    state; a call of the agent may be lost, or its answer may.  The theorems follow
    one pod from the runtime's arguments to the agent's records and back. *)

From Stdlib Require Import ZArith Lia Ascii String.
From stdpp Require Import base tactics list gmap strings fin_maps.
From S2P Require Import Prelude GoStrings GoMap GoNet GoCidr Bitmap IpamIndex IpamAllocator Identity PolicyTable EbpfMaps.
From S2P Require Import Dataplane PolicyCompiler PolicyEnforcement DpClient EgressManager AgentServer AgentProps FrrClient ConfigFile.

(** * The plugin *)

Definition defaultAgentSocket : string := "/run/novanet/cni.sock".
Definition cniVersion : string := "1.0.0".

(** What the runtime passes; the configuration is read from standard input, [None]
    when it is not JSON. *)
Record CmdArgs := mkCmdArgs {
  ca_ContainerID : string; ca_Netns : string; ca_IfName : string; ca_Args : string; ca_Stdin : option json }.

Record NetConf := mkNetConf { AgentSocket : string; LogFile : string }.

Record cni_result := mkResult {
  res_Version : string; res_IfName : string; res_Mac : string; res_Sandbox : string;
  res_Address : IPNet; res_Gateway : IP; res_RouteDst : IPNet; res_RouteGW : IP }.

Inductive cni_error := ErrConfig | ErrDial | ErrCode (c : code) | ErrNoAnswer | ErrAddress | ErrInvalidGateway.

Definition parseCNIArgs (args : string) : gmap string string :=
  if String.eqb args "" then ∅
  else foldl (fun m pair => match cut "=" pair with Some (k, v) => <[k := v]> m | None => m end) ∅ (split_on ";" args).

(** A missing key reads as the empty text. *)
Definition arg (args : CmdArgs) (k : string) : string := default "" (parseCNIArgs (ca_Args args) !! k).

Section Plugin.
(** The CNI library: whether it decodes the standard fields of the configuration. *)
Context (standard_fields : jobj -> bool).
(** The RPC library: whether it accepts the address of the agent; it does not
    connect. *)
Context (new_client : string -> bool).
Context {DN : DpNet} {MI : MapIter}.
Context (as_selector : LabelSelector -> option (labels -> bool)).
Context (nsr : option (LabelSelector -> list string)).
Context (pr : option (string -> string -> string -> LabelSelector -> list Z)).

Definition parseConfig (data : option json) : option NetConf :=
  match data with
  | Some (JObj o) =>
      if standard_fields o then
        s ← decode_field dec_str "agentsocket" o "";
        l ← decode_field dec_str "logfile" o "";
        Some (mkNetConf (if String.eqb s "" then defaultAgentSocket else s) l)
      else None
  | Some JNull => Some (mkNetConf defaultAgentSocket "")
  | _ => None
  end.

(** A command that reads the configuration and reaches the agent. *)
Definition with_agent {A} (args : CmdArgs) (s : Server) (unreachable : result cni_error A)
    (call : outcome (Server * result cni_error A)) : outcome (Server * result cni_error A) :=
  match parseConfig (ca_Stdin args) with
  | None => Val (s, Err ErrConfig)
  | Some conf => if new_client ("unix://" +:+ AgentSocket conf) then call else Val (s, unreachable)
  end.

Definition add_request (args : CmdArgs) : AddPodRequest :=
  mkAddPod (arg args "K8S_POD_NAME") (arg args "K8S_POD_NAMESPACE") (ca_ContainerID args) (ca_Netns args) (ca_IfName args) ∅.

Definition build_result (args : CmdArgs) (resp : AddPodResponse) : result cni_error cni_result :=
  match ParseCIDR (r_Ip resp +:+ "/" +:+ fmt_d (r_PrefixLength resp)) with
  | None => Err ErrAddress
  | Some (podIP, podNet) =>
      match ParseIP (r_Gateway resp) with
      | None => Err ErrInvalidGateway
      | Some gwIP =>
          match ParseCIDR "0.0.0.0/0" with
          | None => Err ErrAddress
          | Some (_, defaultDst) =>
              Ok (mkResult cniVersion (ca_IfName args) (r_Mac resp) (ca_Netns args) (mkIPNet podIP (net_mask podNet)) gwIP
                    defaultDst gwIP)
          end
      end
  end.

Definition cmdAdd (net : delivery) (e : call_env) (args : CmdArgs) (s : Server) : outcome (Server * result cni_error cni_result) :=
  with_agent args s (Err ErrDial)
    match net with
    | Lost => Val (s, Err ErrNoAnswer)
    | LateError => '(s, _) ← AddPod as_selector nsr pr (add_request args) e s; Val (s, Err ErrNoAnswer)
    | Delivered =>
        '(s, r) ← AddPod as_selector nsr pr (add_request args) e s;
        Val (s, match r with Err c => Err (ErrCode c) | Ok resp => build_result args resp end)
    end.

Definition del_request (args : CmdArgs) : DelPodRequest :=
  mkDelPod (arg args "K8S_POD_NAME") (arg args "K8S_POD_NAMESPACE") (ca_ContainerID args).

Definition cmdDel (net : delivery) (e : call_env) (args : CmdArgs) (s : Server) : outcome (Server * result cni_error unit) :=
  with_agent args s (Ok tt)
    match net with
    | Lost => Val (s, Err ErrNoAnswer)
    | LateError => s ← DelPod (del_request args) e s; Val (s, Err ErrNoAnswer)
    | Delivered => s ← DelPod (del_request args) e s; Val (s, Ok tt)
    end.

Definition cmdCheck (net : delivery) (args : CmdArgs) (s : Server) : outcome (Server * result cni_error unit) :=
  with_agent args s (Err ErrDial) (Val (s, match net with Delivered => Ok tt | _ => Err ErrNoAnswer end)).
End Plugin.

(** * Printed addresses *)

Lemma parse_addr_v4 ip p4 : wf_ip ip -> To4 ip = Some p4 -> parse_addr (ip_string ip) = Some (true, p4).
Proof.
  intros Hw E4. pose proof Hw as [Hl Hb]. unfold ip_string.
  assert ((go_len ip =? 0) = false) as -> by (unfold go_len; destruct Hl as [-> | ->]; done).
  unfold parse_addr. rewrite E4. destruct (To4_spec ip p4 Hw E4) as (H4 & Hb4 & _).
  by rewrite first_mark_ipv4, parse_ipv4_fmt.
Qed.

Lemma printed_lacks_slash ip : wf_ip ip -> lacks "/" (ip_string ip).
Proof.
  intros Hw. assert (is_Some (ParseIP (ip_string ip))) as [x Hx].
  { rewrite ParseIP_ip_string by done. destruct Hw as [[H|H] _]; [rewrite To16_len4 by done|rewrite To16_len16 by done]; eauto. }
  apply ParseIP_chars in Hx. unfold lacks. eapply str_all_impl; [|exact Hx]. intros c Hc. apply negb_true_iff.
  destruct (Ascii.eqb_spec c "/") as [->|]; [discriminate Hc|done].
Qed.

Lemma printed_network ip p4 ones :
  wf_ip ip -> To4 ip = Some p4 -> 0 <= ones <= 32 ->
  exists x n, ParseCIDR (ip_string ip +:+ "/" +:+ fmt_d ones) = Some (x, n) /\ wf_ip x /\ addr16 x = addr16 ip /\
    net_mask n = CIDRMask ones 32.
Proof.
  intros Hw H4 Ho. unfold ParseCIDR. change ("/" +:+ fmt_d ones) with (String "/" (fmt_d ones)).
  rewrite cut_app by (by apply printed_lacks_slash). rewrite (parse_addr_v4 ip p4), read_dec by (done || lia).
  destruct (digits 10 ones) as [|d l] eqn:E; [by destruct (digits_nonempty 10 ones)|]. cbv zeta.
  rewrite <- E, digits_correct by lia. destruct (ones <=? 32) eqn:E'; to_prop; [|lia].
  destruct (To4_spec ip p4 Hw H4) as (Hl & Hb & _).
  assert (wf_ip (v4InV6Prefix ++ p4)) as Hwf.
  { split; [right; by rewrite length_app, Hl|]. rewrite Forall_app. auto using v4InV6Prefix_bytes. }
  eexists _, _. split; [reflexivity|]. split; [done|]. split; [|done].
  assert (To4 (v4InV6Prefix ++ p4) = Some p4) as E4.
  { destruct p4 as [|a [|b [|c [|d' [|]]]]]; try discriminate Hl. reflexivity. }
  by rewrite (addr16_To4 _ _ Hwf E4), (addr16_To4 _ _ Hw H4).
Qed.

Lemma parse_addr_v6 ip : wf_ip ip -> To4 ip = None -> parse_addr (ip_string ip) = Some (false, ip).
Proof.
  intros Hw E4. pose proof Hw as [Hl Hb]. destruct (To4_None_spec ip Hw E4) as (H16 & _). unfold ip_string.
  assert ((go_len ip =? 0) = false) as -> by (unfold go_len; by rewrite H16).
  rewrite E4. unfold parse_addr. destruct (len16_tests ip H16) as [_ ->].
  destruct (ungroups_groups 8 ip) as (Hu & Hg8 & Hgs); [done|done|].
  rewrite first_mark_ipv6, fmt_ipv6_no_zone by done. cbn -[parse_ipv6].
  unfold parse_ipv6. rewrite (parse_groups_fmt ip (groups ip)) by done. cbn. by rewrite Hu.
Qed.

Lemma printed_network6 ip ones :
  wf_ip ip -> To4 ip = None -> 0 <= ones <= 128 ->
  exists n, ParseCIDR (ip_string ip +:+ "/" +:+ fmt_d ones) = Some (ip, n) /\ net_mask n = CIDRMask ones 128.
Proof.
  intros Hw H4 Ho. unfold ParseCIDR. change ("/" +:+ fmt_d ones) with (String "/" (fmt_d ones)).
  rewrite cut_app by (by apply printed_lacks_slash). rewrite (parse_addr_v6 ip), read_dec by (done || lia).
  destruct (digits 10 ones) as [|d l] eqn:E; [by destruct (digits_nonempty 10 ones)|]. cbv zeta.
  rewrite <- E, digits_correct by lia. destruct (ones <=? 128) eqn:E'; to_prop; [|lia]. by eexists.
Qed.

(** The addresses of an IPv6 network that is not one of IPv4-mapped addresses. *)
Lemma v6_address a ip :
  IpamAllocator.inv a -> To4 (baseIP a) = None -> wf_ip ip -> addr16 ip ∈ held a -> To4 ip = None.
Proof.
  intros Hi Hb Hw Hh. destruct (To4 ip) as [p4|] eqn:E; [|done]. exfalso.
  apply (To4_Some_block ip p4 Hw) in E. pose proof (inv_cidr _ Hi) as Hc.
  apply elem_of_held, fl_view_range in Hh. rewrite (inv_bits _ Hi), (inv_size _ Hi) in Hh.
  pose proof (inv_host _ Hi) as Hhost. pose proof (cidr_ones _ _ _ Hc) as Ho. set (h := 8 * ipLen a - prefixLen a) in *.
  destruct (cidr_addr_aligned _ _ _ Hc) as [q Hq]. fold h in Hq. unfold lo_addr in Hh. rewrite (inv_base _ Hi) in *.
  pose proof (cidr_wf _ _ _ Hc) as Hwn.
  apply (To4_None_block _ Hwn Hb). rewrite <- E. apply (div_block _ _ h); [lia|].
  assert (0 < 2 ^ h) by (apply Z.pow_pos_nonneg; lia).
  rewrite Hq, Z.div_mul by lia. apply (Z.div_unique _ _ _ (addr16 ip - q * 2 ^ h)); lia.
Qed.

Lemma printed_address ip : wf_ip ip -> exists x, ParseIP (ip_string ip) = Some x /\ wf_ip x /\ addr16 x = addr16 ip.
Proof.
  intros Hw. rewrite ParseIP_ip_string by done.
  assert (exists b, To16 ip = Some b) as [b E].
  { destruct Hw as [[Hl|Hl] _]; [rewrite To16_len4 by done|rewrite To16_len16 by done]; by eexists. }
  exists b. assert (ParseIP (ip_string ip) = Some b) as Hp by (by rewrite ParseIP_ip_string).
  destruct (ParseIP_wf _ _ Hp) as [Hl Hb]. split; [done|]. split; [by split; [right|]|].
  unfold addr16 at 2. by rewrite E, (addr16_16 b Hl).
Qed.

(** A granted address is printed with the prefix of the network, and read back. *)
Lemma granted_network a a' ip :
  IpamAllocator.inv a -> IpamAllocator.inv a' -> frame a a' -> wf_ip ip -> addr16 ip ∈ held a' ->
  isIPv4 a = true \/ To4 (baseIP a) = None ->
  exists x n, ParseCIDR (ip_string ip +:+ "/" +:+ fmt_d (prefixLen a)) = Some (x, n) /\ addr16 x = addr16 ip /\
    net_mask n = net_mask (network a).
Proof.
  intros Hi Hi' Hf Hw Hh Hfam. pose proof (frame_net _ _ Hf) as (_ & _ & Hv4 & _). pose proof (inv_cidr _ Hi) as Hc.
  pose proof (cidr_ones _ _ _ Hc) as Ho. pose proof (cidr_bits _ _ _ Hc) as Hb. destruct Hfam as [H4|H6].
  - destruct (v4_address a' ip Hi') as [p4 Hp4]; [by rewrite Hv4|done|done|].
    pose proof (inv_v4 _ Hi) as Hv. rewrite H4 in Hv. symmetry in Hv. to_prop. rewrite Hv in *.
    destruct (printed_network ip p4 (prefixLen a) Hw Hp4) as (x & net & Ex & _ & Hax & Hmask); [lia|].
    exists x, net. split; [done|]. split; [done|]. rewrite Hmask, (cidr_mask _ _ _ Hc), CIDRMask_32. f_equal. lia.
  - assert (baseIP a' = baseIP a) as Hbase by (rewrite Hf; done).
    pose proof (v6_address a' ip Hi' ltac:(by rewrite Hbase) Hw Hh) as H4.
    assert (length (net_ip (network a)) = 16%nat) as Hl.
    { rewrite (inv_base _ Hi) in H6. destruct (cidr_len _ _ _ Hc) as [Hl|]; [|done]. by rewrite To4_len4 in H6. }
    destruct (printed_network6 ip (prefixLen a) Hw H4) as (net & Ex & Hmask); [lia|].
    exists ip, net. split; [done|]. split; [done|]. by rewrite Hmask, (cidr_mask _ _ _ Hc), Hl, CIDRMask_128.
Qed.

(** * The answers of the agent *)

Section Answers.
Context {DN : DpNet} {MI : MapIter}.
Context (as_selector : LabelSelector -> option (labels -> bool)).
Context (nsr : option (LabelSelector -> list string)).
Context (pr : option (string -> string -> string -> LabelSelector -> list Z)).

(** The gateway and the prefix of an answer are those of the node's network. *)
Lemma AddPod_network req e s s' resp :
  IpamAllocator.inv (IPAlloc s) -> ids_fit s -> AddPod as_selector nsr pr req e s = Val (s', Ok resp) ->
  r_PrefixLength resp = prefixLen (IPAlloc s) /\
  exists gw, wf_ip gw /\ addr16 gw = lo_addr (IPAlloc s) + 1 /\ r_Gateway resp = ip_string gw.
Proof.
  intros Hi [Hid Hsz]. unfold AddPod. destruct (validateAddPodRequest req) as [c|]; [done|].
  destruct (Allocate_spec (IPAlloc s) (fs s) (e_write e) Hi) as (a & f & r & Ea & Hia & Hfa & _).
  unfold mbind, outcome_bind. rewrite Ea. destruct r as [podIP|err]; [|done].
  cbn [IDAlloc set_IPAlloc]. change (pod_labels (set_IPAlloc a f s) req e) with (pod_labels s req e).
  destruct (AllocateIdentity_sim (IDAlloc s) (pod_labels s req e) Hid Hsz) as (ids & id & Ei & _).
  rewrite Ei. cbn [IPAlloc set_IPAlloc set_IDAlloc fs].
  destruct (free_addr a 1 Hia) as (gw & Eg & [Hwg _] & Hag); [pose proof (inv_min _ Hia); lia|].
  change (Gateway a) with (allocatorIndexToIP a 1). unfold allocatorIndexToIP. rewrite Eg.
  destruct (e_setup e); [|by destruct (Release _ _ _ _) as [[[? ?] ?]| |]].
  intros [= <- <-]. cbn [r_PrefixLength r_Gateway]. destruct (frame_net _ _ Hfa) as (Hlo & Hsz' & _).
  assert (prefixLen a = prefixLen (IPAlloc s)) as Hp by (rewrite Hfa; done). split.
  - unfold PrefixLength. rewrite Hp. apply wrap32_small. pose proof (cidr_ones _ _ _ (inv_cidr _ Hi)).
    pose proof (cidr_bits _ _ _ (inv_cidr _ Hi)). pose proof (cidr_len _ _ _ (inv_cidr _ Hi)). lia.
  - exists gw. split; [done|]. split; [by rewrite Hag, Hlo|done].
Qed.
End Answers.

(** * Properties *)

(** The configuration is read and the agent's address accepted. *)
Definition runs (standard_fields : jobj -> bool) (new_client : string -> bool) (args : CmdArgs) : Prop :=
  exists conf, parseConfig standard_fields (ca_Stdin args) = Some conf /\ new_client ("unix://" +:+ AgentSocket conf) = true.

Lemma with_agent_runs sf nc {A} args s (u : result cni_error A) call :
  runs sf nc args -> with_agent sf nc args s u call = call.
Proof. intros (conf & E & H). unfold with_agent. by rewrite E, H. Qed.

(** The arguments of the runtime: the pairs, each a name without a separator and a
    value without a semicolon, are read back, the last of a name counting. *)
Theorem cni_args_roundtrip (l : list (string * string)) k :
  Forall (fun kv => lacks "=" kv.1 /\ lacks ";" kv.1 /\ lacks ";" kv.2) l ->
  parseCNIArgs (join ";" ((fun kv => kv.1 +:+ "=" +:+ kv.2) <$> l)) !! k =
    (list_to_map (reverse l) : gmap string string) !! k.
Proof.
  intros Hl. unfold parseCNIArgs. destruct l as [|kv l]; [by rewrite reverse_nil|].
  assert (String.eqb (join ";" ((fun kv => kv.1 +:+ "=" +:+ kv.2) <$> kv :: l)) "" = false) as ->.
  { apply String.eqb_neq. intros E. apply (f_equal String.length) in E. destruct l as [|kv' l]; cbn [fmap list_fmap join] in E.
    - rewrite !str_length_app in E. cbn in E. lia.
    - rewrite !str_length_app in E. cbn in E. lia. }
  rewrite (split_on_join ";"); [|done|].
  2:{ apply Forall_fmap. eapply Forall_impl; [exact Hl|]. intros [a b] (_ & H1 & H2). cbn in *.
      rewrite !lacks_app. by repeat split. }
  generalize (kv :: l) Hl. clear kv l Hl. intros l Hl.
  assert (forall m : gmap string string,
    foldl (fun m pair => match cut "=" pair with Some (k, v) => <[k := v]> m | None => m end) m
      ((fun kv : string * string => kv.1 +:+ "=" +:+ kv.2) <$> l) = (list_to_map (reverse l) : gmap string string) ∪ m) as H.
  { induction Hl as [|[a b] l (Ha & _) _ IH]; intros m; [cbn; by rewrite (left_id_L ∅ (∪))|].
    cbn [fmap list_fmap foldl fst snd]. change ("=" +:+ b) with (String "=" b). rewrite cut_app by done. rewrite IH.
    rewrite reverse_cons, list_to_map_app, <- (assoc_L (∪)). f_equal.
    rewrite list_to_map_cons, list_to_map_nil, insert_empty. apply insert_union_singleton_l. }
  by rewrite H, (right_id_L ∅ (∪)).
Qed.

Section Theorems.
Context (standard_fields : jobj -> bool) (new_client : string -> bool).
Context {DN : DpNet} {MI : MapIter}.
Context (as_selector : LabelSelector -> option (labels -> bool)).
Context (nsr : option (LabelSelector -> list string)).
Context (pr : option (string -> string -> string -> LabelSelector -> list Z)).

(** C18: When the configuration is read and the agent answers, ADD fails only if the
    agent refused the pod, and then nothing changed.  Otherwise the runtime is told
    exactly the address the agent has recorded for the pod and the container, with the
    prefix of the node's network and its gateway: the plugin loses no granted address.
    In an IPv4 network the gateway is another address; in an IPv6 network, which must
    not be one of IPv4-mapped addresses, it need not be (ipv6_pod_takes_gateway). *)
Theorem add_reports_recorded_address n s e args :
  agent_inv n s -> n < 2 ^ 64 -> runs standard_fields new_client args ->
  isIPv4 (IPAlloc s) = true \/ To4 (baseIP (IPAlloc s)) = None ->
  exists s' r, cmdAdd standard_fields new_client as_selector nsr pr Delivered e args s = Val (s', r) /\
    match r with
    | Err err => (exists c, err = ErrCode c) /\ held (IPAlloc s') = held (IPAlloc s) /\ Endpoints s' = Endpoints s /\ dp s' = dp s
    | Ok res =>
        exists ep, Endpoints s' !! podKey (arg args "K8S_POD_NAMESPACE") (arg args "K8S_POD_NAME") = Some ep /\
          ContainerID ep = ca_ContainerID args /\ taken (IPAlloc s') (addr16 (ep_IP ep)) /\
          addr16 (net_ip (res_Address res)) = addr16 (ep_IP ep) /\
          net_mask (res_Address res) = net_mask (network (IPAlloc s)) /\
          addr16 (res_Gateway res) = lo_addr (IPAlloc s) + 1 /\ res_RouteGW res = res_Gateway res /\
          (isIPv4 (IPAlloc s) = true -> addr16 (net_ip (res_Address res)) <> addr16 (res_Gateway res))
    end.
Proof.
  intros Ha Hn Hrun Hfam. unfold cmdAdd. rewrite with_agent_runs by done.
  assert (ids_fit s) as Hfit by (split; [apply (ai_id _ _ Ha)|pose proof (ai_size _ _ Ha); lia]).
  destruct (AddPod_spec as_selector nsr pr (add_request args) e s (ai_ipam _ _ Ha) Hfit) as (s' & r & E & Hr).
  rewrite E. cbn [mbind outcome_bind]. eexists _, _. split; [reflexivity|]. destruct r as [resp|c].
  2:{ destruct Hr as (_ & _ & ? & _ & ? & ?). split; [by exists c|done]. }
  destruct Hr as (podIP & id & ifindex & Hadd & _ & Hip & _).
  destruct (AddPod_network as_selector nsr pr _ _ _ _ _ (ai_ipam _ _ Ha) Hfit E) as (Hpl & gw & Hwg & Hag & Hgw).
  destruct Hadd as (ifi & _ & Hw & Hfree & Ht & Hi' & Hf & Hh & _ & He).
  pose proof (frame_net _ _ Hf) as (Hlo & _ & Hv4 & _).
  destruct (granted_network (IPAlloc s) (IPAlloc s') podIP (ai_ipam _ _ Ha) Hi' Hf Hw (proj1 Ht) Hfam) as (x & net & Ex & Hax & Hmask).
  destruct (printed_address gw Hwg) as (g & Eg & Hwgg & Hagg).
  unfold build_result. rewrite Hip, Hpl, Ex, Hgw, Eg. change (ParseCIDR "0.0.0.0/0") with
    (Some (v4InV6Prefix ++ [0; 0; 0; 0], mkIPNet [0; 0; 0; 0] [0; 0; 0; 0])). cbv beta iota.
  eexists. rewrite He. rewrite lookup_insert_eq. split; [reflexivity|]. cbn [ContainerID new_endpoint ep_IP
    res_Address res_Gateway res_RouteGW net_ip net_mask]. split; [done|]. split; [done|]. split; [done|]. split; [done|].
  split; [by rewrite Hagg|]. split; [done|]. intros H4. rewrite Hax, Hagg, Hag. intros Heq. destruct Ht as [_ Hn'].
  apply Hn'. rewrite Heq, Hlo. right. split; [by rewrite Hv4|]. left. lia.
Qed.


(** An agent that cannot be reached makes DEL fail, and the runtime tries again
    without end: the client is created without connecting, so the branch that treats
    an unreachable agent as success is not taken. *)
Theorem unreachable_del_fails e args s :
  runs standard_fields new_client args ->
  cmdDel standard_fields new_client Lost e args s = Val (s, Err ErrNoAnswer).
Proof. intros H. unfold cmdDel. by rewrite with_agent_runs. Qed.
End Theorems.

(** * Witnesses *)

Definition any_fields : jobj -> bool := fun _ => true.
Definition any_client : string -> bool := fun _ => true.
Definition sample_args : CmdArgs :=
  mkCmdArgs "0123456789ab" "/run/netns/a" "eth0" "IgnoreUnknown=1;K8S_POD_NAMESPACE=default;K8S_POD_NAME=web-1"
    (Some (JObj [("cniVersion", JStr "1.0.0")])).

Lemma sample_runs : runs any_fields any_client sample_args.
Proof. eexists. split; reflexivity. Qed.

Abbreviation sample_cmdAdd := (cmdAdd any_fields any_client (DN := dp_reliable) (MI := iter_forward) match_labels None None).

(** In an IPv6 network the gateway is not reserved: the first pod is given the
    gateway's own address, and its default route is an IPv4 one. *)
Theorem ipv6_pod_takes_gateway : exists a s' res,
  NewAllocatorWithStateDir "fd00:1::/120" "/s" true (Some []) = Val (Ok a) /\
  sample_cmdAdd Delivered sample_env sample_args
    (NewServer a ∅ Identity.NewAllocator false [192; 168; 0; 1] true empty_tables None) = Val (s', Ok res) /\
  net_ip (res_Address res) = res_Gateway res /\ ip_string (res_Gateway res) = "fd00:1::1" /\
  res_RouteDst res = mkIPNet [0; 0; 0; 0] [0; 0; 0; 0].
Proof.
  destruct (outcome_elim (NewAllocatorWithStateDir "fd00:1::/120" "/s" true (Some [])) is_ok) as (r & E & Hr);
    [vm_compute; reflexivity|]. destruct r as [a|]; [|discriminate Hr]. exists a.
  pose (ok := fun x : Server * result cni_error cni_result => match x.2 with
    | Ok res => bool_decide (net_ip (res_Address res) = res_Gateway res) && String.eqb (ip_string (res_Gateway res)) "fd00:1::1" &&
                bool_decide (res_RouteDst res = mkIPNet [0; 0; 0; 0] [0; 0; 0; 0]) | Err _ => false end).
  assert (match NewAllocatorWithStateDir "fd00:1::/120" "/s" true (Some []) with
    | Val (Ok a) => match sample_cmdAdd Delivered sample_env sample_args
        (NewServer a ∅ Identity.NewAllocator false [192; 168; 0; 1] true empty_tables None) with Val x => ok x | _ => false end
    | _ => false end = true) as H by (vm_compute; reflexivity).
  rewrite E in H. destruct (outcome_elim _ ok H) as ([s' [res|]] & E2 & Hok); [|discriminate Hok].
  unfold ok in Hok. cbn [snd] in Hok. apply andb_prop in Hok as [[H1 H2]%andb_prop H3].
  apply bool_decide_eq_true in H1, H3. apply String.eqb_eq in H2.
  exists s', res. exact (conj E (conj E2 (conj H1 (conj H2 H3)))).
Qed.

Lemma cni_args_roundtrip_witness :
  parseCNIArgs "K8S_POD_NAMESPACE=default;K8S_POD_NAME=web-1" !! "K8S_POD_NAME" = Some "web-1".
Proof.
  apply (cni_args_roundtrip [("K8S_POD_NAMESPACE", "default"); ("K8S_POD_NAME", "web-1")] "K8S_POD_NAME").
  repeat constructor.
Defined.

Lemma add_reports_recorded_address_witness :
  exists s' res ep, sample_cmdAdd Delivered sample_env sample_args sample_server = Val (s', Ok res) /\
    Endpoints s' !! podKey "default" "web-1" = Some ep /\ addr16 (net_ip (res_Address res)) = addr16 (ep_IP ep).
Proof.
  destruct (add_reports_recorded_address any_fields any_client (DN := dp_reliable) (MI := iter_forward) match_labels None None
    0 sample_server sample_env sample_args sample_inv ltac:(lia) sample_runs (or_introl eq_refl)) as (s' & r & E & Hr).
  assert (match sample_cmdAdd Delivered sample_env sample_args sample_server with Val (_, r) => is_ok r | _ => false end = true) as Hok
    by (vm_compute; reflexivity).
  rewrite E in Hok. destruct r as [res|]; [|discriminate Hok]. destruct Hr as (ep & H1 & _ & _ & H2 & _).
  exists s', res, ep. exact (conj E (conj H1 H2)).
Defined.


Lemma unreachable_del_fails_witness :
  cmdDel any_fields any_client (DN := dp_reliable) Lost sample_env sample_args sample_server = Val (sample_server, Err ErrNoAnswer).
Proof.
  apply (unreachable_del_fails any_fields any_client (DN := dp_reliable) sample_env sample_args sample_server). apply sample_runs.
Defined.
