(* ===== verification/OperatorCluster.v ===== *)
(** The NovaNetCluster controller
    (internal/operator/controller/novanetcluster_controller.go): the configuration
    file it writes for the agents, the objects it keeps for a cluster, and the passes
    of the controller over an API server any call of which may fail.  What the agents
    make of the file is ConfigFile.v; what the webhook admits is Webhook.v. *)

From Stdlib Require Import ZArith Lia Ascii String.
From stdpp Require Import base tactics list gmap strings fin_maps.
From S2P Require Import Prelude GoStrings GoNet GoCidr AgentConfig ConfigFile Webhook CpVip NativeRouting.

(** * The cluster resource *)

(** The value of a variable: a text, a field of the pod, or a key of a config map or
    secret. *)
Inductive env_value := EnvText (s : string) | EnvField (path : string) | EnvKey (kind name key : string).

Record NovaNetAgentSpec := mkAgentSpec {
  as_Image : string; as_Resources : list (string * string); as_LogLevel : string; as_MetricsPort : option Z;
  as_HealthPort : option Z; as_ExtraArgs : list string; as_ExtraEnv : list (string * env_value) }.
Record DataplaneSpec := mkDataplaneSpec { dp_Image : string; dp_Resources : list (string * string) }.
Record CNISpec := mkCNISpec { cni_Image : string; BinDir : string; ConfDir : string }.
Record NetworkingSpec := mkNetworkingSpec {
  nw_ClusterCIDR : string; nw_ClusterCIDRv6 : string; nw_IPv6Enabled : bool; nw_TunnelProtocol : string;
  nw_RoutingMode : string; nw_MTU : option Z; nw_DSR : bool; nw_XDPAcceleration : string; nw_ControlPlaneVIP : string }.
Record EncryptionSpec := mkEncryptionSpec { ens_Type : string; ens_WireGuardPort : option Z; ens_NodeAnnotationKey : string }.
Record LBIPAMSpec := mkLBIPAMSpec { lbs_Enabled : bool; lbs_L2 : option bool }.
Record NovaRouteIntegrationSpec := mkIntegration { ni_Enabled : bool; ni_SocketPath : string; ni_OwnerToken : string }.
Record UpdateStrategySpec := mkUpdateStrategy { us_Type : string; us_MaxUnavailable : option Z }.
Record Toleration := mkToleration { tol_Key : string; tol_Operator : string; tol_Value : string; tol_Effect : string }.

Record NovaNetClusterSpec := mkNNCSpec {
  Version : string; ImageRepository : string; ImagePullPolicy : string; ImagePullSecrets : list string;
  Agent : NovaNetAgentSpec; DataplaneS : DataplaneSpec; CNI : option CNISpec; Networking : NetworkingSpec;
  NovaRouteIntegration : option NovaRouteIntegrationSpec; EncryptionS : option EncryptionSpec; HostFirewallS : option bool;
  BandwidthS : option bool; LBIPAMS : option LBIPAMSpec; NodeSelector : option (gmap string string);
  Tolerations : list Toleration; UpdateStrategy : option UpdateStrategySpec }.

Variant ClusterPhase := PhaseNone | Pending | Initializing | Running | Upgrading | Degraded | PhaseFailed.

Record ComponentStatus := mkComponentStatus { cs_Ready : bool; DesiredNodes : Z; ReadyNodes : Z; UpdatedNodes : Z }.

(** A condition: its status, reason and message, by type. *)
Record NovaNetClusterStatus := mkNNCStatus {
  Phase : ClusterPhase; st_Agent : option ComponentStatus; st_Version : string; ObservedGeneration : Z;
  Conditions : gmap string (bool * string * string) }.

Record NovaNetCluster := mkNNC {
  cl_Namespace : string; cl_Name : string; cl_Generation : Z; cl_Spec : NovaNetClusterSpec; cl_Status : NovaNetClusterStatus;
  cl_finalizer : bool; cl_deleting : bool }.

Definition set_finalizer (b : bool) (c : NovaNetCluster) : NovaNetCluster :=
  mkNNC (cl_Namespace c) (cl_Name c) (cl_Generation c) (cl_Spec c) (cl_Status c) b (cl_deleting c).
Definition set_status (st : NovaNetClusterStatus) (c : NovaNetCluster) : NovaNetCluster :=
  mkNNC (cl_Namespace c) (cl_Name c) (cl_Generation c) (cl_Spec c) st (cl_finalizer c) (cl_deleting c).
Definition set_phase (p : ClusterPhase) (st : NovaNetClusterStatus) : NovaNetClusterStatus :=
  mkNNCStatus p (st_Agent st) (st_Version st) (ObservedGeneration st) (Conditions st).

(** The fields the webhook reads. *)
Definition webhook_view (s : NovaNetClusterSpec) : ClusterSpec :=
  mkClusterSpec (nw_ClusterCIDR (Networking s)) (nw_ClusterCIDRv6 (Networking s)) (nw_ControlPlaneVIP (Networking s))
    (nw_MTU (Networking s)) (e ← EncryptionS s; ens_WireGuardPort e) (as_MetricsPort (Agent s)) (as_HealthPort (Agent s)).

(** * Names *)

Definition componentName (c : NovaNetCluster) : string := cl_Name c.
Definition serviceAccountName (c : NovaNetCluster) : string := cl_Name c +:+ "-agent".
Definition clusterRoleName (c : NovaNetCluster) : string := cl_Namespace c +:+ "-" +:+ cl_Name c +:+ "-agent".
Definition clusterRoleBindingName (c : NovaNetCluster) : string := cl_Namespace c +:+ "-" +:+ cl_Name c +:+ "-agent".

Definition getLabels (c : NovaNetCluster) : gmap string string :=
  {["app.kubernetes.io/name" := "novanet"; "app.kubernetes.io/instance" := cl_Name c;
    "app.kubernetes.io/component" := "agent"; "app.kubernetes.io/version" := Version (cl_Spec c);
    "app.kubernetes.io/managed-by" := "novanet-operator"]}.
Definition getSelectorLabels (c : NovaNetCluster) : gmap string string :=
  {["app.kubernetes.io/name" := "novanet"; "app.kubernetes.io/instance" := cl_Name c;
    "app.kubernetes.io/component" := "agent"]}.

Definition getImage (c : NovaNetCluster) (component : string) : string :=
  let repo := if String.eqb (ImageRepository (cl_Spec c)) "" then "ghcr.io/azrtydxb/novanet" else ImageRepository (cl_Spec c) in
  repo +:+ "/" +:+ component +:+ ":" +:+ Version (cl_Spec c).

Definition metricsPort (c : NovaNetCluster) : Z := default 9090 (as_MetricsPort (Agent (cl_Spec c))).

Definition integrated (c : NovaNetCluster) : bool :=
  match NovaRouteIntegration (cl_Spec c) with Some i => ni_Enabled i | None => false end.

Definition dataplaneSocketPath : string := "/run/novanet/dataplane.sock".

(** * The configuration file *)

Record novanetRoutingCfg := mkRoutingCfg {
  nr_Protocol : string; nr_FRRSocketDir : string; nr_ControlPlaneVIP : string; nr_HealthInterval : Z; nr_BFDEnabled : bool }.

Record novanetConfig := mkNovanetConfig {
  nc_ListenSocket : string; nc_CNISocket : string; nc_DataplaneSocket : string; nc_ClusterCIDR : string; nc_NodeCIDRMask : Z;
  nc_TunnelProtocol : string; nc_RoutingMode : string; nc_Routing : novanetRoutingCfg; nc_Masquerade : bool;
  nc_DefaultDeny : bool; nc_LogLevel : string; nc_MetricsAddress : string }.

Definition cluster_config (c : NovaNetCluster) : novanetConfig :=
  let nw := Networking (cl_Spec c) in
  mkNovanetConfig "/run/novanet/novanet.sock" "/run/novanet/cni.sock" dataplaneSocketPath (nw_ClusterCIDR nw) 24
    (nw_TunnelProtocol nw) (nw_RoutingMode nw)
    (if integrated c then mkRoutingCfg "bgp" "/run/frr" (nw_ControlPlaneVIP nw) 0 false else mkRoutingCfg "" "" "" 0 false)
    true false (as_LogLevel (Agent (cl_Spec c))) ("127.0.0.1:" +:+ fmt_d (metricsPort c)).

(** [omitempty]: the zero value leaves no field. *)
Definition omit (zero : bool) (k : string) (v : json) : jobj := if zero then [] else [(k, v)].

Definition marshal_routing (r : novanetRoutingCfg) : json :=
  JObj ([("protocol", JStr (nr_Protocol r))] ++
        omit (String.eqb (nr_FRRSocketDir r) "") "frr_socket_dir" (JStr (nr_FRRSocketDir r)) ++
        omit (String.eqb (nr_ControlPlaneVIP r) "") "control_plane_vip" (JStr (nr_ControlPlaneVIP r)) ++
        omit (nr_HealthInterval r =? 0) "control_plane_vip_health_interval" (JNum (nr_HealthInterval r)) ++
        omit (negb (nr_BFDEnabled r)) "bfd_enabled" (JBool (nr_BFDEnabled r))).

Definition marshal (n : novanetConfig) : json :=
  JObj [("listen_socket", JStr (nc_ListenSocket n)); ("cni_socket", JStr (nc_CNISocket n));
        ("dataplane_socket", JStr (nc_DataplaneSocket n)); ("cluster_cidr", JStr (nc_ClusterCIDR n));
        ("node_cidr_mask_size", JNum (nc_NodeCIDRMask n)); ("tunnel_protocol", JStr (nc_TunnelProtocol n));
        ("routing_mode", JStr (nc_RoutingMode n)); ("routing", marshal_routing (nc_Routing n));
        ("egress", JObj [("masquerade_enabled", JBool (nc_Masquerade n))]);
        ("policy", JObj [("default_deny", JBool (nc_DefaultDeny n))]);
        ("log_level", JStr (nc_LogLevel n)); ("metrics_address", JStr (nc_MetricsAddress n))].

(** * Objects *)

Variant propagation := HostToContainer | Bidirectional.
Record VolumeMount := mkMount { vm_Name : string; MountPath : string; vm_ReadOnly : bool; MountPropagation : option propagation }.

Inductive VolumeSource :=
| ConfigMapVolume (name : string)
| HostPathVolume (path : string) (create : bool).
Record Volume := mkVolume { vol_Name : string; vol_Source : VolumeSource }.

Record Probe := mkProbe {
  pb_Exec : list string; InitialDelaySeconds : Z; PeriodSeconds : Z; TimeoutSeconds : Z; FailureThreshold : Z }.

Record Container := mkContainer {
  ct_Name : string; ct_Image : string; ct_PullPolicy : string; ct_Command : list string; ct_Env : list (string * env_value);
  ct_Ports : list (string * Z); ct_Resources : list (string * string); ct_Privileged : bool; ct_Drop : list string;
  ct_Liveness : option Probe; ct_Readiness : option Probe; ct_Mounts : list VolumeMount }.

Inductive DsUpdateStrategy := NoStrategy | OnDelete | RollingUpdate (maxUnavailable : Z).

Record PodSpec := mkPodSpec {
  HostNetwork : bool; DNSPolicy : string; ServiceAccountName : string; PriorityClassName : string; GracePeriod : Z;
  pod_NodeSelector : gmap string string; pod_Tolerations : list Toleration; pod_PullSecrets : list string;
  InitContainers : list Container; Containers : list Container; Volumes : list Volume }.

Record DaemonSetSpec := mkDaemonSet {
  Selector : gmap string string; TemplateLabels : gmap string string; Template : PodSpec; ds_Strategy : DsUpdateStrategy }.

Definition cniImage (c : NovaNetCluster) (agentImage : string) : string :=
  match CNI (cl_Spec c) with Some s => if String.eqb (cni_Image s) "" then agentImage else cni_Image s | None => agentImage end.

Definition agentImage (c : NovaNetCluster) : string :=
  if String.eqb (as_Image (Agent (cl_Spec c))) "" then getImage c "novanet-agent" else as_Image (Agent (cl_Spec c)).
Definition dataplaneImage (c : NovaNetCluster) : string :=
  if String.eqb (dp_Image (DataplaneS (cl_Spec c))) "" then getImage c "novanet-dataplane" else dp_Image (DataplaneS (cl_Spec c)).

Definition cni_dir (c : NovaNetCluster) (f : CNISpec -> string) (d : string) : string :=
  match CNI (cl_Spec c) with Some s => if String.eqb (f s) "" then d else f s | None => d end.

Definition newline : string := String (ascii_of_nat 10) "".
Definition dquote : string := String (ascii_of_nat 34) "".

Definition install_script : string :=
  join newline ["# Copy the CNI binary to the host."; "cp /usr/bin/novanet-cni /host/opt/cni/bin/novanet-cni";
    "chmod 755 /host/opt/cni/bin/novanet-cni"; "# Install the loopback plugin (required by containerd CRI).";
    "cp /usr/lib/cni/loopback /host/opt/cni/bin/loopback"; "chmod 755 /host/opt/cni/bin/loopback";
    "echo " +:+ dquote +:+ "CNI binary installed." +:+ dquote].

Definition initContainer (c : NovaNetCluster) : Container :=
  mkContainer "install-cni" (cniImage c (agentImage c)) (ImagePullPolicy (cl_Spec c)) ["/bin/sh"; "-c"; install_script] [] [] []
    false ["ALL"] None None
    [mkMount "cni-bin" "/host/opt/cni/bin" false None; mkMount "cni-conf" "/host/etc/cni/net.d" false None].

Definition status_command : list string := ["novanetctl"; "status"; "--agent-socket"; "/run/novanet/novanet.sock"].

Definition agentContainer (c : NovaNetCluster) : Container :=
  mkContainer "agent" (agentImage c) (ImagePullPolicy (cl_Spec c)) ["novanet-agent"; "--config"; "/etc/novanet/novanet.json"]
    (("NOVANET_NODE_NAME", EnvField "spec.nodeName") :: as_ExtraEnv (Agent (cl_Spec c)))
    [("metrics", metricsPort c)] (as_Resources (Agent (cl_Spec c))) true []
    (Some (mkProbe status_command 15 15 5 3)) (Some (mkProbe status_command 5 10 5 3))
    ([mkMount "config" "/etc/novanet" true None; mkMount "run-novanet" "/run/novanet" false None;
      mkMount "netns" "/run/netns" false (Some HostToContainer); mkMount "bpf-maps" "/sys/fs/bpf" false (Some Bidirectional);
      mkMount "lib-modules" "/lib/modules" true None; mkMount "cni-state" "/var/lib/cni" false None] ++
     (if integrated c then [mkMount "run-frr" "/run/frr" true None] else [])).

Definition dataplaneContainer (c : NovaNetCluster) : Container :=
  let probe := ["test"; "-S"; dataplaneSocketPath] in
  mkContainer "dataplane" (dataplaneImage c) (ImagePullPolicy (cl_Spec c)) ["novanet-dataplane"; "--socket"; dataplaneSocketPath]
    [] [] (dp_Resources (DataplaneS (cl_Spec c))) true [] (Some (mkProbe probe 10 15 5 3)) (Some (mkProbe probe 5 5 5 3))
    [mkMount "run-novanet" "/run/novanet" false None; mkMount "bpf-maps" "/sys/fs/bpf" false (Some Bidirectional);
     mkMount "proc" "/proc" true None].

Definition volumes (c : NovaNetCluster) : list Volume :=
  [mkVolume "config" (ConfigMapVolume (componentName c)); mkVolume "run-novanet" (HostPathVolume "/run/novanet" true);
   mkVolume "cni-bin" (HostPathVolume (cni_dir c BinDir "/opt/cni/bin") true);
   mkVolume "cni-conf" (HostPathVolume (cni_dir c ConfDir "/etc/cni/net.d") true);
   mkVolume "netns" (HostPathVolume "/run/netns" true); mkVolume "bpf-maps" (HostPathVolume "/sys/fs/bpf" true);
   mkVolume "proc" (HostPathVolume "/proc" false); mkVolume "lib-modules" (HostPathVolume "/lib/modules" false);
   mkVolume "cni-state" (HostPathVolume "/var/lib/cni" true)] ++
  (if integrated c then [mkVolume "run-frr" (HostPathVolume "/run/frr" true)] else []).

Definition tolerations (c : NovaNetCluster) : list Toleration :=
  match Tolerations (cl_Spec c) with
  | [] => [mkToleration "" "Exists" "" "NoSchedule"; mkToleration "" "Exists" "" "NoExecute"]
  | l => l
  end.

Definition update_strategy (c : NovaNetCluster) : DsUpdateStrategy :=
  match UpdateStrategy (cl_Spec c) with
  | None => NoStrategy
  | Some u => if String.eqb (us_Type u) "OnDelete" then OnDelete else RollingUpdate (default 1 (us_MaxUnavailable u))
  end.

Definition daemon_set (c : NovaNetCluster) : DaemonSetSpec :=
  mkDaemonSet (getSelectorLabels c) (getLabels c)
    (mkPodSpec true "ClusterFirstWithHostNet" (serviceAccountName c) "system-node-critical" 30
       (default {["kubernetes.io/os" := "linux"]} (NodeSelector (cl_Spec c))) (tolerations c) (ImagePullSecrets (cl_Spec c))
       [initContainer c] [agentContainer c; dataplaneContainer c] (volumes c))
    (update_strategy c).

(** ** The other objects *)

(** API groups, resources and verbs. *)
Abbreviation PolicyRule := (list string * list string * list string)%type.

Definition role_rules : list PolicyRule :=
  let read := ["get"; "list"; "watch"] in
  [([""], ["pods"; "nodes"; "namespaces"], read); (["networking.k8s.io"], ["networkpolicies"], read);
   (["discovery.k8s.io"], ["endpointslices"], read);
   (["coordination.k8s.io"], ["leases"], read ++ ["create"; "update"; "patch"]); ([""], ["events"], ["create"; "patch"])].

Inductive payload :=
| ServiceAccount
| ClusterRole (rules : list PolicyRule)
| ClusterRoleBinding (role : string) (subject_name subject_namespace : string)
| ConfigMap (data : list (string * json))
| DaemonSet (spec : DaemonSetSpec)
| Service (selector : gmap string string) (port targetPort : Z)
| PodDisruptionBudget (maxUnavailable : Z) (selector : gmap string string).

(** An object: its kind, namespace and name, its labels, the cluster that owns it. *)
Abbreviation okey := (string * string * string)%type.
Record object := mkObject { o_labels : gmap string string; o_owner : option (string * string); o_payload : payload }.

Definition owned (c : NovaNetCluster) (p : payload) : object := mkObject (getLabels c) (Some (cl_Namespace c, cl_Name c)) p.
Definition cluster_scoped (c : NovaNetCluster) (p : payload) : object := mkObject (getLabels c) None p.

Definition service_account (c : NovaNetCluster) : okey * object :=
  (("ServiceAccount", cl_Namespace c, serviceAccountName c), owned c ServiceAccount).
Definition cluster_role (c : NovaNetCluster) : okey * object :=
  (("ClusterRole", "", clusterRoleName c), cluster_scoped c (ClusterRole role_rules)).
Definition cluster_role_binding (c : NovaNetCluster) : okey * object :=
  (("ClusterRoleBinding", "", clusterRoleBindingName c),
   cluster_scoped c (ClusterRoleBinding (clusterRoleName c) (serviceAccountName c) (cl_Namespace c))).
Definition config_map (c : NovaNetCluster) : okey * object :=
  (("ConfigMap", cl_Namespace c, componentName c), owned c (ConfigMap [("novanet.json", marshal (cluster_config c))])).
Definition daemon_set_object (c : NovaNetCluster) : okey * object :=
  (("DaemonSet", cl_Namespace c, componentName c), owned c (DaemonSet (daemon_set c))).
Definition metrics_service (c : NovaNetCluster) : okey * object :=
  (("Service", cl_Namespace c, componentName c +:+ "-metrics"), owned c (Service (getSelectorLabels c) (metricsPort c) (metricsPort c))).
Definition pdb (c : NovaNetCluster) : okey * object :=
  (("PodDisruptionBudget", cl_Namespace c, componentName c), owned c (PodDisruptionBudget 1 (getSelectorLabels c))).

(** * The controller *)

(** The API server: its objects, the node counts Kubernetes keeps for each
    DaemonSet (desired, ready, updated), the clusters, and the number of calls so
    far. *)
Record api := mkApi {
  objects : gmap okey object; ds_counts : gmap (string * string) (Z * Z * Z);
  clusters : gmap (string * string) NovaNetCluster; calls : nat }.

(** Which calls fail. *)
Class ApiNet := api_fails : nat -> bool.
Definition api_reliable : ApiNet := fun _ => false.

Definition put_object (k : okey) (o : object) (a : api) : api := mkApi (<[k := o]> (objects a)) (ds_counts a) (clusters a) (calls a).
Definition drop_object (k : okey) (a : api) : api := mkApi (delete k (objects a)) (ds_counts a) (clusters a) (calls a).
Definition cluster_key (c : NovaNetCluster) : string * string := (cl_Namespace c, cl_Name c).
Definition put_cluster (c : NovaNetCluster) (a : api) : api :=
  mkApi (objects a) (ds_counts a) (<[cluster_key c := c]> (clusters a)) (calls a).
Definition drop_cluster (c : NovaNetCluster) (a : api) : api :=
  mkApi (objects a) (ds_counts a) (delete (cluster_key c) (clusters a)) (calls a).

(** What a pass answers: an error, a pass again in some seconds, or nothing. *)
Variant pass := Failed | Requeue (seconds : Z) | Done.

Definition conditionReason (ready : bool) (t f : string) : string := if ready then t else f.
Definition conditionMessage (ready : bool) (t f : string) : string := if ready then t else f.

Section Controller.
Context {AN : ApiNet}.

(** One call: whether it succeeds. *)
Definition api_call (a : api) : bool * api :=
  (negb (api_fails (calls a)), mkApi (objects a) (ds_counts a) (clusters a) (S (calls a))).

(** [Create] and [Update] of the client: the server refuses to create an object it has
    and to update one it does not have. *)
Definition Create (x : okey * object) (a : api) : api * bool :=
  let '(ok, a) := api_call a in
  if ok then match objects a !! x.1 with None => (put_object x.1 x.2 a, true) | Some _ => (a, false) end else (a, false).
Definition Update (x : okey * object) (a : api) : api * bool :=
  let '(ok, a) := api_call a in
  if ok then match objects a !! x.1 with Some _ => (put_object x.1 x.2 a, true) | None => (a, false) end else (a, false).

(** The object is read first: created when it is not found, updated when it is. *)
Definition createOrUpdate (x : okey * object) (a : api) : api * bool :=
  let '(ok, a) := api_call a in
  if ok then match objects a !! x.1 with None => Create x a | Some _ => Update x a end else (a, false).

Definition reconcileRBAC (c : NovaNetCluster) (a : api) : api * bool :=
  let '(a, ok) := createOrUpdate (service_account c) a in
  if ok then
    let '(a, ok) := createOrUpdate (cluster_role c) a in
    if ok then createOrUpdate (cluster_role_binding c) a else (a, false)
  else (a, false).

Definition next_status (c : NovaNetCluster) (counts : option (Z * Z * Z)) : NovaNetClusterStatus :=
  let st := cl_Status c in
  let agent := match counts with
               | Some (desired, ready, updated) => Some (mkComponentStatus (ready =? desired) desired ready updated)
               | None => st_Agent st
               end in
  let agentReady := match agent with Some s => cs_Ready s | None => false end in
  let conds := <["AgentReady" := (agentReady, conditionReason agentReady "AgentReady" "AgentNotReady",
                                  conditionMessage agentReady "Agent DaemonSet is ready" "Agent DaemonSet is not ready")]> (Conditions st) in
  let conds := <["Ready" := (agentReady, conditionReason agentReady "AllComponentsReady" "SomeComponentsNotReady",
                             conditionMessage agentReady "All components are ready" "Some components are not ready")]> conds in
  let phase := if agentReady then Running
               else match agent with Some s => if ReadyNodes s >? 0 then Degraded else Initializing | None => Initializing end in
  mkNNCStatus phase agent (Version (cl_Spec c)) (cl_Generation c) conds.

(** The counts of the cluster's DaemonSet, when it can be read. *)
Definition daemon_counts (c : NovaNetCluster) (ok : bool) (a : api) : option (Z * Z * Z) :=
  match objects a !! (daemon_set_object c).1 with
  | Some _ => if ok then Some (default (0, 0, 0) (ds_counts a !! (cl_Namespace c, componentName c))) else None
  | None => None
  end.

Definition updateStatus (c : NovaNetCluster) (a : api) : api * option NovaNetCluster :=
  let '(ok, a) := api_call a in
  let c := set_status (next_status c (daemon_counts c ok a)) c in
  let '(ok, a) := api_call a in
  if ok then (put_cluster c a, Some c) else (a, None).

Definition reconcileComponents (c : NovaNetCluster) (a : api) : api * pass * NovaNetCluster :=
  let '(a, ok1) := reconcileRBAC c a in
  let '(a, ok2) := createOrUpdate (config_map c) a in
  let '(a, ok3) := createOrUpdate (daemon_set_object c) a in
  let '(a, ok4) := createOrUpdate (metrics_service c) a in
  let '(a, ok5) := createOrUpdate (pdb c) a in
  match updateStatus c a with
  | (a, None) => (a, Failed, c)
  | (a, Some c) => (a, (if ok1 && ok2 && ok3 && ok4 && ok5 then Done else Requeue 30), c)
  end.

(** One cluster-scoped object: a failed lookup is passed over. *)
Definition cleanup_one (k : okey) (a : api) : api * bool :=
  let '(ok, a) := api_call a in
  match objects a !! k with
  | Some _ => if ok then let '(ok, a) := api_call a in if ok then (drop_object k a, true) else (a, false) else (a, true)
  | None => (a, true)
  end.

Definition cleanupResources (c : NovaNetCluster) (a : api) : api * bool :=
  let '(a, ok) := cleanup_one (cluster_role c).1 a in
  if ok then cleanup_one (cluster_role_binding c).1 a else (a, false).

Definition rollout_pending (c : NovaNetCluster) : bool :=
  match st_Agent (cl_Status c) with
  | Some s => (UpdatedNodes s <? DesiredNodes s) || (ReadyNodes s <? DesiredNodes s)
  | None => false
  end.

(** The end of a pass: the components and whether to look again. *)
Definition reconcile_live (c : NovaNetCluster) (a : api) : api * pass :=
  match reconcileComponents c a with
  | (a, Done, c) => (a, if rollout_pending c then Requeue 15 else Done)
  | (a, r, _) => (a, r)
  end.

Definition init_status (c : NovaNetCluster) (a : api) : api * pass :=
  match Phase (cl_Status c) with
  | PhaseNone =>
      let c := set_status (set_phase Pending (cl_Status c)) c in
      let '(ok, a) := api_call a in
      if ok then reconcile_live c (put_cluster c a) else (a, Failed)
  | _ => reconcile_live c a
  end.

Definition Reconcile (namespace name : string) (a : api) : api * pass :=
  let '(ok, a) := api_call a in
  if negb ok then (a, Failed)
  else
    match clusters a !! (namespace, name) with
    | None => (a, Done)
    | Some c =>
        if cl_deleting c then
          if cl_finalizer c then
            let '(a, ok) := cleanupResources c a in
            if ok then let '(ok, a) := api_call a in if ok then (drop_cluster c a, Done) else (a, Failed)
            else (a, Failed)
          else (a, Done)
        else if cl_finalizer c then init_status c a
        else
          let c := set_finalizer true c in
          let '(ok, a) := api_call a in
          if ok then init_status c (put_cluster c a) else (a, Failed)
    end.
End Controller.

(** The objects of a cluster. *)
Definition desired (c : NovaNetCluster) : list (okey * object) :=
  [service_account c; cluster_role c; cluster_role_binding c; config_map c; daemon_set_object c; metrics_service c; pdb c].

(** * Passes *)

Definition is_done (r : pass) : bool := match r with Done => true | _ => false end.

(** Only objects of the cluster are written, and they are written as desired. *)
Definition writes (c : NovaNetCluster) (a a' : api) : Prop :=
  forall k, objects a' !! k = objects a !! k \/ exists o, (k, o) ∈ desired c /\ objects a' !! k = Some o.

Definition stored (x : okey * object) (a : api) : Prop := objects a !! x.1 = Some x.2.

Lemma desired_keys c k o o' : (k, o) ∈ desired c -> (k, o') ∈ desired c -> o = o'.
Proof.
  unfold desired. rewrite !elem_of_cons, !elem_of_nil. unfold service_account, cluster_role, cluster_role_binding,
    config_map, daemon_set_object, metrics_service, pdb. naive_solver.
Qed.

Lemma writes_refl c a a' : objects a' = objects a -> writes c a a'.
Proof. intros E k. left. by rewrite E. Qed.

Lemma writes_trans c a a1 a2 : writes c a a1 -> writes c a1 a2 -> writes c a a2.
Proof.
  intros H1 H2 k. destruct (H2 k) as [->|H]; [apply H1|by right].
Qed.

Lemma writes_stored c a a' x : writes c a a' -> x ∈ desired c -> stored x a -> stored x a'.
Proof.
  intros Hw Hx Hs. unfold stored in *. destruct (Hw x.1) as [->|(o & Ho & ->)]; [done|]. f_equal.
  destruct x as [k o']. by eapply desired_keys.
Qed.

Section Passes.
Context {AN : ApiNet} (c : NovaNetCluster).

(** Both branches end in a write of the object. *)
Lemma createOrUpdate_writes x a :
  createOrUpdate x a =
    let '(ok, a) := api_call a in
    if ok then let '(ok, a) := api_call a in if ok then (put_object x.1 x.2 a, true) else (a, false) else (a, false).
Proof.
  unfold createOrUpdate, Create, Update, api_call. destruct (negb _); [|done]. cbn [objects calls].
  destruct (objects a !! x.1) eqn:E; destruct (negb _); by rewrite ?E.
Qed.

Lemma createOrUpdate_step x a a' ok :
  x ∈ desired c -> createOrUpdate x a = (a', ok) -> writes c a a' /\ (ok = true -> stored x a').
Proof.
  intros Hx. rewrite createOrUpdate_writes. unfold api_call. cbn.
  destruct (negb (api_fails (calls a))), (negb (api_fails (S (calls a)))); intros [= <- <-]; try (split; [by apply writes_refl|done]).
  split; [|intros _; unfold stored; cbn; apply lookup_insert_eq]. intros k. cbn.
  destruct (decide (k = x.1)) as [->|]; [right|left; by rewrite lookup_insert_ne].
  exists x.2. rewrite lookup_insert_eq. by destruct x.
Qed.

(** A stretch of a pass that sets out to write the objects [l], and whether it
    wrote them all. *)
Definition did (l : list (okey * object)) (a a' : api) (ok : bool) : Prop :=
  Forall (fun x => x ∈ desired c) l /\ writes c a a' /\ (ok = true -> Forall (fun x => stored x a') l).

Lemma did_join a a1 a2 l1 l2 ok1 ok2 : did l1 a a1 ok1 -> did l2 a1 a2 ok2 -> did (l1 ++ l2) a a2 (ok1 && ok2).
Proof.
  intros (D1 & W1 & S1) (D2 & W2 & S2). split; [by apply Forall_app|]. split; [by eapply writes_trans|].
  intros [H1 H2]%andb_prop. apply Forall_app. split; [|by apply S2]. specialize (S1 H1).
  rewrite Forall_forall in *. intros x Hx. eapply writes_stored; [done|by apply D1|by apply S1].
Qed.

Lemma did_stop l l' a a' : did l a a' false -> Forall (fun x => x ∈ desired c) l' -> did l' a a' false.
Proof. by intros (_ & W & _) H. Qed.

Lemma one_step n x a a' ok : desired c !! n = Some x -> createOrUpdate x a = (a', ok) -> did [x] a a' ok.
Proof.
  intros Hx%list_elem_of_lookup_2 E. destruct (createOrUpdate_step x a a' ok Hx E) as [W S].
  split; [by apply Forall_singleton|]. split; [done|]. intros Hok. by apply Forall_singleton, S.
Qed.

Lemma rbac_step a a' ok :
  reconcileRBAC c a = (a', ok) -> did [service_account c; cluster_role c; cluster_role_binding c] a a' ok.
Proof.
  assert (Forall (fun x => x ∈ desired c) [service_account c; cluster_role c; cluster_role_binding c]) as Hd.
  { rewrite Forall_forall. intros x Hx. unfold desired. rewrite !elem_of_cons in *. tauto. }
  unfold reconcileRBAC. destruct (createOrUpdate (service_account c) a) as [a1 ok1] eqn:E1.
  pose proof (one_step 0 _ _ _ _ eq_refl E1) as S1. destruct ok1; [|intros [= <- <-]; by eapply did_stop].
  destruct (createOrUpdate (cluster_role c) a1) as [a2 ok2] eqn:E2.
  pose proof (did_join _ _ _ _ _ _ _ S1 (one_step 1 _ _ _ _ eq_refl E2)) as S2.
  destruct ok2; [|intros [= <- <-]; by eapply did_stop]. intros E3.
  apply (did_join _ _ _ _ _ _ _ S2 (one_step 2 _ _ _ _ eq_refl E3)).
Qed.

(** The components: a pass that is done has stored every object. *)
Lemma components_step a a' r c' :
  reconcileComponents c a = (a', r, c') -> did (desired c) a a' (is_done r) /\ (r = Done \/ r = Requeue 30 \/ r = Failed).
Proof.
  unfold reconcileComponents. destruct (reconcileRBAC c a) as [a1 ok1] eqn:E1.
  destruct (createOrUpdate (config_map c) a1) as [a2 ok2] eqn:E2.
  destruct (createOrUpdate (daemon_set_object c) a2) as [a3 ok3] eqn:E3.
  destruct (createOrUpdate (metrics_service c) a3) as [a4 ok4] eqn:E4.
  destruct (createOrUpdate (pdb c) a4) as [a5 ok5] eqn:E5.
  pose proof (did_join _ _ _ _ _ _ _ (rbac_step _ _ _ E1) (one_step 3 _ _ _ _ eq_refl E2)) as S2.
  pose proof (did_join _ _ _ _ _ _ _ S2 (one_step 4 _ _ _ _ eq_refl E3)) as S3.
  pose proof (did_join _ _ _ _ _ _ _ S3 (one_step 5 _ _ _ _ eq_refl E4)) as S4.
  pose proof (did_join _ _ _ _ _ _ _ S4 (one_step 6 _ _ _ _ eq_refl E5)) as S5. cbn [app] in S5.
  fold (desired c) in S5. clear -S5.
  assert (forall x, objects x = objects a5 -> did (desired c) a x (ok1 && ok2 && ok3 && ok4 && ok5)) as Hx.
  { intros x E. destruct S5 as (D & W & S). split; [done|]. unfold writes, stored in *. by rewrite E. }
  unfold updateStatus, api_call. cbn.
  destruct (negb (api_fails (S (calls a5)))).
  - intros [= <- <- _]. specialize (Hx (put_cluster (set_status (next_status c (daemon_counts c (negb (api_fails (calls a5)))
      (mkApi (objects a5) (ds_counts a5) (clusters a5) (S (calls a5))))) c) (mkApi (objects a5) (ds_counts a5) (clusters a5) (S (S (calls a5))))) eq_refl).
    destruct (ok1 && ok2 && ok3 && ok4 && ok5); (split; [done|tauto]).
  - intros [= <- <- _]. split; [|tauto]. cbn. eapply did_stop; [|apply S5].
    destruct (Hx (mkApi (objects a5) (ds_counts a5) (clusters a5) (S (S (calls a5)))) eq_refl) as (D & W & _). split; [exact D|]. by split.
Qed.
End Passes.

(** The pass ended without an error to retry: it is done, or it only waits for
    the rollout. *)
Definition quiet (r : pass) : bool := match r with Done => true | Requeue n => n =? 15 | Failed => false end.

Lemma did_move {AN : ApiNet} c l a0 a a' ok : objects a0 = objects a -> did c l a a' ok -> did c l a0 a' ok.
Proof. intros E (D & W & S). split; [done|]. split; [|done]. unfold writes in *. by rewrite E. Qed.

Lemma did_none {AN : ApiNet} c a a' : objects a' = objects a -> did c (desired c) a a' false.
Proof. intros E. split; [by apply Forall_forall|]. split; [by apply writes_refl|done]. Qed.

Lemma live_step {AN : ApiNet} c a a' r : reconcile_live c a = (a', r) -> did c (desired c) a a' (quiet r).
Proof.
  unfold reconcile_live. destruct (reconcileComponents c a) as [[a1 r1] c1] eqn:E.
  destruct (components_step c a a1 r1 c1 E) as [H [->|[->| ->]]]; intros [= <- <-]; [|done..].
  by destruct (rollout_pending c1).
Qed.

Lemma init_step {AN : ApiNet} c a a' r : init_status c a = (a', r) -> did c (desired c) a a' (quiet r).
Proof.
  unfold init_status. destruct (Phase (cl_Status c)); [|by apply live_step..]. unfold api_call.
  destruct (negb (api_fails (calls a))); [|intros [= <- <-]; by apply did_none].
  intros E%live_step. by eapply did_move; [|exact E].
Qed.

Lemma pass_step {AN : ApiNet} ns name c a a' r :
  clusters a !! (ns, name) = Some c -> cl_deleting c = false -> Reconcile ns name a = (a', r) -> did c (desired c) a a' (quiet r).
Proof.
  intros Hc Hd. unfold Reconcile, api_call. cbn.
  destruct (negb (api_fails (calls a))); cbn; [|intros [= <- <-]; by apply did_none]. rewrite Hc, Hd.
  destruct (cl_finalizer c).
  - intros E%init_step. by eapply did_move; [|exact E].
  - destruct (negb (api_fails (S (calls a)))); [|intros [= <- <-]; by apply did_none].
    intros E%init_step. by eapply did_move; [|exact E].
Qed.

(** ** Passes without failures *)

Definition reliable_from {AN : ApiNet} (n : nat) : Prop := forall m, (n <= m)%nat -> api_fails m = false.

Section Reliable.
Context {AN : ApiNet} (N : nat) (Hrel : reliable_from N).

Lemma api_call_ok a : (N <= calls a)%nat -> api_call a = (true, mkApi (objects a) (ds_counts a) (clusters a) (S (calls a))).
Proof. intros H. unfold api_call. by rewrite Hrel. Qed.

Lemma update_ok x a :
  (N <= calls a)%nat -> exists a', createOrUpdate x a = (a', true) /\ (N <= calls a')%nat /\ stored x a' /\
    clusters a' = clusters a /\ ds_counts a' = ds_counts a.
Proof.
  intros H. rewrite createOrUpdate_writes. rewrite api_call_ok by done. rewrite api_call_ok by (cbn; lia). eexists. split; [done|].
  split; [cbn; lia|]. split; [unfold stored; cbn; apply lookup_insert_eq|done].
Qed.

Lemma components_ok c a :
  (N <= calls a)%nat ->
  exists a' , reconcileComponents c a =
    (a', Done, set_status (next_status c (Some (default (0, 0, 0) (ds_counts a !! (cl_Namespace c, componentName c))))) c) /\
    clusters a' = <[cluster_key c := set_status (next_status c (Some (default (0, 0, 0) (ds_counts a !! (cl_Namespace c, componentName c))))) c]> (clusters a).
Proof.
  intros H. unfold reconcileComponents, reconcileRBAC.
  destruct (update_ok (service_account c) a H) as (a1 & -> & H1 & _ & C1 & D1).
  destruct (update_ok (cluster_role c) a1 H1) as (a2 & -> & H2 & _ & C2 & D2).
  destruct (update_ok (cluster_role_binding c) a2 H2) as (a3 & -> & H3 & _ & C3 & D3).
  destruct (update_ok (config_map c) a3 H3) as (a4 & -> & H4 & _ & C4 & D4).
  destruct (update_ok (daemon_set_object c) a4 H4) as (a5 & -> & H5 & Hds & C5 & D5).
  destruct (update_ok (metrics_service c) a5 H5) as (a6 & E6 & H6 & _ & C6 & D6). rewrite E6.
  destruct (update_ok (pdb c) a6 H6) as (a7 & E7 & H7 & _ & C7 & D7). rewrite E7.
  assert (stored (daemon_set_object c) a7) as Hds'.
  { eapply writes_stored; [|by eapply (list_elem_of_lookup_2 _ 4)|].
    - apply (one_step c 6 _ _ _ _ eq_refl E7).
    - eapply writes_stored; [apply (one_step c 5 _ _ _ _ eq_refl E6)|by eapply (list_elem_of_lookup_2 _ 4)|done]. }
  unfold updateStatus. rewrite api_call_ok by done. rewrite api_call_ok by (cbn; lia).
  unfold daemon_counts. cbn [objects ds_counts]. rewrite Hds', D7, D6, D5, D4, D3, D2, D1.
  eexists. split; [reflexivity|]. cbn. by rewrite C7, C6, C5, C4, C3, C2, C1.
Qed.

Lemma live_ok c a : (N <= calls a)%nat -> exists a' r, reconcile_live c a = (a', r) /\ quiet r = true.
Proof.
  intros H. unfold reconcile_live. destruct (components_ok c a H) as (a' & -> & _).
  eexists _, _. split; [done|]. by destruct (rollout_pending _).
Qed.

Lemma init_ok c a : (N <= calls a)%nat -> exists a' r, init_status c a = (a', r) /\ quiet r = true.
Proof.
  intros H. unfold init_status. destruct (Phase (cl_Status c)); [|by apply live_ok..]. rewrite api_call_ok by done.
  apply live_ok. cbn. lia.
Qed.

Lemma pass_ok ns name c a :
  (N <= calls a)%nat -> clusters a !! (ns, name) = Some c -> cl_deleting c = false ->
  exists a' r, Reconcile ns name a = (a', r) /\ quiet r = true.
Proof.
  intros H Hc Hd. unfold Reconcile. rewrite api_call_ok by done. cbn [negb clusters]. rewrite Hc, Hd. destruct (cl_finalizer c).
  - apply init_ok. cbn. lia.
  - rewrite api_call_ok by (cbn; lia). apply init_ok. cbn. lia.
Qed.
End Reliable.

(** * Properties *)

(** C22: Whatever calls fail, a pass over a live cluster writes only objects of that
    cluster, each as the specification asks; a pass that ends without asking for a
    retry has stored every one of them; and once they are stored later passes change
    no object. *)
Theorem pass_applies_spec {AN : ApiNet} ns name c a a' r :
  clusters a !! (ns, name) = Some c -> cl_deleting c = false -> Reconcile ns name a = (a', r) ->
  (forall k, objects a' !! k = objects a !! k \/ exists o, (k, o) ∈ desired c /\ objects a' !! k = Some o) /\
  (quiet r = true -> forall k o, (k, o) ∈ desired c -> objects a' !! k = Some o) /\
  ((forall k o, (k, o) ∈ desired c -> objects a !! k = Some o) -> objects a' = objects a).
Proof.
  intros Hc Hd E. destruct (pass_step ns name c a a' r Hc Hd E) as (_ & W & S). split; [exact W|]. split.
  - intros Hq k o Hk. specialize (S Hq). rewrite Forall_forall in S. by apply (S (k, o)).
  - intros Hs. apply map_eq. intros k. destruct (W k) as [?|(o & Ho & E')]; [done|]. rewrite E'. symmetry. by apply Hs.
Qed.

(** C21: Once the API server answers every call, the first pass over a live cluster
    succeeds and stores every object of the cluster, whatever earlier passes left. *)
Theorem passes_recover {AN : ApiNet} N ns name c a :
  (forall n, (N <= n)%nat -> api_fails n = false) -> (N <= calls a)%nat ->
  clusters a !! (ns, name) = Some c -> cl_deleting c = false ->
  exists a' r, Reconcile ns name a = (a', r) /\ quiet r = true /\
    forall k o, (k, o) ∈ desired c -> objects a' !! k = Some o.
Proof.
  intros Hr Hn Hc Hd. destruct (pass_ok N Hr ns name c a Hn Hc Hd) as (a' & r & E & Hq).
  exists a', r. split; [done|]. split; [done|]. destruct (pass_step ns name c a a' r Hc Hd E) as (_ & _ & S).
  intros k o Hk. specialize (S Hq). rewrite Forall_forall in S. by apply (S (k, o)).
Qed.

(** The settings of the file the operator writes. *)
Definition file_config (c : NovaNetCluster) : AgentConfig :=
  let nw := Networking (cl_Spec c) in let d := DefaultAgentConfig in
  mkAgentConfig (c_ListenSocket d) (CNISocket d) (DataplaneSocket d) (nw_ClusterCIDR nw) 24 (nw_TunnelProtocol nw)
    (nw_RoutingMode nw)
    (mkRoutingConfig (if integrated c then "bgp" else "") "/run/frr" (if integrated c then nw_ControlPlaneVIP nw else "") 0 false 0 0 0 [])
    true false (L4LB d) (Encryption d) (HostFirewall d) (Bandwidth d) (LBIPAM d) (EBPFServices d) (IPv6 d) (DSR d)
    (XDPAcceleration d) (as_LogLevel (Agent (cl_Spec c))) ("127.0.0.1:" +:+ fmt_d (metricsPort c)).

Lemma config_loads c : LoadFromFile (Document (marshal (cluster_config c))) = Ok (file_config c).
Proof.
  unfold cluster_config, file_config. set (ma := "127.0.0.1:" +:+ _).
  generalize (as_LogLevel (Agent (cl_Spec c))) (nw_ClusterCIDR (Networking (cl_Spec c)))
    (nw_TunnelProtocol (Networking (cl_Spec c))) (nw_RoutingMode (Networking (cl_Spec c)))
    (nw_ControlPlaneVIP (Networking (cl_Spec c))) ma.
  intros ll cidr tp rm vip ma'. destruct (integrated c), vip; vm_compute; reflexivity.
Qed.

(** What the schema of the resource admits besides the webhook: the values of the
    enumerated fields. *)
Definition schema_ok (s : NovaNetClusterSpec) : Prop :=
  nw_TunnelProtocol (Networking s) ∈ ["geneve"; "vxlan"] /\ nw_RoutingMode (Networking s) ∈ ["overlay"; "native"] /\
  as_LogLevel (Agent s) ∈ ["debug"; "info"; "warn"; "error"].

Definition admitted (c : NovaNetCluster) : Prop :=
  validateNovanetClusterSpec (webhook_view (cl_Spec c)) = [] /\ schema_ok (cl_Spec c).

(** A setting with a variable of each prefix: the newer variable decides once it is
    set, an empty value changes nothing. *)
Definition setting (env : environ) (name v : string) : string :=
  let pick s := if String.eqb s "" then v else s in
  match env !! ("NOVANET_" +:+ name) with
  | Some s => pick s
  | None => match env !! ("NOVAROUTE_" +:+ name) with Some s => pick s | None => v end
  end.

Lemma setting_reads env name v :
  env_legacy env ("NOVANET_" +:+ name) ("NOVAROUTE_" +:+ name) (env_string env ("NOVANET_" +:+ name) v) = setting env name v.
Proof.
  unfold env_legacy, env_string, getenv, setting.
  destruct (env !! ("NOVANET_" +:+ name)), (env !! ("NOVAROUTE_" +:+ name)); reflexivity.
Qed.

(** The settings the file does not carry, or always carries with the same value. *)
Definition features (cfg : AgentConfig) :=
  (NodeCIDRMaskSize cfg, MasqueradeEnabled cfg, DefaultDeny cfg, L4LB cfg, Encryption cfg, HostFirewall cfg, Bandwidth cfg,
   LBIPAM cfg, EBPFServices cfg, IPv6 cfg, DSR cfg, XDPAcceleration cfg).

Definition v6_network (s : string) : Prop := exists ip n, ParseCIDR s = Some (ip, n) /\ To4 ip = None.

(** The settings with which an agent starts. *)
Definition startable (cfg : AgentConfig) (protocol : bool) : Prop :=
  is_Some (ParseCIDR (ClusterCIDR cfg)) /\ one_of (TunnelProtocol cfg) ["geneve"; "vxlan"] = true /\
  one_of (RoutingMode cfg) ["overlay"; "native"] = true /\ (one_of (RoutingMode cfg) ["native"] = true -> protocol = true) /\
  (v6_Enabled (IPv6 cfg) = true -> v6_network (ClusterCIDRv6 (IPv6 cfg))).

(** The last check of [Validate], with the default mask. *)
Lemma v6_network_dec (on : bool) s :
  (if on then
     if String.eqb s "" then Some ErrEmptyClusterCIDRv6
     else match ParseCIDR s with
          | None => Some ErrInvalidClusterCIDRv6
          | Some (ip, _) => match To4 ip with Some _ => Some ErrInvalidClusterCIDRv6 | None => None end
          end
   else None) = None <-> (on = true -> v6_network s).
Proof.
  destruct on; [|done]. unfold v6_network. destruct (String.eqb_spec s "") as [->|_].
  { split; [done|]. intros H. destruct (H eq_refl) as (ip & n & E & _). discriminate E. }
  destruct (ParseCIDR s) as [[ip n]|]; [|split; [done|]; intros H; by destruct (H eq_refl) as (? & ? & ? & _)].
  destruct (To4 ip) eqn:E; (split; [try done|]); [|eauto..].
  intros H. destruct (H eq_refl) as (ip' & n' & [= <- <-] & H'). congruence.
Qed.

Lemma one_of_lower s l : s ∈ l -> Forall (fun x => to_lower x = x) l -> one_of s l = true.
Proof. intros Hs Hl. unfold one_of. rewrite Forall_forall in Hl. by rewrite (Hl s Hs), bool_decide_eq_true. Qed.

Lemma admitted_cidr c :
  validateNovanetClusterSpec (webhook_view (cl_Spec c)) = [] ->
  nw_ClusterCIDR (Networking (cl_Spec c)) <> "" /\ is_Some (ParseCIDR (nw_ClusterCIDR (Networking (cl_Spec c)))).
Proof.
  unfold validateNovanetClusterSpec. rewrite app_nil_iff. intros [H _]. cbn [cl_ClusterCIDR webhook_view] in H.
  unfold invalid, validateCIDR in H. destruct (ParseCIDR (nw_ClusterCIDR (Networking (cl_Spec c)))) as [x|] eqn:E; [|done].
  split; [|done]. intros E'. rewrite E' in E. discriminate E.
Qed.

Section Start.

(** What the kubelet makes of the value of a variable, after the variables before it,
    and the environment the image and the node give a container. *)
Context (value : environ -> env_value -> string) (base : environ).

(** The environment of the agent: later variables replace earlier ones. *)
Definition agent_environ (c : NovaNetCluster) : environ :=
  foldl (fun env v => <[v.1 := value env v.2]> env) base (ct_Env (agentContainer c)).

Lemma loaded_startable env c :
  as_LogLevel (Agent (cl_Spec c)) ∈ ["debug"; "info"; "warn"; "error"] ->
  let cfg := ExpandAgentEnv env (file_config c) in ValidateAgent cfg = None <-> startable cfg (integrated c).
Proof.
  intros Hl cfg. unfold ValidateAgent, startable.
  change (c_ListenSocket cfg) with "/run/novanet/novanet.sock". change (CNISocket cfg) with "/run/novanet/cni.sock".
  change (DataplaneSocket cfg) with "/run/novanet/dataplane.sock". change (NodeCIDRMaskSize cfg) with 24.
  change (NodeCIDRv6MaskSize (IPv6 cfg)) with 112. change (c_LogLevel cfg) with (as_LogLevel (Agent (cl_Spec c))).
  change (rc_Protocol (Routing cfg)) with (if integrated c then "bgp" else "").
  rewrite (one_of_lower _ _ Hl) by (repeat constructor). cbn [String.eqb Ascii.eqb Bool.eqb negb].
  rewrite <- v6_network_dec. cbn [Z.ltb Z.compare orb Pos.compare Pos.compare_cont].
  assert (ClusterCIDR cfg = "" -> ParseCIDR (ClusterCIDR cfg) = None) as He by (intros ->; reflexivity).
  destruct (String.eqb_spec (ClusterCIDR cfg) "") as [E|_]; [rewrite He by done; split; [done|intros [[? [=]] _]]|].
  destruct (ParseCIDR (ClusterCIDR cfg)) as [net|]; [|split; [done|intros [[? [=]] _]]].
  assert (is_Some (Some net)) as Hnet by done.
  set (r6 := if v6_Enabled _ then _ else _). generalize dependent r6. intros r6.
  destruct (one_of (TunnelProtocol cfg) _); [|split; [done|intros (_ & [=] & _)]].
  destruct (one_of (RoutingMode cfg) ["overlay"; "native"]); [|split; [done|intros (_ & _ & [=] & _)]].
  destruct (one_of (RoutingMode cfg) ["native"]), (integrated c); cbn; tauto || (split; [done|]); intros (_ & _ & _ & H & _); by discriminate H.
Qed.

(** C33: The agents of an admitted cluster start exactly if the settings that result are
    usable, where the network, the tunnel and the routing mode are those of the resource
    unless a variable of the agent's container, the extra variables of the resource
    included, replaces them; the log level, the metrics port and with the routing
    integration the control-plane address are those of the resource; every other
    setting is the agent's default or comes from a variable, never from the resource
    (features_never_enabled).  Without such variables a cluster fails to start exactly
    if it is native and has no routing integration. *)
Theorem agents_accept_iff c :
  admitted c ->
  let env := agent_environ c in let nw := Networking (cl_Spec c) in
  let cfg := ExpandAgentEnv env (file_config c) in
  (LoadConfig env (Document (marshal (cluster_config c))) = Ok cfg <-> startable cfg (integrated c)) /\
  (~ startable cfg (integrated c) -> exists e, LoadConfig env (Document (marshal (cluster_config c))) = Err (ExitInvalid e)) /\
  ClusterCIDR cfg = setting env "CLUSTER_CIDR" (nw_ClusterCIDR nw) /\
  TunnelProtocol cfg = setting env "TUNNEL_PROTOCOL" (nw_TunnelProtocol nw) /\
  RoutingMode cfg = setting env "ROUTING_MODE" (nw_RoutingMode nw) /\
  c_LogLevel cfg = as_LogLevel (Agent (cl_Spec c)) /\ c_MetricsAddress cfg = "127.0.0.1:" +:+ fmt_d (metricsPort c) /\
  ControlPlaneVIP (Routing cfg) = (if integrated c then nw_ControlPlaneVIP nw else "") /\
  features cfg = features (ExpandAgentEnv env DefaultAgentConfig) /\
  (ClusterCIDR cfg = nw_ClusterCIDR nw -> TunnelProtocol cfg = nw_TunnelProtocol nw -> RoutingMode cfg = nw_RoutingMode nw ->
   v6_Enabled (IPv6 cfg) = false ->
   LoadConfig env (Document (marshal (cluster_config c))) =
     if String.eqb (nw_RoutingMode nw) "native" && negb (integrated c)
     then Err (ExitInvalid ErrEmptyRoutingProto) else Ok cfg).
Proof.
  intros [Hw (Ht & Hm & Hl)] env nw cfg. destruct (admitted_cidr c Hw) as [Hne [x Hx]].
  pose proof (loaded_startable env c Hl) as Hv. fold cfg in Hv. cbv zeta in Hv.
  unfold LoadConfig. rewrite config_loads. fold cfg. split; [rewrite <- Hv; by destruct (ValidateAgent cfg)|].
  split; [rewrite <- Hv; destruct (ValidateAgent cfg); [eauto|done]|].
  do 3 (split; [apply setting_reads|]). do 4 (split; [reflexivity|]). intros E1 E2 E3 E4.
  assert (ValidateAgent cfg =
    if String.eqb (nw_RoutingMode nw) "native" && negb (integrated c) then Some ErrEmptyRoutingProto else None) as ->;
    [|by destruct (_ && _)].
  unfold ValidateAgent. rewrite E1, E2, E3, E4. fold nw in Hx, Hne, Ht, Hm. rewrite Hx. apply String.eqb_neq in Hne. rewrite Hne.
  change (c_LogLevel cfg) with (as_LogLevel (Agent (cl_Spec c))).
  change (rc_Protocol (Routing cfg)) with (if integrated c then "bgp" else "").
  rewrite (one_of_lower _ _ Ht), (one_of_lower _ _ Hm), (one_of_lower _ _ Hl) by (repeat constructor).
  rewrite !elem_of_cons, elem_of_nil in Hm. destruct Hm as [E|[E|[]]]; rewrite E; by destruct (integrated c).
Qed.

(** The settings of the resource for load balancing, encryption, the host firewall,
    bandwidth, address pools, IPv6 and direct return never reach the agents: unless a
    variable turns them on they keep the defaults, all off.  In particular no agent
    serves the control-plane address, which needs the load balancer. *)
Theorem features_never_enabled c cfg nodeName controlPlane :
  LoadConfig (agent_environ c) (Document (marshal (cluster_config c))) = Ok cfg ->
  Forall (fun v => agent_environ c !! v = None)
    ["NOVANET_L4LB_ENABLED"; "NOVANET_ENCRYPTION_TYPE"; "NOVANET_HOST_FIREWALL_ENABLED"; "NOVANET_BANDWIDTH_ENABLED";
     "NOVANET_LBIPAM_ENABLED"; "NOVANET_IPV6_ENABLED"; "NOVANET_DSR_ENABLED"; "NOVANET_XDP_ACCELERATION"] ->
  vip_config cfg nodeName controlPlane = None /\ l4_Enabled (L4LB cfg) = false /\ en_Type (Encryption cfg) = "disabled" /\
  HostFirewall cfg = false /\ Bandwidth cfg = false /\ lb_Enabled (LBIPAM cfg) = false /\ v6_Enabled (IPv6 cfg) = false /\
  DSR cfg = false /\ XDPAcceleration cfg = "disabled".
Proof.
  unfold LoadConfig. rewrite config_loads. set (env := agent_environ c). destruct (ValidateAgent _); [done|]. intros [= <-] Hn.
  rewrite !Forall_cons in Hn. destruct Hn as (H1 & H2 & H3 & H4 & H5 & H6 & H7 & H8 & _).
  assert (forall v, env !! v = None -> parseBoolEnv env v false = false) as Hb
    by (intros v Hn; unfold parseBoolEnv, getenv; by rewrite Hn).
  assert (forall v d, env !! v = None -> env_string env v d = d) as Hs
    by (intros v d Hn; unfold env_string, getenv; by rewrite Hn).
  assert (l4_Enabled (L4LB (ExpandAgentEnv env (file_config c))) = false) as Hl4 by (apply (Hb _ H1)).
  split; [unfold vip_config; by rewrite Hl4, andb_comm|].
  split; [done|]. split; [apply (Hs _ _ H2)|]. split; [apply (Hb _ H3)|]. split; [apply (Hb _ H4)|].
  split; [apply (Hb _ H5)|]. split; [apply (Hb _ H6)|]. split; [apply (Hb _ H7)|apply (Hs _ _ H8)].
Qed.
End Start.

Definition mounts_of (p : PodSpec) : list VolumeMount := ct ← InitContainers p ++ Containers p; ct_Mounts ct.

(** C37: The DaemonSet is well formed for every resource: each mount names one volume of
    the pod, volumes and containers have distinct names, and no two mounts of a
    container share a path; its selector matches its own pods, as do those of the
    metrics service and the disruption budget; the pods run under the account the
    role is bound to and read the configuration the pass stores. *)
Theorem daemon_set_well_formed c :
  let ds := daemon_set c in let pod := Template ds in
  Forall (fun m => vm_Name m ∈ vol_Name <$> Volumes pod) (mounts_of pod) /\
  NoDup (vol_Name <$> Volumes pod) /\ NoDup (ct_Name <$> InitContainers pod ++ Containers pod) /\
  Forall (fun ct => NoDup (MountPath <$> ct_Mounts ct)) (InitContainers pod ++ Containers pod) /\
  Selector ds ⊆ TemplateLabels ds /\
  (exists p t, o_payload (metrics_service c).2 = Service (Selector ds) p t) /\
  (exists n, o_payload (pdb c).2 = PodDisruptionBudget n (Selector ds)) /\
  o_payload (cluster_role_binding c).2 = ClusterRoleBinding (cluster_role c).1.2 (ServiceAccountName pod) (cl_Namespace c) /\
  (service_account c).1 = ("ServiceAccount", cl_Namespace c, ServiceAccountName pod) /\
  exists n, mkVolume "config" (ConfigMapVolume n) ∈ Volumes pod /\ (config_map c).1 = ("ConfigMap", cl_Namespace c, n).
Proof.
  cbn zeta. unfold daemon_set, volumes, mounts_of, initContainer, agentContainer, dataplaneContainer.
  cbn [Template Volumes InitContainers Containers Selector TemplateLabels ServiceAccountName].
  split; [by destruct (integrated c); cbn; repeat constructor; set_solver|].
  split; [by destruct (integrated c); cbn; apply (bool_decide_unpack _); vm_compute|].
  split; [by cbn; apply (bool_decide_unpack _); vm_compute|].
  split; [by destruct (integrated c); cbn; repeat apply Forall_cons_2; try apply Forall_nil_2;
    apply (bool_decide_unpack _); vm_compute|].
  split.
  { unfold getSelectorLabels, getLabels. apply map_subseteq_spec. intros k v.
    rewrite !lookup_insert_Some, !lookup_singleton_Some. set_solver. }
  split; [by eexists _, _|]. split; [by eexists|]. split; [done|]. split; [done|].
  eexists. split; [by left|done].
Qed.

(** One failed lookup while a cluster is deleted: the pass reports success, the
    cluster is gone, and its ClusterRole stays, with nothing left to remove it. *)
Theorem failed_lookup_leaks_role ns name c a role :
  clusters a !! (ns, name) = Some c -> cluster_key c = (ns, name) -> cl_deleting c = true -> cl_finalizer c = true ->
  objects a !! (cluster_role c).1 = Some role ->
  let net : ApiNet := fun n => bool_decide (n = S (calls a)) in
  exists a', Reconcile (AN := net) ns name a = (a', Done) /\
    clusters a' !! (ns, name) = None /\ objects a' !! (cluster_role c).1 = Some role /\
    Reconcile (AN := api_reliable) ns name a' = (mkApi (objects a') (ds_counts a') (clusters a') (S (calls a')), Done).
Proof.
  intros Hc Hk Hd Hf Ho net. unfold Reconcile, cleanupResources, cleanup_one, api_call, api_fails, net.
  assert (forall n, n <> S (calls a) -> negb (bool_decide (n = S (calls a))) = true) as Hne.
  { intros n Hn. by rewrite bool_decide_false. }
  rewrite Hne by lia. cbn [negb clusters objects calls ds_counts]. rewrite Hc, Hd, Hf, Ho.
  rewrite (bool_decide_true (S (calls a) = S (calls a))) by done. cbn [negb calls objects].
  rewrite (Hne (S (S (calls a)))) by lia.
  assert ((cluster_role c).1 <> (cluster_role_binding c).1) as Hkeys by done.
  destruct (objects a !! (cluster_role_binding c).1) as [b|] eqn:Eb.
  - cbn [calls drop_object]. rewrite (Hne (S (S (S (calls a))))) by lia. cbn [calls drop_object].
    rewrite (Hne (S (S (S (S (calls a)))))) by lia. eexists. split; [done|].
    cbn [clusters objects drop_cluster drop_object]. rewrite Hk, lookup_delete_eq. split; [done|]. by rewrite lookup_delete_ne.
  - cbn [calls]. rewrite (Hne (S (S (S (calls a))))) by lia. eexists. split; [done|]. cbn [clusters objects drop_cluster drop_object].
    rewrite Hk, lookup_delete_eq. done.
Qed.

(** The role of a cluster is named by joining its namespace and its name with a
    dash: two clusters can share it, and deleting one takes away the rights of the
    agents of the other. *)
Theorem deletion_revokes_other_cluster c1 c2 a :
  clusters a !! cluster_key c1 = Some c1 -> clusters a !! cluster_key c2 = Some c2 -> cluster_key c1 <> cluster_key c2 ->
  clusterRoleName c1 = clusterRoleName c2 -> cl_deleting c1 = true -> cl_finalizer c1 = true ->
  exists a', Reconcile (AN := api_reliable) (cl_Namespace c1) (cl_Name c1) a = (a', Done) /\
    clusters a' !! cluster_key c2 = Some c2 /\
    objects a' !! (cluster_role c2).1 = None /\ objects a' !! (cluster_role_binding c2).1 = None.
Proof.
  intros H1 H2 Hne Hn Hd Hf. unfold Reconcile, cleanupResources, cleanup_one, api_call, api_fails, api_reliable.
  cbn [negb clusters objects calls ds_counts]. change (cl_Namespace c1, cl_Name c1) with (cluster_key c1).
  rewrite H1, Hd, Hf.
  assert ((cluster_role c2).1 = (cluster_role c1).1) as -> by (unfold cluster_role; cbn; by rewrite Hn).
  assert ((cluster_role_binding c2).1 = (cluster_role_binding c1).1) as ->.
  { unfold cluster_role_binding, clusterRoleBindingName. unfold clusterRoleName in Hn. cbn [fst]. by rewrite Hn. }
  assert ((cluster_role c1).1 <> (cluster_role_binding c1).1) as Hkeys by done.
  destruct (objects a !! (cluster_role c1).1) as [x|] eqn:E1; cbn [objects drop_object];
    [rewrite lookup_delete_ne by done|]; destruct (objects a !! (cluster_role_binding c1).1) as [y|] eqn:E2;
    (eexists; split; [reflexivity|]); cbn [objects clusters drop_object drop_cluster];
    rewrite lookup_delete_ne by done; (split; [done|]);
    rewrite ?lookup_delete_None, ?E1, ?E2, ?lookup_delete_eq; tauto.
Qed.

(** A new cluster is reported as running before any node has an agent: the
    DaemonSet the pass has just stored wants no node yet, and the pass does not look
    again. *)
Theorem new_cluster_reported_running c a :
  clusters a !! cluster_key c = Some c -> cl_deleting c = false -> ds_counts a !! cluster_key c = None ->
  exists a' c', Reconcile (AN := api_reliable) (cl_Namespace c) (cl_Name c) a = (a', Done) /\
    clusters a' !! cluster_key c = Some c' /\ Phase (cl_Status c') = Running /\
    st_Agent (cl_Status c') = Some (mkComponentStatus true 0 0 0).
Proof.
  intros Hc Hd Hn.
  assert (forall c0 a0, cluster_key c0 = cluster_key c -> ds_counts a0 = ds_counts a ->
    exists a' c', init_status (AN := api_reliable) c0 a0 = (a', Done) /\ clusters a' !! cluster_key c = Some c' /\
      Phase (cl_Status c') = Running /\ st_Agent (cl_Status c') = Some (mkComponentStatus true 0 0 0)) as Hi.
  { intros c0 a0 Hk0 Hn0.
    assert (forall c1 a1, cluster_key c1 = cluster_key c -> ds_counts a1 = ds_counts a ->
      exists a' c', reconcile_live (AN := api_reliable) c1 a1 = (a', Done) /\ clusters a' !! cluster_key c = Some c' /\
        Phase (cl_Status c') = Running /\ st_Agent (cl_Status c') = Some (mkComponentStatus true 0 0 0)) as Hl.
    { intros c1 a1 Hk1 Hn1. unfold reconcile_live.
      destruct (components_ok (AN := api_reliable) 0 (fun _ _ => eq_refl) c1 a1 (Nat.le_0_l _)) as (a' & -> & Hcl).
      change (cl_Namespace c1, componentName c1) with (cluster_key c1) in *. rewrite Hk1, Hn1, Hn in *.
      eexists _, _. split; [done|]. rewrite Hcl, lookup_insert_eq. done. }
    unfold init_status. destruct (Phase (cl_Status c0)); [|by apply Hl..]. apply Hl; [done|]. done. }
  unfold Reconcile, api_call, api_fails, api_reliable. cbn [negb clusters].
  change (cl_Namespace c, cl_Name c) with (cluster_key c). rewrite Hc, Hd. destruct (cl_finalizer c); by apply Hi.
Qed.

(** * Witnesses *)

Definition sample_spec (mode : string) (env : list (string * env_value)) (i : option NovaRouteIntegrationSpec) : NovaNetClusterSpec :=
  mkNNCSpec "1.4.0" "" "IfNotPresent" [] (mkAgentSpec "" [] "info" (Some 9090) (Some 9091) [] env) (mkDataplaneSpec "" []) None
    (mkNetworkingSpec "10.244.0.0/16" "" false "geneve" mode (Some 0) false "disabled" "10.0.0.100") i
    (Some (mkEncryptionSpec "wireguard" (Some 51871) "")) (Some true) None None None [] None.

Definition sample_cluster (ns name mode : string) (deleting : bool) : NovaNetCluster :=
  mkNNC ns name 1 (sample_spec mode [] None) (mkNNCStatus PhaseNone None "" 0 ∅) deleting deleting.

Definition a_new (c : NovaNetCluster) : api := mkApi ∅ ∅ {[cluster_key c := c]} 0.

Lemma sample_admitted mode : mode ∈ ["overlay"; "native"] -> admitted (sample_cluster "kube" "nn" mode false).
Proof.
  intros Hm. split; [vm_compute; reflexivity|]. split; [by left|]. split; [exact Hm|]. right. by left.
Qed.

(** The second call of the pass fails: the finalizer is not written. *)
Definition second_fails : ApiNet := fun n => (n =? 1)%nat.

Lemma pass_applies_spec_witness :
  exists a' r, Reconcile (AN := second_fails) "kube" "nn" (a_new (sample_cluster "kube" "nn" "overlay" false)) = (a', r) /\
    quiet r = false /\ forall k, objects a' !! k = None \/
      exists o, (k, o) ∈ desired (sample_cluster "kube" "nn" "overlay" false) /\ objects a' !! k = Some o.
Proof.
  set (c := sample_cluster "kube" "nn" "overlay" false).
  destruct (Reconcile (AN := second_fails) "kube" "nn" (a_new c)) as [a' r] eqn:E. exists a', r. split; [reflexivity|].
  split; [cbn in E; injection E as _ <-; reflexivity|].
  intros k. destruct (pass_applies_spec (AN := second_fails) "kube" "nn" c (a_new c) a' r) as (H & _);
    [reflexivity|reflexivity|exact E|]. specialize (H k). cbn [objects a_new] in H. by rewrite lookup_empty in H.
Defined.

Lemma passes_recover_witness :
  exists a' r, Reconcile (AN := second_fails) "kube" "nn"
      (mkApi ∅ ∅ {[("kube", "nn") := sample_cluster "kube" "nn" "overlay" false]} 2) = (a', r) /\ quiet r = true /\
    forall k o, (k, o) ∈ desired (sample_cluster "kube" "nn" "overlay" false) -> objects a' !! k = Some o.
Proof.
  apply (passes_recover (AN := second_fails) 2).
  - intros n Hn. unfold api_fails, second_fails. apply Nat.eqb_neq. lia.
  - cbn. lia.
  - reflexivity.
  - reflexivity.
Defined.

(** A kubelet that passes texts on, on the node n1, and a native cluster whose extra
    variables turn its agents to an overlay. *)
Definition plain_value (env : environ) (v : env_value) : string := match v with EnvText s => s | _ => "n1" end.
Definition turned_cluster : NovaNetCluster :=
  mkNNC "kube" "nn" 1 (sample_spec "native" [("NOVANET_ROUTING_MODE", EnvText "overlay")] None)
    (mkNNCStatus PhaseNone None "" 0 ∅) false false.

Lemma turned_admitted : admitted turned_cluster.
Proof. split; [vm_compute; reflexivity|]. split; [by left|]. split; [right; by left|]. right. by left. Qed.

Lemma agents_accept_iff_witness :
  (exists cfg, LoadConfig (agent_environ plain_value ∅ turned_cluster) (Document (marshal (cluster_config turned_cluster))) = Ok cfg) /\
  LoadConfig (agent_environ plain_value ∅ (sample_cluster "kube" "nn" "native" false))
    (Document (marshal (cluster_config (sample_cluster "kube" "nn" "native" false)))) = Err (ExitInvalid ErrEmptyRoutingProto).
Proof.
  split.
  - eexists. apply (agents_accept_iff plain_value ∅ turned_cluster turned_admitted).
    split; [vm_compute; eexists; reflexivity|]. split; [vm_compute; reflexivity|]. split; [vm_compute; reflexivity|].
    split; vm_compute; discriminate.
  - refine (proj2 (proj2 (proj2 (proj2 (proj2 (proj2 (proj2 (proj2 (proj2
      (agents_accept_iff plain_value ∅ (sample_cluster "kube" "nn" "native" false) _))))))))) _ _ _ _);
      [apply sample_admitted; right; by left|vm_compute; reflexivity..].
Defined.

Lemma features_never_enabled_witness :
  vip_config (file_config (sample_cluster "kube" "nn" "overlay" false)) "n1" true = None.
Proof.
  apply (features_never_enabled plain_value ∅ (sample_cluster "kube" "nn" "overlay" false) _ "n1" true); [vm_compute; reflexivity|].
  repeat constructor.
Defined.

Definition a_deleting (c : NovaNetCluster) : api :=
  mkApi {[(cluster_role c).1 := (cluster_role c).2]} ∅ {[cluster_key c := c]} 0.

Lemma failed_lookup_leaks_role_witness :
  let c := sample_cluster "kube" "nn" "overlay" true in
  let net : ApiNet := fun n => bool_decide (n = 1%nat) in
  exists a', Reconcile (AN := net) "kube" "nn" (a_deleting c) = (a', Done) /\
    clusters a' !! ("kube", "nn") = None /\ objects a' !! (cluster_role c).1 = Some (cluster_role c).2 /\
    Reconcile (AN := api_reliable) "kube" "nn" a' = (mkApi (objects a') (ds_counts a') (clusters a') (S (calls a')), Done).
Proof.
  apply (failed_lookup_leaks_role "kube" "nn" (sample_cluster "kube" "nn" "overlay" true)
           (a_deleting (sample_cluster "kube" "nn" "overlay" true)) (cluster_role (sample_cluster "kube" "nn" "overlay" true)).2);
    reflexivity.
Defined.

Lemma deletion_revokes_other_cluster_witness :
  let c1 := sample_cluster "net" "prod-a" "overlay" true in
  let c2 := sample_cluster "net-prod" "a" "overlay" false in
  let a := mkApi {[(cluster_role c2).1 := (cluster_role c2).2]} ∅ (<[cluster_key c1 := c1]> {[cluster_key c2 := c2]}) 0 in
  exists a', Reconcile (AN := api_reliable) "net" "prod-a" a = (a', Done) /\ clusters a' !! cluster_key c2 = Some c2 /\
    objects a' !! (cluster_role c2).1 = None /\ objects a' !! (cluster_role_binding c2).1 = None.
Proof.
  apply (deletion_revokes_other_cluster (sample_cluster "net" "prod-a" "overlay" true) (sample_cluster "net-prod" "a" "overlay" false));
    try reflexivity. discriminate.
Defined.

Lemma new_cluster_reported_running_witness :
  let c := sample_cluster "kube" "nn" "overlay" false in
  exists a' c', Reconcile (AN := api_reliable) "kube" "nn" (a_new c) = (a', Done) /\
    clusters a' !! cluster_key c = Some c' /\ Phase (cl_Status c') = Running /\
    st_Agent (cl_Status c') = Some (mkComponentStatus true 0 0 0).
Proof.
  apply (new_cluster_reported_running (sample_cluster "kube" "nn" "overlay" false)); reflexivity.
Defined.
