(* ===== verification/NodeServices.v ===== *)
(** Smaller services of a node, each over a kernel or library it does not own:
    bandwidth limits (internal/bandwidth), XDP attachment (internal/xdp), layer-2
    announcements (internal/l2announce), peer authentication of the local sockets
    (internal/grpcauth) and the dispatch of informer events (internal/k8s).  One
    module each. *)

From Stdlib Require Import ZArith Lia Ascii String.
From stdpp Require Import base tactics list gmap strings fin_maps sorting.
From S2P Require Import Prelude GoStrings GoMap GoNet GoCidr EbpfHelpers.

(** * Bandwidth limits *)

Module Bandwidth.

(** ** Annotations *)

(** [strings.TrimSpace] on ASCII text. *)
Definition is_space (c : ascii) : bool := bool_decide (ord c ∈ [9; 10; 11; 12; 13; 32]).

Fixpoint trim_front (l : list ascii) : list ascii :=
  match l with c :: r => if is_space c then trim_front r else l | [] => [] end.

Definition trim_space (l : list ascii) : list ascii := reverse (trim_front (reverse (trim_front l))).

Definition suffix_multiplier (c : ascii) : option Z :=
  if bool_decide (c ∈ ["K"; "k"]%char) then Some 1000
  else if bool_decide (c ∈ ["M"; "m"]%char) then Some (1000 * 1000)
  else if bool_decide (c ∈ ["G"; "g"]%char) then Some (1000 * 1000 * 1000)
  else None.

(** [strconv.ParseUint(s, 10, 64)]. *)
Definition parse_uint64 (s : string) : option Z :=
  match read_digits dec_val s with
  | Some (d :: l) => let n := of_digits 10 (d :: l) in if n <? 2 ^ 64 then Some n else None
  | _ => None
  end.

Inductive bw_error := ErrEmptyValue | ErrInvalidValue | ErrNilLimit | ErrEmptyPodKey | ErrEmptyHostVeth | ErrTc.

Definition ParseBandwidth (value : string) : result bw_error Z :=
  let v := trim_space (list_ascii_of_string value) in
  match last v with
  | None => Err ErrEmptyValue
  | Some suffix =>
      let '(multiplier, numStr) :=
        match suffix_multiplier suffix with Some m => (m, removelast v) | None => (1, v) end in
      match parse_uint64 (string_of_list_ascii (trim_space numStr)) with
      | None => Err ErrInvalidValue
      | Some num => if num =? 0 then Ok 0 else Ok (wrap64 (num * multiplier) / 8)
      end
  end.

(** ** Limits *)

Record Limit := mkLimit { PodKey : string; HostVeth : string; IngressBPS : Z; EgressBPS : Z }.

(** The tc command: adding and deleting the root queueing discipline of a device,
    and the token bucket a device has. *)
Class Tc (K : Type) := {
  tc_add : string -> Z -> Z -> K -> K * bool;
  tc_del : string -> K -> K * bool;
  root_tbf : K -> string -> option (Z * Z);
  tc_add_spec dev rate burst k k' ok : tc_add dev rate burst k = (k', ok) ->
    forall d, root_tbf k' d = if ok && bool_decide (d = dev) then Some (rate, burst) else root_tbf k d;
  tc_del_spec dev k k' ok : tc_del dev k = (k', ok) ->
    forall d, root_tbf k' d = if ok && bool_decide (d = dev) then None else root_tbf k d;
}.

Section Limits.
Context {K : Type} {T : Tc K}.

Definition burst_of (rate : Z) : Z := if rate / 250 <? 1600 then 1600 else rate / 250.

Definition removeTCQdisc (dev : string) (k : K) : K * bool := tc_del dev k.

Definition applyTCQdisc (dev : string) (rate : Z) (k : K) : K * bool :=
  tc_add dev rate (burst_of rate) (removeTCQdisc dev k).1.

Record BandwidthManager := mkBandwidthManager { limits : gmap string Limit; kernel : K }.

Definition NewBandwidthManager (k : K) : BandwidthManager := mkBandwidthManager ∅ k.

Definition ApplyLimit (limit : option Limit) (m : BandwidthManager) : BandwidthManager * option bw_error :=
  match limit with
  | None => (m, Some ErrNilLimit)
  | Some l =>
      if String.eqb (PodKey l) "" then (m, Some ErrEmptyPodKey)
      else if String.eqb (HostVeth l) "" then (m, Some ErrEmptyHostVeth)
      else
        let '(k, ok) := if EgressBPS l >? 0 then applyTCQdisc (HostVeth l) (EgressBPS l) (kernel m) else (kernel m, true) in
        if ok : bool then (mkBandwidthManager (<[PodKey l := l]> (limits m)) k, None)
        else (mkBandwidthManager (limits m) k, Some ErrTc)
  end.

Definition RemoveLimit (podKey : string) (m : BandwidthManager) : BandwidthManager * option bw_error :=
  match limits m !! podKey with
  | None => (m, None)
  | Some l =>
      let '(k, ok) := removeTCQdisc (HostVeth l) (kernel m) in
      (mkBandwidthManager (delete podKey (limits m)) k, if ok : bool then None else Some ErrTc)
  end.

Definition GetLimit (podKey : string) (m : BandwidthManager) : option Limit := limits m !! podKey.
Definition ListLimits {MI : MapIter} (m : BandwidthManager) : list Limit := iter_values (limits m).
Definition Count (m : BandwidthManager) : Z := Z.of_nat (size (limits m)).

(** Histories in which no limit failed to be applied; each pod has its own veth. *)
Inductive bw_run (veth : string -> string) : BandwidthManager -> Prop :=
| bw_new k : bw_run veth (NewBandwidthManager k)
| bw_apply m l m' : bw_run veth m -> HostVeth l = veth (PodKey l) -> ApplyLimit (Some l) m = (m', None) -> bw_run veth m'
| bw_remove m k m' e : bw_run veth m -> RemoveLimit k m = (m', e) -> bw_run veth m'.

Definition in_force (m : BandwidthManager) (l : Limit) : Prop :=
  EgressBPS l > 0 -> root_tbf (kernel m) (HostVeth l) = Some (EgressBPS l, burst_of (EgressBPS l)).

Lemma bw_run_inv veth m :
  (forall p q, veth p = veth q -> p = q) -> bw_run veth m ->
  map_Forall (fun p l => PodKey l = p /\ HostVeth l = veth p /\ in_force m l) (limits m).
Proof.
  intros Hinj. induction 1 as [k|m l m' _ IH Hv E|m p m' e _ IH E]; [apply map_Forall_empty| |].
  - unfold ApplyLimit in E. destruct (String.eqb _ ""); [done|]. destruct (String.eqb _ ""); [done|].
    destruct (if EgressBPS l >? 0 then _ else _) as [k ok] eqn:Ek. destruct ok; [|done]. injection E as <-.
    assert (forall p q, limits m !! p = Some q -> p <> PodKey l -> root_tbf k (HostVeth q) = root_tbf (kernel m) (HostVeth q)) as Hother.
    { intros p q Hq Hne. destruct (IH p q Hq) as (_ & Hvq & _). assert (HostVeth q <> HostVeth l) as Hd.
      { rewrite Hvq, Hv. intros ?%Hinj. done. }
      destruct (EgressBPS l >? 0); [|by injection Ek as <-]. unfold applyTCQdisc, removeTCQdisc in Ek.
      destruct (tc_del (HostVeth l) (kernel m)) as [k1 ok1] eqn:E1. rewrite (tc_add_spec _ _ _ _ _ _ Ek), (tc_del_spec _ _ _ _ E1).
      cbn. by rewrite bool_decide_false, andb_false_r. }
    intros p q. cbn [limits kernel]. intros [[<- <-]|[Hne Hq]]%lookup_insert_Some.
    + split; [done|]. split; [done|]. intros Hpos. cbn [kernel]. destruct (EgressBPS l >? 0) eqn:Eg; [|lia].
      unfold applyTCQdisc in Ek. rewrite (tc_add_spec _ _ _ _ _ _ Ek). cbn. by rewrite bool_decide_true.
    + destruct (IH p q Hq) as (? & ? & Hf). split; [done|]. split; [done|]. unfold in_force in *. cbn [kernel].
      rewrite (Hother p q Hq) by done. done.
  - unfold RemoveLimit in E. destruct (limits m !! p) as [l|] eqn:El; [|by injection E as <- _].
    destruct (removeTCQdisc (HostVeth l) (kernel m)) as [k ok] eqn:Ek. injection E as <- _.
    intros p' q. cbn [limits]. intros [Hne Hq]%lookup_delete_Some. destruct (IH p' q Hq) as (? & Hvq & Hf).
    destruct (IH p l El) as (_ & Hvl & _).
    split; [done|]. split; [done|]. unfold in_force in *. cbn [kernel]. intros Hpos. rewrite (tc_del_spec _ _ _ _ Ek).
    rewrite bool_decide_false, andb_false_r; [by apply Hf|]. rewrite Hvq, Hvl. by intros ?%Hinj.
Qed.

(** While no limit fails to be applied, every recorded egress limit is the token
    bucket of the pod's own interface, with room for at least one packet. *)
Theorem recorded_limits_in_force veth m p l :
  (forall p q, veth p = veth q -> p = q) -> bw_run veth m -> GetLimit p m = Some l -> EgressBPS l > 0 ->
  root_tbf (kernel m) (HostVeth l) = Some (EgressBPS l, burst_of (EgressBPS l)) /\ 1600 <= burst_of (EgressBPS l).
Proof.
  intros Hinj Hr Hl Hpos. destruct (bw_run_inv veth m Hinj Hr p l Hl) as (_ & _ & Hf). split; [by apply Hf|].
  unfold burst_of. destruct (EgressBPS l / 250 <? 1600) eqn:E; to_prop; lia.
Qed.

(** Taking the limit of a pod away, by applying one without a rate, leaves the old
    token bucket in place; and an ingress rate is recorded but never reaches the
    kernel. *)
Theorem zero_rate_keeps_limit l m :
  PodKey l <> "" -> HostVeth l <> "" -> EgressBPS l = 0 ->
  ApplyLimit (Some l) m = (mkBandwidthManager (<[PodKey l := l]> (limits m)) (kernel m), None).
Proof.
  intros H1 H2 H0. unfold ApplyLimit. apply String.eqb_neq in H1, H2. by rewrite H1, H2, H0.
Qed.

(** A limit that cannot be applied takes away the one in force, which stays
    recorded. *)
Theorem failed_limit_unshapes l old m m' :
  GetLimit (PodKey l) m = Some old -> HostVeth l = HostVeth old -> ApplyLimit (Some l) m = (m', Some ErrTc) ->
  (tc_del (HostVeth l) (kernel m)).2 = true ->
  GetLimit (PodKey l) m' = Some old /\ root_tbf (kernel m') (HostVeth old) = None.
Proof.
  intros Ho Hv E Hd. unfold ApplyLimit in E. destruct (String.eqb _ ""); [done|]. destruct (String.eqb _ ""); [done|].
  destruct (EgressBPS l >? 0); [|done]. unfold applyTCQdisc, removeTCQdisc in E.
  destruct (tc_del (HostVeth l) (kernel m)) as [k1 ok1] eqn:E1. cbn in Hd. subst ok1.
  destruct (tc_add _ _ _ _) as [k2 ok2] eqn:E2. destruct ok2; [done|]. injection E as <-. split; [done|].
  cbn [kernel]. rewrite (tc_add_spec _ _ _ _ _ _ E2), <- Hv. cbn. rewrite (tc_del_spec _ _ _ _ E1). cbn.
  by rewrite bool_decide_true.
Qed.
End Limits.

(** ** Rates *)

Lemma trim_front_id l c r : l = c :: r -> is_space c = false -> trim_front l = l.
Proof. intros -> Hc. cbn. by rewrite Hc. Qed.

Lemma trim_space_id (l : list ascii) c d :
  head l = Some c -> last l = Some d -> is_space c = false -> is_space d = false -> trim_space l = l.
Proof.
  intros Hh Hl Hc Hd. unfold trim_space. destruct l as [|x r]; [done|]. injection Hh as ->.
  rewrite (trim_front_id (c :: r) c r) by done. apply last_Some in Hl as [l' Hl']. rewrite Hl', reverse_snoc.
  rewrite (trim_front_id (d :: reverse l') d (reverse l')) by done. by rewrite reverse_cons, reverse_involutive.
Qed.

Lemma decimal_chars n : 0 <= n -> Forall (fun c => is_Some (dec_val c)) (list_ascii_of_string (fmt_d n)).
Proof.
  intros Hn. pose proof (read_dec n Hn) as H. revert H. generalize (digits 10 n). induction (fmt_d n) as [|c s IH]; intros l H.
  - constructor.
  - cbn in H |- *. destruct (dec_val c) eqn:E; [|done]. destruct (read_digits dec_val s) as [l'|] eqn:E2; [|done].
    constructor; [by rewrite E|]. by eapply IH.
Qed.

Lemma decimal_not_space c : is_Some (dec_val c) -> is_space c = false /\ suffix_multiplier c = None.
Proof.
  unfold dec_val. intros [d H]. destruct ((48 <=? ord c) && (ord c <=? 57)) eqn:E; [|done]. to_prop.
  split.
  - unfold is_space. apply bool_decide_eq_false_2. rewrite !elem_of_cons, elem_of_nil. lia.
  - assert (forall x, (ord x <? 48) = false -> (57 <? ord x) = true -> c <> x) as Hne by (intros x Hx1 Hx2 ->; to_prop; lia).
    unfold suffix_multiplier. rewrite !bool_decide_eq_false_2; [done|..]; rewrite !elem_of_cons, elem_of_nil;
      intros [Hc|[Hc|[]]]; revert Hc; by apply Hne.
Qed.

Lemma string_of_ascii_id s : string_of_list_ascii (list_ascii_of_string s) = s.
Proof. apply string_of_list_ascii_of_string. Qed.

Lemma decimal_ends n : 0 <= n ->
  exists c d, head (list_ascii_of_string (fmt_d n)) = Some c /\ last (list_ascii_of_string (fmt_d n)) = Some d /\
    is_space c = false /\ is_space d = false /\ suffix_multiplier d = None.
Proof.
  intros Hn. pose proof (decimal_chars n Hn) as H. destruct (list_ascii_of_string (fmt_d n)) as [|c r] eqn:E.
  { apply (f_equal string_of_list_ascii) in E. rewrite string_of_ascii_id in E. by destruct (fmt_d_nonempty n). }
  destruct (last (c :: r)) as [d|] eqn:El; [|by apply last_None in El].
  rewrite Forall_forall in H. exists c, d.
  destruct (decimal_not_space c (H c ltac:(by left))) as [Hc _].
  destruct (decimal_not_space d) as [Hd Hs]; [|done].
  apply H. apply last_Some in El as [l' ->]. apply elem_of_app. right. by left.
Qed.

(** A plain number is a rate in bits, a suffix scales it by powers of a thousand, and
    the answer is in bytes: exact as long as the product fits in 64 bits, and reduced
    modulo 2^64 otherwise. *)
Theorem bandwidth_parsed n c m :
  0 <= n < 2 ^ 64 -> suffix_multiplier c = Some m -> is_space c = false ->
  ParseBandwidth (fmt_d n) = Ok (n / 8) /\
  ParseBandwidth (fmt_d n +:+ String c "") = Ok (wrap64 (n * m) / 8) /\
  (n * m < 2 ^ 64 -> ParseBandwidth (fmt_d n +:+ String c "") = Ok (n * m / 8)).
Proof.
  intros Hn Hm Hc. destruct (decimal_ends n ltac:(lia)) as (x & y & Hx & Hy & Sx & Sy & Ty).
  assert (parse_uint64 (fmt_d n) = Some n) as Hp.
  { unfold parse_uint64. rewrite read_dec by lia. destruct (digits 10 n) as [|d l] eqn:E; [by destruct (digits_nonempty 10 n)|].
    cbv zeta. rewrite <- E, digits_correct by lia. destruct (n <? 2 ^ 64) eqn:E2; to_prop; [done|lia]. }
  assert (0 < m) as Hmpos by (unfold suffix_multiplier in Hm; repeat case_match; simplify_eq; lia).
  assert (ParseBandwidth (fmt_d n +:+ String c "") = Ok (wrap64 (n * m) / 8)) as H2.
  { unfold ParseBandwidth.
    assert (list_ascii_of_string (fmt_d n +:+ String c "") = list_ascii_of_string (fmt_d n) ++ [c]) as ->.
    { clear. induction (fmt_d n) as [|d s IH]; [done|]. rewrite str_app_cons. cbn [list_ascii_of_string app]. by rewrite IH. }
    rewrite (trim_space_id _ x c); [|by destruct (list_ascii_of_string (fmt_d n))|by rewrite last_snoc|done..].
    rewrite last_snoc, Hm, removelast_last, (trim_space_id _ x y), string_of_ascii_id, Hp by done.
    destruct (n =? 0) eqn:E0; to_prop; [subst; done|done]. }
  split; [|split; [done|]].
  - unfold ParseBandwidth. rewrite (trim_space_id _ x y), Hy, Ty, (trim_space_id _ x y), string_of_ascii_id, Hp by done.
    destruct (n =? 0) eqn:E0; to_prop; [by subst|]. rewrite Z.mul_1_r, wrap64_small by lia. done.
  - intros Hfit. rewrite H2, wrap64_small by nia. done.
Qed.

(** A kernel for the examples: adding is refused when there is a discipline. *)
#[export] Program Instance tc_table : Tc (gmap string (Z * Z)) := {
  tc_add dev rate burst k := match k !! dev with Some _ => (k, false) | None => (<[dev := (rate, burst)]> k, true) end;
  tc_del dev k := match k !! dev with Some _ => (delete dev k, true) | None => (k, false) end;
  root_tbf k d := k !! d;
}.
Next Obligation.
  intros dev rate burst k k' ok H d. cbn in *. destruct (k !! dev); injection H as <- <-; [done|]. cbn.
  case_bool_decide; [subst; by rewrite lookup_insert_eq|by rewrite lookup_insert_ne].
Qed.
Next Obligation.
  intros dev k k' ok H d. cbn in *. destruct (k !! dev); injection H as <- <-; [|done]. cbn.
  case_bool_decide; [subst; by rewrite lookup_delete_eq|by rewrite lookup_delete_ne].
Qed.

Lemma bandwidth_parsed_witness :
  ParseBandwidth "10M" = Ok 1250000 /\ ParseBandwidth "20000000000G" = Ok (wrap64 (20000000000 * 1000000000) / 8).
Proof.
  split.
  - apply (bandwidth_parsed 10 "M" 1000000); [lia|reflexivity|reflexivity|lia].
  - apply (bandwidth_parsed 20000000000 "G" 1000000000); [lia|reflexivity|reflexivity].
Defined.

Definition sample_limit : Limit := mkLimit "default/web" "nvdefault/web" 0 1250000.
Definition sample_limited : BandwidthManager := (ApplyLimit (Some sample_limit) (NewBandwidthManager ∅)).1.

Lemma recorded_limits_in_force_witness :
  root_tbf (kernel sample_limited) "nvdefault/web" = Some (1250000, 5000) /\ 1600 <= 5000.
Proof.
  apply (recorded_limits_in_force (fun p => "nv" +:+ p) sample_limited "default/web" sample_limit).
  - intros p q. apply str_app_inj_l.
  - apply (bw_apply _ (NewBandwidthManager ∅) sample_limit); [constructor|reflexivity|reflexivity].
  - reflexivity.
  - reflexivity.
Defined.

Lemma zero_rate_keeps_limit_witness :
  root_tbf (kernel (ApplyLimit (Some (mkLimit "default/web" "nvdefault/web" 125 0)) sample_limited).1) "nvdefault/web" = Some (1250000, 5000).
Proof.
  rewrite (zero_rate_keeps_limit (mkLimit "default/web" "nvdefault/web" 125 0) sample_limited); [reflexivity|discriminate|discriminate|reflexivity].
Defined.
End Bandwidth.

(** * XDP attachment *)

Module Xdp.

(** The configuration may name any mode. *)
Variant Mode := ModeDisabled | ModeNative | ModeBestEffort | ModeOther (s : string).
Inductive xdp_error := ErrDisabled | ErrInterfaces | ErrNoInterfaces.

Record iface := mkIface { if_Name : string; if_Loopback : bool; if_Up : bool }.

Definition virtual_prefixes : list string :=
  ["veth"; "docker"; "br-"; "cni"; "flannel"; "cali"; "tunl"; "genev"; "vxlan"; "nv"; "lo"; "novanet"; "wg"].

Definition isVirtualInterface (name : string) : bool := existsb (fun p => String.prefix p name) virtual_prefixes.

Definition eligible (i : iface) : bool := negb (if_Loopback i) && if_Up i && negb (isVirtualInterface (if_Name i)).

Record XdpManager := mkXdpManager { mode : Mode; attached : gmap string bool }.

Definition NewXdpManager (m : Mode) : XdpManager := mkXdpManager m ∅.

(** The calls to the daemon, an interface and whether in native mode, and whether
    they succeed. *)
Section Calls.
Context (attachFunc : string -> bool -> bool).

Definition is_native (m : Mode) : bool := match m with ModeNative => true | _ => false end.
Definition is_best_effort (m : Mode) : bool := match m with ModeBestEffort => true | _ => false end.

Definition attach_one (m : XdpManager * list (string * bool)) (name : string) : XdpManager * list (string * bool) :=
  let '(mgr, calls) := m in
  let native := is_native (mode mgr) in
  let done_ := mkXdpManager (mode mgr) (<[name := true]> (attached mgr)) in
  if attachFunc name native then (done_, calls ++ [(name, native)])
  else if is_best_effort (mode mgr) then
    (if attachFunc name false then done_ else mgr, calls ++ [(name, native); (name, false)])
  else (mgr, calls ++ [(name, native)]).

(** [ifaces] is the answer of the kernel; the calls made are returned. *)
Definition AttachAll (ifaces : option (list iface)) (mgr : XdpManager) : XdpManager * list (string * bool) * option xdp_error :=
  match mode mgr with
  | ModeDisabled => (mgr, [], Some ErrDisabled)
  | _ =>
      match ifaces with
      | None => (mgr, [], Some ErrInterfaces)
      | Some l =>
          match if_Name <$> filter (fun i => Is_true (eligible i)) l with
          | [] => (mgr, [], Some ErrNoInterfaces)
          | names => (foldl attach_one (mgr, []) names, None)
          end
      end
  end.
End Calls.

Definition DetachAll {MI : MapIter} (mgr : XdpManager) : XdpManager * list string := (mkXdpManager (mode mgr) ∅, (iter (attached mgr)).*1).
Definition AttachedInterfaces {MI : MapIter} (mgr : XdpManager) : list string := (iter (attached mgr)).*1.
Definition IsEnabled (mgr : XdpManager) : bool := match mode mgr with ModeDisabled => false | _ => true end.

Lemma attach_one_spec f mgr calls name mgr' calls' :
  attach_one f (mgr, calls) name = (mgr', calls') ->
  mode mgr' = mode mgr /\
  (forall n, attached mgr' !! n = if bool_decide (n = name) && f name (is_native (mode mgr)) ||
     bool_decide (n = name) && (is_best_effort (mode mgr) && f name false) then Some true else attached mgr !! n) /\
  exists more, calls' = calls ++ more /\ Forall (fun c => c.1 = name /\ (is_native (mode mgr) = false -> c.2 = false)) more.
Proof.
  unfold attach_one. destruct (f name (is_native (mode mgr))) eqn:E1.
  - intros [= <- <-]. split; [done|]. split.
    + intros n. cbn. case_bool_decide; [subst; cbn; by rewrite lookup_insert_eq|cbn; by rewrite lookup_insert_ne].
    + eexists. split; [done|]. constructor; [|constructor]. by split.
  - destruct (is_best_effort (mode mgr)) eqn:Eb.
    + assert (is_native (mode mgr) = false) as Hn by (by destruct (mode mgr)).
      intros [= <- <-]. split; [by destruct (f name false)|]. split.
      * intros n. destruct (f name false); cbn; case_bool_decide; cbn; subst; rewrite ?lookup_insert_eq, ?lookup_insert_ne by done; done.
      * eexists. split; [done|]. rewrite Hn. repeat constructor.
    + intros [= <- <-]. split; [done|]. split.
      * intros n. rewrite !andb_false_r. done.
      * eexists. split; [done|]. constructor; [|constructor]. by split.
Qed.

Lemma attach_fold f names : forall mgr calls mgr' calls',
  foldl (attach_one f) (mgr, calls) names = (mgr', calls') ->
  mode mgr' = mode mgr /\
  (forall n, attached mgr' !! n = if bool_decide (n ∈ names) && (f n (is_native (mode mgr)) || is_best_effort (mode mgr) && f n false)
     then Some true else attached mgr !! n) /\
  exists more, calls' = calls ++ more /\ Forall (fun c => c.1 ∈ names /\ (is_native (mode mgr) = false -> c.2 = false)) more.
Proof.
  induction names as [|name names IH]; intros mgr calls mgr' calls'; cbn [foldl].
  - intros [= <- <-]. split; [done|]. split; [done|]. exists []. by rewrite app_nil_r.
  - destruct (attach_one f (mgr, calls) name) as [m1 c1] eqn:E1. intros E2.
    destruct (attach_one_spec _ _ _ _ _ _ E1) as (M1 & A1 & more1 & -> & F1).
    destruct (IH _ _ _ _ E2) as (M2 & A2 & more2 & -> & F2). rewrite M1 in *. split; [done|]. split.
    + intros n. rewrite A2, A1, <- andb_orb_distrib_r. destruct (bool_decide_reflect (n = name)) as [->|Hne].
      * cbn. rewrite (bool_decide_eq_true_2 (name ∈ name :: names)) by (by left). cbn.
        destruct (f name _ || _); [by destruct (bool_decide (name ∈ names))|by rewrite andb_false_r].
      * cbn. assert (bool_decide (n ∈ name :: names) = bool_decide (n ∈ names)) as ->; [|done].
        apply bool_decide_ext. rewrite elem_of_cons. tauto.
    + exists (more1 ++ more2). split; [by rewrite app_assoc|]. apply Forall_app. split.
      * eapply Forall_impl; [exact F1|]. cbn. intros c [-> ?]. split; [by left|done].
      * eapply Forall_impl; [exact F2|]. cbn. intros c [? ?]. split; [by right|done].
Qed.

(** The interfaces attached are exactly those that are up, physical and that the
    daemon accepts, in the mode asked for. *)
Theorem attached_exactly f l m mgr' calls :
  AttachAll f (Some l) (NewXdpManager m) = (mgr', calls, None) ->
  forall n, attached mgr' !! n = Some true <->
    (exists i, i ∈ l /\ eligible i = true /\ if_Name i = n) /\
    (f n (is_native m) || is_best_effort m && f n false) = true.
Proof.
  unfold AttachAll. cbn [mode NewXdpManager]. intros E n.
  assert (foldl (attach_one f) (NewXdpManager m, []) (if_Name <$> filter (fun i => Is_true (eligible i)) l) = (mgr', calls)) as Ef
    by (destruct m; [done|..]; by destruct (if_Name <$> _); [|injection E as E]).
  destruct (attach_fold f _ _ _ _ _ Ef) as (_ & A & _). rewrite A. cbn [mode attached NewXdpManager]. rewrite lookup_empty.
  assert (n ∈ (if_Name <$> filter (fun i => Is_true (eligible i)) l) <-> exists i, i ∈ l /\ eligible i = true /\ if_Name i = n) as Hin.
  { rewrite list_elem_of_fmap. setoid_rewrite list_elem_of_filter. setoid_rewrite Is_true_true. naive_solver. }
  rewrite <- Hin. destruct (bool_decide_reflect (n ∈ if_Name <$> filter (fun i => Is_true (eligible i)) l)) as [H|H]; cbn.
  - destruct (f n (is_native m) || _); naive_solver.
  - naive_solver.
Qed.

(** Best effort never asks for native mode: the first attempt is already the generic
    one, and so is the retry. *)
Theorem best_effort_never_native f ifaces mgr' calls e :
  AttachAll f ifaces (NewXdpManager ModeBestEffort) = (mgr', calls, e) -> Forall (fun c => c.2 = false) calls.
Proof.
  unfold AttachAll. cbn [mode NewXdpManager]. destruct ifaces as [l|]; [|by intros [= _ <- _]].
  destruct (if_Name <$> _) as [|x names] eqn:El; [by intros [= _ <- _]|].
  destruct (foldl (attach_one f) _ (x :: names)) as [m' c'] eqn:Ef. intros [= _ <- _].
  destruct (attach_fold f _ _ _ _ _ Ef) as (_ & _ & more & -> & F). cbn [app].
  eapply Forall_impl; [exact F|]. cbn. intros c [_ H]. by apply H.
Qed.

Definition sample_ifaces : list iface := [mkIface "lo" true true; mkIface "eth0" false true; mkIface "veth1" false true; mkIface "eth1" false false].

Lemma attached_exactly_witness :
  attached (AttachAll (fun _ native => native) (Some sample_ifaces) (NewXdpManager ModeNative)).1.1 !! "eth0" = Some true.
Proof.
  apply (attached_exactly (fun _ native => native) sample_ifaces ModeNative _
           (AttachAll (fun _ native => native) (Some sample_ifaces) (NewXdpManager ModeNative)).1.2).
  - reflexivity.
  - split; [|reflexivity]. exists (mkIface "eth0" false true). split; [right; left|]. split; reflexivity.
Defined.

Lemma best_effort_never_native_witness :
  Forall (fun c => c.2 = false) (AttachAll (fun _ native => native) (Some sample_ifaces) (NewXdpManager ModeBestEffort)).1.2.
Proof.
  apply (best_effort_never_native (fun _ native => native) (Some sample_ifaces)
           (AttachAll (fun _ native => native) (Some sample_ifaces) (NewXdpManager ModeBestEffort)).1.1 _ None). reflexivity.
Defined.
End Xdp.

(** * Layer-2 announcements *)

Module L2Announce.

Inductive l2_error := ErrIPv6NANotImplemented | ErrInterface | ErrInvalidHWAddrLen | ErrSocket | ErrSend.

(** The interface: its hardware address if it is found, whether a raw socket can be
    opened, and whether a frame is sent. *)
Record link := mkLink { hw_addr : option (list Z); socket_ok : bool; send_ok : list Z -> bool }.

(** The frame of [sendGratuitousARP]: an Ethernet broadcast that carries an ARP reply. *)
Definition garp (mac ip4 : list Z) : list Z :=
  replicate 6 255 ++ mac ++ [8; 6] ++ [0; 1] ++ [8; 0] ++ [6; 4] ++ [0; 2] ++ mac ++ ip4 ++ replicate 6 255 ++ ip4.

(** The frames sent and the error. *)
Definition sendGratuitousARP (l : link) (ip : IP) : list (list Z) * option l2_error :=
  match To4 ip with
  | None => ([], Some ErrIPv6NANotImplemented)
  | Some ip4 =>
      match hw_addr l with
      | None => ([], Some ErrInterface)
      | Some hw =>
          if (length hw <? 6)%nat then ([], Some ErrInvalidHWAddrLen)
          else if negb (socket_ok l) then ([], Some ErrSocket)
          else let pkt := garp (take 6 hw) ip4 in
               if send_ok l pkt then ([pkt], None) else ([], Some ErrSend)
      end
  end.

Abbreviation Announcer := (gmap string bool).
Definition NewAnnouncer : Announcer := ∅.

Definition announceOne (l : link) (ip : IP) : list (list Z) * option l2_error := sendGratuitousARP l ip.

Definition AddIP (l : link) (ip : IP) (a : Announcer) : Announcer * list (list Z) * option l2_error :=
  if default false (a !! ip_string ip) then (a, [], None)
  else let '(frames, e) := announceOne l ip in (<[ip_string ip := true]> a, frames, e).

Definition RemoveIP (ip : IP) (a : Announcer) : Announcer := delete (ip_string ip) a.

Definition announce_all (l : link) (st : list (list Z) * option l2_error) (ipStr : string) : list (list Z) * option l2_error :=
  match ParseIP ipStr with
  | None => st
  | Some ip =>
      let '(frames, e) := announceOne l ip in
      (st.1 ++ frames, match st.2 with Some first => Some first | None => e end)
  end.

Definition AnnounceAll {MI : MapIter} (l : link) (a : Announcer) : list (list Z) * option l2_error :=
  foldl (announce_all l) ([], None) (iter a).*1.

(** The addresses in the order of their texts. *)
Definition ListIPs {MI : MapIter} (a : Announcer) : list (option IP) := ParseIP <$> merge_sort String.le (iter a).*1.

Inductive l2_run : Announcer -> Prop :=
| l2_new : l2_run NewAnnouncer
| l2_add a l ip a' fs e : l2_run a -> wf_ip ip -> AddIP l ip a = (a', fs, e) -> l2_run a'
| l2_remove a ip : l2_run a -> l2_run (RemoveIP ip a).

Lemma l2_run_keys a : l2_run a -> forall s b, a !! s = Some b -> b = true /\ exists ip, wf_ip ip /\ s = ip_string ip.
Proof.
  induction 1 as [|a l ip a' fs e _ IH Hw E|a ip _ IH]; intros s b.
  - unfold NewAnnouncer. by rewrite lookup_empty.
  - unfold AddIP in E. destruct (default false (a !! ip_string ip)); [injection E as <- _ _; apply IH|].
    destruct (announceOne l ip). injection E as <- _ _. intros [[<- <-]|[_ H]]%lookup_insert_Some; [eauto|by apply IH].
  - unfold RemoveIP. intros [_ H]%lookup_delete_Some. by apply IH.
Qed.

(** A link that sends whatever it is given. *)
Definition works (l : link) (mac : list Z) : Prop :=
  hw_addr l = Some mac /\ length mac = 6%nat /\ socket_ok l = true /\ forall f, send_ok l f = true.

Lemma working_announcement l mac ip : works l mac -> announceOne l ip = match To4 ip with
  | Some ip4 => ([garp mac ip4], None) | None => ([], Some ErrIPv6NANotImplemented) end.
Proof.
  intros (H1 & H2 & H3 & H4). unfold announceOne, sendGratuitousARP. destruct (To4 ip) as [ip4|]; [|done].
  rewrite H1, H2, H3. cbn [negb Nat.ltb Nat.leb]. rewrite take_ge by lia. by rewrite H4.
Qed.

Lemma announce_fold l mac keys : works l mac -> forall frames e f,
  f ∈ (foldl (announce_all l) (frames, e) keys).1 <->
  f ∈ frames \/ exists s ip ip4, s ∈ keys /\ ParseIP s = Some ip /\ To4 ip = Some ip4 /\ f = garp mac ip4.
Proof.
  intros Hw. induction keys as [|s keys IH]; intros frames e f; cbn [foldl]; [set_solver|].
  unfold announce_all at 2. destruct (ParseIP s) as [ip|] eqn:Es.
  - rewrite (working_announcement l mac ip Hw). destruct (To4 ip) as [ip4|] eqn:E4; cbn [fst snd]; rewrite IH.
    + rewrite elem_of_app, list_elem_of_singleton. setoid_rewrite elem_of_cons. split.
      * intros [[?| ->]|(s' & ip' & i4 & ? & H)]; [by left|right; exists s, ip, ip4; naive_solver|right; exists s', ip', i4; naive_solver].
      * intros [?|(s' & ip' & i4 & [->|?] & Hp & H4 & ->)]; [left; by left| |right; by exists s', ip', i4].
        left. right. congruence.
    + rewrite app_nil_r. setoid_rewrite elem_of_cons. split.
      * intros [?|(s' & ip' & i4 & ? & H)]; [by left|right; exists s', ip', i4; naive_solver].
      * intros [?|(s' & ip' & i4 & [->|?] & Hp & H4 & ->)]; [by left|congruence|right; by exists s', ip', i4].
  - rewrite IH. setoid_rewrite elem_of_cons. split.
    + intros [?|(s' & ip' & i4 & ? & H)]; [by left|right; exists s', ip', i4; naive_solver].
    + intros [?|(s' & ip' & i4 & [->|?] & Hp & H4 & ->)]; [by left|congruence|right; by exists s', ip', i4].
Qed.

(** On a working link a round of announcements sends an announcement for exactly the
    registered IPv4 addresses. *)
Theorem round_announces_registered {MI : MapIter} a l mac ip ip4 :
  l2_run a -> works l mac -> wf_ip ip -> To4 ip = Some ip4 ->
  garp mac ip4 ∈ (AnnounceAll l a).1 <-> a !! ip_string ip = Some true.
Proof.
  intros Hr Hl Hw H4. unfold AnnounceAll. rewrite (announce_fold l mac _ Hl).
  destruct (To4_spec ip ip4 Hw H4) as (Hl4 & Hb4 & H16).
  assert (forall s, s ∈ (iter a).*1 <-> is_Some (a !! s)) as Hkeys.
  { intros s. rewrite list_elem_of_fmap. split.
    - intros ([s' b] & -> & H%elem_of_iter). by eexists.
    - intros [b H]. exists (s, b). by rewrite elem_of_iter. }
  split.
  - intros [?%elem_of_nil|(s & x & x4 & Hs & Hp & Hx4 & E)]; [done|]. apply Hkeys in Hs as [b Hb].
    destruct (l2_run_keys a Hr s b Hb) as (-> & y & Hy & ->). rewrite ParseIP_ip_string in Hp by done.
    assert (x4 = ip4) as ->.
    { apply (f_equal (drop 38)) in E. destruct Hl as (_ & Hm & _).
      assert (wf_ip x) as Hwx by (assert (ParseIP (ip_string y) = Some x) as [? ?]%ParseIP_wf by (by rewrite ParseIP_ip_string); by split; [right|]).
      destruct (To4_spec x x4 Hwx Hx4) as (Hlx & _).
      destruct mac as [|? [|? [|? [|? [|? [|? [|]]]]]]]; try discriminate Hm.
      destruct ip4 as [|? [|? [|? [|? [|]]]]]; try discriminate Hl4. destruct x4 as [|? [|? [|? [|? [|]]]]]; try discriminate Hlx.
      cbn in E. by simplify_eq. }
    assert (ip_string ip = ip_string y) as ->; [|done].
    assert (To4 y = Some ip4) as Hy4.
    { destruct (To4 y) as [y4|] eqn:Ey.
      - destruct (To4_spec y y4 Hy Ey) as (L & B & T). rewrite T in Hp. simplify_eq.
        destruct y4 as [|? [|? [|? [|? [|]]]]]; try discriminate L. cbn in Hx4. by simplify_eq.
      - destruct (To4_None_spec y Hy Ey) as (L & T). rewrite T in Hp. simplify_eq. }
    unfold ip_string, go_len. rewrite H4, Hy4.
    destruct Hw as [[-> | ->] _], Hy as [[-> | ->] _]; reflexivity.
  - intros Ha. right. exists (ip_string ip), (v4InV6Prefix ++ ip4), ip4. rewrite Hkeys, Ha. split; [done|].
    rewrite ParseIP_ip_string by done. split; [done|]. split; [|done].
    destruct ip4 as [|? [|? [|? [|? [|]]]]]; try discriminate Hl4. reflexivity.
Qed.

(** The frame is a broadcast ARP reply in which sender and target address are the
    announced one. *)
Theorem garp_well_formed mac ip4 :
  length mac = 6%nat -> length ip4 = 4%nat ->
  let f := garp mac ip4 in
  length f = 42%nat /\ take 6 f = replicate 6 255 /\ take 6 (drop 6 f) = mac /\ be16 f 12 = 2054 /\
  be16 f 14 = 1 /\ be16 f 16 = 2048 /\ be16 f 20 = 2 /\
  take 6 (drop 22 f) = mac /\ take 4 (drop 28 f) = ip4 /\ take 4 (drop 38 f) = ip4.
Proof.
  intros Hm H4. destruct mac as [|? [|? [|? [|? [|? [|? [|]]]]]]]; try discriminate Hm.
  destruct ip4 as [|? [|? [|? [|? [|]]]]]; try discriminate H4. cbn. by repeat split.
Qed.

(** An address whose first announcement failed counts as announced: adding it again
    sends nothing and reports success. *)
Theorem failed_announcement_not_retried l l' ip a a' fs e :
  AddIP l ip a = (a', fs, Some e) -> AddIP l' ip a' = (a', [], None).
Proof.
  unfold AddIP. destruct (default false (a !! ip_string ip)) eqn:E; [done|]. destruct (announceOne l ip). intros [= <- _ _].
  by rewrite lookup_insert_eq.
Qed.

Definition up_link : link := mkLink (Some [2; 0; 0; 0; 0; 1]) true (fun _ => true).
Definition down_link : link := mkLink None true (fun _ => true).

Lemma round_announces_registered_witness :
  garp [2; 0; 0; 0; 0; 1] [10; 0; 0; 9] ∈ (AnnounceAll (MI := iter_forward) up_link {["10.0.0.9" := true]}).1.
Proof.
  apply (round_announces_registered (MI := iter_forward) {["10.0.0.9" := true]} up_link [2; 0; 0; 0; 0; 1] [10; 0; 0; 9] [10; 0; 0; 9]).
  - apply (l2_add NewAnnouncer up_link [10; 0; 0; 9] _ [garp [2; 0; 0; 0; 0; 1] [10; 0; 0; 9]] None l2_new).
    + split; [by left|]. repeat constructor; discriminate.
    + reflexivity.
  - by repeat split.
  - split; [by left|]. repeat constructor; discriminate.
  - reflexivity.
  - reflexivity.
Defined.

Lemma garp_well_formed_witness : length (garp [2; 0; 0; 0; 0; 1] [10; 0; 0; 9]) = 42%nat.
Proof. apply (garp_well_formed [2; 0; 0; 0; 0; 1] [10; 0; 0; 9]); reflexivity. Defined.

Lemma failed_announcement_not_retried_witness :
  AddIP up_link [10; 0; 0; 9] {["10.0.0.9" := true]} = ({["10.0.0.9" := true]}, [], None).
Proof.
  apply (failed_announcement_not_retried down_link up_link [10; 0; 0; 9] ∅ _ [] ErrInterface). reflexivity.
Defined.
End L2Announce.

(** * Peer authentication of the local sockets *)

Module GrpcAuth.

Record unixCreds := mkCreds { uid : Z; gid : Z; pid : Z }.

Inductive auth_error := ErrNotUnixConn | ErrSyscallConn | ErrControl | ErrFDOverflow | ErrPeerCred.

(** A connection: for a Unix socket, whether its raw connection and its descriptor are
    available, and what the kernel answers to SO_PEERCRED. *)
Variant conn :=
| OtherConn
| UnixConn (syscall_ok control_ok : bool) (fd : Z) (peercred : option unixCreds).

Definition MaxInt : Z := 2 ^ 63 - 1.

Definition peerCredFromConn (c : conn) : result auth_error unixCreds :=
  match c with
  | OtherConn => Err ErrNotUnixConn
  | UnixConn syscall_ok control_ok fd peercred =>
      if negb syscall_ok then Err ErrSyscallConn
      else if negb control_ok then Err ErrControl
      else if MaxInt <? fd then Err ErrFDOverflow
      else match peercred with None => Err ErrPeerCred | Some cr => Ok cr end
  end.

Definition ServerHandshake (c : conn) : result auth_error (conn * unixCreds) :=
  match peerCredFromConn c with Err e => Err e | Ok uc => Ok (c, uc) end.

(** [credentials.AuthInfo] of a peer: absent, the credentials above, or of another
    transport. *)
Variant AuthInfo := NoAuth | UnixAuth (uc : unixCreds) | OtherAuth.

Record context := mkCtx { ctx_peer : option AuthInfo; ctx_uid : option Z }.

Definition PeerUID (ctx : context) : option Z := ctx_uid ctx.

Definition extractUID (p : AuthInfo) : option Z :=
  match p with UnixAuth uc => Some (uid uc) | _ => None end.

Variant status := Unauthenticated | PermissionDenied.

Definition checkPeer (ctx : context) (allowedUIDs : gset Z) : result status Z :=
  match ctx_peer ctx with
  | None => Err Unauthenticated
  | Some p =>
      match extractUID p with
      | None => Err Unauthenticated
      | Some u => if decide (u ∈ allowedUIDs) then Ok u else Err PermissionDenied
      end
  end.

Section interceptors.
Context {W Req Resp : Type}.

(** A call changes the world [W] through its handler only. *)
Definition unary (allowedUIDs : gset Z) (ctx : context) (req : Req)
    (handler : context -> Req -> W -> Resp * W) (w : W) : result status Resp * W :=
  match checkPeer ctx allowedUIDs with
  | Err e => (Err e, w)
  | Ok u => let '(r, w') := handler (mkCtx (ctx_peer ctx) (Some u)) req w in (Ok r, w')
  end.

(** A stream is its context and what the handler exchanges on it. *)
Definition stream (allowedUIDs : gset Z) (ss : context * Req)
    (handler : context * Req -> W -> Resp * W) (w : W) : result status Resp * W :=
  match checkPeer ss.1 allowedUIDs with
  | Err e => (Err e, w)
  | Ok u => let '(r, w') := handler (mkCtx (ctx_peer ss.1) (Some u), ss.2) w in (Ok r, w')
  end.
End interceptors.

Definition uid_set (allowedUIDs : list Z) : gset Z := list_to_set allowedUIDs.

(** The set [StartGRPCServer] passes for every local socket. *)
Definition server_uids : gset Z := uid_set [0].

(** ** What a caller can reach *)

Section served.
Context {W Req Resp : Type}.

(** The context the gRPC library makes for a call on an accepted connection. *)
Variable call_context : conn -> unixCreds -> context.

(** The library hands every call the authentication data of its handshake. *)
Hypothesis call_context_peer : forall c uc, ctx_peer (call_context c uc) = Some (UnixAuth uc).

(** A registered method is unary or streaming; the server runs the unary interceptor of
    [NewAuthenticatedServer] around the first and the stream interceptor around the
    second. *)
Variant method :=
| UnaryMethod (handler : context -> Req -> W -> Resp * W)
| StreamMethod (handler : context * Req -> W -> Resp * W).

(** The handler of the method on a context. *)
Definition run_handler (m : method) (ctx : context) (req : Req) (w : W) : Resp * W :=
  match m with UnaryMethod h => h ctx req w | StreamMethod h => h (ctx, req) w end.

Definition intercepted (allowedUIDs : gset Z) (m : method) (ctx : context) (req : Req) (w : W) : result status Resp * W :=
  match m with
  | UnaryMethod h => unary allowedUIDs ctx req h w
  | StreamMethod h => stream allowedUIDs (ctx, req) h w
  end.

(** A call that arrives on a connection of a server for [allowedUIDs]: nothing of it is
    seen when the handshake fails. *)
Definition call (allowedUIDs : gset Z) (c : conn) (m : method) (req : Req) (w : W) : option (result status Resp) * W :=
  match ServerHandshake c with
  | Err _ => (None, w)
  | Ok (c', uc) => let '(r, w') := intercepted allowedUIDs m (call_context c' uc) req w in (Some r, w')
  end.

(** Both interceptors run the handler exactly for a peer of the set, with its user in
    the context. *)
Lemma intercepted_cases allowedUIDs m ctx req w :
  intercepted allowedUIDs m ctx req w =
    match checkPeer ctx allowedUIDs with
    | Err e => (Err e, w)
    | Ok u => let '(r, w') := run_handler m (mkCtx (ctx_peer ctx) (Some u)) req w in (Ok r, w')
    end.
Proof. by destruct m. Qed.

(** C28: A handler of one of the agent's own gRPC sockets, unary or streaming, runs only
    for a process of the root user, on a Unix socket whose credentials the kernel gave,
    and it reads that user from its context; every other call leaves the node as it
    was.  The dataplane daemon's socket is another server, without this check. *)
Theorem only_root_reaches_handlers c m req w r w' :
  call server_uids c m req w = (r, w') ->
  match r with
  | Some (Ok resp) => exists uc ctx, peerCredFromConn c = Ok uc /\ uid uc = 0 /\ PeerUID ctx = Some 0 /\
      run_handler m ctx req w = (resp, w')
  | Some (Err e) => w' = w /\ e = PermissionDenied /\ exists uc, peerCredFromConn c = Ok uc /\ uid uc <> 0
  | None => w' = w /\ exists e, peerCredFromConn c = Err e
  end.
Proof.
  unfold call, ServerHandshake. destruct (peerCredFromConn c) as [uc|e] eqn:E.
  - rewrite intercepted_cases. unfold checkPeer. rewrite call_context_peer. cbn [extractUID].
    destruct (decide (uid uc ∈ server_uids)) as [Hin|Hn].
    + assert (uid uc = 0) as H0 by set_solver. destruct (run_handler m _ req w) as [resp w''] eqn:Eh.
      intros [= <- <-]. exists uc, (mkCtx (Some (UnixAuth uc)) (Some (uid uc))). rewrite H0 in *. by rewrite Eh.
    + intros [= <- <-]. split; [done|]. split; [done|]. exists uc. split; [done|]. set_solver.
  - intros [= <- <-]. eauto.
Qed.
End served.

(** A streaming call of a root process, and one of the user 1000. *)
Definition stream_count : @method Z Z Z := StreamMethod (fun ss w => (ss.2, w + 1)).

Lemma only_root_reaches_handlers_witness :
  (exists uc ctx, peerCredFromConn (UnixConn true true 7 (Some (mkCreds 0 0 42))) = Ok uc /\ uid uc = 0 /\ PeerUID ctx = Some 0 /\
    run_handler stream_count ctx 5 0 = (5, 1)) /\
  (exists uc, peerCredFromConn (UnixConn true true 7 (Some (mkCreds 1000 0 42))) = Ok uc /\ uid uc <> 0).
Proof.
  split.
  - apply (only_root_reaches_handlers (fun _ uc => mkCtx (Some (UnixAuth uc)) None) (fun _ _ => eq_refl)
             (UnixConn true true 7 (Some (mkCreds 0 0 42))) stream_count 5 0 (Some (Ok 5)) 1).
    reflexivity.
  - apply (only_root_reaches_handlers (fun _ uc => mkCtx (Some (UnixAuth uc)) None) (fun _ _ => eq_refl)
             (UnixConn true true 7 (Some (mkCreds 1000 0 42))) stream_count 5 0 (Some (Err PermissionDenied)) 0).
    reflexivity.
Defined.
End GrpcAuth.

(** * Informer events *)

Module K8sWatchers.

(** Objects as the informers hand them over; a pod is a pointer. *)
Record Pod := mkPod { pod_key : string; NodeName : string }.

Variant obj :=
| ObjNode (name : string)
| ObjPod (p : option Pod)
| ObjNamespace (name : string)
| ObjNetworkPolicy (name : string)
| ObjOther.

(** What an informer delivers: an object, or on deletion a tombstone around one. *)
Variant delivered := Plain (o : obj) | DeletedFinalStateUnknown (o : obj).

Variant event (T : Type) := EvAdd (o : T) | EvUpdate (old cur : T) | EvDelete (o : T).
Arguments EvAdd {T} o.
Arguments EvUpdate {T} old cur.
Arguments EvDelete {T} o.

(** Which of the three callbacks are set. *)
Record callbacks := mkCb { on_add : bool; on_update : bool; on_delete : bool }.

(** The call an informer event makes, if any. *)
Definition addEventHandler {T} (extract : obj -> option T) (cb : callbacks) (e : event delivered) : option (event T) :=
  let get (d : delivered) := match d with Plain o => extract o | DeletedFinalStateUnknown _ => None end in
  match e with
  | EvAdd o => if on_add cb then EvAdd <$> get o else None
  | EvUpdate old cur =>
      if on_update cb then
        match get old, get cur with Some a, Some b => Some (EvUpdate a b) | _, _ => None end
      else None
  | EvDelete o =>
      if on_delete cb then
        EvDelete <$> match get o with
                     | Some t => Some t
                     | None => match o with DeletedFinalStateUnknown o' => extract o' | Plain _ => None end
                     end
      else None
  end.

Definition extractNode (o : obj) : option string := match o with ObjNode n => Some n | _ => None end.
Definition extractNamespace (o : obj) : option string := match o with ObjNamespace n => Some n | _ => None end.
Definition extractNetworkPolicy (o : obj) : option string := match o with ObjNetworkPolicy n => Some n | _ => None end.

Definition isLocalPod (nodeName : string) (p : Pod) : bool := bool_decide (NodeName p = nodeName).

Variant side := Local | Remote.

Definition as_pod (d : delivered) : option (option Pod) := match d with Plain (ObjPod p) => Some p | _ => None end.

(** The side whose callback is called; [isLocalPod] reads the pod. *)
Definition pod_side (nodeName : string) (loc rem : callbacks) (set : callbacks -> bool) (p : option Pod)
    : outcome (option side) :=
  match p with
  | None => Panic
  | Some p => Val (if isLocalPod nodeName p then if set loc then Some Local else None
                   else if set rem then Some Remote else None)
  end.

Definition registerPodHandlers (nodeName : string) (loc rem : callbacks) (e : event delivered)
    : outcome (option (side * event (option Pod))) :=
  let call set p ev := match pod_side nodeName loc rem set p with
                       | Val s => Val ((fun s => (s, ev)) <$> s)
                       | Panic => Panic
                       | Diverge => Diverge
                       end in
  match e with
  | EvAdd o => match as_pod o with None => Val None | Some p => call on_add p (EvAdd p) end
  | EvUpdate old cur =>
      match as_pod old, as_pod cur with
      | Some po, Some pc => call on_update pc (EvUpdate po pc)
      | _, _ => Val None
      end
  | EvDelete o =>
      match (match as_pod o with
             | Some p => Some p
             | None => match o with DeletedFinalStateUnknown o' => as_pod (Plain o') | Plain _ => None end
             end) with
      | Some (Some p) => call on_delete (Some p) (EvDelete (Some p))
      | _ => Val None
      end
  end.

(** The first informer whose cache did not fill, in the iteration order of the map. *)
Definition WaitForSync {MI : MapIter} (synced : gmap string bool) : option string :=
  (fun r => r.2.1) <$> list_find (fun x => x.2 = false) (iter synced).

(** ** The life of a pod *)

Definition all_set : callbacks := mkCb true true true.
Definition pod_at (p : Pod) : delivered := Plain (ObjPod (Some p)).

(** A pod seen first as [v], then through the versions [vs], and deleted; the deletion
    may have been missed and arrive as a tombstone. *)
Fixpoint updates (v : Pod) (vs : list Pod) : list (event delivered) :=
  match vs with
  | [] => []
  | v' :: r => EvUpdate (pod_at v) (pod_at v') :: updates v' r
  end.

Definition lifecycle (v : Pod) (vs : list Pod) (tomb : bool) : list (event delivered) :=
  let final := default v (last vs) in
  EvAdd (pod_at v) :: updates v vs ++ [EvDelete (if tomb then DeletedFinalStateUnknown (ObjPod (Some final)) else pod_at final)].

Definition calls (nodeName : string) (es : list (event delivered)) : list (outcome (option (side * event (option Pod)))) :=
  registerPodHandlers nodeName all_set all_set <$> es.

Definition side_of (nodeName : string) (p : Pod) : side := if isLocalPod nodeName p then Local else Remote.

Fixpoint update_calls (nodeName : string) (v : Pod) (vs : list Pod) : list (outcome (option (side * event (option Pod)))) :=
  match vs with
  | [] => []
  | v' :: r => Val (Some (side_of nodeName v', EvUpdate (Some v) (Some v'))) :: update_calls nodeName v' r
  end.

Lemma updates_dispatched n vs : forall v, calls n (updates v vs) = update_calls n v vs.
Proof.
  induction vs as [|v' r IH]; intros v; [done|]. unfold calls in *. cbn [updates fmap list_fmap update_calls].
  f_equal; [|apply IH]. unfold side_of. cbn. by destruct (isLocalPod n v').
Qed.

(** Every event of a pod makes one call, on the side its newest version belongs to: the
    sides of the addition and of the deletion are those of the first and of the last
    version, whatever the events between them were. *)
Theorem lifecycle_dispatched n v vs tomb :
  calls n (lifecycle v vs tomb) =
  Val (Some (side_of n v, EvAdd (Some v))) :: update_calls n v vs ++
  [Val (Some (side_of n (default v (last vs)), EvDelete (Some (default v (last vs)))))].
Proof.
  unfold lifecycle. set (f := default v (last vs)). pose proof (updates_dispatched n vs v) as Hu. unfold calls in *.
  rewrite fmap_cons, fmap_app, Hu. unfold side_of. f_equal; [cbn; by destruct (isLocalPod n v)|]. f_equal.
  destruct tomb; cbn; by destruct (isLocalPod n f).
Qed.

(** A pod created before it is scheduled is never added on its own node: there it is
    updated and deleted only, while the other side keeps an addition it never takes back. *)
Theorem unscheduled_pod_never_added n v v' :
  NodeName v <> n -> NodeName v' = n ->
  calls n (lifecycle v [v'] false) =
  [Val (Some (Remote, EvAdd (Some v))); Val (Some (Local, EvUpdate (Some v) (Some v'))); Val (Some (Local, EvDelete (Some v')))].
Proof.
  intros H1 H2. unfold calls, lifecycle. cbn. unfold isLocalPod. rewrite (bool_decide_eq_false_2 _ H1), (bool_decide_eq_true_2 _ H2).
  done.
Qed.

Lemma unscheduled_pod_never_added_witness :
  calls "n1" (lifecycle (mkPod "default/a" "") [mkPod "default/a" "n1"] false) =
  [Val (Some (Remote, EvAdd (Some (mkPod "default/a" "")))); Val (Some (Local, EvUpdate (Some (mkPod "default/a" "")) (Some (mkPod "default/a" "n1"))));
   Val (Some (Local, EvDelete (Some (mkPod "default/a" "n1"))))].
Proof. apply (unscheduled_pod_never_added "n1" (mkPod "default/a" "") (mkPod "default/a" "n1")); [discriminate|reflexivity]. Defined.
End K8sWatchers.
