(* ===== verification/PodNetwork.v ===== *)
(** The network of a pod, internal/cni/netns_linux.go: the veth pair between the host
    and the pod's namespace, the configuration inside the namespace and the route on the
    host.  The kernel may refuse any call; a call it accepts has its documented effect
    and a call it refuses has none. *)

From Stdlib Require Import ZArith Lia Ascii String.
From stdpp Require Import base tactics list gmap strings fin_maps.
From S2P Require Import Prelude GoStrings GoMap GoNet GoCidr.

(** * The kernel *)

(** A link of the host. *)
Record iface := mkIface { index : Z; hw : list Z; up : bool }.

(** A route inside a namespace: to a network on the link, or the default route. *)
Variant pod_route := OnLink (dst : IP) (ones : Z) | DefaultVia (gw : IP).

(** A link inside a pod's namespace with everything that goes away with it. *)
Record pod_link := mkPodLink {
  pl_hw : list Z; pl_up : bool; pl_addrs : list (IP * Z); pl_neigh : list (IP * list Z); pl_routes : list pod_route }.

Record namespace := mkNs { ns_lo_up : bool; ns_links : gmap string pod_link }.

(** The host: its links, for each veth the namespace (if it has left the host) and the
    name of its peer, the routes to single addresses, the settings of interfaces, and the
    namespaces by path. *)
Record net := mkNet {
  links : gmap string iface; peers : gmap string (option string * string); host_routes : gmap IP Z;
  sysctls : gmap (string * string) string; spaces : gmap string namespace }.

Variant call :=
| LinkAdd (name : string) (mac : list Z) (peer : string) (peerMAC : list Z)
| LinkDel (name : string)
| LinkByName (name : string)
| LinkSetNs (name path : string)
| LinkSetUp (name : string)
| OpenNs (path : string)
| WriteSysctl (name knob value : string)
| NsHandle (path : string)
| NsLinkByName (path name : string)
| NsAddrAdd (path name : string) (ip : IP) (ones : Z)
| NsLinkSetUp (path name : string)
| NsNeighAdd (path name : string) (ip : IP) (mac : list Z)
| NsRouteAdd (path name : string) (r : pod_route)
| RouteReplace (dst : IP) (ifindex : Z)
| RouteDel (dst : IP).

Definition with_links l n := mkNet l (peers n) (host_routes n) (sysctls n) (spaces n).
Definition with_routes r n := mkNet (links n) (peers n) r (sysctls n) (spaces n).
Definition with_spaces s n := mkNet (links n) (peers n) (host_routes n) (sysctls n) s.

(** A change of one link inside a namespace. *)
Definition in_space (path name : string) (f : pod_link -> pod_link) (n : net) : net :=
  with_spaces (alter (fun ns => mkNs (ns_lo_up ns) (alter f name (ns_links ns))) path (spaces n)) n.

(** Deleting a veth deletes its peer, wherever it is, and what refers to the link. *)
Definition link_del (name : string) (n : net) : net :=
  match links n !! name with
  | None => n
  | Some f =>
      let rest := delete name (links n) in
      let '(l, s) := match peers n !! name with
                     | Some (None, p) => (delete p rest, spaces n)
                     | Some (Some path, p) => (rest, alter (fun ns => mkNs (ns_lo_up ns) (delete p (ns_links ns))) path (spaces n))
                     | None => (rest, spaces n)
                     end in
      mkNet l (delete name (peers n)) (filter (fun r => r.2 <> index f) (host_routes n))
        (filter (fun x => x.1.1 <> name) (sysctls n)) s
  end.

Definition link_set_ns (name path : string) (n : net) : net :=
  match links n !! name with
  | None => n
  | Some f =>
      mkNet (delete name (links n))
        ((fun x => if decide (x = (None, name)) then (Some path, name) else x) <$> peers n) (host_routes n) (sysctls n)
        (alter (fun ns => mkNs (ns_lo_up ns) (<[name := mkPodLink (hw f) false [] [] []]> (ns_links ns))) path (spaces n))
  end.

(** The kernel: which calls it accepts, and the indices it gives to new links.  It does
    not create a link whose name or whose peer's name is taken, finds only links that are
    there, opens only namespaces that are there, and does not move a link to a namespace
    that has one of its name. *)
Class Kernel := {
  accepts : call -> net -> bool;
  new_index : net -> Z;
  accepts_add name mac peer pmac n : accepts (LinkAdd name mac peer pmac) n = true ->
    links n !! name = None /\ links n !! peer = None /\ name <> peer;
  accepts_by_name name n : accepts (LinkByName name) n = true -> is_Some (links n !! name);
  accepts_move name path n : accepts (LinkSetNs name path) n = true ->
    exists ns, spaces n !! path = Some ns /\ ns_links ns !! name = None;
  new_index_fresh n name f : links n !! name = Some f -> index f <> new_index n }.

Section pod_network.
Context {KN : Kernel}.

Definition effect (c : call) (n : net) : net :=
  match c with
  | LinkAdd name mac peer pmac =>
      mkNet (<[name := mkIface (new_index n) mac false]> (<[peer := mkIface (new_index n + 1) pmac false]> (links n)))
        (<[name := (None, peer)]> (peers n)) (host_routes n) (sysctls n) (spaces n)
  | LinkDel name => link_del name n
  | LinkByName _ | OpenNs _ | NsHandle _ | NsLinkByName _ _ => n
  | LinkSetNs name path => link_set_ns name path n
  | LinkSetUp name => with_links (alter (fun f => mkIface (index f) (hw f) true) name (links n)) n
  | WriteSysctl name knob value => mkNet (links n) (peers n) (host_routes n) (<[(name, knob) := value]> (sysctls n)) (spaces n)
  | NsAddrAdd path name ip ones =>
      in_space path name (fun l => mkPodLink (pl_hw l) (pl_up l) (pl_addrs l ++ [(ip, ones)]) (pl_neigh l) (pl_routes l)) n
  | NsLinkSetUp path name =>
      if String.eqb name "lo" then
        with_spaces (alter (fun ns => mkNs true (ns_links ns)) path (spaces n)) n
      else in_space path name (fun l => mkPodLink (pl_hw l) true (pl_addrs l) (pl_neigh l) (pl_routes l)) n
  | NsNeighAdd path name ip mac =>
      in_space path name (fun l => mkPodLink (pl_hw l) (pl_up l) (pl_addrs l) (pl_neigh l ++ [(ip, mac)]) (pl_routes l)) n
  | NsRouteAdd path name r =>
      in_space path name (fun l => mkPodLink (pl_hw l) (pl_up l) (pl_addrs l) (pl_neigh l) (pl_routes l ++ [r])) n
  | RouteReplace dst ifindex => with_routes (<[dst := ifindex]> (host_routes n)) n
  | RouteDel dst => with_routes (delete dst (host_routes n)) n
  end.

Definition run (c : call) (n : net) : net * bool := if accepts c n then (effect c n, true) else (n, false).

(** * The operations *)

Inductive cni_error :=
| ErrRandom | ErrLinkAdd | ErrOpenNs | ErrFindPeer | ErrMove | ErrFindHost | ErrHostUp | ErrGetNs | ErrNsHandle
| ErrNsFind | ErrAddr | ErrPodUp | ErrNeigh | ErrGwRoute | ErrDefault | ErrHostRoute.

Abbreviation M A := (net -> net * result cni_error A).

(** A call whose failure ends the operation, and one whose failure is only logged. *)
Definition must (c : call) (e : cni_error) : M unit :=
  fun n => let '(n', ok) := run c n in (n', if ok : bool then Ok tt else Err e).
Definition may (c : call) : M unit := fun n => ((run c n).1, Ok tt).
Definition ret {A} (a : A) : M A := fun n => (n, Ok a).
Definition bind {A B} (m : M A) (f : A -> M B) : M B :=
  fun n => match m n with (n', Ok a) => f a n' | (n', Err e) => (n', Err e) end.
Notation "m ;; k" := (bind m (fun _ => k)) (at level 100, right associativity).

Definition find_link (name : string) (e : cni_error) : M Z :=
  fun n => let '(n', ok) := run (LinkByName name) n in
    (n', match links n !! name with
         | Some f => if ok : bool then Ok (index f) else Err e
         | None => Err e
         end).

(** The bytes of a host address are random; two bits of the first are fixed. *)
Definition generateHostMAC (rand : option (list Z)) : option (list Z) :=
  match rand with
  | Some (b :: rest) => Some (Z.land (Z.lor b 2) 254 :: rest)
  | _ => None
  end.

Definition configureInNetns (path ifName : string) (podIP gateway : IP) (hostMAC : list Z) : M unit :=
  must (NsHandle path) ErrNsHandle ;;
  must (NsLinkByName path ifName) ErrNsFind ;;
  must (NsAddrAdd path ifName podIP 32) ErrAddr ;;
  must (NsLinkSetUp path ifName) ErrPodUp ;;
  (fun n => if accepts (NsLinkByName path "lo") n then may (NsLinkSetUp path "lo") n else ret tt n) ;;
  must (NsNeighAdd path ifName gateway hostMAC) ErrNeigh ;;
  must (NsRouteAdd path ifName (OnLink gateway 32)) ErrGwRoute ;;
  must (NsRouteAdd path ifName (DefaultVia gateway)) ErrDefault.

(** Everything between the creation of the pair and the end. *)
Definition wire_pod (netnsPath podIfName hostVethName : string) (podIP gateway : IP) (hostMAC : list Z) : M Z :=
  must (OpenNs netnsPath) ErrOpenNs ;;
  find_link podIfName ErrFindPeer ;;
  must (LinkSetNs podIfName netnsPath) ErrMove ;;
  bind (find_link hostVethName ErrFindHost) (fun ifindex =>
  must (LinkSetUp hostVethName) ErrHostUp ;;
  may (WriteSysctl hostVethName "proxy_arp" "1") ;;
  may (WriteSysctl hostVethName "rp_filter" "0") ;;
  must (OpenNs netnsPath) ErrGetNs ;;
  configureInNetns netnsPath podIfName podIP gateway hostMAC ;;
  must (RouteReplace podIP ifindex) ErrHostRoute ;;
  ret ifindex).

(** After the pair exists every failure deletes it again; a failure of that is ignored. *)
Definition SetupPodNetwork (rand : option (list Z)) (netnsPath podIfName hostVethName : string) (podIP gateway : IP) (mac : list Z)
    : M Z :=
  fun n =>
  match generateHostMAC rand with
  | None => (n, Err ErrRandom)
  | Some hostMAC =>
      match must (LinkAdd hostVethName hostMAC podIfName mac) ErrLinkAdd n with
      | (n1, Err e) => (n1, Err e)
      | (n1, Ok _) =>
          match wire_pod netnsPath podIfName hostVethName podIP gateway hostMAC n1 with
          | (n2, Err e) => ((run (LinkDel hostVethName) n2).1, Err e)
          | (n2, Ok ifindex) => (n2, Ok ifindex)
          end
      end
  end.

Definition CleanupPodNetwork (hostVethName : string) (podIP : option IP) (n : net) : net :=
  let n1 := match podIP with Some ip => (run (RouteDel ip) n).1 | None => n end in
  if accepts (LinkByName hostVethName) n1 then (run (LinkDel hostVethName) n1).1 else n1.

(** * What a setup leaves behind *)

(** Routes, settings and pairs belong to links that are there. *)
Record host_ok (n : net) : Prop := {
  ok_routes : forall ip i, host_routes n !! ip = Some i -> exists name f, links n !! name = Some f /\ index f = i;
  ok_sysctls : forall name knob, is_Some (sysctls n !! (name, knob)) -> is_Some (links n !! name);
  ok_peers : forall name, is_Some (peers n !! name) -> is_Some (links n !! name);
  ok_single : forall h p x, peers n !! h = Some (x, p) -> x = None -> is_Some (links n !! p) }.

(** Two hosts that agree but for the loopback of namespaces. *)
Definition same_host (n n' : net) : Prop :=
  links n' = links n /\ peers n' = peers n /\ host_routes n' = host_routes n /\ sysctls n' = sysctls n /\
  forall path, ns_links <$> spaces n' !! path = ns_links <$> spaces n !! path.

(** The host [n0] with a pair: the host end [f], the other end in namespace [path] with
    configuration [pl]. *)
Record wired (n0 : net) (h path p : string) (f : iface) (pl : pod_link) (n : net) : Prop := {
  wi_links : links n = <[h := f]> (links n0);
  wi_peers : peers n = <[h := (Some path, p)]> (peers n0);
  wi_routes : host_routes n = host_routes n0;
  wi_sysctls : forall name knob, name <> h -> sysctls n !! (name, knob) = sysctls n0 !! (name, knob);
  wi_space : exists lo ns0, spaces n0 !! path = Some ns0 /\ ns_links ns0 !! p = None /\
    spaces n !! path = Some (mkNs lo (<[p := pl]> (ns_links ns0)));
  wi_other : forall q, q <> path -> spaces n !! q = spaces n0 !! q }.

Context (n0 : net) (h path p : string).
Hypothesis Hok : host_ok n0.
Hypothesis Hfree : links n0 !! h = None.

Lemma no_peer_entry : peers n0 !! h = None.
Proof. destruct (peers n0 !! h) eqn:E; [|done]. destruct (ok_peers _ Hok h) as [? ?]; [by rewrite E|congruence]. Qed.

Lemma no_sysctl knob : sysctls n0 !! (h, knob) = None.
Proof. destruct (sysctls n0 !! (h, knob)) eqn:E; [|done]. destruct (ok_sysctls _ Hok h knob) as [? ?]; [by rewrite E|congruence]. Qed.

Lemma routes_kept i : (forall name f, links n0 !! name = Some f -> index f <> i) ->
  filter (fun r => r.2 <> i) (host_routes n0) = host_routes n0.
Proof.
  intros Hi. apply map_filter_id. intros ip j Hj. destruct (ok_routes _ Hok ip j Hj) as (name & f & Hl & <-). cbn. by apply (Hi name).
Qed.

Lemma sysctls_kept (m : gmap (string * string) string) :
  (forall name knob, name <> h -> m !! (name, knob) = sysctls n0 !! (name, knob)) ->
  filter (fun x => x.1.1 <> h) m = sysctls n0.
Proof.
  intros Hm. apply map_eq. intros [name knob]. destruct (decide (name = h)) as [->|Hn].
  - rewrite no_sysctl. apply map_lookup_filter_None. right. intros v _. cbn. tauto.
  - rewrite <- (Hm name knob Hn). destruct (m !! (name, knob)) eqn:E.
    + by apply map_lookup_filter_Some.
    + apply map_lookup_filter_None. by left.
Qed.

(** Deleting the host end restores the host. *)
Lemma wired_deleted f pl n :
  wired n0 h path p f pl n -> (forall name f', links n0 !! name = Some f' -> index f' <> index f) ->
  same_host n0 (link_del h n).
Proof.
  intros [Hl Hp Hr Hs (lo & ns & Hns & Hfr & Hns') Ho] Hi. unfold link_del. rewrite Hl, Hp, !lookup_insert_eq. unfold same_host. cbn.
  rewrite delete_insert_id by done. rewrite (delete_insert_id (peers n0)) by apply no_peer_entry.
  rewrite Hr, routes_kept, sysctls_kept by done. do 4 (split; [done|]).
  intros q. destruct (decide (q = path)) as [->|Hq].
  - rewrite lookup_alter_eq, Hns, Hns'. cbn. by rewrite delete_insert_id.
  - by rewrite lookup_alter_ne, Ho.
Qed.

(** ** Steps of a setup *)

(** [m] run where [P] holds ends where [Q] holds, or fails where [E] holds. *)
Definition triple {A} (P : net -> Prop) (m : M A) (Q : A -> net -> Prop) (E : net -> Prop) : Prop :=
  forall n, P n -> match m n with (n', Ok a) => Q a n' | (n', Err _) => E n' end.

Lemma triple_bind {A B} P (m : M A) (k : A -> M B) Q R E :
  triple P m Q E -> (forall a, triple (Q a) (k a) R E) -> triple P (bind m k) R E.
Proof. intros H1 H2 n HP. specialize (H1 n HP). unfold bind. destruct (m n) as [n' [a|e]]; [by apply H2|done]. Qed.

Lemma triple_must c e (P Q E : net -> Prop) :
  (forall n, P n -> accepts c n = true -> Q (effect c n)) -> (forall n, P n -> E n) ->
  triple P (must c e) (fun _ => Q) E.
Proof. intros H1 H2 n HP. unfold must, run. destruct (accepts c n) eqn:E'; [by apply H1|by apply H2]. Qed.

Lemma triple_may c (P E : net -> Prop) :
  (forall n, P n -> P (effect c n)) -> triple P (may c) (fun _ => P) E.
Proof. intros H n HP. unfold may, run. by destruct (accepts c n); [apply H|]. Qed.

Context (hostMAC mac : list Z).
Hypothesis Hpeer : links n0 !! p = None.
Hypothesis Hdiff : h <> p.

Definition i0 : Z := new_index n0.

(** The pair just created, both ends on the host. *)
Definition paired (n : net) : Prop := n = effect (LinkAdd h hostMAC p mac) n0.

Definition staged (on : bool) (pl : pod_link) (n : net) : Prop := wired n0 h path p (mkIface i0 hostMAC on) pl n.

Definition undoable (n : net) : Prop := is_Some (links n !! h) /\ same_host n0 (link_del h n).

Lemma paired_undoable n : paired n -> undoable n.
Proof.
  intros ->. unfold undoable, link_del, same_host. cbn. rewrite !lookup_insert_eq. split; [by eexists|]. cbn.
  rewrite delete_insert_id by (by rewrite lookup_insert_ne). rewrite delete_insert_id by done.
  rewrite delete_insert_id by apply no_peer_entry. split; [done|]. split; [done|]. split; [|split; [|done]].
  - apply routes_kept. intros name f. apply new_index_fresh.
  - by apply sysctls_kept.
Qed.

Lemma staged_undoable on pl n : staged on pl n -> undoable n.
Proof.
  intros Hs. split.
  - rewrite (wi_links _ _ _ _ _ _ _ Hs), lookup_insert_eq. by eexists.
  - apply (wired_deleted _ _ _ Hs). intros name f. apply new_index_fresh.
Qed.

Lemma moved_staged n : paired n -> accepts (LinkSetNs p path) n = true -> staged false (mkPodLink mac false [] [] []) (effect (LinkSetNs p path) n).
Proof.
  intros -> Ha. destruct (accepts_move _ _ _ Ha) as (ns & Hns & Hfr). cbn in Hns. cbn [effect]. unfold link_set_ns. cbn.
  rewrite lookup_insert_ne, lookup_insert_eq by done. split; cbn; [| |done|done| |].
  - rewrite delete_insert_ne by done. by rewrite delete_insert_id.
  - rewrite fmap_insert. rewrite decide_True by done. f_equal. apply map_eq. intros x. rewrite lookup_fmap.
    destruct (peers n0 !! x) as [[o q]|] eqn:E; [|done]. cbn. f_equal. rewrite decide_False; [done|]. intros [= -> ->].
    destruct (ok_single _ Hok x p None E eq_refl) as [? ?]. congruence.
  - exists (ns_lo_up ns), ns. split; [done|]. split; [done|]. by rewrite lookup_alter_eq, Hns.
  - intros q Hq. by rewrite lookup_alter_ne.
Qed.

(** A change of the pod's link, or of the loopback, keeps the rest. *)
Lemma staged_in_space on pl n g : staged on pl n -> staged on (g pl) (in_space path p g n).
Proof.
  intros [Hl Hp Hr Hs (lo & ns & Hns & Hfr & Hns') Ho]. split; cbn; try done.
  - exists lo, ns. split; [done|]. split; [done|]. rewrite lookup_alter_eq, Hns'. cbn. do 2 f_equal. by rewrite alter_insert_eq.
  - intros q Hq. rewrite lookup_alter_ne by done. by apply Ho.
Qed.

Lemma staged_lo on pl n : staged on pl n -> staged on pl (effect (NsLinkSetUp path "lo") n).
Proof.
  intros [Hl Hp Hr Hs (lo & ns & Hns & Hfr & Hns') Ho]. split; cbn; try done.
  - exists true, ns. split; [done|]. split; [done|]. by rewrite lookup_alter_eq, Hns'.
  - intros q Hq. rewrite lookup_alter_ne by done. by apply Ho.
Qed.

Lemma staged_up on pl n : staged on pl n -> staged true pl (effect (LinkSetUp h) n).
Proof.
  intros [Hl Hp Hr Hs Hsp Ho]. split; cbn; try done. rewrite Hl. by rewrite alter_insert_eq.
Qed.

Lemma staged_sysctl on pl n knob v : staged on pl n -> staged on pl (effect (WriteSysctl h knob v) n).
Proof.
  intros [Hl Hp Hr Hs Hsp Ho]. split; cbn; try done. intros name k Hn. rewrite lookup_insert_ne by congruence. by apply Hs.
Qed.

Context (podIP gateway : IP).
Hypothesis Hlo : p <> "lo".

(** What a pod's link is after a complete setup. *)
Definition pod_wired : pod_link :=
  mkPodLink mac true [(podIP, 32)] [(gateway, hostMAC)] [OnLink gateway 32; DefaultVia gateway].

Lemma must_in_space c e on pl g : (forall n, effect c n = in_space path p g n) ->
  triple (staged on pl) (must c e) (fun _ => staged on (g pl)) undoable.
Proof. intros Hc. apply triple_must; [intros n Hn _; rewrite Hc; by apply staged_in_space|apply staged_undoable]. Qed.

Lemma must_idle c e on pl : (forall n, effect c n = n) -> triple (staged on pl) (must c e) (fun _ => staged on pl) undoable.
Proof. intros Hc. apply triple_must; [intros n Hn _; by rewrite Hc|apply staged_undoable]. Qed.

Lemma configure_spec on :
  triple (staged on (mkPodLink mac false [] [] [])) (configureInNetns path p podIP gateway hostMAC) (fun _ => staged on pod_wired) undoable.
Proof.
  unfold configureInNetns.
  eapply triple_bind; [by apply must_idle|intros ?; cbv beta]. eapply triple_bind; [by apply must_idle|intros ?; cbv beta].
  eapply triple_bind; [by apply must_in_space|intros ?; cbv beta].
  eapply triple_bind.
  { apply (must_in_space _ _ _ _ (fun l => mkPodLink (pl_hw l) true (pl_addrs l) (pl_neigh l) (pl_routes l))).
    intros n. cbn [effect]. by rewrite (proj2 (String.eqb_neq p "lo") Hlo). }
  intros ?; cbv beta. eapply (triple_bind _ _ _ (fun _ => staged on (mkPodLink mac true [(podIP, 32)] [] []))).
  { intros n Hn. destruct (accepts (NsLinkByName path "lo") n); [|exact Hn].
    apply (triple_may _ _ undoable (fun n => staged_lo on _ n) n Hn). }
  intros ?; cbv beta. eapply triple_bind; [by apply must_in_space|intros ?; cbv beta]. eapply triple_bind; [by apply must_in_space|intros ?; cbv beta].
  exact (must_in_space (NsRouteAdd path p (DefaultVia gateway)) ErrDefault on
    (mkPodLink mac true [(podIP, 32)] [(gateway, hostMAC)] [OnLink gateway 32])
    (fun l => mkPodLink (pl_hw l) (pl_up l) (pl_addrs l) (pl_neigh l) (pl_routes l ++ [DefaultVia gateway])) (fun _ => eq_refl)).
Qed.

(** The host with a complete pod. *)
Definition complete (n : net) : Prop :=
  exists n', staged true pod_wired n' /\ n = with_routes (<[podIP := i0]> (host_routes n0)) n'.

Lemma wire_spec :
  triple paired (wire_pod path p h podIP gateway hostMAC) (fun i n => i = i0 /\ complete n) undoable.
Proof.
  unfold wire_pod.
  eapply (triple_bind _ _ _ (fun _ => paired)); [apply triple_must; [done|apply paired_undoable]|intros ?; cbv beta].
  eapply (triple_bind _ _ _ (fun _ => paired)).
  { intros n Hn. unfold find_link, run. destruct (accepts _ n), (links n !! p); try done; by apply paired_undoable. }
  intros ?; cbv beta. eapply triple_bind; [apply triple_must; [apply moved_staged|apply paired_undoable]|intros ?; cbv beta].
  eapply (triple_bind _ _ _ (fun i n => i = i0 /\ staged false (mkPodLink mac false [] [] []) n)).
  { intros n Hn. unfold find_link, run. rewrite (wi_links _ _ _ _ _ _ _ Hn), lookup_insert_eq.
    destruct (accepts _ n); [done|by eapply staged_undoable]. }
  intros i n [-> Hn]. revert n Hn. change (triple (staged false (mkPodLink mac false [] [] []))
    (bind (must (LinkSetUp h) ErrHostUp) (fun _ => bind (may (WriteSysctl h "proxy_arp" "1")) (fun _ => bind (may (WriteSysctl h "rp_filter" "0"))
      (fun _ => bind (must (OpenNs path) ErrGetNs) (fun _ => bind (configureInNetns path p podIP gateway hostMAC)
      (fun _ => bind (must (RouteReplace podIP i0) ErrHostRoute) (fun _ => ret i0))))))) (fun i n => i = i0 /\ complete n) undoable).
  eapply triple_bind; [apply triple_must; [intros n Hn _; by apply (staged_up _ _ _ Hn)|apply staged_undoable]|intros ?; cbv beta].
  eapply triple_bind; [apply triple_may; intros n; apply staged_sysctl|intros ?; cbv beta].
  eapply triple_bind; [apply triple_may; intros n; apply staged_sysctl|intros ?; cbv beta].
  eapply triple_bind; [by apply must_idle|intros ?; cbv beta]. eapply triple_bind; [apply configure_spec|intros ?; cbv beta].
  eapply (triple_bind _ _ _ (fun _ => complete)); [|intros ? n Hn; by split].
  apply triple_must; [|apply staged_undoable]. intros n Hn _. exists n. split; [done|]. cbn. by rewrite <- (wi_routes _ _ _ _ _ _ _ Hn).
Qed.
End pod_network.

(** * Theorems *)

Lemma link_del_routes r h n f :
  links n !! h = Some f -> link_del h (with_routes r n) = with_routes (filter (fun x => x.2 <> index f) r) (link_del h n).
Proof.
  intros Hf. unfold link_del. cbn. rewrite Hf. by destruct (peers n !! h) as [[[q|] x]|].
Qed.

(** The outcomes of a setup: the host with a complete pod, or the host as it was but for
    a pair whose deletion was tried. *)
Lemma setup_cases {KN : Kernel} rand path p h podIP gateway mac n n' r :
  host_ok n -> p <> "lo" -> SetupPodNetwork rand path p h podIP gateway mac n = (n', r) ->
  match r with
  | Ok i => exists hm, generateHostMAC rand = Some hm /\ i = i0 n /\ links n !! h = None /\ complete n h path p hm mac podIP gateway n'
  | Err _ => n' = n \/ exists n2, undoable n h n2 /\ n' = (run (LinkDel h) n2).1
  end.
Proof.
  intros Hok Hlo. unfold SetupPodNetwork. destruct (generateHostMAC rand) as [hm|]; [|intros [= <- <-]; by left].
  unfold must, run at 1. destruct (accepts (LinkAdd h hm p mac) n) eqn:Ea; [|intros [= <- <-]; by left].
  destruct (accepts_add _ _ _ _ _ Ea) as (Hh & Hp & Hd).
  pose proof (wire_spec n h path p Hok Hh hm mac Hp Hd podIP gateway Hlo _ eq_refl) as Hw.
  destruct (wire_pod path p h podIP gateway hm _) as [n2 [i|e2]]; intros [= <- <-]; [|right; by exists n2].
  destruct Hw as [-> Hc]. by exists hm.
Qed.

(** A setup that fails takes the pair back: links, routes, settings and namespaces are
    those of before, at most a loopback is up, whichever call the kernel refused, if it
    lets the pair be deleted. *)
Theorem failed_setup_leaves_nothing {KN : Kernel} rand path p h podIP gateway mac n n' e :
  host_ok n -> p <> "lo" -> (forall m, is_Some (links m !! h) -> accepts (LinkDel h) m = true) ->
  SetupPodNetwork rand path p h podIP gateway mac n = (n', Err e) -> same_host n n'.
Proof.
  intros Hok Hlo Hdel E. apply setup_cases in E as [->|(n2 & [Hs Hsame] & ->)]; [done| |done|done]. unfold run. by rewrite Hdel.
Qed.

(** A setup that succeeds wires the pod: its link has the address alone on it, the
    gateway resolves to the host end of the pair and is the default route, the host end is
    up and the host's route to the pod's address leads there; nothing else on the host
    changed. *)
Theorem setup_wires_pod {KN : Kernel} rand path p h podIP gateway mac n n' i :
  host_ok n -> p <> "lo" -> SetupPodNetwork rand path p h podIP gateway mac n = (n', Ok i) ->
  exists hm ns, generateHostMAC rand = Some hm /\
    links n' = <[h := mkIface i hm true]> (links n) /\ links n !! h = None /\
    host_routes n' = <[podIP := i]> (host_routes n) /\
    spaces n' !! path = Some ns /\ ns_links ns !! p = Some (pod_wired hm mac podIP gateway).
Proof.
  intros Hok Hlo E. apply setup_cases in E as (hm & Hm & -> & Hh & n3 & [Hl _ Hr _ (lo & ns & _ & _ & Hns) _] & ->); [|done|done].
  exists hm, (mkNs lo (<[p := pod_wired hm mac podIP gateway]> (ns_links ns))). cbn. rewrite Hl, Hns.
  do 4 (split; [done|]). split; [done|]. by rewrite lookup_insert_eq.
Qed.

(** Cleaning up after a pod restores the host, also if the route could not be deleted on
    its own. *)
Theorem cleanup_restores_host {KN : Kernel} rand path p h podIP gateway mac n n' i :
  host_ok n -> p <> "lo" -> host_routes n !! podIP = None ->
  (forall m, is_Some (links m !! h) -> accepts (LinkByName h) m = true /\ accepts (LinkDel h) m = true) ->
  SetupPodNetwork rand path p h podIP gateway mac n = (n', Ok i) -> same_host n (CleanupPodNetwork h (Some podIP) n').
Proof.
  intros Hok Hlo Hnr Hdel E. apply setup_cases in E as (hm & Hm & -> & Hh & n3 & Hst & ->); [|done|done].
  destruct (staged_undoable n h path p Hok Hh hm _ _ _ Hst) as [_ Hsame].
  assert (filter (fun x => x.2 <> i0 n) (host_routes n) = host_routes n) as Hkeep.
  { apply (routes_kept n Hok). intros name f. apply new_index_fresh. }
  assert (forall r, filter (fun x => x.2 <> i0 n) r = host_routes n -> same_host n
    (if accepts (LinkByName h) (with_routes r n3) then (run (LinkDel h) (with_routes r n3)).1 else with_routes r n3)) as Hend.
  { intros r Hr. destruct (Hdel (with_routes r n3)) as [-> Hd2]; [by cbn; rewrite (wi_links _ _ _ _ _ _ _ Hst), lookup_insert_eq|].
    unfold run. rewrite Hd2. cbn [fst effect].
    rewrite (link_del_routes r h n3 (mkIface (i0 n) hm true)) by (by rewrite (wi_links _ _ _ _ _ _ _ Hst), lookup_insert_eq).
    destruct Hsame as (H1 & H2 & H3 & H4 & H5). by repeat split. }
  unfold CleanupPodNetwork. set (n4 := with_routes _ n3).
  assert (exists r, (run (RouteDel podIP) n4).1 = with_routes r n3 /\ filter (fun x => x.2 <> i0 n) r = host_routes n) as (r & -> & Hr); [|by apply Hend].
  unfold run. destruct (accepts (RouteDel podIP) n4); cbn [fst].
  - exists (host_routes n). split; [|done]. unfold n4. cbn. by rewrite delete_insert_id.
  - exists (<[podIP := i0 n]> (host_routes n)). split; [done|]. rewrite map_filter_insert_False by (cbn; tauto). by rewrite delete_id, Hkeep.
Qed.

(** The pod's end of the pair is created on the host under the name it has in the pod: on
    a host that has an interface of that name no pod can be set up. *)
Theorem host_interface_blocks_pods {KN : Kernel} rand hm path p h podIP gateway mac n :
  generateHostMAC rand = Some hm -> is_Some (links n !! p) ->
  SetupPodNetwork rand path p h podIP gateway mac n = (n, Err ErrLinkAdd).
Proof.
  intros Hm [f Hf]. unfold SetupPodNetwork, must, run. rewrite Hm. destruct (accepts (LinkAdd h hm p mac) n) eqn:Ea; [|done].
  destruct (accepts_add _ _ _ _ _ Ea) as (_ & Hp & _). congruence.
Qed.

(** The generated hardware address is a locally administered unicast address. *)
Theorem host_mac_local b rest :
  0 <= b < 256 -> exists c, generateHostMAC (Some (b :: rest)) = Some (c :: rest) /\
    0 <= c < 256 /\ Z.testbit c 0 = false /\ Z.testbit c 1 = true.
Proof.
  intros Hb. exists (Z.land (Z.lor b 2) 254). split; [done|].
  split; [|by rewrite !Z.land_spec, !Z.lor_spec; destruct (Z.testbit b 0), (Z.testbit b 1)].
  assert (0 <= Z.land (Z.lor b 2) 254) by (apply Z.land_nonneg; right; done). split; [done|].
  assert (Z.land (Z.lor b 2) 254 = Z.land (Z.land (Z.lor b 2) 254) (Z.ones 8)) as ->.
  { rewrite <- Z.land_assoc. reflexivity. }
  rewrite Z.land_ones by lia. by apply Z.mod_pos_bound.
Qed.

(** * A kernel *)

Definition name_free (m : gmap string iface) (s : string) : bool := bool_decide (m !! s = None).

(** A kernel that refuses what it must and what [refuses] names. *)
Definition can (refuses : call -> bool) (c : call) (n : net) : bool :=
  negb (refuses c) &&
  match c with
  | LinkAdd name _ peer _ => name_free (links n) name && name_free (links n) peer && negb (String.eqb name peer)
  | LinkByName name => negb (name_free (links n) name)
  | LinkSetNs name path => match spaces n !! path with Some ns => bool_decide (ns_links ns !! name = None) | None => false end
  | _ => true
  end.

Definition top_index (n : net) : Z := foldr Z.max 0 ((fun x => index x.2) <$> map_to_list (links n)) + 1.

Lemma below_max l (x : Z) : x ∈ l -> x <= foldr Z.max 0 l.
Proof. induction l as [|y r IH]; [by intros ?%elem_of_nil|]. intros [->|H]%elem_of_cons; cbn; [lia|specialize (IH H); lia]. Qed.

Lemma top_index_fresh n name f : links n !! name = Some f -> index f <> top_index n.
Proof.
  intros Hf. unfold top_index. assert (index f <= foldr Z.max 0 ((fun x => index x.2) <$> map_to_list (links n))); [|lia].
  apply below_max. apply list_elem_of_fmap. exists (name, f). split; [done|]. by apply elem_of_map_to_list.
Qed.

Lemma can_add refuses name mac peer pmac n : can refuses (LinkAdd name mac peer pmac) n = true ->
  links n !! name = None /\ links n !! peer = None /\ name <> peer.
Proof.
  unfold can, name_free. rewrite !andb_true_iff, !negb_true_iff, !bool_decide_eq_true, String.eqb_neq. tauto.
Qed.

Lemma can_find refuses name n : can refuses (LinkByName name) n = true -> is_Some (links n !! name).
Proof.
  unfold can, name_free. rewrite andb_true_iff, !negb_true_iff, bool_decide_eq_false. intros [_ H]. by apply not_eq_None_Some.
Qed.

Lemma can_move refuses name path n : can refuses (LinkSetNs name path) n = true ->
  exists ns, spaces n !! path = Some ns /\ ns_links ns !! name = None.
Proof.
  unfold can. rewrite andb_true_iff. intros [_ H]. destruct (spaces n !! path) as [ns|]; [|done].
  exists ns. by apply bool_decide_eq_true in H.
Qed.

Definition kernel (refuses : call -> bool) : Kernel :=
  {| accepts := can refuses; new_index := top_index; accepts_add := can_add refuses; accepts_by_name := can_find refuses;
     accepts_move := can_move refuses; new_index_fresh := top_index_fresh |}.

(** A host with one interface and one empty namespace. *)
Definition sample_host : net :=
  mkNet {["ens3" := mkIface 2 [2; 0; 0; 0; 0; 9] true]} ∅ ∅ ∅ {["/run/netns/a" := mkNs false ∅]}.

Lemma sample_host_ok : host_ok sample_host.
Proof. split; intros *; cbn; rewrite lookup_empty; try done; intros [? ?]; done. Qed.

(** Namespaces cannot be opened, or routes not be added. *)
Definition no_routes (c : call) : bool := match c with NsRouteAdd _ _ (DefaultVia _) => true | _ => false end.
Definition nothing (_ : call) : bool := false.

Definition sample_setup (refuses : call -> bool) : net * result cni_error Z :=
  SetupPodNetwork (KN := kernel refuses) (Some [16; 1; 1; 1; 1; 1]) "/run/netns/a" "eth0" "nv0123456789a" [10; 244; 1; 2] [10; 244; 1; 1]
    [2; 254; 10; 244; 1; 2] sample_host.

Lemma sample_setup_result refuses r : (sample_setup refuses).2 = r ->
  SetupPodNetwork (KN := kernel refuses) (Some [16; 1; 1; 1; 1; 1]) "/run/netns/a" "eth0" "nv0123456789a" [10; 244; 1; 2] [10; 244; 1; 1]
    [2; 254; 10; 244; 1; 2] sample_host = ((sample_setup refuses).1, r).
Proof. intros <-. apply surjective_pairing. Qed.

Lemma kernel_deletes refuses h : refuses (LinkDel h) = false -> refuses (LinkByName h) = false ->
  forall m, is_Some (links m !! h) -> accepts (Kernel := kernel refuses) (LinkByName h) m = true /\ accepts (Kernel := kernel refuses) (LinkDel h) m = true.
Proof.
  intros H1 H2 m [f Hf]. cbn. unfold can, name_free. rewrite H1, H2, (bool_decide_eq_false_2 (links m !! h = None)) by congruence. done.
Qed.

Lemma failed_setup_leaves_nothing_witness :
  (sample_setup no_routes).2 = Err ErrDefault /\ same_host sample_host (sample_setup no_routes).1.
Proof.
  split; [vm_compute; reflexivity|].
  refine (failed_setup_leaves_nothing (KN := kernel no_routes) (Some [16; 1; 1; 1; 1; 1]) "/run/netns/a" "eth0" "nv0123456789a"
    [10; 244; 1; 2] [10; 244; 1; 1] [2; 254; 10; 244; 1; 2] sample_host _ ErrDefault sample_host_ok _ _ (sample_setup_result no_routes _ _)).
  - discriminate.
  - intros m Hm. by apply (kernel_deletes no_routes "nv0123456789a").
  - vm_compute. reflexivity.
Defined.

Lemma setup_wires_pod_witness : exists hm ns, generateHostMAC (Some [16; 1; 1; 1; 1; 1]) = Some hm /\
    links (sample_setup nothing).1 = <["nv0123456789a" := mkIface 3 hm true]> (links sample_host) /\
    links sample_host !! "nv0123456789a" = None /\
    host_routes (sample_setup nothing).1 = <[[10; 244; 1; 2] := 3]> (host_routes sample_host) /\
    spaces (sample_setup nothing).1 !! "/run/netns/a" = Some ns /\
    ns_links ns !! "eth0" = Some (pod_wired hm [2; 254; 10; 244; 1; 2] [10; 244; 1; 2] [10; 244; 1; 1]).
Proof.
  apply (setup_wires_pod (KN := kernel nothing) (Some [16; 1; 1; 1; 1; 1]) "/run/netns/a" "eth0" "nv0123456789a"
    [10; 244; 1; 2] [10; 244; 1; 1] [2; 254; 10; 244; 1; 2] sample_host _ 3 sample_host_ok); [discriminate|].
  apply sample_setup_result. vm_compute. reflexivity.
Defined.

Lemma cleanup_restores_host_witness :
  same_host sample_host (CleanupPodNetwork (KN := kernel nothing) "nv0123456789a" (Some [10; 244; 1; 2]) (sample_setup nothing).1).
Proof.
  apply (cleanup_restores_host (KN := kernel nothing) (Some [16; 1; 1; 1; 1; 1]) "/run/netns/a" "eth0" "nv0123456789a"
    [10; 244; 1; 2] [10; 244; 1; 1] [2; 254; 10; 244; 1; 2] sample_host _ 3 sample_host_ok).
  - discriminate.
  - reflexivity.
  - by apply kernel_deletes.
  - apply sample_setup_result. vm_compute. reflexivity.
Defined.

Lemma host_interface_blocks_pods_witness :
  SetupPodNetwork (KN := kernel nothing) (Some [16; 1; 1; 1; 1; 1]) "/run/netns/a" "ens3" "nv0123456789a" [10; 244; 1; 2] [10; 244; 1; 1]
    [2; 254; 10; 244; 1; 2] sample_host = (sample_host, Err ErrLinkAdd).
Proof.
  apply (host_interface_blocks_pods (KN := kernel nothing) (Some [16; 1; 1; 1; 1; 1]) [18; 1; 1; 1; 1; 1] "/run/netns/a" "ens3" "nv0123456789a"
    [10; 244; 1; 2] [10; 244; 1; 1] [2; 254; 10; 244; 1; 2] sample_host); [reflexivity|]. by eexists.
Defined.

Lemma host_mac_local_witness : exists c, generateHostMAC (Some [17; 1; 1; 1; 1; 1]) = Some [c; 1; 1; 1; 1; 1] /\
    0 <= c < 256 /\ Z.testbit c 0 = false /\ Z.testbit c 1 = true.
Proof. apply (host_mac_local 17 [1; 1; 1; 1; 1]). lia. Defined.
