(* ===== verification/NodeLinks.v ===== *)
(** Links the agent makes on its own node through command-line tools and netlink: the
    WireGuard interface (internal/encryption), the shared tunnel interface
    (internal/tunnel/geneve_linux.go, vxlan_linux.go, prepare_linux.go) and the masquerade
    rule (internal/masquerade).  A tool may refuse any call; a call it accepts has its
    documented effect and a call it refuses has none. *)

From Stdlib Require Import ZArith Lia Ascii String.
From stdpp Require Import base tactics list gmap strings fin_maps.
From S2P Require Import Prelude GoStrings GoMap GoNet GoCidr EgressManager Overlay NodeServices.

(** * WireGuard *)

Module WireGuard.

(** [net.UDPAddr] and its text. *)
Record UDPAddr := mkUDP { u_IP : IP; u_Port : Z; u_Zone : string }.

Definition has_colon (s : string) : bool := existsb (fun c => bool_decide (c = ":"%char)) (list_ascii_of_string s).

Definition udp_string (a : UDPAddr) : string :=
  let ip := if (length (u_IP a) =? 0)%nat then "" else ip_string (u_IP a) in
  let host := if String.eqb (u_Zone a) "" then ip else ip +:+ "%" +:+ u_Zone a in
  if has_colon host then "[" +:+ host +:+ "]:" +:+ fmt_d (u_Port a) else host +:+ ":" +:+ fmt_d (u_Port a).

(** The device: whether it is up, its port and key, and its peers with their endpoint
    and allowed networks. *)
Record device := mkDevice { d_up : bool; d_listen : option (Z * string); d_peers : gmap string (string * list string) }.

(** The device if there is one, and the routes through it. *)
Record host := mkHost { dev : option device; routes : gset string }.

(** The commands of the source on the interface novanet-wg0. *)
Variant call :=
| IpLinkDel | IpLinkAdd | IpLinkUp
| WgConfigure (port : Z) (key : string)
| WgSetPeer (key endpoint : string) (allowed : list string)
| WgRemovePeer (key : string)
| IpRouteAdd (net : string)
| IpRouteDel (net : string).

(** An allowed network belongs to one peer: giving it to another takes it away. *)
Definition strip (allowed : list string) (p : string * list string) : string * list string :=
  (p.1, filter (fun n => n ∉ allowed) p.2).

Definition on_dev (f : device -> device) (h : host) : host := mkHost (f <$> dev h) (routes h).
Definition with_peers (f : gmap string (string * list string) -> gmap string (string * list string)) (d : device) : device :=
  mkDevice (d_up d) (d_listen d) (f (d_peers d)).

Definition effect (c : call) (h : host) : host :=
  match c with
  | IpLinkDel => mkHost None ∅
  | IpLinkAdd => mkHost (Some (mkDevice false None ∅)) (routes h)
  | IpLinkUp => on_dev (fun d => mkDevice true (d_listen d) (d_peers d)) h
  | WgConfigure port key => on_dev (fun d => mkDevice (d_up d) (Some (port, key)) (d_peers d)) h
  | WgSetPeer key endpoint allowed => on_dev (with_peers (fun m => <[key := (endpoint, allowed)]> (strip allowed <$> m))) h
  | WgRemovePeer key => on_dev (with_peers (delete key)) h
  | IpRouteAdd net => mkHost (dev h) ({[net]} ∪ routes h)
  | IpRouteDel net => mkHost (dev h) (routes h ∖ {[net]})
  end.

(** The tools: what they accept, the key they generate and the public key of a private
    one.  They work on a device that is there, and create one only where there is none. *)
Class Tools := {
  accepts : call -> host -> bool;
  genkey : option string;
  pubkey : string -> option string;
  accepts_add h : accepts IpLinkAdd h = true -> dev h = None;
  accepts_dev c h : accepts c h = true -> c <> IpLinkAdd -> is_Some (dev h) }.

Record PeerInfo := mkPeerInfo { PublicKey : string; Endpoint : UDPAddr; AllowedIPs : list IPNet }.

Record WireGuardManager := mkWg { wg_listenPort : Z; publicKey : string; privateKey : string; wg_peers : gmap string PeerInfo }.

Inductive wg_error := ErrCreate | ErrKeys | ErrConfigure | ErrAddPeer | ErrPeerNotFound | ErrRemovePeer | ErrClose.

Section wireguard.
Context {TL : Tools}.

Definition runCmd (c : call) (h : host) : host * bool := if accepts c h then (effect c h, true) else (h, false).

Definition createInterface (h : host) : host * bool :=
  let h := (runCmd IpLinkDel h).1 in
  let '(h, ok) := runCmd IpLinkAdd h in
  if ok : bool then runCmd IpLinkUp h else (h, false).

Definition deleteInterface (h : host) : host * bool := runCmd IpLinkDel h.

Definition trimmed (s : string) : string := string_of_list_ascii (Bandwidth.trim_space (list_ascii_of_string s)).

(** The private and the public key. *)
Definition generateKeys : option (string * string) :=
  match genkey with
  | None => None
  | Some privKey =>
      let priv := trimmed privKey in
      match pubkey priv with None => None | Some out => Some (priv, trimmed out) end
  end.

Definition NewWireGuardManager (listenPort : Z) (h : host) : host * result wg_error WireGuardManager :=
  let '(h, ok) := createInterface h in
  if negb ok : bool then (h, Err ErrCreate)
  else
    match generateKeys with
    | None => ((deleteInterface h).1, Err ErrKeys)
    | Some (priv, pub) =>
        let '(h, ok) := runCmd (WgConfigure listenPort priv) h in
        if negb ok : bool then ((deleteInterface h).1, Err ErrConfigure)
        else (h, Ok (mkWg listenPort pub priv ∅))
    end.

Definition set_peers (f : gmap string PeerInfo -> gmap string PeerInfo) (m : WireGuardManager) : WireGuardManager :=
  mkWg (wg_listenPort m) (publicKey m) (privateKey m) (f (wg_peers m)).

(** Routes are added and removed one by one; a failure is only logged. *)
Definition each (f : string -> call) (nets : list IPNet) (h : host) : host :=
  foldl (fun h n => (runCmd (f (net_string n)) h).1) h nets.

Definition AddPeer (key : string) (endpoint : UDPAddr) (allowedIPs : list IPNet) (st : WireGuardManager * host)
    : WireGuardManager * host * result wg_error unit :=
  let '(m, h) := st in
  let '(h, ok) := runCmd (WgSetPeer key (udp_string endpoint) (net_string <$> allowedIPs)) h in
  if negb ok : bool then (m, h, Err ErrAddPeer)
  else (set_peers (<[key := mkPeerInfo key endpoint allowedIPs]>) m, each IpRouteAdd allowedIPs h, Ok tt).

Definition RemovePeer (key : string) (st : WireGuardManager * host) : WireGuardManager * host * result wg_error unit :=
  let '(m, h) := st in
  match wg_peers m !! key with
  | None => (m, h, Err ErrPeerNotFound)
  | Some peer =>
      let '(h, ok) := runCmd (WgRemovePeer key) h in
      if negb ok : bool then (m, h, Err ErrRemovePeer)
      else (set_peers (delete key) m, each IpRouteDel (AllowedIPs peer) h, Ok tt)
  end.

Definition ListPeers {MI : MapIter} (m : WireGuardManager) : list PeerInfo := iter_values (wg_peers m).

Definition Close (h : host) : host * result wg_error unit :=
  let '(h, ok) := deleteInterface h in (h, if ok : bool then Ok tt else Err ErrClose).

(** ** The device follows the manager *)

(** Histories in which every network is given to one peer only, [owner]. *)
Inductive wg_run (owner : string -> string) : WireGuardManager * host -> Prop :=
| wg_new port h0 h m : NewWireGuardManager port h0 = (h, Ok m) -> wg_run owner (m, h)
| wg_add st key ep nets st' r : wg_run owner st -> Forall (fun n => owner (net_string n) = key) nets ->
    AddPeer key ep nets st = (st', r) -> wg_run owner st'
| wg_remove st key st' r : wg_run owner st -> RemovePeer key st = (st', r) -> wg_run owner st'.

Definition in_device (i : PeerInfo) : string * list string := (udp_string (Endpoint i), net_string <$> AllowedIPs i).

Definition agrees (owner : string -> string) (st : WireGuardManager * host) : Prop :=
  (forall k i, wg_peers st.1 !! k = Some i -> Forall (fun n => owner (net_string n) = k) (AllowedIPs i)) /\
  exists d, dev st.2 = Some d /\ d_peers d = in_device <$> wg_peers st.1.

Lemma each_dev f nets : (forall n h, dev (effect (f n) h) = dev h) -> forall h, dev (each f nets h) = dev h.
Proof.
  intros Hf. induction nets as [|n r IH]; intros h; [done|].
  change (dev (each f r (runCmd (f (net_string n)) h).1) = dev h). rewrite IH. unfold runCmd. by destruct (accepts _ h); cbn [fst]; rewrite ?Hf.
Qed.

Lemma new_agrees owner port h0 h m : NewWireGuardManager port h0 = (h, Ok m) -> agrees owner (m, h).
Proof.
  unfold NewWireGuardManager, createInterface. set (h1 := (runCmd IpLinkDel h0).1). unfold runCmd at 1.
  destruct (accepts IpLinkAdd h1); [|done]. unfold runCmd at 1. destruct (accepts IpLinkUp _); [|done]. cbn [negb].
  destruct generateKeys as [[priv pub]|]; [|done]. unfold runCmd. destruct (accepts (WgConfigure port priv) _); [|done].
  intros [= <- <-]. split; [intros k i; cbn; by rewrite lookup_empty|]. eexists. split; [done|]. cbn. by rewrite fmap_empty.
Qed.

Lemma strip_other (owner : string -> string) (key : string) (nets : list IPNet) (i : PeerInfo) (k : string) :
  Forall (fun n => owner (net_string n) = key) nets -> Forall (fun n => owner (net_string n) = k) (AllowedIPs i) -> k <> key ->
  strip (net_string <$> nets) (in_device i) = in_device i.
Proof.
  intros Hn Hi Hne. unfold strip, in_device. cbn [fst snd]. f_equal. rewrite Forall_forall in Hn, Hi.
  assert (forall l : list string, (forall x, x ∈ l -> x ∉ net_string <$> nets) -> filter (fun n => n ∉ net_string <$> nets) l = l) as Hid.
  { induction l as [|x l IH]; intros Hl; [done|]. rewrite filter_cons_True by (apply Hl; by left). f_equal. apply IH. intros y Hy. apply Hl. by right. }
  apply Hid. intros x (n & -> & Hin)%list_elem_of_fmap (n' & E & Hin')%list_elem_of_fmap.
  apply Hne. rewrite <- (Hi n Hin), E. by apply Hn.
Qed.

Lemma add_agrees owner st key ep nets st' r :
  agrees owner st -> Forall (fun n => owner (net_string n) = key) nets -> AddPeer key ep nets st = (st', r) -> agrees owner st'.
Proof.
  destruct st as [m h]. intros (Hown & d & Hd & Hp) Hn. unfold AddPeer, runCmd. cbn in Hd, Hp, Hown.
  destruct (accepts _ h); cbn [negb]; intros [= <- _]; [|by split; [|exists d]]. split; cbn.
  - intros k i [[<- <-]|[_ H]]%lookup_insert_Some; [done|by apply Hown].
  - rewrite each_dev by done. cbn. rewrite Hd. eexists. split; [done|]. cbn. rewrite Hp, fmap_insert.
    apply map_eq. intros k. destruct (decide (k = key)) as [->|Hk]; [by rewrite !lookup_insert_eq|].
    rewrite !lookup_insert_ne, !lookup_fmap by done. destruct (wg_peers m !! k) as [i|] eqn:E; [|done]. cbn. f_equal.
    apply (strip_other owner key nets i k Hn); [by apply Hown|done].
Qed.

Lemma remove_agrees owner st key st' r : agrees owner st -> RemovePeer key st = (st', r) -> agrees owner st'.
Proof.
  destruct st as [m h]. intros (Hown & d & Hd & Hp). unfold RemovePeer, runCmd. cbn in Hd, Hp, Hown.
  destruct (wg_peers m !! key) as [p|]; [|intros [= <- _]; by split; [|exists d]].
  destruct (accepts _ h); cbn [negb]; intros [= <- _]; [|by split; [|exists d]]. split; cbn.
  - intros k i [_ H]%lookup_delete_Some. by apply Hown.
  - rewrite each_dev by done. cbn. rewrite Hd. eexists. split; [done|]. cbn. by rewrite Hp, fmap_delete.
Qed.
End wireguard.

(** While no network is given to two peers, the device has exactly the peers of the
    manager, with their endpoints and networks, whatever commands failed. *)
Theorem device_follows_manager {TL : Tools} owner m h :
  wg_run owner (m, h) -> exists d, dev h = Some d /\ forall k, d_peers d !! k = in_device <$> wg_peers m !! k.
Proof.
  intros Hr. assert (agrees owner (m, h)) as (_ & d & Hd & Hp).
  { remember (m, h) as st eqn:E. clear E. induction Hr; [by eapply new_agrees|by eapply add_agrees|by eapply remove_agrees]. }
  exists d. split; [done|]. intros k. by rewrite Hp, lookup_fmap.
Qed.

(** A manager whose keys or configuration fail leaves no interface. *)
Theorem failed_manager_leaves_nothing {TL : Tools} port h h' e :
  (forall h, is_Some (dev h) -> accepts IpLinkDel h = true) ->
  NewWireGuardManager port h = (h', Err e) -> e <> ErrCreate -> dev h' = None /\ routes h' = ∅.
Proof.
  intros Hdel. unfold NewWireGuardManager, createInterface. set (h1 := (runCmd IpLinkDel h).1). unfold runCmd at 1.
  destruct (accepts IpLinkAdd h1); [|by intros [= <- <-]]. unfold runCmd at 1. destruct (accepts IpLinkUp _); [|by intros [= <- <-]].
  cbn [negb]. destruct generateKeys as [[priv pub]|]; unfold runCmd, deleteInterface.
  - destruct (accepts (WgConfigure port priv) _); [done|]. unfold runCmd. rewrite Hdel by (by eexists). by intros [= <- _].
  - unfold runCmd. rewrite Hdel by (by eexists). by intros [= <- _].
Qed.

(** One whose interface cannot be brought up leaves the interface behind. *)
Theorem failed_up_leaves_interface {TL : Tools} port h :
  accepts IpLinkAdd (runCmd IpLinkDel h).1 = true -> (forall h, accepts IpLinkUp h = false) ->
  exists h', NewWireGuardManager port h = (h', Err ErrCreate) /\ dev h' = Some (mkDevice false None ∅).
Proof.
  intros Ha Hu. unfold NewWireGuardManager, createInterface. set (h1 := (runCmd IpLinkDel h).1) in *. unfold runCmd at 1. rewrite Ha.
  unfold runCmd. rewrite Hu. cbn [negb]. eexists. by split.
Qed.

(** Tools that accept every command on a device that is there. *)
Definition willing {TL : Tools} : Prop := forall c h, c <> IpLinkAdd -> is_Some (dev h) -> accepts c h = true.

Lemma each_added {TL : Tools} nets h : willing -> is_Some (dev h) ->
  each IpRouteAdd nets h = mkHost (dev h) (list_to_set (net_string <$> nets) ∪ routes h).
Proof.
  intros Hw. revert h. induction nets as [|n r IH]; intros h Hd.
  - destruct h as [d rs]. unfold each. cbn. f_equal. set_solver.
  - change (each IpRouteAdd r (runCmd (IpRouteAdd (net_string n)) h).1 = mkHost (dev h) (list_to_set (net_string <$> n :: r) ∪ routes h)).
    unfold runCmd. rewrite (Hw _ h) by done. cbn [fst effect]. rewrite IH by done. cbn [dev routes]. f_equal. cbn. set_solver.
Qed.

Lemma each_removed {TL : Tools} nets h : willing -> is_Some (dev h) ->
  each IpRouteDel nets h = mkHost (dev h) (routes h ∖ list_to_set (net_string <$> nets)).
Proof.
  intros Hw. revert h. induction nets as [|n r IH]; intros h Hd.
  - destruct h as [d rs]. unfold each. cbn. f_equal. set_solver.
  - change (each IpRouteDel r (runCmd (IpRouteDel (net_string n)) h).1 = mkHost (dev h) (routes h ∖ list_to_set (net_string <$> n :: r))).
    unfold runCmd. rewrite (Hw _ h) by done. cbn [fst effect]. rewrite IH by done. cbn [dev routes]. f_equal. cbn. set_solver.
Qed.

Lemma added {TL : Tools} key ep nets m h : willing -> is_Some (dev h) ->
  exists h', AddPeer key ep nets (m, h) = (set_peers (<[key := mkPeerInfo key ep nets]>) m, h', Ok tt) /\
    is_Some (dev h') /\ routes h' = list_to_set (net_string <$> nets) ∪ routes h.
Proof.
  intros Hw [d Hd]. unfold AddPeer, runCmd. rewrite (Hw _ h) by (done || by rewrite Hd; eexists). cbn [negb].
  rewrite each_added; [|done|cbn; rewrite Hd; by eexists]. eexists. split; [done|]. cbn. rewrite Hd. split; [by eexists|done].
Qed.

(** A peer that is set again with fewer networks keeps the routes of the others, also
    after its removal. *)
Theorem changed_peer_keeps_routes {TL : Tools} key ep a b m h :
  willing -> is_Some (dev h) -> net_string a <> net_string b ->
  exists st1 st2 m3 h3, AddPeer key ep [a; b] (m, h) = (st1, Ok tt) /\ AddPeer key ep [a] st1 = (st2, Ok tt) /\
    RemovePeer key st2 = (m3, h3, Ok tt) /\ wg_peers m3 !! key = None /\ net_string b ∈ routes h3.
Proof.
  intros Hw Hd Hab. destruct (added key ep [a; b] m h Hw Hd) as (h1 & E1 & Hd1 & R1).
  set (m1 := set_peers _ m) in E1. destruct (added key ep [a] m1 h1 Hw Hd1) as (h2 & E2 & [d2 Hd2] & R2).
  eexists _, _, _, _. split; [exact E1|]. split; [exact E2|].
  split; [|split].
  - unfold RemovePeer, runCmd. cbn. rewrite lookup_insert_eq, (Hw _ h2) by (done || by rewrite Hd2; eexists). cbn [negb].
    rewrite each_removed by (done || cbn; rewrite Hd2; by eexists). reflexivity.
  - cbn. apply lookup_delete_eq.
  - cbn. rewrite R2, R1. cbn. set_solver.
Qed.

(** Tools over the device alone, that refuse also what [refuses] names and derive public
    keys as [derive] says. *)
Definition ready (refuses : call -> bool) (c : call) (h : host) : bool :=
  negb (refuses c) && match c, dev h with IpLinkAdd, None => true | IpLinkAdd, Some _ => false | _, Some _ => true | _, None => false end.

Lemma ready_add refuses h : ready refuses IpLinkAdd h = true -> dev h = None.
Proof. unfold ready. by destruct (refuses IpLinkAdd), (dev h). Qed.

Lemma ready_dev refuses c h : ready refuses c h = true -> c <> IpLinkAdd -> is_Some (dev h).
Proof. unfold ready. destruct (negb (refuses c)); [|done]. destruct c, (dev h); cbn; eauto; congruence. Qed.

Definition table (refuses : call -> bool) (derive : string -> option string) : Tools :=
  {| accepts := ready refuses; genkey := Some "k "; pubkey := derive; accepts_add := ready_add refuses; accepts_dev := ready_dev refuses |}.

Definition willing_table : Tools := table (fun _ => false) (fun k => Some k).

Lemma table_willing : willing (TL := willing_table).
Proof. intros c h Hc [d Hd]. cbn. unfold ready. rewrite Hd. by destruct c. Qed.

Definition ep0 : UDPAddr := mkUDP [10; 0; 0; 2] 51871 "".
Definition net_a : IPNet := mkIPNet [10; 244; 1; 0] [255; 255; 255; 0].
Definition net_b : IPNet := mkIPNet [10; 244; 2; 0] [255; 255; 255; 0].

Definition sample_wg : WireGuardManager * host :=
  (AddPeer (TL := willing_table) "p" ep0 [net_a] (mkWg 51871 "k" "k" ∅, mkHost (Some (mkDevice true (Some (51871, "k")) ∅)) ∅)).1.

Lemma device_follows_manager_witness :
  exists d, dev sample_wg.2 = Some d /\ forall k, d_peers d !! k = in_device <$> wg_peers sample_wg.1 !! k.
Proof.
  apply (device_follows_manager (TL := willing_table) (fun _ => "p") sample_wg.1 sample_wg.2).
  eapply (wg_add (TL := willing_table) _ _ "p" ep0 [net_a]).
  - apply (wg_new (TL := willing_table) _ 51871 (mkHost None ∅)). reflexivity.
  - by repeat constructor.
  - reflexivity.
Defined.

Lemma failed_manager_leaves_nothing_witness :
  dev (NewWireGuardManager (TL := table (fun _ => false) (fun _ => None)) 51871 (mkHost None ∅)).1 = None /\
  routes (NewWireGuardManager (TL := table (fun _ => false) (fun _ => None)) 51871 (mkHost None ∅)).1 = ∅.
Proof.
  apply (failed_manager_leaves_nothing (TL := table (fun _ => false) (fun _ => None)) 51871 (mkHost None ∅) _ ErrKeys).
  - intros h [d Hd]. cbn. unfold ready. by rewrite Hd.
  - reflexivity.
  - discriminate.
Defined.

Definition no_up (c : call) : bool := match c with IpLinkUp => true | _ => false end.

Lemma failed_up_leaves_interface_witness :
  exists h', NewWireGuardManager (TL := table no_up (fun k => Some k)) 51871 (mkHost None ∅) = (h', Err ErrCreate) /\
    dev h' = Some (mkDevice false None ∅).
Proof. apply (failed_up_leaves_interface (TL := table no_up (fun k => Some k)) 51871 (mkHost None ∅)); [reflexivity|]. intros h. reflexivity. Defined.

Lemma changed_peer_keeps_routes_witness : exists st1 st2 m3 h3,
    AddPeer (TL := willing_table) "p" ep0 [net_a; net_b] (mkWg 51871 "k" "k" ∅, mkHost (Some (mkDevice true None ∅)) ∅) = (st1, Ok tt) /\
    AddPeer (TL := willing_table) "p" ep0 [net_a] st1 = (st2, Ok tt) /\
    RemovePeer (TL := willing_table) "p" st2 = (m3, h3, Ok tt) /\ wg_peers m3 !! "p" = None /\ net_string net_b ∈ routes h3.
Proof.
  apply (changed_peer_keeps_routes (TL := willing_table) "p" ep0 net_a net_b (mkWg 51871 "k" "k" ∅)); [apply table_willing|by eexists|].
  vm_compute. discriminate.
Defined.
End WireGuard.

(** * The tunnel interface *)

Module TunnelLink.

Variant kind := Geneve | Vxlan | OtherLink.
#[export] Instance kind_eq_dec : EqDecision kind.
Proof. solve_decision. Defined.

Record tlink := mkTLink { t_kind : kind; t_index : Z; t_vni : Z; t_mac : list Z; t_port : Z; t_up : bool }.

Variant call := LinkList | LinkDel (name : string) | LinkByName (name : string) | LinkAdd (name : string) (l : tlink) | LinkSetUp (name : string).

Abbreviation links := (gmap string tlink).

(** Netlink: what it accepts and the indices of new links.  It finds only links that are
    there. *)
Class LinkKernel := {
  accepts : call -> links -> bool;
  new_index : links -> Z;
  accepts_by_name name l : accepts (LinkByName name) l = true -> is_Some (l !! name) }.

Section tunnel_link.
Context {LK : LinkKernel}.

Definition effect (c : call) (l : links) : links :=
  match c with
  | LinkList | LinkByName _ => l
  | LinkDel name => delete name l
  | LinkAdd name t => <[name := mkTLink (t_kind t) (new_index l) (t_vni t) (t_mac t) (t_port t) (t_up t)]> l
  | LinkSetUp name => alter (fun t => mkTLink (t_kind t) (t_index t) (t_vni t) (t_mac t) (t_port t) true) name l
  end.

Definition run (c : call) (l : links) : links * bool := if accepts c l then (effect c l, true) else (l, false).

Definition link_index (name : string) (l : links) : option Z :=
  if accepts (LinkByName name) l then t_index <$> l !! name else None.

(** [createGeneveTunnel] and [createVxlanTunnel] differ in the link they add. *)
Definition create_tunnel (t : tlink) (name : string) (l : links) : links * option Z :=
  match link_index name l with
  | Some i => (l, Some i)
  | None =>
      let '(l1, ok) := run (LinkAdd name t) l in
      if negb ok : bool then (l1, None)
      else
        let '(l2, ok) := run (LinkSetUp name) l1 in
        if negb ok : bool then ((run (LinkDel name) l2).1, None)
        else (l2, link_index name l2)
  end.

Definition createGeneveTunnel (name : string) (vni : Z) (localIP : IP) (l : links) : links * option Z :=
  create_tunnel (mkTLink Geneve 0 vni (IPToTunnelMAC localIP) 6081 false) name l.

Definition createVxlanTunnel (name : string) (vni : Z) (localIP : IP) (l : links) : links * option Z :=
  create_tunnel (mkTLink Vxlan 0 vni (IPToTunnelMAC localIP) 4789 false) name l.

Definition protocol_kind (protocol : string) : option kind :=
  if String.eqb protocol protocolGeneve then Some Geneve
  else if String.eqb protocol protocolVxlan then Some Vxlan else None.

Definition is_kind (protocol : string) (t : tlink) : bool := bool_decide (Some (t_kind t) = protocol_kind protocol).

(** Stale links of the protocol are deleted, failures ignored; reloading the module
    changes no link. *)
Definition PrepareOverlay {MI : MapIter} (protocol : string) (l : links) : links * bool :=
  if accepts LinkList l then
    (foldl (fun l' '(name, t) => if is_kind protocol t then (run (LinkDel name) l').1 else l') l (iter l), true)
  else (l, false).

Lemma clean_lookup (P : tlink -> bool) (es : list (string * tlink)) :
  (forall n l, accepts (LinkDel n) l = true) ->
  forall l n, foldl (fun l' '(name, t) => if P t then (run (LinkDel name) l').1 else l') l es !! n =
    if existsb (fun x => String.eqb x.1 n && P x.2) es then None else l !! n.
Proof.
  intros Hd. induction es as [|[m t] es IH]; intros l n; [done|]. cbn [foldl existsb fst snd]. rewrite IH.
  destruct (existsb _ es); [by rewrite orb_true_r|]. rewrite orb_false_r. destruct (P t); [|by rewrite andb_false_r].
  unfold run. rewrite Hd, andb_true_r. cbn [fst effect]. destruct (String.eqb_spec m n) as [->|Hn].
  - apply lookup_delete_eq.
  - by rewrite lookup_delete_ne.
Qed.
End tunnel_link.

Lemma prepared {LK : LinkKernel} {MI : MapIter} protocol l l1 n :
  (forall n l, accepts (LinkDel n) l = true) -> PrepareOverlay protocol l = (l1, true) ->
  l1 !! n = match l !! n with Some t => if is_kind protocol t then None else Some t | None => None end.
Proof.
  intros Hd. unfold PrepareOverlay. destruct (accepts LinkList l); [|done]. intros [= <-]. rewrite clean_lookup by done.
  destruct (existsb _ (iter l)) eqn:Ex.
  - apply existsb_exists in Ex as ([m t] & Hin & [Hm Hk]%andb_true_iff). cbn in Hm, Hk. apply String.eqb_eq in Hm as ->.
    apply list_elem_of_In, elem_of_iter in Hin. by rewrite Hin, Hk.
  - destruct (l !! n) as [t|] eqn:E; [|done]. destruct (is_kind protocol t) eqn:Ek; [|done]. exfalso.
    rewrite <- not_true_iff_false, existsb_exists in Ex. apply Ex. exists (n, t).
    rewrite <- list_elem_of_In, elem_of_iter. cbn. by rewrite String.eqb_refl.
Qed.

(** After a start-up in which the stale links could be listed and deleted, the tunnel
    interface is one with the node's own parameters: its index is reported for a link of
    the protocol with the given network id, the hardware address of the node and the
    standard port, which is up.  Links of other kinds are untouched. *)
Theorem prepared_tunnel_is_fresh {LK : LinkKernel} {MI : MapIter} name vni localIP l l1 l2 i :
  (forall n l, accepts (LinkDel n) l = true) -> (forall t, l !! name = Some t -> t_kind t = Geneve) ->
  PrepareOverlay protocolGeneve l = (l1, true) -> createGeneveTunnel name vni localIP l1 = (l2, Some i) ->
  l2 !! name = Some (mkTLink Geneve i vni (IPToTunnelMAC localIP) 6081 true) /\
  forall n t, l !! n = Some t -> t_kind t <> Geneve -> l2 !! n = Some t.
Proof.
  intros Hd Hk Hp. pose proof (prepared protocolGeneve l l1 name Hd Hp) as Hn.
  assert (l1 !! name = None) as Hnone.
  { rewrite Hn. destruct (l !! name) as [t|] eqn:E; [|done]. unfold is_kind. by rewrite (Hk t eq_refl). }
  unfold createGeneveTunnel, create_tunnel. unfold link_index at 1. destruct (accepts (LinkByName name) l1) eqn:Ea.
  { apply accepts_by_name in Ea as [? ?]. congruence. }
  unfold run at 1. destruct (accepts (LinkAdd name _) l1); [|done]. cbn [negb]. unfold run at 1.
  destruct (accepts (LinkSetUp name) _); [|done]. cbn [negb effect]. unfold link_index. intros [= <- Hi].
  clear Ea. revert Hi. rewrite alter_insert_eq, lookup_insert_eq. destruct (accepts (LinkByName name) _); [|done]. intros Hi.
  cbn in Hi. injection Hi as <-. split; [done|]. intros n t Hl Hne. rewrite lookup_insert_ne.
  - rewrite (prepared protocolGeneve l l1 n Hd Hp), Hl. unfold is_kind. rewrite bool_decide_eq_false_2; [done|].
    cbn. by intros [= ?].
  - intros <-. by apply Hne, Hk.
Qed.

Definition all_links (c : call) (l : links) : bool := match c with LinkByName n => bool_decide (is_Some (l !! n)) | _ => true end.

Lemma all_links_by_name name l : all_links (LinkByName name) l = true -> is_Some (l !! name).
Proof. cbn. by rewrite bool_decide_eq_true. Qed.

Definition link_table : LinkKernel :=
  {| accepts := all_links; new_index := fun l => Z.of_nat (size l) + 10; accepts_by_name := all_links_by_name |}.

Definition stale : links := {["nv_geneve" := mkTLink Geneve 7 1 [170; 187; 10; 0; 0; 9] 6081 true]}.

Definition sample_prepared : links := (PrepareOverlay (LK := link_table) (MI := iter_forward) protocolGeneve stale).1.
Definition sample_tunnel : links := (createGeneveTunnel (LK := link_table) "nv_geneve" 1 [10; 0; 0; 1] sample_prepared).1.

Lemma prepared_tunnel_is_fresh_witness :
  sample_tunnel !! "nv_geneve" = Some (mkTLink Geneve 10 1 [170; 187; 10; 0; 0; 1] 6081 true).
Proof.
  refine (proj1 (prepared_tunnel_is_fresh (LK := link_table) (MI := iter_forward) "nv_geneve" 1 [10; 0; 0; 1] stale
    sample_prepared sample_tunnel 10 _ _ _ _)).
  - done.
  - intros t. unfold stale. by intros [_ <-]%lookup_singleton_Some.
  - reflexivity.
  - reflexivity.
Defined.
End TunnelLink.

(** * Masquerading *)

Module Masquerade.

(** The POSTROUTING chain: the source and the excluded destination of each masquerade
    rule of the agent. *)
Abbreviation chain := (list (string * string)).

(** iptables: whether it finds a rule, and whether it adds one. *)
Class Iptables := { finds : string * string -> chain -> bool; adds : string * string -> chain -> bool }.

Definition EnsureMasquerade {IT : Iptables} (podCIDR clusterCIDR : string) (c : chain) : chain * bool :=
  if finds (podCIDR, clusterCIDR) c then (c, true)
  else if adds (podCIDR, clusterCIDR) c then (c ++ [(podCIDR, clusterCIDR)], true) else (c, false).

(** However often the agent starts, the rule is there once, and at the place it had. *)
Theorem masquerade_once {IT : Iptables} podCIDR clusterCIDR c n :
  (forall r c, finds r c = true <-> r ∈ c) -> (forall r c, adds r c = true) -> (podCIDR, clusterCIDR) ∉ c ->
  Nat.iter (S n) (fun c => (EnsureMasquerade podCIDR clusterCIDR c).1) c = c ++ [(podCIDR, clusterCIDR)].
Proof.
  intros Hf Ha Hc. induction n as [|n IH].
  - cbn. unfold EnsureMasquerade. destruct (finds _ c) eqn:E; [by apply Hf in E|]. by rewrite Ha.
  - change (Nat.iter (S (S n)) ?f c) with (f (Nat.iter (S n) f c)). rewrite IH. unfold EnsureMasquerade.
    rewrite (proj2 (Hf _ _)); [done|]. apply elem_of_app. right. by left.
Qed.

Definition chain_tool : Iptables := {| finds := fun r c => bool_decide (r ∈ c); adds := fun _ _ => true |}.

Lemma masquerade_once_witness :
  Nat.iter 3 (fun c => (EnsureMasquerade (IT := chain_tool) "10.244.1.0/24" "10.244.0.0/16" c).1) [] = [("10.244.1.0/24", "10.244.0.0/16")].
Proof.
  apply (masquerade_once (IT := chain_tool) "10.244.1.0/24" "10.244.0.0/16" [] 2).
  - intros r c. cbn. apply bool_decide_eq_true.
  - done.
  - by intros ?%elem_of_nil.
Defined.
End Masquerade.
