(* ===== verification/AgentHost.v ===== *)
(** The agent on its host: [AddPod] and [DelPod] of internal/agent/server.go together with
    the network set-up and clean-up they call (internal/cni/netns_linux.go).  The model of
    the calls takes the outcome of the set-up as an argument; here the outcome comes from
    the model of the set-up, run on the address the call allocates. *)

From Stdlib Require Import ZArith Lia Ascii String.
From stdpp Require Import base tactics list gmap strings fin_maps.
From S2P Require Import Prelude GoStrings GoMap GoNet GoCidr GoSha256 Constants IpamIndex.
From S2P Require Import IpamAllocator Identity PolicyCompiler PolicyEnforcement EbpfMaps DpClient.
From S2P Require Import AgentServer AgentProps PodNetwork.

Definition veth_of (containerID : string) : string := "nv" +:+ substring 0 11 containerID.

Section node.
Context {KN : Kernel} {DN : DpNet} {MI : MapIter}.
Context (as_selector : LabelSelector -> option (labels -> bool)).
Context (nsr : option (LabelSelector -> list string)).
Context (pr : option (string -> string -> string -> LabelSelector -> list Z)).

(** The call [SetupPodNetwork] that [AddPod] makes, if it gets that far. *)
Definition setup_of (rand : option (list Z)) (req : AddPodRequest) (e : call_env) (s : Server) (n : net) : net * option Z :=
  match validateAddPodRequest req with
  | Some _ => (n, None)
  | None =>
      match IpamAllocator.Allocate (IPAlloc s) (fs s) (e_write e) with
      | Val (ipa, _, Ok podIP) =>
          match Gateway ipa with
          | Val gw =>
              let '(n', r) := SetupPodNetwork rand (a_Netns req) (a_IfName req) (veth_of (a_ContainerId req)) podIP gw (GenerateMAC podIP) n in
              (n', match r with Ok i => Some i | Err _ => None end)
          | _ => (n, None)
          end
      | _ => (n, None)
      end
  end.

Definition with_setup (i : option Z) (e : call_env) : call_env := mkEnv (e_write e) (e_labels e) i (e_removed e).

Definition add_on_host (rand : option (list Z)) (req : AddPodRequest) (e : call_env) (s : Server) (n : net)
    : outcome (Server * net * result code AddPodResponse) :=
  let '(n', i) := setup_of rand req e s n in
  '(s', r) ← AddPod as_selector nsr pr req (with_setup i e) s;
  Val (s', n', r).

Definition del_on_host (req : DelPodRequest) (e : call_env) (s : Server) (n : net) : outcome (Server * net) :=
  let n' := match Endpoints s !! podKey (d_PodNamespace req) (d_PodName req) with
            | Some ep => if String.eqb (ContainerID ep) (d_ContainerId req) then CleanupPodNetwork (HostVeth ep) (Some (ep_IP ep)) n else n
            | None => n
            end in
  s' ← DelPod req e s;
  Val (s', n').

Inductive node_op :=
| NAdd (rand : option (list Z)) (req : AddPodRequest) (e : call_env)
| NDel (req : DelPodRequest) (e : call_env)
| NPolicies (pols : list (option NetworkPolicy)).

Definition node_step (op : node_op) (s : Server) (n : net) : outcome (Server * net) :=
  match op with
  | NAdd rand req e => '(s', n', _) ← add_on_host rand req e s n; Val (s', n')
  | NDel req e => del_on_host req e s n
  | NPolicies pols => Val (Recompile as_selector nsr pr (set_store (Some pols) s), n)
  end.

Fixpoint node_run (ops : list node_op) (s : Server) (n : net) : outcome (Server * net) :=
  match ops with
  | [] => Val (s, n)
  | op :: rest => '(s', n') ← node_step op s n; node_run rest s' n'
  end.

(** * Every pod is wired *)

(** The host end of the pod's pair is there, up, with the index the agent gives to the
    dataplane, and the host's route to the pod's address leads to it. *)
Definition wired_pod (n : net) (ep : Endpoint) : Prop :=
  exists f, links n !! HostVeth ep = Some f /\ up f = true /\ IfIndex ep = wrap32 (index f) /\
    host_routes n !! ep_IP ep = Some (index f).

(** Pairs have one end elsewhere, links have indices of their own, and the loopback
    is there. *)
Record host_inv (n : net) : Prop := {
  hi_ok : host_ok n;
  hi_lo : is_Some (links n !! "lo");
  hi_moved : forall x p, peers n !! x <> Some (None, p);
  hi_index : forall a b f g, links n !! a = Some f -> links n !! b = Some g -> index f = index g -> a = b }.

Record node_inv (c : Z) (s : Server) (n : net) : Prop := {
  ni_agent : agent_inv c s;
  ni_host : host_inv n;
  ni_pods : forall k ep, Endpoints s !! k = Some ep -> wired_pod n ep /\ HostVeth ep <> "lo";
  ni_veths : forall k1 k2 e1 e2, Endpoints s !! k1 = Some e1 -> Endpoints s !! k2 = Some e2 -> k1 <> k2 -> HostVeth e1 <> HostVeth e2 }.

Lemma same_host_inv n n' : same_host n n' -> host_inv n -> host_inv n'.
Proof.
  intros (H1 & H2 & H3 & H4 & _) [[O1 O2 O3 O4] Hlo Hm Hi]. split; [split|..]; rewrite ?H1, ?H2, ?H3, ?H4; done.
Qed.

Lemma same_host_wired n n' ep : same_host n n' -> wired_pod n ep -> wired_pod n' ep.
Proof. intros (H1 & H2 & H3 & H4 & _). unfold wired_pod. by rewrite H1, H3. Qed.

(** The host after a complete setup. *)
Lemma complete_inv n h path p hm mac podIP gw n' :
  host_inv n -> links n !! h = None -> complete n h path p hm mac podIP gw n' -> host_inv n'.
Proof.
  intros [[O1 O2 O3 O4] Hlo Hm Hi] Hh (n3 & [Hl Hp Hr Hs _ _] & ->). split; [split|..]; cbn; rewrite ?Hl, ?Hp.
  - intros ip i [[<- <-]|[_ Hip]]%lookup_insert_Some.
    + exists h, (mkIface (i0 n) hm true). by rewrite lookup_insert_eq.
    + destruct (O1 ip i Hip) as (name & f & Hf & <-). exists name, f. rewrite lookup_insert_ne by congruence. done.
  - intros name knob Hk. destruct (decide (name = h)) as [->|Hn]; [rewrite lookup_insert_eq; by eexists|].
    rewrite lookup_insert_ne by done. apply (O2 name knob). by rewrite <- Hs.
  - intros name. destruct (decide (name = h)) as [->|Hn]; [rewrite !lookup_insert_eq; by eexists|].
    rewrite !lookup_insert_ne by done. apply O3.
  - intros x q o [[<- [= <- <-]]|[_ Hx]]%lookup_insert_Some; [done|]. intros ->. by destruct (Hm x q).
  - destruct (decide (h = "lo")) as [->|]; [rewrite lookup_insert_eq; by eexists|by rewrite lookup_insert_ne].
  - intros x q [[<- [= ?]]|[_ Hx]]%lookup_insert_Some. by destruct (Hm x q).
  - assert (forall b g, links n !! b = Some g -> index g <> i0 n) as Hfresh by (intros; by eapply new_index_fresh).
    intros a b f g [[<- <-]|[? Ha]]%lookup_insert_Some [[<- <-]|[? Hb]]%lookup_insert_Some; cbn; try done.
    + intros E. by destruct (Hfresh b g Hb).
    + intros E. by destruct (Hfresh a f Ha).
    + by apply Hi.
Qed.

Lemma delete_route_inv n ip : host_inv n -> host_inv (with_routes (delete ip (host_routes n)) n).
Proof.
  intros [[O1 O2 O3 O4] Hlo Hm Hi]. split; [split|..]; cbn; try done. intros x i [_ Hx]%lookup_delete_Some. by apply (O1 x).
Qed.

(** Deleting a link whose peer is elsewhere. *)
Lemma link_del_links n h : host_inv n -> links (link_del h n) = delete h (links n).
Proof.
  intros [_ _ Hm _]. unfold link_del. destruct (links n !! h) as [f|] eqn:Ef; [|by rewrite delete_id].
  destruct (peers n !! h) as [[[q|] p]|] eqn:Ep; [done| |done]. by destruct (Hm h p).
Qed.

Lemma link_del_inv n h : h <> "lo" -> host_inv n -> host_inv (link_del h n).
Proof.
  intros Hh Hinv. pose proof (link_del_links n h Hinv) as Hl. destruct Hinv as [[O1 O2 O3 O4] Hlo Hm Hi].
  assert (forall name, name <> h -> is_Some (links n !! name) -> is_Some (links (link_del h n) !! name)) as Hkeep.
  { intros name Hn. rewrite Hl. by rewrite lookup_delete_ne. }
  destruct (links n !! h) as [f|] eqn:Ef; [|unfold link_del; rewrite Ef; by split; [split|..]].
  assert (peers (link_del h n) = delete h (peers n) /\ host_routes (link_del h n) = filter (fun r => r.2 <> index f) (host_routes n) /\
    sysctls (link_del h n) = filter (fun x => x.1.1 <> h) (sysctls n)) as (Hp & Hr & Hs).
  { unfold link_del. rewrite Ef. by destruct (peers n !! h) as [[[q|] p]|]. }
  split; [split|..].
  - rewrite Hr. intros ip i [Hip Hne]%map_lookup_filter_Some. destruct (O1 ip i Hip) as (name & g & Hg & <-).
    exists name, g. rewrite Hl, lookup_delete_ne; [done|]. intros <-. apply Hne. cbn. congruence.
  - rewrite Hs. intros name knob [v [Hv Hne]%map_lookup_filter_Some]. apply Hkeep; [done|]. apply (O2 name knob). by eexists.
  - rewrite Hp. intros name [v [Hne Hv]%lookup_delete_Some]. apply Hkeep; [done|]. apply O3. by eexists.
  - rewrite Hp. intros x q o [_ Hx]%lookup_delete_Some ->. by destruct (Hm x q).
  - by apply Hkeep.
  - rewrite Hp. intros x q [_ Hx]%lookup_delete_Some. by apply (Hm x q).
  - rewrite Hl. intros a b fa fb [_ Ha]%lookup_delete_Some [_ Hb]%lookup_delete_Some. by apply Hi.
Qed.

(** Deleting the link or the route of one pod leaves another wired. *)
Lemma delete_link_wired n h ep : host_inv n -> HostVeth ep <> h -> wired_pod n ep -> wired_pod (link_del h n) ep.
Proof.
  intros Hinv Hne (f & Hf & Hu & Hx & Hr). exists f. rewrite link_del_links by done. rewrite lookup_delete_ne by done.
  do 3 (split; [done|]). unfold link_del. destruct (links n !! h) as [g|] eqn:Eg; [|done].
  assert (index f <> index g) as Hi by (intros E; apply Hne; by eapply (hi_index n Hinv)).
  destruct (peers n !! h) as [[[q|] p]|]; cbn; apply map_lookup_filter_Some; by split.
Qed.

Lemma cleanup_keeps n h ip :
  h <> "lo" -> host_inv n -> host_inv (CleanupPodNetwork h (Some ip) n) /\
  forall ep, HostVeth ep <> h -> ep_IP ep <> ip -> wired_pod n ep -> wired_pod (CleanupPodNetwork h (Some ip) n) ep.
Proof.
  intros Hlo Hn. unfold CleanupPodNetwork. set (n1 := (PodNetwork.run (RouteDel ip) n).1).
  assert (host_inv n1 /\ forall ep, ep_IP ep <> ip -> wired_pod n ep -> wired_pod n1 ep) as [H1 H2].
  { unfold n1, PodNetwork.run. destruct (accepts (RouteDel ip) n); [|done]. cbn [fst PodNetwork.effect]. split; [by apply delete_route_inv|].
    intros ep Hne (f & ? & ? & ? & ?). exists f. cbn. by rewrite lookup_delete_ne. }
  destruct (accepts (LinkByName h) n1); [|split; [done|intros ep _; apply H2]].
  unfold PodNetwork.run. destruct (accepts (LinkDel h) n1); cbn [fst PodNetwork.effect]; [|split; [done|intros ep _; apply H2]].
  split; [by apply link_del_inv|]. intros ep Hh Hip Hw. apply delete_link_wired; [done|done|]. by apply H2.
Qed.

(** * Steps *)

(** The kernel lets the host end of a pod's pair be deleted. *)
Hypothesis Hdel : forall id m, is_Some (links m !! veth_of id) -> accepts (LinkDel (veth_of id)) m = true.

Lemma setup_outcome rand path p id podIP gateway mac n n' r :
  host_inv n -> SetupPodNetwork rand path p (veth_of id) podIP gateway mac n = (n', r) ->
  match r with
  | Ok i => exists hm, i = i0 n /\ links n !! veth_of id = None /\ complete n (veth_of id) path p hm mac podIP gateway n'
  | Err _ => same_host n n'
  end.
Proof.
  intros Hn E. destruct (decide (p = "lo")) as [->|Hp].
  - destruct (hi_lo n Hn) as [f Hf]. unfold SetupPodNetwork, must, PodNetwork.run in E.
    destruct (generateHostMAC rand) as [hm|]; [|by injection E as <- <-].
    destruct (accepts (LinkAdd _ hm "lo" mac) n) eqn:Ea; [|by injection E as <- <-].
    destruct (accepts_add _ _ _ _ _ Ea) as (_ & ? & _). congruence.
  - apply setup_cases in E; [|apply (hi_ok n Hn)|done]. destruct r as [i|e].
    + destruct E as (hm & _ & -> & Hfree & Hc). by exists hm.
    + destruct E as [->|(n2 & [Hs Hsame] & ->)]; [done|]. unfold PodNetwork.run. by rewrite Hdel.
Qed.

(** The outcome that the set-up gives to the call. *)
Lemma setup_of_outcome rand req e s n n' i :
  host_inv n -> setup_of rand req e s n = (n', i) ->
  match i with
  | Some x => exists a f podIP gw hm, validateAddPodRequest req = None /\
      IpamAllocator.Allocate (IPAlloc s) (fs s) (e_write e) = Val (a, f, Ok podIP) /\ x = i0 n /\
      links n !! veth_of (a_ContainerId req) = None /\
      complete n (veth_of (a_ContainerId req)) (a_Netns req) (a_IfName req) hm (GenerateMAC podIP) podIP gw n'
  | None => same_host n n'
  end.
Proof.
  intros Hn. unfold setup_of. destruct (validateAddPodRequest req) eqn:Ev; [by intros [= <- <-]|].
  destruct (IpamAllocator.Allocate _ _ _) as [[[a f] [podIP|]]| |] eqn:Ea; try by intros [= <- <-].
  destruct (Gateway a) as [gw| |]; try by intros [= <- <-].
  destruct (SetupPodNetwork _ _ _ _ _ _ _ n) as [n2 r] eqn:Es. apply setup_outcome in Es; [|done].
  destruct r as [x|]; intros [= <- <-]; [|done]. destruct Es as (hm & ? & ? & ?). by exists a, f, podIP, gw, hm.
Qed.

(** What the call records for a set-up that worked. *)
Lemma AddPod_records req e s s' r a f podIP x :
  validateAddPodRequest req = None -> IpamAllocator.Allocate (IPAlloc s) (fs s) (e_write e) = Val (a, f, Ok podIP) ->
  e_setup e = Some x -> AddPod as_selector nsr pr req e s = Val (s', r) ->
  (exists resp, r = Ok resp) /\
  exists id, Endpoints s' = <[podKey (a_PodNamespace req) (a_PodName req) := new_endpoint req podIP x id]> (Endpoints s).
Proof.
  unfold AddPod, mbind, outcome_bind. intros -> -> Hx. rewrite Hx. cbn [IDAlloc set_IPAlloc].
  destruct (AllocateIdentity _ _ _) as [[ids id]| |]; [|done..]. destruct (Gateway _); [|done..]. intros [= <- <-].
  split; [by eexists|]. exists id. set (s0 := set_Endpoints _ _). set (ep := mkEndpoint _ _ _ _ _ _ _ _ _ _).
  destruct (Recompile_keeps as_selector nsr pr (push_endpoint ep s0)) as [(_ & _ & _ & -> & _) _].
  by destruct (push_endpoint_keeps ep s0) as (_ & _ & _ & -> & _).
Qed.

(** A call with no set-up, or one that failed, adds no pod. *)
Lemma AddPod_unset req e s s' r : e_setup e = None -> AddPod as_selector nsr pr req e s = Val (s', r) -> exists c, r = Err c.
Proof.
  intros Hx. unfold AddPod, mbind, outcome_bind. rewrite Hx.
  destruct (validateAddPodRequest req); [intros [= <- <-]; by eexists|].
  destruct (IpamAllocator.Allocate _ _ _) as [[[a f] [podIP|]]| |]; [|intros [= <- <-]; by eexists|done..].
  destruct (AllocateIdentity _ _ _) as [[ids id]| |]; [|done..]. destruct (Gateway _); [|done..].
  destruct (Release _ _ _ _) as [[[? ?] ?]| |]; [|done..]. intros [= <- <-]. by eexists.
Qed.

(** A complete set-up wires the new pod and leaves the others wired. *)
Lemma complete_wired n id path p hm mac podIP gw n' ep :
  host_inv n -> links n !! veth_of id = None -> complete n (veth_of id) path p hm mac podIP gw n' ->
  (HostVeth ep = veth_of id /\ ep_IP ep = podIP /\ IfIndex ep = wrap32 (i0 n)) \/ (wired_pod n ep /\ ep_IP ep <> podIP) -> wired_pod n' ep.
Proof.
  intros Hn Hh (n3 & [Hl Hp Hr Hs _ _] & ->) Hep. unfold wired_pod. cbn. rewrite Hl.
  destruct Hep as [(-> & -> & ->)|[(f & Hf & Hu & Hx & Hr') Hne]].
  - exists (mkIface (i0 n) hm true). by rewrite !lookup_insert_eq.
  - exists f. rewrite !lookup_insert_ne by congruence. done.
Qed.

Lemma add_step c rand req e s n :
  node_inv c s n -> c < 2 ^ 64 -> exists s' n' r, add_on_host rand req e s n = Val (s', n', r) /\ node_inv (c + 1) s' n'.
Proof.
  intros [Ha Hn Hp Hv] Hc. unfold add_on_host. destruct (setup_of rand req e s n) as [n' i] eqn:Es.
  apply setup_of_outcome in Es; [|done].
  destruct (AddPod_spec as_selector nsr pr req (with_setup i e) s (ai_ipam _ _ Ha)) as (s' & r & E & Hr).
  { split; [apply (ai_id _ _ Ha)|]. pose proof (ai_size _ _ Ha). lia. }
  unfold mbind, outcome_bind. rewrite E. exists s', n', r. split; [done|]. destruct i as [x|].
  - destruct Es as (a & f & podIP & gw & hm & Ev & Ea & -> & Hfree & Hcm).
    destruct (AddPod_records req (with_setup (Some (i0 n)) e) s s' r a f podIP (i0 n) Ev Ea eq_refl E) as [[resp ->] [id He]].
    destruct Hr as (podIP' & id' & _ & Hadd & _). pose proof (agent_inv_added _ _ _ _ _ _ _ Hadd Hc Ha) as Ha'.
    destruct (Allocate_spec (IPAlloc s) (fs s) (e_write e) (ai_ipam _ _ Ha)) as (a1 & f1 & r1 & Ea1 & _ & _ & Hr1).
    rewrite Ea in Ea1. injection Ea1 as <- <- <-. destruct Hr1 as (_ & Hnew & _).
    assert (forall k ep, Endpoints s !! k = Some ep -> ep_IP ep <> podIP /\ HostVeth ep <> veth_of (a_ContainerId req)) as Hold.
    { intros k ep Hk. split; [intros <-; apply Hnew; by apply (ai_ep _ _ Ha) in Hk as [_ [? _]]|].
      intros Hx. destruct (Hp k ep Hk) as [(g & Hg & _) _]. congruence. }
    split; [done|by eapply complete_inv| |]; rewrite He.
    + intros k ep [[<- <-]|[_ Hk]]%lookup_insert_Some.
      * split; [|done]. eapply complete_wired; [done|done|exact Hcm|by left].
      * destruct (Hp k ep Hk). split; [|done]. eapply complete_wired; [done|done|exact Hcm|]. right. split; [done|by apply (Hold k)].
    + intros k1 k2 e1 e2 [[<- <-]|[_ H1]]%lookup_insert_Some [[<- <-]|[_ H2]]%lookup_insert_Some Hk; [done| | |by eapply Hv].
      * intros Hx. by apply (Hold k2 e2 H2).
      * by apply (Hold k1).
  - destruct (AddPod_unset req (with_setup None e) s s' r eq_refl E) as [err ->].
    pose proof (agent_inv_neutral _ _ _ Hr Ha) as Ha'. destruct Hr as (_ & _ & _ & _ & He & _).
    split; [eapply agent_inv_mono; [|done]; lia|by eapply same_host_inv| |]; rewrite He; [|done].
    intros k ep Hk. destruct (Hp k ep Hk). split; [by eapply same_host_wired|done].
Qed.

Lemma del_step c req e s n :
  node_inv c s n -> exists s' n', del_on_host req e s n = Val (s', n') /\ node_inv c s' n'.
Proof.
  intros [Ha Hn Hp Hv]. unfold del_on_host.
  destruct (DelPod_spec req e s (ai_ipam _ _ Ha) (ai_ep _ _ Ha)) as (s' & E & Hr). unfold mbind, outcome_bind. rewrite E.
  destruct (Endpoints s !! podKey (d_PodNamespace req) (d_PodName req)) as [ep|] eqn:Ek; [|subst s'; by eexists _, _].
  destruct (String.eqb_spec (ContainerID ep) (d_ContainerId req)) as [Ec|Ec].
  2:{ rewrite decide_False in Hr by done. subst s'. by eexists _, _. }
  rewrite decide_True in Hr by done. eexists _, _. split; [reflexivity|].
  pose proof (agent_inv_removed _ _ _ _ _ Hr Ha) as Ha'. destruct Hr as (_ & He & _).
  destruct (Hp _ _ Ek) as [_ Hlo]. destruct (cleanup_keeps n (HostVeth ep) (ep_IP ep) Hlo Hn) as [Hn' Hw].
  split; [done|done| |]; rewrite He.
  - intros k ep' [Hne Hk]%lookup_delete_Some. destruct (Hp k ep' Hk). split; [|done]. apply Hw; [|  |done].
    + by apply (Hv k _ ep' ep Hk Ek).
    + intros Hx. apply (ai_sep _ _ Ha k _ ep' ep Hk Ek); [done|by rewrite Hx].
  - intros k1 k2 e1 e2 [_ H1]%lookup_delete_Some [_ H2]%lookup_delete_Some. by apply (Hv k1 k2).
Qed.

Lemma node_step_inv c op s n :
  node_inv c s n -> c < 2 ^ 64 -> exists s' n', node_step op s n = Val (s', n') /\ node_inv (c + 1) s' n'.
Proof.
  intros Hi Hc. assert (forall s' n', node_inv c s' n' -> node_inv (c + 1) s' n') as Hmono.
  { intros s' n' []. split; try done. eapply agent_inv_mono; [|done]. lia. }
  destruct op as [rand req e|req e|pols]; cbn [node_step].
  - destruct (add_step c rand req e s n Hi Hc) as (s' & n' & r & E & H). unfold mbind, outcome_bind. rewrite E. by exists s', n'.
  - destruct (del_step c req e s n Hi) as (s' & n' & E & H). exists s', n'. split; [done|by apply Hmono].
  - eexists _, _. split; [reflexivity|]. apply Hmono. destruct Hi as [Ha Hn Hp Hv].
    destruct (Recompile_keeps as_selector nsr pr (set_store (Some pols) s)) as [Hs _].
    pose proof Hs as (_ & _ & _ & H4 & _). split; [|done|by rewrite H4|by rewrite H4].
    eapply agent_inv_same; [exact Hs|]. by destruct Ha; split.
Qed.

Lemma node_run_inv ops c s n :
  node_inv c s n -> c + Z.of_nat (length ops) <= 2 ^ 64 ->
  exists s' n', node_run ops s n = Val (s', n') /\ node_inv (c + Z.of_nat (length ops)) s' n'.
Proof.
  revert c s n. induction ops as [|op ops IH]; intros c s n Hi Hc; cbn [node_run length].
  { exists s, n. split; [done|]. by rewrite Z.add_0_r. }
  cbn [length] in Hc. destruct (node_step_inv c op s n Hi ltac:(lia)) as (s1 & n1 & E & H1).
  destruct (IH (c + 1) s1 n1 H1 ltac:(lia)) as (s2 & n2 & E2 & H2). exists s2, n2. unfold mbind, outcome_bind. rewrite E.
  split; [done|]. by replace (c + Z.of_nat (S (length ops))) with (c + 1 + Z.of_nat (length ops)) by lia.
Qed.

(** C20: Every pod is wired.  From a new agent on its host, every history of pods added and
    deleted and of policy changes returns, whatever calls the kernel refuses other than
    the deletion of a pod's pair; and in the end every pod that the agent knows has its
    host interface, up, with the index the agent reported to the dataplane, and the host's
    route to the pod's address leads to it.  No two pods share an interface. *)
Theorem pods_are_wired podCIDR sdir mkdir rd a f b node c t eg ops n :
  NewAllocatorWithStateDir podCIDR sdir mkdir rd = Val (Ok a) -> Z.of_nat (length ops) <= 2 ^ 64 -> host_inv n ->
  exists s n', node_run ops (NewServer a f Identity.NewAllocator b node c t eg) n = Val (s, n') /\
    (forall k ep, Endpoints s !! k = Some ep -> wired_pod n' ep) /\
    (forall k1 k2 e1 e2, Endpoints s !! k1 = Some e1 -> Endpoints s !! k2 = Some e2 -> k1 <> k2 -> HostVeth e1 <> HostVeth e2).
Proof.
  intros Ha Hlen Hn. destruct (new_inv _ _ _ _ _ Ha) as (_ & _ & _ & _ & _ & _ & _ & Hi & _).
  destruct (node_run_inv ops 0 (NewServer a f Identity.NewAllocator b node c t eg) n) as (s & n' & E & [_ _ Hp Hv]); [|lia|].
  - split; [by apply new_agent_inv|done|by intros|by intros].
  - exists s, n'. split; [done|]. split; [|done]. intros k ep Hk. by apply (Hp k).
Qed.
End node.

(** * An example *)

(** A host with a loopback, an interface and one empty namespace. *)
Definition node_host : net :=
  mkNet (<["lo" := mkIface 1 [] true]> {["ens3" := mkIface 2 [2; 0; 0; 0; 0; 9] true]}) ∅ ∅ ∅ {["/run/netns/a" := mkNs false ∅]}.

Lemma node_host_inv : host_inv node_host.
Proof.
  split; [split|..]; cbn; try (intros *; rewrite lookup_empty; first [done|by intros [? ?]]).
  - by eexists.
  - intros a b f g [[<- <-]|[_ [<- <-]%lookup_singleton_Some]]%lookup_insert_Some
      [[<- <-]|[_ [<- <-]%lookup_singleton_Some]]%lookup_insert_Some; done.
Qed.

Abbreviation sample_node_run := (node_run (KN := kernel nothing) (DN := dp_reliable) (MI := iter_forward) match_labels None None).

(** A pod is added, the same container once more, which the kernel refuses, and a pod that
    is not there is deleted. *)
Definition sample_node_ops : list node_op :=
  [NAdd (Some [16; 1; 1; 1; 1; 1]) (sample_add "0123456789ab") sample_env;
   NAdd (Some [16; 1; 1; 1; 1; 2]) (sample_add "0123456789ab") sample_env;
   NDel (mkDelPod "web-1" "default" "ffffffffffff") sample_env].

Definition sample_wired (x : Server * net) : bool :=
  match Endpoints x.1 !! podKey "default" "web-1" with
  | Some ep => bool_decide (host_routes x.2 !! ep_IP ep = Some (IfIndex ep)) && String.eqb (HostVeth ep) "nv0123456789a"
  | None => false
  end.

Lemma pods_are_wired_witness :
  match sample_node_run sample_node_ops sample_server node_host with Val x => sample_wired x | _ => false end = true /\
  exists s n', sample_node_run sample_node_ops sample_server node_host = Val (s, n') /\
    (forall k ep, Endpoints s !! k = Some ep -> wired_pod n' ep).
Proof.
  split; [vm_compute; reflexivity|].
  destruct (pods_are_wired (KN := kernel nothing) (DN := dp_reliable) (MI := iter_forward) match_labels None None
    (fun id m H => proj2 (kernel_deletes nothing (veth_of id) eq_refl eq_refl m H))
    "10.244.1.0/29" "/s" true (Some []) sample_alloc ∅ false [192; 168; 0; 1] true empty_tables None sample_node_ops node_host
    sample_alloc_new ltac:(cbn; lia) node_host_inv) as (s & n' & E & H & _).
  exists s, n'. exact (conj E H).
Defined.
