(* ===== verification/Novanetctl.v ===== *)
(** The command-line tool cmd/novanetctl: each command asks the agent, or the server of the
    eBPF services, and prints the answer through text/tabwriter.  A command is the pair of
    what it writes to the standard output and the error it returns, as a function of the
    outcome of the dial and of the calls; a stream is the list of what [Recv] returns.  The
    JSON encoder and the offset of the local time zone are arguments, and cobra, which picks
    the command and its flags, is left out. *)

From Stdlib Require Import ZArith Lia Ascii String SpecFloat.
From stdpp Require Import base tactics list gmap strings fin_maps sorting.
From S2P Require Import Prelude Constants GoStrings GoMap GoUtf8 GoText GoTabwriter ServiceWatcher Identity PolicyCompiler EgressManager DpReads.
From S2P Require Import AgentServer AgentProps Overlay AgentFlows FrrClient RoutingManager RoutingRpcs EbpfServices DpFlows.

(** * Commands *)

Definition outcome_of : Type := string * option string.

Definition defaultAgentSocket : string := "/run/novanet/novanet.sock".
Definition defaultEBPFServicesSocket : string := "/run/novanet/ebpf-services.sock".

(** The dial of a socket, the call and the output. *)
Definition connectAgent (agentSocket : string) (dial : result string unit) : result string unit :=
  match dial with Ok _ => Ok tt | Err e => Err ("failed to connect to novanet-agent at " +:+ agentSocket +:+ ": " +:+ e) end.
Definition connectEBPFServices (socket : string) (dial : result string unit) : result string unit :=
  match dial with Ok _ => Ok tt | Err e => Err ("failed to connect to ebpf-services at " +:+ socket +:+ ": " +:+ e) end.

Definition command {R} (conn : result string unit) (rpc : string) (answer : result string R) (out : R -> string) : outcome_of :=
  match conn with
  | Err e => ("", Some e)
  | Ok _ => match answer with Err e => ("", Some (rpc +:+ " failed: " +:+ e)) | Ok r => (out r, None) end
  end.

(** [main]: what is written to the standard error, and the exit code. *)
Definition main (r : outcome_of) : string * string * Z :=
  match r.2 with
  | Some e => (r.1, "Error: " +:+ e +:+ newline, 1)
  | None => (r.1, "", 0)
  end.

Definition Version : string := "0.1.0".
Definition runVersion : outcome_of := ("novanetctl " +:+ Version +:+ newline, None).

Definition print (lines : list (list string)) : string := tabwriter (lines_text lines).
Definition count {A} (l : list A) : string := fmt_d (Z.of_nat (length l)).

(** * Names *)

Definition verdictDeny : string := "DENY".

Definition protocolName (proto : Z) : string :=
  if proto =? 0 then "*" else if proto =? 1 then "ICMP" else if proto =? 6 then "TCP" else if proto =? 17 then "UDP"
  else if proto =? 132 then "SCTP" else fmt_d proto.

Definition verdictName (v : Z) : string := if v =? 1 then "ALLOW" else if v =? 0 then verdictDeny else "UNKNOWN".

Definition dropReasonName (r : Z) : string :=
  if r =? 0 then "-" else if r =? 1 then "POLICY_DENIED" else if r =? 2 then "NO_IDENTITY" else if r =? 3 then "NO_ROUTE"
  else if r =? 4 then "NO_TUNNEL" else if r =? 5 then "TTL_EXCEEDED" else "UNKNOWN(" +:+ fmt_d r +:+ ")".

Definition egressActionName (a : Z) : string :=
  if a =? 0 then verdictDeny else if a =? 1 then "ALLOW" else if a =? 2 then "SNAT" else verdictDeny.

Definition or_star (x : Z) : string := if negb (x =? 0) then fmt_d x else "*".
Definition or_dash (s : string) : string := if String.eqb s "" then "-" else s.
Definition bool_text (b : bool) : string := if b then "true" else "false".

Definition formatLabels {MI : MapIter} (labels : gmap string string) : string :=
  if (size labels =? 0)%nat then "<none>"
  else join ", " ((fun k => k +:+ "=" +:+ default "" (labels !! k)) <$> merge_sort String.le (iter labels).*1).

(** * Agent *)

Section agent.
Context (conn : result string unit).

(** The state of the dataplane in a status; the agent always fills that part in. *)
Definition dp_status (st : AgentStatus) : string := if as_DpConnected st then "connected" else "disconnected".

Definition printStatusTable (resp : AgentStatus) : string :=
  print [["NovaNet Agent Status"]; ["===================="]; [""];
    ["Routing Mode:"; as_RoutingMode resp]; ["Tunnel Protocol:"; as_TunnelProtocol resp]; ["Node IP:"; as_NodeIp resp];
    ["Pod CIDR:"; as_PodCidr resp]; ["Cluster CIDR:"; as_ClusterCidr resp]; [""];
    ["Endpoints:"; fmt_d (as_EndpointCount resp)]; ["Policies:"; fmt_d (as_PolicyCount resp)]; ["Tunnels:"; fmt_d (as_TunnelCount resp)];
    ["Identities:"; fmt_d (as_IdentityCount resp)]; [""];
    ["Dataplane:"; dp_status resp]; ["Attached Programs:"; fmt_d (as_AttachedPrograms resp)];
    ["Routing Connected:"; bool_text (as_NovarouteConnected resp)]].

(** [json] is what the encoder writes and the error it may return. *)
Definition runStatus (json : AgentStatus -> outcome_of) (outputFormat : string) (answer : result string AgentStatus) : outcome_of :=
  match conn, answer with
  | Ok _, Ok resp => if String.eqb outputFormat "json" then json resp else (printStatusTable resp, None)
  | _, _ => command conn "GetAgentStatus" answer printStatusTable
  end.

Definition runMetrics (answer : result string AgentStatus) : outcome_of :=
  command conn "GetAgentStatus" answer (fun status =>
    print [["NOVANET METRICS SUMMARY"]; ["======================="]; [""];
      ["Endpoints:"; fmt_d (as_EndpointCount status)]; ["Identities:"; fmt_d (as_IdentityCount status)];
      ["Policies:"; fmt_d (as_PolicyCount status)]; ["Tunnels:"; fmt_d (as_TunnelCount status)]; [""];
      ["Dataplane Status:"; dp_status status]; ["Attached Programs:"; fmt_d (as_AttachedPrograms status)]; [""];
      ["Note: Detailed flow/drop counters are available via the Prometheus"];
      ["metrics endpoint or by using 'novanetctl flows' / 'novanetctl drops'."]]).

Definition rule_row (r : PolicyRuleInfo) : list string :=
  [or_star (i_SrcIdentity r); or_star (i_DstIdentity r); protocolName (AgentServer.i_Protocol r); or_star (i_DstPort r);
   if i_Action r =? 1 then "ALLOW" else verdictDeny].

Definition policy_lines (rules : list PolicyRuleInfo) : list (list string) :=
  [["POLICY RULES"]; ["============"]; [""]; ["Total Rules:"; count rules]; [""]] ++
  match rules with
  | [] => [["No policies installed."]; [""]; ["Policies are compiled from Kubernetes NetworkPolicy resources."]]
  | _ => ["SRC_IDENTITY"; "DST_IDENTITY"; "PROTOCOL"; "PORT"; "ACTION"] :: (rule_row <$> rules)
  end.

Definition runPolicy (answer : result string (list PolicyRuleInfo)) : outcome_of :=
  command conn "ListPolicies" answer (fun rules => print (policy_lines rules)).

Definition runIdentity {MI : MapIter} (answer : result string (list IdentityInfo)) : outcome_of :=
  command conn "ListIdentities" answer (fun ids => print (
    [["IDENTITY MAPPINGS"]; ["================="]; [""]; ["Total Identities:"; count ids]; [""]] ++
    match ids with
    | [] => [["No identities allocated."]; [""]; ["Identities are allocated when pods are scheduled to this node."]]
    | _ => ["ID"; "POD_COUNT"; "LABELS"] ::
             ((fun i => [fmt_d (i_IdentityId i); fmt_d (i_RefCount i); formatLabels (i_Labels i)]) <$> ids)
    end)).

Definition egress_row (r : EgressPolicyInfo) : list string :=
  [g_Namespace r; g_Name r; or_star (g_SrcIdentity r); g_DstCidr r; protocolName (g_Protocol r); or_star (g_DstPort r); egressActionName (g_Action r)].

Definition runEgress (answer : result string (list EgressPolicyInfo)) : outcome_of :=
  command conn "ListEgressPolicies" answer (fun rules => print (
    [["EGRESS POLICIES"]; ["==============="]; [""]; ["Total Rules:"; count rules]; [""]] ++
    match rules with
    | [] => [["No egress policies installed."]]
    | _ => ["NAMESPACE"; "NAME"; "SRC_IDENTITY"; "DST_CIDR"; "PROTOCOL"; "PORT"; "ACTION"] :: (egress_row <$> rules)
    end)).

Definition runServices (answer : result string (list ServiceInfo)) : outcome_of :=
  command conn "ListServices" answer (fun svcs => print (
    [["L4 LB SERVICES"]; ["=============="]; [""]; ["Total Services:"; count svcs]; [""]] ++
    match svcs with
    | [] => [["No services tracked."]; [""]; ["Enable L4 LB with l4lb.enabled=true in the NovaNet config."]]
    | _ => ["CLUSTER-IP"; "PORT"; "PROTOCOL"; "TYPE"; "BACKENDS"; "ALGORITHM"] ::
             ((fun s => [i_ClusterIp s; fmt_d (i_Port s); ServiceWatcher.i_Protocol s; i_Scope s; fmt_d (i_BackendCount s); i_Algorithm s]) <$> svcs)
    end)).

(** A tunnel as [ListTunnels] of the agent reports it. *)
Record TunnelInfoMsg := mkTunnelMsg {
  tm_NodeName : string; tm_NodeIp : string; tm_PodCidr : string; tm_InterfaceName : string; tm_Ifindex : Z; tm_Protocol : string }.

Definition AgentListTunnels {MI : MapIter} (mgr : option TunnelManager) : list TunnelInfoMsg :=
  match mgr with
  | None => []
  | Some m =>
      (fun t => mkTunnelMsg (ti_NodeName t) (ti_NodeIP t) (ti_PodCIDR t) (ti_InterfaceName t) (wrap32 (ti_Ifindex t)) (tm_protocol m)) <$> ListTunnels m
  end.

(** [ListServices] of the agent: what the watcher tracks, if there is one. *)
Definition AgentListServices (w : option Watcher) (svcs : option (list Service)) (slices : option (list EndpointSlice)) : list ServiceInfo :=
  match w with None => [] | Some w => ListTrackedServices w svcs slices end.

Definition tunnel_row (t : TunnelInfoMsg) : list string :=
  [tm_NodeName t; tm_NodeIp t; tm_PodCidr t; tm_InterfaceName t; fmt_d (tm_Ifindex t); tm_Protocol t].

Definition runTunnels (status : result string AgentStatus) (answer : result string (list TunnelInfoMsg)) : outcome_of :=
  match conn, status with
  | Ok _, Ok st =>
      command conn "ListTunnels" answer (fun tunnels => print (
        [["TUNNEL STATE"]; ["============"]; [""]; ["Routing Mode:"; as_RoutingMode st]; ["Tunnel Protocol:"; as_TunnelProtocol st];
         ["Active Tunnels:"; count tunnels]; [""]] ++
        match tunnels with
        | [] => [["No active tunnels."]; [""];
                 [if String.eqb (as_RoutingMode st) "native" then "Note: Tunnels are not used in native routing mode."
                  else "Note: Tunnels are created when remote nodes join the cluster."]]
        | _ => ["NODE"; "NODE_IP"; "POD_CIDR"; "INTERFACE"; "IFINDEX"; "PROTOCOL"] :: (tunnel_row <$> tunnels)
        end))
  | _, _ => command conn "GetAgentStatus" status (fun _ => "")
  end.
End agent.

(** * Routing *)

(** Spaces up to a width: [%-20s]. *)
Definition pad_right (n : nat) (s : string) : string := s +:+ spaces (n - width s).

(** Decimal digits with leading zeros: [%0nd] of a number that is not negative. *)
Fixpoint fixed_digits (n : nat) (x : Z) : string :=
  match n with O => "" | S n => fixed_digits n (x / 10) +:+ fmt_d (x mod 10) end.

(** [Format("15:04:05.000")] of a time in nanoseconds, [zone] seconds east of Greenwich. *)
Definition clock (zone ns : Z) : string :=
  let ms := (ns / 1000000 + zone * 1000) mod 86400000 in
  fixed_digits 2 (ms / 3600000) +:+ ":" +:+ fixed_digits 2 (ms / 60000 mod 60) +:+ ":" +:+
  fixed_digits 2 (ms / 1000 mod 60) +:+ "." +:+ fixed_digits 3 (ms mod 1000).

(** What [Recv] of a stream returns: a message, the end, or an error, with whether the
    context of the call is cancelled by then. *)
Inductive recv (A : Type) := Message (x : A) | EndOfStream | Broken (e : string) (cancelled : bool).
Arguments Message {A}. Arguments EndOfStream {A}. Arguments Broken {A}.

Section routing.
Context (conn : result string unit).

Definition runRoutingStatus (answer : result string AgentStatus) : outcome_of :=
  command conn "GetAgentStatus" answer (fun resp => print
    [["Routing Status"]; ["=============="]; [""]; ["Routing Mode:"; as_RoutingMode resp];
     ["Routing Connected:"; bool_text (as_NovarouteConnected resp)]; ["Tunnel Protocol:"; as_TunnelProtocol resp]]).

(** A line in place of an empty table. *)
Definition table_or (none : string) (header : list string) (rows : list (list string)) : string :=
  match rows with [] => none +:+ newline | _ => print (header :: rows) end.

Definition peer_header : list string := ["NEIGHBOR"; "REMOTE AS"; "STATE"; "PFX RECV"; "PFX SENT"; "BFD"; "UPTIME"; "OWNER"].
Definition peer_row (p : RoutingPeerInfo) : list string :=
  [ri_NeighborAddress p; fmt_d (ri_RemoteAs p); ri_State p; fmt_d (ri_PrefixesReceived p); fmt_d (ri_PrefixesSent p);
   or_dash (ri_BfdStatus p); or_dash (ri_Uptime p); or_dash (ri_Owner p)].
Definition runRoutingPeers (answer : result string (list RoutingPeerInfo)) : outcome_of :=
  command conn "GetRoutingPeers" answer (fun peers => table_or "No BGP peers configured." peer_header (peer_row <$> peers)).

Definition prefix_row (p : RoutingPrefixInfo) : list string := [rx_Prefix p; rx_Protocol p; rx_State p; rx_Owner p].
Definition runRoutingPrefixes (answer : result string (list RoutingPrefixInfo)) : outcome_of :=
  command conn "GetRoutingPrefixes" answer (fun l =>
    table_or "No prefixes advertised." ["PREFIX"; "PROTOCOL"; "STATE"; "OWNER"] (prefix_row <$> l)).

Definition bfd_row (s : RoutingBFDSessionInfo) : list string :=
  [rb_PeerAddress s; rb_Status s; fmt_d (rb_MinRxMs s) +:+ "ms"; fmt_d (rb_MinTxMs s) +:+ "ms"; fmt_d (rb_DetectMultiplier s);
   or_dash (rb_Uptime s); or_dash (rb_Owner s)].
Definition runRoutingBFD (answer : result string (list RoutingBFDSessionInfo)) : outcome_of :=
  command conn "GetRoutingBFDSessions" answer (fun l =>
    table_or "No BFD sessions." ["PEER ADDRESS"; "STATUS"; "MIN RX"; "MIN TX"; "DETECT MULT"; "UPTIME"; "OWNER"] (bfd_row <$> l)).

Definition ospf_row (n : RoutingOSPFNeighborInfo) : list string :=
  [ro_NeighborId n; ro_Address n; ro_InterfaceName n; ro_State n; or_dash (ro_Owner n)].
Definition runRoutingOSPF (answer : result string (list RoutingOSPFNeighborInfo)) : outcome_of :=
  command conn "GetRoutingOSPFNeighbors" answer (fun l =>
    table_or "No OSPF neighbors." ["NEIGHBOR ID"; "ADDRESS"; "INTERFACE"; "STATE"; "OWNER"] (ospf_row <$> l)).

(** An event with the time the agent stamped it with. *)
Definition event_line (zone : Z -> Z) (ev : Z * RouteEvent) : string :=
  "[" +:+ clock (zone ev.1) ev.1 +:+ "] " +:+ pad_right 20 (re_EventType ev.2) +:+ "  owner=" +:+
  pad_right 10 (or_dash (re_Owner ev.2)) +:+ "  " +:+ re_Detail ev.2 +:+ newline.

(** [None] while the command waits for more; otherwise the error it returns. *)
Fixpoint event_loop (zone : Z -> Z) (stream : list (recv (Z * RouteEvent))) : string * option (option string) :=
  match stream with
  | [] => ("", None)
  | Message ev :: rest => let r := event_loop zone rest in (event_line zone ev +:+ r.1, r.2)
  | EndOfStream :: _ => ("", Some None)
  | Broken e _ :: _ => ("", Some (Some ("event stream error: " +:+ e)))
  end.

Definition runRoutingEvents (zone : Z -> Z) (ownerFilter : string) (open : string -> result string (list (recv (Z * RouteEvent))))
    : string * option (option string) :=
  match conn with
  | Err e => ("", Some (Some e))
  | Ok _ =>
      match open ownerFilter with
      | Err e => ("", Some (Some ("StreamRoutingEvents failed: " +:+ e)))
      | Ok stream =>
          let r := event_loop zone stream in
          ("Streaming routing events (Ctrl+C to stop)..." +:+ newline +:+ newline +:+ r.1, r.2)
      end
  end.
End routing.

(** * Flows *)

Section flows.
Context (conn : result string unit).

Definition flow_header (dropsOnly : bool) : list string :=
  ["TIMESTAMP"; "SRC_IP"; "DST_IP"; "SRC_ID"; "DST_ID"; "PROTO"; "PORT"; "VERDICT"; "BYTES"] ++
  (if dropsOnly then ["DROP_REASON"] else []).

Definition flow_row (showDropReason : bool) (f : FlowMessage) : list string :=
  [clock 0 (fm_timestamp_ns f); fm_src_ip f; fm_dst_ip f; fmt_d (fm_src_identity f); fmt_d (fm_dst_identity f);
   protocolName (fm_protocol f); fmt_d (fm_dst_port f); verdictName (fm_verdict f); fmt_d (fm_bytes f)] ++
  (if showDropReason then [dropReasonName (fm_drop_reason f)] else []).

(** [printFlow] and the flush that follows it. *)
Definition printFlow (showDropReason : bool) (f : FlowMessage) : string := print [flow_row showDropReason f].

(** Standard output, standard error, and how the loop ends: [None] while it waits. *)
Fixpoint flow_loop (dropsOnly : bool) (stream : list (recv FlowMessage)) : string * string * option (option string) :=
  match stream with
  | [] => ("", "", None)
  | Message f :: rest =>
      let '(out, err, r) := flow_loop dropsOnly rest in (printFlow dropsOnly f +:+ out, err, r)
  | EndOfStream :: _ => ("", "", Some None)
  | Broken _ true :: _ => ("", newline +:+ "Stream interrupted." +:+ newline, Some None)
  | Broken e false :: _ => ("", "", Some (Some ("stream error: " +:+ e)))
  end.

(** The stream is what the agent answers to the request, which has both arguments. *)
Definition runFlows (identityFilter : Z) (dropsOnly : bool) (open : Z -> bool -> result string (list (recv FlowMessage)))
    : string * string * option (option string) :=
  match conn with
  | Err e => ("", "", Some (Some e))
  | Ok _ =>
      match open identityFilter dropsOnly with
      | Err e => ("", "", Some (Some ("StreamAgentFlows failed: " +:+ e)))
      | Ok stream =>
          let '(out, err, r) := flow_loop dropsOnly stream in (print [flow_header dropsOnly] +:+ out, err, r)
      end
  end.
End flows.

(** * Services of the eBPF programs *)

(** A float64 made of an integer, and the quotient and the product of two. *)
Definition f64 (n : Z) : spec_float := binary_normalize 53 1024 n 0 false.
Definition f64_div (x y : spec_float) : spec_float := SFdiv 53 1024 x y.
Definition f64_mul (x y : spec_float) : spec_float := SFmul 53 1024 x y.

(** The hundredths nearest to [m * 2 ^ e], the even one of two. *)
Definition hundredths (m e : Z) : Z :=
  if 0 <=? e then m * 100 * 2 ^ e
  else
    let q := m * 100 / 2 ^ (- e) in
    let r := m * 100 mod 2 ^ (- e) in
    if (2 ^ (- e) <? 2 * r) || ((2 * r =? 2 ^ (- e)) && Z.odd q) then q + 1 else q.

(** [%.2f]. *)
Definition fmt_2f (x : spec_float) : string :=
  match x with
  | S754_zero s => (if s then "-" else "") +:+ "0.00"
  | S754_infinity s => (if s then "-" else "+") +:+ "Inf"
  | S754_nan => "NaN"
  | S754_finite s m e =>
      let h := hundredths (Z.pos m) e in
      (if s then "-" else "") +:+ fmt_d (h / 100) +:+ "." +:+ fixed_digits 2 (h mod 100)
  end.

Section ebpf.
Context (conn : result string unit).

Definition runSockmapStatus (answer : result string SockmapStats) : outcome_of :=
  command conn "GetSockmapStats" answer (fun resp => print
    [["SOCKMAP Stats"]; ["============="]; [""]; ["Redirected:"; fmt_d (Redirected resp)]; ["Fallback:"; fmt_d (Fallback resp)];
     ["Active Sockets:"; fmt_d (ActiveEndpoints resp)]]).

Definition runMeshList (answer : result string (list MeshServiceEntry)) : outcome_of :=
  command conn "ListMeshRedirects" answer (fun l => print (
    [["MESH REDIRECTS"]; ["=============="]; [""]] ++
    match l with
    | [] => [["No mesh redirect entries."]]
    | _ => ["IP"; "PORT"; "REDIRECT PORT"] :: ((fun e => [me_IP e; fmt_d (me_Port e); fmt_d (me_RedirectPort e)]) <$> l)
    end)).

Definition runRateLimitStats (cidr : string) (answer : string -> result string (Z * Z)) : outcome_of :=
  command conn "GetRateLimitStats" (answer cidr) (fun resp => print
    [["RATE LIMIT STATS"]; ["================"]; [""]; ["CIDR:"; cidr]; ["Allowed:"; fmt_d resp.1]; ["Denied:"; fmt_d resp.2]]).

(** The failure rate, a fraction in the message here, is the quotient of two float64 in
    the dataplane. *)
Definition health_row (b : BackendHealthInfo) : list string :=
  [bh_IP b; fmt_d (bh_Port b); fmt_d (TotalConns b); fmt_d (SuccessConns b); fmt_d (FailedConns b); fmt_d (TimeoutConns b);
   fmt_2f (f64_div (f64 (AvgRTTNs b)) (f64 1000000)) +:+ "ms";
   fmt_2f (f64_mul (f64_div (f64 (FailureRate b).1) (f64 (FailureRate b).2)) (f64 100)) +:+ "%"].

Definition runHealthList (ip : string) (port : Z) (answer : string -> Z -> result string (list BackendHealthInfo)) : outcome_of :=
  command conn "GetBackendHealth" (answer ip port) (fun l => print (
    [["BACKEND HEALTH"]; ["=============="]; [""]] ++
    match l with
    | [] => [["No backend health data."]]
    | _ => ["IP"; "PORT"; "TOTAL"; "SUCCESS"; "FAILED"; "TIMEOUT"; "AVG RTT"; "FAILURE RATE"] :: (health_row <$> l)
    end)).
End ebpf.

(** * Reading the output back *)

(** The lines of an output, and the words of those after the first [k]. *)
Definition output_lines (out : string) : list string := split_on newline_chr out.
Definition rows_after (k : nat) (out : string) : list (list string) := words <$> drop k (output_lines out).

Definition plain_cell (c : string) : Prop := lacks newline_chr c /\ lacks tab_chr c.
Definition cell_ok (c : string) : Prop := word c /\ plain_cell c.

Lemma number_cell n : 0 <= n -> cell_ok (fmt_d n).
Proof. intros Hn. split; [split; [apply fmt_d_nonempty|]|split]; by apply fmt_d_lacks. Qed.

Lemma or_star_cell n : 0 <= n -> cell_ok (or_star n).
Proof. intros Hn. unfold or_star. case_match; [by apply number_cell|by repeat split]. Qed.

Lemma protocolName_cell n : 0 <= n -> cell_ok (protocolName n).
Proof. intros Hn. unfold protocolName. repeat case_match; try (by repeat split). by apply number_cell. Qed.

Lemma or_dash_cell s : lacks " " s -> plain_cell s -> cell_ok (or_dash s).
Proof. intros Hs Hp. unfold or_dash. destruct (String.eqb_spec s ""); [by repeat split|by split]. Qed.

(** A number is not a name. *)
Lemma number_not_name n c s : 0 <= n -> hex_val c = None -> fmt_d n <> String c s.
Proof.
  intros Hn Hc E. pose proof (fmt_d_lacks c n Hn Hc) as H. rewrite E in H. unfold lacks in H. cbn in H. by rewrite Ascii.eqb_refl in H.
Qed.

Lemma or_star_inj a b : 0 <= a -> 0 <= b -> or_star a = or_star b -> a = b.
Proof.
  intros Ha Hb. unfold or_star. destruct (Z.eqb_spec a 0) as [->|], (Z.eqb_spec b 0) as [->|]; cbn [negb]; intros E; [done| | |by apply fmt_d_inj].
  - by destruct (number_not_name b "*" "").
  - by destruct (number_not_name a "*" "").
Qed.

Lemma protocolName_inj a b : 0 <= a -> 0 <= b -> protocolName a = protocolName b -> a = b.
Proof.
  intros Ha Hb. unfold protocolName.
  repeat match goal with |- context [?x =? ?y] => destruct (Z.eqb_spec x y); subst; try done end; intros E;
    first [by apply fmt_d_inj | exfalso; symmetry in E; revert E; by apply number_not_name | exfalso; revert E; by apply number_not_name].
Qed.

(** ** Rules *)

Definition policy_header : list string := ["SRC_IDENTITY"; "DST_IDENTITY"; "PROTOCOL"; "PORT"; "ACTION"].

Definition policy_sections (rules : list PolicyRuleInfo) : list section :=
  [Plain ["POLICY RULES"; "============"; ""]; Table 0 [["Total Rules:"; count rules]]] ++
  match rules with
  | [] => [Plain [""; "No policies installed."; ""; "Policies are compiled from Kubernetes NetworkPolicy resources."]]
  | _ => [Plain [""]; Table 3 (policy_header :: (rule_row <$> rules))]
  end.

Lemma policy_lines_sections rules : policy_lines rules = sections_lines (policy_sections rules).
Proof. destruct rules; [done|]. cbn. by rewrite app_nil_r. Qed.

(** The numbers of a rule are not negative. *)
Definition rule_ok (r : PolicyRuleInfo) : Prop :=
  0 <= i_SrcIdentity r /\ 0 <= i_DstIdentity r /\ 0 <= AgentServer.i_Protocol r /\ 0 <= i_DstPort r /\ (i_Action r = 0 \/ i_Action r = 1).

Lemma rule_row_cells r : rule_ok r -> Forall cell_ok (rule_row r).
Proof.
  intros (? & ? & ? & ? & ?). repeat constructor; try (by apply or_star_cell || by apply protocolName_cell); by case_match.
Qed.

Lemma rule_row_inj r r' : rule_ok r -> rule_ok r' -> rule_row r = rule_row r' -> r = r'.
Proof.
  intros (? & ? & ? & ? & Ha) (? & ? & ? & ? & Ha') [= E1 E2 E3 E4 E5]. destruct r as [a b c d e], r' as [a' b' c' d' e']; cbn in *.
  apply or_star_inj in E1 as ->; [|done..]. apply or_star_inj in E2 as ->; [|done..]. apply protocolName_inj in E3 as ->; [|done..].
  apply or_star_inj in E4 as ->; [|done..]. f_equal. destruct Ha as [->| ->], Ha' as [->| ->]; done.
Qed.

Lemma Forall_plain l : Forall cell_ok l -> Forall plain_cell l.
Proof. intros H. eapply Forall_impl; [exact H|]. by intros ? [? ?]. Qed.

Lemma Forall_words l : Forall cell_ok l -> Forall word l.
Proof. intros H. eapply Forall_impl; [exact H|]. by intros ? [? ?]. Qed.

Lemma policy_sections_ok rules : Forall rule_ok rules -> Forall section_ok (policy_sections rules) /\ alternate (policy_sections rules).
Proof.
  intros H. assert (section_ok (Table 0 [["Total Rules:"; count rules]])) as Hc.
  { split; [done|]. split; [|by repeat constructor]. apply Forall_singleton. constructor; [done|]. apply Forall_singleton.
    apply (number_cell (Z.of_nat (length rules))). lia. }
  destruct rules as [|r rules]; (split; [|done]); repeat (apply Forall_cons; split); try done; try (by split; [done|split; [repeat constructor|done]]).
  split; [done|]. split; cbn [section_lines].
  - constructor; [by repeat constructor|]. apply Forall_fmap. eapply Forall_impl; [exact H|]. intros r' Hr. by apply Forall_plain, rule_row_cells.
  - constructor; [done|]. by apply Forall_fmap, Forall_true.
Qed.

(** The lines after the sixth are the rules, and an empty last line. *)
Lemma policy_rows r rules :
  Forall rule_ok (r :: rules) -> rows_after 6 (print (policy_lines (r :: rules))) = (rule_row <$> r :: rules) ++ [[]].
Proof.
  intros H. destruct (policy_sections_ok _ H) as [Hok Ha]. unfold rows_after, output_lines, print. rewrite policy_lines_sections.
  fold (sections_text (policy_sections (r :: rules))). rewrite printed_lines by done.
  change (words <$> (tail (section_print (Table 3 (policy_header :: (rule_row <$> r :: rules)))) ++ []) ++ [""] = (rule_row <$> r :: rules) ++ [[]]).
  rewrite app_nil_r, fmap_app, table_reads_back; [done|by apply Forall_fmap, Forall_true|].
  apply Forall_fmap. eapply Forall_impl; [exact H|]. intros r' Hr. by apply Forall_words, rule_row_cells.
Qed.

Lemma no_policy_rows : rows_after 6 (print (policy_lines [])) = [[]; words "Policies are compiled from Kubernetes NetworkPolicy resources."; []].
Proof. reflexivity. Qed.

Lemma listed_rules_ok s : Forall (fun r => 0 <= Protocol r /\ 0 <= DstPort r) (PolicyRules s) -> Forall rule_ok (ListPolicies s).
Proof.
  intros H. apply Forall_fmap. eapply Forall_impl; [exact H|]. intros r [? ?]. unfold rule_ok, wire_identity. cbn.
  repeat split; try done; try apply Z.mod_pos_bound; try done. case_match; auto.
Qed.

(** The text determines the answer it was made from. *)
Lemma printed_rules_inj l l' :
  Forall rule_ok l -> Forall rule_ok l' -> runPolicy (Ok tt) (Ok l) = runPolicy (Ok tt) (Ok l') -> l = l'.
Proof.
  intros H H' E. assert (print (policy_lines l) = print (policy_lines l')) as E' by (by injection E).
  clear E. apply (f_equal (rows_after 6)) in E'. destruct l as [|r l], l' as [|r' l']; [done| | |].
  - by rewrite no_policy_rows, policy_rows in E'.
  - by rewrite no_policy_rows, policy_rows in E'.
  - rewrite !policy_rows in E' by done. apply app_inj_tail in E' as [E' _]. revert E' H H'. generalize (r' :: l'). generalize (r :: l). clear.
    intros a. induction a as [|x a IH]; intros [|y b] E H H'; [done..|]. rewrite !fmap_cons in E. assert (rule_row x = rule_row y /\ rule_row <$> a = rule_row <$> b) as [E1 E2] by (split; congruence).
    apply Forall_cons in H as [Hx H], H' as [Hy H']. f_equal; [by apply rule_row_inj|by apply IH].
Qed.

(** What the listing shows of a rule: the identities as on the wire, protocol, port, and
    whether it allows.  Network, direction and namespace are not shown. *)
Definition shown (r : CompiledRule) : Z * Z * Z * Z * bool :=
  (wire_identity (SrcIdentity r), wire_identity (DstIdentity r), Protocol r, DstPort r, Action r =? Constants.ActionAllow).

Lemma listed_shown s s' : ListPolicies s = ListPolicies s' <-> shown <$> PolicyRules s = shown <$> PolicyRules s'.
Proof.
  unfold ListPolicies. generalize (PolicyRules s) (PolicyRules s'). intros l. induction l as [|r l IH]; intros [|r' l']; [done..|].
  rewrite !fmap_cons. unfold shown at 1 3. split.
  - intros E. injection E as E1 E2 E3 E4 E5 El. rewrite E1, E2, E3, E4. f_equal; [|by apply IH]. f_equal. by destruct (_ =? _), (_ =? _).
  - intros E. injection E as E1 E2 E3 E4 E5 El. rewrite E1, E2, E3, E4, E5. f_equal. by apply IH.
Qed.

(** C40: What [novanetctl policy] prints determines the agent's answer, rule by rule and in
    order; so two agents get the same text exactly if their rules agree in what the listing
    shows: the identities as on the wire, the protocol, the port and the action.  Rules that
    differ only in their network, direction or namespace print alike
    (networks_print_alike). *)
Theorem policy_listing_lossless s s' :
  Forall (fun r => 0 <= Protocol r /\ 0 <= DstPort r) (PolicyRules s) -> Forall (fun r => 0 <= Protocol r /\ 0 <= DstPort r) (PolicyRules s') ->
  (runPolicy (Ok tt) (Ok (ListPolicies s)) = runPolicy (Ok tt) (Ok (ListPolicies s')) <->
   shown <$> PolicyRules s = shown <$> PolicyRules s') /\
  (forall l l', Forall rule_ok l -> Forall rule_ok l' -> runPolicy (Ok tt) (Ok l) = runPolicy (Ok tt) (Ok l') -> l = l').
Proof.
  intros H%listed_rules_ok H'%listed_rules_ok. split; [|apply printed_rules_inj]. rewrite <- listed_shown.
  split; [by apply printed_rules_inj|by intros ->].
Qed.

(** An allowed port and a denied identity, and rules of a network. *)
Definition with_rules (l : list CompiledRule) (s : Server) : Server := set_policy (dp s) (EgressMgr s) l ∅ s.
Definition two_rules (port : Z) : list CompiledRule := [mkCompiled 7 0 6 port 1 "" false "a"; mkCompiled 0 9 0 0 0 "" true "a"].
Definition network_rule (net : string) : list CompiledRule := [mkCompiled 7 0 6 443 1 net true "a"].

Lemma policy_listing_lossless_witness :
  runPolicy (Ok tt) (Ok (ListPolicies (with_rules (two_rules 443) sample_server))) <>
  runPolicy (Ok tt) (Ok (ListPolicies (with_rules (two_rules 80) sample_server))) /\
  output_lines (runPolicy (Ok tt) (Ok (ListPolicies (with_rules (two_rules 443) sample_server)))).1 =
  ["POLICY RULES"; "============"; ""; "Total Rules:  2"; ""; "SRC_IDENTITY  DST_IDENTITY  PROTOCOL  PORT  ACTION";
   "7             *             TCP       443   ALLOW"; "*             9             *         *     DENY"; ""].
Proof.
  split; [|reflexivity]. intros E.
  apply (policy_listing_lossless (with_rules (two_rules 443) sample_server) (with_rules (two_rules 80) sample_server)) in E;
    [discriminate E|by repeat constructor..].
Defined.

(** Rules for two networks print alike: the listing leaves the network out. *)
Theorem networks_print_alike net net' s :
  runPolicy (Ok tt) (Ok (ListPolicies (with_rules (network_rule net) s))) =
  runPolicy (Ok tt) (Ok (ListPolicies (with_rules (network_rule net') s))).
Proof. reflexivity. Qed.

(** ** Labels *)

(** The labels of an identity are printed the same whatever the order of the map. *)
Lemma formatLabels_order (MI MI' : MapIter) labels : formatLabels (MI := MI) labels = formatLabels (MI := MI') labels.
Proof.
  unfold formatLabels. assert (merge_sort String.le (iter (MapIter := MI) labels).*1 = merge_sort String.le (iter (MapIter := MI') labels).*1) as ->; [|done].
  apply (Sorted_unique String.le); [apply Sorted_merge_sort; apply _..|]. by rewrite !merge_sort_Permutation, !iter_perm.
Qed.

(** ** Peers *)

Definition peer_ok (p : RoutingPeerInfo) : Prop :=
  cell_ok (ri_NeighborAddress p) /\ 0 <= ri_RemoteAs p /\ cell_ok (ri_State p) /\ 0 <= ri_PrefixesReceived p /\ 0 <= ri_PrefixesSent p /\
  Forall (fun s => lacks " " s /\ plain_cell s) [ri_BfdStatus p; ri_Uptime p; ri_Owner p].

Lemma peer_row_cells p : peer_ok p -> Forall cell_ok (peer_row p).
Proof.
  intros (? & ? & ? & ? & ? & [[? ?] [[? ?] [[? ?] _]%Forall_cons]%Forall_cons]%Forall_cons). unfold peer_row.
  repeat (apply Forall_cons; split); try done; by apply number_cell || by apply or_dash_cell.
Qed.

(** The lines of [novanetctl routing peers] under the header are the peers the agent lists,
    one a line and eight words each, also where the status, the uptime or the owner of a
    peer is not known. *)
Theorem routing_peers_read_back peers :
  peers <> [] -> Forall peer_ok peers ->
  rows_after 1 (runRoutingPeers (Ok tt) (Ok peers)).1 = (peer_row <$> peers) ++ [[]].
Proof.
  intros Hne H. cbn [runRoutingPeers command fst]. assert (table_or "No BGP peers configured." peer_header (peer_row <$> peers)
    = tabwriter (sections_text [Table 6 (peer_header :: (peer_row <$> peers))])) as ->.
  { unfold sections_text. cbn [sections_lines mbind list_bind section_lines]. rewrite app_nil_r. by destruct peers. }
  unfold rows_after, output_lines. rewrite printed_lines; [|apply Forall_singleton|done].
  - change (words <$> (tail (section_print (Table 6 (peer_header :: (peer_row <$> peers)))) ++ []) ++ [""] = (peer_row <$> peers) ++ [[]]).
    rewrite app_nil_r, fmap_app, table_reads_back; [done|by apply Forall_fmap, Forall_true|].
    apply Forall_fmap. eapply Forall_impl; [exact H|]. intros p Hp. by apply Forall_words, peer_row_cells.
  - split; [done|]. split; cbn [section_lines].
    + constructor; [by repeat constructor|]. apply Forall_fmap. eapply Forall_impl; [exact H|]. intros p Hp. by apply Forall_plain, peer_row_cells.
    + constructor; [done|]. by apply Forall_fmap, Forall_true.
Qed.

Definition sample_peer : RoutingPeerInfo := mkPeerInfo "10.0.0.1" 65001 "Established" "" 3 4 0 0 "" "admin".

Lemma routing_peers_read_back_witness :
  rows_after 1 (runRoutingPeers (Ok tt) (Ok [sample_peer])).1 = [["10.0.0.1"; "65001"; "Established"; "3"; "4"; "-"; "-"; "admin"]; []].
Proof. apply (routing_peers_read_back [sample_peer]); [done|]. by repeat constructor. Defined.

(** ** Flows *)

Lemma clock_plain ns : plain_cell (clock 0 ns).
Proof.
  assert (forall c n x, hex_val c = None -> lacks c (fixed_digits n x)) as H.
  { intros c n. induction n as [|n IH]; intros x Hc; [done|]. cbn [fixed_digits]. apply lacks_app. split; [by apply IH|].
    apply fmt_d_lacks; [|done]. by apply Z.mod_pos_bound. }
  unfold clock, plain_cell. rewrite !lacks_app. repeat split; by apply H.
Qed.

Definition flow_ok (f : FlowMessage) : Prop :=
  plain_cell (fm_src_ip f) /\ plain_cell (fm_dst_ip f) /\ 0 <= fm_src_identity f /\ 0 <= fm_dst_identity f /\ 0 <= fm_protocol f /\
  0 <= fm_dst_port f /\ 0 <= fm_bytes f /\ 0 <= fm_drop_reason f.

Lemma flow_row_plain drops f : flow_ok f -> Forall plain_cell (flow_row drops f).
Proof.
  intros (? & ? & ? & ? & ? & ? & ? & ?). apply Forall_app. split.
  - repeat (apply Forall_cons; split); try done; try apply clock_plain; try (by apply number_cell); try (by apply protocolName_cell).
    unfold verdictName. by repeat case_match.
  - destruct drops; [|done]. apply Forall_singleton. unfold dropReasonName. repeat case_match; try done.
    split; rewrite !lacks_app; (split; [done|]; split; [|done]; by apply fmt_d_lacks).
Qed.

(** Every line of [novanetctl flows] and [novanetctl drops] is written on its own: the
    values are two spaces apart, and no column is aligned with the header or with another
    flow. *)
Theorem flow_lines_not_aligned identity drops flows :
  Forall flow_ok flows ->
  (runFlows (Ok tt) identity drops (fun _ _ => Ok (Message <$> flows))).1.1 =
  join "" ((fun cells => join "  " cells +:+ newline) <$> flow_header drops :: (flow_row drops <$> flows)).
Proof.
  intros H. unfold runFlows. assert (forall l, Forall flow_ok l ->
    (flow_loop drops (Message <$> l)).1.1 = join "" ((fun cells => join "  " cells +:+ newline) <$> (flow_row drops <$> l))) as Hl.
  { intros l. induction 1 as [|f l Hf _ IH]; [done|]. rewrite !fmap_cons, join_empty_cons, <- IH. cbn [flow_loop].
    destruct (flow_loop drops (Message <$> l)) as [[out err] r]. cbn [fst]. unfold printFlow, print. rewrite tabwriter_one_line; [done|by destruct drops; cbn; lia|].
    by apply flow_row_plain. }
  specialize (Hl flows H). destruct (flow_loop drops (Message <$> flows)) as [[out err] r]. cbn [fst] in *.
  rewrite fmap_cons, join_empty_cons, <- Hl. unfold print. by rewrite tabwriter_one_line by (destruct drops; cbn; (lia || by repeat constructor)).
Qed.

Definition sample_flow : FlowMessage := mkFlowMessage "10.244.1.7" "10.244.2.9" 12 34 6 40000 443 1 60 1 1700000000123456789 0 2 4.

Lemma flow_lines_not_aligned_witness :
  (runFlows (Ok tt) 0 false (fun _ _ => Ok (Message <$> [sample_flow]))).1.1 =
  "TIMESTAMP  SRC_IP  DST_IP  SRC_ID  DST_ID  PROTO  PORT  VERDICT  BYTES" +:+ newline +:+
  "22:13:20.123  10.244.1.7  10.244.2.9  12  34  TCP  443  ALLOW  60" +:+ newline.
Proof. apply (flow_lines_not_aligned 0 false [sample_flow]). by repeat constructor. Defined.
