(* ===== verification/AgentMain.v ===== *)
(** The life of the agent process: the start in cmd/novanet-agent/main.go with the set-up
    functions of internal/agent, and GracefulShutdown (setup_servers.go), composed of the
    models of their parts.  A fatal log line is an exit with its reason.  The start ends
    when the process waits for a signal; a wait that goes on is [Diverge].  The managers
    that start empty and that nothing of the start uses (host firewall, bandwidth,
    load-balancer addresses and their announcer) are left out. *)

From Stdlib Require Import ZArith Lia Ascii String.
From stdpp Require Import base tactics list gmap strings fin_maps.
From S2P Require Import Prelude GoStrings GoMap GoNet GoCidr GoText SlotAllocator ServiceWatcher IpamIndex IpamAllocator Identity EbpfMaps Dataplane DpClient DpReads DpHost EgressManager AgentServer.
From S2P Require Import FrrClient Reconciler ReconcilerSync ReconcilerProps RoutingManager Overlay AgentConfig NativeRouting AgentFlows ConfigFile NodeServices NodeLinks.
Import NodeServices.Xdp NodeLinks.WireGuard.

(** * The state of the process *)

Variant server := CNI | AgentSocket | IPAM | EBPFServicesSocket | MetricsSocket.

#[export] Instance server_eq_dec : EqDecision server.
Proof. solve_decision. Defined.

Variant task := ConsumingFlows | WatchingPolicies | SyncingRemote | WatchingNodes | ManagingVip.

(** Why the process exits before it waits for a signal. *)
Inductive exit :=
| ExitConfig (r : exit_reason) | ExitLogger | ExitCluster | ExitParams | ExitNodeIP | ExitIPAM (e : ipam_error)
| ExitListen (s : server) | ExitNodeName | ExitFRR | ExitAdvertise.

(** What the process holds; [r_links] is the daemon's record of XDP programs, [r_host] the
    node's WireGuard device and [r_chain] its masquerade rules. *)
Record process := mkProcess {
  r_cfg : AgentConfig; r_podCIDR : string; r_agent : Server; r_wg : option WireGuardManager; r_host : host;
  r_xdp : option XdpManager; r_links : xdp_state; r_tasks : list task; r_servers : list server; r_routing : option Manager;
  r_services : option Watcher; r_chain : Masquerade.chain; r_conn : bool; r_cancelled : bool }.

(** The world at the start: the configuration and the flags, whether a logger and a client
    of the cluster can be made, the nodes, the state directory, the tools, the daemon, the
    interfaces and the XDP programs the kernel accepts on them, the sockets, what [IsReady]
    of the FRR client answers in turn, the time, and the rules of the node. *)
Record world_at_start := mkStart {
  s_environ : environ; s_file : config_file; s_params : Params; s_logger : bool; s_cluster : bool; s_node : string -> option Node;
  s_mkdir : bool; s_state : option (list (string * bool)); s_files : files; s_host : host; s_daemon : list attempt; s_tables : tables;
  s_links : xdp_state; s_ifaces : option (list iface); s_xdp : string -> bool -> option Z; s_listen : server -> bool;
  s_frr : list bool; s_now : Z; s_controlPlane : bool; s_chain : Masquerade.chain }.

(** * Start *)

Definition xdp_mode (s : string) : Mode :=
  if String.eqb s "disabled" then ModeDisabled else if String.eqb s "native" then ModeNative
  else if String.eqb s "best-effort" then ModeBestEffort else ModeOther s.

(** The functions given to the XDP manager call the daemon with the context of the
    process; a call with a cancelled context does not reach it. *)
Definition attach_call (accepts : string -> bool -> option Z) (cancelled : bool) (iface : string) (native : bool) (x : xdp_state)
    : xdp_state * bool :=
  if cancelled then (x, false)
  else let '(x, r) := attach_xdp (accepts iface native) (if native then 0 else 1) iface x in (x, match r with Ok _ => true | Err _ => false end).

Definition detach_call (cancelled : bool) (x : xdp_state) (iface : string) : xdp_state := if cancelled then x else detach_xdp iface x.

(** The outcome of an attachment does not depend on the ones before. *)
Definition attach_works (accepts : string -> bool -> option Z) (iface : string) (native : bool) : bool :=
  (attach_call accepts false iface native (mkXdp [] [])).2.

Definition start_xdp (w : world_at_start) (mode : Mode) : option XdpManager * xdp_state :=
  match mode with
  | ModeDisabled => (None, s_links w)
  | _ =>
      let '(mgr, calls, _) := AttachAll (attach_works (s_xdp w)) (s_ifaces w) (NewXdpManager mode) in
      (Some mgr, foldl (fun x c => (attach_call (s_xdp w) false c.1 c.2 x).1) (s_links w) calls)
  end.

Definition start_wireguard {TL : Tools} (cfg : AgentConfig) (h : host) : option WireGuardManager * host :=
  if String.eqb (en_Type (Encryption cfg)) "wireguard" then
    let '(h, r) := NewWireGuardManager (WireGuardPort (Encryption cfg)) h in
    (match r with Ok m => Some m | Err _ => None end, h)
  else (None, h).

Definition CreateK8sClient (w : world_at_start) : result exit (option (string -> option Node)) :=
  if String.eqb (pr_NodeName (s_params w)) "" then Ok None else if s_cluster w then Ok (Some (s_node w)) else Err ExitCluster.

Definition CreateEgressManager (cfg : AgentConfig) (nodeIP : IP) : option EgressManager.Manager :=
  if String.eqb (ClusterCIDR cfg) "" then None
  else match ParseCIDR (ClusterCIDR cfg) with None => None | Some (_, net) => Some (EgressManager.NewManager nodeIP (Some net)) end.

Definition SetupMasquerade {IT : Masquerade.Iptables} (cfg : AgentConfig) (podCIDR : string) (c : Masquerade.chain) : Masquerade.chain :=
  if String.eqb (ClusterCIDR cfg) "" then c else (Masquerade.EnsureMasquerade podCIDR (ClusterCIDR cfg) c).1.

(** The watcher of [StartServiceWatcher], before its informers run. *)
Definition start_services (cfg : AgentConfig) (k8s : bool) : option Watcher :=
  if l4_Enabled (L4LB cfg) && k8s then Some (NewWatcher (NewSlotAllocator 65536) (DefaultAlgorithm (L4LB cfg)) (DSR cfg)) else None.

(** [WaitForFRR]: at most thirty attempts. *)
Fixpoint WaitForFRR (attempt : nat) (ready : list bool) : outcome bool :=
  match ready with
  | [] => Diverge
  | true :: _ => Val true
  | false :: rest => if (30 <=? attempt)%nat then Val false else WaitForFRR (S attempt) rest
  end.

(** The servers in the order they are started; only the metrics server does not need its
    socket at once. *)
Definition wanted_servers (cfg : AgentConfig) : list server :=
  [CNI; AgentSocket; IPAM] ++ (if es_Enabled (EBPFServices cfg) then [EBPFServicesSocket] else []).

Definition start_servers (w : world_at_start) (cfg : AgentConfig) : result exit (list server) :=
  match list_find (fun s => s_listen w s = false) (wanted_servers cfg) with
  | Some (_, s) => Err (ExitListen s)
  | None => Ok (wanted_servers cfg ++ [MetricsSocket])
  end.

(** [InitRoutingMode]: the routing manager, if there is one, and the tasks that are added. *)
Definition InitRoutingMode (w : world_at_start) (cfg : AgentConfig) (k8s : bool) (nodeIP : IP) (podCIDR nodeName : string)
    : outcome (result exit (option Manager * list task)) :=
  if String.eqb (to_lower (RoutingMode cfg)) "overlay" then Val (if k8s then Ok (None, [WatchingNodes]) else Err ExitNodeName)
  else if String.eqb (to_lower (RoutingMode cfg)) "native" then
    if negb k8s then Val (Err ExitNodeName)
    else
      ready ← WaitForFRR 1 (s_frr w);
      if negb ready : bool then Val (Err ExitFRR)
      else
        r ← InitNativeMode (s_now w) cfg nodeIP podCIDR nodeName (s_controlPlane w);
        Val match r with
            | None => Err ExitAdvertise
            | Some (m, vip) => Ok (Some m, match vip with Some _ => [ManagingVip] | None => [] end ++ [WatchingNodes])
            end
  else Val (Ok (None, [])).

Definition is_Some_b {A} (o : option A) : bool := match o with Some _ => true | None => false end.

(** The part of [main] that can exit before the daemon is asked for. *)
Definition prepare (w : world_at_start) : outcome (result exit (AgentConfig * option (string -> option Node) * Params * IP * IpamAllocator.Allocator)) :=
  match LoadConfig (s_environ w) (s_file w) with
  | Err r => Val (Err (ExitConfig r))
  | Ok cfg =>
      if negb (s_logger w) then Val (Err ExitLogger)
      else match CreateK8sClient w with
      | Err e => Val (Err e)
      | Ok k8s =>
          match ResolveNodeParams k8s (s_params w) with
          | None => Val (Err ExitParams)
          | Some p =>
              match ParseIP (pr_NodeIPStr p) with
              | None => Val (Err ExitNodeIP)
              | Some nodeIP =>
                  a ← NewAllocatorWithStateDir (pr_PodCIDR p) "/var/lib/cni/networks/novanet" (s_mkdir w) (s_state w);
                  Val match a with Err e => Err (ExitIPAM e) | Ok a => Ok (cfg, k8s, p, nodeIP, a) end
              end
          end
      end
  end.

Definition main {DN : DpNet} {MI : MapIter} {TL : Tools} {IT : Masquerade.Iptables} (w : world_at_start) : outcome (result exit process) :=
  r ← prepare w;
  match r with
  | Err e => Val (Err e)
  | Ok (cfg, k8s, p, nodeIP, a) =>
      let chain := SetupMasquerade cfg (pr_PodCIDR p) (s_chain w) in
      let '(wg, h) := start_wireguard cfg (s_host w) in
      let start (connected : bool) : outcome (result exit process) :=
        let d := if connected then (PushDataplaneConfig cfg nodeIP (pr_PodCIDR p) (mkDpc (s_tables w) 0)).1 else mkDpc (s_tables w) 0 in
        let '(xdp, links) := if connected then start_xdp w (xdp_mode (XDPAcceleration cfg)) else (None, s_links w) in
        let agent := set_dp d (NewServer a (s_files w) Identity.NewAllocator (is_Some_b k8s) nodeIP connected (s_tables w) (CreateEgressManager cfg nodeIP)) in
        let tasks := (if connected then [ConsumingFlows] else []) ++ (if is_Some_b k8s then [WatchingPolicies] else []) ++
                     (if is_Some_b k8s && connected then [SyncingRemote] else []) in
        match start_servers w cfg with
        | Err e => Val (Err e)
        | Ok servers =>
            r ← InitRoutingMode w cfg (is_Some_b k8s) nodeIP (pr_PodCIDR p) (pr_NodeName p);
            Val match r with
                | Err e => Err e
                | Ok (routing, more) =>
                    Ok (mkProcess cfg (pr_PodCIDR p) agent wg h xdp links (tasks ++ more) servers routing
                          (if connected then start_services cfg (is_Some_b k8s) else None) chain connected false)
                end
        end in
      match ConnectToDataplane (s_daemon w) 0 0 with
      | (_, _, Connected) => start true
      | (_, _, GaveUp) => start false
      | (_, _, Trying) => Diverge
      end
  end.

(** * Shutdown *)

(** [GracefulStop] of a gRPC server returns when its last call has: it waits for streams
    that the clients keep open.  The flow stream, the pool watch and the health stream end
    only with their client; [streams] counts them at the time of the signal. *)
Fixpoint stop_servers (streams : server -> nat) (l : list server) : outcome unit :=
  match l with
  | [] => Val tt
  | s :: rest => if (streams s =? 0)%nat then stop_servers streams rest else Diverge
  end.

Definition grpc_servers (l : list server) : list server := filter (fun s => s <> MetricsSocket) l.

Definition stop_routing (podCIDR : string) (m : option Manager) : outcome (option Manager) :=
  match m with None => Val None | Some m => m' ← ShutdownRouting podCIDR m; Val (Some m') end.

(** The context is cancelled first; the tasks, which watch it, have ended when
    [bgWg.Wait] returns. *)
Definition GracefulShutdown {MI : MapIter} {TL : Tools} (streams : server -> nat) (p : process) : outcome process :=
  let cancelled := true in
  routing ← stop_routing (r_podCIDR p) (r_routing p);
  _ ← stop_servers streams (grpc_servers (r_servers p));
  let '(xdp, links) :=
    match r_xdp p with
    | None => (None, r_links p)
    | Some mgr => let '(mgr, names) := DetachAll mgr in (Some mgr, foldl (detach_call cancelled) (r_links p) names)
    end in
  let h := match r_wg p with None => r_host p | Some _ => (Close (r_host p)).1 end in
  Val (mkProcess (r_cfg p) (r_podCIDR p) (r_agent p) (r_wg p) h xdp links [] [] routing (r_services p) (r_chain p) false cancelled).

(** ** When it ends *)

Lemma stop_servers_val streams l : stop_servers streams l = Val tt <-> Forall (fun s => streams s = 0%nat) l.
Proof.
  induction l as [|s l IH]; cbn [stop_servers]; [by split|]. rewrite Forall_cons, <- IH.
  destruct (Nat.eqb_spec (streams s) 0); split; [auto|by intros []|done|by intros []].
Qed.

Definition routing_ok {VT : Vtysh} (m : option Manager) : Prop := match m with None => True | Some m => mgr_reachable m end.

Lemma stop_routing_val {VT : Vtysh} podCIDR m : routing_ok m -> exists m', stop_routing podCIDR m = Val m'.
Proof.
  destruct m as [m|]; [|by eexists]. intros Hm. destruct (shutdown_leaves_prefix_advertised m podCIDR Hm) as (m' & E & _).
  exists (Some m'). unfold stop_routing. by rewrite E.
Qed.

(** The process ends after a signal exactly if no client holds a stream open at one of its
    sockets: nothing bounds the wait for them. *)
Theorem shutdown_ends_iff {MI : MapIter} {TL : Tools} {VT : Vtysh} streams p :
  routing_ok (r_routing p) ->
  (exists p', GracefulShutdown streams p = Val p') <-> Forall (fun s => streams s = 0%nat) (grpc_servers (r_servers p)).
Proof.
  intros Hr. destruct (stop_routing_val (r_podCIDR p) _ Hr) as (m' & E). unfold GracefulShutdown. rewrite E. cbn [mbind outcome_bind].
  rewrite <- stop_servers_val. split.
  - intros (p' & H). destruct (stop_servers streams _) as [[]| |]; [done|done|done].
  - intros ->. cbn. destruct (r_xdp p) as [mgr|]; by eexists.
Qed.

(** ** What it leaves *)

(** An interface counts as attached only after a call for it that worked. *)
Lemma attached_called f names : forall mgr calls mgr' calls',
  foldl (attach_one f) (mgr, calls) names = (mgr', calls') ->
  calls ⊆ calls' /\
  forall n, attached mgr' !! n = Some true -> attached mgr !! n = Some true \/ exists native, (n, native) ∈ calls' /\ f n native = true.
Proof.
  induction names as [|x names IH]; intros mgr calls mgr' calls'; cbn [foldl]; [intros [= <- <-]; by split; [|left]|].
  destruct (attach_one f (mgr, calls) x) as [m1 c1] eqn:E1. intros E2. destruct (IH _ _ _ _ E2) as [Hc Hn].
  assert (calls ⊆ c1 /\ forall n, attached m1 !! n = Some true -> attached mgr !! n = Some true \/ exists native, (n, native) ∈ c1 /\ f n native = true)
    as [Hc1 Hn1].
  { assert (forall b, f x b = true -> (x, b) ∈ c1 -> forall n, <[x := true]> (attached mgr) !! n = Some true ->
      attached mgr !! n = Some true \/ exists native, (n, native) ∈ c1 /\ f n native = true) as Hins.
    { intros b Hb Hin n. rewrite lookup_insert_Some. intros [[<- _]|[_ H]]; [right; by exists b|by left]. }
    unfold attach_one in E1. destruct (f x (is_native (mode mgr))) eqn:Ef; [|destruct (is_best_effort (mode mgr))].
    - injection E1 as <- <-. split; [set_solver|]. cbn [attached]. apply (Hins _ Ef). set_solver.
    - injection E1 as <- <-. split; [set_solver|]. destruct (f x false) eqn:Eg; [|by left]. cbn [attached]. apply (Hins _ Eg). set_solver.
    - injection E1 as <- <-. split; [set_solver|by left]. }
  split; [set_solver|]. intros n [H|H]%Hn; [|by right]. destruct (Hn1 n H) as [?|(b & Hb & ?)]; [by left|right]. exists b. split; [by apply Hc|done].
Qed.

Lemma attach_call_links accepts iface native x :
  xdp_links (attach_call accepts false iface native x).1 = xdp_links x ++ (if attach_works accepts iface native then [iface] else []).
Proof.
  unfold attach_works, attach_call, attach_xdp. destruct native; cbn; destruct (accepts iface _); cbn; by rewrite ?app_nil_r.
Qed.

Lemma calls_links accepts calls : forall x n,
  n ∈ xdp_links x \/ (exists native, (n, native) ∈ calls /\ attach_works accepts n native = true) ->
  n ∈ xdp_links (foldl (fun x c => (attach_call accepts false c.1 c.2 x).1) x calls).
Proof.
  induction calls as [|[i b] calls IH]; intros x n H; cbn [foldl].
  - destruct H as [H|(b & H & _)]; [done|by apply elem_of_nil in H].
  - apply IH. rewrite attach_call_links. cbn [fst snd]. destruct H as [H|(b' & [[= -> ->]|H]%elem_of_cons & Hw)].
    + left. apply elem_of_app. by left.
    + left. rewrite Hw. apply elem_of_app. right. by left.
    + right. by exists b'.
Qed.

Lemma start_xdp_links w m mgr x n : start_xdp w m = (Some mgr, x) -> attached mgr !! n = Some true -> n ∈ xdp_links x.
Proof.
  intros E Hn. assert (exists mgr0 calls e, AttachAll (attach_works (s_xdp w)) (s_ifaces w) (NewXdpManager m) = (mgr0, calls, e) /\ mgr = mgr0 /\
    x = foldl (fun x c => (attach_call (s_xdp w) false c.1 c.2 x).1) (s_links w) calls) as (mgr0 & calls & e & Ea & <- & ->).
  { unfold start_xdp in E. destruct m; [done|..]; destruct (AttachAll _ _ _) as [[mgr0 calls] e]; injection E as <- <-; by eexists _, _, _. }
  assert (forall names, foldl (attach_one (attach_works (s_xdp w))) (NewXdpManager m, []) names = (mgr, calls) ->
    n ∈ xdp_links (foldl (fun x c => (attach_call (s_xdp w) false c.1 c.2 x).1) (s_links w) calls)) as Hf.
  { intros names Ef. apply calls_links. right. destruct (attached_called _ _ _ _ _ _ Ef) as [_ H]. by destruct (H n Hn). }
  unfold AttachAll in Ea. cbn [mode NewXdpManager] in Ea.
  destruct m; [by simplify_eq; rewrite lookup_empty in Hn|..]; (destruct (s_ifaces w) as [l|]; [|by simplify_eq; rewrite lookup_empty in Hn];
    destruct (if_Name <$> _) as [|i names]; [by simplify_eq; rewrite lookup_empty in Hn|]; apply (Hf (i :: names));
    destruct (foldl _ _ _) as [? ?]; by simplify_eq).
Qed.

Lemma main_xdp {DN : DpNet} {MI : MapIter} {TL : Tools} {IT : Masquerade.Iptables} w p mgr :
  main w = Val (Ok p) -> r_xdp p = Some mgr -> exists m, start_xdp w m = (Some mgr, r_links p).
Proof.
  unfold main. destruct (prepare w) as [[[[[[cfg k8s] pr] nodeIP] a]|e]| |]; try done. cbn [mbind outcome_bind].
  destruct (start_wireguard cfg (s_host w)) as [wg h]. destruct (ConnectToDataplane (s_daemon w) 0 0) as [[? ?] [| |]]; [| |done]; cbn zeta.
  - destruct (start_xdp w (xdp_mode (XDPAcceleration cfg))) as [xdp links] eqn:Ex. destruct (start_servers w cfg); [|done].
    destruct (InitRoutingMode _ _ _ _ _ _) as [[[rt more]|]| |]; try done. intros [= <-]. cbn [r_xdp r_links]. intros ->. by eexists.
  - destruct (start_servers w cfg); [|done]. destruct (InitRoutingMode _ _ _ _ _ _) as [[[rt more]|]| |]; try done. by intros [= <-].
Qed.

(** XDP programs outlive the agent.  The context is cancelled before they are detached, and
    the calls that detach them use it: every interface the manager had attached since the
    start is still attached in the daemon when the process ends, while the manager reports
    none. *)
Theorem xdp_outlives_agent {DN : DpNet} {MI : MapIter} {TL : Tools} {IT : Masquerade.Iptables} w p streams p' mgr n :
  main w = Val (Ok p) -> GracefulShutdown streams p = Val p' -> r_xdp p = Some mgr -> attached mgr !! n = Some true ->
  n ∈ xdp_links (r_links p') /\ (AttachedInterfaces <$> r_xdp p') = Some [].
Proof.
  intros Hm Hs Hx Hn. destruct (main_xdp _ _ _ Hm Hx) as (m & E). pose proof (start_xdp_links _ _ _ _ _ E Hn) as Hl.
  unfold GracefulShutdown in Hs. rewrite Hx in Hs. destruct (stop_routing _ _) as [rt| |]; [|done..]. cbn [mbind outcome_bind] in Hs.
  destruct (stop_servers _ _) as [[]| |]; [|done..]. injection Hs as <-. cbn [r_links r_xdp DetachAll fmap option_fmap option_map].
  unfold AttachedInterfaces. cbn [attached]. rewrite iter_empty. split; [|done].
  generalize (iter (attached mgr)).*1. intros l. induction l as [|i l IH]; [exact Hl|exact IH].
Qed.

(** ** What a start gives *)

Lemma prepare_ok w cfg k8s p nodeIP a :
  prepare w = Val (Ok (cfg, k8s, p, nodeIP, a)) ->
  ValidateAgent cfg = None /\ IpamAllocator.inv a /\ (is_Some_b k8s = true -> pr_NodeName (s_params w) <> "").
Proof.
  unfold prepare, LoadConfig. intros H. assert (exists c, LoadFromFile (s_file w) = Ok c) as [c El] by (destruct (LoadFromFile _); [by eexists|done]).
  rewrite El in H. destruct (ValidateAgent (ExpandAgentEnv (s_environ w) c)) eqn:Ev; [done|]. destruct (s_logger w); [|done].
  unfold CreateK8sClient in H. destruct (String.eqb_spec (pr_NodeName (s_params w)) ""); [|destruct (s_cluster w); [|done]]; cbn [negb] in H;
    (destruct (ResolveNodeParams _ _) as [p0|]; [|done]; destruct (ParseIP _) as [ip|]; [|done];
     destruct (NewAllocatorWithStateDir _ _ _ _) as [[a0|?]| |] eqn:Ea; [|done..]; injection H as <- <- <- <- <-;
     destruct (new_inv _ _ _ _ _ Ea) as (? & ? & ? & ? & _ & _ & _ & Hi & _); done).
Qed.

Lemma start_servers_ok w cfg l :
  start_servers w cfg = Ok l -> Forall (fun s => s_listen w s = true) (wanted_servers cfg) /\ l = wanted_servers cfg ++ [MetricsSocket].
Proof.
  unfold start_servers. destruct (list_find _ _) as [[i s]|] eqn:E; [done|]. intros [= <-]. split; [|done].
  apply list_find_None in E. eapply Forall_impl; [exact E|]. cbn. intros s H. by apply not_false_is_true.
Qed.

Lemma InitRoutingMode_ok w cfg k8s nodeIP podCIDR nodeName rt more :
  ValidateAgent cfg = None -> InitRoutingMode w cfg k8s nodeIP podCIDR nodeName = Val (Ok (rt, more)) ->
  k8s = true /\ WatchingNodes ∈ more /\ (is_Some rt <-> to_lower (RoutingMode cfg) = "native").
Proof.
  intros Hv. assert (to_lower (RoutingMode cfg) ∈ ["overlay"; "native"]) as Hmode.
  { unfold ValidateAgent in Hv. repeat (case_match; [done|]). unfold one_of in *.
    match goal with H : negb (bool_decide (to_lower (RoutingMode cfg) ∈ _)) = false |- _ => by apply negb_false_iff, bool_decide_eq_true in H end. }
  unfold InitRoutingMode. destruct (String.eqb_spec (to_lower (RoutingMode cfg)) "overlay") as [Eo|Eo].
  - destruct k8s; [|done]. intros [= <- <-]. rewrite Eo. split; [done|]. split; [by left|]. split; [by intros [? ?]|done].
  - destruct (String.eqb_spec (to_lower (RoutingMode cfg)) "native") as [En|En]; [|set_solver]. destruct k8s; [|done]. cbn [negb].
    destruct (WaitForFRR _ _) as [[]| |]; try done. cbn [mbind outcome_bind negb].
    destruct (InitNativeMode _ _ _ _ _ _) as [[[m vip]|]| |]; try done. intros [= <- <-].
    split; [done|]. split; [|by split]. apply elem_of_app. right. by left.
Qed.

(** An agent that gets as far as waiting for a signal has a valid configuration, an address
    allocator in a consistent state and the name of its node, serves on every socket it is
    configured for and watches the nodes, and has a routing manager exactly in native
    mode. *)
Theorem started_agent_is_ready {DN : DpNet} {MI : MapIter} {TL : Tools} {IT : Masquerade.Iptables} w p :
  main w = Val (Ok p) ->
  ValidateAgent (r_cfg p) = None /\ IpamAllocator.inv (IPAlloc (r_agent p)) /\ pr_NodeName (s_params w) <> "" /\
  Forall (fun s => s_listen w s = true) (wanted_servers (r_cfg p)) /\ r_servers p = wanted_servers (r_cfg p) ++ [MetricsSocket] /\
  WatchingNodes ∈ r_tasks p /\ (is_Some (r_routing p) <-> to_lower (RoutingMode (r_cfg p)) = "native").
Proof.
  unfold main. destruct (prepare w) as [[[[[[cfg k8s] pr] nodeIP] a]|e]| |] eqn:Ep; try done. cbn [mbind outcome_bind].
  destruct (prepare_ok _ _ _ _ _ _ Ep) as (Hv & Ha & Hk).
  destruct (start_wireguard cfg (s_host w)) as [wg h]. destruct (ConnectToDataplane (s_daemon w) 0 0) as [[? ?] [| |]]; [| |done]; cbn zeta;
    [destruct (start_xdp w (xdp_mode (XDPAcceleration cfg))) as [xdp links]|];
    (destruct (start_servers w cfg) as [l|] eqn:Es; [|done]; destruct (InitRoutingMode _ _ _ _ _ _) as [[[rt more]|]| |] eqn:Er; try done;
     intros [= <-]; destruct (start_servers_ok _ _ _ Es) as [Hl ->]; destruct (InitRoutingMode_ok _ _ _ _ _ _ _ _ Hv Er) as (Hk8 & Hw & Hrt);
     cbn [r_cfg r_agent r_servers r_tasks r_routing]; split_and!; try done; [by apply Hk|rewrite ?elem_of_cons, ?elem_of_app; tauto]).
Qed.

(** * Examples *)

(** Tools that do what they are asked, on a node without the device. *)
Definition obliging : Tools.
Proof.
  refine {| accepts := fun c h => match c, dev h with IpLinkAdd, None => true | IpLinkAdd, Some _ => false | _, Some _ => true | _, None => false end;
            genkey := Some "private"; pubkey := fun _ => Some "public" |}.
  - intros h. by destruct (dev h).
  - intros [] h; destruct (dev h); done.
Defined.

Definition sample_start : world_at_start :=
  mkStart ∅ (Document (JObj [("xdp_acceleration", JStr "native")])) (mkParams "" "10.244.1.0/29" "10.0.0.1" "node-1") true true
    (fun _ => None) true (Some []) ∅ (mkHost None ∅) [mkAttempt false true true false] empty_tables (mkXdp [] []) (Some sample_ifaces)
    (fun _ _ => Some 7) (fun _ => true) [] 0 false [].

Definition started (r : result exit process) : bool :=
  match r with
  | Ok p => match r_xdp p with Some mgr => bool_decide (attached mgr !! "eth0" = Some true) | None => false end && negb (is_Some_b (r_routing p)) &&
          bool_decide (AgentSocket ∈ r_servers p)
  | Err _ => false
  end.

Lemma sample_started : match main (DN := dp_reliable) (MI := iter_forward) (TL := obliging) (IT := Masquerade.chain_tool) sample_start with Val r => started r | _ => false end = true.
Proof. vm_compute. reflexivity. Qed.

Lemma sample_process :
  exists p mgr, main (DN := dp_reliable) (MI := iter_forward) (TL := obliging) (IT := Masquerade.chain_tool) sample_start = Val (Ok p) /\
    r_xdp p = Some mgr /\ attached mgr !! "eth0" = Some true /\ r_routing p = None /\ AgentSocket ∈ r_servers p.
Proof.
  pose proof sample_started as H. destruct (main sample_start) as [[p|]| |]; [|done..]. cbn [started] in H.
  destruct (r_xdp p) as [mgr|] eqn:Ex; [|done]. apply andb_true_iff in H as [[H1%bool_decide_eq_true H2]%andb_true_iff H3%bool_decide_eq_true]. exists p, mgr.
  split_and!; [done..| |done]. by destruct (r_routing p).
Qed.

Lemma quiet_shutdown {MI : MapIter} {TL : Tools} p : r_routing p = None -> exists p', GracefulShutdown (fun _ => 0%nat) p = Val p'.
Proof.
  intros Hr. unfold GracefulShutdown. rewrite Hr. cbn [stop_routing mbind outcome_bind].
  rewrite (proj2 (stop_servers_val (fun _ => 0%nat) _)) by (apply Forall_true; done). cbn. destruct (r_xdp p); by eexists.
Qed.

Lemma xdp_outlives_agent_witness :
  exists p p', main (DN := dp_reliable) (MI := iter_forward) (TL := obliging) (IT := Masquerade.chain_tool) sample_start = Val (Ok p) /\
    GracefulShutdown (MI := iter_forward) (TL := obliging) (fun _ => 0%nat) p = Val p' /\ "eth0" ∈ xdp_links (r_links p').
Proof.
  destruct sample_process as (p & mgr & E & Hx & Hn & Hr & _). destruct (quiet_shutdown (MI := iter_forward) (TL := obliging) p Hr) as (p' & Eg).
  exists p, p'. split; [exact E|]. split; [exact Eg|].
  apply (xdp_outlives_agent (DN := dp_reliable) (MI := iter_forward) (TL := obliging) (IT := Masquerade.chain_tool) sample_start p (fun _ => 0%nat) p' mgr "eth0" E Eg Hx Hn).
Defined.

Lemma started_agent_is_ready_witness :
  exists p, main (DN := dp_reliable) (MI := iter_forward) (TL := obliging) (IT := Masquerade.chain_tool) sample_start = Val (Ok p) /\ WatchingNodes ∈ r_tasks p.
Proof.
  destruct sample_process as (p & mgr & E & _). exists p. split; [exact E|].
  apply (started_agent_is_ready (DN := dp_reliable) (MI := iter_forward) (TL := obliging) (IT := Masquerade.chain_tool) sample_start p E).
Defined.

(** While a client streams flows from the agent's socket the process does not end. *)
Definition one_stream (s : server) : nat := match s with AgentSocket => 1 | _ => 0 end.

Lemma shutdown_ends_iff_witness :
  exists p, main (DN := dp_reliable) (MI := iter_forward) (TL := obliging) (IT := Masquerade.chain_tool) sample_start = Val (Ok p) /\
    (exists p', GracefulShutdown (MI := iter_forward) (TL := obliging) (fun _ => 0%nat) p = Val p') /\
    (~ exists p', GracefulShutdown (MI := iter_forward) (TL := obliging) one_stream p = Val p').
Proof.
  destruct sample_process as (p & mgr & E & _ & _ & Hr & Hs). exists p. split; [exact E|]. split.
  - apply (shutdown_ends_iff (MI := iter_forward) (TL := obliging) (VT := frr_accepts) (fun _ => 0%nat) p); [by rewrite Hr|by apply Forall_true].
  - intros H. apply (shutdown_ends_iff (MI := iter_forward) (TL := obliging) (VT := frr_accepts) one_stream p) in H; [|by rewrite Hr].
    rewrite Forall_forall in H. specialize (H AgentSocket). discriminate H. apply list_elem_of_filter. by split.
Defined.
